(* ===== verification/_CoqProject ===== *)
-Q . S2P
Prelude.v
KQueue.v
CString.v
Memory.v
Paging.v
KObj.v
Device.v
DeviceFrame.v
DeviceSpec.v
Ata.v
TaskMem.v
Fat.v
FatTable.v
FatDir.v
FatFile.v
FatNames.v
LinkedList.v
Kern.v
Sched.v
Events.v
Hoare.v
KMem.v
TaskMake.v
TaskMakeSpec.v
Elf.v
ElfSpec.v
Quiet.v
KSync.v
KSyncSpec.v
Msg.v
MsgSpec.v
MsgCall.v
MsgCalm.v
MsgCallSpec.v
MsgClose.v
MsgLinks.v
TaskEnd.v
TaskEndSpec.v
Timer.v
TimerSpec.v
Futex.v
FutexSpec.v
Pipe.v
PipeSpec.v
USort.v
UMap.v
UHeap.v
Sbrk.v
Net.v
Rtl.v
NetIp.v
NetIpSpec.v
NetArp.v
