(* ===== verification/Prelude.v ===== *)
(** * A verification of x86-os

    x86-os (f3sys) is a 32-bit operating system in C: a kernel with physical and virtual
    memory, tasks that it switches preemptively, kernel mutexes, futexes, timed events, kernel
    objects with handles, message ports and pipes; a FAT16 file system on an ATA disk; and
    user programs with a library of their own, among them a network stack. This library
    models the parts of it that hold state or logic and proves what each part promises to the
    others. Every definition is a translation of the functions of [src/] that the manifest
    names; its parameters are the parts of the machine, of the compiler's library and of the
    window system that the code calls.

    ** Conventions

    An integer is a [Z]; where the C type wraps, the conversions [u8], [u16], [u32] and [s32]
    of this file are written out. A conversion to a signed type wraps, as the compiler
    defines it; signed arithmetic that overflows is undefined in C, is modelled as wrapping,
    and is excluded by the hypotheses of the theorems where it matters. A [char] is its byte.
    A buffer is a list or a map from addresses to bytes. An array is read with [zget], which
    is [None] outside it. [None], [Fault] or [Panic] is what the program does when it touches
    memory outside its objects or stops itself: a theorem that says that a function returns
    [Some] or [Ret] says that it does neither.

    A loop over an array is a [Fixpoint] on the number of its turns. Other loops run on fuel,
    and running out of it is an outcome of its own ([Hang]) or [None]; the theorems say that
    it does not happen. The bounds are: the sixteen slots of the task array ([next_task],
    [kernel_yield]); [size] of a map of objects plus one or two for a walk along a list
    ([find_port], the timed events, the futex waiters, the blocks of the user heap), since a
    list has no object twice; the number of bytes asked for in the loops over a pipe, which
    move at least one a turn; [queued_fuel] for the queue of events of a task, whose 64
    events and at most 16 retried notifications are each taken off once; one turn more than
    the queue has places when the queue of a task that ends is freed; 4097 for the length of
    an argument of a program, which is at most a page; a depth of two for [end_task_helper],
    since only the main thread of a process ends others, and those are not main; the length of the
    file for the program headers; 4 for the carries of the Internet checksum, which are gone
    after two; 1024 for the packets of the 8 KB receive ring, each at least 8 bytes; the
    capacity of the table for a probe; the length of the array for the scans of the sort.

    ** Files, from the bottom up

    Data and memory:
    - Prelude: integers, arrays, a state monad, transition systems, tactics;
    - KQueue: the ring buffer of kqueue.h, as a bounded list;
    - CString: lib/string.c over a memory of bytes;
    - Memory: the block allocator of memory.c; the class [Allocator] is what its clients use;
    - Paging: paging.c, over an [Allocator]: directories, tables and the TLB;
    - KObj: kobj.c and the handles and mapped regions of tasks.c, over Paging;
    - Device: shared.c, dma.c and pci.c with their system calls, over KObj, whose hooks they
      carry out; DeviceFrame, DeviceSpec: their theorems;
    - TaskMem: the checks of user addresses, the lazy heap and the copies of tasks.c, over
      Paging; [UserBuffer] is what the file system asks of them.

    Disk and files:
    - Ata: ata.c, over a drive that may fail in any way its status register can report;
    - Fat, FatTable: the table, the chains and their flush (fat.c), over Ata, and what the
      chain operations do to files;
    - FatDir, FatFile, FatNames: names, directories, paths and contents (fat.c), over Fat.

    Tasks. The kernel state [kern] and the monad [K] of Kern are shared by all of these; a
    call in [K] returns ([Ret]), or the processor leaves it for another task ([Away]; what the
    call does when its task is resumed is a definition of its own, such as [kmutex_resume]),
    or it panics, faults or hangs. [Hoare] has the postconditions [wp], [returns], [exits] and
    [runs] of such calls; the class [Space] is what they need of memory:
    - Kern: tasks.h, msg.h, ksync.h; Sched: the scheduler and the switches of tasks.c;
    - Events: the event queue, callbacks and voluntary switches (tasks.c, msg.c); Quiet: what
      these leave alone;
    - KMem: the instance of [Space] over TaskMem;
    - TaskMake, TaskMakeSpec: the creation of processes, threads and kernel threads;
    - Elf, ElfSpec: the loader of elf.c;
    - KSync, KSyncSpec: ksync.c;
    - Msg, MsgCall, MsgClose: msg.c; MsgSpec, MsgCalm, MsgCallSpec, MsgLinks: their theorems;
    - TaskEnd, TaskEndSpec: the end of threads and processes;
    - LinkedList: lists of objects; Timer, TimerSpec: events.c and the sleep of api.c;
      Futex, FutexSpec: futex.c;
    - Pipe, PipeSpec: the pipes of fs.c with the system calls that use them.

    User programs:
    - USort, UMap, UHeap: sort.c, map.c and the allocator of stdlib.c in usr/lib; Sbrk: the
      system call that moves the end of the heap, with the pages a smaller heap gives back;
    - Net, NetIp: ethernet.c and ip.c of usr/device/net, over a card that is a [NetDev];
      Rtl: the driver rtl8139.c, which is one; NetIpSpec, NetArp: their theorems.

    ** What the theorems show

    - Memory: live allocations are disjoint in every history; page directories share no
      table, and the TLB agrees with the current directory; a copy to a task writes a prefix
      and no byte that is not its own; the counters of an object are its references; the
      memory of a live object is its own; mapping one gives a new region, unless memory or
      room runs out; a device writes to memory only while a process has a handle on it, or
      because it was left on before the kernel ran and nobody has claimed it.
    - Disk: a failing drive spoils a prefix of the requested range at most; growing or
      shrinking a file, also when it fails, leaves every other file alone; a flush brings
      what has changed in the table to all its copies; what is written or stored in a directory is read back.
    - Tasks: every runnable task is given the processor within sixteen switches and no switch
      loses a register; a new stack lies between missing pages; a loaded program finds its
      segments in an address space of its own, and a failed load gives everything back but
      the stack of the slot.
    - Synchronisation: kernel mutexes are served in the order of arrival, in the trace of
      their operations and in the queue in memory, and go with the end of their owner; a task that has ended holds no lock, waits for none and leaves no port
      or channel dangling; futexes are stacks of waiters and no wake-up is lost; timed events are
      a queue by deadline across the wrap-around of the tick counter.
    - Communication: a channel and a pipe deliver what was sent, once and in order; a call
      is answered once; a reply that is owed finds its slot; no port or channel is left dangling.
    - User library: the sort orders, the hash map is a map until a key is removed (of keys of at most
      31 bytes, in a table whose bytes fit in 32 bits), the heap gives disjoint blocks for
      sizes below 2^31 - 24, while the kernel has pages for it.
    - Network: a packet waits for the address of its hop and then goes there, once; a packet
      sent is a packet received; a ping is answered, with one frame if the
      next hop is known and the reply fits one; the checksum is the one of RFC 1071; the
      receive ring delivers every good packet, and the card is told so.

    ** What the theorems take as given

    The window system is a set of arguments ([tasks_init], [task_reset_windows],
    [wm_event_crash] and the openers of windows) that leave tasks, locks and
    ports alone ([QuietGui]), as drawing does. The handle tables appear in Msg as the class
    [Handles] ([QuietHandles]: they change no task, port or channel), and as arguments of the end of a
    process ([QuietEnd]); Futex takes the lookup
    of a shared region as an argument that does not depend on the bytes of memory
    ([region_mem]); Timer takes the kernel's own callbacks, which leave the list of events
    alone ([CallbacksLeaveEvents], an instance for the one of [api_sleep]). The kernel heap
    hands out blocks that are not in use ([fresh_block], [fresh_event], [fresh_waiter]: what
    [heap_history_disjoint] proves of it). [UserMem] is what the pipes rely on of the memory
    of a task. The port list of a slot that is used again is whatever the last process left
    ([stale_ports]). The card puts the bytes of its buffer on the wire ([NetDev]); it
    computes whether its receive ring is empty from its own two registers ([rx_empty]), and
    receives nothing while the ring is polled. The
    registers of the PCI bus are independent ([PciBus]). Task slots
    that are free hold no mutex. Each of these has an instance in the library, at which the
    theorems are applied.

    ** What is not modelled

    The window manager, the widgets of the kernel and of the user toolkit, drawing, fonts and
    bitmaps: their effect is pixels. The dispatch of system calls in api.c, apart from the
    calls on pipes, ports, futexes, handles, devices, sleep and the break, which check their arguments and
    call what is modelled. The interrupt stubs, the keyboard and the mouse, the clock and
    the boot code: port input and output, and assembly. The applications. Debug prints
    are left out everywhere. *)

From stdpp Require Export base option list list_numbers numbers gmap fin_maps.
From Stdlib Require Export ZArith Lia ZifyBool.

Local Open Scope Z_scope.

(** ** Machine integers

    A C integer is a [Z]; the conversions below are the ones the compiler
    inserts for i686 ([int] and pointers are 32 bits wide, two's complement). *)

Definition u8 (z : Z) : Z := z `mod` 2 ^ 8.

Definition u16 (z : Z) : Z := z `mod` 2 ^ 16.

Definition u32 (z : Z) : Z := z `mod` 2 ^ 32.

Definition s32 (z : Z) : Z := (z + 2 ^ 31) `mod` 2 ^ 32 - 2 ^ 31.

Definition is_u32 (z : Z) : Prop := 0 <= z < 2 ^ 32.

Definition is_s32 (z : Z) : Prop := - 2 ^ 31 <= z < 2 ^ 31.

(** C truth values: [0] and [1] as integers. *)
Definition b2z (b : bool) : Z := if b then 1 else 0.

(** ** Arrays indexed by C integers

    A read outside the array is [None] and a write outside it changes nothing;
    every operation that relies on an index being in range is proved to keep it
    there. *)

Definition zget {A} (l : list A) (i : Z) : option A :=
  if 0 <=? i then l !! Z.to_nat i else None.

Definition zset {A} (l : list A) (i : Z) (x : A) : list A :=
  if 0 <=? i then <[Z.to_nat i := x]> l else l.

Definition zlen {A} (l : list A) : Z := Z.of_nat (length l).

#[global] Arguments zlen {A} l : simpl never.

(** [zfill l a n x] stores [x] at the [n] indices from [a]: the loop
    [for(i = a; i < a + n; i++) l[i] = x]. *)
Fixpoint zfill {A} (l : list A) (a : Z) (n : nat) (x : A) : list A :=
  match n with
  | O => l
  | S n => zfill (zset l a x) (a + 1) n x
  end.

(** A buffer of bytes: the [n] bytes from [off], and the buffer with [b] stored
    from [off] on. *)
Definition slice {A} (l : list A) (off n : Z) : list A :=
  take (Z.to_nat n) (drop (Z.to_nat off) l).

Definition splice {A} (l : list A) (off : Z) (b : list A) : list A :=
  take (Z.to_nat off) l ++ b ++ drop (Z.to_nat off + length b) l.

(** ** A state monad with failure

    [None] is a fault: the program accesses memory outside every object. *)

Declare Scope monad_scope.

Definition ST (S A : Type) : Type := S -> option (A * S).

Definition st_ret {S A} (a : A) : ST S A := fun s => Some (a, s).

Definition st_bind {S A B} (m : ST S A) (k : A -> ST S B) : ST S B := fun s =>
  match m s with
  | Some (a, s) => k a s
  | None => None
  end.

(** A step that cannot fault, and a condition without which the program faults. *)
Definition st_lift {S A} (f : S -> A * S) : ST S A := fun s => Some (f s).
Definition st_guard {S} (b : bool) : ST S unit := fun s => if b then Some (tt, s) else None.
Definition st_get {S A} (f : S -> A) : ST S A := fun s => Some (f s, s).

Notation "'let!' x ':=' m 'in' k" := (st_bind m (fun x => k))
  (at level 10, x strict pattern, m at level 100, k at level 200) : monad_scope.

(** Little-endian integers in a buffer (a byte outside it reads 0). *)
Definition byte_at (l : list Z) (i : Z) : Z := default 0 (zget l i).

Definition le16 (l : list Z) (off : Z) : Z := byte_at l off + 256 * byte_at l (off + 1).

Definition le32 (l : list Z) (off : Z) : Z := le16 l off + 65536 * le16 l (off + 2).

Definition le64 (l : list Z) (off : Z) : Z := le32 l off + 2 ^ 32 * le32 l (off + 4).

Definition to_le16 (z : Z) : list Z := [z mod 256; z / 256 mod 256].

Definition to_le32 (z : Z) : list Z := to_le16 (z mod 65536) ++ to_le16 (z / 65536).

Declare Scope c_scope.
Delimit Scope c_scope with c.
Notation "l .[ i ]" := (zget l i) (at level 1, left associativity, format "l .[ i ]") : c_scope.
Notation "l .[ i <- x ]" := (zset l i x)
  (at level 1, left associativity, format "l .[ i  <-  x ]") : c_scope.

(** ** Transition systems *)

Section reachability.
Context {St : Type} (step : St -> St -> Prop).

Inductive reach (s : St) : St -> Prop :=
| reach_refl : reach s s
| reach_step s1 s2 : reach s s1 -> step s1 s2 -> reach s s2.

End reachability.

(** ** Tactics *)

(** Case analysis on the condition of an [if], reflecting integer tests. *)
Ltac zcase_on c :=
  let H := fresh "Hc" in
  lazymatch c with
  | Z.ltb ?a ?b => destruct (Z.ltb_spec a b) as [H|H]
  | Z.leb ?a ?b => destruct (Z.leb_spec a b) as [H|H]
  | Z.gtb ?a ?b => rewrite (Z.gtb_ltb a b) in *; destruct (Z.ltb_spec b a) as [H|H]
  | Z.geb ?a ?b => rewrite (Z.geb_leb a b) in *; destruct (Z.leb_spec b a) as [H|H]
  | Z.eqb ?a ?b => destruct (Z.eqb_spec a b) as [H|H]
  | _ => destruct c eqn:H
  end.

Ltac zcase :=
  match goal with
  | |- context [if ?c then _ else _] => zcase_on c
  | H : context [if ?c then _ else _] |- _ => zcase_on c
  end.

Ltac zcases := try lia; repeat (zcase; simplify_eq/=; try lia; try done).

(** ** Shared lemmas *)

Create HintDb cint.
Create Rewrite HintDb cint.

Lemma u32_range z : is_u32 (u32 z).
Proof. unfold is_u32, u32. apply Z.mod_pos_bound. lia. Qed.

Lemma u32_id z : 0 <= z < 2 ^ 32 -> u32 z = z.
Proof. intros. unfold u32. by apply Z.mod_small. Qed.

Lemma u16_id z : 0 <= z < 2 ^ 16 -> u16 z = z.
Proof. intros. unfold u16. by apply Z.mod_small. Qed.

Lemma u8_id z : 0 <= z < 2 ^ 8 -> u8 z = z.
Proof. intros. unfold u8. by apply Z.mod_small. Qed.

Lemma u8_range z : 0 <= u8 z < 256.
Proof. unfold u8. apply Z.mod_pos_bound. lia. Qed.

Lemma u16_range z : 0 <= u16 z < 65536.
Proof. unfold u16. apply Z.mod_pos_bound. lia. Qed.

Lemma s32_range z : is_s32 (s32 z).
Proof.
  unfold is_s32, s32. pose proof (Z.mod_pos_bound (z + 2 ^ 31) (2 ^ 32)). lia.
Qed.

Lemma s32_id z : - 2 ^ 31 <= z < 2 ^ 31 -> s32 z = z.
Proof. intros. unfold s32. rewrite Z.mod_small; lia. Qed.

Lemma u32_u32 z : u32 (u32 z) = u32 z.
Proof. apply u32_id, u32_range. Qed.

#[export] Hint Resolve u32_range s32_range : cint.
#[export] Hint Rewrite u32_u32 : cint.

Lemma bind_Some_l {A B} (x : A) (f : A -> option B) : (Some x ≫= f) = f x.
Proof. done. Qed.

Section arrays.
Context {A : Type}.
Implicit Types (l : list A) (i j : Z) (x y : A).

Lemma zget_Some_range l i x : zget l i = Some x -> 0 <= i < zlen l.
Proof.
  unfold zget, zlen. intros H. zcase; [|done].
  apply lookup_lt_Some in H. lia.
Qed.

Lemma zget_is_Some l i : 0 <= i < zlen l -> is_Some (zget l i).
Proof.
  unfold zget, zlen. intros H. zcase; [|lia]. apply lookup_lt_is_Some. lia.
Qed.

Lemma zget_elem l i x : zget l i = Some x -> x ∈ l.
Proof. unfold zget. destruct (_ <=? _); [|done]. apply list_elem_of_lookup_2. Qed.

Lemma zget_NoDup l i j x : NoDup l -> zget l i = Some x -> zget l j = Some x -> i = j.
Proof.
  unfold zget. intros Hn Hi Hj. destruct (0 <=? i) eqn:?; [|done]. destruct (0 <=? j) eqn:?; [|done].
  pose proof (NoDup_lookup _ _ _ _ Hn Hi Hj). lia.
Qed.

Lemma zget_nat l (n : nat) : zget l (Z.of_nat n) = l !! n.
Proof. unfold zget. zcase; [|lia]. by rewrite Nat2Z.id. Qed.

Lemma zlen_zset l i x : zlen (zset l i x) = zlen l.
Proof. unfold zlen, zset. zcase; [|done]. by rewrite length_insert. Qed.

Lemma zget_zset_eq l i x : 0 <= i < zlen l -> zget (zset l i x) i = Some x.
Proof.
  unfold zget, zset, zlen. intros H. zcase; [|lia].
  apply list_lookup_insert_eq. lia.
Qed.

Lemma zget_zset_ne l i j x : i ≠ j -> zget (zset l i x) j = zget l j.
Proof.
  unfold zget, zset. intros H. repeat zcase; try done.
  apply list_lookup_insert_ne. lia.
Qed.

Lemma zget_zset l i j x :
  zget (zset l i x) j = if decide (i = j /\ 0 <= i < zlen l) then Some x else zget l j.
Proof.
  case_decide as Hd.
  - destruct Hd as [-> ?]. by apply zget_zset_eq.
  - destruct (decide (i = j)) as [->|]; [|by apply zget_zset_ne].
    unfold zget, zset. zcase; [|done].
    rewrite list_insert_ge; [done|]. unfold zlen in Hd. lia.
Qed.

Lemma zset_id l i x : zget l i = Some x -> zset l i x = l.
Proof. unfold zget, zset. zcase; [|done]. apply list_insert_id. Qed.

Lemma zget_ext l l' : (forall i, 0 <= i -> zget l i = zget l' i) -> l = l'.
Proof.
  intros H. apply list_eq. intros n. rewrite <-!zget_nat. apply H. lia.
Qed.

Lemma zlen_zfill l i n x : zlen (zfill l i n x) = zlen l.
Proof.
  revert l i. induction n as [|n IH]; intros l i; simpl; [done|].
  by rewrite IH, zlen_zset.
Qed.

Lemma zget_zfill l i n x j :
  zget (zfill l i n x) j =
  if decide (i <= j < i + Z.of_nat n /\ 0 <= j < zlen l) then Some x else zget l j.
Proof.
  revert l i. induction n as [|n IH]; intros l i; simpl.
  - case_decide; [lia|done].
  - rewrite IH, zget_zset, zlen_zset. repeat case_decide; try done; lia.
Qed.

Lemma zget_replicate n x i : 0 <= i < Z.of_nat n -> zget (replicate n x) i = Some x.
Proof. intros. unfold zget. zcase; [|lia]. apply lookup_replicate_2. lia. Qed.

Lemma zlen_replicate n x : zlen (replicate n x) = Z.of_nat n.
Proof. unfold zlen. by rewrite length_replicate. Qed.

Lemma zlen_nil : zlen (@nil A) = 0.
Proof. done. Qed.

Lemma zlen_cons x l : zlen (x :: l) = zlen l + 1.
Proof. unfold zlen. simpl. lia. Qed.

Lemma zlen_app l l' : zlen (l ++ l') = zlen l + zlen l'.
Proof. unfold zlen. rewrite length_app. lia. Qed.

Lemma zlen_nonneg l : 0 <= zlen l.
Proof. unfold zlen. lia. Qed.

Lemma zget_cons_0 x l : zget (x :: l) 0 = Some x.
Proof. done. Qed.

Lemma zget_cons_S x l i : 0 <= i -> zget (x :: l) (i + 1) = zget l i.
Proof.
  intros. unfold zget. repeat zcase; try lia.
  by replace (Z.to_nat (i + 1)) with (S (Z.to_nat i)) by lia.
Qed.

Lemma zget_app_l l l' i : i < zlen l -> zget (l ++ l') i = zget l i.
Proof.
  unfold zget, zlen. intros. zcase; [|done]. apply lookup_app_l. lia.
Qed.

Lemma zget_app_r l l' i : zlen l <= i -> zget (l ++ l') i = zget l' (i - zlen l).
Proof.
  unfold zget, zlen. intros. repeat zcase; try lia.
  rewrite lookup_app_r by lia. f_equal. lia.
Qed.

Lemma zget_app_last l x : zget (l ++ [x]) (zlen l) = Some x.
Proof. rewrite zget_app_r by lia. by rewrite Z.sub_diag. Qed.

End arrays.

Lemma zget_None {A} (l : list A) i : ~ (0 <= i < zlen l) -> zget l i = None.
Proof. intros Hi. apply eq_None_not_Some. intros [x Hx]. by apply zget_Some_range in Hx. Qed.

Lemma zget_ext_len {A} (l l' : list A) n :
  zlen l = n -> zlen l' = n -> (forall i, 0 <= i < n -> zget l i = zget l' i) -> l = l'.
Proof.
  intros Hl Hl' Hi. apply zget_ext. intros i Hpos. destruct (decide (i < n)); [apply Hi; lia|].
  by rewrite !zget_None by lia.
Qed.

Section buffers.
Context {A : Type}.
Implicit Types (l b : list A) (off n i : Z).

Lemma zlen_slice l off n :
  0 <= off -> 0 <= n -> off + n <= zlen l -> zlen (slice l off n) = n.
Proof.
  unfold zlen, slice. intros. rewrite length_take, length_drop. lia.
Qed.

Lemma zget_slice l off n i :
  0 <= off -> 0 <= i < n -> zget (slice l off n) i = zget l (off + i).
Proof.
  intros. unfold slice, zget. zcase; [|lia]. zcase; [|lia].
  rewrite lookup_take_lt, lookup_drop by lia. f_equal. lia.
Qed.

Lemma zlen_splice l off b :
  0 <= off -> off + zlen b <= zlen l -> zlen (splice l off b) = zlen l.
Proof.
  unfold zlen, splice. intros. rewrite !length_app, length_take, length_drop. lia.
Qed.

Lemma zget_splice l off b i :
  0 <= off -> off + zlen b <= zlen l ->
  zget (splice l off b) i =
  if decide (off <= i < off + zlen b) then zget b (i - off) else zget l i.
Proof.
  unfold zget, zlen, splice. intros. zcase.
  2: { case_decide; [lia|done]. }
  case_decide.
  - zcase; [|lia]. rewrite lookup_app_r; rewrite length_take; [|lia].
    rewrite lookup_app_l by lia. f_equal. lia.
  - destruct (decide (i < off)).
    + rewrite lookup_app_l by (rewrite length_take; lia). apply lookup_take_lt. lia.
    + rewrite lookup_app_r; rewrite length_take; [|lia].
      rewrite lookup_app_r by lia. rewrite lookup_drop. f_equal. lia.
Qed.

Lemma slice_splice_same l off b :
  0 <= off -> off + zlen b <= zlen l -> slice (splice l off b) off (zlen b) = b.
Proof.
  intros. apply zget_ext. intros i Hi.
  destruct (decide (i < zlen b)).
  - rewrite zget_slice, zget_splice by lia. rewrite decide_True by lia. f_equal. lia.
  - transitivity (@None A).
    + apply eq_None_not_Some. intros [x Hx]. apply zget_Some_range in Hx.
      rewrite zlen_slice in Hx by (rewrite ?zlen_splice by done; unfold zlen in *; lia). lia.
    + symmetry. apply eq_None_not_Some. intros [x Hx]. apply zget_Some_range in Hx. lia.
Qed.

Lemma slice_splice_other l off b o n :
  0 <= off -> off + zlen b <= zlen l -> 0 <= o -> 0 <= n -> o + n <= zlen l ->
  o + n <= off \/ off + zlen b <= o -> slice (splice l off b) o n = slice l o n.
Proof.
  intros. apply zget_ext. intros i Hi.
  destruct (decide (i < n)).
  - rewrite !zget_slice, zget_splice by lia. rewrite decide_False by lia. done.
  - transitivity (@None A); [|symmetry]; apply eq_None_not_Some; intros [x Hx];
      apply zget_Some_range in Hx; rewrite zlen_slice in Hx by (rewrite ?zlen_splice by done; lia); lia.
Qed.

End buffers.

Lemma slice_split {A} (l : list A) o n k :
  0 <= o -> 0 <= n -> 0 <= k -> o + n + k <= zlen l ->
  slice l o (n + k) = slice l o n ++ slice l (o + n) k.
Proof.
  intros. assert (zlen (slice l o n) = n) as Hn by (apply zlen_slice; lia).
  apply (zget_ext_len _ _ (n + k)).
  - apply zlen_slice; lia.
  - rewrite zlen_app, Hn, zlen_slice by lia. done.
  - intros i Hi. rewrite zget_slice by lia. destruct (decide (i < n)).
    + by rewrite zget_app_l, zget_slice by lia.
    + rewrite zget_app_r, Hn, zget_slice by lia. f_equal. lia.
Qed.

Lemma slice_slice {A} (l : list A) o n a k :
  0 <= o -> 0 <= a -> 0 <= k -> a + k <= n -> slice (slice l o n) a k = slice l (o + a) k.
Proof.
  intros. unfold slice. rewrite skipn_firstn_comm, take_take, drop_drop. f_equal; [lia|].
  f_equal. lia.
Qed.

Lemma slice_0 {A} (l : list A) o : slice l o 0 = [].
Proof. done. Qed.

Lemma slice_all {A} (l : list A) : slice l 0 (zlen l) = l.
Proof. unfold slice, zlen. rewrite Nat2Z.id, drop_0. by apply firstn_all. Qed.

Lemma splice_all {A} (l b : list A) : zlen l = zlen b -> splice l 0 b = b.
Proof.
  unfold splice, zlen. intros Hl. rewrite take_0, drop_ge by lia. simpl. by rewrite app_nil_r.
Qed.

Lemma splice_app {A} (l b b' : list A) o :
  0 <= o -> o + zlen b + zlen b' <= zlen l ->
  splice (splice l o b) (o + zlen b) b' = splice l o (b ++ b').
Proof.
  intros. pose proof (zlen_nonneg b). pose proof (zlen_nonneg b').
  assert (zlen (splice l o b) = zlen l) as Hl by (apply zlen_splice; lia).
  apply (zget_ext_len _ _ (zlen l)).
  - rewrite zlen_splice by lia. done.
  - rewrite zlen_splice; [done|lia|rewrite zlen_app; lia].
  - intros i Hi. rewrite !zget_splice by (rewrite ?zlen_app; lia). rewrite zlen_app.
    repeat case_decide; try lia; try done.
    + rewrite zget_app_r by lia. f_equal. lia.
    + by rewrite zget_app_l by lia.
Qed.

Lemma splice_nil {A} (l : list A) o : splice l o [] = l.
Proof. unfold splice. simpl. rewrite Nat.add_0_r. apply take_drop. Qed.

#[global] Arguments zlen_nil A : clear implicits.

#[export] Hint Rewrite @zlen_zset @zlen_zfill @zlen_replicate : cint.

(** ** Elements of lists and maps *)

Lemma NoDup_snoc {A} (l : list A) x : NoDup l -> x ∉ l -> NoDup (l ++ [x]).
Proof. intros Hl Hx. apply NoDup_app. split; [done|]. split; [set_solver|apply NoDup_singleton]. Qed.

Lemma filter_notin (p : Z) (l : list Z) : p ∉ l -> filter (fun q => q <> p) l = l.
Proof.
  induction l as [|x l IH]; [done|]. intros [Hx Hl]%not_elem_of_cons. rewrite filter_cons, decide_True by congruence.
  by rewrite IH.
Qed.

Lemma elem_of_zget {A} (l : list A) x : x ∈ l <-> exists i, zget l i = Some x.
Proof.
  split; [|intros [i Hi]; by eapply zget_elem].
  intros [n Hn]%list_elem_of_lookup. exists (Z.of_nat n). by rewrite zget_nat.
Qed.

Lemma NoDup_zget {A} (l : list A) :
  (forall i j x, zget l i = Some x -> zget l j = Some x -> i = j) -> NoDup l.
Proof.
  intros Hl. apply NoDup_alt. intros i j x Hi Hj. apply Nat2Z.inj. apply (Hl _ _ x); by rewrite zget_nat.
Qed.

Lemma take_nth {A} (l : list A) n i :
  0 <= n -> zget (take (Z.to_nat n) l) i = if decide (i < n) then zget l i else None.
Proof.
  intros Hn. unfold zget. destruct (Z.leb_spec 0 i); [|by case_decide].
  case_decide; [apply lookup_take_lt; lia|apply lookup_take_ge; lia].
Qed.

Lemma elem_of_take_zget {A} (l : list A) n x :
  0 <= n -> x ∈ take (Z.to_nat n) l <-> exists i, 0 <= i < n /\ zget l i = Some x.
Proof.
  intros Hn. split.
  - intros Hx. apply elem_of_zget in Hx as [i Hi]. rewrite take_nth in Hi by done.
    case_decide; [|done]. exists i. split; [|done]. apply zget_Some_range in Hi. lia.
  - intros (i & Hi & Hx). apply (zget_elem _ i). rewrite take_nth by done. by rewrite decide_True by lia.
Qed.

Lemma take_zset_snoc {A} (l : list A) n x :
  0 <= n < zlen l -> take (Z.to_nat (n + 1)) (zset l n x) = take (Z.to_nat n) l ++ [x].
Proof.
  intros Hn. apply zget_ext. intros i Hi. rewrite take_nth by lia.
  assert (Hlen : zlen (take (Z.to_nat n) l) = n) by (unfold zlen in *; rewrite length_take; lia).
  destruct (Z.ltb_spec i n).
  - rewrite decide_True, zget_zset_ne, zget_app_l, take_nth, decide_True by lia. done.
  - destruct (decide (i = n)) as [->|].
    + rewrite decide_True, zget_zset_eq by lia. by rewrite <-Hlen at 2; rewrite zget_app_last.
    + rewrite decide_False by lia. rewrite zget_None; [done|]. rewrite zlen_app, Hlen, zlen_cons, zlen_nil. lia.
Qed.

(** An object in a map, seen through a function that both maps agree on. *)
Lemma fmap_Some_back {A B} (f : A -> B) (o o' : option A) x' :
  f <$> o' = f <$> o -> o' = Some x' -> exists x, o = Some x /\ f x' = f x.
Proof.
  intros E ->. destruct o as [x|]; [|done]. exists x. split; [done|].
  change (Some (f x') = Some (f x)) in E. congruence.
Qed.

(** Replacing an object by one that looks the same. *)
Lemma fmap_insert_same {A B} (f : A -> B) (m : gmap Z A) p x y q :
  m !! p = Some x -> f y = f x -> f <$> <[p := y]> m !! q = f <$> m !! q.
Proof.
  intros Hp Hf. destruct (decide (p = q)) as [<-|]; [|by rewrite lookup_insert_ne].
  rewrite lookup_insert_eq, Hp. exact (f_equal Some Hf).
Qed.

Lemma reach_trans {St} (step : St -> St -> Prop) s1 s2 s3 :
  reach step s1 s2 -> reach step s2 s3 -> reach step s1 s3.
Proof. intros H1 H2. induction H2; [done|]. by econstructor. Qed.

(** Rule induction for invariants: what holds initially and is preserved by
    every step holds in every reachable state. *)
Lemma reach_invariant {St} (step : St -> St -> Prop) (I : St -> Prop) s :
  I s -> (forall s1 s2, I s1 -> step s1 s2 -> I s2) -> forall s', reach step s s' -> I s'.
Proof. intros H0 Hs s' Hr. induction Hr; eauto. Qed.
