(* ===== verification/KQueue.v ===== *)
(** * The kernel ring buffer (kqueue.h)

    [kqueue_t] is a ring of [capacity] slots whose [head] and [tail] cursors run
    over [0 .. 2*capacity-1], so that a full and an empty queue differ. A slot
    pointer is the slot's index in [buffer]; [memcpy_fast] of [elem_size] bytes
    is the store of one element. The abstract queue is a list bounded by the
    capacity, and every operation refines the list operation. *)

From S2P Require Import Prelude.

Local Open Scope Z_scope.

Section kqueue.
Context {A : Type}.

Record kqueue := KQueue {
  q_buffer : list A;
  q_capacity : Z;
  q_head : Z;
  q_tail : Z }.

Definition kqueue_init (buf : list A) (cap : Z) : kqueue :=
  {| q_buffer := buf; q_capacity := cap; q_head := 0; q_tail := 0 |}.

Definition kqueue_count (q : kqueue) : Z :=
  let n := q_tail q - q_head q in
  if n <? 0 then n + 2 * q_capacity q else n.

Definition kqueue_empty (q : kqueue) : bool := q_tail q =? q_head q.

Definition kqueue_full (q : kqueue) : bool := kqueue_count q =? q_capacity q.

(** Slot index of a cursor. *)
Definition kqueue_slot (q : kqueue) (i : Z) : Z :=
  if q_capacity q <=? i then i - q_capacity q else i.

Definition kqueue_advance (q : kqueue) (i : Z) : Z :=
  let i := i + 1 in
  if 2 * q_capacity q <=? i then 0 else i.

(** The element a slot pointer designates; [None] would be a wild read. *)
Definition kqueue_get (q : kqueue) (i : Z) : option A :=
  zget (q_buffer q) (kqueue_slot q i).

(** A write through the slot pointer of cursor [i]. *)
Definition kqueue_store (q : kqueue) (i : Z) (x : A) : kqueue :=
  {| q_buffer := zset (q_buffer q) (kqueue_slot q i) x;
     q_capacity := q_capacity q; q_head := q_head q; q_tail := q_tail q |}.

Definition set_head (q : kqueue) (i : Z) : kqueue :=
  {| q_buffer := q_buffer q; q_capacity := q_capacity q; q_head := i; q_tail := q_tail q |}.

Definition set_tail (q : kqueue) (i : Z) : kqueue :=
  {| q_buffer := q_buffer q; q_capacity := q_capacity q; q_head := q_head q; q_tail := i |}.

(** Cursor of the last element, [None] for the null pointer. *)
Definition kqueue_last (q : kqueue) : option Z :=
  if kqueue_empty q then None
  else Some (if q_tail q =? 0 then 2 * q_capacity q - 1 else q_tail q - 1).

(** Cursor of the first element. *)
Definition kqueue_peek (q : kqueue) : option Z :=
  if kqueue_empty q then None else Some (q_head q).

Definition kqueue_drop (q : kqueue) : kqueue :=
  set_head q (kqueue_advance q (q_head q)).

(** Cursor of the [n]th element from the head. *)
Definition kqueue_at (q : kqueue) (n : Z) : Z :=
  let i := q_head q + n in
  if 2 * q_capacity q <=? i then i - 2 * q_capacity q else i.

(** Claim the tail slot: the cursor to write through, and the new queue. *)
Definition kqueue_reserve (q : kqueue) : option (Z * kqueue) :=
  if kqueue_full q then None
  else Some (q_tail q, set_tail q (kqueue_advance q (q_tail q))).

Definition kqueue_push (q : kqueue) (x : A) : bool * kqueue :=
  match kqueue_reserve q with
  | None => (false, q)
  | Some (slot, q') => (true, kqueue_store q' slot x)
  end.

Definition kqueue_pop (q : kqueue) : option A * kqueue :=
  if kqueue_empty q then (None, q)
  else (kqueue_get q (q_head q), set_head q (kqueue_advance q (q_head q))).

(** ** Invariant and abstraction *)

Record kqueue_wf (q : kqueue) : Prop := {
  wf_cap : 0 < q_capacity q;
  wf_buf : zlen (q_buffer q) = q_capacity q;
  wf_head : 0 <= q_head q < 2 * q_capacity q;
  wf_tail : 0 <= q_tail q < 2 * q_capacity q;
  wf_count : kqueue_count q <= q_capacity q }.

(** [q] holds exactly the elements of [l], oldest first. *)
Definition kqueue_rep (q : kqueue) (l : list A) : Prop :=
  kqueue_wf q /\ zlen l = kqueue_count q /\
  forall n, 0 <= n < kqueue_count q -> kqueue_get q (kqueue_at q n) = zget l n.

(** ** Operation sequences, for the refinement theorem *)

Inductive kop := KPush (x : A) | KPop | KDrop.

(** What a client observes of one operation. *)
Inductive kobs := OBool (b : bool) | OElem (o : option A) | ONone.

Definition kstep (q : kqueue) (op : kop) : kobs * kqueue :=
  match op with
  | KPush x => let '(b, q') := kqueue_push q x in (OBool b, q')
  | KPop => let '(o, q') := kqueue_pop q in (OElem o, q')
  | KDrop => (ONone, if kqueue_empty q then q else kqueue_drop q)
  end.

(** The specification: a list of at most [cap] elements. *)
Definition lstep (cap : Z) (l : list A) (op : kop) : kobs * list A :=
  match op with
  | KPush x => if zlen l =? cap then (OBool false, l) else (OBool true, l ++ [x])
  | KPop => (OElem (hd_error l), tail l)
  | KDrop => (ONone, tail l)
  end.

Fixpoint krun (q : kqueue) (ops : list kop) : list kobs * kqueue :=
  match ops with
  | [] => ([], q)
  | op :: ops =>
      let '(o, q') := kstep q op in
      let '(os, q'') := krun q' ops in (o :: os, q'')
  end.

Fixpoint lrun (cap : Z) (l : list A) (ops : list kop) : list kobs * list A :=
  match ops with
  | [] => ([], l)
  | op :: ops =>
      let '(o, l') := lstep cap l op in
      let '(os, l'') := lrun cap l' ops in (o :: os, l'')
  end.

(** ** Lemmas *)

Implicit Types (q : kqueue) (l : list A) (x : A).

Ltac kq_unfold :=
  unfold kqueue_count, kqueue_empty, kqueue_full, kqueue_slot, kqueue_advance,
    kqueue_at, kqueue_store, set_head, set_tail, kqueue_get in *; simpl in *.

Lemma kqueue_count_bounds q : kqueue_wf q -> 0 <= kqueue_count q <= q_capacity q.
Proof. intros [? ? ? ? ?]. split; [|done]. kq_unfold. zcases. Qed.

(** Indices and cursors agree: the [n]th element lives in its own slot. *)
Lemma kqueue_slot_range q n :
  kqueue_wf q -> 0 <= n < q_capacity q ->
  0 <= kqueue_slot q (kqueue_at q n) < q_capacity q.
Proof. intros [? ? ? ? ?] ?. kq_unfold. zcases. Qed.

Lemma kqueue_slot_inj q m n :
  kqueue_wf q -> 0 <= m < q_capacity q -> 0 <= n < q_capacity q ->
  kqueue_slot q (kqueue_at q m) = kqueue_slot q (kqueue_at q n) -> m = n.
Proof. intros [? ? ? ? ?] ? ?. kq_unfold. zcases. Qed.

Lemma kqueue_tail_at q :
  kqueue_wf q -> kqueue_count q < q_capacity q ->
  q_tail q = kqueue_at q (kqueue_count q).
Proof. intros [? ? ? ? ?] ?. kq_unfold. zcases. Qed.

Lemma kqueue_empty_count q :
  kqueue_wf q -> kqueue_empty q = (kqueue_count q =? 0).
Proof. intros [? ? ? ? ?]. kq_unfold. zcases. Qed.

Lemma kqueue_init_rep (buf : list A) cap :
  0 < cap -> zlen buf = cap -> kqueue_rep (kqueue_init buf cap) [].
Proof.
  intros. split; [constructor|split]; kq_unfold; try done; zcases.
Qed.

Lemma kqueue_push_full q l x :
  kqueue_rep q l -> zlen l = q_capacity q -> kqueue_push q x = (false, q).
Proof.
  intros (Hwf & Hl & _) Hc. unfold kqueue_push, kqueue_reserve, kqueue_full.
  zcases.
Qed.

Lemma kqueue_advance_tail_wf q :
  kqueue_wf q -> kqueue_count q < q_capacity q ->
  let q' := set_tail q (kqueue_advance q (q_tail q)) in
  kqueue_wf q' /\ kqueue_count q' = kqueue_count q + 1.
Proof.
  intros [? ? ? ? ?] ?. split; [constructor|]; kq_unfold; zcases.
Qed.

Lemma kqueue_advance_head_wf q :
  kqueue_wf q -> 0 < kqueue_count q ->
  let q' := set_head q (kqueue_advance q (q_head q)) in
  kqueue_wf q' /\ kqueue_count q' = kqueue_count q - 1 /\
  forall n, 0 <= n < kqueue_count q' -> kqueue_at q' n = kqueue_at q (n + 1).
Proof.
  intros [? ? ? ? ?] ?. split; [constructor|split]; kq_unfold; zcases.
  all: intros; zcases.
Qed.

Lemma kqueue_store_wf q i x : kqueue_wf q -> kqueue_wf (kqueue_store q i x).
Proof.
  intros [? ? ? ? ?]. constructor; kq_unfold; autorewrite with cint; done.
Qed.

Lemma kqueue_get_store_tail q t i j x :
  kqueue_get (kqueue_store (set_tail q t) i x) j =
  zget (zset (q_buffer q) (kqueue_slot q i) x) (kqueue_slot q j).
Proof. done. Qed.

Lemma kqueue_push_ok q l x :
  kqueue_rep q l -> zlen l < q_capacity q ->
  exists q', kqueue_push q x = (true, q') /\ q_capacity q' = q_capacity q /\
    kqueue_rep q' (l ++ [x]).
Proof.
  intros (Hwf & Hl & Hel) Hlt. rewrite Hl in Hlt.
  pose proof (kqueue_count_bounds q Hwf) as Hb.
  destruct (kqueue_advance_tail_wf q Hwf Hlt) as [Hwf' Hc'].
  unfold kqueue_push, kqueue_reserve, kqueue_full. zcases.
  eexists. split; [done|]. split; [done|]. split; [by apply kqueue_store_wf|].
  change (kqueue_count (kqueue_store ?a ?b ?c)) with (kqueue_count a).
  rewrite zlen_app, Hc', Hl. split; [done|]. intros n Hn.
  change (kqueue_at (kqueue_store (set_tail q ?t) ?i ?y) n) with (kqueue_at q n).
  rewrite kqueue_get_store_tail, (kqueue_tail_at q) by done.
  destruct (decide (n = kqueue_count q)) as [->|Hne].
  - rewrite zget_zset_eq.
    + symmetry. rewrite <-Hl. apply zget_app_last.
    + rewrite wf_buf by done. by apply kqueue_slot_range; [|lia].
  - rewrite zget_zset_ne.
    + rewrite zget_app_l by lia. apply Hel. lia.
    + intros Heq. apply Hne. symmetry. apply (kqueue_slot_inj q); [done|lia..|done].
Qed.

Lemma kqueue_pop_spec q l :
  kqueue_rep q l ->
  exists q', kqueue_pop q = (hd_error l, q') /\ q_capacity q' = q_capacity q /\
    kqueue_rep q' (tail l).
Proof.
  intros (Hwf & Hl & Hel). pose proof (kqueue_count_bounds q Hwf) as Hb.
  unfold kqueue_pop. rewrite kqueue_empty_count by done.
  destruct l as [|x l]; simpl in *.
  { rewrite <-Hl. simpl. exists q. split_and!; [done..|]. split_and!; done. }
  rewrite zlen_cons in Hl. zcase; [unfold zlen in *; lia|].
  destruct (kqueue_advance_head_wf q Hwf) as (Hwf' & Hc' & Hat); [lia|].
  assert (Hhd : kqueue_get q (q_head q) = Some x).
  { specialize (Hel 0). rewrite zget_cons_0 in Hel. rewrite <-Hel by lia.
    f_equal. destruct Hwf. kq_unfold. zcases. }
  rewrite Hhd. eexists. split; [done|split; [done|]].
  split; [done|]. split; [lia|]. intros n Hn. rewrite Hat by done.
  change (kqueue_get (set_head q ?h) ?i) with (kqueue_get q i).
  rewrite Hel by lia. apply zget_cons_S. lia.
Qed.

Lemma kqueue_drop_spec q l :
  kqueue_rep q l ->
  exists q', (if kqueue_empty q then q else kqueue_drop q) = q' /\
    q_capacity q' = q_capacity q /\ kqueue_rep q' (tail l).
Proof.
  intros Hr. destruct (kqueue_pop_spec q l Hr) as (q' & Hp & Hc & Hr').
  exists q'. split; [|done]. unfold kqueue_pop in Hp.
  destruct (kqueue_empty q); by simplify_eq.
Qed.

Lemma kqueue_peek_spec q l :
  kqueue_rep q l -> (i ← kqueue_peek q; kqueue_get q i) = hd_error l.
Proof.
  intros Hr. destruct (kqueue_pop_spec q l Hr) as (q' & Hp & _).
  unfold kqueue_pop in Hp. unfold kqueue_peek.
  destruct (kqueue_empty q); by simplify_eq.
Qed.

Lemma kqueue_last_spec q l :
  kqueue_rep q l -> (i ← kqueue_last q; kqueue_get q i) = last l.
Proof.
  intros (Hwf & Hl & Hel). pose proof (kqueue_count_bounds q Hwf) as Hb.
  unfold kqueue_last. rewrite kqueue_empty_count by done.
  destruct l as [|x l] using rev_ind.
  { rewrite <-Hl. done. }
  rewrite last_snoc. rewrite zlen_app in Hl. unfold zlen at 2 in Hl. simpl in Hl.
  zcase; [unfold zlen in *; lia|]. simpl.
  rewrite <-(zget_app_last l x), <-Hel by (unfold zlen in *; lia).
  f_equal. destruct Hwf. kq_unfold. zcases.
Qed.

Lemma kstep_refines q l op :
  kqueue_rep q l ->
  exists q', kstep q op = (fst (lstep (q_capacity q) l op), q') /\
    q_capacity q' = q_capacity q /\ kqueue_rep q' (snd (lstep (q_capacity q) l op)).
Proof.
  intros Hr. destruct op as [x| |]; simpl.
  - pose proof (kqueue_count_bounds q (proj1 Hr)) as Hb.
    pose proof (proj1 (proj2 Hr)) as Hl. zcase; simpl.
    + exists q. by rewrite (kqueue_push_full q l) by done.
    + destruct (kqueue_push_ok q l x) as (q' & -> & ? & ?); [done|lia|]. eauto.
  - destruct (kqueue_pop_spec q l Hr) as (q' & -> & ? & ?). eauto.
  - destruct (kqueue_drop_spec q l Hr) as (q' & -> & ? & ?). eauto.
Qed.

End kqueue.

Arguments kqueue : clear implicits.
Arguments kop : clear implicits.
Arguments kobs : clear implicits.

(** ** Theorems *)

(** C32: the ring buffer refines a bounded list. *)
Theorem kqueue_refines_list {A} (buf : list A) (cap : Z) (ops : list (kop A)) :
  0 < cap -> zlen buf = cap ->
  fst (krun (kqueue_init buf cap) ops) = fst (lrun cap [] ops) /\
  kqueue_rep (snd (krun (kqueue_init buf cap) ops)) (snd (lrun cap [] ops)).
Proof.
  intros Hcap Hbuf.
  assert (Hgen : forall q l, q_capacity q = cap -> kqueue_rep q l ->
    fst (krun q ops) = fst (lrun cap l ops) /\
    kqueue_rep (snd (krun q ops)) (snd (lrun cap l ops))).
  { induction ops as [|op ops IH]; intros q l Hc Hr; simpl; [done|].
    destruct (kstep_refines q l op Hr) as (q' & Hs & Hc' & Hr').
    rewrite Hc in Hs, Hr'. rewrite Hs.
    destruct (lstep cap l op) as [o l']; simpl in *.
    destruct (IH q' l') as [H1 H2]; [congruence|done|].
    destruct (krun q' ops), (lrun cap l' ops); simpl in *; by subst. }
  apply Hgen; [done|]. by apply kqueue_init_rep.
Qed.

Lemma kqueue_refines_list_witness :
  fst (krun (kqueue_init [0; 0] 2) [KPush 7; KPush 8; KPush 9; KPop; KPush 9; KPop; KPop; KPop])
  = [OBool true; OBool true; OBool false; OElem (Some 7); OBool true;
     OElem (Some 8); OElem (Some 9); OElem None].
Proof.
  rewrite (proj1 (kqueue_refines_list [0; 0] 2
    [KPush 7; KPush 8; KPush 9; KPop; KPush 9; KPop; KPop; KPop] ltac:(lia) eq_refl)).
  reflexivity.
Defined.
