(* ===== verification/CString.v ===== *)
(** * Byte memory and the C string library (lib/string.c)

    Memory maps byte addresses to bytes; an address that is not mapped may be
    neither read nor written, so an operation that leaves its buffers returns
    [None]. A [char] is its byte, 0 to 255 (the comparisons of string.c against
    ASCII constants do not see the sign). Each loop of the source is a
    [Fixpoint] on a fuel argument started at [S (size m)]: a loop that touches a
    new address on every turn faults before it can use up more, so [None] means
    a fault and never a lack of fuel (the specification lemmas below show the
    result for every valid string). *)

From S2P Require Import Prelude.

Local Open Scope Z_scope.

(** ** Memory *)

Abbreviation mem := (gmap Z Z).

Definition load (m : mem) (p : Z) : option Z := m !! p.

Definition store (m : mem) (p b : Z) : option mem :=
  match m !! p with Some _ => Some (<[p := u8 b]> m) | None => None end.

Definition fuel_of (m : mem) : nat := S (size m).

Definition NULL : Z := 0.

(** A store through a pointer the code tests against NULL first. *)
Definition store_opt (m : mem) (dest i b : Z) : option mem :=
  if dest =? NULL then Some m else store m (dest + i) b.

(** ** Lengths and comparison *)

Fixpoint strlen_loop (fuel : nat) (m : mem) (str len : Z) : option Z :=
  match fuel with
  | O => None
  | S fuel =>
      c ← load m (str + len);
      if c =? 0 then Some len else strlen_loop fuel m str (len + 1)
  end.

Definition strlen (m : mem) (str : Z) : option Z := strlen_loop (fuel_of m) m str 0.

Fixpoint strnlen_loop (fuel : nat) (m : mem) (str maxlen len : Z) : option Z :=
  match fuel with
  | O => None
  | S fuel =>
      if len <? maxlen then
        c ← load m (str + len);
        if c =? 0 then Some len else strnlen_loop fuel m str maxlen (len + 1)
      else Some len
  end.

Definition strnlen (m : mem) (str maxlen : Z) : option Z :=
  strnlen_loop (fuel_of m) m str maxlen 0.

(** [for(i = 0; i < len; i++) if(str1[i] != str2[i]) return false; return true;] *)
Fixpoint strequ_loop (n : nat) (m : mem) (str1 str2 : Z) : option bool :=
  match n with
  | O => Some true
  | S n =>
      a ← load m str1; b ← load m str2;
      if negb (a =? b) then Some false else strequ_loop n m (str1 + 1) (str2 + 1)
  end.

Definition strequ (m : mem) (str1 str2 : Z) : option bool :=
  len ← strlen m str1;
  len2 ← strlen m str2;
  if negb (len =? len2) then Some false
  else strequ_loop (Z.to_nat len) m str1 str2.

Fixpoint strstartswith_loop (fuel : nat) (m : mem) (src startswith i : Z) : option bool :=
  match fuel with
  | O => None
  | S fuel =>
      w ← load m (startswith + i);
      if w =? 0 then Some true
      else
        c ← load m (src + i);
        if negb (c =? w) then Some false
        else strstartswith_loop fuel m src startswith (i + 1)
  end.

Definition strstartswith (m : mem) (src startswith : Z) : option bool :=
  strstartswith_loop (fuel_of m) m src startswith 0.

Definition strendswith (m : mem) (src endswith : Z) : option bool :=
  src_len ← strlen m src;
  end_len ← strlen m endswith;
  if src_len <? end_len then Some false
  else strequ m (src + src_len - end_len) endswith.

Fixpoint strcmp_loop (fuel : nat) (m : mem) (s1 s2 : Z) : option Z :=
  match fuel with
  | O => None
  | S fuel =>
      a ← load m s1;
      if a =? 0 then (b ← load m s2; Some (a - b))
      else
        b ← load m s2;
        if a =? b then strcmp_loop fuel m (s1 + 1) (s2 + 1) else Some (a - b)
  end.

Definition strcmp (m : mem) (s1 s2 : Z) : option Z := strcmp_loop (fuel_of m) m s1 s2.

Fixpoint strncmp_loop (n : nat) (m : mem) (s1 s2 : Z) : option Z :=
  match n with
  | O => Some 0
  | S n =>
      a ← load m s1; b ← load m s2;
      if negb (a =? b) || (a =? 0) || (b =? 0) then Some (a - b)
      else strncmp_loop n m (s1 + 1) (s2 + 1)
  end.

Definition strncmp (m : mem) (s1 s2 n : Z) : option Z := strncmp_loop (Z.to_nat n) m s1 s2.

(** ** Copies *)

Fixpoint strcpy_loop (fuel : nat) (m : mem) (dest src i : Z) : option mem :=
  match fuel with
  | O => None
  | S fuel =>
      c ← load m (src + i);
      if c =? 0 then store m (dest + i) 0
      else
        m ← store m (dest + i) c;
        strcpy_loop fuel m dest src (i + 1)
  end.

Definition strcpy (m : mem) (dest src : Z) : option mem :=
  strcpy_loop (fuel_of m) m dest src 0.

Fixpoint strncpy_loop (fuel : nat) (m : mem) (dest src sz i : Z) : option mem :=
  match fuel with
  | O => None
  | S fuel =>
      if i <? sz then
        c ← load m (src + i);
        if c =? 0 then store m (dest + i) 0
        else
          m ← store m (dest + i) c;
          strncpy_loop fuel m dest src sz (i + 1)
      else store m (dest + i) 0
  end.

Definition strncpy (m : mem) (dest src sz : Z) : option mem :=
  strncpy_loop (fuel_of m) m dest src sz 0.

(** The counted byte loop shared by [strcpy_fixed] and [memcpy]. *)
Fixpoint copy_loop (n : nat) (m : mem) (dest src : Z) : option mem :=
  match n with
  | O => Some m
  | S n =>
      c ← load m src;
      m ← store m dest c;
      copy_loop n m (dest + 1) (src + 1)
  end.

Definition strcpy_fixed (m : mem) (dest src length : Z) : option mem :=
  m ← copy_loop (Z.to_nat length) m dest src;
  store m (dest + length) 0.

Definition memcpy (m : mem) (dest src bytes : Z) : option mem :=
  copy_loop (Z.to_nat bytes) m dest src.

(** [*--d = *--s] downwards, for overlapping moves. *)
Fixpoint copy_back_loop (n : nat) (m : mem) (d s : Z) : option mem :=
  match n with
  | O => Some m
  | S n =>
      c ← load m (s - 1);
      m ← store m (d - 1) c;
      copy_back_loop n m (d - 1) (s - 1)
  end.

Definition memmove (m : mem) (dest src n : Z) : option mem :=
  if dest <? src then copy_loop (Z.to_nat n) m dest src
  else if src <? dest then copy_back_loop (Z.to_nat n) m (dest + n) (src + n)
  else Some m.

Fixpoint memcmp_loop (n : nat) (m : mem) (a b : Z) : option Z :=
  match n with
  | O => Some 0
  | S n =>
      x ← load m a; y ← load m b;
      if negb (x =? y) then Some (x - y) else memcmp_loop n m (a + 1) (b + 1)
  end.

Definition memcmp (m : mem) (a b bytes : Z) : option Z := memcmp_loop (Z.to_nat bytes) m a b.

(** [rep stosb] and [rep stosl]: [n] stores of a byte, of a 32-bit word. *)
Fixpoint rep_stosb (n : nat) (m : mem) (dest ch : Z) : option mem :=
  match n with
  | O => Some m
  | S n => m ← store m dest ch; rep_stosb n m (dest + 1) ch
  end.

Definition store32 (m : mem) (p v : Z) : option mem :=
  m ← store m p v;
  m ← store m (p + 1) (Z.shiftr v 8);
  m ← store m (p + 2) (Z.shiftr v 16);
  store m (p + 3) (Z.shiftr v 24).

Fixpoint rep_stosl (n : nat) (m : mem) (dest v : Z) : option mem :=
  match n with
  | O => Some m
  | S n => m ← store32 m dest v; rep_stosl n m (dest + 4) v
  end.

(** [memset]: bytes below 16, otherwise an unaligned prefix, words, a tail.
    Each block moves [dest] forward as the instructions leave [edi]. *)
Definition memset (m : mem) (dest ch count : Z) : option mem :=
  if count <=? 0 then Some m
  else if count <? 16 then rep_stosb (Z.to_nat count) m dest ch
  else
    let value := Z.lor ch (u32 (Z.shiftl ch 8)) in
    let value := Z.lor value (u32 (Z.shiftl value 16)) in
    let pre := Z.land (4 - Z.land dest 3) 3 in
    let count := count - pre in
    m ← rep_stosb (Z.to_nat pre) m dest ch;
    let dest := dest + pre in
    let dwords := Z.quot count 4 in
    m ← rep_stosl (Z.to_nat dwords) m dest value;
    let dest := dest + 4 * dwords in
    rep_stosb (Z.to_nat (Z.land count 3)) m dest ch.

Definition store16 (m : mem) (p v : Z) : option mem :=
  m ← store m p v;
  store m (p + 1) (Z.shiftr v 8).

Fixpoint stores16 (n : nat) (m : mem) (dest v : Z) : option mem :=
  match n with
  | O => Some m
  | S n => m ← store16 m dest v; stores16 n m (dest + 2) v
  end.

(** [while(count >= 2) *dest32++ = pattern;] *)
Definition memset16 (m : mem) (dest value count : Z) : option mem :=
  if (2 <=? count) && (Z.land dest 3 =? 0) then
    let pattern := Z.lor (Z.shiftl value 16) value in
    let pairs := count / 2 in
    m ← rep_stosl (Z.to_nat pairs) m dest pattern;
    stores16 (Z.to_nat (count - 2 * pairs)) m (dest + 4 * pairs) value
  else stores16 (Z.to_nat count) m dest value.

(** ** Splitting and concatenation *)

(** First loop of [strsplit]: copy to [dest1] up to [splitat]; [inl] is the
    early [return false] at the terminator. *)
Fixpoint strsplit_head (fuel : nat) (m : mem) (dest1 dest2 src splitat i : Z)
    : option (mem + Z * mem) :=
  match fuel with
  | O => None
  | S fuel =>
      c ← load m (src + i);
      if c =? splitat then Some (inr (i, m))
      else if c =? 0 then
        m ← store_opt m dest1 i 0;
        m ← store_opt m dest2 0 0;
        Some (inl m)
      else
        m ← store_opt m dest1 i c;
        strsplit_head fuel m dest1 dest2 src splitat (i + 1)
  end.

(** Second loop: copy the rest to [dest2]. *)
Fixpoint strsplit_rest (fuel : nat) (m : mem) (dest2 src start i : Z) : option (Z * mem) :=
  match fuel with
  | O => None
  | S fuel =>
      c ← load m (src + i);
      if c =? 0 then Some (i, m)
      else
        m ← store_opt m dest2 (i - start) c;
        strsplit_rest fuel m dest2 src start (i + 1)
  end.

Definition strsplit (m : mem) (dest1 dest2 src splitat : Z) : option (bool * mem) :=
  r ← strsplit_head (fuel_of m) m dest1 dest2 src splitat 0;
  match r with
  | inl m => Some (false, m)
  | inr (i, m) =>
      m ← store_opt m dest1 i 0;
      let start := i + 1 in
      '(i, m) ← strsplit_rest (fuel_of m) m dest2 src start start;
      m ← store_opt m dest2 (i - start) 0;
      Some (true, m)
  end.

(** Index of the last [splitat] among the first [n] characters from [i]. *)
Fixpoint last_at_loop (n : nat) (m : mem) (src splitat i at_ : Z) : option Z :=
  match n with
  | O => Some at_
  | S n =>
      c ← load m (src + i);
      last_at_loop n m src splitat (i + 1) (if c =? splitat then i else at_)
  end.

Definition strsplit_last (m : mem) (dest1 dest2 src splitat : Z) : option (bool * mem) :=
  len ← strlen m src;
  at_ ← last_at_loop (Z.to_nat len) m src splitat 0 (-1);
  if at_ =? -1 then
    m ← (if dest1 =? NULL then Some m else strcpy m dest1 src);
    m ← store_opt m dest2 0 0;
    Some (false, m)
  else
    m ← (if dest1 =? NULL then Some m else strcpy_fixed m dest1 src at_);
    m ← (if dest2 =? NULL then Some m
         else strcpy_fixed m dest2 (src + at_ + 1) (len - (at_ + 1)));
    Some (true, m).

Definition strcat (m : mem) (dest src : Z) : option mem :=
  n ← strlen m dest;
  strcpy m (dest + n) src.

(** Copy while the source character is not 0 and [size] is not used up, then
    terminate. *)
Fixpoint strncat_loop (fuel : nat) (m : mem) (ptr src sz : Z) : option mem :=
  match fuel with
  | O => None
  | S fuel =>
      c ← load m src;
      if negb (c =? 0) && (0 <? sz) then
        m ← store m ptr c;
        strncat_loop fuel m (ptr + 1) (src + 1) (sz - 1)
      else store m ptr 0
  end.

Definition strncat (m : mem) (dest src sz : Z) : option mem :=
  n ← strlen m dest;
  strncat_loop (fuel_of m) m (dest + n) src sz.

(** ** Characters and searching *)

Definition tolower (c : Z) : Z := if (65 <=? c) && (c <=? 90) then c + 32 else c.

Definition toupper (c : Z) : Z := if (97 <=? c) && (c <=? 122) then c - 32 else c.

(** [for(int i = 0; i < strlen(c); i++) c[i] = f(c[i]);] *)
Fixpoint strmap_loop (f : Z -> Z) (fuel : nat) (m : mem) (c i : Z) : option mem :=
  match fuel with
  | O => None
  | S fuel =>
      n ← strlen m c;
      if i <? n then
        x ← load m (c + i);
        m ← store m (c + i) (f x);
        strmap_loop f fuel m c (i + 1)
      else Some m
  end.

Definition strtolower (m : mem) (c : Z) : option mem := strmap_loop tolower (fuel_of m) m c 0.

Definition strtoupper (m : mem) (c : Z) : option mem := strmap_loop toupper (fuel_of m) m c 0.

Fixpoint strchr_loop (fuel : nat) (m : mem) (str c : Z) : option Z :=
  match fuel with
  | O => None
  | S fuel =>
      x ← load m str;
      if x =? 0 then Some NULL
      else if x =? c then Some str else strchr_loop fuel m (str + 1) c
  end.

Definition strchr (m : mem) (str c : Z) : option Z := strchr_loop (fuel_of m) m str (u8 c).

Fixpoint strrchr_loop (fuel : nat) (m : mem) (str c last : Z) : option Z :=
  match fuel with
  | O => None
  | S fuel =>
      x ← load m str;
      if x =? 0 then Some last
      else strrchr_loop fuel m (str + 1) c (if x =? c then str else last)
  end.

Definition strrchr (m : mem) (str c : Z) : option Z :=
  strrchr_loop (fuel_of m) m str (u8 c) NULL.

(** Inner loop of [strstr]: the final values of [*n], after matching. *)
Fixpoint strstr_match (fuel : nat) (m : mem) (h n : Z) : option Z :=
  match fuel with
  | O => None
  | S fuel =>
      a ← load m h;
      b ← load m n;
      if negb (a =? 0) && negb (b =? 0) && (a =? b)
      then strstr_match fuel m (h + 1) (n + 1) else Some b
  end.

Fixpoint strstr_loop (fuel : nat) (m : mem) (haystack needle : Z) : option Z :=
  match fuel with
  | O => None
  | S fuel =>
      h ← load m haystack;
      if h =? 0 then Some NULL
      else
        n ← load m needle;
        if h =? n then
          e ← strstr_match (fuel_of m) m haystack needle;
          if e =? 0 then Some haystack else strstr_loop fuel m (haystack + 1) needle
        else strstr_loop fuel m (haystack + 1) needle
  end.

Definition strstr (m : mem) (haystack needle : Z) : option Z :=
  n ← load m needle;
  if n =? 0 then Some haystack else strstr_loop (fuel_of m) m haystack needle.

(** ** Numbers *)

(** [while(tmp > 0) { length++; tmp /= base; }]; 32 turns cover any 32-bit
    number. *)
Fixpoint num_length (fuel : nat) (base tmp length : Z) : Z :=
  match fuel with
  | O => length
  | S fuel => if 0 <? tmp then num_length fuel base (Z.quot tmp base) (length + 1) else length
  end.

Definition hexdigit (d : Z) : Z :=
  if d =? 10 then 65 else if d =? 11 then 66 else if d =? 12 then 67
  else if d =? 13 then 68 else if d =? 14 then 69 else if d =? 15 then 70
  else 48 + d.

Definition decdigit (d : Z) : Z := 48 + d.

(** [for(i = 0; i < length; i++) { out[length-i-1] = digit(num % base); num /= base; }] *)
Fixpoint put_digits (n : nat) (base : Z) (digit : Z -> Z) (m : mem) (out pos num : Z)
    : option mem :=
  match n with
  | O => Some m
  | S n =>
      m ← store m (out + pos) (digit (Z.rem num base));
      put_digits n base digit m out (pos - 1) (Z.quot num base)
  end.

Definition put_zero (m : mem) (out : Z) : option mem :=
  m ← store m out 48;
  store m (out + 1) 0.

Definition uinttohexstr (m : mem) (num out : Z) : option mem :=
  if num =? 0 then put_zero m out
  else
    let length := num_length 32 16 num 0 in
    m ← store m (out + length) 0;
    put_digits (Z.to_nat length) 16 hexdigit m out (length - 1) num.

Definition uinttostr (m : mem) (num out : Z) : option mem :=
  if num =? 0 then put_zero m out
  else
    let length := num_length 32 10 num 0 in
    m ← store m (out + length) 0;
    put_digits (Z.to_nat length) 10 decdigit m out (length - 1) num.

(** [num = -num] is computed on 32 bits: the most negative number stays. *)
Definition inttostr (m : mem) (num out : Z) : option mem :=
  if num =? 0 then put_zero m out
  else
    let negative := num <? 0 in
    let num := if negative then s32 (- num) else num in
    let length := num_length 32 10 num 0 in
    let length := if negative then length + 1 else length in
    m ← store m (out + length) 0;
    m ← put_digits (Z.to_nat length) 10 decdigit m out (length - 1) num;
    if negative then store m out 45 else Some m.

Definition is_digit (c : Z) : bool := (48 <=? c) && (c <=? 57).

Fixpoint skip_spaces (fuel : nat) (m : mem) (str : Z) : option Z :=
  match fuel with
  | O => None
  | S fuel =>
      c ← load m str;
      if c =? 32 then skip_spaces fuel m (str + 1) else Some str
  end.

Fixpoint strtoint_loop (fuel : nat) (m : mem) (str result : Z) : option Z :=
  match fuel with
  | O => None
  | S fuel =>
      c ← load m str;
      if is_digit c then strtoint_loop fuel m (str + 1) (s32 (result * 10 + (c - 48)))
      else Some result
  end.

Definition strtoint (m : mem) (str : Z) : option Z :=
  str ← skip_spaces (fuel_of m) m str;
  c ← load m str;
  let '(sign, str) :=
    if c =? 45 then (-1, str + 1) else if c =? 43 then (1, str + 1) else (1, str) in
  result ← strtoint_loop (fuel_of m) m str 0;
  Some (s32 (sign * result)).

(** [stoi] reads backwards and skips every character that is not a digit. *)
Fixpoint stoi_loop (n : nat) (m : mem) (str out power : Z) : option Z :=
  match n with
  | O => Some out
  | S n =>
      c ← load m (str + Z.of_nat n);
      if is_digit c then
        stoi_loop n m str (s32 (out + power * (c - 48))) (s32 (power * 10))
      else stoi_loop n m str out power
  end.

Definition stoi (m : mem) (str : Z) : option Z :=
  len ← strlen m str;
  stoi_loop (Z.to_nat len) m str 0 1.

Fixpoint hextouint_loop (fuel : nat) (m : mem) (str u : Z) : option Z :=
  match fuel with
  | O => None
  | S fuel =>
      c ← load m str;
      if c =? 0 then Some u
      else
        let u' :=
          if is_digit c then u32 (Z.shiftl u 4 + (c - 48))
          else if (65 <=? c) && (c <=? 70) then u32 (Z.shiftl u 4 + (c - 65 + 10))
          else if (97 <=? c) && (c <=? 102) then u32 (Z.shiftl u 4 + (c - 97 + 10))
          else u in
        hextouint_loop fuel m (str + 1) u'
  end.

Definition hextouint (m : mem) (str : Z) : option Z := hextouint_loop (fuel_of m) m str 0.

(** ** Formatting *)

(** One conversion of [vsnprintf]: the memory, the remaining arguments, the
    space left and the address to append from. [tmp] is the local buffer and
    [lit0x] the string literal the [p] conversion appends first. *)
Definition fmt_conv (m : mem) (tmp lit0x buffer c : Z) (args : list Z) (remaining : Z)
    : option (mem * list Z * Z * Z) :=
  if c =? 105 then (* i *)
    a ← hd_error args; m ← inttostr m (s32 a) tmp; Some (m, tail args, remaining, tmp)
  else if c =? 117 then (* u *)
    a ← hd_error args; m ← uinttostr m (u32 a) tmp; Some (m, tail args, remaining, tmp)
  else if c =? 104 then (* h *)
    a ← hd_error args; m ← uinttohexstr m (u32 a) tmp; Some (m, tail args, remaining, tmp)
  else if c =? 115 then (* s *)
    a ← hd_error args; Some (m, tail args, remaining, a)
  else if c =? 99 then (* c *)
    a ← hd_error args;
    m ← store m tmp a; m ← store m (tmp + 1) 0;
    Some (m, tail args, remaining, tmp)
  else if c =? 112 then (* p *)
    a ← hd_error args;
    m ← strncat m buffer lit0x remaining;
    m ← uinttohexstr m (u32 a) tmp;
    Some (m, tail args, remaining - (if 2 <? remaining then 2 else remaining), tmp)
  else
    m ← store m tmp 37; m ← store m (tmp + 1) c; m ← store m (tmp + 2) 0;
    Some (m, args, remaining, tmp).

Fixpoint vsnprintf_loop (fuel : nat) (m : mem) (tmp lit0x buffer pfmt : Z)
    (args : list Z) (remaining : Z) : option (mem * Z) :=
  match fuel with
  | O => None
  | S fuel =>
      c ← load m pfmt;
      if negb (c =? 0) && (0 <? remaining) then
        d ← (if c =? 37 then load m (pfmt + 1) else Some 0);
        if (c =? 37) && negb (d =? 0) then
          '(m, args, remaining, append) ← fmt_conv m tmp lit0x buffer d args remaining;
          if append =? NULL then
            vsnprintf_loop fuel m tmp lit0x buffer (pfmt + 2) args remaining
          else
            len ← strlen m append;
            m ← strncat m buffer append remaining;
            vsnprintf_loop fuel m tmp lit0x buffer (pfmt + 2) args
              (remaining - (if len <? remaining then len else remaining))
        else
          m ← store m tmp c;
          m ← store m (tmp + 1) 0;
          m ← strncat m buffer tmp remaining;
          vsnprintf_loop fuel m tmp lit0x buffer (pfmt + 1) args
            (if 0 <? remaining then remaining - 1 else remaining)
      else Some (m, remaining)
  end.

Definition vsnprintf (m : mem) (tmp lit0x buffer sz format : Z) (args : list Z)
    : option (mem * Z) :=
  m ← store m buffer 0;
  '(m, remaining) ← vsnprintf_loop (fuel_of m) m tmp lit0x buffer format args (u32 (sz - 1));
  Some (m, s32 (sz - remaining - 1)).

Definition snprintf (m : mem) (tmp lit0x buffer sz format : Z) (args : list Z) : option mem :=
  '(m, _) ← vsnprintf m tmp lit0x buffer sz format args; Some m.

Definition sprintf (m : mem) (tmp lit0x buffer format : Z) (args : list Z) : option mem :=
  '(m, _) ← vsnprintf m tmp lit0x buffer (2 ^ 31 - 1) format args; Some m.

(** ** Specifications: byte blocks and strings in memory *)

(** [l] is stored at [p]. *)
Fixpoint mbytes (m : mem) (p : Z) (l : list Z) : Prop :=
  match l with
  | [] => True
  | x :: l => m !! p = Some x /\ mbytes m (p + 1) l
  end.

(** [m] after storing [l] at [p]. *)
Fixpoint mwrite (m : mem) (p : Z) (l : list Z) : mem :=
  match l with
  | [] => m
  | x :: l => mwrite (<[p := x]> m) (p + 1) l
  end.

(** The [n] bytes from [p] may be written. *)
Definition writable (m : mem) (p n : Z) : Prop :=
  forall i, 0 <= i < n -> is_Some (m !! (p + i)).

Definition bytes (l : list Z) : Prop := Forall (fun x => 0 <= x < 256) l.

(** The characters of a C string: bytes other than the terminator. *)
Definition chars (s : list Z) : Prop := Forall (fun x => 0 < x < 256) s.

Definition cstr (m : mem) (p : Z) (s : list Z) : Prop := chars s /\ mbytes m p (s ++ [0]).

(** A forward copy of [n] bytes from [src] to [dest] reads every source byte
    before it is overwritten. *)
Definition fwd_ok (dest src n : Z) : Prop := dest <= src \/ src + n <= dest.

(** The condition on a destination the code may pass as NULL. *)
Definition dest_ok (m : mem) (dest src n : Z) : Prop :=
  dest = NULL \/ (writable m dest n /\ fwd_ok dest src n).

Definition mwrite_opt (m : mem) (dest : Z) (l : list Z) : mem :=
  if dest =? NULL then m else mwrite m dest l.

(** Abstract [strsplit]: the text before and after the first separator. *)
Fixpoint split_first (c : Z) (s : list Z) : option (list Z * list Z) :=
  match s with
  | [] => None
  | x :: s =>
      if x =? c then Some ([], s)
      else match split_first c s with Some (a, b) => Some (x :: a, b) | None => None end
  end.

(** Positional notation: the value of a digit string in a base. *)
Definition digits_value (base : Z) (val : Z -> Z) (s : list Z) : Z :=
  fold_left (fun acc c => acc * base + val c) s 0.

(** The last [n] digits of a number, most significant first. *)
Fixpoint digs (n : nat) (base : Z) (digit : Z -> Z) (num : Z) : list Z :=
  match n with
  | O => []
  | S n => digs n base digit (num / base) ++ [digit (num `mod` base)]
  end.

Definition numeral (base : Z) (digit : Z -> Z) (num : Z) : list Z :=
  if num =? 0 then [48] else digs (Z.to_nat (num_length 32 base num 0)) base digit num.

Definition decimal : Z -> list Z := numeral 10 decdigit.

Definition hexadecimal : Z -> list Z := numeral 16 hexdigit.

Definition hexvalue (c : Z) : Z := if is_digit c then c - 48 else c - 55.

(** ** Lemmas on blocks *)

Section blocks.
Implicit Types (m : mem) (p a : Z) (l s : list Z).

Lemma mbytes_lookup m p l i x : mbytes m p l -> zget l i = Some x -> m !! (p + i) = Some x.
Proof.
  revert p i. induction l as [|y l IH]; intros p i Hm Hi.
  { apply zget_Some_range in Hi. unfold zlen in Hi. simpl in Hi. lia. }
  destruct Hm as [Hy Hm]. pose proof (zget_Some_range _ _ _ Hi).
  destruct (decide (i = 0)) as [->|].
  - rewrite zget_cons_0 in Hi. simplify_eq. by rewrite Z.add_0_r.
  - replace i with ((i - 1) + 1) in Hi by lia. rewrite zget_cons_S in Hi by lia.
    replace (p + i) with (p + 1 + (i - 1)) by lia. eauto.
Qed.

Lemma mbytes_app m p l1 l2 :
  mbytes m p (l1 ++ l2) <-> mbytes m p l1 /\ mbytes m (p + zlen l1) l2.
Proof.
  revert p. induction l1 as [|x l1 IH]; intros p; simpl.
  - rewrite Z.add_0_r. tauto.
  - rewrite IH, zlen_cons. replace (p + 1 + zlen l1) with (p + (zlen l1 + 1)) by lia. tauto.
Qed.

Lemma mbytes_insert m p l a b :
  mbytes m p l -> a < p \/ p + zlen l <= a -> mbytes (<[a := b]> m) p l.
Proof.
  revert p. induction l as [|x l IH]; intros p Hm Ha; simpl; [done|].
  rewrite zlen_cons in Ha. pose proof (zlen_nonneg l). destruct Hm as [Hx Hm]. split.
  - rewrite lookup_insert_ne; [done|lia].
  - apply IH; [done|lia].
Qed.

Lemma mwrite_lookup m p l a :
  mwrite m p l !! a = match zget l (a - p) with Some x => Some x | None => m !! a end.
Proof.
  revert m p. induction l as [|x l IH]; intros m p; simpl.
  - unfold zget. by zcase.
  - rewrite IH. destruct (decide (a = p)) as [->|Hne].
    + rewrite lookup_insert_eq. replace (p - (p + 1)) with (-1) by lia.
      by rewrite Z.sub_diag.
    + rewrite lookup_insert_ne by done.
      destruct (decide (a < p)) as [Hlt|].
      * unfold zget. repeat zcase; try lia. done.
      * replace (a - p) with ((a - (p + 1)) + 1) by lia. by rewrite zget_cons_S by lia.
Qed.

Lemma mwrite_lookup_out m p l a :
  a < p \/ p + zlen l <= a -> mwrite m p l !! a = m !! a.
Proof.
  intros Ha. rewrite mwrite_lookup. destruct (zget l (a - p)) eqn:E; [|done].
  apply zget_Some_range in E. lia.
Qed.

Lemma mwrite_size m p l : (size m <= size (mwrite m p l))%nat.
Proof.
  revert m p. induction l as [|x l IH]; intros m p; simpl; [done|].
  etrans; [|apply IH]. destruct (m !! p) eqn:E.
  - rewrite (map_size_insert_Some p x m); eauto.
  - rewrite map_size_insert_None by done. lia.
Qed.

Lemma mwrite_app m p l1 l2 :
  mwrite m p (l1 ++ l2) = mwrite (mwrite m p l1) (p + zlen l1) l2.
Proof.
  revert m p. induction l1 as [|x l1 IH]; intros m p; simpl.
  - by rewrite Z.add_0_r.
  - rewrite IH, zlen_cons. f_equal. lia.
Qed.

Lemma mwrite_snoc m p l x : mwrite m p (l ++ [x]) = <[p + zlen l := x]> (mwrite m p l).
Proof. by rewrite mwrite_app. Qed.

Lemma mwrite_insert_comm m p l a b :
  a < p \/ p + zlen l <= a -> mwrite (<[a := b]> m) p l = <[a := b]> (mwrite m p l).
Proof.
  revert m p. induction l as [|x l IH]; intros m p Ha; simpl; [done|].
  rewrite zlen_cons in Ha. pose proof (zlen_nonneg l).
  rewrite insert_insert_ne by lia. apply IH. lia.
Qed.

Lemma mbytes_mwrite_out m p l q k :
  mbytes m p l -> q + zlen k <= p \/ p + zlen l <= q -> mbytes (mwrite m q k) p l.
Proof.
  revert m q. induction k as [|x k IH]; intros m q Hm Hd; simpl; [done|].
  rewrite zlen_cons in Hd. pose proof (zlen_nonneg k). apply IH; [|lia].
  apply mbytes_insert; [done|lia].
Qed.

Lemma mbytes_mwrite m p l : mbytes (mwrite m p l) p l.
Proof.
  revert m p. induction l as [|x l IH]; intros m p; simpl; [done|]. split; [|done].
  rewrite mwrite_lookup_out by lia. apply lookup_insert_eq.
Qed.

Lemma writable_insert m p n a b : writable m p n -> writable (<[a := b]> m) p n.
Proof.
  intros H i Hi. destruct (decide (a = p + i)) as [->|].
  - rewrite lookup_insert_eq. eauto.
  - rewrite lookup_insert_ne by done. auto.
Qed.

Lemma writable_mwrite m p n q l : writable m p n -> writable (mwrite m q l) p n.
Proof.
  intros H i Hi. rewrite mwrite_lookup. destruct (zget _ _); [eauto|auto].
Qed.

Lemma writable_head m p n : writable m p n -> 0 < n -> is_Some (m !! p).
Proof. intros H Hn. rewrite <-(Z.add_0_r p). apply H. lia. Qed.

Lemma writable_shift m p n k : writable m p n -> 0 <= k -> writable m (p + k) (n - k).
Proof. intros H Hk i Hi. rewrite <-Z.add_assoc. apply H. lia. Qed.

Lemma writable_le m p n n' : writable m p n -> n' <= n -> writable m p n'.
Proof. intros H Hk i Hi. apply H. lia. Qed.

Lemma mbytes_writable m p l : mbytes m p l -> writable m p (zlen l).
Proof.
  intros H i Hi. destruct (zget_is_Some l i Hi) as [x Hx].
  exists x. by eapply mbytes_lookup.
Qed.

Lemma store_ok m p (b : Z) : is_Some (m !! p) -> 0 <= b < 256 -> store m p b = Some (<[p := b]> m).
Proof. intros [x Hx] Hb. unfold store. rewrite Hx. by rewrite u8_id by lia. Qed.

Lemma writable_store m p n i b :
  writable m p n -> 0 <= i < n -> 0 <= b < 256 ->
  store m (p + i) b = Some (<[p + i := b]> m).
Proof. intros H Hi Hb. apply store_ok; [|done]. by apply H. Qed.

(** A block of distinct mapped addresses is no longer than the memory: this is
    what makes [fuel_of] enough. *)
Lemma mbytes_size m p l : mbytes m p l -> (length l <= size m)%nat.
Proof.
  revert m p. induction l as [|x l IH]; intros m p Hm; simpl; [lia|].
  destruct Hm as [Hx Hm].
  assert (Hd : mbytes (delete p m) (p + 1) l).
  { clear IH. assert (Hgen : forall q, p < q -> mbytes m q l -> mbytes (delete p m) q l).
    { clear Hm. induction l as [|y l IH]; intros q Hq Hm; simpl; [done|].
      destruct Hm as [Hy Hm]. split; [rewrite lookup_delete_ne by lia; done|].
      apply IH; [lia|done]. }
    apply Hgen; [lia|done]. }
  apply IH in Hd. rewrite map_size_delete, Hx in Hd.
  assert (size m <> 0)%nat; [|lia].
  intros Hz. apply map_size_empty_inv in Hz. subst. by rewrite lookup_empty in Hx.
Qed.

Lemma cstr_fuel m p s : cstr m p s -> (length s < fuel_of m)%nat.
Proof.
  intros [_ Hm]. apply mbytes_size in Hm. rewrite length_app in Hm. simpl in Hm.
  unfold fuel_of. lia.
Qed.

Lemma chars_bytes s : chars s -> bytes s.
Proof. intros H. eapply Forall_impl; [exact H|]. simpl. lia. Qed.

Lemma cstr_writable m p s : cstr m p s -> writable m p (zlen s + 1).
Proof. intros [_ H]. apply mbytes_writable in H. by rewrite zlen_app in H. Qed.

End blocks.

(** ** Correctness of the string operations *)

Section ops.
Implicit Types (m : mem) (p dest src : Z) (l s a b : list Z).

Lemma chars_cons x s : chars (x :: s) <-> 0 < x < 256 /\ chars s.
Proof. exact (Forall_cons _ x s). Qed.

Lemma bytes_cons x l : bytes (x :: l) <-> 0 <= x < 256 /\ bytes l.
Proof. exact (Forall_cons _ x l). Qed.

Lemma strlen_loop_spec m str s fuel len :
  chars s -> mbytes m (str + len) (s ++ [0]) -> (length s < fuel)%nat ->
  strlen_loop fuel m str len = Some (len + zlen s).
Proof.
  revert fuel len. induction s as [|x s IH]; intros [|fuel] len Hc Hm Hf; simpl in *; try lia;
    unfold load; destruct Hm as [Hx Hm]; rewrite Hx; simpl.
  - f_equal. unfold zlen. simpl. lia.
  - apply chars_cons in Hc as [? Hc]. zcase; [lia|].
    rewrite IH; [rewrite zlen_cons; f_equal; lia|done| |lia].
    by rewrite Z.add_assoc.
Qed.

Lemma strlen_spec m p s : cstr m p s -> strlen m p = Some (zlen s).
Proof.
  intros Hs. pose proof (cstr_fuel _ _ _ Hs). destruct Hs as [Hc Hm]. unfold strlen.
  rewrite (strlen_loop_spec m p s); [done|done| |done]. by rewrite Z.add_0_r.
Qed.

Lemma fwd_ok_step dest src n : fwd_ok dest src n -> fwd_ok (dest + 1) (src + 1) (n - 1).
Proof. unfold fwd_ok. lia. Qed.

(** Storing the first byte of a forward copy leaves the rest of the source. *)
Lemma mbytes_step m dest src l (b : Z) :
  mbytes m (src + 1) l -> fwd_ok dest src (zlen l + 1) -> mbytes (<[dest := b]> m) (src + 1) l.
Proof. intros Hm Hf. apply mbytes_insert; [done|]. unfold fwd_ok in Hf. lia. Qed.

Lemma copy_loop_spec m dest src l n :
  n = length l -> mbytes m src l -> bytes l -> writable m dest (zlen l) ->
  fwd_ok dest src (zlen l) -> copy_loop n m dest src = Some (mwrite m dest l).
Proof.
  intros ->. revert m dest src. induction l as [|x l IH]; intros m dest src Hm Hb Hw Hf; [done|].
  rewrite zlen_cons in Hw, Hf. pose proof (zlen_nonneg l). destruct Hm as [Hx Hm].
  apply bytes_cons in Hb as [? Hb]. simpl. unfold load. rewrite Hx. simpl.
  rewrite store_ok; [|rewrite <-(Z.add_0_r dest); apply Hw; lia|done]. simpl.
  apply IH; [by apply mbytes_step|done| |].
  - apply writable_insert. apply (writable_shift _ _ _ 1) in Hw; [|lia].
    by replace (zlen l) with (zlen l + 1 - 1) by lia.
  - apply fwd_ok_step in Hf. by replace (zlen l) with (zlen l + 1 - 1) by lia.
Qed.

Lemma copy_back_loop_spec m dest src l n :
  n = length l -> mbytes m (src - zlen l) l -> bytes l ->
  writable m (dest - zlen l) (zlen l) -> src <= dest ->
  copy_back_loop n m dest src = Some (mwrite m (dest - zlen l) l).
Proof.
  intros ->. revert m dest src.
  induction l as [|x l IH] using rev_ind; intros m dest src Hm Hb Hw Hle; [done|].
  rewrite zlen_app, zlen_cons, zlen_nil in *. pose proof (zlen_nonneg l).
  rewrite length_app, Nat.add_1_r. simpl.
  apply mbytes_app in Hm as [Hm [Hx _]]. apply Forall_app in Hb as [Hb Hb1].
  apply bytes_cons in Hb1 as [? _].
  replace (src - (zlen l + (0 + 1)) + zlen l) with (src - 1) in Hx by lia.
  unfold load. rewrite Hx. simpl.
  assert (Hd : is_Some (m !! (dest - 1))).
  { replace (dest - 1) with (dest - (zlen l + (0 + 1)) + zlen l) by lia. apply Hw. lia. }
  rewrite store_ok by done. simpl.
  rewrite (IH (<[dest - 1 := x]> m) (dest - 1) (src - 1)).
  - f_equal. rewrite mwrite_snoc, mwrite_insert_comm by lia.
    replace (dest - (zlen l + (0 + 1)) + zlen l) with (dest - 1) by lia.
    by replace (dest - (zlen l + (0 + 1))) with (dest - 1 - zlen l) by lia.
  - apply mbytes_insert; [|lia]. by replace (src - 1 - zlen l) with (src - (zlen l + (0 + 1))) by lia.
  - done.
  - apply writable_insert. replace (dest - 1 - zlen l) with (dest - (zlen l + (0 + 1))) by lia.
    eapply writable_le; [done|lia].
  - lia.
Qed.

Lemma memcpy_spec m dest src l n :
  n = zlen l -> mbytes m src l -> bytes l -> writable m dest (zlen l) ->
  fwd_ok dest src (zlen l) -> memcpy m dest src n = Some (mwrite m dest l).
Proof.
  intros -> Hm Hb Hw Hf. apply copy_loop_spec; try done. unfold zlen. lia.
Qed.

Lemma strcpy_fixed_spec m dest src l n :
  n = zlen l -> mbytes m src l -> bytes l -> writable m dest (zlen l + 1) ->
  fwd_ok dest src (zlen l) -> strcpy_fixed m dest src n = Some (mwrite m dest (l ++ [0])).
Proof.
  intros -> Hm Hb Hw Hf. pose proof (zlen_nonneg l). unfold strcpy_fixed.
  rewrite (copy_loop_spec m dest src l); [|unfold zlen; lia|done..| |done].
  - simpl. rewrite mwrite_snoc. eapply writable_store; [by apply writable_mwrite|lia|lia].
  - eapply writable_le; [done|lia].
Qed.

Lemma strcpy_loop_spec m dest src s fuel i :
  chars s -> mbytes m (src + i) (s ++ [0]) -> writable m (dest + i) (zlen s + 1) ->
  fwd_ok dest src (zlen s + 1 + i) -> 0 <= i -> (length s < fuel)%nat ->
  strcpy_loop fuel m dest src i = Some (mwrite m (dest + i) (s ++ [0])).
Proof.
  revert m fuel i. induction s as [|x s IH]; intros m [|fuel] i Hc Hm Hw Hf Hi Hl;
    simpl in *; try lia; destruct Hm as [Hx Hm]; unfold load; rewrite Hx; simpl;
    pose proof (writable_head _ _ _ Hw ltac:(unfold zlen; lia)) as Hd.
  - by rewrite store_ok by (done || lia).
  - apply chars_cons in Hc as [? Hc]. zcase; [lia|]. rewrite store_ok by (done || lia). simpl.
    rewrite zlen_cons in Hw, Hf. pose proof (zlen_nonneg s).
    rewrite (IH (<[dest + i := x]> m)); [by rewrite Z.add_assoc|done| | | |lia|lia].
    + rewrite Z.add_assoc. apply mbytes_insert; [done|]. rewrite zlen_app, zlen_cons, zlen_nil.
      unfold fwd_ok in Hf. lia.
    + apply writable_insert. rewrite Z.add_assoc.
      apply (writable_shift _ _ _ 1) in Hw; [|lia].
      by replace (zlen s + 1) with (zlen s + 1 + 1 - 1) by lia.
    + unfold fwd_ok in *. lia.
Qed.

Lemma strcpy_spec m dest src s :
  cstr m src s -> writable m dest (zlen s + 1) -> fwd_ok dest src (zlen s + 1) ->
  strcpy m dest src = Some (mwrite m dest (s ++ [0])).
Proof.
  intros Hs Hw Hf. pose proof (cstr_fuel _ _ _ Hs). destruct Hs as [Hc Hm].
  unfold strcpy. rewrite (strcpy_loop_spec m dest src s); rewrite ?Z.add_0_r; done.
Qed.

(** *** memset *)

Lemma rep_stosb_spec m dest n ch :
  writable m dest (Z.of_nat n) ->
  rep_stosb n m dest ch = Some (mwrite m dest (replicate n (u8 ch))).
Proof.
  revert m dest. induction n as [|n IH]; intros m dest Hw; [done|]. simpl.
  unfold store. destruct (Hw 0) as [x Hx]; [lia|]. rewrite Z.add_0_r in Hx. rewrite Hx. simpl.
  apply IH. apply writable_insert. apply (writable_shift _ _ _ 1) in Hw; [|lia].
  by replace (Z.of_nat n) with (Z.of_nat (S n) - 1) by lia.
Qed.

Lemma store_u8 m p (v : Z) : is_Some (m !! p) -> store m p v = Some (<[p := u8 v]> m).
Proof. intros [x Hx]. unfold store. by rewrite Hx. Qed.

Lemma store32_spec m p v :
  writable m p 4 ->
  store32 m p v = Some (mwrite m p [u8 v; u8 (Z.shiftr v 8); u8 (Z.shiftr v 16); u8 (Z.shiftr v 24)]).
Proof.
  intros Hw. unfold store32.
  rewrite store_u8 by (rewrite <-(Z.add_0_r p); apply Hw; lia). simpl.
  repeat (rewrite store_u8; [simpl|repeat apply writable_insert; eauto using writable_insert]).
  - by replace (p + 1 + 1) with (p + 2) by lia; replace (p + 2 + 1) with (p + 3) by lia.
  - repeat apply (writable_insert _ p 4); [done|lia].
  - repeat apply (writable_insert _ p 4); [done|lia].
  - repeat apply (writable_insert _ p 4); [done|lia].
Qed.

Lemma rep_stosl_spec m dest n v ch :
  u8 v = ch -> u8 (Z.shiftr v 8) = ch -> u8 (Z.shiftr v 16) = ch -> u8 (Z.shiftr v 24) = ch ->
  writable m dest (4 * Z.of_nat n) ->
  rep_stosl n m dest v = Some (mwrite m dest (replicate (4 * n) ch)).
Proof.
  intros H0 H1 H2 H3. revert m dest. induction n as [|n IH]; intros m dest Hw; [done|].
  simpl rep_stosl. rewrite store32_spec, H0, H1, H2, H3 by (eapply writable_le; [done|lia]).
  rewrite bind_Some_l. rewrite IH.
  - replace (4 * S n)%nat with (4 + 4 * n)%nat by lia.
    rewrite replicate_add, mwrite_app. f_equal.
  - apply writable_mwrite. apply (writable_shift _ _ _ 4) in Hw; [|lia].
    by replace (4 * Z.of_nat n) with (4 * Z.of_nat (S n) - 4) by lia.
Qed.

(** The byte replicated over a 32-bit word. *)
Definition word_of_byte (ch : Z) : Z :=
  let v := Z.lor ch (u32 (Z.shiftl ch 8)) in Z.lor v (u32 (Z.shiftl v 16)).

Lemma word_of_byte_bytes ch :
  0 <= ch < 256 ->
  u8 (word_of_byte ch) = ch /\ u8 (Z.shiftr (word_of_byte ch) 8) = ch /\
  u8 (Z.shiftr (word_of_byte ch) 16) = ch /\ u8 (Z.shiftr (word_of_byte ch) 24) = ch.
Proof.
  intros Hch.
  pose (ok c := (u8 (word_of_byte c) =? c) && (u8 (Z.shiftr (word_of_byte c) 8) =? c) &&
    (u8 (Z.shiftr (word_of_byte c) 16) =? c) && (u8 (Z.shiftr (word_of_byte c) 24) =? c)).
  assert (Hall : forallb ok (seqZ 0 256) = true) by (vm_compute; reflexivity).
  rewrite forallb_forall in Hall. specialize (Hall ch).
  rewrite <-list_elem_of_In, elem_of_seqZ in Hall. specialize (Hall ltac:(lia)).
  unfold ok in Hall. rewrite !andb_true_iff, !Z.eqb_eq in Hall. tauto.
Qed.

Lemma land3_mod z : Z.land z 3 = z `mod` 4.
Proof. change 3 with (Z.ones 2). by rewrite Z.land_ones by lia. Qed.

Lemma memset_fill m dest ch count :
  0 <= ch < 256 -> writable m dest count ->
  memset m dest ch count = Some (mwrite m dest (replicate (Z.to_nat count) ch)).
Proof.
  intros Hch Hw. unfold memset. zcase.
  { by replace (Z.to_nat count) with 0%nat by lia. }
  zcase.
  { rewrite rep_stosb_spec, u8_id by (done || (eapply writable_le; [done|lia])). done. }
  rewrite !land3_mod.
  set (pre := (4 - dest `mod` 4) `mod` 4).
  assert (0 <= pre < 4) by (apply Z.mod_pos_bound; lia).
  set (dw := Z.quot (count - pre) 4).
  assert (Hdw : dw = (count - pre) / 4) by (apply Z.quot_div_nonneg; lia).
  pose proof (Z.div_mod (count - pre) 4 ltac:(lia)) as Hdm.
  pose proof (Z.mod_pos_bound (count - pre) 4 ltac:(lia)) as Hmb.
  pose proof (word_of_byte_bytes ch Hch) as (?&?&?&?).
  assert (Hw1 : writable m (dest + pre) (4 * dw)).
  { eapply writable_le; [apply writable_shift; [done|lia]|lia]. }
  assert (Hw2 : writable m (dest + pre + 4 * dw) ((count - pre) `mod` 4)).
  { rewrite <-Z.add_assoc. eapply writable_le; [apply writable_shift; [done|lia]|lia]. }
  rewrite rep_stosb_spec, bind_Some_l by (eapply writable_le; [done|lia]).
  change (Z.lor _ _) with (word_of_byte ch) at 1.
  rewrite (rep_stosl_spec _ _ _ _ ch), bind_Some_l, u8_id by
    (try done; apply writable_mwrite; by rewrite Z2Nat.id by lia).
  rewrite rep_stosb_spec, u8_id by (try lia; do 2 apply writable_mwrite; by rewrite Z2Nat.id by lia).
  f_equal.
  replace (Z.to_nat count) with
    (Z.to_nat pre + (4 * Z.to_nat dw + Z.to_nat ((count - pre) `mod` 4)))%nat by lia.
  rewrite !replicate_add, !mwrite_app, !zlen_replicate. repeat f_equal; lia.
Qed.

(** *** memmove *)

Lemma memmove_any m dest src l :
  mbytes m src l -> bytes l -> writable m dest (zlen l) ->
  memmove m dest src (zlen l) = Some (mwrite m dest l).
Proof.
  intros Hm Hb Hw. unfold memmove. assert (Hl : Z.to_nat (zlen l) = length l) by (unfold zlen; lia).
  zcase; [|zcase].
  - apply copy_loop_spec; try done. left. lia.
  - rewrite (copy_back_loop_spec m (dest + zlen l) (src + zlen l) l) by
      (try done; try lia; by rewrite Z.add_simpl_r).
    by rewrite Z.add_simpl_r.
  - assert (src = dest) as -> by lia. f_equal. apply map_eq. intros a.
    rewrite mwrite_lookup. destruct (zget l (a - dest)) as [x|] eqn:E; [|done].
    apply (mbytes_lookup m dest) in E; [|done]. by replace (dest + (a - dest)) with a in E by lia.
Qed.

(** *** strsplit *)

(** Copying to a possibly NULL destination [d]: [p] is the write address and
    [q] the read address of a forward copy with [n] bytes to go. *)
Definition dok (m : mem) (d p q n : Z) : Prop :=
  d = NULL \/ (writable m p n /\ fwd_ok p q n).

Definition wopt (m : mem) (d p : Z) (l : list Z) : mem :=
  if d =? NULL then m else mwrite m p l.

Lemma store_opt_dok m d i q n x :
  dok m d (d + i) q n -> 0 < n -> 0 <= x < 256 ->
  store_opt m d i x = Some (wopt m d (d + i) [x]).
Proof.
  intros [->|[Hw _]] Hn Hx; unfold store_opt, wopt; [done|].
  zcase; [done|]. by rewrite store_ok by (eauto using writable_head).
Qed.

Lemma dok_step m d p q n x : dok m d p q n -> dok (wopt m d p [x]) d (p + 1) (q + 1) (n - 1).
Proof.
  intros [->|[Hw Hf]]; [by left|]. right. unfold wopt. zcase.
  - split; [|by apply fwd_ok_step].
    intros i Hi. rewrite <-Z.add_assoc. apply Hw. lia.
  - split; [|by apply fwd_ok_step]. apply writable_mwrite.
    intros i Hi. rewrite <-Z.add_assoc. apply Hw. lia.
Qed.

Lemma dok_le m d p q n n' : dok m d p q n -> n' <= n -> dok m d p q n'.
Proof.
  intros [->|[Hw Hf]] Hn; [by left|]. right. split; [by eapply writable_le|].
  unfold fwd_ok in *. lia.
Qed.

Lemma dok_wopt m d p q n d' p' l : dok m d p q n -> dok (wopt m d' p' l) d p q n.
Proof.
  intros [->|[Hw Hf]]; [by left|]. right. split; [|done].
  unfold wopt. zcase; [done|]. by apply writable_mwrite.
Qed.

Lemma mbytes_wopt m d p q n x l :
  dok m d p q n -> mbytes m (q + 1) l -> zlen l + 1 <= n -> mbytes (wopt m d p [x]) (q + 1) l.
Proof.
  intros [->|[Hw Hf]] Hm Hl; unfold wopt; [done|]. zcase; [done|].
  apply mbytes_insert; [done|]. unfold fwd_ok in Hf. lia.
Qed.

Lemma wopt_app m d p l1 l2 : wopt (wopt m d p l1) d (p + zlen l1) l2 = wopt m d p (l1 ++ l2).
Proof. unfold wopt. zcase; [done|]. by rewrite mwrite_app. Qed.

(** Both loops of [strsplit] consume a prefix [a] this way. *)
Lemma strsplit_head_prefix m d1 d2 src c a l fuel i n :
  chars a -> Forall (fun x => x <> c) a -> mbytes m (src + i) (a ++ l) ->
  dok m d1 (d1 + i) (src + i) n -> zlen a + zlen l <= n -> (length a <= fuel)%nat ->
  let m' := wopt m d1 (d1 + i) a in
  strsplit_head fuel m d1 d2 src c i
  = strsplit_head (fuel - length a) m' d1 d2 src c (i + zlen a)
  /\ mbytes m' (src + (i + zlen a)) l
  /\ dok m' d1 (d1 + (i + zlen a)) (src + (i + zlen a)) (n - zlen a).
Proof.
  revert m fuel i n. induction a as [|x a IH]; intros m fuel i n Ha Hne Hm Hd Hn Hf.
  { unfold wopt. simpl. rewrite zlen_nil, !Z.add_0_r, Nat.sub_0_r, Z.sub_0_r.
    by destruct (d1 =? NULL). }
  rewrite zlen_cons in Hn. pose proof (zlen_nonneg a). pose proof (zlen_nonneg l).
  apply chars_cons in Ha as [? Ha]. apply Forall_cons in Hne as [Hxc Hne].
  destruct Hm as [Hx Hm]. destruct fuel as [|fuel]; simpl in Hf; [lia|].
  set (m1 := wopt m d1 (d1 + i) [x]).
  destruct (IH m1 fuel (i + 1) (n - 1)) as (E & Hm' & Hd'); try done; try lia.
  - rewrite Z.add_assoc. eapply mbytes_wopt; [done|exact Hm|rewrite zlen_app; lia].
  - rewrite !Z.add_assoc. by apply dok_step.
  - rewrite zlen_cons. replace (wopt m d1 (d1 + i) (x :: a)) with (wopt m1 d1 (d1 + (i + 1)) a).
    2: { unfold m1. change (x :: a) with ([x] ++ a). rewrite <-(wopt_app m d1 (d1 + i) [x] a). f_equal. rewrite zlen_cons, zlen_nil. lia. }
    replace (i + (zlen a + 1)) with (i + 1 + zlen a) by lia.
    replace (n - (zlen a + 1)) with (n - 1 - zlen a) by lia.
    split; [|done]. etrans; [|exact E]. cbn [strsplit_head]. unfold load at 1. rewrite Hx, bind_Some_l.
    zcase; [done|]. zcase; [lia|]. by rewrite (store_opt_dok _ _ _ (src + i) n) by (done || lia).
Qed.

Lemma strsplit_rest_spec m d2 src start b fuel i :
  chars b -> mbytes m (src + i) (b ++ [0]) ->
  dok m d2 (d2 + (i - start)) (src + i) (zlen b + 1) -> (length b < fuel)%nat ->
  strsplit_rest fuel m d2 src start i = Some (i + zlen b, wopt m d2 (d2 + (i - start)) b).
Proof.
  revert m fuel i. induction b as [|x b IH]; intros m fuel i Hb Hm Hd Hf;
    (destruct fuel as [|fuel]; simpl in Hf; [lia|]); destruct Hm as [Hx Hm];
    cbn [strsplit_rest]; unfold load; rewrite Hx, bind_Some_l.
  - rewrite zlen_nil, Z.add_0_r. unfold wopt. simpl. by destruct (d2 =? NULL).
  - apply chars_cons in Hb as [? Hb]. zcase; [lia|]. rewrite zlen_cons in *.
    pose proof (zlen_nonneg b).
    rewrite (store_opt_dok _ _ _ _ _ _ Hd) by lia. rewrite bind_Some_l, IH; try done; try lia.
    + change (x :: b) with ([x] ++ b). rewrite <-(wopt_app m d2 _ [x] b). rewrite zlen_cons, zlen_nil.
      f_equal; f_equal; [lia|]. f_equal. lia.
    + rewrite Z.add_assoc. eapply mbytes_wopt; [done|exact Hm|]. rewrite zlen_app, zlen_cons, zlen_nil. lia.
    + apply (dok_step _ _ _ _ _ x) in Hd.
      replace (d2 + (i + 1 - start)) with (d2 + (i - start) + 1) by lia.
      replace (zlen b + 1) with (zlen b + 1 + 1 - 1) by lia. by rewrite Z.add_assoc.
Qed.

Lemma split_first_Some c s a b :
  split_first c s = Some (a, b) -> s = a ++ c :: b /\ Forall (fun x => x <> c) a.
Proof.
  revert a. induction s as [|x s IH]; intros a H; simpl in H; [done|].
  zcase; simplify_eq; [done|].
  destruct (split_first c s) as [[a' b']|]; simplify_eq.
  destruct (IH a' eq_refl) as [-> ?]. split; [done|]. by apply Forall_cons.
Qed.

Lemma split_first_None c s : split_first c s = None -> Forall (fun x => x <> c) s.
Proof.
  induction s as [|x s IH]; intros H; simpl in H; [done|].
  zcase; simplify_eq. destruct (split_first c s) as [[]|]; [done|].
  apply Forall_cons. auto.
Qed.

Lemma dest_ok_dok m d src n : dest_ok m d src n -> dok m d d src n.
Proof. done. Qed.

Lemma wopt_mwrite_opt m d l : wopt m d d l = mwrite_opt m d l.
Proof. done. Qed.

Lemma strsplit_notfound m d1 d2 src c s :
  cstr m src s -> dest_ok m d1 src (zlen s + 1) -> dest_ok m d2 src (zlen s + 1) -> c <> 0 ->
  split_first c s = None ->
  strsplit m d1 d2 src c = Some (false, mwrite_opt (mwrite_opt m d1 (s ++ [0])) d2 [0]).
Proof.
  intros Hs Hd1 Hd2 Hc0 Hsp. pose proof (cstr_fuel _ _ _ Hs) as Hfu. destruct Hs as [Hc Hm].
  pose proof (zlen_nonneg s). apply split_first_None in Hsp. unfold strsplit.
  destruct (strsplit_head_prefix m d1 d2 src c s [0] (fuel_of m) 0 (zlen s + 1))
    as (E & Hm1 & Hd1'); rewrite ?Z.add_0_r; try done; try lia.
  rewrite Z.add_0_r, Z.add_0_l in *. rewrite E. clear E.
  destruct (fuel_of m - length s)%nat as [|f] eqn:Ef; [lia|]. simpl strsplit_head.
  destruct Hm1 as [Hz _]. unfold load. rewrite Hz, bind_Some_l. zcase; [lia|]. simpl (0 =? 0).
  rewrite (store_opt_dok _ _ _ _ _ _ Hd1'), bind_Some_l by lia.
  rewrite (store_opt_dok _ d2 0 src (zlen s + 1)), bind_Some_l; [|do 2 apply dok_wopt|lia|lia].
  - rewrite bind_Some_l, Z.add_0_r, wopt_app, !wopt_mwrite_opt. done.
  - by rewrite Z.add_0_r.
Qed.

Lemma strsplit_found m d1 d2 src c s a b :
  cstr m src s -> dest_ok m d1 src (zlen s + 1) -> dest_ok m d2 src (zlen s + 1) -> c <> 0 ->
  split_first c s = Some (a, b) ->
  strsplit m d1 d2 src c
  = Some (true, mwrite_opt (mwrite_opt m d1 (a ++ [0])) d2 (b ++ [0])).
Proof.
  intros Hs Hd1 Hd2 Hc0 Hsp. pose proof (cstr_fuel _ _ _ Hs) as Hfu. destruct Hs as [Hc Hm].
  apply split_first_Some in Hsp as [-> Hne]. apply Forall_app in Hc as [Hca Hcb].
  apply chars_cons in Hcb as [? Hcb]. rewrite <-app_assoc in Hm. simpl in Hm.
  rewrite !zlen_app, !zlen_cons, length_app in *. simpl in Hfu.
  pose proof (zlen_nonneg a). pose proof (zlen_nonneg b). unfold strsplit.
  destruct (strsplit_head_prefix m d1 d2 src c a (c :: b ++ [0]) (fuel_of m) 0
    (zlen a + (zlen b + 1) + 1)) as (E & [Hc1 Hm1] & Hd1');
    rewrite ?Z.add_0_r, ?zlen_cons, ?zlen_app, ?zlen_cons, ?zlen_nil; try done; try lia.
  rewrite Z.add_0_r, Z.add_0_l in *. rewrite E. clear E.
  destruct (fuel_of m - length a)%nat as [|f] eqn:Ef; [lia|]. cbn [strsplit_head].
  unfold load. rewrite Hc1, bind_Some_l. zcase; [|done]. rewrite bind_Some_l.
  rewrite (store_opt_dok _ _ _ _ _ _ Hd1'), bind_Some_l by lia.
  rewrite wopt_app. set (m1 := wopt m d1 d1 (a ++ [0])).
  assert (Hsz : (length b < fuel_of m1)%nat).
  { unfold m1, wopt. zcase; [lia|]. unfold fuel_of in *.
    pose proof (mwrite_size m d1 (a ++ [0])). lia. }
  assert (Hd2' : dok m1 d2 d2 (src + (zlen a + 1)) (zlen b + 1)).
  { apply dok_wopt. destruct Hd2 as [?|[Hw Hf]]; [by left|right].
    split; [eapply writable_le; [done|lia]|]. unfold fwd_ok in *. lia. }
  rewrite (strsplit_rest_spec m1 d2 src (zlen a + 1) b _ (zlen a + 1)); try done.
  - rewrite bind_Some_l. rewrite Z.sub_diag, Z.add_0_r.
    replace (zlen a + 1 + zlen b - (zlen a + 1)) with (zlen b) by lia.
    assert (Hd3 : dok (wopt m1 d2 d2 b) d2 (d2 + zlen b) (d2 + zlen b) 1).
    { apply dok_wopt. destruct Hd2' as [?|[Hw Hf]]; [by left|right]. split.
      - apply (writable_shift _ _ _ (zlen b)) in Hw; [|lia]. by replace (zlen b + 1 - zlen b) with 1 in Hw by lia.
      - left. lia. }
    rewrite (store_opt_dok _ _ _ _ _ _ Hd3), bind_Some_l, wopt_app by lia. done.
  - unfold m1. rewrite <-wopt_app. replace (src + (zlen a + 1)) with (src + zlen a + 1) by lia.
    eapply mbytes_wopt; [done|done|]. rewrite zlen_app, zlen_cons, zlen_nil. lia.
  - by rewrite Z.sub_diag, Z.add_0_r.
Qed.

Lemma split_first_length c s a b : split_first c s = Some (a, b) -> zlen s = zlen a + zlen b + 1.
Proof. intros H. apply split_first_Some in H as [-> _]. rewrite zlen_app, zlen_cons. lia. Qed.

(** The idiom [strsplit(p, NULL, p, c)]: cut the string at the first [c]. *)
Lemma strsplit_cut m p c s :
  cstr m p s -> p <> NULL -> c <> 0 ->
  exists r m', strsplit m p NULL p c = Some (r, m') /\
    cstr m' p (match split_first c s with Some (a, _) => a | None => s end).
Proof.
  intros Hs Hp Hc. pose proof (cstr_writable _ _ _ Hs) as Hw.
  assert (Hd : dest_ok m p p (zlen s + 1)) by (right; split; [done|left; lia]).
  assert (Hn : dest_ok m NULL p (zlen s + 1)) by by left.
  destruct (split_first c s) as [[a b]|] eqn:E.
  - rewrite (strsplit_found _ _ _ _ _ _ _ _ Hs Hd Hn Hc E). do 2 eexists. split; [done|].
    apply split_first_Some in E as [-> _]. destruct Hs as [Hch Hm]. apply Forall_app in Hch as [? _].
    split; [done|]. unfold mwrite_opt. simpl. zcase; [done|]. apply mbytes_mwrite.
  - rewrite (strsplit_notfound _ _ _ _ _ _ Hs Hd Hn Hc E). do 2 eexists. split; [done|].
    destruct Hs as [Hch Hm]. split; [done|]. unfold mwrite_opt. simpl. zcase; [done|].
    apply mbytes_mwrite.
Qed.

(** *** Comparison and case *)

Lemma strequ_loop_spec m p q s t l k n :
  n = length s -> length s = length t -> mbytes m p (s ++ l) -> mbytes m q (t ++ k) ->
  strequ_loop n m p q = Some (bool_decide (s = t)).
Proof.
  intros ->. revert p q t. induction s as [|x s IH]; intros p q [|y t] Hl Hs Ht;
    simpl in *; try lia; [done|].
  destruct Hs as [Hx Hs], Ht as [Hy Ht]. unfold load. rewrite Hx, Hy. simpl.
  destruct (Z.eqb_spec x y) as [->|Hne]; simpl.
  - rewrite (IH _ _ t) by (done || lia). f_equal. apply bool_decide_ext. naive_solver.
  - rewrite bool_decide_false; [done|]. congruence.
Qed.

Lemma strequ_spec m p q s t :
  cstr m p s -> cstr m q t -> strequ m p q = Some (bool_decide (s = t)).
Proof.
  intros Hs Ht. unfold strequ.
  rewrite (strlen_spec _ _ _ Hs), (strlen_spec _ _ _ Ht), !bind_Some_l.
  destruct (Z.eqb_spec (zlen s) (zlen t)) as [He|He]; simpl.
  - apply (strequ_loop_spec m p q s t [0] [0]); [|unfold zlen in He; lia|apply Hs|apply Ht].
    unfold zlen. lia.
  - rewrite bool_decide_false; [done|]. by intros ->.
Qed.

(** A function on characters that keeps them inside a string. *)
Definition char_fun (f : Z -> Z) : Prop := forall x, 0 < x < 256 -> 0 < f x < 256.

Lemma toupper_char : char_fun toupper.
Proof. intros x Hx. unfold toupper. zcases. Qed.

Lemma tolower_char : char_fun tolower.
Proof. intros x Hx. unfold tolower. zcases. Qed.

Lemma chars_map f s : char_fun f -> chars s -> chars (map f s).
Proof. intros Hf Hs. induction Hs; simpl; [constructor|]. constructor; auto. Qed.

Lemma strmap_loop_spec f m p a b fuel :
  char_fun f -> chars a -> chars b -> mbytes m p (a ++ b ++ [0]) -> (length b < fuel)%nat ->
  strmap_loop f fuel m p (zlen a) = Some (mwrite m (p + zlen a) (map f b)).
Proof.
  intros Hf. revert m a fuel. induction b as [|x b IH]; intros m a [|fuel] Ha Hb Hm Hl;
    simpl in Hl; try lia; cbn [strmap_loop].
  - rewrite (strlen_spec m p a), bind_Some_l by (split; done). zcase; [lia|done].
  - pose proof Hb as Hxb. apply chars_cons in Hb as [? Hb].
    rewrite (strlen_spec m p (a ++ x :: b)), bind_Some_l by
      (split; [by apply Forall_app|by rewrite <-app_assoc]).
    rewrite zlen_app, zlen_cons. pose proof (zlen_nonneg b). zcase; [|lia].
    apply mbytes_app in Hm as [Hma [Hx Hmb]]. unfold load. rewrite Hx, bind_Some_l.
    pose proof (Hf x ltac:(done)). rewrite store_ok, bind_Some_l by (eauto || lia).
    replace (zlen a + 1) with (zlen (a ++ [f x])) by (rewrite zlen_app, zlen_cons, zlen_nil; lia).
    rewrite IH; [|by apply Forall_app; split; [|constructor]|done| |lia].
    + rewrite zlen_app, zlen_cons, zlen_nil. simpl. f_equal. f_equal. lia.
    + rewrite <-app_assoc. apply mbytes_app. split; [by apply mbytes_insert; [|lia]|].
      split; [apply lookup_insert_eq|]. apply mbytes_insert; [done|lia].
Qed.

Lemma strmap_spec f m p s :
  char_fun f -> cstr m p s -> strmap_loop f (fuel_of m) m p 0 = Some (mwrite m p (map f s)).
Proof.
  intros Hf Hs. pose proof (cstr_fuel _ _ _ Hs). destruct Hs as [Hc Hm].
  pose proof (strmap_loop_spec f m p [] s (fuel_of m) Hf ltac:(constructor) Hc Hm ltac:(lia)) as E.
  by rewrite zlen_nil, Z.add_0_r in E.
Qed.

Lemma strtoupper_spec m p s : cstr m p s -> strtoupper m p = Some (mwrite m p (map toupper s)).
Proof. apply strmap_spec, toupper_char. Qed.

Lemma strtolower_spec m p s : cstr m p s -> strtolower m p = Some (mwrite m p (map tolower s)).
Proof. apply strmap_spec, tolower_char. Qed.

(** *** Numerals *)

Lemma digs_length n base digit num : length (digs n base digit num) = n.
Proof.
  revert num. induction n as [|n IH]; intros num; simpl; [done|].
  rewrite length_app, IH. simpl. lia.
Qed.

Lemma put_digits_spec n base digit m out pos num :
  0 < base -> 0 <= num -> (forall d, 0 <= d < base -> 0 <= digit d < 256) ->
  writable m (out + pos + 1 - Z.of_nat n) (Z.of_nat n) ->
  put_digits n base digit m out pos num
  = Some (mwrite m (out + pos + 1 - Z.of_nat n) (digs n base digit num)).
Proof.
  intros Hb Hnum Hd. revert m pos num Hnum. induction n as [|n IH]; intros m pos num Hnum Hw; [done|].
  cbn [put_digits digs]. rewrite Z.rem_mod_nonneg, Z.quot_div_nonneg by lia.
  pose proof (Z.mod_pos_bound num base Hb) as Hm. specialize (Hd _ Hm) as Hdig.
  rewrite store_ok, bind_Some_l by
    (done || (replace (out + pos) with (out + pos + 1 - Z.of_nat (S n) + Z.of_nat n) by lia;
              apply Hw; lia)).
  rewrite IH.
  - rewrite mwrite_snoc. unfold zlen. rewrite digs_length.
    rewrite mwrite_insert_comm by (unfold zlen; rewrite digs_length; lia).
    do 2 f_equal; [lia|]. f_equal. lia.
  - apply Z.div_pos; lia.
  - apply writable_insert.
    replace (out + (pos - 1) + 1 - Z.of_nat n) with (out + pos + 1 - Z.of_nat (S n)) by lia.
    eapply writable_le; [done|lia].
Qed.

Lemma num_length_spec fuel base num len :
  1 < base -> 0 <= num < base ^ Z.of_nat fuel ->
  exists k, num_length fuel base num len = len + Z.of_nat k /\ (k <= fuel)%nat /\
    num < base ^ Z.of_nat k /\ (0 < num -> (0 < k)%nat).
Proof.
  intros Hb. revert num len. induction fuel as [|fuel IH]; intros num len Hn.
  { exists 0%nat. simpl in *. split_and!; try lia. }
  cbn [num_length]. zcase.
  - rewrite Z.quot_div_nonneg by lia.
    destruct (IH (num / base) (len + 1)) as (k & -> & Hk & Hlt & _).
    { split; [apply Z.div_pos; lia|]. apply Z.div_lt_upper_bound; [lia|].
      rewrite Nat2Z.inj_succ, Z.pow_succ_r in Hn by lia. lia. }
    exists (S k). split_and!; try lia.
    rewrite Nat2Z.inj_succ, Z.pow_succ_r by lia.
    pose proof (Z.div_mod num base ltac:(lia)). pose proof (Z.mod_pos_bound num base ltac:(lia)). nia.
  - exists 0%nat. split_and!; simpl; lia.
Qed.

Lemma num_length_le fuel base num len n :
  1 < base -> 0 <= num < base ^ Z.of_nat n -> (n <= fuel)%nat ->
  exists k, num_length fuel base num len = len + Z.of_nat k /\ (k <= n)%nat.
Proof.
  intros Hb. revert fuel num len. induction n as [|n IH]; intros fuel num len Hn Hf.
  { exists 0%nat. split; [|lia]. simpl in Hn. destruct fuel; simpl; [lia|]. zcases. }
  destruct fuel as [|fuel]; [lia|]. cbn [num_length]. zcase.
  - rewrite Z.quot_div_nonneg by lia.
    destruct (IH fuel (num / base) (len + 1)) as (k & -> & Hk); [|lia|].
    + split; [apply Z.div_pos; lia|]. apply Z.div_lt_upper_bound; [lia|].
      rewrite Nat2Z.inj_succ, Z.pow_succ_r in Hn by lia. lia.
    + exists (S k). lia.
  - exists 0%nat. lia.
Qed.

Lemma digits_value_snoc base val s c :
  digits_value base val (s ++ [c]) = digits_value base val s * base + val c.
Proof. unfold digits_value. by rewrite fold_left_app. Qed.

Lemma digs_value n base digit val num :
  0 < base -> (forall d, 0 <= d < base -> val (digit d) = d) -> 0 <= num ->
  digits_value base val (digs n base digit num) = num `mod` base ^ Z.of_nat n.
Proof.
  intros Hb Hv. revert num. induction n as [|n IH]; intros num Hn; simpl digs.
  { simpl. by rewrite Z.mod_1_r. }
  rewrite digits_value_snoc, IH by (apply Z.div_pos; lia).
  rewrite Hv by (apply Z.mod_pos_bound; lia).
  rewrite Nat2Z.inj_succ, Z.pow_succ_r, Z.rem_mul_r by (try apply Z.pow_pos_nonneg; lia). lia.
Qed.

Lemma numeral_value base digit val num :
  1 < base -> (forall d, 0 <= d < base -> val (digit d) = d) -> val 48 = 0 ->
  0 <= num < base ^ 32 -> digits_value base val (numeral base digit num) = num.
Proof.
  intros Hb Hv H0 Hn. unfold numeral. zcase; [subst; simpl; done|].
  destruct (num_length_spec 32 base num 0) as (k & -> & _ & Hlt & _); [lia|done|].
  rewrite Z.add_0_l, Nat2Z.id, (digs_value k base digit val) by (try done; lia).
  apply Z.mod_small. lia.
Qed.

(** The common body of [uinttostr] and [uinttohexstr]. *)
Definition print_num (base : Z) (digit : Z -> Z) (m : mem) (num out : Z) : option mem :=
  if num =? 0 then put_zero m out
  else
    let length := num_length 32 base num 0 in
    m ← store m (out + length) 0;
    put_digits (Z.to_nat length) base digit m out (length - 1) num.

Lemma print_num_spec base digit m num out :
  1 < base -> 0 <= num < base ^ 32 -> (forall d, 0 <= d < base -> 0 <= digit d < 256) ->
  writable m out (zlen (numeral base digit num) + 1) ->
  print_num base digit m num out = Some (mwrite m out (numeral base digit num ++ [0])).
Proof.
  intros Hb Hn Hd Hw. unfold print_num, numeral in *. zcase.
  { unfold put_zero. rewrite zlen_cons, zlen_nil in Hw.
    rewrite store_ok, bind_Some_l by (lia || by eapply writable_head).
    rewrite store_ok; [done| |lia]. apply (writable_insert _ _ 2); [by eapply writable_le|lia]. }
  destruct (num_length_spec 32 base num 0) as (k & Hk & _ & Hlt & Hpos); [lia|done|].
  rewrite Hk, Z.add_0_l, Nat2Z.id in *.
  assert (Hlen : zlen (digs k base digit num) = Z.of_nat k) by (unfold zlen; by rewrite digs_length).
  rewrite Hlen in Hw. rewrite (writable_store _ _ _ _ _ Hw), bind_Some_l by lia.
  assert (He : out + (Z.of_nat k - 1) + 1 - Z.of_nat k = out) by lia.
  rewrite put_digits_spec; try done; try lia; rewrite He.
  - rewrite mwrite_snoc, Hlen, mwrite_insert_comm by lia. done.
  - apply writable_insert. eapply writable_le; [done|lia].
Qed.

Lemma decdigit_val d : 0 <= d < 10 -> decdigit d - 48 = d.
Proof. unfold decdigit. lia. Qed.

Lemma hexdigit_val d : 0 <= d < 16 -> hexvalue (hexdigit d) = d.
Proof. intros. unfold hexvalue, hexdigit, is_digit. zcases. Qed.

Lemma hexdigit_byte d : 0 <= d < 16 -> 0 <= hexdigit d < 256.
Proof. intros. unfold hexdigit. zcases. Qed.

Lemma uinttostr_spec m num out :
  is_u32 num -> writable m out (zlen (decimal num) + 1) ->
  uinttostr m num out = Some (mwrite m out (decimal num ++ [0])).
Proof.
  unfold is_u32. intros Hn Hw. apply print_num_spec; try done; [lia|].
  unfold decdigit. lia.
Qed.

Lemma uinttohexstr_spec m num out :
  is_u32 num -> writable m out (zlen (hexadecimal num) + 1) ->
  uinttohexstr m num out = Some (mwrite m out (hexadecimal num ++ [0])).
Proof.
  unfold is_u32. intros Hn Hw. apply print_num_spec; try done; [lia|]. apply hexdigit_byte.
Qed.

(** Every character of a numeral is a digit of the base. *)
Lemma digs_Forall (P : Z -> Prop) n base digit num :
  0 < base -> (forall d, 0 <= d < base -> P (digit d)) -> 0 <= num ->
  Forall P (digs n base digit num).
Proof.
  intros Hb Hd. revert num. induction n as [|n IH]; intros num Hn; simpl; [constructor|].
  apply Forall_app. split; [apply IH, Z.div_pos; lia|].
  constructor; [|constructor]. apply Hd, Z.mod_pos_bound. lia.
Qed.

Lemma numeral_Forall (P : Z -> Prop) base digit num :
  0 < base -> (forall d, 0 <= d < base -> P (digit d)) -> P 48 -> 0 <= num ->
  Forall P (numeral base digit num).
Proof.
  intros. unfold numeral. zcase; [by repeat constructor|]. by apply digs_Forall.
Qed.

Lemma decimal_digits num : 0 <= num -> Forall (fun c => is_digit c = true) (decimal num).
Proof.
  intros. apply numeral_Forall; try done. intros d Hd. unfold is_digit, decdigit. lia.
Qed.

Lemma hextouint_loop_spec m p s fuel u :
  Forall (fun c => is_digit c = true \/ 65 <= c <= 70) s -> mbytes m p (s ++ [0]) ->
  (length s < fuel)%nat -> 0 <= u ->
  let v := fold_left (fun acc c => acc * 16 + hexvalue c) s u in
  v < 2 ^ 32 -> hextouint_loop fuel m p u = Some v.
Proof.
  revert p fuel u. induction s as [|x s IH]; intros p [|fuel] u Hs Hm Hf Hu v Hv;
    simpl in Hf; try lia; cbn [hextouint_loop]; destruct Hm as [Hx Hm]; unfold load;
    rewrite Hx, bind_Some_l; [done|].
  apply Forall_cons in Hs as [Hxd Hs]. unfold v in *. simpl in *.
  assert (Hge : forall t w, 0 <= w -> Forall (fun c => is_digit c = true \/ 65 <= c <= 70) t ->
    w <= fold_left (fun acc c => acc * 16 + hexvalue c) t w).
  { clear. induction t as [|c t IH]; intros w Hw Ht; simpl; [lia|].
    apply Forall_cons in Ht as [Hc Ht].
    assert (0 <= hexvalue c) by (unfold hexvalue, is_digit in *; zcases).
    etrans; [|apply IH; [lia|done]]. lia. }
  assert (0 <= hexvalue x < 16) by (unfold hexvalue, is_digit in *; zcases).
  specialize (Hge s (u * 16 + hexvalue x) ltac:(lia) Hs).
  rewrite Z.shiftl_mul_pow2 by lia.
  destruct (Z.eqb_spec x 0) as [->|]; [destruct Hxd; [done|lia]|].
  rewrite <-(IH (p + 1) fuel (u * 16 + hexvalue x)) by (try done; lia). f_equal.
  unfold hexvalue in *. destruct (is_digit x) eqn:Hd.
  - apply u32_id. lia.
  - destruct Hxd as [?|Hr]; [done|]. zcase; [rewrite u32_id; lia|lia].
Qed.

Lemma strtoint_loop_spec m p s z l fuel r :
  Forall (fun c => is_digit c = true) s -> is_digit z = false -> mbytes m p (s ++ z :: l) ->
  (length s < fuel)%nat -> 0 <= r ->
  let v := fold_left (fun acc c => acc * 10 + (c - 48)) s r in
  v < 2 ^ 31 -> strtoint_loop fuel m p r = Some v.
Proof.
  revert p fuel r. induction s as [|x s IH]; intros p [|fuel] r Hs Hz Hm Hf Hr v Hv;
    simpl in Hf; try lia; cbn [strtoint_loop]; destruct Hm as [Hx Hm]; unfold load;
    rewrite Hx, bind_Some_l; [by rewrite Hz|].
  apply Forall_cons in Hs as [Hxd Hs]. rewrite Hxd. unfold v in *. simpl in *.
  assert (Hge : forall t w, 0 <= w -> Forall (fun c => is_digit c = true) t ->
    w <= fold_left (fun acc c => acc * 10 + (c - 48)) t w).
  { clear. induction t as [|c t IH]; intros w Hw Ht; simpl; [lia|].
    apply Forall_cons in Ht as [Hc Ht]. unfold is_digit in Hc.
    etrans; [|apply IH; [lia|done]]. lia. }
  unfold is_digit in Hxd. specialize (Hge s (r * 10 + (x - 48)) ltac:(lia) Hs).
  rewrite s32_id by lia. apply IH; try done; lia.
Qed.

End ops.

(** *** Signed numerals *)

Lemma digs_cons k base digit num :
  0 < base -> 0 <= num ->
  digs (S k) base digit num = digit ((num / base ^ Z.of_nat k) `mod` base) :: digs k base digit num.
Proof.
  intros Hb. revert num. induction k as [|k IH]; intros num Hn.
  { simpl. by rewrite Z.div_1_r. }
  change (digs (S (S k)) base digit num)
    with (digs (S k) base digit (num / base) ++ [digit (num `mod` base)]).
  rewrite IH by (apply Z.div_pos; lia).
  rewrite Z.div_div by (try apply Z.pow_pos_nonneg; lia).
  rewrite Nat2Z.inj_succ, Z.pow_succ_r by lia. done.
Qed.

(** The text [inttostr] produces; the magnitude is [num_abs]. *)
Definition num_abs (num : Z) : Z := if num <? 0 then s32 (- num) else num.

Definition int_text (num : Z) : list Z :=
  if num =? 0 then [48]
  else
    let a := num_abs num in
    if num <? 0 then 45 :: digs (Z.to_nat (num_length 32 10 a 0)) 10 decdigit a
    else digs (Z.to_nat (num_length 32 10 a 0)) 10 decdigit a.

Lemma inttostr_spec m num out :
  - 2 ^ 31 < num < 2 ^ 31 -> writable m out (zlen (int_text num) + 1) ->
  inttostr m num out = Some (mwrite m out (int_text num ++ [0])).
Proof.
  intros Hn Hw. unfold inttostr, int_text in *.
  destruct (Z.eqb_spec num 0) as [->|Hz].
  { exact (uinttostr_spec m 0 out ltac:(unfold is_u32; lia) Hw). }
  set (a := num_abs num) in *. change (if num <? 0 then s32 (- num) else num) with a.
  assert (Ha : 0 < a < 2 ^ 31) by (unfold a, num_abs; zcase; [rewrite s32_id; lia|lia]).
  destruct (num_length_spec 32 10 a 0) as (k & Hk & _ & Hlt & Hpos); [lia|lia|].
  rewrite Hk, Z.add_0_l, Nat2Z.id in *. specialize (Hpos ltac:(lia)).
  assert (Hdec : forall d, 0 <= d < 10 -> 0 <= decdigit d < 256) by (unfold decdigit; lia).
  assert (Hlen : zlen (digs k 10 decdigit a) = Z.of_nat k) by (unfold zlen; by rewrite digs_length).
  destruct (Z.ltb_spec num 0) as [Hneg|Hnneg].
  - rewrite zlen_cons, Hlen in Hw.
    rewrite (writable_store _ _ _ _ _ Hw), bind_Some_l by lia.
    replace (Z.to_nat (Z.of_nat k + 1)) with (S k) by lia.
    assert (He : out + (Z.of_nat k + 1 - 1) + 1 - Z.of_nat (S k) = out) by lia.
    rewrite put_digits_spec, bind_Some_l; try done; try lia; rewrite He;
      [|apply writable_insert; eapply writable_le; [done|lia]].
    rewrite digs_cons by lia. rewrite store_ok; [|apply (writable_head _ _ 1); [|lia]|lia];
      [|apply writable_mwrite, writable_insert; eapply writable_le; [done|lia]].
    f_equal. simpl. rewrite mwrite_snoc, Hlen.
    rewrite <-mwrite_insert_comm by lia. rewrite insert_insert_eq.
    rewrite insert_insert_ne, (mwrite_insert_comm _ _ _ (out + (Z.of_nat k + 1))) by lia.
    by replace (out + (Z.of_nat k + 1)) with (out + 1 + Z.of_nat k) by lia.
  - rewrite Hlen in Hw. rewrite (writable_store _ _ _ _ _ Hw), bind_Some_l by lia.
    assert (He : out + (Z.of_nat k - 1) + 1 - Z.of_nat k = out) by lia.
    rewrite Nat2Z.id, put_digits_spec, bind_Some_l; try done; try lia; rewrite He;
      [|apply writable_insert; eapply writable_le; [done|lia]].
    by rewrite mwrite_snoc, Hlen, mwrite_insert_comm by lia.
Qed.

Lemma is_digit_not_special c : is_digit c = true -> c <> 32 /\ c <> 45 /\ c <> 43 /\ c <> 0.
Proof. unfold is_digit. lia. Qed.

Lemma skip_spaces_none m p x :
  m !! p = Some x -> x <> 32 -> skip_spaces (fuel_of m) m p = Some p.
Proof.
  intros Hx Hne. unfold fuel_of. cbn [skip_spaces]. unfold load.
  rewrite Hx, bind_Some_l. by zcase.
Qed.

(** [strtoint] on a digit string, optionally behind a minus sign. *)
Lemma strtoint_digits m p (neg : bool) s :
  Forall (fun c => is_digit c = true) s -> mbytes m p ((if neg then [45] else []) ++ s ++ [0]) ->
  s <> [] -> 0 <= digits_value 10 (fun c => c - 48) s < 2 ^ 31 ->
  strtoint m p = Some (if neg then - digits_value 10 (fun c => c - 48) s
                       else digits_value 10 (fun c => c - 48) s).
Proof.
  intros Hs Hm Hne Hv. set (v := digits_value 10 (fun c => c - 48) s) in *.
  assert (Hsz : (length s < fuel_of m)%nat).
  { apply mbytes_size in Hm. rewrite !length_app in Hm. unfold fuel_of. lia. }
  assert (Hloop : forall q, mbytes m q (s ++ [0]) -> strtoint_loop (fuel_of m) m q 0 = Some v).
  { intros q Hq. apply (strtoint_loop_spec m q s 0 []); try done. change (v < 2 ^ 31). lia. }
  destruct neg; cbn [app] in Hm.
  - destruct Hm as [Hx Hm]. unfold strtoint. rewrite (skip_spaces_none m p 45) by done.
    rewrite bind_Some_l. unfold load. rewrite Hx, bind_Some_l. cbn [Z.eqb Pos.eqb].
    rewrite Hloop, bind_Some_l by done. f_equal. rewrite s32_id; lia.
  - destruct s as [|x s']; [done|]. pose proof Hm as [Hx _].
    pose proof (is_digit_not_special x) as Hd. apply Forall_cons in Hs as [Hxd _].
    specialize (Hd Hxd). unfold strtoint. rewrite (skip_spaces_none m p x) by (done || lia).
    rewrite bind_Some_l. unfold load. rewrite Hx, bind_Some_l. zcase; [lia|]. zcase; [lia|].
    rewrite Hloop, bind_Some_l by done. f_equal. rewrite s32_id; lia.
Qed.

Lemma digs_decimal k num :
  0 <= num < 10 ^ Z.of_nat k ->
  Forall (fun c => is_digit c = true) (digs k 10 decdigit num) /\
  digits_value 10 (fun c => c - 48) (digs k 10 decdigit num) = num.
Proof.
  intros Hn. split.
  - apply digs_Forall; try lia. intros d Hd. unfold is_digit, decdigit. lia.
  - rewrite (digs_value k 10 decdigit) by (try lia; intros; by apply decdigit_val).
    by apply Z.mod_small.
Qed.

(** Reading back what [inttostr] wrote. *)
Lemma int_text_value m out num :
  - 2 ^ 31 < num < 2 ^ 31 -> mbytes m out (int_text num ++ [0]) -> strtoint m out = Some num.
Proof.
  intros Hn Hm. unfold int_text in Hm. destruct (Z.eqb_spec num 0) as [->|Hz].
  { rewrite (strtoint_digits m out false [48]); try done. by repeat constructor. }
  set (a := num_abs num) in *.
  assert (Ha : 0 < a < 2 ^ 31 /\ (num < 0 -> num = - a) /\ (0 <= num -> num = a))
    by (unfold a, num_abs; zcase; [rewrite s32_id; lia|lia]).
  destruct (num_length_spec 32 10 a 0) as (k & Hk & _ & Hlt & Hpos); [lia|lia|].
  rewrite Hk, Z.add_0_l, Nat2Z.id in Hm. specialize (Hpos ltac:(lia)).
  destruct (digs_decimal k a) as [Hd Hv]; [lia|].
  assert (Hne : digs k 10 decdigit a <> []).
  { intros E. apply (f_equal length) in E. rewrite digs_length in E. simpl in E. lia. }
  rewrite (strtoint_digits m out (num <? 0) (digs k 10 decdigit a)); try done.
  - rewrite Hv. zcase; f_equal; lia.
  - zcase; exact Hm.
  - rewrite Hv. lia.
Qed.

Lemma inttostr_min m out :
  writable m out 12 -> inttostr m (- 2 ^ 31) out = Some (mwrite m out [45; 0]).
Proof.
  intros Hw.
  assert (H0 : is_Some (m !! out)) by by eapply writable_head.
  assert (H1 : is_Some (m !! (out + 1))) by (apply Hw; lia).
  unfold inttostr. change (- 2 ^ 31 =? 0) with false. change (- 2 ^ 31 <? 0) with true.
  cbv beta iota zeta. change (s32 (- - 2 ^ 31)) with (- 2 ^ 31).
  change (num_length 32 10 (- 2 ^ 31) 0) with 0. change (0 + 1) with 1. rewrite store_ok, bind_Some_l by (done || lia).
  change (Z.to_nat 1) with 1%nat. cbn [put_digits]. change (1 - 1) with 0. rewrite !Z.add_0_r.
  assert (Hi : forall x y : Z, is_Some (m !! y) -> forall a, is_Some (<[a := x]> m !! y)).
  { intros x y Hy a. rewrite lookup_insert. by case_decide. }
  rewrite store_u8, !bind_Some_l by (by apply Hi).
  rewrite store_ok by (try lia; rewrite lookup_insert_eq; eauto).
  f_equal. simpl. rewrite insert_insert_eq. by rewrite insert_insert_ne by lia.
Qed.

(** Numeral lengths. *)
Lemma numeral_length base digit num n :
  1 < base -> 0 <= num < base ^ Z.of_nat n -> (0 < n <= 32)%nat ->
  zlen (numeral base digit num) <= Z.of_nat n.
Proof.
  intros Hb Hn Hr. unfold numeral. zcase; [rewrite zlen_cons, zlen_nil; lia|].
  destruct (num_length_le 32 base num 0 n) as (k & -> & Hk); [lia|done|lia|].
  unfold zlen. rewrite digs_length. lia.
Qed.

Lemma hexadecimal_length num : is_u32 num -> zlen (hexadecimal num) <= 8.
Proof. intros Hn. apply (numeral_length 16 hexdigit num 8); [lia|exact Hn|lia]. Qed.

Lemma int_text_length num : - 2 ^ 31 < num < 2 ^ 31 -> zlen (int_text num) <= 11.
Proof.
  intros Hn. unfold int_text. zcase; [done|].
  assert (Ha : 0 <= num_abs num < 10 ^ Z.of_nat 10)
    by (unfold num_abs; zcase; [rewrite s32_id; lia|lia]).
  destruct (num_length_le 32 10 (num_abs num) 0 10) as (k & -> & Hk); [lia|done|lia|].
  zcase; unfold zlen; simpl length; rewrite digs_length; lia.
Qed.

(** ** Theorems *)

(** [memmove] copies [l] to [dest] whatever the overlap, and changes nothing else. *)
Theorem memmove_overlap (m : mem) (dest src : Z) (l : list Z) :
  mbytes m src l -> bytes l -> writable m dest (zlen l) ->
  exists m', memmove m dest src (zlen l) = Some m' /\ mbytes m' dest l /\
    (forall a, a < dest \/ dest + zlen l <= a -> m' !! a = m !! a).
Proof.
  intros. exists (mwrite m dest l). split; [by apply memmove_any|].
  split; [apply mbytes_mwrite|]. intros. by apply mwrite_lookup_out.
Qed.

Lemma memmove_overlap_witness :
  exists m', memmove (mwrite ∅ 10 [1; 2; 3; 4]) 11 10 3 = Some m' /\ mbytes m' 11 [1; 2; 3].
Proof.
  destruct (memmove_overlap (mwrite ∅ 10 [1; 2; 3; 4]) 11 10 [1; 2; 3]) as (m' & E & H & _).
  - repeat split; vm_compute; reflexivity.
  - repeat constructor; lia.
  - apply (mbytes_writable _ 11 [2; 3; 4]). repeat split; vm_compute; reflexivity.
  - exists m'. split; [exact E|exact H].
Defined.

(** [strsplit] cuts at the first separator, in place or into other buffers. *)
Theorem strsplit_correct (m : mem) (d1 d2 src c : Z) (s : list Z) :
  cstr m src s -> c <> 0 ->
  dest_ok m d1 src (zlen s + 1) -> dest_ok m d2 src (zlen s + 1) ->
  strsplit m d1 d2 src c = Some
    (match split_first c s with
     | Some (a, b) => (true, mwrite_opt (mwrite_opt m d1 (a ++ [0])) d2 (b ++ [0]))
     | None => (false, mwrite_opt (mwrite_opt m d1 (s ++ [0])) d2 [0])
     end).
Proof.
  intros Hs Hc Hd1 Hd2. destruct (split_first c s) as [[a b]|] eqn:E.
  - by apply (strsplit_found m d1 d2 src c s).
  - by apply strsplit_notfound.
Qed.

(** The string at [src] is [ab/c], split in place at the slash. *)
Lemma strsplit_correct_witness :
  strsplit (mwrite ∅ 10 [97; 98; 47; 99; 0]) 10 NULL 10 47
  = Some (true, mwrite (mwrite ∅ 10 [97; 98; 47; 99; 0]) 10 [97; 98; 0]).
Proof.
  rewrite (strsplit_correct (mwrite ∅ 10 [97; 98; 47; 99; 0]) 10 NULL 10 47 [97; 98; 47; 99]).
  - reflexivity.
  - split; [repeat constructor; lia|]. repeat split; vm_compute; reflexivity.
  - lia.
  - right. split; [|left; lia]. apply (mbytes_writable _ 10 [97; 98; 47; 99; 0]).
    repeat split; vm_compute; reflexivity.
  - by left.
Defined.

(** A 32-bit number survives [uinttohexstr] and [hextouint]. *)
Theorem hex_roundtrip (m : mem) (num out : Z) :
  is_u32 num -> writable m out 9 ->
  exists m', uinttohexstr m num out = Some m' /\ hextouint m' out = Some num.
Proof.
  intros Hn Hw. pose proof Hn as Hr. unfold is_u32 in Hr.
  assert (Hlen : zlen (hexadecimal num) <= 8) by (by apply hexadecimal_length).
  exists (mwrite m out (hexadecimal num ++ [0])). split.
  { apply uinttohexstr_spec; [done|]. eapply writable_le; [done|lia]. }
  assert (Hv : digits_value 16 hexvalue (hexadecimal num) = num).
  { apply numeral_value; try done; [|lia]. intros. by apply hexdigit_val. }
  assert (Hm : mbytes (mwrite m out (hexadecimal num ++ [0])) out (hexadecimal num ++ [0]))
    by apply mbytes_mwrite.
  unfold hextouint. transitivity (Some (digits_value 16 hexvalue (hexadecimal num)));
    [|by rewrite Hv]. apply hextouint_loop_spec; try done.
  - apply numeral_Forall; try lia; [|by left]. intros d Hd.
    unfold is_digit, hexdigit. zcases.
  - apply mbytes_size in Hm. rewrite length_app in Hm. simpl in Hm. unfold fuel_of. lia.
  - change (digits_value 16 hexvalue (hexadecimal num) < 2 ^ 32). lia.
Qed.

Lemma hex_roundtrip_witness :
  exists m', uinttohexstr (mwrite ∅ 8 (replicate 9 0)) 48879 8 = Some m' /\
    hextouint m' 8 = Some 48879.
Proof.
  apply hex_roundtrip; [unfold is_u32; lia|].
  apply (mbytes_writable _ 8 (replicate 9 0)). repeat split; vm_compute; reflexivity.
Defined.

(** A signed number survives [inttostr] and [strtoint], except the most
    negative one, which prints as a lone minus sign. *)
Theorem int_roundtrip (m : mem) (num out : Z) :
  is_s32 num -> writable m out 12 ->
  exists m', inttostr m num out = Some m' /\
    (num <> - 2 ^ 31 -> strtoint m' out = Some num) /\
    (num = - 2 ^ 31 -> cstr m' out [45]).
Proof.
  intros Hn Hw. unfold is_s32 in Hn. destruct (decide (num = - 2 ^ 31)) as [->|Hne].
  { exists (mwrite m out [45; 0]). split; [by apply inttostr_min|].
    split; [done|]. intros _. split; [repeat constructor; lia|apply mbytes_mwrite]. }
  pose proof (int_text_length num ltac:(lia)) as Hlen.
  exists (mwrite m out (int_text num ++ [0])). split; [|split; [intros _|done]].
  { apply inttostr_spec; [lia|]. eapply writable_le; [done|lia]. }
  apply int_text_value; [lia|]. apply mbytes_mwrite.
Qed.

Lemma int_roundtrip_witness :
  (exists m', inttostr (mwrite ∅ 8 (replicate 12 0)) (-305) 8 = Some m' /\
     (-305 <> - 2 ^ 31 -> strtoint m' 8 = Some (-305)) /\ (-305 = - 2 ^ 31 -> cstr m' 8 [45])) /\
  is_s32 (- 2 ^ 31).
Proof.
  split; [|unfold is_s32; lia]. apply int_roundtrip; [unfold is_s32; lia|].
  apply (mbytes_writable _ 8 (replicate 12 0)). repeat split; vm_compute; reflexivity.
Defined.
