(* ===== verification/Memory.v ===== *)
(** * The physical block allocator (memory.c)

    The heap from [HEAP_KERNEL] is an array of [NBLOCKS] one-page blocks with
    one [allocated] flag each; [head] is a lower bound for the first free block,
    so [malloc] is a first fit that starts at [head]. The state is the record
    [heap]; [resize] and [memcpy_fast] also move bytes, in the memory of
    CString. What the clients (the page tables of Paging, the shared memory and
    the process structures) rely on is the class [Allocator], of which this file
    gives the instance. *)

From S2P Require Import Prelude CString.

Local Open Scope Z_scope.

(** ** State *)

Definition HEAP_KERNEL : Z := 17170432.        (* 0x1060000 *)
Definition KERNEL_HEAP_SIZE : Z := 33554432.   (* 0x2000000 *)
Definition MEM_BLOCK_SIZE : Z := 4096.
Definition NBLOCKS : Z := KERNEL_HEAP_SIZE / MEM_BLOCK_SIZE.

Record heap := Heap { head : Z; memory_status : list bool }.

Definition blocks_of (bytes : Z) : Z :=
  Z.quot (s32 (bytes + (MEM_BLOCK_SIZE - 1))) MEM_BLOCK_SIZE.

(** Signed block index of an address, as [free] and [memory_reserve] compute it. *)
Definition block_index (offset : Z) : Z :=
  Z.quot (s32 (s32 offset - HEAP_KERNEL)) MEM_BLOCK_SIZE.

Definition block_ok (b : Z) : bool := (0 <=? b) && (b <? NBLOCKS).

(** The loop of [free] and [memory_reserve] over blocks [b .. b+n-1]. *)
Fixpoint mark_loop (n : nat) (st : list bool) (b : Z) (v : bool) : list bool :=
  match n with
  | O => st
  | S n => mark_loop n (if block_ok b then zset st b v else st) (b + 1) v
  end.

(** ** Operations *)

Definition memory_reserve (h : heap) (offset bytes : Z) : heap :=
  {| head := head h;
     memory_status :=
       mark_loop (Z.to_nat (blocks_of bytes)) (memory_status h) (block_index offset) true |}.

Definition free (h : heap) (offset bytes : Z) : heap :=
  if (offset =? 0) || (bytes =? 0) then h
  else
    let blockStart := block_index offset in
    let st := mark_loop (Z.to_nat (blocks_of bytes)) (memory_status h) blockStart false in
    let hd :=
      if block_ok blockStart && (u32 (HEAP_KERNEL + blockStart * MEM_BLOCK_SIZE) <? head h)
      then u32 (HEAP_KERNEL + blockStart * MEM_BLOCK_SIZE) else head h in
    {| head := hd; memory_status := st |}.

Definition memory_init (h : heap) : heap :=
  {| head := head h; memory_status := replicate (Z.to_nat NBLOCKS) false |}.

(** The statically initialised state after [memory_init]. *)
Definition heap_init : heap :=
  memory_init {| head := HEAP_KERNEL; memory_status := [] |}.

(** The search loop of [malloc]: [None] is the early [return NULL]. Every turn
    advances [index], which is at least 0, so [NBLOCKS + 1] turns are enough. *)
Fixpoint malloc_scan (fuel : nat) (st : list bool)
    (noBlocks blocksRemaining index blockStart : Z) : option Z :=
  match fuel with
  | O => None
  | S fuel =>
      if 0 <? blocksRemaining then
        if NBLOCKS <=? index then None
        else
          match zget st index with
          | None => None
          | Some false =>
              malloc_scan fuel st noBlocks (blocksRemaining - 1) (index + 1)
                (if blocksRemaining =? noBlocks then index else blockStart)
          | Some true => malloc_scan fuel st noBlocks noBlocks (index + 1) blockStart
          end
      else Some blockStart
  end.

Definition malloc (h : heap) (bytes : Z) : Z * heap :=
  if bytes <=? 0 then (NULL, h)
  else
    let noBlocks := blocks_of bytes in
    let index := Z.quot (u32 (head h - HEAP_KERNEL)) MEM_BLOCK_SIZE in
    match malloc_scan (Z.to_nat NBLOCKS + 1) (memory_status h) noBlocks noBlocks index 0 with
    | None => (NULL, h)
    | Some blockStart =>
        let st := zfill (memory_status h) blockStart (Z.to_nat noBlocks) true in
        let addr := HEAP_KERNEL + blockStart * MEM_BLOCK_SIZE in
        (addr, {| head := if addr =? head h then u32 (addr + noBlocks * MEM_BLOCK_SIZE) else head h;
                  memory_status := st |})
    end.

(** [resize]: the new address (NULL if there is no room), the heap, the bytes. *)
Definition resize (h : heap) (m : mem) (offset oldsize newsize : Z)
    : option (Z * heap * mem) :=
  let '(newaddr, h1) := malloc h newsize in
  if newaddr =? NULL then Some (NULL, h1, m)
  else
    m ← memcpy m newaddr offset (if oldsize <? newsize then oldsize else newsize);
    Some (newaddr, free h1 offset oldsize, m).

(** [rep movsl]: words of four bytes, each read before it is written. *)
Fixpoint rep_movsl (n : nat) (m : mem) (dest src : Z) : option mem :=
  match n with
  | O => Some m
  | S n =>
      b0 ← load m src; b1 ← load m (src + 1); b2 ← load m (src + 2); b3 ← load m (src + 3);
      m ← store m dest b0; m ← store m (dest + 1) b1;
      m ← store m (dest + 2) b2; m ← store m (dest + 3) b3;
      rep_movsl n m (dest + 4) (src + 4)
  end.

Definition memcpy_fast (m : mem) (dest src bytes : Z) : option mem :=
  let dword_count := bytes / 4 in
  let byte_remainder := bytes mod 4 in
  m ← rep_movsl (Z.to_nat dword_count) m dest src;
  copy_loop (Z.to_nat byte_remainder) m (dest + 4 * dword_count) (src + 4 * dword_count).

(** ** The interface the clients use *)

(** Page [p] is the page at address [p * 4096]. [al_used h p] holds when it
    belongs to a live allocation. Sizes are counted in pages. *)
Definition pages (bytes : Z) : Z := (bytes + 4095) / 4096.

Class Allocator (H : Type) := {
  al_malloc : H -> Z -> Z * H;
  al_free : H -> Z -> Z -> H;
  al_used : H -> Z -> Prop;
  al_wf : H -> Prop;
  al_malloc_fail h n h' : al_malloc h n = (0, h') -> h' = h;
  al_malloc_ok h n p h' :
    al_wf h -> 0 < n < 2 ^ 31 - 4096 -> al_malloc h n = (p, h') -> p <> 0 ->
    al_wf h' /\ p mod 4096 = 0 /\ 0 < p /\ p + pages n * 4096 <= 2 ^ 31 /\
    (forall q, p / 4096 <= q < p / 4096 + pages n -> ~ al_used h q) /\
    (forall q, al_used h' q <-> al_used h q \/ p / 4096 <= q < p / 4096 + pages n);
  al_free_ok h n p :
    al_wf h -> 0 < n < 2 ^ 31 - 4096 -> p mod 4096 = 0 ->
    (forall q, p / 4096 <= q < p / 4096 + pages n -> al_used h q) ->
    al_wf (al_free h p n) /\
    (forall q, al_used (al_free h p n) q <->
       al_used h q /\ ~ (p / 4096 <= q < p / 4096 + pages n)) }.

(** ** Specification *)

(** Block [b] is marked allocated, or free. *)
Definition allocated (h : heap) (b : Z) : Prop := zget (memory_status h) b = Some true.
Definition available (h : heap) (b : Z) : Prop := zget (memory_status h) b = Some false.

(** A run of [n] free blocks from [b]. *)
Definition free_run (h : heap) (b n : Z) : Prop :=
  forall i, b <= i < b + n -> available h i.

(** [head] is the address of a block with no free block below it. *)
Record heap_wf (h : heap) : Prop := {
  hw_len : zlen (memory_status h) = NBLOCKS;
  hw_head : exists b, 0 <= b <= NBLOCKS /\ head h = HEAP_KERNEL + b * MEM_BLOCK_SIZE /\
    forall i, 0 <= i < b -> allocated h i }.

Definition block_addr (b : Z) : Z := HEAP_KERNEL + b * MEM_BLOCK_SIZE.

(** A history of the heap: the allocations that are live, with their sizes. *)
Record hstate := HState { hs_heap : heap; hs_live : list (Z * Z) }.

Inductive hstep : hstate -> hstate -> Prop :=
| HMalloc h live n p h' :
    malloc h n = (p, h') -> p <> NULL -> n < 2 ^ 31 - 4096 ->
    hstep (HState h live) (HState h' ((p, n) :: live))
| HMallocFail h live n h' :
    malloc h n = (NULL, h') -> hstep (HState h live) (HState h' live)
| HFree h l1 p n l2 :
    hstep (HState h (l1 ++ (p, n) :: l2)) (HState (free h p n) (l1 ++ l2)).

(** Byte [a] belongs to the blocks of allocation [(p, n)]. *)
Definition covers (pn : Z * Z) (a : Z) : Prop := fst pn <= a < fst pn + pages (snd pn) * 4096.

(** ** Lemmas *)

Lemma NBLOCKS_eq : NBLOCKS = 8192.
Proof. reflexivity. Qed.

#[global] Opaque NBLOCKS.

Ltac mem_consts :=
  unfold block_addr, HEAP_KERNEL, KERNEL_HEAP_SIZE, MEM_BLOCK_SIZE, NULL in *;
  rewrite ?NBLOCKS_eq in *.

Lemma zget_mark_loop n st b v j :
  zlen st = NBLOCKS ->
  zget (mark_loop n st b v) j =
  if decide (b <= j < b + Z.of_nat n /\ 0 <= j < NBLOCKS) then Some v else zget st j.
Proof.
  revert st b. induction n as [|n IH]; intros st b Hl; cbn [mark_loop].
  - case_decide; [lia|done].
  - destruct (block_ok b) eqn:Hb; unfold block_ok in Hb.
    + rewrite IH by (by rewrite zlen_zset). rewrite zget_zset, Hl.
      repeat case_decide; try done; lia.
    + rewrite IH by done. repeat case_decide; try done; lia.
Qed.

Lemma zlen_mark_loop n st b v : zlen (mark_loop n st b v) = zlen st.
Proof.
  revert st b. induction n as [|n IH]; intros st b; cbn [mark_loop]; [done|].
  rewrite IH. case_match; [apply zlen_zset|done].
Qed.

#[export] Hint Rewrite zlen_mark_loop : cint.

Lemma blocks_of_pages n : 0 <= n < 2 ^ 31 - 4096 -> blocks_of n = pages n.
Proof.
  intros. unfold blocks_of, pages, MEM_BLOCK_SIZE. rewrite s32_id by lia.
  replace (n + (4096 - 1)) with (n + 4095) by lia. apply Z.quot_div_nonneg; lia.
Qed.

Lemma pages_bounds n : 0 < n < 2 ^ 31 - 4096 -> 0 < pages n /\ n <= pages n * 4096 < n + 4096.
Proof. intros. unfold pages. Z.div_mod_to_equations. lia. Qed.

Lemma block_index_addr b : 0 <= b < NBLOCKS -> block_index (block_addr b) = b.
Proof.
  intros. mem_consts. unfold block_index, HEAP_KERNEL, MEM_BLOCK_SIZE.
  rewrite (s32_id (_ + _)), s32_id by lia.
  replace (_ - _) with (b * 4096) by lia. apply Z.quot_mul. lia.
Qed.

Lemma heap_index h b :
  head h = HEAP_KERNEL + b * MEM_BLOCK_SIZE -> 0 <= b <= NBLOCKS ->
  Z.quot (u32 (head h - HEAP_KERNEL)) MEM_BLOCK_SIZE = b.
Proof.
  intros -> ?. mem_consts. rewrite u32_id by lia.
  replace (_ - _) with (b * 4096) by lia. apply Z.quot_mul. lia.
Qed.

Lemma free_run_snoc h b n : 0 <= n -> free_run h b n -> available h (b + n) -> free_run h b (n + 1).
Proof.
  intros ? Hr Ha i Hi. destruct (decide (i = b + n)) as [->|]; [done|]. apply Hr. lia.
Qed.

(** The search invariant: the [n - r] blocks below [index] are free, and no run
    of [n] blocks starts between [lo] and the first of them. *)
Lemma malloc_scan_spec h fuel n r index start lo :
  zlen (memory_status h) = NBLOCKS -> 0 < n -> 0 <= r <= n -> 0 <= lo ->
  lo <= index - (n - r) -> index <= NBLOCKS -> NBLOCKS - index + 1 <= Z.of_nat fuel ->
  (r < n -> start = index - (n - r)) ->
  free_run h (index - (n - r)) (n - r) ->
  (forall b, lo <= b < index - (n - r) -> ~ free_run h b n) ->
  match malloc_scan fuel (memory_status h) n r index start with
  | Some s => lo <= s /\ s + n <= NBLOCKS /\ free_run h s n /\
      (forall b, lo <= b < s -> ~ free_run h b n)
  | None => forall b, lo <= b -> b + n <= NBLOCKS -> ~ free_run h b n
  end.
Proof.
  intros Hl Hn. revert r index start.
  induction fuel as [|fuel IH]; intros r index start Hr Hlo Hle Hi Hf Hs Hrun Hno; [lia|].
  cbn [malloc_scan]. zcase.
  2:{ assert (r = 0) as -> by lia. rewrite Hs by lia. rewrite Z.sub_0_r in *.
      split_and!; [lia..|done|done]. }
  zcase.
  { intros b Hb Hbn. apply Hno. lia. }
  destruct (zget_is_Some (memory_status h) index ltac:(lia)) as [[] Hst]; rewrite Hst.
  - apply IH; try lia; [intros i Hi'; lia|]. intros b Hb Hrb.
    destruct (decide (b < index - (n - r))); [by apply (Hno b); [lia|]|].
    assert (available h index) as Ha by (apply Hrb; lia). unfold available in Ha. congruence.
  - apply IH; try lia.
    + intros _. zcase; lia.
    + replace (index + 1 - (n - (r - 1))) with (index - (n - r)) by lia.
      replace (n - (r - 1)) with (n - r + 1) by lia. apply free_run_snoc; [lia|done|].
      by replace (index - (n - r) + (n - r)) with index by lia.
    + intros b Hb. apply Hno. lia.
Qed.

Lemma heap_below_head h b n i :
  (forall j, 0 <= j < b -> allocated h j) -> 0 < n -> 0 <= i < b -> ~ free_run h i n.
Proof.
  intros Hb Hn Hi Hr. specialize (Hb i Hi). specialize (Hr i ltac:(lia)).
  unfold allocated, available in *. congruence.
Qed.

(** The heap after blocks [s .. s+n-1] have been taken. *)
Definition take_run (h : heap) (s n : Z) : heap :=
  {| head := if block_addr s =? head h then u32 (block_addr s + n * MEM_BLOCK_SIZE) else head h;
     memory_status := zfill (memory_status h) s (Z.to_nat n) true |}.

(** [malloc] is the first fit: the lowest run of free blocks, or NULL exactly
    when there is none. *)
Lemma malloc_spec h bytes :
  heap_wf h -> 0 < bytes < 2 ^ 31 - 4096 ->
  (exists s, malloc h bytes = (block_addr s, take_run h s (pages bytes)) /\
     0 <= s /\ s + pages bytes <= NBLOCKS /\ free_run h s (pages bytes) /\
     forall b, 0 <= b < s -> ~ free_run h b (pages bytes)) \/
  (malloc h bytes = (NULL, h) /\
     forall b, 0 <= b -> b + pages bytes <= NBLOCKS -> ~ free_run h b (pages bytes)).
Proof.
  intros [Hl (hb & Hhb & Hhead & Hbelow)] Hb. pose proof (pages_bounds bytes Hb) as Hp.
  unfold malloc. zcase; [lia|]. rewrite blocks_of_pages, (heap_index h hb) by (done || lia).
  pose proof (malloc_scan_spec h (Z.to_nat NBLOCKS + 1) (pages bytes) (pages bytes) hb 0 hb) as Hs.
  rewrite Z.sub_diag, Z.sub_0_r in Hs. specialize (Hs Hl).
  specialize (Hs ltac:(lia) ltac:(lia) ltac:(lia) ltac:(lia) ltac:(lia) ltac:(lia) ltac:(lia)).
  specialize (Hs ltac:(intros i Hi; lia) ltac:(intros b Hb'; lia)).
  destruct (malloc_scan _ _ _ _ _ _) as [s|].
  - left. exists s. destruct Hs as (? & ? & ? & Hno). split; [done|]. split_and!; [lia..|done|].
    intros b Hb'. destruct (decide (b < hb)); [|apply Hno; lia].
    eapply heap_below_head; [exact Hbelow|lia..].
  - right. split; [done|]. intros b Hb' Hbn. destruct (decide (b < hb)); [|apply Hs; lia].
    eapply heap_below_head; [exact Hbelow|lia..].
Qed.

Lemma take_run_status h s n j :
  zlen (memory_status h) = NBLOCKS -> 0 <= s -> 0 <= n -> s + n <= NBLOCKS ->
  zget (memory_status (take_run h s n)) j =
  if decide (s <= j < s + n) then Some true else zget (memory_status h) j.
Proof.
  intros Hl ? ? ?. simpl. rewrite zget_zfill, Hl. repeat case_decide; try done; lia.
Qed.

Lemma take_run_wf h s n :
  heap_wf h -> 0 <= s -> 0 < n -> s + n <= NBLOCKS -> heap_wf (take_run h s n).
Proof.
  intros [Hl (hb & Hhb & Hhead & Hbelow)] ? ? ?. constructor.
  { simpl. by rewrite zlen_zfill. }
  destruct (decide (s = hb)) as [->|Hne].
  - exists (hb + n). split; [lia|]. split.
    + simpl. rewrite Hhead. unfold block_addr. rewrite Z.eqb_refl.
      mem_consts. rewrite u32_id; lia.
    + intros i Hi. unfold allocated. rewrite take_run_status by (done || lia).
      case_decide; [done|]. apply Hbelow. lia.
  - exists hb. split; [lia|]. split.
    + simpl. rewrite Hhead. unfold block_addr, MEM_BLOCK_SIZE. zcase; [lia|done].
    + intros i Hi. unfold allocated. rewrite take_run_status by (done || lia).
      case_decide; [done|]. by apply Hbelow.
Qed.

Lemma free_block_spec h b bytes :
  heap_wf h -> 0 < bytes < 2 ^ 31 - 4096 -> 0 <= b -> b + pages bytes <= NBLOCKS ->
  heap_wf (free h (block_addr b) bytes) /\
  forall j, zget (memory_status (free h (block_addr b) bytes)) j =
    if decide (b <= j < b + pages bytes) then Some false else zget (memory_status h) j.
Proof.
  intros [Hl (hb & Hhb & Hhead & Hbelow)] Hb ? ?. pose proof (pages_bounds bytes Hb) as Hp.
  unfold free. zcase; [mem_consts; lia|].
  rewrite block_index_addr, blocks_of_pages by lia. simpl.
  assert (Hst : forall j, zget (mark_loop (Z.to_nat (pages bytes)) (memory_status h) b false) j =
    if decide (b <= j < b + pages bytes) then Some false else zget (memory_status h) j).
  { intros j. rewrite zget_mark_loop by done. repeat case_decide; try done; lia. }
  split; [|exact Hst]. constructor; simpl; [by rewrite zlen_mark_loop|].
  unfold block_ok. exists (if b <? hb then b else hb). split; [zcase; lia|]. split.
  - rewrite Hhead. mem_consts. rewrite u32_id by lia. zcase; zcase; lia.
  - intros i Hi. unfold allocated. simpl. rewrite Hst.
    case_decide; [zcase; lia|]. apply Hbelow. zcase; lia.
Qed.

(** ** The allocator instance *)

Definition used_page (h : heap) (q : Z) : Prop := allocated h (q - HEAP_KERNEL / 4096).

Lemma block_addr_page b : block_addr b mod 4096 = 0 /\ block_addr b / 4096 = b + 4192.
Proof. mem_consts. split; Z.div_mod_to_equations; lia. Qed.

Lemma heap_malloc_fail h n h' : malloc h n = (0, h') -> h' = h.
Proof.
  unfold malloc. zcase; [by intros [=]|]. case_match; [|by intros [=]].
  intros [= He <-]. rename z into s.
  assert (0 <= s).
  { revert H. generalize (Z.to_nat NBLOCKS + 1)%nat, (blocks_of n) at 2.
    assert (Hi : 0 <= Z.quot (u32 (head h - HEAP_KERNEL)) MEM_BLOCK_SIZE).
    { apply Z.quot_pos; [pose proof (u32_range (head h - HEAP_KERNEL)) as []; done|done]. }
    revert Hi. generalize (Z.quot (u32 (head h - HEAP_KERNEL)) MEM_BLOCK_SIZE).
    assert (0 <= 0) as Hb by lia. revert Hb. generalize 0 at 2 4. intros b Hb i Hi f r.
    revert b Hb i Hi r. induction f as [|f IH]; intros b Hb i Hi r; simpl; [done|].
    zcase; [|by intros [= <-]]. zcase; [done|]. case_match; [|done].
    case_match; apply IH; try lia. zcase; lia. }
  mem_consts. lia.
Qed.

Lemma heap_malloc_ok h n p h' :
  heap_wf h -> 0 < n < 2 ^ 31 - 4096 -> malloc h n = (p, h') -> p <> 0 ->
  heap_wf h' /\ p mod 4096 = 0 /\ 0 < p /\ p + pages n * 4096 <= 2 ^ 31 /\
  (forall q, p / 4096 <= q < p / 4096 + pages n -> ~ used_page h q) /\
  (forall q, used_page h' q <-> used_page h q \/ p / 4096 <= q < p / 4096 + pages n).
Proof.
  intros Hwf Hn Hm Hp. pose proof (pages_bounds n Hn) as Hb.
  destruct (malloc_spec h n Hwf Hn) as [(s & E & Hs & Hsn & Hf & _)|[E _]];
    rewrite E in Hm; [|unfold NULL in Hm; congruence].
  injection Hm as <- <-. destruct (block_addr_page s) as [-> ->].
  split_and!; [by apply take_run_wf; try lia|done|mem_consts; lia|mem_consts; lia| |].
  - intros q Hq Hu. specialize (Hf (q - 4192) ltac:(lia)).
    unfold used_page, allocated, available in *. change (HEAP_KERNEL / 4096) with 4192 in Hu.
    congruence.
  - intros q. unfold used_page, allocated. change (HEAP_KERNEL / 4096) with 4192.
    rewrite take_run_status by (destruct Hwf; done || lia).
    case_decide; split; intuition (done || lia).
Qed.

Lemma used_page_range h q : heap_wf h -> used_page h q -> 4192 <= q < 4192 + NBLOCKS.
Proof.
  intros Hwf Hu. apply zget_Some_range in Hu. rewrite hw_len in Hu by done.
  change (HEAP_KERNEL / 4096) with 4192 in Hu. lia.
Qed.

Lemma heap_free_ok h n p :
  heap_wf h -> 0 < n < 2 ^ 31 - 4096 -> p mod 4096 = 0 ->
  (forall q, p / 4096 <= q < p / 4096 + pages n -> used_page h q) ->
  heap_wf (free h p n) /\
  (forall q, used_page (free h p n) q <->
     used_page h q /\ ~ (p / 4096 <= q < p / 4096 + pages n)).
Proof.
  intros Hwf Hn Hp Hu. pose proof (pages_bounds n Hn) as Hb.
  pose proof (used_page_range h _ Hwf (Hu (p / 4096) ltac:(lia))) as H1.
  pose proof (used_page_range h _ Hwf (Hu (p / 4096 + pages n - 1) ltac:(lia))) as H2.
  assert (p = block_addr (p / 4096 - 4192)) as E by (mem_consts; Z.div_mod_to_equations; lia).
  destruct (free_block_spec h (p / 4096 - 4192) n) as [Hwf' Hst]; [done..|lia|lia|].
  rewrite <-E in Hwf', Hst. split; [done|]. intros q. unfold used_page, allocated.
  change (HEAP_KERNEL / 4096) with 4192. rewrite Hst.
  case_decide; split; intuition (done || lia).
Qed.

#[export] Instance heap_allocator : Allocator heap := {|
  al_malloc := malloc;
  al_free := free;
  al_used := used_page;
  al_wf := heap_wf;
  al_malloc_fail := heap_malloc_fail;
  al_malloc_ok := heap_malloc_ok;
  al_free_ok := heap_free_ok |}.

Lemma heap_init_wf : heap_wf heap_init.
Proof.
  constructor.
  - simpl. rewrite zlen_replicate. mem_consts. lia.
  - exists 0. mem_consts. split_and!; [lia..|done|intros; lia].
Qed.

(** ** Live allocations *)

Definition alloc_ok (pn : Z * Z) : Prop :=
  0 < snd pn < 2 ^ 31 - 4096 /\ fst pn mod 4096 = 0.

(** Page [q] is one of the pages of [pn]. *)
Definition in_alloc (pn : Z * Z) (q : Z) : Prop :=
  fst pn / 4096 <= q < fst pn / 4096 + pages (snd pn).

Fixpoint disjoint_allocs (l : list (Z * Z)) : Prop :=
  match l with
  | [] => True
  | pn :: l => Forall (fun pn' => forall q, in_alloc pn q -> ~ in_alloc pn' q) l /\ disjoint_allocs l
  end.

(** The used pages are exactly those of the live allocations. *)
Record hstate_inv (s : hstate) : Prop := {
  hi_wf : heap_wf (hs_heap s);
  hi_ok : Forall alloc_ok (hs_live s);
  hi_disj : disjoint_allocs (hs_live s);
  hi_used q : used_page (hs_heap s) q <-> Exists (fun pn => in_alloc pn q) (hs_live s) }.

Lemma disjoint_allocs_mid l1 x l2 :
  disjoint_allocs (l1 ++ x :: l2) ->
  disjoint_allocs (l1 ++ l2) /\
  forall q, in_alloc x q -> ~ Exists (fun pn => in_alloc pn q) (l1 ++ l2).
Proof.
  induction l1 as [|y l1 IH]; simpl.
  - intros [Hf Hd]. split; [done|]. intros q Hq He. apply Exists_exists in He as (z & Hz & Hzq).
    rewrite Forall_forall in Hf. by apply (Hf z Hz q).
  - intros [Hf Hd]. destruct (IH Hd) as [Hd' Hx].
    rewrite Forall_app, Forall_cons in Hf. destruct Hf as (Hf1 & Hyx & Hf2).
    split; [split; [rewrite Forall_app; done|done]|].
    intros q Hq He. apply Exists_cons in He as [Hy|He]; [by apply (Hyx q)|by apply (Hx q)].
Qed.

Lemma malloc_pos h n p h' : malloc h n = (p, h') -> p <> NULL -> 0 < n.
Proof. unfold malloc. zcase; [|lia]. by intros [= <-]. Qed.

Lemma hstep_inv s s' : hstate_inv s -> hstep s s' -> hstate_inv s'.
Proof.
  intros [Hwf Hok Hd Hu] Hs. destruct Hs as [h live n p h' E Hp Hn|h live n h' E|h l1 p n l2];
    simpl in *.
  - pose proof (malloc_pos _ _ _ _ E Hp).
    destruct (heap_malloc_ok h n p h') as (? & ? & ? & ? & Hnew & Hused); [done|lia|done..|].
    constructor; simpl; [done|by constructor| |].
    + split; [|done]. apply Forall_forall. intros pn' Hin q Hq Hq'. apply (Hnew q Hq), Hu.
      apply Exists_exists. eauto.
    + intros q. rewrite Hused, Hu, Exists_cons. unfold in_alloc at 2. simpl. tauto.
  - apply heap_malloc_fail in E as ->. by constructor.
  - rewrite Forall_app, Forall_cons in Hok. destruct Hok as (Hok1 & [Hn Hp] & Hok2). simpl in *.
    destruct (disjoint_allocs_mid _ _ _ Hd) as [Hd' Hx].
    destruct (heap_free_ok h n p) as [Hwf' Hu']; [done..| |].
    { intros q Hq. apply Hu. rewrite Exists_app, Exists_cons. auto. }
    constructor; simpl; [done|by rewrite Forall_app|done|].
    intros q. rewrite Hu', Hu. specialize (Hx q). unfold in_alloc at 1 in Hx. simpl in Hx.
    rewrite !Exists_app, Exists_cons in *. unfold in_alloc at 2. simpl. tauto.
Qed.

Lemma malloc_fst h n p : fst (malloc h n) = p -> malloc h n = (p, snd (malloc h n)).
Proof. intros <-. by destruct (malloc h n). Qed.

(** ** Moving bytes *)

Lemma rep_movsl_spec m dest src l n :
  length l = (4 * n)%nat -> mbytes m src l -> bytes l -> writable m dest (zlen l) ->
  fwd_ok dest src (zlen l) -> rep_movsl n m dest src = Some (mwrite m dest l).
Proof.
  revert m dest src l. induction n as [|n IH]; intros m dest src l Hl Hm Hb Hw Hf;
    [by destruct l|].
  destruct l as [|a [|b [|c [|d l]]]]; simpl in Hl; try lia.
  pose proof (zlen_nonneg l). rewrite !zlen_cons in Hw, Hf.
  replace (zlen l + 1 + 1 + 1 + 1) with (zlen l + 4) in * by lia.
  unfold bytes in Hb. rewrite !Forall_cons in Hb. destruct Hb as (? & ? & ? & ? & Hb).
  destruct Hm as (Ha & Hbb & Hc & Hd & Hm).
  replace (src + 1 + 1) with (src + 2) in * by lia.
  replace (src + 2 + 1) with (src + 3) in * by lia.
  replace (src + 3 + 1) with (src + 4) in * by lia.
  cbn [rep_movsl]. unfold load. rewrite Ha, Hbb, Hc, Hd, !bind_Some_l.
  assert (Hd0 : is_Some (m !! dest)) by (apply (writable_head _ _ _ Hw); lia).
  rewrite store_ok, bind_Some_l by done.
  do 3 (rewrite (writable_store _ dest (zlen l + 4)), bind_Some_l
    by (done || lia || by repeat apply writable_insert)).
  rewrite (IH _ _ _ l); [|lia| |done| |].
  - simpl. by rewrite <-!Z.add_assoc.
  - apply (mbytes_mwrite_out m (src + 4) l dest [a; b; c; d]) in Hm; [|unfold fwd_ok in Hf; rewrite !zlen_cons, zlen_nil; lia].
    revert Hm. simpl. by rewrite <-!Z.add_assoc.
  - repeat apply writable_insert. apply (writable_shift _ _ _ 4) in Hw; [|lia].
    by replace (zlen l + 4 - 4) with (zlen l) in Hw by lia.
  - unfold fwd_ok in *. lia.
Qed.

(** Whole words then single bytes give the bytes of [memcpy]. *)
Lemma memcpy_fast_spec m dest src l :
  mbytes m src l -> bytes l -> writable m dest (zlen l) -> fwd_ok dest src (zlen l) ->
  memcpy_fast m dest src (zlen l) = Some (mwrite m dest l).
Proof.
  intros Hm Hb Hw Hf. unfold memcpy_fast. set (k := (4 * Z.to_nat (zlen l / 4))%nat).
  pose proof (zlen_nonneg l) as Hn. pose proof (Z.div_mod (zlen l) 4 ltac:(lia)) as Hdm.
  pose proof (Z.mod_pos_bound (zlen l) 4 ltac:(lia)) as Hmod.
  assert (Hk : (k <= length l)%nat) by (unfold k, zlen in *; lia).
  assert (Hlt : zlen (take k l) = 4 * (zlen l / 4)).
  { unfold zlen at 1. rewrite length_take_le by done. unfold k. lia. }
  assert (Hld : zlen (drop k l) = zlen l mod 4).
  { unfold zlen at 1. rewrite length_drop. unfold zlen in *. unfold k. lia. }
  rewrite <-(take_drop k l) in Hm, Hb. apply mbytes_app in Hm as [Hm1 Hm2].
  apply Forall_app in Hb as [Hb1 Hb2].
  rewrite (rep_movsl_spec m dest src (take k l)), bind_Some_l; try done.
  - rewrite (copy_loop_spec _ _ _ (drop k l)); try done.
    + by rewrite <-Hlt, <-mwrite_app, take_drop.
    + rewrite <-Hld. unfold zlen. lia.
    + rewrite <-Hlt. apply mbytes_mwrite_out; [done|]. unfold fwd_ok in Hf. lia.
    + apply writable_mwrite. apply (writable_shift _ _ _ (4 * (zlen l / 4))) in Hw; [|lia].
      eapply writable_le; [done|lia].
    + unfold fwd_ok in *. lia.
  - rewrite length_take_le by done. done.
  - eapply writable_le; [done|lia].
  - unfold fwd_ok in *. lia.
Qed.

(** ** Theorems *)

(** [malloc] is a first fit over the whole heap. *)
Theorem malloc_first_fit (h : heap) (bytes : Z) :
  heap_wf h -> 0 < bytes < 2 ^ 31 - 4096 ->
  let '(p, h') := malloc h bytes in
  if p =? NULL then
    h' = h /\ forall b, 0 <= b -> b + pages bytes <= NBLOCKS -> ~ free_run h b (pages bytes)
  else
    heap_wf h' /\ exists s, p = block_addr s /\ 0 <= s /\
      s + pages bytes <= NBLOCKS /\ free_run h s (pages bytes) /\
      (forall b, 0 <= b < s -> ~ free_run h b (pages bytes)) /\
      (forall j, zget (memory_status h') j =
         if decide (s <= j < s + pages bytes) then Some true else zget (memory_status h) j).
Proof.
  intros Hwf Hb. pose proof (pages_bounds bytes Hb).
  destruct (malloc_spec h bytes Hwf Hb) as [(s & -> & Hs & Hsn & Hf & Hno)|[-> Hno]]; [|done].
  zcase; [mem_consts; lia|]. split; [apply take_run_wf; [done|lia..]|].
  exists s. split_and!; try done. intros j. apply take_run_status; [by destruct Hwf|lia..].
Qed.

Lemma malloc_first_fit_witness :
  exists s h', malloc heap_init 5000 = (block_addr s, h') /\ free_run heap_init s 2 /\
    fst (malloc heap_init 5000) = HEAP_KERNEL.
Proof.
  pose proof (malloc_first_fit heap_init 5000 heap_init_wf ltac:(lia)) as H.
  assert (E : fst (malloc heap_init 5000) = HEAP_KERNEL) by (vm_compute; reflexivity).
  destruct (malloc heap_init 5000) as [p h']. simpl in E. subst p.
  change (HEAP_KERNEL =? NULL) with false in H. cbv iota in H.
  destruct H as (_ & s & -> & _ & _ & Hf & _). exists s, h'.
  split; [reflexivity|]. split; [exact Hf|reflexivity].
Defined.

(** C15: over every history of allocations and frees from the initial heap, live
    allocations never overlap and the flags mark exactly their pages. *)
Theorem heap_history_disjoint (s : hstate) :
  reach hstep (HState heap_init []) s ->
  disjoint_allocs (hs_live s) /\ Forall alloc_ok (hs_live s) /\
  forall q, used_page (hs_heap s) q <-> Exists (fun pn => in_alloc pn q) (hs_live s).
Proof.
  intros Hr. assert (hstate_inv s) as [? ? ? ?]; [|done]. revert s Hr.
  apply reach_invariant; [|apply hstep_inv]. constructor; simpl; [apply heap_init_wf|done|done|].
  intros q. split; [|intros He; by apply Exists_nil in He].
  unfold used_page, allocated. cbn [hs_heap memory_status heap_init memory_init].
  intros Hu. exfalso. unfold zget in Hu. zcase; [|done].
  by apply lookup_replicate in Hu as [? _].
Qed.

(** Allocate two blocks, free the first, allocate again: the second address
    stays live and apart from the new one. *)
Lemma heap_history_disjoint_witness :
  exists s, reach hstep (HState heap_init []) s /\
  hs_live s = [(17170432, 100); (17174528, 8192)] /\ disjoint_allocs (hs_live s).
Proof.
  set (h1 := snd (malloc heap_init 4096)). set (h2 := snd (malloc h1 8192)).
  set (h3 := free h2 17170432 4096). set (h4 := snd (malloc h3 100)).
  assert (Hr : reach hstep (HState heap_init []) (HState h4 [(17170432, 100); (17174528, 8192)])).
  { eapply reach_step; [eapply reach_step; [eapply reach_step; [eapply reach_step; [apply reach_refl|]|]|]|].
    - apply (HMalloc heap_init [] 4096 17170432 h1); [by apply malloc_fst; vm_compute|done|lia].
    - apply (HMalloc h1 _ 8192 17174528 h2); [by apply malloc_fst; vm_compute|done|lia].
    - apply (HFree h2 [(17174528, 8192)] 17170432 4096 []).
    - apply (HMalloc h3 _ 100 17170432 h4); [by apply malloc_fst; vm_compute|done|lia]. }
  exists (HState h4 [(17170432, 100); (17174528, 8192)]). split; [exact Hr|].
  split; [reflexivity|]. exact (proj1 (heap_history_disjoint _ Hr)).
Defined.

(** Freeing what [malloc] returned restores every flag. *)
Theorem malloc_free_restores (h : heap) (bytes p : Z) (h' : heap) :
  heap_wf h -> 0 < bytes < 2 ^ 31 - 4096 -> malloc h bytes = (p, h') -> p <> NULL ->
  heap_wf (free h' p bytes) /\ memory_status (free h' p bytes) = memory_status h.
Proof.
  intros Hwf Hb Hm Hp. pose proof (pages_bounds bytes Hb).
  destruct (malloc_spec h bytes Hwf Hb) as [(s & E & Hs & Hsn & Hf & Hno)|[E _]];
    rewrite E in Hm; injection Hm as <- <-; [|done].
  destruct (free_block_spec (take_run h s (pages bytes)) s bytes) as [Hwf' Hst];
    [apply take_run_wf; [done|lia..]|done|lia|lia|].
  split; [done|]. apply zget_ext. intros i _. rewrite Hst, take_run_status by
    (destruct Hwf; done || lia).
  case_decide as Hd; [|done]. symmetry. by apply Hf.
Qed.

Lemma malloc_free_restores_witness :
  memory_status (free (snd (malloc heap_init 9000)) 17170432 9000) = memory_status heap_init.
Proof.
  apply (malloc_free_restores heap_init 9000 17170432 (snd (malloc heap_init 9000))).
  - exact heap_init_wf.
  - lia.
  - apply malloc_fst. vm_compute. reflexivity.
  - discriminate.
Defined.

(** A size above [INT_MAX - 4095] overflows the rounding, so [malloc] returns
    the start of the heap without marking a single block. *)
Theorem malloc_overflow (h : heap) (bytes : Z) :
  2 ^ 31 - 4095 <= bytes < 2 ^ 31 ->
  fst (malloc h bytes) = HEAP_KERNEL /\ memory_status (snd (malloc h bytes)) = memory_status h.
Proof.
  intros Hb. unfold malloc. zcase; [lia|].
  assert (Hn : blocks_of bytes <= 0).
  { unfold blocks_of, MEM_BLOCK_SIZE, s32.
    rewrite (Z.mod_eq _ (2 ^ 32)) by lia.
    assert ((bytes + (4096 - 1) + 2 ^ 31) / 2 ^ 32 = 1) as -> by (Z.div_mod_to_equations; lia).
    rewrite <-(Z.opp_involutive (_ + _ + _ - _ - _)), Z.quot_opp_l by lia.
    assert (0 <= Z.quot (- (bytes + (4096 - 1) + 2 ^ 31 - 2 ^ 32 * 1 - 2 ^ 31)) 4096)
      by (apply Z.quot_pos; lia). lia. }
  replace (Z.to_nat NBLOCKS + 1)%nat with (S (Z.to_nat NBLOCKS)) by lia. cbn [malloc_scan].
  zcase; [lia|]. replace (Z.to_nat (blocks_of bytes)) with 0%nat by lia. done.
Qed.

Lemma malloc_overflow_witness :
  fst (malloc heap_init 2147483647) = HEAP_KERNEL /\
  memory_status (snd (malloc heap_init 2147483647)) = memory_status heap_init.
Proof. apply (malloc_overflow heap_init 2147483647). lia. Defined.

(** [memcpy_fast] stores the bytes that [memcpy] stores, for every length and
    alignment, when no source byte is overwritten before it is read. *)
Theorem memcpy_fast_equiv (m : mem) (dest src : Z) (l : list Z) :
  mbytes m src l -> bytes l -> writable m dest (zlen l) -> fwd_ok dest src (zlen l) ->
  memcpy_fast m dest src (zlen l) = memcpy m dest src (zlen l) /\
  memcpy_fast m dest src (zlen l) = Some (mwrite m dest l).
Proof.
  intros Hm Hb Hw Hf. rewrite memcpy_fast_spec by done. split; [|done].
  symmetry. by apply memcpy_spec.
Qed.

Lemma memcpy_fast_equiv_witness :
  memcpy_fast (mwrite ∅ 8 [1; 2; 3; 4; 5; 6; 7]) 8 10 5 = Some (mwrite ∅ 8 [3; 4; 5; 6; 7; 6; 7]).
Proof.
  destruct (memcpy_fast_equiv (mwrite ∅ 8 [1; 2; 3; 4; 5; 6; 7]) 8 10 [3; 4; 5; 6; 7]) as [_ E].
  - repeat split; vm_compute; reflexivity.
  - repeat constructor; lia.
  - apply (mbytes_writable _ 8 [1; 2; 3; 4; 5]). repeat split; vm_compute; reflexivity.
  - left. lia.
  - exact E.
Defined.
