(* ===== verification/Paging.v ===== *)
(** * Page tables (paging.c)

    A page directory and its page tables are pages of the physical heap. The
    state [pstate] holds the heap (any instance of the class [Allocator] of
    Memory), the contents of the pages that hold paging structures, the current
    and the kernel directory, and the translations the processor has cached,
    which [invlpg] and a directory switch discard. An access to a page that holds
    no structure of the expected kind is [None]. [V_KERNEL_OFFSET] is 0, so a
    table's virtual address is its physical one. *)

From S2P Require Import Prelude CString Memory.

Local Open Scope Z_scope.

Definition PAGE_SIZE : Z := 4096.
Definition PAGE_USERRW : Z := 2.
Definition PAGE_USERREAD : Z := 1.
Definition PAGE_NOTPRESENT : Z := 0.
Definition PAGE_KERNELREAD : Z := -1.
Definition PAGE_KERNELRW : Z := -2.

Definition KERNEL_START : Z := 16777216.   (* 0x1000000 *)
Definition KERNEL_END : Z := 17170432.     (* 0x1060000 *)
Definition HEAP_KERNEL_END : Z := 50724864. (* 0x3060000 *)

(** [x & ~PAGE_MASK] and [(x + PAGE_MASK) & ~PAGE_MASK] on 32 bits. *)
Definition page_align_down (addr : Z) : Z := addr - addr mod PAGE_SIZE.

Definition page_align_up (addr : Z) : Z :=
  let a := u32 (addr + (PAGE_SIZE - 1)) in a - a mod PAGE_SIZE.

(** ** Entries: the bit fields, each an integer of its width *)

Record page_dir_entry := PDE {
  d_present : Z; d_rw : Z; d_user : Z; d_w_through : Z; d_no_cache : Z; d_accessed : Z;
  d_available : Z; d_page_size : Z; d_global : Z; d_available2 : Z; d_address : Z }.

Record page_table_entry := PTE {
  present : Z; rw : Z; user : Z; w_through : Z; no_cache : Z; accessed : Z;
  dirty : Z; pat : Z; global_ : Z; available_ : Z; address : Z }.

Definition pde_zero : page_dir_entry := PDE 0 0 0 0 0 0 0 0 0 0 0.
Definition pte_zero : page_table_entry := PTE 0 0 0 0 0 0 0 0 0 0 0.

Definition bit (x : Z) : Z := x mod 2.
Definition bits20 (x : Z) : Z := x mod 2 ^ 20.

(** [dir[i].address = a; .present = 1; .rw = 1; .user = 1] *)
Definition pde_install (e : page_dir_entry) (a : Z) : page_dir_entry :=
  PDE 1 1 1 (d_w_through e) (d_no_cache e) (d_accessed e) (d_available e) (d_page_size e)
    (d_global e) (d_available2 e) (bits20 a).

Definition pte_clear (e : page_table_entry) : page_table_entry :=
  PTE 0 (rw e) (user e) (w_through e) (no_cache e) (accessed e) (dirty e) (pat e)
    (global_ e) (available_ e) (address e).

(** [memset(page, 0, 1024 * 4)] *)
Definition zero_dir : list page_dir_entry := replicate 1024 pde_zero.
Definition zero_table : list page_table_entry := replicate 1024 pte_zero.
#[global] Arguments zero_dir : simpl never.
#[global] Arguments zero_table : simpl never.

(** The five assignments of [map]. *)
Definition pte_install (e : page_table_entry) (a u w nc : Z) : page_table_entry :=
  PTE 1 (bit w) (bit u) (w_through e) (bit nc) (accessed e) (dirty e) (pat e)
    (global_ e) (available_ e) (bits20 (a / 4096)).

Definition pte_memtype (e : page_table_entry) (pat_index : Z) : page_table_entry :=
  PTE (present e) (rw e) (user e) (bit pat_index) (bit (pat_index / 2)) (accessed e) (dirty e)
    (bit (pat_index / 4)) (global_ e) (available_ e) (address e).

(** ** State *)

Inductive page :=
| PDir (es : list page_dir_entry)
| PTab (es : list page_table_entry).

Section paging.
Context {H : Type} `{Allocator H}.

Record pstate := PState {
  ps_heap : H;
  ps_mem : gmap Z page;
  ps_current : Z;
  ps_kernel : Z;
  ps_pat_enabled : bool;
  ps_tlb : gmap Z page_table_entry }.

Definition set_mem (s : pstate) (m : gmap Z page) : pstate :=
  PState (ps_heap s) m (ps_current s) (ps_kernel s) (ps_pat_enabled s) (ps_tlb s).

Definition set_heap (s : pstate) (h : H) : pstate :=
  PState h (ps_mem s) (ps_current s) (ps_kernel s) (ps_pat_enabled s) (ps_tlb s).

(** Forget the cached translation of the page of [vaddr]. *)
Definition invlpg (s : pstate) (vaddr : Z) : pstate :=
  PState (ps_heap s) (ps_mem s) (ps_current s) (ps_kernel s) (ps_pat_enabled s)
    (delete (vaddr / PAGE_SIZE) (ps_tlb s)).

Definition get_dir (s : pstate) (dir : Z) : option (list page_dir_entry) :=
  match ps_mem s !! dir with Some (PDir es) => Some es | _ => None end.

Definition get_table (s : pstate) (tab : Z) : option (list page_table_entry) :=
  match ps_mem s !! tab with Some (PTab es) => Some es | _ => None end.

Definition put_dir (s : pstate) (dir : Z) (es : list page_dir_entry) : pstate :=
  set_mem s (<[dir := PDir es]> (ps_mem s)).

Definition put_table (s : pstate) (tab : Z) (es : list page_table_entry) : pstate :=
  set_mem s (<[tab := PTab es]> (ps_mem s)).

(** ** Operations *)

Definition dir_index (vaddr : Z) : Z := vaddr / 4096 / 1024.
Definition table_index (vaddr : Z) : Z := (vaddr / 4096) mod 1024.

Definition truthy (x : Z) : bool := negb (x =? 0).

Definition unmap (s : pstate) (dir vaddr : Z) : option (bool * pstate) :=
  es ← get_dir s dir;
  e ← zget es (dir_index vaddr);
  if truthy (d_present e) && truthy (d_address e) then
    let tab := d_address e * 4096 in
    ts ← get_table s tab;
    t ← zget ts (table_index vaddr);
    if truthy (present t) then
      let s := put_table s tab (zset ts (table_index vaddr) (pte_clear t)) in
      Some (true, if dir =? ps_current s then invlpg s vaddr else s)
    else Some (false, s)
  else Some (false, s).

(** [for(addr = vstart; addr < vend; addr += PAGE_SIZE) if(unmap(dir, addr)) mapped++;] *)
Fixpoint unmap_loop (fuel : nat) (s : pstate) (dir addr vend mapped : Z)
    : option (Z * pstate) :=
  if addr <? vend then
    match fuel with
    | O => None
    | S fuel =>
        '(b, s) ← unmap s dir addr;
        unmap_loop fuel s dir (u32 (addr + PAGE_SIZE)) vend (if b : bool then mapped + 1 else mapped)
    end
  else Some (mapped, s).

Definition unmap_size (s : pstate) (dir vaddr size : Z) : option (Z * pstate) :=
  let vstart := page_align_down vaddr in
  let vend := page_align_up (u32 (vstart + size)) in
  unmap_loop (Z.to_nat ((vend - vstart) / PAGE_SIZE)) s dir vstart vend 0.

(** The page table of [dir[di]], created on demand: [None] is the failure of
    the allocation. *)
Definition map_table (s : pstate) (dir : Z) (es : list page_dir_entry) (di : Z)
    (e : page_dir_entry) : option (page_dir_entry * pstate) :=
  if negb (truthy (d_present e)) || negb (truthy (d_address e)) then
    let '(tab, h) := al_malloc (ps_heap s) 4096 in
    if tab =? NULL then None
    else
      let s := put_table (set_heap s h) tab zero_table in
      let e := pde_install e (tab / 4096) in
      Some (e, put_dir s dir (zset es di e))
  else Some (e, s).

Definition map (s : pstate) (dir addr vaddr u w nc : Z) : option (bool * pstate) :=
  if dir =? NULL then Some (false, s)
  else
    es ← get_dir s dir;
    e ← zget es (dir_index vaddr);
    match map_table s dir es (dir_index vaddr) e with
    | None => Some (false, s)
    | Some (e, s) =>
        let tab := d_address e * 4096 in
        ts ← get_table s tab;
        t ← zget ts (table_index vaddr);
        let s' := put_table s tab (zset ts (table_index vaddr) (pte_install t addr u w nc)) in
        Some (true, if (present t =? 1) && (dir =? ps_current s) then invlpg s' vaddr else s')
    end.

Fixpoint map_loop (fuel : nat) (s : pstate) (dir paddr vaddr phys_end u w nc mapped : Z)
    : option (Z * pstate) :=
  if paddr <? phys_end then
    match fuel with
    | O => None
    | S fuel =>
        '(b, s) ← map s dir paddr vaddr u w nc;
        if (b : bool)
        then map_loop fuel s dir (u32 (paddr + PAGE_SIZE)) (u32 (vaddr + PAGE_SIZE))
               phys_end u w nc (mapped + 1)
        else Some (mapped, s)
    end
  else Some (mapped, s).

Definition map_size (s : pstate) (dir phys_addr virt_addr size u w nc : Z)
    : option (Z * pstate) :=
  let phys_start := page_align_down phys_addr in
  let virt_start := page_align_down virt_addr in
  let phys_end := page_align_up (u32 (phys_addr + size)) in
  map_loop (Z.to_nat ((phys_end - phys_start) / PAGE_SIZE)) s dir phys_start virt_start phys_end
    u w nc 0.

Fixpoint memtype_loop (n : nat) (s : pstate) (dir vaddr pat_index : Z) : option (bool * pstate) :=
  match n with
  | O => Some (true, s)
  | S n =>
      es ← get_dir s dir;
      e ← zget es (dir_index vaddr);
      if negb (truthy (d_present e)) || negb (truthy (d_address e)) then Some (false, s)
      else
        let tab := d_address e * 4096 in
        ts ← get_table s tab;
        t ← zget ts (table_index vaddr);
        memtype_loop n (put_table s tab (zset ts (table_index vaddr) (pte_memtype t pat_index)))
          dir (u32 (vaddr + PAGE_SIZE)) pat_index
  end.

Definition page_set_memtype (s : pstate) (dir vaddr size pat_index : Z)
    : option (bool * pstate) :=
  if negb (ps_pat_enabled s) then Some (false, s)
  else memtype_loop (Z.to_nat (u32 (size + 4095) / 4096)) s dir vaddr pat_index.

(** [for(i = i0; i < i1; i++) ok &= map(dir, i*0x1000, i*0x1000, u, w, 0)] *)
Fixpoint identity_loop (n : nat) (s : pstate) (dir i u w : Z) (ok : bool) : option (bool * pstate) :=
  match n with
  | O => Some (ok, s)
  | S n =>
      '(b, s) ← map s dir (i * 4096) (i * 4096) u w 0;
      identity_loop n s dir (i + 1) u w (ok && b)
  end.

Definition identity_map (s : pstate) (dir i0 i1 u w : Z) (ok : bool) : option (bool * pstate) :=
  identity_loop (Z.to_nat (i1 - i0)) s dir i0 u w ok.

(** Free the page at [p]: it holds a paging structure no more. *)
Definition free_page (s : pstate) (p : Z) : pstate :=
  set_mem (set_heap s (al_free (ps_heap s) p 4096)) (delete p (ps_mem s)).

Fixpoint free_tables (es : list page_dir_entry) (s : pstate) : pstate :=
  match es with
  | [] => s
  | e :: es =>
      free_tables es
        (if truthy (d_present e) && truthy (d_address e) then free_page s (d_address e * 4096)
         else s)
  end.

Definition free_page_dir (s : pstate) (dir : Z) : option pstate :=
  es ← get_dir s dir;
  Some (free_page (free_tables es s) dir).

(** The framebuffer's address and size come from the boot information. *)
Definition new_page (s : pstate) (fb fb_size : Z) : option (Z * pstate) :=
  let '(dir, h) := al_malloc (ps_heap s) 4096 in
  if dir =? NULL then Some (NULL, s)
  else
    let s := put_dir (set_heap s h) dir zero_dir in
    '(ok, s) ← identity_map s dir (KERNEL_START / 4096) (KERNEL_END / 4096) 0 0 true;
    '(ok, s) ← identity_map s dir (HEAP_KERNEL / 4096) (HEAP_KERNEL_END / 4096) 0 0 ok;
    '(ok, s) ← identity_map s dir (fb / 4096) (u32 (fb + fb_size + 4095) / 4096) 0 0 ok;
    '(_, s) ← page_set_memtype s dir fb fb_size 1;
    if (ok : bool) then Some (dir, s)
    else
      s ← free_page_dir s dir;
      Some (NULL, s).

(** [0xFFFFFFFF] when the page is not mapped. *)
Definition page_getphysical (s : pstate) (dir vaddr : Z) : option Z :=
  es ← get_dir s dir;
  e ← zget es (dir_index vaddr);
  if negb (truthy (d_present e)) then Some (u32 (-1))
  else
    ts ← get_table s (d_address e * 4096);
    t ← zget ts (table_index vaddr);
    if negb (truthy (present t)) then Some (u32 (-1))
    else Some (address t * 4096 + vaddr mod 4096).

Definition page_checkmapping (s : pstate) (dir vaddr : Z) : option Z :=
  es ← get_dir s dir;
  e ← zget es (dir_index vaddr);
  if negb (truthy (d_present e)) then Some PAGE_NOTPRESENT
  else
    ts ← get_table s (d_address e * 4096);
    t ← zget ts (table_index vaddr);
    Some
      (if negb (truthy (present t)) then PAGE_NOTPRESENT
       else if negb (truthy (user t)) then
         if truthy (rw t) then PAGE_KERNELRW else PAGE_KERNELREAD
       else if truthy (rw t) then PAGE_USERRW else PAGE_USERREAD).

(** Loading cr3 discards every cached translation. *)
Definition swap_pagedir (s : pstate) (dir : Z) : pstate :=
  PState (ps_heap s) (ps_mem s) dir (ps_kernel s) (ps_pat_enabled s) ∅.

(** ** Invariant and abstraction *)

(** The table [dir[i]] points to, if it is present. *)
Definition tab_of (s : pstate) (dir i : Z) : option Z :=
  es ← get_dir s dir;
  e ← zget es i;
  if truthy (d_present e) then Some (d_address e * 4096) else None.

(** The abstract address space: the present entry of a virtual page. *)
Definition translate (s : pstate) (dir vp : Z) : option page_table_entry :=
  tab ← tab_of s dir (vp / 1024);
  ts ← get_table s tab;
  t ← zget ts (vp mod 1024);
  if truthy (present t) then Some t else None.

Record pages_wf (s : pstate) : Prop := {
  pw_heap : al_wf (ps_heap s);
  pw_used p pg : ps_mem s !! p = Some pg ->
    al_used (ps_heap s) (p / 4096) /\ p mod 4096 = 0 /\ 0 < p < 2 ^ 32;
  pw_dir dir es : get_dir s dir = Some es -> zlen es = 1024;
  pw_tab tab ts : get_table s tab = Some ts ->
    zlen ts = 1024 /\ Forall (fun t => present t = 0 \/ present t = 1) ts;
  pw_entry dir i tab : tab_of s dir i = Some tab -> tab <> 0 /\ is_Some (get_table s tab);
  pw_inj d1 i1 d2 i2 tab :
    tab_of s d1 i1 = Some tab -> tab_of s d2 i2 = Some tab -> d1 = d2 /\ i1 = i2 }.

(** Every cached translation is the one the current directory gives. *)
Definition tlb_coherent (s : pstate) : Prop :=
  forall vp t, ps_tlb s !! vp = Some t ->
    exists t', translate s (ps_current s) vp = Some t' /\
      address t' = address t /\ rw t' = rw t /\ user t' = user t.

(** The pages of [dir]: itself and its tables. *)
Definition own (s : pstate) (dir p : Z) : Prop := p = dir \/ exists i, tab_of s dir i = Some p.

(** [s'] differs from [s] only in pages of [dir], and the pages [dir] has gained
    are newly allocated. *)
Record extends (dir : Z) (s s' : pstate) : Prop := {
  ex_mem p : ~ own s' dir p -> ps_mem s' !! p = ps_mem s !! p;
  ex_own p : own s dir p -> own s' dir p;
  ex_new p : own s' dir p -> ~ own s dir p ->
    ps_mem s !! p = None /\ ~ al_used (ps_heap s) (p / 4096);
  ex_used q : al_used (ps_heap s') q <->
    al_used (ps_heap s) q \/ exists p, own s' dir p /\ q = p / 4096 }.

(** One step of the machine: an operation of paging.c on an existing directory,
    or the processor caching a translation of the current one. *)
Inductive pstep (s : pstate) : pstate -> Prop :=
| PMap dir addr vaddr u w nc b s' :
    is_Some (get_dir s dir) -> is_u32 addr -> is_u32 vaddr ->
    map s dir addr vaddr u w nc = Some (b, s') -> pstep s s'
| PUnmap dir vaddr b s' :
    is_Some (get_dir s dir) -> is_u32 vaddr ->
    unmap s dir vaddr = Some (b, s') -> pstep s s'
| PMemtype dir vaddr size pi b s' :
    is_Some (get_dir s dir) -> is_u32 vaddr ->
    page_set_memtype s dir vaddr size pi = Some (b, s') -> pstep s s'
| PNew fb fb_size dir s' :
    0 <= fb -> 0 <= fb_size -> fb + fb_size + 4095 < 2 ^ 32 ->
    new_page s fb fb_size = Some (dir, s') -> pstep s s'
| PFree dir s' :
    is_Some (get_dir s dir) -> dir <> ps_current s ->
    free_page_dir s dir = Some s' -> pstep s s'
| PSwap dir : is_Some (get_dir s dir) -> pstep s (swap_pagedir s dir)
| PFill vp t :
    translate s (ps_current s) vp = Some t ->
    pstep s (PState (ps_heap s) (ps_mem s) (ps_current s) (ps_kernel s) (ps_pat_enabled s)
               (<[vp := t]> (ps_tlb s))).

(** The pages every directory maps for the kernel. *)
Definition kernel_page (fb fb_size vp : Z) : Prop :=
  KERNEL_START / 4096 <= vp < KERNEL_END / 4096 \/
  HEAP_KERNEL / 4096 <= vp < HEAP_KERNEL_END / 4096 \/
  fb / 4096 <= vp < (fb + fb_size + 4095) / 4096.

(** ** Lemmas *)

Implicit Types (s : pstate).

Lemma truthy_true x : truthy x = true <-> x <> 0.
Proof. unfold truthy. lia. Qed.

Lemma get_dir_not_table s p es : get_dir s p = Some es -> get_table s p = None.
Proof. unfold get_dir, get_table. by repeat case_match. Qed.

Lemma get_table_not_dir s p ts : get_table s p = Some ts -> get_dir s p = None.
Proof. unfold get_dir, get_table. by repeat case_match. Qed.

Lemma get_dir_put_table s tab ts d :
  get_dir s tab = None -> get_dir (put_table s tab ts) d = get_dir s d.
Proof.
  unfold get_dir. simpl. intros Hn. rewrite lookup_insert.
  case_decide; [subst; by rewrite Hn|done].
Qed.

Lemma get_table_put_table s tab ts t :
  get_table (put_table s tab ts) t = if decide (tab = t) then Some ts else get_table s t.
Proof. unfold get_table. simpl. rewrite lookup_insert. by case_decide. Qed.

Lemma get_dir_put_dir s dir es d :
  get_dir (put_dir s dir es) d = if decide (dir = d) then Some es else get_dir s d.
Proof. unfold get_dir. simpl. rewrite lookup_insert. by case_decide. Qed.

Lemma get_table_put_dir s dir es t :
  get_table s dir = None -> get_table (put_dir s dir es) t = get_table s t.
Proof.
  unfold get_table. simpl. intros Hn. rewrite lookup_insert.
  case_decide; [subst; by rewrite Hn|done].
Qed.

Lemma tab_of_put_table s tab ts d i :
  get_dir s tab = None -> tab_of (put_table s tab ts) d i = tab_of s d i.
Proof. intros. unfold tab_of. by rewrite get_dir_put_table. Qed.

Lemma tab_of_entry s dir es i e :
  get_dir s dir = Some es -> zget es i = Some e ->
  tab_of s dir i = if truthy (d_present e) then Some (d_address e * 4096) else None.
Proof. intros Hd He. unfold tab_of. by rewrite Hd, bind_Some_l, He, bind_Some_l. Qed.

(** Writing one entry of a table changes one translation. *)
Lemma translate_put_table s dir di tab ts ti t d vp :
  pages_wf s -> tab_of s dir di = Some tab -> get_table s tab = Some ts -> 0 <= ti < 1024 ->
  translate (put_table s tab (zset ts ti t)) d vp =
  if decide (d = dir /\ vp / 1024 = di /\ vp mod 1024 = ti)
  then (if truthy (present t) then Some t else None) else translate s d vp.
Proof.
  intros Hwf Htab Hts Hti. unfold translate.
  rewrite tab_of_put_table by (by eapply get_table_not_dir).
  destruct (pw_tab s Hwf tab ts Hts) as [Hlen _].
  destruct (tab_of s d (vp / 1024)) as [tab'|] eqn:E; simpl.
  2:{ case_decide as Hd; [destruct Hd as (-> & Hd & _); congruence|done]. }
  rewrite get_table_put_table. case_decide as Ht.
  - subst tab'. destruct (pw_inj s Hwf _ _ _ _ _ Htab E) as [-> ->].
    rewrite Hts. simpl. rewrite zget_zset. repeat case_decide; simpl; try done; lia.
  - case_decide as Hd; [destruct Hd as (-> & Hd & _); congruence|done].
Qed.

Lemma translate_put_table_fresh s p ts d vp :
  pages_wf s -> ps_mem s !! p = None -> translate (put_table s p ts) d vp = translate s d vp.
Proof.
  intros Hwf Hp. unfold translate.
  assert (get_dir s p = None) as Hd by (unfold get_dir; by rewrite Hp).
  rewrite tab_of_put_table by done.
  destruct (tab_of s d (vp / 1024)) as [tab|] eqn:E; [|done]. simpl.
  rewrite get_table_put_table. case_decide; [|done]. subst.
  destruct (pw_entry s Hwf _ _ _ E) as [_ [ts' Hts]].
  unfold get_table in Hts. by rewrite Hp in Hts.
Qed.

Definition table_ok (ts : list page_table_entry) : Prop :=
  zlen ts = 1024 /\ Forall (fun t => present t = 0 \/ present t = 1) ts.

Lemma pages_wf_put_table s tab ts ts' :
  pages_wf s -> get_table s tab = Some ts -> table_ok ts' -> pages_wf (put_table s tab ts').
Proof.
  intros Hwf Hts [Hlen Hpr]. pose proof (get_table_not_dir s tab ts Hts) as Hd.
  constructor.
  - apply Hwf.
  - simpl. intros p pg Hp. apply lookup_insert_Some in Hp as [[<- _]|[_ Hp]].
    + unfold get_table in Hts. destruct (ps_mem s !! tab) eqn:E; [|done]. by eapply pw_used.
    + by eapply pw_used.
  - intros dir es. rewrite get_dir_put_table by done. apply Hwf.
  - intros t ts0. rewrite get_table_put_table. case_decide; [intros [= <-]; by split|apply Hwf].
  - intros dir i t. rewrite tab_of_put_table by done. intros Ht.
    destruct (pw_entry s Hwf _ _ _ Ht) as [? ?]. split; [done|].
    rewrite get_table_put_table. case_decide; eauto.
  - intros d1 i1 d2 i2 t. rewrite !tab_of_put_table by done. apply Hwf.
Qed.

Lemma table_ok_zset ts i t :
  table_ok ts -> present t = 0 \/ present t = 1 -> table_ok (zset ts i t).
Proof.
  intros [Hl Hf] Ht. split; [by rewrite zlen_zset|].
  unfold zset. zcase; [|done]. by apply Forall_insert.
Qed.

Lemma table_ok_zero : table_ok zero_table.
Proof. split; [done|]. apply Forall_replicate. by left. Qed.

Lemma table_entry s tab ts i :
  pages_wf s -> get_table s tab = Some ts -> 0 <= i < 1024 ->
  exists t, zget ts i = Some t /\ (present t = 0 \/ present t = 1).
Proof.
  intros Hwf Hts Hi. destruct (pw_tab s Hwf _ _ Hts) as [Hl Hf].
  destruct (zget_is_Some ts i ltac:(lia)) as [t Ht]. exists t. split; [done|].
  unfold zget in Ht. zcase_on (0 <=? i); [|done]. rewrite Forall_lookup in Hf. eauto.
Qed.

Lemma dir_entry s dir es i :
  pages_wf s -> get_dir s dir = Some es -> 0 <= i < 1024 -> exists e, zget es i = Some e.
Proof.
  intros Hwf Hes Hi. apply zget_is_Some. by rewrite (pw_dir s Hwf _ _ Hes).
Qed.

Lemma dir_used s dir es :
  pages_wf s -> get_dir s dir = Some es ->
  al_used (ps_heap s) (dir / 4096) /\ dir mod 4096 = 0 /\ 0 < dir < 2 ^ 32.
Proof.
  intros Hwf Hd. unfold get_dir in Hd. destruct (ps_mem s !! dir) eqn:E; [|done].
  by eapply pw_used.
Qed.

Lemma index_ranges vaddr : is_u32 vaddr ->
  0 <= dir_index vaddr < 1024 /\ 0 <= table_index vaddr < 1024 /\
  dir_index vaddr = vaddr / 4096 / 1024 /\ table_index vaddr = (vaddr / 4096) mod 1024.
Proof. unfold is_u32, dir_index, table_index. intros. Z.div_mod_to_equations. lia. Qed.

Lemma extends_refl s dir es : pages_wf s -> get_dir s dir = Some es -> extends dir s s.
Proof.
  intros Hwf Hd. constructor; [done|done|done|].
  intros q. split; [tauto|]. intros [Hq|(p & Hp & ->)]; [done|].
  destruct Hp as [->|[i Hi]]; [by eapply dir_used|].
  destruct (pw_entry s Hwf _ _ _ Hi) as [_ [ts Hts]]. unfold get_table in Hts.
  destruct (ps_mem s !! p) eqn:E; [|done]. by eapply pw_used.
Qed.

Lemma own_dec s dir p : own s dir p \/ ~ own s dir p.
Proof.
  destruct (decide (p = dir)) as [->|Hne]; [by left; left|].
  destruct (get_dir s dir) as [es|] eqn:E.
  2:{ right. intros [?|[i Hi]]; [done|]. unfold tab_of in Hi. by rewrite E in Hi. }
  destruct (decide (Exists (fun e => truthy (d_present e) = true /\ d_address e * 4096 = p) es))
    as [He|He].
  - left. right. apply Exists_exists in He as (e & He & Hp & <-).
    apply list_elem_of_lookup in He as [n Hn]. exists (Z.of_nat n).
    rewrite (tab_of_entry s dir es (Z.of_nat n) e); [by rewrite Hp|done|by rewrite zget_nat].
  - right. intros [?|[i Hi]]; [done|]. apply He. unfold tab_of in Hi.
    rewrite E, bind_Some_l in Hi. unfold zget in Hi. zcase_on (0 <=? i); [|done].
    destruct (es !! Z.to_nat i) as [e|] eqn:Ee; [|done]. simpl in Hi.
    destruct (truthy (d_present e)) eqn:Ht; [|done]. injection Hi as <-.
    apply Exists_exists. exists e. split; [by eapply list_elem_of_lookup_2|done].
Qed.

Lemma extends_trans dir s1 s2 s3 : extends dir s1 s2 -> extends dir s2 s3 -> extends dir s1 s3.
Proof.
  intros [M1 O1 N1 U1] [M2 O2 N2 U2]. constructor.
  - intros p Hp. rewrite M2 by done. apply M1. intros Ho. by apply Hp, O2.
  - auto.
  - intros p Hp Hn. destruct (own_dec s2 dir p) as [Ho|Ho]; [by apply N1|].
    destruct (N2 p Hp Ho) as [Hm Hu]. rewrite <-M1 by done. split; [done|].
    intros Hu1. apply Hu, U1. by left.
  - intros q. rewrite U2, U1. split.
    + intros [[?|(p & ? & ?)]|?]; [by left|right; eauto|by right].
    + intros [?|?]; [by left; left|by right].
Qed.

(** A table page gained by [map]: fresh, zeroed, entered at [di]. *)
Lemma map_table_spec s dir es di e :
  pages_wf s -> get_dir s dir = Some es -> zget es di = Some e ->
  match map_table s dir es di e with
  | None => True
  | Some (e', s') =>
      pages_wf s' /\ tab_of s' dir di = Some (d_address e' * 4096) /\
      is_Some (get_dir s' dir) /\ extends dir s s' /\
      ps_current s' = ps_current s /\ ps_tlb s' = ps_tlb s /\
      (forall d vp, translate s' d vp = translate s d vp)
  end.
Proof.
  intros Hwf Hd He. pose proof (tab_of_entry s dir es di e Hd He) as Htab.
  assert (Hdi : 0 <= di < 1024).
  { apply zget_Some_range in He. by rewrite (pw_dir s Hwf _ _ Hd) in He. }
  unfold map_table. destruct (truthy (d_present e)) eqn:Hp; simpl.
  { destruct (pw_entry s Hwf dir di (d_address e * 4096)) as [Hnz _]; [by rewrite Htab|].
    assert (truthy (d_address e) = true) as -> by (apply truthy_true; lia). simpl.
    split_and!; try done. by eapply extends_refl. }
  destruct (al_malloc (ps_heap s) 4096) as [p h] eqn:Em. zcase; [done|].
  destruct (al_malloc_ok (ps_heap s) 4096 p h) as (Hh & Hal & Hpos & Hmax & Hnew & Hused);
    [apply Hwf|lia|done|done|].
  change (pages 4096) with 1 in *.
  assert (Hfresh : ps_mem s !! p = None).
  { destruct (ps_mem s !! p) eqn:E; [|done]. destruct (pw_used s Hwf _ _ E) as [Hu _].
    exfalso. apply (Hnew (p / 4096)); [lia|done]. }
  assert (Hpd : get_dir s p = None) by (unfold get_dir; by rewrite Hfresh).
  assert (Hpt : get_table s p = None) by (unfold get_table; by rewrite Hfresh).
  assert (Hne : p <> dir) by (intros ->; congruence).
  assert (Hbits : bits20 (p / 4096) * 4096 = p).
  { unfold bits20. rewrite Z.mod_small; Z.div_mod_to_equations; lia. }
  set (s' := put_dir _ _ _).
  assert (Hgd : forall d, get_dir s' d =
    if decide (dir = d) then Some (zset es di (pde_install e (p / 4096))) else get_dir s d).
  { intros d. unfold s'. rewrite get_dir_put_dir. case_decide; [done|].
    by rewrite get_dir_put_table. }
  assert (Hgt : forall t, get_table s' t =
    if decide (p = t) then Some zero_table else get_table s t).
  { intros t. unfold s'. rewrite get_table_put_dir.
    - exact (get_table_put_table (set_heap s h) p zero_table t).
    - rewrite get_table_put_table. case_decide; [done|]. by eapply get_dir_not_table. }
  assert (Hto : forall d i, tab_of s' d i =
    if decide (d = dir /\ i = di) then Some p else tab_of s d i).
  { intros d i. unfold tab_of. rewrite Hgd. destruct (decide (dir = d)) as [<-|Hn].
    2:{ case_decide; [|done]. by destruct_and!. }
    rewrite Hd, !bind_Some_l. case_decide as Hcd.
    - destruct Hcd as [_ ->]. rewrite zget_zset_eq by (rewrite (pw_dir s Hwf _ _ Hd); lia).
      simpl. by rewrite Hbits.
    - rewrite zget_zset_ne; [done|]. intros ->. tauto. }
  assert (Hold : forall d i t, tab_of s d i = Some t -> t <> p).
  { intros d i t Ht ->. destruct (pw_entry s Hwf _ _ _ Ht) as [_ [ts Hts]]. congruence. }
  assert (Hwf' : pages_wf s').
  { constructor.
    - done.
    - intros q pg Hq. simpl in *. rewrite Hused.
      apply lookup_insert_Some in Hq as [[<- _]|[_ Hq]].
      { destruct (dir_used s dir es Hwf Hd) as (? & ? & ?). split_and!; [by left|done|lia..]. }
      apply lookup_insert_Some in Hq as [[<- _]|[_ Hq]].
      { split_and!; [right; lia|done|lia|lia]. }
      destruct (pw_used s Hwf _ _ Hq) as (? & ? & ?). split_and!; [by left|done|lia..].
    - intros d es'. rewrite Hgd. case_decide; [intros [= <-]|apply Hwf].
      rewrite zlen_zset. by eapply pw_dir.
    - intros t ts. rewrite Hgt. case_decide; [intros [= <-]; apply table_ok_zero|apply Hwf].
    - intros d i t. rewrite Hto. case_decide.
      + intros [= <-]. split; [lia|]. rewrite Hgt. case_decide; [eauto|done].
      + intros Ht. destruct (pw_entry s Hwf _ _ _ Ht). split; [done|]. rewrite Hgt.
        case_decide; eauto.
    - intros d1 i1 d2 i2 t. rewrite !Hto. repeat case_decide; intros Hx1 Hx2; simplify_eq.
      + destruct_and!. by subst.
      + by apply Hold in Hx2.
      + by apply Hold in Hx1.
      + by eapply pw_inj. }
  assert (Hown : forall q, own s' dir q <-> own s dir q \/ q = p).
  { intros q. unfold own. split.
    - intros [?|[i Hi]]; [by left; left|]. rewrite Hto in Hi.
      case_decide; [simplify_eq; by right|left; right; eauto].
    - intros [[?|[i Hi]]| ->]; [by left| |].
      + right. exists i. rewrite Hto. case_decide as Hcd; [|done].
        destruct Hcd as [_ ->]. by rewrite Htab in Hi.
      + right. exists di. rewrite Hto. by case_decide; [|tauto]. }
  split_and!; [done| | | |done|done| ].
  - rewrite Hto. case_decide; [|tauto]. simpl. by rewrite Hbits.
  - rewrite Hgd. case_decide; [eauto|done].
  - constructor.
    + intros q Hq. rewrite Hown in Hq. simpl. rewrite !lookup_insert_ne; [done| |].
      * intros ->. tauto.
      * intros ->. apply Hq. left. by left.
    + intros q Hq. apply Hown. by left.
    + intros q Hq Hn. apply Hown in Hq as [?| ->]; [done|]. split; [done|].
      apply Hnew. lia.
    + intros q. simpl. rewrite Hused. split.
      * intros [?|?]; [by left|]. right. exists p. rewrite Hown. split; [by right|lia].
      * intros [?|(r & Hr & ->)]; [by left|]. apply Hown in Hr as [Hr| ->]; [|right; lia].
        left. apply (ex_used _ _ _ (extends_refl s dir es Hwf Hd)). right. eauto.
  - intros d vp. unfold translate. rewrite Hto. case_decide as Hcd.
    + destruct Hcd as [-> Hcd]. rewrite Hcd, Htab. simpl. rewrite Hgt. case_decide; [|done]. simpl.
      unfold zero_table. rewrite zget_replicate by (pose proof (Z.mod_pos_bound vp 1024); lia). done.
    + destruct (tab_of s d (vp / 1024)) as [t|] eqn:E; [|done]. simpl. rewrite Hgt.
      case_decide; [|done]. subst. exfalso. by apply (Hold d (vp / 1024) t).
Qed.

(** The entry [map] leaves for a mapping to [addr] over the entry [t]. *)
Definition mapped_to (t : page_table_entry) (addr u w nc : Z) : Prop :=
  present t = 1 /\ address t = addr / 4096 /\ rw t = bit w /\ user t = bit u /\
  no_cache t = bit nc.

(** The TLB agrees with [translate] outside the page of [vp]. *)
Lemma tlb_update s s' vaddr :
  tlb_coherent s -> ps_current s' = ps_current s ->
  (forall vp, vp <> vaddr / 4096 ->
     translate s' (ps_current s) vp = translate s (ps_current s) vp) ->
  ps_tlb s' = delete (vaddr / 4096) (ps_tlb s) -> tlb_coherent s'.
Proof.
  intros Hc Hcur Htr Htlb vp t Ht. rewrite Htlb in Ht. apply lookup_delete_Some in Ht as [Hne Ht].
  rewrite Hcur, Htr by congruence. by apply Hc.
Qed.

Lemma tlb_other s s' :
  tlb_coherent s -> ps_current s' = ps_current s -> ps_tlb s' = ps_tlb s ->
  (forall vp, is_Some (translate s (ps_current s) vp) ->
     translate s' (ps_current s) vp = translate s (ps_current s) vp) ->
  tlb_coherent s'.
Proof.
  intros Hc Hcur Htlb Htr vp t Ht. rewrite Htlb in Ht. destruct (Hc vp t Ht) as (t' & Ht' & ?).
  rewrite Hcur, Htr by eauto. eauto.
Qed.

Lemma own_put_table s tab ts dir p :
  get_dir s tab = None -> own (put_table s tab ts) dir p <-> own s dir p.
Proof.
  intros Hd. unfold own. split; intros [?|[i Hi]]; try (by left); right; exists i;
    by rewrite tab_of_put_table in *.
Qed.

Lemma extends_put_table s dir di es tab ts ts' :
  pages_wf s -> get_dir s dir = Some es -> tab_of s dir di = Some tab ->
  get_table s tab = Some ts -> extends dir s (put_table s tab ts').
Proof.
  intros Hwf Hd Htab Hts. pose proof (get_table_not_dir _ _ _ Hts) as Hnd.
  pose proof (extends_refl s dir es Hwf Hd) as He. constructor.
  - intros p Hp. simpl. apply lookup_insert_ne. intros <-. apply Hp.
    apply own_put_table; [done|]. right. eauto.
  - intros p. by rewrite own_put_table.
  - intros p. rewrite own_put_table by done. done.
  - intros q. simpl. rewrite (ex_used _ _ _ He). setoid_rewrite own_put_table; [|done].
    tauto.
Qed.

Lemma pages_wf_invlpg s v : pages_wf s -> pages_wf (invlpg s v).
Proof. intros []. by constructor. Qed.

Lemma extends_invlpg dir s s' v : extends dir s s' -> extends dir s (invlpg s' v).
Proof. intros []. by constructor. Qed.

(** The entry of [vaddr] reached through its table. *)
Lemma translate_entry s dir tab ts t vaddr :
  tab_of s dir (dir_index vaddr) = Some tab -> get_table s tab = Some ts ->
  zget ts (table_index vaddr) = Some t ->
  translate s dir (vaddr / 4096) = if truthy (present t) then Some t else None.
Proof.
  intros Htab Hts Ht. unfold translate. unfold dir_index in Htab. unfold table_index in Ht.
  by rewrite Htab, bind_Some_l, Hts, bind_Some_l, Ht, bind_Some_l.
Qed.

Record map_post (s s' : pstate) (dir addr vaddr u w nc : Z) : Prop := {
  mp_wf : pages_wf s';
  mp_dir : is_Some (get_dir s' dir);
  mp_ext : extends dir s s';
  mp_cur : ps_current s' = ps_current s;
  mp_at : exists t, translate s' dir (vaddr / 4096) = Some t /\ mapped_to t addr u w nc;
  mp_ne d vp : ~ (d = dir /\ vp = vaddr / 4096) -> translate s' d vp = translate s d vp;
  mp_tlb : tlb_coherent s -> tlb_coherent s';
  mp_tlb_ne : dir <> ps_current s -> ps_tlb s' = ps_tlb s }.

Lemma page_index_eq vaddr vp :
  vp / 1024 = dir_index vaddr /\ vp mod 1024 = table_index vaddr <-> vp = vaddr / 4096.
Proof. unfold dir_index, table_index. split; [|intros ->; done]. Z.div_mod_to_equations. lia. Qed.

(** [map] succeeds and installs exactly one translation, or it fails for lack of
    memory and changes nothing. *)
Lemma map_spec s dir es addr vaddr u w nc :
  pages_wf s -> get_dir s dir = Some es -> is_u32 addr -> is_u32 vaddr ->
  exists b s', map s dir addr vaddr u w nc = Some (b, s') /\
    if (b : bool) then map_post s s' dir addr vaddr u w nc else s' = s.
Proof.
  intros Hwf Hd Ha Hv. destruct (index_ranges vaddr Hv) as (Hdi & Hti & _).
  destruct (dir_entry s dir es (dir_index vaddr) Hwf Hd Hdi) as [e He].
  unfold map. zcase.
  { exfalso. destruct (dir_used s dir es Hwf Hd) as (_ & _ & ?). unfold NULL in *. lia. }
  rewrite Hd, bind_Some_l, He, bind_Some_l.
  pose proof (map_table_spec s dir es (dir_index vaddr) e Hwf Hd He) as Hmt.
  destruct (map_table s dir es (dir_index vaddr) e) as [[e' s1]|]; [|by exists false, s].
  destruct Hmt as (Hwf1 & Htab & [es1 Hd1] & Hext & Hcur & Htlb & Htr).
  destruct (pw_entry s1 Hwf1 _ _ _ Htab) as [_ [ts Hts]].
  destruct (table_entry s1 _ ts (table_index vaddr) Hwf1 Hts Hti) as (t & Ht & Hpt).
  rewrite Hts, bind_Some_l, Ht, bind_Some_l.
  set (t' := pte_install t addr u w nc).
  set (s2 := put_table s1 (d_address e' * 4096) (zset ts (table_index vaddr) t')).
  assert (Htr2 : forall d vp, translate s2 d vp =
    if decide (d = dir /\ vp / 1024 = dir_index vaddr /\ vp mod 1024 = table_index vaddr)
    then Some t' else translate s d vp).
  { intros d vp. unfold s2. rewrite (translate_put_table s1 dir (dir_index vaddr)) by done.
    case_decide; [done|apply Htr]. }
  assert (Hat : translate s2 dir (vaddr / 4096) = Some t').
  { rewrite Htr2. case_decide as Hn; [done|]. exfalso. apply Hn. split; [done|].
    by apply page_index_eq. }
  assert (Hne : forall d vp, ~ (d = dir /\ vp = vaddr / 4096) ->
    translate s2 d vp = translate s d vp).
  { intros d vp Hn. rewrite Htr2. case_decide as Hcd; [|done]. exfalso. apply Hn.
    destruct Hcd as [-> Hcd]. split; [done|]. by apply page_index_eq. }
  assert (Hext2 : extends dir s s2).
  { eapply extends_trans; [done|]. by eapply extends_put_table. }
  assert (Hwf2 : pages_wf s2).
  { eapply pages_wf_put_table; [done|done|]. apply table_ok_zset; [|by right].
    by apply (pw_tab s1 Hwf1 _ _ Hts). }
  assert (Hd2 : is_Some (get_dir s2 dir)).
  { unfold s2. rewrite get_dir_put_table by (by eapply get_table_not_dir). by rewrite Hd1. }
  assert (Hmt : mapped_to t' addr u w nc).
  { repeat split. simpl. unfold bits20. apply Z.mod_small. unfold is_u32 in Ha.
    Z.div_mod_to_equations. lia. }
  eexists true, _. split; [reflexivity|].
  assert (Hold : translate s dir (vaddr / 4096) = if truthy (present t) then Some t else None).
  { rewrite <-Htr. by eapply translate_entry. }
  destruct (Z.eqb_spec (present t) 1) as [Hp|Hp]; simpl;
    [destruct (Z.eqb_spec dir (ps_current s1)) as [Hcu|Hcu]|].
  - constructor; try done;
      [by apply pages_wf_invlpg|by apply extends_invlpg|eauto| |congruence]. intros Hco.
    apply (tlb_update s _ vaddr); [done|done| |].
    + intros vp Hvp. apply Hne. tauto.
    + simpl. by rewrite Htlb.
  - constructor; try done; [eauto|]. intros Hco.
    apply (tlb_other s); [done|done|done|]. intros vp _. apply Hne. intros [E _]. congruence.
  - constructor; try done; [eauto|]. intros Hco.
    apply (tlb_other s); [done|done|done|]. intros vp Hvp. apply Hne.
    intros [E ->]. rewrite E, Hold in Hvp. destruct Hpt as [Hpt|Hpt]; [|done].
    rewrite Hpt in Hvp. by destruct Hvp.
Qed.

(** [unmap] reports whether the page was mapped, removes that translation and
    no other, and invalidates it in the TLB. *)
Record unmap_post (s s' : pstate) (dir vaddr : Z) : Prop := {
  up_wf : pages_wf s';
  up_dir : is_Some (get_dir s' dir);
  up_ext : extends dir s s';
  up_cur : ps_current s' = ps_current s;
  up_heap : ps_heap s' = ps_heap s;
  up_at : translate s' dir (vaddr / 4096) = None;
  up_ne d vp : ~ (d = dir /\ vp = vaddr / 4096) -> translate s' d vp = translate s d vp;
  up_tlb : tlb_coherent s -> tlb_coherent s' }.

Lemma unmap_post_refl s dir es vaddr :
  pages_wf s -> get_dir s dir = Some es -> translate s dir (vaddr / 4096) = None ->
  unmap_post s s dir vaddr.
Proof. intros Hwf Hd Ht. constructor; try done. by eapply extends_refl. Qed.

Lemma translate_absent s dir es e vaddr :
  get_dir s dir = Some es -> zget es (dir_index vaddr) = Some e ->
  truthy (d_present e) = false -> translate s dir (vaddr / 4096) = None.
Proof.
  intros Hd He Hp. unfold translate. fold (dir_index vaddr).
  by rewrite (tab_of_entry s dir es _ e Hd He), Hp.
Qed.

Lemma present_address s dir es i e :
  pages_wf s -> get_dir s dir = Some es -> zget es i = Some e ->
  truthy (d_present e) = true ->
  truthy (d_address e) = true /\ tab_of s dir i = Some (d_address e * 4096) /\
  exists ts, get_table s (d_address e * 4096) = Some ts.
Proof.
  intros Hwf Hd He Hp. assert (Ht : tab_of s dir i = Some (d_address e * 4096)).
  { by rewrite (tab_of_entry s dir es i e Hd He), Hp. }
  destruct (pw_entry s Hwf _ _ _ Ht) as [Hnz Hts]. split; [apply truthy_true; lia|]. done.
Qed.

Lemma unmap_spec s dir es vaddr :
  pages_wf s -> get_dir s dir = Some es -> is_u32 vaddr ->
  exists s', unmap s dir vaddr =
      Some (bool_decide (is_Some (translate s dir (vaddr / 4096))), s') /\
    unmap_post s s' dir vaddr.
Proof.
  intros Hwf Hd Hv. destruct (index_ranges vaddr Hv) as (Hdi & Hti & _).
  destruct (dir_entry s dir es (dir_index vaddr) Hwf Hd Hdi) as [e He].
  unfold unmap. rewrite Hd, bind_Some_l, He, bind_Some_l.
  destruct (truthy (d_present e)) eqn:Hp; simpl.
  2:{ pose proof (translate_absent s dir es e vaddr Hd He Hp) as Hn. exists s. rewrite Hn.
      split; [done|]. by eapply unmap_post_refl. }
  destruct (present_address s dir es _ e Hwf Hd He Hp) as (-> & Htab & ts & Hts).
  destruct (table_entry s _ ts (table_index vaddr) Hwf Hts Hti) as (t & Ht & Hpt).
  rewrite Hts, bind_Some_l, Ht, bind_Some_l.
  pose proof (translate_entry s dir _ ts t vaddr Htab Hts Ht) as Hold.
  destruct (truthy (present t)) eqn:Hpr.
  2:{ exists s. rewrite Hold. split; [done|]. by eapply unmap_post_refl. }
  set (s2 := put_table s _ _).
  assert (Htr2 : forall d vp, translate s2 d vp =
    if decide (d = dir /\ vp / 1024 = dir_index vaddr /\ vp mod 1024 = table_index vaddr)
    then None else translate s d vp).
  { intros d vp. unfold s2. by rewrite (translate_put_table s dir (dir_index vaddr)) by done. }
  assert (Hat : translate s2 dir (vaddr / 4096) = None).
  { rewrite Htr2. case_decide as Hn; [done|]. exfalso. apply Hn. split; [done|].
    by apply page_index_eq. }
  assert (Hne : forall d vp, ~ (d = dir /\ vp = vaddr / 4096) ->
    translate s2 d vp = translate s d vp).
  { intros d vp Hn. rewrite Htr2. case_decide as Hcd; [|done]. exfalso. apply Hn.
    destruct Hcd as [-> Hcd]. split; [done|]. by apply page_index_eq. }
  assert (Hpost : unmap_post s s2 dir vaddr \/ dir = ps_current s).
  { destruct (decide (dir = ps_current s)) as [?|Hcu]; [by right|left]. constructor; try done.
    - eapply pages_wf_put_table; [done|done|]. apply table_ok_zset; [|by left].
      by apply (pw_tab s Hwf _ _ Hts).
    - unfold s2. rewrite get_dir_put_table by (by eapply get_table_not_dir). by rewrite Hd.
    - by eapply extends_put_table.
    - intros Hco. apply (tlb_other s); [done|done|done|]. intros vp _. apply Hne.
      intros [E _]. congruence. }
  eexists. rewrite Hold. split; [reflexivity|].
  destruct (Z.eqb_spec dir (ps_current s)) as [Hcu|Hcu]; [|by destruct Hpost].
  constructor; try done.
  - apply pages_wf_invlpg. eapply pages_wf_put_table; [done|done|].
    apply table_ok_zset; [|by left]. by apply (pw_tab s Hwf _ _ Hts).
  - unfold s2. change (get_dir (invlpg ?a ?b)) with (get_dir a).
    rewrite get_dir_put_table by (by eapply get_table_not_dir). by rewrite Hd.
  - apply extends_invlpg. by eapply extends_put_table.
  - intros Hco. apply (tlb_update s _ vaddr); [done|done| |done].
    intros vp Hvp. apply Hne. tauto.
Qed.

(** The physical address [page_getphysical] returns. *)
Definition phys_of (o : option page_table_entry) (vaddr : Z) : Z :=
  match o with Some t => address t * 4096 + vaddr mod 4096 | None => u32 (-1) end.

Lemma page_getphysical_spec s dir es vaddr :
  pages_wf s -> get_dir s dir = Some es -> is_u32 vaddr ->
  page_getphysical s dir vaddr = Some (phys_of (translate s dir (vaddr / 4096)) vaddr).
Proof.
  intros Hwf Hd Hv. destruct (index_ranges vaddr Hv) as (Hdi & Hti & _).
  destruct (dir_entry s dir es (dir_index vaddr) Hwf Hd Hdi) as [e He].
  unfold page_getphysical. rewrite Hd, bind_Some_l, He, bind_Some_l.
  destruct (truthy (d_present e)) eqn:Hp; simpl.
  2:{ by rewrite (translate_absent s dir es e vaddr Hd He Hp). }
  destruct (present_address s dir es _ e Hwf Hd He Hp) as (_ & Htab & ts & Hts).
  destruct (table_entry s _ ts (table_index vaddr) Hwf Hts Hti) as (t & Ht & Hpt).
  rewrite Hts, bind_Some_l, Ht, bind_Some_l, (translate_entry s dir _ ts t vaddr Htab Hts Ht).
  by destruct (truthy (present t)).
Qed.

(** The permission code of a translation. *)
Definition perm_of (o : option page_table_entry) : Z :=
  match o with
  | None => PAGE_NOTPRESENT
  | Some t =>
      if truthy (user t) then (if truthy (rw t) then PAGE_USERRW else PAGE_USERREAD)
      else (if truthy (rw t) then PAGE_KERNELRW else PAGE_KERNELREAD)
  end.

Lemma page_checkmapping_spec s dir es vaddr :
  pages_wf s -> get_dir s dir = Some es -> is_u32 vaddr ->
  page_checkmapping s dir vaddr = Some (perm_of (translate s dir (vaddr / 4096))).
Proof.
  intros Hwf Hd Hv. destruct (index_ranges vaddr Hv) as (Hdi & Hti & _).
  destruct (dir_entry s dir es (dir_index vaddr) Hwf Hd Hdi) as [e He].
  unfold page_checkmapping. rewrite Hd, bind_Some_l, He, bind_Some_l.
  destruct (truthy (d_present e)) eqn:Hp; simpl.
  2:{ by rewrite (translate_absent s dir es e vaddr Hd He Hp). }
  destruct (present_address s dir es _ e Hwf Hd He Hp) as (_ & Htab & ts & Hts).
  destruct (table_entry s _ ts (table_index vaddr) Hwf Hts Hti) as (t & Ht & Hpt).
  rewrite Hts, bind_Some_l, Ht, bind_Some_l, (translate_entry s dir _ ts t vaddr Htab Hts Ht).
  destruct (truthy (present t)); simpl; [|done]. by destruct (truthy (user t)).
Qed.

(** ** The range loops *)

(** [s'] agrees with [s] on every translation but those of [dir] at the pages
    [v .. v+k-1]. *)
Definition agrees_outside (s s' : pstate) (dir v k : Z) : Prop :=
  forall d vp, ~ (d = dir /\ v <= vp < v + k) -> translate s' d vp = translate s d vp.

Record map_range_post (s s' : pstate) (dir p v k u w nc : Z) : Prop := {
  mr_wf : pages_wf s';
  mr_dir : is_Some (get_dir s' dir);
  mr_ext : extends dir s s';
  mr_cur : ps_current s' = ps_current s;
  mr_at i : 0 <= i < k ->
    exists t, translate s' dir (v + i) = Some t /\ mapped_to t ((p + i) * 4096) u w nc;
  mr_ne : agrees_outside s s' dir v k;
  mr_tlb : tlb_coherent s -> tlb_coherent s';
  mr_tlb_ne : dir <> ps_current s -> ps_tlb s' = ps_tlb s }.

Lemma map_range_refl s dir es p v u w nc :
  pages_wf s -> get_dir s dir = Some es -> map_range_post s s dir p v 0 u w nc.
Proof.
  intros Hwf Hd. constructor; try done; [by eapply extends_refl|lia].
Qed.

(** One more page in front of a mapped range. *)
Lemma map_range_cons s s1 s2 dir p v k u w nc :
  0 <= k -> map_post s s1 dir (p * 4096) (v * 4096) u w nc ->
  map_range_post s1 s2 dir (p + 1) (v + 1) k u w nc ->
  map_range_post s s2 dir p v (k + 1) u w nc.
Proof.
  intros Hk [? ? ? Hc1 Hat ? Ht1 Htn1] [? ? ? Hc2 Hats Hne Ht2 Htn2].
  rewrite Z.div_mul in Hat by lia. constructor; try done.
  - by eapply extends_trans.
  - congruence.
  - intros i Hi. destruct (decide (i = 0)) as [->|].
    + rewrite !Z.add_0_r, Hne by lia. done.
    + destruct (Hats (i - 1)) as (t & Ht & Hm); [lia|]. exists t.
      replace (v + 1 + (i - 1)) with (v + i) in Ht by lia.
      by replace (p + 1 + (i - 1)) with (p + i) in Hm by lia.
  - intros d vp Hn. rewrite Hne by lia. apply mp_ne0. rewrite Z.div_mul by lia. lia.
  - auto.
  - intros Hn. rewrite Htn2, Htn1; congruence.
Qed.

(** And one more behind it. *)
Lemma map_range_snoc s s1 s2 dir p v k u w nc :
  0 <= k -> map_range_post s s1 dir p v k u w nc ->
  map_post s1 s2 dir ((p + k) * 4096) ((v + k) * 4096) u w nc ->
  map_range_post s s2 dir p v (k + 1) u w nc.
Proof.
  intros Hk [? ? ? Hc2 Hats Hne Ht2 Htn2] [? ? ? Hc1 Hat Hne1 Ht1 Htn1].
  rewrite Z.div_mul in Hat, Hne1 by lia. constructor; try done.
  - by eapply extends_trans.
  - congruence.
  - intros i Hi. destruct (decide (i = k)) as [->|]; [done|]. rewrite Hne1 by lia. apply Hats. lia.
  - intros d vp Hn. rewrite Hne1 by lia. apply Hne. lia.
  - auto.
  - intros Hn. rewrite Htn1, Htn2; congruence.
Qed.

(** [map_loop] maps the pages in order and stops at the first failure. *)
Lemma map_loop_spec n s dir es p v pend u w nc k0 :
  pages_wf s -> get_dir s dir = Some es -> 0 <= p -> p + Z.of_nat n = pend -> pend < 2 ^ 20 ->
  0 <= v -> v + Z.of_nat n <= 2 ^ 20 ->
  exists k s', map_loop n s dir (p * 4096) (v * 4096) (pend * 4096) u w nc k0
      = Some (k0 + k, s') /\ 0 <= k <= Z.of_nat n /\ map_range_post s s' dir p v k u w nc.
Proof.
  revert s es p v k0. induction n as [|n IH]; intros s es p v k0 Hwf Hd Hp He Hpe Hv Hve.
  - exists 0, s. cbn [map_loop]. zcase; [lia|]. split; [by rewrite Z.add_0_r|].
    split; [lia|]. by eapply map_range_refl.
  - cbn [map_loop]. zcase; [|lia].
    destruct (map_spec s dir es (p * 4096) (v * 4096) u w nc) as (b & s1 & -> & Hpost);
      [done..|unfold is_u32; lia|unfold is_u32; lia|].
    rewrite bind_Some_l. destruct b.
    2:{ subst s1. exists 0, s. split; [by rewrite Z.add_0_r|]. split; [lia|].
        by eapply map_range_refl. }
    unfold PAGE_SIZE. destruct (mp_dir _ _ _ _ _ _ _ _ Hpost) as [es1 Hd1].
    destruct (decide (n = 0%nat)) as [->|Hn0].
    { exists 1, s1. cbn [map_loop].
      rewrite (u32_id (p * 4096 + 4096)) by lia. zcase; [lia|].
      split; [done|]. split; [lia|]. apply (map_range_cons s s1 s1 dir p v 0); [lia|done|].
      eapply map_range_refl; [apply Hpost|done]. }
    rewrite !u32_id by lia.
    replace (p * 4096 + 4096) with ((p + 1) * 4096) by lia.
    replace (v * 4096 + 4096) with ((v + 1) * 4096) by lia.
    destruct (IH s1 es1 (p + 1) (v + 1) (k0 + 1)) as (k & s2 & -> & Hk & Hr);
      [apply Hpost|done|lia..|].
    exists (k + 1), s2. split; [do 2 f_equal; lia|]. split; [lia|].
    eapply map_range_cons; [lia|done|done].
Qed.

(** The allocator grants requests of these sizes, one after the other. *)
Fixpoint gives (h : H) (l : list Z) : bool :=
  match l with
  | [] => true
  | n :: l => negb (fst (al_malloc h n) =? NULL) && gives (snd (al_malloc h n)) l
  end.

(** The tables that are missing for [n] pages from [v]: the first one unless it is there,
    and one for each further directory entry. *)
Definition tables_for (s : pstate) (dir v n : Z) : nat :=
  (Z.to_nat ((v + n - 1) / 1024 - v / 1024) + if tab_of s dir (v / 1024) then 0 else 1)%nat.

Lemma gives_prefix h n k : gives h (replicate (n + k) 4096) = true -> gives h (replicate n 4096) = true.
Proof.
  revert h. induction n as [|n IH]; intros h; [done|]. cbn [replicate gives Nat.add].
  intros [? ?]%andb_prop. apply andb_true_intro. auto.
Qed.

(** [map] succeeds when there is memory for the table it may need. *)
Lemma map_gives s dir es addr vaddr u w nc T :
  pages_wf s -> get_dir s dir = Some es -> is_u32 addr -> is_u32 vaddr ->
  gives (ps_heap s) (replicate ((if tab_of s dir (vaddr / 4096 / 1024) then 0 else 1) + T) 4096) = true ->
  exists s', map s dir addr vaddr u w nc = Some (true, s') /\ map_post s s' dir addr vaddr u w nc /\
    gives (ps_heap s') (replicate T 4096) = true.
Proof.
  intros Hwf Hd Ha Hv Hg. destruct (map_spec s dir es addr vaddr u w nc Hwf Hd Ha Hv) as (b & s' & E & Hpost).
  exists s'. revert E. unfold map. destruct (Z.eqb_spec dir NULL) as [->|Hn].
  { exfalso. destruct (dir_used s NULL es Hwf Hd) as (_ & _ & ?). unfold NULL in *. lia. }
  rewrite Hd, bind_Some_l. change (vaddr / 4096 / 1024) with (dir_index vaddr) in Hg.
  destruct (index_ranges vaddr Hv) as (Hdi & _ & _). destruct (dir_entry s dir es (dir_index vaddr) Hwf Hd Hdi) as [e He].
  rewrite He, bind_Some_l. pose proof (tab_of_entry s dir es _ e Hd He) as Htab. rewrite Htab in Hg.
  assert (Hmt : exists e1 s1, map_table s dir es (dir_index vaddr) e = Some (e1, s1) /\
    gives (ps_heap s1) (replicate T 4096) = true).
  { unfold map_table. destruct (truthy (d_present e)) eqn:Hp; simpl negb; cbn [orb].
    - destruct (present_address s dir es _ e Hwf Hd He Hp) as (-> & _). by exists e, s.
    - cbn [replicate gives Nat.add] in Hg. apply andb_prop in Hg as [Hg1 Hg2].
      destruct (al_malloc (ps_heap s) 4096) as [tab h]. simpl in Hg1, Hg2. destruct (tab =? NULL); [done|].
      eexists _, _. split; [done|]. exact Hg2. }
  destruct Hmt as (e1 & s1 & -> & Hg1).
  destruct (get_table s1 _) as [ts|]; [rewrite bind_Some_l|done].
  destruct (zget ts _) as [t|]; [rewrite bind_Some_l|done]. intros [= <- Hs']. rewrite Hs'.
  split; [done|]. split; [done|]. rewrite <-Hs'. by destruct (_ && _).
Qed.

(** The loop maps every page when there is memory for the missing tables. *)
Lemma map_loop_gives n s dir es p v pend u w nc k0 :
  pages_wf s -> get_dir s dir = Some es -> 0 <= p -> p + Z.of_nat n = pend -> pend < 2 ^ 20 ->
  0 <= v -> v + Z.of_nat n <= 2 ^ 20 -> (0 < n)%nat ->
  gives (ps_heap s) (replicate (tables_for s dir v (Z.of_nat n)) 4096) = true ->
  exists s', map_loop n s dir (p * 4096) (v * 4096) (pend * 4096) u w nc k0 = Some (k0 + Z.of_nat n, s').
Proof.
  revert s es p v k0. induction n as [|n IH]; intros s es p v k0 Hwf Hd Hp He Hpe Hv Hve Hn Hg; [lia|].
  cbn [map_loop]. zcase; [|lia]. unfold tables_for in Hg. rewrite Nat.add_comm in Hg.
  destruct (map_gives s dir es (p * 4096) (v * 4096) u w nc (Z.to_nat ((v + Z.of_nat (S n) - 1) / 1024 - v / 1024)))
    as (s1 & -> & Hpost & Hg1); [done|done|unfold is_u32; lia|unfold is_u32; lia|by rewrite Z.div_mul by lia|].
  rewrite bind_Some_l. unfold PAGE_SIZE. destruct (decide (n = 0%nat)) as [->|Hn0].
  { exists s1. cbn [map_loop]. rewrite (u32_id (p * 4096 + 4096)) by lia. zcase; [lia|]. do 2 f_equal. }
  rewrite !u32_id by lia. replace (p * 4096 + 4096) with ((p + 1) * 4096) by lia.
  replace (v * 4096 + 4096) with ((v + 1) * 4096) by lia. destruct (mp_dir _ _ _ _ _ _ _ _ Hpost) as [es1 Hd1].
  destruct (IH s1 es1 (p + 1) (v + 1) (k0 + 1)) as (s2 & ->); [apply Hpost|done|lia..| |].
  - apply (gives_prefix _ _ (Z.to_nat ((v + Z.of_nat (S n) - 1) / 1024 - v / 1024) -
      tables_for s1 dir (v + 1) (Z.of_nat n))). rewrite Nat.add_comm, Nat.sub_add; [done|]. unfold tables_for.
    destruct (mp_at _ _ _ _ _ _ _ _ Hpost) as (t & Ht & _). rewrite Z.div_mul in Ht by lia. unfold translate in Ht.
    destruct (tab_of s1 dir (v / 1024)) eqn:Htab; [|done].
    destruct (decide ((v + 1) / 1024 = v / 1024)) as [->|Hne]; [rewrite Htab|destruct (tab_of s1 dir ((v + 1) / 1024))];
      Z.div_mod_to_equations; lia.
  - exists s2. do 2 f_equal. lia.
Qed.

Lemma page_align_down_spec a : page_align_down a = a / 4096 * 4096.
Proof. unfold page_align_down, PAGE_SIZE. Z.div_mod_to_equations. lia. Qed.

Lemma page_align_up_spec a :
  0 <= a -> a + 4095 < 2 ^ 32 -> page_align_up a = (a + 4095) / 4096 * 4096.
Proof.
  intros. unfold page_align_up, PAGE_SIZE. replace (a + (4096 - 1)) with (a + 4095) by lia.
  rewrite u32_id by lia. cbv zeta. Z.div_mod_to_equations. lia.
Qed.

Record unmap_range_post (s s' : pstate) (dir v k : Z) : Prop := {
  ur_wf : pages_wf s';
  ur_dir : is_Some (get_dir s' dir);
  ur_ext : extends dir s s';
  ur_cur : ps_current s' = ps_current s;
  ur_heap : ps_heap s' = ps_heap s;
  ur_at vp : v <= vp < v + k -> translate s' dir vp = None;
  ur_ne : agrees_outside s s' dir v k;
  ur_tlb : tlb_coherent s -> tlb_coherent s' }.

Lemma unmap_range_refl s dir es v : pages_wf s -> get_dir s dir = Some es -> unmap_range_post s s dir v 0.
Proof. intros Hwf Hd. constructor; try done; [by eapply extends_refl|intros; lia]. Qed.

(** One more page in front of an unmapped range. *)
Lemma unmap_range_cons s s1 s2 dir v k :
  0 <= k -> unmap_post s s1 dir (v * 4096) -> unmap_range_post s1 s2 dir (v + 1) k ->
  unmap_range_post s s2 dir v (k + 1).
Proof.
  intros Hk [? ? ? ? ? Hat Hne ?] [? ? ? ? ? Hat2 Hne2 ?]. rewrite Z.div_mul in * by lia.
  constructor; try done; try congruence; [by eapply extends_trans| | |auto].
  - intros vp Hvp. destruct (decide (vp = v)) as [->|]; [|apply Hat2; lia]. rewrite Hne2; [done|]. lia.
  - intros d vp Hn. rewrite Hne2 by lia. apply Hne. lia.
Qed.

(** How many of the [n] pages from [v] are mapped. *)
Fixpoint mapped_pages (s : pstate) (dir v : Z) (n : nat) : Z :=
  match n with
  | O => 0
  | S n => b2z (bool_decide (is_Some (translate s dir v))) + mapped_pages s dir (v + 1) n
  end.

Lemma mapped_pages_ext s s' dir v n :
  (forall vp, v <= vp < v + Z.of_nat n -> translate s' dir vp = translate s dir vp) ->
  mapped_pages s' dir v n = mapped_pages s dir v n.
Proof.
  revert v. induction n as [|n IH]; intros v Hv; simpl; [done|].
  rewrite Hv by lia. rewrite IH; [done|]. intros. apply Hv. lia.
Qed.

Lemma unmap_loop_spec n s dir es v vend k0 :
  pages_wf s -> get_dir s dir = Some es -> 0 <= v -> v + Z.of_nat n = vend -> vend < 2 ^ 20 ->
  exists s', unmap_loop n s dir (v * 4096) (vend * 4096) k0
      = Some (k0 + mapped_pages s dir v n, s') /\ unmap_range_post s s' dir v (Z.of_nat n).
Proof.
  revert s es v k0. induction n as [|n IH]; intros s es v k0 Hwf Hd Hv He Hve.
  - exists s. cbn [unmap_loop mapped_pages]. zcase; [lia|]. split; [by rewrite Z.add_0_r|].
    by eapply unmap_range_refl.
  - cbn [unmap_loop mapped_pages]. zcase; [|lia].
    destruct (unmap_spec s dir es (v * 4096)) as (s1 & -> & Hpost); [done..|unfold is_u32; lia|].
    rewrite bind_Some_l. destruct (up_dir _ _ _ _ Hpost) as [es1 Hd1].
    rewrite Z.div_mul in * by lia. unfold PAGE_SIZE. rewrite u32_id by lia.
    replace (v * 4096 + 4096) with ((v + 1) * 4096) by lia.
    destruct (IH s1 es1 (v + 1) (if bool_decide (is_Some (translate s dir v)) then k0 + 1 else k0))
      as (s2 & -> & Hr); [apply Hpost|done|lia..|].
    exists s2. split.
    { do 2 f_equal. rewrite (mapped_pages_ext s s1); [case_bool_decide; simpl; lia|].
      intros vp Hvp. apply (up_ne _ _ _ _ Hpost). rewrite Z.div_mul by lia. lia. }
    replace (Z.of_nat (S n)) with (Z.of_nat n + 1) by lia. eapply unmap_range_cons; [lia|done|done].
Qed.

Lemma identity_loop_spec n s dir es i u w ok :
  pages_wf s -> get_dir s dir = Some es -> 0 <= i -> i + Z.of_nat n <= 2 ^ 20 ->
  exists b s', identity_loop n s dir i u w ok = Some (b, s') /\
    pages_wf s' /\ is_Some (get_dir s' dir) /\ extends dir s s' /\
    ps_current s' = ps_current s /\ (tlb_coherent s -> tlb_coherent s') /\
    agrees_outside s s' dir i (Z.of_nat n) /\
    (b = true -> ok = true /\ forall vp, i <= vp < i + Z.of_nat n ->
       exists t, translate s' dir vp = Some t /\ mapped_to t (vp * 4096) u w 0).
Proof.
  revert s es i ok. induction n as [|n IH]; intros s es i ok Hwf Hd Hi Hn; cbn [identity_loop].
  { exists ok, s. split; [done|]. split_and!; try done; [by eapply extends_refl|].
    intros ->. split; [done|]. lia. }
  destruct (map_spec s dir es (i * 4096) (i * 4096) u w 0) as (b & s1 & -> & Hp);
    [done..|unfold is_u32; lia|unfold is_u32; lia|]. rewrite bind_Some_l.
  assert (H1 : pages_wf s1 /\ (exists es1, get_dir s1 dir = Some es1) /\ extends dir s s1 /\
    ps_current s1 = ps_current s /\ (tlb_coherent s -> tlb_coherent s1) /\
    agrees_outside s s1 dir i 1 /\
    (b = true -> exists t, translate s1 dir i = Some t /\ mapped_to t (i * 4096) u w 0)).
  { destruct b.
    - destruct Hp as [? ? ? ? Hat Hne ? ?]. rewrite Z.div_mul in Hat by lia. split_and!; try done.
      intros d vp Hv. apply Hne. rewrite Z.div_mul by lia. lia.
    - subst s1. split_and!; try done; [eauto|by eapply extends_refl]. }
  destruct H1 as (Hw1 & [es1 Hd1] & He1 & Hc1 & Ht1 & Hne1 & Hat1).
  destruct (IH s1 es1 (i + 1) (ok && b)) as (b2 & s2 & -> & Hw2 & Hd2 & He2 & Hc2 & Ht2 & Hne2 & Hat2);
    [done|done|lia..|].
  exists b2, s2. split; [done|]. split_and!; try done; [by eapply extends_trans|congruence|auto| |].
  - intros d vp Hv. rewrite Hne2 by lia. apply Hne1. lia.
  - intros ->. destruct (Hat2 eq_refl) as [Hob Hr]. apply andb_true_iff in Hob as [-> ->].
    split; [done|]. intros vp Hvp. destruct (decide (vp = i)) as [->|]; [|apply Hr; lia].
    rewrite Hne2 by lia. by apply Hat1.
Qed.

(** ** Changing the memory type, and releasing a directory *)

(** [page_set_memtype] keeps the address and permissions of every translation. *)
Definition same_mapping (o o' : option page_table_entry) : Prop :=
  match o, o' with
  | Some t, Some t' => address t' = address t /\ rw t' = rw t /\ user t' = user t
  | None, None => True
  | _, _ => False
  end.

Lemma same_mapping_refl o : same_mapping o o.
Proof. by destruct o. Qed.

Lemma same_mapping_trans o1 o2 o3 : same_mapping o1 o2 -> same_mapping o2 o3 -> same_mapping o1 o3.
Proof. destruct o1, o2, o3; simpl; try done. intros; destruct_and!; split_and!; congruence. Qed.

Lemma memtype_loop_spec n s dir es vaddr pi :
  pages_wf s -> get_dir s dir = Some es -> is_u32 vaddr ->
  exists b s', memtype_loop n s dir vaddr pi = Some (b, s') /\
    pages_wf s' /\ is_Some (get_dir s' dir) /\ extends dir s s' /\
    ps_current s' = ps_current s /\ ps_tlb s' = ps_tlb s /\
    (forall d vp, same_mapping (translate s d vp) (translate s' d vp)).
Proof.
  revert s es vaddr. induction n as [|n IH]; intros s es vaddr Hwf Hd Hv; cbn [memtype_loop].
  { exists true, s. split_and!; try done; [by eapply extends_refl|].
    intros. apply same_mapping_refl. }
  destruct (index_ranges vaddr Hv) as (Hdi & Hti & _).
  destruct (dir_entry s dir es (dir_index vaddr) Hwf Hd Hdi) as [e He].
  rewrite Hd, bind_Some_l, He, bind_Some_l. zcase.
  { exists false, s. split_and!; try done; [by eapply extends_refl|].
    intros. apply same_mapping_refl. }
  assert (Hp : truthy (d_present e) = true) by (destruct (truthy (d_present e)); done).
  destruct (present_address s dir es _ e Hwf Hd He Hp) as (_ & Htab & ts & Hts).
  destruct (table_entry s _ ts (table_index vaddr) Hwf Hts Hti) as (t & Ht & Hpt).
  rewrite Hts, bind_Some_l, Ht, bind_Some_l. set (s1 := put_table s _ _).
  assert (Hd1 : get_dir s1 dir = Some es).
  { unfold s1. by rewrite get_dir_put_table by (by eapply get_table_not_dir). }
  assert (Hw1 : pages_wf s1).
  { eapply pages_wf_put_table; [done|done|]. apply table_ok_zset; [|done].
    by apply (pw_tab s Hwf _ _ Hts). }
  destruct (IH s1 es (u32 (vaddr + PAGE_SIZE)) Hw1 Hd1) as (b & s2 & -> & ? & ? & ? & ? & ? & Hsm);
    [apply u32_range|].
  exists b, s2. split_and!; try done.
  - eapply extends_trans; [by eapply extends_put_table|done].
  - intros d vp. eapply same_mapping_trans; [|apply Hsm]. unfold s1.
    rewrite (translate_put_table s dir (dir_index vaddr)) by done.
    case_decide as Hcd; [|apply same_mapping_refl]. destruct Hcd as (-> & Hcd).
    apply page_index_eq in Hcd as ->. rewrite (translate_entry s dir _ ts t vaddr Htab Hts Ht).
    simpl. by destruct (truthy (present t)).
Qed.

(** The tables [free_page_dir] releases. *)
Definition tabs (es : list page_dir_entry) : list Z :=
  omap (fun e => if truthy (d_present e) && truthy (d_address e)
                 then Some (d_address e * 4096) else None) es.

Lemma free_tables_foldl es s : free_tables es s = foldl free_page s (tabs es).
Proof.
  revert s. induction es as [|e es IH]; intros s; simpl; [done|]. rewrite IH.
  by destruct (_ && _).
Qed.

Lemma free_pages_spec l s :
  al_wf (ps_heap s) -> NoDup l ->
  Forall (fun p => al_used (ps_heap s) (p / 4096) /\ p mod 4096 = 0) l ->
  let s' := foldl free_page s l in
  al_wf (ps_heap s') /\ ps_current s' = ps_current s /\ ps_tlb s' = ps_tlb s /\
  (forall q, al_used (ps_heap s') q <->
     al_used (ps_heap s) q /\ ~ exists p, p ∈ l /\ q = p / 4096) /\
  (forall p, ps_mem s' !! p = if decide (p ∈ l) then None else ps_mem s !! p).
Proof.
  revert s. induction l as [|p l IH]; intros s Hh Hnd Hf; simpl.
  { split_and!; try done. intros q. split; [|by intros [? _]]. intros Hq. split; [done|].
    intros (p & Hp & _). by apply elem_of_nil in Hp. }
  apply NoDup_cons in Hnd as [Hp Hnd]. apply Forall_cons in Hf as [[Hu Hal] Hf].
  destruct (al_free_ok (ps_heap s) 4096 p) as [Hh' Hu']; [done|lia|done| |].
  { change (pages 4096) with 1. intros q Hq. by replace q with (p / 4096) by lia. }
  change (pages 4096) with 1 in Hu'.
  destruct (IH (free_page s p)) as (Hw & Hc & Ht & Hus & Hm); [done|done| |].
  { rewrite Forall_forall in Hf |- *. intros r Hr. destruct (Hf r Hr) as [Hru Hra].
    split; [|done]. simpl. apply Hu'. split; [done|]. intros Hq. assert (p <> r) by congruence.
    assert (r / 4096 = p / 4096) by lia. Z.div_mod_to_equations. lia. }
  split_and!; [done|done|done| |].
  - intros q. rewrite Hus. simpl. rewrite Hu'. split.
    + intros [[Hq Hn] Hl]. split; [done|]. intros (r & Hr & ->).
      apply elem_of_cons in Hr as [->|Hr]; [lia|]. apply Hl. eauto.
    + intros [Hq Hn]. split_and!; [done| |].
      * intros Hr. apply Hn. exists p. split; [by left|lia].
      * intros (r & Hr & ->). apply Hn. exists r. split; [by right|done].
  - intros r. rewrite Hm. simpl.
    destruct (decide (r ∈ l)) as [Hl|Hl], (decide (r ∈ p :: l)) as [Hr|Hr]; try done.
    + exfalso. apply Hr. by right.
    + apply elem_of_cons in Hr as [->|Hr]; [|done]. by rewrite lookup_delete_eq.
    + rewrite lookup_delete_ne; [done|]. intros <-. apply Hr. by left.
Qed.

Lemma elem_of_tabs s dir es p :
  pages_wf s -> get_dir s dir = Some es ->
  p ∈ tabs es <-> exists i, tab_of s dir i = Some p.
Proof.
  intros Hwf Hd. unfold tabs. rewrite list_elem_of_omap. split.
  - intros (e & He & Hp). apply list_elem_of_lookup in He as [n Hn].
    destruct (truthy (d_present e)) eqn:E; [|done]. exists (Z.of_nat n).
    rewrite (tab_of_entry s dir es (Z.of_nat n) e), E; [|done|by rewrite zget_nat].
    simpl in Hp. by destruct (truthy (d_address e)).
  - intros [i Hi]. destruct (zget es i) as [e|] eqn:He.
    2:{ unfold tab_of in Hi. by rewrite Hd, bind_Some_l, He in Hi. }
    exists e. split.
    + unfold zget in He. zcase_on (0 <=? i); [|done]. by eapply list_elem_of_lookup_2.
    + rewrite (tab_of_entry s dir es i e Hd He) in Hi.
      destruct (truthy (d_present e)) eqn:E; [|done].
      destruct (present_address s dir es i e Hwf Hd He E) as (-> & _). done.
Qed.

Lemma tabs_NoDup s dir es : pages_wf s -> get_dir s dir = Some es -> NoDup (tabs es).
Proof.
  intros Hwf Hd.
  assert (Hinj : forall i j e e', es !! i = Some e -> es !! j = Some e' ->
    truthy (d_present e) = true -> truthy (d_present e') = true ->
    d_address e = d_address e' -> i = j).
  { intros i j e e' He He' Hp Hp' Ha.
    destruct (pw_inj s Hwf dir (Z.of_nat i) dir (Z.of_nat j) (d_address e * 4096)) as [_ E].
    - rewrite (tab_of_entry s dir es (Z.of_nat i) e), Hp; [done|done|by rewrite zget_nat].
    - rewrite (tab_of_entry s dir es (Z.of_nat j) e'), Hp', Ha; [done|done|by rewrite zget_nat].
    - lia. }
  clear Hwf Hd. induction es as [|e es IH]; simpl; [constructor|].
  assert (NoDup (tabs es)) as Hnd.
  { apply IH. intros i j e1 e2 H1 H2 P1 P2 Ha.
    by apply (Hinj (S i) (S j) e1 e2 H1 H2 P1 P2) in Ha as [=]. }
  unfold tabs. simpl. destruct (truthy (d_present e)) eqn:Hp; simpl; [|done].
  destruct (truthy (d_address e)) eqn:Ha; [|done]. constructor; [|done].
  intros Hin. apply list_elem_of_omap in Hin as (e' & Hin & Heq).
  apply list_elem_of_lookup in Hin as [n Hn].
  destruct (truthy (d_present e')) eqn:Hp'; [|done]. simpl in Heq.
  destruct (truthy (d_address e')); [|done]. injection Heq as Heq.
  assert (0%nat = S n) by (apply (Hinj 0%nat (S n) e e'); try done; lia). done.
Qed.

Lemma own_page s dir es p :
  pages_wf s -> get_dir s dir = Some es -> own s dir p ->
  al_used (ps_heap s) (p / 4096) /\ p mod 4096 = 0.
Proof.
  intros Hwf Hd [->|[i Hi]]; [by destruct (dir_used s dir es Hwf Hd) as (? & ? & _)|].
  destruct (pw_entry s Hwf _ _ _ Hi) as [_ [ts Hts]]. unfold get_table in Hts.
  destruct (ps_mem s !! p) eqn:E; [|done]. by destruct (pw_used s Hwf _ _ E) as (? & ? & _).
Qed.

Record free_dir_post (s s' : pstate) (dir : Z) : Prop := {
  fd_wf : pages_wf s';
  fd_cur : ps_current s' = ps_current s;
  fd_tlb : ps_tlb s' = ps_tlb s;
  fd_used q : al_used (ps_heap s') q <->
    al_used (ps_heap s) q /\ ~ exists p, own s dir p /\ q = p / 4096;
  fd_own p : own s dir p -> ps_mem s' !! p = None;
  fd_mem p : ~ own s dir p -> ps_mem s' !! p = ps_mem s !! p;
  fd_tr d vp : d <> dir -> translate s' d vp = translate s d vp }.

(** Once the pages of [dir] are gone, what is left is well formed. *)
Lemma remove_dir_wf s s' dir es :
  pages_wf s -> get_dir s dir = Some es -> al_wf (ps_heap s') ->
  (forall q, al_used (ps_heap s') q <->
    al_used (ps_heap s) q /\ ~ exists p, own s dir p /\ q = p / 4096) ->
  (forall p, own s dir p -> ps_mem s' !! p = None) ->
  (forall p, ~ own s dir p -> ps_mem s' !! p = ps_mem s !! p) ->
  pages_wf s' /\ (forall d vp, d <> dir -> translate s' d vp = translate s d vp).
Proof.
  intros Hwf Hd Hh Hu Ho Hm.
  assert (Hin : forall p pg, ps_mem s' !! p = Some pg -> ~ own s dir p /\ ps_mem s !! p = Some pg).
  { intros p pg Hp. destruct (own_dec s dir p) as [Hop|Hop]; [|split; [done|by rewrite <-Hm]].
    rewrite Ho in Hp by done. done. }
  assert (Hgd : forall d, d <> dir -> get_dir s' d = get_dir s d).
  { intros d Hn. unfold get_dir. destruct (own_dec s dir d) as [Hop|Hop]; [|by rewrite Hm].
    rewrite Ho by done. destruct Hop as [?|[i Hi]]; [done|].
    destruct (pw_entry s Hwf _ _ _ Hi) as [_ [ts Hts]]. apply get_table_not_dir in Hts.
    symmetry. exact Hts. }
  assert (Hgd0 : get_dir s' dir = None) by (unfold get_dir; rewrite Ho; [done|by left]).
  assert (Hto : forall d i, d <> dir -> tab_of s' d i = tab_of s d i)
    by (intros d i Hn; unfold tab_of; by rewrite Hgd).
  assert (Hto0 : forall d i tab, tab_of s' d i = Some tab -> d <> dir /\ tab_of s d i = Some tab).
  { intros d i tab Ht. destruct (decide (d = dir)) as [->|Hn]; [|by rewrite <-Hto].
    unfold tab_of in Ht. by rewrite Hgd0 in Ht. }
  assert (Hgt : forall d i tab, d <> dir -> tab_of s d i = Some tab ->
    get_table s' tab = get_table s tab).
  { intros d i tab Hn Ht. unfold get_table. rewrite Hm; [done|]. intros [->|[j Hj]].
    - destruct (pw_entry s Hwf _ _ _ Ht) as [_ [ts Hts]].
      rewrite (get_dir_not_table _ _ _ Hd) in Hts. done.
    - by destruct (pw_inj s Hwf _ _ _ _ _ Ht Hj). }
  split.
  - constructor; [done| | | | |].
    + intros p pg Hp. apply Hin in Hp as [Hn Hp]. destruct (pw_used s Hwf _ _ Hp) as (? & ? & ?).
      split_and!; try lia. apply Hu. split; [done|]. intros (r & Hr & Heq).
      destruct (own_page s dir es r Hwf Hd Hr) as [_ ?].
      assert (p = r) by (Z.div_mod_to_equations; lia). congruence.
    + intros d es' He. destruct (decide (d = dir)) as [->|Hn]; [congruence|].
      rewrite Hgd in He by done. by apply (pw_dir s Hwf d).
    + intros tab ts Ht. apply (pw_tab s Hwf tab). unfold get_table in *.
      destruct (ps_mem s' !! tab) as [pg|] eqn:E; [|done]. apply Hin in E as [_ ->]. done.
    + intros d i tab Ht. apply Hto0 in Ht as [Hn Ht]. rewrite (Hgt d i) by done. by eapply pw_entry.
    + intros d1 i1 d2 i2 tab Ht1 Ht2. apply Hto0 in Ht1 as [_ ?], Ht2 as [_ ?]. by eapply pw_inj.
  - intros d vp Hn. unfold translate. rewrite Hto by done.
    destruct (tab_of s d (vp / 1024)) as [tab|] eqn:E; [|done]. simpl. by rewrite (Hgt d _ tab Hn E).
Qed.

Lemma free_page_dir_spec s dir es :
  pages_wf s -> get_dir s dir = Some es ->
  exists s', free_page_dir s dir = Some s' /\ free_dir_post s s' dir.
Proof.
  intros Hwf Hd. unfold free_page_dir. rewrite Hd, bind_Some_l, free_tables_foldl.
  change (free_page (foldl free_page s (tabs es)) dir) with
    (foldl free_page (foldl free_page s (tabs es)) [dir]). rewrite <-foldl_app.
  assert (Hl : forall p, p ∈ tabs es ++ [dir] <-> own s dir p).
  { intros p. rewrite elem_of_app, list_elem_of_singleton, (elem_of_tabs s dir es) by done.
    unfold own. tauto. }
  destruct (free_pages_spec (tabs es ++ [dir]) s) as (Hh & Hc & Ht & Hu & Hm).
  - apply Hwf.
  - apply NoDup_app. split_and!; [by eapply tabs_NoDup| |apply NoDup_singleton].
    intros p Hp Hp'. apply list_elem_of_singleton in Hp' as ->.
    apply (elem_of_tabs s dir es) in Hp as [i Hi]; [|done..].
    destruct (pw_entry s Hwf _ _ _ Hi) as [_ [ts Hts]].
    rewrite (get_dir_not_table _ _ _ Hd) in Hts. done.
  - apply Forall_forall. intros p Hp. apply Hl in Hp. by eapply own_page.
  - eexists. split; [done|]. set (s' := foldl _ _ _) in *.
    assert (Hu' : forall q, al_used (ps_heap s') q <->
      al_used (ps_heap s) q /\ ~ exists p, own s dir p /\ q = p / 4096).
    { intros q. rewrite Hu. by setoid_rewrite Hl. }
    assert (Ho' : forall p, own s dir p -> ps_mem s' !! p = None).
    { intros p Hp. rewrite Hm. apply Hl in Hp. by case_decide. }
    assert (Hm' : forall p, ~ own s dir p -> ps_mem s' !! p = ps_mem s !! p).
    { intros p Hp. rewrite Hm. rewrite <-Hl in Hp. by case_decide. }
    destruct (remove_dir_wf s s' dir es) as [Hwf' Htr]; try done.
Qed.

(** ** Building a directory *)

(** [s1] is [s] with a fresh empty directory. *)
Record fresh_dir_post (s s1 : pstate) (dir : Z) : Prop := {
  fr_wf : pages_wf s1;
  fr_dir : get_dir s1 dir = Some zero_dir;
  fr_none : ps_mem s !! dir = None;
  fr_unused : ~ al_used (ps_heap s) (dir / 4096);
  fr_mem : ps_mem s1 = <[dir := PDir zero_dir]> (ps_mem s);
  fr_own p : own s1 dir p <-> p = dir;
  fr_used q : al_used (ps_heap s1) q <-> al_used (ps_heap s) q \/ q = dir / 4096;
  fr_tr d vp : d <> dir -> translate s1 d vp = translate s d vp }.

Lemma zero_dir_entry i e : zget zero_dir i = Some e -> d_present e = 0.
Proof.
  unfold zero_dir, zget. zcase; [|done]. intros Hi. by apply lookup_replicate in Hi as [-> _].
Qed.

Lemma fresh_dir s dir h :
  pages_wf s -> al_malloc (ps_heap s) 4096 = (dir, h) -> dir <> NULL ->
  fresh_dir_post s (put_dir (set_heap s h) dir zero_dir) dir.
Proof.
  intros Hwf Em Hne.
  destruct (al_malloc_ok (ps_heap s) 4096 dir h) as (Hh & Hal & Hpos & Hmax & Hnew & Hused);
    [apply Hwf|lia|done|done|]. change (pages 4096) with 1 in *.
  assert (Hu : ~ al_used (ps_heap s) (dir / 4096)) by (apply Hnew; lia).
  assert (Hfresh : ps_mem s !! dir = None).
  { destruct (ps_mem s !! dir) eqn:E; [|done]. by destruct (pw_used s Hwf _ _ E). }
  set (s1 := put_dir _ _ _).
  assert (Hgd : forall d, get_dir s1 d = if decide (dir = d) then Some zero_dir else get_dir s d).
  { intros d. unfold s1. by rewrite get_dir_put_dir. }
  assert (Hgt : forall t, get_table s1 t = get_table s t).
  { intros t. unfold s1. rewrite get_table_put_dir; [done|]. unfold get_table. simpl.
    by rewrite Hfresh. }
  assert (Hto : forall d i, tab_of s1 d i = if decide (d = dir) then None else tab_of s d i).
  { intros d i. unfold tab_of. rewrite Hgd. repeat case_decide; try congruence; try done.
    simpl. destruct (zget zero_dir i) as [e|] eqn:E; [|done]. simpl.
    by rewrite (zero_dir_entry i e E). }
  constructor; try done.
  - constructor.
    + done.
    + intros p pg Hp. simpl in *. rewrite Hused. apply lookup_insert_Some in Hp as [[<- _]|[_ Hp]].
      * split_and!; [right; lia|done|lia|lia].
      * destruct (pw_used s Hwf _ _ Hp) as (? & ? & ?). split_and!; [by left|done|lia..].
    + intros d es. rewrite Hgd. case_decide; [by intros [= <-]|apply Hwf].
    + intros t ts. rewrite Hgt. apply Hwf.
    + intros d i t. rewrite Hto, Hgt. case_decide; [done|]. apply Hwf.
    + intros d1 i1 d2 i2 t. rewrite !Hto. repeat case_decide; try done. apply Hwf.
  - rewrite Hgd. by case_decide.
  - intros p. unfold own. split; [|by left]. intros [?|[i Hi]]; [done|].
    rewrite Hto in Hi. by case_decide.
  - intros q. simpl. rewrite Hused. split; intros [?|?]; try (by left); right; lia.
  - intros d vp Hn. unfold translate. rewrite Hto. case_decide; [done|].
    destruct (tab_of s d (vp / 1024)); [|done]. simpl. by rewrite Hgt.
Qed.

Lemma page_set_memtype_spec s dir es vaddr size pi :
  pages_wf s -> get_dir s dir = Some es -> is_u32 vaddr ->
  exists b s', page_set_memtype s dir vaddr size pi = Some (b, s') /\
    pages_wf s' /\ is_Some (get_dir s' dir) /\ extends dir s s' /\
    ps_current s' = ps_current s /\ ps_tlb s' = ps_tlb s /\
    (forall d vp, same_mapping (translate s d vp) (translate s' d vp)).
Proof.
  intros Hwf Hd Hv. unfold page_set_memtype. zcase; [|by eapply memtype_loop_spec].
  exists false, s. split_and!; try done; [by eapply extends_refl|intros; apply same_mapping_refl].
Qed.

Lemma same_mapping_tlb s s' :
  tlb_coherent s -> ps_current s' = ps_current s -> ps_tlb s' = ps_tlb s ->
  (forall vp, same_mapping (translate s (ps_current s) vp) (translate s' (ps_current s) vp)) ->
  tlb_coherent s'.
Proof.
  intros Hc Hcur Htlb Hs vp t Ht. rewrite Htlb in Ht. destruct (Hc vp t Ht) as (t1 & Ht1 & ? & ? & ?).
  specialize (Hs vp). rewrite Ht1 in Hs. rewrite Hcur.
  destruct (translate s' (ps_current s) vp) as [t2|]; [|done]. simpl in Hs.
  destruct_and!. exists t2. split_and!; [done|congruence..].
Qed.

Record new_page_post (s s' : pstate) (dir fb fb_size : Z) : Prop := {
  np_wf : pages_wf s';
  np_cur : ps_current s' = ps_current s;
  np_tlb : tlb_coherent s -> is_Some (get_dir s (ps_current s)) \/ ps_current s = NULL ->
    tlb_coherent s';
  np_fail : dir = NULL ->
    (forall q, al_used (ps_heap s') q <-> al_used (ps_heap s) q) /\ ps_mem s' = ps_mem s;
  np_new : dir <> NULL -> ps_mem s !! dir = None /\ is_Some (get_dir s' dir);
  np_made : dir <> NULL -> exists s1, fresh_dir_post s s1 dir /\ extends dir s1 s';
  np_kernel vp : dir <> NULL -> kernel_page fb fb_size vp ->
    exists t, translate s' dir vp = Some t /\ address t = vp /\ rw t = 0 /\ user t = 0;
  np_other d vp : is_Some (get_dir s d) ->
    same_mapping (translate s d vp) (translate s' d vp) }.

Lemma extends_dirs s s' dir es d :
  pages_wf s -> get_dir s dir = Some es -> extends dir s s' -> is_Some (get_dir s' dir) ->
  is_Some (get_dir s d) -> is_Some (get_dir s' d).
Proof.
  intros Hwf Hes He Hd' [es' Hd]. destruct (decide (d = dir)) as [->|Hn]; [done|].
  unfold get_dir. rewrite (ex_mem _ _ _ He); [unfold get_dir in Hd; by rewrite Hd|].
  intros Ho. destruct (own_dec s dir d) as [Hos|Hos].
  - destruct Hos as [?|[i Hi]]; [done|]. destruct (pw_entry s Hwf _ _ _ Hi) as [_ [ts Hts]].
    by rewrite (get_dir_not_table _ _ _ Hd) in Hts.
  - destruct (ex_new _ _ _ He d Ho Hos) as [Hm _]. unfold get_dir in Hd. by rewrite Hm in Hd.
Qed.

Lemma map_one_kernel t vp :
  mapped_to t (vp * 4096) 0 0 0 -> address t = vp /\ rw t = 0 /\ user t = 0.
Proof. intros (_ & Ha & Hr & Hu & _). rewrite Z.div_mul in Ha by lia. done. Qed.

(** The three identity ranges, one after another. *)
Lemma kernel_ranges_spec s dir es fb fb_size :
  pages_wf s -> get_dir s dir = Some es -> 0 <= fb -> 0 <= fb_size -> fb + fb_size + 4095 < 2 ^ 32 ->
  exists ok s', (
    '(ok, s) ← identity_map s dir (KERNEL_START / 4096) (KERNEL_END / 4096) 0 0 true;
    '(ok, s) ← identity_map s dir (HEAP_KERNEL / 4096) (HEAP_KERNEL_END / 4096) 0 0 ok;
    identity_map s dir (fb / 4096) (u32 (fb + fb_size + 4095) / 4096) 0 0 ok) = Some (ok, s') /\
    pages_wf s' /\ is_Some (get_dir s' dir) /\ extends dir s s' /\
    ps_current s' = ps_current s /\ (tlb_coherent s -> tlb_coherent s') /\
    (forall d vp, d <> dir -> translate s' d vp = translate s d vp) /\
    (ok = true -> forall vp, kernel_page fb fb_size vp ->
       exists t, translate s' dir vp = Some t /\ address t = vp /\ rw t = 0 /\ user t = 0).
Proof.
  intros Hwf Hd Hfb Hsz Hmax. unfold identity_map. rewrite u32_id by lia.
  change (KERNEL_START / 4096) with 4096. change (KERNEL_END / 4096) with 4192.
  change (HEAP_KERNEL / 4096) with 4192. change (HEAP_KERNEL_END / 4096) with 12384.
  set (f0 := fb / 4096). set (f1 := (fb + fb_size + 4095) / 4096).
  assert (Hf : 0 <= f0 <= f1 /\ f1 < 2 ^ 20) by (unfold f0, f1; Z.div_mod_to_equations; lia).
  set (n1 := Z.to_nat (4192 - 4096)). set (n2 := Z.to_nat (12384 - 4192)).
  set (n3 := Z.to_nat (f1 - f0)).
  assert (Hn : Z.of_nat n1 = 96 /\ Z.of_nat n2 = 8192 /\ Z.of_nat n3 = f1 - f0)
    by (unfold n1, n2, n3; lia). clearbody n1 n2 n3.
  destruct (identity_loop_spec n1 s dir es 4096 0 0 true)
    as (b1 & s1 & -> & Hw1 & [es1 Hd1] & Hx1 & Hc1 & Ht1 & Hne1 & Hat1); [done..|lia|lia|].
  rewrite bind_Some_l.
  destruct (identity_loop_spec n2 s1 dir es1 4192 0 0 b1)
    as (b2 & s2 & -> & Hw2 & [es2 Hd2] & Hx2 & Hc2 & Ht2 & Hne2 & Hat2); [done..|lia|lia|].
  rewrite bind_Some_l.
  destruct (identity_loop_spec n3 s2 dir es2 f0 0 0 b2)
    as (b3 & s3 & -> & Hw3 & Hd3 & Hx3 & Hc3 & Ht3 & Hne3 & Hat3); [done..|lia|lia|].
  exists b3, s3. split_and!; try done.
  - eapply extends_trans; [done|]. by eapply extends_trans.
  - congruence.
  - auto.
  - intros d vp Hn0. rewrite Hne3, Hne2, Hne1; [done|tauto..].
  - intros ->. destruct (Hat3 eq_refl) as [-> H3]. destruct (Hat2 eq_refl) as [-> H2].
    destruct (Hat1 eq_refl) as [_ H1]. intros vp Hk.
    assert (Hcases : exists t, translate s3 dir vp = Some t /\ mapped_to t (vp * 4096) 0 0 0).
    { destruct (decide (f0 <= vp < f1)) as [?|Hf3]; [apply H3; lia|].
      rewrite Hne3 by lia. destruct (decide (4192 <= vp < 12384)); [apply H2; lia|].
      rewrite Hne2 by lia. destruct Hk as [Hk|[Hk|Hk]]; [|exfalso|exfalso].
      - apply H1. revert Hk. change (KERNEL_START / 4096) with 4096.
        change (KERNEL_END / 4096) with 4192. lia.
      - revert Hk. change (HEAP_KERNEL / 4096) with 4192.
        change (HEAP_KERNEL_END / 4096) with 12384. lia.
      - by apply Hf3. }
    destruct Hcases as (t & Ht & Hm). exists t. split; [done|]. by apply map_one_kernel.
Qed.

(** A discarded directory gives back everything it took. *)
Lemma discard_restores s s1 s2 s3 dir :
  pages_wf s -> fresh_dir_post s s1 dir -> extends dir s1 s2 -> free_dir_post s2 s3 dir ->
  (forall q, al_used (ps_heap s3) q <-> al_used (ps_heap s) q) /\ ps_mem s3 = ps_mem s.
Proof.
  intros Hwf [_ Hd1 Hnone Hun Hm1 Ho1 Hu1 _] [Hm2 Ho2 Hn2 Hu2] [_ _ _ Hu3 Ho3 Hm3 _].
  assert (Hfresh : forall p, own s2 dir p -> ps_mem s !! p = None /\ ~ al_used (ps_heap s) (p / 4096)).
  { intros p Hp. destruct (decide (p = dir)) as [->|Hn]; [done|].
    destruct (Hn2 p Hp) as [Hmp Hup]; [by rewrite Ho1|].
    rewrite Hm1, lookup_insert_ne in Hmp by done. split; [done|]. intros Hu. apply Hup, Hu1. by left. }
  split.
  - intros q. rewrite Hu3, Hu2, Hu1. split.
    + intros [[[?| -> ]|?] Hno]; [done| |done]. exfalso. apply Hno. exists dir.
      split; [by left|done].
    + intros Hq. split; [by left; left|]. intros (p & Hp & ->). by apply (Hfresh p Hp).
  - apply map_eq. intros p. destruct (own_dec s2 dir p) as [Ho|Ho].
    + rewrite Ho3 by done. symmetry. by apply Hfresh.
    + rewrite Hm3, Hm2, Hm1 by done. apply lookup_insert_ne. intros ->. apply Ho. by left.
Qed.

Lemma bind3_assoc {X : Type} (a : option (bool * pstate))
    (f g : bool -> pstate -> option (bool * pstate)) (k : bool -> pstate -> option X) :
  ('(o, s) ← a; '(o, s) ← f o s; '(o, s) ← g o s; k o s) =
  ('(o, s) ← ('(o, s) ← a; '(o, s) ← f o s; g o s); k o s).
Proof. destruct a as [[o0 s0]|]; [|done]. simpl. by destruct (f o0 s0) as [[o3 s3]|]. Qed.

Lemma new_page_spec s fb fb_size :
  pages_wf s -> 0 <= fb -> 0 <= fb_size -> fb + fb_size + 4095 < 2 ^ 32 ->
  exists dir s', new_page s fb fb_size = Some (dir, s') /\ new_page_post s s' dir fb fb_size.
Proof.
  intros Hwf Hfb Hsz Hmax. unfold new_page.
  destruct (al_malloc (ps_heap s) 4096) as [dir h] eqn:Em. zcase_on (dir =? NULL).
  { exists NULL, s. split; [done|]. constructor; try done. intros. apply same_mapping_refl. }
  pose proof (fresh_dir s dir h Hwf Em Hc) as Hfr. set (s1 := put_dir _ _ _) in *.
  destruct (kernel_ranges_spec s1 dir zero_dir fb fb_size) as
    (ok & s2 & Hr & Hw2 & [es2 Hd2] & Hx2 & Hc2 & Ht2 & Hne2 & Hat2); [apply Hfr|apply Hfr|done..|].
  rewrite bind3_assoc, Hr, bind_Some_l. clear Hr.
  destruct (page_set_memtype_spec s2 dir es2 fb fb_size 1) as
    (b3 & s3 & -> & Hw3 & [es3 Hd3] & Hx3 & Hc3 & Ht3 & Hsm); [done|done|unfold is_u32; lia|].
  rewrite bind_Some_l.
  assert (Hx : extends dir s1 s3) by by eapply extends_trans.
  assert (Hdn : forall d, is_Some (get_dir s d) -> d <> dir).
  { intros d [es Hd] ->. unfold get_dir in Hd. by rewrite (fr_none _ _ _ Hfr) in Hd. }
  assert (Hoth : forall d vp, d <> dir -> same_mapping (translate s d vp) (translate s3 d vp)).
  { intros d vp Hn. rewrite <-(fr_tr _ _ _ Hfr), <-Hne2 by done. apply Hsm. }
  assert (Htlb : tlb_coherent s -> is_Some (get_dir s (ps_current s)) \/ ps_current s = NULL ->
    ps_current s <> dir /\ tlb_coherent s3).
  { intros Hco Hcur. assert (ps_current s <> dir) as Hcn
      by (destruct Hcur as [?| ->]; [by apply Hdn|done]). split; [done|].
    apply (same_mapping_tlb s2); [|done|done|intros; apply Hsm]. apply Ht2.
    apply (tlb_other s); [done|done|done|]. intros vp _. by apply (fr_tr _ _ _ Hfr). }
  assert (Hcur : ps_current s3 = ps_current s) by (rewrite Hc3, Hc2; done).
  destruct ok.
  - exists dir, s3. split; [done|]. constructor; try done.
    + intros Hco Hcu. by apply (Htlb Hco Hcu).
    + intros _. split; [apply Hfr|]. by rewrite Hd3.
    + intros _. by exists s1.
    + intros vp _ Hk. destruct (Hat2 eq_refl vp Hk) as (t & Ht & Ha & Hrw & Hus).
      specialize (Hsm dir vp). rewrite Ht in Hsm.
      destruct (translate s3 dir vp) as [t'|]; [|done]. simpl in Hsm. destruct_and!.
      exists t'. split_and!; [done|congruence..].
    + auto.
  - destruct (free_page_dir_spec s3 dir es3 Hw3 Hd3) as (s4 & -> & Hfd). rewrite bind_Some_l.
    exists NULL, s4. split; [done|]. pose proof Hfd as [? Hc4 Ht4 _ _ _ Htr4]. constructor; try done.
    + congruence.
    + intros Hco Hcu. destruct (Htlb Hco Hcu) as [Hcn Hco3].
      apply (tlb_other s3); [done|done|done|]. intros vp _. apply Htr4. congruence.
    + intros _. by eapply discard_restores.
    + intros d vp Hd. rewrite Htr4 by auto. auto.
Qed.

(** ** Histories *)

(** What holds in every reachable state. *)
Record paging_inv (s : pstate) : Prop := {
  pi_wf : pages_wf s;
  pi_tlb : tlb_coherent s;
  pi_cur : is_Some (get_dir s (ps_current s)) \/ ps_current s = NULL }.

Lemma paging_inv_extends s s' dir :
  paging_inv s -> is_Some (get_dir s dir) -> pages_wf s' -> extends dir s s' ->
  is_Some (get_dir s' dir) -> ps_current s' = ps_current s -> tlb_coherent s' -> paging_inv s'.
Proof.
  intros [Hwf _ Hcur] [es Hd] Hw He Hd' Hc Ht. constructor; [done|done|]. rewrite Hc.
  destruct Hcur as [Hcur|?]; [left|by right]. by eapply (extends_dirs s s' dir es).
Qed.

Lemma new_page_dirs s s' dir fb fb_size d :
  pages_wf s -> 0 <= fb -> 0 <= fb_size -> fb + fb_size + 4095 < 2 ^ 32 ->
  new_page s fb fb_size = Some (dir, s') -> is_Some (get_dir s d) -> is_Some (get_dir s' d).
Proof.
  intros Hwf Hfb Hsz Hmax Hn [es Hd].
  assert (Hne : get_dir s d <> None) by congruence.
  revert Hn. unfold new_page. destruct (al_malloc (ps_heap s) 4096) as [p h] eqn:Em.
  zcase; [by intros [= <- <-]|]. pose proof (fresh_dir s p h Hwf Em Hc) as Hfr.
  set (s1 := put_dir _ _ _) in *.
  assert (Hdp : d <> p).
  { intros ->. unfold get_dir in Hd. by rewrite (fr_none _ _ _ Hfr) in Hd. }
  assert (Hd1 : is_Some (get_dir s1 d)).
  { unfold s1. rewrite get_dir_put_dir. case_decide; [done|]. exact (mk_is_Some _ _ Hd). }
  destruct (kernel_ranges_spec s1 p zero_dir fb fb_size) as
    (ok & s2 & Hr & Hw2 & [es2 Hd2] & Hx2 & Hc2 & Ht2 & _); [apply Hfr|apply Hfr|done..|].
  rewrite bind3_assoc, Hr, bind_Some_l. clear Hr.
  destruct (page_set_memtype_spec s2 p es2 fb fb_size 1) as
    (b3 & s5 & -> & Hw5 & [es5 Hd5] & Hx5 & Hc5 & Ht5 & Hsm); [done|done|unfold is_u32; lia|].
  rewrite bind_Some_l.
  assert (Hd5' : is_Some (get_dir s5 d)).
  { eapply (extends_dirs s2); [done|done|done|by rewrite Hd5|].
    eapply (extends_dirs s1); [apply Hfr|apply Hfr|done|by rewrite Hd2|done]. }
  destruct ok; [by intros [= _ <-]|].
  destruct (free_page_dir_spec s5 p es5 Hw5 Hd5) as (s6 & -> & Hfd). rewrite bind_Some_l.
  intros [= _ <-]. destruct Hd5' as [es6 Hd6]. unfold get_dir. rewrite (fd_mem _ _ _ Hfd).
  - unfold get_dir in Hd6. by rewrite Hd6.
  - intros [?|[i Hi]]; [done|]. destruct (pw_entry s5 Hw5 _ _ _ Hi) as [_ [ts Hts]].
    by rewrite (get_dir_not_table _ _ _ Hd6) in Hts.
Qed.

Lemma pstep_inv s s' : paging_inv s -> pstep s s' -> paging_inv s'.
Proof.
  intros Hi Hs. pose proof Hi as [Hwf Htlb Hcur].
  destruct Hs as [dir addr vaddr u w nc b s' [es Hd] Ha Hv E|dir vaddr b s' [es Hd] Hv E
    |dir vaddr size pi b s' [es Hd] Hv E|fb sz dir s' Hfb Hsz Hmax E|dir s' [es Hd] Hne E
    |dir Hd|vp t Ht].
  - destruct (map_spec s dir es addr vaddr u w nc) as (b' & s1 & E' & Hp); [done..|].
    rewrite E in E'. injection E' as <- <-. destruct b; [|by subst].
    destruct Hp. eapply (paging_inv_extends s _ dir); [done|by rewrite Hd|done..|auto].
  - destruct (unmap_spec s dir es vaddr) as (s1 & E' & Hp); [done..|].
    rewrite E in E'. injection E' as _ <-.
    destruct Hp. eapply (paging_inv_extends s _ dir); [done|by rewrite Hd|done..|auto].
  - destruct (page_set_memtype_spec s dir es vaddr size pi)
      as (b' & s1 & E' & ? & ? & ? & Hc & Ht & Hsm); [done..|].
    rewrite E in E'. injection E' as _ <-.
    eapply (paging_inv_extends s _ dir); [done|by rewrite Hd|done..|]. by eapply same_mapping_tlb.
  - destruct (new_page_spec s fb sz) as (dir' & s1 & E' & Hp); [done..|].
    rewrite E in E'. injection E' as <- <-. constructor; [apply Hp|by apply (np_tlb _ _ _ _ _ Hp)|].
    rewrite (np_cur _ _ _ _ _ Hp). destruct Hcur as [Hcur|?]; [left|by right].
    exact (new_page_dirs s s' dir fb sz _ Hwf Hfb Hsz Hmax E Hcur).
  - destruct (free_page_dir_spec s dir es) as (s1 & E' & Hp); [done..|].
    rewrite E in E'. injection E' as <-. destruct Hp as [? Hc Ht ? ? Hm Htr].
    constructor; [done| |].
    + apply (tlb_other s); [done..|]. intros vp _. by apply Htr.
    + rewrite Hc. destruct Hcur as [[es' Hcur]|?]; [left|by right]. unfold get_dir.
      rewrite Hm; [unfold get_dir in Hcur; by rewrite Hcur|]. intros [?|[i Hii]]; [by apply Hne|].
      destruct (pw_entry s Hwf _ _ _ Hii) as [_ [ts Hts]].
      by rewrite (get_dir_not_table _ _ _ Hcur) in Hts.
  - constructor; [by destruct Hwf; constructor| |by left]. intros vp t Ht. simpl in Ht.
    by rewrite lookup_empty in Ht.
  - constructor; [by destruct Hwf; constructor| |done]. intros vp' t' Ht'. simpl in Ht'.
    apply lookup_insert_Some in Ht' as [[<- <-]|[_ Ht']]; [by exists t|].
    by apply Htlb.
Qed.

(** Before the first directory exists. *)
Definition paging_boot (h : H) (pat_ok : bool) : pstate := PState h ∅ NULL NULL pat_ok ∅.

Lemma paging_boot_inv h pat_ok : al_wf h -> paging_inv (paging_boot h pat_ok).
Proof.
  intros Hh. constructor; [|by intros vp t Ht; simpl in Ht; rewrite lookup_empty in Ht|by right].
  constructor; simpl; [done|..].
  - intros p pg Hp. by rewrite lookup_empty in Hp.
  - intros d es. unfold get_dir. simpl. by rewrite lookup_empty.
  - intros t ts. unfold get_table. simpl. by rewrite lookup_empty.
  - intros d i t. unfold tab_of, get_dir. simpl. by rewrite lookup_empty.
  - intros d1 i1 d2 i2 t. unfold tab_of, get_dir. simpl. by rewrite lookup_empty.
Qed.

(** The number of pages [map_size] and [unmap_size] visit. *)
Lemma range_count a e : 0 <= a <= e ->
  Z.of_nat (Z.to_nat ((e * 4096 - a * 4096) / PAGE_SIZE)) = e - a.
Proof.
  intros. unfold PAGE_SIZE. replace (e * 4096 - a * 4096) with ((e - a) * 4096) by lia.
  rewrite Z.div_mul by lia. lia.
Qed.

End paging.

#[global] Arguments pstate H : clear implicits.

(** The state of the witnesses: the allocator of Memory, one empty directory. *)
Definition boot0 : pstate heap := paging_boot heap_init true.
Definition boot1 : pstate heap :=
  put_dir (set_heap boot0 (snd (malloc heap_init 4096))) HEAP_KERNEL zero_dir.

Lemma boot1_fresh : fresh_dir_post boot0 boot1 HEAP_KERNEL.
Proof.
  apply (fresh_dir boot0 HEAP_KERNEL).
  - apply pi_wf, paging_boot_inv. exact heap_init_wf.
  - apply malloc_fst. vm_compute. reflexivity.
  - done.
Qed.

(** ** Theorems *)

Section paging_theorems.
Context {H : Type} `{Allocator H}.

(** C1: in every history of the paging operations, over any allocator, the
    directories never share a table, every paging page belongs to a live
    allocation, and a translation the processor has cached agrees with the
    current directory. *)
Theorem paging_history_sound (h : H) (pat_ok : bool) (s : pstate H) :
  al_wf h -> reach pstep (paging_boot h pat_ok) s -> pages_wf s /\ tlb_coherent s.
Proof.
  intros Hh Hr. assert (paging_inv s) as [? ? _]; [|done]. revert s Hr.
  apply reach_invariant; [by apply paging_boot_inv|]. apply pstep_inv.
Qed.

(** [map_size] maps the pages of a range in order, up to the first page table
    it cannot allocate, and changes no other translation. *)
Theorem map_size_correct (s : pstate H) (dir : Z) (es : list page_dir_entry)
    (phys virt size u w nc : Z) :
  pages_wf s -> get_dir s dir = Some es -> 0 <= phys -> 0 <= virt < 2 ^ 32 -> 0 <= size ->
  phys + size + 4095 < 2 ^ 32 ->
  let n := (phys + size + 4095) / 4096 - phys / 4096 in
  virt / 4096 + n <= 2 ^ 20 ->
  exists k s', map_size s dir phys virt size u w nc = Some (k, s') /\ 0 <= k <= n /\
    pages_wf s' /\
    (forall i, 0 <= i < k -> exists t, translate s' dir (virt / 4096 + i) = Some t /\
       mapped_to t ((phys / 4096 + i) * 4096) u w nc) /\
    agrees_outside s s' dir (virt / 4096) k.
Proof.
  intros Hwf Hd Hp Hv Hs Hmax n Hn. unfold map_size.
  rewrite !page_align_down_spec, u32_id, page_align_up_spec by lia.
  set (p := phys / 4096) in *. set (e := (phys + size + 4095) / 4096) in *.
  set (v := virt / 4096) in *.
  assert (Hpe : 0 <= p <= e /\ e < 2 ^ 20 /\ 0 <= v)
    by (unfold p, e, v; Z.div_mod_to_equations; lia).
  destruct (map_loop_spec (Z.to_nat ((e * 4096 - p * 4096) / PAGE_SIZE)) s dir es p v e u w nc 0)
    as (k & s' & -> & Hk & Hpost); rewrite ?range_count; try lia; [done..|].
  rewrite range_count in Hk by lia. exists k, s'. destruct Hpost. split_and!; try done; lia.
Qed.

(** [unmap_size] removes every translation of a range and returns how many
    there were. *)
Theorem unmap_size_correct (s : pstate H) (dir : Z) (es : list page_dir_entry) (vaddr size : Z) :
  pages_wf s -> get_dir s dir = Some es -> 0 <= vaddr -> 0 <= size ->
  vaddr + size + 4095 < 2 ^ 32 ->
  let v := vaddr / 4096 in
  let n := (v * 4096 + size + 4095) / 4096 - v in
  exists s', unmap_size s dir vaddr size = Some (mapped_pages s dir v (Z.to_nat n), s') /\
    pages_wf s' /\ (forall vp, v <= vp < v + n -> translate s' dir vp = None) /\
    agrees_outside s s' dir v n /\ (tlb_coherent s -> tlb_coherent s').
Proof.
  intros Hwf Hd Hv Hs Hmax v n. unfold unmap_size. cbv zeta. rewrite page_align_down_spec.
  change (vaddr / 4096) with v. assert (0 <= v /\ v * 4096 <= vaddr)
    by (unfold v; Z.div_mod_to_equations; lia).
  rewrite u32_id, page_align_up_spec by lia.
  set (e := (v * 4096 + size + 4095) / 4096) in *.
  assert (v <= e < 2 ^ 20) by (unfold e; Z.div_mod_to_equations; lia).
  assert (Hn : Z.to_nat ((e * 4096 - v * 4096) / PAGE_SIZE) = Z.to_nat n).
  { apply Nat2Z.inj. rewrite range_count by lia. unfold n. lia. }
  rewrite Hn.
  destruct (unmap_loop_spec (Z.to_nat n) s dir es v e 0) as (s' & -> & Hpost);
    [done|done|lia|unfold n; lia|lia|].
  exists s'. rewrite Z.add_0_l. replace (Z.of_nat (Z.to_nat n)) with n in Hpost by (unfold n; lia).
  by destruct Hpost.
Qed.

(** [new_page] returns a directory with the kernel, its heap and the
    framebuffer mapped one to one for the kernel only; if memory runs out on the
    way it returns NULL and gives back every page it took. *)
Theorem new_page_correct (s : pstate H) (fb fb_size : Z) :
  pages_wf s -> 0 <= fb -> 0 <= fb_size -> fb + fb_size + 4095 < 2 ^ 32 ->
  exists dir s', new_page s fb fb_size = Some (dir, s') /\ pages_wf s' /\
    (dir = NULL -> (forall q, al_used (ps_heap s') q <-> al_used (ps_heap s) q) /\
                   ps_mem s' = ps_mem s) /\
    (dir <> NULL -> forall vp, kernel_page fb fb_size vp ->
       exists t, translate s' dir vp = Some t /\ address t = vp /\ rw t = 0 /\ user t = 0).
Proof.
  intros Hwf ? ? ?. destruct (new_page_spec s fb fb_size) as (dir & s' & E & Hp); [done..|].
  exists dir, s'. destruct Hp. split_and!; try done. auto.
Qed.

(** [page_getphysical] and [page_checkmapping] report the frame and the
    permissions of the last [map] of the page. *)
Theorem map_getphysical (s : pstate H) (dir : Z) (es : list page_dir_entry)
    (addr vaddr u w nc va : Z) (s' : pstate H) :
  pages_wf s -> get_dir s dir = Some es -> is_u32 addr -> is_u32 vaddr ->
  map s dir addr vaddr u w nc = Some (true, s') -> is_u32 va -> va / 4096 = vaddr / 4096 ->
  page_getphysical s' dir va = Some (addr / 4096 * 4096 + va mod 4096) /\
  page_checkmapping s' dir va = Some
    (if truthy (bit u) then (if truthy (bit w) then PAGE_USERRW else PAGE_USERREAD)
     else (if truthy (bit w) then PAGE_KERNELRW else PAGE_KERNELREAD)).
Proof.
  intros Hwf Hd Ha Hv E Hva Hpg. destruct (map_spec s dir es addr vaddr u w nc) as (b & s1 & E' & Hp);
    [done..|]. rewrite E in E'. injection E' as <- <-.
  destruct Hp as [Hw [es' Hd'] _ _ (t & Ht & _ & Hta & Htw & Htu & _) _ _ _].
  rewrite (page_getphysical_spec s' dir es'), (page_checkmapping_spec s' dir es') by done.
  by rewrite Hpg, Ht; simpl; rewrite Hta, Htw, Htu.
Qed.

End paging_theorems.

(** A framebuffer at [0xFD000000]. *)
Definition fb_base : Z := 4244635648.

Lemma boot0_new_page : option_map fst (new_page boot0 fb_base 8192) = Some HEAP_KERNEL.
Proof. vm_compute. reflexivity. Qed.

(** Build a directory and switch to it. *)
Lemma paging_history_sound_witness :
  exists s, new_page boot0 fb_base 8192 = Some (HEAP_KERNEL, s) /\
    pages_wf (swap_pagedir s HEAP_KERNEL) /\ tlb_coherent (swap_pagedir s HEAP_KERNEL).
Proof.
  pose proof boot0_new_page as E.
  assert (Hw : pages_wf boot0) by (apply pi_wf, paging_boot_inv; exact heap_init_wf).
  destruct (new_page_spec boot0 fb_base 8192 Hw) as (dir & s & E' & Hp); [done|done|done|].
  rewrite E' in E. injection E as ->. exists s. split; [exact E'|].
  apply (paging_history_sound heap_init true (swap_pagedir s HEAP_KERNEL)); [exact heap_init_wf|].
  eapply reach_step; [eapply reach_step; [apply reach_refl|]|].
  - by apply (PNew boot0 fb_base 8192 HEAP_KERNEL s).
  - apply PSwap. by apply (np_new _ _ _ _ _ Hp).
Defined.

Lemma map_size_correct_witness :
  exists k s', map_size boot1 HEAP_KERNEL 2097152 2684354560 10000 1 1 0 = Some (k, s') /\
    0 <= k <= 3 /\ pages_wf s'.
Proof.
  destruct (map_size_correct boot1 HEAP_KERNEL zero_dir 2097152 2684354560 10000 1 1 0)
    as (k & s' & E & Hk & Hw & _); try lia.
  - exact (fr_wf _ _ _ boot1_fresh).
  - exact (fr_dir _ _ _ boot1_fresh).
  - vm_compute. discriminate.
  - exists k, s'. split; [exact E|]. split; [exact Hk|exact Hw].
Defined.

Lemma unmap_size_correct_witness :
  exists s', unmap_size boot1 HEAP_KERNEL 2684354560 8192 = Some (0, s') /\ pages_wf s'.
Proof.
  destruct (unmap_size_correct boot1 HEAP_KERNEL zero_dir 2684354560 8192)
    as (s' & E & Hw & _); try lia.
  - exact (fr_wf _ _ _ boot1_fresh).
  - exact (fr_dir _ _ _ boot1_fresh).
  - exists s'. split; [exact E|exact Hw].
Defined.

Lemma new_page_correct_witness :
  exists s' t, new_page boot0 fb_base 8192 = Some (HEAP_KERNEL, s') /\
    translate s' HEAP_KERNEL 4100 = Some t /\ address t = 4100.
Proof.
  pose proof boot0_new_page as E.
  assert (Hw : pages_wf boot0) by (apply pi_wf, paging_boot_inv; exact heap_init_wf).
  destruct (new_page_correct boot0 fb_base 8192 Hw) as (dir & s' & E' & _ & _ & Hk);
    [done|done|done|].
  rewrite E' in E. injection E as ->. destruct (Hk ltac:(done) 4100) as (t & Ht & Ha & _).
  - left. change (4096 <= 4100 < 4192). lia.
  - exists s', t. split; [exact E'|]. split; [exact Ht|exact Ha].
Defined.

Lemma map_getphysical_witness :
  exists s', map boot1 HEAP_KERNEL 2097152 2684354560 1 0 0 = Some (true, s') /\
    page_getphysical s' HEAP_KERNEL 2684354660 = Some 2097252.
Proof.
  destruct (map_spec boot1 HEAP_KERNEL zero_dir 2097152 2684354560 1 0 0)
    as (b & s' & E & _).
  - exact (fr_wf _ _ _ boot1_fresh).
  - exact (fr_dir _ _ _ boot1_fresh).
  - unfold is_u32; lia.
  - unfold is_u32; lia.
  - assert (Hb : option_map fst (map boot1 HEAP_KERNEL 2097152 2684354560 1 0 0) = Some true)
      by (vm_compute; reflexivity).
    rewrite E in Hb. injection Hb as ->. exists s'. split; [exact E|].
    destruct (map_getphysical boot1 HEAP_KERNEL zero_dir 2097152 2684354560 1 0 0
      2684354660 s') as [Hg _].
    + exact (fr_wf _ _ _ boot1_fresh).
    + exact (fr_dir _ _ _ boot1_fresh).
    + unfold is_u32; lia.
    + unfold is_u32; lia.
    + exact E.
    + unfold is_u32; lia.
    + reflexivity.
    + exact Hg.
Defined.
