(* ===== verification/KObj.v ===== *)
(** * Kernel objects, handles and mapped regions (kobj.c, and the process_* part of tasks.c)

    An instance ([kobj_inst_t]) is shared by references ([kobj_ref_t], one per
    handle slot of a process) and by mapped regions ([vm_region_t]). All three
    are nodes allocated from the physical heap, so the state [world] has a map
    from node addresses for each kind; a dangling access is [None]. The hooks of
    the object table that act on other components ([stop_func], [free_func],
    [close_func]) are recorded as events; [connect_func] and [map_func] are
    modelled for the kinds that have one. *)

From S2P Require Import Prelude CString Memory Paging.

Local Open Scope Z_scope.

(** ** The object table *)

Inductive kobj_type := KOBJ_DMA | KOBJ_PCI | KOBJ_SHARED | KOBJ_FILE.

#[global] Instance kobj_type_eq_dec : EqDecision kobj_type.
Proof. solve_decision. Defined.

Definition KOBJ_RIGHT_READ : Z := 2.
Definition KOBJ_RIGHT_WRITE : Z := 4.
Definition KOBJ_RIGHTS_ALL : Z := 4294967295.

Record kobj_t := KobjT {
  default_rights : Z; has_connect : bool; has_stop : bool; has_close : bool;
  has_free : bool; has_map : bool }.

Definition kobjs (t : kobj_type) : kobj_t :=
  match t with
  | KOBJ_DMA => KobjT (Z.lor KOBJ_RIGHT_READ KOBJ_RIGHT_WRITE) false false false true true
  | KOBJ_PCI => KobjT (Z.lor KOBJ_RIGHT_READ KOBJ_RIGHT_WRITE) false true false true true
  | KOBJ_SHARED => KobjT KOBJ_RIGHTS_ALL true false false true true
  | KOBJ_FILE => KobjT KOBJ_RIGHTS_ALL true false false true false
  end.

(** ** State *)

Record kobj_inst := KInst {
  i_uid : Z; i_type : kobj_type; i_data : Z; i_ref_count : Z; i_handle_count : Z;
  i_stopped : bool }.

Record kobj_ref := KRef { r_uid : Z; r_inst : Z; r_rights : Z }.

Record vm_region := VmRegion { v_vaddr : Z; v_inst : Z; v_size : Z; v_flags : Z }.

(** [p_kobj] are the handle slots, [p_regions] the nodes of the region list. *)
Record process := Process {
  p_kobj : list (option Z); p_kobj_count : Z; p_regions : list Z;
  p_no_allocated : Z; p_page_dir : Z }.

Inductive kevent := EStop (inst data : Z) | EFree (inst : Z) (t : kobj_type) (data : Z) | EClose (ref : Z).

Definition PROCESS_MAX_KOBJ : Z := 64.
Definition VM_START : Z := 2684354560.   (* 0xA0000000 *)
Definition VM_END : Z := 3221225472.     (* 0xC0000000 *)
Definition VM_FLAG_WRITE : Z := 1.
Definition VM_FLAG_NO_CACHE : Z := 2.

Definition KOBJ_HANDLE_INDEX (h : Z) : Z := Z.land h 65535.
Definition KOBJ_HANDLE_CHECK (uid : Z) : Z := Z.land uid 32767.

Section kobj.
Context {H : Type} `{Allocator H}.

Record world := World {
  w_pg : pstate H;
  w_insts : gmap Z kobj_inst;
  w_refs : gmap Z kobj_ref;
  w_regs : gmap Z vm_region;
  w_procs : gmap Z process;
  w_kobj_uid : Z;
  w_ref_uid : Z;
  w_log : list kevent }.

Definition with_pg (w : world) x := World x (w_insts w) (w_refs w) (w_regs w) (w_procs w) (w_kobj_uid w) (w_ref_uid w) (w_log w).
Definition with_insts (w : world) x := World (w_pg w) x (w_refs w) (w_regs w) (w_procs w) (w_kobj_uid w) (w_ref_uid w) (w_log w).
Definition with_refs (w : world) x := World (w_pg w) (w_insts w) x (w_regs w) (w_procs w) (w_kobj_uid w) (w_ref_uid w) (w_log w).
Definition with_regs (w : world) x := World (w_pg w) (w_insts w) (w_refs w) x (w_procs w) (w_kobj_uid w) (w_ref_uid w) (w_log w).
Definition with_procs (w : world) x := World (w_pg w) (w_insts w) (w_refs w) (w_regs w) x (w_kobj_uid w) (w_ref_uid w) (w_log w).
Definition with_uids (w : world) a b := World (w_pg w) (w_insts w) (w_refs w) (w_regs w) (w_procs w) a b (w_log w).
Definition with_event (w : world) e := World (w_pg w) (w_insts w) (w_refs w) (w_regs w) (w_procs w) (w_kobj_uid w) (w_ref_uid w) (w_log w ++ [e]).

Definition set_inst (w : world) (p : Z) (i : kobj_inst) : world :=
  with_insts w (<[p := i]> (w_insts w)).

Definition set_proc (w : world) (pid : Z) (p : process) : world :=
  with_procs w (<[pid := p]> (w_procs w)).

Definition kmalloc (w : world) (bytes : Z) : Z * world :=
  let '(p, h) := al_malloc (ps_heap (w_pg w)) bytes in (p, with_pg w (set_heap (w_pg w) h)).

Definition kfree (w : world) (p bytes : Z) : world :=
  with_pg w (set_heap (w_pg w) (al_free (ps_heap (w_pg w)) p bytes)).

Definition SIZEOF_INST : Z := 24.
Definition SIZEOF_REF : Z := 16.
Definition SIZEOF_REGION : Z := 20.

(** ** kobj.c *)

Definition create_kobj_inst (w : world) (t : kobj_type) (data : Z) : Z * world :=
  let '(p, w) := kmalloc w SIZEOF_INST in
  if p =? NULL then (NULL, w)
  else
    let uid := w_kobj_uid w in
    (p, set_inst (with_uids w (u32 (uid + 1)) (w_ref_uid w)) p (KInst uid t data 0 0 false)).

Definition kobj_stop (w : world) (p : Z) : option world :=
  i ← w_insts w !! p;
  if i_stopped i || negb (has_stop (kobjs (i_type i))) then Some w
  else Some (set_inst (with_event w (EStop p (i_data i))) p
               (KInst (i_uid i) (i_type i) (i_data i) (i_ref_count i) (i_handle_count i) true)).

Definition free_kobj_inst (w : world) (p : Z) : option world :=
  w ← kobj_stop w p;
  i ← w_insts w !! p;
  let w := if has_free (kobjs (i_type i)) then with_event w (EFree p (i_type i) (i_data i)) else w in
  Some (with_insts (kfree w p SIZEOF_INST) (delete p (w_insts w))).

Definition add_count (i : kobj_inst) (refs handles : Z) : kobj_inst :=
  KInst (i_uid i) (i_type i) (i_data i) (i_ref_count i + refs) (i_handle_count i + handles)
    (i_stopped i).

Definition kobj_add_ref (w : world) (p : Z) : option world :=
  i ← w_insts w !! p;
  Some (set_inst w p (add_count i 1 0)).

Definition kobj_release_ref (w : world) (p : Z) : option world :=
  i ← w_insts w !! p;
  let w := set_inst w p (add_count i (-1) 0) in
  if i_ref_count i - 1 =? 0 then free_kobj_inst w p else Some w.

(** The uid of a reference is never one whose check bits are blank. *)
Definition next_ref_uid (w : world) : Z * world :=
  let uid := w_ref_uid w in
  let w := with_uids w (w_kobj_uid w) (u32 (uid + 1)) in
  if KOBJ_HANDLE_CHECK uid =? 0 then
    let uid := w_ref_uid w in
    (uid, with_uids w (w_kobj_uid w) (u32 (uid + 1)))
  else (uid, w).

Definition create_kobj_ref (w : world) (inst : Z) : option (Z * world) :=
  let '(r, w) := kmalloc w SIZEOF_REF in
  if r =? NULL then Some (NULL, w)
  else
    w ← kobj_add_ref w inst;
    i ← w_insts w !! inst;
    let w := set_inst w inst (add_count i 0 1) in
    let '(uid, w) := next_ref_uid w in
    Some (r, with_refs w (<[r := KRef uid inst (default_rights (kobjs (i_type i)))]> (w_refs w))).

Definition kobj_release (w : world) (r : Z) : option (bool * world) :=
  if r =? NULL then Some (false, w)
  else
    ref ← w_refs w !! r;
    let inst := r_inst ref in
    if inst =? NULL then Some (false, w)
    else
      i ← w_insts w !! inst;
      let w := if has_close (kobjs (i_type i)) then with_event w (EClose r) else w in
      let w := set_inst w inst (add_count i 0 (-1)) in
      w ← (if i_handle_count i - 1 =? 0 then kobj_stop w inst else Some w);
      w ← kobj_release_ref w inst;
      Some (true, with_refs (kfree w r SIZEOF_REF) (delete r (w_refs w))).

(** ** Handles *)

(** The reference of a valid handle, NULL otherwise. *)
Definition process_get_kobj (w : world) (p : process) (h : Z) : option Z :=
  if h <? 0 then Some NULL
  else
    let index := KOBJ_HANDLE_INDEX h in
    if PROCESS_MAX_KOBJ <=? index then Some NULL
    else
      slot ← zget (p_kobj p) index;
      match slot with
      | None => Some NULL
      | Some r =>
          ref ← w_refs w !! r;
          if r_inst ref =? NULL then Some NULL
          else if negb (Z.shiftr h 16 =? KOBJ_HANDLE_CHECK (r_uid ref)) then Some NULL
          else Some r
      end.

Definition process_get_kobj_type (w : world) (p : process) (h : Z) (t : kobj_type) : option Z :=
  r ← process_get_kobj w p h;
  if r =? NULL then Some NULL
  else
    ref ← w_refs w !! r;
    i ← w_insts w !! r_inst ref;
    if decide (i_type i = t) then Some r else Some NULL.

(** [while(h < PROCESS_MAX_KOBJ && process->kobj[h]) h++] *)
Fixpoint first_free_slot (l : list (option Z)) (h : Z) : Z :=
  match l with
  | Some _ :: l => if h <? PROCESS_MAX_KOBJ then first_free_slot l (h + 1) else h
  | _ => h
  end.

Definition process_acquire_kobj (w : world) (pid inst : Z) : option (Z * world) :=
  p ← w_procs w !! pid;
  let h := first_free_slot (p_kobj p) 0 in
  if h =? PROCESS_MAX_KOBJ then Some (-1, w)
  else
    '(r, w) ← create_kobj_ref w inst;
    if r =? NULL then Some (-1, w)
    else
      ref ← w_refs w !! r;
      p ← w_procs w !! pid;
      Some (Z.lor h (Z.shiftl (KOBJ_HANDLE_CHECK (r_uid ref)) 16),
            set_proc w pid (Process (zset (p_kobj p) h (Some r)) (p_kobj_count p + 1)
              (p_regions p) (p_no_allocated p) (p_page_dir p))).

Definition clear_slot (w : world) (pid index : Z) : option world :=
  p ← w_procs w !! pid;
  Some (set_proc w pid (Process (zset (p_kobj p) index None) (p_kobj_count p - 1)
          (p_regions p) (p_no_allocated p) (p_page_dir p))).

Definition process_release_kobj (w : world) (pid h : Z) : option (bool * world) :=
  p ← w_procs w !! pid;
  r ← process_get_kobj w p h;
  if r =? NULL then Some (false, w)
  else
    '(ok, w) ← kobj_release w r;
    if negb ok then Some (false, w)
    else
      w ← clear_slot w pid (KOBJ_HANDLE_INDEX h);
      Some (true, w).

(** One pass of [process_release_kobjs]: devices when [device_pass], the rest
    otherwise. *)
Fixpoint release_pass (n : nat) (i : Z) (device_pass : bool) (w : world) (pid : Z) : option world :=
  match n with
  | O => Some w
  | S n =>
      p ← w_procs w !! pid;
      slot ← zget (p_kobj p) i;
      match slot with
      | None => release_pass n (i + 1) device_pass w pid
      | Some r =>
          ref ← w_refs w !! r;
          inst ← w_insts w !! r_inst ref;
          if negb (Bool.eqb (has_stop (kobjs (i_type inst))) device_pass)
          then release_pass n (i + 1) device_pass w pid
          else
            '(ok, w) ← kobj_release w r;
            if negb ok then release_pass n (i + 1) device_pass w pid
            else
              w ← clear_slot w pid i;
              release_pass n (i + 1) device_pass w pid
      end
  end.

Definition process_release_kobjs (w : world) (pid : Z) : option world :=
  w ← release_pass (Z.to_nat PROCESS_MAX_KOBJ) 0 true w pid;
  release_pass (Z.to_nat PROCESS_MAX_KOBJ) 0 false w pid.

(** [shared_connect] and [fs_connect] accept every process. *)
Definition connect_func (t : kobj_type) : bool := true.

Definition process_copy_kobj (w : world) (send receive handle : Z) : option (Z * world) :=
  p ← w_procs w !! send;
  r ← process_get_kobj w p handle;
  if r =? NULL then Some (-1, w)
  else
    ref ← w_refs w !! r;
    i ← w_insts w !! r_inst ref;
    if negb (has_connect (kobjs (i_type i))) then Some (-1, w)
    else
      '(h, w) ← process_acquire_kobj w receive (r_inst ref);
      if h <? 0 then Some (-2, w)
      else if connect_func (i_type i) then Some (h, w)
      else
        '(_, w) ← process_release_kobj w receive h;
        Some (-1, w).

(** ** Regions *)

Definition u32_sub (a b : Z) : Z := u32 (a - b).

(** The gap search of [process_alloc_vm]: the address, and how many regions lie
    below it. *)
Fixpoint vm_gap (w : world) (size vmem : Z) (l : list Z) (n : nat) : option (Z * nat) :=
  match l with
  | [] => Some (vmem, n)
  | p :: l =>
      r ← w_regs w !! p;
      if size <=? u32_sub (v_vaddr r) vmem then Some (vmem, n)
      else vm_gap w size (u32 (v_vaddr r + v_size r)) l (S n)
  end.

(** The node of the new region, NULL if there is no room. *)
Definition process_alloc_vm (w : world) (pid size flags inst : Z) : option (Z * world) :=
  if size =? 0 then Some (NULL, w)
  else
    let size := page_align_up size in
    p ← w_procs w !! pid;
    '(vmem, n) ← vm_gap w size VM_START (p_regions p) 0;
    let vend := u32 (vmem + size) in
    if (vend <? VM_START) || (VM_END <? vend) then Some (NULL, w)
    else
      let '(node, w) := kmalloc w SIZEOF_REGION in
      if node =? NULL then Some (NULL, w)
      else
        let w := with_regs w (<[node := VmRegion vmem inst size flags]> (w_regs w)) in
        w ← kobj_add_ref w inst;
        Some (node, set_proc w pid (Process (p_kobj p) (p_kobj_count p)
          (take n (p_regions p) ++ node :: drop n (p_regions p))
          (p_no_allocated p) (p_page_dir p))).

Definition in_region (r : vm_region) (vaddr : Z) : bool :=
  (v_vaddr r <=? vaddr) && (u32_sub vaddr (v_vaddr r) <? v_size r).

(** The node of the region of [vaddr], with its position in the list. *)
Fixpoint find_vm (w : world) (l : list Z) (vaddr : Z) (n : nat) : option (Z * nat) :=
  match l with
  | [] => Some (NULL, n)
  | p :: l =>
      r ← w_regs w !! p;
      if in_region r vaddr then Some (p, n) else find_vm w l vaddr (S n)
  end.

Definition process_find_vm (w : world) (pid vaddr : Z) : option Z :=
  p ← w_procs w !! pid;
  '(node, _) ← find_vm w (p_regions p) vaddr 0;
  Some node.

Definition process_unmap_vm (w : world) (pid vaddr : Z) : option (bool * world) :=
  p ← w_procs w !! pid;
  '(node, n) ← find_vm w (p_regions p) vaddr 0;
  if node =? NULL then Some (false, w)
  else
    r ← w_regs w !! node;
    '(unmapped, pg) ← unmap_size (w_pg w) (p_page_dir p) (v_vaddr r) (v_size r);
    w ← kobj_release_ref (with_pg w pg) (v_inst r);
    let w := set_proc w pid (Process (p_kobj p) (p_kobj_count p)
      (take n (p_regions p) ++ drop (S n) (p_regions p))
      (p_no_allocated p - unmapped) (p_page_dir p)) in
    Some (true, with_regs (kfree w node SIZEOF_REGION) (delete node (w_regs w))).

Fixpoint free_vm_loop (w : world) (l : list Z) : option world :=
  match l with
  | [] => Some w
  | node :: l =>
      r ← w_regs w !! node;
      w ← kobj_release_ref w (v_inst r);
      free_vm_loop (with_regs (kfree w node SIZEOF_REGION) (delete node (w_regs w))) l
  end.

Definition process_free_vm (w : world) (pid : Z) : option world :=
  p ← w_procs w !! pid;
  w ← free_vm_loop w (p_regions p);
  Some (set_proc w pid (Process (p_kobj p) (p_kobj_count p) [] (p_no_allocated p) (p_page_dir p))).

(** [fs_file_handle]: wrap an open file in an instance with one handle; the file
    is closed on failure, through the [EFree] event. *)
Definition fs_file_handle (w : world) (pid file : Z) : option (Z * world) :=
  let '(inst, w) := create_kobj_inst w KOBJ_FILE file in
  if inst =? NULL then Some (-1, with_event w (EFree NULL KOBJ_FILE file))
  else
    '(h, w) ← process_acquire_kobj w pid inst;
    if h <? 0 then
      w ← free_kobj_inst w inst;
      Some (h, w)
    else Some (h, w).

(** What [map_func] fills in: [None] when there is nothing to map. *)
Record kobj_mapping := KMapping { m_paddr : Z; m_size : Z; m_no_cache : bool }.

Definition process_map_kobj (w : world) (pid ref_ptr : Z) (mapping : option kobj_mapping)
    : option (Z * world) :=
  ref ← w_refs w !! ref_ptr;
  let rw := negb (Z.land (r_rights ref) KOBJ_RIGHT_WRITE =? 0) in
  i ← w_insts w !! r_inst ref;
  if negb (has_map (kobjs (i_type i))) then Some (0, w)
  else
    match mapping with
    | None => Some (0, w)
    | Some m =>
        let flags := Z.lor (if rw then VM_FLAG_WRITE else 0)
                       (if m_no_cache m then VM_FLAG_NO_CACHE else 0) in
        let offset := m_paddr m mod 4096 in
        let size := page_align_up (u32 (m_size m + offset)) in
        '(node, w) ← process_alloc_vm w pid size flags (r_inst ref);
        if node =? NULL then Some (0, w)
        else
          r ← w_regs w !! node;
          p ← w_procs w !! pid;
          '(mapped, pg) ← map_size (w_pg w) (p_page_dir p) (m_paddr m - offset) (v_vaddr r)
                            size 1 (b2z rw) (b2z (m_no_cache m));
          let w := set_proc (with_pg w pg) pid (Process (p_kobj p) (p_kobj_count p) (p_regions p)
                     (p_no_allocated p + mapped) (p_page_dir p)) in
          if negb (mapped =? Z.quot size PAGE_SIZE) then
            '(_, w) ← process_unmap_vm w pid (v_vaddr r);
            Some (0, w)
          else Some (u32 (v_vaddr r + offset), w)
    end.

(** ** Invariants *)

(** [P] are live one-page nodes, apart from the paging structures. *)
Record mem_ok (s : pstate H) (P : Z -> Prop) : Prop := {
  mo_wf : pages_wf s;
  mo_node p : P p -> al_used (ps_heap s) (p / 4096) /\ p mod 4096 = 0 /\ 0 < p /\
    ps_mem s !! p = None }.

Definition node (w : world) (p : Z) : Prop :=
  is_Some (w_insts w !! p) \/ is_Some (w_refs w !! p) \/ is_Some (w_regs w !! p).

(** How many elements of [m] point to [p]. *)
Definition count_by {X} (f : X -> Z) (m : gmap Z X) (p : Z) : Z :=
  Z.of_nat (size (filter (fun kv : Z * X => f kv.2 = p) m)).

Record store_inv (w : world) : Prop := {
  si_mem : mem_ok (w_pg w) (node w);
  si_inst_ref p : is_Some (w_insts w !! p) -> w_refs w !! p = None;
  si_inst_reg p : is_Some (w_insts w !! p) -> w_regs w !! p = None;
  si_ref_reg p : is_Some (w_refs w !! p) -> w_regs w !! p = None;
  si_ref r k : w_refs w !! r = Some k -> is_Some (w_insts w !! r_inst k);
  si_reg r k : w_regs w !! r = Some k -> is_Some (w_insts w !! v_inst k);
  si_count p i : w_insts w !! p = Some i ->
    i_handle_count i = count_by r_inst (w_refs w) p /\
    i_ref_count i = count_by r_inst (w_refs w) p + count_by v_inst (w_regs w) p }.

(** No instance outlives its last reference, and a device whose handles are
    closed has been stopped. *)
Definition live_inst (i : kobj_inst) : Prop :=
  0 < i_ref_count i /\
  (i_handle_count i = 0 -> has_stop (kobjs (i_type i)) = true -> i_stopped i = true).

Definition all_live (w : world) : Prop := map_Forall (fun _ i => live_inst i) (w_insts w).

(** The region nodes [l] are sorted, page aligned and disjoint above [lo]. *)
Fixpoint vm_sorted (w : world) (lo : Z) (l : list Z) : Prop :=
  match l with
  | [] => lo <= VM_END
  | p :: l => exists r, w_regs w !! p = Some r /\ lo <= v_vaddr r /\ 0 < v_size r /\
      v_vaddr r mod 4096 = 0 /\ v_size r mod 4096 = 0 /\ vm_sorted w (v_vaddr r + v_size r) l
  end.

(** Each reference is in one slot of one process, each region in one list. *)
Record procs_inv (w : world) : Prop := {
  pi_slots pid p : w_procs w !! pid = Some p -> zlen (p_kobj p) = PROCESS_MAX_KOBJ;
  pi_slot pid p i r : w_procs w !! pid = Some p -> zget (p_kobj p) i = Some (Some r) ->
    is_Some (w_refs w !! r);
  pi_slot_inj pid1 p1 i1 pid2 p2 i2 r :
    w_procs w !! pid1 = Some p1 -> zget (p_kobj p1) i1 = Some (Some r) ->
    w_procs w !! pid2 = Some p2 -> zget (p_kobj p2) i2 = Some (Some r) -> pid1 = pid2 /\ i1 = i2;
  pi_ref r : is_Some (w_refs w !! r) ->
    exists pid p i, w_procs w !! pid = Some p /\ zget (p_kobj p) i = Some (Some r);
  pi_vm pid p : w_procs w !! pid = Some p -> vm_sorted w VM_START (p_regions p);
  pi_reg_inj pid1 p1 pid2 p2 r :
    w_procs w !! pid1 = Some p1 -> r ∈ p_regions p1 ->
    w_procs w !! pid2 = Some p2 -> r ∈ p_regions p2 -> pid1 = pid2;
  pi_nodup pid p : w_procs w !! pid = Some p -> NoDup (p_regions p);
  pi_reg r : is_Some (w_regs w !! r) ->
    exists pid p, w_procs w !! pid = Some p /\ r ∈ p_regions p;
  pi_dir pid p : w_procs w !! pid = Some p -> is_Some (get_dir (w_pg w) (p_page_dir p)) }.

Record world_inv (w : world) : Prop := {
  wi_store : store_inv w; wi_live : all_live w; wi_procs : procs_inv w }.

(** One operation on the handles or regions of a process. *)
Inductive kstep (w : world) : world -> Prop :=
| KOpen pid file h w' :
    is_Some (w_procs w !! pid) -> fs_file_handle w pid file = Some (h, w') -> kstep w w'
| KRelease pid h b w' :
    is_Some (w_procs w !! pid) -> process_release_kobj w pid h = Some (b, w') -> kstep w w'
| KReleaseAll pid w' :
    is_Some (w_procs w !! pid) -> process_release_kobjs w pid = Some w' -> kstep w w'
| KCopy send receive h h' w' :
    is_Some (w_procs w !! send) -> is_Some (w_procs w !! receive) ->
    process_copy_kobj w send receive h = Some (h', w') -> kstep w w'
| KMap pid r m a w' :
    is_Some (w_procs w !! pid) -> is_Some (w_refs w !! r) ->
    match m with
    | Some m => 0 <= m_paddr m /\ 0 < m_size m /\ m_size m + m_paddr m mod 4096 <= VM_END - VM_START /\
        m_paddr m + m_size m + 12288 < 2 ^ 32
    | None => True
    end ->
    process_map_kobj w pid r m = Some (a, w') -> kstep w w'
| KUnmap pid va b w' :
    is_Some (w_procs w !! pid) -> is_u32 va -> process_unmap_vm w pid va = Some (b, w') -> kstep w w'
| KFreeVm pid w' :
    is_Some (w_procs w !! pid) -> process_free_vm w pid = Some w' -> kstep w w'.

(** ** Counting *)

Implicit Types (w : world).

Lemma count_insert_new {X} (f : X -> Z) (m : gmap Z X) k x p :
  m !! k = None -> count_by f (<[k := x]> m) p = count_by f m p + b2z (bool_decide (f x = p)).
Proof.
  intros Hk. unfold count_by. case_bool_decide as Hx.
  - rewrite map_filter_insert_True by done. rewrite map_size_insert_None; [simpl; lia|].
    apply map_lookup_filter_None. by left.
  - rewrite map_filter_insert_not' by (simpl; congruence). simpl. lia.
Qed.

Lemma count_delete {X} (f : X -> Z) (m : gmap Z X) k x p :
  m !! k = Some x -> count_by f (delete k m) p = count_by f m p - b2z (bool_decide (f x = p)).
Proof.
  intros Hk. rewrite <-(insert_delete_id m k x Hk) at 2.
  rewrite count_insert_new by apply lookup_delete_eq. lia.
Qed.

Lemma count_nonneg {X} (f : X -> Z) (m : gmap Z X) p : 0 <= count_by f m p.
Proof. unfold count_by. lia. Qed.

Lemma count_pos {X} (f : X -> Z) (m : gmap Z X) k x : m !! k = Some x -> 0 < count_by f m (f x).
Proof.
  intros Hk. pose proof (count_delete f m k x (f x) Hk) as E.
  rewrite bool_decide_eq_true_2 in E by done. simpl in E.
  pose proof (count_nonneg f (delete k m) (f x)). lia.
Qed.

Lemma count_zero {X} (f : X -> Z) (m : gmap Z X) p :
  (forall k x, m !! k = Some x -> f x <> p) -> count_by f m p = 0.
Proof.
  intros Hm. unfold count_by. rewrite (proj2 (map_empty_filter _ m)); [done|].
  intros k x Hk. simpl. by apply (Hm k).
Qed.

(** ** Memory of nodes *)

Lemma pages_wf_set_heap (s : pstate H) h :
  pages_wf s -> al_wf h ->
  (forall p pg, ps_mem s !! p = Some pg -> al_used h (p / 4096)) -> pages_wf (set_heap s h).
Proof.
  intros Hwf Hh Hu. pose proof Hwf as [? Hused ? ? ? ?]. constructor; try done.
  intros p pg Hp. destruct (Hused p pg Hp) as (? & ? & ?). split_and!; [by eapply Hu|done|lia..].
Qed.

Lemma mem_ok_sub s (P Q : Z -> Prop) : mem_ok s P -> (forall p, Q p -> P p) -> mem_ok s Q.
Proof. intros [Hwf Hn] Hs. constructor; [done|]. auto. Qed.

Lemma mem_ok_malloc s P n p h :
  mem_ok s P -> 0 < n <= 4096 -> al_malloc (ps_heap s) n = (p, h) -> p <> NULL ->
  ~ P p /\ 0 < p /\ mem_ok (set_heap s h) (fun q => P q \/ q = p).
Proof.
  intros [Hwf Hn] Hr Em Hp.
  destruct (al_malloc_ok (ps_heap s) n p h) as (Hh & Hal & Hpos & Hmax & Hnew & Hused);
    [apply Hwf|lia|done|done|].
  assert (pages n = 1) as Hone by (unfold pages; Z.div_mod_to_equations; lia).
  rewrite Hone in *. assert (Hun : ~ al_used (ps_heap s) (p / 4096)) by (apply Hnew; lia).
  split_and!; [intros Hq; apply Hun; by apply Hn|done|]. constructor.
  - apply pages_wf_set_heap; [done|done|]. intros q pg Hq. apply Hused. left.
    by destruct (pw_used s Hwf q pg Hq).
  - simpl. intros q [Hq| ->].
    + destruct (Hn q Hq) as (? & ? & ? & ?). split_and!; [apply Hused; by left|done..].
    + split_and!; [apply Hused; right; lia|done|done|].
      destruct (ps_mem s !! p) eqn:E; [|done]. by destruct (pw_used s Hwf _ _ E).
Qed.

Lemma aligned_page p q : p mod 4096 = 0 -> q mod 4096 = 0 -> p / 4096 = q / 4096 -> p = q.
Proof. intros. Z.div_mod_to_equations. lia. Qed.

Lemma mem_ok_free s P n p :
  mem_ok s P -> 0 < n <= 4096 -> P p ->
  mem_ok (set_heap s (al_free (ps_heap s) p n)) (fun q => P q /\ q <> p).
Proof.
  intros [Hwf Hn] Hr Hp. destruct (Hn p Hp) as (Hu & Hal & _ & Hm).
  assert (pages n = 1) as Hone by (unfold pages; Z.div_mod_to_equations; lia).
  destruct (al_free_ok (ps_heap s) n p) as [Hh Hused]; [apply Hwf|lia|done| |].
  { intros q Hq. rewrite Hone in Hq. by replace q with (p / 4096) by lia. }
  rewrite Hone in Hused.
  assert (Hkeep : forall q, al_used (ps_heap s) (q / 4096) -> q mod 4096 = 0 -> q <> p ->
    al_used (al_free (ps_heap s) p n) (q / 4096)).
  { intros q Hq Hqa Hne. apply Hused. split; [done|]. intros Hr'. apply Hne.
    apply aligned_page; [done|done|lia]. }
  constructor.
  - apply pages_wf_set_heap; [done|done|]. intros q pg Hq.
    destruct (pw_used s Hwf q pg Hq) as (? & ? & _). apply Hkeep; [done|done|]. congruence.
  - simpl. intros q [Hq Hne]. destruct (Hn q Hq) as (? & ? & ? & ?).
    split_and!; [by apply Hkeep|done..].
Qed.

(** The paging operations leave the nodes alone. *)
Lemma mem_ok_extends s s' dir es P :
  mem_ok s P -> get_dir s dir = Some es -> extends dir s s' -> pages_wf s' -> mem_ok s' P.
Proof.
  intros [Hwf Hn] Hd He Hwf'. constructor; [done|]. intros p Hp.
  destruct (Hn p Hp) as (Hu & Hal & Hpos & Hm).
  split_and!; [apply (ex_used _ _ _ He); by left|done|done|].
  rewrite (ex_mem _ _ _ He); [done|]. intros Ho.
  destruct (own_dec s dir p) as [Hos|Hos]; [|by destruct (ex_new _ _ _ He p Ho Hos)].
  destruct Hos as [->|[i Hi]].
  - unfold get_dir in Hd. by rewrite Hm in Hd.
  - destruct (pw_entry s Hwf _ _ _ Hi) as [_ [ts Hts]]. unfold get_table in Hts.
    by rewrite Hm in Hts.
Qed.

Lemma kmalloc_spec w n :
  mem_ok (w_pg w) (node w) -> 0 < n <= 4096 ->
  exists p pg, kmalloc w n = (p, with_pg w pg) /\
    (p = NULL /\ pg = w_pg w \/
     p <> NULL /\ ~ node w p /\ 0 < p /\ mem_ok pg (fun q => node w q \/ q = p) /\
     ps_mem pg = ps_mem (w_pg w)).
Proof.
  intros Hm Hn. unfold kmalloc. destruct (al_malloc (ps_heap (w_pg w)) n) as [p h] eqn:E.
  exists p, (set_heap (w_pg w) h). split; [done|].
  destruct (decide (p = NULL)) as [->|Hp].
  - left. split; [done|]. apply al_malloc_fail in E as ->. by destruct (w_pg w).
  - right. destruct (mem_ok_malloc _ _ _ _ _ Hm Hn E Hp) as (? & ? & ?). done.
Qed.

Lemma with_pg_id w : with_pg w (w_pg w) = w.
Proof. by destruct w. Qed.

(** ** Releasing a reference *)

Definition stop_log (p : Z) (i : kobj_inst) : list kevent :=
  if i_stopped i || negb (has_stop (kobjs (i_type i))) then [] else [EStop p (i_data i)].

Definition stopped_inst (i : kobj_inst) : kobj_inst :=
  KInst (i_uid i) (i_type i) (i_data i) (i_ref_count i) (i_handle_count i)
    (i_stopped i || has_stop (kobjs (i_type i))).

Definition with_log w (l : list kevent) : world :=
  World (w_pg w) (w_insts w) (w_refs w) (w_regs w) (w_procs w) (w_kobj_uid w) (w_ref_uid w) l.

(** [p]'s instance replaced by [i], or freed if [i] has no reference left. *)
Definition settle w (p : Z) (i : kobj_inst) : world :=
  if i_ref_count i =? 0 then
    with_insts (kfree (with_log w (w_log w ++ stop_log p i ++ [EFree p (i_type i) (i_data i)]))
                  p SIZEOF_INST) (delete p (w_insts w))
  else set_inst w p i.

Lemma kobj_stop_eq w p i :
  w_insts w !! p = Some i ->
  kobj_stop w p = Some (set_inst (with_log w (w_log w ++ stop_log p i)) p (stopped_inst i)).
Proof.
  intros Hi. unfold kobj_stop, stop_log, stopped_inst. rewrite Hi. simpl.
  destruct i as [u t d rc hc st]; simpl in *. destruct st, (has_stop (kobjs t)); simpl; try done;
    unfold set_inst, with_insts, with_log; simpl; rewrite app_nil_r, insert_id by done;
    by destruct w.
Qed.

Lemma free_kobj_inst_eq w p i :
  w_insts w !! p = Some i ->
  free_kobj_inst w p = Some (
    with_insts (kfree (with_log w (w_log w ++ stop_log p i ++ [EFree p (i_type i) (i_data i)]))
                  p SIZEOF_INST) (delete p (w_insts w))).
Proof.
  intros Hi. unfold free_kobj_inst. rewrite (kobj_stop_eq w p i Hi). simpl.
  rewrite lookup_insert_eq. simpl. replace (has_free (kobjs (i_type i))) with true by by destruct (i_type i).
  unfold with_insts, kfree, with_pg, with_event, with_log. simpl.
  by rewrite delete_insert_eq, <-app_assoc.
Qed.

Lemma kobj_release_ref_eq w p i :
  w_insts w !! p = Some i -> kobj_release_ref w p = Some (settle w p (add_count i (-1) 0)).
Proof.
  intros Hi. unfold kobj_release_ref, settle. rewrite Hi. simpl.
  replace (i_ref_count i - 1) with (i_ref_count i + -1) by lia. zcase; [|done].
  rewrite (free_kobj_inst_eq _ p (add_count i (-1) 0)) by apply lookup_insert_eq.
  unfold with_insts, kfree, with_pg, set_inst, with_log. simpl. by rewrite delete_insert_eq.
Qed.

(** [kobj_release] closes a handle: the instance as it is after the handle count
    and a possible stop, settled, and the reference gone. *)
Definition closed_inst (i : kobj_inst) : kobj_inst :=
  let i' := add_count i (-1) (-1) in
  if i_handle_count i - 1 =? 0 then stopped_inst i' else i'.

Definition closed_log (p : Z) (i : kobj_inst) : list kevent :=
  if i_handle_count i - 1 =? 0 then stop_log p i else [].

Lemma settle_set w p i j : settle (set_inst w p j) p i = settle w p i.
Proof.
  unfold settle. zcase; unfold with_insts, kfree, with_pg, set_inst, with_log; simpl;
    by rewrite ?delete_insert_eq, ?insert_insert_eq.
Qed.

Lemma settle_same w p i :
  w_refs (settle w p i) = w_refs w /\ w_regs (settle w p i) = w_regs w /\
  w_procs (settle w p i) = w_procs w.
Proof. unfold settle. by zcase. Qed.

Lemma kobj_release_eq w r k i :
  r <> NULL -> w_refs w !! r = Some k -> r_inst k <> NULL -> w_insts w !! r_inst k = Some i ->
  let w1 := settle (with_log w (w_log w ++ closed_log (r_inst k) i)) (r_inst k) (closed_inst i) in
  kobj_release w r = Some (true, with_refs (kfree w1 r SIZEOF_REF) (delete r (w_refs w))).
Proof.
  intros Hr Hk Hki Hi. unfold kobj_release. zcase; [done|]. rewrite Hk. simpl. zcase; [done|].
  rewrite Hi. simpl. replace (has_close (kobjs (i_type i))) with false by by destruct (i_type i).
  assert (Hset : forall a b : world, a = b -> w_refs a = w_refs w ->
    Some (true, with_refs (kfree a r SIZEOF_REF) (delete r (w_refs a))) =
    Some (true, with_refs (kfree b r SIZEOF_REF) (delete r (w_refs w)))).
  { intros a b <- ->. done. }
  unfold closed_inst, closed_log. zcase.
  - erewrite kobj_stop_eq by apply lookup_insert_eq. simpl.
    erewrite kobj_release_ref_eq by apply lookup_insert_eq. simpl.
    apply Hset; [|by rewrite (proj1 (settle_same _ _ _))]. rewrite settle_set.
    change (with_log (set_inst w ?p ?j) ?l) with (set_inst (with_log w l) p j).
    rewrite settle_set. f_equal. unfold add_count, stopped_inst. simpl. f_equal; lia.
  - simpl. erewrite kobj_release_ref_eq by apply lookup_insert_eq. simpl.
    apply Hset; [|by rewrite (proj1 (settle_same _ _ _))]. rewrite settle_set.
    rewrite app_nil_r. replace (with_log w (w_log w)) with w by by destruct w.
    f_equal. unfold add_count. simpl. f_equal; lia.
Qed.

(** ** Each operation keeps the store *)

(** The invariant of a settled store: [w'] has lost exactly one pointer to [p],
    as [i] records. *)
Lemma settle_store w p i l :
  w_insts w !! p = Some i -> store_inv w ->
  forall j, i_ref_count j = i_ref_count i - 1 ->
  let w' := settle (with_log w l) p j in
  mem_ok (w_pg w') (fun q => node w q /\ (i_ref_count j = 0 -> q <> p)) /\
  ps_mem (w_pg w') = ps_mem (w_pg w) /\ ps_current (w_pg w') = ps_current (w_pg w) /\
  w_insts w' = (if i_ref_count j =? 0 then delete p (w_insts w) else <[p := j]> (w_insts w)).
Proof.
  intros Hi Hs j Hj w'. unfold w', settle. zcase; simpl.
  - split_and!; try done. eapply mem_ok_sub; [apply mem_ok_free; [apply Hs|unfold SIZEOF_INST; lia|]|].
    + left. by rewrite Hi.
    + simpl. intros q [Hq Hn]. split; [done|auto].
  - split_and!; try done. eapply mem_ok_sub; [apply Hs|]. by intros q [Hq _].
Qed.

(** A pointer to [p] has gone: from the references when [dh] is 1, from the
    regions when it is 0. *)
Lemma store_dropped w w' p i j dh :
  store_inv w -> w_insts w !! p = Some i -> mem_ok (w_pg w') (node w') ->
  w_refs w' ⊆ w_refs w -> w_regs w' ⊆ w_regs w ->
  w_insts w' = (if i_ref_count j =? 0 then delete p (w_insts w) else <[p := j]> (w_insts w)) ->
  i_ref_count j = i_ref_count i - 1 -> i_handle_count j = i_handle_count i - dh ->
  (forall q, count_by r_inst (w_refs w') q = count_by r_inst (w_refs w) q - b2z (bool_decide (p = q)) * dh) ->
  (forall q, count_by v_inst (w_regs w') q =
     count_by v_inst (w_regs w) q - b2z (bool_decide (p = q)) * (1 - dh)) ->
  store_inv w'.
Proof.
  intros Hs Hi Hm Hrefs Hregs Hin Hj Hh Hcr Hcv. destruct Hs as [_ D1 D2 D3 R1 R2 C].
  assert (Hsub : forall q, is_Some (w_insts w' !! q) -> is_Some (w_insts w !! q)).
  { intros q. rewrite Hin. zcase.
    - intros [x [_ Hx]%lookup_delete_Some]. eauto.
    - rewrite lookup_insert. case_decide; [subst|]; eauto. }
  assert (Hno : forall q, w_refs w !! q = None -> w_refs w' !! q = None)
    by (intros q Hq; by eapply lookup_weaken_None).
  assert (Hno2 : forall q, w_regs w !! q = None -> w_regs w' !! q = None)
    by (intros q Hq; by eapply lookup_weaken_None).
  destruct (C p i Hi) as [Cp1 Cp2].
  assert (Hpc : i_ref_count j = count_by r_inst (w_refs w') p + count_by v_inst (w_regs w') p).
  { rewrite Hcr, Hcv, bool_decide_eq_true_2 by done. simpl. lia. }
  assert (Hkeep : forall q, is_Some (w_insts w !! q) ->
    0 < count_by r_inst (w_refs w') q + count_by v_inst (w_regs w') q -> is_Some (w_insts w' !! q)).
  { intros q Hq Hpos. rewrite Hin. zcase; [|rewrite lookup_insert; case_decide; eauto].
    rewrite lookup_delete_ne; [done|]. intros ->. lia. }
  constructor; try done; auto.
  - intros q [x Hx]. apply Hno2, D3. exists x. by eapply lookup_weaken.
  - intros r k Hk. apply Hkeep.
    + eapply R1. by eapply lookup_weaken.
    + pose proof (count_pos r_inst _ r k Hk). pose proof (count_nonneg v_inst (w_regs w') (r_inst k)). lia.
  - intros r k Hk. apply Hkeep.
    + eapply R2. by eapply lookup_weaken.
    + pose proof (count_pos v_inst _ r k Hk). pose proof (count_nonneg r_inst (w_refs w') (v_inst k)). lia.
  - intros q x Hx. destruct (decide (p = q)) as [<-|Hne].
    + rewrite Hin in Hx. revert Hx. zcase; [by rewrite lookup_delete_eq|].
      rewrite lookup_insert_eq. intros [= <-]. split; [|done].
      rewrite Hcr, bool_decide_eq_true_2 by done. simpl. lia.
    + rewrite Hcr, Hcv, bool_decide_eq_false_2 by done. simpl. rewrite !Z.sub_0_r. apply C.
      rewrite Hin in Hx. revert Hx. zcase; [by rewrite lookup_delete_ne|by rewrite lookup_insert_ne].
Qed.

Lemma live_dropped w w' p i j :
  all_live w -> w_insts w !! p = Some i -> store_inv w' ->
  w_insts w' = (if i_ref_count j =? 0 then delete p (w_insts w) else <[p := j]> (w_insts w)) ->
  (i_handle_count j = 0 -> has_stop (kobjs (i_type j)) = true -> i_stopped j = true) ->
  all_live w'.
Proof.
  intros Hl Hi Hs Hin Hst q x Hx. pose proof Hx as Hx'. rewrite Hin in Hx'. revert Hx'. zcase.
  - intros [_ Hq]%lookup_delete_Some. by apply (Hl q).
  - intros [[<- <-]|[_ Hq]]%lookup_insert_Some; [|by apply (Hl q)]. split; [|done].
    destruct (si_count w' Hs p j Hx) as [_ Hcnt].
    pose proof (count_nonneg r_inst (w_refs w') p). pose proof (count_nonneg v_inst (w_regs w') p). lia.
Qed.

(** Closing a handle. *)
Record release_post w w' (r : Z) (k : kobj_ref) : Prop := {
  rp_store : store_inv w';
  rp_live : all_live w -> all_live w';
  rp_refs : w_refs w' = delete r (w_refs w);
  rp_regs : w_regs w' = w_regs w;
  rp_procs : w_procs w' = w_procs w;
  rp_types q x : w_insts w' !! q = Some x ->
    exists y, w_insts w !! q = Some y /\ i_type y = i_type x;
  rp_mem : ps_mem (w_pg w') = ps_mem (w_pg w) }.

Lemma store_node w p : store_inv w -> node w p -> p <> NULL.
Proof. intros Hs Hn. destruct (mo_node _ _ (si_mem w Hs) p Hn) as (_ & _ & ? & _). unfold NULL. lia. Qed.

Lemma closed_inst_counts i :
  i_ref_count (closed_inst i) = i_ref_count i - 1 /\
  i_handle_count (closed_inst i) = i_handle_count i - 1 /\ i_type (closed_inst i) = i_type i /\
  (i_handle_count (closed_inst i) = 0 -> has_stop (kobjs (i_type i)) = true ->
   i_stopped (closed_inst i) = true).
Proof.
  unfold closed_inst. zcase; unfold stopped_inst, add_count; simpl; split_and!; try lia; try done.
Qed.

Lemma kobj_release_spec w r k :
  store_inv w -> w_refs w !! r = Some k ->
  exists w', kobj_release w r = Some (true, w') /\ release_post w w' r k.
Proof.
  intros Hs Hk. destruct (si_ref w Hs r k Hk) as [i Hi].
  assert (Hr : r <> NULL) by (apply (store_node w); [done|right; left; eauto]).
  assert (Hp : r_inst k <> NULL) by (apply (store_node w); [done|left; eauto]).
  rewrite (kobj_release_eq w r k i) by done. eexists. split; [reflexivity|]. cbv zeta.
  set (p := r_inst k) in *. set (l := w_log w ++ closed_log p i).
  destruct (closed_inst_counts i) as (Hc1 & Hc2 & Ht & Hst).
  destruct (settle_store w p i l Hi Hs (closed_inst i) Hc1) as (Hm & Hpm & _ & Hin).
  destruct (settle_same (with_log w l) p (closed_inst i)) as (Hsr & Hsv & Hsp).
  set (w1 := settle (with_log w l) p (closed_inst i)) in *. simpl in Hsr, Hsv, Hsp.
  set (w' := with_refs (kfree w1 r SIZEOF_REF) (delete r (w_refs w))).
  assert (Hsub : forall q, is_Some (w_insts w' !! q) ->
    is_Some (w_insts w !! q) /\ (i_ref_count (closed_inst i) = 0 -> q <> p)).
  { intros q. change (w_insts w') with (w_insts w1). rewrite Hin. zcase.
    - intros [x [Hn Hx]%lookup_delete_Some]. split; [eauto|congruence].
    - rewrite lookup_insert. case_decide; [subst|]; intros; split; eauto; lia. }
  assert (Hmem : mem_ok (w_pg w') (node w')).
  { eapply mem_ok_sub; [apply (mem_ok_free _ _ SIZEOF_REF r Hm); [unfold SIZEOF_REF; lia|]|].
    - split; [right; left; eauto|]. intros _ E. rewrite E in Hk.
      rewrite (si_inst_ref w Hs p) in Hk; [done|eauto].
    - intros q [Hq|[Hq|Hq]].
      + destruct (Hsub q Hq) as [Hq1 Hq2]. split; [split; [by left|done]|]. intros ->.
        by rewrite (si_inst_ref w Hs r Hq1) in Hk.
      + change (w_refs w') with (delete r (w_refs w)) in Hq.
        destruct Hq as [x [Hne Hx]%lookup_delete_Some]. split; [|congruence].
        split; [right; left; eauto|]. intros _ ->. by rewrite (si_inst_ref w Hs p) in Hx; eauto.
      + change (w_regs w') with (w_regs w1) in Hq. rewrite Hsv in Hq. destruct Hq as [x Hx].
        split; [split; [right; right; eauto|]|].
        * intros _ ->. by rewrite (si_inst_reg w Hs p) in Hx; eauto.
        * intros ->. by rewrite (si_ref_reg w Hs r) in Hx; eauto. }
  assert (Hst' : store_inv w').
  { apply (store_dropped w w' p i (closed_inst i) 1); try done.
    - apply delete_subseteq.
    - change (w_regs w') with (w_regs w1). by rewrite Hsv.
    - intros q. change (w_refs w') with (delete r (w_refs w)). rewrite (count_delete _ _ r k) by done.
      change (r_inst k) with p. lia.
    - intros q. change (w_regs w') with (w_regs w1). rewrite Hsv. lia. }
  constructor; try done.
  - intros Hl. apply (live_dropped w w' p i (closed_inst i)); try done. by rewrite Ht.
  - intros q x. change (w_insts w') with (w_insts w1). rewrite Hin. zcase.
    + intros [_ Hq]%lookup_delete_Some. eauto.
    + intros [[<- <-]|[_ Hq]]%lookup_insert_Some; eauto.
Qed.

Lemma store_set_proc w pid p : store_inv w -> store_inv (set_proc w pid p).
Proof. intros []. by constructor. Qed.

Lemma store_with_pg w pg : store_inv w -> mem_ok pg (node w) -> store_inv (with_pg w pg).
Proof. intros [] Hm. by constructor. Qed.

(** Dropping the region of [nd]: the reference it holds and its node. *)
Definition drop_region w1 (nd : Z) : world :=
  with_regs (kfree w1 nd SIZEOF_REGION) (delete nd (w_regs w1)).

Record drop_post w w' (nd : Z) : Prop := {
  dp_store : store_inv w';
  dp_live : all_live w -> all_live w';
  dp_refs : w_refs w' = w_refs w;
  dp_regs : w_regs w' = delete nd (w_regs w);
  dp_procs : w_procs w' = w_procs w;
  dp_mem : ps_mem (w_pg w') = ps_mem (w_pg w) }.

Lemma drop_region_spec w nd r :
  store_inv w -> w_regs w !! nd = Some r ->
  exists w1, kobj_release_ref w (v_inst r) = Some w1 /\ w_procs w1 = w_procs w /\
    w_regs w1 = w_regs w /\ drop_post w (drop_region w1 nd) nd.
Proof.
  intros Hs Hr. destruct (si_reg w Hs nd r Hr) as [i Hi]. set (p := v_inst r) in *.
  rewrite (kobj_release_ref_eq w p i Hi). eexists. split; [reflexivity|].
  set (j := add_count i (-1) 0).
  assert (Hj : i_ref_count j = i_ref_count i - 1) by (simpl; lia).
  destruct (settle_store w p i (w_log w) Hi Hs j Hj) as (Hm & Hpm & _ & Hin).
  replace (with_log w (w_log w)) with w in * by by destruct w.
  destruct (settle_same w p j) as (Hsr & Hsv & Hsp). set (w1 := settle w p j) in *.
  split; [done|]. split; [done|]. set (w' := drop_region w1 nd).
  assert (Hsub : forall q, is_Some (w_insts w' !! q) ->
    is_Some (w_insts w !! q) /\ (i_ref_count j = 0 -> q <> p)).
  { intros q. change (w_insts w') with (w_insts w1). rewrite Hin. zcase.
    - intros [x [Hn Hx]%lookup_delete_Some]. split; [eauto|congruence].
    - rewrite lookup_insert. case_decide; [subst|]; intros; split; eauto; lia. }
  assert (Hmem : mem_ok (w_pg w') (node w')).
  { eapply mem_ok_sub; [apply (mem_ok_free _ _ SIZEOF_REGION nd Hm); [unfold SIZEOF_REGION; lia|]|].
    - split; [right; right; eauto|]. intros _ E. rewrite E in Hr.
      rewrite (si_inst_reg w Hs p) in Hr; [done|eauto].
    - intros q [Hq|[Hq|Hq]].
      + destruct (Hsub q Hq) as [Hq1 Hq2]. split; [split; [by left|done]|]. intros ->.
        by rewrite (si_inst_reg w Hs nd Hq1) in Hr.
      + change (w_refs w') with (w_refs w1) in Hq. rewrite Hsr in Hq. destruct Hq as [x Hx].
        split; [split; [right; left; eauto|]|].
        * intros _ ->. by rewrite (si_inst_ref w Hs p) in Hx; eauto.
        * intros ->. by rewrite (si_ref_reg w Hs nd) in Hr; eauto.
      + change (w_regs w') with (delete nd (w_regs w1)) in Hq. rewrite Hsv in Hq.
        destruct Hq as [x [Hne Hx]%lookup_delete_Some]. split; [|congruence].
        split; [right; right; eauto|]. intros _ ->. by rewrite (si_inst_reg w Hs p) in Hx; eauto. }
  assert (Hregs : w_regs w' = delete nd (w_regs w)) by (unfold w', drop_region; simpl; by rewrite Hsv).
  assert (Hst' : store_inv w').
  { apply (store_dropped w w' p i j 0); try done.
    - change (w_refs w') with (w_refs w1). by rewrite Hsr.
    - rewrite Hregs. apply delete_subseteq.
    - intros q. change (w_refs w') with (w_refs w1). rewrite Hsr. lia.
    - intros q. rewrite Hregs, (count_delete _ _ nd r) by done. change (v_inst r) with p. lia. }
  constructor; try done. intros Hl. apply (live_dropped w w' p i j); try done.
  intros Hz; apply (proj2 (Hl p i Hi)); unfold j in Hz; simpl in Hz; lia.
Qed.

(** New references and regions. *)
Definition live_but w (inst : Z) : Prop :=
  forall q x, q <> inst -> w_insts w !! q = Some x -> live_inst x.

Lemma all_live_but w inst : all_live w -> live_but w inst.
Proof. intros Hl q x _ Hx. by apply (Hl q). Qed.

Record new_ref_post w w' (inst r : Z) (i : kobj_inst) (k : kobj_ref) : Prop := {
  nr_store : store_inv w';
  nr_live : live_but w inst -> all_live w';
  nr_fresh : w_refs w !! r = None;
  nr_inst : r_inst k = inst;
  nr_refs : w_refs w' = <[r := k]> (w_refs w);
  nr_regs : w_regs w' = w_regs w;
  nr_procs : w_procs w' = w_procs w;
  nr_mem : ps_mem (w_pg w') = ps_mem (w_pg w) }.

(** An instance gains a pointer from a fresh node [nd]. *)
Lemma store_gained w w' inst i nd dh :
  store_inv w -> w_insts w !! inst = Some i -> ~ node w nd -> mem_ok (w_pg w') (node w') ->
  w_insts w' = <[inst := add_count i 1 dh]> (w_insts w) ->
  (exists k, dh = 1 /\ r_inst k = inst /\ w_refs w' = <[nd := k]> (w_refs w) /\
     w_regs w' = w_regs w) \/
  (exists r, dh = 0 /\ v_inst r = inst /\ w_regs w' = <[nd := r]> (w_regs w) /\
     w_refs w' = w_refs w) ->
  store_inv w' /\ (live_but w inst -> (dh = 0 -> live_inst i) -> all_live w').
Proof.
  intros Hs Hi Hn Hm Hin Hcase. destruct Hs as [_ D1 D2 D3 R1 R2 C].
  assert (Hn1 : w_insts w !! nd = None) by (apply eq_None_not_Some; intros ?; apply Hn; by left).
  assert (Hn2 : w_refs w !! nd = None) by (apply eq_None_not_Some; intros ?; apply Hn; right; by left).
  assert (Hn3 : w_regs w !! nd = None) by (apply eq_None_not_Some; intros ?; apply Hn; right; by right).
  destruct (C inst i Hi) as [C1 C2].
  pose proof (count_nonneg r_inst (w_refs w) inst). pose proof (count_nonneg v_inst (w_regs w) inst).
  assert (Hdom : forall q, is_Some (w_insts w' !! q) <-> is_Some (w_insts w !! q)).
  { intros q. rewrite Hin, lookup_insert. case_decide; [subst|done]. split; eauto. }
  assert (Hne : forall q, is_Some (w_insts w !! q) -> nd <> q).
  { intros q [x Hx] <-. congruence. }
  split.
  - destruct Hcase as [(k & -> & Hk & Hr & Hv)|(r & -> & Hk & Hr & Hv)]; constructor; try done.
    + intros q Hq%Hdom. rewrite Hr, lookup_insert_ne by auto. auto.
    + intros q Hq%Hdom. rewrite Hv. auto.
    + intros q. rewrite Hr, Hv. rewrite lookup_insert. case_decide; [by subst|]. auto.
    + intros r0 k0. rewrite Hr. intros [[<- <-]|[_ Hr0]]%lookup_insert_Some; apply Hdom;
        [rewrite Hk; eauto|eauto].
    + intros r0 k0. rewrite Hv. intros Hr0. apply Hdom. eauto.
    + intros q x. rewrite Hin, Hr, Hv, count_insert_new by done.
      intros [[<- <-]|[Hq Hx]]%lookup_insert_Some.
      * rewrite bool_decide_eq_true_2 by done. simpl. lia.
      * rewrite bool_decide_eq_false_2 by congruence. simpl. rewrite Z.add_0_r. by apply C.
    + intros q Hq%Hdom. rewrite Hv. auto.
    + intros q Hq%Hdom. rewrite Hr, lookup_insert_ne by auto. auto.
    + intros q Hq. rewrite Hr. rewrite Hv in Hq. rewrite lookup_insert_ne; [auto|].
      intros <-. destruct Hq. congruence.
    + intros r0 k0. rewrite Hv. intros Hr0. apply Hdom. eauto.
    + intros r0 k0. rewrite Hr. intros [[<- <-]|[_ Hr0]]%lookup_insert_Some; apply Hdom;
        [rewrite Hk; eauto|eauto].
    + intros q x. rewrite Hin, Hr, Hv, count_insert_new by done.
      intros [[<- <-]|[Hq Hx]]%lookup_insert_Some.
      * rewrite bool_decide_eq_true_2 by done. simpl. lia.
      * rewrite bool_decide_eq_false_2 by congruence. simpl. rewrite Z.add_0_r. by apply C.
  - intros Hl H0' q x. rewrite Hin. intros [[<- <-]|[Hq Hx]]%lookup_insert_Some.
    + split; [simpl; lia|]. simpl. destruct Hcase as [(k & -> & _)|(r & -> & _)]; [lia|].
      rewrite Z.add_0_r. by apply H0'.
    + by apply (Hl q).
Qed.

Lemma add_count_twice i : add_count (add_count i 1 0) 0 1 = add_count i 1 1.
Proof. unfold add_count. simpl. f_equal; lia. Qed.

Lemma create_kobj_ref_spec w inst i :
  store_inv w -> w_insts w !! inst = Some i ->
  exists r w', create_kobj_ref w inst = Some (r, w') /\
    (r = NULL /\ w' = w \/
     r <> NULL /\ exists k, new_ref_post w w' inst r i k).
Proof.
  intros Hs Hi. unfold create_kobj_ref.
  destruct (kmalloc_spec w SIZEOF_REF (si_mem w Hs)) as (r & pg & -> & Hcase); [done|].
  destruct Hcase as [[-> ->]|(Hr & Hn & Hpos & Hm & Hpm)].
  { exists NULL, w. rewrite with_pg_id. split; [done|by left]. }
  zcase; [done|]. unfold kobj_add_ref. simpl. rewrite Hi. simpl.
  rewrite lookup_insert_eq. simpl.
  match goal with |- context [next_ref_uid ?w0] => destruct (next_ref_uid w0) as [uid w2] eqn:Eu end.
  eexists r, _. split; [reflexivity|]. right. split; [done|].
  set (k := KRef _ _ _). set (w' := with_refs _ _). exists k.
  assert (Hw2 : w_pg w2 = pg /\ w_insts w2 = <[inst := add_count i 1 1]> (w_insts w) /\
    w_refs w2 = w_refs w /\ w_regs w2 = w_regs w /\ w_procs w2 = w_procs w).
  { unfold next_ref_uid in Eu. revert Eu. simpl. zcase; intros [= _ <-]; simpl;
      by rewrite insert_insert_eq, add_count_twice. }
  destruct Hw2 as (E1 & E2 & E3 & E4 & E5).
  assert (Hdom : forall q, node w' q -> node w q \/ q = r).
  { intros q [Hq|[Hq|Hq]]; simpl in Hq.
    - rewrite E2, lookup_insert in Hq. left. left. case_decide; [subst; eauto|done].
    - rewrite E3, lookup_insert in Hq. case_decide; [by right|]. left. right. by left.
    - rewrite E4 in Hq. left. right. by right. }
  destruct (store_gained w w' inst i r 1) as [Hst Hlv]; try done.
  { simpl. rewrite E1. eapply mem_ok_sub; [exact Hm|]. done. }
  { left. exists k. simpl. by rewrite E3, E4. }
  constructor; simpl; try done; try (by rewrite ?E3, ?E1).
  - intros Hl. by apply Hlv.
  - apply eq_None_not_Some. intros ?. apply Hn. right. by left.
Qed.

(** ** Handles *)

Lemma handle_parts h c : 0 <= h < 2 ^ 16 -> 0 <= c ->
  KOBJ_HANDLE_INDEX (Z.lor h (Z.shiftl c 16)) = h /\ Z.shiftr (Z.lor h (Z.shiftl c 16)) 16 = c /\
  0 <= Z.lor h (Z.shiftl c 16).
Proof.
  intros Hh Hc. unfold KOBJ_HANDLE_INDEX. change 65535 with (Z.ones 16). split_and!.
  - rewrite Z.land_ones by lia. rewrite <-(Z.mod_small h (2 ^ 16)) at 2 by lia.
    apply Z.bits_inj'. intros n Hn.
    destruct (decide (n < 16)).
    + rewrite !Z.mod_pow2_bits_low, Z.lor_spec, Z.shiftl_spec_low by lia. apply orb_false_r.
    + by rewrite !Z.mod_pow2_bits_high by lia.
  - rewrite Z.shiftr_lor, Z.shiftr_shiftl_l by lia. rewrite Z.shiftr_div_pow2 by lia.
    rewrite Z.div_small by lia. simpl. by rewrite Z.shiftl_0_r.
  - apply Z.lor_nonneg. split; [lia|]. by apply Z.shiftl_nonneg.
Qed.

Lemma handle_check_range uid : 0 <= KOBJ_HANDLE_CHECK uid < 32768.
Proof.
  unfold KOBJ_HANDLE_CHECK. change 32767 with (Z.ones 15). rewrite Z.land_ones by lia.
  apply Z.mod_pos_bound. lia.
Qed.

(** [h] designates [r] among the slots of [p]. *)
Definition handle_for w (p : process) (h r : Z) : Prop :=
  0 <= h /\ KOBJ_HANDLE_INDEX h < PROCESS_MAX_KOBJ /\
  zget (p_kobj p) (KOBJ_HANDLE_INDEX h) = Some (Some r) /\
  exists k, w_refs w !! r = Some k /\ Z.shiftr h 16 = KOBJ_HANDLE_CHECK (r_uid k).

Lemma handle_index_nonneg h : 0 <= h -> 0 <= KOBJ_HANDLE_INDEX h.
Proof. intros. unfold KOBJ_HANDLE_INDEX. apply Z.land_nonneg. by left. Qed.

(** [process_get_kobj] finds the reference of a handle, or rejects the handle. *)
Lemma process_get_kobj_spec w pid p h :
  store_inv w -> procs_inv w -> w_procs w !! pid = Some p ->
  exists r, process_get_kobj w p h = Some r /\
    (r <> NULL -> handle_for w p h r) /\ (r = NULL -> forall r', ~ handle_for w p h r').
Proof.
  intros Hs Hp Hpid. unfold process_get_kobj. zcase.
  { exists NULL. split_and!; try done. intros _ r' (? & _). lia. }
  set (ix := KOBJ_HANDLE_INDEX h). pose proof (handle_index_nonneg h ltac:(lia)) as Hix.
  zcase.
  { exists NULL. split_and!; try done. intros _ r' (_ & Hlt & _). unfold ix in *. lia. }
  destruct (zget_is_Some (p_kobj p) ix) as [slot Hslot].
  { rewrite (pi_slots w Hp pid p Hpid). unfold PROCESS_MAX_KOBJ in *. unfold ix in *. lia. }
  rewrite Hslot. simpl. destruct slot as [r|].
  2:{ exists NULL. split_and!; try done. intros _ r' (_ & _ & Hr' & _). unfold ix in Hslot. congruence. }
  destruct (pi_slot w Hp pid p ix r Hpid Hslot) as [k Hk]. rewrite Hk. simpl.
  assert (Hki : r_inst k <> NULL).
  { destruct (si_ref w Hs r k Hk) as [i Hi]. apply (store_node w); [done|]. left. eauto. }
  zcase; [done|]. destruct (Z.eqb_spec (Z.shiftr h 16) (KOBJ_HANDLE_CHECK (r_uid k))) as [He|He]; simpl.
  - exists r. split; [done|]. split.
    + intros _. split_and!; [lia|unfold ix in *; lia|done|eauto].
    + intros ->. exfalso. apply (store_node w NULL Hs); [|done]. right. left. eauto.
  - exists NULL. split_and!; try done. intros _ r' (_ & _ & Hr' & k' & Hk' & Hc').
    unfold ix in Hslot. rewrite Hslot in Hr'. injection Hr' as <-. congruence.
Qed.

Lemma vm_sorted_ext w w' lo l :
  (forall nd, nd ∈ l -> w_regs w' !! nd = w_regs w !! nd) -> vm_sorted w lo l -> vm_sorted w' lo l.
Proof.
  revert lo. induction l as [|nd l IH]; intros lo He; simpl; [done|].
  intros (r & Hr & ? & ? & ? & ? & Hs). exists r. split_and!; try done.
  - rewrite He; [done|by left].
  - apply IH; [|done]. intros q Hq. apply He. by right.
Qed.

Lemma get_dir_mem (s s' : pstate H) d : ps_mem s' = ps_mem s -> get_dir s' d = get_dir s d.
Proof. intros E. unfold get_dir. by rewrite E. Qed.

Definition put_slot (p : process) (h : Z) (o : option Z) (dc : Z) : process :=
  Process (zset (p_kobj p) h o) (p_kobj_count p + dc) (p_regions p) (p_no_allocated p) (p_page_dir p).

Lemma procs_fill_slot w w' pid p h r k :
  procs_inv w -> w_procs w !! pid = Some p -> zget (p_kobj p) h = Some None ->
  w_refs w !! r = None -> w_refs w' = <[r := k]> (w_refs w) -> w_regs w' = w_regs w ->
  ps_mem (w_pg w') = ps_mem (w_pg w) ->
  w_procs w' = <[pid := put_slot p h (Some r) 1]> (w_procs w) -> procs_inv w'.
Proof.
  intros Hp Hpid Hh Hr Erefs Eregs Emem Eprocs. pose proof (zget_Some_range _ _ _ Hh) as Hrange.
  assert (Hslot : forall pid' p' i r', w_procs w' !! pid' = Some p' ->
    zget (p_kobj p') i = Some (Some r') ->
    (r' = r /\ pid' = pid /\ i = h) \/
    (r' <> r /\ exists p0, w_procs w !! pid' = Some p0 /\ zget (p_kobj p0) i = Some (Some r'))).
  { intros pid' p' i r'. rewrite Eprocs.
    assert (Hold : forall p0, w_procs w !! pid' = Some p0 -> zget (p_kobj p0) i = Some (Some r') -> r' <> r).
    { intros p0 H1 H2 ->. destruct (pi_slot w Hp _ _ _ _ H1 H2). congruence. }
    intros [[<- <-]|[Hne Hp']]%lookup_insert_Some Hi; [|right; eauto].
    simpl in Hi. rewrite zget_zset in Hi. case_decide as Hd; [left|right; eauto].
    destruct Hd as [-> _]. by injection Hi as ->. }
  assert (Hreg : forall pid' p', w_procs w' !! pid' = Some p' ->
    exists p0, w_procs w !! pid' = Some p0 /\ p_regions p' = p_regions p0 /\
      p_page_dir p' = p_page_dir p0 /\ zlen (p_kobj p') = zlen (p_kobj p0)).
  { intros pid' p'. rewrite Eprocs. intros [[<- <-]|[_ Hp']]%lookup_insert_Some; [|eauto].
    exists p. simpl. by rewrite zlen_zset. }
  constructor.
  - intros pid' p' Hp'. destruct (Hreg _ _ Hp') as (p0 & Hp0 & _ & _ & ->). by eapply pi_slots.
  - intros pid' p' i r' Hp' Hi. rewrite Erefs, lookup_insert. case_decide; [eauto|].
    destruct (Hslot _ _ _ _ Hp' Hi) as [(-> & _)|(_ & p0 & Hp0 & Hi0)]; [done|]. by eapply pi_slot.
  - intros pid1 p1 i1 pid2 p2 i2 r' H1 H2 H3 H4.
    destruct (Hslot _ _ _ _ H1 H2) as [(? & ? & ?)|(? & q1 & Hq1 & Hi1)],
      (Hslot _ _ _ _ H3 H4) as [(? & ? & ?)|(? & q2 & Hq2 & Hi2)]; try congruence;
      [by subst|by eapply pi_slot_inj].
  - intros r'. rewrite Erefs, lookup_insert. case_decide as Hd.
    + intros _. subst. exists pid, (put_slot p h (Some r') 1), h. rewrite Eprocs, lookup_insert_eq.
      split; [done|]. simpl. by apply zget_zset_eq.
    + intros Hr'. destruct (pi_ref w Hp r' Hr') as (pid' & p' & i & Hp' & Hi).
      destruct (decide (pid' = pid)) as [->|Hne].
      * exists pid, (put_slot p h (Some r) 1), i. rewrite Eprocs, lookup_insert_eq. split; [done|].
        assert (p' = p) as -> by congruence. simpl. rewrite zget_zset_ne; [done|]. congruence.
      * exists pid', p', i. by rewrite Eprocs, lookup_insert_ne.
  - intros pid' p' Hp'. destruct (Hreg _ _ Hp') as (p0 & Hp0 & -> & _).
    apply (vm_sorted_ext w); [by rewrite Eregs|]. by eapply pi_vm.
  - intros pid1 p1 pid2 p2 r' H1 Hr1 H2 Hr2.
    destruct (Hreg _ _ H1) as (q1 & Hq1 & E1 & _), (Hreg _ _ H2) as (q2 & Hq2 & E2 & _).
    rewrite E1 in Hr1. rewrite E2 in Hr2. by eapply pi_reg_inj.
  - intros pid' p' Hp'. destruct (Hreg _ _ Hp') as (p0 & Hp0 & -> & _). by eapply pi_nodup.
  - intros r'. rewrite Eregs. intros Hr'. destruct (pi_reg w Hp r' Hr') as (pid' & p' & Hp' & Hi).
    destruct (decide (pid' = pid)) as [->|Hne].
    + exists pid, (put_slot p h (Some r) 1). rewrite Eprocs, lookup_insert_eq. split; [done|].
      by assert (p' = p) as -> by congruence.
    + exists pid', p'. by rewrite Eprocs, lookup_insert_ne.
  - intros pid' p' Hp'. destruct (Hreg _ _ Hp') as (p0 & Hp0 & _ & -> & _).
    rewrite (get_dir_mem (w_pg w)) by done. by eapply pi_dir.
Qed.

Lemma procs_clear_slot w w' pid p h r :
  procs_inv w -> w_procs w !! pid = Some p -> zget (p_kobj p) h = Some (Some r) ->
  w_refs w' = delete r (w_refs w) -> w_regs w' = w_regs w ->
  ps_mem (w_pg w') = ps_mem (w_pg w) ->
  w_procs w' = <[pid := put_slot p h None (-1)]> (w_procs w) -> procs_inv w'.
Proof.
  intros Hp Hpid Hh Erefs Eregs Emem Eprocs. pose proof (zget_Some_range _ _ _ Hh) as Hrange.
  assert (Hslot : forall pid' p' i r', w_procs w' !! pid' = Some p' ->
    zget (p_kobj p') i = Some (Some r') ->
    r' <> r /\ exists p0, w_procs w !! pid' = Some p0 /\ zget (p_kobj p0) i = Some (Some r')).
  { intros pid' p' i r'. rewrite Eprocs. intros [[<- <-]|[Hne Hp']]%lookup_insert_Some Hi.
    - simpl in Hi. rewrite zget_zset in Hi. case_decide as Hd; [done|]. split; [|eauto].
      intros ->. destruct (pi_slot_inj w Hp _ _ _ _ _ _ _ Hpid Hh Hpid Hi) as [_ ?]. apply Hd. lia.
    - split; [|eauto]. intros ->.
      by destruct (pi_slot_inj w Hp _ _ _ _ _ _ _ Hpid Hh Hp' Hi) as [? _]. }
  assert (Hreg : forall pid' p', w_procs w' !! pid' = Some p' ->
    exists p0, w_procs w !! pid' = Some p0 /\ p_regions p' = p_regions p0 /\
      p_page_dir p' = p_page_dir p0 /\ zlen (p_kobj p') = zlen (p_kobj p0)).
  { intros pid' p'. rewrite Eprocs. intros [[<- <-]|[_ Hp']]%lookup_insert_Some; [|eauto].
    exists p. simpl. by rewrite zlen_zset. }
  constructor.
  - intros pid' p' Hp'. destruct (Hreg _ _ Hp') as (p0 & Hp0 & _ & _ & ->). by eapply pi_slots.
  - intros pid' p' i r' Hp' Hi. destruct (Hslot _ _ _ _ Hp' Hi) as (Hne & p0 & Hp0 & Hi0).
    rewrite Erefs, lookup_delete_ne by done. by eapply pi_slot.
  - intros pid1 p1 i1 pid2 p2 i2 r' H1 H2 H3 H4.
    destruct (Hslot _ _ _ _ H1 H2) as (? & q1 & Hq1 & Hi1), (Hslot _ _ _ _ H3 H4) as (? & q2 & Hq2 & Hi2).
    by eapply pi_slot_inj.
  - intros r' [x Hx]. rewrite Erefs in Hx. apply lookup_delete_Some in Hx as [Hne Hx].
    destruct (pi_ref w Hp r') as (pid' & p' & i & Hp' & Hi); [eauto|].
    destruct (decide (pid' = pid)) as [->|Hnp].
    + exists pid, (put_slot p h None (-1)), i. rewrite Eprocs, lookup_insert_eq. split; [done|].
      assert (p' = p) as -> by congruence. simpl. rewrite zget_zset_ne; [done|]. congruence.
    + exists pid', p', i. by rewrite Eprocs, lookup_insert_ne.
  - intros pid' p' Hp'. destruct (Hreg _ _ Hp') as (p0 & Hp0 & -> & _).
    apply (vm_sorted_ext w); [by rewrite Eregs|]. by eapply pi_vm.
  - intros pid1 p1 pid2 p2 r' H1 Hr1 H2 Hr2.
    destruct (Hreg _ _ H1) as (q1 & Hq1 & E1 & _), (Hreg _ _ H2) as (q2 & Hq2 & E2 & _).
    rewrite E1 in Hr1. rewrite E2 in Hr2. by eapply pi_reg_inj.
  - intros pid' p' Hp'. destruct (Hreg _ _ Hp') as (p0 & Hp0 & -> & _). by eapply pi_nodup.
  - intros r'. rewrite Eregs. intros Hr'. destruct (pi_reg w Hp r' Hr') as (pid' & p' & Hp' & Hi).
    destruct (decide (pid' = pid)) as [->|Hne].
    + exists pid, (put_slot p h None (-1)). rewrite Eprocs, lookup_insert_eq. split; [done|].
      by assert (p' = p) as -> by congruence.
    + exists pid', p'. by rewrite Eprocs, lookup_insert_ne.
  - intros pid' p' Hp'. destruct (Hreg _ _ Hp') as (p0 & Hp0 & _ & -> & _).
    rewrite (get_dir_mem (w_pg w)) by done. by eapply pi_dir.
Qed.

(** ** The operations of a process *)

Lemma first_free_slot_spec l h :
  0 <= h -> h + zlen l = PROCESS_MAX_KOBJ ->
  let f := first_free_slot l h in
  h <= f <= PROCESS_MAX_KOBJ /\ (forall i, h <= i < f -> exists r, zget l (i - h) = Some (Some r)) /\
  (f < PROCESS_MAX_KOBJ -> zget l (f - h) = Some None).
Proof.
  unfold PROCESS_MAX_KOBJ. revert h. induction l as [|[r|] l IH]; intros h Hh Hl; simpl.
  - rewrite zlen_nil in Hl. split; [lia|]. split; intros; lia.
  - rewrite zlen_cons in Hl. pose proof (zlen_nonneg l). unfold PROCESS_MAX_KOBJ. zcase; [|lia].
    destruct (IH (h + 1)) as (Hr & Hf & Hn); [lia|lia|]. split; [lia|]. split.
    + intros i Hi. destruct (decide (i = h)) as [->|]; [exists r; by rewrite Z.sub_diag|].
      replace (i - h) with (i - (h + 1) + 1) by lia. rewrite zget_cons_S by lia. apply Hf. lia.
    + intros Hlt. replace (first_free_slot l (h + 1) - h) with (first_free_slot l (h + 1) - (h + 1) + 1) by lia.
      rewrite zget_cons_S by lia. auto.
  - rewrite zlen_cons in Hl. pose proof (zlen_nonneg l). split; [lia|]. split; [intros; lia|].
    intros _. by rewrite Z.sub_diag.
Qed.

(** A handle for [inst] in the lowest free slot, or nothing. *)
Record acquire_post w w' (pid : Z) (p : process) (inst h : Z) : Prop := {
  ac_inv : live_but w inst -> world_inv w';
  ac_slot : zget (p_kobj p) (KOBJ_HANDLE_INDEX h) = Some None;
  ac_low i : 0 <= i < KOBJ_HANDLE_INDEX h -> exists r, zget (p_kobj p) i = Some (Some r);
  ac_handle : exists p' r k, w_procs w' !! pid = Some p' /\ handle_for w' p' h r /\
    w_refs w' !! r = Some k /\ r_inst k = inst;
  ac_other pid' : pid' <> pid -> w_procs w' !! pid' = w_procs w !! pid' }.

Lemma process_acquire_kobj_spec w pid p inst i :
  store_inv w -> procs_inv w -> w_procs w !! pid = Some p -> w_insts w !! inst = Some i ->
  exists h w', process_acquire_kobj w pid inst = Some (h, w') /\
    (h = -1 /\ w' = w \/ 0 <= h /\ acquire_post w w' pid p inst h).
Proof.
  intros Hs Hp Hpid Hi. unfold process_acquire_kobj. rewrite Hpid. simpl.
  destruct (first_free_slot_spec (p_kobj p) 0) as (Hr & Hlow & Hfree);
    [lia|by rewrite (pi_slots w Hp pid p Hpid)|].
  set (h := first_free_slot (p_kobj p) 0) in *. zcase; [by eexists _, _; split; [|left]|].
  destruct (create_kobj_ref_spec w inst i Hs Hi) as (r & w1 & -> & Hcase). simpl.
  destruct Hcase as [[-> ->]|(Hrn & k & Hnr)]; [by eexists _, _; split; [|left]|].
  zcase; [done|]. destruct Hnr as [Hst Hlv Hfr Hki Hrefs Hregs Hprocs Hmem].
  rewrite Hrefs, lookup_insert_eq. simpl. rewrite Hprocs, Hpid. simpl.
  eexists _, _. split; [reflexivity|]. right.
  pose proof (handle_check_range (r_uid k)) as Hck.
  destruct (handle_parts h (KOBJ_HANDLE_CHECK (r_uid k))) as (E1 & E2 & E3);
    [unfold PROCESS_MAX_KOBJ in *; lia|lia|]. split; [done|].
  assert (Hslot : zget (p_kobj p) h = Some None) by (rewrite <-(Z.sub_0_r h); apply Hfree; lia).
  constructor; rewrite ?E1; try done.
  - intros Hl. constructor; [by apply store_set_proc|by apply Hlv|].
    eapply (procs_fill_slot w _ pid p h r k); try done. simpl. by rewrite Hprocs.
  - intros j Hj. rewrite <-(Z.sub_0_r j). apply Hlow. lia.
  - exists (put_slot p h (Some r) 1), r, k. simpl. rewrite Hprocs, Hrefs, !lookup_insert_eq.
    split; [done|]. split; [|done]. unfold handle_for. rewrite E1, E2.
    split_and!; [done|unfold PROCESS_MAX_KOBJ in *; lia| |].
    + simpl. apply zget_zset_eq. by apply (zget_Some_range _ _ _ Hslot).
    + exists k. simpl. by rewrite Hrefs, lookup_insert_eq.
  - intros pid' Hne. simpl. by rewrite Hprocs, lookup_insert_ne.
Qed.

(** The surviving instances have kept their kind. *)
Definition same_types w w' : Prop :=
  forall q x, w_insts w' !! q = Some x -> exists y, w_insts w !! q = Some y /\ i_type y = i_type x.

Lemma same_types_trans w1 w2 w3 : same_types w1 w2 -> same_types w2 w3 -> same_types w1 w3.
Proof.
  intros H1 H2 q x Hx. destruct (H2 q x Hx) as (y & Hy & E). destruct (H1 q y Hy) as (z & Hz & E').
  exists z. split; [done|congruence].
Qed.

(** Releasing the reference in slot [ix]. *)
Lemma release_slot w pid p ix r :
  world_inv w -> w_procs w !! pid = Some p -> zget (p_kobj p) ix = Some (Some r) ->
  exists w1 w2, kobj_release w r = Some (true, w1) /\ clear_slot w1 pid ix = Some w2 /\
    world_inv w2 /\ w_procs w2 = <[pid := put_slot p ix None (-1)]> (w_procs w) /\
    w_refs w2 = delete r (w_refs w) /\ same_types w w2.
Proof.
  intros [Hs Hl Hp] Hpid Hix. destruct (pi_slot w Hp pid p ix r Hpid Hix) as [k Hk].
  destruct (kobj_release_spec w r k Hs Hk) as (w1 & E & [Hst Hlv Hrefs Hregs Hprocs Hty Hmem]).
  exists w1. unfold clear_slot. rewrite Hprocs, Hpid. simpl. eexists. split; [done|].
  split; [reflexivity|].
  assert (E' : w_procs (set_proc w1 pid (put_slot p ix None (-1))) =
    <[pid := put_slot p ix None (-1)]> (w_procs w)) by (simpl; by rewrite Hprocs).
  split; [|split; [exact E'|split; [done|exact Hty]]].
  constructor; [by apply store_set_proc|by apply Hlv|].
  by eapply (procs_clear_slot w _ pid p ix r).
Qed.

Lemma process_release_kobj_spec w pid p h :
  world_inv w -> w_procs w !! pid = Some p ->
  exists b w', process_release_kobj w pid h = Some (b, w') /\ world_inv w' /\
    (b = false -> w' = w /\ forall r, ~ handle_for w p h r) /\
    (b = true -> exists r, handle_for w p h r /\
       w_procs w' = <[pid := put_slot p (KOBJ_HANDLE_INDEX h) None (-1)]> (w_procs w) /\
       w_refs w' = delete r (w_refs w)).
Proof.
  intros Hw Hpid. pose proof Hw as [Hs Hl Hp]. unfold process_release_kobj. rewrite Hpid. simpl.
  destruct (process_get_kobj_spec w pid p h Hs Hp Hpid) as (r & -> & Hyes & Hno). simpl. zcase.
  { exists false, w. split_and!; try done. intros _. split; [done|]. by apply Hno. }
  specialize (Hyes Hc). destruct Hyes as (H1 & H2 & H3 & H4).
  destruct (release_slot w pid p (KOBJ_HANDLE_INDEX h) r Hw Hpid H3)
    as (w1 & w2 & -> & E2 & Hw2 & Hp2 & Hr2 & _). simpl. rewrite E2. simpl.
  exists true, w2. split_and!; try done. intros _. by exists r.
Qed.

(** One pass releases the slots of its kind and keeps the others. *)
Record pass_post w w' (pid : Z) (p p' : process) (i : Z) (dev : bool) : Prop := {
  ps_inv : world_inv w';
  ps_proc : w_procs w' !! pid = Some p';
  ps_other pid' : pid' <> pid -> w_procs w' !! pid' = w_procs w !! pid';
  ps_regions : p_regions p' = p_regions p;
  ps_before j : j < i -> zget (p_kobj p') j = zget (p_kobj p) j;
  ps_slot j r : zget (p_kobj p') j = Some (Some r) -> zget (p_kobj p) j = Some (Some r);
  ps_refs r k : w_refs w' !! r = Some k -> w_refs w !! r = Some k;
  ps_types : same_types w w';
  ps_kind j r k x : i <= j -> zget (p_kobj p') j = Some (Some r) -> w_refs w' !! r = Some k ->
    w_insts w' !! r_inst k = Some x -> has_stop (kobjs (i_type x)) <> dev }.

Lemma pass_post_widen w w' pid p p' i dev :
  pass_post w w' pid p p' (i + 1) dev ->
  (forall r k x, zget (p_kobj p) i = Some (Some r) -> w_refs w !! r = Some k ->
     w_insts w !! r_inst k = Some x -> has_stop (kobjs (i_type x)) <> dev) ->
  pass_post w w' pid p p' i dev.
Proof.
  intros [A B C R D E F G K] Hi. constructor; try done.
  - intros j Hj. apply D. lia.
  - intros j r k x Hj Hs Hr Hx. destruct (decide (j = i)) as [->|]; [|apply (K j r k x); [lia|done..]].
    destruct (G _ _ Hx) as (y & Hy & Hty). rewrite <-Hty. eapply Hi; [by apply E|by apply F|done].
Qed.

Lemma release_pass_spec n i dev w pid p :
  world_inv w -> w_procs w !! pid = Some p -> 0 <= i -> i + Z.of_nat n = PROCESS_MAX_KOBJ ->
  exists w' p', release_pass n i dev w pid = Some w' /\ pass_post w w' pid p p' i dev.
Proof.
  revert i w p. induction n as [|n IH]; intros i w p Hw Hpid Hi Hn; cbn [release_pass].
  { exists w, p. split; [done|]. constructor; try done; [intros q x Hx; eauto|].
    intros j r k x Hj Hs. apply zget_Some_range in Hs.
    rewrite (pi_slots w (wi_procs w Hw) pid p Hpid) in Hs. lia. }
  rewrite Hpid. simpl.
  destruct (zget_is_Some (p_kobj p) i) as [slot Hslot].
  { rewrite (pi_slots w (wi_procs w Hw) pid p Hpid). lia. }
  rewrite Hslot. simpl. destruct slot as [r|].
  2:{ destruct (IH (i + 1) w p) as (w' & p' & -> & Hpost); [done|done|lia|lia|].
      exists w', p'. split; [done|]. apply pass_post_widen; [done|]. intros; congruence. }
  destruct (pi_slot w (wi_procs w Hw) pid p i r Hpid Hslot) as [k Hk].
  destruct (si_ref w (wi_store w Hw) r k Hk) as [x Hx]. rewrite Hk. simpl. rewrite Hx. simpl.
  destruct (Bool.eqb_spec (has_stop (kobjs (i_type x))) dev) as [He|He]; simpl.
  2:{ destruct (IH (i + 1) w p) as (w' & p' & -> & Hpost); [done|done|lia|lia|].
      exists w', p'. split; [done|]. apply pass_post_widen; [done|].
      intros r' k' x' Hr' Hk' Hx'. congruence. }
  destruct (release_slot w pid p i r Hw Hpid Hslot) as (w1 & w2 & -> & E2 & Hw2 & Hp2 & Hr2 & Hty).
  simpl. rewrite E2. simpl.
  destruct (IH (i + 1) w2 (put_slot p i None (-1))) as (w' & p' & -> & [A B C R D E F G K]);
    [done|by rewrite Hp2, lookup_insert_eq|lia|lia|].
  exists w', p'. split; [done|]. pose proof (zget_Some_range _ _ _ Hslot).
  assert (Hpi : zget (p_kobj p') i = Some None).
  { rewrite D by lia. simpl. by apply zget_zset_eq. }
  constructor; try done.
  - intros pid' Hne. rewrite C, Hp2 by done. by rewrite lookup_insert_ne.
  - intros j Hj. rewrite D by lia. simpl. apply zget_zset_ne. lia.
  - intros j r' Hj. destruct (decide (j = i)) as [->|]; [congruence|].
    apply E in Hj. simpl in Hj. by rewrite zget_zset_ne in Hj.
  - intros r' k' Hr'. apply F in Hr'. rewrite Hr2 in Hr'. by apply lookup_delete_Some in Hr' as [_ ?].
  - by eapply same_types_trans.
  - intros j r' k' x' Hj Hs Hr' Hx'. destruct (decide (j = i)) as [->|]; [congruence|].
    apply (K j r' k' x'); [lia|done..].
Qed.

Lemma process_release_kobjs_spec w pid p :
  world_inv w -> w_procs w !! pid = Some p ->
  exists w' p', process_release_kobjs w pid = Some w' /\ world_inv w' /\
    w_procs w' !! pid = Some p' /\ p_regions p' = p_regions p /\
    (forall pid', pid' <> pid -> w_procs w' !! pid' = w_procs w !! pid') /\
    (forall i r, zget (p_kobj p') i <> Some (Some r)).
Proof.
  intros Hw Hpid. unfold process_release_kobjs. set (n := Z.to_nat PROCESS_MAX_KOBJ).
  assert (Hn : 0 + Z.of_nat n = PROCESS_MAX_KOBJ) by done. clearbody n.
  destruct (release_pass_spec n 0 true w pid p Hw Hpid) as (w1 & p1 & -> & H1); [lia|done|].
  rewrite bind_Some_l. destruct H1 as [A1 B1 C1 R1 D1 E1 F1 G1 K1].
  destruct (release_pass_spec n 0 false w1 pid p1 A1 B1) as (w2 & p2 & -> & H2); [lia|done|].
  destruct H2 as [A2 B2 C2 R2 D2 E2 F2 G2 K2]. exists w2, p2.
  split; [done|]. split; [done|]. split; [done|]. split; [congruence|]. split.
  - intros pid' Hne. by rewrite C2, C1.
  - intros i r Hi. pose proof (zget_Some_range _ _ _ Hi) as [Hi0 _].
    destruct (pi_slot w2 (wi_procs w2 A2) pid p2 i r B2 Hi) as [k Hk].
    destruct (si_ref w2 (wi_store w2 A2) r k Hk) as [x Hx].
    pose proof (K2 i r k x Hi0 Hi Hk Hx) as Hf.
    destruct (G2 _ _ Hx) as (y & Hy & Ht).
    pose proof (K1 i r k y Hi0 (E2 i r Hi) (F2 r k Hk) Hy) as Htr. rewrite Ht in Htr.
    by destruct (has_stop (kobjs (i_type x))).
Qed.

Lemma process_copy_kobj_spec w send receive p q h :
  world_inv w -> w_procs w !! send = Some p -> w_procs w !! receive = Some q ->
  exists h' w', process_copy_kobj w send receive h = Some (h', w') /\ world_inv w' /\
    (h' < 0 -> w' = w) /\
    (0 <= h' -> exists r k q' r' k', handle_for w p h r /\ w_refs w !! r = Some k /\
       w_procs w' !! receive = Some q' /\ handle_for w' q' h' r' /\
       w_refs w' !! r' = Some k' /\ r_inst k' = r_inst k).
Proof.
  intros Hw Hsend Hrecv. pose proof Hw as [Hs Hl Hp]. unfold process_copy_kobj. rewrite Hsend. simpl.
  destruct (process_get_kobj_spec w send p h Hs Hp Hsend) as (r & -> & Hyes & Hno). simpl. zcase.
  { exists (-1), w. split; [done|]. split; [done|]. split; [done|lia]. }
  specialize (Hyes Hc). pose proof Hyes as (_ & _ & _ & k & Hk & _). rewrite Hk. simpl.
  destruct (si_ref w Hs r k Hk) as [i Hi]. rewrite Hi. simpl. zcase.
  { exists (-1), w. split; [done|]. split; [done|]. split; [done|lia]. }
  destruct (process_acquire_kobj_spec w receive q (r_inst k) i Hs Hp Hrecv Hi)
    as (h' & w' & -> & Hcase). simpl. destruct Hcase as [[-> ->]|[Hh' [Ha _ _ Hh _]]].
  { exists (-2), w. split; [done|]. split; [done|]. split; [done|lia]. }
  zcase; [lia|]. exists h', w'. split; [done|]. split; [by apply Ha, all_live_but|]. split; [lia|].
  intros _. destruct Hh as (q' & r' & k' & ? & ? & ? & ?). by exists r, k, q', r', k'.
Qed.

(** ** Regions *)

Lemma vm_sorted_bounds w lo l nd r :
  vm_sorted w lo l -> nd ∈ l -> w_regs w !! nd = Some r ->
  lo <= v_vaddr r /\ 0 < v_size r /\ v_vaddr r + v_size r <= VM_END.
Proof.
  revert lo. induction l as [|q l IH]; intros lo Hs Hin Hr; [by apply elem_of_nil in Hin|].
  destruct Hs as (r0 & Hr0 & ? & ? & ? & ? & Hs).
  apply elem_of_cons in Hin as [->|Hin].
  - assert (r0 = r) as -> by congruence. split_and!; [done|done|].
    clear -Hs. revert Hs. generalize (v_vaddr r + v_size r). induction l as [|q l IH]; intros e; simpl; [done|].
    intros (r0 & _ & ? & ? & _ & _ & Hs). apply IH in Hs. lia.
  - destruct (IH _ Hs Hin Hr) as (? & ? & ?). split_and!; lia.
Qed.

Lemma region_aligned w lo l nd r :
  vm_sorted w lo l -> nd ∈ l -> w_regs w !! nd = Some r ->
  v_vaddr r mod 4096 = 0 /\ v_size r mod 4096 = 0.
Proof.
  revert lo. induction l as [|x l IH]; intros lo Hs Hel Hr; [by apply elem_of_nil in Hel|].
  destruct Hs as (r0 & Hr0 & _ & _ & ? & ? & Hs).
  apply elem_of_cons in Hel as [->|Hel]; [|by eapply IH].
  by assert (r0 = r) as -> by congruence.
Qed.

(** Two regions of a process that share an address are the same. *)
Lemma region_unique w lo l nd nd' r r' va :
  vm_sorted w lo l -> nd ∈ l -> nd' ∈ l -> w_regs w !! nd = Some r -> w_regs w !! nd' = Some r' ->
  v_vaddr r <= va < v_vaddr r + v_size r -> v_vaddr r' <= va < v_vaddr r' + v_size r' -> nd = nd'.
Proof.
  revert lo. induction l as [|x l IH]; intros lo Hs Hel Hel' Hr Hr' Hv Hv';
    [by apply elem_of_nil in Hel|].
  destruct Hs as (r0 & Hr0 & _ & _ & _ & _ & Hs).
  apply elem_of_cons in Hel as [->|Hel]; apply elem_of_cons in Hel' as [->|Hel'].
  - done.
  - assert (r0 = r) as -> by congruence.
    destruct (vm_sorted_bounds _ _ _ _ _ Hs Hel' Hr') as (? & ? & ?). lia.
  - assert (r0 = r') as -> by congruence.
    destruct (vm_sorted_bounds _ _ _ _ _ Hs Hel Hr) as (? & ? & ?). lia.
  - by eapply IH.
Qed.

Lemma vm_sorted_lo w lo l : vm_sorted w lo l -> lo <= VM_END.
Proof.
  revert lo. induction l as [|q l IH]; intros lo; simpl; [done|].
  intros (r & _ & ? & ? & _ & _ & Hs). apply IH in Hs. lia.
Qed.

(** The gap search finds the lowest gap of [size] bytes, or the end of the last
    region. *)
Lemma vm_gap_spec w size lo l n :
  vm_sorted w lo l -> VM_START <= lo -> 0 < size ->
  exists vmem k, vm_gap w size lo l n = Some (vmem, (n + k)%nat) /\ (k <= length l)%nat /\
    lo <= vmem <= VM_END /\ (lo mod 4096 = 0 -> vmem mod 4096 = 0) /\
    (k = length l \/ vmem + size <= VM_END) /\
    (forall w' nd r, v_vaddr r = vmem -> v_size r = size -> size mod 4096 = 0 -> lo mod 4096 = 0 ->
       vmem + size <= VM_END -> w_regs w' !! nd = Some r ->
       (forall q, q ∈ l -> w_regs w' !! q = w_regs w !! q) ->
       vm_sorted w' lo (take k l ++ nd :: drop k l)) /\
    (forall j q r, (j < k)%nat -> l !! j = Some q -> w_regs w !! q = Some r ->
       v_vaddr r + v_size r <= vmem).
Proof.
  revert lo n. induction l as [|q l IH]; intros lo n Hs Hlo Hsz.
  - exists lo, 0%nat. rewrite Nat.add_0_r. simpl in *. split; [done|]. split; [lia|]. split; [lia|].
    split; [done|]. split; [by left|]. split; [|intros; lia].
    intros w' nd r Hv Hz Hal1 Hal2 Hend Hr _. exists r. rewrite Hv, Hz. split_and!; try done; lia.
  - pose proof Hs as (r & Hr & Hlov & Hpos & Ha1 & Ha2 & Hrest). simpl vm_gap. rewrite Hr. simpl.
    pose proof (vm_sorted_lo _ _ _ Hrest) as Hend. unfold VM_START, VM_END in *.
    unfold u32_sub. rewrite u32_id by lia. zcase.
    + exists lo, 0%nat. rewrite Nat.add_0_r. split; [done|]. split; [lia|]. split; [lia|].
      split; [done|]. split; [right; lia|]. split; [|intros; lia].
      intros w' nd r' Hv Hz Hal1 Hal2 _ Hr' Heq. simpl. exists r'. rewrite Hv, Hz.
      split_and!; try done; try lia. exists r. rewrite Heq by (by left). split_and!; try done; [lia|].
      eapply vm_sorted_ext; [|done]. intros. apply Heq. by right.
    + rewrite u32_id by lia.
      destruct (IH (v_vaddr r + v_size r) (S n)) as (vmem & k & -> & Hk & Hv & Hal & Hcase & Hins & Hbel);
        [done|lia|done|].
      exists vmem, (S k). rewrite Nat.add_succ_r. split; [done|]. split; [simpl; lia|].
      split; [lia|]. split; [intros; apply Hal; Z.div_mod_to_equations; lia|].
      split; [destruct Hcase; [left; simpl; lia|by right]|]. split.
      * intros w' nd r' Hv' Hz Hal1 Hal2 He Hr' Heq. simpl. exists r.
        rewrite Heq by (by left). split_and!; try done.
        eapply Hins; try done; [Z.div_mod_to_equations; lia|]. intros. apply Heq. by right.
      * intros [|j] q' r' Hj Hq' Hr'; simpl in Hq'.
        { injection Hq' as <-. assert (r' = r) as -> by congruence. lia. }
        eapply Hbel; [|done..]. lia.
Qed.

(** Two regions of a list do not overlap. *)
Lemma regions_apart w lo l nd nd' r r' :
  vm_sorted w lo l -> nd ∈ l -> nd' ∈ l -> w_regs w !! nd = Some r -> w_regs w !! nd' = Some r' -> nd' <> nd ->
  v_vaddr r + v_size r <= v_vaddr r' \/ v_vaddr r' + v_size r' <= v_vaddr r.
Proof.
  intros Hs Hel Hel' Hr Hr' Hne.
  destruct (vm_sorted_bounds w lo l nd r Hs Hel Hr) as (_ & Hp & _), (vm_sorted_bounds w lo l nd' r' Hs Hel' Hr') as (_ & Hp' & _).
  destruct (decide (v_vaddr r + v_size r <= v_vaddr r')); [by left|].
  destruct (decide (v_vaddr r' + v_size r' <= v_vaddr r)); [by right|]. destruct Hne.
  apply (region_unique w lo l nd' nd r' r (Z.max (v_vaddr r) (v_vaddr r'))); try done; lia.
Qed.

(** [find_vm] returns the region of an address. *)
Lemma find_vm_spec w lo l va n :
  store_inv w -> vm_sorted w lo l -> VM_START <= lo -> is_u32 va ->
  exists nd k, find_vm w l va n = Some (nd, (n + k)%nat) /\
    (nd = NULL /\ (forall q r, q ∈ l -> w_regs w !! q = Some r ->
       ~ (v_vaddr r <= va < v_vaddr r + v_size r)) \/
     nd <> NULL /\ l !! k = Some nd /\
       exists r, w_regs w !! nd = Some r /\ v_vaddr r <= va < v_vaddr r + v_size r).
Proof.
  intros Hst. revert lo n. induction l as [|q l IH]; intros lo n Hs Hlo Hva.
  { exists NULL, 0%nat. rewrite Nat.add_0_r. split; [done|]. left. split; [done|].
    intros q r Hq. by apply elem_of_nil in Hq. }
  destruct Hs as (r & Hr & Hlov & Hpos & _ & _ & Hrest). simpl find_vm. rewrite Hr. simpl.
  pose proof (vm_sorted_lo _ _ _ Hrest) as Hend. unfold VM_START, VM_END, is_u32 in *.
  assert (Hin : in_region r va = true <-> v_vaddr r <= va < v_vaddr r + v_size r).
  { unfold in_region, u32_sub. destruct (Z.leb_spec (v_vaddr r) va); simpl; [|lia].
    rewrite u32_id by lia. lia. }
  destruct (in_region r va).
  - exists q, 0%nat. rewrite Nat.add_0_r. split; [done|]. right.
    split; [apply (store_node w); [done|right; right; eauto]|]. split; [done|]. exists r. tauto.
  - destruct (IH (v_vaddr r + v_size r) (S n)) as (nd & k & -> & Hcase); [done|lia|done|].
    exists nd, (S k). rewrite Nat.add_succ_r. split; [done|].
    destruct Hcase as [[-> Hno]|(Hnd & Hk & Hex)]; [left|by right]. split; [done|].
    intros q' r' Hq' Hr'. apply elem_of_cons in Hq' as [->|Hq']; [|by eapply Hno].
    assert (r' = r) as -> by congruence. intros Hc. by apply Hin in Hc.
Qed.

Lemma page_align_up_bounds size : 0 < size <= VM_END - VM_START ->
  let a := page_align_up size in size <= a <= VM_END - VM_START /\ a mod 4096 = 0.
Proof.
  unfold VM_END, VM_START. intros Hs. rewrite page_align_up_spec by lia. simpl.
  Z.div_mod_to_equations. lia.
Qed.

Lemma procs_regions w w' pid p l na :
  procs_inv w -> w_procs w !! pid = Some p -> w_refs w' = w_refs w ->
  (forall d, is_Some (get_dir (w_pg w) d) -> is_Some (get_dir (w_pg w') d)) ->
  w_procs w' = <[pid := Process (p_kobj p) (p_kobj_count p) l na (p_page_dir p)]> (w_procs w) ->
  vm_sorted w' VM_START l -> NoDup l ->
  (forall q, q ∈ l -> q ∈ p_regions p \/ w_regs w !! q = None) ->
  (forall q, q ∉ p_regions p -> is_Some (w_regs w !! q) -> w_regs w' !! q = w_regs w !! q) ->
  (forall q, is_Some (w_regs w' !! q) -> q ∈ l \/ (is_Some (w_regs w !! q) /\ (q ∉ p_regions p))) ->
  procs_inv w'.
Proof.
  intros Hp Hpid Erefs Hdir Eprocs Hvm Hnd Hl Hkeep Hdom.
  assert (Hsame : forall pid' p', w_procs w' !! pid' = Some p' ->
    exists p0, w_procs w !! pid' = Some p0 /\ p_kobj p' = p_kobj p0 /\
      p_page_dir p' = p_page_dir p0 /\
      (pid' = pid /\ p_regions p' = l \/ pid' <> pid /\ p_regions p' = p_regions p0)).
  { intros pid' p'. rewrite Eprocs. intros [[<- <-]|[Hne Hp']]%lookup_insert_Some.
    - exists p. split_and!; try done. by left.
    - exists p'. split_and!; try done. by right. }
  assert (Hback : forall pid' p0, w_procs w !! pid' = Some p0 -> exists p',
    w_procs w' !! pid' = Some p' /\ p_kobj p' = p_kobj p0).
  { intros pid' p0 Hp0. rewrite Eprocs. destruct (decide (pid' = pid)) as [->|Hne].
    - rewrite lookup_insert_eq. eexists. split; [done|]. simpl. congruence.
    - rewrite lookup_insert_ne by done. eauto. }
  assert (Hothers : forall pid' p0 q, w_procs w !! pid' = Some p0 -> pid' <> pid ->
    q ∈ p_regions p0 -> (q ∉ p_regions p) /\ is_Some (w_regs w !! q)).
  { intros pid' p0 q Hp0 Hne Hq. split.
    - intros Hq'. apply Hne. exact (pi_reg_inj w Hp pid' p0 pid p q Hp0 Hq Hpid Hq').
    - pose proof (pi_vm w Hp pid' p0 Hp0) as Hs. clear -Hs Hq. revert Hs. generalize VM_START.
      induction (p_regions p0) as [|x xs IH]; intros lo Hs; [by apply elem_of_nil in Hq|].
      destruct Hs as (r & Hr & _ & _ & _ & _ & Hs). apply elem_of_cons in Hq as [->|Hq]; [eauto|].
      by eapply IH. }
  constructor.
  - intros pid' p' Hp'. destruct (Hsame _ _ Hp') as (p0 & Hp0 & -> & _). by eapply pi_slots.
  - intros pid' p' i r Hp' Hi. destruct (Hsame _ _ Hp') as (p0 & Hp0 & E & _). rewrite E in Hi.
    rewrite Erefs. by eapply pi_slot.
  - intros pid1 p1 i1 pid2 p2 i2 r H1 H2 H3 H4.
    destruct (Hsame _ _ H1) as (q1 & Hq1 & E1 & _), (Hsame _ _ H3) as (q2 & Hq2 & E2 & _).
    rewrite E1 in H2. rewrite E2 in H4. by eapply pi_slot_inj.
  - intros r. rewrite Erefs. intros Hr. destruct (pi_ref w Hp r Hr) as (pid' & p0 & i & Hp0 & Hi).
    destruct (Hback _ _ Hp0) as (p' & Hp' & E). exists pid', p', i. by rewrite E.
  - intros pid' p' Hp'. destruct (Hsame _ _ Hp') as (p0 & Hp0 & _ & _ & [[-> ->]|[Hne ->]]); [done|].
    apply (vm_sorted_ext w); [|by eapply pi_vm]. intros q Hq.
    destruct (Hothers _ _ _ Hp0 Hne Hq). by apply Hkeep.
  - intros pid1 p1 pid2 p2 r H1 Hr1 H2 Hr2.
    destruct (Hsame _ _ H1) as (q1 & Hq1 & _ & _ & C1), (Hsame _ _ H2) as (q2 & Hq2 & _ & _ & C2).
    assert (Hx : forall pid' p0, w_procs w !! pid' = Some p0 -> pid' <> pid -> r ∈ p_regions p0 ->
      r ∈ l -> False).
    { intros pid' p0 Hp0 Hne Hr Hrl. destruct (Hothers _ _ _ Hp0 Hne Hr) as [Hn [x Hx]].
      destruct (Hl r Hrl) as [?|?]; [done|congruence]. }
    destruct C1 as [[-> E1]|[N1 E1]], C2 as [[-> E2]|[N2 E2]]; rewrite E1 in Hr1; rewrite E2 in Hr2.
    + done.
    + destruct (Hx pid2 q2 Hq2 N2 Hr2 Hr1).
    + destruct (Hx pid1 q1 Hq1 N1 Hr1 Hr2).
    + by eapply pi_reg_inj.
  - intros pid' p' Hp'. destruct (Hsame _ _ Hp') as (p0 & Hp0 & _ & _ & [[-> ->]|[Hne ->]]); [done|].
    by eapply pi_nodup.
  - intros r Hr. destruct (Hdom r Hr) as [Hin|[Hold Hn]].
    + exists pid. eexists. rewrite Eprocs, lookup_insert_eq. split; [done|]. done.
    + destruct (pi_reg w Hp r Hold) as (pid' & p0 & Hp0 & Hin).
      assert (pid' <> pid) by (intros ->; congruence).
      exists pid', p0. by rewrite Eprocs, lookup_insert_ne.
  - intros pid' p' Hp'. destruct (Hsame _ _ Hp') as (p0 & Hp0 & _ & -> & _). apply Hdir.
    by eapply pi_dir.
Qed.

Definition with_regions (p : process) (l : list Z) (na : Z) : process :=
  Process (p_kobj p) (p_kobj_count p) l na (p_page_dir p).

(** There is room for [n] bytes between the regions of the process. *)
Definition fits w (p : process) (n : Z) : Prop :=
  exists v, VM_START <= v /\ v + n <= VM_END /\
    forall q r, q ∈ p_regions p -> w_regs w !! q = Some r -> v + n <= v_vaddr r \/ v_vaddr r + v_size r <= v.

(** No gap lies below the one that is found. *)
Lemma vm_gap_least w size lo l n vmem k v :
  vm_sorted w lo l -> VM_START <= lo -> 0 < size -> lo <= v ->
  (forall q r, q ∈ l -> w_regs w !! q = Some r -> v + size <= v_vaddr r \/ v_vaddr r + v_size r <= v) ->
  vm_gap w size lo l n = Some (vmem, k) -> vmem <= v.
Proof.
  revert lo n. induction l as [|q l IH]; intros lo n Hs Hlo Hsz Hv Hf; simpl; [by intros [= <- _]|].
  destruct Hs as (r & Hr & Hlov & Hpos & _ & _ & Hrest). rewrite Hr. simpl.
  pose proof (vm_sorted_lo _ _ _ Hrest) as Hend. unfold VM_START, VM_END, u32_sub in *. rewrite u32_id by lia.
  destruct (Hf q r (list_elem_of_here _ _) Hr) as [Hle|Hge].
  - zcase; [|lia]. by intros [= <- _].
  - zcase; [by intros [= <- _]|]. rewrite u32_id by lia. apply IH; [done|lia|done|lia|].
    intros q' r' Hq'. apply Hf. by right.
Qed.

Record alloc_post w w' (pid : Z) (p : process) (size flags inst nd : Z) : Prop := {
  al_inv : world_inv w';
  al_region : exists r k, w_regs w' = <[nd := r]> (w_regs w) /\ v_inst r = inst /\
    v_size r = page_align_up size /\ v_flags r = flags /\
    w_procs w' = <[pid := with_regions p (take k (p_regions p) ++ nd :: drop k (p_regions p))
                            (p_no_allocated p)]> (w_procs w);
  al_fresh : w_regs w !! nd = None;
  al_refs : w_refs w' = w_refs w;
  al_insts : exists i, w_insts w !! inst = Some i /\
    w_insts w' = <[inst := add_count i 1 0]> (w_insts w);
  al_mem : ps_mem (w_pg w') = ps_mem (w_pg w);
  al_heap : ps_heap (w_pg w') = snd (al_malloc (ps_heap (w_pg w)) SIZEOF_REGION) }.

Lemma vm_nodes w lo l : vm_sorted w lo l -> forall q, q ∈ l -> is_Some (w_regs w !! q).
Proof.
  revert lo. induction l as [|x l IH]; intros lo Hs q Hq; [by apply elem_of_nil in Hq|].
  destruct Hs as (r & Hr & _ & _ & _ & _ & Hs). apply elem_of_cons in Hq as [->|Hq]; [eauto|].
  by eapply IH.
Qed.

Lemma elem_of_insert_at {A} k (l : list A) x q :
  q ∈ take k l ++ x :: drop k l <-> q = x \/ q ∈ l.
Proof.
  rewrite elem_of_app, elem_of_cons. rewrite <-(take_drop k l) at 3. rewrite elem_of_app. tauto.
Qed.

Lemma NoDup_insert_at {A} k (l : list A) x :
  NoDup l -> x ∉ l -> NoDup (take k l ++ x :: drop k l).
Proof.
  intros Hn Hx. rewrite <-(take_drop k l) in Hn, Hx. rewrite elem_of_app in Hx.
  apply NoDup_app in Hn as (H1 & H2 & H3). apply NoDup_app. split_and!; [done| |].
  - intros y Hy [->|Hy']%elem_of_cons; [tauto|by eapply H2].
  - apply NoDup_cons. tauto.
Qed.

Lemma process_alloc_vm_spec w pid p size flags inst i :
  world_inv w -> w_procs w !! pid = Some p -> w_insts w !! inst = Some i ->
  0 < size <= VM_END - VM_START ->
  exists nd w', process_alloc_vm w pid size flags inst = Some (nd, w') /\
    (nd = NULL /\ w' = w /\
       (fits w p (page_align_up size) -> fst (al_malloc (ps_heap (w_pg w)) SIZEOF_REGION) = NULL) \/
     nd <> NULL /\ alloc_post w w' pid p size flags inst nd).
Proof.
  intros [Hs Hl Hp] Hpid Hi Hsz. unfold process_alloc_vm. zcase; [lia|].
  destruct (page_align_up_bounds size Hsz) as [Hb Hal]. cbv zeta in Hb, Hal.
  set (sz := page_align_up size) in *. rewrite Hpid. simpl.
  pose proof (pi_vm w Hp pid p Hpid) as Hvm.
  destruct (vm_gap_spec w sz VM_START (p_regions p) 0 Hvm) as
    (vmem & k & Egap & Hk & Hv & Hva & Hcase & Hins & _); [lia|lia|]. rewrite Egap. simpl.
  rewrite u32_id by (unfold VM_START, VM_END in *; lia).
  zcase.
  { exists NULL, w. split; [done|]. left. split; [done|]. split; [done|]. intros (v & Hv1 & Hv2 & Hvf).
    pose proof (vm_gap_least w sz VM_START _ _ _ _ v Hvm ltac:(lia) ltac:(lia) Hv1 Hvf Egap).
    exfalso. unfold VM_START, VM_END in *. lia. }
  destruct (kmalloc_spec w SIZEOF_REGION (si_mem w Hs)) as (nd & pg & Ek & Hnd); [done|].
  assert (Hheap : fst (al_malloc (ps_heap (w_pg w)) SIZEOF_REGION) = nd /\
    ps_heap pg = snd (al_malloc (ps_heap (w_pg w)) SIZEOF_REGION)).
  { unfold kmalloc in Ek. destruct (al_malloc _ _) as [a h]. injection Ek as -> Epg.
    by rewrite <-Epg. }
  destruct Hheap as [Hfst Hheap]. rewrite Ek.
  destruct Hnd as [[-> ->]|(Hne & Hfresh & Hpos & Hm & Hpm)].
  { exists NULL, w. rewrite with_pg_id. split; [done|by left]. }
  zcase; [done|]. unfold kobj_add_ref. simpl. rewrite Hi. simpl.
  eexists nd, _. split; [reflexivity|]. right. split; [done|].
  set (r := VmRegion vmem inst sz flags). set (w' := set_proc _ _ _).
  assert (Hndreg : w_regs w !! nd = None).
  { apply eq_None_not_Some. intros ?. apply Hfresh. right. by right. }
  assert (Hndl : nd ∉ p_regions p).
  { intros Hin. destruct (vm_nodes _ _ _ Hvm nd Hin). congruence. }
  assert (Hold : forall q, q ∈ p_regions p -> w_regs w' !! q = w_regs w !! q).
  { intros q Hq. simpl. rewrite lookup_insert_ne; [done|]. congruence. }
  destruct (store_gained w w' inst i nd 0) as [Hst Hlv]; try done.
  { simpl. eapply mem_ok_sub; [exact Hm|]. intros q [Hq|[Hq|Hq]]; simpl in Hq.
    - rewrite lookup_insert in Hq. left. left. case_decide; [subst; eauto|done].
    - left. right. by left.
    - rewrite lookup_insert in Hq. case_decide; [by right|]. left. right. by right. }
  { right. by exists r. }
  constructor; try done; [|by exists r, k|by exists i].
  constructor; [done| |].
  { apply Hlv; [by apply all_live_but|]. intros _. by apply (Hl inst). }
  apply (procs_regions w w' pid p (take k (p_regions p) ++ nd :: drop k (p_regions p))
           (p_no_allocated p)); try done.
  - intros d Hd. simpl. by rewrite (get_dir_mem (w_pg w)).
  - apply (Hins w' nd r); try done; [lia|simpl; apply lookup_insert_eq].
  - apply NoDup_insert_at; [by eapply pi_nodup|done].
  - intros q Hq. apply elem_of_insert_at in Hq as [->|Hq]; [by right|by left].
  - intros q _ [x Hx]. simpl. rewrite lookup_insert_ne; [done|]. congruence.
  - intros q. simpl. rewrite lookup_insert. case_decide as Hd; intros Hq.
    + left. apply elem_of_insert_at. by left.
    + destruct (decide (q ∈ p_regions p)); [left; apply elem_of_insert_at; by right|by right].
Qed.

(** [unmap_size] on a region of the process. *)
Lemma unmap_region (s : pstate H) dir es v size :
  pages_wf s -> get_dir s dir = Some es -> VM_START <= v -> 0 < size -> v + size <= VM_END ->
  v mod 4096 = 0 -> size mod 4096 = 0 ->
  exists k s', unmap_size s dir v size = Some (k, s') /\
    unmap_range_post s s' dir (v / 4096) (size / 4096).
Proof.
  unfold VM_START, VM_END. intros Hwf Hd Hv Hsz Hend Hav Has. unfold unmap_size.
  rewrite page_align_down_spec. cbv zeta. set (a := v / 4096).
  assert (Ea : v = a * 4096) by (unfold a; Z.div_mod_to_equations; lia).
  assert (Es : size = size / 4096 * 4096) by (Z.div_mod_to_equations; lia).
  set (n := size / 4096) in *.
  rewrite u32_id, page_align_up_spec by lia.
  replace ((a * 4096 + size + 4095) / 4096) with (a + n) by (Z.div_mod_to_equations; lia).
  destruct (unmap_loop_spec (Z.to_nat (((a + n) * 4096 - a * 4096) / PAGE_SIZE)) s dir es a (a + n) 0)
    as (s' & -> & Hpost); [done|done|lia|rewrite range_count; lia|lia|].
  rewrite range_count in Hpost by lia. eexists _, s'. split; [reflexivity|].
  by replace (a + n - a) with n in Hpost by lia.
Qed.

(** Losing the [k]th region of a process. *)
Lemma vm_sorted_remove w w' lo l k nd :
  vm_sorted w lo l -> l !! k = Some nd ->
  (forall q, q ∈ l -> q <> nd -> w_regs w' !! q = w_regs w !! q) -> NoDup l ->
  vm_sorted w' lo (take k l ++ drop (S k) l).
Proof.
  revert lo k. induction l as [|x l IH]; intros lo k Hs Hk He Hn; [done|].
  destruct Hs as (r & Hr & Hlov & Hpos & ? & ? & Hs). apply NoDup_cons in Hn as [Hx Hn].
  destruct k as [|k]; simpl in Hk |- *.
  - injection Hk as <-. apply (vm_sorted_ext w).
    + intros q Hq. apply He; [by right|]. by intros ->.
    + rewrite drop_0. clear -Hs Hlov Hpos. destruct l as [|y l]; simpl in *; [lia|].
      destruct Hs as (r' & Hr' & ? & ? & ? & ? & Hs). exists r'. split_and!; try done; lia.
  - exists r. rewrite He; [|by left|intros ->; by eapply Hx, list_elem_of_lookup_2].
    split_and!; try done. apply IH; try done. intros q Hq. apply He. by right.
Qed.

Lemma elem_of_remove_at {A} k (l : list A) x q :
  l !! k = Some x -> NoDup l -> q ∈ take k l ++ drop (S k) l <-> q ∈ l /\ q <> x.
Proof.
  intros Hk Hn. rewrite <-(take_drop_middle l k x Hk) in Hn |- * at 3.
  apply NoDup_app in Hn as (_ & H2 & H3). apply NoDup_cons in H3 as [H3 _].
  rewrite !elem_of_app, elem_of_cons. split.
  - intros [Hq|Hq]; split; try tauto; intros ->; [|done]. apply (H2 x Hq). by left.
  - tauto.
Qed.

Record unmap_vm_post w w' (pid : Z) (p : process) (nd : Z) (k : nat) : Prop := {
  uv_inv : world_inv w';
  uv_regs : w_regs w' = delete nd (w_regs w);
  uv_refs : w_refs w' = w_refs w;
  uv_procs : exists na, w_procs w' =
    <[pid := with_regions p (take k (p_regions p) ++ drop (S k) (p_regions p)) na]> (w_procs w);
  uv_gone r vp : w_regs w !! nd = Some r ->
    v_vaddr r / 4096 <= vp < v_vaddr r / 4096 + v_size r / 4096 ->
    translate (w_pg w') (p_page_dir p) vp = None }.

Lemma translate_mem (s s' : pstate H) d vp :
  ps_mem s' = ps_mem s -> translate s' d vp = translate s d vp.
Proof.
  intros E. unfold translate, tab_of, get_table. by rewrite (get_dir_mem s), E.
Qed.

Lemma set_proc_drop w1 pid p nd :
  with_regs (kfree (set_proc w1 pid p) nd SIZEOF_REGION) (delete nd (w_regs (set_proc w1 pid p))) =
  set_proc (drop_region w1 nd) pid p.
Proof. done. Qed.

Lemma process_unmap_vm_spec w pid p va :
  world_inv w -> w_procs w !! pid = Some p -> is_u32 va ->
  exists b w', process_unmap_vm w pid va = Some (b, w') /\ world_inv w' /\
    (b = false -> w' = w /\ forall q r, q ∈ p_regions p -> w_regs w !! q = Some r ->
       ~ (v_vaddr r <= va < v_vaddr r + v_size r)) /\
    (b = true -> exists nd k r, p_regions p !! k = Some nd /\ w_regs w !! nd = Some r /\
       v_vaddr r <= va < v_vaddr r + v_size r /\ unmap_vm_post w w' pid p nd k).
Proof.
  intros Hw Hpid Hva. pose proof Hw as [Hs Hl Hp]. unfold process_unmap_vm. rewrite Hpid. simpl.
  pose proof (pi_vm w Hp pid p Hpid) as Hvm. pose proof (pi_nodup w Hp pid p Hpid) as Hnd.
  destruct (find_vm_spec w VM_START (p_regions p) va 0 Hs Hvm) as (nd & k & -> & Hcase);
    [lia|done|]. simpl.
  destruct Hcase as [[-> Hno]|(Hne & Hk & r & Hr & Hin)].
  { exists false, w. split; [done|]. split; [done|]. by split. }
  zcase; [done|]. rewrite Hr. simpl.
  pose proof (list_elem_of_lookup_2 _ _ _ Hk) as Hel.
  destruct (vm_sorted_bounds w VM_START _ nd r Hvm Hel Hr) as (Hb1 & Hb2 & Hb3).
  assert (Hal : v_vaddr r mod 4096 = 0 /\ v_size r mod 4096 = 0).
  { by apply (region_aligned w VM_START (p_regions p) nd r). }
  destruct Hal as [Ha1 Ha2]. destruct (pi_dir w Hp pid p Hpid) as [es Hes].
  destruct (unmap_region (w_pg w) (p_page_dir p) es (v_vaddr r) (v_size r)) as (um & pg & -> & Hu);
    [apply Hs|done..|]. rewrite bind_Some_l.
  assert (Hmem : mem_ok pg (node w)).
  { eapply mem_ok_extends; [apply Hs|done|apply Hu|apply Hu]. }
  destruct (drop_region_spec (with_pg w pg) nd r) as (w1 & -> & Hp1 & Hr1 & Hd);
    [by apply store_with_pg|done|]. rewrite bind_Some_l.
  eexists true, _. rewrite set_proc_drop. split; [reflexivity|].
  set (p' := Process _ _ _ _ _). set (w' := set_proc _ _ _). destruct Hd as [D1 D2 D3 D4 D5 D6].
  simpl in D3, D4, D5, D6.
  assert (Hregs : w_regs w' = delete nd (w_regs w)) by exact D4.
  assert (Hprocs : w_procs w' = <[pid := p']> (w_procs w)) by (simpl in *; by rewrite Hp1).
  assert (Hwi : world_inv w').
  { constructor; [by apply store_set_proc|by apply D2|].
    apply (procs_regions w w' pid p (take k (p_regions p) ++ drop (S k) (p_regions p))
             (p_no_allocated p - um)); try done.
    - intros d Hd. simpl. rewrite (get_dir_mem pg) by done.
      eapply (extends_dirs (w_pg w) pg); [apply Hs|done|apply Hu|apply Hu|done].
    - eapply vm_sorted_remove; try done. intros q Hq Hqn. rewrite Hregs.
      by rewrite lookup_delete_ne.
    - rewrite <-(take_drop_middle _ k nd Hk) in Hnd. apply NoDup_app in Hnd as (N1 & N2 & N3).
      apply NoDup_cons in N3 as [_ N3]. apply NoDup_app. split_and!; [done| |done].
      intros x Hx Hx'. apply (N2 x Hx). by right.
    - intros q Hq. apply (elem_of_remove_at k _ nd) in Hq; [|done..]. left. tauto.
    - intros q Hq _. rewrite Hregs, lookup_delete_ne; [done|]. congruence.
    - intros q Hq. rewrite Hregs in Hq. destruct Hq as [x [Hqn Hx]%lookup_delete_Some].
      destruct (decide (q ∈ p_regions p)) as [Hqi|]; [left|right; eauto].
      apply (elem_of_remove_at k _ nd); [done..|]. split; [done|]. congruence. }
  split; [done|]. split; [done|]. intros _. exists nd, k, r. split_and!; try done; try lia.
  constructor; try done; [by eexists|].
  intros r' vp Hr' Hvp. assert (r' = r) as -> by congruence. rewrite (translate_mem pg) by done.
  by apply (ur_at _ _ _ _ _ Hu).
Qed.

Lemma free_vm_loop_spec w l :
  store_inv w -> all_live w -> NoDup l -> (forall q, q ∈ l -> is_Some (w_regs w !! q)) ->
  exists w', free_vm_loop w l = Some w' /\ store_inv w' /\ all_live w' /\
    w_refs w' = w_refs w /\ w_procs w' = w_procs w /\ ps_mem (w_pg w') = ps_mem (w_pg w) /\
    (forall q, w_regs w' !! q = if decide (q ∈ l) then None else w_regs w !! q).
Proof.
  revert w. induction l as [|nd l IH]; intros w Hs Hl Hnd Hin; simpl.
  { exists w. split_and!; try done. }
  apply NoDup_cons in Hnd as [Hx Hnd]. destruct (Hin nd) as [r Hr]; [by left|]. rewrite Hr. simpl.
  destruct (drop_region_spec w nd r Hs Hr) as (w1 & -> & Hp1 & Hr1 & [D1 D2 D3 D4 D5 D6]). simpl.
  destruct (IH (drop_region w1 nd)) as (w' & E & ? & ? & Er & Ep & Em & Hreg); [done|by apply D2|done| |].
  { intros q Hq. rewrite D4, lookup_delete_ne; [apply Hin; by right|]. congruence. }
  exists w'. split; [exact E|]. split_and!; try done; [by rewrite Er|by rewrite Ep|by rewrite Em|].
  intros q. rewrite Hreg, D4. destruct (decide (q ∈ l)) as [Hq|Hq], (decide (q ∈ nd :: l)) as [Hq'|Hq'];
    try done.
  - exfalso. apply Hq'. by right.
  - apply elem_of_cons in Hq' as [->|?]; [by rewrite lookup_delete_eq|done].
  - rewrite lookup_delete_ne; [done|]. intros <-. apply Hq'. by left.
Qed.

Lemma process_free_vm_spec w pid p :
  world_inv w -> w_procs w !! pid = Some p ->
  exists w', process_free_vm w pid = Some w' /\ world_inv w' /\
    w_procs w' = <[pid := with_regions p [] (p_no_allocated p)]> (w_procs w) /\
    w_refs w' = w_refs w.
Proof.
  intros [Hs Hl Hp] Hpid. unfold process_free_vm. rewrite Hpid. simpl.
  pose proof (pi_vm w Hp pid p Hpid) as Hvm.
  destruct (free_vm_loop_spec w (p_regions p) Hs Hl) as (w1 & -> & H1 & H2 & Er & Ep & Em & Hreg);
    [by eapply pi_nodup|by eapply vm_nodes|]. simpl. eexists. split; [reflexivity|].
  set (w' := set_proc _ _ _).
  assert (Hprocs : w_procs w' = <[pid := with_regions p [] (p_no_allocated p)]> (w_procs w))
    by (simpl; by rewrite Ep).
  split; [|by split].
  constructor; [by apply store_set_proc|done|].
  apply (procs_regions w w' pid p [] (p_no_allocated p)); try done.
  - intros d Hd. simpl. by rewrite (get_dir_mem (w_pg w)).
  - constructor.
  - intros q Hq. by apply elem_of_nil in Hq.
  - intros q Hq _. simpl. rewrite Hreg. by case_decide.
  - intros q. simpl. rewrite Hreg. case_decide; [by intros [? ?]|]. by right.
Qed.


(** [map_size] on page aligned operands. *)
Lemma map_region (s : pstate H) dir es p v size u rw nc :
  pages_wf s -> get_dir s dir = Some es -> 0 <= p -> p + size + 4095 < 2 ^ 32 -> 0 < size ->
  VM_START <= v -> v + size <= VM_END -> p mod 4096 = 0 -> v mod 4096 = 0 -> size mod 4096 = 0 ->
  exists k s', map_size s dir p v size u rw nc = Some (k, s') /\ 0 <= k <= size / 4096 /\
    map_range_post s s' dir (p / 4096) (v / 4096) k u rw nc /\
    (gives (ps_heap s) (replicate (tables_for s dir (v / 4096) (size / 4096)) 4096) = true -> k = size / 4096).
Proof.
  unfold VM_START, VM_END. intros Hwf Hd Hp Hmax Hsz Hv Hve Ha1 Ha2 Ha3. unfold map_size.
  rewrite !page_align_down_spec, u32_id, page_align_up_spec by lia.
  replace ((p + size + 4095) / 4096) with (p / 4096 + size / 4096) by (Z.div_mod_to_equations; lia).
  set (a := p / 4096). set (b := v / 4096). set (n := size / 4096).
  assert (0 <= a /\ 0 < n /\ 0 <= b /\ a + n < 2 ^ 20 /\ b + n <= 2 ^ 20)
    by (unfold a, b, n; Z.div_mod_to_equations; lia).
  assert (HN : Z.of_nat (Z.to_nat (((a + n) * 4096 - a * 4096) / PAGE_SIZE)) = n) by (rewrite range_count; lia).
  set (N := Z.to_nat _) in *.
  destruct (map_loop_spec N s dir es a b (a + n) u rw nc 0) as (k & s' & E & Hk & Hpost); try done; try lia.
  rewrite E. exists k, s'. split; [done|]. split; [lia|]. split; [done|].
  intros Hg. rewrite <-HN in Hg. destruct (map_loop_gives N s dir es a b (a + n) u rw nc 0) as (s2 & E2); try done; try lia.
  rewrite E in E2. injection E2 as Ek _. lia.
Qed.

(** Changing only the page tables keeps the world. *)
Lemma world_with_pg w pg dir es :
  world_inv w -> get_dir (w_pg w) dir = Some es -> extends dir (w_pg w) pg -> pages_wf pg ->
  is_Some (get_dir pg dir) -> world_inv (with_pg w pg).
Proof.
  intros [Hs Hl Hp] Hd He Hwf Hd'. constructor; [|done|].
  - apply store_with_pg; [done|]. eapply mem_ok_extends; [apply Hs|done..].
  - pose proof Hp as [A1 A2 A3 A4 A5 A6 A7 A8 A9]. constructor; try done.
    + intros pid p Hpid. apply (vm_sorted_ext w); [done|]. by eapply A5.
    + intros pid p Hpid. simpl. eapply (extends_dirs (w_pg w) pg); [apply Hs|done..|by eapply A9].
Qed.

Lemma world_set_na w pid p na :
  world_inv w -> w_procs w !! pid = Some p ->
  world_inv (set_proc w pid (with_regions p (p_regions p) na)).
Proof.
  intros [Hs Hl Hp] Hpid. constructor; [by apply store_set_proc|done|].
  apply (procs_regions w _ pid p (p_regions p) na); try done.
  - apply (vm_sorted_ext w); [done|]. by eapply pi_vm.
  - by eapply pi_nodup.
  - intros q Hq. by left.
  - intros q Hq. destruct (decide (q ∈ p_regions p)); [by left|by right].
Qed.

(** The page offset of the mapping, and the size that is mapped. *)
Definition map_offset (m : kobj_mapping) : Z := m_paddr m mod 4096.
Definition map_bytes (m : kobj_mapping) : Z := page_align_up (m_size m + map_offset m).

Definition mapping_ok (m : kobj_mapping) : Prop :=
  0 <= m_paddr m /\ 0 < m_size m /\ m_size m + map_offset m <= VM_END - VM_START /\
  m_paddr m + m_size m + 12288 < 2 ^ 32.

(** Pages [v ..] of the process translate to the frames of the mapping. *)
Definition maps_to (s : pstate H) (dir v : Z) (m : kobj_mapping) (rw : bool) : Prop :=
  forall i, 0 <= i < map_bytes m / 4096 ->
    exists t, translate s dir (v / 4096 + i) = Some t /\
      mapped_to t ((m_paddr m / 4096 + i) * 4096) 1 (b2z rw) (b2z (m_no_cache m)).

(** The object of reference [k] was mapped at [v], through the region node [nd]; [a] is the
    address of its first byte. *)
Record kobj_mapped w w' (pid : Z) (p : process) (k : kobj_ref) (m : kobj_mapping) (a v nd : Z) : Prop := {
  km_addr : a = v + map_offset m;
  km_range : v mod 4096 = 0 /\ VM_START <= v /\ v + map_bytes m <= VM_END;
  km_maps : maps_to (w_pg w') (p_page_dir p) v m (negb (Z.land (r_rights k) KOBJ_RIGHT_WRITE =? 0));
  km_fresh q r : q ∈ p_regions p -> w_regs w !! q = Some r ->
    v + map_bytes m <= v_vaddr r \/ v_vaddr r + v_size r <= v;
  km_new : w_regs w !! nd = None;
  km_regs : exists f, w_regs w' = <[nd := VmRegion v (r_inst k) (map_bytes m) f]> (w_regs w);
  km_procs : exists i na, w_procs w' =
    <[pid := with_regions p (take i (p_regions p) ++ nd :: drop i (p_regions p)) na]> (w_procs w);
  km_rest : agrees_outside (w_pg w) (w_pg w') (p_page_dir p) (v / 4096) (map_bytes m / 4096) }.

(** The object can be mapped, its size fits, and the allocator has the node of the region,
    a table for each 4 MB and two more. *)
Definition can_map w (p : process) (k : kobj_ref) (m : kobj_mapping) : Prop :=
  (exists i, w_insts w !! r_inst k = Some i /\ has_map (kobjs (i_type i)) = true) /\ fits w p (map_bytes m) /\
  gives (ps_heap (w_pg w)) (SIZEOF_REGION :: replicate (Z.to_nat (map_bytes m / 4096 / 1024 + 2)) 4096) = true.

Lemma process_map_kobj_spec w pid p rp k m :
  world_inv w -> w_procs w !! pid = Some p -> w_refs w !! rp = Some k ->
  match m with Some m => mapping_ok m | None => True end ->
  exists a w', process_map_kobj w pid rp m = Some (a, w') /\ world_inv w' /\
    (a <> 0 -> exists mp v nd, m = Some mp /\ kobj_mapped w w' pid p k mp a v nd) /\
    (a = 0 -> w_refs w' = w_refs w /\ w_regs w' = w_regs w /\
       forall mp, m = Some mp -> ~ can_map w p k mp).
Proof.
  intros Hw Hpid Hk Hm. pose proof Hw as [Hs Hl Hp]. unfold process_map_kobj. rewrite Hk. simpl.
  destruct (si_ref w Hs rp k Hk) as [i Hi]. rewrite Hi. simpl. destruct (has_map (kobjs (i_type i))) eqn:Hmap; simpl negb; cbv iota.
  2: { exists 0, w. split; [done|]. split; [done|]. split; [done|]. intros _. split_and!; [done|done|].
       intros mp _ [(i' & Hi' & Hm') _]. congruence. }
  destruct m as [m|]; [|exists 0, w; split; [done|]; split; [done|]; by split].
  destruct Hm as (Hm1 & Hm2 & Hm3 & Hm4).
  set (rw := negb (Z.land (r_rights k) KOBJ_RIGHT_WRITE =? 0)) in *.
  assert (Hof : 0 <= map_offset m < 4096) by (apply Z.mod_pos_bound; lia).
  fold (map_offset m). unfold VM_START, VM_END in Hm3.
  rewrite (u32_id (m_size m + map_offset m)) by lia. fold (map_bytes m).
  assert (Hmb : m_size m + map_offset m <= map_bytes m < m_size m + 8192 /\ map_bytes m mod 4096 = 0 /\
    map_bytes m <= VM_END - VM_START).
  { unfold map_bytes, VM_END, VM_START. rewrite page_align_up_spec by lia.
    Z.div_mod_to_equations. lia. }
  destruct Hmb as (Hb1 & Hb2 & Hb3).
  destruct (process_alloc_vm_spec w pid p (map_bytes m)
    (Z.lor (if rw then VM_FLAG_WRITE else 0) (if m_no_cache m then VM_FLAG_NO_CACHE else 0))
    (r_inst k) i Hw Hpid Hi) as (nd & w1 & -> & Hcase); [lia|]. rewrite bind_Some_l.
  assert (Hup : page_align_up (map_bytes m) = map_bytes m).
  { unfold VM_END, VM_START in *. rewrite (page_align_up_spec (map_bytes m)) by lia. clear -Hb2.
    Z.div_mod_to_equations. lia. }
  rewrite Hup in Hcase.
  destruct Hcase as [(-> & -> & Hfull)|[Hne [Hw1 (r & kk & Hregs & Hri & Hrs & Hrf & Hprocs) Hfr Hrefs Hins Hmem Hheap]]].
  { simpl. exists 0, w. split; [done|]. split; [done|]. split; [done|]. intros _. split_and!; [done|done|].
    intros mp [= <-] (_ & Hfit & Hg). cbn [gives] in Hg. by rewrite (Hfull Hfit) in Hg. }
  zcase; [done|]. rewrite Hregs, lookup_insert_eq, bind_Some_l.
  rewrite Hprocs, lookup_insert_eq, bind_Some_l.
  set (p1 := with_regions p _ _) in *.
  assert (Hpid1 : w_procs w1 !! pid = Some p1) by (by rewrite Hprocs, lookup_insert_eq).
  assert (Hsz : v_size r = map_bytes m) by congruence.
  pose proof (pi_vm w1 (wi_procs w1 Hw1) pid p1 Hpid1) as Hvm1.
  assert (Hel : nd ∈ p_regions p1) by (apply elem_of_insert_at; by left).
  assert (Hr1 : w_regs w1 !! nd = Some r) by (by rewrite Hregs, lookup_insert_eq).
  destruct (vm_sorted_bounds w1 VM_START _ nd r Hvm1 Hel Hr1) as (Hv1 & Hv2 & Hv3).
  assert (Hva : v_vaddr r mod 4096 = 0).
  { by apply (region_aligned w1 VM_START (p_regions p1) nd r). }
  destruct (pi_dir w1 (wi_procs w1 Hw1) pid p1 Hpid1) as [es Hes].
  change (p_page_dir p1) with (p_page_dir p) in *.
  destruct (map_region (w_pg w1) (p_page_dir p) es (m_paddr m - map_offset m) (v_vaddr r)
    (map_bytes m) 1 (b2z rw) (b2z (m_no_cache m))) as (c & pg & -> & Hcr & Hpost & Hall);
    [apply Hw1|done|unfold map_offset; Z.div_mod_to_equations; lia|unfold map_offset in *; lia|lia|lia|lia
    |unfold map_offset; Z.div_mod_to_equations; lia|done|done|].
  rewrite bind_Some_l.
  replace ((m_paddr m - map_offset m) / 4096) with (m_paddr m / 4096) in Hpost
    by (unfold map_offset; Z.div_mod_to_equations; lia).
  assert (Hw2 : world_inv (with_pg w1 pg)).
  { eapply world_with_pg; [done|done|apply Hpost|apply Hpost|apply Hpost]. }
  pose proof (world_set_na (with_pg w1 pg) pid p1 (p_no_allocated p1 + c) Hw2 Hpid1) as Hw3.
  set (w3 := set_proc (with_pg w1 pg) pid _) in *.
  change (set_proc (with_pg w1 pg) pid _) with w3.
  assert (Hquot : Z.quot (map_bytes m) PAGE_SIZE = map_bytes m / 4096)
    by (apply Z.quot_div_nonneg; unfold PAGE_SIZE; lia).
  rewrite Hquot. destruct (Z.eqb_spec c (map_bytes m / 4096)) as [->|Hcn]; simpl negb; cbv iota.
  - eexists _, w3. split; [reflexivity|]. split; [done|].
    rewrite u32_id by (unfold VM_START, VM_END in *; lia). split; [|unfold VM_START, VM_END in *; lia].
    intros _. exists m, (v_vaddr r), nd. split; [done|]. constructor.
    + done.
    + split_and!; [done|lia|lia].
    + intros j Hj. by apply (mr_at _ _ _ _ _ _ _ _ _ Hpost).
    + intros q r' Hq Hr'. rewrite <-Hsz. apply (regions_apart w1 VM_START (p_regions p1) nd q r r'); try done.
      * apply elem_of_insert_at. by right.
      * rewrite Hregs, lookup_insert_ne; [done|]. congruence.
      * congruence.
    + done.
    + exists (v_flags r). simpl. rewrite Hregs, <-Hsz, <-Hri. by destruct r.
    + exists kk, (p_no_allocated p1 + map_bytes m / 4096). simpl. rewrite Hprocs. by rewrite insert_insert_eq.
    + intros d vp Hn. change (w_pg w3) with pg. rewrite (mr_ne _ _ _ _ _ _ _ _ _ Hpost) by done. by apply translate_mem.
  - destruct (process_unmap_vm_spec w3 pid (with_regions p1 (p_regions p1) (p_no_allocated p1 + c))
      (v_vaddr r) Hw3) as (b & w4 & -> & Hw4 & Hf & Ht);
      [simpl; by rewrite lookup_insert_eq|unfold is_u32, VM_START, VM_END in *; lia|]. simpl.
    exists 0, w4. split; [done|]. split; [done|]. split; [done|]. intros _. split_and!; [| |intros mp [= <-] (_ & _ & Hg)].
    3: { apply Hcn, Hall. rewrite Hheap. cbn [gives] in Hg. apply andb_prop in Hg as [_ Hg].
         apply (gives_prefix _ _ (Z.to_nat (map_bytes m / 4096 / 1024 + 2) -
           tables_for (w_pg w1) (p_page_dir p) (v_vaddr r / 4096) (map_bytes m / 4096))).
         rewrite Nat.add_comm, Nat.sub_add; [done|]. unfold tables_for. destruct (tab_of _ _ _); Z.div_mod_to_equations; lia. }
    all: destruct b; [|exfalso; destruct (Hf eq_refl) as [_ Hno]; apply (Hno nd r); simpl; [done|done|lia]].
    all: destruct (Ht eq_refl) as (nd' & k' & r' & Hk' & Hr' & Hin' & [_ Hu2 Hu3 _ _]); simpl in Hk', Hr', Hu2, Hu3.
    + by rewrite Hu3.
    + rewrite Hu2, Hregs.
      assert (nd' = nd) as ->.
      { apply list_elem_of_lookup_2 in Hk'. by apply (region_unique w1 VM_START (p_regions p1) nd' nd r' r (v_vaddr r)); try done; lia. }
      by apply delete_insert_id.
Qed.

Lemma create_kobj_inst_spec w t data :
  store_inv w ->
  exists p w', create_kobj_inst w t data = (p, w') /\
    (p = NULL /\ w' = w \/
     p <> NULL /\ w_insts w !! p = None /\ store_inv w' /\
     (exists i, w_insts w' = <[p := i]> (w_insts w) /\ i_type i = t /\ i_data i = data) /\
     w_refs w' = w_refs w /\ w_regs w' = w_regs w /\ w_procs w' = w_procs w /\
     ps_mem (w_pg w') = ps_mem (w_pg w)).
Proof.
  intros Hs. unfold create_kobj_inst.
  destruct (kmalloc_spec w SIZEOF_INST (si_mem w Hs)) as (p & pg & -> & Hcase); [done|].
  destruct Hcase as [[-> ->]|(Hne & Hfresh & Hpos & Hm & Hpm)].
  { exists NULL, w. rewrite with_pg_id. split; [done|by left]. }
  zcase; [done|]. set (i := KInst _ _ _ _ _ _). set (w' := set_inst _ _ _).
  exists p, w'. split; [done|]. right. split; [done|].
  assert (Hn : w_insts w !! p = None) by (apply eq_None_not_Some; intros ?; apply Hfresh; by left).
  split; [done|]. pose proof Hs as [_ D1 D2 D3 R1 R2 C].
  assert (Hne' : forall q, is_Some (w_insts w !! q) -> q <> p) by (intros q [x Hx] ->; congruence).
  split; [|split; [by exists i|done]]. constructor; try done.
  - eapply mem_ok_sub; [exact Hm|]. intros q [Hq|[Hq|Hq]]; simpl in Hq.
    + rewrite lookup_insert in Hq. case_decide; [by right|left; by left].
    + left. right. by left.
    + left. right. by right.
  - intros q. simpl. rewrite lookup_insert. case_decide; [|by auto]. intros _. subst.
    apply eq_None_not_Some. intros ?. apply Hfresh. right. by left.
  - intros q. simpl. rewrite lookup_insert. case_decide; [|by auto]. intros _. subst.
    apply eq_None_not_Some. intros ?. apply Hfresh. right. by right.
  - intros r k Hk. simpl. rewrite lookup_insert. case_decide; [eauto|by eapply R1].
  - intros r k Hk. simpl. rewrite lookup_insert. case_decide; [eauto|by eapply R2].
  - intros q x. simpl. intros [[<- <-]|[_ Hx]]%lookup_insert_Some; [|by apply C].
    rewrite !count_zero; [done| |].
    + intros r k Hk. by apply Hne', (R2 r k).
    + intros r k Hk. by apply Hne', (R1 r k).
Qed.

Lemma procs_inv_same w w' :
  procs_inv w -> w_refs w' = w_refs w -> w_regs w' = w_regs w -> w_procs w' = w_procs w ->
  ps_mem (w_pg w') = ps_mem (w_pg w) -> procs_inv w'.
Proof.
  intros [A1 A2 A3 A4 A5 A6 A7 A8 A9] E1 E2 E3 E4.
  constructor; rewrite ?E1, ?E2, ?E3; try done.
  - intros pid p Hp. apply (vm_sorted_ext w); [by rewrite E2|]. by eapply A5.
  - intros pid p Hp. rewrite (get_dir_mem (w_pg w)) by done. by eapply A9.
Qed.

(** A new instance that is freed before it has a handle. *)
Lemma drop_new_inst w w1 inst i log :
  world_inv w -> store_inv w1 -> w_insts w !! inst = None -> w_insts w1 = <[inst := i]> (w_insts w) ->
  w_refs w1 = w_refs w -> w_regs w1 = w_regs w -> w_procs w1 = w_procs w -> ps_mem (w_pg w1) = ps_mem (w_pg w) ->
  let w3 := with_insts (kfree (with_log w1 log) inst SIZEOF_INST) (delete inst (w_insts w1)) in
  world_inv w3 /\ w_insts w3 = w_insts w.
Proof.
  intros [Hs Hl Hp] Hs1 Hfresh Hin E1 E2 E3 E4 w3.
  assert (Hi1 : w_insts w1 !! inst = Some i) by (by rewrite Hin, lookup_insert_eq).
  assert (Hin3 : w_insts w3 = w_insts w).
  { simpl. rewrite Hin. by apply delete_insert_id. }
  split; [|done]. constructor; [|unfold all_live; by rewrite Hin3|by apply (procs_inv_same w)].
  pose proof Hs as [_ D1 D2 D3 R1 R2 C].
  constructor; rewrite ?Hin3; simpl; rewrite ?E1, ?E2; try done.
  eapply mem_ok_sub; [apply (mem_ok_free _ (node w1) SIZEOF_INST inst); [apply Hs1|done|left; eauto]|].
  intros q Hq. unfold node in Hq. rewrite Hin3 in Hq. simpl in Hq. rewrite E1, E2 in Hq.
  assert (Hnq : q <> inst).
  { intros ->. destruct Hq as [[x Hx]|[Hx|Hx]]; [congruence| |].
    - rewrite <-E1, (si_inst_ref w1 Hs1 inst) in Hx; [by destruct Hx|eauto].
    - rewrite <-E2, (si_inst_reg w1 Hs1 inst) in Hx; [by destruct Hx|eauto]. }
  split; [|done]. unfold node. rewrite Hin, E1, E2, lookup_insert_ne by done. done.
Qed.

Lemma fs_file_handle_spec w pid p file :
  world_inv w -> w_procs w !! pid = Some p ->
  exists h w', fs_file_handle w pid file = Some (h, w') /\ world_inv w' /\
    (h < 0 -> w_insts w' = w_insts w /\ w_refs w' = w_refs w /\ w_procs w' = w_procs w) /\
    (0 <= h -> exists inst i, w_insts w !! inst = None /\ i_data i = file /\
       acquire_post (set_inst w inst i) w' pid p inst h).
Proof.
  intros [Hs Hl Hp] Hpid. unfold fs_file_handle.
  destruct (create_kobj_inst_spec w KOBJ_FILE file Hs) as (inst & w1 & -> & Hcase).
  destruct Hcase as [[-> ->]|(Hne & Hfresh & Hs1 & (i & Hin & Hty & Hdata) & E1 & E2 & E3 & E4)].
  { exists (-1), (with_event w (EFree NULL KOBJ_FILE file)). split; [done|].
    split; [|split; [done|lia]]. constructor; [by destruct Hs|done|by apply (procs_inv_same w)]. }
  zcase; [done|].
  assert (Hp1 : procs_inv w1) by by eapply procs_inv_same.
  assert (Hi1 : w_insts w1 !! inst = Some i) by (by rewrite Hin, lookup_insert_eq).
  assert (Hlb : live_but w1 inst).
  { intros q x Hq. rewrite Hin, lookup_insert_ne by done. by apply (Hl q). }
  destruct (process_acquire_kobj_spec w1 pid p inst i Hs1 Hp1) as (h & w2 & -> & Hcase);
    [by rewrite E3|done|]. rewrite bind_Some_l. destruct Hcase as [[-> ->]|[Hh Ha]].
  - rewrite (free_kobj_inst_eq w1 inst i Hi1). simpl.
    eexists (-1), _. split; [reflexivity|].
    destruct (drop_new_inst w w1 inst i (w_log w1 ++ stop_log inst i ++ [EFree inst (i_type i) (i_data i)])) as [? Hin3]; done.
  - zcase; [lia|]. exists h, w2. split; [done|]. split; [by apply Ha|]. split; [lia|].
    intros _. exists inst, i. split; [done|]. split; [done|]. destruct Ha as [B1 B2 B3 B4 B5].
    constructor; try done.
    + intros Hlb'. apply B1. intros q x Hq Hx. apply (Hlb' q x Hq). simpl. by rewrite <-Hin.
    + intros pid' Hn. simpl. by rewrite B5, E3.
Qed.

Lemma kstep_inv w w' : world_inv w -> kstep w w' -> world_inv w'.
Proof.
  intros Hw Hstep. destruct Hstep as [pid file h w' [p Hp] E|pid h b w' [p Hp] E|pid w' [p Hp] E
    |send recv h h' w' [p Hp] [q Hq] E|pid r m a w' [p Hp] [k Hk] Hm E|pid va b w' [p Hp] Hva E
    |pid w' [p Hp] E].
  - destruct (fs_file_handle_spec w pid p file Hw Hp) as (? & ? & E' & ? & _). congruence.
  - destruct (process_release_kobj_spec w pid p h Hw Hp) as (? & ? & E' & ? & _). congruence.
  - destruct (process_release_kobjs_spec w pid p Hw Hp) as (? & ? & E' & ? & _). congruence.
  - destruct (process_copy_kobj_spec w send recv p q h Hw Hp Hq) as (? & ? & E' & ? & _). congruence.
  - destruct (process_map_kobj_spec w pid p r k m Hw Hp Hk) as (? & ? & E' & ? & _);
      [by destruct m|congruence].
  - destruct (process_unmap_vm_spec w pid p va Hw Hp Hva) as (? & ? & E' & ? & _). congruence.
  - destruct (process_free_vm_spec w pid p Hw Hp) as (? & E' & ? & _). congruence.
Qed.

(** Before any object exists: processes with empty slots and no regions. *)
Definition empty_process (dir : Z) : process :=
  Process (replicate 64 None) 0 [] 0 dir.

Definition world_boot (pg : pstate H) (procs : gmap Z process) : world :=
  World pg ∅ ∅ ∅ procs 1 1 [].

Lemma world_boot_inv pg procs :
  pages_wf pg ->
  map_Forall (fun _ p => exists d, p = empty_process d /\ is_Some (get_dir pg d)) procs ->
  world_inv (world_boot pg procs).
Proof.
  intros Hwf Hprocs.
  assert (Hslot : forall pid p i r, procs !! pid = Some p -> zget (p_kobj p) i <> Some (Some r)).
  { intros pid p i r Hp Hi. destruct (Hprocs pid p Hp) as (d & -> & _). unfold zget in Hi.
    zcase_on (0 <=? i); [|done]. by apply lookup_replicate in Hi as [? _]. }
  constructor; [|by intros p i Hi; simpl in Hi; rewrite lookup_empty in Hi|].
  - constructor; simpl; try (intros ? ?; by rewrite lookup_empty);
      try (intros ? ? ?; by rewrite lookup_empty in *); try (intros ? [? Hx]; by rewrite lookup_empty in Hx).
    constructor; [done|]. intros p [[x Hx]|[[x Hx]|[x Hx]]]; simpl in Hx; by rewrite lookup_empty in Hx.
  - constructor; simpl.
    + intros pid p Hp. by destruct (Hprocs pid p Hp) as (d & -> & _).
    + intros pid p i r Hp Hi. by apply (Hslot pid p i r) in Hi.
    + intros pid1 p1 i1 pid2 p2 i2 r Hp Hi. by apply (Hslot pid1 p1 i1 r) in Hi.
    + intros r [x Hx]. by rewrite lookup_empty in Hx.
    + intros pid p Hp. by destruct (Hprocs pid p Hp) as (d & -> & _).
    + intros pid1 p1 pid2 p2 r Hp Hr. destruct (Hprocs pid1 p1 Hp) as (d & -> & _).
      by apply elem_of_nil in Hr.
    + intros pid p Hp. destruct (Hprocs pid p Hp) as (d & -> & _). constructor.
    + intros r [x Hx]. by rewrite lookup_empty in Hx.
    + intros pid p Hp. by destruct (Hprocs pid p Hp) as (d & -> & ?).
Qed.

End kobj.

Arguments world H : clear implicits.

(** The witnesses: one process, the empty directory of Paging. *)
Definition kobj_boot : world heap :=
  world_boot boot1 {[ 1 := empty_process HEAP_KERNEL ]}.

Lemma kobj_boot_inv : world_inv kobj_boot.
Proof.
  apply world_boot_inv; [exact (fr_wf _ _ _ boot1_fresh)|].
  intros pid p [<- <-]%lookup_singleton_Some. eexists. split; [done|].
  rewrite (fr_dir _ _ _ boot1_fresh). eauto.
Qed.

(** ** Theorems *)

Section kobj_theorems.
Context {H : Type} `{Allocator H}.

(** C17: in every history of handle and region operations, the two counters of an
    instance are exactly the numbers of references and regions that point to it,
    no reference or region outlives its instance, and no instance outlives its
    last reference. *)
Theorem kobj_reference_counts (w0 w : world H) :
  world_inv w0 -> reach kstep w0 w ->
  (forall p i, w_insts w !! p = Some i ->
     i_handle_count i = count_by r_inst (w_refs w) p /\
     i_ref_count i = count_by r_inst (w_refs w) p + count_by v_inst (w_regs w) p /\
     0 < i_ref_count i) /\
  (forall r k, w_refs w !! r = Some k -> is_Some (w_insts w !! r_inst k)) /\
  (forall r k, w_regs w !! r = Some k -> is_Some (w_insts w !! v_inst k)) /\
  (forall r, is_Some (w_refs w !! r) ->
     exists pid p i, w_procs w !! pid = Some p /\ zget (p_kobj p) i = Some (Some r)).
Proof.
  intros Hw0 Hr. assert (Hw : world_inv w) by (by eapply reach_invariant; eauto using kstep_inv).
  destruct Hw as [Hs Hl Hp]. split; [|split; [apply Hs|split; [apply Hs|apply Hp]]].
  intros p i Hi. destruct (si_count w Hs p i Hi). destruct (Hl p i Hi). done.
Qed.

(** No handle or region operation faults, whatever handle or address the
    process passes. *)
Theorem kobj_operations_total (w0 w : world H) (pid : Z) :
  world_inv w0 -> reach kstep w0 w -> is_Some (w_procs w !! pid) ->
  (forall file, is_Some (fs_file_handle w pid file)) /\
  (forall h, is_Some (process_release_kobj w pid h)) /\
  is_Some (process_release_kobjs w pid) /\
  (forall receive h, is_Some (w_procs w !! receive) -> is_Some (process_copy_kobj w pid receive h)) /\
  (forall va, is_u32 va -> is_Some (process_unmap_vm w pid va)) /\
  is_Some (process_free_vm w pid).
Proof.
  intros Hw0 Hr [p Hp]. assert (Hw : world_inv w) by (by eapply reach_invariant; eauto using kstep_inv).
  split_and!.
  - intros file. destruct (fs_file_handle_spec w pid p file Hw Hp) as (? & ? & -> & _). eauto.
  - intros h. destruct (process_release_kobj_spec w pid p h Hw Hp) as (? & ? & -> & _). eauto.
  - destruct (process_release_kobjs_spec w pid p Hw Hp) as (? & ? & -> & _). eauto.
  - intros receive h [q Hq].
    destruct (process_copy_kobj_spec w pid receive p q h Hw Hp Hq) as (? & ? & -> & _). eauto.
  - intros va Hva. destruct (process_unmap_vm_spec w pid p va Hw Hp Hva) as (? & ? & -> & _). eauto.
  - destruct (process_free_vm_spec w pid p Hw Hp) as (? & -> & _). eauto.
Qed.

(** Ending a process releases every handle, devices included. *)
Theorem process_release_all (w : world H) (pid : Z) (p : process) :
  world_inv w -> w_procs w !! pid = Some p ->
  exists w' p', process_release_kobjs w pid = Some w' /\ w_procs w' !! pid = Some p' /\
    forall i r, zget (p_kobj p') i <> Some (Some r).
Proof.
  intros Hw Hp. destruct (process_release_kobjs_spec w pid p Hw Hp) as (w' & p' & ? & _ & ? & _ & _ & ?).
  eauto.
Qed.

(** A closed handle stays invalid: after [process_release_kobj] it designates
    nothing, and a later reference in the same slot answers to it only if the low
    15 bits of the two uids agree. *)
Theorem handle_stale_after_release (w : world H) (pid : Z) (p : process) (h : Z) (w1 : world H) :
  world_inv w -> w_procs w !! pid = Some p -> process_release_kobj w pid h = Some (true, w1) ->
  exists r k p1, handle_for w p h r /\ w_refs w !! r = Some k /\ w_procs w1 !! pid = Some p1 /\
    process_get_kobj w1 p1 h = Some NULL /\
    forall w2 p2 r2 k2, world_inv w2 -> w_procs w2 !! pid = Some p2 ->
      zget (p_kobj p2) (KOBJ_HANDLE_INDEX h) = Some (Some r2) -> w_refs w2 !! r2 = Some k2 ->
      KOBJ_HANDLE_CHECK (r_uid k2) <> KOBJ_HANDLE_CHECK (r_uid k) ->
      process_get_kobj w2 p2 h = Some NULL.
Proof.
  intros Hw Hp E. destruct (process_release_kobj_spec w pid p h Hw Hp) as (b & w1' & E' & Hw1 & _ & Ht).
  rewrite E in E'. injection E' as <- <-. destruct (Ht eq_refl) as (r & Hh & Hprocs & Hrefs).
  pose proof Hh as (Hh0 & Hix & Hslot & k & Hk & Hck).
  assert (Hnull : forall w2 p2, world_inv w2 -> w_procs w2 !! pid = Some p2 ->
    (forall r2, ~ handle_for w2 p2 h r2) -> process_get_kobj w2 p2 h = Some NULL).
  { intros w2 p2 Hw2 Hp2 Hno.
    destruct (process_get_kobj_spec w2 pid p2 h (wi_store _ Hw2) (wi_procs _ Hw2) Hp2)
      as (r2 & -> & Hyes & _).
    destruct (decide (r2 = NULL)) as [->|Hn]; [done|]. by destruct (Hno r2 (Hyes Hn)). }
  assert (Hp1 : w_procs w1 !! pid = Some (put_slot p (KOBJ_HANDLE_INDEX h) None (-1)))
    by (by rewrite Hprocs, lookup_insert_eq).
  exists r, k, (put_slot p (KOBJ_HANDLE_INDEX h) None (-1)). split_and!; try done.
  - apply Hnull; [done|done|]. intros r2 (_ & _ & Hs2 & _). simpl in Hs2.
    rewrite zget_zset_eq in Hs2; [done|]. by apply (zget_Some_range _ _ _ Hslot).
  - intros w2 p2 r2 k2 Hw2 Hp2 Hs2 Hk2 Hne. apply Hnull; [done|done|].
    intros r' (_ & _ & Hs' & k' & Hk' & Hc'). congruence.
Qed.

(** C39: mapping an object gives the process addresses that no region of it holds, which
    translate to the object's frames with the rights of the handle: a new region for them is
    put in its list, and no other translation of any address space changes. The call fails,
    with 0 and no region or reference changed, only when the object cannot be mapped, no gap
    between the regions is large enough, or the allocator has no memory for the region and
    the page tables. *)
Theorem process_map_kobj_correct (w : world H) (pid : Z) (p : process) (rp : Z) (k : kobj_ref)
    (m : kobj_mapping) :
  world_inv w -> w_procs w !! pid = Some p -> w_refs w !! rp = Some k -> mapping_ok m ->
  exists a w', process_map_kobj w pid rp (Some m) = Some (a, w') /\ world_inv w' /\
    (a <> 0 -> exists v nd, kobj_mapped w w' pid p k m a v nd) /\
    (a = 0 -> w_regs w' = w_regs w /\ w_refs w' = w_refs w) /\
    (can_map w p k m -> a <> 0).
Proof.
  intros Hw Hp Hk Hm.
  destruct (process_map_kobj_spec w pid p rp k (Some m) Hw Hp Hk Hm) as (a & w' & E & Hw' & Hok & Hno).
  exists a, w'. split; [done|]. split; [done|]. split_and!.
  - intros Ha. destruct (Hok Ha) as (mp & v & nd & [= <-] & ?). eauto.
  - intros Ha. by destruct (Hno Ha) as (? & ? & _).
  - intros Hc Ha. destruct (Hno Ha) as (_ & _ & Hn). by apply (Hn m).
Qed.

End kobj_theorems.

Lemma kobj_boot_open : option_map fst (fs_file_handle kobj_boot 1 77) = Some 65536.
Proof. vm_compute. reflexivity. Qed.

(** Open a file: handle [0x10000], slot 0 with check bits 1. *)
Lemma kobj_boot_file :
  exists w, fs_file_handle kobj_boot 1 77 = Some (65536, w) /\ world_inv w /\
    exists p, w_procs w !! 1 = Some p /\ p_page_dir p = HEAP_KERNEL /\
      exists r, handle_for w p 65536 r.
Proof.
  destruct (fs_file_handle_spec kobj_boot 1 (empty_process HEAP_KERNEL) 77 kobj_boot_inv eq_refl)
    as (h & w & E & Hw & _ & Hok).
  pose proof kobj_boot_open as Eh. rewrite E in Eh. injection Eh as ->.
  exists w. split; [done|]. split; [done|]. destruct (Hok ltac:(lia)) as (inst & i & _ & _ & Ha).
  destruct (ac_handle _ _ _ _ _ _ Ha) as (p & r & k & Hp & Hh & _). exists p. split; [done|].
  split; [|by exists r]. clear -E Hp.
  assert (Eq : option_map (fun x => p_page_dir <$> w_procs (snd x) !! 1)
    (fs_file_handle kobj_boot 1 77) = Some (Some HEAP_KERNEL)) by (vm_compute; reflexivity).
  rewrite E in Eq. simpl in Eq. rewrite Hp in Eq. by injection Eq.
Qed.

Lemma kobj_reference_counts_witness :
  exists w, fs_file_handle kobj_boot 1 77 = Some (65536, w) /\
    forall p i, w_insts w !! p = Some i -> 0 < i_ref_count i.
Proof.
  destruct kobj_boot_file as (w & E & _). exists w. split; [exact E|].
  destruct (kobj_reference_counts kobj_boot w kobj_boot_inv) as [Hc _].
  - eapply reach_step; [apply reach_refl|]. apply (KOpen kobj_boot 1 77 65536 w); [|exact E].
    exists (empty_process HEAP_KERNEL). reflexivity.
  - intros p i Hi. exact (proj2 (proj2 (Hc p i Hi))).
Defined.

Lemma kobj_operations_total_witness : is_Some (process_release_kobj kobj_boot 1 65536).
Proof.
  apply (kobj_operations_total kobj_boot kobj_boot 1).
  - exact kobj_boot_inv.
  - apply reach_refl.
  - exists (empty_process HEAP_KERNEL). reflexivity.
Defined.

Lemma process_release_all_witness :
  exists w w' p', fs_file_handle kobj_boot 1 77 = Some (65536, w) /\
    process_release_kobjs w 1 = Some w' /\ w_procs w' !! 1 = Some p' /\
    forall i r, zget (p_kobj p') i <> Some (Some r).
Proof.
  destruct kobj_boot_file as (w & E & Hw & p & Hp & _).
  destruct (process_release_all w 1 p Hw Hp) as (w' & p' & H1 & H2 & H3).
  exists w, w', p'. split; [exact E|]. split; [exact H1|]. split; [exact H2|exact H3].
Defined.

Lemma handle_stale_after_release_witness :
  exists w w1 p1, fs_file_handle kobj_boot 1 77 = Some (65536, w) /\
    process_release_kobj w 1 65536 = Some (true, w1) /\
    process_get_kobj w1 p1 65536 = Some NULL.
Proof.
  destruct kobj_boot_file as (w & E & Hw & p & Hp & _ & r & Hr).
  destruct (process_release_kobj_spec w 1 p 65536 Hw Hp) as (b & w1 & E1 & _ & Hf & _).
  destruct b; [|by destruct (proj2 (Hf eq_refl) r)].
  destruct (handle_stale_after_release w 1 p 65536 w1 Hw Hp E1) as (_ & _ & p1 & _ & _ & _ & Hn & _).
  exists w, w1, p1. split; [exact E|]. split; [exact E1|exact Hn].
Defined.

(** A shared object with one handle. *)
Definition demo_shared : option (Z * world heap) :=
  let '(inst, w) := create_kobj_inst kobj_boot KOBJ_SHARED 77 in process_acquire_kobj w 1 inst.
Definition demo_world : world heap := default kobj_boot (snd <$> demo_shared).
Definition demo_ref : Z := match map_to_list (w_refs demo_world) with (r, _) :: _ => r | [] => 0 end.
Definition demo_proc : process := default (empty_process 0) (w_procs demo_world !! 1).
Definition demo_kref : kobj_ref := default (KRef 0 0 0) (w_refs demo_world !! demo_ref).

Lemma demo_shared_inv : world_inv demo_world.
Proof.
  assert (Hf : option_map fst demo_shared = Some 65536) by (vm_compute; reflexivity).
  unfold demo_world, demo_shared in *.
  destruct (create_kobj_inst_spec kobj_boot KOBJ_SHARED 77 (wi_store _ kobj_boot_inv)) as (inst & w1 & E & Hcase).
  rewrite E in *. destruct Hcase as [[-> ->]|(Hne & Hfresh & Hs1 & (i & Hin & Hty & Hdata) & E1 & E2 & E3 & E4)].
  { vm_compute in Hf. discriminate Hf. }
  destruct (process_acquire_kobj_spec w1 1 (empty_process HEAP_KERNEL) inst i Hs1) as (h & w2 & Ea & Hacq).
  { exact (procs_inv_same kobj_boot w1 (wi_procs _ kobj_boot_inv) E1 E2 E3 E4). }
  { by rewrite E3. }
  { by rewrite Hin, lookup_insert_eq. }
  rewrite Ea in *. injection Hf as ->. destruct Hacq as [[? _]|[_ Ha]]; [done|]. apply Ha.
  intros q x Hq. rewrite Hin, lookup_insert_ne by done. by apply (wi_live _ kobj_boot_inv q).
Qed.

(** It is mapped at the start of the area of the process, at the offset of its first byte. *)
Lemma process_map_kobj_correct_witness :
  exists a w', process_map_kobj demo_world 1 demo_ref (Some (KMapping 2097252 10000 false)) = Some (a, w') /\
    a = VM_START + 100 /\ size (w_regs w') = 1%nat /\ world_inv w' /\
    exists t, translate (w_pg w') (p_page_dir demo_proc) (VM_START / 4096 + 2) = Some t /\ address t = 514.
Proof.
  destruct (process_map_kobj_correct demo_world 1 demo_proc demo_ref demo_kref (KMapping 2097252 10000 false)
    demo_shared_inv) as (a & w' & E & Hw' & Hok & _ & Hcan).
  - vm_compute. reflexivity.
  - vm_compute. reflexivity.
  - unfold mapping_ok, VM_END, VM_START. repeat split; vm_compute; congruence.
  - destruct Hok as (v & nd & [K1 K2 K3 K4 K5 (f & K6) K7 K8]).
    { apply Hcan. split_and!.
      - destruct (w_insts demo_world !! r_inst demo_kref) as [i|] eqn:Hi; [|vm_compute in Hi; discriminate Hi].
        exists i. split; [done|]. vm_compute in Hi. by injection Hi as <-.
      - exists VM_START. assert (Hr : p_regions demo_proc = []) by (vm_compute; reflexivity).
        split_and!; [done|vm_compute; congruence|]. rewrite Hr. intros q r Hq. destruct (not_elem_of_nil q Hq).
      - vm_compute. reflexivity. }
    assert (Ha : fst <$> process_map_kobj demo_world 1 demo_ref (Some (KMapping 2097252 10000 false)) = Some (VM_START + 100))
      by (vm_compute; reflexivity).
    rewrite E in Ha. injection Ha as Ha. exists a, w'. split; [exact E|]. split; [exact Ha|].
    assert (Hv : v = VM_START) by (rewrite K1 in Ha; change (map_offset _) with 100 in Ha; lia).
    split; [|split; [exact Hw'|]].
    + rewrite K6, map_size_insert_None by exact K5. reflexivity.
    + destruct (K3 2) as (t & Ht & Hm); [vm_compute; split; congruence|]. rewrite Hv in Ht. exists t.
      split; [exact Ht|]. destruct Hm as (_ & Hadr & _). rewrite Hadr. reflexivity.
Defined.
