(* ===== verification/Device.v ===== *)
(** * Devices and shared memory (shared.c, dma.c, pci.c, and their calls of api.c)

    What the kinds of kernel object own: a block of shared memory, a block for transfers, a
    PCI device. The operations of KObj run with the hooks of the object table: the events
    that they record are carried out here, in their order, when the operation is done: the
    operation allocates nothing after the event. The configuration space of the
    PCI bus is hardware, the class [PciBus]. *)

From S2P Require Import Prelude CString Memory Paging KObj.

Local Open Scope Z_scope.

(** ** The bus *)

(** Registers of configuration space by the address that is written to the address port;
    registers are independent, and a bit of the command register is set only if it was
    written so. *)
Class PciBus (B : Type) := {
  bus_read : B -> Z -> Z;
  bus_write : B -> Z -> Z -> B;
  bus_other b a v a' : a <> a' -> bus_read (bus_write b a v) a' = bus_read b a';
  bus_bits b a v i : a mod 256 = 4 -> 0 <= i < 16 ->
    Z.testbit (bus_read (bus_write b a v) a) i = true -> Z.testbit v i = true }.

Definition PCI_BUS_COUNT : Z := 256.
Definition PCI_SLOT_COUNT : Z := 32.
Definition PCI_FUNC_COUNT : Z := 8.
Definition PCI_MAX_DEVICES : Z := 32.

Definition PCI_CMD_MMIO : Z := 2.
Definition PCI_CMD_DMA : Z := 4.
Definition PCI_CTRL_DMA : Z := 0.

(** The address of a register: aligned, with the enable bit. *)
Definition config_address (bus slot func offset : Z) : Z :=
  Z.lor (Z.lor (Z.lor (Z.lor (Z.shiftl 1 31) (Z.shiftl bus 16)) (Z.shiftl slot 11)) (Z.shiftl func 8)) (Z.land offset 0xFC).

(** A [pci_device_t]: [pd_inst] is NULL when the device is not claimed; a bar is its
    address and size. *)
Record pci_device := PciDevice {
  pd_bus : Z; pd_slot : Z; pd_func : Z; pd_vendor : Z; pd_device : Z; pd_inst : Z; pd_bars : list (Z * Z) }.

Definition set_claim (dev : pci_device) (inst : Z) : pci_device :=
  PciDevice (pd_bus dev) (pd_slot dev) (pd_func dev) (pd_vendor dev) (pd_device dev) inst (pd_bars dev).

Definition set_bars (dev : pci_device) (bars : list (Z * Z)) : pci_device :=
  PciDevice (pd_bus dev) (pd_slot dev) (pd_func dev) (pd_vendor dev) (pd_device dev) (pd_inst dev) bars.

Section device.
Context {H : Type} `{Allocator H} {B : Type} `{PciBus B}.

Definition pci_config_read32 (b : B) (bus slot func offset : Z) : Z :=
  bus_read b (config_address bus slot func offset).

Definition pci_config_write32 (b : B) (bus slot func offset value : Z) : B :=
  bus_write b (config_address bus slot func offset) value.

Definition dev_read (b : B) (dev : pci_device) (offset : Z) : Z :=
  pci_config_read32 b (pd_bus dev) (pd_slot dev) (pd_func dev) offset.

Definition dev_write (b : B) (dev : pci_device) (offset value : Z) : B :=
  pci_config_write32 b (pd_bus dev) (pd_slot dev) (pd_func dev) offset value.

(** ** Enumeration *)

(** The functions of a slot from [func]; true when the table is full. *)
Fixpoint scan_funcs (n : nat) (b : B) (bus slot func : Z) (ds : list pci_device) : list pci_device * bool :=
  match n with
  | O => (ds, false)
  | S n =>
      if zlen ds =? PCI_MAX_DEVICES then (ds, true)
      else
        let id := pci_config_read32 b bus slot func 0x00 in
        let vendor := Z.land id 0xFFFF in
        if vendor =? 0xFFFF then (ds, false)
        else
          let device_id := u16 (Z.shiftr id 16) in
          let dw3 := pci_config_read32 b bus slot func 0x0C in
          let header_type := Z.land (Z.shiftr dw3 16) 0xFF in
          let ds := ds ++ [PciDevice bus slot func vendor device_id NULL (replicate 6 (0, 0))] in
          if (func =? 0) && (Z.land header_type 0x80 =? 0) then (ds, false)
          else scan_funcs n b bus slot (func + 1) ds
  end.

Fixpoint scan_slots (n : nat) (b : B) (bus slot : Z) (ds : list pci_device) : list pci_device * bool :=
  match n with
  | O => (ds, false)
  | S n =>
      let '(ds, full) := scan_funcs (Z.to_nat PCI_FUNC_COUNT) b bus slot 0 ds in
      if full : bool then (ds, true) else scan_slots n b bus (slot + 1) ds
  end.

Fixpoint scan_buses (n : nat) (b : B) (bus : Z) (ds : list pci_device) : list pci_device :=
  match n with
  | O => ds
  | S n =>
      let '(ds, full) := scan_slots (Z.to_nat PCI_SLOT_COUNT) b bus 0 ds in
      if full : bool then ds else scan_buses n b (bus + 1) ds
  end.

Definition pci_check_devices (b : B) : list pci_device := scan_buses (Z.to_nat PCI_BUS_COUNT) b 0 [].

(** The index of the first device of that kind. *)
Fixpoint pci_find_device (ds : list pci_device) (i vendor device_id : Z) : option Z :=
  match ds with
  | [] => None
  | dev :: ds =>
      if (vendor =? pd_vendor dev) && (device_id =? pd_device dev) then Some i
      else pci_find_device ds (i + 1) vendor device_id
  end.

(** ** State *)

(** [d_shared] and [d_dma] are the [shared_block_t] and [dma_t] by their addresses, as size
    and physical address; [d_bytes] are the bytes of physical memory. The data of a PCI
    instance is the index of its device. [d_closed] are the files that [fs_free] was called
    for. *)
Record dstate := DState {
  d_world : world H; d_bus : B; d_pci : list pci_device;
  d_shared : gmap Z (Z * Z); d_dma : gmap Z (Z * Z); d_bytes : Z -> Z; d_closed : list Z }.

Definition set_world (d : dstate) w := DState w (d_bus d) (d_pci d) (d_shared d) (d_dma d) (d_bytes d) (d_closed d).
Definition set_bus (d : dstate) b := DState (d_world d) b (d_pci d) (d_shared d) (d_dma d) (d_bytes d) (d_closed d).
Definition set_pci (d : dstate) l := DState (d_world d) (d_bus d) l (d_shared d) (d_dma d) (d_bytes d) (d_closed d).
Definition set_shared (d : dstate) m := DState (d_world d) (d_bus d) (d_pci d) m (d_dma d) (d_bytes d) (d_closed d).
Definition set_dma (d : dstate) m := DState (d_world d) (d_bus d) (d_pci d) (d_shared d) m (d_bytes d) (d_closed d).
Definition set_bytes (d : dstate) f := DState (d_world d) (d_bus d) (d_pci d) (d_shared d) (d_dma d) f (d_closed d).
Definition add_closed (d : dstate) f := DState (d_world d) (d_bus d) (d_pci d) (d_shared d) (d_dma d) (d_bytes d) (d_closed d ++ [f]).

(** [memset(dest, 0, n)] *)
Definition zero_bytes (f : Z -> Z) (dest n : Z) : Z -> Z :=
  fun a => if (dest <=? a) && (a <? dest + n) then 0 else f a.

(** ** The hooks *)

Definition pci_disable_device (d : dstate) (j : Z) : option dstate :=
  dev ← zget (d_pci d) j;
  let cmd := dev_read (d_bus d) dev 0x04 in
  let cmd := Z.land cmd (Z.lnot (Z.lor PCI_CMD_MMIO PCI_CMD_DMA)) in
  Some (set_bus d (dev_write (d_bus d) dev 0x04 cmd)).

Definition pci_stop (d : dstate) (j : Z) : option dstate := pci_disable_device d j.

Definition pci_free_inst (d : dstate) (j : Z) : option dstate :=
  dev ← zget (d_pci d) j;
  Some (set_pci d (zset (d_pci d) j (set_claim dev NULL))).

Definition SIZEOF_DESC : Z := 8.

Definition shared_free_inst (d : dstate) (data : Z) : option dstate :=
  '(size, paddr) ← d_shared d !! data;
  let w := kfree (kfree (d_world d) paddr size) data SIZEOF_DESC in
  Some (set_shared (set_world d w) (delete data (d_shared d))).

Definition dma_cleanup (d : dstate) (data : Z) : option dstate :=
  '(size, paddr) ← d_dma d !! data;
  let w := if negb (size =? 0) then kfree (d_world d) paddr size else d_world d in
  Some (set_dma (set_world d (kfree w data SIZEOF_DESC)) (delete data (d_dma d))).

Definition run_hook (d : dstate) (e : kevent) : option dstate :=
  match e with
  | EStop _ data => pci_stop d data
  | EFree _ KOBJ_DMA data => dma_cleanup d data
  | EFree _ KOBJ_PCI data => pci_free_inst d data
  | EFree _ KOBJ_SHARED data => shared_free_inst d data
  | EFree _ KOBJ_FILE data => Some (add_closed d data)
  | EClose _ => Some d
  end.

Fixpoint run_hooks (d : dstate) (l : list kevent) : option dstate :=
  match l with
  | [] => Some d
  | e :: l => d ← run_hook d e; run_hooks d l
  end.

(** An operation of KObj with its hooks. *)
Definition with_hooks {A} (f : world H -> option (A * world H)) (d : dstate) : option (A * dstate) :=
  '(a, w) ← f (with_log (d_world d) []);
  d ← run_hooks (set_world d w) (w_log w);
  Some (a, d).

Definition no_result (f : world H -> option (world H)) (w : world H) : option (unit * world H) :=
  w ← f w; Some (tt, w).

(** ** Shared memory *)

Definition shared_map (d : dstate) (data index : Z) : option (option kobj_mapping) :=
  if negb (index =? 0) then Some None
  else '(size, paddr) ← d_shared d !! data; Some (Some (KMapping paddr size false)).

Definition shared_create (d : dstate) (pid size : Z) : option (Z * dstate) :=
  let size := page_align_up size in
  if size =? 0 then Some (-1, d)
  else if VM_END - VM_START <? size then Some (-1, d)
  else
    let '(block, w) := kmalloc (d_world d) SIZEOF_DESC in
    if block =? NULL then Some (-1, set_world d w)
    else
      let '(paddr, w) := kmalloc w size in
      if paddr =? NULL then Some (-1, set_world d (kfree w block SIZEOF_DESC))
      else
        let d := set_bytes d (zero_bytes (d_bytes d) paddr size) in
        let d := set_shared d (<[block := (size, paddr)]> (d_shared d)) in
        let '(inst, w) := create_kobj_inst w KOBJ_SHARED block in
        if inst =? NULL then
          Some (-1, set_shared (set_world d (kfree (kfree w paddr size) block SIZEOF_DESC)) (delete block (d_shared d)))
        else
          '(h, w) ← process_acquire_kobj w pid inst;
          let d := set_world d w in
          if h <? 0 then
            '(_, d) ← with_hooks (no_result (fun w => free_kobj_inst w inst)) d;
            Some (-1, d)
          else Some (h, d).

(** ** Memory for transfers *)

Definition dma_map (d : dstate) (data index : Z) : option (option kobj_mapping) :=
  if negb (index =? 0) then Some None
  else '(size, paddr) ← d_dma d !! data; Some (Some (KMapping paddr size false)).

(** The handle, with the physical address that is written on success. *)
Definition dma_create (d : dstate) (size pid : Z) : option (Z * option Z * dstate) :=
  if size <=? 0 then Some (-1, None, d)
  else
    let '(mem, w) := kmalloc (d_world d) size in
    let '(dma, w) := kmalloc w SIZEOF_DESC in
    let '(inst, w) := if dma =? NULL then (NULL, w) else create_kobj_inst w KOBJ_DMA dma in
    if (mem =? NULL) || (dma =? NULL) || (inst =? NULL) then
      let w := if inst =? NULL then w else with_insts (kfree w inst SIZEOF_INST) (delete inst (w_insts w)) in
      let w := if mem =? NULL then w else kfree w mem size in
      let w := if dma =? NULL then w else kfree w dma SIZEOF_DESC in
      Some (-1, None, set_world d w)
    else
      let d := set_bytes d (zero_bytes (d_bytes d) mem size) in
      let d := set_dma d (<[dma := (size, mem)]> (d_dma d)) in
      '(h, w) ← process_acquire_kobj w pid inst;
      let d := set_world d w in
      if h <? 0 then
        '(_, d) ← with_hooks (no_result (fun w => free_kobj_inst w inst)) d;
        Some (-1, Some mem, d)
      else Some (h, Some mem, d).

(** ** PCI devices *)

Definition pci_map (d : dstate) (j index : Z) : option (option kobj_mapping) :=
  if negb (index =? 1) then Some None
  else
    dev ← zget (d_pci d) j;
    '(bar, size) ← zget (pd_bars dev) index;
    Some (Some (KMapping bar (u32 size) true)).

(** The address in BAR1, and the size that the device answers to all ones, with memory
    decoding off during the probe. *)
Definition probe_bar (b : B) (dev : pci_device) : Z * Z * Z * B :=
  let bar := Z.land (dev_read b dev 0x14) (Z.lnot 0xF) in
  let cmd := dev_read b dev 0x04 in
  let b := dev_write b dev 0x04 (Z.land cmd (Z.lnot PCI_CMD_MMIO)) in
  let b := dev_write b dev 0x14 0xFFFFFFFF in
  let probe_size := dev_read b dev 0x14 in
  let b := dev_write b dev 0x14 bar in
  let size := u32 (2 ^ 32 - 1 - Z.land probe_size (Z.lnot 0xF) + 1) in
  (bar, size, cmd, b).

Definition pci_connect (d : dstate) (pid vendor device_id : Z) : option (Z * dstate) :=
  match pci_find_device (d_pci d) 0 (u16 vendor) (u16 device_id) with
  | None => Some (-1, d)
  | Some j =>
      dev ← zget (d_pci d) j;
      if negb (pd_inst dev =? NULL) then Some (-1, d)
      else
        let '(bar, size, cmd, b) := probe_bar (d_bus d) dev in
        let restore b := dev_write b dev 0x04 cmd in
        let dev := set_bars dev [(0, 0); (bar, if size =? 0 then 0 else s32 size); (0, 0); (0, 0); (0, 0); (0, 0)] in
        let d := set_pci d (zset (d_pci d) j dev) in
        if size =? 0 then Some (-1, set_bus d (restore b))
        else
          let '(inst, w) := create_kobj_inst (d_world d) KOBJ_PCI j in
          if inst =? NULL then Some (-1, set_world (set_bus d (restore b)) w)
          else
            '(h, w) ← process_acquire_kobj w pid inst;
            if h <? 0 then
              i ← w_insts w !! inst;
              let w := set_inst w inst (KInst (i_uid i) (i_type i) (i_data i) (i_ref_count i) (i_handle_count i) true) in
              '(_, d) ← with_hooks (no_result (fun w => free_kobj_inst w inst)) (set_world (set_bus d (restore b)) w);
              Some (-1, d)
            else
              let d := set_pci d (zset (d_pci d) j (set_claim dev inst)) in
              let cmd := Z.land (Z.lor cmd PCI_CMD_MMIO) (Z.lnot PCI_CMD_DMA) in
              Some (h, set_world (set_bus d (dev_write b dev 0x04 cmd)) w)
  end.

Definition pci_control (d : dstate) (i : kobj_inst) (operation arg : Z) : option (bool * dstate) :=
  dev ← zget (d_pci d) (i_data i);
  if negb (operation =? PCI_CTRL_DMA) then Some (false, d)
  else if i_stopped i then Some (false, d)
  else
    let cmd := dev_read (d_bus d) dev 0x04 in
    let cmd := if negb (arg =? 0) then Z.lor cmd PCI_CMD_DMA else Z.land cmd (Z.lnot PCI_CMD_DMA) in
    Some (true, set_bus d (dev_write (d_bus d) dev 0x04 cmd)).

(** ** The object table and the calls *)

(** [map_func] of the object: the outer [None] is a fault. *)
Definition map_func (d : dstate) (i : kobj_inst) (index : Z) : option (option kobj_mapping) :=
  match i_type i with
  | KOBJ_DMA => dma_map d (i_data i) index
  | KOBJ_PCI => pci_map d (i_data i) index
  | KOBJ_SHARED => shared_map d (i_data i) index
  | KOBJ_FILE => Some None
  end.

(** The reference of a handle of a process, NULL if there is none. *)
Definition handle_ref (d : dstate) (pid handle : Z) : option Z :=
  p ← w_procs (d_world d) !! pid;
  process_get_kobj (d_world d) p handle.

Definition ref_inst (d : dstate) (r : Z) : option (kobj_ref * kobj_inst) :=
  ref ← w_refs (d_world d) !! r;
  i ← w_insts (d_world d) !! r_inst ref;
  Some (ref, i).

Definition api_shared_create (d : dstate) (pid ebx : Z) : option (Z * dstate) :=
  if s32 ebx <? 0 then Some (-1, d) else shared_create d pid ebx.

Definition api_map (d : dstate) (pid handle index : Z) : option (Z * dstate) :=
  r ← handle_ref d pid handle;
  if r =? NULL then Some (0, d)
  else
    '(_, i) ← ref_inst d r;
    m ← map_func d i index;
    with_hooks (fun w => process_map_kobj w pid r m) d.

Definition api_unmap (d : dstate) (pid addr : Z) : option (bool * dstate) :=
  with_hooks (fun w => process_unmap_vm w pid addr) d.

Definition control_func (d : dstate) (i : kobj_inst) (op arg : Z) : option (bool * dstate) :=
  match i_type i with
  | KOBJ_PCI => pci_control d i op arg
  | _ => Some (false, d)
  end.

Definition api_control_handle (d : dstate) (pid handle op arg : Z) : option (bool * dstate) :=
  r ← handle_ref d pid handle;
  if r =? NULL then Some (false, d)
  else
    '(ref, i) ← ref_inst d r;
    if Z.land (r_rights ref) KOBJ_RIGHT_WRITE =? 0 then Some (false, d)
    else control_func d i op arg.

Definition api_pci_connect (d : dstate) (pid : Z) (privileged : bool) (vendor device : Z) : option (Z * dstate) :=
  if negb privileged then Some (-1, d) else pci_connect d pid vendor device.

Definition api_pci_exists (d : dstate) (privileged : bool) (vendor device : Z) : bool :=
  privileged && bool_decide (is_Some (pci_find_device (d_pci d) 0 (u16 vendor) (u16 device))).

(** The handle and the physical address. *)
Definition api_dma (d : dstate) (pid : Z) (privileged : bool) (ebx : Z) : option (Z * Z * dstate) :=
  let size := s32 ebx in
  if size <? 0 then Some (-1, 0, d)
  else if negb privileged then Some (-1, 0, d)
  else
    '(h, paddr, d) ← dma_create d size pid;
    if h <? 0 then Some (-1, 0, d) else Some (h, default 0 paddr, d).

Definition api_close_handle (d : dstate) (pid handle : Z) : option (bool * dstate) :=
  with_hooks (fun w => process_release_kobj w pid handle) d.

(** What the rest of the kernel does with handles: open a file, pass a handle on, end a
    process. *)
Definition open_file (d : dstate) (pid file : Z) : option (Z * dstate) :=
  with_hooks (fun w => fs_file_handle w pid file) d.

Definition copy_handle (d : dstate) (send receive handle : Z) : option (Z * dstate) :=
  with_hooks (fun w => process_copy_kobj w send receive handle) d.

Definition release_handles (d : dstate) (pid : Z) : option (unit * dstate) :=
  with_hooks (no_result (fun w => process_release_kobjs w pid)) d.

Definition free_regions (d : dstate) (pid : Z) : option (unit * dstate) :=
  with_hooks (no_result (fun w => process_free_vm w pid)) d.

End device.

Arguments dstate H B : clear implicits.
