(* ===== verification/DeviceFrame.v ===== *)
(** * The frame of the operations on objects (theorems about KObj)

    What the operations of KObj leave alone, and what they do to the instances. The memory
    that they leave alone is an allocator: [reserve l] is the allocator that counts the pages
    [l] as nobody's, so that the invariant of KObj at this instance says that its operations
    do not touch them. What they do to the instances is a list of changes ([evolve]), each
    with the hooks of the object table that it runs. *)

From S2P Require Import Prelude CString Memory Paging KObj.

Local Open Scope Z_scope.

(** ** Pages set aside *)

(** The pages of a block. *)
Definition page_list (p n : Z) : list Z := seqZ (p / 4096) (pages n).

Lemma elem_of_page_list p n q : q ∈ page_list p n <-> p / 4096 <= q < p / 4096 + pages n.
Proof. unfold page_list. by rewrite elem_of_seqZ. Qed.

Section reserve.
Context {H : Type} {A : Allocator H} (l : list Z).

Definition used_but (h : H) (q : Z) : Prop := al_used h q /\ q ∉ l.
Definition wf_but (h : H) : Prop := al_wf h /\ forall q, q ∈ l -> al_used h q.

Lemma malloc_but h n p h' :
  wf_but h -> 0 < n < 2 ^ 31 - 4096 -> al_malloc h n = (p, h') -> p <> 0 ->
  wf_but h' /\ p mod 4096 = 0 /\ 0 < p /\ p + pages n * 4096 <= 2 ^ 31 /\
  (forall q, p / 4096 <= q < p / 4096 + pages n -> ~ used_but h q) /\
  (forall q, used_but h' q <-> used_but h q \/ p / 4096 <= q < p / 4096 + pages n).
Proof.
  intros [Hwf Hl] Hn E Hp. destruct (al_malloc_ok h n p h' Hwf Hn E Hp) as (? & ? & ? & ? & Hnew & Hu).
  unfold used_but, wf_but. split_and!; try done.
  - intros q Hq. apply Hu. left. by apply Hl.
  - intros q Hq [Hq' _]. by apply (Hnew q).
  - intros q. rewrite Hu. split; [tauto|]. intros [?|Hq]; [tauto|]. split; [by right|].
    intros Hin. apply (Hnew q Hq), Hl, Hin.
Qed.

Lemma free_but h n p :
  wf_but h -> 0 < n < 2 ^ 31 - 4096 -> p mod 4096 = 0 ->
  (forall q, p / 4096 <= q < p / 4096 + pages n -> used_but h q) ->
  wf_but (al_free h p n) /\
  (forall q, used_but (al_free h p n) q <-> used_but h q /\ ~ (p / 4096 <= q < p / 4096 + pages n)).
Proof.
  intros [Hwf Hl] Hn Hp Hq. destruct (al_free_ok h n p Hwf Hn Hp) as [Hwf' Hu].
  { intros q Hr. by apply Hq. }
  unfold used_but, wf_but. split; [split; [done|]|].
  - intros q Hin. apply Hu. split; [by apply Hl|]. intros Hr. by destruct (Hq q Hr).
  - intros q. rewrite Hu. tauto.
Qed.

#[global] Instance reserve : Allocator H := {|
  al_malloc := al_malloc; al_free := al_free; al_used := used_but; al_wf := wf_but;
  al_malloc_fail := al_malloc_fail; al_malloc_ok := malloc_but; al_free_ok := free_but |}.
End reserve.

#[global] Remove Hints reserve : typeclass_instances.

Section frame.
Context {H : Type} {A : Allocator H}.
Implicit Types (w : world H).

Abbreviation inv_but l := (@world_inv H (reserve l)).

(** Another heap and another view of it: the nodes and the tables are still in use. *)
Lemma world_view (A1 A2 : Allocator H) w h :
  @al_wf H A2 h -> (forall q, @al_used H A1 (ps_heap (w_pg w)) q -> @al_used H A2 h q) ->
  @world_inv H A1 w -> @world_inv H A2 (with_pg w (set_heap (w_pg w) h)).
Proof.
  intros Hwf Hu [[[Hpw Hno] S1 S2 S3 S4 S5 S6] Hl Hp]. destruct Hpw as [P1 P2 P3 P4 P5 P6].
  constructor; [constructor; try done|done|destruct Hp; constructor; try done].
  constructor.
  - constructor; try done. intros p pg Hpg. destruct (P2 p pg Hpg) as (? & ? & ?). split_and!; try done; try lia. by apply Hu.
  - intros p Hn. destruct (Hno p Hn) as (? & ? & ? & ?). split_and!; try done. by apply Hu.
  - intros pid p Hpid. apply (vm_sorted_ext w); [done|eauto].
Qed.

Lemma world_reheap l l' w h :
  wf_but l' h -> (forall q, used_but l (ps_heap (w_pg w)) q -> used_but l' h q) ->
  inv_but l w -> inv_but l' (with_pg w (set_heap (w_pg w) h)).
Proof. apply (world_view (reserve l) (reserve l')). Qed.

Lemma world_same_heap w : with_pg w (set_heap (w_pg w) (ps_heap (w_pg w))) = w.
Proof. by destruct w as [[] ? ? ? ? ? ? ?]. Qed.

Lemma world_nil w : world_inv w -> inv_but [] w.
Proof.
  intros Hw. rewrite <-(world_same_heap w). apply (world_view A (reserve [])); [|by split; [|intros ?%elem_of_nil]|done].
  split; [apply (pw_heap _ (mo_wf _ _ (si_mem _ (wi_store _ Hw))))|intros q Hq; by apply elem_of_nil in Hq].
Qed.

Lemma world_malloc l w n p h :
  inv_but l w -> 0 < n < 2 ^ 31 - 4096 -> al_malloc (ps_heap (w_pg w)) n = (p, h) -> p <> NULL ->
  inv_but (page_list p n ++ l) (with_pg w (set_heap (w_pg w) h)) /\
  (forall q, q ∈ page_list p n -> q ∉ l) /\ p mod 4096 = 0 /\ 0 < p /\ p + pages n * 4096 <= 2 ^ 31.
Proof.
  intros Hw Hn E Hp. pose proof (pw_heap _ (mo_wf _ _ (si_mem _ (wi_store _ Hw)))) as [Hwf Hl].
  destruct (al_malloc_ok _ n p h Hwf Hn E Hp) as (Hwf' & ? & ? & ? & Hnew & Hu). split; [|split; [|done]].
  - apply (world_reheap l); [split; [done|]| |done].
    + intros q [Hq|Hq]%elem_of_app; apply Hu; [right; by apply elem_of_page_list|left; by apply Hl].
    + intros q [Hq Hql]. split; [apply Hu; by left|]. intros [Hin|Hin]%elem_of_app; [|done].
      apply elem_of_page_list in Hin. by apply (Hnew q).
  - intros q Hq Hin. apply elem_of_page_list in Hq. by apply (Hnew q), Hl.
Qed.

Lemma world_free l w n p :
  inv_but (page_list p n ++ l) w -> (forall q, q ∈ page_list p n -> q ∉ l) -> 0 < n < 2 ^ 31 - 4096 -> p mod 4096 = 0 ->
  inv_but l (kfree w p n).
Proof.
  intros Hw Hd Hn Hp. pose proof (pw_heap _ (mo_wf _ _ (si_mem _ (wi_store _ Hw)))) as [Hwf Hl].
  destruct (al_free_ok (ps_heap (w_pg w)) n p Hwf Hn Hp) as [Hwf' Hu].
  { intros q Hq. apply Hl, elem_of_app. left. by apply elem_of_page_list. }
  unfold kfree. apply (world_reheap (page_list p n ++ l)); [split; [done|]| |done].
  - intros q Hq. apply Hu. split; [apply Hl, elem_of_app; by right|]. intros Hr.
    apply (Hd q); [by apply elem_of_page_list|done].
  - intros q [Hq Hql]. rewrite elem_of_app in Hql. split; [|tauto]. apply Hu. split; [done|].
    intros Hr. apply Hql. left. by apply elem_of_page_list.
Qed.

Lemma world_perm l l' w : l ≡ₚ l' -> inv_but l w -> inv_but l' w.
Proof.
  intros E Hw. rewrite <-(world_same_heap w).
  pose proof (pw_heap _ (mo_wf _ _ (si_mem _ (wi_store _ Hw)))) as [Hwf Hl].
  apply (world_reheap l); [split; [done|]| |done].
  - intros q Hq. apply Hl. by rewrite E.
  - intros q. unfold used_but. by rewrite E.
Qed.

End frame.

(** ** What an operation does to the instances *)

(** One change of the map of instances, with the hooks that it runs. *)
Inductive change (m : gmap Z kobj_inst) : list kevent -> gmap Z kobj_inst -> Prop :=
| ch_touch p i j :
    m !! p = Some i -> i_type j = i_type i -> i_data j = i_data i -> i_stopped j = i_stopped i ->
    change m [] (<[p := j]> m)
| ch_stop p i : m !! p = Some i -> change m (stop_log p i) (<[p := stopped_inst i]> m)
| ch_free p i :
    m !! p = Some i -> change m (stop_log p i ++ [EFree p (i_type i) (i_data i)]) (delete p m)
| ch_file p i : p <> NULL -> m !! p = None -> i_type i = KOBJ_FILE -> change m [] (<[p := i]> m)
| ch_close p f : change m [EFree p KOBJ_FILE f] m.

Inductive changes (m : gmap Z kobj_inst) : list kevent -> gmap Z kobj_inst -> Prop :=
| chs_nil : changes m [] m
| chs_step l1 m1 l2 m2 : changes m l1 m1 -> change m1 l2 m2 -> changes m (l1 ++ l2) m2.

Lemma changes_one m l m' : change m l m' -> changes m l m'.
Proof. intros Hc. apply (chs_step m [] m l m'); [constructor|done]. Qed.

Lemma changes_trans m l1 m1 l2 m2 : changes m l1 m1 -> changes m1 l2 m2 -> changes m (l1 ++ l2) m2.
Proof.
  intros H1 H2. induction H2 as [|l3 m3 l4 m4 _ IH Hc]; [by rewrite app_nil_r|].
  rewrite app_assoc. by eapply chs_step.
Qed.

Section evolve.
Context {H : Type} {A : Allocator H}.
Implicit Types (w : world H).

Definition evolve w w' : Prop :=
  exists l, w_log w' = w_log w ++ l /\ changes (w_insts w) l (w_insts w').

#[export] Instance evolve_refl : Reflexive evolve.
Proof. intros w. exists []. split; [by rewrite app_nil_r|constructor]. Qed.

#[export] Instance evolve_trans : Transitive evolve.
Proof.
  intros w1 w2 w3 (l1 & E1 & H1) (l2 & E2 & H2). exists (l1 ++ l2).
  split; [by rewrite E2, E1, app_assoc|by eapply changes_trans].
Qed.

Lemma evolve_count w p i a b : w_insts w !! p = Some i -> evolve w (set_inst w p (add_count i a b)).
Proof. intros Hi. exists []. split; [by rewrite app_nil_r|]. by eapply changes_one, ch_touch. Qed.

Lemma kobj_stop_evolve w p w' : kobj_stop w p = Some w' -> evolve w w'.
Proof.
  destruct (w_insts w !! p) as [i|] eqn:Hi; [|unfold kobj_stop; by rewrite Hi].
  rewrite (kobj_stop_eq w p i Hi). intros [= <-]. exists (stop_log p i). split; [done|]. by apply changes_one, ch_stop.
Qed.

Lemma free_kobj_inst_evolve w p w' : free_kobj_inst w p = Some w' -> evolve w w'.
Proof.
  destruct (w_insts w !! p) as [i|] eqn:Hi; [|unfold free_kobj_inst, kobj_stop; by rewrite Hi].
  rewrite (free_kobj_inst_eq w p i Hi). intros [= <-]. eexists. split; [done|]. by apply changes_one, ch_free.
Qed.

Lemma kobj_add_ref_evolve w p w' : kobj_add_ref w p = Some w' -> evolve w w'.
Proof.
  unfold kobj_add_ref. destruct (w_insts w !! p) as [i|] eqn:Hi; [|done]. intros [= <-]. by apply evolve_count.
Qed.

Lemma kobj_release_ref_evolve w p w' : kobj_release_ref w p = Some w' -> evolve w w'.
Proof.
  unfold kobj_release_ref. destruct (w_insts w !! p) as [i|] eqn:Hi; [|done]. simpl.
  pose proof (evolve_count w p i (-1) 0 Hi). zcase; [|by intros [= <-]]. intros E%free_kobj_inst_evolve. by etrans.
Qed.

Lemma kmalloc_evolve w n p w' : kmalloc w n = (p, w') -> evolve w w'.
Proof. unfold kmalloc. destruct (al_malloc _ _). intros [= _ <-]. exact (evolve_refl w). Qed.

Lemma next_ref_uid_evolve w u w' : next_ref_uid w = (u, w') -> evolve w w'.
Proof. unfold next_ref_uid. zcase; intros [= _ <-]; exact (evolve_refl w). Qed.
End evolve.

Lemma no_close t : has_close (kobjs t) = false.
Proof. by destruct t. Qed.

(** Case analysis on what an operation of KObj binds and tests. *)
Ltac binds E :=
  repeat (simpl in E; match type of E with
  | None = _ => discriminate E
  | Some _ = Some _ => injection E as E; subst
  | (_, _) = (_, _) => injection E as ? ?; subst
  | context [has_close (kobjs ?t)] => rewrite (no_close t) in E
  | context [mbind _ ?x] => let R := fresh "R" in destruct x as [?|] eqn:R; [|discriminate E]; rewrite bind_Some_l in E
  | context [match ?x with _ => _ end] => let R := fresh "R" in destruct x eqn:R
  end).

(** The operations that were called, one after the other. *)
Ltac evolves :=
  first [exact (evolve_refl _)
    | match goal with E : evolve _ _ |- _ => exact E end
    | match goal with E : evolve ?w ?w1 |- evolve ?w' ?w2 =>
        change (evolve w w2); transitivity w1; [exact E|clear E; evolves] end].

(** The lemma of an operation that was called. *)
Tactic Notation "call" uconstr(L) := repeat match goal with E : _ = _ |- _ => apply L in E end.

Section operations.
Context {H : Type} {A : Allocator H}.
Implicit Types (w : world H).

Lemma create_kobj_ref_evolve w inst r w' : create_kobj_ref w inst = Some (r, w') -> evolve w w'.
Proof.
  unfold create_kobj_ref. intros E.
  binds E; call kmalloc_evolve; call kobj_add_ref_evolve; call next_ref_uid_evolve; try evolves.
  match goal with Hi : _ !! inst = Some ?i |- _ => pose proof (evolve_count _ inst i 0 1 Hi) end. evolves.
Qed.

Lemma kobj_release_evolve w r b w' : kobj_release w r = Some (b, w') -> evolve w w'.
Proof.
  unfold kobj_release. intros E. binds E; try evolves;
    match goal with Hi : _ !! r_inst ?k = Some ?i |- _ => pose proof (evolve_count _ (r_inst k) i 0 (-1) Hi) end;
    match goal with Hs : (if _ then _ else _) = Some _ |- _ => binds Hs end; call kobj_stop_evolve; call kobj_release_ref_evolve; evolves.
Qed.

Lemma process_acquire_kobj_evolve w pid inst h w' : process_acquire_kobj w pid inst = Some (h, w') -> evolve w w'.
Proof. unfold process_acquire_kobj. intros E. binds E; call create_kobj_ref_evolve; evolves. Qed.

Lemma clear_slot_evolve w pid i w' : clear_slot w pid i = Some w' -> evolve w w'.
Proof. unfold clear_slot. intros E. binds E. evolves. Qed.

Lemma process_release_kobj_evolve w pid h b w' : process_release_kobj w pid h = Some (b, w') -> evolve w w'.
Proof. unfold process_release_kobj. intros E. binds E; call kobj_release_evolve; call clear_slot_evolve; evolves. Qed.

Lemma release_pass_evolve n i dev w pid w' : release_pass n i dev w pid = Some w' -> evolve w w'.
Proof.
  revert i w. induction n as [|n IH]; intros i w; cbn [release_pass]; intros E; [binds E; evolves|].
  binds E; call kobj_release_evolve; call clear_slot_evolve; call IH; evolves.
Qed.

Lemma process_release_kobjs_evolve w pid w' : process_release_kobjs w pid = Some w' -> evolve w w'.
Proof. unfold process_release_kobjs. generalize (Z.to_nat PROCESS_MAX_KOBJ). intros n E. binds E; call release_pass_evolve; evolves. Qed.

Lemma process_copy_kobj_evolve w send receive h h' w' : process_copy_kobj w send receive h = Some (h', w') -> evolve w w'.
Proof.
  unfold process_copy_kobj. intros E. binds E; call process_acquire_kobj_evolve; call process_release_kobj_evolve; evolves.
Qed.

Lemma process_unmap_vm_evolve w pid va b w' : process_unmap_vm w pid va = Some (b, w') -> evolve w w'.
Proof. unfold process_unmap_vm. intros E. binds E; call kobj_release_ref_evolve; evolves. Qed.

Lemma free_vm_loop_evolve l w w' : free_vm_loop w l = Some w' -> evolve w w'.
Proof.
  revert w. induction l as [|nd l IH]; intros w E; cbn [free_vm_loop] in E; [binds E; evolves|].
  binds E; call kobj_release_ref_evolve; call IH; evolves.
Qed.

Lemma process_free_vm_evolve w pid w' : process_free_vm w pid = Some w' -> evolve w w'.
Proof. unfold process_free_vm. intros E. binds E; call free_vm_loop_evolve; evolves. Qed.

Lemma process_alloc_vm_evolve w pid size flags inst nd w' : process_alloc_vm w pid size flags inst = Some (nd, w') -> evolve w w'.
Proof. unfold process_alloc_vm. intros E. binds E; call kmalloc_evolve; call kobj_add_ref_evolve; evolves. Qed.

Lemma process_map_kobj_evolve w pid r m a w' : process_map_kobj w pid r m = Some (a, w') -> evolve w w'.
Proof.
  unfold process_map_kobj. intros E. binds E; call process_alloc_vm_evolve; call process_unmap_vm_evolve; evolves.
Qed.
End operations.
