(* ===== verification/DeviceSpec.v ===== *)
(** * What instances own (theorems about Device)

    Two invariants of every history of the calls on handles, memory and devices: a block of
    memory belongs to one live object and to nothing else ([hi_nodup], [hi_world]), and a
    device may write to memory only while a process has a handle on it, unless it could
    already when the kernel started and nobody has connected to it since ([cl_dma]). *)

From S2P Require Import Prelude CString Memory Paging KObj Device DeviceFrame.

Local Open Scope Z_scope.

(** ** Addresses on the bus *)

Definition on_bus (dev : pci_device) : Prop :=
  0 <= pd_bus dev < 256 /\ 0 <= pd_slot dev < 32 /\ 0 <= pd_func dev < 8.

Definition reg_addr (dev : pci_device) (offset : Z) : Z :=
  config_address (pd_bus dev) (pd_slot dev) (pd_func dev) offset.

Lemma lor_disjoint x y n : 0 <= n -> x mod 2 ^ n = 0 -> 0 <= y < 2 ^ n -> Z.lor x y = x + y.
Proof.
  intros Hn Hx Hy. assert (E : Z.land x y = 0).
  { apply Z.bits_inj'. intros i Hi. rewrite Z.land_spec, Z.bits_0. destruct (decide (i < n)).
    - rewrite <-(Z.mod_pow2_bits_low x n i) by lia. by rewrite Hx, Z.bits_0.
    - rewrite <-(Z.mod_small y (2 ^ n)) by lia. rewrite Z.mod_pow2_bits_high by lia. apply andb_false_r. }
  rewrite <-Z.lxor_lor by done. by rewrite Z.add_nocarry_lxor.
Qed.

Lemma config_address_sum bus slot func offset :
  0 <= bus < 256 -> 0 <= slot < 32 -> 0 <= func < 8 -> 0 <= offset < 256 -> Z.land offset 0xFC = offset ->
  config_address bus slot func offset = 2147483648 + bus * 65536 + slot * 2048 + func * 256 + offset.
Proof.
  intros Hb Hs Hf Ho E. unfold config_address. rewrite E, !Z.shiftl_mul_pow2 by lia.
  change (1 * 2 ^ 31) with 2147483648. change (2 ^ 16) with 65536. change (2 ^ 11) with 2048. change (2 ^ 8) with 256.
  rewrite (lor_disjoint 2147483648 (bus * 65536) 31) by (done || lia).
  rewrite (lor_disjoint _ (slot * 2048) 16) by (lia || (change (2 ^ 16) with 65536; Z.div_mod_to_equations; lia)).
  rewrite (lor_disjoint _ (func * 256) 11) by (lia || (change (2 ^ 11) with 2048; Z.div_mod_to_equations; lia)).
  rewrite (lor_disjoint _ offset 8) by (lia || (change (2 ^ 8) with 256; Z.div_mod_to_equations; lia)).
  lia.
Qed.

(** The registers that the driver uses. *)
Definition used_reg (offset : Z) : Prop := offset = 0x04 \/ offset = 0x14.

Lemma reg_addr_inj dev1 dev2 o1 o2 :
  on_bus dev1 -> on_bus dev2 -> used_reg o1 -> used_reg o2 -> reg_addr dev1 o1 = reg_addr dev2 o2 ->
  pd_bus dev1 = pd_bus dev2 /\ pd_slot dev1 = pd_slot dev2 /\ pd_func dev1 = pd_func dev2 /\ o1 = o2.
Proof.
  unfold on_bus, reg_addr. intros (? & ? & ?) (? & ? & ?) U1 U2.
  rewrite !config_address_sum by (first [lia | destruct U1 as [-> | ->]; (done || lia) | destruct U2 as [-> | ->]; (done || lia)]).
  destruct U1 as [-> | ->], U2 as [-> | ->]; lia.
Qed.

(** ** Owners *)

Section owners.
Context {H : Type} {A : Allocator H} {B : Type} {PB : PciBus B}.
Implicit Types (w : world H) (d : dstate H B) (m : gmap Z kobj_inst).

Definition owns (t : kobj_type) : bool := match t with KOBJ_SHARED | KOBJ_DMA => true | _ => false end.

Definition owned_blocks d (t : kobj_type) : gmap Z (Z * Z) :=
  match t with KOBJ_SHARED => d_shared d | KOBJ_DMA => d_dma d | _ => ∅ end.

Definition entry_pages (e : Z * (Z * Z)) : list Z := page_list e.1 SIZEOF_DESC ++ page_list e.2.2 e.2.1.

Definition block_pages (bs : gmap Z (Z * Z)) : list Z := concat (entry_pages <$> map_to_list bs).

(** The pages of the blocks, those of the structures that describe them included. *)
Definition owned d : list Z := block_pages (d_shared d) ++ block_pages (d_dma d).

(** The device may write to memory. *)
Definition dma_on (b : B) (dev : pci_device) : Prop := Z.testbit (dev_read b dev 0x04) 2 = true.

(** The devices, by their index, that could write to memory before the kernel ran. *)
Context (live : Z -> Prop).

(** Device [j] has a right to write to memory: an instance that has not been stopped claims
    it, or it never was claimed and could from the start. *)
Definition may_run m (j : Z) (dev : pci_device) : Prop :=
  pd_inst dev = NULL /\ live j \/ exists i, m !! pd_inst dev = Some i /\ i_stopped i = false.

(** [m] are the instances: those of a kind with a block have one each, and a device is
    claimed by the instance that has it; a device that may write to memory has a right to. *)
Record claims m d : Prop := {
  cl_null : m !! NULL = None;
  cl_pci p i : m !! p = Some i -> i_type i = KOBJ_PCI ->
    exists dev, zget (d_pci d) (i_data i) = Some dev /\ pd_inst dev = p;
  cl_dev j dev : zget (d_pci d) j = Some dev -> pd_inst dev <> NULL ->
    exists i, m !! pd_inst dev = Some i /\ i_type i = KOBJ_PCI /\ i_data i = j;
  cl_owns p i : m !! p = Some i -> owns (i_type i) = true -> is_Some (owned_blocks d (i_type i) !! i_data i);
  cl_owner t b : is_Some (owned_blocks d t !! b) -> exists p i, m !! p = Some i /\ i_type i = t /\ i_data i = b;
  cl_inj p1 i1 p2 i2 : m !! p1 = Some i1 -> m !! p2 = Some i2 -> owns (i_type i1) = true ->
    i_type i1 = i_type i2 -> i_data i1 = i_data i2 -> p1 = p2;
  cl_dma j dev : zget (d_pci d) j = Some dev -> dma_on (d_bus d) dev -> may_run m j dev }.

(** The devices found on the bus. *)
Record found (ds : list pci_device) : Prop := {
  fo_bus j dev : zget ds j = Some dev -> on_bus dev;
  fo_bars j dev : zget ds j = Some dev -> zlen (pd_bars dev) = 6;
  fo_apart j1 dev1 j2 dev2 : zget ds j1 = Some dev1 -> zget ds j2 = Some dev2 ->
    reg_addr dev1 0x04 = reg_addr dev2 0x04 -> j1 = j2 }.

Definition fit d : Prop := forall t b size paddr, owned_blocks d t !! b = Some (size, paddr) ->
  0 < size < 2 ^ 31 - 4096 /\ paddr mod 4096 = 0 /\ b mod 4096 = 0 /\ 0 < paddr /\ paddr + pages size * 4096 <= 2 ^ 31.

Record hinv m d : Prop := {
  hi_world : @world_inv H (reserve (owned d)) (d_world d);
  hi_claims : claims m d;
  hi_found : found (d_pci d);
  hi_nodup : NoDup (owned d);
  hi_fit : fit d }.

Definition dinv d : Prop := hinv (w_insts (d_world d)) d.

Definition same_objs w w' : Prop :=
  w_insts w' = w_insts w /\ w_refs w' = w_refs w /\ w_regs w' = w_regs w /\ w_procs w' = w_procs w.

(** Instances with the same kinds, data and running devices. *)
Lemma claims_same m m' d :
  claims m d ->
  (forall p, (fun i => (i_type i, i_data i)) <$> m' !! p = (fun i => (i_type i, i_data i)) <$> m !! p) ->
  (forall j dev, zget (d_pci d) j = Some dev -> dma_on (d_bus d) dev -> i_stopped <$> m' !! pd_inst dev = i_stopped <$> m !! pd_inst dev) ->
  claims m' d.
Proof.
  intros [C0 C1 C2 C3 C4 C5 C6] He Hs.
  assert (Hb : forall p i', m' !! p = Some i' -> exists i, m !! p = Some i /\ i_type i = i_type i' /\ i_data i = i_data i').
  { intros p i' Hi'. specialize (He p). rewrite Hi' in He. destruct (m !! p) as [i|]; [|done]. injection He as ? ?. by exists i. }
  assert (Hf : forall p i, m !! p = Some i -> exists i', m' !! p = Some i' /\ i_type i = i_type i' /\ i_data i = i_data i').
  { intros p i Hi. specialize (He p). rewrite Hi in He. destruct (m' !! p) as [i'|]; [|done]. injection He as ? ?. by exists i'. }
  constructor.
  - specialize (He NULL). rewrite C0 in He. by destruct (m' !! NULL).
  - intros p i' Hi' Ht. destruct (Hb p i' Hi') as (i & Hi & Et & Ed). rewrite <-Ed. apply (C1 p i Hi). congruence.
  - intros j dev Hd Hn. destruct (C2 j dev Hd Hn) as (i & Hi & Ht & Hda). destruct (Hf _ _ Hi) as (i' & ? & ? & ?).
    exists i'. split_and!; congruence.
  - intros p i' Hi'. destruct (Hb p i' Hi') as (i & Hi & <- & <-). by apply (C3 p i).
  - intros t b Hbl. destruct (C4 t b Hbl) as (p & i & Hi & ? & ?). destruct (Hf _ _ Hi) as (i' & ? & ? & ?).
    exists p, i'. split_and!; congruence.
  - intros p1 i1 p2 i2 H1 H2. destruct (Hb _ _ H1) as (j1 & ? & <- & <-), (Hb _ _ H2) as (j2 & ? & <- & <-). by eapply C5.
  - intros j dev Hd Ho. specialize (Hs j dev Hd Ho). destruct (C6 j dev Hd Ho) as [|(i & Hi & Hst)]; [by left|]. rewrite Hi in Hs.
    destruct (m' !! pd_inst dev) as [i'|] eqn:Hi'; [|done]. injection Hs as Hs. right. exists i'. split; [done|congruence].
Qed.

(** ** The hooks *)

Lemma claims_bus m d b :
  claims m d ->
  (forall j dev, zget (d_pci d) j = Some dev -> dma_on b dev -> may_run m j dev) ->
  claims m (set_bus d b).
Proof. intros [C0 C1 C2 C3 C4 C5 C6] Hb. by constructor. Qed.

Lemma hinv_bus m d b :
  hinv m d ->
  (forall j dev, zget (d_pci d) j = Some dev -> dma_on b dev -> may_run m j dev) ->
  hinv m (set_bus d b).
Proof. intros [I1 I2 I3 I4 I5] Hb. constructor; try done. by apply claims_bus. Qed.

(** Writing a register of device [j]. *)
Lemma dma_write ds (b : B) j dev o v j' dev' :
  found ds -> zget ds j = Some dev -> zget ds j' = Some dev' -> used_reg o ->
  dma_on (dev_write b dev o v) dev' ->
  (j' = j /\ o = 0x04 /\ Z.testbit v 2 = true) \/ ((j' = j -> o <> 0x04) /\ dma_on b dev').
Proof.
  intros [Hb _ Ha] Hd Hd' Ho. unfold dma_on, dev_read, dev_write, pci_config_read32, pci_config_write32.
  fold (reg_addr dev o) (reg_addr dev' 4).
  destruct (decide (reg_addr dev o = reg_addr dev' 4)) as [E|E]; [|rewrite bus_other by done; right; split; [intros -> ->; apply E; congruence|done]].
  destruct (reg_addr_inj dev dev' o 4) as (_ & _ & _ & ->); [by eapply Hb..|done|by left|done|].
  assert (j' = j) as -> by (eapply Ha; try done). assert (dev' = dev) as -> by congruence.
  intros Hbit. left. split_and!; [done..|]. eapply bus_bits; [|lia|exact Hbit].
  destruct (Hb j dev Hd) as (? & ? & ?). unfold reg_addr. rewrite config_address_sum by (done || lia).
  Z.div_mod_to_equations. lia.
Qed.

Lemma run_stop m d p i :
  hinv m d -> m !! p = Some i ->
  exists d', run_hooks d (stop_log p i) = Some d' /\ hinv (<[p := stopped_inst i]> m) d' /\ d_world d' = d_world d.
Proof.
  intros Hd Hi. pose proof Hd as [I1 I2 I3 I4 I5].
  assert (Hk : forall p', (fun i => (i_type i, i_data i)) <$> (<[p := stopped_inst i]> m) !! p' = (fun i => (i_type i, i_data i)) <$> m !! p').
  { intros p'. rewrite lookup_insert. case_decide as Hp; [|done]. subst. by rewrite Hi. }
  unfold stop_log. destruct (i_stopped i || negb (has_stop (kobjs (i_type i)))) eqn:Es.
  - exists d. split; [done|]. split; [|done]. constructor; try done. eapply claims_same; [exact I2|exact Hk|].
    intros j dev _ _. rewrite lookup_insert. case_decide as Hp; [|done]. subst. rewrite Hi. simpl. f_equal.
    by destruct (i_stopped i), (has_stop (kobjs (i_type i))).
  - apply orb_false_iff in Es as [Es Ht]. assert (i_type i = KOBJ_PCI) as Hpci by (by destruct (i_type i)).
    destruct (cl_pci _ _ I2 p i Hi Hpci) as (dev & Hdev & Hpi). simpl. unfold pci_stop, pci_disable_device.
    rewrite Hdev. simpl. eexists. split; [reflexivity|]. split; [|done].
    set (v := Z.land _ _). set (d' := set_bus _ _).
    assert (Hoff : forall j' dev', zget (d_pci d) j' = Some dev' -> dma_on (d_bus d') dev' -> j' <> i_data i /\ dma_on (d_bus d) dev').
    { intros j' dev' Hd' Ho. destruct (dma_write (d_pci d) (d_bus d) (i_data i) dev 4 v j' dev' I3 Hdev Hd') as [(-> & _ & Hb)|Ho']; [by left|done| |].
      - unfold v in Hb. rewrite Z.land_spec in Hb. simpl in Hb. by rewrite andb_false_r in Hb.
      - split; [|apply Ho']. intros ->. by apply (proj1 Ho').  }
    constructor; try done. eapply claims_same; [|exact Hk|].
    + apply claims_bus; [done|]. intros j' dev' Hd' Ho. by apply (cl_dma _ _ I2 j'), (Hoff j').
    + intros j' dev' Hd' Ho. destruct (Hoff j' dev' Hd' Ho) as [Hn _]. rewrite lookup_insert_ne; [done|]. intros Hp.
      destruct (cl_dev _ _ I2 j' dev' Hd') as (i' & Hi' & _ & Hda); [rewrite <-Hp; intros ->; by rewrite (cl_null _ _ I2) in Hi|].
      rewrite <-Hp in Hi'. congruence.
Qed.

Lemma block_pages_take bs b size paddr :
  bs !! b = Some (size, paddr) ->
  block_pages bs ≡ₚ page_list paddr size ++ page_list b SIZEOF_DESC ++ block_pages (delete b bs).
Proof.
  intros Hb. unfold block_pages. rewrite <-(insert_delete_id bs b (size, paddr)) at 1 by done.
  rewrite map_to_list_insert by apply lookup_delete_eq. cbn [fmap list_fmap concat entry_pages fst snd].
  rewrite (app_assoc (page_list paddr size)). f_equiv. apply Permutation_app_comm.
Qed.

Lemma found_zset ds j dev dev' :
  found ds -> zget ds j = Some dev -> pd_bus dev' = pd_bus dev -> pd_slot dev' = pd_slot dev -> pd_func dev' = pd_func dev ->
  zlen (pd_bars dev') = 6 -> found (zset ds j dev').
Proof.
  intros [Hb Hl Ha] Hd E1 E2 E3 E4. assert (Er : reg_addr dev' 4 = reg_addr dev 4) by (unfold reg_addr; congruence).
  assert (Hx : forall k x, zget (zset ds j dev') k = Some x -> exists y, zget ds k = Some y /\ reg_addr x 4 = reg_addr y 4 /\ (on_bus y -> on_bus x) /\
    zlen (pd_bars x) = 6).
  { intros k x. rewrite zget_zset. case_decide as Hk; [|intros Hkx; exists x; eauto]. intros [= <-]. destruct Hk as [-> _]. exists dev.
    split_and!; [done..| |done]. unfold on_bus. by rewrite E1, E2, E3. }
  constructor.
  - intros k x Hk. destruct (Hx k x Hk) as (y & Hy & _ & Ho & _). eapply Ho, Hb, Hy.
  - intros k x Hk. by destruct (Hx k x Hk) as (y & _ & _ & _ & ?).
  - intros k1 x1 k2 x2 Hk1 Hk2 E. destruct (Hx _ _ Hk1) as (y1 & ? & ? & _), (Hx _ _ Hk2) as (y2 & ? & ? & _).
    eapply Ha; try done. congruence.
Qed.

(** An instance of a kind with a block goes, with its block. *)
Lemma claims_release m d d' p i :
  claims m d -> m !! p = Some i -> owns (i_type i) = true ->
  d_pci d' = d_pci d -> d_bus d' = d_bus d ->
  (forall t, owned_blocks d' t = if decide (t = i_type i) then delete (i_data i) (owned_blocks d t) else owned_blocks d t) ->
  claims (delete p m) d'.
Proof.
  intros [C0 C1 C2 C3 C4 C5 C6] Hi Ho Ep Eb Et.
  assert (Hdev : forall dev i', m !! pd_inst dev = Some i' -> i_type i' = KOBJ_PCI -> delete p m !! pd_inst dev = Some i').
  { intros dev i' Hi' Ht. rewrite lookup_delete_ne; [done|]. intros E.
    assert (i' = i) as -> by congruence. by rewrite Ht in Ho. }
  constructor.
  - rewrite lookup_delete. by case_decide.
  - intros p' i' [_ Hi']%lookup_delete_Some. rewrite Ep. by apply C1.
  - intros j dev. rewrite Ep. intros Hd Hn. destruct (C2 j dev Hd Hn) as (i' & Hi' & Ht & ?). exists i'. split; [|done]. by apply Hdev.
  - intros p' i' [Hn Hi']%lookup_delete_Some Ho'. rewrite Et. case_decide as Hd; [|by eapply C3].
    rewrite lookup_delete_ne; [by eapply C3|]. intros E. apply Hn. by eapply (C5 p i p' i').
  - intros t b. rewrite Et. intros Hb. assert (Hb' : is_Some (owned_blocks d t !! b) /\ (t = i_type i -> b <> i_data i)).
    { case_decide as Hd; [|by split]. destruct Hb as [x [Hn Hx]%lookup_delete_Some]. split; [eauto|congruence]. }
    destruct Hb' as [Hb1 Hb2]. destruct (C4 t b Hb1) as (p' & i' & Hi' & Ht & Hda). exists p', i'. split; [|done].
    rewrite lookup_delete_ne; [done|]. intros <-. apply Hb2; congruence.
  - intros p1 i1 p2 i2 [_ ?]%lookup_delete_Some [_ ?]%lookup_delete_Some. by eapply C5.
  - intros j dev. rewrite Ep, Eb. intros Hd Hon. destruct (C6 j dev Hd Hon) as [|(i' & Hi' & Hst)]; [by left|]. right. exists i'. split; [|done].
    destruct (C2 j dev Hd) as (i2 & Hi2 & Ht & _); [intros E; rewrite E in Hi'; congruence|].
    apply Hdev; [done|congruence].
Qed.

Lemma free_block m d d' p i size paddr :
  hinv m d -> m !! p = Some i -> owns (i_type i) = true -> owned_blocks d (i_type i) !! i_data i = Some (size, paddr) ->
  d_pci d' = d_pci d -> d_bus d' = d_bus d ->
  (forall t, owned_blocks d' t = if decide (t = i_type i) then delete (i_data i) (owned_blocks d t) else owned_blocks d t) ->
  d_world d' = kfree (kfree (d_world d) paddr size) (i_data i) SIZEOF_DESC ->
  hinv (delete p m) d'.
Proof.
  intros [I1 I2 I3 I4 I5] Hi Ho Hb Ep Eb Et Ew.
  assert (Hperm : owned d ≡ₚ page_list paddr size ++ page_list (i_data i) SIZEOF_DESC ++ owned d').
  { unfold owned. pose proof (Et KOBJ_SHARED) as E1. pose proof (Et KOBJ_DMA) as E2. simpl in E1, E2. rewrite E1, E2.
    destruct (i_type i); try done; simpl in Hb; repeat case_decide; try done; rewrite (block_pages_take _ _ _ _ Hb), <-?app_assoc; [|done].
    rewrite Permutation_app_swap_app. f_equiv. by rewrite Permutation_app_swap_app. }
  destruct (I5 _ _ _ _ Hb) as (Hsz & Hpa & Hba & _). rewrite Hperm in I4. apply NoDup_app in I4 as (_ & N1 & I4).
  apply NoDup_app in I4 as (_ & N2 & N3). constructor; [|by eapply claims_release|by rewrite Ep|done|].
  - rewrite Ew. apply world_free; [|done|unfold SIZEOF_DESC; lia|done].
    apply world_free; [|done..]. by eapply world_perm.
  - intros t b sz pa. rewrite Et. case_decide as Hd; [intros [_ ?]%lookup_delete_Some|]; by eapply I5.
Qed.

(** The instance of a device goes when the device has been stopped. *)
Lemma free_device m d p i :
  hinv m d -> m !! p = Some i -> i_type i = KOBJ_PCI -> i_stopped i = true ->
  exists d', pci_free_inst d (i_data i) = Some d' /\ hinv (delete p m) d' /\ d_world d' = d_world d.
Proof.
  intros [I1 I2 I3 I4 I5] Hi Ht Hst. pose proof I2 as [C0 C1 C2 C3 C4 C5 C6].
  destruct (C1 p i Hi Ht) as (dev & Hdev & Hp). unfold pci_free_inst. rewrite Hdev. simpl.
  eexists. split; [reflexivity|]. split; [|done]. set (d' := set_pci _ _).
  assert (Hx : forall j x, zget (d_pci d') j = Some x -> (j = i_data i /\ x = set_claim dev NULL) \/ (j <> i_data i /\ zget (d_pci d) j = Some x)).
  { intros j x. simpl. rewrite zget_zset. case_decide as Hj; [intros [= <-]; left; split; [lia|done]|]. intros Hx.
    destruct (decide (j = i_data i)) as [->|]; [|by right]. exfalso. apply Hj. split; [done|]. by apply (zget_Some_range _ _ _ Hdev). }
  assert (Hne : forall j x, j <> i_data i -> zget (d_pci d) j = Some x -> pd_inst x <> NULL -> p <> pd_inst x).
  { intros j x Hn Hx' Hnn E. destruct (C2 j x Hx' Hnn) as (i' & Hi' & _ & Hda). rewrite <-E in Hi'. congruence. }
  constructor; [done| |apply (found_zset _ _ dev); try done; exact (fo_bars _ I3 _ _ Hdev)|done|done]. constructor.
  - rewrite lookup_delete. by case_decide.
  - intros p' i' [Hn Hi']%lookup_delete_Some Ht'. destruct (C1 p' i' Hi' Ht') as (x & Hx' & Hpx). exists x. split; [|done].
    simpl. rewrite zget_zset_ne; [done|]. intros E. rewrite E in Hdev. congruence.
  - intros j x Hjx Hn. destruct (Hx j x Hjx) as [[_ ->]|[Hj Hx']]; [done|]. destruct (C2 j x Hx' Hn) as (i' & Hi' & ?).
    exists i'. split; [|done]. rewrite lookup_delete_ne; [done|]. by eapply Hne.
  - intros p' i' [_ Hi']%lookup_delete_Some. by apply (C3 p').
  - intros t b Hb. destruct (C4 t b Hb) as (p' & i' & Hi' & Ht' & ?). exists p', i'. split; [|done].
    rewrite lookup_delete_ne; [done|]. intros <-. assert (i' = i) as -> by congruence. rewrite <-Ht', Ht in Hb. by destruct Hb.
  - intros p1 i1 p2 i2 [_ ?]%lookup_delete_Some [_ ?]%lookup_delete_Some. by eapply C5.
  - intros j x Hjx Ho. destruct (Hx j x Hjx) as [[-> ->]|[Hj Hx']].
    + destruct (C6 (i_data i) dev Hdev Ho) as [[Hn _]|(i' & Hi' & ?)]; congruence.
    + destruct (C6 j x Hx' Ho) as [|(i' & Hi' & ?)]; [by left|]. right. exists i'. split; [|done]. rewrite lookup_delete_ne; [done|].
      eapply Hne; [done..|]. intros E. rewrite E in Hi'. congruence.
Qed.

Lemma claims_drop_file m d p i : claims m d -> m !! p = Some i -> i_type i = KOBJ_FILE -> claims (delete p m) d.
Proof.
  intros [C0 C1 C2 C3 C4 C5 C6] Hi Ht.
  assert (Hk : forall q i', m !! q = Some i' -> i_type i' <> KOBJ_FILE -> delete p m !! q = Some i').
  { intros q i' Hq Hn. rewrite lookup_delete_ne; [done|]. intros <-. congruence. }
  constructor.
  - rewrite lookup_delete. by case_decide.
  - intros p' i' [_ ?]%lookup_delete_Some. by apply C1.
  - intros j x Hx Hn. destruct (C2 j x Hx Hn) as (i' & ? & Ht' & ?). exists i'. split; [|done]. apply Hk; [done|]. by rewrite Ht'.
  - intros p' i' [_ ?]%lookup_delete_Some. by apply (C3 p').
  - intros t b Hb. destruct (C4 t b Hb) as (p' & i' & ? & Ht' & ?). exists p', i'. split; [|done]. apply Hk; [done|].
    rewrite Ht'. intros ->. by destruct Hb.
  - intros p1 i1 p2 i2 [_ ?]%lookup_delete_Some [_ ?]%lookup_delete_Some. by eapply C5.
  - intros j x Hx Ho. destruct (C6 j x Hx Ho) as [|(i' & Hi' & ?)]; [by left|]. right. exists i'. split; [|done]. apply Hk; [done|].
    destruct (C2 j x Hx) as (i2 & Hi2 & Ht2 & _); [intros E; rewrite E in Hi'; congruence|]. assert (i2 = i') as -> by congruence. by rewrite Ht2.
Qed.

Lemma claims_new m d p i :
  claims m d -> m !! p = None -> p <> NULL -> i_type i = KOBJ_FILE -> claims (<[p := i]> m) d.
Proof.
  intros [C0 C1 C2 C3 C4 C5 C6] Hp Hn Ht.
  assert (Hk : forall q i', m !! q = Some i' -> <[p := i]> m !! q = Some i').
  { intros q i' Hq. rewrite lookup_insert_ne; [done|congruence]. }
  constructor.
  - by rewrite lookup_insert_ne.
  - intros p' i' [[<- <-]|[_ Hi']]%lookup_insert_Some Ht'; [congruence|]. by apply C1.
  - intros j x Hx Hnn. destruct (C2 j x Hx Hnn) as (i' & ? & ?). exists i'. split; [by apply Hk|done].
  - intros p' i' [[<- <-]|[_ Hi']]%lookup_insert_Some Ho; [by rewrite Ht in Ho|]. by apply (C3 p').
  - intros t b Hb. destruct (C4 t b Hb) as (p' & i' & ? & ?). exists p', i'. split; [by apply Hk|done].
  - intros p1 i1 p2 i2 [[<- <-]|[_ ?]]%lookup_insert_Some [[<- <-]|[_ ?]]%lookup_insert_Some Ho He; try done; try (by rewrite Ht in Ho); [|by eapply C5].
    by rewrite He, Ht in Ho.
  - intros j x Hx Ho. destruct (C6 j x Hx Ho) as [|(i' & ? & ?)]; [by left|]. right. exists i'. split; [by apply Hk|done].
Qed.

(** The hook of a kind with a block frees the memory, then the structure. *)
Lemma run_free_block d p t b size paddr :
  owns t = true -> owned_blocks d t !! b = Some (size, paddr) -> size <> 0 ->
  exists d', run_hook d (EFree p t b) = Some d' /\ d_pci d' = d_pci d /\ d_bus d' = d_bus d /\
    (forall t', owned_blocks d' t' = if decide (t' = t) then delete b (owned_blocks d t') else owned_blocks d t') /\
    d_world d' = kfree (kfree (d_world d) paddr size) b SIZEOF_DESC.
Proof.
  intros Ho Hb Hs. destruct t; try done; simpl in *; [unfold dma_cleanup|unfold shared_free_inst]; rewrite Hb; simpl;
    [replace (size =? 0) with false by lia; simpl|]; eexists; (split; [reflexivity|]); split_and!; try done; by intros [].
Qed.

Lemma run_free m d p i :
  hinv m d -> m !! p = Some i -> (i_type i = KOBJ_PCI -> i_stopped i = true) ->
  exists d', run_hook d (EFree p (i_type i) (i_data i)) = Some d' /\ hinv (delete p m) d' /\ same_objs (d_world d) (d_world d').
Proof.
  intros Hd Hi Hst. pose proof Hd as [I1 I2 I3 I4 I5].
  assert (Hb : owns (i_type i) = true -> exists size paddr, owned_blocks d (i_type i) !! i_data i = Some (size, paddr)).
  { intros Ho. destruct (cl_owns _ _ I2 p i Hi Ho) as [[size paddr] ?]. eauto. }
  destruct (owns (i_type i)) eqn:Ho.
  - destruct (Hb eq_refl) as (size & paddr & E). destruct (I5 _ _ _ _ E) as (Hsz & _).
    destruct (run_free_block d p (i_type i) (i_data i) size paddr Ho E) as (d' & Er & E1 & E2 & E3 & Ew); [lia|].
    exists d'. split; [done|]. split; [by apply (free_block m d d' p i size paddr)|by rewrite Ew].
  - destruct (i_type i) eqn:Ht; try done; simpl.
    + destruct (free_device m d p i Hd Hi Ht (Hst eq_refl)) as (d' & E & ? & Ew). exists d'. split; [done|]. split; [done|]. by rewrite Ew.
    + eexists. split; [reflexivity|]. split; [|done]. constructor; try done.
      destruct (claims_drop_file m d p i I2 Hi Ht). by constructor.
Qed.

Lemma run_hooks_app d l1 l2 : run_hooks d (l1 ++ l2) = d' ← run_hooks d l1; run_hooks d' l2.
Proof. revert d. induction l1 as [|e l1 IH]; intros d; simpl; [done|]. destruct (run_hook d e); simpl; [apply IH|done]. Qed.

Lemma run_change m l m' d :
  change m l m' -> hinv m d ->
  exists d', run_hooks d l = Some d' /\ hinv m' d' /\ same_objs (d_world d) (d_world d').
Proof.
  intros Hc Hd. pose proof Hd as [I1 I2 I3 I4 I5]. destruct Hc as [p i j Hi Et Eda Est|p i Hi|p i Hi|p i Hn Hp Ht|p f].
  - exists d. split; [done|]. split; [|done]. constructor; try done. eapply claims_same; [exact I2| |].
    + intros q. rewrite lookup_insert. case_decide as Hq; [|done]. subst. rewrite Hi. simpl. congruence.
    + intros k dev _ _. rewrite lookup_insert. case_decide as Hq; [|done]. subst. rewrite Hi. simpl. congruence.
  - destruct (run_stop m d p i Hd Hi) as (d' & E & ? & Ew). exists d'. by rewrite Ew.
  - destruct (run_stop m d p i Hd Hi) as (d1 & E & H1 & Ew). rewrite run_hooks_app, E, bind_Some_l.
    destruct (run_free (<[p := stopped_inst i]> m) d1 p (stopped_inst i) H1) as (d' & E' & H2 & Hs); [by rewrite lookup_insert_eq| |].
    { simpl. intros ->. simpl. apply orb_true_r. }
    simpl in E' |- *. rewrite E'. exists d'. rewrite delete_insert_eq in H2. by rewrite Ew in Hs.
  - exists d. split; [done|]. split; [|done]. constructor; try done. by apply claims_new.
  - eexists. split; [reflexivity|]. split; [|done]. constructor; try done. destruct I2. by constructor.
Qed.

Lemma run_changes m l m' d :
  changes m l m' -> hinv m d ->
  exists d', run_hooks d l = Some d' /\ hinv m' d' /\ same_objs (d_world d) (d_world d').
Proof.
  intros Hc Hd. induction Hc as [|l1 m1 l2 m2 _ IH Hc]; [by exists d|]. destruct IH as (d1 & E1 & H1 & S1).
  destruct (run_change m1 l2 m2 d1 Hc H1) as (d2 & E2 & H2 & S2). exists d2. rewrite run_hooks_app, E1.
  split; [done|]. split; [done|]. unfold same_objs in *. intuition congruence.
Qed.

Lemma world_log l w log : @world_inv H (reserve l) w -> @world_inv H (reserve l) (with_log w log).
Proof.
  intros [[S0 S1 S2 S3 S4 S5 S6] Hl Hp]. constructor; [by constructor|done|]. by apply (procs_inv_same w).
Qed.

Lemma hinv_world m d w : hinv m d -> @world_inv H (reserve (owned d)) w -> hinv m (set_world d w).
Proof. intros [I1 [] I3 I4 I5] Hw. by constructor. Qed.

(** An operation of KObj that keeps its invariant whatever pages are set aside. *)
Lemma with_hooks_ok {X} (f : world H -> option (X * world H)) d :
  dinv d ->
  (exists a w', f (with_log (d_world d) []) = Some (a, w') /\ @world_inv H (reserve (owned d)) w' /\
     evolve (with_log (d_world d) []) w') ->
  exists a w' d', f (with_log (d_world d) []) = Some (a, w') /\ with_hooks f d = Some (a, d') /\ dinv d' /\ same_objs w' (d_world d').
Proof.
  intros Hd (a & w' & E & Hw' & l & El & Hl). simpl in El, Hl. pose proof Hd as [I1 I2 I3 I4 I5].
  destruct (run_changes (w_insts (d_world d)) l (w_insts w') (set_world d w') Hl) as (d' & Er & Hd' & Hs); [by apply hinv_world|].
  exists a, w', d'. unfold with_hooks. rewrite E. simpl. rewrite El, Er. simpl. split_and!; [done..| |done].
  unfold dinv. destruct Hs as (-> & _). exact Hd'.
Qed.

(** ** The operations on handles *)

(** [w] with what [dinv] says of it, at any log. *)
Lemma dinv_world d log : dinv d -> @world_inv H (reserve (owned d)) (with_log (d_world d) log).
Proof. intros []. by apply world_log. Qed.

Definition has_proc d (pid : Z) : Prop := is_Some (w_procs (d_world d) !! pid).

Lemma close_ok d pid h :
  dinv d -> has_proc d pid -> exists b d', api_close_handle d pid h = Some (b, d') /\ dinv d'.
Proof.
  intros Hd [p Hp]. destruct (with_hooks_ok (fun w => process_release_kobj w pid h) d Hd) as (b & w' & d' & _ & E & Hd' & _); [|eauto].
  destruct (@process_release_kobj_spec H (reserve (owned d)) _ pid p h (dinv_world d [] Hd) Hp) as (b & w' & E & Hw' & _).
  exists b, w'. split; [exact E|]. split; [done|]. by eapply process_release_kobj_evolve.
Qed.

Lemma unmap_ok d pid va :
  dinv d -> has_proc d pid -> is_u32 va -> exists b d', api_unmap d pid va = Some (b, d') /\ dinv d'.
Proof.
  intros Hd [p Hp] Hva. destruct (with_hooks_ok (fun w => process_unmap_vm w pid va) d Hd) as (b & w' & d' & _ & E & Hd' & _); [|eauto].
  destruct (@process_unmap_vm_spec H (reserve (owned d)) _ pid p va (dinv_world d [] Hd) Hp Hva) as (b & w' & E & Hw' & _).
  exists b, w'. split; [exact E|]. split; [done|]. by eapply process_unmap_vm_evolve.
Qed.

Lemma copy_ok d send receive h :
  dinv d -> has_proc d send -> has_proc d receive -> exists h' d', copy_handle d send receive h = Some (h', d') /\ dinv d'.
Proof.
  intros Hd [p Hp] [q Hq]. destruct (with_hooks_ok (fun w => process_copy_kobj w send receive h) d Hd) as (b & w' & d' & _ & E & Hd' & _); [|eauto].
  destruct (@process_copy_kobj_spec H (reserve (owned d)) _ send receive p q h (dinv_world d [] Hd) Hp Hq) as (b & w' & E & Hw' & _).
  exists b, w'. split; [exact E|]. split; [done|]. by eapply process_copy_kobj_evolve.
Qed.

(** The frame changes no operation, only what is said of it. *)
Lemma release_pass_frame l : @release_pass H (reserve l) = @release_pass H A.
Proof. reflexivity. Qed.

Lemma release_kobjs_frame l w pid : @process_release_kobjs H (reserve l) w pid = process_release_kobjs w pid.
Proof. unfold process_release_kobjs. by rewrite release_pass_frame. Qed.

Lemma release_ok d pid : dinv d -> has_proc d pid -> exists b d', release_handles d pid = Some (b, d') /\ dinv d'.
Proof.
  intros Hd [p Hp]. destruct (with_hooks_ok (no_result (fun w => process_release_kobjs w pid)) d Hd) as (b & w' & d' & _ & E & Hd' & _); [|eauto].
  destruct (@process_release_kobjs_spec H (reserve (owned d)) _ pid p (dinv_world d [] Hd) Hp) as (w' & _ & E & Hw' & _).
  rewrite release_kobjs_frame in E.
  exists tt, w'. unfold no_result. rewrite E. split; [done|]. split; [done|]. by eapply process_release_kobjs_evolve.
Qed.

Lemma free_regions_ok d pid : dinv d -> has_proc d pid -> exists b d', free_regions d pid = Some (b, d') /\ dinv d'.
Proof.
  intros Hd [p Hp]. destruct (with_hooks_ok (no_result (fun w => process_free_vm w pid)) d Hd) as (b & w' & d' & _ & E & Hd' & _); [|eauto].
  destruct (@process_free_vm_spec H (reserve (owned d)) _ pid p (dinv_world d [] Hd) Hp) as (w' & E & Hw' & _).
  change (@process_free_vm H A (with_log (d_world d) []) pid = Some w') in E.
  exists tt, w'. unfold no_result. rewrite E. split; [done|]. split; [done|]. by eapply process_free_vm_evolve.
Qed.

(** The kind, the data and the state of a new instance. *)
Lemma create_kobj_inst_eq w t data p w1 :
  create_kobj_inst w t data = (p, w1) -> p <> NULL ->
  w_log w1 = w_log w /\ exists u, w_insts w1 = <[p := KInst u t data 0 0 false]> (w_insts w).
Proof.
  unfold create_kobj_inst. destruct (kmalloc w SIZEOF_INST) as [q w0] eqn:E. intros Ec Hp. revert Ec. zcase; intros [= <- <-]; [done|].
  unfold kmalloc in E. destruct (al_malloc _ _). injection E as _ <-. split; [done|]. by eexists.
Qed.

Lemma create_kobj_ref_log w inst r w' : create_kobj_ref w inst = Some (r, w') -> w_log w' = w_log w.
Proof. unfold create_kobj_ref, kmalloc, kobj_add_ref, next_ref_uid. intros E.
  binds E; try done; repeat match goal with R : _ = (_, _) |- _ => progress binds R | R : _ = Some _ |- _ => progress binds R end; done. Qed.

Lemma process_acquire_kobj_log w pid inst h w' : process_acquire_kobj w pid inst = Some (h, w') -> w_log w' = w_log w.
Proof. unfold process_acquire_kobj. intros E. by binds E; call create_kobj_ref_log. Qed.

(** Handle [h] of the process is one on the instance. *)
Definition gives w (pid h inst : Z) : Prop :=
  exists p r k, w_procs w !! pid = Some p /\ handle_for w p h r /\ w_refs w !! r = Some k /\ r_inst k = inst.

(** A new instance with a handle, or nothing: the ways [create_kobj_inst] and
    [process_acquire_kobj] can go. *)
Lemma new_object l w t data pid inst w1 :
  @world_inv H (reserve l) w -> is_Some (w_procs w !! pid) -> create_kobj_inst w t data = (inst, w1) ->
  (inst = NULL /\ w1 = w) \/
  (inst <> NULL /\ w_insts w !! inst = None /\ w_log w1 = w_log w /\ w_procs w1 = w_procs w /\
   (exists u, w_insts w1 = <[inst := KInst u t data 0 0 false]> (w_insts w)) /\
   (forall log, let w3 := with_insts (kfree (with_log w1 log) inst SIZEOF_INST) (delete inst (w_insts w1)) in
      @world_inv H (reserve l) w3 /\ w_insts w3 = w_insts w) /\
   exists h w2, process_acquire_kobj w1 pid inst = Some (h, w2) /\
     ((h = -1 /\ w2 = w1) \/ (0 <= h /\ @world_inv H (reserve l) w2 /\ changes (w_insts w1) [] (w_insts w2) /\ gives w2 pid h inst))).
Proof.
  intros Hw [p Hp] E. pose proof Hw as [Hs Hl Hpr].
  destruct (@create_kobj_inst_spec H (reserve l) w t data Hs) as (q & w1' & E' & Hc).
  change (create_kobj_inst w t data = (q, w1')) in E'. rewrite E in E'. injection E' as <- <-.
  destruct Hc as [?|(Hn & Hfresh & Hs1 & (i & Hin & Hty & Hda) & E1 & E2 & E3 & E4)]; [by left|]. right.
  destruct (create_kobj_inst_eq w t data inst w1 E Hn) as [Elog [u Hu]].
  split; [done|]. split; [done|]. split; [done|]. split; [done|]. split; [by exists u|]. split.
  { intros log. exact (@drop_new_inst H (reserve l) w w1 inst i log Hw Hs1 Hfresh Hin E1 E2 E3 E4). }
  assert (Hp1 : @procs_inv H w1) by (by apply (procs_inv_same w)).
  destruct (@process_acquire_kobj_spec H (reserve l) w1 pid p inst i Hs1 Hp1) as (h & w2 & Ea & Hcase);
    [by rewrite E3|by rewrite Hin, lookup_insert_eq|].
  exists h, w2. split; [exact Ea|]. destruct Hcase as [?|[Hh Ha]]; [by left|]. right. split; [done|]. split; [|split; [|apply Ha]].
  - apply (ac_inv _ _ _ _ _ _ Ha). intros x y Hx. rewrite Hin, lookup_insert_ne by done. by apply Hl.
  - pose proof (process_acquire_kobj_log _ _ _ _ _ Ea) as Elg. apply process_acquire_kobj_evolve in Ea as (lg & El & Hch).
    rewrite Elg in El. rewrite <-(app_nil_r (w_log w1)) in El at 1. by apply app_inv_head in El as <-.
Qed.

(** ** Creation *)

Definition heap_of w : H := ps_heap (w_pg w).

(** The same pages are in use. *)
Definition same_use (h h' : H) : Prop := forall q, al_used h' q <-> al_used h q.

Lemma wf_of l w : @world_inv H (reserve l) w -> al_wf (heap_of w).
Proof. intros Hw. apply (pw_heap _ (mo_wf _ _ (si_mem _ (wi_store _ Hw)))). Qed.

(** Freeing what was allocated, when everything since has been freed. *)
Lemma same_use_free h n p h1 h2 :
  al_wf h -> 0 < n < 2 ^ 31 - 4096 -> al_malloc h n = (p, h1) -> p <> 0 -> al_wf h2 -> same_use h1 h2 ->
  al_wf (al_free h2 p n) /\ same_use h (al_free h2 p n).
Proof.
  intros Hh Hn E Hp H2 Hu. destruct (al_malloc_ok h n p h1 Hh Hn E Hp) as (_ & ? & _ & _ & Hnew & Hu1).
  destruct (al_free_ok h2 n p H2 Hn) as [Hwf Hf]; [done|intros q Hq; apply Hu, Hu1; by right|].
  split; [done|]. intros q. rewrite Hf, (Hu q), Hu1. split; [tauto|]. intros Hq. split; [by left|]. intros Hr. by apply (Hnew q).
Qed.

(** What [kmalloc] gives, at the pages that are set aside. *)
Record got l w n p w1 : Prop := {
  got_null : p <> NULL;
  got_inv : @world_inv H (reserve (page_list p n ++ l)) w1;
  got_new q : q ∈ page_list p n -> q ∉ l;
  got_unused q : q ∈ page_list p n -> ~ al_used (heap_of w) q;
  got_addr : p mod 4096 = 0 /\ 0 < p /\ p + pages n * 4096 <= 2 ^ 31;
  got_malloc : al_malloc (heap_of w) n = (p, heap_of w1);
  got_same : same_objs w w1 /\ w_log w1 = w_log w }.

Lemma kmalloc_got l w n p w1 :
  @world_inv H (reserve l) w -> 0 < n < 2 ^ 31 - 4096 -> kmalloc w n = (p, w1) -> (p = NULL /\ w1 = w) \/ got l w n p w1.
Proof.
  intros Hw Hn. unfold kmalloc. destruct (al_malloc (ps_heap (w_pg w)) n) as [q h] eqn:E. intros [= <- <-].
  destruct (decide (q = NULL)) as [->|Hq].
  { left. split; [done|]. apply al_malloc_fail in E as ->. by destruct w as [[]]. }
  right. destruct (world_malloc l w n q h Hw Hn E Hq) as (? & ? & ? & ? & ?). constructor; try done.
  intros r Hr. apply elem_of_page_list in Hr. by apply (al_malloc_ok _ n q h (wf_of l w Hw) Hn E Hq).
Qed.

(** A structure and its memory, allocated in either order. *)
Record two d b size paddr w2 : Prop := {
  two_null : b <> NULL /\ paddr <> NULL;
  two_inv : @world_inv H (reserve (page_list paddr size ++ page_list b SIZEOF_DESC ++ owned d)) w2;
  two_nodup : NoDup (page_list paddr size ++ page_list b SIZEOF_DESC ++ owned d);
  two_addr : paddr mod 4096 = 0 /\ b mod 4096 = 0 /\ 0 < paddr /\ paddr + pages size * 4096 <= 2 ^ 31;
  two_use q : al_used (heap_of w2) q <-> al_used (heap_of (d_world d)) q \/ q ∈ page_list paddr size ++ page_list b SIZEOF_DESC;
  two_unused q : q ∈ page_list paddr size ++ page_list b SIZEOF_DESC -> ~ al_used (heap_of (d_world d)) q;
  two_same : same_objs (d_world d) w2 }.

Lemma block_size : 0 < SIZEOF_DESC < 2 ^ 31 - 4096.
Proof. unfold SIZEOF_DESC. lia. Qed.

Lemma got_use l w n p w1 q :
  @world_inv H (reserve l) w -> 0 < n < 2 ^ 31 - 4096 -> got l w n p w1 ->
  al_used (heap_of w1) q <-> al_used (heap_of w) q \/ q ∈ page_list p n.
Proof.
  intros Hw Hn G. rewrite elem_of_page_list.
  by apply (al_malloc_ok (heap_of w) n p (heap_of w1) (wf_of l w Hw) Hn (got_malloc _ _ _ _ _ G) (got_null _ _ _ _ _ G)).
Qed.

Lemma same_objs_trans w1 w2 w3 : same_objs w1 w2 -> same_objs w2 w3 -> same_objs w1 w3.
Proof. unfold same_objs. intuition congruence. Qed.

Lemma two_got d w1 w2 n1 p1 n2 p2 :
  dinv d -> 0 < n1 < 2 ^ 31 - 4096 -> 0 < n2 < 2 ^ 31 - 4096 ->
  got (owned d) (d_world d) n1 p1 w1 -> got (page_list p1 n1 ++ owned d) w1 n2 p2 w2 ->
  NoDup (page_list p2 n2 ++ page_list p1 n1 ++ owned d) /\ same_objs (d_world d) w2 /\
  (forall q, al_used (heap_of w2) q <-> al_used (heap_of (d_world d)) q \/ q ∈ page_list p2 n2 \/ q ∈ page_list p1 n1) /\
  (forall q, q ∈ page_list p2 n2 \/ q ∈ page_list p1 n1 -> ~ al_used (heap_of (d_world d)) q).
Proof.
  intros Hd Hn1 Hn2 G1 G2. pose proof (hi_world _ _ Hd) as Hw. split; [|split; [|split]].
  - apply NoDup_app. split; [apply NoDup_seqZ|]. split; [apply (got_new _ _ _ _ _ G2)|].
    apply NoDup_app. split; [apply NoDup_seqZ|]. split; [apply (got_new _ _ _ _ _ G1)|apply Hd].
  - eapply same_objs_trans; [apply G1|apply G2].
  - intros q. rewrite (got_use _ _ _ _ _ q (got_inv _ _ _ _ _ G1) Hn2 G2), (got_use _ _ _ _ _ q Hw Hn1 G1). tauto.
  - intros q [Hq|Hq] Hu; [|by apply (got_unused _ _ _ _ _ G1 q)]. apply (got_unused _ _ _ _ _ G2 q Hq).
    rewrite (got_use _ _ _ _ _ q Hw Hn1 G1). by left.
Qed.

Lemma two_shared d w1 w2 b size paddr :
  dinv d -> 0 < size < 2 ^ 31 - 4096 ->
  got (owned d) (d_world d) SIZEOF_DESC b w1 -> got (page_list b SIZEOF_DESC ++ owned d) w1 size paddr w2 -> two d b size paddr w2.
Proof.
  intros Hd Hs G1 G2. destruct (two_got d w1 w2 _ _ _ _ Hd block_size Hs G1 G2) as (N & S & U & F).
  destruct (got_addr _ _ _ _ _ G1) as (A1 & _), (got_addr _ _ _ _ _ G2) as (A2 & A3 & A4).
  constructor; [split; [apply G1|apply G2]|apply G2|done|done| |..|done]; intros q; rewrite elem_of_app; [apply U|apply F].
Qed.

Lemma two_dma d w1 w2 b size paddr :
  dinv d -> 0 < size < 2 ^ 31 - 4096 ->
  got (owned d) (d_world d) size paddr w1 -> got (page_list paddr size ++ owned d) w1 SIZEOF_DESC b w2 -> two d b size paddr w2.
Proof.
  intros Hd Hs G1 G2. destruct (two_got d w1 w2 _ _ _ _ Hd Hs block_size G1 G2) as (N & S & U & F).
  destruct (got_addr _ _ _ _ _ G1) as (A1 & A2 & A3), (got_addr _ _ _ _ _ G2) as (A4 & _).
  constructor; [split; [apply G2|apply G1]| | |done| |..|done].
  - eapply world_perm; [apply Permutation_app_swap_app|apply G2].
  - by rewrite Permutation_app_swap_app.
  - intros q. rewrite elem_of_app, U. tauto.
  - intros q. rewrite elem_of_app. intros Hq. apply F. tauto.
Qed.

(** A block with the instance that owns it. *)
Lemma claims_block m d d' inst u t b x :
  claims m d -> m !! inst = None -> inst <> NULL -> owns t = true -> owned_blocks d t !! b = None ->
  d_pci d' = d_pci d -> d_bus d' = d_bus d ->
  (forall t', owned_blocks d' t' = if decide (t' = t) then <[b := x]> (owned_blocks d t') else owned_blocks d t') ->
  claims (<[inst := KInst u t b 0 0 false]> m) d'.
Proof.
  intros [C0 C1 C2 C3 C4 C5 C6] Hm Hn Ho Hb Ep Eb Et.
  assert (Hk : forall q i', m !! q = Some i' -> <[inst := KInst u t b 0 0 false]> m !! q = Some i').
  { intros q i' Hq. rewrite lookup_insert_ne; [done|congruence]. }
  assert (Hnew : forall q i', m !! q = Some i' -> i_type i' = t -> i_data i' = b -> False).
  { intros q i' Hq <- <-. destruct (C3 q i' Hq Ho) as [y Hy]. congruence. }
  constructor; rewrite ?Ep, ?Eb.
  - by rewrite lookup_insert_ne.
  - intros p i [[<- <-]|[_ Hi]]%lookup_insert_Some Ht; [|by apply C1]. simpl in Ht. by rewrite Ht in Ho.
  - intros j dev Hd Hnn. destruct (C2 j dev Hd Hnn) as (i & Hi & ?). exists i. split; [by apply Hk|done].
  - intros p i [[<- <-]|[_ Hi]]%lookup_insert_Some Ho'; rewrite Et; simpl.
    + rewrite decide_True by done. by rewrite lookup_insert_eq.
    + destruct (C3 p i Hi Ho') as [y Hy]. case_decide; [|eauto]. rewrite lookup_insert. case_decide; eauto.
  - intros t' b' Hb'. rewrite Et in Hb'. destruct (decide (t' = t /\ b' = b)) as [[-> ->]|Hd].
    + exists inst, (KInst u t b 0 0 false). by rewrite lookup_insert_eq.
    + destruct (C4 t' b') as (p & i & Hi & ?); [|exists p, i; split; [by apply Hk|done]].
      case_decide; [|done]. rewrite lookup_insert_ne in Hb'; [done|]. intros ->. by apply Hd.
  - intros p1 i1 p2 i2 [[<- <-]|[_ ?]]%lookup_insert_Some [[<- <-]|[_ ?]]%lookup_insert_Some; simpl; intros ? E1 E2; [done| | |by eapply C5].
    + exfalso. by eapply Hnew.
    + exfalso. by eapply Hnew.
  - intros j dev Hd Ho'. destruct (C6 j dev Hd Ho') as [|(i & Hi & ?)]; [by left|]. right. exists i. split; [by apply Hk|done].
Qed.

Lemma owned_block d t b x : owned_blocks d t !! b = Some x -> b / 4096 ∈ owned d.
Proof.
  intros Hb. destruct x as [size paddr]. assert (Hx : forall bs, bs !! b = Some (size, paddr) -> b / 4096 ∈ block_pages bs).
  { intros bs E. rewrite (block_pages_take bs b size paddr E), !elem_of_app. right. left. apply elem_of_page_list.
    change (pages SIZEOF_DESC) with 1. lia. }
  unfold owned. apply elem_of_app. destruct t; simpl in Hb; [right|done|left|done]; by apply Hx.
Qed.

Lemma two_fresh d t b size paddr w2 : two d b size paddr w2 -> owned_blocks d t !! b = None.
Proof.
  intros G. pose proof (two_nodup _ _ _ _ _ G) as Hnd. apply eq_None_not_Some. intros [x Hx].
  apply NoDup_app in Hnd as (_ & _ & Hnd). apply NoDup_app in Hnd as (_ & Hnd & _). apply (Hnd (b / 4096)); [|by eapply owned_block].
  apply elem_of_page_list. change (pages SIZEOF_DESC) with 1. lia.
Qed.

Lemma hinv_block d d' inst u t b size paddr w2 :
  dinv d -> owns t = true -> 0 < size < 2 ^ 31 - 4096 -> two d b size paddr w2 ->
  w_insts (d_world d) !! inst = None -> inst <> NULL ->
  d_pci d' = d_pci d -> d_bus d' = d_bus d ->
  (forall t', owned_blocks d' t' = if decide (t' = t) then <[b := (size, paddr)]> (owned_blocks d t') else owned_blocks d t') ->
  @world_inv H (reserve (page_list paddr size ++ page_list b SIZEOF_DESC ++ owned d)) (d_world d') ->
  hinv (<[inst := KInst u t b 0 0 false]> (w_insts (d_world d))) d'.
Proof.
  intros [I1 I2 I3 I4 I5] Ho Hsz G Hm Hn Ep Eb Et Hw. pose proof (two_nodup _ _ _ _ _ G) as Hnd.
  pose proof (two_fresh d t b size paddr w2 G) as Hfresh.
  assert (Hperm : owned d' ≡ₚ page_list paddr size ++ page_list b SIZEOF_DESC ++ owned d).
  { unfold owned. pose proof (Et KOBJ_SHARED) as E1. pose proof (Et KOBJ_DMA) as E2. simpl in E1, E2. rewrite E1, E2.
    destruct t; try done; simpl in Hfresh; repeat case_decide; try done;
      rewrite (block_pages_take (<[b := _]> _) b size paddr), delete_insert_id, <-?app_assoc by (done || apply lookup_insert_eq); [|done].
    rewrite Permutation_app_swap_app. f_equiv. by rewrite Permutation_app_swap_app. }
  constructor.
  - eapply world_perm; [by symmetry|done].
  - by eapply claims_block.
  - by rewrite Ep.
  - by rewrite Hperm.
  - intros t' b' sz pa. rewrite Et. case_decide as Hd; [|by apply I5].
    intros [[<- [= <- <-]]|[_ ?]]%lookup_insert_Some; [|by eapply I5]. by destruct (two_addr _ _ _ _ _ G) as (? & ? & ? & ?).
Qed.

(** Nothing has changed but bytes of free memory and the counter of the instances. *)
Record unchanged d d' : Prop := {
  un_pci : d_pci d' = d_pci d;
  un_shared : d_shared d' = d_shared d;
  un_dma : d_dma d' = d_dma d;
  un_objs : same_objs (d_world d) (d_world d');
  un_use : same_use (heap_of (d_world d)) (heap_of (d_world d')) }.

Lemma unchanged_dinv d d' :
  dinv d -> unchanged d d' -> d_bus d' = d_bus d -> @world_inv H (reserve (owned d)) (d_world d') -> dinv d'.
Proof.
  intros [I1 I2 I3 I4 I5] [E1 E3 E4 (E5 & _) _] E2 Hw. unfold dinv. rewrite E5.
  assert (Eo : owned d' = owned d) by (unfold owned; congruence).
  assert (Et : forall t, owned_blocks d' t = owned_blocks d t) by (by intros []).
  constructor; [by rewrite Eo| |by rewrite E1|by rewrite Eo|intros t; rewrite Et; apply I5].
  destruct I2 as [C0 C1 C2 C3 C4 C5 C6]. constructor; rewrite ?E1, ?E2; try done.
  - intros p i Hi Ho. rewrite Et. by apply (C3 p).
  - intros t b. rewrite Et. apply C4.
Qed.

Lemma changes_nil_keeps m m' p i :
  changes m [] m' -> m !! p = Some i -> exists i', m' !! p = Some i' /\ i_type i' = i_type i /\ i_data i' = i_data i.
Proof.
  intros Hc Hi. remember [] as l eqn:El. induction Hc as [|l1 m1 l2 m2 _ IH Hc]; [by exists i|].
  apply app_nil in El as [-> ->]. destruct (IH eq_refl) as (i1 & H1 & Et & Ed). clear IH.
  assert (Hput : forall q j, (forall x, m1 !! q = Some x -> i_type j = i_type x /\ i_data j = i_data x) ->
    exists i', <[q := j]> m1 !! p = Some i' /\ i_type i' = i_type i /\ i_data i' = i_data i).
  { intros q j Hj. rewrite lookup_insert. case_decide as Hq; [|by exists i1]. subst q. destruct (Hj i1 H1). exists j. split_and!; congruence. }
  inversion Hc as [q x j Hx ? ? ?|q x Hx Eq|q x Hx Eq|q x ? Hx ?|]; subst.
  - apply Hput. intros y Hy. assert (y = x) as -> by congruence. done.
  - apply Hput. intros y Hy. assert (y = x) as -> by congruence. done.
  - by destruct (stop_log q x).
  - apply Hput. intros y Hy. congruence.
Qed.

Lemma create_kobj_inst_heap w t data p w1 :
  create_kobj_inst w t data = (p, w1) -> p <> NULL -> al_malloc (heap_of w) SIZEOF_INST = (p, heap_of w1).
Proof.
  unfold create_kobj_inst, kmalloc, heap_of. destruct (al_malloc _ _) as [q h]. intros E Hp. revert E. by zcase; intros [= <- <-].
Qed.

(** The structure and its memory go back. *)
Lemma two_free d b size paddr w2 w4 :
  dinv d -> 0 < size < 2 ^ 31 - 4096 -> two d b size paddr w2 ->
  @world_inv H (reserve (page_list paddr size ++ page_list b SIZEOF_DESC ++ owned d)) w4 -> same_objs w2 w4 ->
  same_use (heap_of w2) (heap_of w4) ->
  let w5 := kfree (kfree w4 paddr size) b SIZEOF_DESC in
  @world_inv H (reserve (owned d)) w5 /\ same_objs (d_world d) w5 /\ same_use (heap_of (d_world d)) (heap_of w5).
Proof.
  intros Hd Hsz G Hw4 Hs4 Hu4 w5. destruct (two_addr _ _ _ _ _ G) as (A1 & A2 & _ & _).
  pose proof (two_nodup _ _ _ _ _ G) as Hnd. apply NoDup_app in Hnd as (_ & N1 & Hnd). apply NoDup_app in Hnd as (_ & N2 & _).
  pose proof block_size as Hbs. split; [|split].
  - apply world_free; [|done..]. by apply world_free.
  - eapply same_objs_trans; [apply G|]. exact Hs4.
  - assert (Hin : forall q, al_used (heap_of w4) q <-> al_used (heap_of (d_world d)) q \/ q ∈ page_list paddr size ++ page_list b SIZEOF_DESC)
      by (intros q; rewrite (Hu4 q); apply G).
    destruct (al_free_ok (heap_of w4) size paddr (wf_of _ _ Hw4) Hsz A1) as [F1 U1].
    { intros q Hq. apply Hin. right. apply elem_of_app. left. by apply elem_of_page_list. }
    destruct (al_free_ok (al_free (heap_of w4) paddr size) SIZEOF_DESC b F1 Hbs A2) as [F2 U2].
    { intros q Hq. rewrite <-elem_of_page_list in Hq. rewrite U1, Hin, <-elem_of_page_list. split; [right; apply elem_of_app; by right|].
      intros Hq'. apply (N1 q Hq'), elem_of_app. by left. }
    intros q. change (heap_of w5) with (al_free (al_free (heap_of w4) paddr size) b SIZEOF_DESC).
    rewrite U2, U1, Hin, <-!elem_of_page_list, elem_of_app. pose proof (two_unused _ _ _ _ _ G q) as Hn. rewrite elem_of_app in Hn. tauto.
Qed.

(** So does a new instance that could not be given. *)
Lemma drop_instance l w2 t b inst w3 log pid :
  @world_inv H (reserve l) w2 -> is_Some (w_procs w2 !! pid) -> create_kobj_inst w2 t b = (inst, w3) -> inst <> NULL ->
  let w4 := with_insts (kfree (with_log w3 log) inst SIZEOF_INST) (delete inst (w_insts w3)) in
  @world_inv H (reserve l) w4 /\ same_objs w2 w4 /\ same_use (heap_of w2) (heap_of w4).
Proof.
  intros Hw Hp Ec Hn w4.
  destruct (new_object l w2 t b pid inst w3 Hw Hp Ec) as [[? _]|(_ & _ & _ & _ & _ & Hback & _)]; [done|].
  destruct (Hback log) as [Hw4 Hin4]. split; [done|split].
  - assert (Hr : w_refs w3 = w_refs w2 /\ w_regs w3 = w_regs w2 /\ w_procs w3 = w_procs w2).
    { unfold create_kobj_inst, kmalloc in Ec. destruct (al_malloc _ _). revert Ec. by zcase; intros [= <- <-]. }
    by split.
  - pose proof (create_kobj_inst_heap _ _ _ _ _ Ec Hn) as Em. pose proof (wf_of _ _ Hw) as Hwf2.
    assert (Hwf3 : al_wf (heap_of w3)) by (by eapply (al_malloc_ok (heap_of w2) SIZEOF_INST inst)).
    by destruct (same_use_free (heap_of w2) SIZEOF_INST inst (heap_of w3) (heap_of w3)).
Qed.

(** Handle [h] is one on a new object of kind [t]: its block was free and is zero. *)
Definition given d d' (t : kobj_type) (pid size h : Z) : Prop :=
  exists inst i paddr, gives (d_world d') pid h inst /\ w_insts (d_world d') !! inst = Some i /\ i_type i = t /\
    owned_blocks d' t !! i_data i = Some (size, paddr) /\
    (forall q, q ∈ page_list paddr size -> ~ al_used (heap_of (d_world d)) q) /\
    (forall a, paddr <= a < paddr + size -> d_bytes d' a = 0).

Lemma zero_bytes_in f p n a : p <= a < p + n -> zero_bytes f p n a = 0.
Proof. intros Ha. unfold zero_bytes. zcase; [done|lia]. Qed.

Lemma free_new w inst u t b :
  w_insts w !! inst = Some (KInst u t b 0 0 false) -> owns t = true -> w_log w = [] ->
  free_kobj_inst w inst = Some (with_insts (kfree (with_log w [EFree inst t b]) inst SIZEOF_INST) (delete inst (w_insts w))).
Proof.
  intros Hi Ho El. rewrite (free_kobj_inst_eq w inst _ Hi). rewrite El. by destruct t.
Qed.

Lemma page_align_up_range size : 0 <= page_align_up size.
Proof.
  unfold page_align_up. pose proof (u32_range (size + (PAGE_SIZE - 1))) as Hr. unfold is_u32 in Hr.
  pose proof (Z.mod_le (u32 (size + (PAGE_SIZE - 1))) PAGE_SIZE). unfold PAGE_SIZE in *. lia.
Qed.

(** A structure with its memory gets an instance and a handle, or all of it goes back. *)
Lemma own_object d d1 t b size paddr w2 inst w3 pid :
  dinv d -> has_proc d pid -> owns t = true -> 0 < size < 2 ^ 31 - 4096 -> two d b size paddr w2 ->
  create_kobj_inst w2 t b = (inst, w3) -> inst <> NULL ->
  d_pci d1 = d_pci d -> d_bus d1 = d_bus d ->
  (forall t', owned_blocks d1 t' = if decide (t' = t) then <[b := (size, paddr)]> (owned_blocks d t') else owned_blocks d t') ->
  exists h w4, process_acquire_kobj w3 pid inst = Some (h, w4) /\
    ((h = -1 /\ exists d', with_hooks (no_result (fun w => free_kobj_inst w inst)) (set_world d1 w4) = Some (tt, d') /\
        dinv d' /\ unchanged d d') \/
     (0 <= h /\ dinv (set_world d1 w4) /\ gives w4 pid h inst /\
        exists i, w_insts w4 !! inst = Some i /\ i_type i = t /\ i_data i = b)).
Proof.
  intros Hd Hp Ho Hsz G Ec Hn Ep Eb Et. pose proof (two_same _ _ _ _ _ G) as (S1 & S2 & S3 & S4).
  destruct (new_object _ w2 t b pid inst w3 (two_inv _ _ _ _ _ G)) as [[? _]|(_ & Hfr & Elog & _ & [u Hu] & _ & h & w4 & Ea & Hcase)];
    [by rewrite S4|done..|]. rewrite S1 in Hfr, Hu. exists h, w4. split; [done|].
  destruct Hcase as [[-> ->]|(Hh & Hw4 & Hch & Hg)]; [left|right].
  - split; [done|]. unfold with_hooks, no_result. simpl.
    erewrite (free_new _ inst u t b); [|simpl; rewrite Hu; apply lookup_insert_eq|done|done].
    rewrite !bind_Some_l. change (w_log (with_insts _ _)) with [EFree inst t b]. cbn [run_hooks].
    destruct (drop_instance _ w2 t b inst w3 [EFree inst t b] pid (two_inv _ _ _ _ _ G)) as (Hw4 & Hs4 & Hu4); [by rewrite S4|done..|].
    destruct (two_free d b size paddr w2 _ Hd Hsz G Hw4 Hs4 Hu4) as (Hw5 & Hs5 & Hu5).
    match goal with |- context [run_hook ?d2 _] => destruct (run_free_block d2 inst t b size paddr Ho) as (d' & Er & E1 & E2 & E3 & Ew) end;
      [change (owned_blocks d1 t !! b = Some (size, paddr)); rewrite Et, decide_True by done; apply lookup_insert_eq|lia|].
    rewrite Er. simpl. exists d'. split; [done|].
    assert (Eb' : forall t', owned_blocks d' t' = owned_blocks d t').
    { intros t'. rewrite E3. transitivity (if decide (t' = t) then delete b (owned_blocks d1 t') else owned_blocks d1 t'); [by destruct t'|].
      rewrite Et. case_decide; [|done].
      subst t'. apply delete_insert_id. by eapply two_fresh. }
    assert (Hun : unchanged d d').
    { constructor; [by rewrite E1|by apply (Eb' KOBJ_SHARED)|by apply (Eb' KOBJ_DMA)|by rewrite Ew|by rewrite Ew]. }
    split; [|done]. apply (unchanged_dinv d); [done|done|by rewrite E2|by rewrite Ew].
  - split; [done|]. split; [|split; [done|]].
    + pose proof (hinv_block d (set_world d1 w4) inst u t b size paddr w2 Hd Ho Hsz G Hfr Hn Ep Eb Et Hw4) as Hi.
      rewrite <-Hu in Hi. destruct (run_changes _ _ _ _ Hch Hi) as (d' & [= <-] & Hd' & _). exact Hd'.
    + destruct (changes_nil_keeps _ _ inst (KInst u t b 0 0 false) Hch) as (i & ? & ? & ?); [rewrite Hu; apply lookup_insert_eq|]. by exists i.
Qed.

Lemma unchanged_refl d : unchanged d d.
Proof. done. Qed.

(** Failing with another world. *)
Lemma fail_world d w' :
  dinv d -> @world_inv H (reserve (owned d)) w' -> same_objs (d_world d) w' -> same_use (heap_of (d_world d)) (heap_of w') ->
  dinv (set_world d w') /\ unchanged d (set_world d w').
Proof.
  intros Hd Hw Hs Hu. assert (unchanged d (set_world d w')) by by constructor. split; [|done]. by apply (unchanged_dinv d).
Qed.

(** One allocation goes back. *)
Lemma fail_one d n p w1 w4 :
  dinv d -> 0 < n < 2 ^ 31 - 4096 -> got (owned d) (d_world d) n p w1 ->
  @world_inv H (reserve (page_list p n ++ owned d)) w4 -> same_objs w1 w4 -> same_use (heap_of w1) (heap_of w4) ->
  dinv (set_world d (kfree w4 p n)) /\ unchanged d (set_world d (kfree w4 p n)).
Proof.
  intros Hd Hn G Hw Hs Hu. apply fail_world; [done|..].
  - apply world_free; [done|exact (got_new _ _ _ _ _ G)|done|apply (got_addr _ _ _ _ _ G)].
  - eapply same_objs_trans; [apply (got_same _ _ _ _ _ G)|exact Hs].
  - eapply same_use_free; [apply (wf_of _ _ (hi_world _ _ Hd))|done|exact (got_malloc _ _ _ _ _ G)|exact (got_null _ _ _ _ _ G)|apply (wf_of _ _ Hw)|exact Hu].
Qed.

Lemma with_log_id w : with_log w (w_log w) = w.
Proof. by destruct w. Qed.

Lemma shared_create_spec d pid size :
  dinv d -> has_proc d pid ->
  exists h d', shared_create d pid size = Some (h, d') /\ dinv d' /\
    (h = -1 /\ unchanged d d' \/ 0 <= h /\ given d d' KOBJ_SHARED pid (page_align_up size) h).
Proof.
  intros Hd Hp. unfold shared_create. pose proof (page_align_up_range size) as Hge. set (sz := page_align_up size) in *.
  zcase; [by exists (-1), d; split_and!; auto using unchanged_refl|]. zcase; [by exists (-1), d; split_and!; auto using unchanged_refl|].
  assert (Hsz : 0 < sz < 2 ^ 31 - 4096) by (unfold VM_END, VM_START in *; lia).
  destruct (kmalloc (d_world d) SIZEOF_DESC) as [b w1] eqn:E1.
  destruct (kmalloc_got _ _ _ _ _ (hi_world _ _ Hd) block_size E1) as [[-> ->]|G1].
  { simpl. eexists (-1), _. split; [done|]. destruct (fail_world d (d_world d) Hd) as [? ?]; [apply Hd|done|done|]. auto. }
  pose proof (got_null _ _ _ _ _ G1). zcase; [done|]. destruct (kmalloc w1 sz) as [paddr w2] eqn:E2.
  destruct (kmalloc_got _ _ _ _ _ (got_inv _ _ _ _ _ G1) Hsz E2) as [[-> ->]|G2].
  { simpl. eexists (-1), _. split; [done|].
    destruct (fail_one d _ b w1 w1 Hd block_size G1 (got_inv _ _ _ _ _ G1)) as [? ?]; auto; done. }
  pose proof (got_null _ _ _ _ _ G2). zcase; [done|].
  pose proof (two_shared d w1 w2 b sz paddr Hd Hsz G1 G2) as G.
  destruct (create_kobj_inst w2 KOBJ_SHARED b) as [inst w3] eqn:Ec. zcase.
  - destruct (new_object _ w2 KOBJ_SHARED b pid inst w3 (two_inv _ _ _ _ _ G)) as [[_ ->]|[? _]];
      [destruct (two_same _ _ _ _ _ G) as (_ & _ & _ & ->); done|done| |done].
    destruct (two_free d b sz paddr w2 w2 Hd Hsz G (two_inv _ _ _ _ _ G)) as (Hw & Hs & Hu); [done|done|].
    eexists (-1), _. split; [reflexivity|].
    assert (Hun : forall d', d_pci d' = d_pci d -> d_shared d' = d_shared d -> d_dma d' = d_dma d ->
      d_world d' = kfree (kfree w2 paddr sz) b SIZEOF_DESC -> unchanged d d') by (intros d' ? ? ? E; constructor; by rewrite ?E).
    pose proof (delete_insert_id (d_shared d) b (sz, paddr) (two_fresh d KOBJ_SHARED b sz paddr w2 G)).
    match goal with |- dinv ?d' /\ _ => assert (unchanged d d') by by apply Hun end. split; [by apply (unchanged_dinv d)|by left].
  - match goal with |- context [set_world ?d0 _] => set (d1 := d0) end.
    destruct (own_object d d1 KOBJ_SHARED b sz paddr w2 inst w3 pid Hd Hp) as (h & w4 & Ea & Hcase); try done.
    { by intros []. }
    rewrite Ea, bind_Some_l. destruct Hcase as [[-> (d' & Ew & Hd' & Hun)]|(Hh & Hd' & Hg & i & Hi & Hty & Hda)].
    + simpl. rewrite Ew. simpl. exists (-1), d'. auto.
    + zcase; [lia|]. eexists h, _. split; [reflexivity|]. split; [done|]. right. split; [done|].
      exists inst, i, paddr. split; [done|]. split; [done|]. split; [done|]. split; [|split].
      * simpl. rewrite Hda. apply lookup_insert_eq.
      * intros q Hq. apply (two_unused _ _ _ _ _ G), elem_of_app. by left.
      * intros a Ha. by apply zero_bytes_in.
Qed.

Lemma dma_create_spec d size pid :
  dinv d -> has_proc d pid -> size < 2 ^ 31 - 4096 ->
  exists h pa d', dma_create d size pid = Some (h, pa, d') /\ dinv d' /\
    (h = -1 /\ unchanged d d' \/ 0 <= h /\ given d d' KOBJ_DMA pid size h).
Proof.
  intros Hd Hp Hlt. unfold dma_create. zcase; [by exists (-1), None, d; split_and!; auto using unchanged_refl|].
  assert (Hsz : 0 < size < 2 ^ 31 - 4096) by lia.
  destruct (kmalloc (d_world d) size) as [mem w1] eqn:E1. destruct (kmalloc w1 SIZEOF_DESC) as [b w2] eqn:E2.
  destruct (kmalloc_got _ _ _ _ _ (hi_world _ _ Hd) Hsz E1) as [[-> ->]|G1].
  - destruct (kmalloc_got _ _ _ _ _ (hi_world _ _ Hd) block_size E2) as [[-> ->]|G2].
    { simpl. eexists (-1), None, _. split; [done|]. destruct (fail_world d (d_world d) Hd) as [? ?]; [apply Hd|done|done|]. auto. }
    pose proof (got_null _ _ _ _ _ G2). destruct (got_same _ _ _ _ _ G2) as [(_ & _ & _ & S4) _]. zcase; [done|].
    destruct (create_kobj_inst w2 KOBJ_DMA b) as [inst w3] eqn:Ec. simpl. eexists (-1), None, _. split; [reflexivity|].
    zcase.
    + destruct (new_object _ w2 KOBJ_DMA b pid inst w3 (got_inv _ _ _ _ _ G2)) as [[_ ->]|[? _]]; [by rewrite S4|done| |done].
      destruct (fail_one d _ b w2 w2 Hd block_size G2 (got_inv _ _ _ _ _ G2)) as [? ?]; auto; done.
    + destruct (drop_instance _ w2 KOBJ_DMA b inst w3 (w_log w3) pid (got_inv _ _ _ _ _ G2)) as (Hw & Hs & Hu); [by rewrite S4|done..|].
      rewrite with_log_id in Hw, Hs, Hu. destruct (fail_one d _ b w2 _ Hd block_size G2 Hw Hs Hu) as [? ?]. auto.
  - pose proof (got_null _ _ _ _ _ G1).
    destruct (kmalloc_got _ _ _ _ _ (got_inv _ _ _ _ _ G1) block_size E2) as [[-> ->]|G2].
    { replace (mem =? NULL) with false by lia. simpl. eexists (-1), None, _. split; [done|].
      destruct (fail_one d _ mem w1 w1 Hd Hsz G1 (got_inv _ _ _ _ _ G1)) as [? ?]; auto; done. }
    pose proof (got_null _ _ _ _ _ G2). pose proof (two_dma d w1 w2 b size mem Hd Hsz G1 G2) as G.
    pose proof (two_same _ _ _ _ _ G) as (_ & _ & _ & S4). replace (b =? NULL) with false by lia. replace (mem =? NULL) with false by lia.
    destruct (create_kobj_inst w2 KOBJ_DMA b) as [inst w3] eqn:Ec. simpl. zcase.
    + destruct (new_object _ w2 KOBJ_DMA b pid inst w3 (two_inv _ _ _ _ _ G)) as [[_ ->]|[? _]]; [by rewrite S4|done| |done].
      destruct (two_free d b size mem w2 w2 Hd Hsz G (two_inv _ _ _ _ _ G)) as (Hw & Hs & Hu); [done|done|].
      eexists (-1), None, _. split; [reflexivity|]. destruct (fail_world d _ Hd Hw Hs Hu) as [? ?]. auto.
    + match goal with |- context [set_world ?d0 _] => set (d1 := d0) end.
      destruct (own_object d d1 KOBJ_DMA b size mem w2 inst w3 pid Hd Hp) as (h & w4 & Ea & Hcase); try done.
      { by intros []. }
      rewrite Ea, bind_Some_l. destruct Hcase as [[-> (d' & Ew & Hd' & Hun)]|(Hh & Hd' & Hg & i & Hi & Hty & Hda)].
      * simpl. rewrite Ew. simpl. exists (-1), (Some mem), d'. auto.
      * zcase; [lia|]. eexists h, (Some mem), _. split; [reflexivity|]. split; [done|]. right. split; [done|].
        exists inst, i, mem. split; [done|]. split; [done|]. split; [done|]. split; [|split].
        -- simpl. rewrite Hda. apply lookup_insert_eq.
        -- intros q Hq. apply (two_unused _ _ _ _ _ G), elem_of_app. by left.
        -- intros a Ha. by apply zero_bytes_in.
Qed.

(** ** Devices *)

(** No device of [ds] may write to memory on [b'] that might not on [b]. *)
Definition calm ds (b b' : B) : Prop :=
  forall j dev, zget ds j = Some dev -> dma_on b' dev -> dma_on b dev.

Lemma calm_write ds b0 b j dev o v :
  found ds -> zget ds j = Some dev -> used_reg o -> (o = 0x04 -> Z.testbit v 2 = true -> dma_on b0 dev) -> calm ds b0 b ->
  calm ds b0 (dev_write b dev o v).
Proof.
  intros Hf Hd Ho Hv Hc j' dev' Hd' Hon. destruct (dma_write ds b j dev o v j' dev' Hf Hd Hd' Ho Hon) as [(-> & -> & Hb)|[_ Hb]].
  - assert (dev' = dev) as -> by congruence. by apply Hv.
  - by apply (Hc j').
Qed.

Lemma probe_calm ds b j dev bar size cmd b' :
  found ds -> zget ds j = Some dev -> probe_bar b dev = (bar, size, cmd, b') ->
  cmd = dev_read b dev 4 /\
  forall v, (Z.testbit v 2 = true -> dma_on b dev) -> calm ds b (dev_write b' dev 4 v).
Proof.
  unfold probe_bar. intros Hf Hd [= _ _ <- <-]. split; [done|]. assert (Hc : calm ds b b) by by intros ? ?.
  assert (Hcmd : Z.testbit (Z.land (dev_read b dev 4) (Z.lnot PCI_CMD_MMIO)) 2 = true -> dma_on b dev).
  { rewrite Z.land_spec. by intros [? _]%andb_true_iff. }
  intros v Hv. apply (calm_write ds b _ j); [done|done|by left|done|].
  repeat (eapply (calm_write ds b _ j); [done|done|first [by left|by right]|done|]); done.
Qed.

(** A device whose command is written without the bus master bit is quiet. *)
Lemma quiet_write ds (b : B) j dev v :
  found ds -> zget ds j = Some dev -> Z.testbit v 2 = false -> ~ dma_on (dev_write b dev 4 v) dev.
Proof.
  intros Hf Hd Hv Hon. destruct (dma_write ds b j dev 4 v j dev Hf Hd Hd (or_introl eq_refl) Hon) as [(_ & _ & Hb)|[Hn _]];
    [congruence|by apply Hn].
Qed.

Lemma find_range ds i v dv j : pci_find_device ds i v dv = Some j -> exists dev, zget ds (j - i) = Some dev.
Proof.
  revert i. induction ds as [|x ds IH]; intros i; simpl; [done|]. destruct (_ && _).
  - intros [= <-]. exists x. by rewrite Z.sub_diag.
  - intros E. destruct (IH _ E) as [dev Hd]. exists dev. pose proof (zget_Some_range _ _ _ Hd).
    replace (j - i) with (j - (i + 1) + 1) by lia. by rewrite zget_cons_S by lia.
Qed.

(** A device record with other contents at the same place. *)
Lemma hinv_dev m d j dev dev' :
  hinv m d -> zget (d_pci d) j = Some dev -> pd_bus dev' = pd_bus dev -> pd_slot dev' = pd_slot dev ->
  pd_func dev' = pd_func dev -> zlen (pd_bars dev') = 6 -> pd_inst dev' = pd_inst dev -> hinv m (set_pci d (zset (d_pci d) j dev')).
Proof.
  intros [I1 [C0 C1 C2 C3 C4 C5 C6] I3 I4 I5] Hd E1 E2 E3 El E4. constructor; [done| |by eapply found_zset|done|done].
  assert (Hx : forall k x, zget (zset (d_pci d) j dev') k = Some x -> exists y, zget (d_pci d) k = Some y /\ pd_inst x = pd_inst y /\ (dma_on (d_bus d) x -> dma_on (d_bus d) y)).
  { intros k x. rewrite zget_zset. case_decide as Hk; [|eauto]. intros [= <-]. destruct Hk as [-> _]. exists dev. split; [done|]. split; [done|].
    unfold dma_on, dev_read. by rewrite E1, E2, E3. }
  constructor; try done.
  - intros p i Hi Ht. destruct (C1 p i Hi Ht) as (y & Hy & Hp). simpl. destruct (decide (i_data i = j)) as [<-|].
    + exists dev'. rewrite zget_zset_eq by by apply (zget_Some_range _ _ _ Hy). split; [done|congruence].
    + exists y. by rewrite zget_zset_ne.
  - intros k x Hk Hn. destruct (Hx k x Hk) as (y & Hy & Ep & _). rewrite Ep. apply C2; [done|congruence].
  - intros k x Hk Ho. destruct (Hx k x Hk) as (y & Hy & Ep & Hon). unfold may_run. rewrite Ep. by apply (C6 k y Hy), Hon.
Qed.

Lemma hinv_claim m d j dev inst u :
  hinv m d -> zget (d_pci d) j = Some dev -> pd_inst dev = NULL -> m !! inst = None -> inst <> NULL ->
  ~ dma_on (d_bus d) dev ->
  hinv (<[inst := KInst u KOBJ_PCI j 0 0 false]> m) (set_pci d (zset (d_pci d) j (set_claim dev inst))).
Proof.
  intros [I1 I2 I3 I4 I5] Hd Hf Hm Hn Hoff. pose proof I2 as [C0 C1 C2 C3 C4 C5 C6].
  constructor; [done| |apply (found_zset _ _ dev); try done; exact (fo_bars _ I3 _ _ Hd)|done|done].
  assert (Hk : forall q i', m !! q = Some i' -> <[inst := KInst u KOBJ_PCI j 0 0 false]> m !! q = Some i').
  { intros q i' Hq. rewrite lookup_insert_ne; [done|congruence]. }
  assert (Hx : forall k x, zget (zset (d_pci d) j (set_claim dev inst)) k = Some x -> (k = j /\ x = set_claim dev inst) \/ (k <> j /\ zget (d_pci d) k = Some x)).
  { intros k x. rewrite zget_zset. case_decide as Hkj; [intros [= <-]; left; split; [lia|done]|]. intros Hx. right. split; [|done].
    intros ->. apply Hkj. split; [done|]. by apply (zget_Some_range _ _ _ Hd). }
  constructor.
  - by rewrite lookup_insert_ne.
  - simpl. intros p i [[<- <-]|[_ Hi]]%lookup_insert_Some Ht; simpl.
    + eexists. rewrite zget_zset_eq by by apply (zget_Some_range _ _ _ Hd). done.
    + destruct (C1 p i Hi Ht) as (x & Hx' & Hp). exists x. rewrite zget_zset_ne; [done|]. intros E. rewrite E in Hd.
      assert (x = dev) as -> by congruence. rewrite Hf in Hp. subst. congruence.
  - intros k x Hkx Hnn. destruct (Hx k x Hkx) as [[-> ->]|[_ Hx']].
    + eexists. simpl. by rewrite lookup_insert_eq.
    + destruct (C2 k x Hx' Hnn) as (i & Hi & ?). exists i. split; [by apply Hk|done].
  - intros p i [[<- <-]|[_ Hi]]%lookup_insert_Some Ho; [done|]. by apply (C3 p).
  - intros t b Hb. destruct (C4 t b Hb) as (p & i & Hi & ?). exists p, i. split; [by apply Hk|done].
  - intros p1 i1 p2 i2 [[<- <-]|[_ ?]]%lookup_insert_Some [[<- <-]|[_ ?]]%lookup_insert_Some; simpl; intros Ho E1 E2; try done; [|by eapply C5].
    by rewrite E1 in Ho.
  - intros k x Hkx Ho. destruct (Hx k x Hkx) as [[-> ->]|[_ Hx']].
    + done.
    + destruct (C6 k x Hx' Ho) as [|(i & Hi & ?)]; [by left|]. right. exists i. split; [by apply Hk|done].
Qed.

(** The process has a handle on an instance of its own of the device that it asked for. *)
Definition claimed d d' (pid vendor device_id h : Z) : Prop :=
  exists j dev dev' inst, pci_find_device (d_pci d) 0 (u16 vendor) (u16 device_id) = Some j /\
    zget (d_pci d) j = Some dev /\ pd_inst dev = NULL /\
    zget (d_pci d') j = Some dev' /\ pd_inst dev' = inst /\ inst <> NULL /\ gives (d_world d') pid h inst.

Lemma hinv_calm m d b : hinv m d -> calm (d_pci d) (d_bus d) b -> hinv m (set_bus d b).
Proof.
  intros Hd Hc. apply hinv_bus; [done|]. intros j dev Hdev Ho. apply (cl_dma _ _ (hi_claims _ _ Hd) j dev Hdev). by apply (Hc j).
Qed.

Lemma calm_zset ds j dev dev' b b' :
  zget ds j = Some dev -> pd_bus dev' = pd_bus dev -> pd_slot dev' = pd_slot dev -> pd_func dev' = pd_func dev ->
  calm ds b b' -> calm (zset ds j dev') b b'.
Proof.
  intros Hd E1 E2 E3 Hc k x. rewrite zget_zset. case_decide as Hk; [|apply Hc]. intros [= <-].
  specialize (Hc j dev Hd). unfold dma_on, dev_read in *. by rewrite E1, E2, E3.
Qed.

Lemma pci_connect_spec d pid vendor device_id :
  dinv d -> has_proc d pid ->
  exists h d', pci_connect d pid vendor device_id = Some (h, d') /\ dinv d' /\
    (h = -1 \/ 0 <= h /\ claimed d d' pid vendor device_id h).
Proof.
  intros Hd Hp. pose proof Hd as [I1 I2 I3 I4 I5]. unfold pci_connect.
  destruct (pci_find_device _ _ _ _) as [j|] eqn:Ef; [|by exists (-1), d; auto].
  destruct (find_range _ _ _ _ _ Ef) as [dev Hdev]. rewrite Z.sub_0_r in Hdev. rewrite Hdev, bind_Some_l.
  destruct (Z.eqb_spec (pd_inst dev) NULL) as [Hfree|]; cbn [negb]; [|by exists (-1), d; auto].
  destruct (probe_bar (d_bus d) dev) as [[[bar size] cmd] b] eqn:Epr.
  destruct (probe_calm _ _ _ _ _ _ _ _ I3 Hdev Epr) as (-> & Hcalm).
  set (dev1 := set_bars dev _). set (d1 := set_pci d _).
  assert (H1 : hinv (w_insts (d_world d)) d1) by by apply hinv_dev with dev.
  assert (Hc1 : forall v, (Z.testbit v 2 = true -> dma_on (d_bus d) dev) -> calm (d_pci d1) (d_bus d1) (dev_write b dev1 4 v)).
  { intros v Hv. apply (calm_zset (d_pci d) j dev); try done. by apply Hcalm. }
  change (dev_write b dev1) with (dev_write b dev).
  assert (Hr : hinv (w_insts (d_world d)) (set_bus d1 (dev_write b dev 4 (dev_read (d_bus d) dev 4)))) by by (apply hinv_calm; [done|by apply Hc1]).
  zcase; [eexists (-1), _; split; [done|]; split; [exact Hr|by left]|].
  change (d_world d1) with (d_world d). destruct (create_kobj_inst (d_world d) KOBJ_PCI j) as [inst w3] eqn:Ec.
  destruct (new_object _ (d_world d) KOBJ_PCI j pid inst w3 I1 Hp Ec) as [[-> ->]|(Hn & Hfr & Elog & _ & [u Hu] & Hback & h & w4 & Ea & Hcase)].
  { simpl. eexists (-1), _. split; [done|]. split; [|by left]. by apply (hinv_world (w_insts (d_world d))). }
  zcase; [done|]. rewrite Ea, bind_Some_l. destruct Hcase as [[-> ->]|(Hh & Hw4 & Hch & Hg)].
  - simpl. rewrite Hu, lookup_insert_eq. simpl. unfold with_hooks, no_result.
    erewrite (free_kobj_inst_eq _ inst (KInst u KOBJ_PCI j 0 0 true)); [|simpl; apply lookup_insert_eq].
    rewrite !bind_Some_l. change (w_log (with_insts _ _)) with [EFree inst KOBJ_PCI j]. cbn [run_hooks run_hook].
    destruct (Hback [EFree inst KOBJ_PCI j]) as [Hw4 Hin4].
    assert (Hrange : 0 <= j < zlen (d_pci d)) by by apply (zget_Some_range _ _ _ Hdev).
    unfold pci_free_inst. change (d_pci (set_world ?x ?y)) with (zset (d_pci d) j dev1).
    rewrite zget_zset_eq, !bind_Some_l by done. eexists (-1), _. split; [reflexivity|]. split; [|by left].
    replace (set_claim dev1 NULL) with dev1 by (unfold set_claim, dev1, set_bars; simpl; by rewrite <-Hfree).
    rewrite (zset_id (zset (d_pci d) j dev1) j dev1) by by apply zget_zset_eq.
    unfold dinv. match goal with |- hinv ?m ?d' => replace m with (w_insts (d_world d)); [|rewrite <-Hin4; simpl; by rewrite delete_insert_eq] end.
    apply (hinv_world (w_insts (d_world d)) _ (with_insts (kfree (with_log w3 [EFree inst KOBJ_PCI j]) inst SIZEOF_INST) (delete inst (w_insts w3)))) in Hr; [|exact Hw4].
    replace (delete inst (w_insts (with_log (set_inst w3 inst (KInst u KOBJ_PCI j 0 0 true)) []))) with (delete inst (w_insts w3))
      by (simpl; by rewrite delete_insert_eq).
    destruct Hr. by constructor.
  - zcase; [lia|]. eexists h, _. split; [reflexivity|].
    assert (Hdev1 : zget (d_pci d1) j = Some dev1) by (apply zget_zset_eq; by apply (zget_Some_range _ _ _ Hdev)).
    set (cmd := Z.land (Z.lor _ _) _). assert (Hcmd : Z.testbit cmd 2 = false).
    { unfold cmd. rewrite Z.land_spec. apply andb_false_r. }
    assert (Hr' : hinv (w_insts (d_world d)) (set_bus d1 (dev_write b dev 4 cmd))).
    { apply hinv_calm; [done|]. apply Hc1. congruence. }
    pose proof (hinv_claim _ _ j dev1 inst u Hr' Hdev1 Hfree Hfr Hn (quiet_write _ b j dev1 cmd (hi_found _ _ H1) Hdev1 Hcmd)) as H2.
    rewrite <-Hu in H2.
    assert (H3 : hinv (w_insts w3) (set_world (set_bus (set_pci d1 (zset (d_pci d1) j (set_claim dev1 inst))) (dev_write b dev 4 cmd)) w4)).
    { apply hinv_world; [exact H2|done]. }
    destruct (run_changes _ _ _ _ Hch H3) as (d' & [= <-] & Hd' & _). split; [exact Hd'|]. right. split; [done|].
    exists j, dev, (set_claim dev1 inst), inst. split_and!; try done. simpl. apply zget_zset_eq. by apply (zget_Some_range _ _ _ Hdev1).
Qed.

(** ** Handles that are looked up *)

Lemma dinv_store d : dinv d -> @store_inv H (reserve (owned d)) (d_world d) /\ @procs_inv H (d_world d).
Proof. intros Hd. split; apply (hi_world _ _ Hd). Qed.

Lemma handle_ref_ok d pid h :
  dinv d -> has_proc d pid ->
  exists r, handle_ref d pid h = Some r /\
    (r = NULL \/ r <> NULL /\ exists k i, w_refs (d_world d) !! r = Some k /\ w_insts (d_world d) !! r_inst k = Some i /\ ref_inst d r = Some (k, i)).
Proof.
  intros Hd [p Hp]. destruct (dinv_store d Hd) as [Hs Hpr]. unfold handle_ref. rewrite Hp. simpl.
  destruct (@process_get_kobj_spec H (reserve (owned d)) (d_world d) pid p h Hs Hpr Hp) as (r & E & Hyes & _).
  exists r. split; [exact E|]. destruct (decide (r = NULL)) as [|Hn]; [by left|right]. split; [done|].
  destruct (Hyes Hn) as (_ & _ & _ & k & Hk & _). destruct (si_ref _ Hs r k Hk) as [i Hi].
  exists k, i. unfold ref_inst. by rewrite Hk, bind_Some_l, Hi.
Qed.

Lemma control_ok d pid h op arg :
  dinv d -> has_proc d pid -> exists b d', api_control_handle d pid h op arg = Some (b, d') /\ dinv d'.
Proof.
  intros Hd Hp. unfold api_control_handle. destruct (handle_ref_ok d pid h Hd Hp) as (r & -> & Hc). rewrite bind_Some_l.
  destruct Hc as [->|(Hn & k & i & Hk & Hi & Er)]; [by exists false, d|]. zcase; [done|]. rewrite Er, bind_Some_l.
  destruct (_ =? 0); [by exists false, d|]. unfold control_func.
  destruct (i_type i) eqn:Ht; try (by exists false, d). unfold pci_control.
  destruct (cl_pci _ _ (hi_claims _ _ Hd) (r_inst k) i Hi Ht) as (dev & Hdev & Hpi). rewrite Hdev, bind_Some_l.
  destruct (negb _); [by exists false, d|]. destruct (i_stopped i) eqn:Hst; [by exists false, d|].
  eexists true, _. split; [reflexivity|]. apply hinv_bus; [exact Hd|]. intros j dev' Hd' Ho.
  destruct (dma_write (d_pci d) (d_bus d) (i_data i) dev 4 _ j dev' (hi_found _ _ Hd) Hdev Hd' (or_introl eq_refl) Ho) as [(-> & _)|[_ Ho']].
  - assert (dev' = dev) as -> by congruence. right. exists i. by rewrite Hpi.
  - by apply (cl_dma _ _ (hi_claims _ _ Hd) j).
Qed.

(** A mapping of more than the address space for regions is refused. *)
Lemma map_large l w pid p r k (m : kobj_mapping) :
  @world_inv H (reserve l) w -> w_procs w !! pid = Some p -> w_refs w !! r = Some k ->
  m_paddr m mod 4096 = 0 -> VM_END - VM_START < m_size m <= 2 ^ 31 ->
  process_map_kobj w pid r (Some m) = Some (0, w).
Proof.
  intros Hw Hp Hk Hm Hsz. destruct (si_ref _ (wi_store _ Hw) r k Hk) as [i Hi]. unfold process_map_kobj.
  rewrite Hk, bind_Some_l, Hi, bind_Some_l. destruct (negb _); [done|]. rewrite Hm, Z.add_0_r. unfold VM_END, VM_START in Hsz.
  rewrite u32_id by lia. set (sz := page_align_up (m_size m)).
  assert (Hs : VM_END - VM_START < sz <= 2 ^ 31 + 4096 /\ sz mod 4096 = 0).
  { unfold sz, VM_END, VM_START. rewrite page_align_up_spec by lia. Z.div_mod_to_equations. lia. }
  assert (E : page_align_up sz = sz).
  { unfold VM_END, VM_START in Hs. rewrite page_align_up_spec by lia. Z.div_mod_to_equations. lia. }
  unfold process_alloc_vm. rewrite E, Hp. zcase; [unfold VM_END, VM_START in Hs; lia|]. rewrite bind_Some_l.
  pose proof (pi_vm _ (wi_procs _ Hw) pid p Hp) as Hvm.
  destruct (vm_gap_spec w sz VM_START (p_regions p) 0 Hvm) as (v & n & Eg & _ & Hv & _); [done|unfold VM_END, VM_START in *; lia|].
  rewrite Eg, bind_Some_l. assert (Hend : (u32 (v + sz) <? VM_START) || (VM_END <? u32 (v + sz)) = true).
  { unfold VM_END, VM_START, u32 in *. clear -Hs Hv. clearbody sz. change (2 ^ 32) with 4294967296. change (2 ^ 31) with 2147483648 in Hs.
    apply orb_true_iff. rewrite !Z.ltb_lt. Z.div_mod_to_equations. lia. }
  rewrite Hend. done.
Qed.

(** The memory of a claimed device is below the last pages of the address space. *)
Definition bars_fit d : Prop :=
  forall j dev (mp : kobj_mapping), zget (d_pci d) j = Some dev -> pci_map d j 1 = Some (Some mp) -> mapping_ok mp.

(** What [map_func] gives can be mapped, or is too large. *)
Lemma map_func_ok d p i index :
  dinv d -> bars_fit d -> w_insts (d_world d) !! p = Some i ->
  exists o, map_func d i index = Some o /\
    match o with
    | Some mp => mapping_ok mp \/ (m_paddr mp mod 4096 = 0 /\ VM_END - VM_START < m_size mp <= 2 ^ 31)
    | None => True
    end.
Proof.
  intros [I1 I2 I3 I4 I5] Hb Hi.
  assert (Hblk : forall t size paddr, owned_blocks d t !! i_data i = Some (size, paddr) ->
    mapping_ok (KMapping paddr size false) \/ (paddr mod 4096 = 0 /\ VM_END - VM_START < size <= 2 ^ 31)).
  { intros t size paddr E. destruct (I5 _ _ _ _ E) as (Hs & Ha & _ & Hpos & Hend). unfold pages in Hend.
    destruct (decide (size <= VM_END - VM_START)); [left|right; split; [done|lia]].
    unfold mapping_ok, map_offset. simpl. rewrite Ha. unfold VM_END, VM_START in *. Z.div_mod_to_equations. lia. }
  assert (Ho : owns (i_type i) = true -> exists size paddr, owned_blocks d (i_type i) !! i_data i = Some (size, paddr)).
  { intros Ho. destruct (cl_owns _ _ I2 p i Hi Ho) as [[size paddr] ?]. eauto. }
  unfold map_func. destruct (i_type i) eqn:Ht.
  - destruct (Ho eq_refl) as (size & paddr & E). unfold dma_map. simpl in E. destruct (negb _); [by exists None|].
    rewrite E, bind_Some_l. eexists. split; [reflexivity|]. by apply (Hblk KOBJ_DMA).
  - destruct (cl_pci _ _ I2 p i Hi Ht) as (dev & Hdev & _). destruct (Z.eqb_spec index 1) as [->|Hne].
    + unfold pci_map. simpl. rewrite Hdev. simpl.
      destruct (zget_is_Some (pd_bars dev) 1) as [[bar size] Eb]; [rewrite (fo_bars _ I3 _ _ Hdev); lia|]. rewrite Eb. simpl.
      eexists. split; [reflexivity|]. left. apply (Hb (i_data i) dev); [done|]. unfold pci_map. simpl. by rewrite Hdev, bind_Some_l, Eb.
    + unfold pci_map. destruct (Z.eqb_spec index 1); [done|]. by exists None.
  - destruct (Ho eq_refl) as (size & paddr & E). unfold shared_map. simpl in E. destruct (negb _); [by exists None|].
    rewrite E, bind_Some_l. eexists. split; [reflexivity|]. by apply (Hblk KOBJ_SHARED).
  - by exists None.
Qed.

Lemma map_size_frame l : @map_size H (reserve l) = @map_size H A.
Proof. reflexivity. Qed.

Lemma map_kobj_frame l w pid r o : @process_map_kobj H (reserve l) w pid r o = process_map_kobj w pid r o.
Proof. unfold process_map_kobj, process_unmap_vm. by rewrite map_size_frame. Qed.

Lemma map_ok d pid h index :
  dinv d -> has_proc d pid -> bars_fit d -> exists a d', api_map d pid h index = Some (a, d') /\ dinv d'.
Proof.
  intros Hd Hp Hb. unfold api_map. destruct (handle_ref_ok d pid h Hd Hp) as (r & -> & Hc). rewrite bind_Some_l.
  destruct Hc as [->|(Hn & k & i & Hk & Hi & Er)]; [by exists 0, d|]. zcase; [done|]. rewrite Er, bind_Some_l.
  destruct (map_func_ok d _ i index Hd Hb Hi) as (m & -> & Hm). rewrite bind_Some_l. destruct Hp as [p Hp].
  destruct (with_hooks_ok (fun w => process_map_kobj w pid r m) d Hd) as (a & w' & d' & _ & E & Hd' & _); [|eauto].
  set (w := with_log (d_world d) []). pose proof (dinv_world d [] Hd) as Hw. fold w in Hw.
  assert (Hor : (exists mp, m = Some mp /\ process_map_kobj w pid r m = Some (0, w)) \/ match m with Some mp => mapping_ok mp | None => True end).
  { destruct m as [mp|]; [|by right]. destruct Hm as [Hm|[Ha Hs]]; [by right|left]. exists mp. split; [done|]. by eapply (map_large _ w pid p r k). }
  destruct Hor as [(mp & _ & E)|Hok]; [by exists 0, w|].
  destruct (@process_map_kobj_spec H (reserve (owned d)) w pid p r k m Hw Hp Hk Hok) as (a & w' & E & Hw' & _).
  rewrite map_kobj_frame in E. exists a, w'. split; [done|]. split; [done|]. by eapply process_map_kobj_evolve.
Qed.

Lemma open_ok d pid file : dinv d -> has_proc d pid -> exists h d', open_file d pid file = Some (h, d') /\ dinv d'.
Proof.
  intros Hd [p Hp]. destruct (with_hooks_ok (fun w => fs_file_handle w pid file) d Hd) as (h & w' & d' & _ & E & Hd' & _); [|eauto].
  set (w := with_log (d_world d) []). pose proof (dinv_world d [] Hd) as Hw. fold w in Hw.
  destruct (@fs_file_handle_spec H (reserve (owned d)) w pid p file Hw Hp) as (h & w' & E & Hw' & _).
  change (fs_file_handle w pid file = Some (h, w')) in E. exists h, w'. split; [done|]. split; [done|]. revert E. unfold fs_file_handle.
  destruct (create_kobj_inst w KOBJ_FILE file) as [inst w1] eqn:Ec.
  destruct (new_object _ w KOBJ_FILE file pid inst w1 Hw) as [[-> ->]|(Hn & Hfr & Elog & _ & [u Hu] & _)]; [by eexists|done| |].
  - intros [= <- <-]. exists [EFree NULL KOBJ_FILE file]. split; [done|]. apply changes_one, ch_close.
  - zcase; [done|]. intros E. assert (He : evolve w w1).
    { exists []. rewrite app_nil_r. split; [done|]. rewrite Hu. by apply changes_one, ch_file. }
    binds E; call process_acquire_kobj_evolve; call free_kobj_inst_evolve; evolves.
Qed.

(** ** Enumeration *)

Definition rank (dev : pci_device) : Z := pd_bus dev * 256 + pd_slot dev * 8 + pd_func dev.

(** Devices found so far, in the order of the bus. *)
Record scanned ds (r : Z) : Prop := {
  sc_dev j dev : zget ds j = Some dev -> on_bus dev /\ rank dev < r /\ pd_inst dev = NULL /\ zlen (pd_bars dev) = 6;
  sc_apart j1 dev1 j2 dev2 : zget ds j1 = Some dev1 -> zget ds j2 = Some dev2 -> rank dev1 = rank dev2 -> j1 = j2;
  sc_len : zlen ds <= PCI_MAX_DEVICES }.

Lemma scanned_le ds r r' : scanned ds r -> r <= r' -> scanned ds r'.
Proof. intros [Hd Ha Hl] Hr. constructor; [|done..]. intros j dev Hj. destruct (Hd j dev Hj) as (? & ? & ? & ?). split_and!; try done. lia. Qed.

Lemma scanned_snoc ds r dev :
  scanned ds r -> zlen ds <> PCI_MAX_DEVICES -> on_bus dev -> pd_inst dev = NULL -> zlen (pd_bars dev) = 6 -> r <= rank dev ->
  scanned (ds ++ [dev]) (rank dev + 1).
Proof.
  intros [Hd Ha Hl] Hn Hb Hi Hz Hr.
  assert (Hx : forall j x, zget (ds ++ [dev]) j = Some x -> zget ds j = Some x \/ (j = zlen ds /\ x = dev)).
  { intros j x Hj. pose proof (zget_Some_range _ _ _ Hj) as Hj'. rewrite zlen_app, zlen_cons, zlen_nil in Hj'.
    unfold zget in *. destruct (0 <=? j) eqn:Ej; [|done]. destruct (decide (j < zlen ds)).
    - left. rewrite lookup_app_l in Hj; [done|]. unfold zlen in *. lia.
    - right. assert (j = zlen ds) as -> by lia. rewrite lookup_app_r in Hj by (unfold zlen; lia).
      unfold zlen in Hj. rewrite Nat2Z.id, Nat.sub_diag in Hj. by injection Hj as <-. }
  constructor.
  - intros j x Hj. destruct (Hx j x Hj) as [Hj'|[-> ->]]; [|split_and!; try done; lia].
    destruct (Hd j x Hj') as (? & ? & ? & ?). split_and!; try done. lia.
  - intros j1 x1 j2 x2 H1 H2 E. destruct (Hx _ _ H1) as [K1|[-> ->]], (Hx _ _ H2) as [K2|[-> ->]]; [by eapply Ha| | |done].
    + destruct (Hd _ _ K1) as (_ & ? & _). lia.
    + destruct (Hd _ _ K2) as (_ & ? & _). lia.
  - rewrite zlen_app, zlen_cons, zlen_nil. lia.
Qed.

Lemma scan_funcs_ok n (b : B) bus slot func ds ds' full :
  0 <= bus < 256 -> 0 <= slot < 32 -> 0 <= func -> func + Z.of_nat n <= 8 ->
  scan_funcs n b bus slot func ds = (ds', full) -> scanned ds (bus * 256 + slot * 8 + func) ->
  scanned ds' (bus * 256 + slot * 8 + 8).
Proof.
  intros Hb Hs. revert func ds. induction n as [|n IH]; intros func ds Hf Hn; cbn [scan_funcs].
  { intros [= <- _] Hd. eapply scanned_le; [done|lia]. }
  cbv zeta. zcase; [intros [= <- _] Hd; eapply scanned_le; [done|lia]|].
  zcase; [intros [= <- _] Hd; eapply scanned_le; [done|lia]|].
  intros E Hd. set (dev := PciDevice bus slot func _ _ _ _) in E.
  assert (Hd' : scanned (ds ++ [dev]) (rank dev + 1)) by (apply (scanned_snoc ds _ dev Hd); try done; unfold on_bus; simpl; lia).
  destruct (_ && _).
  - injection E as <- _. eapply scanned_le; [done|]. unfold rank. simpl. lia.
  - apply (IH (func + 1) _ ltac:(lia) ltac:(lia) E). eapply scanned_le; [done|]. unfold rank. simpl. lia.
Qed.

Lemma scan_slots_ok n (b : B) bus slot ds ds' full :
  0 <= bus < 256 -> 0 <= slot -> slot + Z.of_nat n <= 32 ->
  scan_slots n b bus slot ds = (ds', full) -> scanned ds (bus * 256 + slot * 8) -> scanned ds' (bus * 256 + 256).
Proof.
  intros Hb. revert slot ds. induction n as [|n IH]; intros slot ds Hs Hn; cbn [scan_slots].
  { intros [= <- _] Hd. eapply scanned_le; [done|lia]. }
  destruct (scan_funcs _ b bus slot 0 ds) as [ds1 f1] eqn:E1. intros E Hd.
  assert (Hd1 : scanned ds1 (bus * 256 + slot * 8 + 8)).
  { eapply (scan_funcs_ok (Z.to_nat PCI_FUNC_COUNT)); [done| | | |exact E1|eapply scanned_le; [done|lia]]; try lia. done. }
  destruct f1; [injection E as <- _; eapply scanned_le; [done|lia]|].
  apply (IH (slot + 1) ds1 ltac:(lia) ltac:(lia) E). eapply scanned_le; [done|lia].
Qed.

Lemma scan_buses_ok n (b : B) bus ds :
  0 <= bus -> bus + Z.of_nat n <= 256 -> scanned ds (bus * 256) -> scanned (scan_buses n b bus ds) 65536.
Proof.
  revert bus ds. induction n as [|n IH]; intros bus ds Hb Hn Hd; cbn [scan_buses]; [eapply scanned_le; [done|lia]|].
  destruct (scan_slots _ b bus 0 ds) as [ds1 full] eqn:E.
  assert (Hd1 : scanned ds1 (bus * 256 + 256)).
  { eapply (scan_slots_ok (Z.to_nat PCI_SLOT_COUNT)); [| | |exact E|eapply scanned_le; [done|lia]]; try lia. done. }
  destruct full; [eapply scanned_le; [done|lia]|]. apply IH; [lia|lia|]. eapply scanned_le; [done|lia].
Qed.

Lemma pci_check_devices_ok (b : B) : scanned (pci_check_devices b) 65536.
Proof.
  assert (Hnil : forall j dev, zget ([] : list pci_device) j <> Some dev).
  { intros j dev Hj. apply zget_Some_range in Hj. rewrite zlen_nil in Hj. lia. }
  apply scan_buses_ok; [lia|done|]. constructor; [intros j dev Hj|intros j1 dev1 j2 dev2 Hj|by rewrite zlen_nil]; by apply Hnil in Hj.
Qed.

Lemma scanned_found ds r : scanned ds r -> found ds.
Proof.
  intros [Hd Ha Hl]. constructor.
  - intros j dev Hj. apply (Hd j dev Hj).
  - intros j dev Hj. apply (Hd j dev Hj).
  - intros j1 dev1 j2 dev2 H1 H2 E. eapply Ha; [done..|].
    destruct (reg_addr_inj dev1 dev2 4 4) as (? & ? & ? & _); [by eapply Hd..|by left|by left|done|]. unfold rank. congruence.
Qed.

(** ** Devices that run *)

Lemma claim_running m d j dev :
  claims m d -> zget (d_pci d) j = Some dev -> dma_on (d_bus d) dev ->
  pd_inst dev = NULL /\ live j \/
  exists i, m !! pd_inst dev = Some i /\ i_type i = KOBJ_PCI /\ i_data i = j /\ i_stopped i = false.
Proof.
  intros C Hd Ho. destruct (cl_dma _ _ C j dev Hd Ho) as [|(i & Hi & Hst)]; [by left|right].
  destruct (cl_dev _ _ C j dev Hd) as (i' & Hi' & ? & ?); [intros E; rewrite E, (cl_null _ _ C) in Hi; done|].
  assert (i' = i) as -> by congruence. by exists i.
Qed.

(** An instance that has not been stopped has a handle. *)
Lemma running_handle l w p i :
  @world_inv H (reserve l) w -> w_insts w !! p = Some i -> has_stop (kobjs (i_type i)) = true -> i_stopped i = false ->
  exists r k, w_refs w !! r = Some k /\ r_inst k = p.
Proof.
  intros Hw Hi Hs Hst. destruct (wi_live _ Hw p i Hi) as [_ Hz]. destruct (si_count _ (wi_store _ Hw) p i Hi) as [Hc _].
  unfold count_by in Hc. set (f := filter _ _) in Hc. destruct (decide (f = ∅)) as [E|Hne].
  - rewrite E, map_size_empty in Hc. rewrite (Hz Hc Hs) in Hst. done.
  - apply map_choose in Hne as (r & k & Hk). apply map_lookup_filter_Some in Hk as [? ?]. by exists r, k.
Qed.

(** ** Histories *)

Definition device_boot w (b : B) : dstate H B := DState w b (pci_check_devices b) ∅ ∅ (fun _ => 0) [].

Inductive dstep d : dstate H B -> Prop :=
| DShared pid ebx h d' : has_proc d pid -> api_shared_create d pid ebx = Some (h, d') -> dstep d d'
| DDma pid privileged ebx h pa d' :
    has_proc d pid -> s32 ebx < 2 ^ 31 - 4096 -> api_dma d pid privileged ebx = Some (h, pa, d') -> dstep d d'
| DConnect pid privileged vendor device h d' :
    has_proc d pid -> api_pci_connect d pid privileged vendor device = Some (h, d') -> dstep d d'
| DControl pid h op arg b d' : has_proc d pid -> api_control_handle d pid h op arg = Some (b, d') -> dstep d d'
| DMap pid h index a d' : has_proc d pid -> bars_fit d -> api_map d pid h index = Some (a, d') -> dstep d d'
| DUnmap pid addr b d' : has_proc d pid -> is_u32 addr -> api_unmap d pid addr = Some (b, d') -> dstep d d'
| DClose pid h b d' : has_proc d pid -> api_close_handle d pid h = Some (b, d') -> dstep d d'
| DOpen pid file h d' : has_proc d pid -> open_file d pid file = Some (h, d') -> dstep d d'
| DCopy send receive h h' d' :
    has_proc d send -> has_proc d receive -> copy_handle d send receive h = Some (h', d') -> dstep d d'
| DRelease pid u d' : has_proc d pid -> release_handles d pid = Some (u, d') -> dstep d d'
| DFreeVm pid u d' : has_proc d pid -> free_regions d pid = Some (u, d') -> dstep d d'.

Lemma dma_ok d pid privileged ebx :
  dinv d -> has_proc d pid -> s32 ebx < 2 ^ 31 - 4096 -> exists h pa d', api_dma d pid privileged ebx = Some (h, pa, d') /\ dinv d'.
Proof.
  intros Hd Hp Hs. unfold api_dma. zcase; [by exists (-1), 0, d|]. destruct (negb privileged); [by exists (-1), 0, d|].
  destruct (dma_create_spec d (s32 ebx) pid Hd Hp Hs) as (h & pa & d' & -> & Hd' & _). rewrite bind_Some_l.
  destruct (h <? 0); by eexists _, _, d'.
Qed.

Lemma dstep_inv d d' : dinv d -> dstep d d' -> dinv d'.
Proof.
  intros Hd [pid ebx h x Hp E|pid pr ebx h pa x Hp Hs E|pid pr v dv h x Hp E|pid h op arg b x Hp E|pid h ix a x Hp Hb E|pid ad b x Hp Ha E
    |pid h b x Hp E|pid f h x Hp E|sd rc h h' x Hp Hq E|pid u x Hp E|pid u x Hp E].
  - unfold api_shared_create in E. destruct (_ <? 0); [by injection E as _ <-|].
    destruct (shared_create_spec d pid ebx Hd Hp) as (? & ? & E' & ? & _). congruence.
  - destruct (dma_ok d pid pr ebx Hd Hp Hs) as (? & ? & ? & E' & ?). congruence.
  - unfold api_pci_connect in E. destruct (negb pr); [by injection E as _ <-|].
    destruct (pci_connect_spec d pid v dv Hd Hp) as (? & ? & E' & ? & _). congruence.
  - destruct (control_ok d pid h op arg Hd Hp) as (? & ? & E' & ?). congruence.
  - destruct (map_ok d pid h ix Hd Hp Hb) as (? & ? & E' & ?). congruence.
  - destruct (unmap_ok d pid ad Hd Hp Ha) as (? & ? & E' & ?). congruence.
  - destruct (close_ok d pid h Hd Hp) as (? & ? & E' & ?). congruence.
  - destruct (open_ok d pid f Hd Hp) as (? & ? & E' & ?). congruence.
  - destruct (copy_ok d sd rc h Hd Hp Hq) as (? & ? & E' & ?). congruence.
  - destruct (release_ok d pid Hd Hp) as (? & ? & E' & ?). congruence.
  - destruct (free_regions_ok d pid Hd Hp) as (? & ? & E' & ?). congruence.
Qed.

(** No object exists. *)
Definition booted w : Prop :=
  world_inv w /\ w_insts w = ∅.

Lemma boot_dinv w b :
  booted w -> (forall j dev, zget (pci_check_devices b) j = Some dev -> dma_on b dev -> live j) -> dinv (device_boot w b).
Proof.
  intros (Hw & Hi) Hq. pose proof (pci_check_devices_ok b) as Hsc. unfold dinv. simpl. rewrite Hi.
  assert (Hb : forall t, owned_blocks (device_boot w b) t = ∅) by (by intros []).
  constructor; [by apply world_nil| |by eapply scanned_found|apply NoDup_nil_2|].
  - constructor; try (intros p i Hp; by rewrite lookup_empty in Hp).
    + apply lookup_empty.
    + intros j dev Hj Hn. by destruct (sc_dev _ _ Hsc j dev Hj) as (_ & _ & ? & _).
    + intros t a. rewrite Hb, lookup_empty. by intros [].
    + intros p1 i1 p2 i2 H1. by rewrite lookup_empty in H1.
    + intros j dev Hj Ho. left. split; [|by eapply Hq]. by destruct (sc_dev _ _ Hsc j dev Hj) as (_ & _ & ? & _).
  - intros t a sz pa. by rewrite Hb, lookup_empty.
Qed.

Lemma reach_dinv w b d :
  booted w -> (forall j dev, zget (pci_check_devices b) j = Some dev -> dma_on b dev -> live j) ->
  reach dstep (device_boot w b) d -> dinv d.
Proof. intros Hb Hl. eapply reach_invariant; [by apply boot_dinv|apply dstep_inv]. Qed.
End owners.

(** ** Theorems *)

Section device_theorems.
Context {H : Type} {A : Allocator H} {B : Type} {PB : PciBus B}.

(** Device [j] could write to memory before the kernel ran. *)
Definition on_at_boot (b : B) (j : Z) : Prop :=
  exists dev, zget (pci_check_devices b) j = Some dev /\ dma_on b dev.

(** C8: in every history of the calls, whatever the firmware left on, a device may write to
    memory (the bus master bit of its command register is set) only in two cases: a process
    has a handle on the instance that has claimed it, so that no transfer outlives the
    handle, or the bit was set before the kernel ran and no instance claims the device. A
    device whose bit was clear then can never write without a handle. And a device is never
    claimed by two instances. *)
Theorem dma_needs_handle (w : world H) (b : B) (d : dstate H B) :
  booted w -> reach dstep (device_boot w b) d ->
  (forall j dev, zget (d_pci d) j = Some dev -> dma_on (d_bus d) dev ->
     (pd_inst dev = NULL /\ on_at_boot b j) \/
     exists pid p slot r k i, w_procs (d_world d) !! pid = Some p /\ zget (p_kobj p) slot = Some (Some r) /\
       w_refs (d_world d) !! r = Some k /\ r_inst k = pd_inst dev /\
       w_insts (d_world d) !! pd_inst dev = Some i /\ i_type i = KOBJ_PCI /\ i_data i = j) /\
  (forall p1 i1 p2 i2, w_insts (d_world d) !! p1 = Some i1 -> w_insts (d_world d) !! p2 = Some i2 ->
     i_type i1 = KOBJ_PCI -> i_type i2 = KOBJ_PCI -> i_data i1 = i_data i2 -> p1 = p2).
Proof.
  intros Hb Hr. assert (Hd : dinv (on_at_boot b) d) by (apply (reach_dinv _ w b); [done|by intros j dev; exists dev|done]).
  destruct Hd as [I1 I2 _ _ _]. split.
  - intros j dev Hd Ho. destruct (claim_running _ _ _ j dev I2 Hd Ho) as [|(i & Hi & Ht & Hda & Hst)]; [by left|right].
    destruct (running_handle _ _ _ _ I1 Hi) as (r & k & Hk & Hki); [by rewrite Ht|done|].
    destruct (pi_ref _ (wi_procs _ I1) r) as (pid & p & slot & ? & ?); [eauto|]. by exists pid, p, slot, r, k, i.
  - intros p1 i1 p2 i2 H1 H2 T1 T2 E. destruct (cl_pci _ _ _ I2 _ _ H1 T1) as (dev1 & D1 & <-), (cl_pci _ _ _ I2 _ _ H2 T2) as (dev2 & D2 & <-).
    rewrite E in D1. congruence.
Qed.

(** C18: in every history of the calls, the memory of a live object (the pages of a shared or
    transfer block, and of the structure that describes it) is allocated, shares no page with
    the memory of another object, with the kernel's own nodes or with a page table, and is
    there exactly as long as the one instance that owns it. *)
Theorem blocks_isolated (w : world H) (b : B) (d : dstate H B) :
  booted w -> reach dstep (device_boot w b) d ->
  NoDup (owned d) /\
  (forall q, q ∈ owned d -> al_used (heap_of (d_world d)) q /\
     (forall p, node (d_world d) p -> p / 4096 <> q) /\
     (forall p pg, ps_mem (w_pg (d_world d)) !! p = Some pg -> p / 4096 <> q)) /\
  (forall t a, is_Some (owned_blocks d t !! a) <->
     owns t = true /\ exists p i, w_insts (d_world d) !! p = Some i /\ i_type i = t /\ i_data i = a /\
       forall p' i', w_insts (d_world d) !! p' = Some i' -> i_type i' = t -> i_data i' = a -> p' = p).
Proof.
  intros Hb Hr. destruct (reach_dinv (fun _ => True) w b d Hb ltac:(done) Hr) as [I1 I2 _ I4 _]. split; [done|]. split.
  - intros q Hq. pose proof (mo_wf _ _ (si_mem _ (wi_store _ I1))) as Hwf. split; [by apply (pw_heap _ Hwf)|]. split.
    + intros p Hn <-. by destruct (mo_node _ _ (si_mem _ (wi_store _ I1)) p Hn) as ([_ ?] & _).
    + intros p pg Hp <-. by destruct (pw_used _ Hwf p pg Hp) as ([_ ?] & _).
  - intros t a. split.
    + intros Ha. assert (Ho : owns t = true) by (by destruct t; destruct Ha). split; [done|].
      destruct (cl_owner _ _ _ I2 t a Ha) as (p & i & Hi & <- & <-). exists p, i. split_and!; [done..|].
      intros p' i' Hi' Ht Hda. by apply (cl_inj _ _ _ I2 p' i' p i Hi' Hi); rewrite ?Ht.
    + intros (Ho & p & i & Hi & <- & <- & _). by apply (cl_owns _ _ _ I2 p i).
Qed.

(** C19: in every state that the calls lead to, [shared_create] returns: with a handle on a
    new shared object of the size asked for rounded up to pages, whose memory nobody had and
    reads as zero, or with -1 and everything given back, the memory of the failed attempt
    included. *)
Theorem shared_create_correct (w : world H) (b : B) (d : dstate H B) (pid size : Z) :
  booted w -> reach dstep (device_boot w b) d -> has_proc d pid ->
  exists h d', shared_create d pid size = Some (h, d') /\
    (h = -1 /\ unchanged d d' \/ 0 <= h /\ given d d' KOBJ_SHARED pid (page_align_up size) h).
Proof.
  intros Hb Hr Hp. destruct (shared_create_spec (fun _ => True) d pid size (reach_dinv (fun _ => True) w b d Hb ltac:(done) Hr) Hp) as (h & d' & ? & _ & ?). by exists h, d'.
Qed.

End device_theorems.

(** ** A bus with one network card *)

(** The registers of the card that can be written: the command and the base address, of
    which the low twelve bits are fixed. *)
Definition card_write (b : gmap Z Z) (a v : Z) : gmap Z Z :=
  match b !! a with
  | None => b
  | Some _ =>
      if a mod 256 =? 4 then <[a := Z.land v 7]> b
      else if a mod 256 =? 0x14 then <[a := Z.land v 0xFFFFF000]> b
      else b
  end.

Definition card_read (b : gmap Z Z) (a : Z) : Z := default (if a mod 256 =? 4 then 0 else 0xFFFFFFFF) (b !! a).

Lemma card_other b a v a' : a <> a' -> card_read (card_write b a v) a' = card_read b a'.
Proof.
  intros Hn. unfold card_read, card_write. destruct (b !! a); [|done]. destruct (a mod 256 =? 4); [by rewrite lookup_insert_ne|].
  destruct (a mod 256 =? 0x14); [by rewrite lookup_insert_ne|done].
Qed.

Lemma card_bits b a v i : a mod 256 = 4 -> 0 <= i < 16 -> Z.testbit (card_read (card_write b a v) a) i = true -> Z.testbit v i = true.
Proof.
  intros Ha Hi. unfold card_read, card_write. destruct (b !! a) eqn:E.
  - rewrite Ha. simpl. rewrite lookup_insert_eq. simpl. rewrite Z.land_spec. by intros [? _]%andb_true_iff.
  - rewrite E, Ha. simpl. by rewrite Z.bits_0.
Qed.

#[export] Instance card_bus : PciBus (gmap Z Z) := {|
  bus_read := card_read; bus_write := card_write; bus_other := card_other; bus_bits := card_bits |}.

(** An RTL8139 in slot 3, a device of one function. *)
Definition card : gmap Z Z :=
  list_to_map [(config_address 0 3 0 0, 0x813910EC); (config_address 0 3 0 4, 0); (config_address 0 3 0 0xC, 0);
    (config_address 0 3 0 0x14, 0xFEBF1000)].

Definition step_of {X} (o : option (X * dstate heap (gmap Z Z))) : dstate heap (gmap Z Z) :=
  default (device_boot kobj_boot card) (snd <$> o).

(** The process opens the card, lets it write to memory, and makes a shared block. *)
Definition dev_1 := step_of (api_pci_connect (device_boot kobj_boot card) 1 true 0x10EC 0x8139).
Definition dev_2 := step_of (api_control_handle dev_1 1 0x10000 PCI_CTRL_DMA 1).
Definition dev_3 := step_of (api_shared_create dev_2 1 5000).

Lemma card_booted : booted kobj_boot.
Proof. split; [apply kobj_boot_inv|done]. Qed.

Lemma step_eq {X} (o : option (X * dstate heap (gmap Z Z))) x : fst <$> o = Some x -> o = Some (x, step_of o).
Proof. destruct o as [[y d]|]; [|done]. by intros [= ->]. Qed.

Lemma dev_1_eq : api_pci_connect (device_boot kobj_boot card) 1 true 0x10EC 0x8139 = Some (0x10000, dev_1).
Proof. unfold dev_1. apply step_eq. vm_compute. reflexivity. Qed.

Lemma dev_2_eq : api_control_handle dev_1 1 0x10000 PCI_CTRL_DMA 1 = Some (true, dev_2).
Proof. unfold dev_2. apply step_eq. vm_compute. reflexivity. Qed.

Lemma dev_3_eq : api_shared_create dev_2 1 5000 = Some (0x20001, dev_3).
Proof. unfold dev_3. apply step_eq. vm_compute. reflexivity. Qed.

Lemma dev_procs : has_proc (device_boot kobj_boot card) 1 /\ has_proc dev_1 1 /\ has_proc dev_2 1 /\ has_proc dev_3 1.
Proof.
  assert (Hx : forall d : dstate heap (gmap Z Z), (if w_procs (d_world d) !! 1 is Some _ then true else false) = true -> has_proc d 1).
  { intros d. unfold has_proc. destruct (_ !! _); [eauto|done]. }
  split; [|split; [|split]]; apply Hx; vm_compute; reflexivity.
Qed.

Lemma dev_3_reach : reach dstep (device_boot kobj_boot card) dev_3.
Proof.
  destruct dev_procs as (H0 & H1 & H2 & _).
  eapply reach_step; [eapply reach_step; [eapply reach_step; [constructor|]|]|].
  - eapply DConnect; [exact H0|exact dev_1_eq].
  - eapply DControl; [exact H1|exact dev_2_eq].
  - eapply DShared; [exact H2|exact dev_3_eq].
Qed.

Definition card_dev : option pci_device := zget (d_pci dev_3) 0.

Lemma card_on :
  match card_dev with Some dev => Z.testbit (dev_read (d_bus dev_3) dev 4) 2 && negb (pd_inst dev =? NULL) | None => false end = true.
Proof. vm_compute. reflexivity. Qed.

Lemma dma_needs_handle_witness :
  exists dev, card_dev = Some dev /\ dma_on (d_bus dev_3) dev /\
    exists pid p slot r, w_procs (d_world dev_3) !! pid = Some p /\ zget (p_kobj p) slot = Some (Some r).
Proof.
  pose proof card_on as Hon. destruct card_dev as [dev|] eqn:E; [|discriminate Hon]. exists dev. split; [reflexivity|].
  apply andb_true_iff in Hon as [Hon Hn]. apply negb_true_iff, Z.eqb_neq in Hn. split; [exact Hon|].
  destruct (proj1 (dma_needs_handle kobj_boot card dev_3 card_booted dev_3_reach) 0 dev E Hon)
    as [[Hz _]|(pid & p & slot & r & k & i & Hp & Hs & _)]; [destruct (Hn Hz)|].
  exists pid, p, slot, r. split; assumption.
Defined.

Lemma blocks_isolated_witness : owned dev_3 <> [] /\ NoDup (owned dev_3).
Proof.
  split; [vm_compute; discriminate|].
  exact (proj1 (blocks_isolated kobj_boot card dev_3 card_booted dev_3_reach)).
Defined.

Lemma shared_create_correct_witness :
  exists h d', shared_create dev_3 1 100 = Some (h, d') /\ (h = -1 \/ 0 <= h).
Proof.
  destruct (shared_create_correct kobj_boot card dev_3 1 100 card_booted dev_3_reach (proj2 (proj2 (proj2 dev_procs))))
    as (h & d' & E & Hc).
  exists h, d'. split; [exact E|]. destruct Hc as [[Hh _]|[Hh _]]; [left|right]; exact Hh.
Defined.

(** Only the bytes asked for are cleared, but whole pages are mapped: the rest of the last
    page of a transfer block keeps what was there. *)
Definition dma_tail : option (Z * Z * option Z) :=
  '(h, pa, d) ← dma_create (set_bytes (device_boot kobj_boot card) (fun _ => 7)) 100 1;
  pa ← pa;
  '(_, d') ← api_map d 1 h 0;
  Some (d_bytes d (pa + 99), d_bytes d (pa + 100), p_no_allocated <$> w_procs (d_world d') !! 1).

Example dma_tail_kept : dma_tail = Some (0, 7, Some 1).
Proof. vm_compute. reflexivity. Qed.
