(* ===== verification/Ata.v ===== *)
(** * The disk driver (ata.c)

    The drive is hardware: its contents are a function from byte addresses to
    bytes, and what the status register answers, read after read, is an
    arbitrary list of values (a drive whose list is used up answers "ready").
    So every failure the driver tests for (a drive that stays busy, that reports
    an error or a fault, that never asks for data, a failing cache flush) can
    happen at every sector. The driver's own state is the partition found at boot.
    Multi-sector transfers go through a buffer from the block allocator of Memory. *)

From S2P Require Import Prelude Memory.

Local Open Scope Z_scope.

Definition ATA_SECTOR_SIZE : Z := 512.
Definition ATA_MAX_SECTORS : Z := 256.
Definition ATA_POLL_SPINS : Z := 10000000.
Definition ATA_DRAIN_SPINS : Z := 65536.
Definition ATA_STATUS_BIT_ERR : Z := 1.
Definition ATA_STATUS_BIT_DRQ : Z := 8.
Definition ATA_STATUS_BIT_DF : Z := 32.
Definition ATA_STATUS_BIT_RDY : Z := 64.
Definition ATA_STATUS_BIT_BSY : Z := 128.

(** ** State *)

(** [a_base] and [a_part] are [ata_base_lba] and [ata_partition_sectors]. *)
Record ata := Ata { a_disk : Z -> Z; a_status : list Z; a_base : Z; a_part : Z }.

Definition with_status (s : ata) (st : list Z) : ata := Ata (a_disk s) st (a_base s) (a_part s).

Definition with_partition (s : ata) (base part : Z) : ata :=
  Ata (a_disk s) (a_status s) base part.

(** [disk_put f a l] stores the bytes [l] from address [a]. *)
Definition disk_put (f : Z -> Z) (a : Z) (l : list Z) : Z -> Z :=
  fun x => if (a <=? x) && (x <? a + zlen l) then byte_at l (x - a) else f x.

(** The [n] bytes of a disk from address [a]. *)
Definition disk_get (f : Z -> Z) (a n : Z) : list Z :=
  (fun j => f (a + Z.of_nat j)) <$> seq 0 (Z.to_nat n).

(** ** Port I/O *)

Definition bits_set (status mask : Z) : bool := negb (Z.land status mask =? 0).

(** [do { status = inb(...); } while(again(status) && spins++ < max)]. *)
Fixpoint poll_loop (again : Z -> bool) (max spins : Z) (st : list Z) : Z * list Z :=
  match st with
  | [] => (Z.lor ATA_STATUS_BIT_RDY ATA_STATUS_BIT_DRQ, [])
  | status :: st =>
      if again status && (spins <? max) then poll_loop again max (spins + 1) st
      else (status, st)
  end.

Definition poll (again : Z -> bool) (max : Z) (s : ata) : Z * ata :=
  let '(status, st) := poll_loop again max 0 (a_status s) in (status, with_status s st).

Definition poll_busy : ata -> Z * ata :=
  poll (fun status => bits_set status ATA_STATUS_BIT_BSY) ATA_POLL_SPINS.

Definition poll_drq : ata -> Z * ata :=
  poll (fun status => negb (bits_set status ATA_STATUS_BIT_DRQ) &&
                      negb (bits_set status ATA_STATUS_BIT_ERR)) ATA_POLL_SPINS.

(** Drains the data register, resets, and waits for the drive. *)
Definition ata_recover (s : ata) : ata :=
  let '(_, s) := poll (fun status => bits_set status ATA_STATUS_BIT_DRQ) ATA_DRAIN_SPINS s in
  let '(_, s) := poll_busy s in s.

(** The sector number the drive assembles from its four address registers. *)
Definition reg_lba (lba : Z) : Z :=
  u8 lba + 2 ^ 8 * u8 (Z.shiftr lba 8) + 2 ^ 16 * u8 (Z.shiftr lba 16) +
  2 ^ 24 * Z.land (u8 (Z.lor 224 (Z.land (Z.shiftr lba 24) 15))) 15.

(** The polls before each sector: [true] when the drive wants the data; on a
    failure the drive has been reset. *)
Definition wait_sector (s : ata) : bool * ata :=
  let '(status, s) := poll_busy s in
  if bits_set status ATA_STATUS_BIT_BSY then (false, ata_recover s)
  else
    let '(status, s) := poll_drq s in
    if bits_set status (Z.lor ATA_STATUS_BIT_ERR ATA_STATUS_BIT_DF) then (false, ata_recover s)
    else if negb (bits_set status ATA_STATUS_BIT_DRQ) then (false, ata_recover s)
    else (true, s).

(** The loop of [ata_readwrite] over the sectors [i .. i + n - 1]. *)
Fixpoint rw_sectors (n : nat) (i : Z) (s : ata) (lba : Z) (buf : list Z) (write : bool)
    : bool * list Z * ata :=
  match n with
  | O => (true, buf, s)
  | S n =>
      let '(ready, s) := wait_sector s in
      if negb ready then (false, buf, s)
      else
        let at_ := (lba + i) * ATA_SECTOR_SIZE in
        let off := i * ATA_SECTOR_SIZE in
        if write then
          rw_sectors n (i + 1)
            (Ata (disk_put (a_disk s) at_ (slice buf off ATA_SECTOR_SIZE))
               (a_status s) (a_base s) (a_part s)) lba buf write
        else
          rw_sectors n (i + 1) s lba
            (splice buf off (disk_get (a_disk s) at_ ATA_SECTOR_SIZE)) write
  end.

(** The result, the buffer (which a read changes) and the new state. *)
Definition ata_readwrite (s : ata) (lba : Z) (buf : list Z) (sectors : Z) (write : bool)
    : bool * list Z * ata :=
  if negb (a_part s =? 0) && (a_part s <? u32 (lba + sectors)) then (false, buf, s)
  else
    let lba := u32 (lba + a_base s) in
    if (sectors =? 0) || (ATA_MAX_SECTORS <? sectors) then (false, buf, s)
    else
      let '(ok, buf, s) := rw_sectors (Z.to_nat sectors) 0 s (reg_lba lba) buf write in
      if negb ok then (false, buf, s)
      else if write then
        let '(status, s) := poll_busy s in
        if bits_set status (Z.lor ATA_STATUS_BIT_BSY (Z.lor ATA_STATUS_BIT_ERR ATA_STATUS_BIT_DF))
        then (false, buf, ata_recover s)
        else (true, buf, s)
      else (true, buf, s).

(** ** Finding the partition *)

Definition MBR_TYPE : Z := 127.

(** The loop of [ata_check_mbr] over the partition table: the slot accepted
    ([Some (Some (base, sectors))]), a slot refused ([Some None]), or the end of
    the table ([None]), and whether a used slot was seen. *)
Fixpoint mbr_entries (n : nat) (i : Z) (m : list Z) (any_entries : bool)
    : option (option (Z * Z)) * bool :=
  match n with
  | O => (None, any_entries)
  | S n =>
      let e := 446 + i * 16 in
      if byte_at m (e + 4) =? 0 then mbr_entries n (i + 1) m any_entries
      else if negb (byte_at m (e + 4) =? MBR_TYPE) then mbr_entries n (i + 1) m true
      else
        let starting_lba := le32 m (e + 8) in
        let sectors := le32 m (e + 12) in
        if (sectors =? 0) || (2 ^ 28 <? u32 (starting_lba + sectors)) then (Some None, true)
        else (Some (Some (starting_lba, sectors)), true)
  end.

Definition zero_sector : list Z := replicate 512 0.

Definition ata_check_mbr (s : ata) : bool * ata :=
  let s := with_partition s 0 (a_part s) in
  let '(ok, m, s) := ata_readwrite s 0 zero_sector 1 false in
  if negb ok then (false, s)
  else if negb (byte_at m 510 =? 85) || negb (byte_at m 511 =? 170) then (false, s)
  else
    match mbr_entries 4 0 m false with
    | (Some None, _) => (false, s)
    | (Some (Some (base, sectors)), _) => (true, with_partition s base sectors)
    | (None, any_entries) => (negb any_entries, s)
    end.

Definition EFI_PART : list Z := [69; 70; 73; 32; 80; 65; 82; 84].

Definition GPT_TYPE_GUID : list Z :=
  [46; 235; 89; 190; 192; 145; 86; 79; 143; 239; 17; 154; 65; 218; 159; 170].

Definition GPT_ENTRY_SIZE : Z := 128.

Fixpoint gpt_entries (n : nat) (i : Z) (s : ata) (start_lba entry_size per_sector : Z)
    (sector : list Z) : bool * ata :=
  match n with
  | O => (false, s)
  | S n =>
      let '(ok, sector, s) :=
        if i mod per_sector =? 0
        then ata_readwrite s (u32 (start_lba + i / per_sector)) sector 1 false
        else (true, sector, s) in
      if negb ok then (false, s)
      else
        let e := (i mod per_sector) * entry_size in
        if negb (bool_decide (slice sector e 16 = GPT_TYPE_GUID)) then
          gpt_entries n (i + 1) s start_lba entry_size per_sector sector
        else
          let starting := le64 sector (e + 32) in
          let ending := le64 sector (e + 40) in
          if ending <? starting then (false, s)
          else if 2 ^ 28 <=? ending then (false, s)
          else (true, with_partition s (u32 starting) (u32 (ending - starting + 1)))
  end.

Definition ata_check_gpt (s : ata) : bool * ata :=
  let '(ok, m, s) := ata_readwrite s 1 zero_sector 1 false in
  if negb ok then (false, s)
  else if negb (bool_decide (slice m 0 8 = EFI_PART)) then (false, s)
  else
    let start_lba := le32 m 72 in
    let count := le32 m 80 in
    let entry_size := le32 m 84 in
    if (entry_size <? GPT_ENTRY_SIZE) || negb (512 mod entry_size =? 0) || (2 ^ 28 <=? start_lba)
    then (false, s)
    else if 128 <? s32 count then (false, s)
    else gpt_entries (Z.to_nat (s32 count)) 0 s start_lba entry_size (512 / entry_size) m.

(** [false]: no partition, the kernel hangs. *)
Definition ata_find_partition (s : ata) : bool * ata :=
  let '(gpt, s) := ata_check_gpt s in
  if gpt then (true, s) else ata_check_mbr s.

(** ** Transfers of any size *)

Section transfers.
Context {H : Type} `{Allocator H}.

Record io := Io { io_heap : H; io_ata : ata }.

Definition io_rw (s : io) (lba : Z) (buf : list Z) (sectors : Z) (write : bool)
    : bool * list Z * io :=
  let '(ok, buf, a) := ata_readwrite (io_ata s) lba buf sectors write in
  (ok, buf, Io (io_heap s) a).

Definition io_malloc (s : io) (bytes : Z) : Z * io :=
  let '(p, h) := al_malloc (io_heap s) bytes in (p, Io h (io_ata s)).

Definition io_free (s : io) (p bytes : Z) : io :=
  if (p =? 0) || (bytes =? 0) then s else Io (al_free (io_heap s) p bytes) (io_ata s).

(** The chunks of [ata_read_exact_into] from sector [i] on; [sectorCount] turns
    are enough, since each covers at least one sector. *)
Fixpoint read_chunks (fuel : nat) (s : io) (startSector sectorCount i : Z) (readBuf : list Z)
    : bool * list Z * io :=
  match fuel with
  | O => (true, readBuf, s)
  | S fuel =>
      if i <? sectorCount then
        let sectorsToRead := if sectorCount <? i + ATA_MAX_SECTORS then sectorCount - i
                             else ATA_MAX_SECTORS in
        let '(ok, part, s) :=
          io_rw s (startSector + i)
            (slice readBuf (i * ATA_SECTOR_SIZE) (sectorsToRead * ATA_SECTOR_SIZE))
            sectorsToRead false in
        let readBuf := splice readBuf (i * ATA_SECTOR_SIZE) part in
        if negb ok then (false, readBuf, s)
        else read_chunks fuel s startSector sectorCount (i + ATA_MAX_SECTORS) readBuf
      else (true, readBuf, s)
  end.

(** [outPtr] is the address of [outBuf]; the caller's buffer is returned. *)
Definition ata_read_exact_into (s : io) (addr bytes outPtr : Z) (outBuf : list Z)
    : bool * list Z * io :=
  if outPtr =? 0 then (false, outBuf, s)
  else if bytes =? 0 then (true, outBuf, s)
  else
    let startSector := addr / 512 in
    let offset := addr mod 512 in
    let endAddr := u32 (addr + bytes) in
    let endSector := u32 (endAddr + (512 - 1)) / 512 in
    let sectorCount := u32 (endSector - startSector) in
    let bytesRequired := u32 (sectorCount * 512) in
    if sectorCount =? 1 then
      let '(ok, sectorBuf, s) := io_rw s startSector zero_sector 1 false in
      if negb ok then (false, outBuf, s)
      else (true, splice outBuf 0 (slice sectorBuf offset bytes), s)
    else if (offset =? 0) && (bytes mod ATA_SECTOR_SIZE =? 0) &&
            (bytes / ATA_SECTOR_SIZE <=? ATA_MAX_SECTORS) then
      io_rw s startSector outBuf (u16 (bytes / ATA_SECTOR_SIZE)) false
    else
      let '(readPtr, s) := io_malloc s bytesRequired in
      if readPtr =? 0 then (false, outBuf, s)
      else
        let '(ok, readBuf, s) :=
          read_chunks (Z.to_nat sectorCount) s startSector sectorCount 0
            (replicate (Z.to_nat bytesRequired) 0) in
        if negb ok then (false, outBuf, io_free s readPtr bytesRequired)
        else
          (true, splice outBuf 0 (slice readBuf offset bytes), io_free s readPtr bytesRequired).

(** The new buffer ([None] is NULL): its address and its contents. *)
Definition ata_read_exact (s : io) (addr bytes : Z) : option (Z * list Z) * io :=
  let '(outPtr, s) := io_malloc s bytes in
  if outPtr =? 0 then (None, s)
  else
    let '(ok, outBuf, s) :=
      ata_read_exact_into s addr bytes outPtr (replicate (Z.to_nat bytes) 0) in
    if negb ok then (None, io_free s outPtr bytes)
    else (Some (outPtr, outBuf), s).

Fixpoint write_chunks (fuel : nat) (s : io) (startSector sectorCount i : Z) (buf : list Z)
    : bool * io :=
  match fuel with
  | O => (true, s)
  | S fuel =>
      if i <? sectorCount then
        let sectorsToWrite := if sectorCount <? i + ATA_MAX_SECTORS then sectorCount - i
                              else ATA_MAX_SECTORS in
        let '(ok, _, s) :=
          io_rw s (startSector + i)
            (slice buf (i * ATA_SECTOR_SIZE) (sectorsToWrite * ATA_SECTOR_SIZE))
            sectorsToWrite true in
        if negb ok then (false, s)
        else write_chunks fuel s startSector sectorCount (i + ATA_MAX_SECTORS) buf
      else (true, s)
  end.

Definition ata_write_exact (s : io) (addr : Z) (buf : list Z) (size : Z) : bool * io :=
  if size <? 0 then (false, s)
  else if size =? 0 then (true, s)
  else if negb (size mod ATA_SECTOR_SIZE =? 0) then (false, s)
  else if negb (addr mod ATA_SECTOR_SIZE =? 0) then (false, s)
  else
    let startSector := addr / ATA_SECTOR_SIZE in
    let sectorCount := size / ATA_SECTOR_SIZE in
    write_chunks (Z.to_nat sectorCount) s startSector sectorCount 0 buf.

End transfers.

#[global] Arguments io H : clear implicits.

(** ** Specification *)

(** The partition lies in the 2^28 sectors that the registers can address. *)
Definition part_ok (s : ata) : Prop :=
  0 <= a_base s /\ 0 <= a_part s /\ a_base s + a_part s <= 2 ^ 28 /\ (a_part s = 0 -> a_base s = 0).

(** Byte [a] of the partition, as an address of the drive. *)
Definition part_addr (s : ata) (a : Z) : Z := a_base s * 512 + a.

(** The [n] bytes of the partition from [a]. *)
Definition part_get (s : ata) (a n : Z) : list Z := disk_get (a_disk s) (part_addr s a) n.

(** Everything but the status register is kept. *)
Definition same_disk (s s' : ata) : Prop :=
  a_disk s' = a_disk s /\ a_base s' = a_base s /\ a_part s' = a_part s.

(** The sectors [lba .. lba + n - 1] belong to the partition. *)
Definition in_part (s : ata) (lba n : Z) : Prop :=
  0 <= lba /\ 0 <= n /\ lba + n <= 2 ^ 24 /\ (a_part s <> 0 -> lba + n <= a_part s).

(** The drive has no failure left to report. *)
Definition settled (s : ata) : Prop := a_status s = [].

(** The state after the first [k] bytes of [l] have been written at [a]. *)
Definition wrote (s s' : ata) (a : Z) (l : list Z) (k : Z) : Prop :=
  (forall x, a_disk s' x = disk_put (a_disk s) (part_addr s a) (slice l 0 k) x) /\
  a_base s' = a_base s /\ a_part s' = a_part s.

(** ** Lemmas: buffers and disks *)

Lemma zlen_disk_get f a n : 0 <= n -> zlen (disk_get f a n) = n.
Proof. intros. unfold zlen, disk_get. rewrite length_fmap, length_seq. lia. Qed.

Lemma zget_disk_get f a n i : 0 <= i < n -> zget (disk_get f a n) i = Some (f (a + i)).
Proof.
  intros. unfold zget, disk_get. zcase; [|lia].
  rewrite list_lookup_fmap, lookup_seq_lt by lia. simpl. do 2 f_equal. lia.
Qed.

Lemma byte_at_disk_get f a n i : 0 <= i < n -> byte_at (disk_get f a n) i = f (a + i).
Proof. intros. unfold byte_at. by rewrite zget_disk_get. Qed.

Lemma disk_get_ext f g a n :
  (forall x, a <= x < a + n -> f x = g x) -> disk_get f a n = disk_get g a n.
Proof.
  intros Hfg. unfold disk_get. apply list_fmap_ext. intros i x Hi.
  apply lookup_seq in Hi. apply Hfg. lia.
Qed.

Lemma slice_disk_get f a n o k :
  0 <= o -> 0 <= k -> o + k <= n -> slice (disk_get f a n) o k = disk_get f (a + o) k.
Proof.
  intros. assert (Hn : zlen (disk_get f a n) = n) by (apply zlen_disk_get; lia).
  apply (zget_ext_len _ _ k); [by apply zlen_slice; lia|by apply zlen_disk_get|].
  intros i Hi. rewrite zget_slice, !zget_disk_get by lia. do 2 f_equal. lia.
Qed.

Lemma disk_get_app f a n k :
  0 <= n -> 0 <= k -> disk_get f a (n + k) = disk_get f a n ++ disk_get f (a + n) k.
Proof.
  intros. pose proof (zlen_disk_get f a n ltac:(lia)) as Hn.
  pose proof (zlen_disk_get f (a + n) k ltac:(lia)) as Hk.
  apply (zget_ext_len _ _ (n + k)).
  - apply zlen_disk_get. lia.
  - rewrite zlen_app. lia.
  - intros i Hi. rewrite zget_disk_get by lia. destruct (decide (i < n)).
    + by rewrite zget_app_l, zget_disk_get by lia.
    + rewrite zget_app_r, Hn, zget_disk_get by lia. do 2 f_equal. lia.
Qed.

Lemma disk_put_out f a l x : ~ (a <= x < a + zlen l) -> disk_put f a l x = f x.
Proof.
  intros Hx. unfold disk_put. destruct ((a <=? x) && (x <? a + zlen l)) eqn:He; [lia|done].
Qed.

Lemma disk_put_in f a l x : a <= x < a + zlen l -> disk_put f a l x = byte_at l (x - a).
Proof.
  intros Hx. unfold disk_put. destruct ((a <=? x) && (x <? a + zlen l)) eqn:He; [done|lia].
Qed.

Lemma disk_put_nil f a x : disk_put f a [] x = f x.
Proof. apply disk_put_out. rewrite zlen_nil. lia. Qed.

Lemma disk_put_ext f g a l x : (forall y, f y = g y) -> disk_put f a l x = disk_put g a l x.
Proof. intros Hfg. unfold disk_put. by destruct (_ && _). Qed.

Lemma disk_put_app f a l l' x :
  disk_put (disk_put f a l) (a + zlen l) l' x = disk_put f a (l ++ l') x.
Proof.
  pose proof (zlen_nonneg l). pose proof (zlen_nonneg l').
  destruct (decide (a + zlen l <= x < a + zlen l + zlen l')) as [?|?].
  - rewrite !disk_put_in by (rewrite ?zlen_app; lia). unfold byte_at.
    rewrite zget_app_r by lia. do 2 f_equal. lia.
  - rewrite disk_put_out by lia. destruct (decide (a <= x < a + zlen l)).
    + rewrite !disk_put_in by (rewrite ?zlen_app; lia). unfold byte_at.
      by rewrite zget_app_l by lia.
    + rewrite !disk_put_out by (rewrite ?zlen_app; lia). done.
Qed.

Lemma disk_get_put f a l : disk_get (disk_put f a l) a (zlen l) = l.
Proof.
  pose proof (zlen_nonneg l).
  apply (zget_ext_len _ _ (zlen l)); [by apply zlen_disk_get|done|].
  intros i Hi. rewrite zget_disk_get, disk_put_in by lia.
  replace (a + i - a) with i by lia. unfold byte_at.
  by destruct (zget_is_Some l i Hi) as [b ->].
Qed.


(** ** Lemmas: the status register *)

Lemma with_status_same s st : same_disk s (with_status s st).
Proof. done. Qed.

Lemma same_disk_trans s1 s2 s3 : same_disk s1 s2 -> same_disk s2 s3 -> same_disk s1 s3.
Proof. intros (? & ? & ?) (? & ? & ?). split_and!; congruence. Qed.

Lemma poll_spec again max s :
  exists st, poll again max s = (fst (poll again max s), with_status s st) /\
    (settled s -> fst (poll again max s) = 72 /\ st = []).
Proof.
  unfold poll. destruct (poll_loop again max 0 (a_status s)) as [x st] eqn:He.
  exists st. split; [done|]. intros Hs. rewrite Hs in He. by simplify_eq/=.
Qed.

Lemma ata_recover_same s : same_disk s (ata_recover s) /\ (settled s -> settled (ata_recover s)).
Proof.
  unfold ata_recover, poll_busy.
  destruct (poll_spec (fun status => bits_set status ATA_STATUS_BIT_DRQ) ATA_DRAIN_SPINS s)
    as (st1 & -> & Hst1).
  destruct (poll_spec (fun status => bits_set status ATA_STATUS_BIT_BSY) ATA_POLL_SPINS
              (with_status s st1)) as (st2 & -> & Hst2).
  split; [done|]. intros Hs. apply Hst2. by apply Hst1.
Qed.

Lemma part_ok_same s s' : same_disk s s' -> part_ok s -> part_ok s'.
Proof. intros (_ & Hb & Hp) Hok. unfold part_ok in *. by rewrite Hb, Hp. Qed.


Lemma wait_sector_spec s :
  exists ready s', wait_sector s = (ready, s') /\ same_disk s s' /\
    (settled s -> ready = true /\ settled s').
Proof.
  unfold wait_sector, poll_busy, poll_drq.
  set (b1 := fun status => bits_set status ATA_STATUS_BIT_BSY).
  set (b2 := fun status => negb (bits_set status ATA_STATUS_BIT_DRQ) && negb (bits_set status ATA_STATUS_BIT_ERR)).
  destruct (poll_spec b1 ATA_POLL_SPINS s) as (st1 & He1 & Hst1). rewrite He1.
  set (x := fst (poll b1 ATA_POLL_SPINS s)) in *.
  destruct (bits_set x ATA_STATUS_BIT_BSY) eqn:Hx.
  { exists false, (ata_recover (with_status s st1)). split; [done|]. split.
    - by destruct (ata_recover_same (with_status s st1)).
    - intros Hs. apply Hst1 in Hs as [Hs _]. by rewrite Hs in Hx. }
  destruct (poll_spec b2 ATA_POLL_SPINS (with_status s st1)) as (st2 & He2 & Hst2).
  rewrite He2. set (y := fst (poll b2 ATA_POLL_SPINS (with_status s st1))) in *.
  assert (Hready : settled s -> y = 72 /\ st2 = []).
  { intros Hs. apply Hst2. by apply Hst1. }
  destruct (bits_set y _) eqn:Hy1; [|destruct (bits_set y ATA_STATUS_BIT_DRQ) eqn:Hy2; cbn [negb]].
  - exists false, (ata_recover (with_status (with_status s st1) st2)). split; [done|]. split.
    + by destruct (ata_recover_same (with_status (with_status s st1) st2)).
    + intros Hs. apply Hready in Hs as [Hs _]. by rewrite Hs in Hy1.
  - exists true, (with_status (with_status s st1) st2). split; [done|]. split; [done|].
    intros Hs. split; [done|]. by apply Hready.
  - exists false, (ata_recover (with_status (with_status s st1) st2)). split; [done|]. split.
    + by destruct (ata_recover_same (with_status (with_status s st1) st2)).
    + intros Hs. apply Hready in Hs as [Hs _]. by rewrite Hs in Hy2.
Qed.

Lemma reg_lba_id lba : 0 <= lba < 2 ^ 28 -> reg_lba lba = lba.
Proof.
  intros Hl. unfold reg_lba, u8.
  rewrite !Z.shiftr_div_pow2 by lia.
  assert (Hhi : 0 <= lba / 2 ^ 24 < 16).
  { split; [apply Z.div_pos; lia|apply Z.div_lt_upper_bound; lia]. }
  assert (H4 : Z.land ((Z.lor 224 (Z.land (lba / 2 ^ 24) 15)) mod 2 ^ 8) 15 = lba / 2 ^ 24).
  { assert (Hc : forall x, 0 <= x < 16 -> Z.land ((Z.lor 224 (Z.land x 15)) mod 2 ^ 8) 15 = x).
    { intros x Hx. assert (x = 0 \/ x = 1 \/ x = 2 \/ x = 3 \/ x = 4 \/ x = 5 \/ x = 6 \/ x = 7 \/
        x = 8 \/ x = 9 \/ x = 10 \/ x = 11 \/ x = 12 \/ x = 13 \/ x = 14 \/ x = 15) by lia.
      by destruct_or!; subst. }
    by apply Hc. }
  rewrite H4. clear H4.
  change (2 ^ 24) with (2 ^ 16 * 2 ^ 8). change (2 ^ 16) with (2 ^ 8 * 2 ^ 8).
  rewrite <-!Z.div_div by lia.
  pose proof (Z.div_mod lba (2 ^ 8) ltac:(lia)).
  pose proof (Z.div_mod (lba / 2 ^ 8) (2 ^ 8) ltac:(lia)).
  pose proof (Z.div_mod (lba / 2 ^ 8 / 2 ^ 8) (2 ^ 8) ltac:(lia)). lia.
Qed.

(** ** Lemmas: sectors *)

Lemma rw_read_spec n i s lba buf :
  0 <= i -> i * 512 + Z.of_nat n * 512 <= zlen buf ->
  exists ok buf' s', rw_sectors n i s lba buf false = (ok, buf', s') /\ same_disk s s' /\
    zlen buf' = zlen buf /\ (settled s -> ok = true /\ settled s') /\
    (ok = true -> buf' = splice buf (i * 512) (disk_get (a_disk s) ((lba + i) * 512) (Z.of_nat n * 512))).
Proof.
  revert i s buf. induction n as [|n IH]; intros i s buf Hi Hlen; cbn [rw_sectors].
  - exists true, buf, s. split_and!; try done. intros _. symmetry. apply splice_nil.
  - destruct (wait_sector_spec s) as (ready & s1 & -> & Hs1 & Hr).
    destruct ready; cbn [negb].
    2: { exists false, buf, s1. split_and!; try done; intros Hset; by apply Hr in Hset as [? _]. }
    unfold ATA_SECTOR_SIZE.
    set (sec := disk_get (a_disk s1) ((lba + i) * 512) 512).
    assert (zlen sec = 512) as Hsec by (apply zlen_disk_get; lia).
    assert (zlen (splice buf (i * 512) sec) = zlen buf) as Hl by (apply zlen_splice; lia).
    destruct (IH (i + 1) s1 (splice buf (i * 512) sec)) as (ok & buf' & s' & -> & Hs' & Hb & Hset & Hok);
      [lia|rewrite Hl; lia|].
    exists ok, buf', s'. split; [done|]. split; [by eapply same_disk_trans|].
    split; [lia|]. split; [intros Hst; apply Hset; by apply Hr|].
    intros Ht. rewrite (Hok Ht). destruct Hs1 as (Hd & _ & _).
    replace (Z.of_nat (S n) * 512) with (512 + Z.of_nat n * 512) by lia.
    rewrite disk_get_app by lia. replace ((i + 1) * 512) with (i * 512 + zlen sec) by lia.
    rewrite splice_app; [|lia|rewrite zlen_disk_get by lia; lia].
    unfold sec. rewrite Hd. do 3 f_equal. lia.
Qed.

(** Writing the bytes [l] from [a], stopped after some of them. *)
Lemma rw_write_spec n i s lba buf :
  0 <= i -> i * 512 + Z.of_nat n * 512 <= zlen buf ->
  exists ok s' k, rw_sectors n i s lba buf true = (ok, buf, s') /\
    a_base s' = a_base s /\ a_part s' = a_part s /\ 0 <= k <= Z.of_nat n /\
    (settled s -> ok = true /\ settled s') /\ (ok = true -> k = Z.of_nat n) /\
    (forall x, a_disk s' x =
       disk_put (a_disk s) ((lba + i) * 512) (slice buf (i * 512) (k * 512)) x).
Proof.
  revert i s. induction n as [|n IH]; intros i s Hi Hlen; cbn [rw_sectors].
  - exists true, s, 0. split_and!; try done. intros x. symmetry. apply disk_put_nil.
  - destruct (wait_sector_spec s) as (ready & s1 & -> & (Hd & Hb & Hp) & Hr).
    destruct ready; cbn [negb].
    2: { exists false, s1, 0. split_and!; try done; try lia; try (intros Hset; by apply Hr in Hset as [? _]).
         intros x. rewrite slice_0, disk_put_nil. by rewrite Hd. }
    unfold ATA_SECTOR_SIZE. set (s2 := Ata _ _ _ _).
    destruct (IH (i + 1) s2) as (ok & s' & k & -> & Hb' & Hp' & Hk & Hset & Hok & Hx); [lia|lia|].
    exists ok, s', (k + 1). split; [done|]. split; [by rewrite Hb'|]. split; [by rewrite Hp'|].
    split; [lia|]. split; [intros Hst; apply Hset; by apply Hr|].
    split; [intros Ht; apply Hok in Ht; lia|].
    intros x. rewrite Hx. replace ((k + 1) * 512) with (512 + k * 512) by lia.
    rewrite slice_split by lia. rewrite <-disk_put_app.
    rewrite zlen_slice by lia.
    replace ((lba + (i + 1)) * 512) with ((lba + i) * 512 + 512) by lia.
    replace ((i + 1) * 512) with (i * 512 + 512) by lia.
    apply disk_put_ext. intros y. simpl. by rewrite Hd.
Qed.

Lemma part_check s lba n :
  part_ok s -> 0 <= lba -> 0 <= n -> lba + n <= 2 ^ 24 ->
  (negb (a_part s =? 0) && (a_part s <? u32 (lba + n)) = false <-> in_part s lba n).
Proof.
  intros (Hb & Hp & _) Hl Hn Hm. unfold in_part. rewrite u32_id by lia.
  destruct (a_part s =? 0) eqn:He; cbn [negb andb]; lia.
Qed.

Lemma reg_lba_part s lba n :
  part_ok s -> in_part s lba n -> 1 <= n -> reg_lba (u32 (lba + a_base s)) = lba + a_base s.
Proof.
  intros (Hb & Hp & Hm & H0) (Hl & Hn & Hm' & Hpart) H1.
  rewrite u32_id by lia. apply reg_lba_id. lia.
Qed.

Lemma ata_read_spec s lba buf n :
  part_ok s -> 0 <= lba -> 0 <= n -> lba + n <= 2 ^ 24 -> n * 512 <= zlen buf ->
  exists ok buf' s', ata_readwrite s lba buf n false = (ok, buf', s') /\ same_disk s s' /\
    zlen buf' = zlen buf /\ (settled s -> settled s') /\
    (settled s -> in_part s lba n -> 1 <= n <= 256 -> ok = true) /\
    (ok = true -> in_part s lba n /\ buf' = splice buf 0 (part_get s (lba * 512) (n * 512))).
Proof.
  intros Hok Hl Hn Hm Hlen. unfold ata_readwrite.
  pose proof (part_check s lba n Hok Hl Hn Hm) as Hpc.
  destruct (negb (a_part s =? 0) && _) eqn:Hc.
  { exists false, buf, s. split_and!; try done. intros _ Hin. by apply Hpc in Hin. }
  assert (in_part s lba n) as Hin by (by apply Hpc).
  unfold ATA_MAX_SECTORS. destruct ((n =? 0) || (256 <? n)) eqn:Hn2.
  { exists false, buf, s. split_and!; try done. lia. }
  rewrite (reg_lba_part s lba n) by (done || lia).
  destruct (rw_read_spec (Z.to_nat n) 0 s (lba + a_base s) buf) as (ok & buf' & s' & -> & Hs & Hb & Hset & Hv);
    [lia|lia|].
  rewrite Z2Nat.id in Hv by lia.
  destruct ok; cbn [negb]; eexists _, buf', s'; (split; [done|]); split_and!; try done.
  - intros Hst. by apply Hset.
  - intros _. split; [done|]. rewrite (Hv eq_refl). unfold part_get, part_addr.
    do 2 f_equal; lia.
  - intros Hst. by apply Hset.
  - intros Hst _ _. by apply Hset.
Qed.

Lemma wrote_0 s a l : wrote s s a l 0.
Proof. split; [|done]. intros x. by rewrite slice_0, disk_put_nil. Qed.

Lemma wrote_same s s1 s2 a l k : wrote s s1 a l k -> same_disk s1 s2 -> wrote s s2 a l k.
Proof.
  intros (Hx & Hb & Hp) (Hd & Hb' & Hp'). split_and!; [|congruence..]. intros x. by rewrite Hd.
Qed.

Lemma ata_write_spec s lba buf n :
  part_ok s -> 0 <= lba -> 0 <= n -> lba + n <= 2 ^ 24 -> n * 512 <= zlen buf ->
  exists ok s' k, ata_readwrite s lba buf n true = (ok, buf, s') /\
    wrote s s' (lba * 512) buf (k * 512) /\ 0 <= k <= n /\ (settled s -> settled s') /\
    (settled s -> in_part s lba n -> 1 <= n <= 256 -> ok = true) /\
    (ok = true -> k = n) /\ (0 < k -> in_part s lba n) /\ (ok = true -> in_part s lba n).
Proof.
  intros Hok Hl Hn Hm Hlen. unfold ata_readwrite.
  pose proof (part_check s lba n Hok Hl Hn Hm) as Hpc.
  destruct (negb (a_part s =? 0) && _) eqn:Hc.
  { exists false, s, 0. split_and!; try done; try lia; [apply wrote_0|].
    intros _ Hin. by apply Hpc in Hin. }
  assert (in_part s lba n) as Hin by (by apply Hpc).
  unfold ATA_MAX_SECTORS. destruct ((n =? 0) || (256 <? n)) eqn:Hn2.
  { exists false, s, 0. split_and!; try done; try lia. apply wrote_0. }
  rewrite (reg_lba_part s lba n) by (done || lia).
  destruct (rw_write_spec (Z.to_nat n) 0 s (lba + a_base s) buf)
    as (ok & s' & k & -> & Hb & Hp & Hk & Hset & Hv & Hx); [lia|lia|].
  rewrite Z2Nat.id in Hk, Hv by lia.
  assert (Hw : wrote s s' (lba * 512) buf (k * 512)).
  { split; [|done]. intros x. rewrite Hx. unfold part_addr. f_equal. lia. }
  destruct ok; cbn [negb].
  2: { exists false, s', k. split_and!; try done; try lia; intros Hst; by apply Hset in Hst as [? _]. }
  unfold poll_busy. set (b1 := fun status => bits_set status ATA_STATUS_BIT_BSY).
  destruct (poll_spec b1 ATA_POLL_SPINS s') as (st1 & -> & Hst1).
  set (x := fst (poll b1 ATA_POLL_SPINS s')) in *.
  assert (Hset1 : settled s -> x = 72 /\ st1 = []) by (intros Hst; apply Hst1; by apply Hset).
  destruct (bits_set x _) eqn:Hbits.
  - exists false, (ata_recover (with_status s' st1)), k. split_and!; try done; try lia.
    + eapply wrote_same; [exact Hw|]. eapply same_disk_trans; [|apply ata_recover_same]. done.
    + intros Hst. apply Hset1 in Hst as [Hst _]. by rewrite Hst in Hbits.
    + intros Hst. apply Hset1 in Hst as [Hst _]. by rewrite Hst in Hbits.
  - exists true, (with_status s' st1), k. split_and!; try done; try lia.
    intros Hst. by apply Hset1.
Qed.

Lemma wrote_app s s1 s2 a buf n k :
  wrote s s1 a buf n -> 0 <= n -> 0 <= k -> n + k <= zlen buf ->
  wrote s1 s2 (a + n) (slice buf n k) k -> wrote s s2 a buf (n + k).
Proof.
  intros (Hx & Hb & Hp) Hn Hk Hl (Hx2 & Hb2 & Hp2). split_and!; [|congruence..].
  intros x. rewrite Hx2. rewrite slice_split by lia. rewrite <-disk_put_app, zlen_slice by lia.
  assert (zlen (slice buf n k) = k) as Hlk by (apply zlen_slice; lia).
  rewrite <-Hlk at 2. rewrite slice_all. unfold part_addr in *. rewrite Hb.
  replace (a_base s * 512 + (a + n)) with (a_base s * 512 + a + n) by lia.
  by apply disk_put_ext.
Qed.

(** A partial write of a shorter prefix counts from the same buffer. *)
Lemma wrote_prefix s s' a buf n k :
  0 <= k <= n -> n <= zlen buf -> wrote s s' a (slice buf 0 n) k -> wrote s s' a buf k.
Proof.
  intros Hk Hn (Hx & Hb & Hp). split_and!; [|done..]. intros x. rewrite Hx. f_equal.
  apply (zget_ext_len _ _ k); rewrite ?zlen_slice by (rewrite ?zlen_slice by lia; lia); try done.
  intros i Hi. rewrite !zget_slice by lia. done.
Qed.

(** ** Lemmas: transfers of any size *)

Lemma in_part_sub s lba n i k :
  in_part s lba n -> 0 <= i -> 0 <= k -> i + k <= n -> in_part s (lba + i) k.
Proof. unfold in_part. lia. Qed.

Lemma in_part_same s s' lba n : a_part s' = a_part s -> in_part s lba n -> in_part s' lba n.
Proof. unfold in_part. intros ->. done. Qed.

Lemma part_get_same s s' a n : same_disk s s' -> part_get s' a n = part_get s a n.
Proof. intros (Hd & Hb & _). unfold part_get, part_addr. by rewrite Hd, Hb. Qed.

Lemma part_get_app s a n k :
  0 <= n -> 0 <= k -> part_get s a (n + k) = part_get s a n ++ part_get s (a + n) k.
Proof.
  intros. unfold part_get. rewrite disk_get_app by done. do 2 f_equal. unfold part_addr. lia.
Qed.

Lemma part_get_neg s a n : n <= 0 -> part_get s a n = [].
Proof. intros. unfold part_get, disk_get. by replace (Z.to_nat n) with O by lia. Qed.

Lemma zlen_part_get s a n : 0 <= n -> zlen (part_get s a n) = n.
Proof. apply zlen_disk_get. Qed.

Lemma slice_part_get s a n o k :
  0 <= o -> 0 <= k -> o + k <= n -> slice (part_get s a n) o k = part_get s (a + o) k.
Proof.
  intros. unfold part_get. rewrite slice_disk_get by done. f_equal. unfold part_addr. lia.
Qed.

(** The number of sectors of the chunk at [i]. *)
Lemma chunk_size n i :
  i < n ->
  let c := if n <? i + 256 then n - i else 256 in
  1 <= c <= 256 /\ i + c <= n /\ (i + 256 < n -> c = 256) /\ (n <= i + 256 -> i + c = n).
Proof. intros. destruct (n <? i + 256) eqn:Hc; subst c; lia. Qed.

#[global] Opaque disk_get.

Section transfer_lemmas.
Context {H : Type} `{Allocator H}.
Implicit Types (s : io H).

(** The same pages are in use. *)
Definition heap_eq (h h' : H) : Prop := al_wf h' /\ forall q, al_used h' q <-> al_used h q.

(** [p] is a new allocation of [n] bytes. *)
Definition heap_plus (h h' : H) (p n : Z) : Prop :=
  al_wf h' /\ p mod 4096 = 0 /\ 0 < p /\
  (forall q, p / 4096 <= q < p / 4096 + pages n -> ~ al_used h q) /\
  (forall q, al_used h' q <-> al_used h q \/ p / 4096 <= q < p / 4096 + pages n).

Lemma heap_eq_refl h : al_wf h -> heap_eq h h.
Proof. done. Qed.

Lemma heap_eq_trans h1 h2 h3 : heap_eq h1 h2 -> heap_eq h2 h3 -> heap_eq h1 h3.
Proof. intros [_ Hu] [Hw Hu']. split; [done|]. intros q. by rewrite Hu', Hu. Qed.

Lemma heap_plus_eq h h1 h2 p n : heap_plus h h1 p n -> heap_eq h1 h2 -> heap_plus h h2 p n.
Proof.
  intros (Hw & Hm & Hp & Hf & Hu) [Hw' Hu']. split_and!; try done. intros q. by rewrite Hu', Hu.
Qed.

Lemma heap_eq_plus h h1 h2 p n : heap_eq h h1 -> heap_plus h1 h2 p n -> heap_plus h h2 p n.
Proof.
  intros [_ Hu] (Hw & Hm & Hp & Hf & Hu'). split_and!; try done.
  - intros q Hq. rewrite <-Hu. by apply Hf.
  - intros q. by rewrite Hu', Hu.
Qed.

(** An allocation of at most [n] bytes fails on the heap [h], or on [h] with one more
    allocation of at most [n] bytes. *)
Definition out_of_memory (h : H) (n : Z) : Prop :=
  exists h' m, fst (al_malloc h' m) = 0 /\ 0 < m <= n /\
    (heap_eq h h' \/ exists p k, 0 < k <= n /\ heap_plus h h' p k).

Lemma out_of_memory_here h m n : al_wf h -> fst (al_malloc h m) = 0 -> 0 < m <= n -> out_of_memory h n.
Proof. intros Hw Hf Hm. exists h, m. split; [done|]. split; [done|]. by left. Qed.

Lemma out_of_memory_mono h h1 m n : heap_eq h h1 -> m <= n -> out_of_memory h1 m -> out_of_memory h n.
Proof.
  intros He Hle (h' & k & Hf & Hk & Hc). exists h', k. split; [done|]. split; [lia|].
  destruct Hc as [Hc|(p & j & Hj & Hc)]; [left; by eapply heap_eq_trans|].
  right. exists p, j. split; [lia|]. by eapply heap_eq_plus.
Qed.

Lemma io_malloc_fst s s' n p : io_malloc s n = (p, s') -> fst (al_malloc (io_heap s) n) = p.
Proof. unfold io_malloc. destruct (al_malloc _ _) as [q h]. intros. by simplify_eq. Qed.

Lemma io_malloc_spec s n :
  al_wf (io_heap s) -> 0 < n < 2 ^ 31 - 4096 ->
  exists p s', io_malloc s n = (p, s') /\ io_ata s' = io_ata s /\
    ((p = 0 /\ s' = s) \/ (p <> 0 /\ heap_plus (io_heap s) (io_heap s') p n)).
Proof.
  intros Hw Hn. unfold io_malloc. destruct (al_malloc (io_heap s) n) as [p h'] eqn:Hm.
  exists p, (Io h' (io_ata s)). split; [done|]. split; [done|].
  destruct (decide (p = 0)) as [->|Hp].
  - left. apply al_malloc_fail in Hm as ->. by destruct s.
  - right. split; [done|]. destruct (al_malloc_ok _ _ _ _ Hw Hn Hm Hp) as (? & ? & ? & _ & ? & ?).
    by split_and!.
Qed.

Lemma io_free_spec h s p n :
  0 < n < 2 ^ 31 - 4096 -> heap_plus h (io_heap s) p n ->
  heap_eq h (io_heap (io_free s p n)) /\ io_ata (io_free s p n) = io_ata s.
Proof.
  intros Hn (Hw & Hm & Hp & Hf & Hu). unfold io_free.
  destruct ((p =? 0) || (n =? 0)) eqn:Hc; [lia|]. split; [|done]. simpl.
  destruct (al_free_ok (io_heap s) n p Hw Hn Hm) as [Hw' Hu'].
  { intros q Hq. apply Hu. by right. }
  split; [done|]. intros q. rewrite Hu', Hu. specialize (Hf q). tauto.
Qed.

Lemma io_read_spec s lba buf n :
  part_ok (io_ata s) -> 0 <= lba -> 0 <= n -> lba + n <= 2 ^ 24 -> n * 512 <= zlen buf ->
  exists ok buf' s', io_rw s lba buf n false = (ok, buf', s') /\ io_heap s' = io_heap s /\
    same_disk (io_ata s) (io_ata s') /\ zlen buf' = zlen buf /\
    (settled (io_ata s) -> settled (io_ata s')) /\
    (settled (io_ata s) -> in_part (io_ata s) lba n -> 1 <= n <= 256 -> ok = true) /\
    (ok = true -> in_part (io_ata s) lba n /\
       buf' = splice buf 0 (part_get (io_ata s) (lba * 512) (n * 512))).
Proof.
  intros Hok Hl Hn Hm Hlen. unfold io_rw.
  destruct (ata_read_spec (io_ata s) lba buf n Hok Hl Hn Hm Hlen) as (ok & buf' & a & -> & ?).
  exists ok, buf', (Io (io_heap s) a). split; [done|]. by split.
Qed.

Lemma read_chunks_spec fuel s start count i buf :
  part_ok (io_ata s) -> 0 <= start -> start + count <= 2 ^ 24 -> 0 <= i ->
  count - i <= Z.of_nat fuel -> count * 512 <= zlen buf ->
  exists ok buf' s', read_chunks fuel s start count i buf = (ok, buf', s') /\
    io_heap s' = io_heap s /\ same_disk (io_ata s) (io_ata s') /\ zlen buf' = zlen buf /\
    (settled (io_ata s) -> settled (io_ata s')) /\
    (settled (io_ata s) -> in_part (io_ata s) start count -> ok = true) /\
    (ok = true -> i < count -> in_part (io_ata s) start count) /\
    (ok = true ->
       buf' = splice buf (i * 512) (part_get (io_ata s) ((start + i) * 512) ((count - i) * 512))).
Proof.
  revert s i buf. induction fuel as [|fuel IH]; intros s i buf Hok Hs Hm Hi Hf Hlen;
    cbn [read_chunks].
  { exists true, buf, s. split_and!; try done; [lia|]. intros _. by rewrite part_get_neg, splice_nil by lia. }
  destruct (i <? count) eqn:Hic.
  2: { exists true, buf, s. split_and!; try done; [lia|]. intros _. by rewrite part_get_neg, splice_nil by lia. }
  unfold ATA_MAX_SECTORS, ATA_SECTOR_SIZE.
  destruct (chunk_size count i ltac:(lia)) as (Hc & Hic2 & Hmore & Hlast).
  set (c := if count <? i + 256 then count - i else 256) in *.
  assert (zlen (slice buf (i * 512) (c * 512)) = c * 512) as Hsl by (apply zlen_slice; lia).
  destruct (io_read_spec s (start + i) (slice buf (i * 512) (c * 512)) c)
    as (ok & part & s1 & -> & Hh & Hd & Hpl & Hset & Hsucc & Hv); [done|lia|lia|lia|lia|].
  assert (zlen (splice buf (i * 512) part) = zlen buf) as Hbl by (apply zlen_splice; lia).
  destruct ok; cbn [negb].
  2: { exists false, (splice buf (i * 512) part), s1. split_and!; try done.
       intros Hst Hin. apply Hsucc; [done| |done]. apply (in_part_sub _ _ count); [done|lia..]. }
  destruct (Hv eq_refl) as [Hin Hpart].
  destruct (IH s1 (i + 256) (splice buf (i * 512) part))
    as (ok & buf' & s2 & -> & Hh2 & Hd2 & Hl2 & Hset2 & Hsucc2 & Hin2 & Hv2);
    [by eapply part_ok_same|lia..|].
  exists ok, buf', s2. split; [done|]. split; [congruence|].
  split; [by eapply same_disk_trans|]. split; [lia|]. split; [auto|].
  split; [intros; apply Hsucc2; [auto|]; eapply in_part_same; [|done]; apply Hd|].
  split.
  { intros Ht _. destruct (decide (i + 256 < count)) as [Hlt|Hge].
    - eapply in_part_same; [symmetry; apply Hd|]. by apply Hin2.
    - unfold in_part in *. lia. }
  intros Ht. rewrite splice_all in Hpart by (rewrite zlen_part_get; lia). subst part.
  rewrite (Hv2 Ht), (part_get_same _ _ _ _ Hd).
  destruct (decide (i + 256 < count)) as [Hlt|Hge].
  - rewrite (Hmore Hlt) in *.
    replace ((i + 256) * 512) with (i * 512 + zlen (part_get (io_ata s) ((start + i) * 512) (256 * 512)))
      by (rewrite zlen_part_get; lia).
    rewrite splice_app; [|lia|rewrite !zlen_part_get by lia; lia].
    f_equal. replace ((count - i) * 512) with (256 * 512 + (count - (i + 256)) * 512) by lia.
    rewrite part_get_app by lia.
    by replace ((start + (i + 256)) * 512) with ((start + i) * 512 + 256 * 512) by lia.
  - rewrite (part_get_neg _ _ ((count - (i + 256)) * 512)), splice_nil by lia.
    do 2 f_equal. lia.
Qed.

(** The sectors that the bytes [addr .. addr + bytes - 1] touch. *)
Definition sectors_of (addr bytes : Z) : Z := (addr + bytes + 511) / 512 - addr / 512.

Lemma sectors_of_bounds addr bytes :
  0 <= addr -> 0 < bytes -> addr + bytes + 511 < 2 ^ 32 ->
  let first := addr / 512 in let count := sectors_of addr bytes in
  0 <= first /\ 1 <= count /\ first + count < 2 ^ 24 /\
  first * 512 <= addr /\ addr + bytes <= (first + count) * 512 /\ (first + count) * 512 <= addr + bytes + 511 /\
  addr mod 512 = addr - first * 512 /\ addr - first * 512 < 512.
Proof.
  intros. unfold sectors_of in *. subst first count.
  pose proof (Z.div_mod addr 512 ltac:(lia)). pose proof (Z.mod_pos_bound addr 512 ltac:(lia)).
  pose proof (Z.div_mod (addr + bytes + 511) 512 ltac:(lia)).
  pose proof (Z.mod_pos_bound (addr + bytes + 511) 512 ltac:(lia)). lia.
Qed.

(** What a transfer of a buffer guarantees of the state. *)
Definition io_keeps s s' : Prop :=
  heap_eq (io_heap s) (io_heap s') /\ same_disk (io_ata s) (io_ata s') /\
  (settled (io_ata s) -> settled (io_ata s')).

Lemma io_keeps_heap s s' :
  al_wf (io_heap s) -> io_heap s' = io_heap s -> same_disk (io_ata s) (io_ata s') ->
  (settled (io_ata s) -> settled (io_ata s')) -> io_keeps s s'.
Proof. intros Hw Hh Hd Hset. split_and!; try done; rewrite Hh; by apply heap_eq_refl. Qed.

Lemma slice_part_sector (s : ata) first count addr n :
  first * 512 <= addr -> 0 <= n -> addr + n <= (first + count) * 512 ->
  slice (part_get s (first * 512) (count * 512)) (addr - first * 512) n = part_get s addr n.
Proof. intros. rewrite slice_part_get by lia. f_equal. lia. Qed.

Lemma ata_read_exact_into_spec s addr bytes outPtr outBuf :
  part_ok (io_ata s) -> al_wf (io_heap s) -> 0 <= addr -> 0 < bytes ->
  addr + bytes + 511 < 2 ^ 32 -> bytes < 2 ^ 31 - 8192 -> outPtr <> 0 -> zlen outBuf = bytes ->
  exists ok outBuf' s', ata_read_exact_into s addr bytes outPtr outBuf = (ok, outBuf', s') /\
    io_keeps s s' /\ zlen outBuf' = bytes /\
    (ok = true -> outBuf' = part_get (io_ata s) addr bytes /\
       in_part (io_ata s) (addr / 512) (sectors_of addr bytes)) /\
    (ok = false -> settled (io_ata s) ->
       in_part (io_ata s) (addr / 512) (sectors_of addr bytes) ->
       fst (al_malloc (io_heap s) (sectors_of addr bytes * 512)) = 0).
Proof.
  intros Hok Hw Ha Hb Hm Hbm Hptr Hlen.
  destruct (sectors_of_bounds addr bytes Ha Hb Hm) as (Hf & Hc & Hfc & Hlo & Hhi & Hreq & Hoff & Hlt).
  unfold ata_read_exact_into.
  destruct (outPtr =? 0) eqn:Hp0; [lia|]. destruct (bytes =? 0) eqn:Hb0; [lia|].
  rewrite (u32_id (addr + bytes)) by lia. rewrite (u32_id (addr + bytes + (512 - 1))) by lia.
  replace (addr + bytes + (512 - 1)) with (addr + bytes + 511) by lia.
  fold (sectors_of addr bytes). set (count := sectors_of addr bytes) in *.
  set (first := addr / 512) in *. rewrite Hoff.
  rewrite (u32_id count) by lia. rewrite (u32_id (count * 512)) by lia.
  destruct (count =? 1) eqn:Hc1.
  { destruct (io_read_spec s first zero_sector 1) as
      (ok & buf & s1 & -> & Hh & Hd & Hl & Hset & Hsucc & Hv); [done|lia|lia|lia|by vm_compute|].
    destruct ok; cbn [negb].
    - destruct (Hv eq_refl) as [Hin ->].
      rewrite (splice_all zero_sector) by (rewrite zlen_part_get by lia; by vm_compute).
      rewrite (slice_part_sector _ first 1) by lia.
      eexists _, _, s1. split; [done|]. split; [by apply io_keeps_heap|].
      rewrite splice_all by (rewrite zlen_part_get; lia).
      split; [apply zlen_part_get; lia|]. split; [|done].
      intros _. split; [done|]. by replace count with 1 by lia.
    - eexists _, _, s1. split; [done|]. split; [by apply io_keeps_heap|]. split; [done|].
      split; [done|]. intros _ Hst Hin. replace count with 1 in Hin by lia.
      specialize (Hsucc Hst Hin ltac:(lia)). done. }
  unfold ATA_SECTOR_SIZE, ATA_MAX_SECTORS.
  destruct ((addr - first * 512 =? 0) && (bytes mod 512 =? 0) && (bytes / 512 <=? 256)) eqn:Hfast.
  { assert (Hcnt : count = bytes / 512 /\ bytes = bytes / 512 * 512).
    { pose proof (Z.div_mod bytes 512 ltac:(lia)). lia. }
    rewrite u16_id by lia.
    destruct (io_read_spec s first outBuf (bytes / 512)) as
      (ok & buf & s1 & -> & Hh & Hd & Hl & Hset & Hsucc & Hv); [done|lia|lia|lia|lia|].
    eexists ok, buf, s1. split; [done|]. split; [by apply io_keeps_heap|]. split; [lia|]. split.
    - intros Ht. destruct (Hv Ht) as [Hin ->].
      rewrite splice_all by (rewrite zlen_part_get; lia). split.
      + f_equal; lia.
      + by replace count with (bytes / 512) by lia.
    - intros -> Hst Hin. replace count with (bytes / 512) in Hin by lia.
      specialize (Hsucc Hst Hin ltac:(lia)). done. }
  destruct (io_malloc_spec s (count * 512) Hw ltac:(lia)) as (p & s1 & Hmal & Ha1 & Hcase).
  rewrite Hmal. destruct Hcase as [[-> ->]|[Hp Hplus]].
  { eexists false, outBuf, s. split; [done|]. split; [by apply io_keeps_heap|].
    split; [done|]. split; [done|]. intros _ _ _.
    unfold io_malloc in Hmal. destruct (al_malloc (io_heap s) (count * 512)) as [q h]. by simplify_eq. }
  destruct (p =? 0) eqn:Hpz; [lia|].
  destruct (read_chunks_spec (Z.to_nat count) s1 first count 0 (replicate (Z.to_nat (count * 512)) 0))
    as (ok & buf & s2 & -> & Hh & Hd & Hl & Hset & Hsucc & Hin & Hv);
    [by rewrite Ha1|lia|lia|lia|lia|rewrite zlen_replicate; lia|].
  rewrite Ha1 in *.
  assert (Hplus2 : heap_plus (io_heap s) (io_heap s2) p (count * 512)) by (by rewrite Hh).
  destruct (io_free_spec (io_heap s) s2 p (count * 512) ltac:(lia) Hplus2) as [Heq Ha2].
  assert (Hkeep : io_keeps s (io_free s2 p (count * 512))).
  { split; [done|]. rewrite Ha2. done. }
  destruct ok; cbn [negb].
  - eexists _, _, _. split; [done|]. split; [done|].
    rewrite (Hv eq_refl), (splice_all (replicate _ _)), Z.sub_0_r, Z.add_0_r, slice_part_sector
      by (rewrite ?zlen_replicate, ?zlen_part_get; lia).
    rewrite splice_all by (rewrite zlen_part_get; lia).
    split; [by apply zlen_part_get; lia|]. split; [|done]. intros _. split; [done|].
    apply Hin; [done|lia].
  - eexists _, _, _. split; [done|]. split; [done|]. split; [done|]. split; [done|].
    intros _ Hst Hin'. specialize (Hsucc Hst Hin'). done.
Qed.

Lemma ata_read_exact_spec s addr bytes :
  part_ok (io_ata s) -> al_wf (io_heap s) -> 0 <= addr -> 0 < bytes ->
  addr + bytes + 511 < 2 ^ 32 -> bytes < 2 ^ 31 - 8192 ->
  exists res s', ata_read_exact s addr bytes = (res, s') /\
    same_disk (io_ata s) (io_ata s') /\ (settled (io_ata s) -> settled (io_ata s')) /\
    match res with
    | None =>
        heap_eq (io_heap s) (io_heap s') /\
        (settled (io_ata s) -> in_part (io_ata s) (addr / 512) (sectors_of addr bytes) ->
         out_of_memory (io_heap s) (sectors_of addr bytes * 512))
    | Some (p, buf) =>
        p <> 0 /\ heap_plus (io_heap s) (io_heap s') p bytes /\
        buf = part_get (io_ata s) addr bytes /\
        in_part (io_ata s) (addr / 512) (sectors_of addr bytes)
    end.
Proof.
  intros Hok Hw Ha Hb Hm Hbm. unfold ata_read_exact.
  destruct (io_malloc_spec s bytes Hw ltac:(lia)) as (p & s1 & Hmal & Ha1 & Hcase).
  rewrite Hmal. destruct Hcase as [[-> ->]|[Hp Hplus]].
  { exists None, s. do 3 (split; [done|]). split; [done|]. intros _ _.
    apply io_malloc_fst in Hmal. apply (out_of_memory_here _ bytes); [done|done|].
    destruct (sectors_of_bounds addr bytes Ha Hb Hm) as (? & ? & ? & ? & ? & ? & ? & ?). lia. }
  destruct (p =? 0) eqn:Hpz; [lia|].
  destruct (ata_read_exact_into_spec s1 addr bytes p (replicate (Z.to_nat bytes) 0))
    as (ok & buf & s2 & -> & (Hh & Hd & Hset) & Hl & Hsucc & Hfail);
    [by rewrite Ha1|apply Hplus|lia|lia|lia|lia|done|rewrite zlen_replicate; lia|].
  rewrite Ha1 in *. pose proof (heap_plus_eq _ _ _ _ _ Hplus Hh) as Hplus2.
  destruct ok; cbn [negb].
  - exists (Some (p, buf)), s2. do 3 (split; [done|]). split; [done|]. split; [done|].
    by apply Hsucc.
  - destruct (io_free_spec (io_heap s) s2 p bytes ltac:(lia) Hplus2) as [Heq Ha2].
    exists None, (io_free s2 p bytes). split; [done|]. rewrite Ha2. split; [done|]. split; [done|].
    split; [done|]. intros Hst Hin.
    destruct (sectors_of_bounds addr bytes Ha Hb Hm) as (? & ? & ? & ? & ? & ? & ? & ?).
    exists (io_heap s1), (sectors_of addr bytes * 512). split; [by apply Hfail|]. split; [lia|].
    right. exists p, bytes. split; [lia|done].
Qed.

Lemma io_write_spec s lba buf n :
  part_ok (io_ata s) -> 0 <= lba -> 0 <= n -> lba + n <= 2 ^ 24 -> n * 512 <= zlen buf ->
  exists ok s' k, io_rw s lba buf n true = (ok, buf, s') /\ io_heap s' = io_heap s /\
    wrote (io_ata s) (io_ata s') (lba * 512) buf (k * 512) /\ 0 <= k <= n /\
    (settled (io_ata s) -> settled (io_ata s')) /\
    (settled (io_ata s) -> in_part (io_ata s) lba n -> 1 <= n <= 256 -> ok = true) /\
    (ok = true -> k = n) /\ (0 < k -> in_part (io_ata s) lba n) /\
    (ok = true -> in_part (io_ata s) lba n).
Proof.
  intros Hok Hl Hn Hm Hlen. unfold io_rw.
  destruct (ata_write_spec (io_ata s) lba buf n Hok Hl Hn Hm Hlen) as (ok & a & k & -> & ?).
  exists ok, (Io (io_heap s) a), k. split; [done|]. by split.
Qed.

Lemma part_ok_wrote (s1 s2 : ata) a l k : wrote s1 s2 a l k -> part_ok s1 -> part_ok s2.
Proof. intros (_ & Hb & Hp) Hok. unfold part_ok in *. by rewrite Hb, Hp. Qed.

Lemma write_chunks_spec fuel s start count i buf :
  part_ok (io_ata s) -> 0 <= start -> start + count <= 2 ^ 24 -> 0 <= i <= count ->
  count - i <= Z.of_nat fuel -> count * 512 <= zlen buf ->
  exists ok s' k, write_chunks fuel s start count i buf = (ok, s') /\
    io_heap s' = io_heap s /\ 0 <= k <= count - i /\
    wrote (io_ata s) (io_ata s') ((start + i) * 512) (slice buf (i * 512) ((count - i) * 512)) (k * 512) /\
    (settled (io_ata s) -> settled (io_ata s')) /\
    (settled (io_ata s) -> in_part (io_ata s) start count -> ok = true) /\
    (ok = true -> k = count - i /\ (i < count -> in_part (io_ata s) start count)) /\
    (0 < k -> in_part (io_ata s) start (i + k)).
Proof.
  revert s i. induction fuel as [|fuel IH]; intros s i Hok Hs Hm Hi Hf Hlen; cbn [write_chunks].
  { exists true, s, 0. split_and!; try done; try lia. apply wrote_0. }
  destruct (i <? count) eqn:Hic.
  2: { exists true, s, 0. split_and!; try done; try lia. apply wrote_0. }
  unfold ATA_MAX_SECTORS, ATA_SECTOR_SIZE.
  destruct (chunk_size count i ltac:(lia)) as (Hc & Hic2 & Hmore & Hlast).
  set (c := if count <? i + 256 then count - i else 256) in *.
  assert (zlen (slice buf (i * 512) (c * 512)) = c * 512) as Hsl by (apply zlen_slice; lia).
  assert (zlen (slice buf (i * 512) ((count - i) * 512)) = (count - i) * 512) as Hsl2
    by (apply zlen_slice; lia).
  assert (Hpre : slice buf (i * 512) (c * 512) =
                 slice (slice buf (i * 512) ((count - i) * 512)) 0 (c * 512)).
  { rewrite slice_slice by lia. f_equal. lia. }
  destruct (io_write_spec s (start + i) (slice buf (i * 512) (c * 512)) c)
    as (ok & s1 & k & -> & Hh & Hwr & Hk & Hset & Hsucc & Hkn & Hkin & Hin);
    [done|lia|lia|lia|lia|].
  rewrite Hpre in Hwr. apply wrote_prefix in Hwr; [|lia|lia].
  destruct ok; cbn [negb].
  2: { exists false, s1, k. split_and!; try done; try lia.
       - intros Hst Hinp. apply Hsucc; [done| |done]. apply (in_part_sub _ _ count); [done|lia..].
       - intros Hkpos. specialize (Hkin Hkpos). unfold in_part in *. lia. }
  assert (k = c) as -> by auto. specialize (Hin eq_refl).
  destruct (decide (i + 256 < count)) as [Hlt|Hge].
  - assert (c = 256) as Hc256 by auto. rewrite Hc256 in *.
    destruct (IH s1 (i + 256)) as (ok & s2 & k2 & -> & Hh2 & Hk2 & Hwr2 & Hset2 & Hsucc2 & Hok2 & Hkin2);
      [by eapply part_ok_wrote|lia|lia|lia|lia|lia|].
    assert (Hpart : a_part (io_ata s1) = a_part (io_ata s)) by apply Hwr.
    exists ok, s2, (256 + k2). split; [done|]. split; [congruence|]. split; [lia|]. split.
    { replace ((256 + k2) * 512) with (256 * 512 + k2 * 512) by lia.
      apply (wrote_app _ (io_ata s1)); [done|lia|lia|lia|].
      replace ((start + i) * 512 + 256 * 512) with ((start + (i + 256)) * 512) by lia.
      apply (wrote_prefix _ _ _ _ (k2 * 512)); [lia|rewrite zlen_slice; lia|].
      rewrite slice_slice by lia. destruct Hwr2 as (Hx2 & ? & ?). split; [|done].
      intros x. rewrite Hx2, !slice_slice by lia. do 2 f_equal. lia. }
    split; [auto|]. split.
    { intros Hst Hinp. apply Hsucc2; [auto|]. by eapply in_part_same. }
    split.
    { intros Ht. destruct (Hok2 Ht) as [-> Hin2]. split; [lia|]. intros _.
      eapply in_part_same; [symmetry; exact Hpart|]. apply Hin2. lia. }
    intros _. destruct (decide (0 < k2)) as [Hp2|Hp2].
    + replace (i + (256 + k2)) with (i + 256 + k2) by lia.
      eapply in_part_same; [symmetry; exact Hpart|]. by apply Hkin2.
    + unfold in_part in *. lia.
  - assert (c = count - i) as Hcc by lia. rewrite Hcc in *.
    assert (Hstop : write_chunks fuel s1 start count (i + 256) buf = (true, s1)).
    { destruct fuel; cbn [write_chunks]; [done|]. destruct (i + 256 <? count) eqn:?; [lia|done]. }
    rewrite Hstop. exists true, s1, (count - i). split_and!; try done; try lia.
    + intros _. split; [done|]. intros _. unfold in_part in *. lia.
    + intros _. unfold in_part in *. lia.
Qed.

Lemma ata_write_exact_spec s addr buf size :
  part_ok (io_ata s) -> 0 <= addr < 2 ^ 32 -> 0 < size <= zlen buf -> size < 2 ^ 31 ->
  addr mod 512 = 0 -> size mod 512 = 0 ->
  exists ok s' k, ata_write_exact s addr buf size = (ok, s') /\ io_heap s' = io_heap s /\
    0 <= k <= size /\ k mod 512 = 0 /\ wrote (io_ata s) (io_ata s') addr buf k /\
    (settled (io_ata s) -> settled (io_ata s')) /\
    (settled (io_ata s) -> in_part (io_ata s) (addr / 512) (size / 512) -> ok = true) /\
    (ok = true -> k = size /\ in_part (io_ata s) (addr / 512) (size / 512)) /\
    (0 < k -> in_part (io_ata s) (addr / 512) (k / 512)).
Proof.
  intros Hok Ha Hs Hm Hal Hsl. unfold ata_write_exact.
  destruct (size <? 0) eqn:?; [lia|]. destruct (size =? 0) eqn:?; [lia|].
  unfold ATA_SECTOR_SIZE. rewrite Hal, Hsl. cbn [Z.eqb negb].
  pose proof (Z.div_mod addr 512 ltac:(lia)). pose proof (Z.div_mod size 512 ltac:(lia)).
  destruct (write_chunks_spec (Z.to_nat (size / 512)) s (addr / 512) (size / 512) 0 buf)
    as (ok & s' & k & -> & Hh & Hk & Hwr & Hset & Hsucc & Hv & Hin);
    [done|lia|lia|lia|lia|lia|].
  exists ok, s', (k * 512). split; [done|]. split; [done|]. split; [lia|].
  split; [by rewrite Z.mod_mul|]. split.
  { apply (wrote_prefix _ _ _ _ size); [lia|lia|].
    replace addr with ((addr / 512 + 0) * 512) at 1 by lia.
    replace (slice buf 0 size) with (slice buf (0 * 512) ((size / 512 - 0) * 512)) by (f_equal; lia).
    done. }
  split; [done|]. split; [done|]. split.
  - intros Ht. destruct (Hv Ht) as [-> Hinp]. split; [lia|]. apply Hinp. lia.
  - intros Hp. rewrite Z.div_mul by lia. apply Hin. lia.
Qed.

(** Reading a range of the partition gives its bytes in a new buffer, or NULL
    with every page given back; it changes nothing on the disk, and it fails only
    when the drive reports a failure, the range leaves the partition or the
    kernel heap is exhausted. *)
Theorem ata_read_exact_correct s addr bytes :
  part_ok (io_ata s) -> al_wf (io_heap s) -> 0 <= addr -> 0 < bytes ->
  addr + bytes + 511 < 2 ^ 32 -> bytes < 2 ^ 31 - 8192 ->
  exists res s', ata_read_exact s addr bytes = (res, s') /\ same_disk (io_ata s) (io_ata s') /\
    match res with
    | None =>
        heap_eq (io_heap s) (io_heap s') /\
        (settled (io_ata s) -> in_part (io_ata s) (addr / 512) (sectors_of addr bytes) ->
         out_of_memory (io_heap s) (sectors_of addr bytes * 512))
    | Some (p, buf) =>
        heap_plus (io_heap s) (io_heap s') p bytes /\ buf = part_get (io_ata s) addr bytes
    end.
Proof.
  intros Hok Hw Ha Hb Hm Hbm.
  destruct (ata_read_exact_spec s addr bytes Hok Hw Ha Hb Hm Hbm) as (res & s' & He & Hd & _ & Hr).
  exists res, s'. split; [done|]. split; [done|]. destruct res as [[p buf]|]; [|done].
  by destruct Hr as (_ & ? & ? & _).
Qed.

(** C37: whatever the request and however the drive fails, a write changes bytes of
    the requested range only, inside the partition only, and what it has written
    when it stops is a prefix of the buffer; the whole of it on success. *)
Theorem ata_write_exact_confined s addr buf size ok s' :
  part_ok (io_ata s) -> 0 <= addr < 2 ^ 32 -> size <= zlen buf -> size < 2 ^ 31 ->
  ata_write_exact s addr buf size = (ok, s') ->
  exists k, 0 <= k <= Z.max 0 size /\ wrote (io_ata s) (io_ata s') addr buf k /\
    (ok = true -> k = Z.max 0 size) /\
    (a_part (io_ata s) <> 0 ->
     forall x, a_disk (io_ata s') x <> a_disk (io_ata s) x ->
       a_base (io_ata s) * 512 <= x < (a_base (io_ata s) + a_part (io_ata s)) * 512).
Proof.
  intros Hok Ha Hs Hm He. unfold ata_write_exact in He.
  assert (Hsame : forall b, (b, s) = (ok, s') -> b = false \/ size = 0 ->
    exists k, 0 <= k <= Z.max 0 size /\ wrote (io_ata s) (io_ata s') addr buf k /\
    (ok = true -> k = Z.max 0 size) /\
    (a_part (io_ata s) <> 0 -> forall x, a_disk (io_ata s') x <> a_disk (io_ata s) x ->
       a_base (io_ata s) * 512 <= x < (a_base (io_ata s) + a_part (io_ata s)) * 512)).
  { intros b Hb Hsz. simplify_eq. exists 0. split; [lia|]. split; [apply wrote_0|]. split; [|done].
    destruct Hsz as [->| ->]; [done|lia]. }
  destruct (size <? 0) eqn:Hneg; [by apply (Hsame false); [|left]|].
  destruct (size =? 0) eqn:H0s; [by apply (Hsame true); [|right; lia]|].
  destruct (negb (size mod ATA_SECTOR_SIZE =? 0)) eqn:Hsm; [by apply (Hsame false); [|left]|].
  destruct (negb (addr mod ATA_SECTOR_SIZE =? 0)) eqn:Ham; [by apply (Hsame false); [|left]|].
  unfold ATA_SECTOR_SIZE in *. clear Hsame.
  destruct (ata_write_exact_spec s addr buf size Hok Ha ltac:(lia) Hm ltac:(lia) ltac:(lia))
    as (ok2 & s2 & k & He2 & _ & Hk & Hkm & Hw & _ & _ & Hv & Hin).
  unfold ata_write_exact in He2. rewrite Hneg, H0s in He2. unfold ATA_SECTOR_SIZE in He2.
  rewrite Hsm, Ham in He2. rewrite He in He2. simplify_eq.
  exists k. split; [lia|]. split; [done|]. split.
  { intros Ht. destruct (Hv Ht) as [-> _]. lia. }
  intros Hp x Hx. destruct Hw as (Hwx & _). rewrite Hwx in Hx.
  destruct (decide (part_addr (io_ata s) addr <= x < part_addr (io_ata s) addr + zlen (slice buf 0 k)))
    as [Hxin|Hxin]; [|by rewrite disk_put_out in Hx].
  rewrite zlen_slice in Hxin by lia. unfold part_addr in Hxin.
  destruct (Hin ltac:(lia)) as (Hi1 & Hi2 & _ & Hi4). specialize (Hi4 Hp).
  pose proof (Z.div_mod addr 512 ltac:(lia)). pose proof (Z.div_mod k 512 ltac:(lia)).
  pose proof (Z.mod_pos_bound k 512 ltac:(lia)).
  destruct Hok as (Hb & _). lia.
Qed.

(** What was written is what is read back, in whole or in part. *)
Theorem ata_write_read s addr buf size s1 o n p l s2 :
  part_ok (io_ata s) -> al_wf (io_heap s) -> 0 <= addr -> 0 <= size <= zlen buf ->
  addr + size + 511 < 2 ^ 32 -> size < 2 ^ 31 - 8192 -> 0 <= o -> 0 < n -> o + n <= size ->
  ata_write_exact s addr buf size = (true, s1) ->
  ata_read_exact s1 (addr + o) n = (Some (p, l), s2) ->
  l = slice buf o n.
Proof.
  intros Hok Hw Ha Hs Hm Hsm Ho Hn Hon He1 He2.
  assert (Hmod : addr mod 512 = 0 /\ size mod 512 = 0).
  { unfold ata_write_exact, ATA_SECTOR_SIZE in He1.
    destruct (size <? 0) eqn:?; [lia|]. destruct (size =? 0) eqn:?; [lia|].
    destruct (size mod 512 =? 0) eqn:?; cbn [negb] in He1; [|done].
    destruct (addr mod 512 =? 0) eqn:?; cbn [negb] in He1; [lia|done]. }
  destruct (ata_write_exact_spec s addr buf size) as
    (ok & s1' & k & He1' & Hh & Hk & Hkm & Hwr & _ & _ & Hv & _); [done|lia|lia|lia|apply Hmod..|].
  rewrite He1 in He1'. simplify_eq. destruct (Hv eq_refl) as [-> _].
  destruct (ata_read_exact_spec s1' (addr + o) n) as (res & s2' & He2' & _ & _ & Hres);
    [by eapply part_ok_wrote|by rewrite Hh|lia|lia|lia|lia|].
  rewrite He2 in He2'. simplify_eq. destruct Hres as (_ & _ & -> & _).
  destruct Hwr as (Hx & Hb & _).
  apply (zget_ext_len _ _ n); [by apply zlen_part_get; lia|by apply zlen_slice; lia|].
  intros i Hi. unfold part_get. rewrite zget_disk_get, zget_slice by lia. rewrite Hx.
  unfold part_addr in *. rewrite Hb.
  rewrite disk_put_in by (rewrite zlen_slice; lia).
  unfold byte_at. rewrite zget_slice by lia.
  replace (0 + (a_base (io_ata s) * 512 + (addr + o) + i - (a_base (io_ata s) * 512 + addr)))
    with (o + i) by lia.
  by destruct (zget_is_Some buf (o + i) ltac:(lia)) as [b ->].
Qed.

End transfer_lemmas.

(** ** Partition detection *)

Definition disk_bytes_ok (s : ata) : Prop := forall x, 0 <= a_disk s x < 256.

Definition buf_ok (l : list Z) : Prop := forall i, 0 <= byte_at l i < 256.

Lemma le16_range l o : buf_ok l -> 0 <= le16 l o < 2 ^ 16.
Proof. intros Hb. unfold le16. pose proof (Hb o). pose proof (Hb (o + 1)). lia. Qed.

Lemma le32_range l o : buf_ok l -> 0 <= le32 l o < 2 ^ 32.
Proof.
  intros Hb. unfold le32. pose proof (le16_range l o Hb). pose proof (le16_range l (o + 2) Hb). lia.
Qed.

Lemma le64_nonneg l o : buf_ok l -> 0 <= le64 l o.
Proof.
  intros Hb. unfold le64. pose proof (le32_range l o Hb). pose proof (le32_range l (o + 4) Hb). lia.
Qed.

Lemma buf_ok_splice l b : buf_ok l -> buf_ok b -> zlen b <= zlen l -> buf_ok (splice l 0 b).
Proof.
  intros Hl Hb Hlen i. unfold byte_at. rewrite zget_splice by lia. case_decide; [apply Hb|apply Hl].
Qed.

Lemma buf_ok_zero : buf_ok zero_sector.
Proof.
  intros i. unfold byte_at, zero_sector. destruct (zget _ i) as [b|] eqn:Hb; simpl; [|lia].
  unfold zget in Hb. zcase; [|done]. apply lookup_replicate in Hb as [-> _]. lia.
Qed.

Lemma buf_ok_disk_get f a n : (forall x, 0 <= f x < 256) -> buf_ok (disk_get f a n).
Proof.
  intros Hf i. unfold byte_at. destruct (decide (0 <= i < n)).
  - rewrite zget_disk_get by lia. apply Hf.
  - destruct (decide (0 <= n)).
    + rewrite zget_None by (rewrite zlen_disk_get; lia). simpl. lia.
    + Transparent disk_get. unfold disk_get. replace (Z.to_nat n) with O by lia. simpl.
      rewrite zget_None by (rewrite zlen_nil; lia). simpl. lia.
Qed.

#[global] Opaque disk_get.

Lemma rw_sectors_bytes n i s lba buf ok buf' s' :
  disk_bytes_ok s -> buf_ok buf -> 0 <= i -> (i + Z.of_nat n) * 512 <= zlen buf ->
  rw_sectors n i s lba buf false = (ok, buf', s') ->
  buf_ok buf' /\ zlen buf' = zlen buf /\ same_disk s s'.
Proof.
  revert i s buf. induction n as [|n IH]; intros i s buf Hd Hb Hi Hl He; cbn [rw_sectors] in He.
  { by simplify_eq. }
  destruct (wait_sector_spec s) as (ready & s1 & Hw & Hs1 & _). rewrite Hw in He.
  destruct ready; cbn [negb] in He; [|by simplify_eq].
  assert (zlen (disk_get (a_disk s1) ((lba + i) * ATA_SECTOR_SIZE) ATA_SECTOR_SIZE) = 512) as Hsec
    by (apply zlen_disk_get; unfold ATA_SECTOR_SIZE; lia).
  assert (Hlen : forall b, zlen b = 512 -> zlen (splice buf (i * ATA_SECTOR_SIZE) b) = zlen buf).
  { intros b Hbl. apply zlen_splice; unfold ATA_SECTOR_SIZE; lia. }
  apply IH in He as (Hb' & Hl' & Hs').
  - split; [done|]. split; [rewrite Hl'; by apply Hlen|]. by eapply same_disk_trans.
  - intros x. destruct Hs1 as (-> & _). apply Hd.
  - intros j. unfold byte_at. unfold ATA_SECTOR_SIZE in *. rewrite zget_splice by lia.
    case_decide; [|apply Hb]. apply buf_ok_disk_get. intros x. destruct Hs1 as (-> & _). apply Hd.
  - lia.
  - rewrite Hlen by done. lia.
Qed.

Lemma ata_read1_bytes s lba buf ok buf' s' :
  disk_bytes_ok s -> buf_ok buf -> zlen buf = 512 ->
  ata_readwrite s lba buf 1 false = (ok, buf', s') ->
  buf_ok buf' /\ zlen buf' = 512 /\ same_disk s s'.
Proof.
  intros Hd Hb Hl. unfold ata_readwrite.
  destruct (_ && _); [intros; by simplify_eq|].
  change ((1 =? 0) || (ATA_MAX_SECTORS <? 1)) with false. cbn [Z.to_nat].
  destruct (rw_sectors _ _ _ _ _ _) as [[ok1 buf1] s1] eqn:Hrw.
  apply rw_sectors_bytes in Hrw as (Hb1 & Hl1 & Hs1); [|done..|lia|lia].
  destruct ok1; intros; simplify_eq/=; (split; [done|]; split; [lia|done]).
Qed.

Lemma gpt_entries_ok n i s start esz per sector b s' :
  disk_bytes_ok s -> buf_ok sector -> zlen sector = 512 ->
  gpt_entries n i s start esz per sector = (b, s') ->
  if b then part_ok s' else same_disk s s'.
Proof.
  revert i s sector. induction n as [|n IH]; intros i s sector Hd Hb Hl He; cbn [gpt_entries] in He.
  { by simplify_eq. }
  destruct (if i mod per =? 0 then _ else _) as [[ok sector1] s1] eqn:Hrd.
  assert (Hs1 : buf_ok sector1 /\ zlen sector1 = 512 /\ same_disk s s1).
  { destruct (i mod per =? 0); [|by simplify_eq]. by eapply ata_read1_bytes. }
  destruct Hs1 as (Hb1 & Hl1 & Hd1).
  destruct ok; cbn [negb] in He; [|by simplify_eq].
  destruct (bool_decide _); cbn [negb] in He.
  2: { apply IH in He; [|intros x; destruct Hd1 as (-> & _); apply Hd|done..].
       destruct b; [done|]. by eapply same_disk_trans. }
  pose proof (le64_nonneg sector1 (i mod per * esz + 32) Hb1).
  destruct (_ <? _) eqn:H1; [by simplify_eq|]. destruct (2 ^ 28 <=? _) eqn:H2; [by simplify_eq|].
  simplify_eq. unfold part_ok. simpl. rewrite !u32_id by lia. lia.
Qed.

Lemma ata_check_gpt_ok s b s' :
  disk_bytes_ok s -> ata_check_gpt s = (b, s') -> if b then part_ok s' else same_disk s s'.
Proof.
  intros Hd. unfold ata_check_gpt.
  destruct (ata_readwrite s 1 zero_sector 1 false) as [[ok1 m1] s1] eqn:H1.
  destruct (ata_read1_bytes _ _ _ _ _ _ Hd buf_ok_zero ltac:(done) H1) as (Hm1 & Hl1 & Hs1).
  destruct (negb ok1); [intros; by simplify_eq|].
  destruct (negb _); [intros; by simplify_eq|].
  destruct (_ || _); [intros; by simplify_eq|].
  destruct (128 <? _); [intros; by simplify_eq|].
  intros He. apply gpt_entries_ok in He; [|intros x; destruct Hs1 as (-> & _); apply Hd|done..].
  destruct b; [done|]. by eapply same_disk_trans.
Qed.

Lemma mbr_entries_ok n i m any base sectors any' :
  buf_ok m -> mbr_entries n i m any = (Some (Some (base, sectors)), any') ->
  is_u32 base /\ is_u32 sectors /\ sectors <> 0 /\ u32 (base + sectors) <= 2 ^ 28.
Proof.
  intros Hm. revert i any. induction n as [|n IH]; intros i any He; cbn [mbr_entries] in He; [done|].
  destruct (_ =? 0) in He; [by eapply IH|].
  destruct (negb _) in He; [by eapply IH|].
  destruct ((_ =? 0) || _) eqn:Hc in He; [done|]. simplify_eq.
  unfold is_u32. pose proof (le32_range m (446 + i * 16 + 8) Hm).
  pose proof (le32_range m (446 + i * 16 + 12) Hm). lia.
Qed.

(** The partition the kernel boots from lies in the sectors the drive can
    address; the only other one it accepts is an MBR slot whose first sector and
    length overflow 32 bits when they are added. *)
Theorem ata_find_partition_ok (s s' : ata) :
  disk_bytes_ok s -> a_base s = 0 -> a_part s = 0 -> ata_find_partition s = (true, s') ->
  part_ok s' \/ 2 ^ 32 <= a_base s' + a_part s'.
Proof.
  intros Hd Hb0 Hp0. unfold ata_find_partition.
  destruct (ata_check_gpt s) as [[|] s1] eqn:Hg; apply ata_check_gpt_ok in Hg; [|done| |done].
  { intros He. simplify_eq. by left. }
  assert (Hd1 : disk_bytes_ok s1) by (intros x; destruct Hg as (-> & _); apply Hd).
  assert (Hp1 : a_part s1 = 0) by (destruct Hg as (_ & _ & ->); done).
  clear Hg Hb0 Hp0 Hd. unfold ata_check_mbr.
  destruct (ata_readwrite _ 0 zero_sector 1 false) as [[ok2 m2] s2] eqn:H2.
  assert (Hs2 : buf_ok m2 /\ zlen m2 = 512 /\ same_disk (with_partition s1 0 (a_part s1)) s2).
  { by eapply ata_read1_bytes; [|exact buf_ok_zero| |exact H2]. }
  destruct Hs2 as (Hm2 & _ & _ & Hb2 & Hp2). simpl in Hb2, Hp2.
  destruct (negb ok2); [done|]. destruct (_ || _); [done|].
  destruct (mbr_entries 4 0 m2 false) as [[[[base sectors]|]|] any] eqn:Hm; intros He; simplify_eq.
  - destruct (mbr_entries_ok _ _ _ _ _ _ _ Hm2 Hm) as (Hbr & Hsr & Hs0 & Hsum).
    unfold is_u32 in *. unfold part_ok. simpl.
    destruct (decide (2 ^ 32 <= base + sectors)); [by right|]. rewrite u32_id in Hsum by lia. lia.
  - left. unfold part_ok. rewrite Hb2, Hp2, Hp1. lia.
Qed.

(** The second case happens: an MBR with the slot (0xFFFFFFFF, 2). *)
Definition mbr_wrap_disk : Z -> Z :=
  disk_put (fun _ => 0) 446
    (replicate 4 0 ++ [127; 0; 0; 0] ++ [255; 255; 255; 255] ++ [2; 0; 0; 0] ++ replicate 48 0 ++ [85; 170]).

Lemma mbr_wrap_accepted :
  ata_find_partition (Ata mbr_wrap_disk [] 0 0) = (true, Ata mbr_wrap_disk [] (2 ^ 32 - 1) 2).
Proof. vm_compute. reflexivity. Qed.

(** ** Witnesses: a partition of 50 sectors, and a drive that fails at the second sector *)

Definition demo_disk : Z -> Z := fun x => x mod 251.

Definition demo_io : io heap := Io heap_init (Ata demo_disk [] 100 50).

Definition demo_failing : io heap := Io heap_init (Ata demo_disk [72; 72; 72; 1] 100 50).

Definition demo_buf : list Z := replicate 1024 7.

Lemma demo_part_ok st : part_ok (Ata demo_disk st 100 50).
Proof. unfold part_ok. simpl. lia. Qed.

Lemma ata_read_exact_correct_witness :
  exists p buf s', ata_read_exact demo_io 700 100 = (Some (p, buf), s') /\
    zget buf 3 = Some ((100 * 512 + 703) mod 251).
Proof.
  pose proof (ata_read_exact_correct demo_io 700 100 (demo_part_ok []) heap_init_wf
    ltac:(lia) ltac:(lia) ltac:(lia) ltac:(lia)) as Hr.
  destruct Hr as (res & s' & He & _ & Hr).
  assert (Hs : bool_decide (is_Some (fst (ata_read_exact demo_io 700 100))) = true) by (vm_compute; reflexivity).
  rewrite He in Hs. destruct res as [[p buf]|]; [|discriminate Hs].
  exists p, buf, s'. split; [exact He|]. destruct Hr as [_ ->]. vm_compute. reflexivity.
Defined.

Lemma ata_write_exact_confined_witness :
  exists s', ata_write_exact demo_failing 0 demo_buf 1024 = (false, s') /\
    a_disk (io_ata s') (100 * 512 + 511) = 7 /\
    a_disk (io_ata s') (100 * 512 + 512) = demo_disk (100 * 512 + 512) /\
    exists k, 0 <= k <= 1024 /\ wrote (io_ata demo_failing) (io_ata s') 0 demo_buf k.
Proof.
  assert (Hb : fst (ata_write_exact demo_failing 0 demo_buf 1024) = false) by (vm_compute; reflexivity).
  destruct (ata_write_exact demo_failing 0 demo_buf 1024) as [ok s'] eqn:He. simpl in Hb. subst ok.
  exists s'. split; [reflexivity|].
  assert (Hs : s' = snd (ata_write_exact demo_failing 0 demo_buf 1024)) by (rewrite He; reflexivity).
  split; [rewrite Hs; vm_compute; reflexivity|]. split; [rewrite Hs; vm_compute; reflexivity|].
  destruct (ata_write_exact_confined demo_failing 0 demo_buf 1024 false s') as (k & Hk & Hw & _).
  - exact (demo_part_ok _).
  - lia.
  - unfold demo_buf. rewrite zlen_replicate. lia.
  - lia.
  - exact He.
  - exists k. split; [lia|exact Hw].
Defined.

Lemma ata_write_read_witness :
  exists p s2, ata_read_exact (snd (ata_write_exact demo_io 512 demo_buf 1024)) (512 + 300) 400 =
    (Some (p, slice demo_buf 300 400), s2).
Proof.
  assert (Hb : fst (ata_write_exact demo_io 512 demo_buf 1024) = true) by (vm_compute; reflexivity).
  destruct (ata_write_exact demo_io 512 demo_buf 1024) as [ok s1] eqn:He. simpl in Hb. subst ok.
  assert (Hs : s1 = snd (ata_write_exact demo_io 512 demo_buf 1024)) by (rewrite He; reflexivity).
  assert (Hr : bool_decide (is_Some (fst (ata_read_exact s1 (512 + 300) 400))) = true).
  { rewrite Hs. vm_compute. reflexivity. }
  destruct (ata_read_exact s1 (512 + 300) 400) as [[[p l]|] s2] eqn:He2; [|discriminate Hr].
  exists p, s2. simpl. rewrite He2. do 3 f_equal.
  refine (ata_write_read demo_io 512 demo_buf 1024 s1 300 400 p l s2 _ _ _ _ _ _ _ _ _ He He2);
    try lia; [exact (demo_part_ok _)|exact heap_init_wf|].
  unfold demo_buf. rewrite zlen_replicate. lia.
Defined.

(** A GPT with one entry of the kernel's type, sectors 2048 to 4095. *)
Definition gpt_disk : Z -> Z :=
  disk_put (disk_put (fun _ => 0) 512
    (EFI_PART ++ replicate 64 0 ++ [2; 0; 0; 0; 0; 0; 0; 0; 1; 0; 0; 0; 128; 0; 0; 0])) 1024
    (GPT_TYPE_GUID ++ replicate 16 0 ++ [0; 8; 0; 0; 0; 0; 0; 0; 255; 15; 0; 0; 0; 0; 0; 0]).

Lemma gpt_disk_bytes : disk_bytes_ok (Ata gpt_disk [] 0 0).
Proof.
  assert (Hput : forall f a l, (forall x, 0 <= f x < 256) -> Forall (fun b => 0 <= b < 256) l ->
    forall x, 0 <= disk_put f a l x < 256).
  { intros f a l Hf Hl x. unfold disk_put. destruct (_ && _); [|apply Hf].
    unfold byte_at, zget. destruct (0 <=? _); [|simpl; lia].
    destruct (l !! _) as [b|] eqn:Hb; simpl; [|lia]. by eapply (Forall_lookup_1 _ _ _ _ Hl). }
  intros x. simpl. unfold gpt_disk. apply Hput; [apply Hput|].
  - intros; lia.
  - vm_compute. repeat constructor; discriminate.
  - vm_compute. repeat constructor; discriminate.
Qed.

Lemma ata_find_partition_ok_witness :
  ata_find_partition (Ata gpt_disk [] 0 0) = (true, Ata gpt_disk [] 2048 2048) /\
  (part_ok (Ata gpt_disk [] 2048 2048) \/ 2 ^ 32 <= 2048 + 2048).
Proof.
  assert (He : ata_find_partition (Ata gpt_disk [] 0 0) = (true, Ata gpt_disk [] 2048 2048))
    by (vm_compute; reflexivity).
  split; [exact He|].
  exact (ata_find_partition_ok (Ata gpt_disk [] 0 0) _ gpt_disk_bytes eq_refl eq_refl He).
Defined.
