(* ===== verification/TaskMem.v ===== *)
(** * User memory seen by the kernel (tasks.c)

    The checks the kernel makes on addresses that a task passes to it, the lazy
    allocation of heap pages, and the copies in and out of a task. The state adds
    the bytes of physical memory to the page tables of Paging; a copy goes through
    the task's page directory byte by byte, and a byte that is not mapped is a
    page fault ([None]). What the file system relies on is the class
    [UserBuffer]; the instance for this model is at the end. *)

From S2P Require Import Prelude CString Memory Paging.

Local Open Scope Z_scope.

(** What the functions use of a task: its directory and its heap, which is
    demand paged. *)
Record tspace := TSpace { t_dir : Z; heap_start : Z; heap_end : Z }.

Section task_memory.
Context {H : Type} `{Allocator H}.

Record tmem := TMem { tm_pg : pstate H; tm_bytes : Z -> Z }.

Definition tm_with_pg (s : tmem) (pg : pstate H) : tmem := TMem pg (tm_bytes s).

Definition task_addr_demand_paged (t : tspace) (addr : Z) : bool :=
  (heap_start t <=? addr) && (addr <? heap_end t).

(** [memset(page, 0, PAGE_SIZE)] on physical memory. *)
Definition zero_page (f : Z -> Z) (page : Z) : Z -> Z :=
  fun a => if (page <=? a) && (a <? page + PAGE_SIZE) then 0 else f a.

Definition task_demand_map (s : tmem) (t : tspace) (addr : Z) : option (bool * tmem) :=
  let addr := page_align_down addr in
  mapping ← page_checkmapping (tm_pg s) (t_dir t) addr;
  if mapping =? PAGE_USERRW then Some (true, s)
  else if negb (mapping =? PAGE_NOTPRESENT) then Some (false, s)
  else
    let '(page, h) := al_malloc (ps_heap (tm_pg s)) PAGE_SIZE in
    if page =? NULL then Some (false, s)
    else
      let s := TMem (set_heap (tm_pg s) h) (zero_page (tm_bytes s) page) in
      '(ok, pg) ← map (tm_pg s) (t_dir t) page addr 1 1 0;
      if negb ok
      then Some (false, tm_with_pg s (set_heap pg (al_free (ps_heap pg) page PAGE_SIZE)))
      else Some (true, tm_with_pg s (invlpg pg addr)).

(** Page [i] of the area at [vaddr]. *)
Definition area_page (vaddr i : Z) : Z := u32 (page_align_down vaddr + i * PAGE_SIZE).

Definition area_pages (vaddr size : Z) : Z :=
  u32 (size + vaddr mod PAGE_SIZE + (PAGE_SIZE - 1)) / PAGE_SIZE.

Fixpoint prefault_loop (n : nat) (i : Z) (s : tmem) (t : tspace) (vaddr size : Z)
    : option (Z * tmem) :=
  match n with
  | O => Some (size, s)
  | S n =>
      let page_addr := area_page vaddr i in
      mapping ← page_checkmapping (tm_pg s) (t_dir t) page_addr;
      if mapping =? PAGE_USERRW then prefault_loop n (i + 1) s t vaddr size
      else
        '(ok, s) ← (if task_addr_demand_paged t page_addr then task_demand_map s t page_addr
                    else Some (false, s));
        if (ok : bool) then prefault_loop n (i + 1) s t vaddr size
        else Some (if i =? 0 then 0 else s32 (u32 (page_addr - vaddr)), s)
  end.

Definition task_prefault (s : tmem) (t : tspace) (vaddr size : Z) : option (Z * tmem) :=
  prefault_loop (Z.to_nat (area_pages vaddr size)) 0 s t vaddr size.

(** A page that a user access of the kind [rw] may touch. *)
Definition page_allowed (s : tmem) (t : tspace) (page_addr check : Z) (rw : bool) : option bool :=
  mapping ← page_checkmapping (tm_pg s) (t_dir t) page_addr;
  Some (negb ((mapping <? check) && negb (rw && task_addr_demand_paged t page_addr))).

(** The loop over the pages of an area that stops at the first one not allowed:
    the number of pages before it. *)
Fixpoint scan_pages (n : nat) (i : Z) (s : tmem) (t : tspace) (vaddr check : Z) (rw : bool)
    : option Z :=
  match n with
  | O => Some i
  | S n =>
      ok ← page_allowed s t (area_page vaddr i) check rw;
      if ok : bool then scan_pages n (i + 1) s t vaddr check rw else Some i
  end.

Definition rw_check (rw : bool) : Z := if rw then PAGE_USERRW else PAGE_USERREAD.

Definition task_validate_mem (s : tmem) (t : tspace) (vaddr len : Z) (rw : bool) : option bool :=
  if len <? 0 then Some false
  else if len =? 0 then Some true
  else
    let maxpages := area_pages vaddr len in
    k ← scan_pages (Z.to_nat maxpages) 0 s t vaddr (rw_check rw) rw;
    Some (k =? maxpages).

Definition task_validate_maxsize (s : tmem) (t : tspace) (vaddr max : Z) (rw : bool) : option Z :=
  if max <? 0 then Some (-1)
  else if max =? 0 then Some 0
  else
    let maxpages := area_pages vaddr max in
    maxpages ← scan_pages (Z.to_nat maxpages) 0 s t vaddr (rw_check rw) rw;
    if maxpages =? 0 then Some 0
    else
      let maxsize := s32 (maxpages * PAGE_SIZE - vaddr mod PAGE_SIZE) in
      Some (if maxsize <? max then maxsize else max).

(** The physical address the processor finds in [dir]; [None] is a page fault. *)
Definition user_addr (pg : pstate H) (dir vaddr : Z) : option Z :=
  e ← translate pg dir (vaddr / PAGE_SIZE);
  Some (address e * PAGE_SIZE + vaddr mod PAGE_SIZE).

Definition user_read (s : tmem) (dir vaddr : Z) : option Z :=
  p ← user_addr (tm_pg s) dir vaddr; Some (tm_bytes s p).

Fixpoint user_strnlen (n : nat) (s : tmem) (dir vaddr len : Z) : option Z :=
  match n with
  | O => Some len
  | S n =>
      c ← user_read s dir (u32 (vaddr + len));
      if c =? 0 then Some len else user_strnlen n s dir vaddr (len + 1)
  end.

Definition task_validate_str (s : tmem) (t : tspace) (vaddr maxlen : Z) : option Z :=
  if maxlen <? 0 then Some (-1)
  else if maxlen =? 0 then Some 0
  else
    maxpages ← scan_pages (Z.to_nat (area_pages vaddr maxlen)) 0 s t vaddr PAGE_USERREAD false;
    if maxpages =? 0 then Some (-1)
    else
      let mappedsize := s32 (maxpages * PAGE_SIZE - vaddr mod PAGE_SIZE) in
      let limit := if mappedsize <? maxlen then mappedsize else maxlen in
      len ← user_strnlen (Z.to_nat limit) s (t_dir t) vaddr 0;
      if len =? limit then Some (if limit <? maxlen then -1 else -2)
      else Some len.

(** [memcpy] into, and out of, the address space [dir]. *)
Fixpoint user_write (pg : pstate H) (f : Z -> Z) (dir dest : Z) (l : list Z) : option (Z -> Z) :=
  match l with
  | [] => Some f
  | b :: l =>
      p ← user_addr pg dir (u32 dest);
      user_write pg (fun a => if a =? p then b else f a) dir (dest + 1) l
  end.

Fixpoint user_read_n (n : nat) (s : tmem) (dir src : Z) : option (list Z) :=
  match n with
  | O => Some []
  | S n =>
      b ← user_read s dir (u32 src);
      l ← user_read_n n s dir (src + 1);
      Some (b :: l)
  end.

(** The directory is switched to the task's and back, when they differ. *)
Definition swap_twice (pg : pstate H) (dir : Z) : pstate H :=
  if dir =? ps_current pg then pg else swap_pagedir (swap_pagedir pg dir) (ps_current pg).

(** The number of bytes copied, or -1. *)
Definition copy_to_task (s : tmem) (t : tspace) (dest : Z) (src : list Z) : option (Z * tmem) :=
  let size := zlen src in
  maxsize ← task_validate_maxsize s t dest size true;
  if (maxsize <? 0) || ((0 <? size) && (maxsize =? 0)) then Some (-1, s)
  else
    '(maxsize, s) ← task_prefault s t dest maxsize;
    if (0 <? size) && (maxsize =? 0) then Some (-1, s)
    else
      f ← user_write (tm_pg s) (tm_bytes s) (t_dir t) dest (take (Z.to_nat maxsize) src);
      Some (maxsize, TMem (swap_twice (tm_pg s) (t_dir t)) f).

(** The bytes copied, or [None] inside for -1. *)
Definition copy_from_task (s : tmem) (t : tspace) (src size : Z) : option (option (list Z) * tmem) :=
  maxsize ← task_validate_maxsize s t src size false;
  if (maxsize <? 0) || ((0 <? size) && (maxsize =? 0)) then Some (None, s)
  else
    l ← user_read_n (Z.to_nat maxsize) s (t_dir t) src;
    Some (Some l, tm_with_pg s (swap_twice (tm_pg s) (t_dir t))).

End task_memory.

(** ** Specification *)

Section task_memory_spec.
Context {H : Type} `{Allocator H}.
Implicit Types (s : tmem (H := H)) (t : tspace).

Record tm_ok s t : Prop := {
  to_wf : pages_wf (tm_pg s);
  to_dir : is_Some (get_dir (tm_pg s) (t_dir t)) }.

(** The permission of page [vp] of the task. *)
Definition perm s t (vp : Z) : Z := perm_of (translate (tm_pg s) (t_dir t) vp).

(** A user access may touch page [vp]: it has the permission, or it is written
    and belongs to the demand paged heap. *)
Definition allowed s t (rw : bool) (vp : Z) : Prop :=
  rw_check rw <= perm s t vp \/ (rw = true /\ heap_start t <= vp * 4096 < heap_end t).

(** The frames behind the pages [P] of the task are in use and pairwise distinct. *)
Definition frames_ok s t (P : Z -> Prop) : Prop :=
  (forall vp e, P vp -> translate (tm_pg s) (t_dir t) vp = Some e ->
     al_used (ps_heap (tm_pg s)) (address e)) /\
  (forall vp1 vp2 e1 e2, P vp1 -> P vp2 ->
     translate (tm_pg s) (t_dir t) vp1 = Some e1 -> translate (tm_pg s) (t_dir t) vp2 = Some e2 ->
     address e1 = address e2 -> vp1 = vp2).

(** What demand paging may do to the memory of a task: fill absent pages with
    fresh zeroed frames. *)
Record fills s s' t : Prop := {
  fl_ok : tm_ok s' t;
  fl_some vp e : translate (tm_pg s) (t_dir t) vp = Some e ->
    translate (tm_pg s') (t_dir t) vp = Some e;
  fl_other d vp : d <> t_dir t -> translate (tm_pg s') d vp = translate (tm_pg s) d vp;
  fl_new vp e : translate (tm_pg s) (t_dir t) vp = None ->
    translate (tm_pg s') (t_dir t) vp = Some e ->
    ~ al_used (ps_heap (tm_pg s)) (address e) /\ al_used (ps_heap (tm_pg s')) (address e) /\
    (forall a, a / 4096 = address e -> tm_bytes s' a = 0);
  fl_inj vp1 vp2 e1 e2 : translate (tm_pg s) (t_dir t) vp1 = None ->
    translate (tm_pg s) (t_dir t) vp2 = None ->
    translate (tm_pg s') (t_dir t) vp1 = Some e1 -> translate (tm_pg s') (t_dir t) vp2 = Some e2 ->
    address e1 = address e2 -> vp1 = vp2;
  fl_used q : al_used (ps_heap (tm_pg s)) q -> al_used (ps_heap (tm_pg s')) q;
  fl_bytes a : al_used (ps_heap (tm_pg s)) (a / 4096) -> tm_bytes s' a = tm_bytes s a;
  fl_mem p : is_Some (ps_mem (tm_pg s') !! p) ->
    is_Some (ps_mem (tm_pg s) !! p) \/ ~ al_used (ps_heap (tm_pg s)) (p / 4096);
  fl_cur : ps_current (tm_pg s') = ps_current (tm_pg s) }.

(** ** Lemmas *)

Lemma fills_refl s t : tm_ok s t -> fills s s t.
Proof. intros. constructor; try done; try (intros; exfalso; congruence). intros; by left. Qed.

Lemma fills_trans s1 s2 s3 t : fills s1 s2 t -> fills s2 s3 t -> fills s1 s3 t.
Proof.
  intros F1 F2. constructor.
  - apply F2.
  - intros vp e He. by apply (fl_some _ _ _ F2), (fl_some _ _ _ F1).
  - intros d vp Hd. by rewrite (fl_other _ _ _ F2), (fl_other _ _ _ F1).
  - intros vp e Hn He. destruct (translate (tm_pg s2) (t_dir t) vp) as [e'|] eqn:E2.
    + destruct (fl_new _ _ _ F1 vp e' Hn E2) as (Hf & Hu & Hz).
      rewrite (fl_some _ _ _ F2 vp e' E2) in He. simplify_eq. split; [done|].
      split; [by apply (fl_used _ _ _ F2)|]. intros a Ha.
      rewrite (fl_bytes _ _ _ F2) by (by rewrite Ha). by apply Hz.
    + destruct (fl_new _ _ _ F2 vp e E2 He) as (Hf & Hu & Hz). split; [|done].
      intros Hin. by apply Hf, (fl_used _ _ _ F1).
  - intros vp1 vp2 e1 e2 H1 H2 He1 He2 Ha.
    destruct (translate (tm_pg s2) (t_dir t) vp1) as [e1'|] eqn:E1;
      destruct (translate (tm_pg s2) (t_dir t) vp2) as [e2'|] eqn:E2.
    + rewrite (fl_some _ _ _ F2 vp1 e1' E1) in He1. rewrite (fl_some _ _ _ F2 vp2 e2' E2) in He2.
      simplify_eq. by eapply (fl_inj _ _ _ F1).
    + rewrite (fl_some _ _ _ F2 vp1 e1' E1) in He1. simplify_eq.
      destruct (fl_new _ _ _ F1 vp1 e1 H1 E1) as (_ & Hu & _).
      destruct (fl_new _ _ _ F2 vp2 e2 E2 He2) as (Hf & _). rewrite <-Ha in Hf. done.
    + rewrite (fl_some _ _ _ F2 vp2 e2' E2) in He2. simplify_eq.
      destruct (fl_new _ _ _ F1 vp2 e2 H2 E2) as (_ & Hu & _).
      destruct (fl_new _ _ _ F2 vp1 e1 E1 He1) as (Hf & _). rewrite Ha in Hf. done.
    + by eapply (fl_inj _ _ _ F2).
  - intros q Hq. by apply (fl_used _ _ _ F2), (fl_used _ _ _ F1).
  - intros a Ha. rewrite (fl_bytes _ _ _ F2) by (by apply (fl_used _ _ _ F1)).
    by apply (fl_bytes _ _ _ F1).
  - intros p Hp. destruct (fl_mem _ _ _ F2 p Hp) as [Hp2|Hp2].
    + by apply (fl_mem _ _ _ F1).
    + right. intros Hu. by apply Hp2, (fl_used _ _ _ F1).
  - by rewrite (fl_cur _ _ _ F2), (fl_cur _ _ _ F1).
Qed.

Lemma fills_frames s s' t P : frames_ok s t P -> fills s s' t -> frames_ok s' t P.
Proof.
  intros [Hu Hi] F. split.
  - intros vp e Hp He. destruct (translate (tm_pg s) (t_dir t) vp) as [e'|] eqn:E.
    + rewrite (fl_some _ _ _ F vp e' E) in He. simplify_eq. apply (fl_used _ _ _ F). by eapply Hu.
    + by destruct (fl_new _ _ _ F vp e E He) as (_ & ? & _).
  - intros vp1 vp2 e1 e2 Hp1 Hp2 He1 He2 Ha.
    destruct (translate (tm_pg s) (t_dir t) vp1) as [e1'|] eqn:E1;
      destruct (translate (tm_pg s) (t_dir t) vp2) as [e2'|] eqn:E2.
    + rewrite (fl_some _ _ _ F vp1 e1' E1) in He1. rewrite (fl_some _ _ _ F vp2 e2' E2) in He2.
      simplify_eq. exact (Hi vp1 vp2 _ _ Hp1 Hp2 E1 E2 Ha).
    + rewrite (fl_some _ _ _ F vp1 e1' E1) in He1. simplify_eq.
      destruct (fl_new _ _ _ F vp2 e2 E2 He2) as (Hf & _). destruct Hf. rewrite <-Ha. exact (Hu vp1 _ Hp1 E1).
    + rewrite (fl_some _ _ _ F vp2 e2' E2) in He2. simplify_eq.
      destruct (fl_new _ _ _ F vp1 e1 E1 He1) as (Hf & _). destruct Hf. rewrite Ha. exact (Hu vp2 _ Hp2 E2).
    + by eapply (fl_inj _ _ _ F).
Qed.

Lemma pages_wf_heap_grow (pg : pstate H) h :
  pages_wf pg -> al_wf h -> (forall q, al_used (ps_heap pg) q -> al_used h q) ->
  pages_wf (set_heap pg h).
Proof.
  intros Hwf Hh Hu. destruct Hwf as [W1 W2 W3 W4 W5 W6]. constructor; try done.
  intros p x Hp. simpl in Hp. destruct (W2 p x Hp) as (? & ? & ?). split; [by apply Hu|done].
Qed.

Lemma page_align_down_range addr : is_u32 addr ->
  is_u32 (page_align_down addr) /\ page_align_down addr / 4096 = addr / 4096.
Proof.
  intros Ha. unfold is_u32 in *. rewrite page_align_down_spec.
  rewrite Z.div_mul by lia. split; [|done]. pose proof (Z.div_mod addr 4096 ltac:(lia)).
  pose proof (Z.mod_pos_bound addr 4096 ltac:(lia)). lia.
Qed.

Lemma check_spec s t vaddr :
  tm_ok s t -> is_u32 vaddr ->
  page_checkmapping (tm_pg s) (t_dir t) vaddr = Some (perm s t (vaddr / 4096)).
Proof. intros [Hwf [es Hd]] Hv. by rewrite (page_checkmapping_spec _ _ es) by done. Qed.

Lemma mapped_to_perm e addr : mapped_to e addr 1 1 0 -> perm_of (Some e) = PAGE_USERRW.
Proof. intros (_ & _ & Hu & Hw & _). unfold perm_of. by rewrite Hu, Hw. Qed.

Lemma perm_absent s t vp : perm s t vp = PAGE_NOTPRESENT -> translate (tm_pg s) (t_dir t) vp = None.
Proof.
  unfold perm, perm_of. destruct (translate _ _ _) as [e|]; [|done].
  by destruct (truthy (user e)), (truthy (rw e)).
Qed.

Lemma own_in_mem (pg : pstate H) dir p :
  pages_wf pg -> is_Some (get_dir pg dir) -> own pg dir p -> is_Some (ps_mem pg !! p).
Proof.
  intros Hwf [es Hd] [->|[i Ht]].
  - unfold get_dir in Hd. by destruct (ps_mem pg !! dir).
  - destruct (pw_entry _ Hwf _ _ _ Ht) as [_ [ts Hts]]. unfold get_table in Hts.
    by destruct (ps_mem pg !! p).
Qed.

(** [b] tells whether the page can now be written by the task. *)
Lemma task_demand_map_spec s t addr :
  tm_ok s t -> is_u32 addr ->
  exists b s', task_demand_map s t addr = Some (b, s') /\ fills s s' t /\
    (forall vp, vp <> addr / 4096 -> translate (tm_pg s') (t_dir t) vp = translate (tm_pg s) (t_dir t) vp) /\
    (if b : bool then perm s' t (addr / 4096) = PAGE_USERRW
     else perm s' t (addr / 4096) = perm s t (addr / 4096) /\ perm s t (addr / 4096) <> PAGE_USERRW).
Proof.
  intros Hok Ha. pose proof Hok as [Hwf [es Hd]].
  destruct (page_align_down_range addr Ha) as [Hal Hpage].
  unfold task_demand_map. rewrite (check_spec s t) by done. rewrite Hpage. simpl.
  destruct (perm s t (addr / 4096) =? PAGE_USERRW) eqn:Hrw.
  { exists true, s. split; [done|]. split; [by apply fills_refl|]. split; [done|]. lia. }
  destruct (perm s t (addr / 4096) =? PAGE_NOTPRESENT) eqn:Hnp; cbn [negb].
  2: { exists false, s. split; [done|]. split; [by apply fills_refl|]. split; [done|]. lia. }
  destruct (al_malloc (ps_heap (tm_pg s)) PAGE_SIZE) as [page h] eqn:Hm.
  destruct (page =? NULL) eqn:Hnull.
  { exists false, s. split; [done|]. split; [by apply fills_refl|]. split; [done|]. lia. }
  destruct (al_malloc_ok (ps_heap (tm_pg s)) PAGE_SIZE page h (pw_heap _ Hwf) ltac:(unfold PAGE_SIZE; lia) Hm ltac:(unfold NULL in *; lia))
    as (Hhw & Hpm & Hp0 & Hpmax & Hfree & Hused).
  change (pages PAGE_SIZE) with 1 in *.
  set (s1 := TMem (set_heap (tm_pg s) h) (zero_page (tm_bytes s) page)).
  assert (Hwf1 : pages_wf (tm_pg s1)).
  { apply pages_wf_heap_grow; [done|done|]. intros q Hq. apply Hused. by left. }
  assert (Hpu : is_u32 page) by (unfold is_u32; lia).
  assert (Hz : forall a, ~ (a / 4096 = page / 4096) -> zero_page (tm_bytes s) page a = tm_bytes s a).
  { intros a Hne. unfold zero_page, PAGE_SIZE. destruct (_ && _) eqn:Hc; [|done]. exfalso.
    apply Hne. pose proof (Z.div_mod page 4096 ltac:(lia)).
    symmetry. apply Z.div_unique with (a - page); lia. }
  assert (Hb : forall a, al_used (ps_heap (tm_pg s)) (a / 4096) -> zero_page (tm_bytes s) page a = tm_bytes s a).
  { intros a Hu. apply Hz. intros He. rewrite He in Hu. by apply (Hfree (page / 4096)); [lia|]. }
  destruct (map_spec (tm_pg s1) (t_dir t) es page (page_align_down addr) 1 1 0 Hwf1 Hd Hpu Hal)
    as (b & pg & Hmap & Hpost).
  change (tm_pg s1) with (set_heap (tm_pg s) h) in Hmap. rewrite Hmap. simpl.
  pose proof (perm_absent s t (addr / 4096) ltac:(lia)) as Habs.
  destruct b; cbn [negb].
  - destruct Hpost as [Wf Dir Ext Cur At Ne _ _].
    destruct At as (e & He & Hmt). rewrite Hpage in He, Ne.
    assert (Htr : forall d vp, translate (invlpg pg (page_align_down addr)) d vp = translate pg d vp) by done.
    pose proof Hmt as (_ & Haddr & _).
    assert (Hnew : forall vp e', translate (tm_pg s) (t_dir t) vp = None ->
      translate pg (t_dir t) vp = Some e' -> vp = addr / 4096 /\ e' = e).
    { intros vp e' Hn He'. destruct (decide (vp = addr / 4096)) as [->|Hne].
      - split; [done|]. congruence.
      - rewrite Ne in He' by tauto. change (translate (tm_pg s1)) with (translate (tm_pg s)) in He'. congruence. }
    assert (Hus : forall q, al_used h q -> al_used (ps_heap pg) q).
    { intros q Hq. apply (ex_used _ _ _ Ext). by left. }
    exists true, (TMem (invlpg pg (page_align_down addr)) (zero_page (tm_bytes s) page)).
    split; [done|]. split.
    { constructor; simpl.
      - constructor; [by apply pages_wf_invlpg|done].
      - intros vp e' He'. rewrite Htr. rewrite Ne; [done|]. intros [_ ->]. congruence.
      - intros d vp Hdn. rewrite Htr. apply Ne. tauto.
      - intros vp e' Hn He'. destruct (Hnew vp e' Hn He') as [-> ->].
        rewrite Haddr. split_and!.
        + apply Hfree. lia.
        + apply Hus, Hused. right. lia.
        + intros a Hq. unfold zero_page, PAGE_SIZE. destruct (_ && _) eqn:Hc; [done|].
          pose proof (Z.div_mod page 4096 ltac:(lia)). pose proof (Z.div_mod a 4096 ltac:(lia)).
          pose proof (Z.mod_pos_bound a 4096 ltac:(lia)). lia.
      - intros vp1 vp2 e1 e2 H1 H2 He1 He2 _.
        destruct (Hnew vp1 e1 H1 He1) as [-> _]. by destruct (Hnew vp2 e2 H2 He2) as [-> _].
      - intros q Hq. apply Hus, Hused. by left.
      - done.
      - intros p Hp. destruct (own_dec pg (t_dir t) p) as [Ho|Ho].
        + destruct (own_dec (tm_pg s1) (t_dir t) p) as [Ho1|Ho1].
          * left. change (ps_mem (tm_pg s)) with (ps_mem (tm_pg s1)).
            apply (own_in_mem _ (t_dir t) p Hwf1); [by exists es|done].
          * right. destruct (ex_new _ _ _ Ext p Ho Ho1) as [_ Hnu]. intros Hu. apply Hnu.
            apply Hused. by left.
        + left. change (ps_mem (invlpg pg (page_align_down addr))) with (ps_mem pg) in Hp.
          by rewrite (ex_mem _ _ _ Ext p Ho) in Hp.
      - done. }
    split.
    { intros vp Hvp. simpl. rewrite Htr. apply Ne. tauto. }
    unfold perm. simpl. rewrite Htr, He. by eapply mapped_to_perm.
  - subst pg.
    destruct (al_free_ok h PAGE_SIZE page Hhw ltac:(unfold PAGE_SIZE; lia) Hpm) as [Hfw Hfu].
    { change (pages PAGE_SIZE) with 1. intros q Hq. apply Hused. by right. }
    change (pages PAGE_SIZE) with 1 in Hfu.
    exists false, (TMem (set_heap (tm_pg s) (al_free h page PAGE_SIZE)) (zero_page (tm_bytes s) page)).
    split; [done|].
    assert (Hsame : forall d vp, translate (set_heap (tm_pg s) (al_free h page PAGE_SIZE)) d vp = translate (tm_pg s) d vp) by done.
    assert (Hu : forall q, al_used (ps_heap (tm_pg s)) q -> al_used (al_free h page PAGE_SIZE) q).
    { intros q Hq. apply Hfu. split; [apply Hused; by left|]. intros Hr. by apply (Hfree q). }
    split.
    { constructor; simpl; try done.
      - constructor; [by apply pages_wf_heap_grow|done].
      - intros vp e Hn He. rewrite Hsame in He. congruence.
      - intros vp1 vp2 e1 e2 H1 H2 He1. rewrite Hsame in He1. congruence.
      - intros p Hp. by left. }
    split; [done|]. unfold perm. simpl. rewrite Hsame. split; [done|]. unfold perm in Hrw. lia.
Qed.

Lemma fills_perm s s' t vp :
  fills s s' t -> perm s t vp <> PAGE_NOTPRESENT -> perm s' t vp = perm s t vp.
Proof.
  intros F Hp. unfold perm in *. destruct (translate (tm_pg s) (t_dir t) vp) as [e|] eqn:E; [|done].
  by rewrite (fl_some _ _ _ F vp e E).
Qed.

Lemma fills_rw s s' t vp :
  fills s s' t -> perm s t vp = PAGE_USERRW -> perm s' t vp = PAGE_USERRW.
Proof. intros F Hp. rewrite (fills_perm s) by (done || by rewrite Hp). done. Qed.

Lemma area_pages_spec vaddr size :
  is_u32 vaddr -> 0 <= size < 2 ^ 31 ->
  area_pages vaddr size = (vaddr mod 4096 + size + 4095) / 4096.
Proof.
  intros Hv Hs. unfold area_pages, PAGE_SIZE. pose proof (Z.mod_pos_bound vaddr 4096 ltac:(lia)).
  rewrite u32_id by lia. f_equal. lia.
Qed.

Lemma area_page_spec vaddr size i :
  is_u32 vaddr -> 0 <= size < 2 ^ 31 -> vaddr + size <= 2 ^ 32 -> 0 <= i < area_pages vaddr size ->
  area_page vaddr i = (vaddr / 4096 + i) * 4096 /\ is_u32 (area_page vaddr i) /\
  area_page vaddr i / 4096 = vaddr / 4096 + i.
Proof.
  intros Hv Hs Hm Hi. rewrite area_pages_spec in Hi by (done || lia).
  assert (He : area_page vaddr i = (vaddr / 4096 + i) * 4096).
  { unfold area_page. rewrite page_align_down_spec. unfold PAGE_SIZE, is_u32 in *.
    rewrite u32_id; [lia|]. Z.div_mod_to_equations. lia. }
  rewrite He. rewrite Z.div_mul by lia. split; [done|]. split; [|done].
  unfold is_u32 in *. Z.div_mod_to_equations. lia.
Qed.

(** The permission of a page outside [v .. v + n - 1] is kept. *)
Definition same_outside s s' t (v n : Z) : Prop :=
  forall vp, ~ (v <= vp < v + n) ->
    translate (tm_pg s') (t_dir t) vp = translate (tm_pg s) (t_dir t) vp.

(** The pages that were filled belong to the heap, and the task may write them. *)
Definition heap_filled s s' t : Prop :=
  forall vp e, translate (tm_pg s) (t_dir t) vp = None -> translate (tm_pg s') (t_dir t) vp = Some e ->
    heap_start t <= vp * 4096 < heap_end t /\ perm s' t vp = PAGE_USERRW.

Lemma heap_filled_refl s t : heap_filled s s t.
Proof. intros vp e Hn He. congruence. Qed.

Lemma heap_filled_trans s1 s2 s3 t :
  fills s2 s3 t -> heap_filled s1 s2 t -> heap_filled s2 s3 t -> heap_filled s1 s3 t.
Proof.
  intros F H1 H2 vp e Hn He. destruct (translate (tm_pg s2) (t_dir t) vp) as [e2|] eqn:E2; [|by eapply H2].
  destruct (H1 vp e2 Hn E2) as [Hh Hp]. split; [done|by apply (fills_rw _ _ _ _ F)].
Qed.

(** Demand paging of one page of the heap. *)
Lemma heap_filled_page s s' t addr b :
  (forall vp, vp <> addr / 4096 -> translate (tm_pg s') (t_dir t) vp = translate (tm_pg s) (t_dir t) vp) ->
  (if b : bool then perm s' t (addr / 4096) = PAGE_USERRW
   else perm s' t (addr / 4096) = perm s t (addr / 4096) /\ perm s t (addr / 4096) <> PAGE_USERRW) ->
  heap_start t <= addr / 4096 * 4096 < heap_end t -> heap_filled s s' t.
Proof.
  intros Ho Hb Hh vp e Hn He. destruct (decide (vp = addr / 4096)) as [->|Hne]; [|rewrite Ho in He by done; congruence].
  split; [done|]. destruct b; [done|]. destruct Hb as [Hb _]. exfalso. unfold perm in Hb. rewrite Hn, He in Hb.
  simpl in Hb. by destruct (truthy (user e)), (truthy (rw e)).
Qed.

Lemma prefault_loop_spec n i s t vaddr size :
  tm_ok s t -> is_u32 vaddr -> 0 <= size < 2 ^ 31 -> vaddr + size <= 2 ^ 32 ->
  0 <= i -> i + Z.of_nat n = area_pages vaddr size ->
  exists k s', prefault_loop n i s t vaddr size = Some (k, s') /\ fills s s' t /\
    heap_filled s s' t /\ same_outside s s' t (vaddr / 4096 + i) (Z.of_nat n) /\
    ((k = size /\ forall j, i <= j < i + Z.of_nat n -> perm s' t (vaddr / 4096 + j) = PAGE_USERRW) \/
     (exists j, i <= j < i + Z.of_nat n /\ perm s' t (vaddr / 4096 + j) <> PAGE_USERRW /\
        (forall j', i <= j' < j -> perm s' t (vaddr / 4096 + j') = PAGE_USERRW) /\
        k = if j =? 0 then 0 else (vaddr / 4096 + j) * 4096 - vaddr)).
Proof.
  intros Hok Hv Hs Hm. revert i s Hok. induction n as [|n IH]; intros i s Hok Hi Hn; cbn [prefault_loop].
  { exists size, s. split; [done|]. split; [by apply fills_refl|]. split; [apply heap_filled_refl|]. split; [done|]. left. split; [done|]. lia. }
  destruct (area_page_spec vaddr size i Hv Hs Hm ltac:(lia)) as (Hap & Hu & Hpg).
  rewrite (check_spec s t _ Hok Hu), bind_Some_l, Hpg.
  assert (Hstep : forall s1, fills s s1 t -> heap_filled s s1 t -> perm s1 t (vaddr / 4096 + i) = PAGE_USERRW ->
    same_outside s s1 t (vaddr / 4096 + i) 1 ->
    exists k s', prefault_loop n (i + 1) s1 t vaddr size = Some (k, s') /\ fills s s' t /\
    heap_filled s s' t /\ same_outside s s' t (vaddr / 4096 + i) (Z.of_nat (S n)) /\
    ((k = size /\ forall j, i <= j < i + Z.of_nat (S n) -> perm s' t (vaddr / 4096 + j) = PAGE_USERRW) \/
     (exists j, i <= j < i + Z.of_nat (S n) /\ perm s' t (vaddr / 4096 + j) <> PAGE_USERRW /\
        (forall j', i <= j' < j -> perm s' t (vaddr / 4096 + j') = PAGE_USERRW) /\
        k = if j =? 0 then 0 else (vaddr / 4096 + j) * 4096 - vaddr))).
  { intros s1 F1 Hh1 Hp1 Ho1. destruct (IH (i + 1) s1) as (k & s' & He & F2 & Hh2 & Ho2 & Hc);
      [apply F1|lia|lia|].
    exists k, s'. split; [done|]. split; [by eapply fills_trans|]. split; [by eapply heap_filled_trans|]. split.
    { intros vp Hvp. rewrite Ho2 by lia. apply Ho1. lia. }
    pose proof (fills_rw _ _ _ _ F2 Hp1) as Hi2.
    destruct Hc as [[-> Hall]|(j & Hj & Hnj & Hall & ->)].
    - left. split; [done|]. intros j Hj. destruct (decide (j = i)) as [->|]; [done|]. apply Hall. lia.
    - right. exists j. split; [lia|]. split; [done|]. split; [|done].
      intros j' Hj'. destruct (decide (j' = i)) as [->|]; [done|]. apply Hall. lia. }
  destruct (perm s t (vaddr / 4096 + i) =? PAGE_USERRW) eqn:Hrw.
  { apply Hstep; [by apply fills_refl|apply heap_filled_refl|lia|done]. }
  assert (Hfail : forall s1, fills s s1 t -> heap_filled s s1 t -> perm s1 t (vaddr / 4096 + i) <> PAGE_USERRW ->
    same_outside s s1 t (vaddr / 4096 + i) 1 ->
    exists k s', Some (if i =? 0 then 0 else s32 (u32 (area_page vaddr i - vaddr)), s1) = Some (k, s') /\
    fills s s' t /\ heap_filled s s' t /\ same_outside s s' t (vaddr / 4096 + i) (Z.of_nat (S n)) /\
    ((k = size /\ forall j, i <= j < i + Z.of_nat (S n) -> perm s' t (vaddr / 4096 + j) = PAGE_USERRW) \/
     (exists j, i <= j < i + Z.of_nat (S n) /\ perm s' t (vaddr / 4096 + j) <> PAGE_USERRW /\
        (forall j', i <= j' < j -> perm s' t (vaddr / 4096 + j') = PAGE_USERRW) /\
        k = if j =? 0 then 0 else (vaddr / 4096 + j) * 4096 - vaddr))).
  { intros s1 F1 Hh1 Hp1 Ho1. eexists _, s1. split; [done|]. split; [done|]. split; [done|]. split.
    { intros vp Hvp. apply Ho1. lia. }
    right. exists i. split; [lia|]. split; [done|]. split; [lia|].
    destruct (i =? 0) eqn:Hi0; [done|]. rewrite Hap.
    assert (0 <= (vaddr / 4096 + i) * 4096 - vaddr < 2 ^ 31).
    { rewrite area_pages_spec in Hn by (done || lia). unfold is_u32 in *. Z.div_mod_to_equations. lia. }
    rewrite u32_id, s32_id by lia. done. }
  destruct (task_addr_demand_paged t (area_page vaddr i)) eqn:Hdp.
  - destruct (task_demand_map_spec s t (area_page vaddr i) Hok Hu) as (b & s1 & -> & F1 & Ho1 & Hb).
    assert (Hh1 : heap_filled s s1 t).
    { apply (heap_filled_page s s1 t (area_page vaddr i) b Ho1 Hb). rewrite Hpg, <-Hap.
      unfold task_addr_demand_paged in Hdp. lia. }
    rewrite bind_Some_l. rewrite Hpg in Hb, Ho1. destruct b.
    + apply Hstep; [done|done|done|]. intros vp Hvp. apply Ho1. lia.
    + destruct Hb as [Hb1 Hb2]. apply Hfail; [done|done|by rewrite Hb1|]. intros vp Hvp. apply Ho1. lia.
  - rewrite bind_Some_l. apply Hfail; [by apply fills_refl|apply heap_filled_refl|lia|done].
Qed.

Lemma page_allowed_spec s t vaddr size i rw :
  tm_ok s t -> is_u32 vaddr -> 0 < size < 2 ^ 31 -> vaddr + size <= 2 ^ 32 ->
  0 <= i < area_pages vaddr size ->
  exists b, page_allowed s t (area_page vaddr i) (rw_check rw) rw = Some b /\
    (b = true <-> allowed s t rw (vaddr / 4096 + i)).
Proof.
  intros Hok Hv Hs Hm Hi. destruct (area_page_spec vaddr size i Hv ltac:(lia) Hm Hi) as (Hap & Hu & Hpg).
  unfold page_allowed. rewrite (check_spec s t _ Hok Hu), bind_Some_l, Hpg. eexists. split; [done|].
  unfold allowed, task_addr_demand_paged. rewrite Hap. destruct rw; lia.
Qed.

Lemma scan_pages_spec n i s t vaddr size rw :
  tm_ok s t -> is_u32 vaddr -> 0 < size < 2 ^ 31 -> vaddr + size <= 2 ^ 32 ->
  0 <= i -> i + Z.of_nat n = area_pages vaddr size ->
  exists k, scan_pages n i s t vaddr (rw_check rw) rw = Some k /\ i <= k <= i + Z.of_nat n /\
    (forall j, i <= j < k -> allowed s t rw (vaddr / 4096 + j)) /\
    (k < i + Z.of_nat n -> ~ allowed s t rw (vaddr / 4096 + k)).
Proof.
  intros Hok Hv Hs Hm. revert i. induction n as [|n IH]; intros i Hi Hn; cbn [scan_pages].
  { exists i. split; [done|]. split; [lia|]. split; lia. }
  destruct (page_allowed_spec s t vaddr size i rw Hok Hv Hs Hm ltac:(lia)) as (b & -> & Hb).
  rewrite bind_Some_l. destruct b.
  - destruct (IH (i + 1)) as (k & -> & Hk & Hall & Hstop); [lia|lia|].
    exists k. split; [done|]. split; [lia|]. split.
    + intros j Hj. destruct (decide (j = i)) as [->|]; [by apply Hb|]. apply Hall. lia.
    + intros. apply Hstop. lia.
  - exists i. split; [done|]. split; [lia|]. split; [lia|]. intros _ Ha. by apply Hb in Ha.
Qed.

(** The first [k] bytes of the area at [vaddr] may all be accessed. *)
Definition area_allowed s t (rw : bool) (vaddr k : Z) : Prop :=
  forall i, 0 <= i < k -> allowed s t rw ((vaddr + i) / 4096).

Lemma task_validate_maxsize_spec s t vaddr max rw :
  tm_ok s t -> is_u32 vaddr -> 0 <= max < 2 ^ 31 - 4096 -> vaddr + max <= 2 ^ 32 ->
  exists k, task_validate_maxsize s t vaddr max rw = Some k /\ 0 <= k <= max /\
    area_allowed s t rw vaddr k /\
    (k < max -> ~ allowed s t rw ((vaddr + k) / 4096) /\ (k <> 0 -> (vaddr + k) mod 4096 = 0)).
Proof.
  intros Hok Hv Hs Hm. unfold task_validate_maxsize.
  destruct (max <? 0) eqn:?; [lia|]. destruct (max =? 0) eqn:?.
  { exists 0. split; [done|]. split; [lia|]. split; [|lia].
    intros i Hi. lia. }
  destruct (scan_pages_spec (Z.to_nat (area_pages vaddr max)) 0 s t vaddr max rw)
    as (k & -> & Hk & Hall & Hstop); [done|done|lia|done|lia| |].
  { rewrite area_pages_spec by (done || lia). unfold is_u32 in *. Z.div_mod_to_equations. lia. }
  assert (Hn : Z.of_nat (Z.to_nat (area_pages vaddr max)) = (vaddr mod 4096 + max + 4095) / 4096).
  { rewrite area_pages_spec by (done || lia). unfold is_u32 in *. Z.div_mod_to_equations. lia. }
  rewrite Hn in *. rewrite bind_Some_l. unfold is_u32 in *.
  destruct (k =? 0) eqn:Hk0.
  { assert (k = 0) as -> by lia. exists 0. split; [done|]. split; [lia|]. split.
    - intros i Hi. lia.
    - intros _. split; [|done]. rewrite !Z.add_0_r in *. apply Hstop. Z.div_mod_to_equations. lia. }
  unfold PAGE_SIZE. rewrite s32_id by (Z.div_mod_to_equations; lia).
  assert (Hpages : area_allowed s t rw vaddr (k * 4096 - vaddr mod 4096)).
  { intros i Hi. replace ((vaddr + i) / 4096) with (vaddr / 4096 + ((vaddr + i) / 4096 - vaddr / 4096)) by lia.
    apply Hall. Z.div_mod_to_equations. lia. }
  destruct (k * 4096 - vaddr mod 4096 <? max) eqn:Hlt.
  - eexists. split; [done|]. split; [Z.div_mod_to_equations; lia|]. split; [done|]. intros _.
    replace (vaddr + (k * 4096 - vaddr mod 4096)) with ((vaddr / 4096 + k) * 4096)
      by (Z.div_mod_to_equations; lia).
    rewrite Z.div_mul, Z.mod_mul by lia. split; [|done]. apply Hstop. Z.div_mod_to_equations. lia.
  - eexists. split; [done|]. split; [lia|]. split; [|lia].
    intros i Hi. apply Hpages. lia.
Qed.

Lemma user_write_spec (pg : pstate H) f dir dest l (pa : Z -> Z) :
  0 <= dest -> dest + zlen l <= 2 ^ 32 ->
  (forall j, 0 <= j < zlen l -> user_addr pg dir (dest + j) = Some (pa (dest + j))) ->
  (forall i j, 0 <= i < zlen l -> 0 <= j < zlen l -> pa (dest + i) = pa (dest + j) -> i = j) ->
  exists f', user_write pg f dir dest l = Some f' /\
    (forall j b, zget l j = Some b -> f' (pa (dest + j)) = b) /\
    (forall a, (forall j, 0 <= j < zlen l -> pa (dest + j) <> a) -> f' a = f a).
Proof.
  revert f dest. induction l as [|b l IH]; intros f dest Hd Hm Hpa Hinj; cbn [user_write].
  { exists f. split; [done|]. split; [|done]. intros j b Hj. apply zget_Some_range in Hj.
    rewrite zlen_nil in Hj. lia. }
  rewrite zlen_cons in *. pose proof (zlen_nonneg l).
  rewrite u32_id by lia. pose proof (Hpa 0 ltac:(lia)) as H0p. rewrite Z.add_0_r in H0p.
  rewrite H0p, bind_Some_l.
  destruct (IH (fun a => if a =? pa dest then b else f a) (dest + 1)) as (f' & -> & Hin & Hout).
  - lia.
  - lia.
  - intros j Hj. replace (dest + 1 + j) with (dest + (j + 1)) by lia. apply Hpa. lia.
  - intros i j Hi Hj. replace (dest + 1 + i) with (dest + (i + 1)) by lia.
    replace (dest + 1 + j) with (dest + (j + 1)) by lia. intros He. apply Hinj in He; lia.
  - exists f'. split; [done|]. split.
    + intros j c Hj. pose proof (zget_Some_range _ _ _ Hj) as Hr. rewrite zlen_cons in Hr.
      destruct (decide (j = 0)) as [->|Hj0].
      * rewrite zget_cons_0 in Hj. simplify_eq. rewrite Z.add_0_r. rewrite Hout.
        -- by rewrite Z.eqb_refl.
        -- intros k Hk He. replace (dest + 1 + k) with (dest + (k + 1)) in He by lia.
           rewrite <-(Z.add_0_r dest) in He at 2. apply Hinj in He; lia.
      * replace j with (j - 1 + 1) in Hj by lia. rewrite zget_cons_S in Hj by lia.
        replace (dest + j) with (dest + 1 + (j - 1)) by lia. by apply Hin.
    + intros a Ha. rewrite Hout.
      * destruct (a =? pa dest) eqn:He; [|done]. exfalso. apply (Ha 0); [lia|]. rewrite Z.add_0_r. lia.
      * intros j Hj. replace (dest + 1 + j) with (dest + (j + 1)) by lia. apply Ha. lia.
Qed.

(** The physical address of a mapped byte. *)
Definition pa_of s t (v : Z) : Z := default (-1) (user_addr (tm_pg s) (t_dir t) v).

Lemma rw_mapped s t vp :
  perm s t vp = PAGE_USERRW -> exists e, translate (tm_pg s) (t_dir t) vp = Some e.
Proof. unfold perm. destruct (translate _ _ _) as [e|]; [by exists e|done]. Qed.

Lemma user_addr_inj s t (P : Z -> Prop) v1 v2 a :
  frames_ok s t P -> P (v1 / 4096) -> P (v2 / 4096) ->
  user_addr (tm_pg s) (t_dir t) v1 = Some a -> user_addr (tm_pg s) (t_dir t) v2 = Some a -> v1 = v2.
Proof.
  intros [_ Hi] Hp1 Hp2. unfold user_addr, PAGE_SIZE.
  destruct (translate _ _ (v1 / 4096)) as [e1|] eqn:E1; [|done].
  destruct (translate _ _ (v2 / 4096)) as [e2|] eqn:E2; [|done].
  cbn [mbind option_bind]. intros Ha1 Ha2. simplify_eq.
  assert (Heq : address e1 = address e2 /\ v1 mod 4096 = v2 mod 4096) by (Z.div_mod_to_equations; lia).
  destruct Heq as [Heq Hmod]. pose proof (Hi _ _ _ _ Hp1 Hp2 E1 E2 Heq). Z.div_mod_to_equations. lia.
Qed.

Lemma swap_twice_translate (pg : pstate H) dir d vp :
  translate (swap_twice pg dir) d vp = translate pg d vp.
Proof. unfold swap_twice. by destruct (dir =? _). Qed.

Lemma swap_twice_heap (pg : pstate H) dir : ps_heap (swap_twice pg dir) = ps_heap pg.
Proof. unfold swap_twice. by destruct (dir =? _). Qed.

Lemma swap_twice_mem (pg : pstate H) dir : ps_mem (swap_twice pg dir) = ps_mem pg.
Proof. unfold swap_twice. by destruct (dir =? _). Qed.

Lemma swap_twice_ok (pg : pstate H) dir f t :
  tm_ok (TMem pg f) t -> tm_ok (TMem (swap_twice pg dir) f) t.
Proof.
  intros [[W1 W2 W3 W4 W5 W6] Hd]. unfold swap_twice. destruct (dir =? _); by constructor.
Qed.

(** The pages of the area of [size] bytes at [vaddr]. *)
Definition area (vaddr size : Z) : Z -> Prop :=
  fun vp => exists i, 0 <= i < size /\ vp = (vaddr + i) / 4096.

(** What a copy of [src] to [dest] that reports [n] has done. *)
Record copied s s' t (dest : Z) (src : list Z) (n : Z) : Prop := {
  cp_ok : tm_ok s' t;
  cp_n : n = -1 \/ 0 <= n <= zlen src;
  cp_data i b : 0 <= i < n -> zget src i = Some b -> user_read s' (t_dir t) (dest + i) = Some b;
  cp_rest a : al_used (ps_heap (tm_pg s)) (a / 4096) ->
    (forall i, 0 <= i < n -> pa_of s' t (dest + i) <> a) -> tm_bytes s' a = tm_bytes s a;
  cp_used q : al_used (ps_heap (tm_pg s)) q -> al_used (ps_heap (tm_pg s')) q;
  cp_some vp e : translate (tm_pg s) (t_dir t) vp = Some e ->
    translate (tm_pg s') (t_dir t) vp = Some e;
  cp_new vp e : translate (tm_pg s) (t_dir t) vp = None -> translate (tm_pg s') (t_dir t) vp = Some e ->
    heap_start t <= vp * 4096 < heap_end t /\ dest / 4096 <= vp <= (dest + Z.max 0 (zlen src - 1)) / 4096 /\
    perm s' t vp = PAGE_USERRW /\
    ~ al_used (ps_heap (tm_pg s)) (address e) /\ al_used (ps_heap (tm_pg s')) (address e) /\
    forall a, a / 4096 = address e -> (forall i, 0 <= i < n -> pa_of s' t (dest + i) <> a) -> tm_bytes s' a = 0;
  cp_other d vp : d <> t_dir t -> translate (tm_pg s') d vp = translate (tm_pg s) d vp;
  cp_frames P : frames_ok s t P -> frames_ok s' t P;
  cp_mem p : is_Some (ps_mem (tm_pg s') !! p) ->
    is_Some (ps_mem (tm_pg s) !! p) \/ ~ al_used (ps_heap (tm_pg s)) (p / 4096);
  cp_stop : n < zlen src -> perm s' t ((dest + Z.max 0 n) / 4096) <> PAGE_USERRW }.

Lemma copied_nothing s s' t dest src n :
  fills s s' t -> heap_filled s s' t ->
  same_outside s s' t (dest / 4096) ((dest + Z.max 0 (zlen src - 1)) / 4096 - dest / 4096 + 1) -> n = -1 \/ n = 0 ->
  (n < zlen src -> perm s' t (dest / 4096) <> PAGE_USERRW) -> copied s s' t dest src n.
Proof.
  intros F Hf Ho Hn Hp. pose proof (zlen_nonneg src). constructor.
  - apply F.
  - lia.
  - intros i b Hi. lia.
  - intros a Ha _. by apply (fl_bytes _ _ _ F).
  - apply (fl_used _ _ _ F).
  - apply (fl_some _ _ _ F).
  - intros vp e Hv He. destruct (fl_new _ _ _ F vp e Hv He) as (? & ? & ?), (Hf vp e Hv He) as [? ?].
    split; [done|]. split; [|by eauto]. destruct (decide (dest / 4096 <= vp < dest / 4096 + ((dest + Z.max 0 (zlen src - 1)) / 4096 - dest / 4096 + 1)));
      [lia|]. rewrite Ho in He by done. congruence.
  - apply (fl_other _ _ _ F).
  - intros P HP. by eapply fills_frames.
  - apply (fl_mem _ _ _ F).
  - intros Hl. replace (dest + Z.max 0 n) with dest by lia. by apply Hp.
Qed.

Lemma perm_le s t vp : perm s t vp <= PAGE_USERRW.
Proof.
  unfold perm, perm_of. destruct (translate _ _ _) as [e|]; [|done].
  by destruct (truthy (user e)), (truthy (rw e)).
Qed.

Lemma write_mapped s t dest l :
  tm_ok s t -> frames_ok s t (area dest (zlen l)) -> is_u32 dest -> dest + zlen l <= 2 ^ 32 ->
  (forall i, 0 <= i < zlen l -> perm s t ((dest + i) / 4096) = PAGE_USERRW) ->
  exists f, user_write (tm_pg s) (tm_bytes s) (t_dir t) dest l = Some f /\
    (forall j b, zget l j = Some b -> f (pa_of s t (dest + j)) = b) /\
    (forall a, (forall j, 0 <= j < zlen l -> pa_of s t (dest + j) <> a) -> f a = tm_bytes s a).
Proof.
  intros Hok Hfr Hd Hm Hrw. unfold is_u32 in *.
  assert (Hpa : forall j, 0 <= j < zlen l ->
    user_addr (tm_pg s) (t_dir t) (dest + j) = Some (pa_of s t (dest + j))).
  { intros j Hj. unfold pa_of. destruct (rw_mapped s t _ (Hrw j Hj)) as [e He].
    unfold user_addr, PAGE_SIZE. by rewrite He. }
  apply user_write_spec; [lia|lia|done|].
  intros i j Hi Hj He. enough (dest + i = dest + j) by lia.
  apply (user_addr_inj s t (area dest (zlen l)) _ _ (pa_of s t (dest + i))).
  - done.
  - by exists i.
  - by exists j.
  - by apply Hpa.
  - rewrite He. by apply Hpa.
Qed.

Lemma frames_ok_mono s t (P Q : Z -> Prop) :
  (forall vp, Q vp -> P vp) -> frames_ok s t P -> frames_ok s t Q.
Proof. intros HQ [Hu Hi]. split; [eauto|]. intros vp1 vp2 e1 e2 H1 H2. apply Hi; auto. Qed.

Lemma area_mono v n m vp : n <= m -> area v n vp -> area v m vp.
Proof. intros ? (i & ? & ?). exists i. split; [lia|done]. Qed.

Lemma copy_to_task_spec s t dest src :
  tm_ok s t -> frames_ok s t (area dest (zlen src)) -> is_u32 dest ->
  zlen src < 2 ^ 31 - 4096 -> dest + zlen src <= 2 ^ 32 ->
  exists n s', copy_to_task s t dest src = Some (n, s') /\ copied s s' t dest src n.
Proof.
  intros Hok Hfr Hd Hs Hm. pose proof (zlen_nonneg src) as Hpos. unfold copy_to_task.
  destruct (task_validate_maxsize_spec s t dest (zlen src) true Hok Hd ltac:(lia) Hm)
    as (k & -> & Hk & Hall & Hstop).
  rewrite bind_Some_l.
  assert (Hnot : forall s' vp, ~ allowed s t true vp ->
    translate (tm_pg s') (t_dir t) vp = translate (tm_pg s) (t_dir t) vp ->
    perm s' t vp <> PAGE_USERRW).
  { intros s' vp Hna He Hp. apply Hna. left. unfold perm in *. rewrite <-He, Hp. done. }
  destruct ((k <? 0) || ((0 <? zlen src) && (k =? 0))) eqn:Hc1.
  { exists (-1), s. split; [done|]. apply copied_nothing; [by apply fills_refl|apply heap_filled_refl|done|by left|].
    intros _. replace dest with (dest + k) by lia. apply Hnot; [|done]. apply Hstop. lia. }
  destruct (prefault_loop_spec (Z.to_nat (area_pages dest k)) 0 s t dest k)
    as (k' & s1 & He & F & Hf & Ho & Hc); [done|done|lia|lia|lia| |].
  { rewrite area_pages_spec by (done || lia). unfold is_u32 in *. Z.div_mod_to_equations. lia. }
  unfold task_prefault. rewrite He, bind_Some_l. clear He.
  assert (Hap : Z.of_nat (Z.to_nat (area_pages dest k)) = (dest mod 4096 + k + 4095) / 4096).
  { rewrite area_pages_spec by (done || lia). unfold is_u32 in *. Z.div_mod_to_equations. lia. }
  rewrite Hap in *. clear Hap.
  assert (Hsrc : same_outside s s1 t (dest / 4096) ((dest + Z.max 0 (zlen src - 1)) / 4096 - dest / 4096 + 1)).
  { intros vp Hvp. apply Ho. unfold is_u32 in *. intros Hin. apply Hvp. Z.div_mod_to_equations. lia. }
  (* the copy stops before a page that is not writable *)
  assert (Hk' : 0 <= k' <= k /\ (forall i, 0 <= i < k' -> perm s1 t ((dest + i) / 4096) = PAGE_USERRW) /\
    (k' < zlen src -> perm s1 t ((dest + k') / 4096) <> PAGE_USERRW)).
  { unfold is_u32 in *. destruct Hc as [[-> Hrw]|(j & Hj & Hnj & Hrw & ->)].
    - split; [lia|]. split.
      + intros i Hi. replace ((dest + i) / 4096) with (dest / 4096 + ((dest + i) / 4096 - dest / 4096)) by lia.
        apply Hrw. Z.div_mod_to_equations. lia.
      + intros Hlt. destruct (Hstop Hlt) as [Hna Hal]. apply Hnot; [done|]. apply Ho.
        assert (k <> 0) as Hkn by lia. specialize (Hal Hkn). Z.div_mod_to_equations. lia.
    - destruct (j =? 0) eqn:Hj0.
      + split; [lia|]. split; [lia|]. intros _. replace ((dest + 0) / 4096) with (dest / 4096 + j); [done|].
        replace j with 0 by lia. by rewrite !Z.add_0_r.
      + split; [Z.div_mod_to_equations; lia|]. split.
        * intros i Hi. replace ((dest + i) / 4096) with (dest / 4096 + ((dest + i) / 4096 - dest / 4096)) by lia.
          apply Hrw. Z.div_mod_to_equations. lia.
        * intros _. replace (dest + ((dest / 4096 + j) * 4096 - dest)) with ((dest / 4096 + j) * 4096) by lia.
          by rewrite Z.div_mul by lia. }
  destruct Hk' as (Hk'r & Hrw & Hend).
  destruct ((0 <? zlen src) && (k' =? 0)) eqn:Hc2.
  { exists (-1), s1. split; [done|]. apply copied_nothing; [done|done|done|by left|].
    intros _. replace dest with (dest + k') by lia. apply Hend. lia. }
  set (l := take (Z.to_nat k') src).
  assert (Hl : zlen l = k') by (unfold l, zlen in *; rewrite length_take; lia).
  destruct (write_mapped s1 t dest l) as (f & -> & Hin & Hout).
  - apply F.
  - eapply fills_frames; [|done]. apply (frames_ok_mono _ _ (area dest (zlen src))); [|done].
    intros vp Hvp. eapply area_mono; [|done]. lia.
  - done.
  - lia.
  - rewrite Hl. done.
  - rewrite bind_Some_l. eexists k', _. split; [done|].
    assert (Hpa : forall i, pa_of (TMem (swap_twice (tm_pg s1) (t_dir t)) f) t (dest + i) = pa_of s1 t (dest + i)).
    { intros i. unfold pa_of, user_addr. simpl. by rewrite swap_twice_translate. }
    constructor.
    + apply swap_twice_ok. destruct F as [[Hw1 Hd1]]. by constructor.
    + lia.
    + intros i b Hi Hb. unfold user_read, user_addr. simpl. rewrite swap_twice_translate.
      destruct (rw_mapped s1 t _ (Hrw i Hi)) as [e Hte]. unfold PAGE_SIZE. rewrite Hte, bind_Some_l, bind_Some_l.
      f_equal. rewrite <-(Hin i b).
      * unfold pa_of, user_addr, PAGE_SIZE. by rewrite Hte.
      * unfold l. unfold zget in *. zcase; [|lia]. rewrite lookup_take_lt by lia. done.
    + intros a Ha Hne. simpl. rewrite Hout; [by apply (fl_bytes _ _ _ F)|].
      intros i Hi. rewrite <-Hpa. apply Hne. lia.
    + intros q Hq. simpl. unfold swap_twice. destruct (t_dir t =? _); by apply (fl_used _ _ _ F).
    + intros vp e He. simpl. rewrite swap_twice_translate. by apply (fl_some _ _ _ F).
    + intros vp e Hv He. simpl in He. rewrite swap_twice_translate in He.
      destruct (fl_new _ _ _ F vp e Hv He) as (Hn1 & Hn2 & Hn3), (Hf vp e Hv He) as [Hh Hp].
      split; [done|]. split.
      { destruct (decide (dest / 4096 <= vp < dest / 4096 + ((dest + Z.max 0 (zlen src - 1)) / 4096 - dest / 4096 + 1))); [lia|].
        rewrite Hsrc in He by done. congruence. }
      split; [unfold perm; simpl; by rewrite swap_twice_translate|]. split; [done|].
      split; [simpl; by rewrite swap_twice_heap|]. intros a Ha Hne. simpl. rewrite Hout; [by apply Hn3|].
      intros i Hi. rewrite <-Hpa. apply Hne. lia.
    + intros d vp Hd'. simpl. rewrite swap_twice_translate. by apply (fl_other _ _ _ F).
    + intros P HP. pose proof (fills_frames _ _ _ _ HP F) as [Hu Hi]. split.
      * intros vp e Hp He. simpl in He. rewrite swap_twice_translate in He. simpl.
        rewrite swap_twice_heap. by apply (Hu vp e).
      * intros vp1 vp2 e1 e2. simpl. rewrite !swap_twice_translate. apply Hi.
    + intros p Hp. simpl in Hp. rewrite swap_twice_mem in Hp. by apply (fl_mem _ _ _ F).
    + intros Hlt. unfold perm. simpl. rewrite swap_twice_translate. replace (Z.max 0 k') with k' by lia.
      by apply Hend.
Qed.

(** A task's buffer is accepted exactly when every byte of it lies in a page
    the task may access that way; for writing, pages of its lazily allocated heap
    count too. *)
Theorem task_validate_mem_correct s t (vaddr len : Z) (rw : bool) :
  tm_ok s t -> is_u32 vaddr -> len < 2 ^ 31 - 4096 -> vaddr + len <= 2 ^ 32 ->
  exists b, task_validate_mem s t vaddr len rw = Some b /\
    (b = true <-> 0 <= len /\ area_allowed s t rw vaddr len).
Proof.
  intros Hok Hv Hl Hm. unfold task_validate_mem.
  destruct (len <? 0) eqn:?; [exists false; split; [done|split; [done|lia]]|].
  destruct (len =? 0) eqn:?.
  { exists true. split; [done|]. split; [|done]. intros _. split; [lia|]. intros i Hi. lia. }
  assert (Hn : area_pages vaddr len = (vaddr mod 4096 + len + 4095) / 4096)
    by (apply area_pages_spec; [done|lia]).
  unfold is_u32 in *.
  destruct (scan_pages_spec (Z.to_nat (area_pages vaddr len)) 0 s t vaddr len rw)
    as (k & -> & Hk & Hall & Hstop); [done|done|lia|done|lia|Z.div_mod_to_equations; lia|].
  rewrite bind_Some_l. eexists. split; [done|].
  assert (Hnn : Z.of_nat (Z.to_nat (area_pages vaddr len)) = area_pages vaddr len)
    by (Z.div_mod_to_equations; lia).
  rewrite Hnn in *. split.
  - intros He. split; [lia|]. intros i Hi.
    replace ((vaddr + i) / 4096) with (vaddr / 4096 + ((vaddr + i) / 4096 - vaddr / 4096)) by lia.
    apply Hall. Z.div_mod_to_equations. lia.
  - intros [_ Ha]. destruct (k =? area_pages vaddr len) eqn:He; [done|]. exfalso.
    apply Hstop; [lia|].
    assert (Hi : exists i, 0 <= i < len /\ (vaddr + i) / 4096 = vaddr / 4096 + k).
    { destruct (decide (k = 0)) as [->|Hk0].
      - exists 0. split; [lia|]. by rewrite !Z.add_0_r.
      - exists ((vaddr / 4096 + k) * 4096 - vaddr).
        replace (vaddr + ((vaddr / 4096 + k) * 4096 - vaddr)) with ((vaddr / 4096 + k) * 4096) by lia.
        rewrite Z.div_mul by lia. split; [|done]. Z.div_mod_to_equations. lia. }
    destruct Hi as (i & Hi & <-). by apply Ha.
Qed.

(** C23: a copy into a task's buffer writes a prefix of the data and reports its
    length; it stops only at a page the task may not write (or that memory has run
    out for). A page that it maps on the way is a page of the buffer and of the heap of the
    task, is writable, and has a frame that nobody used and that reads as zero where
    the data was not written; no other byte of the memory in use and no other
    translation of any address space changes. *)
Theorem copy_to_task_correct s t (dest : Z) (src : list Z) :
  tm_ok s t -> frames_ok s t (area dest (zlen src)) -> is_u32 dest ->
  zlen src < 2 ^ 31 - 4096 -> dest + zlen src <= 2 ^ 32 ->
  exists n s', copy_to_task s t dest src = Some (n, s') /\ copied s s' t dest src n.
Proof. apply copy_to_task_spec. Qed.

End task_memory_spec.

(** ** The interface of a user buffer

    What the file system needs of the memory it copies file contents to: the
    buffer [base .. base + size - 1] of a task. A copy may allocate pages, so it
    works on the heap; [ub_own] are the pages of the heap the buffer depends on. *)

Class UserBuffer (H U : Type) `{Allocator H} (base size : Z) := {
  ub_copy : U -> H -> Z -> list Z -> option (Z * U * H);
  ub_view : U -> Z -> option Z;
  ub_own : U -> Z -> Prop;
  ub_wf : U -> H -> Prop;
  ub_wf_used u h q : ub_wf u h -> ub_own u q -> al_used h q;
  ub_wf_heap u h h' : ub_wf u h -> al_wf h' -> (forall q, ub_own u q -> al_used h' q) -> ub_wf u h';
  ub_copy_ok u h dest src :
    ub_wf u h -> base <= dest -> dest + zlen src <= base + size ->
    exists n u' h', ub_copy u h dest src = Some (n, u', h') /\ ub_wf u' h' /\ al_wf h' /\
      (n = -1 \/ 0 <= n <= zlen src) /\
      (forall i b, 0 <= i < n -> zget src i = Some b -> ub_view u' (dest + i) = Some b) /\
      (forall v b, base <= v < base + size -> ~ (dest <= v < dest + n) ->
         ub_view u v = Some b -> ub_view u' v = Some b) /\
      (forall q, al_used h q -> al_used h' q) /\
      (forall q, ub_own u' q -> ub_own u q \/ ~ al_used h q) }.

Section instance.
Context {H : Type} `{Allocator H} (t : tspace) (base size : Z)
  (Hbase : 0 <= base) (Hsize : base + size < 2 ^ 32) (Hsmall : size < 2 ^ 31 - 4096).

(** The task's memory, its heap apart. *)
Definition tu_with_heap (u : tmem (H := H)) (h : H) : tmem := tm_with_pg u (set_heap (tm_pg u) h).

Definition tu_copy (u : tmem (H := H)) (h : H) (dest : Z) (src : list Z) : option (Z * tmem * H) :=
  '(n, u) ← copy_to_task (tu_with_heap u h) t dest src;
  Some (n, u, ps_heap (tm_pg u)).

Definition tu_own (u : tmem (H := H)) (q : Z) : Prop :=
  (exists p, is_Some (ps_mem (tm_pg u) !! p) /\ q = p / 4096) \/
  (exists vp e, area base size vp /\ translate (tm_pg u) (t_dir t) vp = Some e /\ q = address e).

Definition tu_wf (u : tmem (H := H)) (h : H) : Prop :=
  tm_ok (tu_with_heap u h) t /\ frames_ok (tu_with_heap u h) t (area base size).

Lemma tu_wf_used u h q : tu_wf u h -> tu_own u q -> al_used h q.
Proof.
  intros [[Hwf _] [Hu _]] [(p & [x Hp] & ->)|(vp & e & Ha & He & ->)].
  - by apply (pw_used _ Hwf p x Hp).
  - by apply (Hu vp e).
Qed.

Lemma tu_wf_heap u h h' : tu_wf u h -> al_wf h' -> (forall q, tu_own u q -> al_used h' q) -> tu_wf u h'.
Proof.
  intros [[[W1 W2 W3 W4 W5 W6] Hd] [Hu Hi]] Hw Hown. split.
  - constructor; [|done]. constructor; try done. intros p x Hp. simpl in *.
    destruct (W2 p x Hp) as (_ & ? & ?). split; [|done]. apply Hown. left. exists p. by split.
  - split; [|done]. intros vp e Hvp He. apply Hown. right. by exists vp, e.
Qed.

Lemma area_sub v n dest k vp :
  v <= dest -> dest + k <= v + n -> area dest k vp -> area v n vp.
Proof. intros H1 H2 (i & Hi & ->). exists (dest + i - v). split; [lia|]. f_equal. lia. Qed.

Lemma view_in_area (s : tmem (H := H)) v b :
  user_read s (t_dir t) v = Some b ->
  exists e, translate (tm_pg s) (t_dir t) (v / 4096) = Some e /\
    user_addr (tm_pg s) (t_dir t) v = Some (pa_of s t v) /\ b = tm_bytes s (pa_of s t v) /\
    pa_of s t v / 4096 = address e.
Proof.
  unfold user_read, pa_of, user_addr, PAGE_SIZE.
  destruct (translate _ _ (v / 4096)) as [e|] eqn:He; [|done]. simpl. intros Hb. simplify_eq.
  exists e. split_and!; try done. rewrite Z.div_add_l by lia.
  rewrite Z.div_small by (apply Z.mod_pos_bound; lia). lia.
Qed.

Lemma tu_copy_ok u h dest src :
  tu_wf u h -> base <= dest -> dest + zlen src <= base + size ->
  exists n u' h', tu_copy u h dest src = Some (n, u', h') /\ tu_wf u' h' /\ al_wf h' /\
    (n = -1 \/ 0 <= n <= zlen src) /\
    (forall i b, 0 <= i < n -> zget src i = Some b -> user_read u' (t_dir t) (dest + i) = Some b) /\
    (forall v b, base <= v < base + size -> ~ (dest <= v < dest + n) ->
       user_read u (t_dir t) v = Some b -> user_read u' (t_dir t) v = Some b) /\
    (forall q, al_used h q -> al_used h' q) /\
    (forall q, tu_own u' q -> tu_own u q \/ ~ al_used h q).
Proof.
  intros [Hok Hfr] H1 H2. pose proof (zlen_nonneg src).
  set (s := tu_with_heap u h) in *. unfold tu_copy. fold s.
  destruct (copy_to_task_spec s t dest src) as (n & s' & -> & C).
  - done.
  - apply (frames_ok_mono _ _ (area base size)); [|done]. intros vp Hvp. by eapply area_sub.
  - unfold is_u32. lia.
  - lia.
  - lia.
  - simpl. exists n, s', (ps_heap (tm_pg s')). split; [done|].
    assert (Hid : tu_with_heap s' (ps_heap (tm_pg s')) = s') by (by destruct s' as [[]]).
    assert (Hfr' : frames_ok s' t (area base size)) by (by apply (cp_frames _ _ _ _ _ _ C)).
    assert (Hin : forall v, base <= v < base + size -> area base size (v / 4096)).
    { intros v Hv. exists (v - base). split; [lia|]. f_equal. lia. }
    split; [unfold tu_wf; rewrite Hid; split; [apply C|done]|].
    split; [apply (pw_heap _ (to_wf _ _ (cp_ok _ _ _ _ _ _ C)))|].
    split; [apply C|]. split; [apply C|]. split; [|split].
    + intros v b Hv Hout Hr. change (user_read s (t_dir t) v = Some b) in Hr.
      destruct (view_in_area _ _ _ Hr) as (e & He & Hua & -> & Hpe).
      pose proof (cp_some _ _ _ _ _ _ C _ _ He) as He'.
      assert (Hua' : user_addr (tm_pg s') (t_dir t) v = Some (pa_of s t v)).
      { rewrite <-Hua. unfold user_addr, PAGE_SIZE. by rewrite He, He'. }
      unfold user_read. rewrite Hua', bind_Some_l. f_equal. apply (cp_rest _ _ _ _ _ _ C).
      * rewrite Hpe. destruct Hfr as [Hu _]. apply (Hu (v / 4096)); [by apply Hin|done].
      * intros i Hi Hpa. destruct (cp_n _ _ _ _ _ _ C) as [Hn|Hn]; [lia|].
        destruct (zget_is_Some src i ltac:(lia)) as [b Hb].
        destruct (view_in_area _ _ _ (cp_data _ _ _ _ _ _ C i b Hi Hb)) as (_ & _ & Hua2 & _ & _).
        rewrite Hpa in Hua2. assert (dest + i = v); [|lia].
        apply (user_addr_inj s' t (area base size) _ _ (pa_of s t v)); [done|apply Hin; lia|by apply Hin|done..].
    + apply C.
    + intros q [(p & Hp & ->)|(vp & e & Ha & He & ->)].
      * destruct (cp_mem _ _ _ _ _ _ C p Hp) as [?|?]; [left; left; by exists p|by right].
      * destruct (translate (tm_pg s) (t_dir t) vp) as [e'|] eqn:He0.
        -- rewrite (cp_some _ _ _ _ _ _ C _ _ He0) in He. simplify_eq. left. right. by exists vp, e.
        -- right. by apply (cp_new _ _ _ _ _ _ C vp e He0 He).
Qed.

Definition task_user_buffer : UserBuffer H (tmem (H := H)) base size := {|
  ub_copy := tu_copy;
  ub_view u v := user_read u (t_dir t) v;
  ub_own := tu_own;
  ub_wf := tu_wf;
  ub_wf_used := tu_wf_used;
  ub_wf_heap := tu_wf_heap;
  ub_copy_ok := tu_copy_ok |}.

End instance.

(** ** Witnesses: a task with one empty directory and a demand paged heap *)

Definition demo_task : tspace := TSpace HEAP_KERNEL 2097152 4194304.

Definition demo_tmem : tmem (H := heap) := TMem boot1 (fun _ => 170).

Lemma demo_tm_ok : tm_ok demo_tmem demo_task.
Proof. constructor; [exact (fr_wf _ _ _ boot1_fresh)|]. exists zero_dir. exact (fr_dir _ _ _ boot1_fresh). Qed.

Lemma demo_no_frames P : frames_ok demo_tmem demo_task P.
Proof.
  assert (Hn : forall vp, translate boot1 HEAP_KERNEL vp = None).
  { intros vp. unfold translate, tab_of. rewrite (fr_dir _ _ _ boot1_fresh). simpl.
    destruct (zget zero_dir (vp / 1024)) as [e|] eqn:He; [|done]. simpl.
    by rewrite (zero_dir_entry _ _ He). }
  split; intros; simpl in *; exfalso; congruence.
Qed.

(** A read of unmapped memory is refused, a write to the heap accepted. *)
Lemma task_validate_mem_correct_witness :
  task_validate_mem demo_tmem demo_task 2097160 5000 false = Some false /\
  area_allowed demo_tmem demo_task true 2097160 5000.
Proof.
  split; [vm_compute; reflexivity|].
  assert (He : task_validate_mem demo_tmem demo_task 2097160 5000 true = Some true)
    by (vm_compute; reflexivity).
  destruct (task_validate_mem_correct demo_tmem demo_task 2097160 5000 true demo_tm_ok)
    as (b & Hb & Hiff); [unfold is_u32; lia|lia|lia|].
  rewrite He in Hb. injection Hb as <-. apply Hiff. reflexivity.
Defined.

(** Two bytes across a page boundary of the heap: both pages are allocated, and the byte
    after the data reads as zero, though memory was full of other bytes. *)
Lemma copy_to_task_correct_witness :
  exists s', copy_to_task demo_tmem demo_task 2101247 [7; 9] = Some (2, s') /\
    user_read s' HEAP_KERNEL 2101248 = Some 9 /\
    (exists e, translate (tm_pg s') HEAP_KERNEL 513 = Some e /\ tm_bytes s' (address e * 4096 + 1) = 0) /\
    tm_bytes demo_tmem 0 = 170.
Proof.
  destruct (copy_to_task_correct demo_tmem demo_task 2101247 [7; 9] demo_tm_ok (demo_no_frames _))
    as (n & s' & He & C); [unfold is_u32; lia|vm_compute; reflexivity|vm_compute; discriminate|].
  assert (Hn : option_map fst (copy_to_task demo_tmem demo_task 2101247 [7; 9]) = Some 2)
    by (vm_compute; reflexivity).
  rewrite He in Hn. injection Hn as ->. exists s'. split; [exact He|].
  pose proof (cp_data _ _ _ _ _ _ C 0 7 ltac:(lia) eq_refl) as H0.
  pose proof (cp_data _ _ _ _ _ _ C 1 9 ltac:(lia) eq_refl) as H1. split; [exact H1|]. split; [|reflexivity].
  destruct (view_in_area _ _ _ _ H0) as (e0 & E0 & A0 & _ & _), (view_in_area _ _ _ _ H1) as (e1 & E1 & A1 & _ & _).
  change (2101247 + 0) with 2101247 in *. change (2101247 + 1) with 2101248 in *.
  change (2101247 / 4096) with 512 in E0. change (2101248 / 4096) with 513 in E1.
  assert (Hn1 : translate (tm_pg demo_tmem) (t_dir demo_task) 513 = None) by (vm_compute; reflexivity).
  destruct (cp_new _ _ _ _ _ _ C 513 e1 Hn1 E1) as (_ & _ & _ & _ & _ & Hz). exists e1. split; [exact E1|].
  apply Hz; [rewrite Z.div_add_l by lia; change (1 / 4096) with 0; lia|].
  assert (Hm : forall v e, translate (tm_pg s') (t_dir demo_task) (v / 4096) = Some e ->
    pa_of s' demo_task v = address e * 4096 + v mod 4096).
  { intros v e E. unfold pa_of, user_addr, PAGE_SIZE. rewrite E. reflexivity. }
  intros i Hi Hpa. assert (i = 0 \/ i = 1) as [-> | ->] by lia.
  - rewrite (Hm (2101247 + 0) e0 E0) in Hpa. change ((2101247 + 0) mod 4096) with 4095 in Hpa. lia.
  - rewrite (Hm (2101247 + 1) e1 E1) in Hpa. change ((2101247 + 1) mod 4096) with 0 in Hpa. lia.
Defined.
