(* ===== verification/Fat.v ===== *)
(** * The FAT16 file system: table, cluster chains and file contents (fat.c)

    The mounted volume is the record [fat]: the geometry computed from the BPB,
    the cached allocation table with its dirty marks, and the disk and kernel heap
    of Ata. The file contents are read and written a cluster at a time along the
    chain of a file; directories are in FatDir. The buffers of the kernel are
    values; their addresses are kept to free them. *)

From S2P Require Import Prelude Memory Ata TaskMem.

Local Open Scope Z_scope.

Definition baseAddr : Z := 512000.

(** ** State *)

Record volume := Volume {
  bytesPerSector : Z; sectorsPerCluster : Z; noReservedSectors : Z; noTables : Z;
  noRootEntries : Z; sectorsPerFat : Z;
  noSectors : Z; noClusters : Z; rootSize : Z; rootSector : Z; firstDataSector : Z }.

Definition bytesPerCluster (v : volume) : Z := sectorsPerCluster v * bytesPerSector v.

(** The address of the first sector of a cluster. *)
Definition cluster_addr (v : volume) (c : Z) : Z :=
  u32 (baseAddr + u32 (u32 ((c - 2) * sectorsPerCluster v + firstDataSector v) * bytesPerSector v)).

Definition root_addr (v : volume) : Z := u32 (u32 (rootSector v * bytesPerSector v) + baseAddr).

Definition fat_table_addr (v : volume) (table : Z) : Z :=
  u32 (baseAddr + noReservedSectors v * bytesPerSector v + table * sectorsPerFat v * bytesPerSector v).

Definition fat_valid_cluster (v : volume) (cluster : Z) : bool :=
  negb ((65528 <=? cluster) || (cluster =? 65527) || (cluster <? 2) || (noClusters v <=? cluster)).

Definition END_OF_CHAIN : Z := 65535.

(** Entry [c] of the table: an access outside it is not made by the code. *)
Definition tget (t : list Z) (c : Z) : Z := default 0 (zget t c).

(** The table as the bytes on disk, and back. *)
Definition table_bytes (t : list Z) : list Z := mjoin (to_le16 <$> t).

Definition table_of_bytes (n : nat) (l : list Z) : list Z :=
  (fun i => le16 l (2 * Z.of_nat i)) <$> seq 0 n.

Section fat.
Context {H : Type} `{Allocator H}.

(** [fat_bpb_ptr], [fat_table_ptr] and [dirty_ptr] are the addresses of the three
    buffers of a mounted volume (NULL before the first mount). *)
Record fat := Fat {
  f_io : io H; f_vol : volume; fat_table : list Z; dirty_clusters : list bool; tableSize : Z;
  fat_bpb_ptr : Z; fat_table_ptr : Z; dirty_ptr : Z }.

Definition with_io (s : fat) (x : io H) : fat :=
  Fat x (f_vol s) (fat_table s) (dirty_clusters s) (tableSize s) (fat_bpb_ptr s) (fat_table_ptr s) (dirty_ptr s).
Definition with_table (s : fat) (t : list Z) (d : list bool) : fat :=
  Fat (f_io s) (f_vol s) t d (tableSize s) (fat_bpb_ptr s) (fat_table_ptr s) (dirty_ptr s).

Definition table_entries (s : fat) : Z := tableSize s / 2.

(** ** Disk and heap *)

Definition fat_malloc (s : fat) (n : Z) : Z * fat :=
  let '(p, x) := io_malloc (f_io s) n in (p, with_io s x).
Definition fat_free (s : fat) (p n : Z) : fat := with_io s (io_free (f_io s) p n).
Definition disk_read (s : fat) (addr n : Z) : option (Z * list Z) * fat :=
  let '(r, x) := ata_read_exact (f_io s) addr n in (r, with_io s x).
Definition disk_write (s : fat) (addr : Z) (buf : list Z) (n : Z) : bool * fat :=
  let '(r, x) := ata_write_exact (f_io s) addr buf n in (r, with_io s x).

(** ** Mounting *)

Definition INFO_SIZE : Z := 512.   (* sizeof(fat_bpb_t) + sizeof(fat_ebr_t) *)

(** The geometry of a BPB, when it passes the checks. *)
Definition bpb_volume (buf : list Z) : option volume :=
  let bps := le16 buf 11 in
  let spc := byte_at buf 13 in
  let reserved := le16 buf 14 in
  let tables := byte_at buf 16 in
  let rootEntries := le16 buf 17 in
  let smallSectors := le16 buf 19 in
  let spf := le16 buf 22 in
  let largeSectors := le32 buf 32 in
  if (bps =? 0) || (spc =? 0) || (tables =? 0) || (spf =? 0) then None
  else
    let sectors := if smallSectors =? 0 then largeSectors else smallSectors in
    let root := (rootEntries * 32 + (bps - 1)) / bps in
    let rootSect := reserved + tables * spf in
    let firstData := rootSect + root in
    if sectors <=? firstData then None
    else
      let clusters := u32 ((sectors - firstData) / spc + 2) in
      let fatEntries := u32 (spf * bps) / 2 in
      Some (Volume bps spc reserved tables rootEntries spf sectors
              (if fatEntries <? clusters then fatEntries else clusters) root rootSect firstData).

Definition fat_get_info (s : fat) : bool * fat :=
  match disk_read s baseAddr INFO_SIZE with
  | (None, s) => (false, s)
  | (Some (buf_ptr, buf), s) =>
      match bpb_volume buf with
      | None => (false, fat_free s buf_ptr INFO_SIZE)
      | Some v =>
          let s := fat_free s (fat_bpb_ptr s) INFO_SIZE in
          (true, Fat (f_io s) v (fat_table s) (dirty_clusters s) (tableSize s)
                   buf_ptr (fat_table_ptr s) (dirty_ptr s))
      end
  end.

Definition fat_setup (s : fat) : bool * fat :=
  let '(ok, s) := fat_get_info s in
  if negb ok then (false, s)
  else
    let v := f_vol s in
    let newTableSize := u32 (sectorsPerFat v * bytesPerSector v) in
    let fatTableAddr := u32 (baseAddr + noReservedSectors v * bytesPerSector v) in
    match disk_read s fatTableAddr newTableSize with
    | (None, s) => (false, s)
    | (Some (tab_ptr, tab), s) =>
        let '(dirty_new, s) := fat_malloc s (newTableSize / 2) in
        if dirty_new =? 0 then (false, fat_free s tab_ptr newTableSize)
        else
          let s := if fat_table_ptr s =? 0 then s else fat_free s (fat_table_ptr s) (tableSize s) in
          let s := if dirty_ptr s =? 0 then s else fat_free s (dirty_ptr s) (tableSize s / 2) in
          (true, Fat (f_io s) v (table_of_bytes (Z.to_nat (newTableSize / 2)) tab)
                   (replicate (Z.to_nat (newTableSize / 2)) false) newTableSize
                   (fat_bpb_ptr s) tab_ptr dirty_new)
    end.

(** ** The cached table *)

Definition fat_table_update_cluster (s : fat) (clusterNo value : Z) : bool * fat :=
  if (noClusters (f_vol s) <=? clusterNo) || (table_entries s <=? clusterNo) then (false, s)
  else (true, with_table s (zset (fat_table s) clusterNo value)
                 (zset (dirty_clusters s) clusterNo true)).

(** The loop of [fat_table_flush_write] over the copies of the table. *)
Fixpoint flush_tables (n : nat) (i : Z) (s : fat) (byteOffset size : Z) (ok : bool) : bool * fat :=
  match n with
  | O => (ok, s)
  | S n =>
      let '(w, s) :=
        disk_write s (u32 (fat_table_addr (f_vol s) i + byteOffset))
          (slice (table_bytes (fat_table s)) byteOffset size) size in
      flush_tables n (i + 1) s byteOffset size (if w then ok else false)
  end.

Definition fat_table_flush_write (s : fat) (firstSector count : Z) : bool * fat :=
  flush_tables (Z.to_nat (noTables (f_vol s))) 0 s (u32 (firstSector * ATA_SECTOR_SIZE))
    (u32 (count * ATA_SECTOR_SIZE)) true.

(** [for(c = ...; c < to; c++)]: was one of the [n] entries from [c] dirty, and
    the marks with those entries cleared. *)
Fixpoint clear_dirty (n : nat) (c : Z) (d : list bool) (sectorDirty : bool) : bool * list bool :=
  match n with
  | O => (sectorDirty, d)
  | S n =>
      if default false (zget d c)
      then clear_dirty n (c + 1) (zset d c false) true
      else clear_dirty n (c + 1) d sectorDirty
  end.

Definition PER_SECTOR : Z := 256.

(** The loop over the sectors from [sector] to [last]; [n] is their number. *)
Fixpoint flush_loop (n : nat) (sector : Z) (s : fat) (runStart runLen : Z) (ok : bool) : bool * fat :=
  match n with
  | O =>
      if 0 <? runLen then
        let '(w, s) := fat_table_flush_write s runStart runLen in (ok && w, s)
      else (ok, s)
  | S n =>
      let entries := table_entries s in
      let to := if entries <? (sector + 1) * PER_SECTOR then entries else (sector + 1) * PER_SECTOR in
      let '(sectorDirty, d) :=
        clear_dirty (Z.to_nat (to - sector * PER_SECTOR)) (sector * PER_SECTOR) (dirty_clusters s) false in
      let s := with_table s (fat_table s) d in
      if sectorDirty then
        flush_loop n (sector + 1) s (if runLen =? 0 then sector else runStart) (runLen + 1) ok
      else if 0 <? runLen then
        let '(w, s) := fat_table_flush_write s runStart runLen in
        flush_loop n (sector + 1) s runStart 0 (ok && w)
      else flush_loop n (sector + 1) s runStart runLen ok
  end.

Definition fat_table_flush_cache (s : fat) (start end_ : Z) : bool * fat :=
  let entries := table_entries s in
  if entries <=? start then (true, s)
  else
    let end_ := if entries <=? end_ then entries - 1 else end_ in
    flush_loop (Z.to_nat (end_ / PER_SECTOR - start / PER_SECTOR + 1)) (start / PER_SECTOR) s 0 0 true.

Definition fat_table_flush_cache_all (s : fat) : bool * fat :=
  fat_table_flush_cache s 0 (u32 (table_entries s - 1)).

(** [for(i = 2; i < noClusters; i++) if(table[i] == 0) count++] *)
Fixpoint count_free (n : nat) (i : Z) (t : list Z) (count : Z) : Z :=
  match n with
  | O => count
  | S n => count_free n (i + 1) t (if tget t i =? 0 then count + 1 else count)
  end.

Definition fat_free_clusters (s : fat) : Z :=
  count_free (Z.to_nat (noClusters (f_vol s) - 2)) 2 (fat_table s) 0.

Definition fat_max_file_size (s : fat) : Z :=
  if noClusters (f_vol s) <? 3 then 0
  else u32 ((noClusters (f_vol s) - 2) * bytesPerCluster (f_vol s)).

(** ** Chains *)

(** A loop that follows a chain takes at most one turn per entry of the table
    before it meets an entry that it has freed. *)
Definition chain_fuel (s : fat) : nat := S (length (fat_table s)).

(** [while(fat_valid_cluster(cur)) { ...; update(cur, 0); ...; cur = next; }], with
    the number of clusters freed, the lowest and highest one, and the result. *)
Fixpoint free_chain (fuel : nat) (s : fat) (cur freed min max : Z) (ok : bool)
    : Z * Z * Z * bool * fat :=
  match fuel with
  | O => (freed, min, max, ok, s)
  | S fuel =>
      if fat_valid_cluster (f_vol s) cur then
        let next := tget (fat_table s) cur in
        let '(w, s) := fat_table_update_cluster s cur 0 in
        free_chain fuel s next (freed + 1) (if cur <? min then cur else min)
          (if max <? cur then cur else max) (if w then ok else false)
      else (freed, min, max, ok, s)
  end.

Definition fat_unwind_chain (s : fat) (lastCluster origTail : Z) : fat :=
  if negb (fat_valid_cluster (f_vol s) lastCluster) then s
  else
    let cur := tget (fat_table s) lastCluster in
    if cur =? origTail then s
    else
      let '(_, s) := fat_table_update_cluster s lastCluster origTail in
      let '(_, _, _, _, s) := free_chain (chain_fuel s) s cur 0 cur cur true in s.

(** [for(i = 1; i < n; i++) { next = table[cur]; if(!valid(next)) break; cur = next; }] *)
Fixpoint walk_chain (n : nat) (v : volume) (t : list Z) (cur : Z) : Z :=
  match n with
  | O => cur
  | S n =>
      let next := tget t cur in
      if fat_valid_cluster v next then walk_chain n v t next else cur
  end.

Definition clusters_for (v : volume) (size : Z) : Z :=
  u32 (size + bytesPerCluster v - 1) / bytesPerCluster v.

Definition fat_shrink_cluster_chain (s : fat) (startCluster oldSize newSize : Z) : Z * fat :=
  if negb (fat_valid_cluster (f_vol s) startCluster) then (-1, s)
  else
    let oldClusters := clusters_for (f_vol s) oldSize in
    let newClusters := clusters_for (f_vol s) newSize in
    if oldClusters <=? newClusters then (0, s)
    else
      let cur := walk_chain (Z.to_nat (newClusters - 1)) (f_vol s) (fat_table s) startCluster in
      let toFree := tget (fat_table s) cur in
      let '(ok, s) := fat_table_update_cluster s cur END_OF_CHAIN in
      let '(freed, min, max, ok, s) := free_chain (chain_fuel s) s toFree 0 cur cur ok in
      let '(w, s) := fat_table_flush_cache s min max in
      if negb (ok && w) then (-1, s) else (freed, s).

(** Zeroes the rest of the cluster of the old end of file. *)
Definition zero_gap (s : fat) (lastCluster oldSize newSize : Z) : bool * fat :=
  let bpc := bytesPerCluster (f_vol s) in
  if negb (oldSize mod bpc =? 0) || (oldSize =? 0) then
    let from := oldSize mod bpc in
    let to := u32 (newSize - (oldSize - from)) in
    let to := if bpc <? to then bpc else to in
    let gapAddr := cluster_addr (f_vol s) lastCluster in
    let '(gap, s) :=
      if from =? 0 then
        let '(p, s) := fat_malloc s bpc in
        (if p =? 0 then None else Some (p, replicate (Z.to_nat bpc) 0), s)
      else
        match disk_read s gapAddr bpc with
        | (None, s) => (None, s)
        | (Some (p, buf), s) =>
            (Some (p, splice buf from (replicate (Z.to_nat (to - from)) 0)), s)
        end in
    match gap with
    | None => (false, s)
    | Some (gapBuf, buf) =>
        let '(ok, s) := disk_write s gapAddr buf bpc in
        (ok, fat_free s gapBuf bpc)
    end
  else (true, s).

(** [while(c < noClusters && table[c] != 0) c++] on a 16-bit [c]. *)
Fixpoint find_free (fuel : nat) (v : volume) (t : list Z) (c : Z) : Z :=
  match fuel with
  | O => c
  | S fuel =>
      if (c <? noClusters v) && negb (tget t c =? 0) then find_free fuel v t (u16 (c + 1)) else c
  end.

(** The loop that allocates [n] clusters after [prev]; [None]: failed, the zero
    buffer is freed and the chain unwound. *)
Fixpoint extend_loop (n : nat) (s : fat) (lastCluster origTail prev searchFrom zeros : Z)
    (allocated min max : Z) : option (Z * Z * Z) * fat :=
  match n with
  | O => (Some (allocated, min, max), s)
  | S n =>
      let v := f_vol s in
      let bpc := bytesPerCluster v in
      let fail s := (None, fat_unwind_chain (fat_free s zeros bpc) lastCluster origTail) in
      let freeCluster := find_free (Z.to_nat (noClusters v)) v (fat_table s) searchFrom in
      if noClusters v <=? freeCluster then fail s
      else
        let searchFrom := u16 (freeCluster + 1) in
        let min := if freeCluster <? min then freeCluster else min in
        let max := if max <? freeCluster then freeCluster else max in
        let '(w, s) := disk_write s (cluster_addr v freeCluster) (replicate (Z.to_nat bpc) 0) bpc in
        if negb w then fail s
        else
          let '(u1, s) := fat_table_update_cluster s freeCluster END_OF_CHAIN in
          if negb u1 then fail s
          else
            let '(u2, s) := fat_table_update_cluster s prev freeCluster in
            if negb u2 then fail s
            else extend_loop n s lastCluster origTail freeCluster searchFrom zeros
                   (allocated + 1) min max
  end.

Definition fat_extend_cluster_chain (s : fat) (startCluster oldSize newSize : Z) : Z * fat :=
  let v := f_vol s in
  let bpc := bytesPerCluster v in
  let oldClusters := clusters_for v oldSize in
  let newClusters := clusters_for v newSize in
  let oldClusters := if oldClusters =? 0 then 1 else oldClusters in
  if newSize <=? oldSize then (0, s)
  else if negb (fat_valid_cluster v startCluster) then (-1, s)
  else
    let lastCluster := walk_chain (Z.to_nat (oldClusters - 1)) v (fat_table s) startCluster in
    let '(ok, s) := zero_gap s lastCluster oldSize newSize in
    if negb ok then (-1, s)
    else if newClusters <=? oldClusters then (0, s)
    else
      let needed := newClusters - oldClusters in
      if fat_free_clusters s <? needed then (-1, s)
      else
        let origTail := tget (fat_table s) lastCluster in
        let '(zeros, s) := fat_malloc s bpc in
        if zeros =? 0 then (-1, s)
        else
          match extend_loop (Z.to_nat needed) s lastCluster origTail lastCluster 2 zeros 0
                  lastCluster lastCluster with
          | (None, s) => (-1, s)
          | (Some (allocated, min, max), s) =>
              let '(w, s) := fat_table_flush_cache s min max in
              if negb w then
                let s := fat_free s zeros bpc in
                let s := fat_unwind_chain s lastCluster origTail in
                let '(_, s) := fat_table_flush_cache s min max in
                (-1, s)
              else (allocated, fat_free s zeros bpc)
          end.
End fat.

#[global] Arguments fat H : clear implicits.

(** ** Specification *)

(** A sane geometry: whole sectors of 512 bytes, areas that follow each other
    below 4 GB, and 16-bit cluster numbers. *)
Record vol_ok (v : volume) : Prop := {
  vo_bps : 0 < bytesPerSector v /\ bytesPerSector v mod 512 = 0;
  vo_spc : 0 < sectorsPerCluster v;
  vo_tables : 0 < noTables v;
  vo_spf : 0 < sectorsPerFat v;
  vo_reserved : 0 <= noReservedSectors v;
  vo_root : rootSector v = noReservedSectors v + noTables v * sectorsPerFat v;
  vo_first : 0 <= rootSize v /\ firstDataSector v = rootSector v + rootSize v;
  vo_clusters : 2 <= noClusters v <= 65527;
  vo_entries : noClusters v <= sectorsPerFat v * bytesPerSector v / 2;
  vo_end : firstDataSector v + (noClusters v - 2) * sectorsPerCluster v <= noSectors v;
  vo_max : baseAddr + noSectors v * bytesPerSector v < 2 ^ 32 - 1024;
  vo_cluster : bytesPerCluster v < 2 ^ 30;
  vo_table : sectorsPerFat v * bytesPerSector v < 2 ^ 30 }.

Definition u16_table (t : list Z) : Prop := forall c, 0 <= tget t c < 65536.

(** The clusters from [c] on: [l] ends at the first link that is not a cluster. *)
Fixpoint is_chain (v : volume) (t : list Z) (c : Z) (l : list Z) : Prop :=
  match l with
  | [] => fat_valid_cluster v c = false
  | x :: l => x = c /\ fat_valid_cluster v c = true /\ is_chain v t (tget t c) l
  end.

Section fat_spec.
Context {H : Type} `{Allocator H}.
Implicit Types (s : fat H) (v : volume) (t : list Z).

Definition f_ata s : ata := io_ata (f_io s).
Definition f_heap s : H := io_heap (f_io s).

Record fat_ok s : Prop := {
  fo_vol : vol_ok (f_vol s);
  fo_size : tableSize s = sectorsPerFat (f_vol s) * bytesPerSector (f_vol s);
  fo_table : zlen (fat_table s) = tableSize s / 2;
  fo_dirty : zlen (dirty_clusters s) = tableSize s / 2;
  fo_u16 : u16_table (fat_table s);
  fo_part : part_ok (f_ata s);
  fo_heap : al_wf (f_heap s) }.

(** ** Lemmas: chains *)

Lemma valid_range v c : fat_valid_cluster v c = true <->
  2 <= c < noClusters v /\ c < 65528 /\ c <> 65527.
Proof. unfold fat_valid_cluster. lia. Qed.

Lemma is_chain_valid v t c l : is_chain v t c l -> Forall (fun x => fat_valid_cluster v x = true) l.
Proof. revert c. induction l as [|x l IH]; intros c; simpl; [done|]. intros (-> & Hv & Hc). eauto. Qed.

Lemma is_chain_det v t c l l' : is_chain v t c l -> is_chain v t c l' -> l = l'.
Proof.
  revert c l'. induction l as [|x l IH]; intros c [|y l']; simpl; [done|..].
  - intros Hv (_ & Hv' & _). congruence.
  - intros (_ & Hv' & _) Hv. congruence.
  - intros (-> & _ & Hc) (-> & _ & Hc'). f_equal. by eapply IH.
Qed.

Lemma is_chain_suffix v t c l1 x l2 : is_chain v t c (l1 ++ x :: l2) -> is_chain v t x (x :: l2).
Proof.
  revert c. induction l1 as [|y l1 IH]; intros c; simpl.
  - intros (-> & ? & ?). done.
  - intros (_ & _ & Hc). by eapply IH.
Qed.

Lemma is_chain_NoDup v t c l : is_chain v t c l -> NoDup l.
Proof.
  revert c. induction l as [|x l IH]; intros c Hc; [constructor|].
  pose proof Hc as (-> & _ & Hc'). constructor; [|by eapply IH].
  intros Hin. apply list_elem_of_split in Hin as (l1 & l2 & ->).
  pose proof (is_chain_suffix v t c (c :: l1) c l2 Hc) as Hs.
  pose proof (is_chain_det _ _ _ _ _ Hc Hs) as He. apply (f_equal length) in He.
  simpl in He. rewrite length_app in He. simpl in He. lia.
Qed.

Lemma is_chain_agree v t t' c l :
  (forall x, x ∈ l -> tget t' x = tget t x) -> is_chain v t c l -> is_chain v t' c l.
Proof.
  revert c. induction l as [|x l IH]; intros c Ht; simpl; [done|].
  intros (-> & Hv & Hc). rewrite Ht by set_solver. split; [done|]. split; [done|].
  apply IH; [|done]. intros y Hy. apply Ht. set_solver.
Qed.

(** A chain whose link after [x] is changed. *)
Lemma is_chain_relink v t t' c l1 x l2 l2' :
  is_chain v t c (l1 ++ x :: l2) -> (forall y, y ∈ l1 -> tget t' y = tget t y) ->
  is_chain v t' (tget t' x) l2' -> is_chain v t' c (l1 ++ x :: l2').
Proof.
  revert c. induction l1 as [|y l1 IH]; intros c; simpl.
  - by intros (-> & Hv & _) _ Hc'.
  - intros (-> & Hv & Hc) Ht Hc'. split; [done|]. split; [done|]. rewrite Ht by set_solver.
    apply IH; [done| |done]. intros z Hz. apply Ht. set_solver.
Qed.

Lemma walk_chain_spec n v t c l :
  is_chain v t c l -> l <> [] -> l !! Nat.min n (length l - 1) = Some (walk_chain n v t c).
Proof.
  revert c l. induction n as [|n IH]; intros c l Hc Hl; simpl.
  - destruct l as [|x l]; [done|]. by destruct Hc as (-> & _).
  - destruct l as [|x l]; [done|]. destruct Hc as (-> & Hv & Hc).
    destruct l as [|y l].
    + simpl in Hc. rewrite Hc. done.
    + pose proof Hc as (-> & Hv' & _). rewrite Hv'. apply IH in Hc; [|done].
      rewrite <-Hc. simpl length. by replace (S (S (length l)) - 1)%nat with (S (S (length l) - 1)) by lia.
Qed.

(** ** Lemmas: the cached table *)

Lemma tget_zset t c x y : 0 <= c < zlen t -> tget (zset t c y) x = if decide (x = c) then y else tget t x.
Proof.
  intros Hc. unfold tget. rewrite zget_zset. case_decide as Hd; case_decide; try done; lia.
Qed.

Lemma tget_out t c : ~ (0 <= c < zlen t) -> tget t c = 0.
Proof. intros. unfold tget. by rewrite zget_None. Qed.

Lemma update_spec s c x :
  fat_ok s -> 0 <= c < noClusters (f_vol s) ->
  fat_table_update_cluster s c x =
    (true, with_table s (zset (fat_table s) c x) (zset (dirty_clusters s) c true)).
Proof.
  intros Hok Hc. unfold fat_table_update_cluster, table_entries.
  pose proof (vo_entries _ (fo_vol _ Hok)). rewrite <-(fo_size _ Hok) in *.
  destruct (_ || _) eqn:He; [lia|done].
Qed.

Lemma fat_ok_with_table s t d :
  fat_ok s -> zlen t = tableSize s / 2 -> zlen d = tableSize s / 2 -> u16_table t ->
  fat_ok (with_table s t d).
Proof. intros [? ? ? ? ? ? ?] Ht Hd Hu. by constructor. Qed.

Lemma fat_ok_update s c x :
  fat_ok s -> 0 <= c < noClusters (f_vol s) -> 0 <= x < 65536 ->
  fat_ok (with_table s (zset (fat_table s) c x) (zset (dirty_clusters s) c true)).
Proof.
  intros Hok Hc Hx. apply fat_ok_with_table; rewrite ?zlen_zset; [done|apply Hok..|].
  intros y. rewrite tget_zset; [case_decide; [lia|apply Hok]|].
  rewrite (fo_table _ Hok). pose proof (vo_entries _ (fo_vol _ Hok)). rewrite <-(fo_size _ Hok) in *. lia.
Qed.

Lemma cluster_in_table s c : fat_ok s -> 0 <= c < noClusters (f_vol s) -> 0 <= c < zlen (fat_table s).
Proof.
  intros Hok Hc. rewrite (fo_table _ Hok). pose proof (vo_entries _ (fo_vol _ Hok)).
  rewrite <-(fo_size _ Hok) in *. lia.
Qed.

(** [s'] differs from [s] in the table and the dirty marks only. *)
Definition table_only s s' : Prop :=
  exists t d, s' = with_table s t d /\ zlen t = zlen (fat_table s) /\ zlen d = zlen (dirty_clusters s).

(** ** Lemmas: the disk under the volume *)

(** Byte [x] of the partition. *)
Definition pbyte s (x : Z) : Z := a_disk (f_ata s) (part_addr (f_ata s) x).

(** Only the disk contents, the status register and the heap may differ. *)
Record io_step s s' : Prop := {
  is_io : s' = with_io s (f_io s');
  is_base : a_base (f_ata s') = a_base (f_ata s);
  is_part : a_part (f_ata s') = a_part (f_ata s);
  is_settled : settled (f_ata s) -> settled (f_ata s') }.

(** The volume lies in the partition. *)
Definition vol_in_part s : Prop :=
  a_part (f_ata s) <> 0 ->
  baseAddr + noSectors (f_vol s) * bytesPerSector (f_vol s) <= a_part (f_ata s) * 512.

Lemma io_step_refl s : io_step s s.
Proof. constructor; try done. by destruct s. Qed.

Lemma io_step_trans s1 s2 s3 : io_step s1 s2 -> io_step s2 s3 -> io_step s1 s3.
Proof.
  intros [E1 ? ? ?] [E2 ? ? ?]. constructor; [|congruence|congruence|auto].
  rewrite E2. rewrite E1. done.
Qed.

Lemma io_step_ok s s' : io_step s s' -> al_wf (f_heap s') -> fat_ok s -> fat_ok s'.
Proof.
  intros [E Hb Hp _] Hh [F1 F2 F3 F4 F5 F6 F7].
  assert (Hpart : part_ok (f_ata s')) by (unfold part_ok in *; by rewrite Hb, Hp).
  rewrite E in *. constructor; simpl in *; try done.
Qed.

Lemma io_step_vol s s' : io_step s s' -> f_vol s' = f_vol s /\ fat_table s' = fat_table s /\
  dirty_clusters s' = dirty_clusters s /\ tableSize s' = tableSize s.
Proof. intros [E _ _ _]. by rewrite E. Qed.

Lemma vol_in_part_step s s' : io_step s s' -> vol_in_part s -> vol_in_part s'.
Proof. intros Hs. unfold vol_in_part. destruct (io_step_vol _ _ Hs) as (-> & _). by rewrite (is_part _ _ Hs). Qed.

Definition vol_end v : Z := baseAddr + noSectors v * bytesPerSector v.

Lemma disk_write_spec s addr buf n :
  fat_ok s -> 0 <= addr -> 0 < n <= zlen buf -> addr + n <= vol_end (f_vol s) -> n < 2 ^ 31 ->
  addr mod 512 = 0 -> n mod 512 = 0 ->
  exists ok s', disk_write s addr buf n = (ok, s') /\ io_step s s' /\ fat_ok s' /\
    f_heap s' = f_heap s /\
    (forall x, ~ (addr <= x < addr + n) -> pbyte s' x = pbyte s x) /\
    (ok = true -> forall k, 0 <= k < n -> pbyte s' (addr + k) = byte_at buf k) /\
    (forall k, 0 <= k < n -> pbyte s' (addr + k) = byte_at buf k \/ pbyte s' (addr + k) = pbyte s (addr + k)) /\
    (settled (f_ata s) -> vol_in_part s -> ok = true).
Proof.
  intros Hok Ha Hn Hend Hm Hal Hnl. unfold disk_write. pose proof (vo_max _ (fo_vol _ Hok)) as Hmax.
  unfold vol_end in Hend.
  destruct (ata_write_exact_spec (f_io s) addr buf n (fo_part _ Hok) ltac:(lia) Hn Hm Hal Hnl)
    as (ok & x & k & -> & Hh & Hk & Hkm & (Hx & Hb & Hp) & Hset & Hsucc & Hv & _).
  assert (Hst : io_step s (with_io s x)) by (constructor; done).
  exists ok, (with_io s x). split; [done|]. split; [done|].
  assert (Hh' : f_heap (with_io s x) = f_heap s) by done.
  split; [apply (io_step_ok s); [done|rewrite Hh'; apply Hok|done]|]. split; [done|].
  split; [|split; [|split]].
  - intros y Hy. unfold pbyte, f_ata, part_addr in *. simpl. rewrite Hx, Hb. apply disk_put_out.
    rewrite zlen_slice by lia. lia.
  - intros Ht j Hj. destruct (Hv Ht) as [-> _]. unfold pbyte, f_ata, part_addr in *. simpl.
    rewrite Hx, Hb. rewrite disk_put_in by (rewrite zlen_slice; lia).
    unfold byte_at. rewrite zget_slice by lia. do 2 f_equal. lia.
  - intros j Hj. unfold pbyte, f_ata, part_addr in *. simpl. rewrite Hx, Hb.
    destruct (decide (j < k)).
    + left. rewrite disk_put_in by (rewrite zlen_slice; lia).
      unfold byte_at. rewrite zget_slice by lia. do 2 f_equal. lia.
    + right. apply disk_put_out. rewrite zlen_slice by lia. lia.
  - intros Hset' Hin. apply Hsucc; [done|]. pose proof (Z.div_mod addr 512 ltac:(lia)).
    pose proof (Z.div_mod n 512 ltac:(lia)). unfold in_part, vol_in_part, f_ata in *. lia.
Qed.

Lemma disk_read_spec s addr n :
  fat_ok s -> 0 <= addr -> 0 < n -> addr + n <= vol_end (f_vol s) -> n < 2 ^ 31 - 8192 ->
  exists r s', disk_read s addr n = (r, s') /\ io_step s s' /\ fat_ok s' /\
    (forall x, pbyte s' x = pbyte s x) /\
    match r with
    | None => heap_eq (f_heap s) (f_heap s') /\
        (settled (f_ata s) -> vol_in_part s -> out_of_memory (f_heap s) (n + 1024))
    | Some (p, buf) => p <> 0 /\ heap_plus (f_heap s) (f_heap s') p n /\ zlen buf = n /\
        (forall k, 0 <= k < n -> byte_at buf k = pbyte s (addr + k))
    end.
Proof.
  intros Hok Ha Hn Hend Hm. unfold disk_read. pose proof (vo_max _ (fo_vol _ Hok)) as Hmax.
  unfold vol_end in Hend.
  destruct (ata_read_exact_spec (f_io s) addr n (fo_part _ Hok) (fo_heap _ Hok) Ha Hn ltac:(lia) Hm)
    as (r & x & -> & (Hd & Hb & Hp) & Hset & Hr).
  assert (Hst : io_step s (with_io s x)) by (constructor; done).
  exists r, (with_io s x). split; [done|]. split; [done|].
  split; [apply (io_step_ok s); [done| |done]|].
  { destruct r as [[p buf]|]; [destruct Hr as (_ & Hr & _)|destruct Hr as [Hr _]]; apply Hr. }
  split.
  { intros y. unfold pbyte, f_ata, part_addr. simpl. by rewrite Hd, Hb. }
  destruct r as [[p buf]|].
  - destruct Hr as (Hp0 & Hr & -> & _). split; [done|]. split; [done|].
    split; [apply zlen_part_get; lia|]. intros k Hk. unfold part_get.
    rewrite byte_at_disk_get by lia. unfold pbyte, f_ata, part_addr. f_equal. lia.
  - destruct Hr as [Hr Hfail]. split; [done|]. intros Hs Hv.
    destruct (sectors_of_bounds addr n Ha Hn ltac:(lia)) as (? & ? & ? & ? & ? & ? & ? & ?).
    apply (out_of_memory_mono _ (f_heap s) (sectors_of addr n * 512)); [apply heap_eq_refl, Hok|lia|].
    apply Hfail; [done|].
    destruct (vo_bps _ (fo_vol _ Hok)) as [Hbps Hbpsm].
    assert (Hvm : (baseAddr + noSectors (f_vol s) * bytesPerSector (f_vol s)) mod 512 = 0).
    { apply Z.mod_divide; [lia|]. apply Z.mod_divide in Hbpsm; [|lia].
      apply Z.divide_add_r; [by exists 1000|]. by apply Z.divide_mul_r. }
    pose proof (Z.div_mod (baseAddr + noSectors (f_vol s) * bytesPerSector (f_vol s)) 512 ltac:(lia)).
    unfold in_part, vol_in_part, f_ata, part_addr in *. lia.
Qed.

Lemma fat_malloc_spec s n :
  fat_ok s -> 0 < n < 2 ^ 31 - 4096 ->
  exists p s', fat_malloc s n = (p, s') /\ io_step s s' /\ fat_ok s' /\ f_ata s' = f_ata s /\
    ((p = 0 /\ s' = s) \/ (p <> 0 /\ heap_plus (f_heap s) (f_heap s') p n)).
Proof.
  intros Hok Hn. unfold fat_malloc.
  destruct (io_malloc_spec (f_io s) n (fo_heap _ Hok) Hn) as (p & x & -> & Hx & Hc).
  assert (Ha : f_ata (with_io s x) = f_ata s) by done.
  assert (Hst : io_step s (with_io s x)) by (constructor; [done|by rewrite Ha..]).
  exists p, (with_io s x). split; [done|]. split; [done|]. destruct Hc as [[-> ->]|[Hp Hplus]].
  - assert (with_io s (f_io s) = s) as -> by by destruct s. split; [done|]. split; [done|]. by left.
  - split; [apply (io_step_ok s); [done|apply Hplus|done]|]. split; [done|]. by right.
Qed.

Lemma fat_malloc_fst s s' n p : fat_malloc s n = (p, s') -> fst (al_malloc (f_heap s) n) = p.
Proof.
  unfold fat_malloc. destruct (io_malloc (f_io s) n) as [q x] eqn:He. intros. simplify_eq.
  by eapply io_malloc_fst.
Qed.

Lemma fat_free_spec h s p n :
  fat_ok s -> 0 < n < 2 ^ 31 - 4096 -> heap_plus h (f_heap s) p n ->
  io_step s (fat_free s p n) /\ fat_ok (fat_free s p n) /\ f_ata (fat_free s p n) = f_ata s /\
  heap_eq h (f_heap (fat_free s p n)).
Proof.
  intros Hok Hn Hp. destruct (io_free_spec h (f_io s) p n Hn Hp) as [He Ha].
  assert (Ha' : f_ata (fat_free s p n) = f_ata s) by done.
  assert (Hst : io_step s (fat_free s p n)) by (constructor; [done|by rewrite Ha'..]).
  split; [done|]. split; [apply (io_step_ok s); [done|apply He|done]|]. by split.
Qed.

(** ** Lemmas: flushing the table *)

(** The position of copy [i] of the table, and the table's length. *)
Definition fta v (i : Z) : Z :=
  baseAddr + noReservedSectors v * bytesPerSector v + i * (sectorsPerFat v * bytesPerSector v).

Definition table_len v : Z := sectorsPerFat v * bytesPerSector v.

Lemma mod512_mul a b : b mod 512 = 0 -> (a * b) mod 512 = 0.
Proof. intros Hb. rewrite Z.mul_mod, Hb, Z.mul_0_r by lia. done. Qed.

Lemma mod512_add a b : a mod 512 = 0 -> b mod 512 = 0 -> (a + b) mod 512 = 0.
Proof. intros Ha Hb. rewrite Z.add_mod, Ha, Hb by lia. done. Qed.

Lemma fta_spec v i :
  vol_ok v -> 0 <= i < noTables v ->
  fat_table_addr v i = fta v i /\ 0 <= fta v i /\ fta v i mod 512 = 0 /\
  fta v i + table_len v <= baseAddr + rootSector v * bytesPerSector v <= vol_end v.
Proof.
  intros [[Hb Hbm] Hspc Ht Hspf Hres Hroot [Hrs Hfirst] Hcl Hent Hend Hmax Hclu Htab] Hi.
  assert (Hm : fta v i mod 512 = 0).
  { unfold fta. apply mod512_add; [apply mod512_add|]; [done|by apply mod512_mul|].
    apply mod512_mul. by apply mod512_mul. }
  assert (Hle : fta v i + table_len v <= baseAddr + rootSector v * bytesPerSector v).
  { unfold fta, table_len. rewrite Hroot. nia. }
  assert (Hle2 : baseAddr + rootSector v * bytesPerSector v <= vol_end v).
  { unfold vol_end. assert (rootSector v <= noSectors v) by nia. nia. }
  assert (H0f : 0 <= fta v i) by (unfold fta, baseAddr; nia).
  split; [|by split_and!]. unfold fat_table_addr.
  replace (baseAddr + noReservedSectors v * bytesPerSector v + i * sectorsPerFat v * bytesPerSector v)
    with (fta v i) by (unfold fta; lia).
  apply u32_id. unfold vol_end, table_len in *. nia.
Qed.

Lemma to_le16_byte x : zlen (to_le16 x) = 2.
Proof. done. Qed.

Lemma zlen_table_bytes t : zlen (table_bytes t) = 2 * zlen t.
Proof.
  unfold table_bytes. induction t as [|x t IH]; [done|].
  change (mjoin (to_le16 <$> x :: t)) with (x mod 256 :: x / 256 mod 256 :: mjoin (to_le16 <$> t)).
  rewrite !zlen_cons. lia.
Qed.

(** Entry [c] of the table in its bytes. *)
Lemma table_bytes_entry t c :
  0 <= c < zlen t ->
  byte_at (table_bytes t) (2 * c) = tget t c mod 256 /\
  byte_at (table_bytes t) (2 * c + 1) = tget t c / 256 mod 256.
Proof.
  unfold table_bytes. revert c. induction t as [|x t IH]; intros c Hc; [rewrite zlen_nil in Hc; lia|].
  rewrite zlen_cons in Hc. change (mjoin (to_le16 <$> x :: t)) with (x mod 256 :: x / 256 mod 256 :: mjoin (to_le16 <$> t)).
  destruct (decide (c = 0)) as [->|Hc0]; [done|].
  destruct (IH (c - 1) ltac:(lia)) as [IH1 IH2].
  unfold byte_at, tget in *.
  assert (Hg : forall k, 0 <= k -> zget (x mod 256 :: x / 256 mod 256 :: mjoin (to_le16 <$> t)) (k + 2) =
                       zget (mjoin (to_le16 <$> t)) k).
  { intros k Hk. replace (k + 2) with (k + 1 + 1) by lia. by rewrite !zget_cons_S by lia. }
  replace (2 * c) with (2 * (c - 1) + 2) by lia. rewrite Hg by lia.
  replace (2 * (c - 1) + 2 + 1) with (2 * (c - 1) + 1 + 2) by lia. rewrite Hg by lia.
  replace (zget (x :: t) c) with (zget t (c - 1)); [done|].
  replace c with (c - 1 + 1) at 2 by lia. by rewrite zget_cons_S by lia.
Qed.

(** Copy [i] of entry [c] on the disk. *)
Definition disk_entry s (i c : Z) : Z :=
  pbyte s (fta (f_vol s) i + 2 * c) + 256 * pbyte s (fta (f_vol s) i + 2 * c + 1).

(** Every copy of entry [c] on the disk agrees with the cache. *)
Definition mirrored s (c : Z) : Prop :=
  forall i, 0 <= i < noTables (f_vol s) -> disk_entry s i c = tget (fat_table s) c.

(** Byte [x] belongs to bytes [off .. off + size - 1] of a copy of the table. *)
Definition in_tables v (off size x : Z) : Prop :=
  exists i, 0 <= i < noTables v /\ fta v i + off <= x < fta v i + off + size.

Lemma table_len_512 v : vol_ok v -> table_len v mod 512 = 0.
Proof. intros Hv. apply mod512_mul, Hv. Qed.

Lemma flush_tables_spec n i s off size ok :
  fat_ok s -> 0 <= i -> i + Z.of_nat n = noTables (f_vol s) ->
  0 <= off -> 0 < size -> off + size <= table_len (f_vol s) -> off mod 512 = 0 -> size mod 512 = 0 ->
  exists w s', flush_tables n i s off size ok = (w, s') /\ io_step s s' /\ fat_ok s' /\
    f_heap s' = f_heap s /\
    (forall x, (forall j, i <= j < noTables (f_vol s) ->
                  ~ (fta (f_vol s) j + off <= x < fta (f_vol s) j + off + size)) ->
               pbyte s' x = pbyte s x) /\
    (w = true -> ok = true /\ forall j, i <= j < noTables (f_vol s) -> forall k, 0 <= k < size ->
       pbyte s' (fta (f_vol s) j + off + k) = byte_at (table_bytes (fat_table s)) (off + k)) /\
    (settled (f_ata s) -> vol_in_part s -> w = ok).
Proof.
  revert i s ok. induction n as [|n IH]; intros i s ok Hok Hi Hn Ho Hs Hl Hom Hsm; cbn [flush_tables].
  { exists ok, s. split; [done|]. split; [apply io_step_refl|]. split; [done|]. split; [done|].
    split; [done|]. split; [|done]. intros ->. split; [done|]. lia. }
  pose proof (fo_vol _ Hok) as Hvol.
  destruct (fta_spec (f_vol s) i Hvol ltac:(lia)) as (Hfa & Hf0 & Hfm & Hfl).
  assert (Htl : zlen (table_bytes (fat_table s)) = table_len (f_vol s)).
  { rewrite zlen_table_bytes, (fo_table _ Hok), (fo_size _ Hok).
    pose proof (table_len_512 _ Hvol) as Hm. unfold table_len in *.
    pose proof (Z.div_mod (sectorsPerFat (f_vol s) * bytesPerSector (f_vol s)) 512 ltac:(lia)).
    pose proof (Z.div_mod (sectorsPerFat (f_vol s) * bytesPerSector (f_vol s)) 2 ltac:(lia)).
    pose proof (Z.mod_pos_bound (sectorsPerFat (f_vol s) * bytesPerSector (f_vol s)) 2 ltac:(lia)). lia. }
  assert (Hsl : zlen (slice (table_bytes (fat_table s)) off size) = size) by (apply zlen_slice; lia).
  pose proof (vo_max _ Hvol) as Hmax. pose proof (vo_table _ Hvol) as Htab. fold (table_len (f_vol s)) in Htab.
  unfold vol_end in Hfl.
  rewrite Hfa. rewrite u32_id by lia.
  destruct (disk_write_spec s (fta (f_vol s) i + off) (slice (table_bytes (fat_table s)) off size) size Hok)
    as (w1 & s1 & -> & Hst1 & Hok1 & Hh1 & Hout1 & Hin1 & _ & Hsucc1);
    [lia|lia|unfold vol_end; lia|lia|by apply mod512_add|done|].
  destruct (io_step_vol _ _ Hst1) as (Hv1 & Ht1 & _).
  destruct (IH (i + 1) s1 (if w1 then ok else false))
    as (w & s' & He & Hst & Hok' & Hh & Hout & Hin & Hsucc);
    [done|lia|rewrite Hv1; lia|done|done|by rewrite Hv1|done|done|].
  rewrite He. rewrite Hv1 in *. rewrite Ht1 in *.
  exists w, s'. split; [done|]. split; [by eapply io_step_trans|]. split; [done|]. split; [congruence|].
  split; [|split].
  - intros x Hx. rewrite Hout by (intros j Hj; apply Hx; lia). apply Hout1. intros Hx1. apply (Hx i); lia.
  - intros Hw. destruct (Hin Hw) as [Hok1' Hall]. destruct w1; [|done]. split; [done|].
    intros j Hj k Hk. destruct (decide (j = i)) as [->|Hji]; [|apply Hall; lia].
    rewrite Hout.
    + rewrite (Hin1 eq_refl) by lia. unfold byte_at. by rewrite zget_slice by lia.
    + intros j Hj2. unfold fta, table_len in *. nia.
  - intros Hset Hvp. rewrite Hsucc; [by rewrite Hsucc1|by apply Hst1|by eapply vol_in_part_step].
Qed.

(** Byte [x] belongs to a copy of the table. *)
Definition in_table_area v (x : Z) : Prop :=
  exists i, 0 <= i < noTables v /\ fta v i <= x < fta v i + table_len v.

(** The part of the disk entry [c] of copy [i] occupies. *)
Lemma disk_entry_ext s s' i c :
  f_vol s' = f_vol s ->
  (forall x, fta (f_vol s) i + 2 * c <= x < fta (f_vol s) i + 2 * c + 2 -> pbyte s' x = pbyte s x) ->
  disk_entry s' i c = disk_entry s i c.
Proof. intros Hv Hx. unfold disk_entry. rewrite Hv, !Hx by lia. done. Qed.

Lemma tables_apart v i j :
  vol_ok v -> 0 <= i -> 0 <= j -> i <> j ->
  fta v i + table_len v <= fta v j \/ fta v j + table_len v <= fta v i.
Proof.
  intros Hv Hi Hj Hne. pose proof (vo_spf _ Hv). destruct (vo_bps _ Hv). unfold fta, table_len.
  assert (0 < sectorsPerFat v * bytesPerSector v) by nia. destruct (decide (i < j)); [left|right]; nia.
Qed.

Lemma table_len_entries s : fat_ok s -> table_len (f_vol s) = 2 * table_entries s /\ table_entries s mod 256 = 0.
Proof.
  intros Hok. unfold table_entries. rewrite (fo_size _ Hok).
  pose proof (table_len_512 _ (fo_vol _ Hok)) as Hm. fold (table_len (f_vol s)) in *.
  Z.div_mod_to_equations. lia.
Qed.

Lemma flush_write_spec s a n :
  fat_ok s -> 0 <= a -> 0 < n -> (a + n) * 256 <= table_entries s ->
  exists w s', fat_table_flush_write s a n = (w, s') /\ io_step s s' /\ fat_ok s' /\
    f_heap s' = f_heap s /\
    (forall x, ~ in_table_area (f_vol s) x -> pbyte s' x = pbyte s x) /\
    (w = true -> forall c, a * 256 <= c < (a + n) * 256 -> mirrored s' c) /\
    (forall c, 0 <= c < table_entries s -> ~ (a * 256 <= c < (a + n) * 256) ->
       mirrored s c -> mirrored s' c) /\
    (settled (f_ata s) -> vol_in_part s -> w = true).
Proof.
  intros Hok Ha Hn Hend. pose proof (fo_vol _ Hok) as Hvol.
  destruct (table_len_entries s Hok) as [Htl Hte].
  pose proof (vo_table _ Hvol) as Hmax. fold (table_len (f_vol s)) in Hmax.
  unfold fat_table_flush_write, ATA_SECTOR_SIZE. rewrite !u32_id by lia.
  destruct (flush_tables_spec (Z.to_nat (noTables (f_vol s))) 0 s (a * 512) (n * 512) true Hok)
    as (w & s' & -> & Hst & Hok' & Hh & Hout & Hin & Hsucc);
    [lia|pose proof (vo_tables _ Hvol); lia|lia|lia|lia|by apply Z.mod_mul|by apply Z.mod_mul|].
  destruct (io_step_vol _ _ Hst) as (Hv & Ht & _ & _).
  exists w, s'. split; [done|]. split; [done|]. split; [done|]. split; [done|]. split; [|split; [|split]].
  - intros x Hx. apply Hout. intros j Hj Hr. apply Hx. exists j. split; [lia|]. lia.
  - intros Hw c Hc i Hi. destruct (Hin Hw) as [_ Hall]. rewrite Hv in Hi. unfold disk_entry.
    rewrite Hv, Ht.
    destruct (table_bytes_entry (fat_table s) c) as [Hb1 Hb2].
    { rewrite (fo_table _ Hok). unfold table_entries in Hend. lia. }
    pose proof (Hall i Hi (2 * c - a * 512) ltac:(lia)) as H1.
    pose proof (Hall i Hi (2 * c + 1 - a * 512) ltac:(lia)) as H2.
    replace (fta (f_vol s) i + a * 512 + (2 * c - a * 512)) with (fta (f_vol s) i + 2 * c) in H1 by lia.
    replace (fta (f_vol s) i + a * 512 + (2 * c + 1 - a * 512)) with (fta (f_vol s) i + 2 * c + 1) in H2 by lia.
    replace (a * 512 + (2 * c - a * 512)) with (2 * c) in H1 by lia.
    replace (a * 512 + (2 * c + 1 - a * 512)) with (2 * c + 1) in H2 by lia.
    rewrite H1, H2, Hb1, Hb2. pose proof (fo_u16 _ Hok c). Z.div_mod_to_equations. lia.
  - intros c Hc Hnr Hm i Hi. rewrite Hv in Hi. rewrite Ht, <-(Hm i Hi).
    apply disk_entry_ext; [done|]. intros x Hx. apply Hout. intros j Hj Hr.
    destruct (decide (j = i)) as [->|Hji]; [lia|].
    destruct (tables_apart (f_vol s) i j Hvol ltac:(lia) ltac:(lia) ltac:(lia)); lia.
  - intros Hs Hp. by rewrite Hsucc.
Qed.

Lemma clear_dirty_spec n c d b :
  0 <= c -> c + Z.of_nat n <= zlen d ->
  exists b' d', clear_dirty n c d b = (b', d') /\ zlen d' = zlen d /\
    (forall x, zget d' x = if decide (c <= x < c + Z.of_nat n) then Some false else zget d x) /\
    (b' = false -> b = false /\ d' = d).
Proof.
  revert c d b. induction n as [|n IH]; intros c d b Hc Hl; cbn [clear_dirty].
  { exists b, d. split; [done|]. split; [done|]. split; [|done]. intros x. case_decide; [lia|done]. }
  destruct (zget_is_Some d c ltac:(lia)) as [x Hx]. rewrite Hx. simpl. destruct x.
  - destruct (IH (c + 1) (zset d c false) true) as (b' & d' & -> & Hl' & Hd & Hb); [lia|rewrite zlen_zset; lia|].
    exists b', d'. split; [done|]. split; [by rewrite Hl', zlen_zset|]. split.
    + intros y. rewrite Hd, zget_zset. repeat case_decide; try done; lia.
    + intros Hf. by destruct (Hb Hf) as [? _].
  - destruct (IH (c + 1) d b) as (b' & d' & -> & Hl' & Hd & Hb); [lia|lia|].
    exists b', d'. split; [done|]. split; [done|]. split; [|done].
    intros y. rewrite Hd. destruct (decide (y = c)) as [->|]; repeat case_decide; try done; lia.
Qed.

(** Only the dirty marks, the disk inside the tables and the status register may
    differ, and marks are only cleared. *)
Record flush_step s s' : Prop := {
  fs_eq : s' = with_io (with_table s (fat_table s) (dirty_clusters s')) (f_io s');
  fs_ok : fat_ok s';
  fs_heap : f_heap s' = f_heap s;
  fs_base : a_base (f_ata s') = a_base (f_ata s);
  fs_part : a_part (f_ata s') = a_part (f_ata s);
  fs_settled : settled (f_ata s) -> settled (f_ata s');
  fs_clear c : zget (dirty_clusters s') c = Some true -> zget (dirty_clusters s) c = Some true;
  fs_out x : ~ in_table_area (f_vol s) x -> pbyte s' x = pbyte s x }.

Lemma flush_step_vol s s' : flush_step s s' ->
  f_vol s' = f_vol s /\ fat_table s' = fat_table s /\ tableSize s' = tableSize s.
Proof. intros [E _ _ _ _ _ _ _]. by rewrite E. Qed.

Lemma flush_step_refl s : fat_ok s -> flush_step s s.
Proof. intros. constructor; try done. by destruct s. Qed.

Lemma flush_step_trans s1 s2 s3 : flush_step s1 s2 -> flush_step s2 s3 -> flush_step s1 s3.
Proof.
  intros F1 F2. destruct (flush_step_vol _ _ F1) as (Hv & Ht & _).
  constructor; [|apply F2| | | | | |].
  - rewrite (fs_eq _ _ F2) at 1. rewrite Ht. by rewrite (fs_eq _ _ F1) at 1.
  - by rewrite (fs_heap _ _ F2), (fs_heap _ _ F1).
  - by rewrite (fs_base _ _ F2), (fs_base _ _ F1).
  - by rewrite (fs_part _ _ F2), (fs_part _ _ F1).
  - intros Hs. by apply F2, F1.
  - intros c Hc. by apply F1, F2.
  - intros x Hx. rewrite (fs_out _ _ F2) by (by rewrite Hv). by apply F1.
Qed.

Lemma flush_step_io s s' :
  io_step s s' -> fat_ok s' -> f_heap s' = f_heap s ->
  (forall x, ~ in_table_area (f_vol s) x -> pbyte s' x = pbyte s x) -> flush_step s s'.
Proof.
  intros Hst Hok Hh Hx. destruct (io_step_vol _ _ Hst) as (_ & _ & Hd & _).
  constructor; try done; try apply Hst; [|by rewrite Hd].
  rewrite Hd. rewrite (is_io _ _ Hst) at 1. by destruct s.
Qed.

(** Every entry in [P] that is not dirty is on the disk, but for those of the run of
    [n] sectors from [a], whose marks are cleared and which wait to be written. *)
Definition synced_but (P : Z -> Prop) s (a n : Z) : Prop :=
  forall c, P c -> zget (dirty_clusters s) c = Some false -> ~ (a * 256 <= c < (a + n) * 256) -> mirrored s c.

(** The cache and the disk agree on every entry that is not marked dirty. *)
Definition synced s : Prop := forall c, zget (dirty_clusters s) c = Some false -> mirrored s c.

(** The same of the entries in [P]. *)
Definition synced_on (P : Z -> Prop) s : Prop :=
  forall c, P c -> zget (dirty_clusters s) c = Some false -> mirrored s c.

Lemma dirty_range s c b : fat_ok s -> zget (dirty_clusters s) c = Some b -> 0 <= c < table_entries s.
Proof. intros Hok Hc. apply zget_Some_range in Hc. by rewrite (fo_dirty _ Hok) in Hc. Qed.

(** Writing the pending run. *)
Lemma flush_run_spec P s a n :
  fat_ok s -> 0 <= a -> 0 < n -> (a + n) * 256 <= table_entries s ->
  exists w s', fat_table_flush_write s a n = (w, s') /\ flush_step s s' /\
    dirty_clusters s' = dirty_clusters s /\
    (w = true -> synced_but P s a n -> synced_on P s') /\
    (settled (f_ata s) -> vol_in_part s -> w = true).
Proof.
  intros Hok Ha Hn Hl.
  destruct (flush_write_spec s a n Hok Ha Hn Hl) as (w & s' & He & Hst & Hok' & Hh & Hout & Hin & Hkeep & Hs).
  destruct (io_step_vol _ _ Hst) as (_ & _ & Hd & _).
  exists w, s'. split; [done|]. split; [by apply flush_step_io|]. split; [done|]. split; [|done].
  intros Hw Hb c Hcp Hc. rewrite Hd in Hc. destruct (decide (a * 256 <= c < (a + n) * 256)).
  - by apply Hin.
  - apply Hkeep; [by eapply dirty_range|done|]. by apply Hb.
Qed.

Lemma vol_in_part_flush s s' : flush_step s s' -> vol_in_part s -> vol_in_part s'.
Proof.
  intros F. destruct (flush_step_vol _ _ F) as (Hv & _). unfold vol_in_part.
  by rewrite Hv, (fs_part _ _ F).
Qed.

Lemma mirrored_same s s' c :
  f_vol s' = f_vol s -> fat_table s' = fat_table s -> (forall x, pbyte s' x = pbyte s x) ->
  mirrored s c -> mirrored s' c.
Proof.
  intros Hv Ht Hx Hm i Hi. rewrite Hv in Hi. rewrite Ht, <-(Hm i Hi). by apply disk_entry_ext.
Qed.

(** Clearing the marks of one sector. *)
Lemma clear_sector_step P s sector b d :
  fat_ok s -> zlen d = zlen (dirty_clusters s) ->
  (forall x, zget d x = if decide (sector * 256 <= x < sector * 256 + 256) then Some false
                        else zget (dirty_clusters s) x) ->
  (b = false -> d = dirty_clusters s) ->
  let s1 := with_table s (fat_table s) d in
  flush_step s s1 /\ (forall a n, b = false -> synced_but P s a n -> synced_but P s1 a n) /\
  (forall a n, 0 <= n -> (0 < n -> a + n = sector) -> synced_but P s a n ->
     synced_but P s1 (if n =? 0 then sector else a) (n + 1)).
Proof.
  intros Hok Hl Hd Hb s1.
  assert (Hok1 : fat_ok s1) by (apply fat_ok_with_table; [done|apply Hok|by rewrite Hl, (fo_dirty _ Hok)|apply Hok]).
  assert (Hm : forall c, mirrored s c -> mirrored s1 c) by (intros c; by apply mirrored_same).
  split; [|split].
  - constructor; try done. intros c. simpl. rewrite Hd. by case_decide.
  - intros a n Hf Hs c Hcp Hc. simpl in Hc. rewrite Hb in Hc by done. intros. apply Hm. by apply Hs.
  - intros a n Hn Han Hs c Hcp Hc Hr. simpl in Hc. rewrite Hd in Hc. apply Hm.
    case_decide as Hin; [exfalso; destruct (n =? 0) eqn:?; lia|].
    apply Hs; [done|done|]. destruct (n =? 0) eqn:?; lia.
Qed.

Lemma flush_loop_spec P n sector s runStart runLen ok :
  fat_ok s -> 0 <= sector -> (sector + Z.of_nat n) * 256 <= table_entries s -> 0 <= runLen ->
  0 <= runStart -> (0 < runLen -> runStart + runLen = sector) ->
  exists w s', flush_loop n sector s runStart runLen ok = (w, s') /\ flush_step s s' /\
    (forall c, sector * 256 <= c < (sector + Z.of_nat n) * 256 -> zget (dirty_clusters s') c = Some false) /\
    (w = true -> ok = true /\ (synced_but P s runStart runLen -> synced_on P s')) /\
    (settled (f_ata s) -> vol_in_part s -> w = ok).
Proof.
  revert sector s runStart runLen ok.
  induction n as [|n IH]; intros sector s runStart runLen ok Hok Hs Hend Hrl Hrs Hrun; cbn [flush_loop].
  - destruct (0 <? runLen) eqn:Hr.
    + destruct (flush_run_spec P s runStart runLen Hok) as (w & s' & -> & F & Hd & Hw & Hsucc); [lia|lia|lia|].
      exists (ok && w), s'. split; [done|]. split; [done|]. split; [lia|]. split.
      * destruct ok, w; try done. intros _. split; [done|]. by apply Hw.
      * intros Hset Hv. rewrite Hsucc by done. apply andb_true_r.
    + exists ok, s. split; [done|]. split; [by apply flush_step_refl|]. split; [lia|]. split; [|done].
      intros ->. split; [done|]. intros Hb c Hcp Hc. apply Hb; [done|done|lia].
  - destruct (table_len_entries s Hok) as [_ Hte]. unfold PER_SECTOR.
    replace (if table_entries s <? (sector + 1) * 256 then _ else _) with ((sector + 1) * 256)
      by (destruct (table_entries s <? (sector + 1) * 256) eqn:?; lia).
    replace (Z.to_nat ((sector + 1) * 256 - sector * 256)) with 256%nat by lia.
    destruct (clear_dirty_spec 256 (sector * 256) (dirty_clusters s) false) as (b & d & -> & Hl & Hd & Hb);
      [lia|rewrite (fo_dirty _ Hok); unfold table_entries in *; lia|].
    destruct (clear_sector_step P s sector b d Hok Hl Hd) as (F1 & Hclean & Hpend).
    { intros Hf. by apply Hb. }
    set (s1 := with_table s (fat_table s) d) in *.
    pose proof (fs_ok _ _ F1) as Hok1.
    assert (He1 : table_entries s1 = table_entries s) by done.
    assert (Hd1 : forall c, sector * 256 <= c < sector * 256 + 256 -> zget (dirty_clusters s1) c = Some false).
    { intros c Hc. simpl. rewrite Hd. by rewrite decide_True by lia. }
    (* an entry stays clean *)
    assert (Hstay : forall s2 s', flush_step s2 s' -> fat_ok s2 -> forall c,
      zget (dirty_clusters s2) c = Some false -> zget (dirty_clusters s') c = Some false).
    { intros s2 s' F Hok2 c Hc. pose proof (dirty_range _ _ _ Hok2 Hc) as Hr.
      destruct (flush_step_vol _ _ F) as (_ & _ & Hts).
      destruct (zget_is_Some (dirty_clusters s') c) as [x Hx].
      { rewrite (fo_dirty _ (fs_ok _ _ F)), Hts. done. }
      rewrite Hx. f_equal. destruct x; [|done]. apply (fs_clear _ _ F) in Hx. congruence. }
    assert (Hfin : forall s2 rs rl k, flush_step s s2 -> table_entries s2 = table_entries s ->
      (forall c, sector * 256 <= c < sector * 256 + 256 -> zget (dirty_clusters s2) c = Some false) ->
      0 <= rl -> 0 <= rs -> (0 < rl -> rs + rl = sector + 1) ->
      (k = true -> ok = true /\ (synced_but P s runStart runLen -> synced_but P s2 rs rl)) ->
      (settled (f_ata s) -> vol_in_part s -> k = ok) ->
      exists w s', flush_loop n (sector + 1) s2 rs rl k = (w, s') /\ flush_step s s' /\
        (forall c, sector * 256 <= c < (sector + Z.of_nat (S n)) * 256 -> zget (dirty_clusters s') c = Some false) /\
        (w = true -> ok = true /\ (synced_but P s runStart runLen -> synced_on P s')) /\
        (settled (f_ata s) -> vol_in_part s -> w = ok)).
    { intros s2 rs rl k F2 He2 Hc2 Hrl2 Hrs2 Hrun2 Hk Hks.
      destruct (IH (sector + 1) s2 rs rl k) as (w & s' & -> & F3 & Hc3 & Hw3 & Hs3);
        [apply F2|lia|rewrite He2; lia|done|done|done|].
      exists w, s'. split; [done|]. split; [by eapply flush_step_trans|]. split; [|split].
      - intros c Hc. destruct (decide (c < sector * 256 + 256)).
        + apply (Hstay s2); [done|apply F2|]. apply Hc2. lia.
        + apply Hc3. lia.
      - intros Hw. destruct (Hw3 Hw) as [Hkt Hsy]. destruct (Hk Hkt) as [Hot Hsb]. split; [done|]. auto.
      - intros Hset Hv. rewrite Hs3; [by apply Hks|by apply F2|by eapply vol_in_part_flush]. }
    destruct b.
    + apply Hfin; try done; try lia.
      * destruct (runLen =? 0) eqn:?; lia.
      * destruct (runLen =? 0) eqn:?; lia.
      * intros Hot. split; [done|]. by apply Hpend.
    + destruct (0 <? runLen) eqn:Hr.
      * destruct (flush_run_spec P s1 runStart runLen Hok1) as (w & s2 & -> & F2 & Hd2 & Hw & Hsucc);
          [lia|lia|rewrite He1; lia|].
        destruct (flush_step_vol _ _ F2) as (_ & _ & Hts2).
        apply Hfin; try done; try lia.
        -- by eapply flush_step_trans.
        -- unfold table_entries. by rewrite Hts2.
        -- intros c Hc. rewrite Hd2. by apply Hd1.
        -- intros Hk. destruct ok, w; try done. split; [done|]. intros Hsb c Hcp Hc _.
           apply (Hw eq_refl); [|done|done]. by apply Hclean.
        -- intros Hset Hv. rewrite Hsucc; [apply andb_true_r|by apply F1|by eapply vol_in_part_flush].
      * apply Hfin; try done; try lia. intros Hot. split; [done|]. by apply Hclean.
Qed.

(** Flushing leaves everything synced unless a write failed; the entries of the
    sectors of the range are clean afterwards. *)
Lemma flush_cache_spec_on P s start end_ :
  fat_ok s -> 0 <= start <= end_ ->
  exists w s', fat_table_flush_cache s start end_ = (w, s') /\ flush_step s s' /\
    (forall c, start <= c <= end_ -> c < table_entries s -> zget (dirty_clusters s') c = Some false) /\
    (w = true -> synced_on P s -> synced_on P s') /\
    (settled (f_ata s) -> vol_in_part s -> w = true).
Proof.
  intros Hok Hr. unfold fat_table_flush_cache.
  destruct (table_len_entries s Hok) as [_ Hte].
  destruct (table_entries s <=? start) eqn:Hle.
  { exists true, s. split; [done|]. split; [by apply flush_step_refl|]. split; [lia|]. by split. }
  set (e := if table_entries s <=? end_ then table_entries s - 1 else end_).
  assert (He : start <= e < table_entries s /\ (forall c, c <= end_ -> c < table_entries s -> c <= e)).
  { unfold e. destruct (table_entries s <=? end_) eqn:?; split; lia. }
  destruct He as [He Hec]. unfold PER_SECTOR.
  destruct (flush_loop_spec P (Z.to_nat (e / 256 - start / 256 + 1)) (start / 256) s 0 0 true Hok)
    as (w & s' & -> & F & Hc & Hw & Hs);
    [Z.div_mod_to_equations; lia|Z.div_mod_to_equations; lia|lia|lia|lia|].
  exists w, s'. split; [done|]. split; [done|]. split; [|split; [|done]].
  - intros c Hcr Hct. apply Hc. specialize (Hec c ltac:(lia) Hct). Z.div_mod_to_equations. lia.
  - intros Hwt Hsy. apply Hw; [done|]. intros c Hcp Hcd _. by apply Hsy.
Qed.

Lemma flush_cache_spec s start end_ :
  fat_ok s -> 0 <= start <= end_ ->
  exists w s', fat_table_flush_cache s start end_ = (w, s') /\ flush_step s s' /\
    (forall c, start <= c <= end_ -> c < table_entries s -> zget (dirty_clusters s') c = Some false) /\
    (w = true -> synced s -> synced s') /\
    (settled (f_ata s) -> vol_in_part s -> w = true).
Proof.
  intros Hok Hr. destruct (flush_cache_spec_on (fun _ => True) s start end_ Hok Hr) as (w & s' & He & F & Hd & Hs & Hp).
  exists w, s'. split_and!; try done. intros Hw Hsy c Hc. apply (Hs Hw); [|done|done]. intros c' _. apply Hsy.
Qed.

(** Changing an entry marks it. *)
Lemma synced_update s c x :
  fat_ok s -> 0 <= c < noClusters (f_vol s) -> synced s ->
  synced (with_table s (zset (fat_table s) c x) (zset (dirty_clusters s) c true)).
Proof.
  intros Hok Hc Hs y Hy. simpl in Hy. rewrite zget_zset in Hy. case_decide as Hd; [done|].
  assert (Hyc : y <> c).
  { intros ->. apply Hd. split; [done|]. rewrite (fo_dirty _ Hok), <-(fo_table _ Hok).
    by apply cluster_in_table. }
  intros i Hi. change (disk_entry s i y = tget (zset (fat_table s) c x) y).
  rewrite tget_zset by (by apply cluster_in_table). rewrite decide_False by done. by apply Hs.
Qed.

Lemma free_chain_spec fuel s cur l freed mn mx ok :
  fat_ok s -> is_chain (f_vol s) (fat_table s) cur l -> (length l < fuel)%nat ->
  exists mn' mx' s', free_chain fuel s cur freed mn mx ok = (freed + zlen l, mn', mx', ok, s') /\
    fat_ok s' /\ table_only s s' /\
    (forall x, tget (fat_table s') x = if decide (x ∈ l) then 0 else tget (fat_table s) x) /\
    (forall x, zget (dirty_clusters s') x = if decide (x ∈ l) then Some true else zget (dirty_clusters s) x) /\
    mn' <= mn /\ mx <= mx' /\ (forall x, x ∈ l -> mn' <= x <= mx') /\
    (0 <= mn -> 0 <= mn') /\ (synced s -> synced s').
Proof.
  revert s cur l freed mn mx. induction fuel as [|fuel IH]; intros s cur l freed mn mx Hok Hc Hf; [lia|].
  cbn [free_chain]. destruct l as [|x l].
  - simpl in Hc. rewrite Hc. exists mn, mx, s. rewrite zlen_nil, Z.add_0_r.
    split; [done|]. split; [done|]. split.
    { exists (fat_table s), (dirty_clusters s). by destruct s. }
    split; [done|]. split; [done|]. split; [lia|]. split; [lia|]. split; [|done].
    intros x Hx. by apply not_elem_of_nil in Hx.
  - pose proof (is_chain_NoDup _ _ _ _ Hc) as Hnd. apply NoDup_cons in Hnd as [Hnin Hnd].
    destruct Hc as (-> & Hv & Hc). rewrite Hv. pose proof (proj1 (valid_range _ _) Hv) as Hr.
    rewrite (update_spec s cur 0 Hok) by lia.
    pose proof (cluster_in_table s cur Hok ltac:(lia)) as Hct.
    set (s1 := with_table s _ _).
    assert (Hok1 : fat_ok s1) by (apply fat_ok_update; [done|lia|lia]).
    assert (Ht1 : forall x, tget (fat_table s1) x = if decide (x = cur) then 0 else tget (fat_table s) x)
      by (intros x; by apply tget_zset).
    assert (Hc1 : is_chain (f_vol s1) (fat_table s1) (tget (fat_table s) cur) l).
    { apply (is_chain_agree _ (fat_table s)); [|done]. intros y Hy. rewrite Ht1. case_decide; [by subst|done]. }
    simpl in Hf.
    destruct (IH s1 _ l (freed + 1) (if cur <? mn then cur else mn) (if mx <? cur then cur else mx) Hok1 Hc1 ltac:(lia))
      as (mn' & mx' & s' & -> & Hok' & (t' & d' & -> & Hl1 & Hl2) & Ht & Hd & Hmn & Hmx & Hin & Hpos & Hsy).
    exists mn', mx', (with_table s1 t' d'). rewrite zlen_cons.
    replace (freed + 1 + zlen l) with (freed + (zlen l + 1)) by lia.
    split; [done|]. split; [done|]. split.
    { exists t', d'. split; [done|]. split; [rewrite Hl1|rewrite Hl2]; apply zlen_zset. }
    split; [|split; [|split; [|split; [|split; [|split]]]]].
    + intros x. rewrite Ht, Ht1, (decide_ext (x ∈ cur :: l) (x = cur \/ x ∈ l)) by apply elem_of_cons.
      repeat case_decide; tauto || congruence.
    + intros x. rewrite Hd. simpl. rewrite zget_zset.
      rewrite (fo_dirty _ Hok), <-(fo_table _ Hok).
      rewrite (decide_ext (x ∈ cur :: l) (x = cur \/ x ∈ l)) by apply elem_of_cons.
      destruct (decide (x = cur)) as [->|Hne]; repeat case_decide; intuition congruence.
    + destruct (cur <? mn) eqn:?; lia.
    + destruct (mx <? cur) eqn:?; lia.
    + intros x Hx. apply elem_of_cons in Hx as [->|Hx]; [|by apply Hin].
      destruct (cur <? mn) eqn:?; destruct (mx <? cur) eqn:?; lia.
    + intros Hp. apply Hpos. destruct (cur <? mn) eqn:?; lia.
    + intros Hs. apply Hsy. by apply synced_update; [|lia|].
Qed.

(** An operation on chains: the geometry and the buffers of the volume are kept. *)
Record fat_step s s' : Prop := {
  st_eq : s' = with_io (with_table s (fat_table s') (dirty_clusters s')) (f_io s');
  st_ok : fat_ok s';
  st_base : a_base (f_ata s') = a_base (f_ata s);
  st_part : a_part (f_ata s') = a_part (f_ata s);
  st_settled : settled (f_ata s) -> settled (f_ata s') }.

Lemma fat_step_refl s : fat_ok s -> fat_step s s.
Proof. intros. constructor; try done. by destruct s. Qed.

Lemma fat_step_vol s s' : fat_step s s' -> f_vol s' = f_vol s /\ tableSize s' = tableSize s.
Proof. intros F. by rewrite (st_eq _ _ F). Qed.

Lemma fat_step_trans s1 s2 s3 : fat_step s1 s2 -> fat_step s2 s3 -> fat_step s1 s3.
Proof.
  intros F1 F2. constructor; [|apply F2| | |].
  - rewrite (st_eq _ _ F2) at 1. by rewrite (st_eq _ _ F1) at 1.
  - by rewrite (st_base _ _ F2), (st_base _ _ F1).
  - by rewrite (st_part _ _ F2), (st_part _ _ F1).
  - intros Hs. by apply F2, F1.
Qed.

Lemma flush_fat_step s s' : flush_step s s' -> fat_step s s'.
Proof.
  intros F. destruct (flush_step_vol _ _ F) as (_ & Ht & _).
  constructor; try apply F. rewrite Ht. apply F.
Qed.

Lemma io_fat_step s s' : io_step s s' -> fat_ok s' -> fat_step s s'.
Proof.
  intros Hst Hok. destruct (io_step_vol _ _ Hst) as (_ & Ht & Hd & _).
  constructor; try apply Hst; [|done]. rewrite Ht, Hd. rewrite (is_io _ _ Hst) at 1. by destruct s.
Qed.

Lemma table_fat_step s t d : fat_ok (with_table s t d) -> fat_step s (with_table s t d).
Proof. intros. by constructor. Qed.

Lemma vol_in_part_fat s s' : fat_step s s' -> vol_in_part s -> vol_in_part s'.
Proof.
  intros F. destruct (fat_step_vol _ _ F) as (Hv & _). unfold vol_in_part. by rewrite Hv, (st_part _ _ F).
Qed.

Hint Resolve fat_step_refl : core.

(** The entries of the clusters [l] are free, the others as before. *)
Definition freed_in t t' (l : list Z) : Prop :=
  forall x, tget t' x = if decide (x ∈ l) then 0 else tget t x.

Lemma free_chain_step fuel s cur l mn mx :
  fat_ok s -> is_chain (f_vol s) (fat_table s) cur l -> (length l < fuel)%nat -> 0 <= mn <= mx ->
  exists mn' mx' s', free_chain fuel s cur 0 mn mx true = (zlen l, mn', mx', true, s') /\
    fat_step s s' /\ freed_in (fat_table s) (fat_table s') l /\
    0 <= mn' <= mx' /\ f_io s' = f_io s /\ (synced s -> synced s').
Proof.
  intros Hok Hc Hf Hm.
  destruct (free_chain_spec fuel s cur l 0 mn mx true Hok Hc Hf)
    as (mn' & mx' & s' & He & Hok' & (t & d & -> & _ & _) & Ht & _ & Hmn & Hmx & _ & Hpos & Hsy).
  exists mn', mx', (with_table s t d). split; [by rewrite He|]. split; [by apply table_fat_step|].
  split; [done|]. split; [lia|]. by split.
Qed.

(** A chain has fewer clusters than the table has entries. *)
Lemma chain_length s c l :
  fat_ok s -> is_chain (f_vol s) (fat_table s) c l -> (length l < chain_fuel s)%nat.
Proof.
  intros Hok Hc. unfold chain_fuel. pose proof (is_chain_NoDup _ _ _ _ Hc) as Hnd.
  assert (Hsub : l ⊆+ seqZ 0 (zlen (fat_table s))).
  { apply NoDup_submseteq; [done|]. intros x Hx.
    pose proof (is_chain_valid _ _ _ _ Hc) as Hv. rewrite Forall_forall in Hv.
    apply Hv, valid_range in Hx. pose proof (cluster_in_table s x Hok ltac:(lia)).
    apply elem_of_seqZ. lia. }
  apply submseteq_length in Hsub. rewrite length_seqZ in Hsub. unfold zlen in Hsub. lia.
Qed.

Lemma f_ata_io s s' : f_io s' = f_io s -> f_ata s' = f_ata s /\ forall x, pbyte s' x = pbyte s x.
Proof. intros He. unfold pbyte, f_ata. by rewrite He. Qed.

Lemma is_chain_disjoint v t t' c l (P : Z -> Prop) :
  (forall x, ~ P x -> tget t' x = tget t x) -> (forall x, x ∈ l -> ~ P x) ->
  is_chain v t c l -> is_chain v t' c l.
Proof. intros Ht Hl. apply is_chain_agree. intros x Hx. apply Ht. by apply Hl. Qed.

(** The last cluster of a chain. *)
Definition chain_last (l : list Z) : Z := List.last l 0.

(** What shrinking a chain [l] to its first [keep] clusters has done. *)
Record shrunk s s' (start : Z) (l : list Z) (keep : nat) : Prop := {
  sh_step : fat_step s s';
  sh_chain : is_chain (f_vol s) (fat_table s') start (take keep l);
  sh_tail : take keep l <> [] -> tget (fat_table s') (chain_last (take keep l)) <> 0;
  sh_kept x : x ∈ removelast (take keep l) -> tget (fat_table s') x = tget (fat_table s) x;
  sh_free x : x ∈ drop keep l -> tget (fat_table s') x = 0;
  sh_other x : x ∉ l -> tget (fat_table s') x = tget (fat_table s) x;
  sh_heap : f_heap s' = f_heap s;
  sh_disk x : ~ in_table_area (f_vol s) x -> pbyte s' x = pbyte s x }.

Lemma shrink_spec s start l oldSize newSize :
  fat_ok s -> is_chain (f_vol s) (fat_table s) start l -> l <> [] ->
  clusters_for (f_vol s) newSize < clusters_for (f_vol s) oldSize ->
  let keep := Nat.max 1 (Z.to_nat (clusters_for (f_vol s) newSize)) in
  exists r s', fat_shrink_cluster_chain s start oldSize newSize = (r, s') /\
    shrunk s s' start l keep /\
    (r = -1 \/ (r = zlen (drop keep l) /\ (synced s -> synced s'))) /\
    (settled (f_ata s) -> vol_in_part s -> r <> -1).
Proof.
  intros Hok Hc Hne Hlt keep. assert (Hkp : keep = Nat.max 1 (Z.to_nat (clusters_for (f_vol s) newSize))) by done.
  clearbody keep. unfold fat_shrink_cluster_chain.
  assert (Hv : fat_valid_cluster (f_vol s) start = true).
  { destruct l; [done|]. by destruct Hc as (-> & ? & _). }
  rewrite Hv. cbn [negb].
  destruct (clusters_for (f_vol s) oldSize <=? clusters_for (f_vol s) newSize) eqn:?; [lia|].
  pose proof (walk_chain_spec (Z.to_nat (clusters_for (f_vol s) newSize - 1)) _ _ _ _ Hc Hne) as Hw.
  set (cur := walk_chain _ _ _ _) in *.
  set (k := Nat.min (Z.to_nat (clusters_for (f_vol s) newSize - 1)) (length l - 1)) in *.
  assert (Hlen : (0 < length l)%nat) by (destruct l; [done|simpl; lia]).
  assert (Hsplit : l = take k l ++ cur :: drop (S k) l) by (by rewrite take_drop_middle).
  assert (Hkeep : take keep l = take k l ++ [cur] /\ drop keep l = drop (S k) l).
  { destruct (decide (Z.to_nat (clusters_for (f_vol s) newSize - 1) <= length l - 1)%nat).
    - replace keep with (S k) by lia. split; [|done]. by apply take_S_r.
    - assert (k = length l - 1)%nat as Hk by lia.
      rewrite (take_ge l keep), (drop_ge l keep), (drop_ge l (S k)) by lia. split; [|done].
      rewrite <-(take_S_r _ _ _ Hw), take_ge by lia. done. }
  destruct Hkeep as [Hkt Hkd]. rewrite Hkd.
  pose proof Hc as Hc0. rewrite Hsplit in Hc0. pose proof (is_chain_suffix _ _ _ _ _ _ Hc0) as (_ & Hvc & Hrest).
  pose proof (is_chain_NoDup _ _ _ _ Hc0) as Hnd. apply NoDup_app in Hnd as (Hnd1 & Hdisj & Hnd2).
  apply NoDup_cons in Hnd2 as [Hcur Hnd2].
  pose proof (proj1 (valid_range _ _) Hvc) as Hcr.
  rewrite (update_spec s cur END_OF_CHAIN Hok) by lia.
  pose proof (cluster_in_table s cur Hok ltac:(lia)) as Hct.
  set (s1 := with_table s _ _).
  assert (Hok1 : fat_ok s1) by (apply fat_ok_update; [done|lia|unfold END_OF_CHAIN; lia]).
  assert (Ht1 : forall x, tget (fat_table s1) x = if decide (x = cur) then END_OF_CHAIN else tget (fat_table s) x)
    by (intros x; by apply tget_zset).
  assert (Hc1 : is_chain (f_vol s1) (fat_table s1) (tget (fat_table s) cur) (drop (S k) l)).
  { apply (is_chain_agree _ (fat_table s)); [|done]. intros y Hy. rewrite Ht1.
    case_decide; [by subst|done]. }
  destruct (free_chain_step (chain_fuel s1) s1 _ _ cur cur Hok1 Hc1 (chain_length s1 _ _ Hok1 Hc1) ltac:(lia))
    as (mn & mx & s2 & -> & F2 & Ht2 & Hm & Hio & Hsy2).
  destruct (fat_step_vol _ _ F2) as (Hv2 & _). destruct (f_ata_io _ _ Hio) as [Ha2 Hp2].
  destruct (flush_cache_spec s2 mn mx (st_ok _ _ F2) Hm) as (w & s3 & -> & F3 & _ & Hsy3 & Hsucc).
  destruct (flush_step_vol _ _ F3) as (Hv3 & Ht3 & _).
  assert (Hin : forall x, x ∈ l <-> x ∈ take k l \/ x = cur \/ x ∈ drop (S k) l).
  { intros x. rewrite Hsplit at 1. rewrite elem_of_app, elem_of_cons. done. }
  assert (Hshrunk : shrunk s s3 start l keep).
  { constructor; rewrite ?Hkt, ?Hkd.
    - eapply fat_step_trans; [by apply table_fat_step|]. eapply fat_step_trans; [done|]. by apply flush_fat_step.
    - rewrite Ht3. apply (is_chain_relink _ (fat_table s) _ _ _ _ (drop (S k) l)); [done| |].
      + intros y Hy. rewrite Ht2, Ht1. rewrite decide_False; [rewrite decide_False; [done|]|].
        * intros ->. apply (Hdisj cur); [done|]. apply elem_of_cons. by left.
        * intros Hin2. apply (Hdisj y); [done|]. apply elem_of_cons. by right.
      + rewrite Ht2, Ht1, decide_False, decide_True by done. by vm_compute.
    - intros _. unfold chain_last. rewrite List.last_last. by rewrite Ht3, Ht2, Ht1, decide_False, decide_True by done.
    - intros x Hx. rewrite List.removelast_last in Hx. rewrite Ht3, Ht2, Ht1, !decide_False; [done|..].
      + intros ->. apply (Hdisj cur); [done|]. apply elem_of_cons. by left.
      + intros Hin2. apply (Hdisj x); [done|]. apply elem_of_cons. by right.
    - intros x Hx. by rewrite Ht3, Ht2, decide_True.
    - intros x Hx. rewrite Hin in Hx. rewrite Ht3, Ht2, Ht1, !decide_False by tauto. done.
    - rewrite (fs_heap _ _ F3). unfold f_heap. by rewrite Hio.
    - intros x Hx. rewrite (fs_out _ _ F3) by (by rewrite Hv2). apply Hp2. }
  assert (Hsy : w = true -> synced s -> synced s3).
  { intros Hw' Hs. apply Hsy3, Hsy2; [done|]. by apply synced_update; [|lia|]. }
  destruct w; cbn [andb negb].
  - eexists _, s3. split; [done|]. split; [done|]. split; [right; by auto|]. intros _ _.
    pose proof (zlen_nonneg (drop (S k) l)). lia.
  - eexists _, s3. split; [done|]. split; [done|]. split; [by left|]. intros Hset Hvp.
    assert (false = true); [|done]. apply Hsucc.
    + rewrite Ha2. done.
    + eapply vol_in_part_fat; [exact F2|]. done.
Qed.

(** ** Lemmas: clusters on the disk *)

Definition caddr v (c : Z) : Z :=
  baseAddr + ((c - 2) * sectorsPerCluster v + firstDataSector v) * bytesPerSector v.

(** Byte [x] belongs to cluster [c]. *)
Definition in_cluster v (c x : Z) : Prop := caddr v c <= x < caddr v c + bytesPerCluster v.

Lemma bpc_pos v : vol_ok v -> 0 < bytesPerCluster v /\ bytesPerCluster v mod 512 = 0.
Proof.
  intros Hv. destruct (vo_bps _ Hv). pose proof (vo_spc _ Hv). unfold bytesPerCluster.
  split; [nia|by apply mod512_mul].
Qed.

Lemma cluster_addr_spec v c :
  vol_ok v -> 2 <= c < noClusters v ->
  cluster_addr v c = caddr v c /\ 0 <= caddr v c /\ caddr v c mod 512 = 0 /\
  baseAddr + rootSector v * bytesPerSector v <= caddr v c /\
  caddr v c + bytesPerCluster v <= vol_end v.
Proof.
  intros Hv Hc. destruct (vo_bps _ Hv) as [Hb Hbm]. pose proof (vo_spc _ Hv) as Hspc.
  pose proof (vo_end _ Hv) as Hend. pose proof (vo_max _ Hv) as Hmax. destruct (vo_first _ Hv) as [Hr Hf].
  pose proof (vo_tables _ Hv). pose proof (vo_spf _ Hv). pose proof (vo_reserved _ Hv).
  pose proof (vo_root _ Hv) as Hroot.
  assert (Hrs : 0 <= rootSector v) by nia.
  set (sec := (c - 2) * sectorsPerCluster v + firstDataSector v).
  assert (Hsec : rootSector v <= sec /\ sec + sectorsPerCluster v <= noSectors v) by (unfold sec; nia).
  assert (Hca : caddr v c = baseAddr + sec * bytesPerSector v) by done.
  assert (Hs1 : 0 <= sec * bytesPerSector v) by nia.
  assert (Hs2 : rootSector v * bytesPerSector v <= sec * bytesPerSector v) by nia.
  assert (Hs3 : (sec + sectorsPerCluster v) * bytesPerSector v <= noSectors v * bytesPerSector v) by nia.
  assert (Hs4 : sec <= sec * bytesPerSector v) by nia.
  assert (Hs5 : 0 <= sectorsPerCluster v * bytesPerSector v) by nia.
  unfold vol_end, bytesPerCluster. unfold cluster_addr. fold sec.
  assert (Hb0 : 0 <= baseAddr < 2 ^ 20) by (unfold baseAddr; lia).
  rewrite (u32_id sec), (u32_id (sec * bytesPerSector v)), u32_id by lia.
  split; [done|]. split; [lia|]. split; [|lia].
  rewrite Hca. apply mod512_add; [done|by apply mod512_mul].
Qed.

Lemma clusters_apart v c d x :
  vol_ok v -> in_cluster v c x -> in_cluster v d x -> c = d.
Proof.
  intros Hv. unfold in_cluster, caddr. destruct (bpc_pos v Hv) as [Hp _]. unfold bytesPerCluster in *.
  intros Hc Hd.
  assert (H1 : (c - 2) * (sectorsPerCluster v * bytesPerSector v) <= x - baseAddr - firstDataSector v * bytesPerSector v
     < (c - 2 + 1) * (sectorsPerCluster v * bytesPerSector v)) by lia.
  assert (H2 : (d - 2) * (sectorsPerCluster v * bytesPerSector v) <= x - baseAddr - firstDataSector v * bytesPerSector v
     < (d - 2 + 1) * (sectorsPerCluster v * bytesPerSector v)) by lia.
  nia.
Qed.

Lemma cluster_not_table v c x :
  vol_ok v -> 2 <= c < noClusters v -> in_cluster v c x -> ~ in_table_area v x.
Proof.
  intros Hv Hc Hx (i & Hi & Hr). destruct (cluster_addr_spec v c Hv Hc) as (_ & _ & _ & Hlo & _).
  destruct (fta_spec v i Hv Hi) as (_ & _ & _ & Hle). unfold in_cluster in Hx. lia.
Qed.

Lemma byte_at_replicate n k : 0 <= k < Z.of_nat n -> byte_at (replicate n 0) k = 0.
Proof. intros. unfold byte_at. by rewrite zget_replicate. Qed.

Lemma synced_io s s' :
  io_step s s' -> (forall x, in_table_area (f_vol s) x -> pbyte s' x = pbyte s x) ->
  fat_ok s -> synced s -> synced s'.
Proof.
  intros Hst Hx Hok Hs c Hc i Hi. destruct (io_step_vol _ _ Hst) as (Hv & Ht & Hd & _).
  rewrite Hd in Hc. rewrite Hv in Hi. rewrite Ht, <-(Hs c Hc i Hi). apply disk_entry_ext; [done|].
  intros x Hr. apply Hx. exists i. split; [done|]. pose proof (dirty_range _ _ _ Hok Hc) as Hcr.
  destruct (table_len_entries s Hok) as [Htl _]. lia.
Qed.

(** Writing zeros over a cluster. *)
Lemma zero_cluster_spec s c :
  fat_ok s -> 2 <= c < noClusters (f_vol s) ->
  let bpc := bytesPerCluster (f_vol s) in
  exists ok s', disk_write s (cluster_addr (f_vol s) c) (replicate (Z.to_nat bpc) 0) bpc = (ok, s') /\
    io_step s s' /\ fat_ok s' /\ f_heap s' = f_heap s /\
    (forall x, ~ in_cluster (f_vol s) c x -> pbyte s' x = pbyte s x) /\
    (ok = true -> forall x, in_cluster (f_vol s) c x -> pbyte s' x = 0) /\
    (synced s -> synced s') /\
    (settled (f_ata s) -> vol_in_part s -> ok = true).
Proof.
  intros Hok Hc bpc. pose proof (fo_vol _ Hok) as Hv. destruct (bpc_pos _ Hv) as [Hp Hpm].
  destruct (cluster_addr_spec _ _ Hv Hc) as (-> & H0c & Hm & Hlo & Hhi).
  pose proof (vo_cluster _ Hv) as Hbc.
  destruct (disk_write_spec s (caddr (f_vol s) c) (replicate (Z.to_nat bpc) 0) bpc Hok)
    as (ok & s' & -> & Hst & Hok' & Hh & Hout & Hin & _ & Hsucc);
    [done|rewrite zlen_replicate; lia|done|lia|done|done|].
  exists ok, s'. split; [done|]. split; [done|]. split; [done|]. split; [done|].
  assert (Hout' : forall x, ~ in_cluster (f_vol s) c x -> pbyte s' x = pbyte s x).
  { intros x Hx. by apply Hout. }
  split; [done|]. split; [|split; [|done]].
  - intros Ht x Hx. unfold in_cluster in Hx. fold bpc in Hx.
    replace x with (caddr (f_vol s) c + (x - caddr (f_vol s) c)) by lia.
    rewrite Hin by (done || lia). apply byte_at_replicate. lia.
  - apply synced_io; [done| |done]. intros x Hx. apply Hout'. intros Hcx.
    by apply (cluster_not_table (f_vol s) c x).
Qed.

Lemma find_free_spec fuel v t c :
  noClusters v <= 65535 -> 0 <= c <= noClusters v -> noClusters v - c <= Z.of_nat fuel ->
  let r := find_free fuel v t c in
  c <= r <= noClusters v /\ (forall x, c <= x < r -> tget t x <> 0) /\
  (r < noClusters v -> tget t r = 0).
Proof.
  intros Hn. revert c. induction fuel as [|fuel IH]; intros c Hc Hf; cbn [find_free].
  - split; [lia|]. split; lia.
  - destruct ((c <? noClusters v) && negb (tget t c =? 0)) eqn:He.
    + rewrite u16_id by lia. destruct (IH (c + 1)) as (Hr & Hall & Hz); [lia|lia|].
      split; [lia|]. split; [|done]. intros x Hx. destruct (decide (x = c)) as [->|]; [lia|].
      apply Hall. lia.
    + split; [lia|]. split; [lia|]. intros. lia.
Qed.

(** Zeroing from the old end of file to the end of its cluster. *)
Lemma zero_gap_spec s c oldSize newSize :
  fat_ok s -> 2 <= c < noClusters (f_vol s) -> 0 <= oldSize < newSize -> newSize < 2 ^ 32 ->
  let bpc := bytesPerCluster (f_vol s) in
  let gap := negb (oldSize mod bpc =? 0) || (oldSize =? 0) in
  let to := Z.min bpc (newSize - (oldSize - oldSize mod bpc)) in
  exists ok s', zero_gap s c oldSize newSize = (ok, s') /\ io_step s s' /\ fat_ok s' /\
    heap_eq (f_heap s) (f_heap s') /\
    (forall x, (gap = true -> ~ (caddr (f_vol s) c + oldSize mod bpc <= x < caddr (f_vol s) c + bpc)) -> pbyte s' x = pbyte s x) /\
    (oldSize <> 0 -> forall x, caddr (f_vol s) c + to <= x -> pbyte s' x = pbyte s x) /\
    (ok = true -> gap = true -> forall x, caddr (f_vol s) c + oldSize mod bpc <= x < caddr (f_vol s) c + to ->
       pbyte s' x = 0) /\
    (synced s -> synced s') /\
    (settled (f_ata s) -> vol_in_part s -> ok = false -> out_of_memory (f_heap s) (bpc + 1024)).
Proof.
  intros Hok Hc Hsz Hmax bpc gap to. pose proof (fo_vol _ Hok) as Hv. destruct (bpc_pos _ Hv) as [Hp Hpm].
  fold bpc in Hp, Hpm. pose proof (vo_cluster _ Hv) as Hbc. fold bpc in Hbc.
  unfold zero_gap. fold bpc. fold gap.
  destruct gap eqn:Hg.
  2: { exists true, s. split; [done|]. split; [apply io_step_refl|]. split; [done|].
       split; [apply heap_eq_refl, Hok|]. by split_and!. }
  destruct (cluster_addr_spec _ _ Hv Hc) as (Hca & H0c & Hm & Hlo & Hhi). rewrite Hca.
  fold bpc in Hhi. unfold vol_end in Hhi. pose proof (vo_max _ Hv) as Hvm.
  pose proof (Z.mod_pos_bound oldSize bpc Hp) as Hfrom. set (from := oldSize mod bpc) in *.
  assert (Hto : (if bpc <? u32 (newSize - (oldSize - from)) then bpc else u32 (newSize - (oldSize - from))) = to).
  { assert (from <= oldSize) by (unfold from; apply Z.mod_le; lia).
    unfold to. rewrite u32_id by lia. destruct (bpc <? _) eqn:?; lia. }
  rewrite Hto.
  assert (Htor : from < to <= bpc).
  { assert (from <= oldSize) by (unfold from; apply Z.mod_le; lia). unfold to. lia. }
  (* writing the buffer that keeps the bytes before [from] *)
  assert (Hwrite : forall h0 s1 p buf, io_step s s1 -> fat_ok s1 -> (forall x, pbyte s1 x = pbyte s x) ->
    heap_plus h0 (f_heap s1) p bpc -> h0 = f_heap s -> zlen buf = bpc ->
    (forall k, 0 <= k < from -> byte_at buf k = pbyte s (caddr (f_vol s) c + k)) ->
    (forall k, from <= k < to -> byte_at buf k = 0) ->
    (oldSize <> 0 -> forall k, to <= k < bpc -> byte_at buf k = pbyte s (caddr (f_vol s) c + k)) ->
    exists ok s', (let '(ok, s2) := disk_write s1 (caddr (f_vol s) c) buf bpc in (ok, fat_free s2 p bpc)) = (ok, s') /\
    io_step s s' /\ fat_ok s' /\ heap_eq (f_heap s) (f_heap s') /\
    (forall x, (true = true -> ~ (caddr (f_vol s) c + from <= x < caddr (f_vol s) c + bpc)) -> pbyte s' x = pbyte s x) /\
    (oldSize <> 0 -> forall x, caddr (f_vol s) c + to <= x -> pbyte s' x = pbyte s x) /\
    (ok = true -> true = true -> forall x, caddr (f_vol s) c + from <= x < caddr (f_vol s) c + to -> pbyte s' x = 0) /\
    (synced s -> synced s') /\
    (settled (f_ata s) -> vol_in_part s -> ok = false -> out_of_memory (f_heap s) (bpc + 1024))).
  { intros h0 s1 p buf Hst1 Hok1 Hp1 Hplus -> Hbl Hpre Hz Hpost.
    destruct (io_step_vol _ _ Hst1) as (Hv1 & _).
    destruct (disk_write_spec s1 (caddr (f_vol s) c) buf bpc Hok1)
      as (ok & s2 & -> & Hst2 & Hok2 & Hh2 & Hout & Hin & Hany & Hsucc);
      [lia|lia|rewrite Hv1; unfold vol_end; lia|lia|done|done|].
    assert (Hplus2 : heap_plus (f_heap s) (f_heap s2) p bpc) by (by rewrite Hh2).
    destruct (fat_free_spec (f_heap s) s2 p bpc Hok2 ltac:(lia) Hplus2) as (Hst3 & Hok3 & Ha3 & Heq3).
    assert (Hp3 : forall x, pbyte (fat_free s2 p bpc) x = pbyte s2 x) by (intros x; unfold pbyte; by rewrite Ha3).
    assert (Hst : io_step s (fat_free s2 p bpc)).
    { eapply io_step_trans; [exact Hst1|]. by eapply io_step_trans. }
    assert (Hkeep : forall x, (caddr (f_vol s) c <= x < caddr (f_vol s) c + bpc ->
       byte_at buf (x - caddr (f_vol s) c) = pbyte s x) -> pbyte (fat_free s2 p bpc) x = pbyte s x).
    { intros x Hx. rewrite Hp3. destruct (decide (caddr (f_vol s) c <= x < caddr (f_vol s) c + bpc)) as [Hr|Hr].
      - destruct (Hany (x - caddr (f_vol s) c) ltac:(lia)) as [He|He];
          replace (caddr (f_vol s) c + (x - caddr (f_vol s) c)) with x in He by lia; rewrite He; [by apply Hx|apply Hp1].
      - rewrite Hout by done. apply Hp1. }
    assert (Hlow : forall x, ~ (caddr (f_vol s) c + from <= x < caddr (f_vol s) c + bpc) ->
      pbyte (fat_free s2 p bpc) x = pbyte s x).
    { intros x Hx. apply Hkeep. intros Hr. rewrite Hpre by lia. f_equal. lia. }
    exists ok, (fat_free s2 p bpc). split; [done|]. split; [done|]. split; [done|]. split; [done|].
    split; [intros x Hx; by apply Hlow, Hx|]. split; [|split; [|split]].
    - intros Hno x Hx. apply Hkeep. intros Hr. rewrite Hpost by (done || lia). f_equal. lia.
    - intros Ht _ x Hx. rewrite Hp3. replace x with (caddr (f_vol s) c + (x - caddr (f_vol s) c)) by lia.
      rewrite Hin by (done || lia). apply Hz. lia.
    - apply synced_io; [done| |done]. intros x Hx. apply Hlow. intros Hr.
      apply (cluster_not_table (f_vol s) c x Hv Hc); [unfold in_cluster; fold bpc; lia|done].
    - intros Hset Hvp Hf. assert (ok = true); [|congruence]. apply Hsucc; [by apply Hst1|].
      by eapply vol_in_part_step. }
  destruct (from =? 0) eqn:Hf0.
  - destruct (fat_malloc_spec s bpc Hok ltac:(lia)) as (p & s1 & Hmal & Hst1 & Hok1 & Ha1 & Hcase).
    rewrite Hmal. destruct Hcase as [[-> ->]|[Hp0 Hplus]].
    + exists false, s. split; [done|]. split; [apply io_step_refl|]. split; [done|].
      split; [apply heap_eq_refl, Hok|]. split_and!; try done. intros _ _ _.
      apply fat_malloc_fst in Hmal. apply (out_of_memory_here _ bpc); [apply Hok|done|lia].
    + destruct (p =? 0) eqn:?; [lia|].
      apply (Hwrite (f_heap s) s1 p); try done.
      * intros x. unfold pbyte. by rewrite Ha1.
      * rewrite zlen_replicate. lia.
      * intros k Hk. lia.
      * intros k Hk. apply byte_at_replicate. lia.
      * intros Hno k Hk. exfalso. unfold gap in Hg. lia.
  - destruct (disk_read_spec s (caddr (f_vol s) c) bpc Hok) as (r & s1 & -> & Hst1 & Hok1 & Hp1 & Hr);
      [lia|lia|unfold vol_end; lia|lia|].
    destruct r as [[p buf]|].
    + destruct Hr as (Hp0 & Hplus & Hbl & Hbuf).
      assert (Hzl : zlen (replicate (Z.to_nat (to - from)) 0) = to - from) by (rewrite zlen_replicate; lia).
      apply (Hwrite (f_heap s) s1 p); try done.
      * rewrite zlen_splice by lia. done.
      * intros k Hk. unfold byte_at. rewrite zget_splice by lia. rewrite decide_False by lia. apply Hbuf. lia.
      * intros k Hk. unfold byte_at. rewrite zget_splice by lia. rewrite decide_True by lia.
        rewrite zget_replicate by lia. done.
      * intros Hno k Hk. unfold byte_at. rewrite zget_splice by lia. rewrite decide_False by lia. apply Hbuf. lia.
    + destruct Hr as [Hr Hfail]. exists false, s1. split; [done|]. split; [done|]. split; [done|]. split; [done|].
      split_and!; try done.
      * intros Hs. apply (synced_io s); try done.
      * intros Hset Hvp _. by apply Hfail.
Qed.

(** ** Lemmas: extending a chain *)

Lemma count_free_shift n i t k : count_free n i t k = k + count_free n i t 0.
Proof.
  revert i k. induction n as [|n IH]; intros i k; cbn [count_free]; [lia|].
  destruct (tget t i =? 0); rewrite IH, (IH _ (_ + 1)) || rewrite IH; [|done]. lia.
Qed.

Lemma count_free_ext n i t t' :
  (forall x, i <= x < i + Z.of_nat n -> tget t x = 0 <-> tget t' x = 0) ->
  count_free n i t 0 = count_free n i t' 0.
Proof.
  revert i. induction n as [|n IH]; intros i Hx; cbn [count_free]; [done|].
  assert (Hi : (tget t i =? 0) = (tget t' i =? 0)) by (specialize (Hx i ltac:(lia)); lia).
  rewrite Hi. rewrite (count_free_shift _ _ t), (count_free_shift _ _ t').
  f_equal. apply IH. intros x Hr. apply Hx. lia.
Qed.

(** The free clusters from [c] on. *)
Definition free_from v t (c : Z) : Z := count_free (Z.to_nat (noClusters v - c)) c t 0.

Lemma free_from_cons v t c :
  c < noClusters v -> free_from v t c = (if tget t c =? 0 then 1 else 0) + free_from v t (c + 1).
Proof.
  intros Hc. unfold free_from. replace (Z.to_nat (noClusters v - c)) with (S (Z.to_nat (noClusters v - (c + 1)))) by lia.
  cbn [count_free]. rewrite count_free_shift. destruct (tget t c =? 0); lia.
Qed.

Lemma free_from_skip v t c r :
  c <= r <= noClusters v -> (forall x, c <= x < r -> tget t x <> 0) -> free_from v t c = free_from v t r.
Proof.
  intros Hr Hx. replace r with (c + Z.of_nat (Z.to_nat (r - c))) by lia.
  assert (Hb : c + Z.of_nat (Z.to_nat (r - c)) <= noClusters v) by lia.
  assert (Hx' : forall x, c <= x < c + Z.of_nat (Z.to_nat (r - c)) -> tget t x <> 0) by (intros; apply Hx; lia).
  clear Hr Hx. induction (Z.to_nat (r - c)) as [|n IH]; [by rewrite Z.add_0_r|].
  rewrite IH by (intros; try apply Hx'; lia). rewrite (free_from_cons _ _ (c + Z.of_nat n)) by lia.
  pose proof (Hx' (c + Z.of_nat n) ltac:(lia)). destruct (tget t (c + Z.of_nat n) =? 0) eqn:?; [lia|].
  rewrite Z.add_0_l. f_equal. lia.
Qed.

Lemma free_from_ext v t t' c :
  (forall x, c <= x -> tget t x = 0 <-> tget t' x = 0) -> free_from v t c = free_from v t' c.
Proof. intros Hx. apply count_free_ext. intros x Hr. apply Hx. lia. Qed.

Lemma unwind_spec s lastCluster origTail new :
  fat_ok s -> is_chain (f_vol s) (fat_table s) lastCluster (lastCluster :: new) ->
  0 <= origTail < 65536 -> fat_valid_cluster (f_vol s) origTail = false ->
  (new = [] -> tget (fat_table s) lastCluster = origTail) ->
  let s' := fat_unwind_chain s lastCluster origTail in
  fat_step s s' /\ f_io s' = f_io s /\ (synced s -> synced s') /\
  forall x, tget (fat_table s') x =
    if decide (x = lastCluster) then origTail else if decide (x ∈ new) then 0 else tget (fat_table s) x.
Proof.
  intros Hok Hc Hu Hinv Hnil s'. pose proof (is_chain_NoDup _ _ _ _ Hc) as Hnd.
  apply NoDup_cons in Hnd as [Hln Hnd]. destruct Hc as (_ & Hv & Hc).
  pose proof (proj1 (valid_range _ _) Hv) as Hr.
  unfold s', fat_unwind_chain. rewrite Hv. cbn [negb].
  destruct (tget (fat_table s) lastCluster =? origTail) eqn:Heq.
  { split; [by apply fat_step_refl|]. split; [done|]. split; [done|]. intros x.
    destruct new as [|y new].
    - case_decide as Hd; [subst; lia|]. rewrite decide_False by apply not_elem_of_nil. done.
    - exfalso. destruct Hc as (-> & Hvy & _). assert (tget (fat_table s) lastCluster = origTail) as He by lia.
      rewrite He in Hvy. congruence. }
  rewrite (update_spec s lastCluster origTail Hok) by lia.
  pose proof (cluster_in_table s lastCluster Hok ltac:(lia)) as Hct.
  set (s1 := with_table s _ _).
  assert (Hok1 : fat_ok s1) by (apply fat_ok_update; [done|lia|done]).
  assert (Ht1 : forall x, tget (fat_table s1) x = if decide (x = lastCluster) then origTail else tget (fat_table s) x)
    by (intros x; by apply tget_zset).
  assert (Hc1 : is_chain (f_vol s1) (fat_table s1) (tget (fat_table s) lastCluster) new).
  { apply (is_chain_agree _ (fat_table s)); [|done]. intros y Hy. rewrite Ht1. case_decide; [by subst|done]. }
  assert (Hcur : 0 <= tget (fat_table s) lastCluster) by (pose proof (fo_u16 _ Hok lastCluster); lia).
  destruct (free_chain_step (chain_fuel s1) s1 _ _ (tget (fat_table s) lastCluster) (tget (fat_table s) lastCluster)
    Hok1 Hc1 (chain_length s1 _ _ Hok1 Hc1) ltac:(lia)) as (mn & mx & s2 & -> & F2 & Ht2 & _ & Hio & Hsy2).
  split; [eapply fat_step_trans; [by apply table_fat_step|done]|]. split; [by rewrite Hio|]. split.
  - intros Hs. apply Hsy2. by apply synced_update; [|lia|].
  - intros x. rewrite Ht2, Ht1. repeat case_decide; try done. by subst.
Qed.

(** The state of the allocation loop after the clusters [new], with [s0] the state
    it started in. *)
Record ext_inv s0 s (last prev searchFrom : Z) (new : list Z) : Prop := {
  ei_step : fat_step s0 s;
  ei_heap : f_heap s = f_heap s0;
  ei_chain : is_chain (f_vol s0) (fat_table s) last (last :: new);
  ei_prev : exists pre, last :: new = pre ++ [prev];
  ei_tail : tget (fat_table s) prev <> 0 /\ (new = [] -> tget (fat_table s) last = tget (fat_table s0) last);
  ei_new x : x ∈ new -> tget (fat_table s0) x = 0;
  ei_other x : x ∉ last :: new -> tget (fat_table s) x = tget (fat_table s0) x;
  ei_from : 2 <= searchFrom <= noClusters (f_vol s0);
  ei_zero x c : c ∈ new -> in_cluster (f_vol s0) c x -> pbyte s x = 0;
  ei_data x : (forall c, 2 <= c < noClusters (f_vol s0) -> tget (fat_table s0) c = 0 -> ~ in_cluster (f_vol s0) c x) ->
    pbyte s x = pbyte s0 x;
  ei_synced : synced s0 -> synced s }.

(** The entries of a chain are not free. *)
Lemma chain_nonzero v t c pre prev x :
  is_chain v t c (pre ++ [prev]) -> tget t prev <> 0 -> x ∈ pre ++ [prev] -> tget t x <> 0.
Proof.
  revert c. induction pre as [|y pre IH]; intros c Hc Hp; simpl.
  - intros Hx. apply list_elem_of_singleton in Hx as ->. done.
  - intros Hx. destruct Hc as (-> & _ & Hc). apply elem_of_cons in Hx as [->|Hx]; [|by eapply IH].
    destruct pre as [|z pre]; simpl in Hc; destruct Hc as (-> & Hv & _); apply valid_range in Hv; lia.
Qed.

Lemma ext_inv_step s0 s last prev searchFrom new c :
  ext_inv s0 s last prev searchFrom new -> searchFrom <= c < noClusters (f_vol s0) ->
  tget (fat_table s) c = 0 ->
  forall s1, io_step s s1 -> fat_ok s1 -> f_heap s1 = f_heap s ->
  (forall x, ~ in_cluster (f_vol s0) c x -> pbyte s1 x = pbyte s x) ->
  (forall x, in_cluster (f_vol s0) c x -> pbyte s1 x = 0) -> (synced s -> synced s1) ->
  exists s2, fat_table_update_cluster s1 c END_OF_CHAIN = (true, s2) /\
  exists s3, fat_table_update_cluster s2 prev c = (true, s3) /\
    ext_inv s0 s3 last c (c + 1) (new ++ [c]) /\
    (forall x, tget (fat_table s3) x = if decide (x = prev) then c else if decide (x = c) then END_OF_CHAIN
                                       else tget (fat_table s) x).
Proof.
  intros I Hc Hfree s1 Hst Hok1 Hh1 Hout Hin Hsy1. destruct I as [F Hh Hch [pre Hpre] [Htl Hnil] Hnew Hoth Hsf Hz Hd Hsy].
  destruct (fat_step_vol _ _ F) as [Hv0 _]. destruct (io_step_vol _ _ Hst) as (Hv1 & Ht1 & _).
  assert (Hmem : forall x, x ∈ last :: new -> tget (fat_table s) x <> 0).
  { intros x Hx. rewrite Hpre in Hx, Hch. by eapply chain_nonzero. }
  assert (Hcn : c ∉ last :: new) by (intros Hx; by apply (Hmem c)).
  assert (Hprev : prev ∈ last :: new) by (rewrite Hpre; apply elem_of_app; right; by apply list_elem_of_singleton).
  assert (Hpc : prev <> c) by (intros ->; done).
  pose proof (is_chain_valid _ _ _ _ Hch) as Hval. rewrite Forall_forall in Hval.
  pose proof (proj1 (valid_range _ _) (Hval prev Hprev)) as Hpr.
  pose proof (vo_clusters _ (fo_vol _ Hok1)) as Hcl. rewrite Hv1, Hv0 in Hcl.
  rewrite (update_spec s1 c END_OF_CHAIN Hok1) by (rewrite Hv1, Hv0; lia).
  pose proof (cluster_in_table s1 c Hok1 ltac:(rewrite Hv1, Hv0; lia)) as Hct.
  eexists. split; [done|]. set (s2 := with_table s1 _ _).
  assert (Hok2 : fat_ok s2) by (apply fat_ok_update; [done|rewrite Hv1, Hv0; lia|unfold END_OF_CHAIN; lia]).
  rewrite (update_spec s2 prev c Hok2) by (change (f_vol s2) with (f_vol s1); rewrite Hv1, Hv0; lia).
  pose proof (cluster_in_table s2 prev Hok2 ltac:(change (f_vol s2) with (f_vol s1); rewrite Hv1, Hv0; lia)) as Hpt.
  eexists. split; [done|]. set (s3 := with_table s2 _ _).
  assert (Hok3 : fat_ok s3).
  { apply fat_ok_update; [done|change (f_vol s2) with (f_vol s1); rewrite Hv1, Hv0; lia|lia]. }
  assert (Ht3 : forall x, tget (fat_table s3) x = if decide (x = prev) then c else if decide (x = c) then END_OF_CHAIN
                                       else tget (fat_table s) x).
  { intros x. change (fat_table s3) with (zset (fat_table s2) prev c). rewrite tget_zset by done.
    case_decide; [done|]. change (fat_table s2) with (zset (fat_table s1) c END_OF_CHAIN).
    rewrite tget_zset by done. by rewrite Ht1. }
  split; [|done]. constructor.
  - eapply fat_step_trans; [exact F|]. eapply fat_step_trans; [by apply io_fat_step|].
    exact (fat_step_trans _ _ _ (table_fat_step s1 _ _ Hok2) (table_fat_step s2 _ _ Hok3)).
  - change (f_heap s3) with (f_heap s1). congruence.
  - change (last :: new ++ [c]) with ((last :: new) ++ [c]). rewrite Hpre. rewrite Hpre in Hch.
    rewrite <-app_assoc. simpl.
    apply (is_chain_relink _ (fat_table s) _ _ _ _ []); [done| |].
    + intros y Hy. rewrite Ht3. pose proof (is_chain_NoDup _ _ _ _ Hch) as Hnd.
      apply NoDup_app in Hnd as (_ & Hdj & _). rewrite decide_False, decide_False; [done| |].
      * intros ->. apply Hcn. rewrite Hpre. apply elem_of_app. by left.
      * intros ->. apply (Hdj prev); [done|]. by apply list_elem_of_singleton.
    + rewrite Ht3, decide_True by done. split; [done|]. split; [apply valid_range; lia|].
      rewrite Ht3, decide_False, decide_True by done. by vm_compute.
  - exists (last :: new). done.
  - rewrite Ht3. rewrite decide_False by congruence. rewrite decide_True by done. split; [done|].
    by destruct new.
  - intros x Hx. apply elem_of_app in Hx as [Hx|Hx]; [by apply Hnew|].
    apply list_elem_of_singleton in Hx as ->. rewrite <-Hoth by done. done.
  - intros x Hx. change (last :: new ++ [c]) with ((last :: new) ++ [c]) in Hx.
    rewrite elem_of_app, list_elem_of_singleton in Hx.
    rewrite Ht3. rewrite decide_False by (intros ->; tauto). rewrite decide_False by tauto. apply Hoth. tauto.
  - lia.
  - intros x d Hdn Hx. change (pbyte s3 x) with (pbyte s1 x).
    destruct (decide (in_cluster (f_vol s0) c x)) as [Hcx|Hcx]; [by apply Hin|].
    rewrite Hout by done. apply elem_of_app in Hdn as [Hdn|Hdn]; [by apply (Hz x d)|].
    apply list_elem_of_singleton in Hdn as ->. done.
  - intros x Hx. change (pbyte s3 x) with (pbyte s1 x). rewrite Hout; [by apply Hd|].
    apply Hx; [lia|]. rewrite <-Hoth by done. done.
  - intros Hs. apply synced_update; [done|change (f_vol s2) with (f_vol s1); rewrite Hv1, Hv0; lia|].
    apply synced_update; [done|rewrite Hv1, Hv0; lia|]. auto.
Qed.

(** Byte [x] lies in no free cluster of [s]. *)
Definition not_free_data s (x : Z) : Prop :=
  forall c, 2 <= c < noClusters (f_vol s) -> tget (fat_table s) c = 0 -> ~ in_cluster (f_vol s) c x.

(** A failed extension is undone: the table as before, the buffers given back. *)
Record undone h0 s0 s' : Prop := {
  un_step : fat_step s0 s';
  un_heap : heap_eq h0 (f_heap s');
  un_table x : tget (fat_table s') x = tget (fat_table s0) x;
  un_data x : not_free_data s0 x -> ~ in_table_area (f_vol s0) x -> pbyte s' x = pbyte s0 x }.

Lemma ext_undo h0 s0 s s1 last prev searchFrom new zeros :
  ext_inv s0 s last prev searchFrom new ->
  fat_valid_cluster (f_vol s0) (tget (fat_table s0) last) = false -> fat_ok s0 ->
  heap_plus h0 (f_heap s0) zeros (bytesPerCluster (f_vol s0)) ->
  fat_step s s1 -> fat_table s1 = fat_table s -> f_heap s1 = f_heap s ->
  (forall x, not_free_data s0 x -> ~ in_table_area (f_vol s0) x -> pbyte s1 x = pbyte s x) ->
  let s' := fat_unwind_chain (fat_free s1 zeros (bytesPerCluster (f_vol s0))) last (tget (fat_table s0) last) in
  undone h0 s0 s' /\ ((synced s -> synced s1) -> synced s0 -> synced s').
Proof.
  intros I Hinv Hok0 Hplus Hst Ht1 Hh1 Hout s'. subst s'. pose proof (st_ok _ _ Hst) as Hok1.
  destruct (fat_step_vol _ _ (ei_step _ _ _ _ _ _ I)) as [Hv0 _].
  destruct (fat_step_vol _ _ Hst) as (Hv1 & _).
  destruct (bpc_pos _ (fo_vol _ Hok0)) as [Hp _]. pose proof (vo_cluster _ (fo_vol _ Hok0)) as Hbc.
  assert (Hplus1 : heap_plus h0 (f_heap s1) zeros (bytesPerCluster (f_vol s0))).
  { by rewrite Hh1, (ei_heap _ _ _ _ _ _ I). }
  destruct (fat_free_spec h0 s1 zeros (bytesPerCluster (f_vol s0)) Hok1 ltac:(lia) Hplus1) as (Hst2 & Hok2 & Ha2 & Heq2).
  set (s2 := fat_free s1 zeros (bytesPerCluster (f_vol s0))) in *.
  assert (Hp2 : forall x, pbyte s2 x = pbyte s1 x) by (intros x; unfold pbyte; by rewrite Ha2).
  destruct (io_step_vol _ _ Hst2) as (Hv2 & Ht2 & _).
  destruct (unwind_spec s2 last (tget (fat_table s0) last) new Hok2) as (F3 & Hio3 & Hsy3 & Ht3).
  - rewrite Hv2, Hv1, Hv0, Ht2, Ht1. apply I.
  - apply (fo_u16 _ Hok0).
  - by rewrite Hv2, Hv1, Hv0.
  - intros ->. rewrite Ht2, Ht1. by apply (ei_tail _ _ _ _ _ _ I).
  - destruct (f_ata_io _ _ Hio3) as [_ Hp3]. split; [constructor|].
    + eapply fat_step_trans; [apply I|]. eapply fat_step_trans; [exact Hst|].
      eapply fat_step_trans; [by apply io_fat_step|done].
    + unfold f_heap in *. by rewrite Hio3.
    + intros x. rewrite Ht3, Ht2, Ht1. case_decide as Hd1; [by subst|].
      case_decide as Hd2; [by rewrite (ei_new _ _ _ _ _ _ I)|].
      apply (ei_other _ _ _ _ _ _ I). rewrite elem_of_cons. tauto.
    + intros x Hx Hxt. rewrite Hp3, Hp2, Hout by done. by apply (ei_data _ _ _ _ _ _ I).
    + intros Hsy1 Hs. apply Hsy3. apply (synced_io s1); [done| |done|].
      * intros x _. apply Hp2.
      * apply Hsy1. by apply (ei_synced _ _ _ _ _ _ I).
Qed.

Lemma extend_loop_spec n h0 s0 s last prev searchFrom zeros new alloc mn mx :
  ext_inv s0 s last prev searchFrom new -> fat_ok s0 ->
  fat_valid_cluster (f_vol s0) (tget (fat_table s0) last) = false ->
  heap_plus h0 (f_heap s0) zeros (bytesPerCluster (f_vol s0)) -> 0 <= mn <= mx ->
  exists r s', extend_loop n s last (tget (fat_table s0) last) prev searchFrom zeros alloc mn mx = (r, s') /\
    ((exists extra mn' mx' prev' sf', r = Some (alloc + Z.of_nat n, mn', mx') /\ length extra = n /\
        ext_inv s0 s' last prev' sf' (new ++ extra) /\ 0 <= mn' <= mx') \/
     (r = None /\ undone h0 s0 s' /\ (synced s0 -> synced s') /\
        (settled (f_ata s0) -> vol_in_part s0 -> Z.of_nat n <= free_from (f_vol s0) (fat_table s) searchFrom -> False))).
Proof.
  revert s prev searchFrom new alloc mn mx.
  induction n as [|n IH]; intros s prev searchFrom new alloc mn mx I Hok0 Hinv Hplus Hm; cbn [extend_loop].
  { exists (Some (alloc, mn, mx)), s. split; [done|]. left. exists [], mn, mx, prev, searchFrom.
    split; [by rewrite Z.add_0_r|]. split; [done|]. rewrite app_nil_r. by split. }
  pose proof (st_ok _ _ (ei_step _ _ _ _ _ _ I)) as Hok.
  destruct (fat_step_vol _ _ (ei_step _ _ _ _ _ _ I)) as [Hv0 _]. rewrite Hv0.
  pose proof (vo_clusters _ (fo_vol _ Hok0)) as Hcl. pose proof (ei_from _ _ _ _ _ _ I) as Hsf.
  pose proof (find_free_spec (Z.to_nat (noClusters (f_vol s0))) (f_vol s0) (fat_table s) searchFrom
    ltac:(lia) ltac:(lia) ltac:(lia)) as (Hr & Hskip & Hz).
  set (c := find_free _ _ _ _) in *.
  destruct (noClusters (f_vol s0) <=? c) eqn:Hc.
  { eexists None, _. split; [done|]. right. split; [done|].
    destruct (ext_undo h0 s0 s s last prev searchFrom new zeros) as [Hun Hsyn]; try done; [by apply fat_step_refl|].
    split; [done|]. split; [auto|]. intros _ _ Hfr. rewrite (free_from_skip _ _ _ _ Hr Hskip) in Hfr. unfold free_from in Hfr.
      replace (noClusters (f_vol s0) - c) with 0 in Hfr by lia. simpl in Hfr. lia. }
  specialize (Hz ltac:(lia)).
  assert (Hcr : 2 <= c < noClusters (f_vol s)) by (rewrite Hv0; lia).
  destruct (zero_cluster_spec s c Hok Hcr) as (w & s1 & Hw & Hst1 & Hok1 & Hh1 & Hout1 & Hin1 & Hsy1 & Hsucc1).
  rewrite Hv0 in Hw. rewrite Hw. rewrite Hv0 in Hout1, Hin1.
  assert (Hc0 : tget (fat_table s0) c = 0).
  { rewrite <-(ei_other _ _ _ _ _ _ I); [done|]. intros Hx.
    destruct (ei_prev _ _ _ _ _ _ I) as [pre Hpre]. pose proof (ei_chain _ _ _ _ _ _ I) as Hch.
    rewrite Hpre in Hx, Hch. revert Hz. eapply chain_nonzero; [exact Hch| |done]. apply I. }
  destruct w; cbn [negb].
  2: { eexists None, _. split; [done|]. right. split; [done|].
       destruct (io_step_vol _ _ Hst1) as (_ & Ht1 & _).
       destruct (ext_undo h0 s0 s s1 last prev searchFrom new zeros) as [Hun Hsyn]; try done.
       - by apply io_fat_step.
       - intros x Hx _. apply Hout1. apply Hx; [lia|done].
       - split; [done|]. split; [auto|]. intros Hset Hvp _. assert (false = true); [|done]. apply Hsucc1; [by apply I|].
         eapply vol_in_part_fat; [apply I|done]. }
  destruct (ext_inv_step s0 s last prev searchFrom new c I ltac:(lia) Hz s1 Hst1 Hok1 Hh1 Hout1 (Hin1 eq_refl) Hsy1)
    as (s2 & Hu1 & s3 & Hu2 & I3 & Ht3).
  rewrite Hu1. cbn [negb]. rewrite Hu2. cbn [negb]. rewrite u16_id by lia.
  destruct (IH s3 c (c + 1) (new ++ [c]) (alloc + 1) (if c <? mn then c else mn) (if mx <? c then c else mx)
    I3 Hok0 Hinv Hplus) as (r & s4 & Hext & Hcase).
  { destruct (c <? mn) eqn:?; destruct (mx <? c) eqn:?; lia. }
  rewrite Hext. exists r, s4. split; [done|].
  destruct Hcase as [(extra & mn' & mx' & prev' & sf' & -> & Hlen & I4 & Hm4)|(-> & Hun & Hsyn & Himp)].
  - left. exists (c :: extra), mn', mx', prev', sf'. split; [do 3 f_equal; lia|]. split; [simpl; lia|].
    split; [|done]. by rewrite <-app_assoc in I4.
  - right. split; [done|]. split; [done|]. split; [done|]. intros Hset Hvp Hfr. apply Himp; [done|done|].
    rewrite (free_from_skip _ _ _ _ Hr Hskip), free_from_cons in Hfr by lia.
    rewrite (proj2 (Z.eqb_eq _ _) Hz) in Hfr.
    rewrite (free_from_ext _ (fat_table s3) (fat_table s)); [lia|].
    intros x Hx. rewrite Ht3. rewrite (decide_False (P := x = c)) by lia. case_decide as Hd; [|done]. subst x.
    destruct (ei_tail _ _ _ _ _ _ I) as [Hnz _]. lia.
Qed.

(** Byte [x] lies past the old end of file in the last cluster of the file. *)
Definition in_gap v (l : list Z) (oldSize x : Z) : Prop :=
  caddr v (chain_last l) + oldSize mod bytesPerCluster v <= x <
    caddr v (chain_last l) + bytesPerCluster v /\
  (oldSize mod bytesPerCluster v <> 0 \/ oldSize = 0).

(** What extending the chain [l] by the clusters [new] has done. *)
Record extended s s' (start : Z) (l new : list Z) (oldSize newSize : Z) : Prop := {
  ed_step : fat_step s s';
  ed_heap : heap_eq (f_heap s) (f_heap s');
  ed_chain : is_chain (f_vol s) (fat_table s') start (l ++ new);
  ed_tail : tget (fat_table s') (chain_last (l ++ new)) <> 0;
  ed_new x : x ∈ new -> tget (fat_table s) x = 0;
  ed_other x : x ∉ l ++ new -> tget (fat_table s') x = tget (fat_table s) x;
  ed_kept x : x ∈ removelast l -> tget (fat_table s') x = tget (fat_table s) x;
  ed_zero x c : c ∈ new -> in_cluster (f_vol s) c x -> pbyte s' x = 0;
  ed_gap x : in_gap (f_vol s) l oldSize x -> x < caddr (f_vol s) (chain_last l) + (newSize - (oldSize - oldSize mod bytesPerCluster (f_vol s))) ->
    pbyte s' x = 0;
  ed_data x : not_free_data s x -> ~ in_table_area (f_vol s) x -> ~ in_gap (f_vol s) l oldSize x ->
    pbyte s' x = pbyte s x;
  ed_synced : synced s -> synced s' }.

(** What a failed extension leaves: the table and every file as they were. *)
Record not_extended s s' (l : list Z) (oldSize : Z) : Prop := {
  ne_step : fat_step s s';
  ne_heap : heap_eq (f_heap s) (f_heap s');
  ne_table x : tget (fat_table s') x = tget (fat_table s) x;
  ne_data x : not_free_data s x -> ~ in_table_area (f_vol s) x -> ~ in_gap (f_vol s) l oldSize x ->
    pbyte s' x = pbyte s x }.

Lemma chain_last_split l : l <> [] -> l = removelast l ++ [chain_last l].
Proof. intros. unfold chain_last. by apply app_removelast_last. Qed.

Lemma in_gap_cluster s l oldSize x :
  vol_ok (f_vol s) -> in_gap (f_vol s) l oldSize x -> in_cluster (f_vol s) (chain_last l) x.
Proof.
  intros Hv [Hx _]. destruct (bpc_pos _ Hv) as [Hp _].
  pose proof (Z.mod_pos_bound oldSize (bytesPerCluster (f_vol s)) Hp). unfold in_cluster. lia.
Qed.

(** The clusters a file of [oldSize] bytes owns: one at least. *)
Definition owned v (oldSize : Z) : Z := Z.max 1 (clusters_for v oldSize).

Lemma clusters_for_nonneg v size : vol_ok v -> 0 <= clusters_for v size.
Proof.
  intros Hv. destruct (bpc_pos v Hv) as [Hp _]. unfold clusters_for.
  apply Z.div_pos; [|done]. apply u32_range.
Qed.

Lemma owned_eq v oldSize : vol_ok v ->
  (if clusters_for v oldSize =? 0 then 1 else clusters_for v oldSize) = owned v oldSize.
Proof. intros Hv. pose proof (clusters_for_nonneg v oldSize Hv). unfold owned. destruct (_ =? 0) eqn:?; lia. Qed.

(** The allocation of the clusters, once the gap is zeroed. *)
Lemma extend_alloc_spec s last n :
  fat_ok s -> fat_valid_cluster (f_vol s) last = true ->
  fat_valid_cluster (f_vol s) (tget (fat_table s) last) = false -> tget (fat_table s) last <> 0 -> 0 < n ->
  let v := f_vol s in
  let bpc := bytesPerCluster v in
  exists r s',
    (let '(zeros, s1) := fat_malloc s bpc in
     if zeros =? 0 then (-1, s1)
     else
       match extend_loop (Z.to_nat n) s1 last (tget (fat_table s) last) last 2 zeros 0 last last with
       | (None, s1) => (-1, s1)
       | (Some (allocated, min, max), s1) =>
           let '(w, s1) := fat_table_flush_cache s1 min max in
           if negb w then
             let s1 := fat_free s1 zeros bpc in
             let s1 := fat_unwind_chain s1 last (tget (fat_table s) last) in
             let '(_, s1) := fat_table_flush_cache s1 min max in
             (-1, s1)
           else (allocated, fat_free s1 zeros bpc)
       end) = (r, s') /\
    ((r = -1 /\ undone (f_heap s) s s' /\
        (settled (f_ata s) -> vol_in_part s -> n <= fat_free_clusters s -> out_of_memory (f_heap s) (bpc + 1024))) \/
     (r = n /\ heap_eq (f_heap s) (f_heap s') /\ exists s2 prev sf new,
        zlen new = n /\ fat_step s2 s' /\ fat_table s' = fat_table s2 /\
        (forall x, ~ in_table_area v x -> pbyte s' x = pbyte s2 x) /\ (synced s -> synced s') /\
        exists s0, f_vol s0 = f_vol s /\ fat_table s0 = fat_table s /\ (forall x, pbyte s0 x = pbyte s x) /\
          fat_step s s0 /\ ext_inv s0 s2 last prev sf new)).
Proof.
  intros Hok Hvl Hinv Hnz Hn v bpc. pose proof (fo_vol _ Hok) as Hv. destruct (bpc_pos _ Hv) as [Hp _].
  fold v bpc in Hp. pose proof (vo_cluster _ Hv) as Hbc. fold v bpc in Hbc.
  destruct (fat_malloc_spec s bpc Hok ltac:(lia)) as (zeros & s0 & Hmal & Hst0 & Hok0 & Ha0 & Hcase).
  rewrite Hmal. destruct Hcase as [[-> ->]|[Hz0 Hplus]].
  { exists (-1), s. split; [done|]. left. split; [done|]. split.
    - constructor; try done; [by apply fat_step_refl|apply heap_eq_refl, Hok].
    - intros _ _ _. apply fat_malloc_fst in Hmal. apply (out_of_memory_here _ bpc); [apply Hok|done|lia]. }
  destruct (zeros =? 0) eqn:?; [lia|].
  destruct (io_step_vol _ _ Hst0) as (Hv0 & Ht0 & Hd0 & _).
  assert (Hp0 : forall x, pbyte s0 x = pbyte s x) by (intros x; unfold pbyte; by rewrite Ha0).
  pose proof (proj1 (valid_range _ _) Hvl) as Hlr. pose proof (vo_clusters _ Hv) as Hcl.
  assert (Hsy0 : synced s -> synced s0) by (apply synced_io; [done|intros; apply Hp0|done]).
  assert (I0 : ext_inv s0 s0 last last 2 []).
  { constructor.
    - by apply fat_step_refl.
    - done.
    - rewrite Hv0, Ht0. by split_and!.
    - by exists [].
    - rewrite Ht0. by split.
    - intros x Hx. by apply not_elem_of_nil in Hx.
    - done.
    - rewrite Hv0. lia.
    - intros x c Hc. by apply not_elem_of_nil in Hc.
    - done.
    - done. }
  rewrite <-Ht0. rewrite <-Ht0, <-Hv0 in Hinv.
  assert (Hun : forall s', undone (f_heap s) s0 s' -> undone (f_heap s) s s').
  { intros s' U. unfold v in *. constructor.
    - eapply fat_step_trans; [by apply io_fat_step|apply U].
    - apply U.
    - intros x. rewrite (un_table _ _ _ U). by rewrite Ht0.
    - intros x Hx Hxt. rewrite (un_data _ _ _ U), Hp0; [done| |by rewrite Hv0].
      unfold not_free_data in *. by rewrite Hv0, Ht0. }
  assert (Hplus0 : heap_plus (f_heap s) (f_heap s0) zeros (bytesPerCluster (f_vol s0))) by (by rewrite Hv0).
  destruct (extend_loop_spec (Z.to_nat n) (f_heap s) s0 s0 last last 2 zeros [] 0 last last I0 Hok0 Hinv Hplus0 ltac:(lia))
    as (r & s2 & -> & [(extra & mn & mx & prev & sf & -> & Hlen & I2 & Hm)|(-> & U & _ & Himp)]).
  2: { exists (-1), s2. split; [done|]. left. split; [done|]. split; [by apply Hun|].
       intros Hset Hvp Hfr. exfalso. apply Himp; [by rewrite Ha0|by eapply vol_in_part_step|].
       rewrite Hv0, Ht0. unfold fat_free_clusters in Hfr. unfold free_from. fold v in Hfr. fold v. lia. }
  simpl app in I2. pose proof (st_ok _ _ (ei_step _ _ _ _ _ _ I2)) as Hok2.
  destruct (fat_step_vol _ _ (ei_step _ _ _ _ _ _ I2)) as [Hv2 _].
  destruct (flush_cache_spec s2 mn mx Hok2 Hm) as (w & s3 & -> & F3 & _ & Hsy3 & Hsucc3).
  destruct (flush_step_vol _ _ F3) as (Hv3 & Ht3 & _).
  assert (Hh3 : heap_plus (f_heap s) (f_heap s3) zeros bpc).
  { rewrite (fs_heap _ _ F3), (ei_heap _ _ _ _ _ _ I2). done. }
  destruct w; cbn [negb].
  - destruct (fat_free_spec (f_heap s) s3 zeros bpc (fs_ok _ _ F3) ltac:(lia) Hh3) as (Hst4 & Hok4 & Ha4 & Heq4).
    destruct (io_step_vol _ _ Hst4) as (Hv4 & Ht4 & _).
    assert (Hp4 : forall x, pbyte (fat_free s3 zeros bpc) x = pbyte s3 x) by (intros x; unfold pbyte; by rewrite Ha4).
    eexists _, _. split; [done|]. right. split; [lia|]. split; [done|]. exists s2, prev, sf, extra.
    split; [unfold zlen; lia|]. split; [eapply fat_step_trans; [by apply flush_fat_step|by apply io_fat_step]|].
    split; [by rewrite Ht4|]. split.
    { intros x Hx. rewrite Hp4. apply (fs_out _ _ F3). by rewrite Hv2, Hv0. }
    split.
    { intros Hs. apply (synced_io s3); [done|intros; apply Hp4|apply F3|]. apply Hsy3; [done|].
      apply (ei_synced _ _ _ _ _ _ I2). auto. }
    exists s0. split; [done|]. split; [done|]. split; [done|]. split; [by apply io_fat_step|done].
  - destruct (ext_undo (f_heap s) s0 s2 s3 last prev sf extra zeros) as [U _]; try done.
    + by apply flush_fat_step.
    + by rewrite (fs_heap _ _ F3).
    + intros x _ Hxt. apply (fs_out _ _ F3). by rewrite Hv2.
    + rewrite Hv0 in U. fold v bpc in U. set (s4 := fat_unwind_chain _ _ _) in *.
      destruct (flush_cache_spec s4 mn mx (st_ok _ _ (un_step _ _ _ U)) Hm) as (w & s5 & -> & F5 & _).
      destruct (flush_step_vol _ _ F5) as (Hv5 & Ht5 & _).
      destruct (fat_step_vol _ _ (un_step _ _ _ U)) as [Hv4 _].
      exists (-1), s5. split; [done|]. left. split; [done|]. split.
      * apply Hun. constructor.
        -- eapply fat_step_trans; [apply U|by apply flush_fat_step].
        -- rewrite (fs_heap _ _ F5). apply U.
        -- intros x. rewrite Ht5. apply U.
        -- intros x Hx Hxt. rewrite (fs_out _ _ F5) by (by rewrite Hv4). by apply U.
      * intros Hset Hvp _. exfalso. assert (false = true); [|done]. apply Hsucc3.
        -- apply I2. by rewrite Ha0.
        -- eapply vol_in_part_fat; [apply I2|]. by eapply vol_in_part_step.
Qed.

Lemma clusters_for_le v a b :
  vol_ok v -> 0 <= a <= b -> b + bytesPerCluster v <= 2 ^ 32 -> clusters_for v a <= clusters_for v b.
Proof.
  intros Hv Hab Hb. destruct (bpc_pos v Hv) as [Hp _]. unfold clusters_for.
  rewrite !u32_id by lia. apply Z.div_le_mono; lia.
Qed.

(** The last cluster of a whole chain, as [fat_extend_cluster_chain] finds it. *)
Lemma walk_to_last s start l oldSize :
  fat_ok s -> is_chain (f_vol s) (fat_table s) start l -> zlen l = owned (f_vol s) oldSize ->
  walk_chain (Z.to_nat (owned (f_vol s) oldSize - 1)) (f_vol s) (fat_table s) start = chain_last l /\
  fat_valid_cluster (f_vol s) start = true /\
  fat_valid_cluster (f_vol s) (chain_last l) = true /\
  fat_valid_cluster (f_vol s) (tget (fat_table s) (chain_last l)) = false.
Proof.
  intros Hok Hc Hlen. assert (Hne : l <> []).
  { intros ->. rewrite zlen_nil in Hlen. unfold owned in Hlen. lia. }
  pose proof (walk_chain_spec (Z.to_nat (owned (f_vol s) oldSize - 1)) _ _ _ _ Hc Hne) as Hw.
  pose proof (chain_last_split l Hne) as Hsp. pose proof Hc as Hc2. rewrite Hsp in Hc2.
  apply is_chain_suffix in Hc2 as (_ & Hv & Hend).
  split; [|split; [|by split]].
  - assert (Hl : l !! length (removelast l) = Some (chain_last l)).
    { transitivity ((removelast l ++ [chain_last l]) !! length (removelast l)); [by rewrite <-Hsp|].
      by apply list_lookup_middle. }
    replace (Nat.min _ _) with (length (removelast l)) in Hw.
    + congruence.
    + apply (f_equal length) in Hsp. rewrite length_app in Hsp. simpl in Hsp. unfold zlen in Hlen. lia.
  - destruct l; [done|]. by destruct Hc as (-> & ? & _).
Qed.

Lemma not_in_gap_outside v l oldSize x :
  (negb (oldSize mod bytesPerCluster v =? 0) || (oldSize =? 0)) = true -> ~ in_gap v l oldSize x ->
  ~ (caddr v (chain_last l) + oldSize mod bytesPerCluster v <= x < caddr v (chain_last l) + bytesPerCluster v).
Proof. intros Hg Hn Hr. apply Hn. split; [done|]. lia. Qed.

Lemma extend_spec s start l oldSize newSize :
  fat_ok s -> is_chain (f_vol s) (fat_table s) start l -> zlen l = owned (f_vol s) oldSize ->
  tget (fat_table s) (chain_last l) <> 0 ->
  0 <= oldSize < newSize -> newSize + bytesPerCluster (f_vol s) <= 2 ^ 32 ->
  exists r s', fat_extend_cluster_chain s start oldSize newSize = (r, s') /\
    ((r = -1 /\ not_extended s s' l oldSize /\
       (settled (f_ata s) -> vol_in_part s ->
        clusters_for (f_vol s) newSize - zlen l <= fat_free_clusters s ->
        out_of_memory (f_heap s) (bytesPerCluster (f_vol s) + 1024))) \/
     (exists new, r = zlen new /\ zlen new = Z.max 0 (clusters_for (f_vol s) newSize - zlen l) /\
        extended s s' start l new oldSize newSize)).
Proof.
  intros Hok Hc Hlen Hnz Hsz Hmax. pose proof (fo_vol _ Hok) as Hv.
  destruct (walk_to_last s start l oldSize Hok Hc Hlen) as (Hwalk & Hvs & Hvl & Hvend).
  unfold fat_extend_cluster_chain. rewrite owned_eq by done. rewrite Hvs, Hwalk.
  destruct (newSize <=? oldSize) eqn:?; [lia|]. cbn [negb].
  set (last := chain_last l) in *. pose proof (proj1 (valid_range _ _) Hvl) as Hlr.
  destruct (bpc_pos _ Hv) as [Hp _].
  destruct (zero_gap_spec s last oldSize newSize Hok ltac:(lia) Hsz ltac:(lia))
    as (ok & s1 & -> & Hst1 & Hok1 & Hh1 & Hlow & Hhigh & Hzero & Hsy1 & Hfail).
  destruct (io_step_vol _ _ Hst1) as (Hv1 & Ht1 & _).
  set (bpc := bytesPerCluster (f_vol s)) in *.
  set (gap := negb (oldSize mod bpc =? 0) || (oldSize =? 0)) in *.
  assert (Hg : forall x, ~ in_gap (f_vol s) l oldSize x -> pbyte s1 x = pbyte s x).
  { intros x Hx. apply Hlow. intros Hgap. by apply (not_in_gap_outside _ l oldSize x Hgap). }
  destruct ok; cbn [negb].
  2: { exists (-1), s1. split; [done|]. left. split; [done|]. split.
       - constructor; [by apply io_fat_step|done|by rewrite Ht1|]. intros x _ _ Hx. by apply Hg.
       - intros Hset Hvp _. by apply Hfail. }
  assert (Hin_gap : forall x, in_gap (f_vol s) l oldSize x ->
    x < caddr (f_vol s) last + (newSize - (oldSize - oldSize mod bpc)) -> pbyte s1 x = 0).
  { intros x [Hr Hcond] Hlt. fold bpc last in Hr, Hcond. apply Hzero; [done| |lia].
    unfold gap. destruct (oldSize mod bpc =? 0) eqn:?; [lia|done]. }
  destruct (clusters_for (f_vol s) newSize <=? owned (f_vol s) oldSize) eqn:Hcl.
  { exists 0, s1. split; [done|]. right. exists []. rewrite zlen_nil. split; [done|]. split; [lia|]. constructor.
    - by apply io_fat_step.
    - done.
    - by rewrite app_nil_r, Ht1.
    - by rewrite app_nil_r, Ht1.
    - intros x Hx. by apply not_elem_of_nil in Hx.
    - intros x _. by rewrite Ht1.
    - intros x _. by rewrite Ht1.
    - intros x c Hx. by apply not_elem_of_nil in Hx.
    - apply Hin_gap.
    - intros x _ _ Hx. by apply Hg.
    - done. }
  assert (Hfc : fat_free_clusters s1 = fat_free_clusters s) by (unfold fat_free_clusters; by rewrite Hv1, Ht1).
  destruct (fat_free_clusters s1 <? clusters_for (f_vol s) newSize - owned (f_vol s) oldSize) eqn:Hfr.
  { exists (-1), s1. split; [done|]. left. split; [done|]. split.
    - constructor; [by apply io_fat_step|done|by rewrite Ht1|]. intros x _ _ Hx. by apply Hg.
    - intros _ _ Hle. lia. }
  pose proof (extend_alloc_spec s1 last (clusters_for (f_vol s) newSize - owned (f_vol s) oldSize) Hok1) as Ha.
  rewrite Hv1, Ht1 in Ha.
  destruct (Ha Hvl Hvend Hnz ltac:(lia)) as (r & s' & He & Hcase). fold bpc in He |- *. rewrite Ht1.
  exists r, s'. split; [exact He|]. clear He Ha.
  destruct Hcase as [(-> & U & Hf)|(-> & Heq & s2 & prev & sf & new & Hnl & F2 & Ht2 & Hp2 & Hsy2 & s0 & Hv0 & Ht0 & Hp0 & F0 & I)].
  - left. split; [done|]. split.
    + constructor.
      * eapply fat_step_trans; [by apply io_fat_step|apply U].
      * eapply heap_eq_trans; [done|apply U].
      * intros x. by rewrite (un_table _ _ _ U), Ht1.
      * intros x Hx Hxt Hxg. rewrite (un_data _ _ _ U); [by apply Hg| |by rewrite Hv1].
        unfold not_free_data in *. by rewrite Hv1, Ht1.
    + intros Hset Hvp Hle. apply (out_of_memory_mono _ (f_heap s1) (bpc + 1024)); [done|lia|].
      apply Hf; [by apply Hst1|by eapply vol_in_part_step|]. lia.
  - right. exists new. split; [lia|]. split; [lia|].
    assert (Hlc : forall x c, c ∈ new -> in_cluster (f_vol s) c x -> pbyte s' x = 0).
    { intros x c Hcn Hx. rewrite Hp2; [by apply (ei_zero _ _ _ _ _ _ I x c); rewrite ?Hv0|].
      apply (cluster_not_table (f_vol s) c x Hv); [|done].
      pose proof (is_chain_valid _ _ _ _ (ei_chain _ _ _ _ _ _ I)) as Hval. rewrite Forall_forall in Hval.
      specialize (Hval c ltac:(by apply elem_of_cons; right)). apply valid_range in Hval. rewrite Hv0 in Hval. lia. }
    assert (Hne : l <> []) by (intros ->; rewrite zlen_nil in Hlen; unfold owned in Hlen; lia).
    pose proof (chain_last_split l Hne) as Hsp.
    assert (Hkept : forall y, y ∈ removelast l -> tget (fat_table s2) y = tget (fat_table s) y).
    { pose proof Hc as Hcs. rewrite Hsp in Hcs. intros y Hy. rewrite (ei_other _ _ _ _ _ _ I), Ht0; [done|].
      intros Hyn. pose proof (is_chain_NoDup _ _ _ _ Hcs) as Hnd. apply NoDup_app in Hnd as (_ & Hdj & _).
      apply elem_of_cons in Hyn as [->|Hyn].
      - apply (Hdj (chain_last l)); [done|]. by apply list_elem_of_singleton.
      - assert (Hyz : tget (fat_table s) y <> 0).
        { eapply chain_nonzero; [exact Hcs|done|]. apply elem_of_app. by left. }
        apply Hyz. rewrite <-Ht0. by apply (ei_new _ _ _ _ _ _ I). }
    constructor.
    + eapply fat_step_trans; [by apply io_fat_step|]. eapply fat_step_trans; [exact F0|].
      eapply fat_step_trans; [apply I|done].
    + eapply heap_eq_trans; [exact Hh1|done].
    + rewrite Ht2. pose proof (ei_chain _ _ _ _ _ _ I) as Hch. rewrite Hv0 in Hch.
      rewrite Hsp in Hc. rewrite Hsp, <-app_assoc. simpl. fold last.
      apply (is_chain_relink _ (fat_table s) _ _ _ _ []); [done|done|].
      by destruct Hch as (_ & _ & Hch).
    + rewrite Ht2. destruct (ei_prev _ _ _ _ _ _ I) as [pre Hpre]. destruct (ei_tail _ _ _ _ _ _ I) as [Htl _].
      replace (chain_last (l ++ new)) with prev; [done|]. unfold chain_last.
      rewrite (chain_last_split l Hne), <-app_assoc. simpl. fold last. rewrite Hpre, app_assoc.
      by rewrite List.last_last.
    + intros x Hx. rewrite <-Ht0. by apply (ei_new _ _ _ _ _ _ I).
    + intros x Hx. rewrite Ht2, (ei_other _ _ _ _ _ _ I), Ht0; [done|].
      intros Hxc. apply Hx. apply elem_of_app. apply elem_of_cons in Hxc as [->|Hxc]; [left|by right].
      rewrite Hsp. apply elem_of_app. right. by apply list_elem_of_singleton.
    + intros x Hx. rewrite Ht2. by apply Hkept.
    + done.
    + intros x Hx Hlt. pose proof (in_gap_cluster s l oldSize x Hv Hx) as Hxc.
      rewrite Hp2 by (apply (cluster_not_table (f_vol s) last x Hv); [lia|done]).
      rewrite (ei_data _ _ _ _ _ _ I), Hp0; [by apply Hin_gap|].
      intros c Hcr Hcz Hxc2. rewrite Hv0 in Hxc2. rewrite Ht0 in Hcz.
      pose proof (clusters_apart _ _ _ _ Hv Hxc Hxc2) as <-. done.
    + intros x Hx Hxt Hxg. rewrite Hp2 by done. rewrite (ei_data _ _ _ _ _ _ I), Hp0; [by apply Hg|].
      unfold not_free_data in Hx. by rewrite Hv0, Ht0.
    + intros Hs. auto.
Qed.

End fat_spec.
