(* ===== verification/FatTable.v ===== *)
(** * The FAT16 table: what the chain operations do to files (fat.c)

    A file is a chain of clusters that ends in a mark, and its bytes are the bytes of
    those clusters. The theorems read the chain operations of Fat in these terms:
    growing and shrinking a file, what it does to the other files, and what
    reaches the copies of the table on the disk. *)

From S2P Require Import Prelude Memory Ata TaskMem Fat.

Local Open Scope Z_scope.

(** ** Files *)

Section files.
Context {H : Type} `{Allocator H}.
Implicit Types (s : fat H) (l : list Z).

(** A file of [size] bytes that owns the clusters [l]. *)
Record file_at s (start : Z) l (size : Z) : Prop := {
  fl_chain : is_chain (f_vol s) (fat_table s) start l;
  fl_len : zlen l = owned (f_vol s) size;
  fl_end : tget (fat_table s) (chain_last l) <> 0;
  fl_size : 0 <= size /\ size + bytesPerCluster (f_vol s) <= 2 ^ 32 }.

(** The position on the disk of byte [pos] of the file that owns [l]. *)
Definition file_pos (v : volume) l (pos : Z) : Z :=
  caddr v (default 0 (zget l (pos / bytesPerCluster v))) + pos mod bytesPerCluster v.

Definition file_byte s l (pos : Z) : Z := pbyte s (file_pos (f_vol s) l pos).

(** ** Lemmas *)

Lemma owned_bounds v size :
  vol_ok v -> 0 <= size -> size + bytesPerCluster v <= 2 ^ 32 ->
  1 <= owned v size /\ size <= owned v size * bytesPerCluster v /\
  (owned v size - 1) * bytesPerCluster v <= Z.max 0 (size - 1).
Proof.
  intros Hv Hs Hm. destruct (bpc_pos v Hv) as [Hp _]. unfold owned, clusters_for.
  rewrite u32_id by lia.
  pose proof (Z.div_mod (size + bytesPerCluster v - 1) (bytesPerCluster v) ltac:(lia)).
  pose proof (Z.mod_pos_bound (size + bytesPerCluster v - 1) (bytesPerCluster v) Hp).
  set (q := (size + bytesPerCluster v - 1) / bytesPerCluster v) in *. nia.
Qed.

Lemma file_nonempty s start l size : file_at s start l size -> l <> [].
Proof.
  intros F ->. pose proof (fl_len _ _ _ _ F) as Hl. rewrite zlen_nil in Hl. unfold owned in Hl. lia.
Qed.

(** No cluster of a file is marked free. *)
Lemma file_used s start l size c :
  file_at s start l size -> c ∈ l -> tget (fat_table s) c <> 0.
Proof.
  intros F Hc. pose proof (chain_last_split l (file_nonempty _ _ _ _ F)) as Hs.
  pose proof (fl_chain _ _ _ _ F) as Hch. rewrite Hs in Hch, Hc.
  eapply chain_nonzero; [exact Hch|apply F|done].
Qed.

Lemma file_cluster s start l size c :
  file_at s start l size -> c ∈ l -> 2 <= c < noClusters (f_vol s).
Proof.
  intros F Hc. pose proof (is_chain_valid _ _ _ _ (fl_chain _ _ _ _ F)) as Hv.
  rewrite Forall_forall in Hv. apply Hv, valid_range in Hc. lia.
Qed.

(** The bytes of a file lie in its clusters. *)
Lemma file_pos_cluster v l pos :
  vol_ok v -> 0 <= pos < zlen l * bytesPerCluster v ->
  exists c, zget l (pos / bytesPerCluster v) = Some c /\ c ∈ l /\
    file_pos v l pos = caddr v c + pos mod bytesPerCluster v /\ in_cluster v c (file_pos v l pos).
Proof.
  intros Hv Hp. destruct (bpc_pos v Hv) as [Hb _].
  pose proof (Z.mod_pos_bound pos (bytesPerCluster v) Hb).
  assert (Hq : 0 <= pos / bytesPerCluster v < zlen l).
  { split; [apply Z.div_pos; lia|apply Z.div_lt_upper_bound; lia]. }
  destruct (zget_is_Some l _ Hq) as [c Hz]. exists c. split; [done|]. split; [by eapply zget_elem|].
  unfold file_pos. rewrite Hz. simpl. split; [done|]. unfold in_cluster. lia.
Qed.

Lemma chain_last_get l : l <> [] -> zget l (zlen l - 1) = Some (chain_last l).
Proof.
  intros Hne. pose proof (chain_last_split l Hne) as Hsp.
  assert (Hl : zlen l = zlen (removelast l) + 1) by (rewrite Hsp at 1; by rewrite zlen_app).
  rewrite Hl, Z.add_simpl_r. rewrite Hsp at 1. apply zget_app_last.
Qed.

Lemma file_pos_app v l l' pos :
  0 <= pos / bytesPerCluster v < zlen l -> file_pos v (l ++ l') pos = file_pos v l pos.
Proof. intros Hq. unfold file_pos. rewrite zget_app_l by lia. done. Qed.

(** Bytes that an operation leaves alone. *)
Lemma file_used_data s start l size x :
  fat_ok s -> file_at s start l size -> 0 <= x < zlen l * bytesPerCluster (f_vol s) ->
  not_free_data s (file_pos (f_vol s) l x) /\ ~ in_table_area (f_vol s) (file_pos (f_vol s) l x).
Proof.
  intros Hok F Hx. pose proof (fo_vol _ Hok) as Hv.
  destruct (file_pos_cluster _ l x Hv Hx) as (c & _ & Hc & _ & Hic).
  pose proof (file_cluster _ _ _ _ _ F Hc) as Hr. split.
  - intros d Hd Hfree Hid. pose proof (clusters_apart _ _ _ _ Hv Hic Hid) as <-.
    by apply (file_used _ _ _ _ _ F Hc).
  - by eapply cluster_not_table.
Qed.

(** The bytes of a file below its size are not in the gap after its end. *)
Lemma file_pos_gap v l size pos :
  vol_ok v -> NoDup l -> zlen l = owned v size -> 0 <= size -> size + bytesPerCluster v <= 2 ^ 32 ->
  0 <= pos < size -> ~ in_gap v l size (file_pos v l pos).
Proof.
  intros Hv Hnd Hlen Hs Hm Hp [Hg Hcond].
  destruct (bpc_pos v Hv) as [Hb _]. pose proof (owned_bounds v size Hv Hs Hm) as (Ho1 & Ho2 & Ho3).
  destruct (file_pos_cluster v l pos Hv ltac:(lia)) as (c & Hz & Hc & Hpos & Hic).
  pose proof (Z.mod_pos_bound size (bytesPerCluster v) Hb).
  assert (Hne : l <> []) by (intros ->; rewrite zlen_nil in Hlen; lia).
  assert (Hlast : in_cluster v (chain_last l) (file_pos v l pos)) by (unfold in_cluster; lia).
  pose proof (clusters_apart _ _ _ _ Hv Hic Hlast) as ->.
  assert (Hi : pos / bytesPerCluster v = zlen l - 1).
  { pose proof (chain_last_get l Hne). by eapply zget_NoDup. }
  rewrite Hpos in Hg. pose proof (Z.div_mod pos (bytesPerCluster v) ltac:(lia)).
  pose proof (Z.div_mod size (bytesPerCluster v) ltac:(lia)). rewrite Hlen in Hi. rewrite Hi in *.
  assert (owned v size - 1 < size / bytesPerCluster v) by nia.
  assert (size / bytesPerCluster v < owned v size) by nia. lia.
Qed.

(** The same file in a later state of the volume. *)
Lemma file_at_agree s s' start l size :
  fat_step s s' -> (forall x, x ∈ l -> tget (fat_table s') x = tget (fat_table s) x) ->
  file_at s start l size -> file_at s' start l size.
Proof.
  intros St Ht F. destruct (fat_step_vol _ _ St) as [Hv _].
  pose proof (chain_last_get l (file_nonempty _ _ _ _ F)) as Hl. apply zget_elem in Hl.
  constructor; rewrite ?Hv; try apply F.
  - eapply is_chain_agree; [exact Ht|apply F].
  - rewrite Ht by done. apply F.
Qed.

Lemma file_byte_step s s' l pos :
  fat_step s s' -> pbyte s' (file_pos (f_vol s) l pos) = pbyte s (file_pos (f_vol s) l pos) ->
  file_byte s' l pos = file_byte s l pos.
Proof. intros St Hb. destruct (fat_step_vol _ _ St) as [Hv _]. unfold file_byte. by rewrite Hv. Qed.

Lemma file_pos_range s start l size pos :
  fat_ok s -> file_at s start l size -> 0 <= pos < size -> 0 <= pos < zlen l * bytesPerCluster (f_vol s).
Proof.
  intros Hok F Hp. destruct (fl_size _ _ _ _ F) as [Hs Hm].
  pose proof (owned_bounds _ _ (fo_vol _ Hok) Hs Hm). rewrite (fl_len _ _ _ _ F). lia.
Qed.

Lemma file_byte_kept s s' start l size pos :
  fat_ok s -> file_at s start l size -> fat_step s s' ->
  (forall x, not_free_data s x -> ~ in_table_area (f_vol s) x -> ~ in_gap (f_vol s) l size x -> pbyte s' x = pbyte s x) ->
  0 <= pos < size -> file_byte s' l pos = file_byte s l pos.
Proof.
  intros Hok F St Hd Hp. pose proof (file_pos_range _ _ _ _ _ Hok F Hp) as Hr.
  destruct (file_used_data _ _ _ _ _ Hok F Hr) as [Hu Ht]. apply file_byte_step; [done|].
  apply Hd; [done|done|]. destruct (fl_size _ _ _ _ F).
  apply file_pos_gap; try done; [apply Hok|eapply is_chain_NoDup|]; apply F.
Qed.

(** The gap of a file lies in its last cluster, in no other file. *)
Lemma other_not_in_gap s start l size start2 l2 size2 pos :
  fat_ok s -> file_at s start l size -> file_at s start2 l2 size2 -> (forall x, x ∈ l -> x ∉ l2) ->
  0 <= pos < size2 -> ~ in_gap (f_vol s) l size (file_pos (f_vol s) l2 pos).
Proof.
  intros Hok F F2 Hdj Hp Hg. pose proof (fo_vol _ Hok) as Hv.
  destruct (file_pos_cluster _ l2 pos Hv ltac:(by eapply file_pos_range)) as (c & _ & Hc & _ & Hic).
  pose proof (in_gap_cluster _ _ _ _ Hv Hg) as Hl.
  pose proof (clusters_apart _ _ _ _ Hv Hic Hl) as ->. apply (Hdj (chain_last l)); [|done].
  eapply zget_elem, chain_last_get, file_nonempty, F.
Qed.

(** Another file, when only free bytes, the tables and the gap of [l] may change. *)
Lemma other_file_kept s s' start l size start2 l2 size2 :
  fat_ok s -> file_at s start l size -> file_at s start2 l2 size2 -> (forall x, x ∈ l -> x ∉ l2) ->
  fat_step s s' -> (forall x, x ∈ l2 -> tget (fat_table s') x = tget (fat_table s) x) ->
  (forall x, not_free_data s x -> ~ in_table_area (f_vol s) x -> ~ in_gap (f_vol s) l size x -> pbyte s' x = pbyte s x) ->
  file_at s' start2 l2 size2 /\ forall pos, 0 <= pos < size2 -> file_byte s' l2 pos = file_byte s l2 pos.
Proof.
  intros Hok F F2 Hdj St Ht Hd. split; [by eapply file_at_agree|]. intros pos Hp.
  destruct (file_used_data _ _ _ _ pos Hok F2 ltac:(by eapply file_pos_range)) as [Hu Hnt].
  apply file_byte_step; [done|]. apply Hd; [done|done|]. by eapply other_not_in_gap.
Qed.

Lemma extend_cases s start l oldSize newSize :
  fat_ok s -> file_at s start l oldSize -> oldSize < newSize ->
  newSize + bytesPerCluster (f_vol s) <= 2 ^ 32 ->
  exists r s', fat_extend_cluster_chain s start oldSize newSize = (r, s') /\
    ((r = -1 /\ not_extended s s' l oldSize /\
       (settled (f_ata s) -> vol_in_part s ->
        owned (f_vol s) newSize - owned (f_vol s) oldSize <= fat_free_clusters s ->
        out_of_memory (f_heap s) (bytesPerCluster (f_vol s) + 1024))) \/
     (exists new, r = zlen new /\ zlen l + zlen new = owned (f_vol s) newSize /\
        extended s s' start l new oldSize newSize)).
Proof.
  intros Hok F Hlt Hmax. destruct (fl_size _ _ _ _ F) as [Hs _].
  destruct (extend_spec s start l oldSize newSize Hok) as (r & s' & He & Hc); try done; try apply F.
  exists r, s'. split; [done|]. pose proof (clusters_for_nonneg (f_vol s) newSize (fo_vol _ Hok)).
  destruct Hc as [(? & ? & Hfail)|(new & ? & Hz & ?)].
  { left. split; [done|]. split; [done|]. intros Hst Hvp Hle. apply Hfail; [done|done|].
    rewrite (fl_len _ _ _ _ F). unfold owned in *. lia. }
  right. exists new. split; [done|]. split; [|done]. rewrite (fl_len _ _ _ _ F) in *.
  pose proof (clusters_for_le _ oldSize newSize (fo_vol _ Hok) ltac:(lia) ltac:(lia)). unfold owned in *. lia.
Qed.

Lemma last_block b old pos qo r q m own :
  0 < b -> 0 <= old -> old = b * qo + r -> 0 <= r < b -> pos = b * q + m -> 0 <= m < b ->
  1 <= own -> old <= own * b -> (own - 1) * b <= Z.max 0 (old - 1) -> old <= pos -> q < own ->
  q = own - 1 /\ r <= m /\ (r <> 0 \/ old = 0) /\ old - r = b * q.
Proof.
  intros Hb Hn Ho Hr Hp Hm H1 Hle Hge Hpo Hq. destruct (decide (old = 0)) as [Hz|Hz].
  - assert ((own - 1) * b <= 0) by lia. assert (own = 1) as -> by nia.
    assert (q = 0) as -> by nia. assert (qo = 0) as Hqo by nia. rewrite Hqo in Ho. lia.
  - assert (Hge2 : (own - 1) * b < old) by lia. clear Hge.
    assert (own - 1 < q + 1) by (apply (Z.mul_lt_mono_pos_r b); lia). assert (q = own - 1) as -> by lia.
    assert (own - 1 < qo + 1) by (apply (Z.mul_lt_mono_pos_r b); lia).
    assert (qo <= own - 1).
    { destruct (decide (qo <= own - 1)); [done|]. assert (own * b <= qo * b) by (apply Z.mul_le_mono_pos_r; lia). nia. }
    assert (Hqo : qo = own - 1) by lia. rewrite Hqo in Ho. lia.
Qed.

(** The bytes past the old end of a file that has grown. *)
Lemma extended_zero s s' start l new oldSize newSize pos :
  fat_ok s -> file_at s start l oldSize -> newSize + bytesPerCluster (f_vol s) <= 2 ^ 32 ->
  zlen l + zlen new = owned (f_vol s) newSize -> extended s s' start l new oldSize newSize ->
  oldSize <= pos < newSize -> file_byte s' (l ++ new) pos = 0.
Proof.
  intros Hok F Hmax Hlen E Hp. pose proof (fo_vol _ Hok) as Hv.
  destruct (bpc_pos _ Hv) as [Hb _]. destruct (fl_size _ _ _ _ F) as [Hs Hm].
  destruct (owned_bounds _ _ Hv Hs Hm) as (Ho1 & Ho2 & Ho3).
  destruct (owned_bounds _ newSize Hv ltac:(lia) Hmax) as (Hn1 & Hn2 & Hn3).
  unfold file_byte. destruct (fat_step_vol _ _ (ed_step _ _ _ _ _ _ _ E)) as [-> _].
  destruct (file_pos_cluster (f_vol s) (l ++ new) pos Hv ltac:(rewrite zlen_app; nia)) as (c & Hz & Hc & Hpos & Hic).
  pose proof (Z.div_mod pos (bytesPerCluster (f_vol s)) ltac:(lia)) as H4.
  pose proof (Z.mod_pos_bound pos (bytesPerCluster (f_vol s)) Hb) as H5.
  destruct (decide (pos / bytesPerCluster (f_vol s) < zlen l)) as [Hlt|Hge].
  2: { rewrite zget_app_r in Hz by lia. eapply (ed_zero _ _ _ _ _ _ _ E); [|done]. by eapply zget_elem. }
  rewrite zget_app_l in Hz by done. pose proof (zget_Some_range _ _ _ Hz).
  pose proof (Z.div_mod oldSize (bytesPerCluster (f_vol s)) ltac:(lia)) as H2.
  pose proof (Z.mod_pos_bound oldSize (bytesPerCluster (f_vol s)) Hb) as H3.
  rewrite (fl_len _ _ _ _ F) in *.
  destruct (last_block (bytesPerCluster (f_vol s)) oldSize pos _ _ _ _ (owned (f_vol s) oldSize)
    Hb Hs H2 H3 H4 H5 Ho1 Ho2 Ho3 ltac:(lia) Hlt) as (Hq & Hr & Hcond & Hbase).
  rewrite <-(fl_len _ _ _ _ F) in Hq. rewrite Hq, (chain_last_get l (file_nonempty _ _ _ _ F)) in Hz.
  injection Hz as <-. apply (ed_gap _ _ _ _ _ _ _ E); unfold in_gap; rewrite Hpos; [split; [lia|done]|lia].
Qed.

Lemma extended_data s s' start l new oldSize newSize :
  extended s s' start l new oldSize newSize ->
  forall x, not_free_data s x -> ~ in_table_area (f_vol s) x -> ~ in_gap (f_vol s) l oldSize x -> pbyte s' x = pbyte s x.
Proof. intros E x. apply E. Qed.

(** Shrinking writes outside the tables nothing at all. *)
Lemma shrunk_data s s' start l keep (P Q : Z -> Prop) :
  shrunk s s' start l keep -> forall x, P x -> ~ in_table_area (f_vol s) x -> Q x -> pbyte s' x = pbyte s x.
Proof. intros S x _ Hx _. by apply S. Qed.

Lemma take_chain_last s start l keep :
  is_chain (f_vol s) (fat_table s) start (take keep l) -> l <> [] -> (0 < keep)%nat ->
  exists pre, take keep l = pre ++ [chain_last (take keep l)].
Proof.
  intros Hc Hne Hk. exists (removelast (take keep l)). apply chain_last_split.
  destruct l, keep; simpl; try done; lia.
Qed.

Lemma shrink_cases s start l oldSize newSize :
  fat_ok s -> file_at s start l oldSize -> 0 <= newSize <= oldSize ->
  exists r s' keep, fat_shrink_cluster_chain s start oldSize newSize = (r, s') /\
    Z.of_nat keep = owned (f_vol s) newSize /\
    shrunk s s' start l keep /\
    (r = -1 \/ (0 <= r /\ (synced s -> synced s'))) /\
    (settled (f_ata s) -> vol_in_part s -> r <> -1) /\
    (clusters_for (f_vol s) newSize < clusters_for (f_vol s) oldSize \/ s' = s /\ keep = length l).
Proof.
  intros Hok F Hn. pose proof (fo_vol _ Hok) as Hv. destruct (fl_size _ _ _ _ F) as [Hs Hm].
  pose proof (clusters_for_nonneg (f_vol s) newSize Hv) as H0n.
  destruct (decide (clusters_for (f_vol s) newSize < clusters_for (f_vol s) oldSize)) as [Hlt|Hge].
  - destruct (shrink_spec s start l oldSize newSize Hok (fl_chain _ _ _ _ F) (file_nonempty _ _ _ _ F) Hlt)
      as (r & s' & He & Sh & Hr & Hp).
    exists r, s', (Nat.max 1 (Z.to_nat (clusters_for (f_vol s) newSize))).
    split; [done|]. split; [unfold owned; lia|]. split; [done|]. split; [|split; [done|by left]].
    destruct Hr as [?|[-> ?]]; [by left|]. right. split; [apply zlen_nonneg|done].
  - pose proof (clusters_for_le (f_vol s) newSize oldSize Hv ltac:(lia) Hm) as Hle.
    assert (Hvs : fat_valid_cluster (f_vol s) start = true).
    { destruct l; [|by destruct (fl_chain _ _ _ _ F) as (-> & ? & _)]. by destruct (file_nonempty _ _ _ _ F). }
    exists 0, s, (length l). unfold fat_shrink_cluster_chain. rewrite Hvs.
    destruct (clusters_for (f_vol s) oldSize <=? clusters_for (f_vol s) newSize) eqn:?; [|lia].
    split; [done|]. split.
    { change (Z.of_nat (length l)) with (zlen l). rewrite (fl_len _ _ _ _ F). unfold owned. f_equal. lia. }
    split; [|split; [right; by split|split; [done|by right]]].
    constructor; try done; rewrite ?firstn_all, ?drop_all; try apply F; [by apply fat_step_refl|intros _; apply F|].
    intros x Hx. by apply not_elem_of_nil in Hx.
Qed.

(** ** Properties *)

(** C40: the geometry accepted from a boot sector is consistent: the tables and the
    root directory come before the data, the root directory holds its entries, the
    cached table has an entry for every cluster, and the data clusters lie in the
    volume. *)
Theorem bpb_volume_bounds buf v :
  buf_ok buf -> bpb_volume buf = Some v ->
  0 < bytesPerSector v < 65536 /\ 0 < sectorsPerCluster v < 256 /\ 0 < bytesPerCluster v < 2 ^ 24 /\
  0 < noTables v /\ 0 < sectorsPerFat v /\
  rootSector v = noReservedSectors v + noTables v * sectorsPerFat v /\
  firstDataSector v = rootSector v + rootSize v /\
  noRootEntries v * 32 <= rootSize v * bytesPerSector v /\
  noClusters v * 2 <= sectorsPerFat v * bytesPerSector v /\
  0 <= noClusters v /\
  (forall c, fat_valid_cluster v c = true ->
     firstDataSector v <= (c - 2) * sectorsPerCluster v + firstDataSector v /\
     (c - 2) * sectorsPerCluster v + firstDataSector v + sectorsPerCluster v <= noSectors v).
Proof.
  intros Hb. unfold bpb_volume. pose proof (Hb 13) as B13. pose proof (Hb 16) as B16.
  pose proof (le16_range buf 11 Hb) as B11. pose proof (le16_range buf 14 Hb) as B14.
  pose proof (le16_range buf 17 Hb) as B17. pose proof (le16_range buf 22 Hb) as B22.
  set (bps := le16 buf 11) in *. set (spc := byte_at buf 13) in *. set (tables := byte_at buf 16) in *.
  set (spf := le16 buf 22) in *. set (re := le16 buf 17) in *. set (res := le16 buf 14) in *.
  destruct (_ || _) eqn:Hz; [done|].
  set (sectors := if _ =? 0 then _ else _). set (root := (re * 32 + (bps - 1)) / bps).
  destruct (sectors <=? _) eqn:Hs; [done|]. intros He. injection He as <-. unfold bytesPerCluster.
  simpl bytesPerSector. simpl sectorsPerCluster. simpl noTables. simpl sectorsPerFat. simpl rootSector.
  simpl noReservedSectors. simpl firstDataSector. simpl rootSize. simpl noRootEntries. simpl noClusters. simpl noSectors.
  assert (Hroot : re * 32 <= root * bps).
  { pose proof (Z.div_mod (re * 32 + (bps - 1)) bps ltac:(lia)).
    pose proof (Z.mod_pos_bound (re * 32 + (bps - 1)) bps ltac:(lia)). fold root in H1. nia. }
  rewrite (u32_id (spf * bps)) by nia.
  pose proof (Z.div_mod (spf * bps) 2 ltac:(lia)). pose proof (Z.mod_pos_bound (spf * bps) 2 ltac:(lia)).
  set (fd := res + tables * spf + root) in *.
  pose proof (Z.div_mod (sectors - fd) spc ltac:(lia)). pose proof (Z.mod_pos_bound (sectors - fd) spc ltac:(lia)).
  assert (0 <= (sectors - fd) / spc) by (apply Z.div_pos; lia).
  set (nc := if _ <? _ then _ else _).
  assert (Hcl : 0 <= u32 ((sectors - fd) / spc + 2) <= (sectors - fd) / spc + 2).
  { unfold u32. split; [apply Z.mod_pos_bound; lia|apply Z.mod_le; lia]. }
  assert (Hnc : 0 <= nc <= spf * bps / 2 /\ nc <= (sectors - fd) / spc + 2).
  { assert (0 <= spf * bps / 2) by (apply Z.div_pos; nia). unfold nc. destruct (_ <? _) eqn:?; lia. }
  split; [lia|]. split; [lia|]. split; [nia|]. split; [lia|]. split; [lia|]. split; [done|]. split; [done|].
  split; [done|]. split; [lia|]. split; [lia|]. intros c Hc. apply valid_range in Hc. simpl in Hc. nia.
Qed.

(** Growing a file either fails and leaves its clusters, the whole table and its
    bytes as they were, or gives it the clusters its new size needs: the old bytes
    are kept and every byte from the old end to the new one is zero. It fails only
    when the drive does, or clusters or the kernel's memory run out. *)
Theorem fat_extend_correct s start l oldSize newSize :
  fat_ok s -> file_at s start l oldSize -> oldSize < newSize ->
  newSize + bytesPerCluster (f_vol s) <= 2 ^ 32 ->
  exists r s', fat_extend_cluster_chain s start oldSize newSize = (r, s') /\ fat_ok s' /\
    (forall pos, 0 <= pos < oldSize -> file_byte s' l pos = file_byte s l pos) /\
    ((r = -1 /\ file_at s' start l oldSize /\ (forall c, tget (fat_table s') c = tget (fat_table s) c) /\
        (settled (f_ata s) -> vol_in_part s ->
         owned (f_vol s) newSize - owned (f_vol s) oldSize <= fat_free_clusters s ->
         out_of_memory (f_heap s) (bytesPerCluster (f_vol s) + 1024))) \/
     (exists new, r = zlen new /\ file_at s' start (l ++ new) newSize /\
        (forall c, c ∈ new -> tget (fat_table s) c = 0) /\
        (forall c, c ∉ l ++ new -> tget (fat_table s') c = tget (fat_table s) c) /\
        (forall pos, 0 <= pos < oldSize -> file_pos (f_vol s) (l ++ new) pos = file_pos (f_vol s) l pos) /\
        (forall pos, oldSize <= pos < newSize -> file_byte s' (l ++ new) pos = 0))).
Proof.
  intros Hok F Hlt Hmax. destruct (extend_cases s start l oldSize newSize Hok F Hlt Hmax) as (r & s' & He & Hc).
  exists r, s'. split; [done|]. destruct Hc as [(-> & N & Hoom)|(new & -> & Hlen & E)].
  - split; [apply N|]. split.
    { intros pos Hp. eapply (file_byte_kept s); try done; apply N. }
    left. split; [done|]. split; [|split; [apply N|done]]. eapply (file_at_agree s); [apply N| |done].
    intros. apply N.
  - split; [apply E|]. pose proof (extended_data _ _ _ _ _ _ _ E) as Hd. split.
    { intros pos Hp. eapply (file_byte_kept s); try done. apply E. }
    right. exists new. split; [done|]. split.
    { destruct (fat_step_vol _ _ (ed_step _ _ _ _ _ _ _ E)) as [Hv _]. destruct (fl_size _ _ _ _ F).
      constructor; rewrite ?Hv; [apply E|by rewrite zlen_app|apply E|lia]. }
    split; [apply E|]. split; [apply (ed_other _ _ _ _ _ _ _ E)|]. split.
    + intros pos Hp. pose proof (file_pos_range _ _ _ _ _ Hok F Hp).
      destruct (bpc_pos _ (fo_vol _ Hok)). apply file_pos_app.
      split; [apply Z.div_pos; lia|apply Z.div_lt_upper_bound; lia].
    + intros pos Hp. by eapply extended_zero.
Qed.

(** C3: growing a file, whether it succeeds or fails, leaves every other file its
    clusters and its bytes, and gives none of its clusters away. *)
Theorem fat_extend_isolated s start l oldSize newSize start2 l2 size2 :
  fat_ok s -> file_at s start l oldSize -> oldSize < newSize ->
  newSize + bytesPerCluster (f_vol s) <= 2 ^ 32 ->
  file_at s start2 l2 size2 -> (forall c, c ∈ l -> c ∉ l2) ->
  exists r s', fat_extend_cluster_chain s start oldSize newSize = (r, s') /\
    file_at s' start2 l2 size2 /\
    (forall pos, 0 <= pos < size2 -> file_byte s' l2 pos = file_byte s l2 pos) /\
    (r <> -1 -> exists new, file_at s' start (l ++ new) newSize /\ forall c, c ∈ l ++ new -> c ∉ l2).
Proof.
  intros Hok F Hlt Hmax F2 Hdj.
  destruct (extend_cases s start l oldSize newSize Hok F Hlt Hmax) as (r & s' & He & Hc).
  exists r, s'. split; [done|]. destruct Hc as [(-> & N & Hoom)|(new & -> & Hlen & E)].
  - destruct (other_file_kept s s' start l oldSize start2 l2 size2) as [Hf Hb]; try done; [apply N|intros; apply N|apply N].
  - assert (Hnew : forall c, c ∈ l ++ new -> c ∉ l2).
    { intros c Hc Hc2. apply elem_of_app in Hc as [Hc|Hc]; [by apply (Hdj c)|].
      apply (file_used _ _ _ _ _ F2 Hc2). by apply E. }
    destruct (other_file_kept s s' start l oldSize start2 l2 size2) as [Hf Hb]; try done.
    + apply E.
    + intros x Hx. apply (ed_other _ _ _ _ _ _ _ E). intros Hc. by apply (Hnew x).
    + by eapply extended_data.
    + split; [done|]. split; [done|]. intros _. exists new. split; [|done].
      destruct (fat_step_vol _ _ (ed_step _ _ _ _ _ _ _ E)) as [Hv _]. destruct (fl_size _ _ _ _ F).
      constructor; rewrite ?Hv; [apply E|by rewrite zlen_app|apply E|lia].
Qed.

(** Shrinking a file keeps the clusters its new size needs and frees the others,
    and no other entry of the table; the bytes kept and the other files are
    unchanged. It succeeds whenever the drive does. *)
Theorem fat_shrink_correct s start l oldSize newSize :
  fat_ok s -> file_at s start l oldSize -> 0 <= newSize <= oldSize ->
  exists r s' kept freed, fat_shrink_cluster_chain s start oldSize newSize = (r, s') /\
    fat_ok s' /\ l = kept ++ freed /\ file_at s' start kept newSize /\
    (forall c, c ∈ freed -> tget (fat_table s') c = 0) /\
    (forall c, c ∉ l -> tget (fat_table s') c = tget (fat_table s) c) /\
    (forall pos, 0 <= pos < newSize -> file_byte s' kept pos = file_byte s l pos) /\
    (forall start2 l2 size2, file_at s start2 l2 size2 -> (forall c, c ∈ l -> c ∉ l2) ->
       file_at s' start2 l2 size2 /\ forall pos, 0 <= pos < size2 -> file_byte s' l2 pos = file_byte s l2 pos) /\
    (settled (f_ata s) -> vol_in_part s -> r <> -1).
Proof.
  intros Hok F Hn. pose proof (fo_vol _ Hok) as Hv. destruct (fl_size _ _ _ _ F) as [Hs Hm].
  destruct (shrink_cases s start l oldSize newSize Hok F Hn) as (r & s' & keep & He & Hk & Sh & _ & Hp & _).
  exists r, s', (take keep l), (drop keep l). split; [done|]. split; [apply Sh|].
  split; [by rewrite take_drop|].
  destruct (fat_step_vol _ _ (sh_step _ _ _ _ _ Sh)) as [Hv' _].
  destruct (owned_bounds (f_vol s) newSize Hv ltac:(lia) ltac:(lia)) as (Ho1 & Ho2 & _).
  assert (Hlen : zlen (take keep l) = owned (f_vol s) newSize).
  { pose proof (clusters_for_le _ newSize oldSize Hv ltac:(lia) Hm). pose proof (fl_len _ _ _ _ F) as Hl.
    unfold zlen, owned in *. rewrite length_take. lia. }
  assert (Hne : take keep l <> []) by (intros Hnil; rewrite Hnil, zlen_nil in Hlen; lia).
  split. { constructor; rewrite ?Hv'; [apply Sh|done|by apply Sh|lia]. }
  split; [apply Sh|]. split; [apply (sh_other _ _ _ _ _ Sh)|]. split.
  { intros pos Hpos. pose proof (file_pos_range _ _ _ _ pos Hok F ltac:(lia)) as Hr.
    destruct (file_used_data _ _ _ _ _ Hok F Hr) as [_ Hnt].
    destruct (bpc_pos _ Hv) as [Hb _].
    assert (Hsame : file_pos (f_vol s) (take keep l) pos = file_pos (f_vol s) l pos).
    { rewrite <-(take_drop keep l) at 2. symmetry. apply file_pos_app.
      split; [apply Z.div_pos; lia|apply Z.div_lt_upper_bound; lia]. }
    unfold file_byte. rewrite Hv', Hsame. by apply Sh. }
  split; [|done]. intros start2 l2 size2 F2 Hdj.
  destruct (other_file_kept s s' start l oldSize start2 l2 size2) as [Hf Hb]; try done.
  - apply Sh.
  - intros x Hx. apply (sh_other _ _ _ _ _ Sh). intros Hc. by apply (Hdj x).
  - intros x _ Hx _. by apply Sh.
Qed.

(** Growing a file and shrinking it back gives the file it was: the same
    clusters and bytes, and the table it had but for the mark that ends it. *)
Theorem fat_extend_shrink s start l oldSize newSize r s1 :
  fat_ok s -> file_at s start l oldSize -> oldSize < newSize ->
  newSize + bytesPerCluster (f_vol s) <= 2 ^ 32 ->
  fat_extend_cluster_chain s start oldSize newSize = (r, s1) -> r <> -1 ->
  exists r2 s2, fat_shrink_cluster_chain s1 start newSize oldSize = (r2, s2) /\
    file_at s2 start l oldSize /\
    (forall c, c <> chain_last l -> tget (fat_table s2) c = tget (fat_table s) c) /\
    (forall pos, 0 <= pos < oldSize -> file_byte s2 l pos = file_byte s l pos).
Proof.
  intros Hok F Hlt Hmax Hex Hr. pose proof (fo_vol _ Hok) as Hv. destruct (fl_size _ _ _ _ F) as [Hs Hm].
  destruct (extend_cases s start l oldSize newSize Hok F Hlt Hmax) as (r' & s1' & He & Hc).
  rewrite He in Hex. injection Hex as -> ->. destruct Hc as [(-> & _)|(new & -> & Hlen & E)]; [done|].
  pose proof (st_ok _ _ (ed_step _ _ _ _ _ _ _ E)) as Hok1.
  destruct (fat_step_vol _ _ (ed_step _ _ _ _ _ _ _ E)) as [Hv1 _].
  assert (F1 : file_at s1 start (l ++ new) newSize).
  { constructor; rewrite ?Hv1; [apply E|by rewrite zlen_app|apply E|lia]. }
  destruct (shrink_cases s1 start (l ++ new) newSize oldSize Hok1 F1 ltac:(lia))
    as (r2 & s2 & keep & He2 & Hk & Sh & _).
  assert (Hkeep : keep = length l).
  { pose proof (fl_len _ _ _ _ F). rewrite Hv1 in Hk. unfold zlen in *. lia. }
  assert (Htake : take keep (l ++ new) = l) by (by rewrite Hkeep, take_app_length).
  assert (Hdrop : drop keep (l ++ new) = new) by (by rewrite Hkeep, drop_app_length).
  destruct Sh as [Hst Hch Htail Hkept Hfree Hother Hheap Hdisk]. rewrite Htake in *. rewrite Hdrop in *.
  pose proof (file_nonempty _ _ _ _ F) as Hne. destruct (fat_step_vol _ _ Hst) as [Hv2 _].
  exists r2, s2. split; [done|]. split.
  { constructor; rewrite ?Hv2, ?Hv1; [by rewrite <-Hv1|apply F|by apply Htail|apply F]. }
  split.
  - intros c Hc. destruct (decide (c ∈ new)) as [Hcn|Hcn].
    { rewrite Hfree by done. symmetry. by apply E. }
    destruct (decide (c ∈ l)) as [Hcl|Hcl].
    + rewrite (chain_last_split l Hne) in Hcl. apply elem_of_app in Hcl as [Hcl|Hcl].
      2: { by apply list_elem_of_singleton in Hcl. }
      rewrite Hkept by done. by apply (ed_kept _ _ _ _ _ _ _ E).
    + rewrite Hother, (ed_other _ _ _ _ _ _ _ E); [done|..]; rewrite elem_of_app; tauto.
  - intros pos Hp. rewrite <-(file_byte_kept s s1 start l oldSize pos Hok F (ed_step _ _ _ _ _ _ _ E)
      (extended_data _ _ _ _ _ _ _ E) Hp).
    unfold file_byte. rewrite Hv2. apply Hdisk. rewrite Hv1.
    eapply file_used_data; [done..|]. by eapply file_pos_range.
Qed.

(** C21: a flush of the table changes nothing outside the copies on the disk and leaves no
    entry dirty. If it reports success, every entry that was dirty, and every entry that
    every copy already had, is on every copy afterwards: the copies equal the cache, provided
    that they agreed with it on the entries that were not dirty. It succeeds whenever the
    drive does. (A flush that failed has cleared the marks too, and the next one can succeed
    without writing these entries: [flush_failure_forgets].) *)
Theorem fat_flush_mirrors s :
  fat_ok s ->
  exists w s', fat_table_flush_cache_all s = (w, s') /\ fat_ok s' /\
    fat_table s' = fat_table s /\
    (forall x, ~ in_table_area (f_vol s) x -> pbyte s' x = pbyte s x) /\
    (forall c, 0 <= c < table_entries s -> zget (dirty_clusters s') c = Some false) /\
    (w = true -> forall c, 0 <= c < table_entries s ->
       zget (dirty_clusters s) c = Some true \/ mirrored s c -> mirrored s' c) /\
    (w = true -> synced s -> forall c, 0 <= c < table_entries s -> mirrored s' c) /\
    (settled (f_ata s) -> vol_in_part s -> w = true).
Proof.
  intros Hok. pose proof (table_len_entries s Hok) as [Hl1 Hl2].
  unfold fat_table_flush_cache_all. pose proof (fo_vol _ Hok) as Hv.
  assert (Hte : 0 < table_entries s < 2 ^ 30).
  { pose proof (vo_clusters _ Hv). pose proof (vo_entries _ Hv). pose proof (vo_table _ Hv).
    unfold table_entries. rewrite (fo_size _ Hok).
    split; [lia|]. apply Z.div_lt_upper_bound; lia. }
  rewrite u32_id by lia.
  destruct (flush_cache_spec s 0 (table_entries s - 1) Hok ltac:(lia)) as (w & s' & He & F & Hd & Hs' & Hp).
  exists w, s'. destruct (flush_step_vol _ _ F) as (Hv' & Ht' & Hsz).
  assert (Hd' : forall c, 0 <= c < table_entries s -> zget (dirty_clusters s') c = Some false) by (intros c Hc; apply Hd; lia).
  split; [done|]. split; [apply F|]. split; [done|]. split; [apply F|]. split; [done|]. split; [|split; [|done]].
  - intros Hw c Hc Hor.
    destruct (flush_cache_spec_on (eq c) s 0 (table_entries s - 1) Hok ltac:(lia)) as (w2 & s2 & He2 & _ & _ & Hs2 & _).
    rewrite He in He2. injection He2 as <- <-. apply (Hs2 Hw); [|done|by apply Hd'].
    intros c' <- Hcl. destruct Hor; [congruence|done].
  - intros Hw Hsy c Hc. apply Hs'; [done|done|by apply Hd'].
Qed.

End files.

(** ** Witnesses: a volume of 18 clusters with the files 2 -> 3 and 5 *)

Definition demo_vol : volume := Volume 512 1 1 2 16 1 22 20 1 3 4.

Definition demo_table : list Z := [65528; 65535; 3; 65535; 0; 65535] ++ replicate 250 0.

Definition demo_fat_disk : Z -> Z :=
  disk_put (disk_put demo_disk (512000 + 512) (table_bytes demo_table)) (512000 + 1024) (table_bytes demo_table).

Definition demo_fat_on (st : list Z) : fat heap :=
  Fat (Io heap_init (Ata demo_fat_disk st 0 2000)) demo_vol demo_table (replicate 256 false) 512 0 0 0.

Definition demo_fat : fat heap := demo_fat_on [].

Lemma demo_vol_ok : vol_ok demo_vol.
Proof. constructor; vm_compute; repeat split; first [reflexivity|discriminate]. Qed.

Lemma demo_table_u16 : u16_table demo_table.
Proof.
  assert (Ha : Forall (fun x => 0 <= x < 65536) demo_table).
  { apply Forall_app. split; [repeat constructor; lia|]. apply Forall_replicate. lia. }
  intros c. unfold tget. destruct (zget demo_table c) as [x|] eqn:Hx; simpl; [|lia].
  rewrite Forall_forall in Ha. apply Ha. by eapply zget_elem.
Qed.

Lemma demo_fat_ok st : fat_ok (demo_fat_on st).
Proof.
  constructor; [apply demo_vol_ok|done|done|done|apply demo_table_u16|unfold part_ok; simpl; lia|apply heap_init_wf].
Qed.

Lemma demo_file_2 st : file_at (demo_fat_on st) 2 [2; 3] 700.
Proof. constructor; [by vm_compute|done|by vm_compute|vm_compute; split; discriminate]. Qed.

Lemma demo_file_5 st : file_at (demo_fat_on st) 5 [5] 512.
Proof. constructor; [by vm_compute|done|by vm_compute|vm_compute; split; discriminate]. Qed.

Lemma fat_extend_correct_witness :
  fst (fat_extend_cluster_chain demo_fat 2 700 1700) = 2 /\
  exists r s', fat_extend_cluster_chain demo_fat 2 700 1700 = (r, s') /\ fat_ok s'.
Proof.
  split; [vm_compute; reflexivity|].
  destruct (fat_extend_correct demo_fat 2 [2; 3] 700 1700 (demo_fat_ok []) (demo_file_2 [])
    ltac:(lia) ltac:(unfold demo_fat, bytesPerCluster; simpl; lia)) as (r & s' & He & Hok & _).
  exists r, s'. split; [exact He|exact Hok].
Defined.

Lemma fat_extend_isolated_witness :
  exists r s', fat_extend_cluster_chain demo_fat 2 700 1700 = (r, s') /\ file_at s' 5 [5] 512 /\
    file_byte s' [5] 511 = file_byte demo_fat [5] 511.
Proof.
  destruct (fat_extend_isolated demo_fat 2 [2; 3] 700 1700 5 [5] 512 (demo_fat_ok []) (demo_file_2 [])
    ltac:(lia) ltac:(unfold demo_fat, bytesPerCluster; simpl; lia) (demo_file_5 []))
    as (r & s' & He & Hf & Hb & _).
  { intros c Hc Hc5. apply elem_of_cons in Hc as [->|Hc]; [|apply list_elem_of_singleton in Hc as ->];
      apply list_elem_of_singleton in Hc5; discriminate. }
  exists r, s'. split; [exact He|]. split; [exact Hf|]. apply Hb. lia.
Defined.

Lemma fat_shrink_correct_witness :
  fst (fat_shrink_cluster_chain demo_fat 2 700 100) = 1 /\
  exists r s' kept freed, fat_shrink_cluster_chain demo_fat 2 700 100 = (r, s') /\
    [2; 3] = kept ++ freed /\ file_at s' 2 kept 100.
Proof.
  split; [vm_compute; reflexivity|].
  destruct (fat_shrink_correct demo_fat 2 [2; 3] 700 100 (demo_fat_ok []) (demo_file_2 []) ltac:(lia))
    as (r & s' & kept & freed & He & _ & Hl & Hf & _).
  exists r, s', kept, freed. split; [exact He|]. split; [exact Hl|exact Hf].
Defined.

Lemma fat_extend_shrink_witness :
  exists r2 s2, fat_shrink_cluster_chain (snd (fat_extend_cluster_chain demo_fat 2 700 1700)) 2 1700 700 = (r2, s2) /\
    file_at s2 2 [2; 3] 700.
Proof.
  destruct (fat_extend_cluster_chain demo_fat 2 700 1700) as [r s1] eqn:He.
  assert (Hr : r = 2).
  { change (fst (r, s1) = 2). rewrite <-He. vm_compute. reflexivity. }
  destruct (fat_extend_shrink demo_fat 2 [2; 3] 700 1700 r s1 (demo_fat_ok []) (demo_file_2 [])
    ltac:(lia) ltac:(unfold demo_fat, bytesPerCluster; simpl; lia) He ltac:(lia)) as (r2 & s2 & He2 & Hf & _).
  exists r2, s2. split; [exact He2|exact Hf].
Defined.

(** The entry of cluster 4 is changed in the cache, then flushed. *)
Definition demo_changed : fat heap := snd (fat_table_update_cluster demo_fat 4 65535).

Lemma demo_changed_ok : fat_ok demo_changed.
Proof.
  unfold demo_changed. rewrite (update_spec demo_fat 4 65535 (demo_fat_ok [])) by (simpl; lia).
  apply (fat_ok_update demo_fat 4 65535 (demo_fat_ok [])); simpl; lia.
Qed.

Lemma fat_flush_mirrors_witness :
  exists w s', fat_table_flush_cache_all demo_changed = (w, s') /\ w = true /\ mirrored s' 4 /\ tget (fat_table s') 4 = 65535.
Proof.
  destruct (fat_flush_mirrors demo_changed demo_changed_ok) as (w & s' & He & _ & Ht & _ & _ & Hm & _ & Hw).
  assert (Hwt : w = true) by (apply Hw; [reflexivity|unfold vol_in_part, baseAddr; simpl; lia]).
  exists w, s'. split; [exact He|]. split; [exact Hwt|]. split.
  - apply (Hm Hwt); [vm_compute; split; [discriminate|reflexivity]|]. left. vm_compute. reflexivity.
  - rewrite Ht. vm_compute. reflexivity.
Defined.

(** A flush that fails has cleared the marks of the sectors it could not write: the
    next one, on a drive that works again, reports success and leaves the old entry
    on the disk. *)
Lemma flush_failure_forgets :
  let s := snd (fat_table_update_cluster (demo_fat_on [72; 1]) 4 65535) in
  fst (fat_table_flush_cache_all s) = false /\
  let s1 := snd (fat_table_flush_cache_all s) in
  settled (f_ata s1) /\ fst (fat_table_flush_cache_all s1) = true /\
  let s2 := snd (fat_table_flush_cache_all s1) in
  tget (fat_table s2) 4 = 65535 /\ disk_entry s2 0 4 = 0.
Proof. vm_compute. repeat split; reflexivity. Qed.

(** The boot sector of the volume above. *)
Definition demo_bpb : list Z :=
  replicate 11 0 ++ [0; 2; 1; 1; 0; 2; 16; 0; 22; 0; 248; 1; 0] ++ replicate 488 0.

Lemma bpb_volume_bounds_witness :
  bpb_volume demo_bpb = Some demo_vol /\ noClusters demo_vol * 2 <= sectorsPerFat demo_vol * bytesPerSector demo_vol.
Proof.
  assert (He : bpb_volume demo_bpb = Some demo_vol) by (vm_compute; reflexivity). split; [exact He|].
  refine (proj1 (proj2 (proj2 (proj2 (proj2 (proj2 (proj2 (proj2 (proj2 (bpb_volume_bounds demo_bpb demo_vol _ He)))))))))).
  intros i. unfold byte_at. destruct (zget demo_bpb i) as [b|] eqn:Hb; [|simpl; lia].
  assert (Hf : Forall (fun b => 0 <= b < 256) demo_bpb) by (vm_compute; repeat constructor; discriminate).
  rewrite Forall_forall in Hf. apply Hf. eapply zget_elem. exact Hb.
Defined.
