(* ===== verification/FatDir.v ===== *)
(** * The FAT16 file system: directories, paths and file contents (fat.c)

    The functions of fat.c above the cluster chains of Fat: directory entries and
    their 8.3 names, path lookup, and the operations on files and directories.

    They run in a state monad over [fat] with failure: [None] is an access the C
    program makes outside an object (a write through the NULL that [malloc] gave, a
    name too long for the array on the stack it is copied to). A C string is the
    list of its characters, as the specifications of CString read it. A pointer
    to a directory entry is its address, which the code compares and tests for
    NULL, with the 32 bytes of the entry. *)

From S2P Require Import Prelude Memory CString Ata TaskMem Fat FatTable.

Local Open Scope Z_scope.
Local Open Scope monad_scope.

(** ** Directory entries *)

Definition DIR_SIZE : Z := 32.   (* sizeof(fat_dir_t) *)

Definition dir_entry (buf : list Z) (i : Z) : list Z := slice buf (i * DIR_SIZE) DIR_SIZE.

Definition firstClusterNo (e : list Z) : Z := le16 e 26.
Definition fileSize (e : list Z) : Z := le32 e 28.
Definition attributes (e : list Z) : Z := byte_at e 11.

Definition to_le32 (x : Z) : list Z := to_le16 (x mod 65536) ++ to_le16 (x / 65536).

Definition set_fileSize (e : list Z) (size : Z) : list Z := splice e 28 (to_le32 size).
Definition set_deleted (e : list Z) : list Z := splice e 0 [229].

(** The characters of [l] before the first [c]. *)
Fixpoint before (c : Z) (l : list Z) : list Z :=
  match l with
  | [] => []
  | x :: l => if x =? c then [] else x :: before c l
  end.

(** An array of characters read as a C string. *)
Definition c_str (l : list Z) : list Z := before 0 l.

(** [strcpy_fixed(name, e->filename, 8); strsplit(name, NULL, name, ' ');] and the same
    for the extension: the string up to the first space, or to the end. *)
Definition entry_name (e : list Z) : list Z := before 32 (c_str (slice e 0 8)).
Definition entry_ext (e : list Z) : list Z := before 32 (c_str (slice e 8 3)).

Definition upper (s : list Z) : list Z := map toupper s.

(** The code also turns the two strings it is given to upper case in place, which no
    caller can tell from what it reads later. *)
Definition fat_entry_matches_filename (e name extension : list Z) : bool :=
  bool_decide (upper (entry_name e) = upper name) && bool_decide (upper (entry_ext e) = upper extension).

(** The search loops: a first byte of 0 ends the directory, 0xE5 is a deleted entry. *)
Fixpoint find_entry (n : nat) (i : Z) (buf name extension : list Z) : option Z :=
  match n with
  | O => None
  | S n =>
      let e := dir_entry buf i in
      if byte_at e 0 =? 0 then None
      else if byte_at e 0 =? 229 then find_entry n (i + 1) buf name extension
      else if fat_entry_matches_filename e name extension then Some i
      else find_entry n (i + 1) buf name extension
  end.

Fixpoint live_entries (n : nat) (i : Z) (buf : list Z) : list (list Z) :=
  match n with
  | O => []
  | S n =>
      let e := dir_entry buf i in
      if byte_at e 0 =? 0 then []
      else if byte_at e 0 =? 229 then live_entries n (i + 1) buf
      else e :: live_entries n (i + 1) buf
  end.

(** The loop of [fat_delete_dir] that looks for an entry other than [.] and [..]. *)
Fixpoint dir_empty (n : nat) (i : Z) (buf : list Z) : bool :=
  match n with
  | O => true
  | S n =>
      let e := dir_entry buf i in
      if byte_at e 0 =? 0 then true
      else if byte_at e 0 =? 229 then dir_empty n (i + 1) buf
      else if (byte_at e 0 =? 46) && ((byte_at e 1 =? 32) || (byte_at e 1 =? 46)) then dir_empty n (i + 1) buf
      else false
  end.

Inductive slot := SlotExists | SlotFree (i : Z) | SlotNone.

(** The loop of [fat_new_file] and [fat_new_dir] over the entries: one with this
    name, or the first one that is free. *)
Fixpoint free_slot (n : nat) (i : Z) (buf name11 : list Z) : slot :=
  match n with
  | O => SlotNone
  | S n =>
      let e := dir_entry buf i in
      if bool_decide (slice e 0 11 = name11) then SlotExists
      else if byte_at e 0 =? 0 then SlotFree i
      else free_slot n (i + 1) buf name11
  end.

(** [memset(filename, ' ', 11)] and the two copies, each of whose terminators is
    overwritten by a space or by what follows. *)
Definition pad (n : nat) (s : list Z) : list Z := s ++ replicate (n - length s) 32.
Definition make_name (name extension : list Z) : list Z := pad 8 name ++ pad 3 extension.

Definition make_entry (name11 : list Z) (attr cluster : Z) : list Z :=
  name11 ++ [attr] ++ replicate 14 0 ++ to_le16 cluster ++ replicate 4 0.

(** [strsplit_last(a, b, s, c)]: cut at the last [c]; without one [a] is all of [s]. *)
Fixpoint split_last (c : Z) (s : list Z) : option (list Z * list Z) :=
  match s with
  | [] => None
  | x :: s =>
      match split_last c s with
      | Some (a, b) => Some (x :: a, b)
      | None => if x =? c then Some ([], s) else None
      end
  end.

Definition parent_and_name (path : list Z) : list Z * list Z :=
  default (path, []) (split_last 47 path).

(** A string of [s] and its terminator in an array of [n] bytes. *)
Definition fits (n : Z) (s : list Z) : bool := zlen s <? n.

Section fat_dir.
Context {H : Type} `{Allocator H}.

Abbreviation M := (ST (fat H)).

Definition dirp : Type := Z * list Z.
Definition no_dir : dirp := (0, []).

(** [free((uint32_t)dir, sizeof(fat_dir_t))], which does nothing for NULL. *)
Definition free_dirp (d : dirp) : M unit := fun s =>
  Some (tt, if fst d =? 0 then s else fat_free s (fst d) DIR_SIZE).

Definition free_buf (p n : Z) : M unit := fun s => Some (tt, if p =? 0 then s else fat_free s p n).

(** Address and size of the root directory or of a directory's cluster. *)
Definition dir_extent (v : volume) (inroot : bool) (clusterNo : Z) : Z * Z :=
  if inroot then (root_addr v, DIR_SIZE * noRootEntries v)
  else (cluster_addr v clusterNo, bytesPerCluster v).

Definition entries_of (size : Z) : nat := Z.to_nat (size / DIR_SIZE).

(** ** Reading directories *)

Definition fat_read_root : M (option (Z * list Z)) := fun s =>
  Some (disk_read s (root_addr (f_vol s)) (DIR_SIZE * noRootEntries (f_vol s))).

Definition fat_get_dir_size (clusterNo : Z) : M Z := fun s =>
  let '(addr, size) := dir_extent (f_vol s) (clusterNo =? 0) clusterNo in
  match disk_read s addr size with
  | (None, s) => Some (-1, s)
  | (Some (p, buf), s) =>
      (let! _ := free_buf p size in st_ret (zlen (live_entries (entries_of size) 0 buf))) s
  end.

(** The entries [fat_read_dir] stores to [items], in order; [None]: the read failed. *)
Definition fat_read_dir (clusterNo : Z) : M (option (list (list Z))) := fun s =>
  let '(addr, size) := dir_extent (f_vol s) false clusterNo in
  match disk_read s addr size with
  | (None, s) => Some (None, s)
  | (Some (p, buf), s) =>
      (let! _ := free_buf p size in st_ret (Some (live_entries (entries_of size) 0 buf))) s
  end.

Definition fat_find_in_root (filename extension : list Z) : M dirp := fun s =>
  let '(addr, size) := dir_extent (f_vol s) true 0 in
  match disk_read s addr size with
  | (None, s) => Some (no_dir, s)
  | (Some (p, buf), s) =>
      let '(return_dir, s) := fat_malloc s DIR_SIZE in
      match find_entry (entries_of size) 0 buf filename extension with
      | Some i =>
          if return_dir =? 0 then None
          else (let! _ := free_buf p size in st_ret (return_dir, dir_entry buf i)) s
      | None => (let! _ := free_buf p size in st_ret no_dir) s
      end
  end.

Definition fat_find_in_dir (clusterNo : Z) (filename extension : list Z) : M dirp := fun s =>
  let '(addr, size) := dir_extent (f_vol s) false clusterNo in
  match disk_read s addr size with
  | (None, s) => Some (no_dir, s)
  | (Some (p, buf), s) =>
      let found :=
        if (byte_at filename 0 =? 46) && (byte_at filename 1 =? 46) then Some 1
        else find_entry (entries_of size) 0 buf filename extension in
      match found with
      | Some i =>
          let '(result, s) := fat_malloc s DIR_SIZE in
          if result =? 0 then None
          else (let! _ := free_buf p size in st_ret (result, dir_entry buf i)) s
      | None => (let! _ := free_buf p size in st_ret no_dir) s
      end
  end.

Definition fat_update_in_dir (clusterNo : Z) (filename extension dir : list Z) : M bool := fun s =>
  let '(addr, size) := dir_extent (f_vol s) (clusterNo =? 0) clusterNo in
  match disk_read s addr size with
  | (None, s) => Some (false, s)
  | (Some (p, buf), s) =>
      match find_entry (entries_of size) 0 buf filename extension with
      | Some i =>
          let '(ok, s) := disk_write s addr (splice buf (i * DIR_SIZE) dir) size in
          (let! _ := free_buf p size in st_ret ok) s
      | None => (let! _ := free_buf p size in st_ret false) s
      end
  end.

(** ** Paths *)

Definition fat_follow_path_chain (pathElement : list Z) (dir : dirp) : M dirp :=
  if zlen pathElement =? 0 then st_ret dir
  else if 12 <? zlen pathElement then st_ret no_dir
  else if bool_decide (pathElement = [46]) then st_ret dir
  else
    let '(name, ext) :=
      if bool_decide (pathElement = [46; 46]) then (pathElement, [])
      else default (pathElement, []) (split_first 46 pathElement) in
    let! _ := st_guard (fits 9 name && fits 4 ext) in
    if fst dir =? 0 then fat_find_in_root name ext
    else fat_find_in_dir (firstClusterNo (snd dir)) name ext.

(** The loop of [fat_parse_path]: the directory reached and what is left of the path, or
    [None] when an element was not found. Every turn drops a character of the path. *)
Fixpoint parse_loop (fuel : nat) (i : Z) (tmp pathElement : Z) (remaining : list Z) (curDir : dirp)
    : M (option (list Z * dirp)) :=
  match fuel with
  | O => st_ret (Some (remaining, curDir))
  | S fuel =>
      match split_first 47 remaining with
      | None => st_ret (Some (remaining, curDir))
      | Some (element, rest) =>
          let! _ := st_guard (negb (tmp =? 0) && negb (pathElement =? 0)) in
          let! next := fat_follow_path_chain element curDir in
          if fst next =? fst curDir then
            parse_loop fuel (i + 1) tmp pathElement rest (if i =? 0 then no_dir else next)
          else
            let! _ := free_dirp curDir in
            if fst next =? 0 then st_ret None
            else parse_loop fuel (i + 1) tmp pathElement rest next
      end
  end.

Definition fat_parse_path (path : list Z) (isFile : bool) : M dirp :=
  let len := zlen path + 1 in
  let! pathRemaining := st_lift (fun s => fat_malloc s len) in
  let! tmp := st_lift (fun s => fat_malloc s len) in
  let! pathElement := st_lift (fun s => fat_malloc s len) in
  let! _ := st_guard (negb (pathRemaining =? 0)) in
  let! r := parse_loop (S (length path)) 0 tmp pathElement path no_dir in
  let free_all :=
    let! _ := free_buf tmp len in let! _ := free_buf pathRemaining len in free_buf pathElement len in
  match r with
  | None => let! _ := free_all in st_ret no_dir
  | Some (remaining, curDir) =>
      if negb isFile then let! _ := free_all in st_ret curDir
      else
        let! found := fat_follow_path_chain remaining curDir in
        let! _ := free_all in
        let! _ := (if fst curDir =? fst found then st_ret tt else free_dirp curDir) in
        st_ret found
  end.

(** ** Creating, renaming and deleting *)

Definition first_free (s : fat H) : Z :=
  find_free (Z.to_nat (noClusters (f_vol s))) (f_vol s) (fat_table s) 2.

Definition update_cluster (clusterNo value : Z) : M bool :=
  st_lift (fun s => fat_table_update_cluster s clusterNo value).
Definition flush_cache (start end_ : Z) : M bool := st_lift (fun s => fat_table_flush_cache s start end_).

(** The path [parentpath] as the code completes it: an empty one is the root. *)
Definition parent_path (path : list Z) : list Z :=
  let parent := fst (parent_and_name path) in if bool_decide (parent = []) then [47] else parent.

Definition fat_new_file (path : list Z) : M bool :=
  let '(parent0, filenamefull) := parent_and_name path in
  let! _ := st_guard (fits 256 parent0 && fits 256 filenamefull) in
  let parentpath := parent_path path in
  if 11 <? zlen filenamefull then st_ret false
  else
    let filenamefull := upper filenamefull in
    let! parent := fat_parse_path parentpath true in
    let inroot := bool_decide (parentpath = [47]) in
    if negb inroot && (fst parent =? 0) then st_ret false
    else
      let! filedir := st_lift (fun s => fat_malloc s DIR_SIZE) in
      let! _ := st_guard (negb (filedir =? 0)) in
      let '(filename, extension) := default (filenamefull, []) (split_first 46 filenamefull) in
      let! _ := st_guard (fits 9 filename && fits 4 extension) in
      let name11 := make_name filename extension in
      let! freeCluster := st_get first_free in
      let! noClusters := st_get (fun s => noClusters (f_vol s)) in
      if noClusters <=? freeCluster then
        let! _ := free_buf filedir DIR_SIZE in
        let! _ := (if inroot then st_ret tt else free_dirp parent) in
        st_ret false
      else
        let! extent := st_get (fun s => dir_extent (f_vol s) inroot (firstClusterNo (snd parent))) in
        let '(addr, size) := extent in
        let! dirBuf := st_lift (fun s => disk_read s addr size) in
        match dirBuf with
        | None =>
            let! _ := (if inroot then st_ret tt else free_dirp parent) in
            let! _ := free_buf filedir DIR_SIZE in
            st_ret false
        | Some (p, buf) =>
            let free_all :=
              let! _ := free_buf p size in let! _ := free_dirp parent in free_buf filedir DIR_SIZE in
            match free_slot (entries_of size) 0 buf name11 with
            | SlotExists => let! _ := free_all in st_ret false
            | at_ =>
                let! found :=
                  match at_ with
                  | SlotFree i =>
                      let! w := st_lift (fun s => disk_write s addr
                        (splice buf (i * DIR_SIZE) (make_entry name11 32 freeCluster)) size) in
                      if negb w then st_ret false
                      else
                        let! u := update_cluster freeCluster END_OF_CHAIN in
                        if negb u then st_ret false else flush_cache freeCluster freeCluster
                  | _ => st_ret false
                  end in
                let! taken := st_get (fun s => negb (tget (fat_table s) freeCluster =? 0)) in
                let! _ :=
                  if negb found && taken then
                    let! _ := update_cluster freeCluster 0 in
                    let! _ := flush_cache freeCluster freeCluster in st_ret tt
                  else st_ret tt in
                let! _ := free_all in
                st_ret found
            end
        end.

(** [junk]: what the stack holds after the name in the array [dirname], of which the code
    copies eight bytes. *)
Definition fat_new_dir (path junk : list Z) : M bool :=
  let '(parent0, dirname) := parent_and_name path in
  let! _ := st_guard (fits 256 parent0 && fits 256 dirname) in
  let parentpath := parent_path path in
  if 8 <? zlen dirname then st_ret false
  else
    let dirname := upper dirname in
    let inroot := bool_decide (parentpath = [47]) in
    let! parent := if inroot then st_ret no_dir else fat_parse_path parentpath true in
    if negb inroot && (fst parent =? 0) then st_ret false
    else
      let! dir := st_lift (fun s => fat_malloc s DIR_SIZE) in
      let! _ := st_guard (negb (dir =? 0)) in
      let name11 := slice (dirname ++ 0 :: junk) 0 8 ++ replicate 3 32 in
      let! freeCluster := st_get first_free in
      let! noClusters := st_get (fun s => noClusters (f_vol s)) in
      let free_dirs :=
        let! _ := free_buf dir DIR_SIZE in if inroot then st_ret tt else free_dirp parent in
      if noClusters <=? freeCluster then let! _ := free_dirs in st_ret false
      else
        let! u := update_cluster freeCluster END_OF_CHAIN in
        if negb u then let! _ := free_dirs in st_ret false
        else
          let! clusterSize := st_get (fun s => bytesPerCluster (f_vol s)) in
          let dot := make_entry (pad 11 [46]) 18 freeCluster in
          let dotdot := make_entry (pad 11 [46; 46]) 18
            (if inroot then 0 else firstClusterNo (snd parent)) in
          let! clusterBuf := st_lift (fun s => fat_malloc s clusterSize) in
          let! _ := st_guard (negb (clusterBuf =? 0) && (2 * DIR_SIZE <=? clusterSize)) in
          let! ok := st_lift (fun s => disk_write s (cluster_addr (f_vol s) freeCluster)
            (splice (replicate (Z.to_nat clusterSize) 0) 0 (dot ++ dotdot)) clusterSize) in
          let! _ := free_buf clusterBuf clusterSize in
          if negb ok then
            let! _ := update_cluster freeCluster 0 in let! _ := free_dirs in st_ret false
          else
            let! extent := st_get (fun s => dir_extent (f_vol s) inroot (firstClusterNo (snd parent))) in
            let '(addr, size) := extent in
            let! dirBuf := st_lift (fun s => disk_read s addr size) in
            let! success :=
              match dirBuf with
              | None => st_ret false
              | Some (p, buf) =>
                  match free_slot (entries_of size) 0 buf name11 with
                  | SlotFree i =>
                      let! w := st_lift (fun s => disk_write s addr
                        (splice buf (i * DIR_SIZE) (make_entry name11 16 freeCluster)) size) in
                      if negb w then st_ret false else flush_cache freeCluster freeCluster
                  | _ => st_ret false
                  end
              end in
            let! _ :=
              if success then st_ret tt
              else
                let! _ := update_cluster freeCluster 0 in
                let! _ := flush_cache freeCluster freeCluster in st_ret tt in
            let! _ := match dirBuf with Some (p, _) => free_buf p size | None => st_ret tt end in
            let! _ := free_dirs in
            st_ret success.

(** [strncpy(entry->filename, newfilename, 11)], whose terminator lands on the byte
    after the name, the attributes. *)
Definition rename_entry (e filename : list Z) : option (list Z) :=
  let '(newfile, newext) := default (filename, []) (split_first 46 filename) in
  if fits 9 newfile && fits 4 newext then Some (splice e 0 (make_name newfile newext ++ [0])) else None.

(** The loop of [fat_rename]: it does not stop at the end of the directory nor skip
    deleted entries, and renames every entry that matches. *)
Fixpoint rename_loop (n : nat) (i : Z) (buf name extension filename : list Z) (found : bool)
    : option (list Z * bool) :=
  match n with
  | O => Some (buf, found)
  | S n =>
      if fat_entry_matches_filename (dir_entry buf i) name extension then
        match rename_entry (dir_entry buf i) filename with
        | Some e => rename_loop n (i + 1) (splice buf (i * DIR_SIZE) e) name extension filename true
        | None => None
        end
      else rename_loop n (i + 1) buf name extension filename found
  end.

(** [below]: the byte under the array [parentpath], which the code reads when the
    parent is the empty string. *)
Definition fat_rename (path filename : list Z) (below : Z) : M bool :=
  let '(parent0, oldname) := parent_and_name path in
  let! _ := st_guard (fits 512 parent0 && fits 16 oldname) in
  let '(name, extension) := default (oldname, []) (split_first 46 oldname) in
  let! _ := st_guard (fits 9 name && fits 4 extension) in
  let parentpath := if List.last parent0 below =? 47 then parent0 else parent0 ++ [47] in
  let! _ := st_guard (fits 512 parentpath) in
  let! extent :=
    if bool_decide (parentpath = [47]) then st_get (fun s => Some (dir_extent (f_vol s) true 0))
    else
      let! dir := fat_parse_path parentpath false in
      if fst dir =? 0 then st_ret None
      else
        let! x := st_get (fun s => dir_extent (f_vol s) false (firstClusterNo (snd dir))) in
        let! _ := free_dirp dir in st_ret (Some x) in
  match extent with
  | None => st_ret false
  | Some (addr, size) =>
      let! dirBuf := st_lift (fun s => disk_read s addr size) in
      match dirBuf with
      | None => st_ret false
      | Some (p, buf) =>
          match rename_loop (entries_of size) 0 buf name extension filename false with
          | None => fun _ => None
          | Some (buf, true) =>
              let! ok := st_lift (fun s => disk_write s addr buf size) in
              let! _ := free_buf p size in st_ret ok
          | Some (_, false) => let! _ := free_buf p size in st_ret false
          end
      end
  end.

(** ** Sizes, contents and deletion *)

(** The end of [fat_resize_file] and [fat_write_file_at]: the entry [dir] at address [dp]
    gets the size [size] in the directory of [path]; both are freed by the caller
    but for the parent. The result is false for the code's [return -3]. *)
Definition store_size (path : list Z) (inroot : bool) (dir : list Z) : M bool :=
  let! parentDir := fat_parse_path path false in
  if negb inroot && (fst parentDir =? 0) then st_ret false
  else
    let firstCluster := if inroot then 0 else firstClusterNo (snd parentDir) in
    let! ok := fat_update_in_dir firstCluster (entry_name dir) (entry_ext dir) dir in
    let! _ := (if inroot then st_ret tt else free_dirp parentDir) in
    st_ret ok.

Definition in_root (path : list Z) : bool :=
  let parent := fst (parent_and_name path) in
  bool_decide (parent = [47]) || bool_decide (parent = []).

Definition fat_resize_file (path : list Z) (size : Z) : M Z :=
  let! dir := fat_parse_path path true in
  if fst dir =? 0 then st_ret (-1)
  else
    let! _ := st_guard (fits 256 (fst (parent_and_name path))) in
    let clusterNo := firstClusterNo (snd dir) in
    let oldsize := fileSize (snd dir) in
    if size =? oldsize then let! _ := free_dirp dir in st_ret 0
    else
      let! n :=
        if size <? oldsize then st_lift (fun s => fat_shrink_cluster_chain s clusterNo oldsize size)
        else st_lift (fun s => fat_extend_cluster_chain s clusterNo oldsize size) in
      if n <? 0 then let! _ := free_dirp dir in st_ret (-2)
      else
        let! ok := store_size path (in_root path) (set_fileSize (snd dir) size) in
        let! _ := free_dirp dir in
        st_ret (if ok then 0 else -3).

(** [while(offset >= clusterSize)]: the cluster the offset lies in; [None]: the chain
    ends before it. *)
Fixpoint skip_clusters (n : nat) (v : volume) (t : list Z) (cur : Z) : option Z :=
  match n with
  | O => Some cur
  | S n =>
      let next := tget t cur in
      if fat_valid_cluster v next then skip_clusters n v t next else None
  end.

(** The loop of [fat_write_file_at]. [fetch k n] are the bytes [buffer[k .. k + n - 1]], or
    [None] when the task's buffer is not mapped there. Result: [Some] of the bytes
    written when the loop ends, [None] for the code's [return -4]. Every turn but the
    last writes at least a byte. *)
Fixpoint write_loop (fuel : nat) (s : fat H) (fetch : Z -> Z -> option (list Z))
    (curCluster write_offset bytesRemaining bytesWritten : Z) : option Z * fat H :=
  match fuel with
  | O => (Some bytesWritten, s)
  | S fuel =>
      if bytesRemaining <=? 0 then (Some bytesWritten, s)
      else
        let v := f_vol s in
        let clusterSize := bytesPerCluster v in
        let sectorAddr := cluster_addr v curCluster in
        let consumed := clusterSize - write_offset in
        let consumed := if bytesRemaining <? consumed then bytesRemaining else consumed in
        match fetch bytesWritten consumed with
        | None => (Some bytesWritten, s)
        | Some bytes =>
            let '(ok, s) :=
              if (0 <? write_offset) || (bytesRemaining <? clusterSize) then
                match disk_read s sectorAddr clusterSize with
                | (None, s) => (None, s)
                | (Some (p, buf), s) =>
                    let '(ok, s) := disk_write s sectorAddr (splice buf write_offset bytes) clusterSize in
                    (Some ok, fat_free s p clusterSize)
                end
              else
                let '(ok, s) := disk_write s sectorAddr bytes clusterSize in (Some ok, s) in
            match ok with
            | None => (None, s)
            | Some false => (Some bytesWritten, s)
            | Some true =>
                let next := tget (fat_table s) curCluster in
                if fat_valid_cluster v next then
                  write_loop fuel s fetch next 0 (bytesRemaining - consumed) (bytesWritten + consumed)
                else (Some (bytesWritten + consumed), s)
            end
        end
  end.

Definition fat_write_file_at (path : list Z) (fetch : Z -> Z -> option (list Z)) (offset size : Z) : M Z :=
  let! dir := fat_parse_path path true in
  if fst dir =? 0 then st_ret (-1)
  else
    let! _ := st_guard (fits 256 (fst (parent_and_name path))) in
    let clusterNo := firstClusterNo (snd dir) in
    let oldsize := fileSize (snd dir) in
    let! v := st_get f_vol in
    let clusterSize := bytesPerCluster v in
    if negb (fat_valid_cluster v clusterNo) then let! _ := free_dirp dir in st_ret (-1)
    else
      let newsize := u32 (offset + size) in
      let! allocated :=
        if oldsize <? newsize then st_lift (fun s => fat_extend_cluster_chain s clusterNo oldsize newsize)
        else st_ret 0 in
      if allocated <? 0 then let! _ := free_dirp dir in st_ret (-2)
      else
        let! cur := st_get (fun s => skip_clusters (Z.to_nat (offset / clusterSize)) v (fat_table s) clusterNo) in
        match cur with
        | None => let! _ := free_dirp dir in st_ret (-3)
        | Some cur =>
            let! r := st_lift (fun s =>
              write_loop (S (Z.to_nat size)) s fetch cur (offset mod clusterSize) size 0) in
            match r with
            | None => let! _ := free_dirp dir in st_ret (-4)
            | Some bytesWritten =>
                let! ok :=
                  if oldsize <? u32 (offset + bytesWritten) then
                    store_size path (in_root path) (set_fileSize (snd dir) (u32 (offset + bytesWritten)))
                  else st_ret true in
                let! _ := free_dirp dir in
                st_ret (if ok then s32 bytesWritten else -3)
            end
        end.

(** The loop of [fat_read_file] that counts clusters, on a 16-bit counter. *)
Fixpoint count_clusters (fuel : nat) (v : volume) (t : list Z) (c clusterCount : Z) : Z :=
  match fuel with
  | O => clusterCount
  | S fuel =>
      if clusterCount <=? noClusters v then
        let tableVal := tget t c in
        if fat_valid_cluster v tableVal then count_clusters fuel v t tableVal (u16 (clusterCount + 1))
        else clusterCount
      else clusterCount
  end.

(** The loop of [fat_read_file]: the bytes read so far are [contents]; a cluster adds its
    bytes up to [allocate]. [None]: a cluster could not be read. *)
Fixpoint read_loop (fuel : nat) (s : fat H) (c allocate : Z) (contents : list Z) : option (list Z) * fat H :=
  match fuel with
  | O => (Some contents, s)
  | S fuel =>
      let v := f_vol s in
      match disk_read s (cluster_addr v c) (bytesPerCluster v) with
      | (None, s) => (None, s)
      | (Some (p, buf), s) =>
          let contents' := contents ++ take (Z.to_nat (allocate - zlen contents)) buf in
          let s := fat_free s p (bytesPerCluster v) in
          if allocate <? zlen contents + zlen buf then (Some contents', s)
          else
            let tableVal := tget (fat_table s) c in
            if fat_valid_cluster v tableVal then read_loop fuel s tableVal allocate contents'
            else (Some contents', s)
      end
  end.

(** The buffer at the address returned holds the bytes of the list first. *)
Definition fat_read_file (clusterNo size : Z) : M (option (Z * list Z)) := fun s =>
  let v := f_vol s in
  if negb (fat_valid_cluster v clusterNo) then Some (None, s)
  else
    let clusterCount := count_clusters (chain_fuel s) v (fat_table s) clusterNo 1 in
    if noClusters v <=? clusterCount then Some (None, s)
    else
      let fileSizeDisk := u32 (clusterCount * bytesPerCluster v) in
      let allocate := if size =? 0 then fileSizeDisk else size in
      let '(fileContents, s) := fat_malloc s allocate in
      if fileContents =? 0 then Some (None, s)
      else
        match read_loop (chain_fuel s) s clusterNo allocate [] with
        | (None, s) => (let! _ := free_buf fileContents allocate in st_ret None) s
        | (Some l, s) => Some (Some (fileContents, l), s)
        end.

Definition parent_cluster (parentpath : list Z) : M (option Z) :=
  if bool_decide (parentpath = [47]) then st_ret (Some 0)
  else
    let! parent := fat_parse_path parentpath true in
    if fst parent =? 0 then st_ret None
    else let! _ := free_dirp parent in st_ret (Some (firstClusterNo (snd parent))).

(** [while(fat_valid_cluster(cur))] and the flush that end both deletions. *)
Definition delete_chain (head : Z) : M bool := st_lift (fun s =>
  let '(_, min, max, ok, s) := free_chain (chain_fuel s) s head 0 head head true in
  let '(w, s) := fat_table_flush_cache s min max in (ok && w, s)).

Definition fat_delete_file (path : list Z) : M bool :=
  let! file := fat_parse_path path true in
  if fst file =? 0 then st_ret false
  else
    let e := snd file in
    let! _ := st_guard (fits 256 (fst (parent_and_name path))) in
    let! parentCluster := parent_cluster (parent_path path) in
    match parentCluster with
    | None => let! _ := free_dirp file in st_ret false
    | Some c =>
        let! ok := fat_update_in_dir c (entry_name e) (entry_ext e) (set_deleted e) in
        let! ok := if ok then delete_chain (firstClusterNo e) else st_ret false in
        let! _ := free_dirp file in
        st_ret ok
    end.

Definition fat_delete_dir (path : list Z) : M bool :=
  let! dir := fat_parse_path path true in
  if fst dir =? 0 then st_ret false
  else
    let e := snd dir in
    if Z.land (attributes e) 16 =? 0 then let! _ := free_dirp dir in st_ret false
    else
      let! extent := st_get (fun s => dir_extent (f_vol s) false (firstClusterNo e)) in
      let '(addr, size) := extent in
      let! dirBuf := st_lift (fun s => disk_read s addr size) in
      match dirBuf with
      | None => let! _ := free_dirp dir in st_ret false
      | Some (p, buf) =>
          let! _ := free_buf p size in
          if negb (dir_empty (entries_of size) 0 buf) then let! _ := free_dirp dir in st_ret false
          else
            let '(parent0, dirname) := parent_and_name path in
            let! _ := st_guard (fits 256 parent0 && fits 256 dirname) in
            let! parentCluster := parent_cluster (parent_path path) in
            match parentCluster with
            | None => let! _ := free_dirp dir in st_ret false
            | Some c =>
                let! ok := fat_update_in_dir c (entry_name e) [] (set_deleted e) in
                let! ok := if ok then delete_chain (firstClusterNo e) else st_ret false in
                let! _ := free_dirp dir in
                st_ret ok
            end
      end.

End fat_dir.

(** ** Reading into the memory of a task *)

Section read_user.
Context {H U : Type} `{Allocator H} (base size : Z) `{!UserBuffer H U base size}.

(** The loop of [fat_read_file_user]: [None] is a page fault of the copy. Every turn but
    the last reads at least a byte. Of the buffer at [clusterBuf] only the bytes just
    read are used. *)
Fixpoint read_user_loop (fuel : nat) (s : fat H) (u : U) (clusterBuf curCluster offset readBytes buffer total : Z)
    : option (Z * U * fat H) :=
  match fuel with
  | O => Some (readBytes, u, s)
  | S fuel =>
      let v := f_vol s in
      let clusterSize := bytesPerCluster v in
      let diskAddr := u32 (cluster_addr v curCluster + offset) in
      let clusterReadSize := clusterSize - offset in
      let clusterReadSize := if total <? readBytes + clusterReadSize then total - readBytes else clusterReadSize in
      match ata_read_exact_into (f_io s) diskAddr clusterReadSize clusterBuf
              (replicate (Z.to_nat clusterReadSize) 0) with
      | (false, _, x) => Some (readBytes, u, with_io s x)
      | (true, data, x) =>
          match ub_copy u (io_heap x) (buffer + readBytes) data with
          | None => None
          | Some (written, u, h) =>
              let s := with_io s (Io h (io_ata x)) in
              if written <? 0 then Some (readBytes, u, s)
              else
                let readBytes := readBytes + written in
                if (total <=? readBytes) || (written <? clusterReadSize) then Some (readBytes, u, s)
                else
                  let tableVal := tget (fat_table s) curCluster in
                  if fat_valid_cluster v tableVal then
                    read_user_loop fuel s u clusterBuf tableVal 0 readBytes buffer total
                  else Some (readBytes, u, s)
          end
      end
  end.

Definition fat_read_file_user (s : fat H) (u : U) (clusterNo buffer offset total : Z) : option (Z * U * fat H) :=
  let v := f_vol s in
  if negb (fat_valid_cluster v clusterNo) then Some (-1, u, s)
  else if total =? 0 then Some (0, u, s)
  else
    let clusterSize := bytesPerCluster v in
    match skip_clusters (Z.to_nat (offset / clusterSize)) v (fat_table s) clusterNo with
    | None => Some (-1, u, s)
    | Some cur =>
        let '(clusterBuf, s) := fat_malloc s clusterSize in
        if clusterBuf =? 0 then Some (-1, u, s)
        else
          '(readBytes, u, s) ← read_user_loop (S (Z.to_nat total)) s u clusterBuf cur (offset mod clusterSize) 0 buffer total;
          Some (if 0 <? readBytes then s32 readBytes else -1, u, fat_free s clusterBuf clusterSize)
    end.

End read_user.
