(* ===== verification/FatFile.v ===== *)
(** * The FAT16 file system: reading and writing the contents of files (fat.c)

    The loops of [fat_read_file], [fat_read_file_user] and [fat_write_file_at] on a file
    in the sense of FatTable, and what the directory searches of FatDir find. *)

From S2P Require Import Prelude Memory CString Paging Ata TaskMem Fat FatTable FatDir.

Local Open Scope Z_scope.

Section contents.
Context {H : Type} `{Allocator H}.
Implicit Types (s : fat H) (l : list Z).

(** ** Lemmas *)

(** The disk is read and the heap given back: nothing else changes. *)
Record reads s s' : Prop := {
  rd_step : io_step s s';
  rd_ok : fat_ok s';
  rd_bytes x : pbyte s' x = pbyte s x }.

Lemma reads_refl s : fat_ok s -> reads s s.
Proof. intros. constructor; [by apply io_step_refl|done|done]. Qed.

Lemma reads_trans s1 s2 s3 : reads s1 s2 -> reads s2 s3 -> reads s1 s3.
Proof.
  intros [A1 B1 C1] [A2 B2 C2]. constructor; [by eapply io_step_trans|done|].
  intros x. by rewrite C2.
Qed.

Lemma reads_vol s s' : reads s s' -> f_vol s' = f_vol s /\ fat_table s' = fat_table s.
Proof. intros R. by destruct (io_step_vol _ _ (rd_step _ _ R)) as (? & ? & _). Qed.

Lemma file_byte_reads s s' l pos : reads s s' -> file_byte s' l pos = file_byte s l pos.
Proof.
  intros R. destruct (reads_vol _ _ R) as [Hv _]. unfold file_byte. rewrite Hv. apply R.
Qed.

Lemma file_pos_cons v c l k :
  0 < bytesPerCluster v -> 0 <= k ->
  (k < bytesPerCluster v -> file_pos v (c :: l) k = caddr v c + k) /\
  (bytesPerCluster v <= k -> file_pos v (c :: l) k = file_pos v l (k - bytesPerCluster v)).
Proof.
  intros Hb Hk. unfold file_pos. split; intros Hlt.
  - rewrite Z.div_small, Z.mod_small by lia. done.
  - replace k with ((k - bytesPerCluster v) + 1 * bytesPerCluster v) at 1 2 by lia.
    rewrite Z.div_add, Z.mod_add by lia. rewrite zget_cons_S; [done|]. apply Z.div_pos; lia.
Qed.

Lemma read_cluster_spec s c :
  fat_ok s -> 2 <= c < noClusters (f_vol s) ->
  exists r s', disk_read s (cluster_addr (f_vol s) c) (bytesPerCluster (f_vol s)) = (r, s') /\ reads s s' /\
    match r with
    | None => heap_eq (f_heap s) (f_heap s') /\
        (settled (f_ata s) -> vol_in_part s -> out_of_memory (f_heap s) (bytesPerCluster (f_vol s) + 1024))
    | Some (p, buf) => p <> 0 /\ heap_plus (f_heap s) (f_heap s') p (bytesPerCluster (f_vol s)) /\
        zlen buf = bytesPerCluster (f_vol s) /\
        forall k, 0 <= k < bytesPerCluster (f_vol s) -> byte_at buf k = pbyte s (caddr (f_vol s) c + k)
    end.
Proof.
  intros Hok Hc. pose proof (fo_vol _ Hok) as Hv. destruct (bpc_pos _ Hv) as [Hb _].
  pose proof (vo_cluster _ Hv). destruct (cluster_addr_spec _ _ Hv Hc) as (Ha & H0a & _ & _ & Hend).
  rewrite Ha. destruct (disk_read_spec s (caddr (f_vol s) c) (bytesPerCluster (f_vol s)) Hok)
    as (r & s' & He & Hst & Hok' & Hx & Hr); [lia|lia|lia|lia|].
  exists r, s'. split; [done|]. split; [by constructor|]. by destruct r as [[p buf]|].
Qed.

Lemma free_reads h s p n :
  fat_ok s -> 0 < n < 2 ^ 31 - 4096 -> heap_plus h (f_heap s) p n ->
  reads s (fat_free s p n) /\ heap_eq h (f_heap (fat_free s p n)).
Proof.
  intros Hok Hn Hp. destruct (fat_free_spec h s p n Hok Hn Hp) as (? & ? & Ha & ?).
  split; [|done]. constructor; [done|done|]. intros x. unfold pbyte. by rewrite Ha.
Qed.

Lemma byte_at_app_l l1 l2 i : i < zlen l1 -> byte_at (l1 ++ l2) i = byte_at l1 i.
Proof. intros. unfold byte_at. by rewrite zget_app_l. Qed.

Lemma byte_at_app_r l1 l2 i : zlen l1 <= i -> byte_at (l1 ++ l2) i = byte_at l2 (i - zlen l1).
Proof. intros. unfold byte_at. by rewrite zget_app_r. Qed.

Lemma zlen_take l n : 0 <= n -> zlen (take (Z.to_nat n) l) = Z.min n (zlen l).
Proof. intros. unfold zlen. rewrite length_take. lia. Qed.

Lemma byte_at_take l n i : i < n -> byte_at (take (Z.to_nat n) l) i = byte_at l i.
Proof.
  intros Hi. unfold byte_at, zget. destruct (0 <=? i) eqn:?; [|done]. rewrite lookup_take_lt; [done|lia].
Qed.

Lemma read_loop_spec fuel s c rest allocate contents :
  fat_ok s -> is_chain (f_vol s) (fat_table s) c (c :: rest) -> (length rest < fuel)%nat ->
  zlen contents <= allocate ->
  exists r s', read_loop fuel s c allocate contents = (r, s') /\ reads s s' /\
    heap_eq (f_heap s) (f_heap s') /\
    match r with
    | None => settled (f_ata s) -> vol_in_part s -> out_of_memory (f_heap s) (bytesPerCluster (f_vol s) + 1024)
    | Some l => exists more, l = contents ++ more /\
        zlen more = Z.min (allocate - zlen contents) (zlen (c :: rest) * bytesPerCluster (f_vol s)) /\
        forall k, 0 <= k < zlen more -> byte_at more k = file_byte s (c :: rest) k
    end.
Proof.
  revert s c rest contents. induction fuel as [|fuel IH]; intros s c rest contents Hok Hc Hf Hle; [lia|].
  cbn [read_loop]. pose proof Hc as (_ & Hvc & Hrest). pose proof (proj1 (valid_range _ _) Hvc) as Hr.
  pose proof (fo_vol _ Hok) as Hv. destruct (bpc_pos _ Hv) as [Hb _]. pose proof (vo_cluster _ Hv) as Hb2.
  destruct (read_cluster_spec s c Hok ltac:(lia)) as (r & s1 & -> & R1 & Hrd).
  destruct r as [[p buf]|].
  2: { exists None, s1. destruct Hrd. by split_and!. }
  destruct Hrd as (Hp & Hplus & Hlen & Hbytes).
  destruct (free_reads (f_heap s) s1 p (bytesPerCluster (f_vol s)) (rd_ok _ _ R1) ltac:(lia) Hplus) as [R2 Heq2].
  set (s2 := fat_free s1 p (bytesPerCluster (f_vol s))) in *.
  pose proof (reads_trans _ _ _ R1 R2) as R. destruct (reads_vol _ _ R) as [Hv2 Ht2].
  set (part := take (Z.to_nat (allocate - zlen contents)) buf).
  assert (Hpart : zlen part = Z.min (allocate - zlen contents) (bytesPerCluster (f_vol s)))
    by (unfold part; rewrite zlen_take, Hlen by lia; done).
  assert (Hpb : forall k, 0 <= k < zlen part -> byte_at part k = file_byte s (c :: rest) k).
  { intros k Hk. unfold part. rewrite byte_at_take by lia. rewrite Hbytes by lia.
    unfold file_byte. destruct (file_pos_cons (f_vol s) c rest k Hb ltac:(lia)) as [-> _]; [done|lia]. }
  pose proof (zlen_nonneg rest).
  destruct (allocate <? zlen contents + zlen buf) eqn:Hd.
  { exists (Some (contents ++ part)), s2. split; [done|]. split; [done|]. split; [done|].
    exists part. split; [done|]. split; [|done]. rewrite zlen_cons. nia. }
  rewrite Ht2. destruct (fat_valid_cluster (f_vol s) (tget (fat_table s) c)) eqn:Hnv.
  - destruct rest as [|d rest]; [by rewrite Hrest in Hnv|].
    assert (Hd2 : tget (fat_table s) c = d) by (by destruct Hrest as (-> & _)).
    rewrite Hd2 in *.
    destruct (IH s2 d rest (contents ++ part)) as (r3 & s3 & -> & R3 & Heq3 & Hr3).
    { apply R. } { rewrite Hv2, Ht2. exact Hrest. } { simpl in Hf. lia. } { rewrite zlen_app. lia. }
    exists r3, s3. split; [done|]. split; [by eapply reads_trans|]. split; [by eapply heap_eq_trans|].
    destruct r3 as [l3|].
    2: { intros Hs Hvp. rewrite Hv2 in Hr3. eapply out_of_memory_mono; [exact Heq2|reflexivity|].
         apply Hr3; [by apply R|]. by eapply vol_in_part_step; [apply R|]. }
    destruct Hr3 as (more & -> & Hml & Hmb).
    exists (part ++ more). rewrite Hv2, zlen_app in *. split; [by rewrite app_assoc|].
    assert (Hpl : zlen part = bytesPerCluster (f_vol s)) by lia.
    split; [rewrite (zlen_cons c); lia|].
    intros k Hk. destruct (decide (k < zlen part)).
    + rewrite byte_at_app_l by done. apply Hpb. lia.
    + rewrite byte_at_app_r, Hmb by lia. rewrite (file_byte_reads s s2) by done.
      unfold file_byte. destruct (file_pos_cons (f_vol s) c (d :: rest) k Hb ltac:(lia)) as [_ Hge].
      rewrite Hge by lia. do 2 f_equal. lia.
  - destruct rest as [|d rest]; [|by destruct Hrest as (Hd2 & ? & _); congruence].
    exists (Some (contents ++ part)), s2. split; [done|]. split; [done|]. split; [done|].
    exists part. split; [done|]. split; [|done]. rewrite zlen_cons, zlen_nil. lia.
Qed.

Lemma count_clusters_spec fuel v t c rest n :
  is_chain v t c (c :: rest) -> (length rest < fuel)%nat -> 0 <= n -> n + zlen rest <= noClusters v < 65536 ->
  count_clusters fuel v t c n = n + zlen rest.
Proof.
  revert c rest n. induction fuel as [|fuel IH]; intros c rest n Hc Hf Hn Hle; [lia|].
  cbn [count_clusters]. pose proof (zlen_nonneg rest). destruct (n <=? noClusters v) eqn:?; [|lia].
  destruct Hc as (_ & _ & Hrest). destruct rest as [|d rest].
  - simpl in Hrest. rewrite Hrest, zlen_nil. lia.
  - pose proof Hrest as (Hdd & Hd & _). rewrite <-Hdd in *. rewrite Hd. rewrite zlen_cons in *. pose proof (zlen_nonneg rest).
    rewrite u16_id by lia. rewrite (IH _ rest); [lia|done|simpl in Hf; lia|lia|lia].
Qed.

(** A chain has fewer clusters than the volume. *)
Lemma chain_in_volume v t c l : vol_ok v -> is_chain v t c l -> zlen l <= noClusters v - 2.
Proof.
  intros Hv Hc. pose proof (is_chain_NoDup _ _ _ _ Hc) as Hnd. pose proof (vo_clusters _ Hv).
  assert (Hsub : l ⊆+ seqZ 2 (noClusters v - 2)).
  { apply NoDup_submseteq; [done|]. intros x Hx.
    pose proof (is_chain_valid _ _ _ _ Hc) as Hf. rewrite Forall_forall in Hf.
    apply Hf, valid_range in Hx. apply elem_of_seqZ. lia. }
  apply submseteq_length in Hsub. rewrite length_seqZ in Hsub. unfold zlen. lia.
Qed.

Lemma file_head s start l size : file_at s start l size ->
  exists rest, l = start :: rest /\ is_chain (f_vol s) (fat_table s) start (start :: rest).
Proof.
  intros F. pose proof (fl_chain _ _ _ _ F) as Hc. destruct l as [|c rest].
  - by destruct (file_nonempty _ _ _ _ F).
  - pose proof Hc as (-> & _). by exists rest.
Qed.

(** The cluster a position lies in. *)
Lemma skip_clusters_spec n v t c rest :
  is_chain v t c (c :: rest) ->
  match skip_clusters n v t c with
  | Some d => exists l1 rest', c :: rest = l1 ++ d :: rest' /\ length l1 = n /\ is_chain v t d (d :: rest')
  | None => (length rest < n)%nat
  end.
Proof.
  revert c rest. induction n as [|n IH]; intros c rest Hc; cbn [skip_clusters].
  - by exists [], rest.
  - pose proof Hc as (_ & _ & Hrest). destruct (fat_valid_cluster v (tget t c)) eqn:Hv.
    + destruct rest as [|d rest]; [by rewrite Hrest in Hv|].
      pose proof Hrest as (Hd & _). rewrite <-Hd in *. specialize (IH d rest Hrest).
      destruct (skip_clusters n v t d) as [e|]; [|simpl; lia].
      destruct IH as (l1 & rest' & -> & Hl & He). exists (c :: l1), rest'. split; [done|]. split; [simpl; lia|done].
    + destruct rest as [|d rest]; [simpl; lia|]. destruct Hrest as (Hd & Hv2 & _). congruence.
Qed.

Lemma file_pos_skip v l1 l2 k :
  0 < bytesPerCluster v -> 0 <= k ->
  file_pos v (l1 ++ l2) (zlen l1 * bytesPerCluster v + k) = file_pos v l2 k.
Proof.
  intros Hb Hk. revert k Hk. induction l1 as [|c l1 IH]; intros k Hk.
  { by rewrite zlen_nil. }
  rewrite zlen_cons. pose proof (zlen_nonneg l1).
  destruct (file_pos_cons v c (l1 ++ l2) ((zlen l1 + 1) * bytesPerCluster v + k) Hb ltac:(nia)) as [_ Hge].
  simpl. rewrite Hge by nia. rewrite <-(IH k Hk). f_equal. lia.
Qed.

(** ** Reading a file into a new buffer *)

(** Reading a file gives a new buffer with the first bytes of the file, as many as
    are asked for (all of its clusters when 0 are), or NULL with the heap as it was;
    neither the disk nor the table changes. *)
Theorem fat_read_file_correct s start l size want :
  fat_ok s -> file_at s start l size -> 0 <= want ->
  let allocate := if want =? 0 then zlen l * bytesPerCluster (f_vol s) else want in
  allocate < 2 ^ 31 - 4096 ->
  exists r s', fat_read_file start want s = Some (r, s') /\ reads s s' /\
    match r with
    | None => heap_eq (f_heap s) (f_heap s') /\
        (settled (f_ata s) -> vol_in_part s -> out_of_memory (f_heap s) allocate \/
           exists h p, heap_plus (f_heap s) h p allocate /\ out_of_memory h (bytesPerCluster (f_vol s) + 1024))
    | Some (p, contents) =>
        p <> 0 /\ heap_plus (f_heap s) (f_heap s') p allocate /\
        zlen contents = Z.min allocate (zlen l * bytesPerCluster (f_vol s)) /\
        forall pos, 0 <= pos < zlen contents -> byte_at contents pos = file_byte s l pos
    end.
Proof.
  intros Hok F Hw allocate Hmax. pose proof (fo_vol _ Hok) as Hv. destruct (bpc_pos _ Hv) as [Hb _].
  destruct (file_head _ _ _ _ F) as (rest & -> & Hc). pose proof Hc as (_ & Hvs & _).
  pose proof (chain_length _ _ _ Hok Hc) as Hfuel. pose proof (chain_in_volume _ _ _ _ Hv Hc) as Hcount.
  pose proof (vo_clusters _ Hv). pose proof (zlen_nonneg rest) as Hrn.
  unfold fat_read_file. rewrite Hvs. cbn [negb].
  rewrite zlen_cons in Hcount.
  rewrite (count_clusters_spec _ _ _ _ rest 1); [|done|simpl in Hfuel; lia|lia|lia].
  destruct (noClusters (f_vol s) <=? 1 + zlen rest) eqn:?; [lia|].
  assert (Hall : (if want =? 0 then u32 ((1 + zlen rest) * bytesPerCluster (f_vol s)) else want) = allocate).
  { unfold allocate in *. rewrite zlen_cons in *. destruct (want =? 0) eqn:?; [|done]. rewrite u32_id by nia. lia. }
  rewrite Hall. assert (Hpos : 0 < allocate) by (unfold allocate; rewrite zlen_cons; destruct (want =? 0) eqn:?; nia).
  destruct (fat_malloc_spec s allocate Hok ltac:(lia)) as (p & s1 & Hmal & Hst1 & Hok1 & Ha1 & Hcase).
  rewrite Hmal. assert (R1 : reads s s1) by (constructor; [done|done|intros x; unfold pbyte; by rewrite Ha1]).
  destruct (p =? 0) eqn:Hp0.
  { destruct Hcase as [[-> ->]|[? _]]; [|lia]. exists None, s. split; [done|]. split; [by apply reads_refl|].
    split; [apply heap_eq_refl, Hok|]. intros _ _. left. apply fat_malloc_fst in Hmal.
    apply (out_of_memory_here _ allocate); [apply Hok|done|lia]. }
  destruct Hcase as [[-> _]|[Hp Hplus]]; [done|]. destruct (reads_vol _ _ R1) as [Hv1 Ht1].
  destruct (read_loop_spec (chain_fuel s1) s1 start rest allocate []) as (r & s2 & -> & R2 & Heq2 & Hr);
    [done|by rewrite Hv1, Ht1|unfold chain_fuel in *; rewrite Ht1; simpl in Hfuel; lia|rewrite zlen_nil; lia|].
  pose proof (reads_trans _ _ _ R1 R2) as R.
  pose proof (heap_plus_eq _ _ _ _ _ Hplus Heq2) as Hplus2.
  destruct r as [contents|].
  - exists (Some (p, contents)), s2. split; [done|]. split; [done|]. split; [done|]. split; [done|].
    destruct Hr as (more & -> & Hml & Hmb). rewrite zlen_nil, Z.sub_0_r, Hv1 in Hml. split; [done|].
    intros pos Hpos'. rewrite <-(file_byte_reads s s1) by done. by apply Hmb.
  - destruct (free_reads (f_heap s) s2 p allocate (rd_ok _ _ R2) ltac:(lia) Hplus2) as [R3 Heq3].
    exists None, (fat_free s2 p allocate). split.
    { unfold st_bind, free_buf, st_ret. by rewrite Hp0. }
    split; [by eapply reads_trans|]. split; [done|]. intros Hs Hvp. right. exists (f_heap s1), p.
    split; [done|]. rewrite <-Hv1. apply Hr; [by apply R1|]. by eapply vol_in_part_step; [apply R1|].
Qed.

End contents.

(** ** Reading a file into the memory of a task *)

Section user.
Context {H U : Type} `{Allocator H} (base size : Z) `{UB : !UserBuffer H U base size}.
Implicit Types (s : fat H) (l : list Z) (u : U).

(** The buffer at [p] stays allocated, apart from the pages of the task's buffer. *)
Record buffer_apart u (h : H) (p n : Z) : Prop := {
  ba_wf : ub_wf u h;
  ba_used q : p / 4096 <= q < p / 4096 + pages n -> al_used h q;
  ba_apart q : p / 4096 <= q < p / 4096 + pages n -> ~ ub_own u q }.

Lemma buffer_apart_eq u h h' p n : buffer_apart u h p n -> heap_eq h h' -> buffer_apart u h' p n.
Proof.
  intros [W Us Ap] [Hw He]. constructor; [|intros q Hq; by apply He, Us|done].
  apply (ub_wf_heap u h); [done|done|]. intros q Hq. apply He. by eapply ub_wf_used.
Qed.

Lemma buffer_apart_copy u h p n dest src :
  buffer_apart u h p n -> base <= dest -> dest + zlen src <= base + size ->
  exists w u' h', ub_copy u h dest src = Some (w, u', h') /\ buffer_apart u' h' p n /\ al_wf h' /\
    (w = -1 \/ 0 <= w <= zlen src) /\
    (forall i b, 0 <= i < w -> zget src i = Some b -> ub_view u' (dest + i) = Some b) /\
    (forall v b, base <= v < base + size -> ~ (dest <= v < dest + w) -> ub_view u v = Some b -> ub_view u' v = Some b).
Proof.
  intros [W Us Ap] Hd Hl. destruct (ub_copy_ok u h dest src W Hd Hl)
    as (w & u' & h' & Hc & W' & Hw & Hn & Hnew & Hold & Hu & Ho).
  exists w, u', h'. split; [done|]. split; [|by split_and!].
  constructor; [done|intros q Hq; by apply Hu, Us|]. intros q Hq Hown.
  destruct (Ho q Hown) as [?|Hnu]; [by apply (Ap q)|]. by apply Hnu, Us.
Qed.

(** What the loop has done from [from] bytes on: the bytes copied, and the rest of the
    buffer as it was. *)
Record copied u u' s l (at_ buffer from to_ : Z) : Prop := {
  cp_new i : from <= i < to_ -> ub_view u' (buffer + i) = Some (file_byte s l (at_ + (i - from)));
  cp_old v b : base <= v < base + size -> ~ (buffer + from <= v < buffer + to_) ->
    ub_view u v = Some b -> ub_view u' v = Some b }.

Lemma copied_none u s l at_ buffer from : copied u u s l at_ buffer from from.
Proof. constructor; [lia|done]. Qed.

Lemma into_spec s c offset n cb :
  fat_ok s -> 2 <= c < noClusters (f_vol s) -> 0 <= offset -> 0 < n -> offset + n <= bytesPerCluster (f_vol s) ->
  cb <> 0 ->
  exists ok data x, ata_read_exact_into (f_io s) (u32 (cluster_addr (f_vol s) c + offset)) n cb
      (replicate (Z.to_nat n) 0) = (ok, data, x) /\
    reads s (with_io s x) /\ heap_eq (f_heap s) (io_heap x) /\
    (ok = true -> zlen data = n /\
       forall k, 0 <= k < n -> zget data k = Some (pbyte s (caddr (f_vol s) c + offset + k))).
Proof.
  intros Hok Hc Ho Hn Hle Hcb. pose proof (fo_vol _ Hok) as Hv. destruct (bpc_pos _ Hv) as [Hb _].
  pose proof (vo_cluster _ Hv). destruct (cluster_addr_spec _ _ Hv Hc) as (Ha & H0a & _ & _ & Hend).
  pose proof (vo_max _ Hv). unfold vol_end in Hend. rewrite Ha, u32_id by lia.
  destruct (ata_read_exact_into_spec (f_io s) (caddr (f_vol s) c + offset) n cb (replicate (Z.to_nat n) 0)
    (fo_part _ Hok) (fo_heap _ Hok)) as (ok & data & x & -> & (Heq & (Hd & Hb2 & Hp) & Hset) & Hl & Hdata & _);
    [lia|lia|lia|lia|done|rewrite zlen_replicate; lia|].
  exists ok, data, x. split; [done|]. assert (Hst : io_step s (with_io s x)) by (constructor; done).
  split. { constructor; [done|apply (io_step_ok s); [done|apply Heq|done]|].
    intros y. unfold pbyte, f_ata, part_addr. simpl. by rewrite Hd, Hb2. }
  split; [done|]. intros Hokt. split; [done|]. intros k Hk. destruct (Hdata Hokt) as [-> _].
  unfold part_get. rewrite zget_disk_get by lia. unfold pbyte, f_ata, part_addr. do 2 f_equal. lia.
Qed.

Lemma reads_heap s x h' : reads s (with_io s x) -> fat_ok s -> al_wf h' -> reads s (with_io s (Io h' (io_ata x))).
Proof.
  intros [St Ok By] Hok Hw. assert (St' : io_step s (with_io s (Io h' (io_ata x)))).
  { constructor; [done|apply (is_base _ _ St)|apply (is_part _ _ St)|apply (is_settled _ _ St)]. }
  constructor; [done|by apply (io_step_ok s)|]. intros y. apply (By y).
Qed.

Lemma read_user_loop_spec fuel s u cb p n c rest offset done_ buffer total :
  fat_ok s -> is_chain (f_vol s) (fat_table s) c (c :: rest) -> 0 <= offset < bytesPerCluster (f_vol s) ->
  0 <= done_ < total -> (Z.to_nat (total - done_) <= fuel)%nat ->
  base <= buffer -> buffer + total <= base + size -> cb <> 0 -> buffer_apart u (f_heap s) p n ->
  exists r u' s', read_user_loop base size fuel s u cb c offset done_ buffer total = Some (r, u', s') /\
    reads s s' /\ buffer_apart u' (f_heap s') p n /\ done_ <= r <= total /\
    r - done_ <= zlen (c :: rest) * bytesPerCluster (f_vol s) - offset /\
    copied u u' s (c :: rest) offset buffer done_ r.
Proof.
  revert s u c rest offset done_. induction fuel as [|fuel IH];
    intros s u c rest offset done_ Hok Hc Ho Hd Hf Hb1 Hb2 Hcb HJ; [lia|].
  cbn [read_user_loop]. pose proof Hc as (_ & Hvc & Hrest). pose proof (proj1 (valid_range _ _) Hvc) as Hr.
  set (bpc := bytesPerCluster (f_vol s)) in *. pose proof (zlen_nonneg rest) as Hzr.
  set (k := if total <? done_ + (bpc - offset) then total - done_ else bpc - offset).
  assert (Hk : 0 < k /\ offset + k <= bpc /\ done_ + k <= total /\ (done_ + k < total -> offset + k = bpc)).
  { unfold k. destruct (_ <? _) eqn:?; lia. }
  destruct (into_spec s c offset k cb Hok ltac:(lia) ltac:(lia) ltac:(lia) ltac:(unfold bpc in *; lia) Hcb)
    as (ok & data & x & -> & R1 & Heq1 & Hdata).
  assert (HJ1 : buffer_apart u (io_heap x) p n) by (by eapply buffer_apart_eq).
  assert (Hlen1 : zlen (c :: rest) * bpc = bpc + zlen rest * bpc) by (rewrite zlen_cons; lia).
  assert (Hrb : 0 <= zlen rest * bpc) by nia.
  destruct ok.
  2: { exists done_, u, (with_io s x). split; [done|]. split; [done|]. split; [done|].
       split; [lia|]. split; [lia|]. apply copied_none. }
  destruct (Hdata eq_refl) as [Hdl Hdb].
  destruct (buffer_apart_copy u (io_heap x) p n (buffer + done_) data HJ1 ltac:(lia) ltac:(lia))
    as (w & u1 & h1 & -> & HJ2 & Hw1 & Hw & Hnew & Hold).
  pose proof (reads_heap s x h1 R1 Hok Hw1) as R2. set (s1 := with_io s (Io h1 (io_ata x))) in *.
  destruct (w <? 0) eqn:Hw0.
  { exists done_, u1, s1. split; [done|]. split; [done|]. split; [done|]. split; [lia|]. split; [lia|].
    constructor; [lia|]. intros v b Hv Hnv. apply Hold; [done|lia]. }
  assert (Hcp1 : copied u u1 s (c :: rest) offset buffer done_ (done_ + w)).
  { constructor.
    - intros i Hi. replace (buffer + i) with (buffer + done_ + (i - done_)) by lia.
      apply Hnew; [lia|]. rewrite Hdb by lia. f_equal. unfold file_byte.
      destruct (file_pos_cons (f_vol s) c rest (offset + (i - done_)) (proj1 (bpc_pos _ (fo_vol _ Hok))) ltac:(lia))
        as [-> _]; [f_equal; lia|fold bpc; lia].
    - intros v b Hv Hnv. apply Hold; [done|lia]. }
  destruct ((total <=? done_ + w) || (w <? k)) eqn:Hend.
  { exists (done_ + w), u1, s1. split; [done|]. split; [done|]. split; [done|]. split; [lia|]. split; [lia|done]. }
  assert (Hwk : w = k) by lia. subst w. change (fat_table s1) with (fat_table s).
  destruct (fat_valid_cluster (f_vol s) (tget (fat_table s) c)) eqn:Hnv.
  2: { exists (done_ + k), u1, s1. split; [done|]. split; [done|]. split; [done|]. split; [lia|]. split; [lia|done]. }
  destruct rest as [|d rest]; [by rewrite Hrest in Hnv|].
  assert (Hd2 : tget (fat_table s) c = d) by (by destruct Hrest as (-> & _)). rewrite Hd2 in *.
  destruct (IH s1 u1 d rest 0 (done_ + k)) as (r & u2 & s2 & -> & R3 & HJ3 & Hr3 & Hr4 & [Cn Co]); try done; try lia.
  { apply R2. } { change (f_vol s1) with (f_vol s). fold bpc. lia. }
  change (f_vol s1) with (f_vol s) in Hr4. fold bpc in Hr4.
  exists r, u2, s2. split; [done|]. split; [by eapply reads_trans|]. split; [done|]. split; [lia|].
  split; [rewrite (zlen_cons c) in *; lia|]. destruct Hcp1 as [Cn1 Co1]. constructor.
  - intros i Hi. destruct (decide (i < done_ + k)).
    + apply Co; [lia|lia|]. apply Cn1. lia.
    + rewrite Cn by lia. f_equal. rewrite (file_byte_reads s s1) by done. unfold file_byte.
      destruct (file_pos_cons (f_vol s) c (d :: rest) (offset + (i - done_)) (proj1 (bpc_pos _ (fo_vol _ Hok)))
        ltac:(lia)) as [_ Hge]. rewrite Hge by (fold bpc; lia). do 2 f_equal. fold bpc. lia.
  - intros v b Hv Hnv2 Hvb. apply Co; [done|lia|]. apply Co1; [done|lia|done].
Qed.

(** A read into the memory of a task copies to its buffer bytes of the file from the
    offset on, no further than the clusters of the file, and leaves the rest of the
    buffer; it reports how many, or -1 when it copied none. The disk and the table are
    as they were, the buffer of the kernel is given back and the task's memory is
    consistent. *)
Theorem fat_read_file_user_correct s u start l fsize buffer offset total :
  fat_ok s -> file_at s start l fsize -> ub_wf u (f_heap s) ->
  0 <= offset -> 0 <= total < 2 ^ 31 -> base <= buffer -> buffer + total <= base + size ->
  exists r u' s', fat_read_file_user base size s u start buffer offset total = Some (r, u', s') /\
    reads s s' /\ ub_wf u' (f_heap s') /\
    (r = -1 \/ 0 <= r <= total /\ (r = 0 -> total = 0)) /\
    (0 < r -> offset + r <= zlen l * bytesPerCluster (f_vol s)) /\
    (forall i, 0 <= i < r -> ub_view u' (buffer + i) = Some (file_byte s l (offset + i))) /\
    (forall v b, base <= v < base + size -> ~ (buffer <= v < buffer + r) -> ub_view u v = Some b ->
       ub_view u' v = Some b).
Proof.
  intros Hok F Hu Ho Ht Hb1 Hb2. pose proof (fo_vol _ Hok) as Hv. destruct (bpc_pos _ Hv) as [Hb _].
  destruct (file_head _ _ _ _ F) as (rest & -> & Hc). pose proof Hc as (_ & Hvs & _).
  unfold fat_read_file_user. rewrite Hvs. cbn [negb]. set (bpc := bytesPerCluster (f_vol s)) in *.
  assert (Hfail : exists r u' s', Some (-1, u, s) = Some (r, u', s') /\
    reads s s' /\ ub_wf u' (f_heap s') /\ (r = -1 \/ 0 <= r <= total /\ (r = 0 -> total = 0)) /\
    (0 < r -> offset + r <= zlen (start :: rest) * bpc) /\
    (forall i, 0 <= i < r -> ub_view u' (buffer + i) = Some (file_byte s (start :: rest) (offset + i))) /\
    (forall v b, base <= v < base + size -> ~ (buffer <= v < buffer + r) -> ub_view u v = Some b ->
       ub_view u' v = Some b)).
  { exists (-1), u, s. split; [done|]. split; [by apply reads_refl|]. split; [done|]. split; [by left|].
    split; [lia|]. split; [lia|done]. }
  destruct (total =? 0) eqn:Ht0.
  { exists 0, u, s. split; [done|]. split; [by apply reads_refl|]. split; [done|]. split; [right; lia|].
    split; [lia|]. split; [lia|done]. }
  pose proof (Z.div_mod offset bpc ltac:(lia)) as Hdm. pose proof (Z.mod_pos_bound offset bpc Hb) as Hmb.
  pose proof (Z.div_pos offset bpc Ho Hb) as Hdp.
  pose proof (skip_clusters_spec (Z.to_nat (offset / bpc)) _ _ _ _ Hc) as Hskip.
  destruct (skip_clusters _ _ _ _) as [cur|]; [|exact Hfail].
  destruct Hskip as (l1 & rest' & Hl & Hl1 & Hcur). rewrite Hl in *.
  assert (Hl1z : zlen l1 = offset / bpc) by (unfold zlen; lia).
  pose proof (vo_cluster _ Hv) as Hbm. fold bpc in Hbm.
  destruct (fat_malloc_spec s bpc Hok ltac:(lia)) as (p & s1 & -> & Hst1 & Hok1 & Ha1 & Hcase).
  destruct (p =? 0) eqn:Hp0.
  { destruct Hcase as [[-> ->]|[? _]]; [exact Hfail|lia]. }
  destruct Hcase as [[-> _]|[Hp (Hw1 & Hpm & Hppos & Hfresh & Hused)]]; [done|].
  assert (R1 : reads s s1) by (constructor; [done|done|intros x; unfold pbyte; by rewrite Ha1]).
  destruct (reads_vol _ _ R1) as [Hv1 Ht1].
  assert (HJ : buffer_apart u (f_heap s1) p bpc).
  { constructor.
    - apply (ub_wf_heap u (f_heap s)); [done|done|]. intros q Hq. apply Hused. left. by eapply ub_wf_used.
    - intros q Hq. apply Hused. by right.
    - intros q Hq Hown. apply (Hfresh q Hq). by eapply ub_wf_used. }
  destruct (read_user_loop_spec (S (Z.to_nat total)) s1 u p p bpc cur rest' (offset mod bpc) 0 buffer total)
    as (r & u2 & s2 & -> & R2 & [W2 Us2 Ap2] & Hr & Hrl & [Cn Co]); try done; try lia.
  { by rewrite Hv1, Ht1. } { by rewrite Hv1. }
  simpl. rewrite Hv1 in Hrl. fold bpc in Hrl.
  destruct (al_free_ok (f_heap s2) bpc p (fo_heap _ (rd_ok _ _ R2)) ltac:(lia) Hpm Us2) as [Hw3 Hu3].
  pose proof (reads_trans _ _ _ R1 R2) as R12.
  assert (Hfree : fat_free s2 p bpc = with_io s2 (Io (al_free (f_heap s2) p bpc) (io_ata (f_io s2)))).
  { unfold fat_free, io_free. rewrite Hp0. destruct (bpc =? 0) eqn:?; [lia|done]. }
  assert (R3 : reads s2 (fat_free s2 p bpc)).
  { rewrite Hfree. apply (reads_heap s2 (f_io s2)); [|by apply R12|done].
    replace (with_io s2 (f_io s2)) with s2 by (by destruct s2). apply reads_refl, R12. }
  exists (if 0 <? r then s32 r else -1), u2, (fat_free s2 p bpc). split; [done|].
  split; [by eapply reads_trans|]. split.
  { rewrite Hfree. apply (ub_wf_heap u2 (f_heap s2)); [done|done|]. intros q Hq. apply Hu3.
    split; [by eapply ub_wf_used|]. intros Hpq. by apply (Ap2 q). }
  assert (Hres : (if 0 <? r then s32 r else -1) = if 0 <? r then r else -1).
  { destruct (0 <? r) eqn:?; [|done]. apply s32_id. lia. }
  rewrite Hres. assert (Hlen : zlen (l1 ++ cur :: rest') * bpc = zlen l1 * bpc + zlen (cur :: rest') * bpc)
    by (rewrite zlen_app; lia).
  split; [destruct (0 <? r) eqn:?; lia|]. split; [destruct (0 <? r) eqn:?; [|lia]; rewrite Hlen, Hl1z; lia|].
  split.
  - intros i Hi. rewrite Cn by (destruct (0 <? r) eqn:?; lia). f_equal.
    rewrite (file_byte_reads s s1) by done. unfold file_byte. f_equal.
    rewrite <-(file_pos_skip (f_vol s) l1 (cur :: rest') (offset mod bpc + (i - 0)) Hb ltac:(lia)). f_equal. fold bpc.
    rewrite Hl1z. lia.
  - intros v b Hvr Hnv Hvb. apply Co; [done| |done]. destruct (0 <? r) eqn:?; lia.
Qed.

End user.

(** ** Writing to the clusters of a file *)

Section writing.
Context {H : Type} `{Allocator H} (fetch : Z -> Z -> option (list Z)) (data : Z -> Z).
Implicit Types (s : fat H) (l : list Z).

(** The bytes fetched from the buffer are those of [data]. *)
Hypothesis fetch_data : forall k n bytes, fetch k n = Some bytes ->
  zlen bytes = n /\ forall i, 0 <= i < n -> byte_at bytes i = data (k + i).

(** Only the disk and the status register change, and the disk only at [P]. *)
Record writes s s' (P : Z -> Prop) : Prop := {
  wr_step : io_step s s';
  wr_ok : fat_ok s';
  wr_heap : heap_eq (f_heap s) (f_heap s');
  wr_out x : ~ P x -> pbyte s' x = pbyte s x }.

Lemma writes_refl s P : fat_ok s -> writes s s P.
Proof. intros Hok. constructor; [by apply io_step_refl|done|apply heap_eq_refl, Hok|done]. Qed.

Lemma writes_trans s1 s2 s3 (P1 P2 P : Z -> Prop) :
  writes s1 s2 P1 -> writes s2 s3 P2 -> (forall x, P1 x -> P x) -> (forall x, P2 x -> P x) -> writes s1 s3 P.
Proof.
  intros W1 W2 HP1 HP2. constructor; [eapply io_step_trans; [apply W1|apply W2]|apply W2|eapply heap_eq_trans; [apply W1|apply W2]|].
  intros x Hx. rewrite (wr_out _ _ _ W2), (wr_out _ _ _ W1); [done|..]; intros Hc; apply Hx; auto.
Qed.

(** Bytes [from .. from + n - 1] of cluster [c] are [bytes], or those before the write when [ok]
    is not true. *)
Lemma write_cluster_spec s c buf woff n bytes :
  fat_ok s -> 2 <= c < noClusters (f_vol s) -> 0 <= woff -> 0 < n -> woff + n <= bytesPerCluster (f_vol s) ->
  zlen buf = bytesPerCluster (f_vol s) -> zlen bytes = n ->
  (forall k, 0 <= k < bytesPerCluster (f_vol s) -> ~ (woff <= k < woff + n) ->
     byte_at buf k = pbyte s (caddr (f_vol s) c + k)) ->
  (forall k, woff <= k < woff + n -> byte_at buf k = byte_at bytes (k - woff)) ->
  exists ok s', disk_write s (cluster_addr (f_vol s) c) buf (bytesPerCluster (f_vol s)) = (ok, s') /\
    writes s s' (fun x => caddr (f_vol s) c + woff <= x < caddr (f_vol s) c + woff + n) /\
    (forall i, 0 <= i < n -> pbyte s' (caddr (f_vol s) c + woff + i) = byte_at bytes i \/
       pbyte s' (caddr (f_vol s) c + woff + i) = pbyte s (caddr (f_vol s) c + woff + i)) /\
    (ok = true -> forall i, 0 <= i < n -> pbyte s' (caddr (f_vol s) c + woff + i) = byte_at bytes i) /\
    f_heap s' = f_heap s /\ (settled (f_ata s) -> vol_in_part s -> ok = true).
Proof.
  intros Hok Hc Hw Hn Hle Hbl Hyl Hkeep Hnew. pose proof (fo_vol _ Hok) as Hv. destruct (bpc_pos _ Hv) as [Hb Hb512].
  pose proof (vo_cluster _ Hv). destruct (cluster_addr_spec _ _ Hv Hc) as (Ha & H0a & Hm & _ & Hend). rewrite Ha.
  destruct (disk_write_spec s (caddr (f_vol s) c) buf (bytesPerCluster (f_vol s)) Hok)
    as (ok & s' & -> & Hst & Hok' & Hh & Hout & Hyes & Hor & Hsucc); [lia|lia|lia|lia|done|done|].
  exists ok, s'. split; [done|]. split; [|split; [|split; [|by split]]].
  - constructor; [done|done|rewrite Hh; apply heap_eq_refl, Hok|].
    intros x Hx. destruct (decide (caddr (f_vol s) c <= x < caddr (f_vol s) c + bytesPerCluster (f_vol s))).
    + replace x with (caddr (f_vol s) c + (x - caddr (f_vol s) c)) by lia.
      destruct (Hor (x - caddr (f_vol s) c) ltac:(lia)) as [->|Ho]; [|done]. apply Hkeep; lia.
    + by apply Hout.
  - intros i Hi. rewrite <-Z.add_assoc. destruct (Hor (woff + i) ltac:(lia)) as [->|Ho]; [left|by right].
    rewrite Hnew by lia. f_equal. lia.
  - intros Ht i Hi. rewrite <-Z.add_assoc. rewrite Hyes by (try done; lia). rewrite Hnew by lia. f_equal. lia.
Qed.

(** One turn of the loop. *)
Lemma write_step_spec s c woff remaining n bytes :
  fat_ok s -> 2 <= c < noClusters (f_vol s) -> 0 <= woff -> 0 < n ->
  n = Z.min remaining (bytesPerCluster (f_vol s) - woff) -> zlen bytes = n ->
  exists ok s',
    (if (0 <? woff) || (remaining <? bytesPerCluster (f_vol s)) then
       match disk_read s (cluster_addr (f_vol s) c) (bytesPerCluster (f_vol s)) with
       | (None, s) => (None, s)
       | (Some (p, buf), s1) =>
           let '(ok, s2) := disk_write s1 (cluster_addr (f_vol s) c) (splice buf woff bytes) (bytesPerCluster (f_vol s)) in
           (Some ok, fat_free s2 p (bytesPerCluster (f_vol s)))
       end
     else
       let '(ok, s) := disk_write s (cluster_addr (f_vol s) c) bytes (bytesPerCluster (f_vol s)) in (Some ok, s)) = (ok, s') /\
    writes s s' (fun x => caddr (f_vol s) c + woff <= x < caddr (f_vol s) c + woff + n) /\
    (forall i, 0 <= i < n -> pbyte s' (caddr (f_vol s) c + woff + i) = byte_at bytes i \/
       pbyte s' (caddr (f_vol s) c + woff + i) = pbyte s (caddr (f_vol s) c + woff + i)) /\
    (ok = Some true -> forall i, 0 <= i < n -> pbyte s' (caddr (f_vol s) c + woff + i) = byte_at bytes i) /\
    (settled (f_ata s) -> vol_in_part s ->
       ok = Some true \/ out_of_memory (f_heap s) (bytesPerCluster (f_vol s) + 1024)).
Proof.
  intros Hok Hc Hw Hn Hmin Hbl. pose proof (fo_vol _ Hok) as Hv. destruct (bpc_pos _ Hv) as [Hb _].
  pose proof (vo_cluster _ Hv).
  destruct ((0 <? woff) || _) eqn:Hpart.
  - destruct (read_cluster_spec s c Hok Hc) as (r & s1 & -> & R1 & Hr).
    destruct (reads_vol _ _ R1) as [Hv1 _]. destruct r as [[p buf]|].
    2: { destruct Hr as [Hr Hoom]. exists None, s1. split; [done|].
         split; [|split; [intros; right; apply R1|split; [done|intros; right; by apply Hoom]]].
         constructor; [apply R1|apply R1|done|]. intros x _. apply R1. }
    destruct Hr as (Hp & Hplus & Hl & Hbytes).
    destruct (write_cluster_spec s1 c (splice buf woff bytes) woff n bytes) as (ok & s2 & He & W2 & Hor & Hyes & Hh2 & Hsucc);
      rewrite ?Hv1; try done; try apply R1; try lia.
    { rewrite zlen_splice by lia. done. }
    { intros k Hk Hnk. unfold byte_at. rewrite zget_splice by lia. rewrite decide_False by lia.
      fold (byte_at buf k). rewrite Hbytes by lia. symmetry. apply R1. }
    { intros k Hk. unfold byte_at. rewrite zget_splice by lia. rewrite decide_True by lia. done. }
    rewrite Hv1 in He. rewrite He. rewrite Hv1 in W2, Hor, Hyes.
    destruct (free_reads (f_heap s) s2 p (bytesPerCluster (f_vol s)) (wr_ok _ _ _ W2)) as [R3 Heq3]; [lia|by rewrite Hh2|].
    exists (Some ok), (fat_free s2 p (bytesPerCluster (f_vol s))). split; [done|]. split; [|split; [|split]].
    + constructor; [|apply R3|done|].
      * eapply io_step_trans; [apply R1|]. eapply io_step_trans; [apply W2|apply R3].
      * intros x Hx. by rewrite (rd_bytes _ _ R3), (wr_out _ _ _ W2), (rd_bytes _ _ R1).
    + intros i Hi. rewrite (rd_bytes _ _ R3). rewrite <-(rd_bytes _ _ R1). by apply Hor.
    + intros [= ->] i Hi. rewrite (rd_bytes _ _ R3). by apply Hyes.
    + intros Hs Hvp. left. f_equal. apply Hsucc; [by apply R1|]. by eapply vol_in_part_step; [apply R1|].
  - assert (woff = 0) as -> by lia. assert (n = bytesPerCluster (f_vol s)) as Hnb by lia.
    destruct (write_cluster_spec s c bytes 0 n bytes) as (ok & s2 & He & W2 & Hor & Hyes & _ & Hsucc); try done; try lia.
    { intros k Hk. f_equal. lia. }
    rewrite He. exists (Some ok), s2. split; [done|]. split; [done|]. split; [done|].
    split; [intros [= ->]; by apply Hyes|]. intros Hs Hvp. left. f_equal. by apply Hsucc.
Qed.

(** Byte [x] is one of bytes [from .. to_ - 1] of the file that owns [l]. *)
Definition in_file v l (from to_ x : Z) : Prop :=
  exists k, from <= k < to_ /\ 0 <= k < zlen l * bytesPerCluster v /\ x = file_pos v l k.

(** Positions of a file are distinct. *)
Lemma file_pos_inj v l i j :
  vol_ok v -> NoDup l -> 0 <= i < zlen l * bytesPerCluster v -> 0 <= j < zlen l * bytesPerCluster v ->
  file_pos v l i = file_pos v l j -> i = j.
Proof.
  intros Hv Hnd Hi Hj He. destruct (bpc_pos v Hv) as [Hb _].
  destruct (file_pos_cluster v l i Hv Hi) as (c & Hzc & _ & Hpc & Hic).
  destruct (file_pos_cluster v l j Hv Hj) as (d & Hzd & _ & Hpd & Hid).
  rewrite He in Hic. pose proof (clusters_apart v c d _ Hv Hic Hid) as <-.
  pose proof (zget_NoDup _ _ _ _ Hnd Hzc Hzd) as Hq. rewrite Hpc, Hpd in He.
  rewrite (Z.div_mod i (bytesPerCluster v)), (Z.div_mod j (bytesPerCluster v)) by lia. rewrite Hq. lia.
Qed.

Lemma in_file_tail v c l from to_ x :
  0 < bytesPerCluster v -> 0 <= from -> in_file v l from to_ x ->
  in_file v (c :: l) (from + bytesPerCluster v) (to_ + bytesPerCluster v) x.
Proof.
  intros Hb Hf (k & Hk & Hkr & ->). exists (k + bytesPerCluster v). split; [lia|]. rewrite zlen_cons. split; [lia|].
  destruct (file_pos_cons v c l (k + bytesPerCluster v) Hb ltac:(lia)) as [_ ->]; [|lia]. by rewrite Z.add_simpl_r.
Qed.

(** What a run of the loop has done: [upto] bytes from [from] on are those of [data] from
    [done_] on; of the bytes it was to write the others are new or old. *)
Record written s s' l (from size done_ upto : Z) : Prop := {
  wt_new k : 0 <= k < upto -> file_byte s' l (from + k) = data (done_ + k);
  wt_or k : 0 <= k < size -> from + k < zlen l * bytesPerCluster (f_vol s) ->
    file_byte s' l (from + k) = data (done_ + k) \/ file_byte s' l (from + k) = file_byte s l (from + k) }.

(** The drive works and every byte of the buffer can be fetched. *)
Definition unhindered s : Prop :=
  settled (f_ata s) /\ vol_in_part s /\ forall k n, 0 <= n -> fetch k n <> None.

Lemma write_loop_spec fuel s c rest woff remaining done_ :
  fat_ok s -> is_chain (f_vol s) (fat_table s) c (c :: rest) -> 0 <= woff < bytesPerCluster (f_vol s) ->
  0 <= remaining -> 0 <= done_ -> (Z.to_nat remaining < fuel)%nat ->
  exists r s', write_loop fuel s fetch c woff remaining done_ = (r, s') /\
    writes s s' (in_file (f_vol s) (c :: rest) woff (woff + remaining)) /\
    exists upto, 0 <= upto <= remaining /\ woff + upto <= Z.max woff (zlen (c :: rest) * bytesPerCluster (f_vol s)) /\
      written s s' (c :: rest) woff remaining done_ upto /\ (r = None \/ r = Some (done_ + upto)) /\
      (unhindered s -> woff + remaining <= zlen (c :: rest) * bytesPerCluster (f_vol s) ->
         r = Some (done_ + remaining) \/ out_of_memory (f_heap s) (bytesPerCluster (f_vol s) + 1024)).
Proof.
  revert s c rest woff remaining done_. induction fuel as [|fuel IH];
    intros s c rest woff remaining done_ Hok Hc Hw Hr Hd Hf; [lia|].
  cbn [write_loop]. pose proof Hc as (_ & Hvc & Hrest). pose proof (proj1 (valid_range _ _) Hvc) as Hcr.
  pose proof (fo_vol _ Hok) as Hv. destruct (bpc_pos _ Hv) as [Hb _].
  pose proof (is_chain_NoDup _ _ _ _ Hc) as Hnd.
  assert (Hstop : (remaining = 0 \/ ~ unhindered s) -> forall P, writes s s P /\ exists upto, 0 <= upto <= remaining /\
    woff + upto <= Z.max woff (zlen (c :: rest) * bytesPerCluster (f_vol s)) /\
    written s s (c :: rest) woff remaining done_ upto /\ (Some done_ = None \/ Some done_ = Some (done_ + upto)) /\
    (unhindered s -> woff + remaining <= zlen (c :: rest) * bytesPerCluster (f_vol s) ->
       Some done_ = Some (done_ + remaining) \/ out_of_memory (f_heap s) (bytesPerCluster (f_vol s) + 1024))).
  { intros Hwhy P. split; [by apply writes_refl|]. exists 0. split; [lia|]. split; [lia|]. split; [|split].
    - constructor; [lia|]. intros k Hk _. by right.
    - right. f_equal. lia.
    - intros Hun _. left. f_equal. destruct Hwhy as [->|Hn]; [lia|done]. }
  destruct (remaining <=? 0) eqn:Hr0.
  { exists (Some done_), s. split; [done|]. apply Hstop. left. lia. }
  set (n := if remaining <? bytesPerCluster (f_vol s) - woff then remaining else bytesPerCluster (f_vol s) - woff).
  assert (Hn : n = Z.min remaining (bytesPerCluster (f_vol s) - woff)) by (unfold n; destruct (_ <? _) eqn:?; lia).
  destruct (fetch done_ n) as [bytes|] eqn:Hfe.
  2: { exists (Some done_), s. split; [done|]. apply Hstop. right. intros (_ & _ & Hun). apply (Hun done_ n); [lia|done]. }
  destruct (fetch_data _ _ _ Hfe) as [Hbl Hby].
  destruct (write_step_spec s c woff remaining n bytes Hok) as (ok & s1 & -> & W1 & Hor & Hyes & Hgo);
    [lia|lia|lia|done|done|].
  destruct (io_step_vol _ _ (wr_step _ _ _ W1)) as (Hv1 & Ht1 & _).
  pose proof (zlen_nonneg rest) as Hzr.
  assert (Hcp : forall k, 0 <= k < n -> file_pos (f_vol s) (c :: rest) (woff + k) = caddr (f_vol s) c + woff + k).
  { intros k Hk. destruct (file_pos_cons (f_vol s) c rest (woff + k) Hb ltac:(lia)) as [-> _]; lia. }
  assert (HW1 : writes s s1 (in_file (f_vol s) (c :: rest) woff (woff + remaining))).
  { eapply writes_trans; [exact W1|apply (writes_refl s1 (fun _ => False)), W1| |done].
    intros x Hx. cbv beta in Hx. exists (x - caddr (f_vol s) c). split; [lia|]. rewrite zlen_cons. split; [nia|].
    replace (x - caddr (f_vol s) c) with (woff + (x - caddr (f_vol s) c - woff)) by lia. rewrite Hcp by lia. lia. }
  assert (Hwt1 : forall upto, upto = 0 \/ upto = n /\ ok = Some true ->
    written s s1 (c :: rest) woff remaining done_ upto).
  { intros upto Hup. unfold file_byte in *. constructor; unfold file_byte; rewrite Hv1.
    - intros k Hk. assert (upto = n /\ ok = Some true) as [-> Hot] by (destruct Hup as [->|?]; [lia|done]).
      rewrite Hcp by lia. rewrite (Hyes Hot) by lia. by apply Hby.
    - intros k Hk Hkl. destruct (decide (k < n)).
      + rewrite Hcp by lia. destruct (Hor k ltac:(lia)) as [->|?]; [left; apply Hby; lia|by right].
      + right. apply W1. intros Hx. assert (bytesPerCluster (f_vol s) <= woff + k) by lia.
        destruct (file_pos_cons (f_vol s) c rest (woff + k) Hb ltac:(lia)) as [_ Hge]. rewrite Hge in Hx by lia.
        destruct (file_pos_cluster (f_vol s) rest (woff + k - bytesPerCluster (f_vol s)) Hv) as (d & _ & Hd2 & _ & Hic);
          [rewrite zlen_cons in Hkl; lia|].
        assert (Hicc : in_cluster (f_vol s) c (file_pos (f_vol s) rest (woff + k - bytesPerCluster (f_vol s))))
          by (unfold in_cluster; lia).
        pose proof (clusters_apart _ _ _ _ Hv Hic Hicc) as ->. by apply NoDup_cons in Hnd as [? _]. }
  destruct ok as [[|]|].
  2: { exists (Some done_), s1. split; [done|]. split; [done|]. exists 0. split; [lia|]. split; [lia|].
       split; [apply Hwt1; by left|]. split; [right; f_equal; lia|].
       intros (Hs & Hvp & _) _. destruct (Hgo Hs Hvp) as [?|?]; [done|by right]. }
  2: { exists None, s1. split; [done|]. split; [done|]. exists 0. split; [lia|]. split; [lia|].
       split; [apply Hwt1; by left|]. split; [by left|].
       intros (Hs & Hvp & _) _. destruct (Hgo Hs Hvp) as [?|?]; [done|by right]. }
  rewrite Ht1. assert (Hdone : exists r s', (Some (done_ + n), s1) = (r, s') /\
    writes s s' (in_file (f_vol s) (c :: rest) woff (woff + remaining)) /\
    exists upto, 0 <= upto <= remaining /\ woff + upto <= Z.max woff (zlen (c :: rest) * bytesPerCluster (f_vol s)) /\
      written s s' (c :: rest) woff remaining done_ upto /\ (r = None \/ r = Some (done_ + upto)) /\
      (rest = [] -> woff + remaining <= zlen (c :: rest) * bytesPerCluster (f_vol s) -> r = Some (done_ + remaining))).
  { exists (Some (done_ + n)), s1. split; [done|]. split; [done|]. exists n. split; [lia|].
    split; [rewrite zlen_cons; nia|]. split; [apply Hwt1; by right|]. split; [by right|].
    intros -> Hfit. rewrite zlen_cons, zlen_nil in Hfit. f_equal. lia. }
  destruct (fat_valid_cluster (f_vol s) (tget (fat_table s) c)) eqn:Hnv.
  2: { destruct Hdone as (r & s' & He & Hwr & upto & Hu1 & Hu2 & Hwt & Hru & Hfin).
       exists r, s'. split; [done|]. split; [done|]. exists upto. do 4 (split; [done|]). intros _ Hfit. left.
       apply Hfin; [|done]. destruct rest as [|d rest]; [done|]. destruct Hrest as (-> & Hnv2 & _). congruence. }
  destruct rest as [|d rest]; [by rewrite Hrest in Hnv|]. clear Hdone.
  assert (Hd2 : tget (fat_table s) c = d) by (by destruct Hrest as (-> & _)). rewrite Hd2 in *.
  assert (Hbv : bytesPerCluster (f_vol s1) = bytesPerCluster (f_vol s)) by (by rewrite Hv1).
  destruct (IH s1 d rest 0 (remaining - n) (done_ + n)) as (r & s2 & -> & W2 & upto & Hup & Hupl & [Wn Wo] & Hres & Hfin);
    [apply W1|by rewrite Hv1, Ht1|lia|lia|lia|lia|]. rewrite Hv1 in *.
  assert (Htail : forall k, n <= k < remaining -> 
    file_pos (f_vol s) (c :: d :: rest) (woff + k) = file_pos (f_vol s) (d :: rest) (0 + (k - n)) /\
    woff + k = bytesPerCluster (f_vol s) + (k - n)).
  { intros k Hk. destruct (file_pos_cons (f_vol s) c (d :: rest) (woff + k) Hb ltac:(lia)) as [_ ->]; [|lia].
    split; [f_equal; lia|lia]. }
  destruct (Hwt1 n ltac:(by right)) as [Wn1 Wo1]. unfold file_byte in Wn, Wo, Wn1, Wo1.
  destruct (io_step_vol _ _ (wr_step _ _ _ W2)) as (Hv2 & _). rewrite Hv1 in Hv2.
  rewrite Hv1 in *. rewrite Hv2 in *.
  assert (Hkeep : forall k, 0 <= k < n -> pbyte s2 (file_pos (f_vol s) (c :: d :: rest) (woff + k)) =
    pbyte s1 (file_pos (f_vol s) (c :: d :: rest) (woff + k))).
  { intros k Hk. apply W2. intros (j & _ & Hjr & Hj).
    destruct (file_pos_cluster (f_vol s) (d :: rest) j Hv Hjr) as (e & _ & Hein & _ & Hie).
    rewrite <-Hj, Hcp in Hie by lia.
    assert (Hicc : in_cluster (f_vol s) c (caddr (f_vol s) c + woff + k)) by (unfold in_cluster; lia).
    pose proof (clusters_apart _ _ _ _ Hv Hie Hicc) as ->. by apply NoDup_cons in Hnd as [? _]. }
  exists r, s2. split; [done|]. split.
  { eapply writes_trans; [exact HW1|exact W2|done|]. intros x (k & Hk & Hkr & ->).
    destruct (Htail (n + k) ltac:(lia)) as [Hp Hpk]. exists (woff + (n + k)). split; [lia|].
    rewrite zlen_cons. split; [lia|]. rewrite Hp. f_equal. lia. }
  exists (n + upto). split; [lia|]. split.
  { rewrite (zlen_cons c). pose proof (zlen_nonneg (d :: rest)).
    destruct (decide (n < remaining)) as [Hlt|]; [destruct (Htail n ltac:(lia)) as [_ ?]; lia|].
    assert (0 <= zlen (d :: rest) * bytesPerCluster (f_vol s)) by nia. lia. }
  split; [|split; [destruct Hres as [->| ->]; [by left|right; f_equal; lia]|]].
  2: { intros (Hs & Hvp & Hfe2) Hfit. rewrite (zlen_cons c) in Hfit. pose proof (zlen_nonneg (d :: rest)).
       destruct Hfin as [->|Hoom].
       - split; [by apply W1|]. split; [by eapply vol_in_part_step; [apply W1|]|done].
       - destruct (decide (n < remaining)); [lia|nia].
       - left. f_equal. lia.
       - right. eapply out_of_memory_mono; [apply W1|reflexivity|done]. }
  constructor; unfold file_byte; rewrite Hv2.
  - intros k Hk. destruct (decide (k < n)).
    + rewrite Hkeep by lia. apply Wn1. lia.
    + destruct (Htail k ltac:(lia)) as [-> _]. rewrite Wn by lia. f_equal. lia.
  - intros k Hk Hkl. destruct (decide (k < n)).
    + rewrite Hkeep by lia. by apply Wo1.
    + pose proof (Wo1 k Hk Hkl) as Hs1. destruct (Htail k ltac:(lia)) as [He Hpk]. rewrite He in *.
      rewrite (zlen_cons c) in Hkl. destruct (Wo (k - n) ltac:(lia) ltac:(lia)) as [->| ->]; [|done].
      left. f_equal. lia.
Qed.

Lemma file_at_writes s s' P start l size :
  writes s s' P -> file_at s start l size -> file_at s' start l size.
Proof.
  intros W F. destruct (io_step_vol _ _ (wr_step _ _ _ W)) as (_ & Ht & _).
  apply (file_at_agree s); [apply io_fat_step; [apply W|apply W]|by rewrite Ht|done].
Qed.

Lemma in_file_skip v l1 l2 from to_ x :
  0 < bytesPerCluster v -> 0 <= from -> in_file v l2 from to_ x ->
  in_file v (l1 ++ l2) (zlen l1 * bytesPerCluster v + from) (zlen l1 * bytesPerCluster v + to_) x.
Proof.
  intros Hb Hf (k & Hk & Hkr & ->). exists (zlen l1 * bytesPerCluster v + k). split; [lia|].
  rewrite zlen_app. pose proof (zlen_nonneg l1). split; [nia|]. symmetry. apply file_pos_skip; lia.
Qed.

(** C38: the write loop of a file, from any offset inside its clusters: what it reports as
    written holds the bytes of the buffer; every other byte it was to write is new or
    old; no other byte of the disk, and so no other file and no table, is touched.
    It writes everything when the drive works, the buffer stays mapped and the kernel
    has memory for a cluster. *)
Theorem fat_write_contents s start l size offset n :
  fat_ok s -> file_at s start l size -> 0 <= offset -> 0 < n ->
  offset + n <= zlen l * bytesPerCluster (f_vol s) ->
  exists cur r s',
    skip_clusters (Z.to_nat (offset / bytesPerCluster (f_vol s))) (f_vol s) (fat_table s) start = Some cur /\
    write_loop (S (Z.to_nat n)) s fetch cur (offset mod bytesPerCluster (f_vol s)) n 0 = (r, s') /\
    fat_ok s' /\ file_at s' start l size /\ heap_eq (f_heap s) (f_heap s') /\
    (forall x, ~ in_file (f_vol s) l offset (offset + n) x -> pbyte s' x = pbyte s x) /\
    (forall k, 0 <= k < n -> file_byte s' l (offset + k) = data k \/
       file_byte s' l (offset + k) = file_byte s l (offset + k)) /\
    (forall w, r = Some w -> 0 <= w <= n /\ forall k, 0 <= k < w -> file_byte s' l (offset + k) = data k) /\
    (unhindered s -> r = Some n \/ out_of_memory (f_heap s) (bytesPerCluster (f_vol s) + 1024)).
Proof.
  intros Hok F Ho Hn Hfit. pose proof (fo_vol _ Hok) as Hv. destruct (bpc_pos _ Hv) as [Hb _].
  destruct (file_head _ _ _ _ F) as (rest & -> & Hc). set (bpc := bytesPerCluster (f_vol s)) in *.
  pose proof (Z.div_mod offset bpc ltac:(lia)) as Hdm. pose proof (Z.mod_pos_bound offset bpc Hb) as Hmb.
  pose proof (Z.div_pos offset bpc Ho Hb) as Hdp.
  pose proof (skip_clusters_spec (Z.to_nat (offset / bpc)) _ _ _ _ Hc) as Hskip.
  destruct (skip_clusters _ _ _ _) as [cur|].
  2: { assert (zlen (start :: rest) * bpc <= offset); [|lia]. rewrite zlen_cons. unfold zlen. nia. }
  destruct Hskip as (l1 & rest' & Hl & Hl1 & Hcur). rewrite Hl in *.
  assert (Hl1z : zlen l1 = offset / bpc) by (unfold zlen; lia).
  destruct (write_loop_spec (S (Z.to_nat n)) s cur rest' (offset mod bpc) n 0 Hok Hcur)
    as (r & s' & He & W & upto & Hup & Hup2 & [Wn Wo] & Hr & Hfin); [lia|lia|lia|lia|].
  destruct (io_step_vol _ _ (wr_step _ _ _ W)) as (Hv' & _).
  assert (Hpos : forall s0 k, f_vol s0 = f_vol s -> 0 <= k ->
    file_byte s0 (l1 ++ cur :: rest') (offset + k) = file_byte s0 (cur :: rest') (offset mod bpc + k)).
  { intros s0 k Hv0 Hk. unfold file_byte. rewrite Hv0. f_equal.
    replace (offset + k) with (zlen l1 * bpc + (offset mod bpc + k)) by lia. apply file_pos_skip; [done|lia]. }
  assert (Hfit' : offset mod bpc + n <= zlen (cur :: rest') * bpc) by (rewrite zlen_app in Hfit; lia).
  exists cur, r, s'. split; [done|]. split; [done|]. split; [apply W|]. split; [by eapply file_at_writes|].
  split; [apply W|]. split; [|split; [|split]].
  - intros x Hx. apply W. intros Hin. apply Hx.
    replace offset with (zlen l1 * bpc + offset mod bpc) by lia.
    replace (zlen l1 * bpc + offset mod bpc + n) with (zlen l1 * bpc + (offset mod bpc + n)) by lia.
    apply in_file_skip; [done|lia|done].
  - intros k Hk. rewrite !Hpos by (done || lia). destruct (Wo k Hk) as [Hw|Hw]; [fold bpc; lia|left|right]; done.
  - intros w ->. destruct Hr as [Hr|[= ->]]; [done|]. split; [lia|]. intros k Hk. rewrite Hpos by (done || lia).
    rewrite Wn by lia. done.
  - intros Hun. destruct (Hfin Hun Hfit') as [->|?]; [by left|by right].
Qed.

End writing.

(** ** Witnesses: the volume of FatTable, with the page tables of TaskMem's task in its heap *)

Lemma fat_read_file_correct_witness :
  exists p l s', fat_read_file 2 700 demo_fat = Some (Some (p, l), s') /\ p <> 0 /\
    zget l 699 = Some (file_byte demo_fat [2; 3] 699).
Proof.
  destruct (fat_read_file_correct demo_fat 2 [2; 3] 700 700 (demo_fat_ok []) (demo_file_2 []) ltac:(lia))
    as (r & s' & He & _ & Hr).
  { vm_compute. reflexivity. }
  assert (Hs : match fat_read_file 2 700 demo_fat with Some (Some _, _) => True | _ => False end)
    by (vm_compute; exact I).
  rewrite He in Hs. destruct r as [[p l]|]; [|destruct Hs].
  destruct Hr as (Hp & _ & Hl & Hb). exists p, l, s'. split; [exact He|]. split; [exact Hp|].
  assert (Hlen : zlen l = 700) by (rewrite Hl; vm_compute; reflexivity).
  destruct (zget_is_Some l 699 ltac:(lia)) as [b Hg]. rewrite Hg. f_equal.
  rewrite <-(Hb 699 ltac:(lia)). unfold byte_at. rewrite Hg. reflexivity.
Defined.

Definition user_fat : fat heap :=
  Fat (Io (ps_heap boot1) (Ata demo_fat_disk [] 0 2000)) demo_vol demo_table (replicate 256 false) 512 0 0 0.

Lemma user_fat_ok : fat_ok user_fat.
Proof.
  constructor; [apply demo_vol_ok|done|done|done|apply demo_table_u16|unfold part_ok; simpl; lia|].
  exact (pw_heap _ (fr_wf _ _ _ boot1_fresh)).
Qed.

Lemma demo_file_user : file_at user_fat 2 [2; 3] 700.
Proof. constructor; [by vm_compute|done|by vm_compute|vm_compute; split; discriminate]. Qed.

#[local] Instance demo_buffer : UserBuffer heap tmem 2097152 65536 :=
  task_user_buffer demo_task 2097152 65536 ltac:(lia) ltac:(lia) ltac:(lia).

Lemma fat_read_file_user_correct_witness :
  exists u' s', fat_read_file_user 2097152 65536 user_fat demo_tmem 2 2097352 500 150 = Some (150, u', s') /\
    ub_view u' 2097352 = Some (file_byte user_fat [2; 3] 500).
Proof.
  destruct (fat_read_file_user_correct 2097152 65536 user_fat demo_tmem 2 [2; 3] 700 2097352 500 150
    user_fat_ok demo_file_user) as (r & u' & s' & He & _ & _ & _ & _ & Hview & _); [|lia..|].
  { split; [exact demo_tm_ok|exact (demo_no_frames _)]. }
  assert (Hr : match fat_read_file_user 2097152 65536 user_fat demo_tmem 2 2097352 500 150 with
               | Some (r, _, _) => r = 150 | None => False end) by (vm_compute; reflexivity).
  rewrite He in Hr. subst r. exists u', s'. split; [exact He|].
  pose proof (Hview 0 ltac:(lia)) as Hv. exact Hv.
Defined.

(** A write of 600 bytes from byte 400 on: the end of one cluster and most of the next. *)
Definition demo_fetch (k n : Z) : option (list Z) :=
  if 0 <=? n then Some (replicate (Z.to_nat n) 9) else None.

Lemma fat_write_contents_witness :
  exists s', write_loop 601 demo_fat demo_fetch 2 400 600 0 = (Some 600, s') /\
    file_byte s' [2; 3] 999 = 9 /\ file_byte s' [2; 3] 1000 = file_byte demo_fat [2; 3] 1000.
Proof.
  assert (Hdata : forall k n bytes, demo_fetch k n = Some bytes ->
    zlen bytes = n /\ forall i, 0 <= i < n -> byte_at bytes i = 9).
  { unfold demo_fetch. intros k n bytes He. destruct (0 <=? n) eqn:Hn; [|discriminate He].
    injection He as <-. rewrite zlen_replicate. split; [lia|].
    intros i Hi. unfold byte_at. rewrite zget_replicate by lia. reflexivity. }
  destruct (fat_write_contents demo_fetch (fun _ => 9) Hdata demo_fat 2 [2; 3] 700 400 600 (demo_fat_ok []) (demo_file_2 []))
    as (cur & r & s' & Hc & He & _ & _ & _ & Hout & _ & Hw & _); [lia|lia|vm_compute; discriminate|].
  injection Hc as <-. change (write_loop 601 demo_fat demo_fetch 2 400 600 0 = (r, s')) in He.
  assert (Hr : fst (write_loop 601 demo_fat demo_fetch 2 400 600 0) = Some 600) by (vm_compute; reflexivity).
  rewrite He in Hr. simpl in Hr. subst r. exists s'. split; [exact He|].
  destruct (Hw 600 eq_refl) as [_ Hnew]. split; [exact (Hnew 599 ltac:(lia))|].
  assert (Hv : f_vol s' = demo_vol).
  { change s' with (snd (Some 600, s')). rewrite <-He. vm_compute. reflexivity. }
  unfold file_byte. rewrite Hv. apply Hout. intros (k & Hk & _ & Heq).
  assert (Hinj : 1000 = k).
  { apply (file_pos_inj demo_vol [2; 3]); [exact demo_vol_ok| | | |exact Heq].
    - refine (bool_decide_unpack _ _). vm_compute. exact I.
    - vm_compute. split; [discriminate|reflexivity].
    - change (zlen [2; 3] * bytesPerCluster demo_vol) with 1024. lia. }
  lia.
Defined.
