(* ===== verification/FatNames.v ===== *)
(** * The FAT16 file system: names and directory entries (fat.c)

    What the searches of FatDir find: the entry an update has stored, and a file
    that was just created under its name. *)

From S2P Require Import Prelude Memory CString Ata TaskMem Fat FatTable FatDir FatFile.

Local Open Scope Z_scope.
Local Open Scope monad_scope.

(** ** Lemmas: entries of a directory *)

(** An entry that is neither the end of the directory nor deleted. *)
Definition live (e : list Z) : Prop := byte_at e 0 <> 0 /\ byte_at e 0 <> 229.

(** Entry [j] is the first of this name. *)
Definition first_match (buf name ext : list Z) (i j : Z) : Prop :=
  live (dir_entry buf j) /\ fat_entry_matches_filename (dir_entry buf j) name ext = true /\
  forall k, i <= k < j -> byte_at (dir_entry buf k) 0 <> 0 /\
    (byte_at (dir_entry buf k) 0 = 229 \/ fat_entry_matches_filename (dir_entry buf k) name ext = false).

Lemma find_entry_spec n i buf name ext j :
  find_entry n i buf name ext = Some j <-> i <= j < i + Z.of_nat n /\ first_match buf name ext i j.
Proof.
  revert i. induction n as [|n IH]; intros i; cbn [find_entry].
  { split; [done|]. intros [? _]. lia. }
  assert (Hstep : forall b, (byte_at (dir_entry buf i) 0 <> 0 /\
      (byte_at (dir_entry buf i) 0 = 229 \/ fat_entry_matches_filename (dir_entry buf i) name ext = false)) ->
    (b = find_entry n (i + 1) buf name ext) ->
    b = Some j <-> i <= j < i + Z.of_nat (S n) /\ first_match buf name ext i j).
  { intros b Hi ->. rewrite IH. unfold first_match. split.
    - intros (Hj & Hl & Hm & Hk). split; [lia|]. split; [done|]. split; [done|]. intros k Hkr.
      destruct (decide (k = i)) as [->|]; [done|]. apply Hk. lia.
    - intros (Hj & Hl & Hm & Hk). assert (j <> i).
      { intros ->. destruct Hi as [? [Hd|Hm2]]; [by destruct Hl|congruence]. }
      split; [lia|]. split; [done|]. split; [done|]. intros k Hkr. apply Hk. lia. }
  destruct (byte_at (dir_entry buf i) 0 =? 0) eqn:H0.
  { split; [done|]. intros (Hj & [Hl _] & _ & Hk). destruct (decide (i = j)) as [->|]; [lia|].
    destruct (Hk i ltac:(lia)). lia. }
  destruct (byte_at (dir_entry buf i) 0 =? 229) eqn:H1.
  { apply Hstep; [|done]. split; [lia|left; lia]. }
  destruct (fat_entry_matches_filename (dir_entry buf i) name ext) eqn:H2; [|apply Hstep; [split; [lia|by right]|done]].
  split.
  - intros [= <-]. split; [lia|]. split; [split; lia|]. split; [done|]. lia.
  - intros (Hj & _ & _ & Hk). f_equal. destruct (decide (i = j)) as [|]; [done|].
    destruct (Hk i ltac:(lia)) as [_ [?|?]]; [lia|congruence].
Qed.

Lemma dir_entry_splice buf i k e :
  0 <= i -> 0 <= k -> zlen e = 32 -> (i + 1) * 32 <= zlen buf ->
  dir_entry (splice buf (i * DIR_SIZE) e) k = if decide (k = i) then e else dir_entry buf k.
Proof.
  intros Hi Hk He Hl. unfold dir_entry, DIR_SIZE.
  destruct (decide ((k + 1) * 32 <= zlen buf)) as [Hkl|Hkl].
  - apply (zget_ext_len _ _ 32).
    + rewrite zlen_slice; [done|lia|lia|rewrite zlen_splice; lia].
    + case_decide; [done|]. rewrite zlen_slice; lia.
    + intros j Hj. rewrite zget_slice by (rewrite ?zlen_splice; lia). rewrite zget_splice by lia.
      case_decide as Hki.
      * subst. rewrite decide_True by lia. f_equal. lia.
      * rewrite decide_False by lia. by rewrite zget_slice by lia.
  - rewrite decide_False by lia. unfold slice, splice, zlen in *. f_equal.
    rewrite drop_app. rewrite (drop_ge (take _ _)) by (rewrite length_take; lia).
    simpl. rewrite length_take, drop_app. rewrite (drop_ge e) by lia. simpl. rewrite drop_drop. f_equal. lia.
Qed.

Section names.
Context {H : Type} `{Allocator H}.
Implicit Types (s : fat H) (v : volume).

(** ** Lemmas: the place of a directory *)

(** The root directory fills whole sectors of its region; another directory has a cluster. *)
Definition dir_valid v (inroot : bool) (c : Z) : Prop :=
  if inroot then 0 < noRootEntries v < 65536 /\ (DIR_SIZE * noRootEntries v) mod 512 = 0 /\
    DIR_SIZE * noRootEntries v <= rootSize v * bytesPerSector v
  else 2 <= c < noClusters v.

Lemma dir_extent_spec v inroot c :
  vol_ok v -> dir_valid v inroot c ->
  let addr := fst (dir_extent v inroot c) in let size := snd (dir_extent v inroot c) in
  0 <= addr /\ addr mod 512 = 0 /\ 0 < size < 2 ^ 30 /\ size mod 512 = 0 /\ size mod 32 = 0 /\
  addr + size <= vol_end v /\ baseAddr + rootSector v * bytesPerSector v <= addr.
Proof.
  intros Hv Hd. destruct (bpc_pos v Hv) as [Hb Hb512]. unfold dir_extent, dir_valid in *. destruct inroot.
  - destruct Hd as (Hn & Hm & Hle). cbn [fst snd].
    pose proof (vo_root _ Hv). pose proof (vo_first _ Hv) as [? Hf]. destruct (vo_bps _ Hv) as [Hbp Hbm].
    pose proof (vo_end _ Hv). pose proof (vo_max _ Hv). pose proof (vo_clusters _ Hv). pose proof (vo_spc _ Hv).
    pose proof (vo_tables _ Hv). pose proof (vo_spf _ Hv). pose proof (vo_reserved _ Hv).
    assert (Hns : rootSector v + rootSize v <= noSectors v) by nia.
    assert (H0r : 0 <= rootSector v) by nia. unfold baseAddr, vol_end, DIR_SIZE in *.
    assert (Hend : rootSector v * bytesPerSector v + rootSize v * bytesPerSector v <= noSectors v * bytesPerSector v) by nia.
    assert (H0b : 0 <= rootSector v * bytesPerSector v) by nia.
    unfold root_addr, baseAddr. rewrite (u32_id (rootSector v * bytesPerSector v)) by lia. rewrite u32_id by lia.
    split; [lia|]. split; [apply mod512_add; [by apply mod512_mul|done]|]. split; [lia|]. split; [done|].
    split; [rewrite Z.mul_comm; apply Z.mod_mul; lia|]. lia.
  - cbn [fst snd]. destruct (cluster_addr_spec v c Hv Hd) as (-> & ? & ? & ? & ?). pose proof (vo_cluster _ Hv).
    split; [done|]. split; [done|]. split; [lia|]. split; [done|]. split; [|lia].
    apply Z.mod_divide in Hb512; [|lia]. destruct Hb512 as [k Hk]. rewrite Hk.
    replace (k * 512) with (k * 16 * 32) by lia. apply Z.mod_mul. lia.
Qed.

(** The bytes of a directory. *)
Definition dir_bytes s (inroot : bool) (c : Z) : list Z :=
  (fun j => pbyte s (fst (dir_extent (f_vol s) inroot c) + j)) <$> seqZ 0 (snd (dir_extent (f_vol s) inroot c)).

Lemma zlen_dir_bytes s inroot c : 0 <= snd (dir_extent (f_vol s) inroot c) ->
  zlen (dir_bytes s inroot c) = snd (dir_extent (f_vol s) inroot c).
Proof. intros. unfold zlen, dir_bytes. rewrite length_fmap, length_seqZ. lia. Qed.

Lemma zget_dir_bytes s inroot c j : 0 <= j < snd (dir_extent (f_vol s) inroot c) ->
  zget (dir_bytes s inroot c) j = Some (pbyte s (fst (dir_extent (f_vol s) inroot c) + j)).
Proof.
  intros Hj. unfold zget, dir_bytes. destruct (0 <=? j) eqn:?; [|lia].
  rewrite list_lookup_fmap, lookup_seqZ_lt by lia. simpl. do 3 f_equal. lia.
Qed.

Lemma read_dir_spec s inroot c :
  fat_ok s -> dir_valid (f_vol s) inroot c ->
  exists r s', disk_read s (fst (dir_extent (f_vol s) inroot c)) (snd (dir_extent (f_vol s) inroot c)) = (r, s') /\
    reads s s' /\
    match r with
    | None => heap_eq (f_heap s) (f_heap s') /\
        (settled (f_ata s) -> vol_in_part s ->
         out_of_memory (f_heap s) (snd (dir_extent (f_vol s) inroot c) + 1024))
    | Some (p, buf) => p <> 0 /\ buf = dir_bytes s inroot c /\
        heap_plus (f_heap s) (f_heap s') p (snd (dir_extent (f_vol s) inroot c))
    end.
Proof.
  intros Hok Hd. destruct (dir_extent_spec _ _ _ (fo_vol _ Hok) Hd) as (Ha & Ham & Hs & Hsm & _ & Hend & _).
  destruct (disk_read_spec s (fst (dir_extent (f_vol s) inroot c)) (snd (dir_extent (f_vol s) inroot c)) Hok)
    as (r & s' & He & Hst & Hok' & Hx & Hr); [lia|lia|lia|lia|].
  exists r, s'. split; [done|]. split; [by constructor|]. destruct r as [[p buf]|]; [|done].
  destruct Hr as (Hp & Hplus & Hl & Hb). split; [done|]. split; [|done].
  apply (zget_ext_len _ _ (snd (dir_extent (f_vol s) inroot c))); [done|apply zlen_dir_bytes; lia|].
  intros j Hj. rewrite zget_dir_bytes by done. destruct (zget_is_Some buf j ltac:(lia)) as [b Hgb].
  rewrite Hgb. f_equal. rewrite <-Hb by done. unfold byte_at. by rewrite Hgb.
Qed.

(** Freeing a buffer under a younger allocation. *)
Lemma free_under h h1 h2 p n q m :
  heap_plus h h1 p n -> heap_plus h1 h2 q m -> 0 < n < 2 ^ 31 - 4096 ->
  heap_plus h (al_free h2 p n) q m.
Proof.
  intros (W1 & M1 & P1 & F1 & U1) (W2 & M2 & P2 & F2 & U2) Hn.
  destruct (al_free_ok h2 n p W2 Hn M1) as [W3 U3].
  { intros k Hk. apply U2. left. apply U1. by right. }
  split; [done|]. split; [done|]. split; [done|]. split.
  - intros k Hk Hu. apply (F2 k Hk), U1. by left.
  - intros k. rewrite U3, U2, U1. split.
    + tauto.
    + intros [Hu|Hq]; split; try tauto.
      * intros Hk. by apply (F1 k).
      * intros Hk. apply (F2 k Hq), U1. by right.
Qed.

Lemma fat_free_eq s p n : p <> 0 -> 0 < n ->
  fat_free s p n = with_io s (Io (al_free (f_heap s) p n) (io_ata (f_io s))).
Proof.
  intros Hp Hn. unfold fat_free, io_free.
  destruct (p =? 0) eqn:?; [lia|]. destruct (n =? 0) eqn:?; [lia|]. done.
Qed.

Lemma free_buf_eq s p n : p <> 0 -> free_buf p n s = Some (tt, fat_free s p n).
Proof. intros Hp. unfold free_buf. destruct (p =? 0) eqn:?; [lia|done]. Qed.

(** [free_buf] of the buffer of a read, after which the 32 bytes at [q] stay allocated. *)
Lemma free_after_malloc s s1 s2 p n q :
  fat_ok s -> reads s s1 -> heap_plus (f_heap s) (f_heap s1) p n -> p <> 0 -> 0 < n < 2 ^ 31 - 4096 ->
  fat_malloc s1 DIR_SIZE = (q, s2) -> q <> 0 ->
  reads s (fat_free s2 p n) /\ heap_plus (f_heap s) (f_heap (fat_free s2 p n)) q DIR_SIZE.
Proof.
  intros Hok R1 Hplus Hp Hn Hm Hq.
  destruct (fat_malloc_spec s1 DIR_SIZE (rd_ok _ _ R1)) as (q' & s2' & Hm' & Hst & Hok2 & Ha & Hc);
    [unfold DIR_SIZE; lia|].
  rewrite Hm in Hm'. injection Hm' as <- <-. destruct Hc as [[? _]|[_ Hplus2]]; [done|].
  pose proof (free_under _ _ _ _ _ _ _ Hplus Hplus2 Hn) as Hfin.
  assert (R2 : reads s1 s2) by (constructor; [done|done|intros x; unfold pbyte; by rewrite Ha]).
  rewrite fat_free_eq by (done || lia). split; [|exact Hfin].
  eapply reads_trans; [exact R1|]. eapply reads_trans; [exact R2|].
  apply (reads_heap s2 (f_io s2)); [|done|apply Hfin].
  replace (with_io s2 (f_io s2)) with s2 by (by destruct s2). by apply reads_refl.
Qed.

Lemma free_after_read s s1 p n :
  reads s s1 -> heap_plus (f_heap s) (f_heap s1) p n -> 0 < n < 2 ^ 31 - 4096 ->
  reads s (fat_free s1 p n) /\ heap_eq (f_heap s) (f_heap (fat_free s1 p n)).
Proof.
  intros R1 Hplus Hn. destruct (free_reads _ _ _ _ (rd_ok _ _ R1) Hn Hplus) as [R2 He].
  split; [by eapply reads_trans|done].
Qed.

(** ** Lemmas: searching a directory *)

Definition find_in (inroot : bool) (c : Z) (name ext : list Z) : ST (fat H) (dirp) :=
  if inroot then fat_find_in_root name ext else fat_find_in_dir c name ext.

Definition dotdot (name : list Z) : bool := (byte_at name 0 =? 46) && (byte_at name 1 =? 46).

(** What a search of a directory with the bytes [buf] may give. *)
Definition find_result s s' (size : Z) (buf name ext : list Z) (d : dirp) : Prop :=
  if fst d =? 0 then
    find_entry (entries_of size) 0 buf name ext = None \/
    (settled (f_ata s) -> vol_in_part s -> out_of_memory (f_heap s) (size + 1024))
  else
    exists j, find_entry (entries_of size) 0 buf name ext = Some j /\ snd d = dir_entry buf j /\
      heap_plus (f_heap s) (f_heap s') (fst d) DIR_SIZE.

(** The end of a search that has read the directory to [p] and found entry [j]. *)
Lemma find_found s s1 p size buf name ext j q s2 :
  fat_ok s -> reads s s1 -> heap_plus (f_heap s) (f_heap s1) p size -> p <> 0 -> 0 < size < 2 ^ 31 - 4096 ->
  find_entry (entries_of size) 0 buf name ext = Some j -> fat_malloc s1 DIR_SIZE = (q, s2) ->
  if q =? 0 then exists h p, heap_plus (f_heap s) h p size /\ fst (al_malloc h DIR_SIZE) = 0
  else reads s (fat_free s2 p size) /\
    find_result s (fat_free s2 p size) size buf name ext (q, dir_entry buf j).
Proof.
  intros Hok R1 Hplus Hp Hs Hf Hm. destruct (q =? 0) eqn:Hq.
  - exists (f_heap s1), p. split; [done|]. apply fat_malloc_fst in Hm. lia.
  - destruct (free_after_malloc s s1 s2 p size q) as [R3 Hp3]; try done; [lia|].
    split; [done|]. unfold find_result. cbn [fst snd]. rewrite Hq. by exists j.
Qed.

Lemma find_in_spec s inroot c name ext :
  fat_ok s -> dir_valid (f_vol s) inroot c -> (inroot = false -> dotdot name = false) ->
  let size := snd (dir_extent (f_vol s) inroot c) in
  match find_in inroot c name ext s with
  | None => exists h p, heap_plus (f_heap s) h p size /\ fst (al_malloc h DIR_SIZE) = 0
  | Some (d, s') => reads s s' /\ find_result s s' size (dir_bytes s inroot c) name ext d
  end.
Proof.
  intros Hok Hd Hdot size. destruct (dir_extent_spec _ _ _ (fo_vol _ Hok) Hd) as (_ & _ & Hs & _ & _ & _ & _).
  fold size in Hs. destruct (read_dir_spec s inroot c Hok Hd) as (r & s1 & He & R1 & Hr). fold size in He, Hr.
  unfold find_in. destruct inroot.
  - assert (Hx : dir_extent (f_vol s) true 0 = dir_extent (f_vol s) true c) by done.
    unfold fat_find_in_root. rewrite Hx. rewrite (surjective_pairing (dir_extent _ _ _)). fold size. rewrite He.
    destruct r as [[p buf]|]; [|split; [done|by right; apply Hr]]. destruct Hr as (Hp & -> & Hplus).
    destruct (fat_malloc s1 DIR_SIZE) as [q s2] eqn:Hm.
    destruct (find_entry _ _ _ _ _) as [j|] eqn:Hf.
    + pose proof (find_found s s1 p size _ name ext j q s2 Hok R1 Hplus Hp ltac:(lia) Hf Hm) as Hfound.
      destruct (q =? 0); [done|]. unfold st_bind. by rewrite free_buf_eq.
    + unfold st_bind. rewrite free_buf_eq by done. split; [|by left].
      destruct (decide (q = 0)) as [->|Hq].
      * destruct (fat_malloc_spec s1 DIR_SIZE (rd_ok _ _ R1)) as (q' & s2' & Hm' & _ & _ & _ & Hc);
          [unfold DIR_SIZE; lia|]. rewrite Hm in Hm'. injection Hm' as <- <-.
        destruct Hc as [[_ ->]|[? _]]; [|done]. by eapply (free_after_read s s1); [| |lia].
      * eapply (free_after_malloc s s1); try done. lia.
  - unfold fat_find_in_dir. rewrite (surjective_pairing (dir_extent _ _ _)). fold size. rewrite He.
    destruct r as [[p buf]|]; [|split; [done|by right; apply Hr]]. destruct Hr as (Hp & -> & Hplus).
    pose proof (Hdot eq_refl) as Hdd. unfold dotdot in Hdd. rewrite Hdd.
    destruct (find_entry _ _ _ _ _) as [j|] eqn:Hf.
    + destruct (fat_malloc s1 DIR_SIZE) as [q s2] eqn:Hm.
      pose proof (find_found s s1 p size _ name ext j q s2 Hok R1 Hplus Hp ltac:(lia) Hf Hm) as Hfound.
      destruct (q =? 0); [done|]. unfold st_bind. by rewrite free_buf_eq.
    + unfold st_bind. rewrite free_buf_eq by done. split; [|by left].
      by eapply (free_after_read s s1); [| |lia].
Qed.

Definition in_dir v (inroot : bool) (c x : Z) : Prop :=
  fst (dir_extent v inroot c) <= x < fst (dir_extent v inroot c) + snd (dir_extent v inroot c).

Lemma dir_bytes_ext s s' inroot c : f_vol s' = f_vol s -> (forall x, pbyte s' x = pbyte s x) ->
  dir_bytes s' inroot c = dir_bytes s inroot c.
Proof. intros Hv Hx. unfold dir_bytes. rewrite Hv. apply list_fmap_ext. intros ? ? _. apply Hx. Qed.

Lemma in_extent_entry s inroot c buf name ext j :
  dir_valid (f_vol s) inroot c -> fat_ok s ->
  find_entry (entries_of (snd (dir_extent (f_vol s) inroot c))) 0 buf name ext = Some j ->
  0 <= j /\ (j + 1) * 32 <= snd (dir_extent (f_vol s) inroot c).
Proof.
  intros Hd Hok Hf. apply find_entry_spec in Hf as [Hj _].
  destruct (dir_extent_spec _ _ _ (fo_vol _ Hok) Hd) as (_ & _ & Hs & _ & Hm & _ & _).
  unfold entries_of, DIR_SIZE in Hj. pose proof (Z.div_mod (snd (dir_extent (f_vol s) inroot c)) 32 ltac:(lia)). lia.
Qed.

(** Writing the directory [buf] back. *)
Lemma write_dir_spec s inroot c buf :
  fat_ok s -> dir_valid (f_vol s) inroot c -> zlen buf = snd (dir_extent (f_vol s) inroot c) ->
  exists ok s', disk_write s (fst (dir_extent (f_vol s) inroot c)) buf (snd (dir_extent (f_vol s) inroot c)) = (ok, s') /\
    writes s s' (in_dir (f_vol s) inroot c) /\ f_heap s' = f_heap s /\
    (ok = true -> dir_bytes s' inroot c = buf) /\ (settled (f_ata s) -> vol_in_part s -> ok = true).
Proof.
  intros Hok Hd Hl. destruct (dir_extent_spec _ _ _ (fo_vol _ Hok) Hd) as (Ha & Ham & Hs & Hsm & _ & Hend & _).
  destruct (disk_write_spec s (fst (dir_extent (f_vol s) inroot c)) buf (snd (dir_extent (f_vol s) inroot c)) Hok)
    as (ok & s' & He & Hst & Hok' & Hh & Hout & Hin & _ & Hsucc); [lia|lia|lia|lia|done|done|].
  exists ok, s'. split; [done|]. split.
  { constructor; [done|done|rewrite Hh; apply heap_eq_refl, Hok|done]. }
  split; [done|]. split; [|done]. intros Ht. destruct (io_step_vol _ _ Hst) as (Hv & _).
  apply (zget_ext_len _ _ (snd (dir_extent (f_vol s) inroot c))); [rewrite zlen_dir_bytes; rewrite Hv; lia|done|].
  intros j Hj. rewrite zget_dir_bytes by (rewrite Hv; lia). rewrite Hv, (Hin Ht) by lia.
  unfold byte_at. destruct (zget_is_Some buf j ltac:(lia)) as [b ->]. done.
Qed.

Lemma fat_update_in_dir_eq s c name ext e :
  let addr := fst (dir_extent (f_vol s) (c =? 0) c) in let size := snd (dir_extent (f_vol s) (c =? 0) c) in
  fat_update_in_dir c name ext e s =
  match disk_read s addr size with
  | (None, s) => Some (false, s)
  | (Some (p, buf), s) =>
      match find_entry (entries_of size) 0 buf name ext with
      | Some i =>
          let '(ok, s) := disk_write s addr (splice buf (i * DIR_SIZE) e) size in
          st_bind (free_buf p size) (fun _ => st_ret ok) s
      | None => st_bind (free_buf p size) (fun _ => st_ret false) s
      end
  end.
Proof. unfold fat_update_in_dir. by destruct (dir_extent _ _ _). Qed.

Lemma update_in_dir_spec s c name ext e :
  fat_ok s -> dir_valid (f_vol s) (c =? 0) c -> zlen e = 32 ->
  let inroot := c =? 0 in
  exists b s', fat_update_in_dir c name ext e s = Some (b, s') /\ writes s s' (in_dir (f_vol s) inroot c) /\
    (b = true -> exists j,
       find_entry (entries_of (snd (dir_extent (f_vol s) inroot c))) 0 (dir_bytes s inroot c) name ext = Some j /\
       dir_bytes s' inroot c = splice (dir_bytes s inroot c) (j * DIR_SIZE) e) /\
    (settled (f_ata s) -> vol_in_part s -> b = true \/
       find_entry (entries_of (snd (dir_extent (f_vol s) inroot c))) 0 (dir_bytes s inroot c) name ext = None \/
       out_of_memory (f_heap s) (snd (dir_extent (f_vol s) inroot c) + 1024)).
Proof.
  intros Hok Hd Hel inroot. destruct (dir_extent_spec _ _ _ (fo_vol _ Hok) Hd) as (_ & _ & Hs & _).
  fold inroot in Hs, Hd.
  destruct (read_dir_spec s inroot c Hok Hd) as (r & s1 & He & R1 & Hr). rewrite fat_update_in_dir_eq. cbv zeta.
  fold inroot. rewrite He.
  destruct r as [[p buf]|].
  2: { exists false, s1. split; [done|]. split; [|split; [done|intros Hst Hvp; right; right; by apply Hr]].
       constructor; [apply R1|apply R1|apply Hr|]. intros x _. apply R1. }
  destruct Hr as (Hp & -> & Hplus). set (size := snd (dir_extent (f_vol s) inroot c)) in *.
  destruct (reads_vol _ _ R1) as [Hv1 _].
  destruct (find_entry _ _ _ _ _) as [j|] eqn:Hf.
  2: { unfold st_bind. rewrite free_buf_eq by done. destruct (free_after_read s s1 p size R1 Hplus ltac:(lia)) as [Rf Hhf].
       exists false, (fat_free s1 p size). split; [done|]. split; [|split; [done|by right; left]].
       constructor; [apply Rf|apply Rf|done|]. intros x _. apply Rf. }
  destruct (in_extent_entry s inroot c _ _ _ _ Hd Hok Hf) as [Hj0 Hj1]. fold size in Hj1.
  assert (Hlen : zlen (splice (dir_bytes s inroot c) (j * DIR_SIZE) e) = size).
  { unfold DIR_SIZE. rewrite zlen_splice; rewrite ?zlen_dir_bytes; fold size; lia. }
  destruct (write_dir_spec s1 inroot c (splice (dir_bytes s inroot c) (j * DIR_SIZE) e) (rd_ok _ _ R1))
    as (ok & s2 & Hw & W2 & Hh2 & Hdb & Hsucc); [by rewrite Hv1|by rewrite Hv1|].
  rewrite Hv1 in *. fold size in Hw. rewrite Hw. unfold st_bind. rewrite free_buf_eq by done.
  destruct (free_reads (f_heap s) s2 p size (wr_ok _ _ _ W2) ltac:(lia)) as [R3 Hh3]; [by rewrite Hh2|].
  exists ok, (fat_free s2 p size). split; [done|]. split; [|split].
  - constructor; [|apply R3|done|].
    + eapply io_step_trans; [apply R1|]. eapply io_step_trans; [apply W2|apply R3].
    + intros x Hx. by rewrite (rd_bytes _ _ R3), (wr_out _ _ _ W2), (rd_bytes _ _ R1).
  - intros Ht. exists j. split; [done|]. rewrite <-(Hdb Ht). apply dir_bytes_ext; [|apply R3].
    by destruct (reads_vol _ _ R3).
  - intros Hst Hvp. left. apply Hsucc; [by apply R1|]. by eapply vol_in_part_step; [apply R1|].
Qed.

(** C24: an entry stored in a directory under its own name is what the next search of the
    directory for that name finds; nothing outside the directory changes. The search
    fails only with the drive or for want of memory. *)
Theorem fat_update_find s c name ext e s1 :
  fat_ok s -> dir_valid (f_vol s) (c =? 0) c -> (c <> 0 -> dotdot name = false) ->
  zlen e = 32 -> live e -> fat_entry_matches_filename e name ext = true ->
  fat_update_in_dir c name ext e s = Some (true, s1) ->
  fat_ok s1 /\ (forall x, ~ in_dir (f_vol s) (c =? 0) c x -> pbyte s1 x = pbyte s x) /\
  let size := snd (dir_extent (f_vol s) (c =? 0) c) in
  match find_in (c =? 0) c name ext s1 with
  | None => exists h p, heap_plus (f_heap s1) h p size /\ fst (al_malloc h DIR_SIZE) = 0
  | Some (d, s2) =>
      if fst d =? 0 then
        settled (f_ata s1) -> vol_in_part s1 -> out_of_memory (f_heap s1) (size + 1024)
      else snd d = e /\ heap_plus (f_heap s1) (f_heap s2) (fst d) DIR_SIZE
  end.
Proof.
  intros Hok Hd Hdot Hel Hlive Hmatch Hup.
  destruct (update_in_dir_spec s c name ext e Hok Hd Hel) as (b & s' & He & W & Hb & _).
  rewrite He in Hup. injection Hup as -> ->. destruct (Hb eq_refl) as (j & Hf & Hdb).
  destruct (in_extent_entry s _ c _ _ _ _ Hd Hok Hf) as [Hj0 Hj1].
  destruct (dir_extent_spec _ _ _ (fo_vol _ Hok) Hd) as (_ & _ & Hs & _).
  split; [apply W|]. split; [apply W|].
  destruct (io_step_vol _ _ (wr_step _ _ _ W)) as (Hv & _).
  pose proof (find_in_spec s1 (c =? 0) c name ext (wr_ok _ _ _ W)) as Hfind. rewrite Hv in Hfind.
  cbv zeta. set (size := snd (dir_extent (f_vol s) (c =? 0) c)) in *.
  specialize (Hfind Hd ltac:(intros; apply Hdot; lia)). rewrite Hdb in Hfind.
  assert (Hnew : find_entry (entries_of size) 0 (splice (dir_bytes s (c =? 0) c) (j * DIR_SIZE) e) name ext = Some j).
  { apply find_entry_spec in Hf as [Hj (Hl & Hm & Hk)]. apply find_entry_spec. split; [done|].
    assert (Hent : forall k, 0 <= k -> dir_entry (splice (dir_bytes s (c =? 0) c) (j * DIR_SIZE) e) k =
      if decide (k = j) then e else dir_entry (dir_bytes s (c =? 0) c) k).
    { intros k Hk0. apply dir_entry_splice; try done. rewrite zlen_dir_bytes; fold size; lia. }
    unfold first_match. rewrite Hent, decide_True by done. split; [done|]. split; [done|].
    intros k Hkr. rewrite Hent, decide_False by lia. by apply Hk. }
  destruct (find_in (c =? 0) c name ext s1) as [[d s2]|]; [|done].
  destruct Hfind as [_ Hres]. unfold find_result in Hres. rewrite Hnew in Hres.
  destruct (fst d =? 0); [by destruct Hres as [?|?]|]. destruct Hres as (j' & [= <-] & -> & Hplus).
  split; [|done]. rewrite dir_entry_splice; try done; [by rewrite decide_True|].
  rewrite zlen_dir_bytes; fold size; lia.
Qed.

End names.

(** ** Names *)

Definition plain (s : list Z) : Prop := Forall (fun x => x <> 0 /\ x <> 32) s.

Lemma before_app c s t : Forall (fun x => x <> c) s -> before c (s ++ c :: t) = s.
Proof.
  induction 1 as [|x s Hx _ IH]; simpl; [by rewrite Z.eqb_refl|].
  destruct (x =? c) eqn:?; [lia|by rewrite IH].
Qed.

Lemma before_all c s : Forall (fun x => x <> c) s -> before c s = s.
Proof. induction 1 as [|x s Hx _ IH]; simpl; [done|]. destruct (x =? c) eqn:?; [lia|by rewrite IH]. Qed.

Lemma before_pad n s : plain s -> before 32 (c_str (pad n s)) = s.
Proof.
  intros Hs. unfold c_str, pad.
  assert (Hz : Forall (fun x => x <> 0) (s ++ replicate (n - length s) 32)).
  { apply Forall_app. split; [eapply Forall_impl; [exact Hs|by intros ? []]|]. apply Forall_replicate. lia. }
  rewrite (before_all 0) by done.
  assert (Hs32 : Forall (fun x => x <> 32) s) by (eapply Forall_impl; [exact Hs|by intros ? []]).
  destruct (n - length s)%nat; simpl; [rewrite app_nil_r; by apply before_all|by apply before_app].
Qed.

Lemma length_pad n s : (length s <= n)%nat -> length (pad n s) = n.
Proof. intros. unfold pad. rewrite length_app, length_replicate. lia. Qed.

(** The entry made for a name has that name, whatever the case. *)
Lemma make_entry_matches name ext attr c :
  plain name -> plain ext -> zlen name <= 8 -> zlen ext <= 3 ->
  fat_entry_matches_filename (make_entry (make_name name ext) attr c) name ext = true /\
  firstClusterNo (make_entry (make_name name ext) attr c) = c mod 65536 /\
  fileSize (make_entry (make_name name ext) attr c) = 0.
Proof.
  intros Hn He Hnl Hel. unfold zlen in *.
  pose proof (length_pad 8 name ltac:(lia)) as L8. pose proof (length_pad 3 ext ltac:(lia)) as L3.
  assert (Hname : entry_name (make_entry (make_name name ext) attr c) = name).
  { unfold entry_name, make_entry, make_name, slice. simpl Z.to_nat. rewrite drop_0, <-app_assoc.
    rewrite take_app_le by lia. rewrite take_ge by lia. by apply before_pad. }
  assert (Hext : entry_ext (make_entry (make_name name ext) attr c) = ext).
  { unfold entry_ext, make_entry, make_name, slice. change (Z.to_nat 8) with 8%nat. change (Z.to_nat 3) with 3%nat.
    rewrite <-app_assoc. rewrite drop_app_length' by lia. rewrite take_app_le by lia. rewrite take_ge by lia.
    by apply before_pad. }
  split.
  - unfold fat_entry_matches_filename. rewrite Hname, Hext. by rewrite !bool_decide_eq_true_2.
  - assert (H11 : length (make_name name ext) = 11%nat) by (unfold make_name; rewrite length_app; lia).
    unfold make_entry. generalize dependent (make_name name ext). clear. intros m _ _ Hm.
    do 12 (destruct m as [|? m]; [try done|]). 2: done.
    unfold firstClusterNo, fileSize, le32, le16, byte_at, zget. simpl. split; [|done].
    unfold u8. pose proof (Z.div_mod c 256 ltac:(lia)). rewrite (Z.mul_comm 256).
    replace 65536 with (256 * 256) by lia. rewrite Z.rem_mul_r by lia. lia.
Qed.

(** ** Behaviour to know about *)

(** A volume with an empty root directory, and the path names below. *)
Definition blank_table : list Z := [65528; 65535] ++ replicate 254 0.

Definition blank_fat : fat heap :=
  Fat (Io heap_init (Ata (disk_put (disk_put (fun _ => 0) (512000 + 512) (table_bytes blank_table))
    (512000 + 1024) (table_bytes blank_table)) [] 0 2000)) demo_vol blank_table (replicate 256 false) 512 0 0 0.

Definition path_a : list Z := [47; 97].                                (* /a *)
Definition path_missing_a : list Z := [47; 109; 47; 97].               (* /m/a *)
Definition path_d : list Z := [47; 100].                               (* /d *)
Definition name_e : list Z := [101].                                   (* e *)
Definition path_e : list Z := [47; 101].

(** A directory missing from the root is ignored: the path "/m/a" finds the file "/a". *)
Lemma missing_directory_ignored :
  match fat_new_file path_a blank_fat with
  | Some (true, s) =>
      match fat_parse_path path_missing_a true s with
      | Some ((p, e), _) => p <> 0 /\ entry_name e = [65]
      | None => False
      end
  | _ => False
  end.
Proof. vm_compute. split; [discriminate|reflexivity]. Qed.

(** Renaming clears the attributes of the entry: a directory is one no longer. *)
Lemma rename_clears_attributes :
  match fat_new_dir path_d [] blank_fat with
  | Some (true, s) =>
      match fat_rename path_d name_e 0 s with
      | Some (true, s) =>
          match fat_parse_path path_e true s with
          | Some ((p, e), s) => p <> 0 /\ attributes e = 0 /\
              match fat_delete_dir path_e s with Some (b, _) => b = false | None => False end
          | None => False
          end
      | _ => False
      end
  | _ => False
  end.
Proof. vm_compute. split; [discriminate|split; reflexivity]. Qed.

(** A search of the root that finds nothing does not give back the buffer for its result. *)
Lemma find_in_root_leaks :
  match fat_find_in_root [65] [] blank_fat with
  | Some ((p, _), s) => p = 0 /\ allocated (f_heap s) 1 /\ available (f_heap blank_fat) 1
  | None => False
  end.
Proof. vm_compute. repeat split; reflexivity. Qed.

(** ** Witnesses *)

(** The volume of FatTable with the entry "A" first in its root directory. *)
Definition entry_a : list Z := make_entry (make_name [65] []) 32 5.

Definition entry_fat : fat heap :=
  Fat (Io heap_init (Ata (disk_put demo_fat_disk (512000 + 3 * 512) entry_a) [] 0 2000))
    demo_vol demo_table (replicate 256 false) 512 0 0 0.

Lemma entry_fat_ok : fat_ok entry_fat.
Proof.
  constructor; [apply demo_vol_ok|done|done|done|apply demo_table_u16|unfold part_ok; simpl; lia|apply heap_init_wf].
Qed.

Lemma fat_update_find_witness :
  exists s1, fat_update_in_dir 0 [65] [] (set_fileSize entry_a 512) entry_fat = Some (true, s1) /\
    fat_ok s1 /\ forall x, ~ in_dir demo_vol true 0 x -> pbyte s1 x = pbyte entry_fat x.
Proof.
  assert (Hb : match fat_update_in_dir 0 [65] [] (set_fileSize entry_a 512) entry_fat with
               | Some (b, _) => b = true | None => False end) by (vm_compute; reflexivity).
  destruct (fat_update_in_dir 0 [65] [] (set_fileSize entry_a 512) entry_fat) as [[b s1]|] eqn:He;
    [subst b|destruct Hb].
  exists s1. split; [reflexivity|].
  destruct (fat_update_find entry_fat 0 [65] [] (set_fileSize entry_a 512) s1 entry_fat_ok) as (Hok & Hout & _).
  - vm_compute. repeat split; discriminate.
  - intros Hc. destruct (Hc eq_refl).
  - reflexivity.
  - vm_compute. split; discriminate.
  - vm_compute. reflexivity.
  - exact He.
  - split; [exact Hok|exact Hout].
Defined.
