(* ===== verification/LinkedList.v ===== *)
(** * Linked lists of objects

    The kernel keeps its timed events and the waiters of a futex in singly linked lists:
    objects at addresses, each with the address of the next one. [linked next m p l] says
    that the list from [p] holds the objects [l], with their addresses, and ends in [NULL]. *)

From S2P Require Import Prelude.

Local Open Scope Z_scope.

Section linked.
Context {A : Type} (next : A -> Z).
Implicit Types (m : gmap Z A) (p q : Z) (l : list (Z * A)).

Fixpoint linked m p l : Prop :=
  match l with
  | [] => p = 0
  | (q, x) :: l => p = q /\ q <> 0 /\ m !! q = Some x /\ linked m (next x) l
  end.

(** The list is determined by where it starts. *)
Lemma linked_unique m p l l' : linked m p l -> linked m p l' -> l = l'.
Proof.
  revert p l'. induction l as [|[q x] l IH]; intros p [|[q' x'] l'] H H'; try done.
  - simpl in *. subst p. by destruct H' as (-> & ? & _).
  - simpl in *. destruct H as (-> & ? & _). done.
  - destruct H as (-> & _ & Hx & H). destruct H' as (<- & _ & Hx' & H'). rewrite Hx in Hx'. injection Hx' as <-.
    f_equal. by eapply IH.
Qed.

Lemma linked_lookup m p l q x : linked m p l -> (q, x) ∈ l -> m !! q = Some x /\ q <> 0.
Proof.
  revert p. induction l as [|[q' x'] l IH]; intros p H Hin; [by apply not_elem_of_nil in Hin|].
  destruct H as (-> & Hq & Hx & H). apply elem_of_cons in Hin as [[= -> ->]|Hin]; [done|]. by eapply IH.
Qed.

Lemma linked_split m p l1 q x l2 : linked m p (l1 ++ (q, x) :: l2) -> linked m q ((q, x) :: l2).
Proof.
  revert p. induction l1 as [|[q' x'] l1 IH]; intros p H; simpl in H; [by destruct H as (-> & H)|].
  destruct H as (_ & _ & _ & H). by eapply IH.
Qed.

Lemma linked_NoDup m p l : linked m p l -> NoDup (fst <$> l).
Proof.
  revert p. induction l as [|[q x] l IH]; intros p H; [constructor|]. simpl. apply NoDup_cons. split.
  - intros Hin. apply list_elem_of_fmap in Hin as ([q' y] & -> & Hin). simpl in H. destruct H as (-> & Hq & Hx & H).
    assert (y = x) as -> by (destruct (linked_lookup _ _ _ _ _ H Hin) as [Hy _]; simpl in Hx; congruence).
    apply list_elem_of_split in Hin as (l1 & l2 & ->).
    pose proof (linked_split _ _ _ _ _ _ H) as H2. simpl in *.
    assert (Hl : l2 = l1 ++ (q', x) :: l2) by (eapply linked_unique; [apply H2|exact H]).
    apply (f_equal length) in Hl. rewrite length_app in Hl. simpl in Hl. lia.
  - simpl in H. by eapply IH, H.
Qed.

(** Changes to other objects. *)
Lemma linked_other m m' p l : linked m p l -> (forall q x, (q, x) ∈ l -> m' !! q = m !! q) -> linked m' p l.
Proof.
  revert p. induction l as [|[q x] l IH]; intros p H Hm; [done|]. destruct H as (-> & Hq & Hx & H). simpl.
  split; [done|]. split; [done|]. split; [by rewrite (Hm q x) by (by left)|].
  apply IH; [done|]. intros q' x' Hin. apply (Hm q' x'). by right.
Qed.

Lemma linked_insert m p l q y : linked m p l -> q ∉ fst <$> l -> linked (<[q := y]> m) p l.
Proof.
  intros H Hq. eapply linked_other; [done|]. intros q' x Hin. apply lookup_insert_ne. intros ->.
  apply Hq, list_elem_of_fmap. by exists (q', x).
Qed.

Lemma linked_delete m p l q : linked m p l -> q ∉ fst <$> l -> linked (delete q m) p l.
Proof.
  intros H Hq. eapply linked_other; [done|]. intros q' x Hin. apply lookup_delete_ne. intros ->.
  apply Hq, list_elem_of_fmap. by exists (q', x).
Qed.

Lemma linked_fresh m p l q : linked m p l -> m !! q = None -> q ∉ fst <$> l.
Proof.
  intros H Hq Hin. apply list_elem_of_fmap in Hin as ([q' x] & -> & Hin).
  destruct (linked_lookup _ _ _ _ _ H Hin). simpl in Hq. congruence.
Qed.

(** As many objects as the list has. *)
Lemma linked_length m p l : linked m p l -> (length l <= size m)%nat.
Proof.
  intros H. rewrite <-(length_fmap fst l), <-(size_list_to_set (C := gset Z)) by (by eapply linked_NoDup).
  rewrite <-size_dom. apply subseteq_size. intros q Hq. apply elem_of_list_to_set, list_elem_of_fmap in Hq as ([q' x] & -> & Hin).
  apply elem_of_dom. by exists x; eapply linked_lookup.
Qed.

(** The object [q] is taken out after [r]. *)
Lemma linked_unlink set_next m p pre r y q x rest :
  (forall z n, next (set_next z n) = n) -> linked m p (pre ++ (r, y) :: (q, x) :: rest) ->
  linked (delete q (<[r := set_next y (next x)]> m)) p (pre ++ (r, set_next y (next x)) :: rest).
Proof.
  intros Hset Hl. pose proof (linked_NoDup _ _ _ Hl) as Hd. revert p Hl. induction pre as [|[a b] pre IH]; intros p Hl.
  - simpl in *. destruct Hl as (-> & Hr & Hy & Hn & Hq & Hx & Hl). apply NoDup_cons in Hd as [Hrq Hd].
    apply NoDup_cons in Hd as [Hqr Hd]. apply not_elem_of_cons in Hrq as [Hrq Hrr].
    split; [done|]. split; [done|]. split; [rewrite lookup_delete_ne by done; apply lookup_insert_eq|].
    rewrite Hset. by apply linked_delete; [apply linked_insert|].
  - simpl in *. destruct Hl as (-> & Ha & Hb & Hl). apply NoDup_cons in Hd as [Hnin Hd].
    rewrite fmap_app, !fmap_cons in Hnin. simpl in Hnin.
    split; [done|]. split; [done|]. split; [|by apply IH].
    rewrite lookup_delete_ne, lookup_insert_ne; [done| |]; intros ->; apply Hnin; set_solver.
Qed.

End linked.
