(* ===== verification/Kern.v ===== *)
(** * The kernel state shared by tasks, locks and messages (tasks.h, ksync.h, msg.h)

    The records of the kernel that the scheduler, the event queues, the kernel mutexes,
    the futexes and the message ports read and write, and the monad of the functions over
    them. A pointer into the array [tasks] is the index of the task ([None] is [NULL]);
    processes, ports, channels and mutexes are objects at their addresses. What the
    functions need of physical memory and of the kernel heap is the class [Space]. *)

From coqutil Require Export Datatypes.RecordSetters.
From S2P Require Export Prelude KQueue.
Export TriangleBracketNotations.

Local Open Scope Z_scope.

(** A record update is looked for when its record type is known. *)
#[global] Hint Mode Setter + + + : typeclass_instances.
#[global] Typeclasses Opaque Setter.
#[global] Arguments constant {E} newValue / _.

(** ** Data *)

Definition TOTAL_TASKS : Z := 16.
Definition MAX_TASK_THREADS : Z := 4.
Definition EVENT_QUEUE_SIZE : Z := 64.
Definition TASK_EVENT_MAX_ARGS : Z := 4.
Definition TASK_MAX_CHANNELS : Z := 16.
Definition PROCESS_MAX_PORTS : Z := 16.
Definition KSTACK_SIZE : Z := 0x4000.

Inductive task_event_type_t :=
| E_NONE | E_DRAGGED | E_CLICK | E_RELEASE | E_RIGHTCLICK | E_KEYPRESS | E_KEYRELEASE | E_HOVER
| E_SCROLL | E_RESIZE | E_CLOSE | E_CHECKCMD | E_MOUSEOUT | E_MSG | E_EVENT.

#[global] Instance task_event_type_dec : EqDecision task_event_type_t.
Proof. solve_decision. Defined.

Inductive task_pause_reason_t :=
| PAUSE_NONE | PAUSE_SNOOZE | PAUSE_LAUNCH | PAUSE_READ | PAUSE_SLEEP | PAUSE_FUTEX
| PAUSE_ESCALATE | PAUSE_MSG_WRITE | PAUSE_CRASH | PAUSE_MSG_CALL | PAUSE_MSG_RECEIVE
| PAUSE_KSYNC | PAUSE_KTHREAD.

#[global] Instance task_pause_reason_dec : EqDecision task_pause_reason_t.
Proof. solve_decision. Defined.

Record registers_t := Registers {
  ds : Z; edi : Z; esi : Z; ebp : Z; esp : Z; ebx : Z; edx : Z; ecx : Z; eax : Z;
  err_code : Z; eip : Z; cs : Z; eflags : Z; useresp : Z; ss : Z }.

Record task_event_t := TaskEvent {
  e_type : task_event_type_t;
  e_addr : Z;
  e_args : list Z;
  e_argc : Z }.

Record task_state_t := TaskState {
  enabled : bool;
  reserved : bool;
  paused : bool;
  pause_reason : task_pause_reason_t;
  wake_pending : bool;
  crashed : bool;
  kill_pending : bool;
  task_id : Z;
  task_uid : Z;
  stack_base : Z;
  v_stack_start : Z;
  kernel_stack_top : Z;
  kernel_esp : Z;
  registers : registers_t;
  routine_return_regs : registers_t;
  checkcmd_buffer : Z;
  routine : task_event_type_t;
  in_syscall : bool;
  event_queue : kqueue task_event_t;
  msg_func : Z;
  msg_channels : list Z;
  msg_channel_count : Z;
  msg_notify_pending : bool;
  t_mutex : option Z;
  mutex_next_waiter : option Z;
  owned_mutexes : option Z;
  t_process : Z }.

(** [p_kobjs] and [p_regions] are pointers into the heap; what they point to is modelled
    in KObj. *)
Record process_t := Process {
  p_uid : Z;
  prog_start : Z;
  prog_entry : Z;
  prog_size : Z;
  privileged : bool;
  p_window : Z;
  vmem_start : Z;
  vmem_end : Z;
  page_dir : Z;
  working_dir : list Z;
  exe_path : list Z;
  p_kobjs : list Z;
  kobj_count : Z;
  p_regions : Z;
  p_stdio : list Z;
  no_allocated : Z;
  heap_start : Z;
  heap_end : Z;
  p_ports : list Z;
  port_count : Z;
  launch_args : Z;
  launch_argc : Z;
  threads : list (option Z);
  no_threads : Z }.

Record kmutex_t := Kmutex {
  owner : option Z;
  waiters : option Z;
  waiters_tail : option Z;
  owned_next : option Z }.

(** Messages: [msg_send_t] and [msg_recv_t] of lib/api.h, and the objects of msg.h. *)
Definition MSG_MAX_CHANNELS : Z := 16.
Definition MSG_MAX_LEN : Z := 124.
Definition MSG_QUEUE_DEPTH : Z := 14.

Record msg_send_t := MsgSend {
  s_buffer : Z; s_size : Z; s_handles : Z; s_handle_count : Z }.

Record msg_recv_t := MsgRecv {
  r_buffer : Z; r_buffer_size : Z; r_handles : Z; r_handle_count : Z }.

Record msg_obj_t := MsgObj { m_length : Z; m_flags : Z; m_data : list Z }.

Record msg_queue_t := MsgQueue {
  slots : list msg_obj_t; mq_head : Z; mq_tail : Z; count : Z; mq_reserved : Z }.

Record msg_channel_t := MsgChannel {
  c_uid : Z;
  c_port_uid : Z;
  client_uid : Z;
  client_taskid : Z;
  client_taskuid : Z;
  server_taskid : Z;
  server_taskuid : Z;
  server_connected : bool;
  client_connected : bool;
  queue0 : msg_queue_t;
  queue1 : msg_queue_t;
  server_unanswered : Z;
  client_blocked : bool;
  server_blocked : bool;
  client_flags : Z;
  server_flags : Z;
  client_notify_pending : bool;
  server_notify_pending : bool;
  call_uid : Z;
  client_send_msg : msg_send_t;
  client_recv_msg : msg_recv_t;
  client_recv_msg_user : Z }.

Record msg_waiter_t := MsgWaiter {
  active : bool; w_task_id : Z; w_task_uid : Z; recv_msg : msg_recv_t; recv_msg_user : Z }.

Record msg_port_t := MsgPort {
  port_uid : Z;
  name : list Z;
  owner_uid : Z;
  owner_taskid : Z;
  owner_taskuid : Z;
  channels : list Z;
  channel_count : Z;
  client_reserves : bool;
  port_waiters : list msg_waiter_t;
  port_next : Z }.

(** A timed event (events.h) and the list of them, by address, in the order of their
    times; the messages of the tasks that sleep (api.c). *)
Record event_t := Event {
  ev_time : Z;
  ev_msg : Z;
  ev_next : Z;
  ev_callback : Z;
  ev_task : Z;
  ev_task_uid : Z }.

Record timed_t := Timed {
  timer_i : Z;
  events_active : bool;
  first_event : Z;
  event_objs : gmap Z event_t;
  sleep_msgs : gmap Z (Z * Z) }.

(** A task that waits on a futex (futex.c), and the buckets of the hash table. *)
Record futex_waiter_t := FutexWaiter {
  fw_task_id : Z;
  fw_task_uid : Z;
  fw_process_uid : Z;
  fw_key_addr : Z;
  fw_next : Z }.

Record futexes_t := Futexes {
  buckets : list Z;
  futex_waiters : gmap Z futex_waiter_t }.

(** ** Address spaces and the kernel heap

    The current page directory, copies to and from the memory of a task and the check of
    its addresses (they take its directory and the bounds of its heap), and [malloc] and
    [free]. A copy from a task is [Some None] when it fails with -1. *)
Class Space (M : Type) := {
  page_get_current : M -> Z;
  swap_pagedir : M -> Z -> M;
  copy_to_task : M -> Z -> Z -> Z -> Z -> list Z -> option (Z * M);
  copy_from_task : M -> Z -> Z -> Z -> Z -> Z -> option (option (list Z) * M);
  read_user : M -> Z -> Z -> option (list Z);
  task_validate_mem : M -> Z -> Z -> Z -> Z -> Z -> bool -> option bool;
  task_validate_maxsize : M -> Z -> Z -> Z -> Z -> Z -> bool -> option Z;
  malloc : M -> Z -> Z * M;
  free : M -> Z -> Z -> M;
  space_swap m d : page_get_current (swap_pagedir m d) = d;
  space_copy m dir hs he dest src n m' :
    copy_to_task m dir hs he dest src = Some (n, m') -> page_get_current m' = page_get_current m;
  space_copy_from m dir hs he src size r m' :
    copy_from_task m dir hs he src size = Some (r, m') -> page_get_current m' = page_get_current m;
  space_malloc m size : page_get_current (snd (malloc m size)) = page_get_current m;
  space_free m p size : page_get_current (free m p size) = page_get_current m }.

Record kern {M : Type} := Kern {
  tasks : list task_state_t;
  current_task : Z;
  switching : bool;
  k_esp : Z;               (* the kernel stack pointer of the processor *)
  tss_esp0 : Z;            (* the stack of the next entry into the kernel *)
  k_mem : M;
  processes : gmap Z process_t;
  mutexes : gmap Z kmutex_t;
  ports : Z;
  port_objs : gmap Z msg_port_t;
  channel_objs : gmap Z msg_channel_t;
  msg_uid_counter : Z;
  channel_uid_counter : Z;
  call_uid_counter : Z;
  timed : timed_t;
  futexes : futexes_t;
  process_uid_counter : Z;
  task_uid_counter : Z;
  task_event_counter : Z }.

Arguments kern : clear implicits.

(** ** The monad of kernel functions

    A call returns, or the processor leaves it for another task ([Away], with the state
    in which the other task goes on; the call returns when its own task is resumed), or
    the kernel panics, or it accesses memory outside every object, or it never ends. *)
Inductive res {M A : Type} :=
| Ret (a : A) (k : kern M)
| Away (k : kern M)
| Panic
| Fault
| Hang.

Arguments res : clear implicits.

Definition K (M A : Type) : Type := kern M -> res M A.

#[global] Instance K_mret {M} : MRet (K M) := fun A a k => Ret a k.

#[global] Instance K_mbind {M} : MBind (K M) := fun A B f m k =>
  match m k with
  | Ret a k => f a k
  | Away k => Away k
  | Panic => Panic
  | Fault => Fault
  | Hang => Hang
  end.

Section monad.
Context {M : Type}.
Implicit Types (k : kern M).

Definition panic {A} : K M A := fun _ => Panic.
Definition fault {A} : K M A := fun _ => Fault.
Definition gets {A} (f : kern M -> A) : K M A := fun k => Ret (f k) k.
Definition modify (f : kern M -> kern M) : K M unit := fun k => Ret tt (f k).

(** An access through a pointer that may designate nothing. *)
Definition deref {A} (o : option A) : K M A :=
  match o with Some a => mret a | None => fault end.

Definition get_task (i : Z) : K M task_state_t := fun k => deref (zget (tasks k) i) k.

Definition put_task (i : Z) (t : task_state_t) : K M unit :=
  modify (fun k => k <| tasks := zset (tasks k) i t |>).

Definition upd_task (i : Z) (f : task_state_t -> task_state_t) : K M unit :=
  t ← get_task i; put_task i (f t).

Definition get_process (p : Z) : K M process_t := fun k => deref (processes k !! p) k.
Definition get_mutex (m : Z) : K M kmutex_t := fun k => deref (mutexes k !! m) k.
Definition get_port (p : Z) : K M msg_port_t := fun k => deref (port_objs k !! p) k.
Definition get_channel (c : Z) : K M msg_channel_t := fun k => deref (channel_objs k !! c) k.

Definition upd_mutex (m : Z) (f : kmutex_t -> kmutex_t) : K M unit :=
  x ← get_mutex m; modify (fun k => k <| mutexes := <[m := f x]> (mutexes k) |>).
Definition upd_process (p : Z) (f : process_t -> process_t) : K M unit :=
  x ← get_process p; modify (fun k => k <| processes := <[p := f x]> (processes k) |>).
Definition upd_port (p : Z) (f : msg_port_t -> msg_port_t) : K M unit :=
  x ← get_port p; modify (fun k => k <| port_objs := <[p := f x]> (port_objs k) |>).
Definition upd_channel (c : Z) (f : msg_channel_t -> msg_channel_t) : K M unit :=
  x ← get_channel c; modify (fun k => k <| channel_objs := <[c := f x]> (channel_objs k) |>).

(** The condition of a branch without [else]. *)
Definition when (b : bool) (m : K M unit) : K M unit := if b then m else mret tt.

Definition get_current_task : K M Z := gets current_task.

(** ** Tasks (tasks.c) *)

Definition task_pause (i : Z) (reason : task_pause_reason_t) : K M unit :=
  upd_task i (fun t => t <| paused := true |> <| pause_reason := reason |>).

Definition task_resume (i : Z) : K M unit :=
  upd_task i (fun t => t <| paused := false |> <| pause_reason := PAUSE_NONE |>).

Definition task_unsnooze (i : Z) : K M bool :=
  t ← get_task i;
  if negb (paused t) || bool_decide (pause_reason t <> PAUSE_SNOOZE) then mret false
  else _ ← task_resume i; mret true.

Definition task_wake (i : Z) : K M unit :=
  b ← task_unsnooze i;
  if b : bool then mret tt else upd_task i (fun t => t <| wake_pending := true |>).

End monad.

(** The kernel heap. *)
Section kernel_heap.
Context {M : Type} `{!Space M}.

Definition alloc (size : Z) : K M Z := fun k =>
  let r := malloc (k_mem k) size in Ret (fst r) (k <| k_mem := snd r |>).

Definition dealloc (p size : Z) : K M unit := modify (fun k => k <| k_mem := free (k_mem k) p size |>).

End kernel_heap.

(** ** Reasoning about the monad *)

Section monad_lemmas.
Context {M : Type}.
Implicit Types (k : kern M).

Lemma bind_Ret {A B} (m : K M A) (f : A -> K M B) k a k' :
  m k = Ret a k' -> (m ≫= f) k = f a k'.
Proof. intros Hm. unfold mbind, K_mbind. by rewrite Hm. Qed.

Lemma bind_gets {A B} (g : kern M -> A) (f : A -> K M B) k : (gets g ≫= f) k = f (g k) k.
Proof. done. Qed.

Lemma bind_modify {B} g (f : unit -> K M B) k : (modify g ≫= f) k = f tt (g k).
Proof. done. Qed.

Lemma get_task_Some k i t : zget (tasks k) i = Some t -> get_task i k = Ret t k.
Proof. intros Ht. unfold get_task. by rewrite Ht. Qed.

Lemma upd_task_Some k i t f :
  zget (tasks k) i = Some t ->
  upd_task i f k = Ret tt (k <| tasks := zset (tasks k) i (f t) |>).
Proof. intros Ht. unfold upd_task. by rewrite (bind_Ret _ _ _ _ _ (get_task_Some _ _ _ Ht)). Qed.

Lemma get_process_Some k p x : processes k !! p = Some x -> get_process p k = Ret x k.
Proof. intros Ht. unfold get_process. by rewrite Ht. Qed.

Lemma get_mutex_Some k p x : mutexes k !! p = Some x -> get_mutex p k = Ret x k.
Proof. intros Ht. unfold get_mutex. by rewrite Ht. Qed.

Lemma upd_mutex_Some k m x f :
  mutexes k !! m = Some x ->
  upd_mutex m f k = Ret tt (k <| mutexes := <[m := f x]> (mutexes k) |>).
Proof. intros Ht. unfold upd_mutex. by rewrite (bind_Ret _ _ _ _ _ (get_mutex_Some _ _ _ Ht)). Qed.

End monad_lemmas.

(** ** Relations that a computation keeps

    [keeps R m]: wherever [m] goes on, the state is related by the preorder [R] to the one
    it started from. *)
Section keeps.
Context {M : Type} (R : kern M -> kern M -> Prop) `{!PreOrder R}.

Definition keeps {A} (m : K M A) : Prop := forall k,
  match m k with Ret _ k' | Away k' => R k k' | _ => True end.

Lemma keeps_ret {A} (a : A) : keeps (mret a).
Proof. intros k. simpl. reflexivity. Qed.

Lemma keeps_stop {A} : keeps (@panic M A) /\ keeps (@fault M A) /\ keeps (fun _ => @Hang M A).
Proof. done. Qed.

Lemma keeps_gets {A} (f : kern M -> A) : keeps (gets f).
Proof. intros k. simpl. reflexivity. Qed.

Lemma keeps_deref {A} (o : option A) : keeps (deref o).
Proof. destruct o; [apply keeps_ret|done]. Qed.

Lemma keeps_bind {A B} (m : K M A) (f : A -> K M B) :
  keeps m -> (forall a, keeps (f a)) -> keeps (m ≫= f).
Proof.
  intros Hm Hf k. specialize (Hm k). unfold mbind, K_mbind. destruct (m k) as [a k1|k1| | |]; try done.
  specialize (Hf a k1). destruct (f a k1); try done; by etransitivity.
Qed.

Lemma keeps_modify f : (forall k, R k (f k)) -> keeps (modify f).
Proof. intros Hf k. apply Hf. Qed.

Lemma keeps_when b (m : K M unit) : keeps m -> keeps (when b m).
Proof. destruct b; [done|]. intros _. apply keeps_ret. Qed.

Lemma keeps_get_task i : keeps (get_task i).
Proof. intros k. unfold get_task. apply keeps_deref. Qed.

Lemma keeps_get_process p : keeps (get_process p).
Proof. intros k. unfold get_process. apply keeps_deref. Qed.

Lemma keeps_get_port p : keeps (get_port p).
Proof. intros k. unfold get_port. apply keeps_deref. Qed.

Lemma keeps_get_channel p : keeps (get_channel p).
Proof. intros k. unfold get_channel. apply keeps_deref. Qed.

Lemma keeps_get_mutex p : keeps (get_mutex p).
Proof. intros k. unfold get_mutex. apply keeps_deref. Qed.

Lemma keeps_upd_task i f :
  (forall k t, zget (tasks k) i = Some t -> R k (k <| tasks := zset (tasks k) i (f t) |>)) ->
  keeps (upd_task i f).
Proof.
  intros Hf k. unfold upd_task, mbind, K_mbind, get_task, deref.
  destruct (zget (tasks k) i) as [t|] eqn:Ht; simpl; [|done]. by apply Hf.
Qed.

End keeps.

(** One step of a computation: the first action is known to return. *)
Ltac kret H := rewrite (bind_Ret _ _ _ _ _ H).
Ltac kget Ht := rewrite (bind_Ret _ _ _ _ _ (get_task_Some _ _ _ Ht)).
Ltac kupd Ht := rewrite (bind_Ret _ _ _ _ _ (upd_task_Some _ _ _ _ Ht)).

Create HintDb keeps.
#[export] Hint Resolve keeps_ret keeps_gets keeps_deref keeps_get_task keeps_get_process keeps_get_port
  keeps_get_channel keeps_get_mutex : keeps.
#[export] Hint Extern 1 (keeps _ (fun _ => Hang)) => apply keeps_stop : keeps.
#[export] Hint Extern 1 (keeps _ panic) => apply keeps_stop : keeps.
#[export] Hint Extern 1 (keeps _ fault) => apply keeps_stop : keeps.

(** Walk through the text of a function. *)
Ltac keeps_step :=
  match goal with
  | |- keeps _ (mbind _ _) => apply keeps_bind; [typeclasses eauto| |intros ?]
  | |- keeps _ (when _ _) => apply keeps_when; [typeclasses eauto|]
  | |- keeps _ (let _ := _ in _) => cbv zeta
  | |- keeps _ (match ?x with _ => _ end) => destruct x
  | |- keeps _ _ => solve [eauto with keeps typeclass_instances]
  end.
Ltac keeps := repeat keeps_step.

(** ** A small kernel for the examples

    Address spaces without page tables: every copy succeeds, and the kernel heap hands out
    fresh blocks. *)
Record flat := Flat { flat_dir : Z; flat_brk : Z }.

#[global, program] Instance flat_space : Space flat := {
  page_get_current m := flat_dir m;
  swap_pagedir m d := Flat d (flat_brk m);
  copy_to_task m _ _ _ _ src := Some (zlen src, m);
  copy_from_task m _ _ _ _ size := Some (Some (replicate (Z.to_nat size) 0), m);
  read_user m _ size := Some (replicate (Z.to_nat size) 0);
  task_validate_mem _ _ _ _ _ len _ := Some (0 <=? len);
  task_validate_maxsize _ _ _ _ _ len _ := Some (Z.max len (-1));
  malloc m size := (flat_brk m, Flat (flat_dir m) (flat_brk m + size));
  free m _ _ := m }.
Solve Obligations with by intros; simplify_eq/=.

Definition demo_regs (i : Z) : registers_t := Registers 0 0 0 0 0 0 0 0 i 0 0 35 0 0x1000 0.

Definition demo_task (i : Z) (en : bool) : task_state_t :=
  TaskState en false false PAUSE_NONE false false false i (100 + i) 0 0 (0x10000 * (i + 1)) 0
    (demo_regs i) (demo_regs 0) 0 E_NONE true
    (kqueue_init (replicate (Z.to_nat EVENT_QUEUE_SIZE) (TaskEvent E_NONE 0 [0; 0; 0; 0] 0)) EVENT_QUEUE_SIZE)
    0 (replicate 16 0) 0 false None None None (0x1000 * (i + 1)).

Definition demo_process (i : Z) : process_t :=
  Process (200 + i) 0x400000 0x400000 0x1000 false (-1) 0 0 (0x100000 * (i + 1)) [] []
    (replicate 64 0) 0 0 [-1; -1; -1] 0 0 0 (replicate 16 0) 0 0 0 [Some i; None; None; None] 1.

(** Tasks 0, 1 and 2 exist, task [cur] runs. *)
Definition demo_kern (cur : Z) : kern flat :=
  Kern flat (((fun i => demo_task i true) <$> [0; 1; 2]) ++ ((fun i => demo_task (Z.of_nat i) false) <$> seq 3 13))
    cur true (0x10000 * (cur + 1) - 100) (0x10000 * (cur + 1)) (Flat (0x100000 * (cur + 1)) 0x800000)
    {[0x1000 := demo_process 0; 0x2000 := demo_process 1; 0x3000 := demo_process 2]} ∅ 0 ∅ ∅ 0 0 1
    (Timed 0 false 0 ∅ ∅) (Futexes (replicate 256 0) ∅) 3 3 0.
