(* ===== verification/Sched.v ===== *)
(** * The scheduler (tasks.c)

    Round robin over the array of tasks, the switches between user contexts, and the slots
    of the array. A user context is the frame [regs] on the kernel stack for the task that
    runs and the field [registers] for the others. Launching the idle task when no task
    can run ([tasks_init]) is an argument. *)

From S2P Require Import Kern.

Local Open Scope Z_scope.

Section sched.
Context {M : Type} `{!Space M}.
Implicit Types (k : kern M).

Definition task_resumable (t : task_state_t) (resume_kernel : bool) : bool :=
  enabled t && negb (paused t) && (resume_kernel || (kernel_esp t =? 0)).

(** The loop of [next_task] when it stands at [task]. *)
Fixpoint next_task_loop (fuel : nat) (task : Z) (resume_kernel : bool) : K M Z := fun k =>
  match fuel with
  | O => Hang
  | S fuel =>
      let task := Z.rem (task + 1) TOTAL_TASKS in
      (t ← get_task task;
       if (task =? current_task k) && negb (task_resumable t resume_kernel) then mret (-1)
       else if task_resumable t resume_kernel then mret task
       else next_task_loop fuel task resume_kernel) k
  end.

(** [TOTAL_TASKS] turns visit every task, and the state does not change on the way. *)
Definition next_task (resume_kernel : bool) : K M Z := fun k =>
  next_task_loop (Z.to_nat TOTAL_TASKS) (current_task k) resume_kernel k.

Definition set_current (i : Z) : K M unit := modify (fun k => k <| current_task := i |>).

(** [if(dir != page_get_current()) swap_pagedir(dir)] for the process at [p]. *)
Definition enter_process (p : Z) : K M unit :=
  pr ← get_process p;
  modify (fun k => if page_dir pr =? page_get_current (k_mem k) then k
                   else k <| k_mem := swap_pagedir (k_mem k) (page_dir pr) |>).

Definition set_esp0 (i : Z) : K M unit :=
  t ← get_task i; modify (fun k => k <| tss_esp0 := kernel_stack_top t |>).

(** Save the context of task [old], take the one of task [new]. *)
Definition save_regs (i : Z) (regs : registers_t) : K M unit :=
  upd_task i (fun t => t <| registers := regs |>).

Definition swap_regs (old new : Z) (regs : registers_t) : K M registers_t :=
  _ ← set_esp0 new; _ ← save_regs old regs; t ← get_task new; mret (registers t).

(** Continue where the kernel stack of task [i] was parked: four registers and the
    return address are popped. *)
Definition resume_kernel (i : Z) : K M unit := fun k =>
  match zget (tasks k) i with
  | None => Fault
  | Some t => Away (k <| tasks := zset (tasks k) i (t <| kernel_esp := 0 |>) |>
                      <| k_esp := kernel_esp t + 20 |>)
  end.

Section switching.
Context (tasks_init : registers_t -> K M registers_t).

Definition switch_task (regs : registers_t) (resume : bool) : K M registers_t :=
  sw ← gets switching;
  if negb sw then mret regs
  else
    old ← get_current_task;
    n ← next_task resume;
    _ ← set_current n;
    regs ← (if n =? -1 then _ ← save_regs old regs; tasks_init regs else mret regs);
    cur ← get_current_task;
    let old := if n =? -1 then cur else old in
    t ← get_task cur;
    _ ← enter_process (t_process t);
    regs ← (if negb (old =? cur) then swap_regs old cur regs else mret regs);
    t ← get_task cur;
    _ ← when (negb (kernel_esp t =? 0)) (resume_kernel cur);
    mret regs.

End switching.

Definition switch_to_task (index : Z) (regs : registers_t) : K M (bool * registers_t) :=
  if (index <? 0) || (TOTAL_TASKS <=? index) then mret (false, regs)
  else
    t ← get_task index;
    if negb (enabled t) || paused t || negb (kernel_esp t =? 0) then mret (false, regs)
    else
      old ← get_current_task;
      _ ← set_current index;
      _ ← enter_process (t_process t);
      regs ← (if negb (index =? old) then swap_regs old index regs else mret regs);
      mret (true, regs).

(** The kernel thread that an interrupt leaves behind runs at the end of the handler. *)
Definition kernel_exit_resume (regs : registers_t) (task : Z) : K M bool :=
  cur ← get_current_task;
  if (Z.land (cs regs) 3 =? 0) || (cur <? 0) then mret false
  else
    t ← get_task task;
    if negb (enabled t) || paused t || (kernel_esp t =? 0) then mret false
    else
      _ ← save_regs cur regs;
      _ ← set_current task;
      _ ← enter_process (t_process t);
      _ ← set_esp0 task;
      _ ← resume_kernel task;
      mret true.

(** ** The slots of the array *)

Fixpoint exists_loop (n : nat) (i : Z) : K M bool :=
  match n with
  | O => mret false
  | S n =>
      t ← get_task i;
      if enabled t && negb (paused t) then mret true else exists_loop n (i + 1)
  end.

Definition task_exists : K M bool := exists_loop (Z.to_nat TOTAL_TASKS) 0.

Fixpoint free_index_loop (n : nat) (i : Z) : K M Z :=
  match n with
  | O => mret (-1)
  | S n =>
      t ← get_task i;
      cur ← get_current_task;
      if negb (enabled t) && negb (reserved t) && negb (i =? cur)
      then _ ← put_task i (t <| reserved := true |>); mret i
      else free_index_loop n (i + 1)
  end.

Definition get_free_task_index : K M Z := free_index_loop (Z.to_nat TOTAL_TASKS) 0.

Definition task_unreserve (task : Z) : K M unit :=
  if (task <? 0) || (TOTAL_TASKS <=? task) then mret tt
  else upd_task task (fun t => t <| reserved := false |>).

End sched.

(** ** Round robin *)

Section sched_spec.
Context {M : Type} `{!Space M}.
Implicit Types (k : kern M).

Definition can_run k (resume : bool) (i : Z) : Prop :=
  exists t, zget (tasks k) i = Some t /\ task_resumable t resume = true.

(** How many tasks round robin visits after the current one before it is at [i]. *)
Definition distance k (i : Z) : Z := (i - current_task k - 1) mod TOTAL_TASKS.

(** What the scheduler keeps: the processor's directory and kernel stack are those of the
    current task, which is not parked, and every task that can run has a process. *)
Record sched_ok k : Prop := {
  so_len : zlen (tasks k) = TOTAL_TASKS;
  so_cur : 0 <= current_task k < TOTAL_TASKS;
  so_proc i t : zget (tasks k) i = Some t -> enabled t = true ->
    is_Some (processes k !! t_process t);
  so_space t p : zget (tasks k) (current_task k) = Some t -> enabled t = true ->
    processes k !! t_process t = Some p -> page_dir p = page_get_current (k_mem k);
  so_esp0 t : zget (tasks k) (current_task k) = Some t -> enabled t = true ->
    tss_esp0 k = kernel_stack_top t;
  so_parked t : zget (tasks k) (current_task k) = Some t -> kernel_esp t = 0 }.

(** The user registers of task [i] while the frame of the current task holds [regs]. *)
Definition context k (regs : registers_t) (i : Z) : option registers_t :=
  if i =? current_task k then Some regs else registers <$> zget (tasks k) i.

Lemma task_at k i : zlen (tasks k) = TOTAL_TASKS -> 0 <= i < TOTAL_TASKS ->
  exists t, zget (tasks k) i = Some t.
Proof. intros Hl Hi. apply zget_is_Some. lia. Qed.

(** The loop stands [j] tasks after the current one, and none of them can run. *)
Lemma next_task_loop_spec k resume fuel j :
  zlen (tasks k) = TOTAL_TASKS -> 0 <= current_task k < TOTAL_TASKS ->
  0 <= j -> j + Z.of_nat fuel = TOTAL_TASKS ->
  (0 < fuel)%nat ->
  (forall i, can_run k resume i -> j <= distance k i) ->
  exists r, next_task_loop fuel ((current_task k + j) mod TOTAL_TASKS) resume k = Ret r k /\
    ((r = -1 /\ forall i, ~ can_run k resume i) \/
     (can_run k resume r /\ forall i, can_run k resume i -> distance k r <= distance k i)).
Proof.
  intros Hl Hc. revert j. induction fuel as [|fuel IH]; intros j Hj Hf Hpos Hno; [lia|].
  unfold distance, TOTAL_TASKS in *. cbn [next_task_loop]. unfold TOTAL_TASKS.
  set (c := current_task k) in *.
  assert (Ht' : Z.rem ((c + j) mod 16 + 1) 16 = (c + (j + 1)) mod 16).
  { rewrite Z.rem_mod_nonneg by (Z.div_mod_to_equations; lia).
    rewrite Zplus_mod_idemp_l. f_equal. lia. }
  rewrite Ht'. clear Ht'.
  set (task := (c + (j + 1)) mod 16).
  assert (Hr : 0 <= task < 16) by (apply Z.mod_pos_bound; lia).
  assert (Hd : (task - c - 1) mod 16 = j).
  { unfold task. Z.div_mod_to_equations. lia. }
  destruct (task_at k task Hl Hr) as [t Ht]. kget Ht. fold c.
  destruct (task_resumable t resume) eqn:Er.
  - rewrite andb_false_r. exists task. split; [done|]. right. split; [by exists t|].
    intros i Hi. rewrite Hd. by apply Hno.
  - rewrite andb_true_r.
    assert (Hnt : ~ can_run k resume task).
    { intros (t' & Ht' & Hr'). rewrite Ht in Ht'. simplify_eq. congruence. }
    assert (Hno' : forall i, can_run k resume i -> j + 1 <= (i - c - 1) mod 16).
    { intros i Hi. pose proof (Hno i Hi). destruct (decide ((i - c - 1) mod 16 = j)) as [He|]; [|lia].
      exfalso. apply Hnt. destruct Hi as (ti & Hti & Hri). pose proof (zget_Some_range _ _ _ Hti).
      assert (i = task) as ->; [|by exists ti]. unfold TOTAL_TASKS in *. Z.div_mod_to_equations. lia. }
    destruct (Z.eqb_spec task c) as [He|He].
    + exists (-1). split; [done|]. left. split; [done|]. intros i Hi. pose proof (Hno' i Hi).
      pose proof (Z.mod_pos_bound (i - c - 1) 16 ltac:(lia)).
      assert (j = 15) by (rewrite He in Hd; Z.div_mod_to_equations; lia). lia.
    + assert (j <> 15) by (unfold task in *; Z.div_mod_to_equations; lia).
      apply (IH (j + 1)); [lia..|done].
Qed.

Lemma next_task_spec k resume :
  zlen (tasks k) = TOTAL_TASKS -> 0 <= current_task k < TOTAL_TASKS ->
  exists r, next_task resume k = Ret r k /\
    ((r = -1 /\ forall i, ~ can_run k resume i) \/
     (can_run k resume r /\ forall i, can_run k resume i -> distance k r <= distance k i)).
Proof.
  intros Hl Hc.
  destruct (next_task_loop_spec k resume (Z.to_nat TOTAL_TASKS) 0) as (r & He & Hr);
    [done|done|done|done|unfold TOTAL_TASKS; lia| |].
  { intros i Hi. unfold distance, TOTAL_TASKS. apply Z.mod_pos_bound. lia. }
  exists r. split; [|done]. unfold next_task. rewrite Z.add_0_r, Z.mod_small in He by done. done.
Qed.

(** A frame that differs from [k] in the fields that a switch may change. *)
Record switched k k' (new : Z) : Prop := {
  sw_cur : current_task k' = new;
  sw_procs : processes k' = processes k;
  sw_len : zlen (tasks k') = zlen (tasks k);
  sw_switching : switching k' = switching k;
  sw_task i t' : zget (tasks k') i = Some t' -> exists t, zget (tasks k) i = Some t /\
    exists regs e, t' = t <| registers := regs |> <| kernel_esp := e |> /\ (i <> new -> e = kernel_esp t) }.

Lemma enter_process_run k p pr :
  processes k !! p = Some pr ->
  exists m, enter_process p k = Ret tt (k <| k_mem := m |>) /\ page_get_current m = page_dir pr.
Proof.
  intros Hp. unfold enter_process. kret (get_process_Some k p pr Hp). unfold modify.
  destruct (Z.eqb_spec (page_dir pr) (page_get_current (k_mem k))) as [He|He].
  - exists (k_mem k). split; [|done]. by destruct k.
  - exists (swap_pagedir (k_mem k) (page_dir pr)). split; [done|apply space_swap].
Qed.

(** From the moment the next task is chosen: its directory, its stack, its registers. *)
Lemma switch_to_run k new t regs :
  sched_ok k -> zget (tasks k) new = Some t -> enabled t = true ->
  exists m, page_get_current m = default 0 (page_dir <$> processes k !! t_process t) /\
  let k1 := k <| current_task := new |> <| k_mem := m |> in
  (enter_process (t_process t) (k <| current_task := new |>) = Ret tt k1) /\
  exists k2 regs',
    (if negb (current_task k =? new) then swap_regs (current_task k) new regs else mret regs) k1
      = Ret regs' k2 /\
    zget (tasks k2) new = Some t /\
    context k regs new = Some regs' /\ tss_esp0 k2 = kernel_stack_top t /\
    k_mem k2 = m /\ k_esp k2 = k_esp k /\ switched k k2 new /\
    (forall i, i <> new -> registers <$> zget (tasks k2) i = context k regs i).
Proof.
  intros [Hl Hc Hp Hs He Hk] Ht Hen. destruct (Hp _ _ Ht Hen) as [pr Hpr].
  set (k0 := k <| current_task := new |>).
  destruct (enter_process_run k0 (t_process t) pr Hpr) as (m & Hm & Hd).
  exists m. rewrite Hpr. split; [done|]. cbv zeta. split; [exact Hm|]. set (k1 := k <| current_task := new |> <| k_mem := m |>).
  destruct (Z.eqb_spec (current_task k) new) as [Heq|Hne]; simpl.
  - exists k1, regs. unfold context. rewrite Heq, Z.eqb_refl. split_and!; try done.
    + simpl. apply He; [by rewrite Heq|done].
    + constructor; try done. simpl. intros i t' Hi. exists t'. split; [done|].
      exists (registers t'), (kernel_esp t'). split; [by destruct t'|done].
    + intros i Hi. simpl. rewrite (proj2 (Z.eqb_neq _ _)) by done. done.
  - destruct (task_at k (current_task k) Hl Hc) as [told Hold].
    set (k2 := k1 <| tss_esp0 := kernel_stack_top t |>).
    assert (Ht1 : zget (tasks k1) new = Some t) by exact Ht.
    assert (Hold2 : zget (tasks k2) (current_task k) = Some told) by exact Hold.
    assert (Hs2 : set_esp0 new k1 = Ret tt k2) by (unfold set_esp0; by kget Ht1).
    unfold swap_regs, save_regs. kret Hs2. kupd Hold2.
    set (k3 := k2 <| tasks := _ |>).
    assert (Hnew : zget (tasks k3) new = Some t) by (simpl; by rewrite zget_zset_ne).
    kget Hnew. eexists _, _. split; [done|]. simpl. split_and!; try done.
    + unfold context. rewrite (proj2 (Z.eqb_neq _ _)) by done. by rewrite Ht.
    + constructor; try done; simpl; [apply zlen_zset|].
      intros i t' Hi. rewrite zget_zset in Hi. case_decide as Hd'.
      * destruct Hd' as [<- _]. simplify_eq. exists told. split; [done|].
        exists regs, (kernel_esp told). split; [by destruct told|done].
      * exists t'. split; [done|]. exists (registers t'), (kernel_esp t'). split; [by destruct t'|done].
    + intros i Hi. unfold context. rewrite zget_zset.
      destruct (Z.eqb_spec i (current_task k)) as [->|Hi'].
      * rewrite decide_True; [done|]. split; [done|]. by apply zget_Some_range in Hold.
      * rewrite decide_False by (intros [? _]; congruence). done.
Qed.

Lemma resumable_enabled t resume : task_resumable t resume = true -> enabled t = true.
Proof. unfold task_resumable. by destruct (enabled t). Qed.

(** The state after a switch satisfies the invariant again. *)
Lemma switched_ok k k' new t m :
  sched_ok k -> zget (tasks k) new = Some t -> switched k k' new ->
  k_mem k' = m -> page_get_current m = default 0 (page_dir <$> processes k !! t_process t) ->
  tss_esp0 k' = kernel_stack_top t ->
  (forall t', zget (tasks k') new = Some t' -> kernel_esp t' = 0) -> sched_ok k'.
Proof.
  intros [Hl Hc Hp Hs He Hk] Ht [Sc Sp Sl Ss St] Hm Hd Htop Hpk.
  pose proof (zget_Some_range _ _ _ Ht).
  constructor; rewrite ?Sl, ?Sc, ?Sp; try done; [unfold TOTAL_TASKS in *; lia|..].
  - intros i t' Hi Hen. destruct (St i t' Hi) as (t0 & Hi0 & ? & ? & -> & _). exact (Hp i t0 Hi0 Hen).
  - intros t' p Hi Hen Hpr. destruct (St new t' Hi) as (t0 & Hi0 & ? & ? & -> & _). simplify_eq.
    change (processes k !! t_process t = Some p) in Hpr. by rewrite Hpr in Hd.
  - intros t' Hi Hen. destruct (St new t' Hi) as (t0 & Hi0 & ? & ? & -> & _). by simplify_eq.
Qed.

Section switch.
Context (tasks_init : registers_t -> K M registers_t).

(** What [switch_task] does when round robin has found the task [new]. *)
Lemma switch_task_run k regs resume new t :
  sched_ok k -> switching k = true -> next_task resume k = Ret new k ->
  zget (tasks k) new = Some t -> task_resumable t resume = true ->
  exists k' regs',
    switch_task tasks_init regs resume k =
      (if kernel_esp t =? 0 then Ret regs' k' else Away k') /\
    (kernel_esp t = 0 -> context k regs new = Some regs') /\
    (kernel_esp t <> 0 -> k_esp k' = kernel_esp t + 20) /\
    sched_ok k' /\ switched k k' new /\
    (forall i, i <> new -> registers <$> zget (tasks k') i = context k regs i).
Proof.
  intros Hok Hsw Hn Ht Hr. pose proof (resumable_enabled _ _ Hr) as Hen.
  pose proof (zget_Some_range _ _ _ Ht) as Hrange.
  destruct (switch_to_run k new t regs Hok Ht Hen)
    as (m & Hm & Hp & k2 & regs' & Hsr & Ht2 & Hctx & Htop & Hm2 & Hesp & Hsd & Hoth).
  set (k0 := k <| current_task := new |>) in *. set (k1 := k0 <| k_mem := m |>) in *.
  assert (Hrun : switch_task tasks_init regs resume k =
    (when (negb (kernel_esp t =? 0)) (resume_kernel new) ≫= fun _ => mret regs') k2).
  { unfold switch_task. rewrite bind_gets, Hsw. cbn [negb]. unfold get_current_task.
    rewrite bind_gets. kret Hn. unfold set_current. rewrite bind_modify. fold k0.
    rewrite (proj2 (Z.eqb_neq new (-1))) by lia. rewrite (bind_Ret _ _ _ regs k0) by done.
    rewrite bind_gets. simpl (current_task k0).
    assert (Ht0 : zget (tasks k0) new = Some t) by exact Ht. kget Ht0. kret Hp. kret Hsr.
    by kget Ht2. }
  rewrite Hrun. destruct (Z.eqb_spec (kernel_esp t) 0) as [He|He]; simpl.
  - exists k2, regs'. split; [done|]. split; [done|]. split; [done|]. split; [|done].
    apply (switched_ok k k2 new t m); try done. intros t' Ht'. by simplify_eq.
  - unfold resume_kernel, mbind, K_mbind. rewrite Ht2. eexists _, regs'. split; [done|].
    split; [done|]. split; [done|]. destruct Hsd as [Sc Sp Sl Ss St].
    assert (Hsd' : switched k (k2 <| tasks := zset (tasks k2) new (t <| kernel_esp := 0 |>) |>
                      <| k_esp := kernel_esp t + 20 |>) new).
    { constructor; simpl; try done; [by rewrite zlen_zset|].
      intros i t' Hi. rewrite zget_zset in Hi. case_decide as Hd; [|by apply St].
      destruct Hd as [<- _]. simplify_eq. exists t. split; [done|].
      exists (registers t), 0. split; [by destruct t|done]. }
    split.
    + apply (switched_ok k _ new t m Hok Ht Hsd'); try done. simpl. intros t' Ht'.
      rewrite zget_zset_eq in Ht' by (by apply zget_Some_range in Ht2). by simplify_eq.
    + split; [done|]. intros i Hi. simpl. rewrite zget_zset_ne by done. by apply Hoth.
Qed.

End switch.

End sched_spec.

(** ** Theorems *)

Section theorems.
Context {M : Type} `{!Space M} (tasks_init : registers_t -> K M registers_t).

(** Where the processor goes on after a computation, when it goes on at all. *)
Definition goes_on {A} (r : res M A) (k' : kern M) : Prop :=
  (exists a, r = Ret a k') \/ r = Away k'.

(** C20: whenever some task can run, a context switch ends; it gives the processor to the
    first task after the current one, in the cyclic order of the array, that can run; that
    task finds its own registers (or its parked kernel stack), page directory and entry
    stack, and the registers of no task are lost. *)
Theorem context_switch_correct k (regs : registers_t) (resume : bool) :
  sched_ok k -> switching k = true -> (exists i, can_run k resume i) ->
  exists new t k',
    zget (tasks k) new = Some t /\ task_resumable t resume = true /\
    (forall i, can_run k resume i -> distance k new <= distance k i) /\
    (if kernel_esp t =? 0
     then exists regs', switch_task tasks_init regs resume k = Ret regs' k' /\
                        context k regs new = Some regs'
     else switch_task tasks_init regs resume k = Away k' /\ k_esp k' = kernel_esp t + 20) /\
    sched_ok k' /\ switched k k' new /\
    (forall i, i <> new -> registers <$> zget (tasks k') i = context k regs i).
Proof.
  intros Hok Hsw [j Hj].
  destruct (next_task_spec k resume (so_len _ Hok) (so_cur _ Hok)) as (new & Hn & [[_ Hno]|[Hcan Hmin]]).
  { by destruct (Hno j). }
  destruct Hcan as (t & Ht & Hr).
  destruct (switch_task_run tasks_init k regs resume new t) as (k' & regs' & He & Hc1 & Hc2 & H1 & H2 & H3);
    try done.
  exists new, t, k'. split_and!; try done. rewrite He. zcase; [|by auto]. eauto.
Qed.

(** C26: no task starves. Over any sixteen consecutive context switches of the timer, with
    anything happening in between that neither switches tasks nor breaks the invariant, a
    task that can run at each of them is given the processor at one of them. *)
Theorem scheduler_fair (ks ks' : nat -> kern M) (regs : nat -> registers_t) (i : Z) :
  (forall n, sched_ok (ks n) /\ switching (ks n) = true /\ can_run (ks n) true i) ->
  (forall n, goes_on (switch_task tasks_init (regs n) true (ks n)) (ks' n)) ->
  (forall n, current_task (ks (S n)) = current_task (ks' n)) ->
  exists n, (n < 16)%nat /\ current_task (ks' n) = i.
Proof.
  intros Hok Hgo Henv.
  assert (Hstep : forall n, current_task (ks' n) <> i ->
    distance (ks (S n)) i < distance (ks n) i).
  { intros n Hne. destruct (Hok n) as (Ho & Hs & Hc).
    destruct (context_switch_correct (ks n) (regs n) true Ho Hs ltac:(by exists i))
      as (new & t & k' & Ht & Hr & Hmin & Hsw & Ho' & [Sc _ _ _ _] & _).
    assert (Hk : ks' n = k').
    { destruct (kernel_esp t =? 0); [destruct Hsw as (r' & Hsw & _)|destruct Hsw as [Hsw _]];
        destruct (Hgo n) as [[a Ha]|Ha]; congruence. }
    pose proof (Hmin i Hc) as Hd. pose proof (zget_Some_range _ _ _ Ht) as Hn.
    rewrite (so_len _ Ho) in Hn. pose proof (so_cur _ Ho). destruct Hc as (ti & Hti & _).
    apply zget_Some_range in Hti. rewrite (so_len _ Ho) in Hti.
    unfold distance, TOTAL_TASKS in *. rewrite Henv, Hk in *. subst new.
    Z.div_mod_to_equations. lia. }
  assert (Hall : forall n, (exists m, (m < n)%nat /\ current_task (ks' m) = i) \/
    distance (ks n) i + Z.of_nat n <= 15).
  { induction n as [|n [(m & Hm & He)|IH]].
    - right. unfold distance, TOTAL_TASKS. pose proof (Z.mod_pos_bound (i - current_task (ks 0%nat) - 1) 16). lia.
    - left. exists m. split; [lia|done].
    - destruct (decide (current_task (ks' n) = i)) as [He|He]; [left; exists n; split; [lia|done]|].
      right. pose proof (Hstep n He). lia. }
  destruct (Hall 16%nat) as [(m & Hm & He)|Hd]; [by exists m|].
  unfold distance, TOTAL_TASKS in Hd. pose proof (Z.mod_pos_bound (i - current_task (ks 16%nat) - 1) 16). lia.
Qed.

End theorems.

(** ** Witnesses *)

Ltac list_cases H :=
  apply zget_elem, list_elem_of_In in H; simpl in H; repeat (destruct H as [<-|H]); [..|done].

Lemma demo_kern_ok cur : cur = 0 \/ cur = 1 \/ cur = 2 -> sched_ok (demo_kern cur).
Proof.
  intros Hc. constructor.
  - done.
  - simpl. unfold TOTAL_TASKS. lia.
  - intros i t Ht. list_cases Ht; try done; intros _; vm_compute; eauto.
  - intros t p Ht _. destruct Hc as [->|[->| ->]]; vm_compute in Ht; simplify_eq; intros Hp; vm_compute in Hp; by simplify_eq.
  - intros t Ht _. destruct Hc as [->|[->| ->]]; vm_compute in Ht; by simplify_eq.
  - intros t Ht. destruct Hc as [->|[->| ->]]; vm_compute in Ht; by simplify_eq.
Qed.

Lemma demo_can_run cur i : i = 0 \/ i = 1 \/ i = 2 -> can_run (demo_kern cur) true i.
Proof. intros Hi. destruct Hi as [->|[->| ->]]; eexists; done. Qed.

Definition no_init : registers_t -> K flat registers_t := fun _ => fault.

Lemma context_switch_correct_witness :
  exists new t k', zget (tasks (demo_kern 1)) new = Some t /\ new = 2 /\
    switch_task no_init (demo_regs 7) true (demo_kern 1) = Ret (demo_regs 2) k' /\
    registers <$> zget (tasks k') 1 = Some (demo_regs 7).
Proof.
  destruct (context_switch_correct no_init (demo_kern 1) (demo_regs 7) true)
    as (new & t & k' & Ht & Hr & Hmin & Hsw & Ho & Hs & Hctx).
  - apply demo_kern_ok. lia.
  - done.
  - exists 2. apply demo_can_run. lia.
  - assert (new = 2) as ->.
    { pose proof (Hmin 2 (demo_can_run 1 2 ltac:(lia))) as Hd. pose proof (zget_Some_range _ _ _ Ht) as Hn.
      unfold distance, TOTAL_TASKS in Hd. simpl in Hd.
      change (zlen (tasks (demo_kern 1))) with 16 in Hn. Z.div_mod_to_equations. lia. }
    vm_compute in Ht. simplify_eq. simpl in Hsw. destruct Hsw as (r & Hsw & Hc).
    vm_compute in Hc. simplify_eq. eexists 2, _, k'. split; [reflexivity|]. split; [done|].
    split; [exact Hsw|]. rewrite Hctx by done. reflexivity.
Defined.

Definition demo_run (n : nat) : kern flat := demo_kern (Z.of_nat n mod 3).
Definition demo_run' (n : nat) : kern flat :=
  (demo_kern (Z.of_nat (S n) mod 3)) <| k_esp := k_esp (demo_run n) |>.

Lemma mod3_cases (n : nat) :
  let c := Z.of_nat n mod 3 in let d := Z.of_nat (S n) mod 3 in
  (c = 0 /\ d = 1) \/ (c = 1 /\ d = 2) \/ (c = 2 /\ d = 0).
Proof. cbv zeta. Z.div_mod_to_equations. lia. Qed.

Lemma demo_run_step n :
  switch_task no_init (demo_regs (Z.of_nat n mod 3)) true (demo_run n)
  = Ret (demo_regs (Z.of_nat (S n) mod 3)) (demo_run' n).
Proof.
  unfold demo_run', demo_run. destruct (mod3_cases n) as [[-> ->]|[[-> ->]|[-> ->]]]; vm_compute; reflexivity.
Qed.

Lemma scheduler_fair_witness :
  exists n, (n < 16)%nat /\ current_task (demo_run' n) = 0.
Proof.
  apply (scheduler_fair no_init demo_run demo_run' (fun n => demo_regs (Z.of_nat n mod 3)) 0).
  - intros n. split; [|split].
    + apply demo_kern_ok. destruct (mod3_cases n) as [[-> _]|[[-> _]|[-> _]]]; lia.
    + done.
    + apply demo_can_run. lia.
  - intros n. left. eexists. apply demo_run_step.
  - intros n. done.
Defined.
