(* ===== verification/Events.v ===== *)
(** * Events, callbacks and voluntary switches (tasks.c, msg.c)

    The queue of events of a task, the calls of its subroutines, the notifications of
    message channels that are queued as events, and the switches a task makes from inside
    the kernel, which run the queued subroutines of the task they switch to. The effects on
    windows of a crash ([task_reset_windows], [wm_event]) are arguments. *)

From S2P Require Import Kern Sched.

Local Open Scope Z_scope.

Section events.
Context {M : Type} `{!Space M}.
Implicit Types (k : kern M) (q : kqueue task_event_t) (args : list Z).

(** ** Queueing an event *)

Definition arg (l : list Z) (i : Z) : K M Z := deref (zget l i).

Definition set_queue (i : Z) q : K M unit := upd_task i (fun t => t <| event_queue := q |>).

(** [memcpy(dest, args, sizeof(uint32_t)*argc)] *)
Definition copy_args (dest args : list Z) (argc : Z) : K M (list Z) :=
  if (0 <=? argc) && (argc <=? zlen args) && (argc <=? zlen dest)
  then mret (splice dest 0 (take (Z.to_nat argc) args)) else fault.

(** Scroll, hover and drag events are merged with the last event of the queue. *)
Definition coalesce_last (q : kqueue task_event_t) (type : task_event_type_t) (addr : Z)
    (args : list Z) (argc : Z) : K M (option (kqueue task_event_t)) :=
  match kqueue_last q with
  | None => mret None
  | Some c =>
      e ← deref (kqueue_get q c);
      if negb (e_addr e =? addr) || bool_decide (e_type e <> type) then mret None
      else
        a ← arg (e_args e) (argc - 1);
        b ← arg args (argc - 1);
        if negb (a =? b) then mret None
        else if bool_decide (type = E_SCROLL) && (e_argc e =? 3) && (argc =? 3) then
          d ← arg (e_args e) 0;
          a0 ← arg args 0; a1 ← arg args 1; a2 ← arg args 2;
          let l := zset (zset (zset (e_args e) 0 (u32 (d + a0))) 1 a1) 2 a2 in
          mret (Some (kqueue_store q c (e <| e_args := l |>)))
        else
          l ← copy_args (e_args e) args argc;
          mret (Some (kqueue_store q c (e <| e_args := l |> <| e_argc := argc |>)))
  end.

(** A message event is merged with the one queued for the same port and channel. *)
Fixpoint coalesce_msg (n : nat) (i : Z) (q : kqueue task_event_t) (addr : Z) (args : list Z)
    : K M (option (kqueue task_event_t)) :=
  match n with
  | O => mret None
  | S n =>
      let c := kqueue_at q i in
      e ← deref (kqueue_get q c);
      if negb (e_addr e =? addr) || bool_decide (e_type e <> E_MSG) then coalesce_msg n (i + 1) q addr args
      else
        p ← arg (e_args e) 0; p' ← arg args 0;
        ch ← arg (e_args e) 1; ch' ← arg args 1;
        if negb (p =? p') || negb (ch =? ch') then coalesce_msg n (i + 1) q addr args
        else
          f ← arg (e_args e) 2; f' ← arg args 2;
          mret (Some (kqueue_store q c (e <| e_args := zset (e_args e) 2 (Z.lor f f') |>)))
  end.

Definition coalesce (q : kqueue task_event_t) (type : task_event_type_t) (addr : Z)
    (args : list Z) (argc : Z) : K M (option (kqueue task_event_t)) :=
  match type with
  | E_HOVER | E_SCROLL | E_DRAGGED => coalesce_last q type addr args argc
  | E_MSG => coalesce_msg (Z.to_nat (kqueue_count q)) 0 q addr args
  | _ => mret None
  end.

Definition task_queue_subroutine (i : Z) (type : task_event_type_t) (addr : Z) (args : list Z)
    (argc : Z) : K M bool :=
  t ← get_task i;
  if negb (enabled t) || (TASK_EVENT_MAX_ARGS <? argc) then mret false
  else
    _ ← task_unsnooze i;
    let q := event_queue t in
    merged ← coalesce q type addr args argc;
    match merged with
    | Some q => _ ← set_queue i q; mret true
    | None =>
        match kqueue_reserve q with
        | None => mret false
        | Some (c, q) =>
            e ← deref (kqueue_get q c);
            l ← copy_args (e_args e) args argc;
            _ ← set_queue i (kqueue_store q c (TaskEvent type addr l argc));
            mret true
        end
    end.

(** ** Ports and channels *)

(** The linked list of ports from [p]. *)
Fixpoint find_port_loop (n : nat) (f : msg_port_t -> bool) (p : Z) : K M Z :=
  match n with
  | O => fun _ => Hang
  | S n =>
      if p =? 0 then mret 0
      else
        port ← get_port p;
        if f port then mret p else find_port_loop n f (port_next port)
  end.

Definition find_port (f : msg_port_t -> bool) : K M Z := fun k =>
  find_port_loop (S (S (size (port_objs k)))) f (ports k) k.

Definition find_port_by_uid (uid : Z) : K M Z := find_port (fun port => port_uid port =? uid).

Fixpoint find_channel_loop (n : nat) (i : Z) (l : list Z) (uid : Z) : K M Z :=
  match n with
  | O => mret (-1)
  | S n =>
      c ← deref (zget l i);
      if c =? 0 then find_channel_loop n (i + 1) l uid
      else
        ch ← get_channel c;
        if c_uid ch =? uid then mret i else find_channel_loop n (i + 1) l uid
  end.

Definition find_channel (port : msg_port_t) (uid : Z) : K M Z :=
  find_channel_loop (Z.to_nat (channel_count port)) 0 (channels port) uid.

(** [Some] for a task that still lives. *)
Definition msg_get_task (i uid : Z) : K M (option task_state_t) :=
  if (i <? 0) || (TOTAL_TASKS <=? i) then mret None
  else
    t ← get_task i;
    mret (if negb (enabled t) || negb (task_uid t =? uid) then None else Some t).

Inductive msg_notify_status_t := MSG_NOTIFY_DELIVERED | MSG_NOTIFY_NO_CALLBACK | MSG_NOTIFY_DROPPED.

#[global] Instance msg_notify_status_dec : EqDecision msg_notify_status_t.
Proof. solve_decision. Defined.

(** [call_msg_func] with no frame to switch from. *)
Definition queue_msg_func (i port_uid channel_uid flags : Z) : K M msg_notify_status_t :=
  t ← get_task i;
  if msg_func t =? 0 then _ ← task_wake i; mret MSG_NOTIFY_NO_CALLBACK
  else
    delivered ← task_queue_subroutine i E_MSG (msg_func t) [port_uid; channel_uid; flags] 3;
    mret (if delivered : bool then MSG_NOTIFY_DELIVERED else MSG_NOTIFY_DROPPED).

Definition msg_set_notify_pending (i c : Z) (server pending : bool) : K M unit :=
  _ ← upd_channel c (fun ch => if server then ch <| server_notify_pending := pending |>
                              else ch <| client_notify_pending := pending |>);
  when pending (upd_task i (fun t => t <| msg_notify_pending := true |>)).

Definition clear_flags (c : Z) (server : bool) : K M unit :=
  upd_channel c (fun ch => if server then ch <| server_flags := 0 |> else ch <| client_flags := 0 |>).

Definition flags_of (ch : msg_channel_t) (server : bool) : Z :=
  if server then server_flags ch else client_flags ch.

(** Notify the server or client end of channel [c], which task [i] is. *)
Definition retry_channel (i c port : Z) (server : bool) : K M unit :=
  ch ← get_channel c;
  notified ← queue_msg_func i port (c_uid ch) (flags_of ch server);
  _ ← msg_set_notify_pending i c server (bool_decide (notified = MSG_NOTIFY_DROPPED));
  when (bool_decide (notified = MSG_NOTIFY_DELIVERED)) (clear_flags c server).

(** [for(i = 0; i < n; i++)] over the pointers of an array, [NULL] skipped. The body of
    these loops does not change the array. *)
Fixpoint each (n : nat) (i : Z) (l : list Z) (f : Z -> K M unit) : K M unit :=
  match n with
  | O => mret tt
  | S n =>
      p ← deref (zget l i);
      _ ← when (negb (p =? 0)) (f p);
      each n (i + 1) l f
  end.

Definition msg_retry_task_notifications (i : Z) : K M unit :=
  t ← get_task i;
  if negb (msg_notify_pending t) then mret tt
  else
    _ ← upd_task i (fun t => t <| msg_notify_pending := false |>);
    _ ← each (Z.to_nat (msg_channel_count t)) 0 (msg_channels t) (fun c =>
      ch ← get_channel c;
      when (client_notify_pending ch) (retry_channel i c (c_port_uid ch) false));
    pr ← get_process (t_process t);
    each (Z.to_nat (port_count pr)) 0 (p_ports pr) (fun p =>
      port ← get_port p;
      when (owner_taskuid port =? task_uid t)
        (each (Z.to_nat (channel_count port)) 0 (channels port) (fun c =>
          ch ← get_channel c;
          when (server_notify_pending ch) (retry_channel i c (port_uid port) true)))).

Definition queue_of (ch : msg_channel_t) (server_to_client : bool) : msg_queue_t :=
  if server_to_client then queue1 ch else queue0 ch.

Definition msg_notif_is_stale (i port_uid channel_uid : Z) : K M bool :=
  t ← get_task i;
  p ← find_port_by_uid port_uid;
  if p =? 0 then mret true
  else
    port ← get_port p;
    c ← find_channel port channel_uid;
    if c <? 0 then mret true
    else
      cp ← deref (zget (channels port) c);
      ch ← get_channel cp;
      if negb (task_uid t =? server_taskuid ch) && negb (task_uid t =? client_taskuid ch) then mret true
      else
        let server := task_uid t =? server_taskuid ch in
        if negb (if server then server_connected ch else client_connected ch) then mret true
        else if 0 <? count (queue_of ch (negb server)) then mret false
        else mret (flags_of ch server =? 0).

(** ** Callbacks *)

(** The bytes of an array of words. *)
Definition words (l : list Z) : list Z := l ≫= to_le32.

(** The frame of the call: an unused return address and the arguments. *)
Definition task_execute_subroutine (regs : registers_t) (type : task_event_type_t) (addr : Z)
    (args : list Z) (argc : Z) : K M (bool * registers_t) :=
  if TASK_EVENT_MAX_ARGS <? argc then panic
  else
    l ← copy_args (replicate (Z.to_nat TASK_EVENT_MAX_ARGS) 0) args argc;
    let size := 4 * (argc + 1) in
    let frame := words (eip regs :: take (Z.to_nat argc) l) in
    cur ← get_current_task;
    t ← get_task cur;
    pr ← get_process (t_process t);
    m ← gets k_mem;
    r ← deref (copy_to_task m (page_dir pr) (heap_start pr) (heap_end pr) (u32 (useresp regs - size)) frame);
    _ ← modify (fun k => k <| k_mem := snd r |>);
    if negb (fst r =? size) then mret (false, regs)
    else
      buffer ← (if bool_decide (type = E_CHECKCMD) then arg args 0 else mret 0);
      _ ← upd_task cur (fun t => t <| routine := type |> <| checkcmd_buffer := buffer |>
                                    <| routine_return_regs := regs |>);
      mret (true, regs <| useresp := u32 (useresp regs - size) |> <| eip := addr |>).

Section callbacks.
Context (tasks_init : registers_t -> K M registers_t)
  (task_reset_windows : Z -> K M unit) (wm_event_crash : Z -> Z -> Z -> K M unit)
  (cleanup_checkcmd_args : Z -> Z -> K M unit).

(** Freeze a task that crashed; with a frame, switch away from it. *)
Definition pause_task (i : Z) (regs : option registers_t) : K M (option registers_t) :=
  if (i <? 0) || (TOTAL_TASKS <=? i) then mret regs
  else
    t ← get_task i;
    if negb (enabled t) then mret regs
    else
      _ ← task_reset_windows i;
      _ ← task_pause i PAUSE_CRASH;
      _ ← upd_task i (fun t => t <| crashed := true |>);
      cur ← get_current_task;
      others ← (if i =? cur then mret true else task_exists);
      match regs with
      | Some r => if (i =? cur) || negb others
                  then r ← switch_task tasks_init r false; mret (Some r) else mret regs
      | None => mret None
      end.

Definition crash_task (int_no : Z) (regs : option registers_t) (i : Z) : K M (option registers_t) :=
  regs ← pause_task i regs;
  t ← get_task i;
  pr ← get_process (t_process t);
  _ ← wm_event_crash i (p_uid pr) int_no;
  mret regs.

(** Every turn removes an event from the queue; what is queued on the way are the
    notifications that were dropped when the queue was full, at most one per channel. *)
Definition queued_fuel : nat := 400.

Fixpoint execute_queued_loop (fuel : nat) (regs : registers_t) (i : Z) : K M (bool * registers_t) :=
  match fuel with
  | O => fun _ => Hang
  | S fuel =>
      t ← get_task i;
      match kqueue_peek (event_queue t) with
      | None => mret (false, regs)
      | Some c =>
          e ← deref (kqueue_get (event_queue t) c);
          stale ← (if bool_decide (e_type e <> E_MSG) then mret false
                   else
                     f ← arg (e_args e) 2;
                     if negb (f =? 0) then mret false
                     else p ← arg (e_args e) 0; ch ← arg (e_args e) 1; msg_notif_is_stale i p ch);
          r ← (if stale : bool then mret (true, regs)
               else
                 r ← switch_to_task i regs;
                 if negb (fst r) then mret r
                 else
                   r ← task_execute_subroutine (snd r) (e_type e) (e_addr e) (e_args e) (e_argc e);
                   if negb (fst r) then _ ← crash_task 14 None i; mret r else mret r);
          if negb (fst r) then mret r
          else
            _ ← upd_task i (fun t => t <| event_queue := kqueue_drop (event_queue t) |>);
            _ ← msg_retry_task_notifications i;
            if negb stale then mret r else execute_queued_loop fuel (snd r) i
      end
  end.

Definition task_execute_queued_subroutine (regs : registers_t) (i : Z) : K M (bool * registers_t) :=
  t ← get_task i;
  if bool_decide (routine t <> E_NONE) || crashed t then mret (false, regs)
  else execute_queued_loop queued_fuel regs i.

(** Call a subroutine of task [i] now if it can run, else queue the call. *)
Definition task_call_subroutine (regs : registers_t) (i : Z) (type : task_event_type_t)
    (addr : Z) (args : list Z) (argc : Z) : K M (bool * registers_t) :=
  t ← get_task i;
  if negb (enabled t) then mret (false, regs)
  else
    _ ← task_unsnooze i;
    t ← get_task i;
    if paused t || bool_decide (routine t <> E_NONE) || negb (kernel_esp t =? 0)
    then b ← task_queue_subroutine i type addr args argc; mret (b, regs)
    else
      r ← switch_to_task (task_id t) regs;
      if negb (fst r) then mret (false, snd r)
      else
        let regs := snd r in
        t ← get_task i;
        match kqueue_peek (event_queue t) with
        | Some _ =>
            queued ← task_queue_subroutine i type addr args argc;
            cur ← get_current_task;
            r ← task_execute_queued_subroutine regs cur;
            t ← get_task i;
            regs ← (if negb (fst r) && crashed t then switch_task tasks_init (snd r) false
                    else mret (snd r));
            mret (queued, regs)
        | None =>
            r ← task_execute_subroutine regs type addr args argc;
            if negb (fst r)
            then regs ← crash_task 14 (Some (snd r)) (task_id t); mret (false, default (snd r) regs)
            else mret (true, snd r)
        end.

Definition call_msg_func (regs : option registers_t) (i port_uid channel_uid flags : Z)
    : K M (msg_notify_status_t * option registers_t) :=
  match regs with
  | None => s ← queue_msg_func i port_uid channel_uid flags; mret (s, None)
  | Some r =>
      t ← get_task i;
      if msg_func t =? 0 then _ ← task_wake i; mret (MSG_NOTIFY_NO_CALLBACK, regs)
      else
        d ← task_call_subroutine r i E_MSG (msg_func t) [port_uid; channel_uid; flags] 3;
        mret (if fst d : bool then MSG_NOTIFY_DELIVERED else MSG_NOTIFY_DROPPED, Some (snd d))
  end.

(** The end of a subroutine of the current task. *)
Definition task_subroutine_end (regs : registers_t) : K M registers_t :=
  cur ← get_current_task;
  t ← get_task cur;
  if bool_decide (routine t = E_NONE) then mret regs
  else
    let regs := routine_return_regs t in
    _ ← when (bool_decide (routine t = E_CHECKCMD)) (cleanup_checkcmd_args (t_process t) (checkcmd_buffer t));
    _ ← upd_task cur (fun t => t <| checkcmd_buffer := 0 |> <| routine := E_NONE |>);
    r ← task_execute_queued_subroutine regs cur;
    cur ← get_current_task;
    _ ← msg_retry_task_notifications cur;
    t ← get_task cur;
    if paused t then switch_task tasks_init (snd r) false else mret (snd r).

(** ** Switches from inside the kernel *)

(** The current task is inside a system call, on its own kernel stack. *)
Definition can_park : K M bool := fun k =>
  if negb (switching k) || (current_task k <? 0) then Ret false k
  else
    (t ← get_task (current_task k);
     let top := kernel_stack_top t in
     mret (in_syscall t && (u32 (top - KSTACK_SIZE) <? k_esp k) && (k_esp k <=? top))) k.

(** [yield_to_user] and [yield_to_kernel] push the two arguments, the return address and
    four registers, and store the stack pointer in [kernel_esp] of task [i]. *)
Definition park (i : Z) : K M unit :=
  sp ← gets k_esp; upd_task i (fun t => t <| kernel_esp := u32 (sp - 28) |>).

Definition leave {A} : K M A := fun k => Away k.

Definition REGISTERS_SIZE : Z := 60.

Definition kernel_yield_to (next : Z) : K M bool :=
  ok ← can_park;
  if negb ok then mret false
  else
    cur ← get_current_task;
    c ← get_task cur;
    if (next <? 0) || (TOTAL_TASKS <=? next) || (next =? task_id c) then mret false
    else
      t ← get_task next;
      if negb (task_resumable t true) then mret false
      else
        _ ← set_current next;
        _ ← set_esp0 next;
        _ ← enter_process (t_process t);
        if kernel_esp t =? 0 then
          (* the frame of the call is the field [registers] of the task *)
          r ← task_execute_queued_subroutine (registers t) next;
          _ ← save_regs next (snd r);
          t ← get_task next;
          if crashed t then
            _ ← set_current (task_id c);
            _ ← set_esp0 cur;
            _ ← enter_process (t_process c);
            mret false
          else
            _ ← park cur;
            _ ← modify (fun k => k <| k_esp := kernel_stack_top t - REGISTERS_SIZE |>);
            leave
        else
          _ ← park cur;
          resume_kernel next;; leave.

Fixpoint kernel_yield_loop (fuel : nat) (next : Z) : K M bool :=
  match fuel with
  | O => fun _ => Hang
  | S fuel =>
      if next <? 0 then mret false
      else
        ok ← kernel_yield_to next;
        if ok : bool then mret true
        else
          next2 ← next_task true;
          if next =? next2 then mret false else kernel_yield_loop fuel next2
  end.

(** A turn that goes on has crashed the task it tried. *)
Definition kernel_yield : K M bool :=
  next ← next_task true;
  kernel_yield_loop (Z.to_nat TOTAL_TASKS + 1) next.

Definition kernel_block : K M unit :=
  ok ← kernel_yield; if ok : bool then mret tt else panic.

(** [irr] is the request register of the interrupt controller. *)
Definition kernel_yield_if_blocking (irr : Z) : K M bool :=
  ok ← can_park;
  if negb ok then mret false
  else if Z.land irr 1 =? 0 then mret false
  else kernel_yield.

Definition SIZEOF_PROCESS : Z := 932.

(** The end of a kernel thread. *)
Definition end_kthread (i : Z) : K M unit :=
  t ← get_task i;
  if negb (in_syscall t) then mret tt
  else
    _ ← put_task i (t <| enabled := false |> <| reserved := false |>);
    _ ← when (negb (t_process t =? 0))
          (_ ← modify (fun k => k <| k_mem := free (k_mem k) (t_process t) SIZEOF_PROCESS |>);
           upd_task i (fun t => t <| t_process := 0 |>));
    cur ← get_current_task;
    if i =? cur then kernel_block else mret tt.

End callbacks.

End events.
