(* ===== verification/Hoare.v ===== *)
(** * Postconditions of kernel functions

    [wp m Q k]: wherever [m] goes on from [k], [Q] holds, of its result, or of [None] when
    the processor leaves for another task. [returns R m]: [m] never leaves the processor,
    and the state in which it returns is related by the preorder [R] to the one it started
    from; [returns eq] is a function that only reads. [exits m Q k]: [m] comes back, and with [Q]. *)

From S2P Require Import Kern.

Local Open Scope Z_scope.

Section wp.
Context {M : Type}.
Implicit Types (k : kern M).

Definition wp {A} (m : K M A) (Q : option A -> kern M -> Prop) k : Prop :=
  match m k with Ret a k' => Q (Some a) k' | Away k' => Q None k' | _ => True end.

Definition returns (R : kern M -> kern M -> Prop) {A} (m : K M A) : Prop := forall k,
  match m k with Ret _ k' => R k k' | Away _ => False | _ => True end.

Lemma wp_Ret {A} (m : K M A) Q k a k' : wp m Q k -> m k = Ret a k' -> Q (Some a) k'.
Proof. unfold wp. intros Hm Hk. by rewrite Hk in Hm. Qed.

Lemma wp_Away {A} (m : K M A) Q k k' : wp m Q k -> m k = Away k' -> Q None k'.
Proof. unfold wp. intros Hm Hk. by rewrite Hk in Hm. Qed.

Lemma wp_ret {A} (a : A) Q k : Q (Some a) k -> wp (mret a) Q k.
Proof. done. Qed.

Lemma wp_fault {A} (Q : option A -> kern M -> Prop) k : wp fault Q k.
Proof. done. Qed.

Lemma wp_mono {A} (m : K M A) (P Q : option A -> kern M -> Prop) k :
  wp m P k -> (forall o k', P o k' -> Q o k') -> wp m Q k.
Proof. unfold wp. intros HP HPQ. destruct (m k); auto. Qed.

Lemma wp_bind {A B} (m : K M A) (f : A -> K M B) Q k :
  wp m (fun o k' => match o with Some a => wp (f a) Q k' | None => Q None k' end) k -> wp (m ≫= f) Q k.
Proof. unfold wp, mbind, K_mbind. by destruct (m k). Qed.

(** What only reads comes back in the same state. *)
Lemma wp_reads {A B} (m : K M A) (f : A -> K M B) Q k :
  returns eq m -> (forall a, m k = Ret a k -> wp (f a) Q k) -> wp (m ≫= f) Q k.
Proof.
  intros Hm Hf. apply wp_bind. specialize (Hm k). unfold wp. destruct (m k) as [a k'| | | |] eqn:E; try done.
  subst k'. by apply Hf.
Qed.

Lemma wp_returns {A B} R (m : K M A) (f : A -> K M B) Q k :
  returns R m -> (forall a k', R k k' -> wp (f a) Q k') -> wp (m ≫= f) Q k.
Proof. intros Hm Hf. apply wp_bind. specialize (Hm k). unfold wp. destruct (m k); try done. by apply Hf. Qed.

Lemma wp_keeps {A B} R (m : K M A) (f : A -> K M B) (Q : option B -> kern M -> Prop) k :
  keeps R m -> (forall a k', R k k' -> wp (f a) Q k') -> (forall k', R k k' -> Q None k') -> wp (m ≫= f) Q k.
Proof.
  intros Hm Hf Hq. apply wp_bind. specialize (Hm k). unfold wp. destruct (m k); try done; auto. by apply Hf.
Qed.

Lemma wp_deref {A B} (o : option A) (f : A -> K M B) Q k :
  (forall a, o = Some a -> wp (f a) Q k) -> wp (deref o ≫= f) Q k.
Proof. intros Hf. apply wp_bind. unfold wp, deref. destruct o; [by apply Hf|done]. Qed.

Lemma wp_get_task {B} i (f : task_state_t -> K M B) Q k :
  (forall t, zget (tasks k) i = Some t -> wp (f t) Q k) -> wp (get_task i ≫= f) Q k.
Proof. intros Hf. apply wp_bind. unfold wp, get_task, deref. destruct (zget (tasks k) i); [by apply Hf|done]. Qed.

Lemma wp_get_port {B} p (f : msg_port_t -> K M B) Q k :
  (forall x, port_objs k !! p = Some x -> wp (f x) Q k) -> wp (get_port p ≫= f) Q k.
Proof. intros Hf. apply wp_bind. unfold wp, get_port, deref. destruct (port_objs k !! p); [by apply Hf|done]. Qed.

Lemma wp_get_channel {B} p (f : msg_channel_t -> K M B) Q k :
  (forall x, channel_objs k !! p = Some x -> wp (f x) Q k) -> wp (get_channel p ≫= f) Q k.
Proof. intros Hf. apply wp_bind. unfold wp, get_channel, deref. destruct (channel_objs k !! p); [by apply Hf|done]. Qed.

Lemma wp_upd_channel {B} c g (f : unit -> K M B) Q k :
  (forall ch, channel_objs k !! c = Some ch ->
     wp (f tt) Q (k <| channel_objs := <[c := g ch]> (channel_objs k) |>)) ->
  wp (upd_channel c g ≫= f) Q k.
Proof.
  intros Hf. apply wp_bind. unfold wp, upd_channel, get_channel, deref, mbind, K_mbind.
  destruct (channel_objs k !! c); [by apply Hf|done].
Qed.

Lemma wp_upd_task {B} i g (f : unit -> K M B) Q k :
  (forall t, zget (tasks k) i = Some t -> wp (f tt) Q (k <| tasks := zset (tasks k) i (g t) |>)) ->
  wp (upd_task i g ≫= f) Q k.
Proof.
  intros Hf. apply wp_bind. unfold wp, upd_task, put_task, modify, get_task, deref, mbind, K_mbind.
  destruct (zget (tasks k) i) as [t|]; [by apply Hf|done].
Qed.

Lemma wp_gets {A B} (g : kern M -> A) (f : A -> K M B) Q k : wp (f (g k)) Q k -> wp (gets g ≫= f) Q k.
Proof. done. Qed.

Lemma wp_modify {B} g (f : unit -> K M B) Q k : wp (f tt) Q (g k) -> wp (modify g ≫= f) Q k.
Proof. done. Qed.

Lemma wp_get_process {B} p (f : process_t -> K M B) Q k :
  (forall x, processes k !! p = Some x -> wp (f x) Q k) -> wp (get_process p ≫= f) Q k.
Proof. intros Hf. apply wp_bind. unfold wp, get_process, deref. destruct (processes k !! p); [by apply Hf|done]. Qed.

Lemma wp_upd_port {B} p g (f : unit -> K M B) Q k :
  (forall x, port_objs k !! p = Some x -> wp (f tt) Q (k <| port_objs := <[p := g x]> (port_objs k) |>)) ->
  wp (upd_port p g ≫= f) Q k.
Proof.
  intros Hf. apply wp_bind. unfold wp, upd_port, get_port, modify, deref, mbind, K_mbind.
  destruct (port_objs k !! p); [by apply Hf|done].
Qed.

Lemma wp_upd_process {B} p g (f : unit -> K M B) Q k :
  (forall x, processes k !! p = Some x -> wp (f tt) Q (k <| processes := <[p := g x]> (processes k) |>)) ->
  wp (upd_process p g ≫= f) Q k.
Proof.
  intros Hf. apply wp_bind. unfold wp, upd_process, get_process, modify, deref, mbind, K_mbind.
  destruct (processes k !! p); [by apply Hf|done].
Qed.

(** A last call is bound to a return. *)
Lemma wp_last {A} (m : K M A) Q k : wp (m ≫= mret) Q k -> wp m Q k.
Proof. unfold wp, mbind, K_mbind. by destruct (m k). Qed.

Lemma wp_when {B} (b : bool) m (f : unit -> K M B) Q k :
  (b = true -> wp (m ≫= f) Q k) -> (b = false -> wp (f tt) Q k) -> wp (when b m ≫= f) Q k.
Proof. destruct b; auto. Qed.

Lemma wp_assoc {A B C} (m : K M A) (g : A -> K M B) (f : B -> K M C) Q k :
  wp (m ≫= fun a => g a ≫= f) Q k -> wp ((m ≫= g) ≫= f) Q k.
Proof. unfold wp, mbind, K_mbind. by destruct (m k). Qed.

Lemma wp_if {A} (b : bool) (m1 m2 : K M A) Q k :
  (b = true -> wp m1 Q k) -> (b = false -> wp m2 Q k) -> wp (if b then m1 else m2) Q k.
Proof. destruct b; auto. Qed.

(** The state in which a call ends: with its result, or away from the task. *)
Definition ended {A} (r : res M A) : option (option A * kern M) :=
  match r with Ret a k => Some (Some a, k) | Away k => Some (None, k) | _ => None end.

Lemma wp_ended {A} (m : K M A) Q k o k' : wp m Q k -> ended (m k) = Some (o, k') -> Q o k'.
Proof. unfold wp, ended. destruct (m k); intros; simplify_eq; done. Qed.

End wp.

Section returns.
Context {M : Type} (R : kern M -> kern M -> Prop) `{!PreOrder R}.

Lemma returns_keeps {A} (m : K M A) : returns R m -> keeps R m.
Proof. intros Hm k. specialize (Hm k). by destruct (m k). Qed.

Lemma returns_mret {A} (a : A) : returns R (mret a).
Proof. intros k. simpl. reflexivity. Qed.

Lemma returns_stop {A} : returns R (@fault M A) /\ returns R (fun _ => @Hang M A).
Proof. done. Qed.

Lemma returns_deref {A} (o : option A) : returns R (deref o).
Proof. destruct o; [apply returns_mret|done]. Qed.

Lemma returns_gets {A} (f : kern M -> A) : returns R (gets f).
Proof. intros k. simpl. reflexivity. Qed.

Lemma returns_get_task i : returns R (get_task i).
Proof. intros k. apply returns_deref. Qed.

Lemma returns_get_port i : returns R (get_port i).
Proof. intros k. apply returns_deref. Qed.

Lemma returns_get_channel i : returns R (get_channel i).
Proof. intros k. apply returns_deref. Qed.

Lemma returns_seq {A B} (m : K M A) (f : A -> K M B) :
  returns R m -> (forall a, returns R (f a)) -> returns R (m ≫= f).
Proof.
  intros Hm Hf k. specialize (Hm k). unfold mbind, K_mbind. destruct (m k) as [a k1| | | |]; try done.
  specialize (Hf a k1). destruct (f a k1); try done. by etransitivity.
Qed.

Lemma returns_when b (m : K M unit) : returns R m -> returns R (when b m).
Proof. destruct b; [done|]. intros _. apply returns_mret. Qed.

Lemma returns_get_process p : returns R (get_process p).
Proof. intros k. apply returns_deref. Qed.

Lemma returns_modify f : (forall k, R k (f k)) -> returns R (modify f).
Proof. intros Hf k. apply Hf. Qed.

Lemma returns_upd_port p f :
  (forall k x, R k (k <| port_objs := <[p := f x]> (port_objs k) |>)) -> returns R (upd_port p f).
Proof.
  intros Hf k. unfold upd_port, mbind, K_mbind, get_port, deref.
  destruct (port_objs k !! p) as [t|]; simpl; [|done]. by apply Hf.
Qed.

Lemma returns_upd_task i f :
  (forall k t, R k (k <| tasks := zset (tasks k) i (f t) |>)) -> returns R (upd_task i f).
Proof.
  intros Hf k. unfold upd_task, mbind, K_mbind, get_task, deref.
  destruct (zget (tasks k) i) as [t|]; simpl; [|done]. by apply Hf.
Qed.

End returns.

#[export] Hint Resolve returns_mret returns_deref returns_gets returns_get_task returns_get_port
  returns_get_channel returns_get_process : keeps.
#[export] Hint Extern 1 (returns _ (fun _ => Hang)) => apply returns_stop : keeps.
#[export] Hint Extern 1 (returns _ fault) => apply returns_stop : keeps.

Ltac returns_step :=
  match goal with
  | |- returns _ (mbind _ _) => apply returns_seq; [typeclasses eauto| |intros ?]
  | |- returns _ (when _ _) => apply returns_when; [typeclasses eauto|]
  | |- returns _ (let _ := _ in _) => cbv zeta
  | |- returns _ (match ?x with _ => _ end) => destruct x
  | |- returns _ _ => solve [eauto with keeps typeclass_instances]
  end.
Ltac returns := repeat returns_step.

Lemma returns_mono {M A} (R S : kern M -> kern M -> Prop) (m : K M A) :
  (forall k k', R k k' -> S k k') -> returns R m -> returns S m.
Proof. intros Hi Hm k. specialize (Hm k). destruct (m k); eauto. Qed.

(** [m] returns with [Q], unless it accesses memory outside every object: it does not run
    on, panic or leave the processor. *)
Definition exits {M A} (m : K M A) (Q : A -> kern M -> Prop) (k : kern M) : Prop :=
  match m k with Ret a k' => Q a k' | Fault => True | _ => False end.

Section exits.
Context {M : Type}.
Implicit Types (k : kern M).

Lemma exits_ret {A} (a : A) Q k : Q a k -> exits (mret a) Q k.
Proof. done. Qed.

Lemma exits_bind {A B} (m : K M A) (f : A -> K M B) (P : A -> kern M -> Prop) Q k :
  exits m P k -> (forall a k', P a k' -> exits (f a) Q k') -> exits (m ≫= f) Q k.
Proof. unfold exits, mbind, K_mbind. intros Hm Hf. destruct (m k); try done. by apply Hf. Qed.

Lemma exits_mono {A} (m : K M A) (P Q : A -> kern M -> Prop) k :
  exits m P k -> (forall a k', P a k' -> Q a k') -> exits m Q k.
Proof. unfold exits. intros Hm Hi. destruct (m k); auto. Qed.

Lemma exits_get_task {B} i (f : task_state_t -> K M B) Q k :
  (forall t, zget (tasks k) i = Some t -> exits (f t) Q k) -> exits (get_task i ≫= f) Q k.
Proof. intros Hf. unfold exits, mbind, K_mbind, get_task, deref. destruct (zget (tasks k) i); [by apply Hf|done]. Qed.

Lemma exits_get_process {B} p (f : process_t -> K M B) Q k :
  (forall x, processes k !! p = Some x -> exits (f x) Q k) -> exits (get_process p ≫= f) Q k.
Proof. intros Hf. unfold exits, mbind, K_mbind, get_process, deref. destruct (processes k !! p); [by apply Hf|done]. Qed.

Lemma exits_deref {A B} (o : option A) (f : A -> K M B) Q k :
  (forall a, o = Some a -> exits (f a) Q k) -> exits (deref o ≫= f) Q k.
Proof. intros Hf. unfold exits, mbind, K_mbind, deref. destruct o; [by apply Hf|done]. Qed.

Lemma exits_upd_task {B} i g (f : unit -> K M B) Q k :
  (forall t, zget (tasks k) i = Some t -> exits (f tt) Q (k <| tasks := zset (tasks k) i (g t) |>)) ->
  exits (upd_task i g ≫= f) Q k.
Proof.
  intros Hf. unfold exits, upd_task, put_task, modify, get_task, deref, mbind, K_mbind.
  destruct (zget (tasks k) i) as [t|]; [by apply Hf|done].
Qed.

Lemma exits_last {A} (m : K M A) Q k : exits (m ≫= mret) Q k -> exits m Q k.
Proof. unfold exits, mbind, K_mbind. by destruct (m k). Qed.

Lemma exits_if {A} (b : bool) (m1 m2 : K M A) Q k :
  (b = true -> exits m1 Q k) -> (b = false -> exits m2 Q k) -> exits (if b then m1 else m2) Q k.
Proof. destruct b; auto. Qed.

Lemma exits_seq {A B C} (m : K M A) (f : A -> K M B) (g : B -> K M C) Q k :
  exits (m ≫= fun a => f a ≫= g) Q k -> exits ((m ≫= f) ≫= g) Q k.
Proof. unfold exits, mbind, K_mbind. by destruct (m k). Qed.

Lemma exits_Ret {A} (m : K M A) Q k a k' : exits m Q k -> m k = Ret a k' -> Q a k'.
Proof. unfold exits. intros H Hm. by rewrite Hm in H. Qed.

Lemma wp_exits {A B} (m : K M A) (f : A -> K M B) P (Q : option B -> kern M -> Prop) k :
  exits m P k -> (forall a k', P a k' -> wp (f a) Q k') -> wp (m ≫= f) Q k.
Proof. unfold exits, wp, mbind, K_mbind. intros Hm Hf. destruct (m k); try done. by apply Hf. Qed.

Lemma exits_gets {A B} (g : kern M -> A) (f : A -> K M B) Q k : exits (f (g k)) Q k -> exits (gets g ≫= f) Q k.
Proof. done. Qed.

Lemma exits_modify {B} g (f : unit -> K M B) Q k : exits (f tt) Q (g k) -> exits (modify g ≫= f) Q k.
Proof. done. Qed.

End exits.

Lemma exits_alloc {M} `{!Space M} {B} size (f : Z -> K M B) Q (k : kern M) :
  (forall p m, malloc (k_mem k) size = (p, m) -> exits (f p) Q (k <| k_mem := m |>)) -> exits (alloc size ≫= f) Q k.
Proof.
  intros Hf. unfold exits, alloc, mbind, K_mbind. destruct (malloc (k_mem k) size) as [p m] eqn:Hm. by apply Hf.
Qed.

(** [m] comes back with [Q], or it accesses memory outside every object and [E] holds. *)
Definition runs {M A} (E : Prop) (m : K M A) (Q : A -> kern M -> Prop) (k : kern M) : Prop :=
  match m k with Ret a k' => Q a k' | Fault => E | _ => False end.

Section runs.
Context {M : Type} (E : Prop).
Implicit Types (k : kern M).

Lemma runs_ret {A} (a : A) Q k : Q a k -> runs E (mret a) Q k.
Proof. done. Qed.

Lemma runs_bind {A B} (m : K M A) (f : A -> K M B) Q k :
  runs E m (fun a k' => runs E (f a) Q k') k -> runs E (m ≫= f) Q k.
Proof. unfold runs, mbind, K_mbind. by destruct (m k). Qed.

Lemma runs_mono {A} (m : K M A) (P Q : A -> kern M -> Prop) k :
  runs E m P k -> (forall a k', P a k' -> Q a k') -> runs E m Q k.
Proof. unfold runs. intros Hm Hi. destruct (m k); auto. Qed.

(** A call whose behaviour is known. *)
Lemma runs_call {A B} (m : K M A) (f : A -> K M B) (P : A -> kern M -> Prop) Q k :
  runs E m P k -> (forall a k', P a k' -> runs E (f a) Q k') -> runs E (m ≫= f) Q k.
Proof. intros Hm Hf. apply runs_bind. by eapply runs_mono. Qed.

Lemma runs_Ret {A B} (m : K M A) (f : A -> K M B) Q k a k' :
  m k = Ret a k' -> runs E (f a) Q k' -> runs E (m ≫= f) Q k.
Proof. intros Hm Hf. apply runs_bind. unfold runs at 1. by rewrite Hm. Qed.

Lemma runs_get_task {B} i t (f : task_state_t -> K M B) Q k :
  zget (tasks k) i = Some t -> runs E (f t) Q k -> runs E (get_task i ≫= f) Q k.
Proof. intros Ht. apply runs_Ret. by apply get_task_Some. Qed.

Lemma runs_upd_task {B} i t g (f : unit -> K M B) Q k :
  zget (tasks k) i = Some t -> runs E (f tt) Q (k <| tasks := zset (tasks k) i (g t) |>) ->
  runs E (upd_task i g ≫= f) Q k.
Proof. intros Ht. apply runs_Ret. by apply upd_task_Some. Qed.

Lemma runs_get_process {B} p x (f : process_t -> K M B) Q k :
  processes k !! p = Some x -> runs E (f x) Q k -> runs E (get_process p ≫= f) Q k.
Proof. intros Hx. apply runs_Ret. by apply get_process_Some. Qed.

Lemma runs_upd_process {B} p x g (f : unit -> K M B) Q k :
  processes k !! p = Some x -> runs E (f tt) Q (k <| processes := <[p := g x]> (processes k) |>) ->
  runs E (upd_process p g ≫= f) Q k.
Proof. intros Hx. apply runs_Ret. unfold upd_process. by rewrite (bind_Ret _ _ _ _ _ (get_process_Some _ _ _ Hx)). Qed.

Lemma runs_gets {A B} (g : kern M -> A) (f : A -> K M B) Q k : runs E (f (g k)) Q k -> runs E (gets g ≫= f) Q k.
Proof. done. Qed.

Lemma runs_modify {B} g (f : unit -> K M B) Q k : runs E (f tt) Q (g k) -> runs E (modify g ≫= f) Q k.
Proof. done. Qed.

Lemma runs_deref {A B} (o : option A) a (f : A -> K M B) Q k :
  o = Some a -> runs E (f a) Q k -> runs E (deref o ≫= f) Q k.
Proof. by intros ->. Qed.

Lemma runs_if {A} (b : bool) (m1 m2 : K M A) Q k :
  (b = true -> runs E m1 Q k) -> (b = false -> runs E m2 Q k) -> runs E (if b then m1 else m2) Q k.
Proof. destruct b; auto. Qed.

Lemma runs_assoc {A B C} (m : K M A) (g : A -> K M B) (f : B -> K M C) Q k :
  runs E (m ≫= fun a => g a ≫= f) Q k -> runs E ((m ≫= g) ≫= f) Q k.
Proof. unfold runs, mbind, K_mbind. by destruct (m k). Qed.

Lemma runs_last {A} (m : K M A) Q k : runs E (m ≫= mret) Q k -> runs E m Q k.
Proof. unfold runs, mbind, K_mbind. by destruct (m k). Qed.

End runs.

Lemma runs_weaken {M A} (E F : Prop) (m : K M A) Q (k : kern M) : (E -> F) -> runs E m Q k -> runs F m Q k.
Proof. unfold runs. intros Hi Hm. destruct (m k); auto. Qed.
