(* ===== verification/KMem.v ===== *)
(** * Tasks over the page tables and the physical allocator

    The memory of TaskMem is a [Space]: what the scheduler, the pipes, the futexes and the
    messages ask of memory is what paging.c, memory.c and the copies of tasks.c do. The
    functions that create and end tasks are written over this memory; here are the
    operations they use, in the monad of the kernel. *)

From S2P Require Import CString Memory Paging TaskMem Kern.

Local Open Scope Z_scope.

(** ** The current directory *)

Section current.
Context {H : Type} `{Allocator H}.
Implicit Types (pg : pstate H) (s : tmem (H := H)) (t : tspace).

Lemma map_current pg dir addr vaddr u w nc b pg' :
  Paging.map pg dir addr vaddr u w nc = Some (b, pg') -> ps_current pg' = ps_current pg.
Proof.
  unfold Paging.map. destruct (dir =? NULL); [by intros; simplify_eq|].
  destruct (get_dir pg dir) as [es|]; [|done]. cbn [mbind option_bind].
  destruct (zget es (dir_index vaddr)) as [e|]; [|done]. cbn [mbind option_bind].
  destruct (map_table pg dir es (dir_index vaddr) e) as [[e' pg1]|] eqn:E; [|by intros; simplify_eq].
  assert (Hc : ps_current pg1 = ps_current pg).
  { unfold map_table in E. destruct (negb _ || _); [|by simplify_eq].
    destruct (al_malloc _ _) as [tab h]. destruct (tab =? NULL); by simplify_eq. }
  destruct (get_table pg1 _); [|done]. cbn [mbind option_bind]. destruct (zget _ (table_index vaddr)) as [t|]; [|done].
  cbn [mbind option_bind]. intros Hm. injection Hm as _ <-. by destruct (_ && _).
Qed.

Lemma demand_map_current s t addr b s' :
  task_demand_map s t addr = Some (b, s') -> ps_current (tm_pg s') = ps_current (tm_pg s).
Proof.
  unfold task_demand_map. destruct (page_checkmapping _ _ _) as [m|]; [|done]. cbn [mbind option_bind].
  destruct (m =? PAGE_USERRW); [by intros; simplify_eq|]. destruct (negb _); [by intros; simplify_eq|].
  destruct (al_malloc _ _) as [page h]. destruct (page =? NULL); [by intros; simplify_eq|].
  destruct (Paging.map _ _ _ _ _ _ _) as [[ok pg]|] eqn:E; [|done]. cbn [mbind option_bind]. apply map_current in E.
  destruct ok; cbn [negb]; intros Hs; injection Hs as _ <-; exact E.
Qed.

Lemma prefault_current n i s t vaddr size r s' :
  prefault_loop n i s t vaddr size = Some (r, s') -> ps_current (tm_pg s') = ps_current (tm_pg s).
Proof.
  revert i s. induction n as [|n IH]; intros i s; cbn [prefault_loop]; [by intros; simplify_eq|].
  destruct (page_checkmapping _ _ _) as [m|]; [|done]. cbn [mbind option_bind].
  destruct (m =? PAGE_USERRW); [apply IH|]. destruct (task_addr_demand_paged _ _).
  - destruct (task_demand_map _ _ _) as [[ok s1]|] eqn:E; [|done]. cbn [mbind option_bind].
    apply demand_map_current in E. destruct ok; intros Hp; [|by simplify_eq]. apply IH in Hp. congruence.
  - cbn [mbind option_bind]. intros. by simplify_eq.
Qed.

Lemma swap_twice_current pg dir : ps_current (swap_twice pg dir) = ps_current pg.
Proof. unfold swap_twice. by destruct (dir =? _). Qed.

Lemma copy_to_task_current s t dest src n s' :
  TaskMem.copy_to_task s t dest src = Some (n, s') -> ps_current (tm_pg s') = ps_current (tm_pg s).
Proof.
  unfold TaskMem.copy_to_task. destruct (TaskMem.task_validate_maxsize _ _ _ _ _) as [m|]; [|done]. cbn [mbind option_bind].
  destruct (_ || _); [by intros; simplify_eq|].
  destruct (task_prefault _ _ _ _) as [[m' s1]|] eqn:E; [|done]. cbn [mbind option_bind]. apply prefault_current in E.
  destruct (_ && _); [by intros; simplify_eq|]. destruct (user_write _ _ _ _ _) as [f|]; [|done]. cbn [mbind option_bind].
  intros Hs. injection Hs as _ <-. cbn [tm_pg]. by rewrite swap_twice_current.
Qed.

Lemma copy_from_task_current s t src size r s' :
  TaskMem.copy_from_task s t src size = Some (r, s') -> ps_current (tm_pg s') = ps_current (tm_pg s).
Proof.
  unfold TaskMem.copy_from_task. destruct (TaskMem.task_validate_maxsize _ _ _ _ _) as [m|]; [|done]. cbn [mbind option_bind].
  destruct (_ || _); [by intros; simplify_eq|].
  destruct (user_read_n _ _ _ _) as [l|]; [|done]. cbn [mbind option_bind].
  intros Hs. injection Hs as _ <-. apply swap_twice_current.
Qed.

End current.

(** ** The instance *)

Section instance.
Context {H : Type} `{Allocator H}.

#[global, program] Instance task_memory_space : Space (tmem (H := H)) := {
  page_get_current s := ps_current (tm_pg s);
  swap_pagedir s dir := tm_with_pg s (Paging.swap_pagedir (tm_pg s) dir);
  copy_to_task s dir hs he dest src := TaskMem.copy_to_task s (TSpace dir hs he) dest src;
  copy_from_task s dir hs he src size := TaskMem.copy_from_task s (TSpace dir hs he) src size;
  read_user s src size := user_read_n (Z.to_nat size) s (ps_current (tm_pg s)) src;
  task_validate_mem s dir hs he := TaskMem.task_validate_mem s (TSpace dir hs he);
  task_validate_maxsize s dir hs he := TaskMem.task_validate_maxsize s (TSpace dir hs he);
  malloc s n := let '(p, h) := al_malloc (ps_heap (tm_pg s)) n in (p, tm_with_pg s (set_heap (tm_pg s) h));
  free s p n := tm_with_pg s (set_heap (tm_pg s) (al_free (ps_heap (tm_pg s)) p n)) }.
Next Obligation. done. Qed.
Next Obligation. intros. cbv beta in *. eapply copy_to_task_current. eassumption. Qed.
Next Obligation. intros. cbv beta in *. eapply copy_from_task_current. eassumption. Qed.
Next Obligation. intros. cbv beta. by destruct (al_malloc _ _). Qed.
Next Obligation. done. Qed.

(** ** Operations of the kernel on this memory *)

Abbreviation KM := (K (tmem (H := H))).
Implicit Types (k : kern (tmem (H := H))).

Definition set_space (s : tmem (H := H)) : KM unit := modify (fun k => k <| k_mem := s |>).

(** A function of paging.c; outside its tables it faults. *)
Definition on_pages {A} (f : pstate H -> option (A * pstate H)) : KM A :=
  s ← gets k_mem;
  r ← deref (f (tm_pg s));
  _ ← set_space (tm_with_pg s (snd r));
  mret (fst r).

Definition kmap (dir addr vaddr u w nc : Z) : KM bool := on_pages (fun pg => Paging.map pg dir addr vaddr u w nc).
Definition kunmap (dir vaddr : Z) : KM bool := on_pages (fun pg => unmap pg dir vaddr).
Definition knew_page (fb fb_size : Z) : KM Z := on_pages (fun pg => new_page pg fb fb_size).
Definition kfree_page_dir (dir : Z) : KM unit :=
  on_pages (fun pg => pg ← free_page_dir pg dir; Some (tt, pg)).

Definition page_get_kernel_pagedir : KM Z := gets (fun k => ps_kernel (tm_pg (k_mem k))).

(** [memset] and [memcpy] on physical memory, which the kernel has mapped one to one. *)
Definition fill_bytes (f : Z -> Z) (dest n v : Z) : Z -> Z := fun a => if (dest <=? a) && (a <? dest + n) then v else f a.
Definition copy_bytes (f : Z -> Z) (dest : Z) (l : list Z) : Z -> Z :=
  fun a => if (dest <=? a) && (a <? dest + zlen l) then byte_at l (a - dest) else f a.

Definition on_bytes (f : (Z -> Z) -> Z -> Z) : KM unit :=
  modify (fun k => k <| k_mem := TMem (tm_pg (k_mem k)) (f (tm_bytes (k_mem k))) |>).

Definition kmemset (dest v n : Z) : KM unit := on_bytes (fun f => fill_bytes f dest n v).
Definition kmemcpy (dest : Z) (l : list Z) : KM unit := on_bytes (fun f => copy_bytes f dest l).

(** A store through a virtual address of the current directory. *)
Definition store_user (dest : Z) (l : list Z) : KM unit :=
  s ← gets k_mem;
  f ← deref (user_write (tm_pg s) (tm_bytes s) (ps_current (tm_pg s)) dest l);
  set_space (TMem (tm_pg s) f).

End instance.
