(* ===== verification/TaskMake.v ===== *)
(** * Creation of tasks (tasks.c)

    Processes and threads come to life in three steps: a slot of the array of tasks is
    reserved, [create_task_entry] gives it stacks and a process, and [setup_task_init] maps
    the stack and opens the window. The window manager is an argument, and so is the reader
    of files. Stacks are allocated when a slot is first used and stay with it. *)

From S2P Require Import CString Memory Paging TaskMem Kern Sched Events Hoare KMem.

Local Open Scope Z_scope.

Definition TASK_STACK_SIZE : Z := 0x4000.
Definition V_STACKS_START : Z := 0xC0000000.
Definition USR_CODE_SEG : Z := 24.
Definition USR_DATA_SEG : Z := 32.
Definition STACK_BYTES : Z := TASK_STACK_SIZE - PAGE_SIZE.

(** ["/sys"] *)
Definition SYS_DIR : list Z := [47; 115; 121; 115].

(** [kobj], [regions] and [stdio] are empty. *)
Definition PROCESS_MAX_KOBJ : nat := 64.

Section create.
Context {H : Type} `{Allocator H}.
Implicit Types (k : kern (tmem (H := H))).

Abbreviation KM := (K (tmem (H := H))).

(** The array of ports is not initialised: what the memory held. *)
Context (stale_ports : list Z).

Definition new_process (uid entry size dir : Z) (priv : bool) : process_t :=
  {| p_uid := uid; prog_start := entry; prog_entry := entry; prog_size := size; privileged := priv;
     p_window := -1; vmem_start := 0; vmem_end := 0; page_dir := dir;
     working_dir := SYS_DIR; exe_path := [];
     p_kobjs := replicate PROCESS_MAX_KOBJ NULL; kobj_count := 0; p_regions := NULL;
     p_stdio := [-1; -1; -1]; no_allocated := 0; heap_start := 0; heap_end := 0;
     p_ports := stale_ports; port_count := 0; launch_args := NULL; launch_argc := 0;
     threads := replicate (Z.to_nat MAX_TASK_THREADS) None; no_threads := 0 |}.

(** The code does not look at the result of [malloc]: without memory it stores through the
    null pointer. *)
Definition create_process (entry size : Z) (priv : bool) : KM Z :=
  p ← alloc SIZEOF_PROCESS;
  if p =? NULL then fault
  else
    uid ← gets process_uid_counter;
    _ ← modify (fun k => k <| process_uid_counter := u32 (uid + 1) |>);
    dir ← page_get_kernel_pagedir;
    _ ← modify (fun k => k <| processes := <[p := new_process uid entry size dir priv]> (processes k) |>);
    mret p.

Definition create_user_stack (i : Z) : KM bool :=
  t ← get_task i;
  if negb (stack_base t =? 0) then mret true
  else
    stack ← alloc STACK_BYTES;
    if stack =? NULL then mret false
    else _ ← upd_task i (fun t => t <| stack_base := stack |>); mret true.

Definition create_kernel_stack (i : Z) : KM bool :=
  t ← get_task i;
  if negb (kernel_stack_top t =? 0) then mret true
  else
    stack ← alloc KSTACK_SIZE;
    if stack =? NULL then mret false
    else _ ← upd_task i (fun t => t <| kernel_stack_top := u32 (stack + KSTACK_SIZE) |>); mret true.

Definition create_task_stacks (i : Z) : KM bool :=
  ok ← create_user_stack i;
  if ok : bool then create_kernel_stack i else mret false.

(** The first free entry of [threads], or -1. *)
Fixpoint free_thread (i : Z) (l : list (option Z)) : Z :=
  match l with
  | [] => -1
  | Some _ :: l => free_thread (i + 1) l
  | None :: _ => i
  end.

Definition add_thread (p thread_no i : Z) : KM unit :=
  upd_process p (fun x => x <| threads := zset (threads x) thread_no (Some i) |>).

(** [event_buf] keeps what it held. *)
Definition clear_queue (t : task_state_t) : task_state_t :=
  t <| event_queue := kqueue_init (q_buffer (event_queue t)) EVENT_QUEUE_SIZE |>.

Definition init_task (t : task_state_t) (i uid entry p : Z) : task_state_t :=
  t <| t_process := p |> <| task_id := i |> <| task_uid := uid |>
    <| enabled := false |> <| paused := false |> <| pause_reason := PAUSE_NONE |>
    <| wake_pending := false |> <| crashed := false |> <| kill_pending := false |>
    <| routine := E_NONE |> <| checkcmd_buffer := NULL |> <| in_syscall := false |>
    <| msg_func := NULL |> <| msg_channel_count := 0 |> <| msg_notify_pending := false |>
    <| t_mutex := None |> <| mutex_next_waiter := None |> <| owned_mutexes := None |>
    <| kernel_esp := 0 |> <| registers := (registers t) <| eip := entry |> |>.

(** The number of the thread in its process, or -1. [process] is [NULL] for a new one. *)
Definition create_task_entry (i entry size : Z) (priv : bool) (process : Z) : KM Z :=
  ok ← create_task_stacks i;
  if negb ok then mret (-1)
  else
    t ← get_task i;
    _ ← kmemset (stack_base t) 0 STACK_BYTES;
    _ ← upd_task i clear_queue;
    r ← (if process =? NULL then p ← create_process entry size priv; mret (p, 0)
         else x ← get_process process; mret (process, free_thread 0 (threads x)));
    let '(p, thread_no) := r in
    if thread_no =? -1 then mret (-1)
    else
      _ ← add_thread p thread_no i;
      uid ← gets task_uid_counter;
      _ ← modify (fun k => k <| task_uid_counter := u32 (uid + 1) |>);
      _ ← upd_task i (fun t => init_task t i uid entry p);
      _ ← upd_process p (fun x => x <| no_threads := no_threads x + 1 |>);
      mret thread_no.

(** ** Stacks *)

Definition STACK_PAGES : nat := 3.

(** [unmap(dir, vstart + j*0x1000)] for [n] pages from the [j]-th. *)
Fixpoint unmap_stack_pages (n : nat) (j dir vstart : Z) : KM unit :=
  match n with
  | O => mret tt
  | S n => _ ← kunmap dir (u32 (vstart + j * PAGE_SIZE)); unmap_stack_pages n (j + 1) dir vstart
  end.

Fixpoint map_stack_pages (n : nat) (i dir base vstart : Z) : KM bool :=
  match n with
  | O => mret true
  | S n =>
      ok ← kmap dir (u32 (base + (i - 1) * PAGE_SIZE)) (u32 (vstart + i * PAGE_SIZE)) 1 1 0;
      if ok : bool then map_stack_pages n (i + 1) dir base vstart
      else _ ← unmap_stack_pages (Z.to_nat (i - 1)) 1 dir vstart; mret false
  end.

(** The first page of a stack stays unmapped: an overflow faults. *)
Definition task_map_stack (i thread_no : Z) : KM bool :=
  t ← get_task i;
  x ← get_process (t_process t);
  let dir := page_dir x in
  kdir ← page_get_kernel_pagedir;
  let slot := if dir =? kdir then task_id t else thread_no in
  let vstart := u32 (V_STACKS_START + slot * TASK_STACK_SIZE) in
  _ ← upd_task i (fun t => t <| v_stack_start := vstart |>);
  ok ← map_stack_pages STACK_PAGES 1 dir (stack_base t) vstart;
  if negb ok then mret false
  else
    _ ← kunmap dir (u32 (kernel_stack_top t - KSTACK_SIZE));
    let top := u32 (vstart + TASK_STACK_SIZE) in
    _ ← upd_task i (fun t => t <| registers := (registers t) <| ebp := top |> <| useresp := top |> |>);
    mret true.

Definition task_unmap_stack (i : Z) : KM unit :=
  t ← get_task i;
  x ← get_process (t_process t);
  let dir := page_dir x in
  _ ← unmap_stack_pages STACK_PAGES 1 dir (v_stack_start t);
  let guard := u32 (kernel_stack_top t - KSTACK_SIZE) in
  kdir ← page_get_kernel_pagedir;
  _ ← (if dir =? kdir then kmap dir guard guard 1 1 0 else kmap dir guard guard 0 0 0);
  mret tt.

(** ** Launching *)

Section launch.
Context (windowmgr_add : KM Z) (focus_window minimise_window : Z -> KM unit).

Definition setup_task_init (i : Z) (focus minimised : bool) : KM bool :=
  ok ← task_map_stack i 0;
  if negb ok then mret false
  else
    _ ← upd_task i (fun t => t <| registers := (registers t) <| ds := USR_DATA_SEG + 3 |>
          <| cs := USR_CODE_SEG + 3 |> <| eflags := 0x202 |> <| ss := USR_DATA_SEG + 3 |> |>);
    window ← windowmgr_add;
    if window <? 0 then mret false
    else
      t ← get_task i;
      _ ← upd_process (t_process t) (fun x => x <| p_window := window |>);
      _ ← when focus (focus_window window);
      _ ← when minimised (minimise_window window);
      _ ← modify (fun k => k <| task_event_counter := u32 (task_event_counter k + 1) |>);
      mret true.

(** The frame is the one of the task from then on. *)
Definition launch_task (i : Z) (regs : registers_t) (focus : bool) : KM (bool * registers_t) :=
  old ← get_current_task;
  _ ← set_current i;
  ok ← setup_task_init i focus false;
  if negb ok then _ ← set_current old; mret (false, regs)
  else
    was ← (if 0 <=? old then t ← get_task old; mret (enabled t) else mret false);
    _ ← when was (save_regs old regs);
    cur ← get_current_task;
    _ ← upd_task cur (fun t => t <| enabled := true |>);
    t ← get_task cur;
    x ← get_process (t_process t);
    _ ← modify (fun k => k <| k_mem := swap_pagedir (k_mem k) (page_dir x) |>);
    _ ← set_esp0 cur;
    mret (true, registers t).

(** The launch failed: the entry, its memory and its process go. *)
Definition task_discard_entry (i : Z) : KM unit :=
  _ ← upd_task i (fun t => t <| reserved := false |>);
  t ← get_task i;
  if t_process t =? NULL then mret tt
  else
    x ← get_process (t_process t);
    _ ← when (negb (prog_size x =? 0)) (dealloc (prog_start x) (prog_size x));
    kdir ← page_get_kernel_pagedir;
    _ ← when (negb (page_dir x =? kdir)) (kfree_page_dir (page_dir x));
    _ ← dealloc (t_process t) SIZEOF_PROCESS;
    _ ← modify (fun k => k <| processes := delete (t_process t) (processes k) |>);
    upd_task i (fun t => t <| t_process := NULL |>).

(** A program without headers, which runs where it was read; the reader returns the
    buffer ([NULL] on failure) and the size. *)
Context (fs_read_file_kernel : list Z -> KM (Z * Z)).

Definition tasks_launch_binary (regs : option registers_t) (path : list Z) : KM (bool * option registers_t) :=
  index ← get_free_task_index;
  if index =? -1 then mret (false, regs)
  else
    r ← fs_read_file_kernel path;
    let '(prog, fsize) := r in
    if prog =? NULL then _ ← task_unreserve index; mret (false, regs)
    else
      e ← create_task_entry index prog fsize false NULL;
      if e =? -1 then _ ← dealloc prog fsize; _ ← task_unreserve index; mret (false, regs)
      else
        match regs with
        | Some rg =>
            l ← launch_task index rg false;
            if fst l : bool then mret (true, Some (snd l))
            else _ ← task_discard_entry index; mret (false, regs)
        | None =>
            ok ← setup_task_init index true false;
            if negb ok then _ ← task_discard_entry index; mret (false, regs)
            else _ ← upd_task index (fun t => t <| enabled := true |>); mret (true, regs)
        end.

End launch.

(** ** Kernel threads *)

Section kthreads.
Context (kernel_yield_to : Z -> KM bool) (kthread_exit : Z).

(** The thread starts as if it had been parked at the entry of [func]. *)
Definition launch_kthread (func : Z) (nm : list Z) (run : bool) : KM bool :=
  index ← get_free_task_index;
  if index =? -1 then mret false
  else
    e ← create_task_entry index 0 0 true NULL;
    if e <? 0 then _ ← task_unreserve index; mret false
    else
      _ ← upd_task index (fun t => t <| in_syscall := true |>);
      t ← get_task index;
      _ ← upd_process (t_process t) (fun x => x <| exe_path := nm |>);
      let top := kernel_stack_top t in
      _ ← kmemset (top - 24) 0 16;
      _ ← kmemcpy (top - 8) (words [func]);
      _ ← kmemcpy (top - 4) (words [kthread_exit]);
      _ ← upd_task index (fun t => t <| kernel_esp := u32 (top - 24) |> <| enabled := true |>);
      _ ← when run (_ ← kernel_yield_to index; mret tt);
      mret true.

Definition is_kthread (i : Z) : KM bool :=
  t ← get_task i;
  if negb (in_syscall t) || (t_process t =? NULL) then mret false
  else
    x ← get_process (t_process t);
    kdir ← page_get_kernel_pagedir;
    mret ((prog_start x =? 0) && (page_dir x =? kdir)).

End kthreads.

End create.
