(* ===== verification/TaskMakeSpec.v ===== *)
(** * New tasks take fresh memory (tasks.c)

    What [create_task_entry] takes from the heap was free, what it clears is the stack of
    the slot, and the entry it makes is the initial one. A mapped stack ends in a page that
    is not there, and a stack that cannot be mapped leaves no translation behind. *)

From S2P Require Import CString Memory Paging TaskMem Kern Sched Events Hoare KMem TaskMake.

Local Open Scope Z_scope.

Section heap.
Context {H : Type} `{Allocator H}.
Abbreviation MM := (tmem (H := H)).
Implicit Types (k : kern MM) (m : MM).

Definition heap_of (m : MM) : H := ps_heap (tm_pg m).

(** [h'] is [h] with the free pages [R] taken. *)
Record grows (h h' : H) (R : Z -> Prop) : Prop := {
  gr_wf : al_wf h';
  gr_used q : al_used h' q <-> al_used h q \/ R q;
  gr_fresh q : R q -> ~ al_used h q }.

Definition range (p n q : Z) : Prop := p / 4096 <= q < p / 4096 + pages n.

Lemma grows_refl h : al_wf h -> grows h h (fun _ => False).
Proof. intros Hw. constructor; [done|tauto|done]. Qed.

Lemma grows_trans h1 h2 h3 R1 R2 :
  grows h1 h2 R1 -> grows h2 h3 R2 -> grows h1 h3 (fun q => R1 q \/ R2 q).
Proof.
  intros [W1 U1 F1] [W2 U2 F2]. constructor; [done| |].
  - intros q. rewrite U2, U1. tauto.
  - intros q [Hq|Hq]; [by apply F1|]. intros Hu. apply (F2 q Hq), U1. by left.
Qed.

(** Memory after some of it was taken: the tables are the same, and so are the bytes outside
    the pages taken and those of [S]. *)
Record takes (m m' : MM) (R S : Z -> Prop) : Prop := {
  ta_pg : exists h', tm_pg m' = set_heap (tm_pg m) h';
  ta_heap : grows (heap_of m) (heap_of m') R;
  ta_bytes a : ~ R (a / 4096) -> ~ S (a / 4096) -> tm_bytes m' a = tm_bytes m a }.

Lemma takes_trans m1 m2 m3 R1 R2 S :
  takes m1 m2 R1 S -> takes m2 m3 R2 S -> takes m1 m3 (fun q => R1 q \/ R2 q) S.
Proof.
  intros [[h1 E1] G1 B1] [[h2 E2] G2 B2]. constructor.
  - exists h2. by rewrite E2, E1.
  - by eapply grows_trans.
  - intros a Ha Hs. rewrite B2, B1; tauto.
Qed.

Lemma takes_refl m S : al_wf (heap_of m) -> takes m m (fun _ => False) S.
Proof. intros Hw. constructor; [|by apply grows_refl|done]. exists (heap_of m). unfold heap_of. by destruct (tm_pg m). Qed.

Lemma takes_ext m m' (R R' S : Z -> Prop) : (forall q, R q <-> R' q) -> takes m m' R S -> takes m m' R' S.
Proof.
  intros Hi [E [W U F] B]. constructor; [done| |].
  - constructor; [done| |]; intros q; rewrite <-Hi; auto.
  - intros a Ha. apply B. by rewrite Hi.
Qed.

Lemma alloc_runs n k :
  al_wf (heap_of (k_mem k)) -> 0 < n < 2 ^ 31 - 4096 ->
  exists p m', alloc n k = Ret p (k <| k_mem := m' |>) /\
    (p = NULL -> m' = k_mem k /\ exists h, al_malloc (heap_of (k_mem k)) n = (NULL, h)) /\
    (p <> NULL -> p mod 4096 = 0 /\ 0 < p /\ p + pages n * 4096 <= 2 ^ 31 /\
       forall S, takes (k_mem k) m' (range p n) S).
Proof.
  intros Hw Hn. unfold alloc, malloc, task_memory_space. fold (heap_of (k_mem k)).
  destruct (al_malloc (heap_of (k_mem k)) n) as [p h] eqn:E. cbn [fst snd]. eexists p, _. split; [done|]. split.
  - intros ->. rewrite (al_malloc_fail _ _ _ E). split; [|by rewrite (al_malloc_fail _ _ _ E) in E; eauto].
    unfold heap_of, tm_with_pg, set_heap. by destruct (k_mem k) as [[]].
  - intros Hp. destruct (al_malloc_ok _ _ _ _ Hw Hn E Hp) as (A1 & A2 & A3 & A4 & A5 & A6). split_and!; try done.
    intros S. constructor; [by exists h| |done]. constructor; [done|done|]. intros q Hq. by apply A5.
Qed.

(** ** A free slot *)

Lemma free_index_loop_spec n k i : 0 <= i -> i + Z.of_nat n = zlen (tasks k) ->
  exists r k', free_index_loop n i k = Ret r k' /\
    ((r = -1 /\ k' = k) \/
     exists t, 0 <= r < zlen (tasks k) /\ zget (tasks k) r = Some t /\ enabled t = false /\ reserved t = false /\
       r <> current_task k /\ k' = k <| tasks := zset (tasks k) r (t <| reserved := true |>) |>).
Proof.
  revert i. induction n as [|n IH]; intros i Hi Hn; cbn [free_index_loop]; [exists (-1), k; auto|].
  destruct (zget_is_Some (tasks k) i ltac:(lia)) as [t Ht]. kget Ht. unfold get_current_task. rewrite bind_gets.
  destruct (enabled t) eqn:E1; cbn [negb andb]; [apply IH; lia|]. destruct (reserved t) eqn:E2; cbn [negb andb]; [apply IH; lia|].
  destruct (Z.eqb_spec i (current_task k)) as [->|Hc]; cbn [negb]; [apply IH; lia|].
  eexists i, _. split; [done|]. right. exists t. split_and!; try done; lia.
Qed.

Lemma get_free_task_index_spec k : zlen (tasks k) = TOTAL_TASKS ->
  exists r k', get_free_task_index k = Ret r k' /\
    ((r = -1 /\ k' = k) \/
     exists t, 0 <= r < zlen (tasks k) /\ zget (tasks k) r = Some t /\ enabled t = false /\ reserved t = false /\
       r <> current_task k /\ k' = k <| tasks := zset (tasks k) r (t <| reserved := true |>) |>).
Proof. intros Hl. apply free_index_loop_spec; [done|]. by rewrite Hl. Qed.

(** ** A slot and its stacks *)

Definition stack_pages (b q : Z) : Prop := b <> NULL /\ range b STACK_BYTES q.

Definition stack_ok (b : Z) : Prop := b = NULL \/ (b mod 4096 = 0 /\ 0 < b /\ b + STACK_BYTES <= 2 ^ 31).

(** The slot [i], which held [t], has the stacks [b] and [c]; the heap gave the pages [R]. *)
Record stacked k k' (i : Z) (t : task_state_t) (b c : Z) (R : Z -> Prop) : Prop := {
  sd_task : zget (tasks k') i = Some (t <| stack_base := b |> <| kernel_stack_top := c |>);
  sd_others j : j <> i -> zget (tasks k') j = zget (tasks k) j;
  sd_len : zlen (tasks k') = zlen (tasks k);
  sd_procs : processes k' = processes k;
  sd_current : current_task k' = current_task k;
  sd_uids : process_uid_counter k' = process_uid_counter k /\ task_uid_counter k' = task_uid_counter k;
  sd_takes S : takes (k_mem k) (k_mem k') R S }.

Lemma stacked_refl k i t :
  zget (tasks k) i = Some t -> al_wf (heap_of (k_mem k)) -> stacked k k i t (stack_base t) (kernel_stack_top t) (fun _ => False).
Proof. intros Ht Hw. constructor; try done; [by destruct t|]. intros S. by apply takes_refl. Qed.

Lemma stacked_trans k1 k2 k3 i t b1 c1 b2 c2 R1 R2 :
  stacked k1 k2 i t b1 c1 R1 ->
  stacked k2 k3 i (t <| stack_base := b1 |> <| kernel_stack_top := c1 |>) b2 c2 R2 ->
  stacked k1 k3 i t b2 c2 (fun q => R1 q \/ R2 q).
Proof.
  intros [A1 A2 A3 A4 A6 [A7 A8] A5] [B1 B2 B3 B4 B6 [B7 B8] B5]. constructor; [exact B1| |congruence..|split; congruence|].
  - intros j Hj. by rewrite B2, A2.
  - intros S. by eapply takes_trans.
Qed.

Lemma stacked_alloc k i t m' R f b c :
  zget (tasks k) i = Some t -> (forall S, takes (k_mem k) m' R S) ->
  f t = t <| stack_base := b |> <| kernel_stack_top := c |> ->
  stacked k (k <| k_mem := m' |> <| tasks := zset (tasks k) i (f t) |>) i t b c R.
Proof.
  intros Ht Hm Hf. pose proof (zget_Some_range _ _ _ Ht). constructor; cbn; try done.
  - by rewrite zget_zset_eq, Hf by lia.
  - intros j Hj. by rewrite zget_zset_ne.
  - by rewrite zlen_zset.
Qed.

Lemma create_user_stack_spec k i t :
  zget (tasks k) i = Some t -> al_wf (heap_of (k_mem k)) -> stack_ok (stack_base t) ->
  exists ok k' b R, create_user_stack i k = Ret ok k' /\ stacked k k' i t b (kernel_stack_top t) R /\
    stack_ok b /\ (ok = true -> b <> NULL) /\
    (stack_base t <> NULL -> b = stack_base t) /\ (forall q, R q -> stack_pages b q) /\
    (stack_base t = NULL -> forall q, stack_pages b q -> R q).
Proof.
  intros Ht Hw Hs. unfold create_user_stack. kget Ht. destruct (Z.eqb_spec (stack_base t) 0) as [E|E]; cbn [negb].
  2:{ exists true, k, (stack_base t), (fun _ => False). split; [done|]. split_and!; try done. by apply stacked_refl. }
  destruct (alloc_runs STACK_BYTES k Hw) as (p & m' & Ha & N0 & N1); [done|]. kret Ha.
  destruct (Z.eqb_spec p NULL) as [Hp|Hp].
  { destruct (N0 Hp) as [-> _]. replace (k <| k_mem := k_mem k |>) with k by by destruct k.
    exists false, k, (stack_base t), (fun _ => False). split; [done|]. split_and!; try done.
    - by apply stacked_refl.
    - by intros _ q [? _]. }
  destruct (N1 Hp) as (P1 & P2 & P3 & P4).
  assert (Ht' : zget (tasks (k <| k_mem := m' |>)) i = Some t) by exact Ht. kupd Ht'.
  eexists true, _, p, _. split; [done|]. split; [apply (stacked_alloc k i t m' _ (fun t => t <| stack_base := p |>)); [done|exact P4|by destruct t]|].
  split_and!; try done.
  - right. split; [done|]. split; [done|]. change (pages STACK_BYTES) with 3 in P3. change STACK_BYTES with 12288. lia.
  - by intros _ q [_ Hq].
Qed.

Lemma create_kernel_stack_spec k i t :
  zget (tasks k) i = Some t -> al_wf (heap_of (k_mem k)) ->
  exists ok k' c R, create_kernel_stack i k = Ret ok k' /\ stacked k k' i t (stack_base t) c R /\
    (ok = false -> forall q, ~ R q).
Proof.
  intros Ht Hw. unfold create_kernel_stack. kget Ht. destruct (Z.eqb_spec (kernel_stack_top t) 0) as [E|E]; cbn [negb].
  2:{ exists true, k, (kernel_stack_top t), (fun _ => False). split; [done|]. split; [by apply stacked_refl|done]. }
  destruct (alloc_runs KSTACK_SIZE k Hw) as (p & m' & Ha & N0 & N1); [done|]. kret Ha.
  destruct (Z.eqb_spec p NULL) as [Hp|Hp].
  { destruct (N0 Hp) as [-> _]. replace (k <| k_mem := k_mem k |>) with k by by destruct k.
    exists false, k, (kernel_stack_top t), (fun _ => False). split; [done|]. split; [by apply stacked_refl|auto]. }
  destruct (N1 Hp) as (P1 & P2 & P3 & P4).
  assert (Ht' : zget (tasks (k <| k_mem := m' |>)) i = Some t) by exact Ht. kupd Ht'.
  eexists true, _, (u32 (p + KSTACK_SIZE)), _. split; [done|]. split; [|done].
  by apply (stacked_alloc k i t m' _ (fun t => t <| kernel_stack_top := u32 (p + KSTACK_SIZE) |>)).
Qed.

(** The stacks of a slot: what the heap gave belongs to the slot if a stack is missing. *)
Lemma create_task_stacks_spec k i t :
  zget (tasks k) i = Some t -> al_wf (heap_of (k_mem k)) -> stack_ok (stack_base t) ->
  exists ok k' b c R, create_task_stacks i k = Ret ok k' /\ stacked k k' i t b c R /\
    stack_ok b /\ (ok = true -> b <> NULL) /\ (stack_base t <> NULL -> b = stack_base t) /\
    (ok = false -> forall q, R q -> stack_pages b q) /\
    (stack_base t = NULL -> forall q, stack_pages b q -> R q).
Proof.
  intros Ht Hw Hs. unfold create_task_stacks.
  destruct (create_user_stack_spec k i t Ht Hw Hs) as (ok1 & k1 & b & R1 & E1 & S1 & U1 & U2 & U3 & U4 & U5). kret E1.
  destruct ok1; [|exists false, k1, b, (kernel_stack_top t), R1; split_and!; try done; auto].
  destruct (create_kernel_stack_spec k1 i _ (sd_task _ _ _ _ _ _ _ S1)) as (ok2 & k2 & c & R2 & E2 & S2 & V1);
    [apply (sd_takes _ _ _ _ _ _ _ S1 (fun _ => False))|].
  exists ok2, k2, b, c, (fun q => R1 q \/ R2 q). split; [done|]. split; [|split_and!; try done].
  - eapply stacked_trans; [exact S1|exact S2].
  - intros _. by apply U2.
  - intros Hf q [Hq|Hq]; [by apply U4|]. by destruct (V1 Hf q Hq).
  - intros Hz q Hq. left. by apply U5.
Qed.

(** ** The entry *)

Context (stale_ports : list Z).

(** A new process [p] with one thread in slot [i]; the heap gave [R]. *)
Record entry_made k k' (i : Z) (t : task_state_t) (entry size : Z) (priv : bool) (p b c : Z) (R : Z -> Prop) : Prop := {
  em_task : zget (tasks k') i =
    Some (init_task (clear_queue (t <| stack_base := b |> <| kernel_stack_top := c |>)) i (task_uid_counter k) entry p);
  em_others j : j <> i -> zget (tasks k') j = zget (tasks k) j;
  em_len : zlen (tasks k') = zlen (tasks k);
  em_process : processes k' =
    <[p := (new_process stale_ports (process_uid_counter k) entry size (ps_kernel (tm_pg (k_mem k))) priv)
             <| threads := [Some i; None; None; None] |> <| no_threads := 1 |>]> (processes k);
  em_fresh : p <> NULL /\ forall q, range p SIZEOF_PROCESS q -> R q;
  em_stack : b <> NULL /\ forall a, b <= a < b + STACK_BYTES -> tm_bytes (k_mem k') a = 0 }.

Lemma stack_byte b a : stack_ok b -> b <> NULL -> b <= a < b + STACK_BYTES -> stack_pages b (a / 4096).
Proof.
  intros [?|(M & _ & _)] Hb Ha; [done|]. split; [done|]. unfold range. change (pages STACK_BYTES) with 3.
  change STACK_BYTES with 12288 in *. clear -M Ha. Z.div_mod_to_equations. lia.
Qed.

(** Clearing the stack changes no byte of anything else that is in use. *)
Lemma clear_stack_takes k1 k2 i t b c R :
  stacked k1 k2 i t b c R -> stack_ok b -> b <> NULL -> (stack_base t <> NULL -> b = stack_base t) ->
  (stack_base t = NULL -> forall q, stack_pages b q -> R q) ->
  takes (k_mem k1) (TMem (tm_pg (k_mem k2)) (fill_bytes (tm_bytes (k_mem k2)) b STACK_BYTES 0)) R (stack_pages (stack_base t)).
Proof.
  intros Sd Hok Hb Hold Hnew. destruct (sd_takes _ _ _ _ _ _ _ Sd (stack_pages (stack_base t))) as [P G B].
  constructor; [done|done|]. intros a Ha Hs. cbn [tm_bytes]. unfold fill_bytes.
  destruct ((b <=? a) && (a <? b + STACK_BYTES)) eqn:E; [|by apply B]. exfalso.
  apply andb_true_iff in E as [E1%Z.leb_le E2%Z.ltb_lt].
  pose proof (stack_byte b a Hok Hb ltac:(lia)) as Hq.
  destruct (decide (stack_base t = NULL)) as [Hz|Hz]; [by apply Ha, Hnew|]. apply Hs. by rewrite <-Hold.
Qed.

Lemma create_process_runs (E : Prop) k entry size priv :
  al_wf (heap_of (k_mem k)) ->
  (forall h, al_malloc (heap_of (k_mem k)) SIZEOF_PROCESS = (NULL, h) -> E) ->
  runs E (create_process stale_ports entry size priv) (fun p k' => exists m',
    k' = k <| k_mem := m' |> <| process_uid_counter := u32 (process_uid_counter k + 1) |>
           <| processes := <[p := new_process stale_ports (process_uid_counter k) entry size (ps_kernel (tm_pg (k_mem k))) priv]> (processes k) |> /\
    p <> NULL /\ forall S, takes (k_mem k) m' (range p SIZEOF_PROCESS) S) k.
Proof.
  intros Hw HE. unfold create_process. destruct (alloc_runs SIZEOF_PROCESS k Hw) as (p & m' & Ha & N0 & N1); [done|].
  eapply runs_Ret; [exact Ha|]. destruct (Z.eqb_spec p NULL) as [Hp|Hp].
  { destruct (N0 Hp) as (_ & h & Hm). by apply (HE h). }
  destruct (N1 Hp) as (_ & _ & _ & Ht). apply runs_gets, runs_modify, runs_gets, runs_modify, runs_ret.
  exists m'. split; [|done]. destruct (ta_pg _ _ _ _ (Ht (fun _ => True))) as [h' Hpg]. cbn. by rewrite Hpg.
Qed.

(** Memory ran out for the process. *)
Definition no_process_memory (h0 : H) : Prop :=
  exists h h', (forall q, al_used h0 q -> al_used h q) /\ al_malloc h SIZEOF_PROCESS = (NULL, h').

(** The stack of a slot is memory in use. *)
Definition stack_kept (h : H) (b : Z) : Prop := stack_ok b /\ forall q, stack_pages b q -> al_used h q.

Lemma create_task_entry_spec k i t entry size priv :
  zget (tasks k) i = Some t -> al_wf (heap_of (k_mem k)) -> stack_kept (heap_of (k_mem k)) (stack_base t) ->
  runs (no_process_memory (heap_of (k_mem k))) (create_task_entry stale_ports i entry size priv NULL)
    (fun r k' => exists b c R, stack_ok b /\ takes (k_mem k) (k_mem k') R (stack_pages (stack_base t)) /\
       ((r = -1 /\ stacked k k' i t b c R /\ forall q, R q -> stack_pages b q) \/
        (r = 0 /\ exists p, entry_made k k' i t entry size priv p b c R))) k.
Proof.
  intros Ht Hw [Hs Hu]. unfold create_task_entry.
  destruct (create_task_stacks_spec k i t Ht Hw Hs) as (ok & k1 & b & c & R & E1 & S1 & U1 & U2 & U3 & U4 & U5).
  eapply runs_Ret; [exact E1|]. destruct ok; cbn [negb].
  2:{ apply runs_ret. exists b, c, R. split; [done|]. split; [apply S1|]. left. split; [done|]. split; [done|]. by apply U4. }
  specialize (U2 eq_refl). eapply runs_get_task; [apply S1|]. cbn [stack_base].
  pose proof (clear_stack_takes k k1 i t b c R S1 U1 U2 U3 U5) as Hc.
  destruct S1 as [A1 A2 A3 A4 A5 [A6 A7] A8]. apply runs_modify.
  eapply runs_upd_task; [exact A1|]. set (k2 := _ <| tasks := _ |>). pose proof (zget_Some_range _ _ _ A1) as Hrg1.
  assert (A1' : zget (tasks k2) i = Some (clear_queue (t <| stack_base := b |> <| kernel_stack_top := c |>)))
    by (cbn; by rewrite zget_zset_eq by exact Hrg1).
  assert (A2' : forall j, j <> i -> zget (tasks k2) j = zget (tasks k) j)
    by (intros j Hj; cbn; rewrite zget_zset_ne by done; by apply A2).
  assert (Hg : grows (heap_of (k_mem k)) (heap_of (k_mem k2)) R) by apply Hc.
  assert (Hpg : ps_kernel (tm_pg (k_mem k2)) = ps_kernel (tm_pg (k_mem k))).
  { destruct (ta_pg _ _ _ _ Hc) as [h E]. change (k_mem k2) with (TMem (tm_pg (k_mem k1)) (tm_bytes (k_mem k2))). cbn [tm_pg].
    change (tm_pg (TMem (tm_pg (k_mem k1)) (fill_bytes (tm_bytes (k_mem k1)) b STACK_BYTES 0))) with (tm_pg (k_mem k1)) in E. by rewrite E. }
  apply runs_assoc. eapply runs_call.
  { apply (create_process_runs _ k2 entry size priv (gr_wf _ _ _ Hg)).
    intros h Hm. exists (heap_of (k_mem k2)), h. split; [|done]. intros q Hq. apply (gr_used _ _ _ Hg). by left. }
  intros p k3 (m' & -> & Hp & Htk). apply runs_bind, runs_ret. cbv beta iota. change (0 =? -1) with false. cbv iota.
  eapply runs_upd_process; [apply lookup_insert_eq|]. apply runs_gets, runs_modify.
  eapply runs_upd_task; [exact A1'|]. eapply runs_upd_process; [apply lookup_insert_eq|]. apply runs_ret.
  exists b, c, (fun q => R q \/ range p SIZEOF_PROCESS q). split; [done|].
  split; [by eapply takes_trans; [exact Hc|apply Htk]|]. right. split; [done|]. exists p.
  pose proof (zget_Some_range _ _ _ A1') as Hrg. constructor.
  - cbn. rewrite zget_zset_eq by exact Hrg. rewrite <-A7. done.
  - intros j Hj. cbn. rewrite zget_zset_ne by done. by apply A2'.
  - cbn. by rewrite !zlen_zset.
  - rewrite <-A4, <-A6, <-Hpg.
    set (x0 := new_process stale_ports (process_uid_counter k2) entry size (ps_kernel (tm_pg (k_mem k2))) priv).
    set (x1 := x0 <| threads := [Some i; None; None; None] |>).
    transitivity (<[p := x1 <| no_threads := 1 |>]> (<[p := x1]> (<[p := x0]> (processes k1)))); [done|].
    by rewrite !insert_insert_eq.
  - split; [done|]. auto.
  - split; [done|]. intros a Ha.
    etransitivity; [apply (ta_bytes _ _ _ _ (Htk (fun _ => False)) a); [intros Hq|tauto]|].
    + apply (gr_fresh _ _ _ (ta_heap _ _ _ _ (Htk (fun _ => False))) _ Hq), (gr_used _ _ _ Hg).
      destruct (decide (stack_base t = NULL)) as [Hz|Hz].
      * right. apply U5; [done|]. by apply stack_byte.
      * left. apply Hu. rewrite <-(U3 Hz). by apply stack_byte.
    + cbn. unfold fill_bytes. rewrite (proj2 (Z.leb_le _ _)), (proj2 (Z.ltb_lt _ _)) by lia. done.
Qed.

(** ** Stacks *)

Definition with_pages k (pg : pstate H) : kern MM := k <| k_mem := tm_with_pg (k_mem k) pg |>.
Definition pages_of k : pstate H := tm_pg (k_mem k).

Lemma kmap_Ret k dir addr vaddr u w nc b pg :
  Paging.map (pages_of k) dir addr vaddr u w nc = Some (b, pg) -> kmap dir addr vaddr u w nc k = Ret b (with_pages k pg).
Proof. intros E. unfold kmap, on_pages. rewrite bind_gets. fold (pages_of k). by rewrite E. Qed.

Lemma kunmap_Ret k dir vaddr b pg :
  Paging.unmap (pages_of k) dir vaddr = Some (b, pg) -> kunmap dir vaddr k = Ret b (with_pages k pg).
Proof. intros E. unfold kunmap, on_pages. rewrite bind_gets. fold (pages_of k). by rewrite E. Qed.

Lemma unmap_stack_pages_spec n k j dir es v :
  pages_wf (pages_of k) -> get_dir (pages_of k) dir = Some es -> 0 <= v -> 0 <= j -> v + j + Z.of_nat n <= 2 ^ 20 ->
  exists pg, unmap_stack_pages n j dir (v * 4096) k = Ret tt (with_pages k pg) /\
    unmap_range_post (pages_of k) pg dir (v + j) (Z.of_nat n).
Proof.
  revert k j es. induction n as [|n IH]; intros k j es Hw Hd Hv Hj Hn; cbn [unmap_stack_pages].
  { exists (pages_of k). split; [by destruct k as [? ? ? ? ? []]|]. by eapply unmap_range_refl. }
  unfold PAGE_SIZE. rewrite u32_id by lia. replace (v * 4096 + j * 4096) with ((v + j) * 4096) by lia.
  destruct (unmap_spec (pages_of k) dir es ((v + j) * 4096) Hw Hd) as (pg1 & E & Hp); [unfold is_u32; lia|].
  kret (kunmap_Ret _ _ _ _ _ E). destruct (up_dir _ _ _ _ Hp) as [es1 Hd1].
  destruct (IH (with_pages k pg1) (j + 1) es1) as (pg2 & E2 & Hr); [apply Hp|done|lia..|].
  exists pg2. split; [exact E2|]. replace (Z.of_nat (S n)) with (Z.of_nat n + 1) by lia.
  eapply unmap_range_cons; [lia|done|]. by replace (v + j + 1) with (v + (j + 1)) by lia.
Qed.

(** The pages of the stack, in order, or none of them. *)
Lemma map_stack_pages_spec n pg0 k i dir b v :
  map_range_post pg0 (pages_of k) dir b (v + 1) (i - 1) 1 1 0 -> 1 <= i ->
  0 <= b -> b + (i - 1) + Z.of_nat n <= 2 ^ 20 -> 0 <= v -> v + i + Z.of_nat n <= 2 ^ 20 ->
  (forall vp, v < vp < v + i + Z.of_nat n -> translate pg0 dir vp = None) ->
  exists ok pg, map_stack_pages n i dir (b * 4096) (v * 4096) k = Ret ok (with_pages k pg) /\
    if (ok : bool) then map_range_post pg0 pg dir b (v + 1) (i - 1 + Z.of_nat n) 1 1 0
    else pages_wf pg /\ is_Some (get_dir pg dir) /\ extends dir pg0 pg /\
      forall d vp, translate pg d vp = translate pg0 d vp.
Proof.
  revert k i. induction n as [|n IH]; intros k i Hm Hi Hb Hbn Hv Hvn Hfree; cbn [map_stack_pages].
  { exists true, (pages_of k). split; [by destruct k as [? ? ? ? ? []]|]. by rewrite Z.add_0_r. }
  destruct (mr_dir _ _ _ _ _ _ _ _ _ Hm) as [es Hd].
  unfold PAGE_SIZE. rewrite !u32_id by lia. replace (b * 4096 + (i - 1) * 4096) with ((b + (i - 1)) * 4096) by lia.
  replace (v * 4096 + i * 4096) with ((v + 1 + (i - 1)) * 4096) by lia.
  destruct (map_spec (pages_of k) dir es ((b + (i - 1)) * 4096) ((v + 1 + (i - 1)) * 4096) 1 1 0)
    as (ok & pg1 & E & Hp); [apply Hm|done|unfold is_u32; lia..|].
  kret (kmap_Ret _ _ _ _ _ _ _ _ _ E). destruct ok.
  - destruct (IH (with_pages k pg1) (i + 1)) as (ok & pg2 & E2 & Hr); [|lia..|intros; apply Hfree; lia|].
    { replace (i + 1 - 1) with (i - 1 + 1) by lia. apply (map_range_snoc _ (pages_of k)); [lia|done|done]. }
    exists ok, pg2. split; [exact E2|]. replace (i - 1 + Z.of_nat (S n)) with (i + 1 - 1 + Z.of_nat n) by lia. done.
  - subst pg1. replace (with_pages k (pages_of k)) with k by by destruct k as [? ? ? ? ? []].
    destruct (unmap_stack_pages_spec (Z.to_nat (i - 1)) k 1 dir es v) as (pg2 & E2 & Hu); [apply Hm|done|lia..|].
    kret E2. exists false, pg2. split; [done|]. rewrite Z2Nat.id in Hu by lia.
    split; [apply Hu|]. split; [apply Hu|]. split; [eapply extends_trans; [apply Hm|apply Hu]|]. intros d vp.
    destruct (decide (d = dir /\ v + 1 <= vp < v + 1 + (i - 1))) as [[-> Hin]|Hout].
    + rewrite (ur_at _ _ _ _ _ Hu) by done. symmetry. apply Hfree. lia.
    + rewrite (ur_ne _ _ _ _ _ Hu), (mr_ne _ _ _ _ _ _ _ _ _ Hm); done.
Qed.

(** What [task_map_stack] needs: a stack, a process whose directory exists, and room for
    the stack at its address. *)
Record stack_ready k (i : Z) (t : task_state_t) (x : process_t) (v : Z) : Prop := {
  sr_task : zget (tasks k) i = Some t;
  sr_process : processes k !! t_process t = Some x;
  sr_pages : pages_wf (pages_of k) /\ is_Some (get_dir (pages_of k) (page_dir x));
  sr_stack : stack_ok (stack_base t) /\ stack_base t <> NULL;
  sr_guard : KSTACK_SIZE <= kernel_stack_top t < 2 ^ 31;
  sr_range : 0 <= v /\ v + 4 <= 2 ^ 20;
  sr_free vp : v <= vp < v + 4 -> translate (pages_of k) (page_dir x) vp = None }.

Definition stack_slot k (t : task_state_t) (x : process_t) (thread_no : Z) : Z :=
  if page_dir x =? ps_kernel (pages_of k) then task_id t else thread_no.

(** The stack is where the registers say, its pages are the ones of the slot, the page below
    it and the lowest page of the kernel stack are not mapped. *)
Record stack_mapped k k' (i : Z) (t : task_state_t) (dir v : Z) : Prop := {
  sm_task : zget (tasks k') i = Some (t <| v_stack_start := v * 4096 |>
    <| registers := (registers t) <| ebp := u32 (v * 4096 + TASK_STACK_SIZE) |>
                                  <| useresp := u32 (v * 4096 + TASK_STACK_SIZE) |> |>);
  sm_at j : 1 <= j < 4 -> exists e, translate (pages_of k') dir (v + j) = Some e /\
    mapped_to e (stack_base t + (j - 1) * 4096) 1 1 0;
  sm_guard : translate (pages_of k') dir ((kernel_stack_top t - KSTACK_SIZE) / 4096) = None;
  sm_other d vp : ~ (d = dir /\ (v < vp < v + 4 \/ vp = (kernel_stack_top t - KSTACK_SIZE) / 4096)) ->
    translate (pages_of k') d vp = translate (pages_of k) d vp }.

Lemma task_map_stack_spec k i t x thread_no v :
  stack_ready k i t x v -> 0 <= stack_slot k t x thread_no < 16 ->
  v = (V_STACKS_START + stack_slot k t x thread_no * TASK_STACK_SIZE) / 4096 ->
  exists ok k', task_map_stack i thread_no k = Ret ok k' /\
    processes k' = processes k /\ tm_bytes (k_mem k') = tm_bytes (k_mem k) /\
    pages_wf (pages_of k') /\ extends (page_dir x) (pages_of k) (pages_of k') /\
    if (ok : bool) then stack_mapped k k' i t (page_dir x) v
    else forall d vp, translate (pages_of k') d vp = translate (pages_of k) d vp.
Proof.
  intros [Ht Hx [Hw [es Hd]] [Hok Hb] Hg Hv Hfree] Hs Ev. unfold task_map_stack.
  kget Ht. kret (get_process_Some _ _ _ Hx). unfold page_get_kernel_pagedir. rewrite bind_gets.
  fold (pages_of k). fold (stack_slot k t x thread_no).
  assert (Evs : u32 (V_STACKS_START + stack_slot k t x thread_no * TASK_STACK_SIZE) = v * 4096).
  { unfold V_STACKS_START, TASK_STACK_SIZE in *. rewrite u32_id by lia. subst v. clear. Z.div_mod_to_equations. lia. }
  rewrite Evs. kupd Ht. set (k1 := k <| tasks := _ |>).
  destruct Hok as [?|(M & ? & ?)]; [done|]. change STACK_BYTES with 12288 in *.
  destruct (map_stack_pages_spec STACK_PAGES (pages_of k) k1 1 (page_dir x) (stack_base t / 4096) v) as (ok & pg & E & Hr);
    [by eapply map_range_refl|done|unfold STACK_PAGES; Z.div_mod_to_equations; lia..|intros vp Hvp; apply Hfree; unfold STACK_PAGES in Hvp; lia|].
  replace (stack_base t / 4096 * 4096) with (stack_base t) in E by (Z.div_mod_to_equations; lia).
  pose proof (zget_Some_range _ _ _ Ht) as Hrg.
  kret E. destruct ok; cbn [negb].
  2:{ destruct Hr as (? & ? & ? & ?). by exists false, (with_pages k1 pg). }
  change (1 - 1 + Z.of_nat STACK_PAGES) with 3 in Hr. destruct (mr_dir _ _ _ _ _ _ _ _ _ Hr) as [es1 Hd1].
  unfold KSTACK_SIZE in *. rewrite (u32_id (kernel_stack_top t - 16384)) by lia.
  destruct (unmap_spec pg (page_dir x) es1 (kernel_stack_top t - 16384)) as (pg2 & E2 & Hu); [apply Hr|done|unfold is_u32; lia|].
  kret (kunmap_Ret (with_pages k1 pg) _ _ _ _ E2). set (k2 := with_pages _ pg2).
  assert (Ht2 : zget (tasks k2) i = Some (t <| v_stack_start := v * 4096 |>)) by (cbn; by rewrite zget_zset_eq by exact Hrg).
  kupd Ht2. eexists true, _. split; [done|]. split; [done|]. split; [done|]. split; [apply Hu|].
  split; [eapply extends_trans; [apply Hr|apply Hu]|].
  assert (Hne : forall vp, v <= vp -> vp <> (kernel_stack_top t - 16384) / 4096).
  { intros vp Hvp. unfold V_STACKS_START, TASK_STACK_SIZE in Ev. Z.div_mod_to_equations. lia. }
  constructor.
  - cbn. rewrite zget_zset_eq; [done|]. by rewrite zlen_zset.
  - intros j Hj. change (pages_of _) with pg2. rewrite (up_ne _ _ _ _ Hu) by (intros [_ Hbad]; revert Hbad; apply Hne; lia).
    destruct (mr_at _ _ _ _ _ _ _ _ _ Hr (j - 1)) as (e & He & Hm); [lia|]. exists e.
    replace (v + 1 + (j - 1)) with (v + j) in He by lia. split; [done|].
    by replace ((stack_base t / 4096 + (j - 1)) * 4096) with (stack_base t + (j - 1) * 4096) in Hm by (Z.div_mod_to_equations; lia).
  - apply Hu.
  - intros d vp Hn. change (translate pg2 d vp = translate (pages_of k) d vp). rewrite (up_ne _ _ _ _ Hu) by tauto.
    apply (mr_ne _ _ _ _ _ _ _ _ _ Hr). intros [-> ?]. apply Hn. split; [done|]. left. lia.
Qed.

(** The first page of no stack is mapped, nor the page after the last stack. *)
Definition guards_missing (pg : pstate H) (dir : Z) : Prop :=
  forall s, 0 <= s <= TOTAL_TASKS -> translate pg dir ((V_STACKS_START + s * TASK_STACK_SIZE) / 4096) = None.

Lemma stack_mapped_guards k k' i t x v thread_no :
  stack_mapped k k' i t (page_dir x) v -> 0 <= kernel_stack_top t - KSTACK_SIZE < 2 ^ 31 ->
  0 <= stack_slot k t x thread_no < 16 -> v = (V_STACKS_START + stack_slot k t x thread_no * TASK_STACK_SIZE) / 4096 ->
  guards_missing (pages_of k) (page_dir x) -> guards_missing (pages_of k') (page_dir x).
Proof.
  intros Hm Hk Hs -> Hg s Hr. rewrite (sm_other _ _ _ _ _ _ Hm); [by apply Hg|].
  unfold V_STACKS_START, TASK_STACK_SIZE, TOTAL_TASKS in *. intros [_ [Hin|Hin]]; Z.div_mod_to_equations; lia.
Qed.

(** C22: In an address space whose guard pages (the first page of each slot of stacks and the
    page after the last) are not mapped, [task_map_stack] comes back and they still are not.
    If it maps the stack, the 12 KB are in order, writable by the program, between two
    missing pages, the stack pointer is at their end, the lowest page of the kernel stack is
    missing from this address space, and nothing else of any address space has changed; if
    memory for a table runs out every translation is as before. *)
Theorem task_map_stack_correct k i t x thread_no v :
  stack_ready k i t x v -> 0 <= stack_slot k t x thread_no < 16 ->
  v = (V_STACKS_START + stack_slot k t x thread_no * TASK_STACK_SIZE) / 4096 ->
  guards_missing (pages_of k) (page_dir x) ->
  let guard := kernel_stack_top t - KSTACK_SIZE in
  exists ok k', task_map_stack i thread_no k = Ret ok k' /\ pages_wf (pages_of k') /\
    guards_missing (pages_of k') (page_dir x) /\
    if (ok : bool) then
      (forall a, 0 <= a < TASK_STACK_SIZE + PAGE_SIZE -> user_addr (pages_of k') (page_dir x) (v * 4096 + a) =
         if (PAGE_SIZE <=? a) && (a <? TASK_STACK_SIZE) then Some (stack_base t + (a - PAGE_SIZE)) else None) /\
      (forall j, 1 <= j < 4 -> exists e, translate (pages_of k') (page_dir x) (v + j) = Some e /\ rw e = 1 /\ user e = 1) /\
      (exists t', zget (tasks k') i = Some t' /\ useresp (registers t') = u32 (v * 4096 + TASK_STACK_SIZE)) /\
      (forall a, guard / 4096 = a / 4096 -> user_addr (pages_of k') (page_dir x) a = None) /\
      (forall d a, ~ (d = page_dir x /\ (v <= a / 4096 < v + 4 \/ a / 4096 = guard / 4096)) ->
         user_addr (pages_of k') d a = user_addr (pages_of k) d a)
    else forall d a, user_addr (pages_of k') d a = user_addr (pages_of k) d a.
Proof.
  intros Hsr Hs Ev Hgm guard. destruct (task_map_stack_spec k i t x thread_no v Hsr Hs Ev) as (ok & k' & E & _ & _ & Hw & _ & Hr).
  pose proof (sr_guard _ _ _ _ _ Hsr) as Hgr. unfold KSTACK_SIZE in *.
  exists ok, k'. split; [done|]. split; [done|]. destruct ok.
  2: { split; [intros s Hr'; rewrite Hr; by apply Hgm|]. intros. unfold user_addr. by rewrite Hr. }
  assert (Hgm' : guards_missing (pages_of k') (page_dir x)).
  { eapply stack_mapped_guards; [exact Hr|unfold KSTACK_SIZE; lia|done..]. }
  split; [done|]. destruct Hr as [Ht' Hat Hg Hne]. unfold user_addr, PAGE_SIZE.
  assert (Hmiss : forall s, 0 <= s <= 16 -> translate (pages_of k') (page_dir x) (V_STACKS_START / 4096 + s * 4) = None).
  { intros s Hs'. rewrite <-(Hgm' s Hs'). f_equal. unfold V_STACKS_START, TASK_STACK_SIZE. Z.div_mod_to_equations. lia. }
  assert (Ev' : v = V_STACKS_START / 4096 + stack_slot k t x thread_no * 4).
  { rewrite Ev. unfold V_STACKS_START, TASK_STACK_SIZE. Z.div_mod_to_equations. lia. }
  split_and!.
  - intros a Ha. unfold TASK_STACK_SIZE in *. replace ((v * 4096 + a) / 4096) with (v + a / 4096) by (Z.div_mod_to_equations; lia).
    replace ((v * 4096 + a) mod 4096) with (a mod 4096) by (Z.div_mod_to_equations; lia).
    destruct (Z.leb_spec 4096 a), (Z.ltb_spec a 16384); cbn [andb]; try lia.
    + destruct (Hat (a / 4096)) as (e & -> & (_ & Ha2 & _)); [Z.div_mod_to_equations; lia|]. cbn [mbind option_bind].
      f_equal. rewrite Ha2. destruct (sr_stack _ _ _ _ _ Hsr) as [[?|(M & _ & _)] ?]; [done|].
      clear -M H1. Z.div_mod_to_equations. lia.
    + replace (v + a / 4096) with (V_STACKS_START / 4096 + (stack_slot k t x thread_no + 1) * 4)
        by (rewrite Ev'; Z.div_mod_to_equations; lia). by rewrite Hmiss by lia.
    + replace (v + a / 4096) with (V_STACKS_START / 4096 + stack_slot k t x thread_no * 4)
        by (rewrite Ev'; Z.div_mod_to_equations; lia). by rewrite Hmiss by lia.
  - intros j Hj. destruct (Hat j Hj) as (e & He & (_ & _ & ? & ? & _)). by exists e.
  - eexists. split; [exact Ht'|done].
  - intros a Ha. rewrite <-Ha. change (guard / 4096) with ((kernel_stack_top t - KSTACK_SIZE) / 4096). by rewrite Hg.
  - intros d a Hn. rewrite Hne; [done|]. intros [-> Hc]. apply Hn. split; [done|]. subst guard. destruct Hc; [left; lia|by right].
Qed.

End heap.

(** ** A kernel over the page tables *)

(** Tasks 0, 1 and 2; task 1 has a stack, and its process the first directory. *)
Definition mem_kern : kern (tmem (H := heap)) :=
  let k := demo_kern 0 in
  Kern (tmem (H := heap)) (alter (fun t => t <| stack_base := 0x2000000 |>) 1%nat (tasks k)) 0 true (k_esp k) (tss_esp0 k)
    demo_tmem (alter (fun x => x <| Kern.page_dir := HEAP_KERNEL |>) 0x2000 (processes k)) ∅ 0 ∅ ∅ 0 0 1 (timed k) (futexes k) 3 3 0.

Definition mem_task : task_state_t := (demo_task 1 true) <| stack_base := 0x2000000 |>.
Definition mem_process : process_t := (demo_process 1) <| Kern.page_dir := HEAP_KERNEL |>.

Lemma mem_stack_ready : stack_ready mem_kern 1 mem_task mem_process 0xC0000.
Proof.
  constructor; [done|done|split; [apply demo_tm_ok|by eexists]|split; [by right|done]|done|done|].
  intros vp Hvp. assert (vp = 0xC0000 \/ vp = 0xC0001 \/ vp = 0xC0002 \/ vp = 0xC0003) as [->|[->|[->| ->]]] by lia; done.
Qed.

Lemma mem_guards_missing : guards_missing (pages_of mem_kern) (page_dir mem_process).
Proof.
  assert (Hall : forallb (fun s => match translate (pages_of mem_kern) (page_dir mem_process)
      ((V_STACKS_START + s * TASK_STACK_SIZE) / 4096) with None => true | _ => false end) (seqZ 0 17) = true) by (vm_compute; reflexivity).
  rewrite forallb_forall in Hall. intros s Hs. specialize (Hall s). rewrite <-list_elem_of_In, elem_of_seqZ in Hall.
  unfold TOTAL_TASKS in Hs. specialize (Hall ltac:(lia)). by destruct (translate _ _ _).
Qed.

Definition mem_mapped : res (tmem (H := heap)) bool := task_map_stack 1 0 mem_kern.

Lemma mem_mapped_ok : match mem_mapped with Ret b _ => b | _ => false end = true.
Proof. vm_compute. reflexivity. Qed.

(** The stack of task 1 is at 0xC0001000, the pages at 0xC0000000 and 0xC0004000 are missing. *)
Lemma task_map_stack_correct_witness :
  exists k', mem_mapped = Ret true k' /\ user_addr (pages_of k') HEAP_KERNEL 0xC0000010 = None /\
    user_addr (pages_of k') HEAP_KERNEL 0xC0001010 = Some 0x2000010 /\ user_addr (pages_of k') HEAP_KERNEL 0xC0004010 = None.
Proof.
  pose proof mem_mapped_ok as Hok.
  destruct (task_map_stack_correct mem_kern 1 mem_task mem_process 0 0xC0000 mem_stack_ready) as (ok & k' & E & _ & _ & Hr);
    [done|done|exact mem_guards_missing|]. unfold mem_mapped in *. rewrite E in Hok. rewrite E, Hok in *.
  destruct Hr as (Ha & _). exists k'. split; [reflexivity|].
  split; [exact (Ha 0x10 ltac:(unfold TASK_STACK_SIZE, PAGE_SIZE; lia))|].
  split; [exact (Ha 0x1010 ltac:(unfold TASK_STACK_SIZE, PAGE_SIZE; lia))|exact (Ha 0x4010 ltac:(unfold TASK_STACK_SIZE, PAGE_SIZE; lia))].
Defined.
