(* ===== verification/Elf.v ===== *)
(** * Loading programs (elf.c)

    The loader reads the program headers of an ELF file, takes memory for the whole range of
    its segments, maps that range into a new page directory, copies the segments to it and
    makes a task of it. The file is a list of bytes: a read outside it is a fault. *)

From S2P Require Import CString Memory Paging TaskMem Kern Sched Events Hoare KMem TaskMake.

Local Open Scope Z_scope.

Definition PT_LOAD : Z := 1.
Definition ET_EXEC : Z := 2.
Definition ELF_MAGIC : list Z := [127; 69; 76; 70].
Definition SIZEOF_PROG_HEADER : Z := 32.

Record elf_prog_header_t := ProgHeader {
  segment_type : Z;
  p_offset : Z;
  p_vaddr : Z;
  p_filesz : Z;
  p_memsz : Z }.

Record elf_header_t := ElfHeader {
  magic : list Z;
  type : Z;
  entry : Z;
  prog_header : Z;
  prog_header_entry_count : Z }.

(** [n] bytes of the file. *)
Definition file_bytes (prog : list Z) (off n : Z) : option (list Z) :=
  if (0 <=? off) && (0 <=? n) && (off + n <=? zlen prog) then Some (slice prog off n) else None.

Definition read_header (prog : list Z) : option elf_header_t :=
  l ← file_bytes prog 0 52;
  Some (ElfHeader (take 4 l) (le16 l 16) (le32 l 24) (le32 l 28) (le16 l 44)).

(** [headers[i]] *)
Definition read_prog_header (prog : list Z) (h : elf_header_t) (i : Z) : option elf_prog_header_t :=
  l ← file_bytes prog (prog_header h + SIZEOF_PROG_HEADER * i) SIZEOF_PROG_HEADER;
  Some (ProgHeader (le32 l 0) (le32 l 4) (le32 l 8) (le32 l 16) (le32 l 20)).

Section elf.
Context {H : Type} `{Allocator H}.
Abbreviation KM := (K (tmem (H := H))).
Context (stale_ports : list Z) (fb fb_size : Z).

(** ** The range of the segments *)

(** The first loop: [Some None] is an invalid file. *)
Fixpoint scan_segments (n : nat) (i : Z) (prog : list Z) (size : Z) (h : elf_header_t) (lo hi : Z) : option (option (Z * Z)) :=
  match n with
  | O => Some (Some (lo, hi))
  | S n =>
      ph ← read_prog_header prog h i;
      if negb (segment_type ph =? PT_LOAD) then scan_segments n (i + 1) prog size h lo hi
      else if size <? u32 (p_offset ph + p_filesz ph) then Some None
      else
        let lo := if p_vaddr ph <? lo then p_vaddr ph else lo in
        let hi := if hi <? u32 (p_vaddr ph + p_memsz ph) then u32 (p_vaddr ph + p_memsz ph) else hi in
        scan_segments n (i + 1) prog size h lo hi
  end.

(** ** Mapping and copying *)

(** The pages of the program, all tried. *)
Fixpoint map_image (n : nat) (i dir new_prog start : Z) (mapped : bool) : KM bool :=
  match n with
  | O => mret mapped
  | S n =>
      ok ← kmap dir (u32 (new_prog + i)) (u32 (start + i)) 1 1 0;
      map_image n (i + PAGE_SIZE) dir new_prog start (mapped && ok)
  end.

(** The turns of [for(uint32_t i = 0; i < vmem_size; i += 0x1000)]; it does not end for a
    size in the last page. *)
Definition image_pages (vmem_size : Z) : option nat :=
  if 2 ^ 32 - PAGE_SIZE <? vmem_size then None else Some (Z.to_nat ((vmem_size + PAGE_SIZE - 1) / PAGE_SIZE)).

Definition map_program (dir new_prog start vmem_size : Z) : KM bool :=
  match image_pages vmem_size with
  | None => fun _ => Hang
  | Some n => map_image n 0 dir new_prog start true
  end.

(** The second loop. *)
Fixpoint copy_segments (n : nat) (i : Z) (prog : list Z) (h : elf_header_t) (new_prog start : Z) : KM unit :=
  match n with
  | O => mret tt
  | S n =>
      ph ← deref (read_prog_header prog h i);
      if negb (segment_type ph =? PT_LOAD) then copy_segments n (i + 1) prog h new_prog start
      else
        let dest := u32 (new_prog + u32 (p_vaddr ph - start)) in
        l ← deref (file_bytes prog (p_offset ph) (p_filesz ph));
        _ ← kmemcpy dest l;
        _ ← when (p_filesz ph <? p_memsz ph) (kmemset (u32 (dest + p_filesz ph)) 0 (p_memsz ph - p_filesz ph));
        copy_segments n (i + 1) prog h new_prog start
  end.

(** The failures give everything back and report -1. *)
Definition give_up_slot (index : Z) : KM Z := _ ← task_unreserve index; mret (-1).
Definition give_up_dir (index dir : Z) : KM Z := _ ← kfree_page_dir dir; give_up_slot index.
Definition give_up_memory (index dir new_prog vmem_size : Z) : KM Z :=
  _ ← dealloc new_prog vmem_size; give_up_dir index dir.

(** The task of a loaded program. *)
Definition elf_task (h : elf_header_t) (index dir new_prog start en : Z) : KM Z :=
  let vmem_size := u32 (en - start) in
  r ← create_task_entry stale_ports index (entry h) vmem_size false NULL;
  if r =? -1 then give_up_memory index dir new_prog vmem_size
  else
    let hs := page_align_up en in
    let hs := if hs <? KERNEL_END then KERNEL_END else hs in
    t ← get_task index;
    _ ← upd_process (t_process t) (fun x => x <| vmem_start := start |> <| vmem_end := en |>
          <| prog_start := new_prog |> <| page_dir := dir |> <| heap_start := hs |> <| heap_end := hs |>);
    mret index.

(** From the slot on. *)
Definition elf_image (prog : list Z) (h : elf_header_t) (index start en : Z) : KM Z :=
  let vmem_size := u32 (en - start) in
  if (start <=? KERNEL_END) && (KERNEL_START <=? en) then give_up_slot index
  else
    dir ← knew_page fb fb_size;
    if dir =? NULL then give_up_slot index
    else
      new_prog ← alloc vmem_size;
      if new_prog =? NULL then give_up_dir index dir
      else
        _ ← kmemset new_prog 0 vmem_size;
        mapped ← map_program dir new_prog start vmem_size;
        if negb mapped then give_up_memory index dir new_prog vmem_size
        else
          _ ← copy_segments (Z.to_nat (prog_header_entry_count h)) 0 prog h new_prog start;
          elf_task h index dir new_prog start en.

Definition elf_load (prog : list Z) (size : Z) : KM Z :=
  h ← deref (read_header prog);
  if negb (type h =? ET_EXEC) then mret (-1)
  else if negb (bool_decide (magic h = ELF_MAGIC)) then mret (-1)
  else
    range ← deref (scan_segments (Z.to_nat (prog_header_entry_count h)) 0 prog size h 0xFFFFFFFF 0);
    match range with
    | None => mret (-1)
    | Some (start, en) =>
        if (start =? 0xFFFFFFFF) || (en =? 0) then mret (-1)
        else
          index ← get_free_task_index;
          if index =? -1 then mret (-1) else elf_image prog h index start en
    end.

(** ** Running a program *)

Section run.
Context (windowmgr_add : KM Z) (focus_window minimise_window : Z -> KM unit).

(** The three words the entry point finds on its stack. *)
Definition push_args (sp start argc args : Z) : KM Z :=
  _ ← store_user (u32 (sp - 4)) (words [args]);
  _ ← store_user (u32 (sp - 8)) (words [argc]);
  _ ← store_user (u32 (sp - 12)) (words [start]);
  mret (u32 (sp - 12)).

Definition set_args (p argc args : Z) : KM unit :=
  upd_process p (fun x => x <| launch_args := args |> <| launch_argc := argc |>).

Definition elf_run (regs : registers_t) (prog : list Z) (size argc args : Z) (focus : bool)
    : KM (bool * registers_t) :=
  index ← elf_load prog size;
  if index <? 0 then mret (false, regs)
  else
    l ← launch_task windowmgr_add focus_window minimise_window index regs focus;
    let '(ok, regs) := l in
    if negb ok then _ ← task_discard_entry index; mret (false, regs)
    else
      t ← get_task index;
      x ← get_process (t_process t);
      sp ← push_args (useresp regs) (vmem_start x) argc args;
      _ ← set_args (t_process t) argc args;
      mret (true, regs <| useresp := sp |>).

Definition elf_setup (prog : list Z) (size argc args : Z) (focus minimised : bool) : KM Z :=
  index ← elf_load prog size;
  if index <? 0 then mret (-1)
  else
    t ← get_task index;
    x ← get_process (t_process t);
    let start := vmem_start x in
    ok ← setup_task_init windowmgr_add focus_window minimise_window index focus minimised;
    if negb ok then _ ← task_discard_entry index; mret (-1)
    else
      saved ← gets (fun k => page_get_current (k_mem k));
      x ← get_process (t_process t);
      _ ← modify (fun k => k <| k_mem := swap_pagedir (k_mem k) (page_dir x) |>);
      t ← get_task index;
      sp ← push_args (useresp (registers t)) start argc args;
      _ ← upd_task index (fun t => t <| registers := (registers t) <| useresp := sp |> |>);
      _ ← set_args (t_process t) argc args;
      _ ← modify (fun k => k <| k_mem := swap_pagedir (k_mem k) saved |>);
      mret index.

(** The file comes from the file system; its buffer goes after the load. *)
Context (fs_read_file : list Z -> KM (Z * list Z)).

Definition tasks_setup_elf (path : list Z) (argc args : Z) (focus minimised : bool) : KM Z :=
  r ← fs_read_file path;
  let '(buffer, prog) := r in
  if buffer =? NULL then mret (-1)
  else
    index ← elf_setup prog (zlen prog) argc args focus minimised;
    _ ← when (0 <=? index)
          (t ← get_task index; upd_process (t_process t) (fun x => x <| exe_path := path |>));
    _ ← dealloc buffer (zlen prog);
    mret index.

End run.

End elf.
