(* ===== verification/ElfSpec.v ===== *)
(** * A loaded program is in its address space (elf.c)

    For a well-formed file the loader always comes back and reads nothing outside the file.
    If it succeeds, the new address space holds, at the addresses of each segment, the bytes
    of the file and then zeros, and lets the program read and write them; no other address
    space changes. If it fails, everything it took is given back. *)

From S2P Require Import CString Memory Paging TaskMem Kern Sched Events Hoare KMem TaskMake TaskMakeSpec Elf.

Local Open Scope Z_scope.

(** ** Well-formed files *)

Definition is_load (ph : elf_prog_header_t) : Prop := segment_type ph = PT_LOAD.
#[global] Instance is_load_dec ph : Decision (is_load ph).
Proof. unfold is_load. apply _. Defined.

(** [hs] are the program headers from the [i]-th on. *)
Fixpoint reads (prog : list Z) (h : elf_header_t) (i : Z) (hs : list elf_prog_header_t) : Prop :=
  match hs with
  | [] => True
  | ph :: hs => read_prog_header prog h i = Some ph /\ reads prog h (i + 1) hs
  end.

Definition seg_end (ph : elf_prog_header_t) : Z := p_vaddr ph + p_memsz ph.

(** A segment lies in the file and in the address space, with room for its bytes. *)
Record segment_ok (size lo hi : Z) (ph : elf_prog_header_t) : Prop := {
  so_file : 0 <= p_offset ph /\ 0 <= p_filesz ph /\ p_offset ph + p_filesz ph <= size;
  so_mem : p_filesz ph <= p_memsz ph /\ 0 < p_memsz ph;
  so_range : lo <= p_vaddr ph /\ seg_end ph <= hi }.

Definition apart (ph ph' : elf_prog_header_t) : Prop := seg_end ph <= p_vaddr ph' \/ seg_end ph' <= p_vaddr ph.

(** The segments do not overlap, some segment starts at [lo], at a page, and one ends at [hi]. *)
Record file_ok (prog : list Z) (h : elf_header_t) (hs : list elf_prog_header_t) (lo hi : Z) : Prop := {
  fo_header : read_header prog = Some h;
  fo_type : type h = ET_EXEC;
  fo_magic : magic h = ELF_MAGIC;
  fo_count : prog_header_entry_count h = zlen hs;
  fo_reads : reads prog h 0 hs;
  fo_size : zlen prog < 2 ^ 31;
  fo_segments : Forall (fun ph => is_load ph -> segment_ok (zlen prog) lo hi ph) hs;
  fo_apart : ForallOrdPairs (fun ph ph' => is_load ph -> is_load ph' -> apart ph ph') hs;
  fo_lo : exists ph, ph ∈ hs /\ is_load ph /\ p_vaddr ph = lo;
  fo_hi : exists ph, ph ∈ hs /\ is_load ph /\ seg_end ph = hi;
  fo_range : 0 <= lo /\ lo mod PAGE_SIZE = 0 /\ hi < 2 ^ 32 - PAGE_SIZE /\ hi - lo < 2 ^ 31 - PAGE_SIZE;
  fo_user : KERNEL_END < lo \/ hi < KERNEL_START }.

Section scan.
Implicit Types (hs : list elf_prog_header_t).

(** The range found so far covers the segments seen, and grows to that of the rest. *)
Lemma scan_segments_spec prog h hs : forall i size lo hi lo' hi',
  reads prog h i hs -> Forall (fun ph => is_load ph -> segment_ok size lo' hi' ph) hs ->
  0 <= lo' -> hi' < 2 ^ 32 -> size < 2 ^ 31 ->
  scan_segments (length hs) i prog size h lo hi = Some (Some
    (foldl (fun m ph => if decide (is_load ph) then Z.min m (p_vaddr ph) else m) lo hs,
     foldl (fun m ph => if decide (is_load ph) then Z.max m (seg_end ph) else m) hi hs)).
Proof.
  induction hs as [|ph hs IH]; intros i size lo hi lo' hi' Hr Hs Hlo Hhi Hsz; [done|].
  destruct Hr as [Hph Hr]. apply Forall_cons in Hs as [Hok Hs]. cbn [scan_segments length foldl]. rewrite Hph. simpl.
  destruct (decide (is_load ph)) as [Hl|Hl].
  - unfold is_load in Hl. rewrite Hl. simpl. destruct (Hok Hl) as [[F1 [F2 F3]] [M1 M2] [R1 R2]]. unfold seg_end in *.
    rewrite !u32_id by lia. rewrite (proj2 (Z.ltb_ge _ _)) by lia. rewrite (IH _ _ _ _ lo' hi') by done.
    do 2 f_equal. f_equal; f_equal; [destruct (Z.ltb_spec (p_vaddr ph) lo)|destruct (Z.ltb_spec hi (p_vaddr ph + p_memsz ph))]; lia.
  - unfold is_load in Hl. rewrite (proj2 (Z.eqb_neq _ _)) by done. simpl. by apply (IH _ _ _ _ lo' hi').
Qed.

Lemma min_of_segments hs lo m :
  (forall ph, ph ∈ hs -> is_load ph -> lo <= p_vaddr ph) -> lo <= m -> (m = lo \/ exists ph, ph ∈ hs /\ is_load ph /\ p_vaddr ph = lo) ->
  foldl (fun m ph => if decide (is_load ph) then Z.min m (p_vaddr ph) else m) m hs = lo.
Proof.
  revert m. induction hs as [|ph hs IH]; intros m Hall Hm Hex; simpl.
  - destruct Hex as [?|(ph & Hin & _)]; [done|]. by apply not_elem_of_nil in Hin.
  - assert (Hall' : forall ph, ph ∈ hs -> is_load ph -> lo <= p_vaddr ph) by (intros p Hp; apply Hall; by right).
    case_decide as Hl.
    + apply IH; [done|specialize (Hall ph ltac:(by left) Hl); lia|]. destruct Hex as [->|(p & Hp & Hpl & Hpv)].
      * left. specialize (Hall ph ltac:(by left) Hl). lia.
      * apply elem_of_cons in Hp as [->|Hp]; [left; lia|right; by exists p].
    + apply IH; [done|done|]. destruct Hex as [->|(p & Hp & Hpl & Hpv)]; [by left|right].
      apply elem_of_cons in Hp as [->|Hp]; [done|by exists p].
Qed.

Lemma max_of_segments hs hi m :
  (forall ph, ph ∈ hs -> is_load ph -> seg_end ph <= hi) -> m <= hi -> (m = hi \/ exists ph, ph ∈ hs /\ is_load ph /\ seg_end ph = hi) ->
  foldl (fun m ph => if decide (is_load ph) then Z.max m (seg_end ph) else m) m hs = hi.
Proof.
  revert m. induction hs as [|ph hs IH]; intros m Hall Hm Hex; simpl.
  - destruct Hex as [?|(ph & Hin & _)]; [done|]. by apply not_elem_of_nil in Hin.
  - assert (Hall' : forall ph, ph ∈ hs -> is_load ph -> seg_end ph <= hi) by (intros p Hp; apply Hall; by right).
    case_decide as Hl.
    + apply IH; [done|specialize (Hall ph ltac:(by left) Hl); lia|]. destruct Hex as [->|(p & Hp & Hpl & Hpv)].
      * left. specialize (Hall ph ltac:(by left) Hl). lia.
      * apply elem_of_cons in Hp as [->|Hp]; [left; lia|right; by exists p].
    + apply IH; [done|done|]. destruct Hex as [->|(p & Hp & Hpl & Hpv)]; [by left|right].
      apply elem_of_cons in Hp as [->|Hp]; [done|by exists p].
Qed.

(** A well-formed file is accepted, with its range. *)
Lemma scan_file_ok prog h hs lo hi :
  file_ok prog h hs lo hi ->
  scan_segments (Z.to_nat (prog_header_entry_count h)) 0 prog (zlen prog) h 0xFFFFFFFF 0 = Some (Some (lo, hi)).
Proof.
  intros Hok. pose proof (fo_range _ _ _ _ _ Hok) as Hr. pose proof (fo_segments _ _ _ _ _ Hok) as Hs.
  rewrite (fo_count _ _ _ _ _ Hok). unfold zlen at 1. rewrite Nat2Z.id.
  unfold PAGE_SIZE in *. rewrite (scan_segments_spec prog h hs 0 _ _ _ lo hi);
    [|apply Hok|done|lia|lia|apply Hok]. rewrite Forall_forall in Hs.
  destruct (fo_lo _ _ _ _ _ Hok) as (pl & Hpl & Hll & El). destruct (fo_hi _ _ _ _ _ Hok) as (ph & Hph & Hlh & Eh).
  rewrite (min_of_segments hs lo), (max_of_segments hs hi); [done|..].
  - intros p Hp Hlp. by destruct (Hs p Hp Hlp) as [_ _ [_ ?]].
  - destruct (Hs pl Hpl Hll) as [_ [_ ?] [_ ?]]. unfold seg_end in *. lia.
  - right. by exists ph.
  - intros p Hp Hlp. by destruct (Hs p Hp Hlp) as [_ _ [? _]].
  - destruct (Hs ph Hph Hlh) as [_ [_ ?] [? ?]]. unfold seg_end in *. lia.
  - right. by exists pl.
Qed.

End scan.

Section load.
Context {H : Type} `{Allocator H}.
Abbreviation MM := (tmem (H := H)).
Implicit Types (k : kern MM) (m : MM) (pg : pstate H).

(** ** Memory while a program is loaded

    [pg] is [pg0] with a new directory [dir] and the pages [P] taken. *)
Record built pg0 pg (dir : Z) (P : Z -> Prop) : Prop := {
  bu_wf : pages_wf pg;
  bu_dir : is_Some (get_dir pg dir);
  bu_mem p : ~ own pg dir p -> ps_mem pg !! p = ps_mem pg0 !! p;
  bu_own p : own pg dir p ->
    ps_mem pg0 !! p = None /\ ~ al_used (ps_heap pg0) (p / 4096) /\ ~ P (p / 4096);
  bu_used q : al_used (ps_heap pg) q <->
    al_used (ps_heap pg0) q \/ P q \/ exists p, own pg dir p /\ q = p / 4096;
  bu_extra q : P q -> ~ al_used (ps_heap pg0) q }.

Lemma built_new_page pg0 pg dir fb fb_size :
  pages_wf pg0 -> new_page_post pg0 pg dir fb fb_size -> dir <> NULL -> built pg0 pg dir (fun _ => False).
Proof.
  intros Hw Hn Hd. destruct (np_made _ _ _ _ _ Hn Hd) as (pg1 & Hf & Hx).
  assert (Hfresh : forall p, own pg dir p -> ps_mem pg0 !! p = None /\ ~ al_used (ps_heap pg0) (p / 4096)).
  { intros p Hp. destruct (decide (p = dir)) as [->|Hne]; [split; apply Hf|].
    destruct (ex_new _ _ _ Hx p Hp) as [Hm Hu]; [by rewrite (fr_own _ _ _ Hf)|].
    rewrite (fr_mem _ _ _ Hf), lookup_insert_ne in Hm by done. split; [done|]. intros ?. apply Hu, (fr_used _ _ _ Hf). by left. }
  constructor; [apply Hn|by apply (np_new _ _ _ _ _ Hn)| | | |done].
  - intros p Hp. rewrite (ex_mem _ _ _ Hx), (fr_mem _ _ _ Hf) by done. apply lookup_insert_ne.
    intros ->. apply Hp. by left.
  - intros p Hp. destruct (Hfresh p Hp). auto.
  - intros q. rewrite (ex_used _ _ _ Hx), (fr_used _ _ _ Hf). split.
    + intros [[?| ->]|?]; [by left|right; right; exists dir; split; [by left|done]|by right; right].
    + intros [?|[[]|?]]; [by left; left|by right].
Qed.

(** More tables of the same directory. *)
Lemma built_extends pg0 pg pg' dir P :
  built pg0 pg dir P -> pages_wf pg' -> is_Some (get_dir pg' dir) -> extends dir pg pg' -> built pg0 pg' dir P.
Proof.
  intros [W D M O U X] W' D' E. constructor; try done.
  - intros p Hp. rewrite (ex_mem _ _ _ E) by done. apply M. intros Ho. by apply Hp, (ex_own _ _ _ E).
  - intros p Hp. destruct (own_dec pg dir p) as [Ho|Ho]; [by apply O|].
    destruct (ex_new _ _ _ E p Hp Ho) as [Hm Hu]. rewrite M in Hm by done. split; [done|].
    split; intros ?; apply Hu, U; [by left|by right; left].
  - intros q. rewrite (ex_used _ _ _ E), U. split.
    + intros [[?|[?|(p & ? & ?)]]|?]; [by left|by right; left|right; right; exists p|by right; right].
      split; [by apply (ex_own _ _ _ E)|done].
    + intros [?|[?|?]]; [by left; left|by left; right; left|by right].
Qed.

Lemma own_heap pg h dir p : own (set_heap pg h) dir p <-> own pg dir p.
Proof. done. Qed.

(** More memory taken. *)
Lemma built_grows pg0 pg dir P h R :
  built pg0 pg dir P -> grows (ps_heap pg) h R -> built pg0 (set_heap pg h) dir (fun q => P q \/ R q).
Proof.
  intros [W D M O U X] [Gw Gu Gf]. constructor; try done.
  - apply pages_wf_heap_grow; [done|done|]. intros q Hq. apply Gu. by left.
  - intros p Hp. destruct (O p Hp) as (? & ? & ?). split; [done|]. split; [done|]. intros [?|Hr]; [done|].
    apply (Gf _ Hr), U. right; right. by exists p.
  - intros q. cbn [ps_heap set_heap]. rewrite Gu, U. clear. set (Z1 := exists p, _). change (exists p, own (set_heap pg h) dir p /\ q = p / 4096) with Z1. tauto.
  - intros q [?|Hr]; [by apply X|]. intros ?. apply (Gf _ Hr), U. by left.
Qed.

(** Memory given back. *)
Lemma built_frees pg0 pg dir P n p (R : Z -> Prop) :
  pages_wf pg0 -> built pg0 pg dir P -> 0 < n < 2 ^ 31 - 4096 -> p mod 4096 = 0 ->
  (forall q, range p n q -> P q) -> (forall q, P q <-> range p n q \/ R q) -> (forall q, R q -> ~ range p n q) ->
  built pg0 (set_heap pg (al_free (ps_heap pg) p n)) dir R.
Proof.
  intros Hw0 [W D M O U X] Hn Hp HP HPR Hdis.
  destruct (al_free_ok (ps_heap pg) n p) as [Fw Fu]; [apply W|done|done|intros q Hq; apply U; right; left; by apply HP|].
  assert (Hown : forall x, own pg dir x -> ~ range p n (x / 4096)) by (intros x Hx Hr; by apply (O x Hx), HP).
  assert (Hu : forall q, al_used (al_free (ps_heap pg) p n) q <->
      al_used (ps_heap pg0) q \/ R q \/ exists x, own pg dir x /\ q = x / 4096).
  { intros q. rewrite Fu, U, HPR. fold (range p n q). split.
    - intros [[?|[[?|?]|?]] ?]; [by left|done|by right; left|by right; right].
    - intros [Hq|[Hr|(x & Hx & ->)]].
      + split; [by left|]. intros Hr. by apply (X q), Hq; apply HP.
      + split; [by right; left; right|by apply Hdis].
      + split; [right; right; by exists x|by apply Hown]. }
  constructor; try done.
  - destruct W as [W1 W2 W3 W4 W5 W6]. constructor; try done. intros x y Hx. cbn in Hx.
    destruct (W2 x y Hx) as (Hux & ? & ?). split; [|done]. cbn [ps_heap set_heap]. apply Fu. split; [done|].
    destruct (own_dec pg dir x) as [Ho|Ho]; [by apply Hown|]. intros Hr. rewrite M in Hx by done.
    apply (X (x / 4096)); [by apply HP|]. by apply (pw_used _ Hw0 x y).
  - intros x Hx. destruct (O x Hx) as (? & ? & Hnp). split; [done|]. split; [done|]. intros Hr. apply Hnp, HPR. by right.
  - intros q Hr. apply X, HPR. by right.
Qed.

(** Without the directory only [R] is left of what was taken. *)
Record given_back pg0 pg (R : Z -> Prop) : Prop := {
  gb_wf : pages_wf pg;
  gb_mem : ps_mem pg = ps_mem pg0;
  gb_used q : al_used (ps_heap pg) q <-> al_used (ps_heap pg0) q \/ R q;
  gb_extra q : R q -> ~ al_used (ps_heap pg0) q }.

Lemma built_discard pg0 pg dir R :
  built pg0 pg dir R -> exists pg', free_page_dir pg dir = Some pg' /\ given_back pg0 pg' R.
Proof.
  intros [W [es D] M O U X]. destruct (free_page_dir_spec pg dir es W D) as (pg' & E & F). exists pg'. split; [done|].
  destruct F as [Fw _ _ Fu Fo Fm _]. constructor; [done| | |done].
  - apply map_eq. intros p. destruct (own_dec pg dir p) as [Ho|Ho].
    + rewrite Fo by done. symmetry. by apply O.
    + by rewrite Fm, M.
  - intros q. rewrite Fu, U. split.
    + intros [[?|[?|?]] Hn]; [by left|by right|done].
    + intros [Hq|Hr]; [split; [by left|]|split; [by right; left|]]; intros (p & Hp & ->); destruct (O p Hp) as (_ & ? & ?); done.
Qed.

(** ** The pages of the program *)

Lemma map_image_spec n pg0 k j dir b v mapped :
  pages_wf (pages_of k) -> is_Some (get_dir (pages_of k) dir) ->
  extends dir pg0 (pages_of k) -> (mapped = true -> map_range_post pg0 (pages_of k) dir b v j 1 1 0) ->
  0 <= j -> 0 <= b -> b + j + Z.of_nat n <= 2 ^ 20 -> 0 <= v -> v + j + Z.of_nat n <= 2 ^ 20 ->
  exists ok pg, map_image n (j * 4096) dir (b * 4096) (v * 4096) mapped k = Ret ok (with_pages k pg) /\
    pages_wf pg /\ is_Some (get_dir pg dir) /\ extends dir pg0 pg /\
    (ok = true -> map_range_post pg0 pg dir b v (j + Z.of_nat n) 1 1 0).
Proof.
  revert k j mapped. induction n as [|n IH]; intros k j mapped Hw [es Hd] Hx Hm Hj Hb Hbn Hv Hvn; cbn [map_image].
  { exists mapped, (pages_of k). split; [by destruct k as [? ? ? ? ? []]|]. split_and!; try done.
    by rewrite Z.add_0_r. }
  rewrite !u32_id by lia. replace (b * 4096 + j * 4096) with ((b + j) * 4096) by lia.
  replace (v * 4096 + j * 4096) with ((v + j) * 4096) by lia.
  destruct (map_spec (pages_of k) dir es ((b + j) * 4096) ((v + j) * 4096) 1 1 0) as (ok & pg1 & E & Hp);
    [done|done|unfold is_u32; lia..|].
  kret (kmap_Ret _ _ _ _ _ _ _ _ _ E). unfold PAGE_SIZE. replace (j * 4096 + 4096) with ((j + 1) * 4096) by lia.
  replace (j + Z.of_nat (S n)) with (j + 1 + Z.of_nat n) by lia. destruct ok.
  - apply (IH (with_pages k pg1)); [apply Hp|apply Hp|eapply extends_trans; [exact Hx|apply Hp]| |lia..].
    rewrite andb_true_r. intros Hok. apply (map_range_snoc _ (pages_of k)); [done|by apply Hm|done].
  - subst pg1. replace (with_pages k (pages_of k)) with k by by destruct k as [? ? ? ? ? []].
    apply IH; [done|by eexists|done| |lia..]. by rewrite andb_false_r.
Qed.

Lemma map_program_spec k dir es b v size :
  pages_wf (pages_of k) -> get_dir (pages_of k) dir = Some es -> 0 < size < 2 ^ 31 - PAGE_SIZE ->
  0 <= b -> b * 4096 + pages size * 4096 <= 2 ^ 31 -> 0 <= v -> v * 4096 + size < 2 ^ 32 - PAGE_SIZE ->
  exists ok pg, map_program dir (b * 4096) (v * 4096) size k = Ret ok (with_pages k pg) /\
    pages_wf pg /\ is_Some (get_dir pg dir) /\ extends dir (pages_of k) pg /\
    (ok = true -> map_range_post (pages_of k) pg dir b v (pages size) 1 1 0).
Proof.
  intros Hw Hd Hs Hb Hbs Hv Hvs. unfold map_program, image_pages, pages, PAGE_SIZE in *.
  rewrite (proj2 (Z.ltb_ge _ _)) by lia. replace (size + 4096 - 1) with (size + 4095) by lia.
  destruct (map_image_spec (Z.to_nat ((size + 4095) / 4096)) (pages_of k) k 0 dir b v true) as (ok & pg & E & W & D & X & R);
    [done|by eexists|by eapply extends_refl|by intros _; eapply map_range_refl|Z.div_mod_to_equations; lia..|].
  exists ok, pg. split; [exact E|]. split_and!; try done. intros Hok. specialize (R Hok).
  rewrite Z.add_0_l, Z2Nat.id in R by (Z.div_mod_to_equations; lia). done.
Qed.

Lemma mapped_addr pg0 pg dir b v n va :
  map_range_post pg0 pg dir b v n 1 1 0 -> 0 <= v -> v * 4096 <= va < (v + n) * 4096 ->
  user_addr pg dir va = Some (b * 4096 + (va - v * 4096)) /\
  exists e, translate pg dir (va / 4096) = Some e /\ rw e = 1 /\ user e = 1.
Proof.
  intros Hm Hv Hva. destruct (mr_at _ _ _ _ _ _ _ _ _ Hm (va / 4096 - v)) as (e & He & (_ & Ha & Hr & Hu & _));
    [Z.div_mod_to_equations; lia|].
  replace (v + (va / 4096 - v)) with (va / 4096) in He by lia. unfold user_addr, PAGE_SIZE. rewrite He. split; [|by exists e].
  cbn [mbind option_bind]. f_equal. rewrite Ha, Z.div_mul by lia. Z.div_mod_to_equations. lia.
Qed.

(** ** The image *)

Definition with_bytes k (f : Z -> Z) : kern MM := k <| k_mem := TMem (tm_pg (k_mem k)) f |>.

Section copying.
Variables (prog : list Z) (h : elf_header_t) (lo hi new : Z).
Hypothesis (Hnew : 0 < new) (Hfit : new + (hi - lo) <= 2 ^ 31).

(** Where the byte [j] of a segment goes, and what it is. *)
Definition image_at (ph : elf_prog_header_t) (j : Z) : Z := new + (p_vaddr ph - lo) + j.
Definition image_byte (ph : elf_prog_header_t) (j : Z) : Z :=
  if j <? p_filesz ph then byte_at prog (p_offset ph + j) else 0.

(** One segment: the bytes of the file, then zeros, and nothing else. *)
Lemma segment_bytes f dest off n (m : Z) :
  0 <= off -> 0 <= n -> off + n <= zlen prog -> n <= m ->
  let f1 := copy_bytes f dest (slice prog off n) in
  let f2 := if n <? m then fill_bytes f1 (dest + n) (m - n) 0 else f1 in
  (forall j, 0 <= j < m -> f2 (dest + j) = if j <? n then byte_at prog (off + j) else 0) /\
  (forall a, ~ (dest <= a < dest + m) -> f2 a = f a).
Proof.
  intros Ho Hn Hin Hm f1 f2.
  assert (E : forall a, f2 a = if decide (dest <= a < dest + n) then byte_at prog (off + (a - dest))
                        else if decide (dest <= a < dest + m) then 0 else f a).
  { intros a. subst f1 f2. unfold copy_bytes, fill_bytes. rewrite zlen_slice by done.
    assert (B : dest <= a < dest + n -> byte_at (slice prog off n) (a - dest) = byte_at prog (off + (a - dest))).
    { intros. unfold byte_at. by rewrite zget_slice by lia. }
    zcases; repeat case_decide; try lia; auto. }
  split; intros; rewrite E; repeat case_decide; try lia; zcases; try lia; try done. do 2 f_equal. lia.
Qed.

Lemma copy_segments_spec hs : forall i k,
  reads prog h i hs -> Forall (fun ph => is_load ph -> segment_ok (zlen prog) lo hi ph) hs ->
  ForallOrdPairs (fun ph ph' => is_load ph -> is_load ph' -> apart ph ph') hs ->
  exists f', copy_segments (length hs) i prog h new lo k = Ret tt (with_bytes k f') /\
    (forall ph j, ph ∈ hs -> is_load ph -> 0 <= j < p_memsz ph -> f' (image_at ph j) = image_byte ph j) /\
    (forall a, (forall ph, ph ∈ hs -> is_load ph -> ~ (image_at ph 0 <= a < image_at ph 0 + p_memsz ph)) ->
       f' a = tm_bytes (k_mem k) a).
Proof.
  induction hs as [|ph hs IH]; intros i k Hr Hs Ha.
  { exists (tm_bytes (k_mem k)). split; [by destruct k as [? ? ? ? ? []]|]. split; [|done]. intros ph j Hin. by apply not_elem_of_nil in Hin. }
  destruct Hr as [Hph Hr]. apply Forall_cons in Hs as [Hok Hs]. inversion Ha as [|? ? Ha1 Ha2]; subst.
  cbn [copy_segments length]. rewrite Hph. change (deref (Some ph)) with (mret (M := K MM) ph).
  rewrite (bind_Ret (mret ph) _ k ph k) by done.
  destruct (decide (is_load ph)) as [Hl|Hl]; unfold is_load in Hl.
  2:{ rewrite (proj2 (Z.eqb_neq _ _)) by done. cbn [negb]. destruct (IH (i + 1) k Hr Hs Ha2) as (f' & E & I1 & I2).
      exists f'. split; [done|]. split; [intros p j Hp Hlp; apply I1; [|done]; apply elem_of_cons in Hp as [->|]; done|].
      intros a Hout. apply I2. intros p Hp. apply Hout. by right. }
  destruct (Hok Hl) as [[F1 [F2 F3]] [M1 M2] [R1 R2]]. unfold seg_end in R2.
  rewrite Hl. change (negb (PT_LOAD =? PT_LOAD)) with false. cbv iota.
  unfold file_bytes. rewrite !(proj2 (Z.leb_le _ _)) by lia. cbn [andb].
  rewrite (u32_id (p_vaddr ph - lo)) by lia. rewrite (u32_id (new + (p_vaddr ph - lo))) by lia. rewrite u32_id by lia.
  destruct (segment_bytes (tm_bytes (k_mem k)) (new + (p_vaddr ph - lo)) (p_offset ph) (p_filesz ph) (p_memsz ph)) as [B1 B2]; [lia..|].
  set (f1 := if p_filesz ph <? p_memsz ph then _ else _) in *.
  destruct (IH (i + 1) (with_bytes k f1) Hr Hs Ha2) as (f' & E & I1 & I2). exists f'. split.
  { transitivity (copy_segments (length hs) (i + 1) prog h new lo (with_bytes k f1)); [|exact E].
    subst f1. by destruct (p_filesz ph <? p_memsz ph). }
  rewrite Forall_forall in Hs, Ha1. split.
  - intros p j Hp Hpl Hj. apply elem_of_cons in Hp as [->|Hp]; [|by apply I1].
    rewrite I2; [by apply B1|]. intros q Hq Hql. destruct (Hs q Hq Hql) as [_ [_ Q] [Q1 Q2]].
    pose proof (Ha1 q Hq Hl Hql) as Hap. unfold apart, seg_end, image_at in *. lia.
  - intros a Hout. rewrite I2 by (intros q Hq; apply Hout; by right). apply B2.
    specialize (Hout ph ltac:(by left) Hl). unfold image_at in Hout. lia.
Qed.

End copying.

(** ** Failure

    The slot is free again; it may have gained stacks, and nothing else is left. *)

(** [k'] differs from [k] in memory and in the slot [i], which holds [t]. *)
Record same_slots k k' (i : Z) (t : task_state_t) : Prop := {
  sl_task : zget (tasks k') i = Some t;
  sl_others j : j <> i -> zget (tasks k') j = zget (tasks k) j;
  sl_procs : processes k' = processes k }.

(** Bytes in use keep their values. *)
Definition same_bytes k k' : Prop :=
  forall a, al_used (heap_of (k_mem k)) (a / 4096) -> tm_bytes (k_mem k') a = tm_bytes (k_mem k) a.

Record load_failed k k' (i : Z) (t : task_state_t) : Prop := {
  lf_slot : exists b c R, same_slots k k' i (t <| stack_base := b |> <| kernel_stack_top := c |> <| reserved := false |>) /\
    given_back (pages_of k) (pages_of k') R /\ forall q, R q -> stack_pages b q;
  lf_bytes : same_bytes k k' }.

Lemma give_up_slot_spec k k1 i t b c R :
  same_slots k k1 i (t <| stack_base := b |> <| kernel_stack_top := c |>) -> 0 <= i < TOTAL_TASKS ->
  given_back (pages_of k) (pages_of k1) R -> (forall q, R q -> stack_pages b q) -> same_bytes k k1 ->
  exists k2, give_up_slot i k1 = Ret (-1) k2 /\ load_failed k k2 i t.
Proof.
  intros [S1 S2 S3] Hi Hg Hr Hb. unfold give_up_slot, task_unreserve.
  rewrite (proj2 (Z.ltb_ge _ _)), (proj2 (Z.leb_gt _ _)) by lia. cbn [orb]. kupd S1.
  eexists. split; [done|]. pose proof (zget_Some_range _ _ _ S1). constructor; [|done].
  exists b, c, R. split; [|done]. constructor; [..|done]; cbn.
  - by rewrite zget_zset_eq by lia.
  - intros j Hj. rewrite zget_zset_ne by done. by apply S2.
Qed.

Lemma give_up_dir_spec k k1 i t b c R dir :
  same_slots k k1 i (t <| stack_base := b |> <| kernel_stack_top := c |>) -> 0 <= i < TOTAL_TASKS ->
  built (pages_of k) (pages_of k1) dir R -> (forall q, R q -> stack_pages b q) -> same_bytes k k1 ->
  exists k2, give_up_dir i dir k1 = Ret (-1) k2 /\ load_failed k k2 i t.
Proof.
  intros Hs Hi Hb Hr Hby. destruct (built_discard _ _ _ _ Hb) as (pg & E & Hg). unfold give_up_dir.
  assert (Ef : kfree_page_dir dir k1 = Ret tt (with_pages k1 pg)).
  { unfold kfree_page_dir, on_pages. rewrite bind_gets. fold (pages_of k1). by rewrite E. }
  kret Ef. destruct Hs. by eapply (give_up_slot_spec k (with_pages k1 pg)).
Qed.

Lemma give_up_memory_spec k k1 i t b c P R dir new size :
  pages_wf (pages_of k) ->
  same_slots k k1 i (t <| stack_base := b |> <| kernel_stack_top := c |>) -> 0 <= i < TOTAL_TASKS ->
  0 < size < 2 ^ 31 - 4096 -> new mod 4096 = 0 ->
  built (pages_of k) (pages_of k1) dir P -> (forall q, P q <-> range new size q \/ R q) ->
  (forall q, R q -> ~ range new size q) -> (forall q, R q -> stack_pages b q) -> same_bytes k k1 ->
  exists k2, give_up_memory i dir new size k1 = Ret (-1) k2 /\ load_failed k k2 i t.
Proof.
  intros Hw Hs Hi Hsz Hn Hb HP Hdis Hr Hby. unfold give_up_memory, dealloc. rewrite bind_modify.
  set (k2 := k1 <| k_mem := _ |>). destruct Hs. apply (give_up_dir_spec k k2 i t b c R); try done.
  apply (built_frees _ (pages_of k1) dir P size new R); try done. intros q Hq. apply HP. by left.
Qed.

(** ** Success *)

Record loaded (prog : list Z) (h : elf_header_t) (hs : list elf_prog_header_t) (lo hi : Z)
    k k' (i : Z) (t : task_state_t) (x : process_t) : Prop := {
  ld_task : exists t', zget (tasks k') i = Some t' /\ eip (registers t') = entry h /\ enabled t' = false /\
    processes k' = <[t_process t' := x]> (processes k);
  ld_others j : j <> i -> zget (tasks k') j = zget (tasks k) j;
  ld_process : vmem_start x = lo /\ vmem_end x = hi /\ threads x = [Some i; None; None; None] /\
    hi <= heap_start x /\ heap_end x = heap_start x;
  ld_new : ps_mem (pages_of k) !! page_dir x = None;
  ld_segment ph j : ph ∈ hs -> is_load ph -> 0 <= j < p_memsz ph ->
    user_read (k_mem k') (page_dir x) (p_vaddr ph + j) = Some (image_byte prog ph j);
  ld_gap va : lo <= va < hi -> (forall ph, ph ∈ hs -> is_load ph -> ~ (p_vaddr ph <= va < seg_end ph)) ->
    user_read (k_mem k') (page_dir x) va = Some 0;
  ld_access va : lo <= va < hi -> exists e, translate (pages_of k') (page_dir x) (va / 4096) = Some e /\ rw e = 1 /\ user e = 1;
  ld_tables p y : ps_mem (pages_of k) !! p = Some y -> ps_mem (pages_of k') !! p = Some y;
  ld_bytes a : al_used (heap_of (k_mem k)) (a / 4096) -> ~ stack_pages (stack_base t) (a / 4096) ->
    tm_bytes (k_mem k') a = tm_bytes (k_mem k) a }.

Context (stale_ports : list Z) (fb fb_size : Z).

Record load_ready k (i : Z) (t : task_state_t) : Prop := {
  lr_pages : pages_wf (pages_of k);
  lr_task : zget (tasks k) i = Some t;
  lr_slot : 0 <= i < TOTAL_TASKS;
  lr_stack : stack_kept (heap_of (k_mem k)) (stack_base t);
  lr_fb : 0 <= fb /\ 0 <= fb_size /\ fb + fb_size + 4095 < 2 ^ 32 }.

(** The task is made, or the slot is given up. *)
Lemma elf_task_spec k k4 i t h dir new lo hi :
  load_ready k i t -> same_slots k k4 i t -> built (pages_of k) (pages_of k4) dir (range new (hi - lo)) ->
  same_bytes k k4 -> 0 < hi - lo < 2 ^ 31 - 4096 -> 0 <= lo -> hi < 2 ^ 32 - PAGE_SIZE -> new mod 4096 = 0 ->
  runs (no_process_memory (heap_of (k_mem k))) (elf_task stale_ports h i dir new lo hi) (fun r k' =>
    (r = -1 /\ load_failed k k' i t) \/
    (r = i /\ exists t' x R, zget (tasks k') i = Some t' /\ eip (registers t') = entry h /\ enabled t' = false /\
       processes k' = <[t_process t' := x]> (processes k) /\
       (forall j, j <> i -> zget (tasks k') j = zget (tasks k) j) /\
       vmem_start x = lo /\ vmem_end x = hi /\ threads x = [Some i; None; None; None] /\
       hi <= heap_start x /\ heap_end x = heap_start x /\ page_dir x = dir /\
       takes (k_mem k4) (k_mem k') R (stack_pages (stack_base t)))) k4.
Proof.
  intros [Lp Lt Ls [Lk1 Lk2] Lf] [S1 S2 S3] Hb Hby Hsz Hlo Hhi Hn. unfold elf_task, PAGE_SIZE in *. rewrite u32_id by lia.
  assert (Hw4 : al_wf (heap_of (k_mem k4))) by apply Hb.
  assert (Hu4 : forall q, al_used (heap_of (k_mem k)) q -> al_used (heap_of (k_mem k4)) q).
  { intros q Hq. apply (bu_used _ _ _ _ Hb). by left. }
  eapply runs_call.
  { eapply runs_weaken; [|apply (create_task_entry_spec stale_ports k4 i t (entry h) (hi - lo) false S1 Hw4); split; auto].
    intros (g & g' & Hg & Hm). exists g, g'. auto. }
  intros r k5 (b & c & R & Hbs & Htk & [(-> & Hst & HR)|(-> & p & Hem)]).
  - change (-1 =? -1) with true. cbv iota. destruct (sd_takes _ _ _ _ _ _ _ Hst (fun _ => False)) as [[g Eg] Hgr Hbt].
    destruct (give_up_memory_spec k k5 i t b c (fun q => range new (hi - lo) q \/ R q) R dir new (hi - lo)) as (k6 & E6 & Hf); try done.
    + destruct Hst as [T1 T2 _ T4 _ _ _]. constructor; [done| |congruence]. intros j Hj. by rewrite T2, S2.
    + unfold pages_of at 2. rewrite Eg. apply built_grows; [done|]. unfold heap_of in Hgr. rewrite Eg in Hgr. exact Hgr.
    + intros q Hq Hr. apply (gr_fresh _ _ _ Hgr q Hq), (bu_used _ _ _ _ Hb). right. by left.
    + intros a Ha. rewrite Hbt; [by apply Hby| |tauto]. intros Hr. by apply (gr_fresh _ _ _ Hgr _ Hr), Hu4.
    + unfold runs. rewrite E6. by left.
  - change (0 =? -1) with false. cbv iota. destruct Hem as [E1 E2 E3 E4 E5 E6].
    eapply runs_get_task; [exact E1|]. cbn [t_process].
    eapply runs_upd_process; [rewrite E4; apply lookup_insert_eq|]. apply runs_ret. right. split; [done|].
    match type of E4 with _ = <[_ := ?y]> _ => set (y0 := y) in * end.
    match goal with |- context [if ?c then KERNEL_END else page_align_up hi] => set (hp := if c then KERNEL_END else page_align_up hi) end.
    assert (Hhp : hi <= hp).
    { assert (Hal : page_align_up hi = (hi + 4095) / 4096 * 4096) by (apply page_align_up_spec; lia). subst hp. rewrite Hal.
      clear. destruct (Z.ltb_spec ((hi + 4095) / 4096 * 4096) KERNEL_END); Z.div_mod_to_equations; lia. }
    set (x0 := y0 <| vmem_start := lo |> <| vmem_end := hi |> <| prog_start := new |> <| page_dir := dir |>
      <| heap_start := hp |> <| heap_end := hp |>).
    eexists _, x0, R.
    split; [exact E1|]. split; [done|]. split; [done|]. split.
    { rewrite <-S3. transitivity (<[p := x0]> (processes k5)); [done|]. rewrite E4. apply insert_insert_eq. }
    split; [intros j Hj; etransitivity; [by apply E2|by apply S2]|]. by split_and!.
Qed.

(** ** The whole load *)

Lemma file_ok_size prog h hs lo hi : file_ok prog h hs lo hi -> 0 < hi - lo.
Proof.
  intros Hok. destruct (fo_lo _ _ _ _ _ Hok) as (ph & Hin & Hl & <-).
  pose proof (fo_segments _ _ _ _ _ Hok) as Hs. rewrite Forall_forall in Hs.
  destruct (Hs ph Hin Hl) as [_ [_ ?] [_ ?]]. unfold seg_end in *. lia.
Qed.

Lemma same_slots_refl k i t : zget (tasks k) i = Some t ->
  same_slots k k i (t <| stack_base := stack_base t |> <| kernel_stack_top := kernel_stack_top t |>).
Proof. intros Ht. constructor; [by destruct t|done|done]. Qed.

Lemma image_range new lo hi a : new mod 4096 = 0 -> new <= a < new + (hi - lo) -> range new (hi - lo) (a / 4096).
Proof. intros Hn Ha. unfold range, pages. clear -Hn Ha. Z.div_mod_to_equations. lia. Qed.

(** What the program sees of its memory, once the task is made. *)
Lemma program_view k pg0 pg f k' R S dir new lo hi va :
  map_range_post pg0 pg dir (new / 4096) (lo / 4096) (pages (hi - lo)) 1 1 0 ->
  built (pages_of k) pg dir (range new (hi - lo)) ->
  takes (TMem pg f) (k_mem k') R S -> (forall q, S q -> al_used (heap_of (k_mem k)) q) ->
  new mod 4096 = 0 -> lo mod 4096 = 0 -> 0 <= lo -> lo <= va < hi ->
  user_read (k_mem k') dir va = Some (f (new + (va - lo))) /\
  exists e, translate (pages_of k') dir (va / 4096) = Some e /\ rw e = 1 /\ user e = 1.
Proof.
  intros Hm Hb Ht HS Hn Hlm Hl Hva.
  destruct (mapped_addr pg0 pg dir (new / 4096) (lo / 4096) (pages (hi - lo)) va Hm) as [Ha He];
    [Z.div_mod_to_equations; lia|unfold pages; clear -Hlm Hva; Z.div_mod_to_equations; lia|].
  destruct (ta_pg _ _ _ _ Ht) as [g Eg]. cbn [tm_pg] in Eg. unfold pages_of. rewrite Eg. split; [|exact He].
  unfold user_read. rewrite Eg. change (user_addr (set_heap pg g) dir va) with (user_addr pg dir va). rewrite Ha.
  cbn [mbind option_bind]. f_equal.
  replace (new / 4096 * 4096 + (va - lo / 4096 * 4096)) with (new + (va - lo)) by (clear -Hn Hlm; Z.div_mod_to_equations; lia).
  pose proof (image_range new lo hi (new + (va - lo)) Hn ltac:(lia)) as Hr.
  rewrite (ta_bytes _ _ _ _ Ht); [done| |].
  - intros HR. apply (gr_fresh _ _ _ (ta_heap _ _ _ _ Ht) _ HR). apply (bu_used _ _ _ _ Hb). right. by left.
  - intros Hs. by apply (bu_extra _ _ _ _ Hb _ Hr), HS.
Qed.

(** From the memory of the program to the task. *)
Lemma elf_fill_spec k k3 i t prog h hs lo hi dir new :
  file_ok prog h hs lo hi -> load_ready k i t ->
  tasks k3 = tasks k -> processes k3 = processes k -> same_bytes k k3 ->
  built (pages_of k) (pages_of k3) dir (range new (hi - lo)) -> dir <> NULL ->
  ps_mem (pages_of k) !! dir = None ->
  new mod 4096 = 0 -> 0 < new -> new + pages (hi - lo) * 4096 <= 2 ^ 31 ->
  let size := hi - lo in
  runs (no_process_memory (heap_of (k_mem k)))
    (_ ← kmemset new 0 size;
     mapped ← map_program dir new lo size;
     if negb mapped then give_up_memory i dir new size
     else
       _ ← copy_segments (Z.to_nat (prog_header_entry_count h)) 0 prog h new lo;
       elf_task stale_ports h i dir new lo hi)
    (fun r k' => (r = -1 /\ load_failed k k' i t) \/ (r = i /\ exists x, loaded prog h hs lo hi k k' i t x)) k3.
Proof.
  intros Hok Hl Htk Hpk Hby Hb Hd Hd0 Hn Hn0 Hfit size. subst size.
  pose proof (file_ok_size _ _ _ _ _ Hok) as Hsz. pose proof (fo_range _ _ _ _ _ Hok) as (R1 & R2 & R3 & R4).
  unfold PAGE_SIZE in *. apply runs_modify. set (k4 := k3 <| k_mem := _ |>).
  assert (Hby4 : same_bytes k k4).
  { intros a Ha. cbn. unfold fill_bytes. destruct ((new <=? a) && (a <? new + (hi - lo))) eqn:E; [exfalso|by apply Hby].
    apply andb_true_iff in E as [E1%Z.leb_le E2%Z.ltb_lt]. apply (bu_extra _ _ _ _ Hb (a / 4096)); [|done].
    unfold range, pages. clear -E1 E2 Hn. Z.div_mod_to_equations. lia. }
  assert (Hs0 : same_slots k k4 i t).
  { constructor; [|intros j _|exact Hpk]; change (tasks k4) with (tasks k3); rewrite Htk; [apply Hl|done]. }
  destruct (bu_dir _ _ _ _ Hb) as [es Hes].
  destruct (map_program_spec k4 dir es (new / 4096) (lo / 4096) (hi - lo)) as (ok & pg & E & W & D & X & M);
    [apply Hb|done|unfold PAGE_SIZE; lia|Z.div_mod_to_equations; lia|Z.div_mod_to_equations; lia
    |Z.div_mod_to_equations; lia|unfold PAGE_SIZE; Z.div_mod_to_equations; lia|].
  replace (new / 4096 * 4096) with new in E by (Z.div_mod_to_equations; lia).
  replace (lo / 4096 * 4096) with lo in E by (Z.div_mod_to_equations; lia).
  eapply runs_Ret; [exact E|]. assert (Hb5 : built (pages_of k) pg dir (range new (hi - lo))) by by eapply built_extends.
  destruct ok; cbn [negb].
  2:{ destruct (give_up_memory_spec k (with_pages k4 pg) i t (stack_base t) (kernel_stack_top t) (range new (hi - lo)) (fun _ => False) dir new (hi - lo))
        as (k6 & E6 & Hf); try done; [apply Hl| |apply Hl|intros q; tauto|].
      - destruct Hs0. constructor; [by destruct t|done|done].
      - unfold runs. rewrite E6. by left. }
  specialize (M eq_refl). rewrite (fo_count _ _ _ _ _ Hok). unfold zlen. rewrite Nat2Z.id.
  assert (Hfit' : new + (hi - lo) <= 2 ^ 31) by (unfold pages in Hfit; Z.div_mod_to_equations; lia).
  destruct (copy_segments_spec prog h lo hi new Hn0 Hfit' hs 0 (with_pages k4 pg)) as (f & Ef & F1 & F2); [apply Hok..|].
  eapply runs_Ret; [exact Ef|]. set (k5 := with_bytes (with_pages k4 pg) f).
  pose proof (fo_segments _ _ _ _ _ Hok) as Hseg. rewrite Forall_forall in Hseg.
  assert (Hby5 : same_bytes k k5).
  { intros a Ha. change (tm_bytes (k_mem k5) a) with (f a). rewrite F2; [by apply Hby4|]. intros ph Hph Hpl Hin.
    destruct (Hseg ph Hph Hpl) as [_ _ [? ?]]. unfold image_at, seg_end in *.
    apply (bu_extra _ _ _ _ Hb (a / 4096)); [apply (image_range new lo hi); [done|lia]|done]. }
  eapply runs_mono.
  { apply (elf_task_spec k k5 i t h dir new lo hi Hl); [|done|done|lia|lia|unfold PAGE_SIZE; lia|done].
    destruct Hs0. by constructor. }
  intros r k6 [[-> ?]|(-> & t' & x & R & T1 & T2 & T3 & T4 & T5 & T6 & T7 & T8 & T9 & T10 & T11 & T12)]; [by left|].
  right. split; [done|]. exists x.
  assert (Hview : forall va, lo <= va < hi -> user_read (k_mem k6) dir va = Some (f (new + (va - lo))) /\
      exists e, translate (pages_of k6) dir (va / 4096) = Some e /\ rw e = 1 /\ user e = 1).
  { intros va Hva. apply (program_view k (pages_of k4) pg f k6 R (stack_pages (stack_base t)) dir new lo hi va M Hb5); try done. apply Hl. }
  rewrite <-T11 in *. constructor; try done.
  - by exists t'.
  - intros ph j Hph Hpl Hj. destruct (Hseg ph Hph Hpl) as [_ _ [? ?]]. unfold seg_end in *.
    destruct (Hview (p_vaddr ph + j)) as [-> _]; [lia|]. f_equal. rewrite <-(F1 ph j Hph Hpl Hj). f_equal. unfold image_at. lia.
  - intros va Hva Hout. destruct (Hview va Hva) as [-> _]. f_equal. rewrite F2.
    + change (fill_bytes (tm_bytes (k_mem k3)) new (hi - lo) 0 (new + (va - lo)) = 0). unfold fill_bytes.
      by rewrite (proj2 (Z.leb_le _ _)), (proj2 (Z.ltb_lt _ _)) by lia.
    + intros ph Hph Hpl Hin. apply (Hout ph Hph Hpl). unfold image_at, seg_end in *. lia.
  - intros va Hva. by destruct (Hview va Hva).
  - intros p y Hp. destruct (ta_pg _ _ _ _ T12) as [g Eg]. unfold pages_of at 1. rewrite Eg.
    change (ps_mem pg !! p = Some y). rewrite (bu_mem _ _ _ _ Hb5); [done|]. intros Ho.
    destruct (bu_own _ _ _ _ Hb5 p Ho) as (Hnone & _). congruence.
  - intros a Ha Hs. rewrite (ta_bytes _ _ _ _ T12); [by apply Hby5| |done].
    intros HR. apply (gr_fresh _ _ _ (ta_heap _ _ _ _ T12) _ HR). apply (bu_used _ _ _ _ Hb5). by left.
Qed.

Lemma elf_image_spec k i t prog h hs lo hi :
  file_ok prog h hs lo hi -> load_ready k i t ->
  runs (no_process_memory (heap_of (k_mem k))) (elf_image stale_ports fb fb_size prog h i lo hi)
    (fun r k' => (r = -1 /\ load_failed k k' i t) \/ (r = i /\ exists x, loaded prog h hs lo hi k k' i t x)) k.
Proof.
  intros Hok Hl. pose proof (file_ok_size _ _ _ _ _ Hok) as Hsz.
  pose proof (fo_range _ _ _ _ _ Hok) as (R1 & R2 & R3 & R4). pose proof (fo_user _ _ _ _ _ Hok) as Hus.
  unfold elf_image, PAGE_SIZE in *. rewrite (u32_id (hi - lo)) by lia.
  replace ((lo <=? KERNEL_END) && (KERNEL_START <=? hi)) with false by (symmetry; apply andb_false_iff; rewrite !Z.leb_gt; lia).
  pose proof (same_slots_refl k i t (lr_task _ _ _ Hl)) as Hs0.
  destruct (new_page_spec (pages_of k) fb fb_size (lr_pages _ _ _ Hl)) as (dir & pg1 & E1 & Hn1); [apply Hl..|].
  assert (Ek1 : knew_page fb fb_size k = Ret dir (with_pages k pg1)).
  { unfold knew_page, on_pages. rewrite bind_gets. fold (pages_of k). by rewrite E1. }
  eapply runs_Ret; [exact Ek1|]. destruct (Z.eqb_spec dir NULL) as [Hd|Hd].
  { destruct (np_fail _ _ _ _ _ Hn1 Hd) as [Hu Hm].
    destruct (give_up_slot_spec k (with_pages k pg1) i t (stack_base t) (kernel_stack_top t) (fun _ => False)) as (k2 & E2 & Hf);
      [by destruct Hs0|apply Hl| |done|done|].
    - constructor; [apply Hn1|exact Hm|intros q; change (al_used (ps_heap pg1) q <-> al_used (ps_heap (pages_of k)) q \/ False); rewrite Hu; tauto|done].
    - unfold runs. rewrite E2. by left. }
  pose proof (built_new_page _ _ _ _ _ (lr_pages _ _ _ Hl) Hn1 Hd) as Hb1.
  destruct (alloc_runs (hi - lo) (with_pages k pg1)) as (new & m2 & E2 & N1 & N2); [apply Hn1|lia|].
  eapply runs_Ret; [exact E2|]. destruct (Z.eqb_spec new NULL) as [Hz|Hz].
  { destruct (N1 Hz) as [-> _].
    destruct (give_up_dir_spec k (with_pages k pg1) i t (stack_base t) (kernel_stack_top t) (fun _ => False) dir) as (k2 & E3 & Hf);
      [by destruct Hs0|apply Hl|done|done|done|].
    unfold runs. change ((with_pages k pg1) <| k_mem := k_mem (with_pages k pg1) |>) with (with_pages k pg1). rewrite E3. by left. }
  destruct (N2 Hz) as (A1 & A2 & A3 & A4). destruct (A4 (fun _ => False)) as [[g Eg] Hg Hby].
  apply (elf_fill_spec k _ i t prog h hs lo hi dir new); try done.
  - intros a Ha. change (tm_bytes m2 a = tm_bytes (k_mem k) a). rewrite Hby; [done| |tauto].
    intros Hr. apply (gr_fresh _ _ _ Hg _ Hr). apply (bu_used _ _ _ _ Hb1). by left.
  - change (built (pages_of k) (tm_pg m2) dir (range new (hi - lo))). rewrite Eg. unfold heap_of in Hg. rewrite Eg in Hg.
    destruct (built_grows _ _ _ _ _ _ Hb1 Hg) as [B1 B2 B3 B4 B5 B6]. constructor; try done.
    + intros p Hp. destruct (B4 p Hp) as (? & ? & ?). tauto.
    + intros q. rewrite B5. tauto.
    + intros q Hq. apply B6. by right.
  - by apply (np_new _ _ _ _ _ Hn1).
Qed.

(** The tables are well formed, every slot's stack is memory in use, the framebuffer lies in
    the address space. *)
Record loader_ok k : Prop := {
  lk_pages : pages_wf (pages_of k);
  lk_tasks : zlen (tasks k) = TOTAL_TASKS;
  lk_stacks i t : zget (tasks k) i = Some t -> stack_kept (heap_of (k_mem k)) (stack_base t);
  lk_fb : 0 <= fb /\ 0 <= fb_size /\ fb + fb_size + 4095 < 2 ^ 32 }.


End load.

(** ** A small program

    One segment of five bytes at 0x8048000, of which the file holds three. *)
Definition small_elf : list Z :=
  [127; 69; 76; 70] ++ replicate 12 0 ++ [2; 0] ++ replicate 6 0 ++ [0; 128; 4; 8] ++ [52; 0; 0; 0] ++ replicate 12 0 ++ [1; 0] ++ replicate 6 0 ++
  [1; 0; 0; 0] ++ [84; 0; 0; 0] ++ [0; 128; 4; 8] ++ replicate 4 0 ++ [3; 0; 0; 0] ++ [5; 0; 0; 0] ++ replicate 8 0 ++
  [11; 22; 33].

Definition small_header : elf_header_t := ElfHeader ELF_MAGIC 2 0x8048000 52 1.
Definition small_segment : elf_prog_header_t := ProgHeader 1 84 0x8048000 3 5.

Lemma small_elf_ok : file_ok small_elf small_header [small_segment] 0x8048000 0x8048005.
Proof.
  constructor; try done.
  - apply Forall_cons. split; [|done]. intros _. change (zlen small_elf) with 87. constructor; unfold seg_end; cbn; lia.
  - repeat constructor.
  - exists small_segment. split; [by left|done].
  - exists small_segment. split; [by left|done].
  - left. unfold KERNEL_END. lia.
Qed.

Lemma mem_loader_ok : loader_ok 0xFD000000 8192 (mem_kern <| tasks := tasks (demo_kern 0) |>).
Proof.
  constructor; [apply demo_tm_ok|done| |lia]. intros i t Ht. apply zget_elem in Ht.
  assert (Hz : Forall (fun t => stack_base t = 0) (tasks (demo_kern 0))) by (vm_compute; repeat constructor).
  rewrite Forall_forall in Hz. rewrite (Hz t Ht). split; [by left|]. by intros q [? _].
Qed.

Definition small_load : res (tmem (H := heap)) Z :=
  elf_load [] 0xFD000000 8192 small_elf (zlen small_elf) (mem_kern <| tasks := tasks (demo_kern 0) |>).

Lemma small_load_runs : match small_load with Ret r _ => Some r | _ => None end = Some 3.
Proof. vm_compute. reflexivity. Qed.

