(* ===== verification/Quiet.v ===== *)
(** * What scheduling and notifications leave alone

    A switch, a pause, a queued event or a retried notification changes neither the locks
    of the tasks nor the ports, nor anything of a channel but its flags and pending
    notifications. [quiet] is this relation; the functions of Sched and Events keep it. *)

From stdpp Require Import functions sets.
From S2P Require Import Kern Sched Events Hoare.

Local Open Scope Z_scope.

(** What the locks are to the tasks: the mutex a task waits for, the next waiter, the first
    mutex it owns. *)
Abbreviation tview := (Z -> option (option Z * option Z * option Z)).

Definition sync_of (t : task_state_t) : option Z * option Z * option Z :=
  (t_mutex t, mutex_next_waiter t, owned_mutexes t).

Definition view {M} (k : kern M) : tview := fun i => sync_of <$> zget (tasks k) i.

Definition same_sync {M} (k k' : kern M) : Prop :=
  mutexes k' = mutexes k /\ forall i, view k' i = view k i.

(** A channel but for its flags and pending notifications. *)
Definition channel_core (ch : msg_channel_t) : msg_channel_t :=
  ch <| client_flags := 0 |> <| server_flags := 0 |>
     <| client_notify_pending := false |> <| server_notify_pending := false |>.

Definition same_ports {M} (k k' : kern M) : Prop :=
  ports k' = ports k /\ port_objs k' = port_objs k /\
  forall c, channel_core <$> channel_objs k' !! c = channel_core <$> channel_objs k !! c.

(** What a task and a process are to the channels: who they are and the channels and ports
    they hold. *)
Definition ends_of (t : task_state_t) : bool * Z * Z * Z * list Z * Z :=
  (enabled t, task_id t, task_uid t, t_process t, msg_channels t, msg_channel_count t).

Definition holds_of (x : process_t) : Z * list Z * Z := (p_uid x, p_ports x, port_count x).

Definition same_ends {M} (k k' : kern M) : Prop :=
  call_uid_counter k' = call_uid_counter k /\
  (forall i, ends_of <$> zget (tasks k') i = ends_of <$> zget (tasks k) i) /\
  forall p, holds_of <$> processes k' !! p = holds_of <$> processes k !! p.

(** The timed events and the futexes. *)
Definition same_timed {M} (k k' : kern M) : Prop := timed k' = timed k /\ futexes k' = futexes k.

Definition quiet {M} (k k' : kern M) : Prop :=
  same_sync k k' /\ same_ports k k' /\ same_ends k k' /\ same_timed k k'.

#[global] Instance same_sync_preorder {M} : PreOrder (@same_sync M).
Proof.
  split; [done|]. intros k1 k2 k3 [H1 H2] [H3 H4]. split; [congruence|]. intros i. by rewrite H4.
Qed.

#[global] Instance same_ports_preorder {M} : PreOrder (@same_ports M).
Proof.
  split; [done|]. intros k1 k2 k3 (H1 & H2 & H3) (H4 & H5 & H6).
  split; [congruence|]. split; [congruence|]. intros i. by rewrite H6.
Qed.

#[global] Instance same_ends_preorder {M} : PreOrder (@same_ends M).
Proof.
  split; [done|]. intros k1 k2 k3 (H1 & H2 & H3) (H4 & H5 & H6).
  split; [congruence|]. split; [intros i; by rewrite H5|]. intros i. by rewrite H6.
Qed.

#[global] Instance same_timed_preorder {M} : PreOrder (@same_timed M).
Proof. split; [done|]. intros k1 k2 k3 [H1 H2] [H3 H4]. split; congruence. Qed.

#[global] Instance quiet_preorder {M} : PreOrder (@quiet M).
Proof.
  split; [done|]. intros k1 k2 k3 (H1 & H2 & H3 & H4) (H5 & H6 & H7 & H8). split_and!; by etransitivity.
Qed.

Lemma keeps_mono {M A} (R S : kern M -> kern M -> Prop) (m : K M A) :
  (forall k k', R k k' -> S k k') -> keeps R m -> keeps S m.
Proof. intros Hi Hm k. specialize (Hm k). destruct (m k); eauto. Qed.

Lemma view_set {M} (k : kern M) i t t' x :
  zget (tasks k) i = Some t ->
  view (k <| tasks := zset (tasks k) i t' |>) x = <[i := Some (sync_of t')]> (view k) x.
Proof.
  intros Ht. unfold view. simpl. destruct (decide (i = x)) as [<-|].
  - rewrite fn_lookup_insert, zget_zset_eq by (by apply zget_Some_range in Ht). done.
  - by rewrite fn_lookup_insert_ne, zget_zset_ne by done.
Qed.

Lemma same_sync_set {M} (k : kern M) i t t' :
  zget (tasks k) i = Some t -> sync_of t' = sync_of t ->
  same_sync k (k <| tasks := zset (tasks k) i t' |>).
Proof.
  intros Ht Hf. split; [done|]. intros x. rewrite (view_set k i t) by done.
  destruct (decide (i = x)) as [<-|].
  - rewrite fn_lookup_insert, Hf. unfold view. by rewrite Ht.
  - by rewrite fn_lookup_insert_ne.
Qed.

Lemma same_ends_set {M} (k : kern M) i t t' :
  zget (tasks k) i = Some t -> ends_of t' = ends_of t ->
  same_ends k (k <| tasks := zset (tasks k) i t' |>).
Proof.
  intros Ht Hf. split; [done|]. split; [|done]. intros x. simpl. destruct (decide (i = x)) as [<-|].
  - rewrite zget_zset_eq by (by apply zget_Some_range in Ht). rewrite Ht. simpl. by rewrite Hf.
  - by rewrite zget_zset_ne by done.
Qed.

Lemma quiet_upd {M} (i : Z) f :
  (forall t, sync_of (f t) = sync_of t /\ ends_of (f t) = ends_of t) -> keeps (M := M) quiet (upd_task i f).
Proof.
  intros Hf. apply keeps_upd_task. intros k t Ht. destruct (Hf t) as [Hs He].
  split; [by apply (same_sync_set k i t)|]. split; [done|]. split; [by apply (same_ends_set k i t)|done].
Qed.

Lemma quiet_upd_channel {M} (c : Z) f :
  (forall ch, channel_core (f ch) = channel_core ch) -> keeps (M := M) quiet (upd_channel c f).
Proof.
  intros Hf k. unfold upd_channel, get_channel, mbind, K_mbind, deref.
  destruct (channel_objs k !! c) as [ch|] eqn:Hc; simpl; [|done]. split; [done|]. split; [|done].
  split; [done|]. split; [done|]. intros c'. simpl. destruct (decide (c = c')) as [<-|].
  - rewrite lookup_insert_eq, Hc. simpl. by rewrite Hf.
  - by rewrite lookup_insert_ne.
Qed.

#[export] Hint Extern 1 (keeps quiet (upd_task _ _)) => apply quiet_upd; done : keeps.
#[export] Hint Extern 2 (keeps quiet (modify _)) => apply keeps_modify; done : keeps.

Section preserve.
Context {M : Type} `{!Space M}.
Context (tasks_init : registers_t -> K M registers_t)
  (task_reset_windows : Z -> K M unit) (wm_event_crash : Z -> Z -> Z -> K M unit).

(** Windows and the idle task do not concern the locks. *)
Class QuietGui : Prop := {
  quiet_init regs : keeps quiet (tasks_init regs);
  quiet_reset i : keeps quiet (task_reset_windows i);
  quiet_crash i uid n : keeps quiet (wm_event_crash i uid n) }.

Context `{!QuietGui}.

Lemma task_resume_quiet i : keeps (M := M) quiet (task_resume i).
Proof. unfold task_resume. keeps. Qed.

Lemma task_pause_quiet i r : keeps (M := M) quiet (task_pause i r).
Proof. unfold task_pause. keeps. Qed.

#[local] Hint Resolve task_resume_quiet task_pause_quiet quiet_init quiet_reset quiet_crash : keeps.

Lemma task_unsnooze_quiet i : keeps (M := M) quiet (task_unsnooze i).
Proof. unfold task_unsnooze. keeps. Qed.
#[local] Hint Resolve task_unsnooze_quiet : keeps.

Lemma task_wake_quiet i : keeps (M := M) quiet (task_wake i).
Proof. unfold task_wake. keeps. Qed.

Lemma next_task_loop_quiet n task r : keeps (M := M) quiet (next_task_loop n task r).
Proof.
  revert task. induction n as [|n IH]; intros task k; cbn [next_task_loop]; [done|].
  generalize (Z.rem (task + 1) TOTAL_TASKS). intros c. revert k.
  enough (Hk : forall cur, keeps quiet (t ← get_task c;
    if (c =? cur) && negb (task_resumable t r) then mret (-1)
    else if task_resumable t r then mret c else next_task_loop n c r)) by (intros k; apply Hk).
  intros cur. keeps.
Qed.

Lemma next_task_quiet r : keeps (M := M) quiet (next_task r).
Proof. intros k. apply next_task_loop_quiet. Qed.
#[local] Hint Resolve task_wake_quiet next_task_quiet : keeps.

Lemma set_current_quiet i : keeps (M := M) quiet (set_current i).
Proof. unfold set_current. keeps. Qed.

Lemma set_esp0_quiet i : keeps (M := M) quiet (set_esp0 i).
Proof. unfold set_esp0. keeps. Qed.

Lemma save_regs_quiet i r : keeps (M := M) quiet (save_regs i r).
Proof. unfold save_regs. keeps. Qed.

Lemma enter_process_quiet p : keeps (M := M) quiet (enter_process p).
Proof. unfold enter_process. keeps. apply keeps_modify. intros k. by zcase. Qed.
#[local] Hint Resolve set_current_quiet set_esp0_quiet save_regs_quiet enter_process_quiet : keeps.

Lemma swap_regs_quiet o n r : keeps (M := M) quiet (swap_regs o n r).
Proof. unfold swap_regs. keeps. Qed.

Lemma resume_kernel_quiet i : keeps (M := M) quiet (resume_kernel i).
Proof.
  intros k. unfold resume_kernel. destruct (zget (tasks k) i) as [t|] eqn:Ht; [|done].
  set (t' := t <| kernel_esp := 0 |>).
  destruct (same_sync_set k i t t' Ht eq_refl) as [_ Hv]. split; [split; [done|exact Hv]|]. split; [done|].
  split; [exact (same_ends_set k i t t' Ht eq_refl)|done].
Qed.
#[local] Hint Resolve swap_regs_quiet resume_kernel_quiet : keeps.

Lemma switch_task_quiet regs r : keeps quiet (switch_task tasks_init regs r).
Proof. unfold switch_task, get_current_task. keeps. Qed.

Lemma switch_to_task_quiet i regs : keeps (M := M) quiet (switch_to_task i regs).
Proof. unfold switch_to_task, get_current_task. keeps. Qed.

Lemma exists_loop_quiet n i : keeps (M := M) quiet (exists_loop n i).
Proof. revert i. induction n; intros; simpl; keeps. Qed.

Lemma task_exists_quiet : keeps (M := M) quiet task_exists.
Proof. apply exists_loop_quiet. Qed.
#[local] Hint Resolve switch_task_quiet switch_to_task_quiet task_exists_quiet : keeps.

Lemma copy_args_quiet d l n : keeps (M := M) quiet (copy_args d l n).
Proof. unfold copy_args. keeps. Qed.

Lemma arg_quiet l i : keeps (M := M) quiet (arg l i).
Proof. unfold arg. keeps. Qed.
#[local] Hint Resolve copy_args_quiet arg_quiet : keeps.

Lemma coalesce_quiet q type addr args argc : keeps (M := M) quiet (coalesce q type addr args argc).
Proof.
  unfold coalesce, coalesce_last. destruct type; try (by keeps).
  generalize (Z.to_nat (kqueue_count q)), 0. intros n. induction n; intros; simpl; keeps.
Qed.
#[local] Hint Resolve coalesce_quiet : keeps.

Lemma task_queue_subroutine_quiet i type addr args argc :
  keeps (M := M) quiet (task_queue_subroutine i type addr args argc).
Proof. unfold task_queue_subroutine, set_queue. keeps. Qed.
#[local] Hint Resolve task_queue_subroutine_quiet : keeps.

Lemma find_port_quiet f : keeps (M := M) quiet (find_port f).
Proof.
  intros k. unfold find_port. generalize (ports k), (S (S (size (port_objs k)))). intros p n. revert k p.
  enough (Hk : forall p, keeps quiet (find_port_loop n f p)) by (intros k p; apply Hk).
  induction n; intros p; simpl; keeps.
Qed.

Lemma find_channel_quiet port uid : keeps (M := M) quiet (find_channel port uid).
Proof.
  unfold find_channel. generalize (Z.to_nat (channel_count port)), 0. intros n.
  induction n; intros; simpl; keeps.
Qed.

Lemma msg_set_notify_pending_quiet i c s b : keeps (M := M) quiet (msg_set_notify_pending i c s b).
Proof. unfold msg_set_notify_pending. keeps. apply quiet_upd_channel. by intros []; destruct s. Qed.

Lemma clear_flags_quiet c s : keeps (M := M) quiet (clear_flags c s).
Proof. unfold clear_flags. apply quiet_upd_channel. by intros []; destruct s. Qed.
#[local] Hint Resolve find_port_quiet find_channel_quiet msg_set_notify_pending_quiet clear_flags_quiet : keeps.

Lemma queue_msg_func_quiet i p c f : keeps (M := M) quiet (queue_msg_func i p c f).
Proof. unfold queue_msg_func. keeps. Qed.
#[local] Hint Resolve queue_msg_func_quiet : keeps.

Lemma retry_channel_quiet i c p s : keeps (M := M) quiet (retry_channel i c p s).
Proof. unfold retry_channel. keeps. Qed.

Lemma each_quiet n i l (f : Z -> K M unit) :
  (forall p, keeps quiet (f p)) -> keeps quiet (each n i l f).
Proof. intros Hf. revert i. induction n; intros; simpl; keeps. Qed.
#[local] Hint Resolve retry_channel_quiet : keeps.

#[local] Hint Extern 3 (keeps _ (each _ _ _ _)) => apply each_quiet; intros ?; keeps : keeps.

Lemma msg_retry_quiet i : keeps (M := M) quiet (msg_retry_task_notifications i).
Proof. unfold msg_retry_task_notifications. keeps. Qed.

Lemma msg_get_task_quiet i uid : keeps (M := M) quiet (msg_get_task i uid).
Proof. unfold msg_get_task. keeps. Qed.

Lemma msg_notif_is_stale_quiet i p c : keeps (M := M) quiet (msg_notif_is_stale i p c).
Proof. unfold msg_notif_is_stale, find_port_by_uid. keeps. Qed.
#[local] Hint Resolve msg_retry_quiet msg_get_task_quiet msg_notif_is_stale_quiet : keeps.

Lemma task_execute_subroutine_quiet regs type addr args argc :
  keeps (M := M) quiet (task_execute_subroutine regs type addr args argc).
Proof. unfold task_execute_subroutine, get_current_task. keeps. Qed.

Lemma crash_task_quiet n regs i :
  keeps quiet (crash_task tasks_init task_reset_windows wm_event_crash n regs i).
Proof. unfold crash_task, pause_task, get_current_task. keeps. Qed.
#[local] Hint Resolve task_execute_subroutine_quiet crash_task_quiet : keeps.

Lemma execute_queued_quiet regs i :
  keeps quiet (task_execute_queued_subroutine tasks_init task_reset_windows wm_event_crash regs i).
Proof.
  unfold task_execute_queued_subroutine. keeps. generalize queued_fuel. intros n. revert regs.
  induction n; intros regs; simpl; keeps.
Qed.
#[local] Hint Resolve execute_queued_quiet : keeps.

Lemma task_call_subroutine_quiet regs i type addr args argc :
  keeps quiet (task_call_subroutine tasks_init task_reset_windows wm_event_crash regs i type addr args argc).
Proof. unfold task_call_subroutine, get_current_task. keeps. Qed.
#[local] Hint Resolve task_call_subroutine_quiet : keeps.

Lemma call_msg_func_quiet regs i p c f :
  keeps quiet (call_msg_func tasks_init task_reset_windows wm_event_crash regs i p c f).
Proof. unfold call_msg_func. keeps. Qed.

Lemma leave_quiet {A} : keeps (M := M) quiet (@leave M A).
Proof. intros k. simpl. reflexivity. Qed.
#[local] Hint Resolve leave_quiet : keeps.

Lemma kernel_yield_to_quiet i :
  keeps quiet (kernel_yield_to tasks_init task_reset_windows wm_event_crash i).
Proof.
  unfold kernel_yield_to, park, get_current_task. apply keeps_bind; [typeclasses eauto| |intros ok; keeps].
  - intros k. unfold can_park. destruct (_ || _); [done|].
    enough (Hk : forall cur, keeps quiet (t ← get_task cur;
      mret (in_syscall t && (u32 (kernel_stack_top t - KSTACK_SIZE) <? k_esp k) && (k_esp k <=? kernel_stack_top t))))
      by apply Hk.
    intros cur. keeps.
Qed.
#[local] Hint Resolve kernel_yield_to_quiet : keeps.

Lemma kernel_block_quiet : keeps quiet (kernel_block tasks_init task_reset_windows wm_event_crash).
Proof.
  unfold kernel_block, kernel_yield. keeps. generalize (Z.to_nat TOTAL_TASKS + 1)%nat. intros n.
  match goal with |- keeps _ (kernel_yield_loop _ _ _ _ ?a) => generalize a end.
  induction n; intros; simpl; keeps.
Qed.

End preserve.

#[export] Hint Resolve task_resume_quiet task_pause_quiet kernel_yield_to_quiet kernel_block_quiet
  call_msg_func_quiet msg_set_notify_pending_quiet clear_flags_quiet msg_get_task_quiet find_port_quiet
  find_channel_quiet switch_task_quiet switch_to_task_quiet : keeps.

(** ** Functions that only read *)

Section reads.
Context {M : Type}.

Lemma find_port_loop_reads n f p : returns (M := M) eq (find_port_loop n f p).
Proof. revert p. induction n as [|n IH]; intros p; cbn [find_port_loop]; returns; apply IH. Qed.

Lemma find_port_reads f : returns (M := M) eq (find_port f).
Proof. intros k. apply find_port_loop_reads. Qed.

Lemma find_channel_reads port uid : returns (M := M) eq (find_channel port uid).
Proof.
  unfold find_channel. generalize 0 (Z.to_nat (channel_count port)). intros i n. revert i.
  induction n as [|n IH]; intros i; cbn [find_channel_loop]; returns; apply IH.
Qed.

Lemma msg_get_task_reads i uid : returns (M := M) eq (msg_get_task i uid).
Proof. unfold msg_get_task. returns. Qed.

End reads.

#[export] Hint Resolve find_port_reads find_channel_reads msg_get_task_reads : keeps.

(** Windows that do nothing, for the examples. *)
Definition no_reset : Z -> K flat unit := fun _ => mret tt.
Definition no_crash : Z -> Z -> Z -> K flat unit := fun _ _ _ => mret tt.

#[export] Instance quiet_demo : QuietGui no_init no_reset no_crash.
Proof. split; intros; [done|apply keeps_ret; typeclasses eauto..]. Qed.
