(* ===== verification/KSync.v ===== *)
(** * Kernel mutexes (ksync.c)

    A mutex has an owner and a queue of waiting tasks linked through the tasks; a task has
    the list of the mutexes it owns, linked through the mutexes. A task that must wait is
    parked in the kernel, and the release of a mutex hands it to the first task of the
    queue. A call that parks leaves the processor ([Away]); what it does when its task is
    resumed is [kmutex_resume]. *)

From stdpp Require Import functions sets.
From S2P Require Import Kern Sched Events Quiet.

Local Open Scope Z_scope.

Section ksync.
Context {M : Type} `{!Space M}.
Context (task_reset_windows : Z -> K M unit) (wm_event_crash : Z -> Z -> Z -> K M unit)
  (tasks_init : registers_t -> K M registers_t).
Implicit Types (k : kern M).

Abbreviation yield_to := (kernel_yield_to tasks_init task_reset_windows wm_event_crash).
Abbreviation block := (kernel_block tasks_init task_reset_windows wm_event_crash).

(** Join the queue of waiters. *)
Definition kmutex_enqueue (m : Z) : K M unit :=
  cur ← get_current_task;
  _ ← upd_task cur (fun t => t <| t_mutex := Some m |> <| mutex_next_waiter := None |>);
  mx ← get_mutex m;
  _ ← match waiters_tail mx with
      | Some w => upd_task w (fun t => t <| mutex_next_waiter := Some cur |>)
      | None => upd_mutex m (fun mx => mx <| waiters := Some cur |>)
      end;
  upd_mutex m (fun mx => mx <| waiters_tail := Some cur |>).

Definition kmutex_park : K M unit :=
  cur ← get_current_task; _ ← task_pause cur PAUSE_KSYNC; block.

Definition kmutex_wait (m : Z) : K M unit := _ ← kmutex_enqueue m; kmutex_park.

(** Task [i] becomes the owner. *)
Definition claim (i m : Z) : K M unit :=
  t ← get_task i;
  _ ← upd_mutex m (fun mx => mx <| owner := Some i |> <| owned_next := owned_mutexes t |>);
  upd_task i (fun t => t <| owned_mutexes := Some m |>).

Definition kmutex_lock (m : Z) : K M unit :=
  cur ← get_current_task;
  t ← get_task cur;
  if negb (in_syscall t) then panic
  else
    mx ← get_mutex m;
    if bool_decide (owner mx = Some cur) then panic
    else if bool_decide (owner mx = None) then claim cur m
    else kmutex_wait m.

(** [kmutex_lock] where [kmutex_wait] has been resumed: the loop of [kmutex_wait] and then
    the loop of [kmutex_lock] go round once more or end. *)
Definition kmutex_resume (m : Z) : K M unit :=
  cur ← get_current_task;
  t ← get_task cur;
  if bool_decide (t_mutex t <> None) then kmutex_park
  else
    mx ← get_mutex m;
    if bool_decide (owner mx <> Some cur) then kmutex_wait m else mret tt.

(** The first waiter [w] leaves the queue and can run again. *)
Definition pop_waiter (m w : Z) : K M unit :=
  t ← get_task w;
  _ ← upd_mutex m (fun mx => mx <| waiters := mutex_next_waiter t |>);
  _ ← when (bool_decide (mutex_next_waiter t = None)) (upd_mutex m (fun mx => mx <| waiters_tail := None |>));
  _ ← upd_task w (fun t => t <| t_mutex := None |> <| mutex_next_waiter := None |>);
  task_resume w.

Definition kmutex_wake (m : Z) (wake : bool) : K M bool :=
  mx ← get_mutex m;
  match waiters mx with
  | None => mret false
  | Some w =>
      _ ← pop_waiter m w;
      _ ← claim w m;
      t ← get_task w;
      _ ← (if wake : bool then _ ← yield_to (task_id t); mret tt else mret tt);
      mret true
  end.

(** The walk along a list linked by [next] from [cur] up to [x]: the element before it,
    and whether it is there. *)
Fixpoint find_prev (fuel : nat) (next : Z -> K M (option Z)) (prev cur : option Z) (x : Z)
    : K M (option Z * bool) :=
  match fuel with
  | O => fun _ => Hang
  | S fuel =>
      match cur with
      | None => mret (prev, false)
      | Some c => if c =? x then mret (prev, true)
                  else n ← next c; find_prev fuel next (Some c) n x
      end
  end.

Definition next_owned (m : Z) : K M (option Z) := mx ← get_mutex m; mret (owned_next mx).
Definition next_waiter (i : Z) : K M (option Z) := t ← get_task i; mret (mutex_next_waiter t).

Definition kmutex_release (i m : Z) (wake : bool) : K M unit :=
  t ← get_task i;
  n ← gets (fun k => S (size (mutexes k)));
  r ← find_prev n next_owned None (owned_mutexes t) m;
  _ ← when (snd r)
        (mx ← get_mutex m;
         match fst r with
         | Some p => upd_mutex p (fun px => px <| owned_next := owned_next mx |>)
         | None => upd_task i (fun t => t <| owned_mutexes := owned_next mx |>)
         end);
  _ ← upd_mutex m (fun mx => mx <| owned_next := None |>);
  _ ← upd_mutex m (fun mx => mx <| owner := None |>);
  _ ← kmutex_wake m wake;
  mret tt.

Definition unlock (m : Z) (wake : bool) : K M bool :=
  cur ← get_current_task;
  mx ← get_mutex m;
  if bool_decide (owner mx <> Some cur) then mret false
  else _ ← kmutex_release cur m wake; mret true.

Definition kmutex_unlock (m : Z) : K M bool := unlock m false.
Definition kmutex_unlock_yield (m : Z) : K M bool := unlock m true.

Definition leave_queue (i m : Z) : K M unit :=
  mx ← get_mutex m;
  r ← find_prev (Z.to_nat TOTAL_TASKS + 1) next_waiter None (waiters mx) i;
  _ ← when (snd r)
        (t ← get_task i;
         _ ← match fst r with
             | Some p => upd_task p (fun pt => pt <| mutex_next_waiter := mutex_next_waiter t |>)
             | None => upd_mutex m (fun mx => mx <| waiters := mutex_next_waiter t |>)
             end;
         when (bool_decide (waiters_tail mx = Some i)) (upd_mutex m (fun mx => mx <| waiters_tail := fst r |>)));
  upd_task i (fun t => t <| t_mutex := None |> <| mutex_next_waiter := None |>).

Fixpoint release_all (fuel : nat) (i : Z) : K M unit :=
  match fuel with
  | O => fun _ => Hang
  | S fuel =>
      t ← get_task i;
      match owned_mutexes t with
      | None => mret tt
      | Some m => _ ← kmutex_release i m false; release_all fuel i
      end
  end.

Definition ksync_cleanup_task (i : Z) : K M unit :=
  t ← get_task i;
  _ ← match t_mutex t with Some m => leave_queue i m | None => mret tt end;
  n ← gets (fun k => S (size (mutexes k)));
  release_all n i.

End ksync.

(** ** Linked lists *)

#[local] Arguments last {A} l : simpl never.

Section linked.
Context (next : Z -> option Z).

Fixpoint linked (l : list Z) : Prop :=
  match l with
  | [] => True
  | x :: l => next x = head l /\ linked l
  end.

Lemma linked_app l1 x l2 : linked (l1 ++ x :: l2) -> next x = head l2 /\ linked (x :: l2).
Proof. induction l1 as [|y l1 IH]; simpl; [tauto|]. intros [_ Hl]. by apply IH. Qed.

Lemma linked_prev l1 y x l2 : linked ((l1 ++ [y]) ++ x :: l2) -> next y = Some x.
Proof.
  rewrite <-app_assoc. intros Hl. simpl in Hl. by apply linked_app in Hl as [-> _].
Qed.

End linked.

Lemma linked_ext next next' l : linked next l -> (forall x, x ∈ l -> next' x = next x) -> linked next' l.
Proof.
  induction l as [|y l IH]; simpl; [done|]. intros [Hy Hl] He. split.
  - rewrite He by set_solver. done.
  - apply IH; [done|]. intros x Hx. apply He. set_solver.
Qed.

(** Unlinking [x]: its predecessor takes its successor. *)
Lemma linked_remove next next' l1 x l2 :
  NoDup (l1 ++ x :: l2) -> linked next (l1 ++ x :: l2) ->
  (forall y, y ∈ l1 ++ l2 -> next' y = if decide (last l1 = Some y) then head l2 else next y) ->
  linked next' (l1 ++ l2).
Proof.
  induction l1 as [|y l1 IH]; simpl; intros Hnd Hl He.
  - destruct Hl as [_ Hl]. apply (linked_ext next); [done|]. intros z Hz. rewrite He by done. done.
  - destruct Hl as [Hy Hl]. apply NoDup_cons in Hnd as [Hny Hnd]. split.
    + rewrite He by set_solver. destruct l1 as [|z l1]; simpl.
      * by rewrite decide_True.
      * rewrite decide_False; [by rewrite Hy|]. rewrite last_cons_cons.
        intros Hla. apply Hny. apply last_Some in Hla as [l' ->]. set_solver.
    + apply IH; [done|done|]. intros z Hz. rewrite He by set_solver.
      destruct l1 as [|z' l1]; [|by rewrite last_cons_cons].
      simpl. rewrite decide_False; [done|]. intros [= ->]. set_solver.
Qed.

(** Appending [x]. *)
Lemma linked_snoc next next' l x :
  NoDup (l ++ [x]) -> linked next l -> next' x = None ->
  (forall y, y ∈ l -> next' y = if decide (last l = Some y) then Some x else next y) ->
  linked next' (l ++ [x]).
Proof.
  induction l as [|y l IH]; simpl; intros Hnd Hl Hx He; [done|].
  destruct Hl as [Hy Hl]. apply NoDup_cons in Hnd as [Hny Hnd]. split.
  - rewrite He by set_solver. destruct l as [|z l]; simpl.
    + by rewrite decide_True.
    + rewrite decide_False; [by rewrite Hy|]. rewrite last_cons_cons.
      intros Hla. apply Hny. apply last_Some in Hla as [l' ->]. set_solver.
  - apply IH; [done..|]. intros z Hz. rewrite He by set_solver.
    destruct l as [|z' l]; [set_solver|]. by rewrite last_cons_cons.
Qed.

Lemma NoDup_unlink (l1 : list Z) x l2 :
  NoDup (l1 ++ x :: l2) -> NoDup (l1 ++ l2) /\ (x ∉ l1) /\ (x ∉ l2).
Proof.
  intros Hn. apply NoDup_app in Hn as (H1 & H12 & H2). apply NoDup_cons in H2 as [Hx H2].
  split; [apply NoDup_app; split_and!; [done|set_solver|done]|set_solver].
Qed.

Section find_prev.
Context {M : Type} `{!Space M}.

Lemma find_prev_spec (k : kern M) (nextm : Z -> K M (option Z)) next fuel l1 x l2 p :
  (forall y, y ∈ l1 -> nextm y k = Ret (next y) k) ->
  linked next (l1 ++ x :: l2) -> x ∉ l1 -> (length l1 < fuel)%nat ->
  find_prev fuel nextm p (head (l1 ++ x :: l2)) x k
  = Ret (match last l1 with Some y => Some y | None => p end, true) k.
Proof.
  revert fuel p. induction l1 as [|y l1 IH]; intros [|fuel] p Hn Hl Hx Hf; simpl in *; try lia.
  - by rewrite Z.eqb_refl.
  - rewrite (proj2 (Z.eqb_neq y x)) by set_solver.
    rewrite (bind_Ret _ _ _ _ _ (Hn y ltac:(set_solver))). destruct Hl as [-> Hl].
    rewrite IH; [|intros; apply Hn; set_solver|done|set_solver|lia].
    by destruct l1 as [|z l1]; [|rewrite last_cons_cons; destruct (last (z :: l1)) eqn:E; [|apply last_None in E]].
Qed.

End find_prev.

(** ** The state of the locks

    [V] is what the tasks hold: the mutex a task waits for, the next waiter, the first
    mutex it owns. *)

Abbreviation locks := (Z -> option Z * list Z).

Definition vnext (V : tview) (i : Z) : option Z :=
  match V i with Some (_, n, _) => n | None => None end.
Definition mnext (X : gmap Z kmutex_t) (m : Z) : option Z := X !! m ≫= owned_next.

Record rep (V : tview) (X : gmap Z kmutex_t) (A : locks) (own : Z -> list Z) : Prop := {
  r_mutex m mx : X !! m = Some mx ->
    owner mx = (A m).1 /\ waiters mx = head (A m).2 /\ waiters_tail mx = last (A m).2;
  r_absent m : X !! m = None -> A m = (None, []);
  r_line m : linked (vnext V) (A m).2;
  r_waits m i : i ∈ (A m).2 <-> exists n o, V i = Some (Some m, n, o);
  r_owned i w n o : V i = Some (w, n, o) -> o = head (own i);
  r_own i : linked (mnext X) (own i);
  r_owner m i : (A m).1 = Some i <-> m ∈ own i;
  r_task i m : m ∈ own i -> is_Some (V i);
  r_own_nodup i : NoDup (own i);
  r_line_nodup m : NoDup (A m).2;
  r_distinct m i : (A m).1 = Some i -> i ∉ (A m).2 }.

Lemma rep_ext V V' X A A' own own' :
  rep V X A own -> (forall i, V' i = V i) -> (forall m, A' m = A m) -> (forall i, own' i = own i) ->
  rep V' X A' own'.
Proof.
  intros [R1 R2 R3 R4 R5 R6 R7 R8 R9 R10 R11] HV HA Ho. constructor.
  - intros m. rewrite HA. apply R1.
  - intros m. rewrite HA. apply R2.
  - intros m. rewrite HA. apply (linked_ext (vnext V)); [done|]. intros x _. unfold vnext. by rewrite HV.
  - intros m i. rewrite HA, HV. apply R4.
  - intros i w n o. rewrite HV, Ho. apply R5.
  - intros i. rewrite Ho. apply R6.
  - intros m i. rewrite HA, Ho. apply R7.
  - intros i m. rewrite HV, Ho. apply R8.
  - intros i. rewrite Ho. apply R9.
  - intros m. rewrite HA. apply R10.
  - intros m i. rewrite HA. apply R11.
Qed.

(** ** The changes of the lists *)

Section changes.
Implicit Types (V : tview) (X : gmap Z kmutex_t) (A : locks) (own : Z -> list Z).

Ltac fn_at i j := destruct (decide (i = j)) as [<-|?];
  [rewrite ?fn_lookup_insert in *|rewrite ?fn_lookup_insert_ne in * by done]; simpl in *.
Ltac map_at i j := destruct (decide (i = j)) as [<-|?];
  [rewrite ?lookup_insert_eq in *|rewrite ?lookup_insert_ne in * by done]; simpl in *.

(** The first waiter leaves the queue. *)
Lemma rep_pop V X A own m mx o w l n ow :
  rep V X A own -> X !! m = Some mx -> A m = (o, w :: l) -> V w = Some (Some m, n, ow) ->
  n = head l /\
  rep (<[w := Some (None, None, ow)]> V)
      (<[m := mx <| waiters := head l |> <| waiters_tail := last l |>]> X)
      (<[m := (o, l)]> A) own.
Proof.
  intros [R1 R2 R3 R4 R5 R6 R7 R8 R9 R10 R11] Hm HA HV.
  pose proof (R3 m) as Hl. pose proof (R10 m) as Hn. rewrite HA in Hl, Hn. simpl in Hl, Hn.
  destruct Hl as [Hw Hl]. apply NoDup_cons in Hn as [Hnw Hn].
  unfold vnext in Hw. rewrite HV in Hw. split; [done|].
  assert (Hq : forall m' i, i ∈ (A m').2 -> i <> w \/ m' = m).
  { intros m' i Hi. destruct (decide (i = w)) as [->|]; [right|by left].
    apply R4 in Hi as (? & ? & Hi). congruence. }
  constructor.
  - intros m' mx' Hx. fn_at m m'; [|rewrite lookup_insert_ne in Hx by done; eauto]. rewrite lookup_insert_eq in Hx. simplify_eq.
    destruct (R1 _ _ Hm) as (Ho & _). rewrite HA in Ho. split_and!; done.
  - intros m' Hx. map_at m m'; [done|]. rewrite fn_lookup_insert_ne by done; eauto.
  - intros m'. fn_at m m'.
    + apply (linked_ext (vnext V)); [done|]. intros i Hi. unfold vnext. fn_at w i; done.
    + apply (linked_ext (vnext V)); [done|]. intros i Hi. unfold vnext.
      destruct (Hq m' i Hi) as [Hne| ->]; [|done]. fn_at w i; done.
  - intros m' i. fn_at m m'.
    + fn_at w i.
      * split; [done|]. intros (? & ? & ?). simplify_eq.
      * rewrite <-R4, HA. set_solver.
    + rewrite R4. fn_at w i; [|done]. rewrite HV. naive_solver.
  - intros i w' n' o' Hi. fn_at w i; [|eauto]. simplify_eq. eauto.
  - intros i. apply (linked_ext (mnext X)); [done|]. intros x Hx. unfold mnext. map_at m x; [|done].
    by rewrite Hm.
  - intros m' i. rewrite <-R7. fn_at m m'; [|done]. by rewrite HA.
  - intros i m' Hi. fn_at w i; eauto.
  - done.
  - intros m'. fn_at m m'; done.
  - intros m' i Hi. fn_at m m'; [|by apply R11]. subst o. pose proof (R11 m i) as Hd. rewrite HA in Hd.
    specialize (Hd eq_refl). set_solver.
Qed.

(** Task [i] takes a mutex that nobody owns. *)
Lemma rep_claim V X A own m mx i w n o l :
  rep V X A own -> X !! m = Some mx -> A m = (None, l) -> i ∉ l -> V i = Some (w, n, o) ->
  rep (<[i := Some (w, n, Some m)]> V)
      (<[m := mx <| owner := Some i |> <| owned_next := o |>]> X)
      (<[m := (Some i, l)]> A) (<[i := m :: own i]> own).
Proof.
  intros [R1 R2 R3 R4 R5 R6 R7 R8 R9 R10 R11] Hm HA Hil HV.
  assert (Hno : forall j, m ∉ own j).
  { intros j Hj. apply R7 in Hj. by rewrite HA in Hj. }
  constructor.
  - intros m' mx' Hx. fn_at m m'; [|rewrite lookup_insert_ne in Hx by done; eauto]. rewrite lookup_insert_eq in Hx. simplify_eq.
    destruct (R1 _ _ Hm) as (_ & Hw & Ht). rewrite HA in Hw, Ht. split_and!; done.
  - intros m' Hx. map_at m m'; [done|]. rewrite fn_lookup_insert_ne by done; eauto.
  - intros m'. replace ((<[m:=(Some i, l)]> A m').2) with (A m').2.
    2: { fn_at m m'; [by rewrite HA|done]. }
    apply (linked_ext (vnext V)); [done|]. intros j Hj. unfold vnext. fn_at i j; [by rewrite HV|done].
  - intros m' j. replace ((<[m:=(Some i, l)]> A m').2) with (A m').2.
    2: { fn_at m m'; [by rewrite HA|done]. }
    rewrite R4. fn_at i j; [|done]. rewrite HV. naive_solver.
  - intros j w' n' o' Hj. fn_at i j; [by simplify_eq|eauto].
  - intros j. destruct (decide (i = j)) as [<-|Hij].
    + rewrite fn_lookup_insert. simpl. split.
      * unfold mnext. rewrite lookup_insert_eq. simpl. by eapply R5.
      * apply (linked_ext (mnext X)); [done|]. intros x Hx. unfold mnext.
        rewrite lookup_insert_ne; [done|]. intros ->. by apply (Hno i).
    + rewrite fn_lookup_insert_ne by done. apply (linked_ext (mnext X)); [done|]. intros x Hx. unfold mnext.
      rewrite lookup_insert_ne; [done|]. intros ->. by apply (Hno j).
  - intros m' j. fn_at m m'.
    + fn_at i j; [split; [intros _; by left|done]|]. split; [naive_solver|]. intros Hj. by destruct (Hno j).
    + rewrite R7. fn_at i j; [|done]. set_solver.
  - intros j m' Hj. fn_at i j; [done|eauto].
  - intros j. fn_at i j; [|done]. apply NoDup_cons. split; [apply Hno|apply R9].
  - intros m'. fn_at m m'; [|done]. pose proof (R10 m) as Hn. by rewrite HA in Hn.
  - intros m' j Hj. fn_at m m'; [|by apply R11]. by simplify_eq.
Qed.

(** The owner [i] drops a mutex; its predecessor in the list of [i] takes its successor. *)
Lemma rep_drop V X A own m mx i w n o l o1 o2 :
  rep V X A own -> X !! m = Some mx -> A m = (Some i, l) -> own i = o1 ++ m :: o2 ->
  V i = Some (w, n, o) ->
  owned_next mx = head o2 /\
  (forall p, last o1 = Some p -> p <> m /\ is_Some (X !! p)) /\
  rep (if last o1 is Some _ then V else <[i := Some (w, n, head o2)]> V)
      (<[m := mx <| owned_next := None |> <| owner := None |>]>
         (if last o1 is Some p then alter (fun px => px <| owned_next := head o2 |>) p X else X))
      (<[m := (None, l)]> A) (<[i := o1 ++ o2]> own).
Proof.
  intros [R1 R2 R3 R4 R5 R6 R7 R8 R9 R10 R11] Hm HA Hown HV.
  pose proof (R9 i) as Hnd. pose proof (R6 i) as Hli. rewrite Hown in Hnd, Hli.
  pose proof Hli as Hli'. apply linked_app in Hli' as [Hnx _]. unfold mnext in Hnx. rewrite Hm in Hnx. simpl in Hnx.
  apply NoDup_app in Hnd as Hnd'. destruct Hnd' as (Hn1 & Hn12 & Hn2).
  apply NoDup_cons in Hn2 as [Hm2 Hn2]. assert (Hm1 : m ∉ o1) by set_solver.
  assert (Hp : forall p, last o1 = Some p -> p ∈ o1).
  { intros p Hp. apply last_Some in Hp as [l' ->]. set_solver. }
  split; [done|]. split.
  { intros p Hlp. pose proof (Hp p Hlp). split; [set_solver|].
    apply not_eq_None_Some. intros Hx. apply R2 in Hx. assert (Hpi : p ∈ own i) by (rewrite Hown; set_solver).
    apply R7 in Hpi. by rewrite Hx in Hpi. }
  set (X1 := if last o1 is Some p then _ else X).
  assert (Hmn : forall y, y <> m -> mnext (<[m := mx <| owned_next := None |> <| owner := None |>]> X1) y
      = if decide (last o1 = Some y) then (if X !! y is Some _ then head o2 else None) else mnext X y).
  { intros y Hy. unfold mnext. rewrite lookup_insert_ne by done. unfold X1.
    destruct (last o1) as [p|]; [|by rewrite decide_False].
    destruct (decide (p = y)) as [->|Hpy].
    - rewrite decide_True, lookup_alter_eq by done. by destruct (X !! y).
    - rewrite decide_False, lookup_alter_ne by congruence. done. }
  assert (HX1 : forall m' mx', m' <> m -> X1 !! m' = Some mx' -> exists mx0, X !! m' = Some mx0 /\
      owner mx' = owner mx0 /\ waiters mx' = waiters mx0 /\ waiters_tail mx' = waiters_tail mx0).
  { intros m' mx' Hne. unfold X1. destruct (last o1) as [p|]; [|eauto 10].
    destruct (decide (p = m')) as [->|]; [|rewrite lookup_alter_ne by done; eauto 10].
    rewrite lookup_alter_eq. destruct (X !! m') as [mx0|]; [|done]. intros Heq. simplify_eq/=. exists mx0. by split_and!. }
  assert (HV1 : forall j, exists o', (if last o1 is Some _ then V else <[i := Some (w, n, head o2)]> V) j
      = (if V j is Some (a, b, _) then Some (a, b, o') else None) /\
      (forall a b c, V j = Some (a, b, c) -> o' = head (<[i := o1 ++ o2]> own j))).
  { intros j. destruct (last o1) as [p|] eqn:El.
    - exists (if V j is Some (_, _, c) then c else None). split; [by destruct (V j) as [[[??]?]|]|].
      intros a b c Hj. rewrite Hj. fn_at i j; [|eauto]. rewrite (R5 _ _ _ _ Hj), Hown.
      destruct o1; [done|]. done.
    - apply last_None in El. subst o1. simpl in *. fn_at i j.
      + exists (head o2). by rewrite HV.
      + exists (if V j is Some (_, _, c) then c else None). split; [by destruct (V j) as [[[??]?]|]|].
        intros a b c Hj. rewrite Hj. eauto. }
  constructor.
  - intros m' mx' Hx. fn_at m m'.
    + rewrite lookup_insert_eq in Hx. destruct (R1 _ _ Hm) as (_ & Hw & Ht). rewrite HA in Hw, Ht. by simplify_eq.
    + rewrite lookup_insert_ne in Hx by done. destruct (HX1 m' mx' ltac:(done) Hx) as (mx0 & Hx0 & -> & -> & ->). eauto.
  - intros m' Hx. map_at m m'; [done|]. rewrite fn_lookup_insert_ne by done. apply R2.
    revert Hx. unfold X1. destruct (last o1) as [p|]; [|done]. by rewrite lookup_alter_None.
  - intros m'. replace ((<[m:=(None, l)]> A m').2) with (A m').2 by (fn_at m m'; [by rewrite HA|done]).
    apply (linked_ext (vnext V)); [done|]. intros j Hj. unfold vnext.
    destruct (HV1 j) as (o' & -> & _). by destruct (V j) as [[[??]?]|].
  - intros m' j. replace ((<[m:=(None, l)]> A m').2) with (A m').2 by (fn_at m m'; [by rewrite HA|done]).
    rewrite R4. destruct (HV1 j) as (o' & -> & _). destruct (V j) as [[[??]?]|]; naive_solver.
  - intros j a b c Hj. destruct (HV1 j) as (o' & He & Ho). rewrite He in Hj.
    destruct (V j) as [[[??]?]|] eqn:EV; [|done]. simplify_eq. by eapply Ho.
  - intros j. fn_at i j.
    + apply (linked_remove (mnext X) _ o1 m o2); [done..|]. intros y Hy. rewrite Hmn by set_solver.
      case_decide as Hla; [|done]. assert (Hyi : y ∈ own i) by (rewrite Hown; set_solver).
      apply R7 in Hyi. destruct (X !! y) eqn:EX; [done|]. apply R2 in EX. by rewrite EX in Hyi.
    + apply (linked_ext (mnext X)); [done|]. intros y Hy. apply R7 in Hy.
      rewrite Hmn by (intros ->; rewrite HA in Hy; simpl in Hy; congruence).
      rewrite decide_False; [done|]. intros Hla. apply Hp in Hla.
      assert (Hyi : y ∈ own i) by (rewrite Hown; set_solver). apply R7 in Hyi. congruence.
  - intros m' j. fn_at m m'.
    + split; [done|]. fn_at i j; [set_solver|]. intros Hj. apply R7 in Hj. rewrite HA in Hj. simpl in Hj. congruence.
    + rewrite R7. fn_at i j; [|done]. rewrite Hown. set_solver.
  - intros j m' Hj. destruct (HV1 j) as (o' & -> & _). assert (is_Some (V j)) as [[[??]?] ->]; [|done].
    fn_at i j; [by rewrite HV|eauto].
  - intros j. fn_at i j; [|done]. by destruct (NoDup_unlink _ _ _ Hnd).
  - intros m'. fn_at m m'; [|done]. pose proof (R10 m) as Hn. by rewrite HA in Hn.
  - intros m' j Hj. fn_at m m'; [done|by apply R11].
Qed.

(** [V] where the task [last l] has [n] as its next waiter. *)
Definition relink V (l : list Z) (n : option Z) : tview := fun x =>
  if decide (last l = Some x)
  then match V x with Some (a, _, c) => Some (a, n, c) | None => None end
  else V x.

Lemma relink_spec V l n x a b c :
  relink V l n x = Some (a, b, c) <->
  exists b', V x = Some (a, b', c) /\ b = if decide (last l = Some x) then n else b'.
Proof. unfold relink. case_decide; [destruct (V x) as [[[??]?]|]|]; naive_solver. Qed.

Lemma relink_waits V l p x (m : Z) :
  (exists n o, V x = Some (Some m, n, o)) <-> (exists n o, relink V l p x = Some (Some m, n, o)).
Proof.
  split.
  - intros (n & o & Hx). eexists _, o. apply relink_spec. eauto.
  - intros (n & o & Hx). apply relink_spec in Hx as (b & Hx & _). eauto.
Qed.

Lemma vnext_relink V l n x : is_Some (V x) ->
  vnext (relink V l n) x = if decide (last l = Some x) then n else vnext V x.
Proof. intros [[[??]?] Hx]. unfold vnext, relink. rewrite Hx. by case_decide. Qed.

(** Task [i] joins the queue. *)
Lemma rep_push V X A own m mx i j n o l :
  rep V X A own -> X !! m = Some mx -> A m = (Some j, l) -> i <> j -> V i = Some (None, n, o) ->
  rep (<[i := Some (Some m, None, o)]> (relink V l (Some i)))
      (<[m := (if last l is Some _ then mx else mx <| waiters := Some i |>) <| waiters_tail := Some i |>]> X)
      (<[m := (Some j, l ++ [i])]> A) own.
Proof.
  intros [R1 R2 R3 R4 R5 R6 R7 R8 R9 R10 R11] Hm HA Hij HV.
  pose proof (R3 m) as Hl. pose proof (R10 m) as Hn. rewrite HA in Hl, Hn. simpl in Hl, Hn.
  assert (Hni : forall m', i ∉ (A m').2).
  { intros m' Hi. apply R4 in Hi as (? & ? & Hi). congruence. }
  assert (Hil : i ∉ l) by (pose proof (Hni m) as Hi; by rewrite HA in Hi).
  assert (Hlast : forall m' x, last l = Some x -> x ∈ (A m').2 -> m' = m).
  { intros m' x Hx Hin. apply R4 in Hin as (? & ? & Hin).
    assert (Hxl : x ∈ (A m).2) by (rewrite HA; apply last_Some in Hx as [l' ->]; set_solver).
    apply R4 in Hxl as (? & ? & Hxl). congruence. }
  constructor.
  - intros m' mx' Hx. fn_at m m'; [|rewrite lookup_insert_ne in Hx by done; eauto].
    rewrite lookup_insert_eq in Hx. simplify_eq. destruct (R1 _ _ Hm) as (Ho & Hw & Ht). rewrite HA in *.
    simpl in *. rewrite last_snoc. destruct (last l) eqn:El.
    + split_and!; [done| |done]. destruct l; done.
    + apply last_None in El. by subst l.
  - intros m' Hx. map_at m m'; [done|]. rewrite fn_lookup_insert_ne by done; eauto.
  - intros m'. fn_at m m'.
    + apply (linked_snoc (vnext V)); [by apply NoDup_snoc|done|by unfold vnext; rewrite fn_lookup_insert|].
      intros y Hy. rewrite <-vnext_relink.
      * unfold vnext. rewrite fn_lookup_insert_ne by (intros ->; done). done.
      * assert (Hym : y ∈ (A m).2) by by rewrite HA. apply R4 in Hym as (? & ? & ->). eauto.
    + apply (linked_ext (vnext V)); [done|]. intros y Hy. pose proof Hy as Hy'.
      apply R4 in Hy' as (? & ? & Hy'). unfold vnext at 1.
      rewrite fn_lookup_insert_ne by (intros ->; by apply (Hni m')).
      change (vnext (relink V l (Some i)) y = vnext V y). rewrite vnext_relink by eauto.
      rewrite decide_False; [done|]. intros Hla. apply (Hlast m' y) in Hla; congruence.
  - intros m' x. fn_at i x.
    + destruct (decide (m = m')) as [<-|Hmm].
      * rewrite fn_lookup_insert. simpl. split; [eauto|set_solver].
      * rewrite fn_lookup_insert_ne by done. split; [by intros Hi; destruct (Hni m')|].
        intros (? & ? & ?). congruence.
    + assert (He : x ∈ (<[m:=(Some j, l ++ [i])]> A m').2 <-> x ∈ (A m').2).
      { fn_at m m'; [rewrite HA; set_solver|done]. }
      rewrite He, R4, (fn_lookup_insert_ne _ i x) by done. apply relink_waits.
  - intros x a b c Hx. fn_at i x; [by simplify_eq; eauto|].
    apply relink_spec in Hx as (b' & Hx & _). eauto.
  - intros x. apply (linked_ext (mnext X)); [done|]. intros y Hy. unfold mnext. map_at m y; [|done].
    rewrite Hm. by destruct (last l).
  - intros m' x. rewrite <-R7. fn_at m m'; [|done]. by rewrite HA.
  - intros x m' Hx. fn_at i x; [done|]. destruct (R8 _ _ Hx) as [[[??]?] Hv].
    unfold relink. rewrite Hv. by case_decide.
  - done.
  - intros m'. fn_at m m'; [|done]. by apply NoDup_snoc.
  - intros m' x Hx. fn_at m m'; [|by apply R11]. simplify_eq.
    pose proof (R11 m x) as Hd. rewrite HA in Hd. specialize (Hd eq_refl). set_solver.
Qed.

(** Task [i] leaves the queue. *)
Lemma rep_leave V X A own m mx i n ow o l1 l2 :
  rep V X A own -> X !! m = Some mx -> A m = (o, l1 ++ i :: l2) -> V i = Some (Some m, n, ow) ->
  n = head l2 /\
  rep (<[i := Some (None, None, ow)]> (relink V l1 (head l2)))
      (<[m := (if last l1 is Some _ then mx else mx <| waiters := head l2 |>)
              <| waiters_tail := last (l1 ++ l2) |>]> X)
      (<[m := (o, l1 ++ l2)]> A) own.
Proof.
  intros [R1 R2 R3 R4 R5 R6 R7 R8 R9 R10 R11] Hm HA HV.
  pose proof (R3 m) as Hl. pose proof (R10 m) as Hn. rewrite HA in Hl, Hn. simpl in Hl, Hn.
  pose proof Hl as Hl'. apply linked_app in Hl' as [Hnx _]. unfold vnext in Hnx. rewrite HV in Hnx.
  split; [done|].
  destruct (NoDup_unlink _ _ _ Hn) as (Hn' & Hi1 & Hi2).
  assert (Hlast : forall m' x, last l1 = Some x -> x ∈ (A m').2 -> m' = m).
  { intros m' x Hx Hin. apply R4 in Hin as (? & ? & Hin).
    assert (Hxl : x ∈ (A m).2) by (rewrite HA; apply last_Some in Hx as [l' ->]; set_solver).
    apply R4 in Hxl as (? & ? & Hxl). congruence. }
  assert (Him : forall m', i ∈ (A m').2 -> m' = m).
  { intros m' Hi. apply R4 in Hi as (? & ? & Hi). congruence. }
  constructor.
  - intros m' mx' Hx. fn_at m m'; [|rewrite lookup_insert_ne in Hx by done; eauto].
    rewrite lookup_insert_eq in Hx. simplify_eq. destruct (R1 _ _ Hm) as (Ho & Hw & Ht). rewrite HA in *.
    simpl in *. destruct (last l1) eqn:El.
    + split_and!; [done| |done]. destruct l1; done.
    + apply last_None in El. by subst l1.
  - intros m' Hx. map_at m m'; [done|]. rewrite fn_lookup_insert_ne by done; eauto.
  - intros m'. fn_at m m'.
    + apply (linked_remove (vnext V) _ l1 i l2); [done..|]. intros y Hy.
      rewrite <-vnext_relink.
      * unfold vnext. rewrite fn_lookup_insert_ne by (intros ->; set_solver). done.
      * assert (Hym : y ∈ (A m).2) by (rewrite HA; set_solver). apply R4 in Hym as (? & ? & ->). eauto.
    + apply (linked_ext (vnext V)); [done|]. intros y Hy. pose proof Hy as Hy'.
      apply R4 in Hy' as (? & ? & Hy'). unfold vnext at 1.
      rewrite fn_lookup_insert_ne by (intros ->; by apply Him in Hy).
      change (vnext (relink V l1 (head l2)) y = vnext V y). rewrite vnext_relink by eauto.
      rewrite decide_False; [done|]. intros Hla. apply (Hlast m' y) in Hla; congruence.
  - intros m' x. fn_at i x.
    + split; [|intros (? & ? & ?); congruence]. intros Hi. exfalso. fn_at m m'; [set_solver|by apply Him in Hi].
    + assert (He : x ∈ (<[m:=(o, l1 ++ l2)]> A m').2 <-> x ∈ (A m').2).
      { fn_at m m'; [rewrite HA; set_solver|done]. }
      rewrite He, R4, (fn_lookup_insert_ne _ i x) by done. apply relink_waits.
  - intros x a b c Hx. fn_at i x; [by simplify_eq; eauto|].
    apply relink_spec in Hx as (b' & Hx & _). eauto.
  - intros x. apply (linked_ext (mnext X)); [done|]. intros y Hy. unfold mnext. map_at m y; [|done].
    rewrite Hm. by destruct (last l1).
  - intros m' x. rewrite <-R7. fn_at m m'; [|done]. by rewrite HA.
  - intros x m' Hx. fn_at i x; [done|]. destruct (R8 _ _ Hx) as [[[??]?] Hv].
    unfold relink. rewrite Hv. by case_decide.
  - done.
  - intros m'. by fn_at m m'.
  - intros m' x Hx. fn_at m m'; [|by apply R11]. simplify_eq.
    pose proof (R11 m x) as Hd. rewrite HA in Hd. specialize (Hd eq_refl). set_solver.
Qed.

End changes.
