(* ===== verification/KSyncSpec.v ===== *)
(** * Kernel mutexes: the theorems (ksync.c)

    The operations of KSync are the steps of an abstract lock with one owner and a queue
    of waiters served in the order of arrival. Steps of the rest of the kernel leave the
    locks alone ([same_sync]); this is shown of every switch that a mutex can make. *)

From stdpp Require Import functions sets.
From S2P Require Import Kern Sched Events Quiet KSync.

Local Open Scope Z_scope.

(** ** What the operations do to the lists *)

(** ** The operations *)

Section ops.
Context {M : Type} `{!Space M}.
Implicit Types (k : kern M) (A : locks) (own : Z -> list Z).

(** The switches of a mutex. *)
Lemma quiet_sync {N B} (m : K N B) : keeps quiet m -> keeps same_sync m.
Proof. apply keeps_mono. by intros k k' []. Qed.

Definition srep k A own : Prop := rep (view k) (mutexes k) A own.

Lemma srep_same k k' A own : same_sync k k' -> srep k A own -> srep k' A own.
Proof. intros [Hm Hv] Hr. unfold srep. rewrite Hm. by apply (rep_ext (view k) _ _ A _ own). Qed.

Lemma view_task k i w n o : view k i = Some (w, n, o) ->
  exists t, zget (tasks k) i = Some t /\ t_mutex t = w /\ mutex_next_waiter t = n /\ owned_mutexes t = o.
Proof. unfold view. destruct (zget (tasks k) i) as [t|]; [|done]. intros [= <- <- <-]. by exists t. Qed.

(** Where a computation that the model does not stop is afterwards. *)
Definition ends {B} (r : res M B) (Q : kern M -> Prop) : Prop :=
  match r with Ret _ k' | Away k' => Q k' | _ => True end.

Lemma same_sync_len k k' : same_sync k k' -> zlen (tasks k') = zlen (tasks k).
Proof.
  intros [_ Hv]. assert (Hi : forall i, is_Some (zget (tasks k') i) <-> is_Some (zget (tasks k) i)).
  { intros i. specialize (Hv i). unfold view in Hv. rewrite <-!(fmap_is_Some sync_of). by rewrite Hv. }
  assert (Hr : forall i, 0 <= i < zlen (tasks k') <-> 0 <= i < zlen (tasks k)).
  { intros i. split; intros Hx; apply zget_is_Some in Hx; apply Hi in Hx as [t Hx]; by apply zget_Some_range in Hx. }
  pose proof (zlen_nonneg (tasks k)). pose proof (zlen_nonneg (tasks k')).
  pose proof (Hr (zlen (tasks k))). pose proof (Hr (zlen (tasks k'))). lia.
Qed.

(** The locks are [A], and the array of tasks is as long as that of [k0]. *)
Definition locked k0 A own k : Prop := srep k A own /\ zlen (tasks k) = zlen (tasks k0).

Lemma ends_keeps {B} (m : K M B) k0 k A own :
  keeps same_sync m -> locked k0 A own k -> ends (m k) (locked k0 A own).
Proof.
  intros Hk [Hr Hl]. specialize (Hk k). destruct (m k); simpl; try done;
    (split; [by eapply srep_same|by rewrite (same_sync_len k)]).
Qed.

(** What the updates of the next lemmas leave alone. *)
Definition same_frame k k' : Prop :=
  current_task k' = current_task k /\ zlen (tasks k') = zlen (tasks k).

#[local] Instance same_frame_preorder : PreOrder same_frame.
Proof. split; [done|]. intros k1 k2 k3 [] []. split; congruence. Qed.

Lemma claim_rep k i m w n o mx A own l :
  srep k A own -> A m = (None, l) -> i ∉ l -> view k i = Some (w, n, o) -> mutexes k !! m = Some mx ->
  exists k', claim i m k = Ret tt k' /\ same_frame k k' /\ dom (mutexes k') = dom (mutexes k) /\
    srep k' (<[m := (Some i, l)]> A) (<[i := m :: own i]> own).
Proof.
  intros Hr HA Hi Hv Hm. destruct (view_task _ _ _ _ _ Hv) as (t & Ht & <- & <- & <-).
  unfold claim. kget Ht. kret (upd_mutex_Some k m mx (fun mx => mx <| owner := Some i |> <| owned_next := owned_mutexes t |>) Hm).
  set (k1 := k <| mutexes := _ |>). assert (Ht1 : zget (tasks k1) i = Some t) by done.
  rewrite (upd_task_Some _ _ _ _ Ht1). eexists. split; [done|].
  split; [split; [done|apply zlen_zset]|]. split.
  { simpl. rewrite dom_insert_L. apply elem_of_dom_2 in Hm. set_solver. }
  eapply rep_ext; [apply (rep_claim _ _ _ _ m mx i _ _ _ l Hr Hm HA Hi Hv)| |done|done].
  intros x. by rewrite (view_set k1 i t).
Qed.

(** The release of a mutex hands it to the first waiter. *)
Definition hand (l : list Z) : option Z * list Z :=
  match l with [] => (None, []) | w :: l => (Some w, l) end.

Lemma upd_view k i f s s' :
  view k i = Some s -> (forall t, sync_of t = s -> sync_of (f t) = s') ->
  exists k', upd_task i f k = Ret tt k' /\ mutexes k' = mutexes k /\ same_frame k k' /\
    forall x, view k' x = <[i := Some s']> (view k) x.
Proof.
  intros Hv Hf. unfold view in Hv. destruct (zget (tasks k) i) as [t|] eqn:Ht; simplify_eq/=.
  rewrite (upd_task_Some _ _ _ _ Ht). eexists. split; [done|]. split; [done|].
  split; [split; [done|apply zlen_zset]|]. intros x. rewrite (view_set k i t), Hf by done. done.
Qed.

Lemma enqueue_rep k m mx A own j l n o :
  srep k A own -> mutexes k !! m = Some mx -> A m = (Some j, l) -> current_task k <> j ->
  view k (current_task k) = Some (None, n, o) ->
  exists k', kmutex_enqueue m k = Ret tt k' /\ same_frame k k' /\
    srep k' (<[m := (Some j, l ++ [current_task k])]> A) own.
Proof.
  intros Hr Hm HA Hj Hv. set (cur := current_task k) in *. unfold kmutex_enqueue, get_current_task.
  rewrite bind_gets. fold cur.
  destruct (upd_view k cur (fun t => t <| t_mutex := Some m |> <| mutex_next_waiter := None |>) _ (Some m, None, o) Hv)
    as (k1 & He1 & Hm1 & Hf1 & Hv1).
  { intros []. unfold sync_of. simpl. congruence. }
  kret He1. assert (Hmx1 : mutexes k1 !! m = Some mx) by by rewrite Hm1. kret (get_mutex_Some _ _ _ Hmx1).
  destruct (r_mutex _ _ _ _ Hr _ _ Hm) as (_ & Hw & Ht). rewrite HA in Hw, Ht. simpl in Hw, Ht.
  pose proof (rep_push _ _ _ _ m mx cur j n o l Hr Hm HA Hj Hv) as Hp. rewrite Ht.
  destruct (last l) as [w|] eqn:El.
  - assert (Hwl : w ∈ (A m).2) by (rewrite HA; apply last_Some in El as [l' ->]; set_solver).
    apply (r_waits _ _ _ _ Hr) in Hwl as (nw & ow & Hvw).
    assert (Hwc : w <> cur) by congruence.
    destruct (upd_view k1 w (fun t => t <| mutex_next_waiter := Some cur |>) (Some m, nw, ow) (Some m, Some cur, ow))
      as (k2 & He2 & Hm2 & Hf2 & Hv2).
    { rewrite Hv1, fn_lookup_insert_ne by congruence. done. }
    { intros []. unfold sync_of. simpl. congruence. }
    kret He2. rewrite Hm1 in Hm2.
    assert (Hmx2 : mutexes k2 !! m = Some mx) by by rewrite Hm2.
    rewrite (upd_mutex_Some _ _ _ _ Hmx2). eexists. split; [done|]. split.
    { etransitivity; [exact Hf1|exact Hf2]. }
    unfold srep. simpl. rewrite Hm2. eapply rep_ext; [exact Hp| |done|done].
    intros x. change (view k2 x = <[cur := Some (Some m, None, o)]> (relink (view k) l (Some cur)) x).
    rewrite Hv2. destruct (decide (w = x)) as [<-|Hwx].
    + rewrite fn_lookup_insert, fn_lookup_insert_ne by congruence. unfold relink. by rewrite El, decide_True, Hvw.
    + rewrite fn_lookup_insert_ne, Hv1 by done. destruct (decide (cur = x)) as [<-|Hcx].
      * by rewrite !fn_lookup_insert.
      * rewrite !fn_lookup_insert_ne by done. unfold relink. rewrite El, decide_False by congruence. done.
  - kret (upd_mutex_Some k1 m mx (fun mx => mx <| waiters := Some cur |>) Hmx1).
    set (k2 := k1 <| mutexes := _ |>).
    assert (Hmx2 : mutexes k2 !! m = Some (mx <| waiters := Some cur |>)) by apply lookup_insert_eq.
    rewrite (upd_mutex_Some _ _ _ _ Hmx2). eexists. split; [done|]. split; [done|].
    unfold srep. simpl. rewrite insert_insert_eq, Hm1. eapply rep_ext; [exact Hp| |done|done].
    intros x. change (view k1 x = <[cur := Some (Some m, None, o)]> (relink (view k) l (Some cur)) x).
    rewrite Hv1. destruct (decide (cur = x)) as [<-|Hcx].
    + by rewrite !fn_lookup_insert.
    + rewrite !fn_lookup_insert_ne by done. unfold relink. rewrite El, decide_False by congruence. done.
Qed.

Lemma ends_bind {B C} (m : K M B) (f : B -> K M C) k (Q : kern M -> Prop) :
  ends (m k) (fun k' => Q k') -> (forall b k', m k = Ret b k' -> Q k' -> ends (f b k') Q) ->
  ends ((m ≫= f) k) Q.
Proof. unfold mbind, K_mbind. intros Hm Hf. destruct (m k) eqn:E; try done. by apply Hf. Qed.

Lemma pop_rep k m mx A own w l :
  srep k A own -> mutexes k !! m = Some mx -> A m = (None, w :: l) ->
  exists k' mx' ow, pop_waiter m w k = Ret tt k' /\ same_frame k k' /\
    srep k' (<[m := (None, l)]> A) own /\
    mutexes k' = <[m := mx']> (mutexes k) /\ view k' w = Some (None, None, ow).
Proof.
  intros Hr Hm HA. destruct (r_mutex _ _ _ _ Hr _ _ Hm) as (_ & _ & Htl).
  rewrite HA in Htl. simpl in Htl.
  assert (Hwl : w ∈ (A m).2) by (rewrite HA; set_solver).
  apply (r_waits _ _ _ _ Hr) in Hwl as (nw & ow & Hvw).
  destruct (rep_pop _ _ _ _ m mx None w l nw ow Hr Hm HA Hvw) as [-> Hpop].
  destruct (view_task _ _ _ _ _ Hvw) as (t & Ht & _ & Hnt & _).
  unfold pop_waiter. kget Ht. rewrite Hnt.
  kret (upd_mutex_Some k m mx (fun mx => mx <| waiters := head l |>) Hm).
  set (k0 := k <| mutexes := _ |>).
  assert (Hmx0 : mutexes k0 !! m = Some (mx <| waiters := head l |>)) by apply lookup_insert_eq.
  set (k1 := k <| mutexes := <[m := mx <| waiters := head l |> <| waiters_tail := last l |>]> (mutexes k) |>).
  assert (He1 : when (bool_decide (head l = None)) (upd_mutex m (fun mx => mx <| waiters_tail := None |>)) k0 = Ret tt k1).
  { destruct l as [|w' l]; simpl.
    - rewrite (upd_mutex_Some _ _ _ _ Hmx0). unfold k1, k0. simpl. by rewrite insert_insert_eq.
    - unfold k1, k0. rewrite last_cons_cons in Htl. simpl. rewrite <-Htl. by destruct mx. }
  kret He1.
  destruct (upd_view k1 w (fun t => t <| t_mutex := None |> <| mutex_next_waiter := None |>) _ (None, None, ow) Hvw)
    as (k2 & He2 & Hm2 & Hf2 & Hv2).
  { intros []. unfold sync_of. simpl. congruence. }
  assert (Hv2w : view k2 w = Some (None, None, ow)) by (rewrite Hv2; apply fn_lookup_insert).
  destruct (upd_view k2 w (fun t => t <| paused := false |> <| pause_reason := PAUSE_NONE |>) _ (None, None, ow) Hv2w)
    as (k3 & He3 & Hm3 & Hf3 & Hv3); [by intros []|].
  kret He2. exists k3, (mx <| waiters := head l |> <| waiters_tail := last l |>), ow.
  split; [exact He3|]. split; [etransitivity; [exact Hf2|exact Hf3]|].
  unfold srep. rewrite Hm3, Hm2. split_and!; [|done|by rewrite Hv3, fn_lookup_insert].
  eapply rep_ext; [exact Hpop| |done|done]. intros x. rewrite Hv3.
  destruct (decide (w = x)) as [<-|]; [by rewrite !fn_lookup_insert|]. by rewrite fn_lookup_insert_ne, Hv2.
Qed.

Lemma own_in k A own i m : srep k A own -> m ∈ own i -> is_Some (mutexes k !! m).
Proof.
  intros Hr Hi. apply not_eq_None_Some. intros Hm. apply (r_absent _ _ _ _ Hr) in Hm.
  apply (r_owner _ _ _ _ Hr) in Hi. by rewrite Hm in Hi.
Qed.

Lemma own_length k A own i : srep k A own -> (length (own i) <= size (mutexes k))%nat.
Proof.
  intros Hr. rewrite <-size_dom, <-(size_list_to_set (C := gset Z)) by apply (r_own_nodup _ _ _ _ Hr).
  apply subseteq_size. intros x Hx. apply elem_of_list_to_set in Hx. apply elem_of_dom. by eapply own_in.
Qed.

(** Taking the mutex out of the list of its owner [i]. *)
Lemma drop_rep k i m mx A own l :
  srep k A own -> mutexes k !! m = Some mx -> A m = (Some i, l) ->
  exists t o1 o2 k1, zget (tasks k) i = Some t /\ own i = o1 ++ m :: o2 /\
    find_prev (S (size (mutexes k))) next_owned None (owned_mutexes t) m k = Ret (last o1, true) k /\
    (_ ← match last o1 with
         | Some p => upd_mutex p (fun px => px <| owned_next := owned_next mx |>)
         | None => upd_task i (fun t => t <| owned_mutexes := owned_next mx |>)
         end;
     _ ← upd_mutex m (fun mx => mx <| owned_next := None |>);
     upd_mutex m (fun mx => mx <| owner := None |>)) k = Ret tt k1 /\
    same_frame k k1 /\ dom (mutexes k1) = dom (mutexes k) /\
    srep k1 (<[m := (None, l)]> A) (<[i := o1 ++ o2]> own).
Proof.
  intros Hr Hm HA. assert (Hin : m ∈ own i) by (apply (r_owner _ _ _ _ Hr); by rewrite HA).
  apply list_elem_of_split in Hin as (o1 & o2 & Hown).
  destruct (r_task _ _ _ _ Hr i m ltac:(rewrite Hown; set_solver)) as [[[w n] o] Hv].
  destruct (view_task _ _ _ _ _ Hv) as (t & Ht & _ & _ & Hot).
  destruct (rep_drop _ _ _ _ m mx i w n o l o1 o2 Hr Hm HA Hown Hv) as (Hnx & Hlast & Hrep).
  pose proof (r_own_nodup _ _ _ _ Hr i) as Hnd. rewrite Hown in Hnd.
  destruct (NoDup_unlink _ _ _ Hnd) as (_ & Hm1 & _).
  assert (Hfind : find_prev (S (size (mutexes k))) next_owned None (owned_mutexes t) m k = Ret (last o1, true) k).
  { rewrite Hot, (r_owned _ _ _ _ Hr _ _ _ _ Hv), Hown.
    rewrite (find_prev_spec k next_owned (mnext (mutexes k))).
    - by destruct (last o1).
    - intros y Hy. destruct (own_in k A own i y Hr) as [my Hmy]; [rewrite Hown; set_solver|].
      unfold next_owned, mnext. kret (get_mutex_Some _ _ _ Hmy). by rewrite Hmy.
    - rewrite <-Hown. apply (r_own _ _ _ _ Hr).
    - done.
    - pose proof (own_length k A own i Hr) as Hle. rewrite Hown, length_app in Hle. simpl in Hle. lia. }
  destruct (last o1) as [p|] eqn:El.
  - destruct (Hlast p eq_refl) as [Hpm [px Hpx]]. rewrite Hnx.
    eexists t, o1, o2, _. rewrite El. split_and!; [done|done|done| | | |].
    + kret (upd_mutex_Some k p px (fun px => px <| owned_next := head o2 |>) Hpx).
      set (k1 := k <| mutexes := _ |>).
      assert (Hm1' : mutexes k1 !! m = Some mx) by (simpl; by rewrite lookup_insert_ne).
      kret (upd_mutex_Some k1 m mx (fun mx => mx <| owned_next := None |>) Hm1').
      set (k2 := k1 <| mutexes := _ |>).
      assert (Hm2 : mutexes k2 !! m = Some (mx <| owned_next := None |>)) by apply lookup_insert_eq.
      rewrite (upd_mutex_Some _ _ _ _ Hm2). reflexivity.
    + done.
    + simpl. rewrite !dom_insert_L. apply elem_of_dom_2 in Hm, Hpx. set_solver.
    + unfold srep. simpl. rewrite insert_insert_eq. eapply rep_ext; [|done..].
      replace (<[p := _]> (mutexes k)) with (alter (fun px => px <| owned_next := head o2 |>) p (mutexes k));
        [exact Hrep|].
      apply map_eq. intros j. rewrite lookup_alter, lookup_insert. case_decide; [|done]. subst. by rewrite Hpx.
  - destruct (upd_view k i (fun t => t <| owned_mutexes := head o2 |>) _ (w, n, head o2) Hv)
      as (k1 & He1 & Hm1' & Hf1 & Hv1).
    { intros []. unfold sync_of. simpl. congruence. }
    rewrite Hnx. assert (Hmx1 : mutexes k1 !! m = Some mx) by by rewrite Hm1'.
    eexists t, o1, o2, _. rewrite El. split_and!; [done|done|done| | | |].
    + kret He1. kret (upd_mutex_Some k1 m mx (fun mx => mx <| owned_next := None |>) Hmx1).
      set (k2 := k1 <| mutexes := _ |>).
      assert (Hm2 : mutexes k2 !! m = Some (mx <| owned_next := None |>)) by apply lookup_insert_eq.
      rewrite (upd_mutex_Some _ _ _ _ Hm2). reflexivity.
    + done.
    + simpl. rewrite !dom_insert_L, Hm1'. apply elem_of_dom_2 in Hm. set_solver.
    + unfold srep. simpl. rewrite insert_insert_eq, Hm1'. eapply rep_ext; [exact Hrep|exact Hv1|done|done].
Qed.

Lemma bind_assoc {B C D} (m : K M B) (f : B -> K M C) (g : C -> K M D) k :
  ((m ≫= f) ≫= g) k = (m ≫= (fun a => f a ≫= g)) k.
Proof. unfold mbind, K_mbind. by destruct (m k). Qed.

(** Repairing the end of the queue when [i] leaves. *)
Lemma leave_tail k m mx i l1 l2 :
  mutexes k !! m = Some mx -> waiters_tail mx = last (l1 ++ i :: l2) -> NoDup (l1 ++ i :: l2) ->
  exists k', when (bool_decide (last (l1 ++ i :: l2) = Some i))
      (upd_mutex m (fun mx => mx <| waiters_tail := last l1 |>)) k = Ret tt k' /\
    mutexes k' = <[m := mx <| waiters_tail := last (l1 ++ l2) |>]> (mutexes k) /\
    same_frame k k' /\ (forall x, view k' x = view k x).
Proof.
  intros Hm Ht Hnd. destruct (NoDup_unlink _ _ _ Hnd) as (_ & _ & Hi2).
  destruct l2 as [|y l2].
  - rewrite app_nil_r, last_snoc, bool_decide_true by done. simpl.
    rewrite (upd_mutex_Some _ _ _ _ Hm). by eexists.
  - assert (Hlast : last (l1 ++ i :: y :: l2) = last (l1 ++ y :: l2)).
    { rewrite !last_app, last_cons_cons. done. }
    rewrite bool_decide_false.
    2: { rewrite last_app, last_cons_cons. destruct (last (y :: l2)) as [z|] eqn:E.
         - intros [= ->]. apply Hi2. apply last_Some in E as [l' ->]. set_solver.
         - by apply last_None in E. }
    exists k. split; [done|]. split; [|done]. rewrite <-Hlast, <-Ht, insert_id; [done|]. rewrite Hm. by destruct mx.
Qed.

(** A queue is not longer than the array of tasks. *)
Lemma queue_length k m A own :
  zlen (tasks k) = TOTAL_TASKS -> srep k A own -> (length (A m).2 <= 16)%nat.
Proof.
  intros Hlen Hr. rewrite <-(size_list_to_set (C := gset Z)) by apply (r_line_nodup _ _ _ _ Hr).
  transitivity (size (list_to_set (Z.of_nat <$> seq 0 16) : gset Z)); [|vm_compute; lia].
  apply subseteq_size. intros x Hx. apply elem_of_list_to_set in Hx. apply elem_of_list_to_set.
  apply (r_waits _ _ _ _ Hr) in Hx as (nx & ox & Hvx). destruct (view_task _ _ _ _ _ Hvx) as (t & Ht & _).
  apply zget_Some_range in Ht. rewrite Hlen in Ht. unfold TOTAL_TASKS in Ht.
  apply list_elem_of_fmap. exists (Z.to_nat x). split; [lia|]. apply elem_of_seq. lia.
Qed.

(** Taking a waiting task out of its queue. *)
Lemma leave_rep k i m mx A own o l1 l2 :
  zlen (tasks k) = TOTAL_TASKS ->
  srep k A own -> mutexes k !! m = Some mx -> A m = (o, l1 ++ i :: l2) ->
  exists k1, leave_queue i m k = Ret tt k1 /\ same_frame k k1 /\
    srep k1 (<[m := (o, l1 ++ l2)]> A) own /\ dom (mutexes k1) = dom (mutexes k).
Proof.
  intros Hlen Hr Hm HA. pose proof (queue_length k m A own Hlen Hr) as Hq. rewrite HA in Hq. simpl in Hq.
  assert (Hwait : forall x, x ∈ l1 ++ i :: l2 -> exists n ow, view k x = Some (Some m, n, ow)).
  { intros x Hx. apply (r_waits _ _ _ _ Hr). by rewrite HA. }
  destruct (Hwait i ltac:(set_solver)) as (n & ow & Hv).
  destruct (rep_leave _ _ _ _ m mx i n ow o l1 l2 Hr Hm HA Hv) as [-> Hrep].
  destruct (r_mutex _ _ _ _ Hr _ _ Hm) as (_ & Hw & Htl). rewrite HA in Hw, Htl. simpl in Hw, Htl.
  pose proof (r_line_nodup _ _ _ _ Hr m) as Hnd. rewrite HA in Hnd. simpl in Hnd.
  destruct (NoDup_unlink _ _ _ Hnd) as (_ & Hi1 & _).
  assert (Hfind : find_prev (Z.to_nat TOTAL_TASKS + 1) next_waiter None (waiters mx) i k = Ret (last l1, true) k).
  { rewrite Hw, (find_prev_spec k next_waiter (vnext (view k))).
    - by destruct (last l1).
    - intros y Hy. destruct (Hwait y ltac:(set_solver)) as (ny & oy & Hvy).
      destruct (view_task _ _ _ _ _ Hvy) as (t & Ht & _ & Hnt & _). unfold next_waiter, vnext.
      kget Ht. by rewrite Hvy, Hnt.
    - pose proof (r_line _ _ _ _ Hr m) as Hl. by rewrite HA in Hl.
    - done.
    - rewrite length_app in Hq. unfold TOTAL_TASKS. simpl in *. lia. }
  destruct (view_task _ _ _ _ _ Hv) as (t & Ht & _ & Hnt & _).
  unfold leave_queue. kret (get_mutex_Some _ _ _ Hm). kret Hfind. cbn [fst snd when].
  rewrite bind_assoc. kget Ht. rewrite bind_assoc, Hnt, Htl.
  assert (Hfirst : exists k1 mx1, match last l1 with
        | Some p => upd_task p (fun pt => pt <| mutex_next_waiter := head l2 |>)
        | None => upd_mutex m (fun mx => mx <| waiters := head l2 |>) end k = Ret tt k1 /\ same_frame k k1 /\
      mx1 = (if last l1 is Some _ then mx else mx <| waiters := head l2 |>) /\
      mutexes k1 = <[m := mx1]> (mutexes k) /\
      (forall x, view k1 x = relink (view k) l1 (head l2) x)).
  { destruct (last l1) as [p|] eqn:El.
    - destruct (Hwait p) as (np & op & Hvp); [apply last_Some in El as [l' ->]; set_solver|].
      destruct (upd_view k p (fun t => t <| mutex_next_waiter := head l2 |>) _ (Some m, head l2, op) Hvp)
        as (k1 & He1 & Hm1 & Hf1 & Hv1); [intros []; unfold sync_of; simpl; congruence|].
      exists k1, mx. split_and!; [done|done|done|by rewrite insert_id|]. intros x. rewrite Hv1. unfold relink. rewrite El.
      destruct (decide (p = x)) as [<-|]; [by rewrite fn_lookup_insert, decide_True, Hvp|].
      by rewrite fn_lookup_insert_ne, decide_False by congruence.
    - rewrite (upd_mutex_Some _ _ _ _ Hm). eexists _, _. split_and!; try done. intros x. unfold relink.
      by rewrite El, decide_False. }
  destruct Hfirst as (k1 & mx1 & He1 & Hf1 & Hmx1 & Hm1 & Hv1). kret He1.
  destruct (leave_tail k1 m mx1 i l1 l2) as (k2 & He2 & Hm2 & Hf2 & Hv2);
    [rewrite Hm1; apply lookup_insert_eq|subst mx1; by destruct (last l1)|done|]. kret He2.
  assert (Hvi : view k2 i = Some (Some m, head l2, ow)).
  { rewrite Hv2, Hv1. unfold relink. rewrite decide_False; [done|]. intros Hl.
    apply Hi1. apply last_Some in Hl as [l' ->]. set_solver. }
  destruct (upd_view k2 i (fun t => t <| t_mutex := None |> <| mutex_next_waiter := None |>) _ (None, None, ow) Hvi)
    as (k3 & He3 & Hm3 & Hf3 & Hv3); [intros []; unfold sync_of; simpl; congruence|].
  exists k3. split; [done|]. split; [etransitivity; [exact Hf1|etransitivity; eassumption]|].
  assert (Hmm : mutexes k3 = <[m := mx1 <| waiters_tail := last (l1 ++ l2) |>]> (mutexes k)).
  { by rewrite Hm3, Hm2, Hm1, insert_insert_eq. }
  split.
  - unfold srep. rewrite Hmm, Hmx1. eapply rep_ext; [exact Hrep| |done|done]. intros x. rewrite Hv3.
    destruct (decide (i = x)) as [<-|]; [by rewrite !fn_lookup_insert|].
    by rewrite !fn_lookup_insert_ne, Hv2, Hv1 by done.
  - rewrite Hmm, dom_insert_L. apply elem_of_dom_2 in Hm. set_solver.
Qed.

Context (task_reset_windows : Z -> K M unit) (wm_event_crash : Z -> Z -> Z -> K M unit)
  (tasks_init : registers_t -> K M registers_t) `{!QuietGui tasks_init task_reset_windows wm_event_crash}.

Abbreviation mwake := (kmutex_wake task_reset_windows wm_event_crash tasks_init).
Abbreviation mrelease := (kmutex_release task_reset_windows wm_event_crash tasks_init).

(** The first waiter, if any, takes the mutex; the lists of the other tasks stay. *)
Lemma wake_rep k m mx A own l wake :
  srep k A own -> mutexes k !! m = Some mx -> A m = (None, l) ->
  exists own' k1, srep k1 (<[m := hand l]> A) own' /\ same_frame k k1 /\
    dom (mutexes k1) = dom (mutexes k) /\ (forall x, x ∉ l -> own' x = own x) /\
    ends (mwake m wake k) (locked k (<[m := hand l]> A) own') /\
    (wake = false -> exists b, mwake m false k = Ret b k1).
Proof.
  intros Hr Hm HA. unfold kmutex_wake. destruct (r_mutex _ _ _ _ Hr _ _ Hm) as (_ & Hw & _).
  rewrite HA in Hw. simpl in Hw. rewrite !(bind_Ret _ _ _ _ _ (get_mutex_Some _ _ _ Hm)), Hw.
  destruct l as [|w l].
  { exists own, k. assert (Hr' : srep k (<[m := hand []]> A) own).
    { eapply rep_ext; [exact Hr|done| |done]. intros m'. simpl. destruct (decide (m = m')) as [<-|].
      - by rewrite fn_lookup_insert.
      - by rewrite fn_lookup_insert_ne. }
    split_and!; try done. intros _. by eexists. }
  destruct (pop_rep k m mx A own w l Hr Hm HA) as (k1 & mx1 & ow & He1 & Hf1 & Hr1 & Hm1 & Hv1).
  destruct (claim_rep k1 w m None None ow mx1 (<[m := (None, l)]> A) own l Hr1)
    as (k2 & He2 & Hf2 & Hd2 & Hr2); try done.
  { apply fn_lookup_insert. }
  { pose proof (r_line_nodup _ _ _ _ Hr m) as Hn. rewrite HA in Hn. by apply NoDup_cons in Hn as [? _]. }
  { rewrite Hm1. apply lookup_insert_eq. }
  exists (<[w := m :: own w]> own), k2.
  assert (Hr3 : srep k2 (<[m := hand (w :: l)]> A) (<[w := m :: own w]> own)).
  { eapply rep_ext; [exact Hr2|done| |done]. intros m'. simpl. destruct (decide (m = m')) as [<-|].
    - by rewrite !fn_lookup_insert.
    - by rewrite !fn_lookup_insert_ne. }
  destruct (zget (tasks k2) w) as [t2|] eqn:Ht2.
  2: { pose proof (r_task _ _ _ _ Hr3 w m) as Ht. rewrite fn_lookup_insert in Ht.
       destruct (Ht ltac:(left)) as [? Hx]. unfold view in Hx. by rewrite Ht2 in Hx. }
  change (head (w :: l)) with (Some w). cbv iota.
  rewrite !(bind_Ret _ _ _ _ _ He1), !(bind_Ret _ _ _ _ _ He2), !(bind_Ret _ _ _ _ _ (get_task_Some _ _ _ Ht2)).
  split_and!; [done|by etransitivity| | | |].
  - rewrite Hd2, Hm1, dom_insert_L. apply elem_of_dom_2 in Hm. set_solver.
  - intros x Hx. rewrite fn_lookup_insert_ne by set_solver. done.
  - apply ends_bind; [|by intros _ k' _ Hk'].
    assert (Hl2 : locked k (<[m := hand (w :: l)]> A) (<[w := m :: own w]> own) k2).
    { split; [done|]. destruct Hf1, Hf2. congruence. }
    destruct wake; [|done]. apply ends_bind; [|by intros _ k' _ Hk']. apply ends_keeps; [|done].
    apply quiet_sync. auto with keeps.
  - intros ->. by eexists.
Qed.

Lemma release_rep k i m mx A own l wake :
  srep k A own -> mutexes k !! m = Some mx -> A m = (Some i, l) ->
  exists own' k1, srep k1 (<[m := hand l]> A) own' /\ same_frame k k1 /\
    dom (mutexes k1) = dom (mutexes k) /\ length (own i) = S (length (own' i)) /\
    ends (mrelease i m wake k) (locked k (<[m := hand l]> A) own') /\
    (wake = false -> mrelease i m false k = Ret tt k1).
Proof.
  intros Hr Hm HA.
  destruct (drop_rep k i m mx A own l Hr Hm HA)
    as (t & o1 & o2 & k1 & Ht & Hown & Hfind & Hdrop & Hf1 & Hd1 & Hr1).
  assert (Hrun : forall b, mrelease i m b k = (_ ← mwake m b; mret tt) k1).
  { intros b. unfold kmutex_release. kget Ht. rewrite bind_gets. kret Hfind. cbn [fst snd when].
    rewrite bind_assoc. kret (get_mutex_Some _ _ _ Hm). revert Hdrop. unfold mbind, K_mbind.
    match goal with |- context [match ?m0 with Ret _ _ => _ | _ => _ end] =>
      match m0 with (match last o1 with _ => _ end) k => destruct m0 as [[] ka| | | |]; try done end end.
    destruct (upd_mutex m (fun mx => mx <| owned_next := None |>) ka) as [[] kb| | | |]; try done.
    by intros ->. }
  assert (Hm1 : is_Some (mutexes k1 !! m)).
  { apply elem_of_dom. rewrite Hd1. by apply elem_of_dom_2 in Hm. }
  destruct Hm1 as [mx1 Hm1].
  destruct (wake_rep k1 m mx1 (<[m := (None, l)]> A) (<[i := o1 ++ o2]> own) l wake Hr1 Hm1)
    as (own' & k2 & Hr2 & Hf2 & Hd2 & Ho2 & He & Hret); [apply fn_lookup_insert|].
  assert (HAA : forall k' own0, srep k' (<[m := hand l]> (<[m := (None, l)]> A)) own0 -> srep k' (<[m := hand l]> A) own0).
  { intros k' own0 Hr'. eapply rep_ext; [exact Hr'|done| |done]. intros m'.
    destruct (decide (m = m')) as [<-|]; [by rewrite !fn_lookup_insert|by rewrite !fn_lookup_insert_ne]. }
  exists own', k2. rewrite !Hrun. split_and!.
  - by apply HAA.
  - by etransitivity.
  - congruence.
  - assert (Hil : i ∉ l).
    { pose proof (r_distinct _ _ _ _ Hr m i) as Hd. rewrite HA in Hd. by apply Hd. }
    rewrite Ho2, fn_lookup_insert, Hown, !length_app by done. simpl. lia.
  - apply ends_bind; [|by intros _ k' _ Hk'].
    destruct (mwake m wake k1); try done; destruct He as [He1 He2]; (split; [by apply HAA|]);
      rewrite He2; apply Hf1.
  - intros ->. destruct (Hret eq_refl) as [b Hb]. by kret Hb.
Qed.

End ops.

(** ** The abstract lock

    A mutex has one owner and a line of waiters. *)

Definition no_locks : locks := fun _ => (None, []).

Inductive astep (A : locks) : locks -> Prop :=
| a_claim m i : A m = (None, []) -> astep A (<[m := (Some i, [])]> A)
| a_wait m i j l : A m = (Some j, l) -> i <> j -> (forall m', i ∉ (A m').2) ->
    astep A (<[m := (Some j, l ++ [i])]> A)
| a_release m i l : A m = (Some i, l) -> astep A (<[m := hand l]> A)
| a_leave m i o l1 l2 : A m = (o, l1 ++ i :: l2) -> astep A (<[m := (o, l1 ++ l2)]> A).

(** A mutex without owner has no waiters. *)
Definition no_idle_lock (A : locks) : Prop := forall m, (A m).1 = None -> (A m).2 = [].

Lemma astep_no_idle A A' : no_idle_lock A -> astep A A' -> no_idle_lock A'.
Proof.
  intros Hf Hs m. destruct Hs as [m' i Hm|m' i j l Hm|m' i l Hm|m' i o l1 l2 Hm];
    (destruct (decide (m' = m)) as [<-|]; [rewrite fn_lookup_insert|by rewrite fn_lookup_insert_ne; auto]).
  - done.
  - done.
  - by destruct l.
  - simpl. intros ->. specialize (Hf m'). rewrite Hm in Hf. simpl in Hf. specialize (Hf eq_refl).
    by destruct l1.
Qed.

(** Mutexes only went to tasks that were waiting for them. *)
Definition handed (A A' : locks) : Prop :=
  forall m w, (w ∈ (A' m).2 -> w ∈ (A m).2) /\ ((A' m).1 = Some w -> (A m).1 = Some w \/ w ∈ (A m).2).

#[global] Instance handed_preorder : PreOrder handed.
Proof.
  split; [by intros A m w; split; [|left]|]. intros A B C H1 H2 m w. destruct (H1 m w), (H2 m w). split; [auto|]. intros Hw.
  destruct (H4 Hw); auto.
Qed.

Lemma release_handed A m i l : A m = (Some i, l) -> handed A (<[m := hand l]> A).
Proof.
  intros HA m' w. destruct (decide (m = m')) as [<-|]; [|rewrite fn_lookup_insert_ne by done; by split; [|left]].
  rewrite fn_lookup_insert, HA. destruct l as [|v l]; simpl; [done|]. split; [set_solver|]. intros [= ->]. right. left.
Qed.

Lemma leave_handed A m i o l1 l2 : A m = (o, l1 ++ i :: l2) -> handed A (<[m := (o, l1 ++ l2)]> A).
Proof.
  intros HA m' w. destruct (decide (m = m')) as [<-|]; [|rewrite fn_lookup_insert_ne by done; by split; [|left]].
  rewrite fn_lookup_insert, HA. simpl. split; [set_solver|by left].
Qed.

(** [pc]: the mutex in whose [kmutex_lock] a task is parked. *)
Definition parked_ok (A : locks) (pc : Z -> option Z) : Prop :=
  forall i m, (i ∈ (A m).2 -> pc i = Some m) /\ (pc i = Some m -> i ∈ (A m).2 \/ (A m).1 = Some i).

Lemma release_parked A pc m i l :
  parked_ok A pc -> A m = (Some i, l) -> pc i = None -> parked_ok (<[m := hand l]> A) pc.
Proof.
  intros Hp HA Hi j m'. destruct (Hp j m') as [H1 H2]. destruct (decide (m = m')) as [<-|];
    [|by rewrite fn_lookup_insert_ne].
  rewrite HA in *. simpl in *. rewrite fn_lookup_insert. destruct l as [|w l]; simpl.
  - split; [set_solver|]. intros Hj. destruct (H2 Hj) as [Hin|[= ->]]; [set_solver|congruence].
  - split; [intros Hj; apply H1; set_solver|]. intros Hj. destruct (H2 Hj) as [Hin|[= ->]]; [|congruence].
    apply elem_of_cons in Hin as [->|Hin]; [by right|by left].
Qed.

(** The steps as they are seen from outside: [i] takes a free mutex, joins the line of a
    mutex, comes out of [kmutex_lock] after a wait, gives a mutex back, ends. *)
Inductive lock_op :=
| Takes (i m : Z)
| Queues (i m : Z)
| Enters (i m : Z)
| Frees (i m : Z)
| Ends (i : Z)
| Elsewhere.

(** What a step does to a lock that serves in the order of arrival. *)
Definition serve (A : locks) (op : lock_op) : locks :=
  match op with
  | Takes i m => <[m := (Some i, (A m).2)]> A
  | Queues i m => <[m := ((A m).1, (A m).2 ++ [i])]> A
  | Frees i m => <[m := hand (A m).2]> A
  | Ends i => fun m => let l := filter (fun j => j <> i) (A m).2 in
                       if decide ((A m).1 = Some i) then hand l else ((A m).1, l)
  | Enters _ _ | Elsewhere => A
  end.

(** When the step may happen. *)
Definition may (A : locks) (op : lock_op) : Prop :=
  match op with
  | Takes i m => A m = (None, [])
  | Queues i m => (exists j, (A m).1 = Some j /\ j <> i) /\ forall m', i ∉ (A m').2
  | Enters i m | Frees i m => (A m).1 = Some i
  | Ends _ | Elsewhere => True
  end.

Definition served (ops : list lock_op) : locks := foldl serve no_locks ops.

Inductive in_order : list lock_op -> Prop :=
| in_order_nil : in_order []
| in_order_snoc ops op : in_order ops -> may (served ops) op -> in_order (ops ++ [op]).

Lemma serve_ext A B op m : (forall m, A m = B m) -> serve A op m = serve B op m.
Proof.
  intros He. destruct op as [i m'|i m'|i m'|i m'|i|]; simpl; rewrite ?He; try done;
    (destruct (decide (m' = m)) as [<-|]; [by rewrite !fn_lookup_insert|by rewrite !fn_lookup_insert_ne]).
Qed.

Lemma may_ext A B op : (forall m, A m = B m) -> may A op -> may B op.
Proof. intros He. destruct op; simpl; rewrite ?He; try done. intros [Hj Hi]. split; [done|]. intros m'. by rewrite <-He. Qed.

Lemma filter_absent (l : list Z) i : i ∉ l -> filter (fun j => j <> i) l = l.
Proof.
  induction l as [|x l IH]; [done|]. intros Hi. rewrite filter_cons_True by set_solver. by rewrite IH by set_solver.
Qed.

Lemma filter_leave (l1 l2 : list Z) i : i ∉ l1 -> i ∉ l2 -> filter (fun j => j <> i) (l1 ++ i :: l2) = l1 ++ l2.
Proof. intros. rewrite filter_app, filter_cons_False by tauto. by rewrite !filter_absent. Qed.

Section system.
Context {M : Type} `{!Space M}.
Context (task_reset_windows : Z -> K M unit) (wm_event_crash : Z -> Z -> Z -> K M unit)
  (tasks_init : registers_t -> K M registers_t) `{!QuietGui tasks_init task_reset_windows wm_event_crash}.
Implicit Types (k : kern M) (A : locks) (own : Z -> list Z) (pc : Z -> option Z).

Abbreviation mlock := (kmutex_lock task_reset_windows wm_event_crash tasks_init).
Abbreviation mresume := (kmutex_resume task_reset_windows wm_event_crash tasks_init).
Abbreviation munlock := (unlock task_reset_windows wm_event_crash tasks_init).
Abbreviation mcleanup := (ksync_cleanup_task task_reset_windows wm_event_crash tasks_init).

(** The kernel's steps: the calls of the current task, the end of a task, the creation of
    a mutex, and everything else the kernel does. *)
Inductive sstep : kern M * (Z -> option Z) -> lock_op -> kern M * (Z -> option Z) -> Prop :=
| s_lock k pc m k' : pc (current_task k) = None -> mlock m k = Ret tt k' ->
    sstep (k, pc) (Takes (current_task k) m) (k', pc)
| s_lock_wait k pc m k' : pc (current_task k) = None -> mlock m k = Away k' ->
    sstep (k, pc) (Queues (current_task k) m) (k', <[current_task k := Some m]> pc)
| s_resume k pc m k' : pc (current_task k) = Some m -> mresume m k = Ret tt k' ->
    sstep (k, pc) (Enters (current_task k) m) (k', <[current_task k := None]> pc)
| s_resume_wait k pc m k' : pc (current_task k) = Some m -> mresume m k = Away k' ->
    sstep (k, pc) Elsewhere (k', pc)
| s_unlock k pc m wake k' : pc (current_task k) = None ->
    munlock m wake k = Ret true k' \/ munlock m wake k = Away k' ->
    sstep (k, pc) (Frees (current_task k) m) (k', pc)
| s_unlock_not k pc m wake k' : pc (current_task k) = None -> munlock m wake k = Ret false k' ->
    sstep (k, pc) Elsewhere (k', pc)
| s_cleanup k pc i k' : mcleanup i k = Ret tt k' -> sstep (k, pc) (Ends i) (k', <[i := None]> pc)
| s_new k pc m : mutexes k !! m = None ->
    sstep (k, pc) Elsewhere (k <| mutexes := <[m := Kmutex None None None None]> (mutexes k) |>, pc)
| s_other k pc k' : same_sync k k' -> sstep (k, pc) Elsewhere (k', pc).

Inductive runs (s : kern M * (Z -> option Z)) : list lock_op -> kern M * (Z -> option Z) -> Prop :=
| runs_nil : runs s [] s
| runs_snoc ops s' op s'' : runs s ops s' -> sstep s' op s'' -> runs s (ops ++ [op]) s''.

(** The tasks that wait for a mutex, as the kernel finds them from the mutex on. *)
Fixpoint chain (n : nat) k (i : option Z) : list Z :=
  match n, i with
  | S n, Some i => i :: chain n k (zget (tasks k) i ≫= mutex_next_waiter)
  | _, _ => []
  end.
Definition waiting k (mx : kmutex_t) : list Z := chain (Z.to_nat TOTAL_TASKS) k (waiters mx).

(** The kernel state and the abstract locks. *)
Record refines (s : kern M * (Z -> option Z)) A : Prop := {
  rf_rep : exists own, srep s.1 A own;
  rf_len : zlen (tasks s.1) = TOTAL_TASKS;
  rf_idle : no_idle_lock A;
  rf_pc : parked_ok A s.2 }.

Lemma view_range k i : zlen (tasks k) = TOTAL_TASKS -> 0 <= i < TOTAL_TASKS ->
  exists t, zget (tasks k) i = Some t /\ view k i = Some (sync_of t).
Proof.
  intros Hl Hi. destruct (zget_is_Some (tasks k) i) as [t Ht]; [lia|]. exists t. split; [done|].
  unfold view. by rewrite Ht.
Qed.

Lemma release_step k pc A own i m l :
  srep k A own -> zlen (tasks k) = TOTAL_TASKS -> no_idle_lock A -> parked_ok A pc -> pc i = None ->
  A m = (Some i, l) -> exists mx, mutexes k !! m = Some mx /\
  no_idle_lock (<[m := hand l]> A) /\ parked_ok (<[m := hand l]> A) pc /\ astep A (<[m := hand l]> A).
Proof.
  intros Hr Hl Hf Hp Hi HA. assert (Hs : astep A (<[m := hand l]> A)) by (by apply (a_release A m i)).
  destruct (own_in k A own i m Hr) as [mx Hm]; [apply (r_owner _ _ _ _ Hr); by rewrite HA|].
  exists mx. split_and!; [done|by eapply astep_no_idle|by apply (release_parked A pc m i)|done].
Qed.

Lemma release_all_rep n i k A own pc :
  srep k A own -> zlen (tasks k) = TOTAL_TASKS -> no_idle_lock A -> parked_ok A pc -> pc i = None ->
  0 <= i < TOTAL_TASKS -> (length (own i) < n)%nat ->
  exists k' A', release_all task_reset_windows wm_event_crash tasks_init n i k = Ret tt k' /\
    reach astep A A' /\ refines (k', pc) A' /\ (forall m, (A' m).1 <> Some i) /\ handed A A' /\
    ((forall m, i ∉ (A m).2) -> forall m, A' m = if decide ((A m).1 = Some i) then hand (A m).2 else A m).
Proof.
  revert k A own. induction n as [|n IH]; intros k A own Hr Hl Hf Hp Hpc Hi Hn; [lia|]. cbn [release_all].
  destruct (view_range k i Hl Hi) as (t & Ht & Hv). kget Ht.
  pose proof (r_owned _ _ _ _ Hr _ _ _ _ Hv) as Ho. rewrite Ho.
  destruct (own i) as [|m o] eqn:Eo.
  { exists k, A. split; [done|]. split; [constructor|]. split; [by constructor; [exists own|..]|].
    assert (Hno : forall m, (A m).1 <> Some i).
    { intros m Hm. apply (r_owner _ _ _ _ Hr) in Hm. rewrite Eo in Hm. by apply not_elem_of_nil in Hm. }
    split_and!; [done|done|]. intros _ m. by rewrite decide_False. }
  assert (HA : (A m).1 = Some i) by (apply (r_owner _ _ _ _ Hr); rewrite Eo; left).
  destruct (A m) as [? l] eqn:EA. simpl in HA. subst.
  destruct (release_step k pc A own i m l Hr Hl Hf Hp Hpc EA) as (mx & Hm & Hf' & Hp' & Hs).
  destruct (release_rep task_reset_windows wm_event_crash tasks_init k i m mx A own l false Hr Hm EA)
    as (own' & k1 & Hr1 & Hfr & Hd1 & Hlen & _ & Hret).
  change (head (m :: o)) with (Some m). cbv iota. kret (Hret eq_refl). destruct (IH k1 _ own' Hr1) as (k' & A' & He & Hre & Hrf & Hno & Hh & Hfun); try done.
  { destruct Hfr. congruence. }
  { rewrite Eo in Hlen. simpl in *. lia. }
  exists k', A'. split; [done|]. split; [|split_and!; [done|done| |]].
  - eapply reach_trans; [|exact Hre]. econstructor; [constructor|done].
  - etransitivity; [by apply (release_handed A m i)|done].
  - intros Hi' m'. pose proof (release_handed A m i l EA) as Hh1. rewrite Hfun.
    2: { intros m2 Hm2. apply (Hi' m2). by apply (Hh1 m2 i). }
    destruct (decide (m = m')) as [<-|Hmm]; [|by rewrite fn_lookup_insert_ne].
    rewrite fn_lookup_insert, EA, (decide_True (P := (Some i, l).1 = Some i)) by done.
    specialize (Hi' m). rewrite EA in Hi'. rewrite decide_False; [done|].
    destruct l as [|v l]; simpl in *; [done|]. intros [= ->]. set_solver.
Qed.

(** The end of a task: it leaves the queue it waits in and releases what it owns. *)
Lemma cleanup_rep k A pc i :
  refines (k, pc) A -> 0 <= i < TOTAL_TASKS ->
  exists k' A', mcleanup i k = Ret tt k' /\ reach astep A A' /\ refines (k', <[i := None]> pc) A' /\
    (forall m, (A' m).1 <> Some i) /\ handed A A' /\ (forall m, A' m = serve A (Ends i) m).
Proof.
  intros [[own Hr] Hl Hf Hp] Hi. simpl in *.
  destruct (view_range k i Hl Hi) as (t & Ht & Hv). unfold ksync_cleanup_task. kget Ht.
  assert (Hleave : exists k1 A1, match t_mutex t with Some m => leave_queue i m | None => mret tt end k = Ret tt k1 /\
    reach astep A A1 /\ handed A A1 /\ srep k1 A1 own /\ zlen (tasks k1) = TOTAL_TASKS /\ no_idle_lock A1 /\
    parked_ok A1 (<[i := None]> pc) /\
    (forall m, (A1 m).1 = (A m).1 /\ (A1 m).2 = filter (fun j => j <> i) (A m).2)).
  { destruct (t_mutex t) as [m|] eqn:Et.
    - assert (Hin : i ∈ (A m).2).
      { apply (r_waits _ _ _ _ Hr). rewrite Hv. unfold sync_of. rewrite Et. eauto. }
      apply list_elem_of_split in Hin as (l1 & l2 & HA2). destruct (A m) as [o l] eqn:EA. simpl in HA2. subst l.
      assert (Hm : is_Some (mutexes k !! m)).
      { apply not_eq_None_Some. intros Hn. apply (r_absent _ _ _ _ Hr) in Hn. rewrite EA in Hn.
        by destruct l1. }
      destruct Hm as [mx Hm].
      destruct (leave_rep k i m mx A own o l1 l2 Hl Hr Hm EA) as (k1 & He & Hfr & Hr1 & _).
      assert (Hs : astep A (<[m := (o, l1 ++ l2)]> A)) by (by apply (a_leave A m i)).
      exists k1, (<[m := (o, l1 ++ l2)]> A). split; [done|].
      split; [econstructor; [constructor|done]|]. split; [by apply (leave_handed A m i)|].
      split; [done|]. split; [destruct Hfr; congruence|]. split; [by eapply astep_no_idle|].
      pose proof (r_line_nodup _ _ _ _ Hr m) as Hnd. rewrite EA in Hnd. destruct (NoDup_unlink _ _ _ Hnd) as (_ & Hi1 & Hi2).
      split.
      2: { intros m'. destruct (decide (m = m')) as [<-|Hmm].
           - rewrite fn_lookup_insert, EA. simpl. by rewrite filter_leave.
           - rewrite fn_lookup_insert_ne by done. split; [done|]. symmetry. apply filter_absent.
             intros Hj. apply (r_waits _ _ _ _ Hr) in Hj as (n & o' & Hj).
             rewrite Hv in Hj. unfold sync_of in Hj. congruence. }
      intros j m'.
      destruct (Hp j m') as [H1 H2]. destruct (decide (i = j)) as [<-|Hij].
      + rewrite fn_lookup_insert. split; [|done]. destruct (decide (m = m')) as [<-|Hmm].
        * rewrite fn_lookup_insert. simpl. set_solver.
        * rewrite fn_lookup_insert_ne by done. intros Hj. apply (r_waits _ _ _ _ Hr) in Hj as (n & o' & Hj).
          rewrite Hv in Hj. unfold sync_of in Hj. congruence.
      + rewrite (fn_lookup_insert_ne pc) by done. destruct (decide (m = m')) as [<-|Hmm];
          [|by rewrite fn_lookup_insert_ne by done].
        rewrite fn_lookup_insert, EA in *. simpl in *. split; [intros; apply H1; set_solver|].
        intros Hj. destruct (H2 Hj) as [Hin|]; [left; set_solver|by right].
    - assert (Hnot : forall m', i ∉ (A m').2).
      { intros m' Hj. apply (r_waits _ _ _ _ Hr) in Hj as (n & o' & Hj).
        rewrite Hv in Hj. unfold sync_of in Hj. congruence. }
      exists k, A. split; [done|]. split; [constructor|]. split; [done|]. split_and!; try done.
      2: { intros m'. by rewrite filter_absent. }
      intros j m'. destruct (Hp j m') as [H1 H2]. destruct (decide (i = j)) as [<-|]; [|by rewrite fn_lookup_insert_ne].
      rewrite fn_lookup_insert. split; [|done]. intros Hj. by destruct (Hnot m'). }
  destruct Hleave as (k1 & A1 & He1 & Hre1 & Hh1 & Hr1 & Hl1 & Hf1 & Hp1 & Hfun1). kret He1. rewrite bind_gets.
  destruct (release_all_rep (S (size (mutexes k1))) i k1 A1 own (<[i := None]> pc) Hr1 Hl1 Hf1 Hp1)
    as (k2 & A2 & He2 & Hre2 & Hrf2 & Hno2 & Hh2 & Hfun2); [apply fn_lookup_insert|done| |].
  { pose proof (own_length k1 A1 own i Hr1). lia. }
  exists k2, A2. split; [done|]. split; [by eapply reach_trans|]. split; [done|]. split; [done|].
  split; [by etransitivity|]. intros m. destruct (Hfun1 m) as [E1 E2]. rewrite Hfun2.
  - simpl. rewrite E1, E2. case_decide; [done|]. rewrite (surjective_pairing (A1 m)). by rewrite E1, E2.
  - intros m' Hm'. rewrite (proj2 (Hfun1 m')) in Hm'. apply list_elem_of_filter in Hm' as [? _]. done.
Qed.

(** A call that yields does not return before its task is resumed. *)
Definition returns {B} (P : B -> Prop) (m : K M B) : Prop := forall k b k', m k = Ret b k' -> P b.

Lemma returns_bind {B C} (Q : B -> Prop) (P : C -> Prop) (m : K M B) (f : B -> K M C) :
  returns Q m -> (forall b, Q b -> returns P (f b)) -> returns P (m ≫= f).
Proof.
  intros Hm Hf k c k'. unfold mbind, K_mbind. destruct (m k) as [b k1| | | |] eqn:E; try done.
  intros He. by eapply Hf; [eapply Hm|].
Qed.

Lemma returns_any {B C} (P : C -> Prop) (m : K M B) (f : B -> K M C) :
  (forall b, returns P (f b)) -> returns P (m ≫= f).
Proof. intros Hf. apply (returns_bind (fun _ => True)); [done|auto]. Qed.

Lemma returns_ret {B} (P : B -> Prop) b : P b -> returns P (mret b : K M B).
Proof. intros Hb k b' k' He. unfold mret, K_mret in He. by simplify_eq. Qed.

Lemma yield_to_false i :
  returns (fun b => b = false) (kernel_yield_to tasks_init task_reset_windows wm_event_crash i).
Proof.
  unfold kernel_yield_to.
  repeat (apply returns_any; intros ?) || (case_match; try by apply returns_ret) || (by intros ? ? ? ?).
  all: repeat (apply returns_any; intros ?); try case_match;
    repeat (apply returns_any; intros ?); try (by apply returns_ret); by intros ? ? ? ?.
Qed.

Lemma block_away : returns (fun _ => False) (kernel_block tasks_init task_reset_windows wm_event_crash).
Proof.
  unfold kernel_block. apply (returns_bind (fun b => b = false)); [|by intros b -> ? ? ?].
  unfold kernel_yield. apply returns_any. intros next. generalize (Z.to_nat TOTAL_TASKS + 1)%nat. intros n.
  revert next. induction n as [|n IH]; intros next; cbn [kernel_yield_loop]; [by intros ? ? ?|].
  case_match; [by apply returns_ret|]. apply (returns_bind (fun b => b = false)); [apply yield_to_false|].
  intros b ->. apply returns_any. intros n2. case_match; [by apply returns_ret|apply IH].
Qed.

Lemma park_away : returns (fun _ => False) (kmutex_park task_reset_windows wm_event_crash tasks_init).
Proof.
  unfold kmutex_park. do 2 (apply returns_any; intros ?). apply block_away.
Qed.

Lemma park_rep k0 k A own : locked k0 A own k ->
  ends (kmutex_park task_reset_windows wm_event_crash tasks_init k) (locked k0 A own).
Proof. intros Hl. apply ends_keeps; [|done]. apply quiet_sync. unfold kmutex_park, get_current_task. keeps. Qed.

(** What a waiting step leaves: the current task is in the line of [m]. *)
Lemma wait_refines k A pc m k' j l :
  refines (k, pc) A -> A m = (Some j, l) -> current_task k <> j ->
  (forall m', current_task k ∉ (A m').2) -> zget (tasks k) (current_task k) <> None ->
  kmutex_wait task_reset_windows wm_event_crash tasks_init m k = Away k' ->
  astep A (serve A (Queues (current_task k) m)) /\
  refines (k', <[current_task k := Some m]> pc) (serve A (Queues (current_task k) m)).
Proof.
  intros [[own Hr] Hl Hf Hp] HA Hj Hnot Ht Hrun. simpl in *. set (cur := current_task k) in *.
  assert (Hv : exists n o, view k cur = Some (None, n, o)).
  { unfold view in *. destruct (zget (tasks k) cur) as [t|] eqn:Et; [|done]. simpl. unfold sync_of.
    destruct (t_mutex t) as [m'|] eqn:Em; [|eauto]. exfalso. apply (Hnot m'). apply (r_waits _ _ _ _ Hr).
    unfold view. rewrite Et. simpl. unfold sync_of. rewrite Em. eauto. }
  destruct Hv as (n & o & Hv).
  assert (Hm : is_Some (mutexes k !! m)).
  { apply not_eq_None_Some. intros Hn. apply (r_absent _ _ _ _ Hr) in Hn. congruence. }
  destruct Hm as [mx Hm].
  destruct (enqueue_rep k m mx A own j l n o Hr Hm HA Hj Hv) as (k1 & He & Hf1 & Hr1).
  unfold kmutex_wait in Hrun. rewrite (bind_Ret _ _ _ _ _ He) in Hrun.
  pose proof (park_rep k k1 _ own (conj Hr1 (proj2 Hf1))) as Hpk. rewrite Hrun in Hpk. destruct Hpk as [Hr2 Hl2].
  assert (Hs : astep A (<[m := (Some j, l ++ [cur])]> A)) by by apply a_wait.
  simpl. rewrite HA. simpl. fold cur.
  split; [exact Hs|]. constructor; simpl; [by eexists|congruence|by eapply astep_no_idle|].
  intros i m'. destruct (Hp i m') as [H1 H2]. destruct (decide (cur = i)) as [<-|Hci].
  - rewrite (fn_lookup_insert pc). split.
    + destruct (decide (m = m')) as [<-|Hmm]; [done|]. rewrite fn_lookup_insert_ne by done.
      intros Hin. by destruct (Hnot m').
    + intros [= <-]. rewrite fn_lookup_insert. simpl. left. set_solver.
  - rewrite (fn_lookup_insert_ne pc) by done. destruct (decide (m = m')) as [<-|Hmm];
      [|by rewrite fn_lookup_insert_ne by done].
    rewrite HA in *. rewrite fn_lookup_insert. simpl in *. split; [intros; apply H1; set_solver|].
    intros Hin. destruct (H2 Hin); [left; set_solver|by right].
Qed.

Lemma cur_task k B (f : task_state_t -> K M B) k' :
  goes_on ((get_task (current_task k) ≫= f) k) k' ->
  exists t, zget (tasks k) (current_task k) = Some t /\ goes_on (f t k) k'.
Proof.
  unfold mbind, K_mbind, get_task, deref. destruct (zget _ _) as [t|]; simpl; [eauto|].
  intros [[? ?]|?]; done.
Qed.

(** The owner of a mutex that exists. *)
Lemma lock_state k A pc m mx own : srep k A own -> mutexes k !! m = Some mx -> no_idle_lock A ->
  match owner mx with Some j => exists l, A m = (Some j, l) | None => A m = (None, []) end.
Proof.
  intros Hr Hm Hf. destruct (r_mutex _ _ _ _ Hr _ _ Hm) as [-> _]. specialize (Hf m).
  destruct (A m) as [[j|] l]; simpl in *; [eauto|]. by rewrite Hf.
Qed.

Lemma lock_refines k A pc m :
  refines (k, pc) A -> pc (current_task k) = None ->
  (forall k', mlock m k = Ret tt k' -> let op := Takes (current_task k) m in
     may A op /\ astep A (serve A op) /\ refines (k', pc) (serve A op)) /\
  (forall k', mlock m k = Away k' -> let op := Queues (current_task k) m in
     may A op /\ astep A (serve A op) /\ refines (k', <[current_task k := Some m]> pc) (serve A op)).
Proof.
  intros Hrf Hpc. pose proof Hrf as [[own Hr] Hl Hf Hp]. simpl in *. set (cur := current_task k) in *.
  assert (Hnot : forall m', cur ∉ (A m').2).
  { intros m' Hin. apply (Hp cur m') in Hin. congruence. }
  unfold kmutex_lock, get_current_task. rewrite bind_gets. fold cur.
  destruct (zget (tasks k) cur) as [t|] eqn:Ht.
  2: { unfold mbind, K_mbind, get_task. rewrite Ht. done. }
  kget Ht. destruct (in_syscall t); [|done]. cbn [negb].
  destruct (mutexes k !! m) as [mx|] eqn:Hm.
  2: { unfold mbind, K_mbind, get_mutex. rewrite Hm. done. }
  kret (get_mutex_Some _ _ _ Hm). pose proof (lock_state k A pc m mx own Hr Hm Hf) as Hst.
  case_bool_decide as Ho1; [done|]. case_bool_decide as Ho2.
  - rewrite Ho2 in Hst.
    assert (Hv : view k cur = Some (sync_of t)) by (unfold view; by rewrite Ht).
    destruct (claim_rep k cur m _ _ _ mx A own [] Hr Hst ltac:(set_solver) Hv Hm) as (k1 & He & Hf1 & Hd1 & Hr1).
    rewrite He. split; [|done]. intros k' [= <-].
    assert (Hs : astep A (<[m := (Some cur, [])]> A)) by by apply a_claim.
    cbn [may serve]. fold cur. rewrite Hst. cbn [snd]. split; [done|]. split; [done|].
    constructor; simpl; [by eexists|destruct Hf1; congruence|by eapply astep_no_idle|].
    intros i m'. destruct (Hp i m') as [H1 H2]. destruct (decide (m = m')) as [<-|Hmm];
      [|by rewrite fn_lookup_insert_ne by done].
    rewrite Hst in *. rewrite fn_lookup_insert. simpl in *. split; [set_solver|]. intros Hin.
    destruct (H2 Hin); [set_solver|done].
  - destruct (owner mx) as [j|] eqn:Eo; [|done]. destruct Hst as [l HA]. split; intros k' Hrun.
    + exfalso. unfold kmutex_wait in Hrun. revert Hrun. unfold mbind, K_mbind.
      destruct (kmutex_enqueue m k) as [[] k1| | | |]; try done. apply park_away.
    + cbn zeta. split; [split; [exists j; rewrite HA; split; [done|congruence]|done]|].
      apply (wait_refines k A pc m k' j l); try done; [fold cur; congruence|fold cur; by rewrite Ht].
Qed.

Lemma resume_refines k A pc m :
  refines (k, pc) A -> pc (current_task k) = Some m ->
  (forall k', mresume m k = Ret tt k' -> k' = k /\ (A m).1 = Some (current_task k) /\
     refines (k, <[current_task k := None]> pc) A) /\
  (forall k', mresume m k = Away k' -> refines (k', pc) A).
Proof.
  intros Hrf Hpc. pose proof Hrf as [[own Hr] Hl Hf Hp]. simpl in *. set (cur := current_task k) in *.
  unfold kmutex_resume, get_current_task. rewrite bind_gets. fold cur.
  destruct (zget (tasks k) cur) as [t|] eqn:Ht.
  2: { unfold mbind, K_mbind, get_task. rewrite Ht. done. }
  kget Ht. case_bool_decide as Hw.
  - split; intros k' Hrun; [by apply park_away in Hrun|].
    pose proof (park_rep k k A own (conj Hr eq_refl)) as Hpk. rewrite Hrun in Hpk. destruct Hpk as [Hr2 Hl2].
    constructor; simpl; [by eexists|congruence|done|done].
  - assert (Hnot : forall m', cur ∉ (A m').2).
    { intros m' Hin. apply (r_waits _ _ _ _ Hr) in Hin as (n & o & Hv). unfold view in Hv. rewrite Ht in Hv.
      simpl in Hv. unfold sync_of in Hv. destruct (t_mutex t); [done|done]. }
    assert (HA : (A m).1 = Some cur).
    { destruct (Hp cur m) as [_ H2]. destruct (H2 Hpc) as [Hin|]; [by destruct (Hnot m)|done]. }
    destruct (mutexes k !! m) as [mx|] eqn:Hm.
    2: { unfold mbind, K_mbind, get_mutex. rewrite Hm. done. }
    kret (get_mutex_Some _ _ _ Hm). destruct (r_mutex _ _ _ _ Hr _ _ Hm) as [-> _].
    rewrite bool_decide_false by (rewrite HA; tauto). split; [|done]. intros k' [= <-]. split; [done|].
    split; [done|]. constructor; simpl; [by eexists|done|done|]. intros i m'. destruct (Hp i m') as [H1 H2].
    destruct (decide (cur = i)) as [<-|]; [|by rewrite fn_lookup_insert_ne].
    rewrite fn_lookup_insert. split; [|done]. intros Hin. by destruct (Hnot m').
Qed.

Lemma unlock_refines k A pc m wake k' :
  refines (k, pc) A -> pc (current_task k) = None ->
  (munlock m wake k = Ret false k' -> k' = k) /\
  (munlock m wake k = Ret true k' \/ munlock m wake k = Away k' -> let op := Frees (current_task k) m in
   may A op /\ astep A (serve A op) /\ refines (k', pc) (serve A op)).
Proof.
  intros Hrf Hpc. pose proof Hrf as [[own Hr] Hl Hf Hp]. simpl in *. set (cur := current_task k) in *.
  unfold unlock, get_current_task. rewrite bind_gets. fold cur.
  destruct (mutexes k !! m) as [mx|] eqn:Hm.
  2: { unfold mbind, K_mbind, get_mutex. rewrite Hm. split; [done|by intros []]. }
  kret (get_mutex_Some _ _ _ Hm). case_bool_decide as Ho; [split; [by intros [= <-]|by intros []]|].
  assert (HA : (A m).1 = Some cur).
  { destruct (r_mutex _ _ _ _ Hr _ _ Hm) as [Ho' _]. rewrite Ho' in Ho. by destruct (decide ((A m).1 = Some cur)). }
  destruct (A m) as [o l] eqn:EA. simpl in HA. subst o.
  destruct (release_step k pc A own cur m l Hr Hl Hf Hp Hpc EA) as (mx' & _ & Hf' & Hp' & Hs).
  destruct (release_rep task_reset_windows wm_event_crash tasks_init k cur m mx A own l wake Hr Hm EA)
    as (own' & k1 & _ & _ & _ & _ & He & _).
  revert He. unfold mbind, K_mbind.
  destruct (kmutex_release _ _ _ cur m wake k) as [[] k2|k2| | |]; simpl; intros He;
    (split; [done|]); first [by intros []|intros [[= <-]|[= <-]]].
  all: destruct He as [Hr2 Hl2]; split; [done|]; split; [done|];
    constructor; simpl; [by eexists|congruence|done|done].
Qed.

Lemma refines_ext s A B : (forall m, A m = B m) -> refines s A -> refines s B.
Proof.
  intros He [[own Hr] Hl Hf Hp]. constructor; [|done|intros m; rewrite <-He; apply Hf|].
  - exists own. by eapply rep_ext.
  - intros i m. rewrite <-He. apply Hp.
Qed.

Lemma sstep_refines s op s' A : refines s A -> sstep s op s' ->
  may A op /\ exists A', reach astep A A' /\ (forall m, A' m = serve A op m) /\ refines s' A'.
Proof.
  intros Hrf Hs. destruct Hs as [k pc m k' Hpc Hrun|k pc m k' Hpc Hrun|k pc m k' Hpc Hrun|k pc m k' Hpc Hrun
    |k pc m wake k' Hpc Hrun|k pc m wake k' Hpc Hrun|k pc i k' Hrun|k pc m Hm|k pc k' Hk].
  1: destruct (proj1 (lock_refines k A pc m Hrf Hpc) k' Hrun) as (Hop & Ha & Hr).
  2: destruct (proj2 (lock_refines k A pc m Hrf Hpc) k' Hrun) as (Hop & Ha & Hr).
  5: destruct (proj2 (unlock_refines k A pc m wake k' Hrf Hpc) Hrun) as (Hop & Ha & Hr).
  1,2,5: split; [done|]; eexists; split; [econstructor; [constructor|exact Ha]|done].
  3: rewrite (proj1 (unlock_refines k A pc m wake k' Hrf Hpc) Hrun).
  4: { assert (Hi : 0 <= i < TOTAL_TASKS).
       { rewrite <-(rf_len _ _ Hrf). simpl. unfold ksync_cleanup_task, mbind, K_mbind, get_task, deref in Hrun.
         destruct (zget (tasks k) i) eqn:E; [by eapply zget_Some_range|done]. }
       destruct (cleanup_rep k A pc i Hrf Hi) as (k1 & A' & He & Ha & Hr & _ & _ & Hfun). rewrite He in Hrun.
       simplify_eq. split; [done|]. by exists A'. }
  1: destruct (proj1 (resume_refines k A pc m Hrf Hpc) k' Hrun) as (-> & HA & Hr).
  all: split; [done|exists A; split; [constructor|]; split; [done|]].
  - done.
  - by apply (resume_refines k A pc m Hrf Hpc).
  - done.
  - destruct Hrf as [[own Hr] Hl Hf Hp]. simpl in *.
    constructor; simpl; [|done..]. exists own. destruct Hr as [R1 R2 R3 R4 R5 R6 R7 R8 R9 R10 R11].
    constructor; try done; simpl.
    + intros m' mx Hx. destruct (decide (m = m')) as [<-|]; [|rewrite lookup_insert_ne in Hx by done; eauto].
      rewrite lookup_insert_eq in Hx. simplify_eq. by rewrite (R2 _ Hm).
    + intros m' Hx. apply lookup_insert_None in Hx as [Hx _]. eauto.
    + intros i. apply (linked_ext (mnext (mutexes k))); [done|]. intros x Hx. unfold mnext.
      rewrite lookup_insert_ne; [done|]. intros ->. apply R7 in Hx. by rewrite (R2 _ Hm) in Hx.
  - destruct Hrf as [[own Hr] Hl Hf Hp]. simpl in *.
    constructor; simpl; [|by rewrite (same_sync_len k)|done|done]. exists own. by eapply srep_same.
Qed.

(** A kernel in which no mutex is used yet. *)
Record fresh k : Prop := {
  fr_len : zlen (tasks k) = TOTAL_TASKS;
  fr_task i t : zget (tasks k) i = Some t -> t_mutex t = None /\ owned_mutexes t = None;
  fr_mutex m mx : mutexes k !! m = Some mx -> mx = Kmutex None None None None }.

Lemma fresh_refines k : fresh k -> refines (k, fun _ => None) no_locks.
Proof.
  intros [Hl Ht Hm]. constructor; simpl; [|done|done|].
  2: { intros i m. simpl. split; [set_solver|done]. }
  assert (Hv : forall i w n o, view k i = Some (w, n, o) -> w = None /\ o = None).
  { intros i w n o Hv. destruct (view_task _ _ _ _ _ Hv) as (t & Hi & <- & _ & <-). by eapply Ht. }
  exists (fun _ => []). constructor; simpl; try done.
  - intros m mx Hx. by rewrite (Hm m mx Hx).
  - intros m i. split; [set_solver|]. intros (n & o & Hi). by destruct (Hv _ _ _ _ Hi).
  - intros i w n o Hi. by destruct (Hv _ _ _ _ Hi).
  - intros m i. split; [done|set_solver].
  - intros i m Hi. set_solver.
  - intros i. constructor.
  - intros m. constructor.
Qed.

Lemma runs_refines k ops pc s : fresh k -> runs (k, fun _ => None) ops (s, pc) ->
  in_order ops /\ exists A, reach astep no_locks A /\ (forall m, A m = served ops m) /\ refines (s, pc) A.
Proof.
  intros Hk Hr. remember (s, pc) as s' eqn:Es. clear Es. induction Hr as [|ops s1 op s2 Hr IH Hs].
  - split; [constructor|]. exists no_locks. split; [constructor|]. split; [done|by apply fresh_refines].
  - destruct IH as (Hin & A & Ha & HA & Hrf). destruct (sstep_refines _ _ _ _ Hrf Hs) as (Hop & A' & Ha' & HA' & Hrf').
    split; [constructor; [done|]; by apply (may_ext A)|]. exists A'. split; [by eapply reach_trans|]. split; [|done].
    intros m. unfold served. rewrite foldl_snoc, HA'. by apply serve_ext.
Qed.

(** The chain from the mutex on is the line. *)
Lemma chain_linked k n l :
  linked (vnext (view k)) l -> (length l <= n)%nat -> chain n k (head l) = l.
Proof.
  revert l. induction n as [|n IH]; intros [|i l]; simpl; try done; [lia|]. intros [Hi Hl] Hn. f_equal.
  transitivity (chain n k (head l)); [|apply IH; [done|lia]]. f_equal. rewrite <-Hi. unfold vnext, view. by destruct (zget (tasks k) i).
Qed.

(** ** Theorems *)

(** C2: kernel mutexes serve first come first served. Label the calls of a history in any
    order of locks, unlocks, switches, early wakes and ends of tasks by what they do: a task
    takes a free mutex, queues, comes out of [kmutex_lock] after the wait, frees a mutex,
    ends. These operations, run on lists with one owner to a mutex, where who queues goes
    to the end and a release makes the head of the list the owner, are all allowed where
    they happen, and they give the owner of each mutex and the tasks that its chain of
    waiters links, in the same order. A task comes out of [kmutex_lock] only as the owner;
    it waits for one mutex at most and never for its own; a mutex with waiters has an
    owner. *)
Theorem mutex_refines_fifo k0 ops k pc :
  fresh k0 -> runs (k0, fun _ => None) ops (k, pc) ->
  let A := served ops in
  in_order ops /\
  (forall m mx, mutexes k !! m = Some mx ->
     owner mx = (A m).1 /\ waiting k mx = (A m).2 /\ waiters_tail mx = last (A m).2) /\
  (forall i t m, zget (tasks k) i = Some t -> (t_mutex t = Some m <-> i ∈ (A m).2)) /\
  (forall m, NoDup (A m).2) /\ (forall m i, (A m).1 = Some i -> i ∉ (A m).2) /\
  (forall m, (A m).1 = None -> (A m).2 = []).
Proof.
  intros Hk Hr A. destruct (runs_refines k0 ops pc k Hk Hr) as (Hin & B & _ & HB & Hrf).
  apply (refines_ext _ B A HB) in Hrf. destruct Hrf as [[own Hrep] Hl Hf _]. simpl in *.
  split_and!; [done| | |apply (r_line_nodup _ _ _ _ Hrep)|apply (r_distinct _ _ _ _ Hrep)|done].
  - intros m mx Hm. destruct (r_mutex _ _ _ _ Hrep _ _ Hm) as (Ho & Hw & Ht). split_and!; [done| |done].
    unfold waiting. rewrite Hw. apply chain_linked; [apply (r_line _ _ _ _ Hrep)|]. by apply (queue_length k m A own).
  - intros i t m Ht. rewrite (r_waits _ _ _ _ Hrep). unfold view. rewrite Ht. simpl. unfold sync_of.
    split; [intros ->; eauto|intros (n & o & ?); by simplify_eq].
Qed.

(** In every reachable state, [kmutex_lock] returns only to the owner of the mutex,
    whether it found it free or was parked and resumed, and when a task ends the cleanup of
    its locks returns, leaving it the owner of no mutex and in no queue. *)
Theorem mutex_lock_and_end k0 ops k pc :
  fresh k0 -> runs (k0, fun _ => None) ops (k, pc) ->
  (forall m k', (pc (current_task k) = None /\ mlock m k = Ret tt k') \/
                (pc (current_task k) = Some m /\ mresume m k = Ret tt k') ->
     exists mx, mutexes k' !! m = Some mx /\ owner mx = Some (current_task k)) /\
  (forall i, 0 <= i < TOTAL_TASKS -> exists k', mcleanup i k = Ret tt k' /\
     (forall m mx, mutexes k' !! m = Some mx -> owner mx <> Some i) /\
     (forall t, zget (tasks k') i = Some t -> t_mutex t = None /\ owned_mutexes t = None)).
Proof.
  intros Hk Hr. destruct (runs_refines k0 ops pc k Hk Hr) as (_ & A & _ & _ & Hrf).
  assert (Hown : forall k' pc' A' m i, refines (k', pc') A' -> (A' m).1 = Some i ->
    exists mx, mutexes k' !! m = Some mx /\ owner mx = Some i).
  { intros k' pc' A' m i [[own Hrep] _ _ _] HA. simpl in *.
    destruct (mutexes k' !! m) as [mx|] eqn:Hm.
    - exists mx. split; [done|]. destruct (r_mutex _ _ _ _ Hrep _ _ Hm) as [-> _]. done.
    - apply (r_absent _ _ _ _ Hrep) in Hm. by rewrite Hm in HA. }
  split.
  - intros m k' [[Hpc Hrun]|[Hpc Hrun]].
    + destruct (proj1 (lock_refines k A pc m Hrf Hpc) k' Hrun) as (_ & _ & Hrf').
      eapply Hown; [exact Hrf'|]. simpl. by rewrite fn_lookup_insert.
    + destruct (proj1 (resume_refines k A pc m Hrf Hpc) k' Hrun) as (-> & HA & Hrf'). by eapply Hown.
  - intros i Hi. destruct (cleanup_rep k A pc i Hrf Hi) as (k' & A' & He & _ & [[own Hrep] Hl Hf Hp] & Hno & _).
    simpl in *. exists k'. split; [done|]. split.
    + intros m mx Hm. destruct (r_mutex _ _ _ _ Hrep _ _ Hm) as [-> _]. apply Hno.
    + intros t Ht. assert (Hv : view k' i = Some (sync_of t)) by (unfold view; by rewrite Ht). split.
      * destruct (t_mutex t) as [m|] eqn:Em; [|done]. exfalso.
        destruct (Hp i m) as [H1 _]. rewrite fn_lookup_insert in H1. discriminate H1.
        apply (r_waits _ _ _ _ Hrep). rewrite Hv. unfold sync_of. rewrite Em. eauto.
      * rewrite (r_owned _ _ _ _ Hrep _ _ _ _ Hv). destruct (own i) as [|m o] eqn:Eo; [done|]. exfalso.
        apply (Hno m). apply (r_owner _ _ _ _ Hrep). rewrite Eo. left.
Qed.

End system.

(** ** Witnesses *)

(** Task 1 locks the mutex at 64, tasks 2 and 0 queue for it, task 1 unlocks it. *)
Definition at_task (i : Z) (k : kern flat) : kern flat :=
  k <| current_task := i |> <| k_esp := 0x10000 * (i + 1) - 100 |>.
Definition state_of {A} (r : res flat A) : kern flat :=
  match r with Ret _ k | Away k => k | _ => demo_kern 0 end.
Definition demo_lock (k : kern flat) : kern flat := state_of (kmutex_lock no_reset no_crash no_init 64 k).

Definition lock_0 : kern flat := demo_kern 1.
Definition lock_1 : kern flat := lock_0 <| mutexes := <[64 := Kmutex None None None None]> (mutexes lock_0) |>.
Definition lock_2 : kern flat := demo_lock lock_1.
Definition lock_3 : kern flat := at_task 2 lock_2.
Definition lock_4 : kern flat := demo_lock lock_3.
Definition lock_5 : kern flat := at_task 0 lock_4.
Definition lock_6 : kern flat := demo_lock lock_5.
Definition lock_7 : kern flat := at_task 1 lock_6.
Definition lock_8 : kern flat := state_of (unlock no_reset no_crash no_init 64 false lock_7).
Definition lock_9 : kern flat := at_task 2 lock_8.

Definition lock_pc : Z -> option Z := <[0 := Some 64]> (<[2 := Some 64]> (fun _ => None)).
Definition lock_ops : list lock_op :=
  [Elsewhere; Takes 1 64; Elsewhere; Queues 2 64; Elsewhere; Queues 0 64; Elsewhere; Frees 1 64; Elsewhere].

Lemma lock_0_fresh : fresh lock_0.
Proof.
  constructor; [done| |].
  - intros i t Ht. list_cases Ht; done.
  - intros m mx Hm. vm_compute in Hm. by destruct m.
Qed.

Lemma lock_calls :
  kmutex_lock no_reset no_crash no_init 64 lock_1 = Ret tt lock_2 /\
  kmutex_lock no_reset no_crash no_init 64 lock_3 = Away lock_4 /\
  kmutex_lock no_reset no_crash no_init 64 lock_5 = Away lock_6 /\
  unlock no_reset no_crash no_init 64 false lock_7 = Ret true lock_8.
Proof. split_and!; vm_compute; reflexivity. Qed.

Lemma lock_switches :
  same_sync lock_2 lock_3 /\ same_sync lock_4 lock_5 /\ same_sync lock_6 lock_7 /\ same_sync lock_8 lock_9.
Proof. split_and!; by split. Qed.

Lemma lock_tasks : current_task lock_1 = 1 /\ current_task lock_3 = 2 /\ current_task lock_5 = 0 /\ current_task lock_7 = 1.
Proof. split_and!; vm_compute; reflexivity. Qed.

#[local] Opaque lock_2 lock_3 lock_4 lock_5 lock_6 lock_7 lock_8 lock_9.

Lemma lock_runs : runs no_reset no_crash no_init (lock_0, fun _ => None) lock_ops (lock_9, lock_pc).
Proof.
  destruct lock_calls as (C1 & C3 & C5 & C7), lock_switches as (W2 & W4 & W6 & W8), lock_tasks as (T1 & T3 & T5 & T7).
  set (pc0 := (fun _ => None) : Z -> option Z). set (pc2 := <[2 := Some 64]> pc0).
  assert (R1 : runs no_reset no_crash no_init (lock_0, pc0) [Elsewhere; Takes 1 64] (lock_2, pc0)).
  { apply (runs_snoc _ _ _ _ [Elsewhere] (lock_1, pc0)).
    - apply (runs_snoc _ _ _ _ [] (lock_0, pc0)); [constructor|]. by apply s_new.
    - rewrite <-T1. by apply s_lock. }
  assert (R2 : runs no_reset no_crash no_init (lock_0, pc0) [Elsewhere; Takes 1 64; Elsewhere; Queues 2 64] (lock_4, pc2)).
  { apply (runs_snoc _ _ _ _ [_; _; _] (lock_3, pc0)).
    - apply (runs_snoc _ _ _ _ [_; _] (lock_2, pc0)); [done|]. by apply s_other.
    - unfold pc2. rewrite <-T3. by apply s_lock_wait. }
  assert (R3 : runs no_reset no_crash no_init (lock_0, pc0)
    [Elsewhere; Takes 1 64; Elsewhere; Queues 2 64; Elsewhere; Queues 0 64] (lock_6, lock_pc)).
  { apply (runs_snoc _ _ _ _ [_; _; _; _; _] (lock_5, pc2)).
    - apply (runs_snoc _ _ _ _ [_; _; _; _] (lock_4, pc2)); [done|]. by apply s_other.
    - unfold lock_pc. rewrite <-T5. apply s_lock_wait; [by rewrite T5|done]. }
  apply (runs_snoc _ _ _ _ [_; _; _; _; _; _; _; _] (lock_8, lock_pc)); [|by apply s_other].
  apply (runs_snoc _ _ _ _ [_; _; _; _; _; _; _] (lock_7, lock_pc)).
  - apply (runs_snoc _ _ _ _ [_; _; _; _; _; _] (lock_6, lock_pc)); [done|]. by apply s_other.
  - rewrite <-T7. apply (s_unlock _ _ _ lock_7 lock_pc 64 false); [by rewrite T7|by left].
Qed.

#[local] Transparent lock_2 lock_3 lock_4 lock_5 lock_6 lock_7 lock_8 lock_9.

(** Task 2 came first and has the lock, task 0 is next. *)
Lemma mutex_refines_fifo_witness :
  served lock_ops 64 = (Some 2, [0]) /\ in_order lock_ops /\
  exists mx, mutexes lock_9 !! 64 = Some mx /\ owner mx = Some 2 /\ waiting lock_9 mx = [0].
Proof.
  destruct (mutex_refines_fifo no_reset no_crash no_init lock_0 lock_ops lock_9 lock_pc lock_0_fresh lock_runs)
    as (Hin & Ho & _).
  split; [vm_compute; reflexivity|]. split; [exact Hin|].
  destruct (mutexes lock_9 !! 64) as [mx|] eqn:Hm; [|vm_compute in Hm; done].
  exists mx. split; [done|]. destruct (Ho 64 mx Hm) as (-> & -> & _). split; vm_compute; reflexivity.
Defined.

Lemma mutex_lock_and_end_witness :
  (exists mx, mutexes lock_9 !! 64 = Some mx /\ owner mx = Some 2) /\
  (exists k', ksync_cleanup_task no_reset no_crash no_init 2 lock_9 = Ret tt k' /\
     forall m mx, mutexes k' !! m = Some mx -> owner mx <> Some 2).
Proof.
  destruct (mutex_lock_and_end no_reset no_crash no_init lock_0 lock_ops lock_9 lock_pc lock_0_fresh lock_runs)
    as [Hlock Hend].
  split.
  - apply (Hlock 64). right. split; vm_compute; reflexivity.
  - destruct (Hend 2 ltac:(unfold TOTAL_TASKS; lia)) as (k' & He & Hno & _).
    exists k'. split; [exact He|exact Hno].
Defined.
