(* ===== verification/Msg.v ===== *)
(** * Message ports and channels (msg.c)

    A port belongs to a process and has up to sixteen channels, each a pair of queues
    between a client task and the server. Messages are queued without waiting
    ([port_send], [port_receive]) or passed from a caller to a waiting server and back
    ([msg_call], [msg_receive], [msg_reply]). The bytes a call reads from the memory of the
    current task are an argument; the file system and the handle tables (KObj) are
    arguments of the section. *)

From S2P Require Import Kern Sched Events Hoare.

Local Open Scope Z_scope.

(** ** Error codes and flags (lib/api.h) *)

Definition MSG_ERR_BASE : Z := 0xFFFFFF00.
Definition MSG_ERR_NO_PRIVILEGE : Z := -1.
Definition MSG_ERR_DENIED : Z := -2.
Definition MSG_ERR_NAME_TAKEN : Z := -3.
Definition MSG_ERR_PORT_NOT_FOUND : Z := -4.
Definition MSG_ERR_CHANNEL_NOT_FOUND : Z := -5.
Definition MSG_ERR_SELF : Z := -6.
Definition MSG_ERR_LIMIT : Z := -7.
Definition MSG_ERR_PORT_FULL : Z := -8.
Definition MSG_ERR_NOMEM : Z := -9.
Definition MSG_ERR_BUF_TOO_SMALL : Z := -10.
Definition MSG_ERR_QUEUE_FULL : Z := -11.
Definition MSG_ERR_INVALID_BUF : Z := -12.
Definition MSG_ERR_TOO_LONG : Z := -13.
Definition MSG_ERR_EMPTY_MSG : Z := -14.
Definition MSG_ERR_INVALID_TASK : Z := -15.
Definition MSG_ERR_RECEIVE_QUEUE_FULL : Z := -16.
Definition MSG_ERR_PEER_DISCONNECTED : Z := -17.
Definition MSG_ERR_DISCONNECTED : Z := -18.
Definition MSG_ERR_MSG_NOT_FOUND : Z := -19.
Definition MSG_ERR_INVALID_MSG : Z := -21.
Definition MSG_ERR_TOO_MANY_HANDLES : Z := -22.
Definition MSG_ERR_PEER_INVALID_BUF : Z := -23.
Definition MSG_ERR_INVALID_HANDLES : Z := -24.
Definition MSG_ERR_PEER_INVALID_HANDLES : Z := -25.
Definition MSG_ERR_PEER_INVALID_MSG : Z := -26.

Definition MSG_EXPECT_REPLY : Z := 1.
Definition MSG_LAST_MSG : Z := 2.
Definition MSG_REPLY : Z := 4.
Definition MSG_FLAG_CLOSED : Z := 1.
Definition MSG_MAX_HANDLES : Z := 4.
Definition MSG_PORT_NAME_LEN : Z := 32.

Definition SIZEOF_PORT : Z := 332.
Definition SIZEOF_CHANNEL : Z := 3728.

(** ** The queue of one direction *)

Definition empty_msg : msg_obj_t := MsgObj 0 0 (replicate (Z.to_nat MSG_MAX_LEN) 0).
Definition empty_queue : msg_queue_t := MsgQueue (replicate (Z.to_nat MSG_QUEUE_DEPTH) empty_msg) 0 0 0 0.

(** The slot a new message takes. *)
Definition queue_push_slot (q : msg_queue_t) : Z * msg_queue_t :=
  if count q =? 0 then (0, q <| count := 1 |> <| mq_head := 0 |> <| mq_tail := 0 |>)
  else
    let i := Z.rem (mq_tail q + 1) MSG_QUEUE_DEPTH in
    (i, q <| count := count q + 1 |> <| mq_tail := i |>).

Definition queue_drop (q : msg_queue_t) : msg_queue_t :=
  q <| mq_head := Z.rem (mq_head q + 1) MSG_QUEUE_DEPTH |> <| count := count q - 1 |>.

Definition set_queue_of (server_to_client : bool) (q : msg_queue_t) (ch : msg_channel_t) : msg_channel_t :=
  if server_to_client then ch <| queue1 := q |> else ch <| queue0 := q |>.

Section msg.
Context {M : Type} `{!Space M}.
Context (tasks_init : registers_t -> K M registers_t)
  (task_reset_windows : Z -> K M unit) (wm_event_crash : Z -> Z -> Z -> K M unit).
Context (fs_exists : list Z -> K M bool).
Implicit Types (k : kern M).

Abbreviation notify := (call_msg_func tasks_init task_reset_windows wm_event_crash).

(** ** Ports *)

Definition find_port_by_name (nm : list Z) : K M Z := find_port (fun port => bool_decide (name port = nm)).

(** ["/sys/"] *)
Definition SYS_PREFIX : list Z := [47; 115; 121; 115; 47].

Definition create_port (i : Z) (nm : list Z) (reserves : bool) : K M Z :=
  t ← get_task i;
  pr ← get_process (t_process t);
  if bool_decide (take 5 nm = SYS_PREFIX) && negb (privileged pr) then mret (u32 MSG_ERR_NO_PRIVILEGE)
  else
    exists_ ← fs_exists nm;
    if exists_ : bool then mret (u32 MSG_ERR_NAME_TAKEN)
    else
      p ← find_port_by_name nm;
      if negb (p =? 0) then mret (u32 MSG_ERR_NAME_TAKEN)
      else if PROCESS_MAX_PORTS <=? port_count pr then mret (u32 MSG_ERR_LIMIT)
      else
        uid ← gets msg_uid_counter;
        if MSG_ERR_BASE <=? uid then mret (u32 MSG_ERR_NOMEM)
        else
          port ← alloc SIZEOF_PORT;
          if port =? 0 then mret (u32 MSG_ERR_NOMEM)
          else
            _ ← upd_process (t_process t) (fun pr => pr <| p_ports := zset (p_ports pr) (port_count pr) port |>
                                                      <| port_count := port_count pr + 1 |>);
            next ← gets ports;
            _ ← modify (fun k => k <| msg_uid_counter := u32 (uid + 1) |>
              <| port_objs := <[port := MsgPort uid (take (Z.to_nat (MSG_PORT_NAME_LEN - 1)) nm) (p_uid pr)
                    (task_id t) (task_uid t) (replicate (Z.to_nat MSG_MAX_CHANNELS) 0) 0 reserves
                    (replicate (Z.to_nat MAX_TASK_THREADS) (MsgWaiter false 0 0 (MsgRecv 0 0 0 0) 0)) next]> (port_objs k) |>
              <| ports := port |>);
            mret uid.

Fixpoint free_slot_loop (n : nat) (i : Z) (l : list Z) : K M Z :=
  match n with
  | O => mret (-1)
  | S n => c ← deref (zget l i); if c =? 0 then mret i else free_slot_loop n (i + 1) l
  end.

Definition port_free_channel_exists (port : msg_port_t) : K M bool :=
  if channel_count port <? MSG_MAX_CHANNELS then mret true
  else i ← free_slot_loop (Z.to_nat (channel_count port)) 0 (channels port); mret (negb (i =? -1)).

Definition port_claim_free_channel_index (p : Z) : K M Z :=
  port ← get_port p;
  if channel_count port <? MSG_MAX_CHANNELS
  then _ ← upd_port p (fun port => port <| channel_count := channel_count port + 1 |>);
       mret (channel_count port)
  else free_slot_loop (Z.to_nat (channel_count port)) 0 (channels port).

Definition new_channel (uid : Z) (port : msg_port_t) (t : task_state_t) (pr : process_t) : msg_channel_t :=
  MsgChannel uid (port_uid port) (p_uid pr) (task_id t) (task_uid t) (owner_taskid port) (owner_taskuid port)
    true true empty_queue empty_queue 0 false false 0 0 false false 0
    (MsgSend 0 0 0 0) (MsgRecv 0 0 0 0) 0.

(** The channel and the port it is on. *)
Definition port_connect (i : Z) (nm : list Z) : K M (Z * option Z) :=
  t ← get_task i;
  p ← find_port_by_name nm;
  if p =? 0 then mret (u32 MSG_ERR_PORT_NOT_FOUND, None)
  else
    port ← get_port p;
    let ret c := mret (u32 c, Some (port_uid port)) in
    if owner_taskuid port =? task_uid t then ret MSG_ERR_SELF
    else if TASK_MAX_CHANNELS <=? msg_channel_count t then ret MSG_ERR_LIMIT
    else
      uid ← gets channel_uid_counter;
      if MSG_ERR_BASE <=? uid then ret MSG_ERR_NOMEM
      else
        room ← port_free_channel_exists port;
        if negb room then ret MSG_ERR_PORT_FULL
        else
          c ← alloc SIZEOF_CHANNEL;
          if c =? 0 then ret MSG_ERR_NOMEM
          else
            idx ← port_claim_free_channel_index p;
            if idx <? 0 then _ ← dealloc c SIZEOF_CHANNEL; ret MSG_ERR_PORT_FULL
            else
              pr ← get_process (t_process t);
              _ ← upd_port p (fun port => port <| channels := zset (channels port) idx c |>);
              _ ← upd_task i (fun t => t <| msg_channels := zset (msg_channels t) (msg_channel_count t) c |>
                                         <| msg_channel_count := msg_channel_count t + 1 |>);
              _ ← modify (fun k => k <| channel_uid_counter := u32 (uid + 1) |>
                    <| channel_objs := <[c := new_channel uid port t pr]> (channel_objs k) |>);
              mret (uid, Some (port_uid port)).

(** ** Sending and receiving through the queues *)

(** The channel a task names, for [port_send] and [port_receive]: its address, or the error. *)
Definition channel_of (port_uid_ channel_uid : Z) : K M (Z * Z + Z) :=
  p ← find_port_by_uid port_uid_;
  if p =? 0 then mret (inr MSG_ERR_PORT_NOT_FOUND)
  else
    port ← get_port p;
    c ← find_channel port channel_uid;
    if c <? 0 then mret (inr MSG_ERR_CHANNEL_NOT_FOUND)
    else cp ← deref (zget (channels port) c); mret (inl (p, cp)).

(** The notification that follows a message or the end of a connection: channel [c] is
    told to its server or client, which is task [i]. *)
Definition notify_peer (regs : option registers_t) (i c port_uid_ channel_uid : Z) (server : bool)
    : K M (option registers_t) :=
  ch ← get_channel c;
  r ← notify regs i port_uid_ channel_uid (flags_of ch server);
  _ ← msg_set_notify_pending i c server (bool_decide (fst r = MSG_NOTIFY_DROPPED));
  _ ← when (bool_decide (fst r = MSG_NOTIFY_DELIVERED)) (clear_flags c server);
  mret (snd r).

(** The checks of [port_send] before it changes anything: the error, or 0. *)
Definition send_check (t : task_state_t) (port : msg_port_t) (ch : msg_channel_t)
    (server_to_client writing_in_reserved : bool) : Z :=
  if negb (task_uid t =? server_taskuid ch) && negb (task_uid t =? client_taskuid ch) then MSG_ERR_DENIED
  else if (server_to_client && negb (client_connected ch)) || (negb server_to_client && negb (server_connected ch))
  then MSG_ERR_PEER_DISCONNECTED
  else if (server_to_client && negb (server_connected ch)) || (negb server_to_client && negb (client_connected ch))
  then MSG_ERR_DISCONNECTED
  else
    let q := queue_of ch server_to_client in
    if MSG_QUEUE_DEPTH <=? count q + mq_reserved q - b2z writing_in_reserved then MSG_ERR_QUEUE_FULL
    else 0.

(** The channel with the message stored, and the reservations updated. *)
Definition store_msg (ch : msg_channel_t) (server_to_client reserve_slot writing_in_reserved : bool)
    (data : list Z) (size flags : Z) : K M msg_channel_t :=
  let ch := if reserve_slot
            then ch <| queue1 := (queue1 ch) <| mq_reserved := mq_reserved (queue1 ch) + 1 |> |> else ch in
  let '(i, q) := queue_push_slot (queue_of ch server_to_client) in
  let q := if writing_in_reserved then q <| mq_reserved := mq_reserved q - 1 |> else q in
  let ch := if writing_in_reserved then ch <| server_unanswered := server_unanswered ch - 1 |> else ch in
  obj ← deref (zget (slots q) i);
  if negb (zlen data =? size) then fault
  else
    let obj := MsgObj (u16 size) (Z.land flags (Z.lor MSG_EXPECT_REPLY MSG_REPLY)) (splice (m_data obj) 0 data) in
    mret (set_queue_of server_to_client (q <| slots := zset (slots q) i obj |>) ch).

(** [data] are the bytes at [send_msg->buffer]. *)
Definition port_send (regs : option registers_t) (i port_uid_ channel_uid : Z) (send_msg : msg_send_t)
    (data : list Z) (flags : Z) : K M (Z * option registers_t) :=
  if 0 <? s_handle_count send_msg then mret (MSG_ERR_INVALID_MSG, regs)
  else
    t ← get_task i;
    found ← channel_of port_uid_ channel_uid;
    match found with
    | inr err => mret (err, regs)
    | inl (p, c) =>
        if MSG_MAX_LEN <? s_size send_msg then mret (MSG_ERR_TOO_LONG, regs)
        else if s_size send_msg =? 0 then mret (MSG_ERR_EMPTY_MSG, regs)
        else
          port ← get_port p;
          ch ← get_channel c;
          let server_to_client := task_uid t =? server_taskuid ch in
          let reserve_slot := client_reserves port && negb server_to_client
                              && negb (Z.land flags MSG_EXPECT_REPLY =? 0) in
          let writing_in_reserved := client_reserves port && server_to_client
                              && negb (Z.land flags MSG_REPLY =? 0) && (0 <? server_unanswered ch) in
          let err := send_check t port ch server_to_client writing_in_reserved in
          if negb (err =? 0) then mret (err, regs)
          else
            let id := if server_to_client then client_taskid ch else server_taskid ch in
            recipient ← msg_get_task id (if server_to_client then client_taskuid ch else server_taskuid ch);
            if bool_decide (recipient = None) then mret (MSG_ERR_INVALID_TASK, regs)
            else if reserve_slot && (MSG_QUEUE_DEPTH <=? count (queue1 ch) + mq_reserved (queue1 ch))
            then mret (MSG_ERR_RECEIVE_QUEUE_FULL, regs)
            else
              ch' ← store_msg ch server_to_client reserve_slot writing_in_reserved data (s_size send_msg) flags;
              _ ← upd_channel c (fun _ => ch');
              regs ← notify_peer regs id c port_uid_ channel_uid (negb server_to_client);
              mret (0, regs)
    end.

(** The flags of the channel are handed to the caller once. *)
Definition take_flags (c : Z) (server : bool) : K M Z :=
  ch ← get_channel c; _ ← clear_flags c server; mret (flags_of ch server).

(** A reader makes room: a writer that waits for it goes on. *)
Definition unblock_peer (c : Z) (server : bool) : K M unit :=
  ch ← get_channel c;
  if server && client_blocked ch then
    t ← get_task (client_taskid ch);
    _ ← when (enabled t && (task_uid t =? client_taskuid ch)) (task_resume (client_taskid ch));
    upd_channel c (fun ch => ch <| client_blocked := false |>)
  else if negb server && server_blocked ch then
    t ← get_task (server_taskid ch);
    _ ← when (enabled t && (task_uid t =? server_taskuid ch)) (task_resume (server_taskid ch));
    upd_channel c (fun ch => ch <| server_blocked := false |>)
  else mret tt.

(** What [port_receive] writes to its caller: the bytes, [*channel_flags] and [*msg_flags]. *)
Record received := Received { rv_ret : Z; rv_bytes : list Z; rv_channel_flags : Z; rv_msg_flags : Z }.

Definition recv_error (err : Z) : received := Received err [] 0 0.

Definition port_receive (i port_uid_ channel_uid size : Z) : K M received :=
  t ← get_task i;
  found ← channel_of port_uid_ channel_uid;
  match found with
  | inr err => mret (recv_error err)
  | inl (p, c) =>
      port ← get_port p;
      ch ← get_channel c;
      if negb (task_uid t =? client_taskuid ch) && negb (task_uid t =? server_taskuid ch)
      then mret (recv_error MSG_ERR_DENIED)
      else
        let server := task_uid t =? server_taskuid ch in
        if (server && negb (server_connected ch)) || (negb server && negb (client_connected ch))
        then mret (recv_error MSG_ERR_DISCONNECTED)
        else
          let q := queue_of ch (negb server) in
          if count q =? 0 then f ← take_flags c server; mret (Received 0 [] f 0)
          else
            msg ← deref (zget (slots q) (mq_head q));
            if size <? m_length msg then mret (recv_error MSG_ERR_BUF_TOO_SMALL)
            else
              let unanswered := server && client_reserves port && negb (Z.land (m_flags msg) MSG_EXPECT_REPLY =? 0) in
              _ ← upd_channel c (fun ch =>
                    set_queue_of (negb server) (queue_drop q)
                      (if unanswered then ch <| server_unanswered := server_unanswered ch + 1 |> else ch));
              _ ← unblock_peer c server;
              f ← take_flags c server;
              mret (Received (m_length msg) (take (Z.to_nat (m_length msg)) (m_data msg)) f
                      (if count q - 1 =? 0 then Z.lor (m_flags msg) MSG_LAST_MSG else m_flags msg))
  end.

(** Wait until the peer has read a message. *)
Definition msg_wait_on_receive (i port_uid_ channel_uid : Z) : K M bool :=
  t ← get_task i;
  found ← channel_of port_uid_ channel_uid;
  match found with
  | inr _ => mret false
  | inl (p, c) =>
      if c =? 0 then mret false
      else
        ch ← get_channel c;
        if negb (task_uid t =? client_taskuid ch) && negb (task_uid t =? server_taskuid ch) then mret false
        else
          let server := task_uid t =? server_taskuid ch in
          if (count (queue_of ch server) =? 0) || (server && negb (client_connected ch))
             || (negb server && negb (server_connected ch)) then mret false
          else
            _ ← upd_channel c (fun ch => if task_uid t =? client_taskuid ch then ch <| client_blocked := true |>
                                        else ch <| server_blocked := true |>);
            _ ← task_pause i PAUSE_MSG_WRITE;
            mret true
  end.

End msg.


