(* ===== verification/MsgSpec.v ===== *)
(** * Message channels: the theorems (msg.c)

    A channel delivers each message once, in the order it was sent, to the other end, and
    on a port whose clients reserve, a reply always has a slot. *)

From S2P Require Import Kern Sched Events Hoare Quiet Msg.

Local Open Scope Z_scope.

(** ** The ring of messages *)

Record queue_rep (q : msg_queue_t) (l : list msg_obj_t) : Prop := {
  qr_len : zlen (slots q) = MSG_QUEUE_DEPTH;
  qr_count : count q = zlen l;
  qr_max : zlen l <= MSG_QUEUE_DEPTH;
  qr_ends : 0 < zlen l ->
    0 <= mq_head q < MSG_QUEUE_DEPTH /\ mq_tail q = (mq_head q + zlen l - 1) mod MSG_QUEUE_DEPTH;
  qr_slots n : 0 <= n < zlen l -> zget (slots q) ((mq_head q + n) mod MSG_QUEUE_DEPTH) = zget l n;
  qr_data i m : zget (slots q) i = Some m -> zlen (m_data m) = MSG_MAX_LEN }.

Lemma empty_queue_rep : queue_rep empty_queue [].
Proof.
  constructor; try done; unfold zlen; simpl; try lia.
  intros i m Hm. apply zget_elem in Hm. simpl in Hm. set_unfold. by destruct_or?; subst.
Qed.

Lemma queue_rep_reserved q l r : queue_rep q l -> queue_rep (q <| mq_reserved := r |>) l.
Proof. destruct q. intros []. by constructor. Qed.

Lemma queue_push_rep q l :
  queue_rep q l -> zlen l < MSG_QUEUE_DEPTH ->
  exists i h t, queue_push_slot q = (i, MsgQueue (slots q) h t (zlen l + 1) (mq_reserved q)) /\
    0 <= i < MSG_QUEUE_DEPTH /\
    forall m r, zlen (m_data m) = MSG_MAX_LEN ->
      queue_rep (MsgQueue (zset (slots q) i m) h t (zlen l + 1) r) (l ++ [m]).
Proof.
  destruct q as [qs qh qt qc qr].
  intros [Q1 Q2 Q3 Q4 Q5 Q6] Hl. unfold queue_push_slot, MSG_QUEUE_DEPTH in *. simpl in *.
  subst qc. pose proof (zlen_nonneg l) as Hpos.
  assert (Hdata : forall m j, zlen (m_data m) = MSG_MAX_LEN -> forall i' m',
    zget (zset qs j m) i' = Some m' -> zlen (m_data m') = MSG_MAX_LEN).
  { intros m j Hm i' m' Hi. rewrite zget_zset in Hi. case_decide; [by simplify_eq|by eapply Q6]. }
  assert (Hlen : forall m, zlen (l ++ [m]) = zlen l + 1) by (intros; by rewrite zlen_app).
  destruct (Z.eqb_spec (zlen l) 0) as [He|He].
  - exists 0, 0, 0. rewrite He. split; [done|]. split; [lia|]. intros m r Hm.
    constructor; simpl; rewrite ?Hlen, ?He; unfold MSG_QUEUE_DEPTH; try done.
    + by rewrite zlen_zset.
    + intros n Hn. assert (n = 0) as -> by lia. change ((0 + 0) mod 14) with 0.
      rewrite zget_zset_eq by lia. by rewrite <-He, zget_app_last.
    + by apply Hdata.
  - destruct (Q4 ltac:(lia)) as [Hh Ht].
    assert (Hi : Z.rem (qt + 1) 14 = (qh + zlen l) mod 14).
    { rewrite Ht. rewrite Z.rem_mod_nonneg by (Z.div_mod_to_equations; lia).
      rewrite Zplus_mod_idemp_l. f_equal. lia. }
    eexists _, _, _. split; [done|]. rewrite Hi. split; [apply Z.mod_pos_bound; lia|]. intros m r Hm.
    constructor; simpl; unfold MSG_QUEUE_DEPTH; rewrite ?Hlen; try done.
    + by rewrite zlen_zset.
    + lia.
    + intros _. split; [done|]. f_equal. lia.
    + intros n Hn. destruct (decide (n = zlen l)) as [->|Hne].
      * rewrite zget_zset_eq by (rewrite Q1; apply Z.mod_pos_bound; lia). by rewrite zget_app_last.
      * rewrite zget_zset_ne by (Z.div_mod_to_equations; lia). rewrite zget_app_l by lia. apply Q5. lia.
    + by apply Hdata.
Qed.

Lemma queue_head_rep q m l : queue_rep q (m :: l) -> zget (slots q) (mq_head q) = Some m.
Proof.
  intros [Q1 Q2 Q3 Q4 Q5 Q6]. rewrite zlen_cons in *. pose proof (zlen_nonneg l).
  destruct (Q4 ltac:(lia)) as [Hh _]. specialize (Q5 0 ltac:(lia)). rewrite Z.add_0_r, Z.mod_small in Q5 by done.
  done.
Qed.

Lemma queue_drop_rep q m l : queue_rep q (m :: l) -> queue_rep (queue_drop q) l.
Proof.
  destruct q as [qs qh qt qc qr].
  intros [Q1 Q2 Q3 Q4 Q5 Q6]. rewrite zlen_cons in *. pose proof (zlen_nonneg l) as Hp. simpl in *.
  destruct (Q4 ltac:(lia)) as [Hh Ht]. unfold MSG_QUEUE_DEPTH in *.
  assert (Hrem : Z.rem (qh + 1) 14 = (qh + 1) mod 14) by (apply Z.rem_mod_nonneg; lia).
  constructor; unfold MSG_QUEUE_DEPTH, queue_drop; simpl; unfold MSG_QUEUE_DEPTH; rewrite ?Hrem; try done.
  - lia.
  - lia.
  - intros Hl. split; [apply Z.mod_pos_bound; lia|].
    rewrite Ht. Z.div_mod_to_equations. lia.
  - intros n Hn. rewrite Zplus_mod_idemp_l. rewrite <-Z.add_assoc, (Z.add_comm 1 n), Q5 by lia.
    apply zget_cons_S. lia.
Qed.

(** ** A channel

    The queues carry the messages [l0] to the server and [l1] to the client. With
    [rsv], the client's messages that expect a reply, queued or read, each keep a slot of
    the other queue. *)

Definition expects (m : msg_obj_t) : bool := negb (Z.land (m_flags m) MSG_EXPECT_REPLY =? 0).

(** The bytes of a message and its flags. *)
Definition msg_view (m : msg_obj_t) : list Z * Z := (take (Z.to_nat (m_length m)) (m_data m), m_flags m).

Definition msg_ok (m : msg_obj_t) : Prop :=
  0 < m_length m <= MSG_MAX_LEN /\ Z.land (m_flags m) (Z.lor MSG_EXPECT_REPLY MSG_REPLY) = m_flags m.

Record chan_ok (rsv : bool) (ch : msg_channel_t) (l0 l1 : list msg_obj_t) : Prop := {
  co_queue0 : queue_rep (queue0 ch) l0;
  co_queue1 : queue_rep (queue1 ch) l1;
  co_reserved0 : mq_reserved (queue0 ch) = 0;
  co_ends : client_taskuid ch <> server_taskuid ch;
  co_unanswered : 0 <= server_unanswered ch;
  co_reserved1 : mq_reserved (queue1 ch) =
    if rsv then server_unanswered ch + zlen (filter expects l0) else 0;
  co_none : rsv = false -> server_unanswered ch = 0;
  co_room : zlen l1 + mq_reserved (queue1 ch) <= MSG_QUEUE_DEPTH;
  co_msgs : Forall msg_ok (l0 ++ l1) }.

(** Which messages a task's message joins, and which it reads. *)
Definition push_to (server_to_client : bool) (m : msg_obj_t) (l : list msg_obj_t * list msg_obj_t) :=
  if server_to_client then (fst l, snd l ++ [m]) else (fst l ++ [m], snd l).

(** The conditions under which [port_send] stores a message. *)
Record may_send (rsv : bool) (ch : msg_channel_t) (s2c rs wr : bool) (size flags : Z) : Prop := {
  ms_reserve : rs = rsv && negb s2c && negb (Z.land flags MSG_EXPECT_REPLY =? 0);
  ms_reserved : wr = rsv && s2c && negb (Z.land flags MSG_REPLY =? 0) && (0 <? server_unanswered ch);
  ms_room : count (queue_of ch s2c) + mq_reserved (queue_of ch s2c) - b2z wr < MSG_QUEUE_DEPTH;
  ms_reply_room : rs = true -> count (queue1 ch) + mq_reserved (queue1 ch) < MSG_QUEUE_DEPTH;
  ms_size : 0 < size <= MSG_MAX_LEN }.

Abbreviation SENT_FLAGS := (Z.lor MSG_EXPECT_REPLY MSG_REPLY).

(** A message stored in the next slot of a queue. *)
Lemma store_slot q l data size flags :
  queue_rep q l -> zlen l < MSG_QUEUE_DEPTH -> 0 < size <= MSG_MAX_LEN -> zlen data = size ->
  exists i h t old, queue_push_slot q = (i, MsgQueue (slots q) h t (zlen l + 1) (mq_reserved q)) /\
    zget (slots q) i = Some old /\
    let m := MsgObj (u16 size) (Z.land flags SENT_FLAGS) (splice (m_data old) 0 data) in
    msg_view m = (data, Z.land flags SENT_FLAGS) /\ msg_ok m /\
    forall r, queue_rep (MsgQueue (zset (slots q) i m) h t (zlen l + 1) r) (l ++ [m]).
Proof.
  intros Hq Hl Hs Hd. destruct (queue_push_rep q l Hq Hl) as (i & h & t & -> & Hi & Hm).
  assert (exists old, zget (slots q) i = Some old) as [old Hold].
  { apply zget_is_Some. by rewrite (qr_len _ _ Hq). }
  pose proof (qr_data _ _ Hq _ _ Hold) as Hlen. unfold MSG_MAX_LEN in *.
  assert (Hu : u16 size = size) by (apply u16_id; lia).
  exists i, h, t, old. split; [done|]. split; [done|]. cbv zeta. rewrite Hu.
  split; [|split; [split|]].
  - unfold msg_view. simpl. f_equal. unfold splice. rewrite take_0. simpl.
    apply take_app_length'. unfold zlen in Hd. lia.
  - done.
  - simpl. by rewrite <-Z.land_assoc, Z.land_diag.
  - intros r. apply Hm. simpl. rewrite zlen_splice; [done|lia|]. rewrite Hlen. lia.
Qed.

Lemma expects_sent m data flags :
  msg_view m = (data, Z.land flags SENT_FLAGS) -> expects m = negb (Z.land flags MSG_EXPECT_REPLY =? 0).
Proof. intros [= _ Hf]. unfold expects. by rewrite Hf, <-Z.land_assoc. Qed.

Lemma filter_snoc m l :
  zlen (filter expects (l ++ [m])) = zlen (filter expects l) + b2z (expects m).
Proof.
  rewrite filter_app, zlen_app. f_equal. rewrite filter_cons. by destruct (expects m).
Qed.

Lemma store_to_client_ok {M} rsv ch rs wr data size flags l0 l1 (k : kern M) ch' k' :
  chan_ok rsv ch l0 l1 -> may_send rsv ch true rs wr size flags ->
  store_msg ch true rs wr data size flags k = Ret ch' k' ->
  exists m, msg_view m = (data, Z.land flags SENT_FLAGS) /\ chan_ok rsv ch' l0 (l1 ++ [m]).
Proof.
  intros [C1 C2 C3 C4 C5 C6 C7 C8 C9] [S1 S2 S3 S4 S5]. unfold store_msg.
  pose proof (zlen_nonneg (filter expects l0)) as Hp.
  rewrite ?andb_true_r, ?andb_false_r in *; simpl in S1, S2; subst rs.
  assert (Hw : wr = true -> rsv = true /\ 0 < server_unanswered ch).
  { intros ->. symmetry in S2. apply andb_prop in S2 as [S2 Hu]. apply andb_prop in S2 as [-> _]. lia. }
  clear S4. simpl queue_of in *. rewrite (qr_count _ _ C2) in S3.
  assert (Hl : zlen l1 < MSG_QUEUE_DEPTH).
  { destruct wr; [destruct (Hw eq_refl) as [-> ?]|]; simpl in S3; [|destruct rsv]; lia. }
  destruct (Z.eqb_spec (zlen data) size) as [Hd|Hd].
  2: { destruct (queue_push_slot _). unfold mbind, K_mbind, deref. by destruct (zget _ _). }
  destruct (store_slot _ _ _ _ flags C2 Hl S5 Hd) as (i & h & t & old & Hpush & Hold & Hv & Hok & Hq).
  unfold queue_of. rewrite Hpush.
  assert (Hf : forall m, msg_ok m -> Forall msg_ok (l0 ++ l1 ++ [m])).
  { intros m Hm. rewrite app_assoc. apply Forall_app. split; [done|]. by constructor. }
  destruct wr; simpl in S3 |- *; rewrite Hold; intros [= <- <-];
    (eexists; split; [exact Hv|]); constructor; simpl; rewrite ?zlen_app; try done;
    try (destruct (Hw eq_refl) as [-> ?]); try change (zlen [_]) with 1; try done; try lia; first [by apply Hf|by intros ?].
Qed.

Lemma store_to_server_ok {M} rsv ch rs wr data size flags l0 l1 (k : kern M) ch' k' :
  chan_ok rsv ch l0 l1 -> may_send rsv ch false rs wr size flags ->
  store_msg ch false rs wr data size flags k = Ret ch' k' ->
  exists m, msg_view m = (data, Z.land flags SENT_FLAGS) /\ chan_ok rsv ch' (l0 ++ [m]) l1.
Proof.
  intros [C1 C2 C3 C4 C5 C6 C7 C8 C9] [S1 S2 S3 S4 S5]. unfold store_msg.
  rewrite ?andb_true_r, ?andb_false_r in *; simpl in S1, S2; subst wr.
  simpl queue_of in *. rewrite (qr_count _ _ C1), C3 in S3. rewrite (qr_count _ _ C2) in S4.
  destruct (Z.eqb_spec (zlen data) size) as [Hd|Hd].
  2: { destruct (queue_push_slot _). unfold mbind, K_mbind, deref. by destruct (zget _ _). }
  destruct (store_slot _ _ _ _ flags C1 ltac:(simpl in S3; lia) S5 Hd) as (i & h & t & old & Hpush & Hold & Hv & Hok & Hq).
  set (m := MsgObj _ _ _) in *.
  assert (Hf : Forall msg_ok ((l0 ++ [m]) ++ l1)).
  { apply Forall_app in C9 as [? ?]. rewrite !Forall_app. split; [split; [done|]|done]. by constructor. }
  pose proof (expects_sent _ _ _ Hv) as He.
  pose proof (fun r => queue_rep_reserved _ _ r C2) as Hrep.
  pose proof (filter_snoc m l0) as Hfl. rewrite He in Hfl.
  destruct rs; cbv zeta iota; change (queue_of _ false) with (queue0 ch); rewrite Hpush; simpl; rewrite Hold;
    intros [= <- <-]; exists m; (split; [exact Hv|]); destruct ch; simpl in *; constructor; simpl; try done; rewrite ?Hfl.
  - symmetry in S1. apply andb_prop in S1 as [-> ->]. simpl. lia.
  - specialize (S4 eq_refl). lia.
  - destruct rsv; [|done]. simpl in S1. rewrite <-S1. simpl. lia.
Qed.

(** The head of a queue taken out by a reader. *)
Definition read_from (reserves server : bool) (msg : msg_obj_t) (ch : msg_channel_t) : msg_channel_t :=
  set_queue_of (negb server) (queue_drop (queue_of ch (negb server)))
    (if server && reserves && expects msg
     then ch <| server_unanswered := server_unanswered ch + 1 |> else ch).

Lemma read_by_server_ok rsv ch m l0 l1 :
  chan_ok rsv ch (m :: l0) l1 -> chan_ok rsv (read_from rsv true m ch) l0 l1.
Proof.
  intros [C1 C2 C3 C4 C5 C6 C7 C8 C9]. pose proof (queue_drop_rep _ _ _ C1) as Hq.
  simpl in C9. inversion_clear C9. unfold read_from. destruct ch; simpl in *.
  assert (Hf : zlen (filter expects (m :: l0)) = b2z (expects m) + zlen (filter expects l0)).
  { rewrite filter_cons. destruct (expects m); simpl; rewrite ?zlen_cons; lia. }
  rewrite Hf in C6. destruct rsv, (expects m); simpl; constructor; simpl in *; try done; lia.
Qed.

Lemma read_by_client_ok rsv ch m l0 l1 :
  chan_ok rsv ch l0 (m :: l1) -> chan_ok rsv (read_from rsv false m ch) l0 l1.
Proof.
  intros [C1 C2 C3 C4 C5 C6 C7 C8 C9]. pose proof (queue_drop_rep _ _ _ C2) as Hq.
  rewrite zlen_cons in C8. apply Forall_app in C9 as [? C9]. inversion_clear C9.
  constructor; try done; [|by apply Forall_app].
  change (zlen l1 + mq_reserved (queue1 ch) <= MSG_QUEUE_DEPTH). lia.
Qed.

(** ** What sending and receiving change *)

Section msg_spec.
Context {M : Type} `{!Space M}.
Context (tasks_init : registers_t -> K M registers_t)
  (task_reset_windows : Z -> K M unit) (wm_event_crash : Z -> Z -> Z -> K M unit).
Context `{!QuietGui tasks_init task_reset_windows wm_event_crash}.
Implicit Types (k : kern M).

Abbreviation port_send := (port_send tasks_init task_reset_windows wm_event_crash).
Abbreviation notify_peer := (notify_peer tasks_init task_reset_windows wm_event_crash).

(** What a channel carries. *)
Definition chan_data (ch : msg_channel_t) : msg_queue_t * msg_queue_t * Z * Z * Z :=
  (queue0 ch, queue1 ch, server_unanswered ch, client_taskuid ch, server_taskuid ch).

Definition same_data k k' : Prop :=
  port_objs k' = port_objs k /\
  forall c, chan_data <$> channel_objs k' !! c = chan_data <$> channel_objs k !! c.

#[global] Instance same_data_preorder : PreOrder same_data.
Proof. split; [done|]. intros k1 k2 k3 [H1 H2] [H3 H4]. split; [congruence|]. intros i. by rewrite H4. Qed.

Lemma chan_data_core ch : chan_data ch = chan_data (channel_core ch).
Proof. by destruct ch. Qed.

Lemma quiet_data k k' : quiet k k' -> same_data k k'.
Proof.
  intros (_ & (_ & Hp & Hc) & _). split; [done|]. intros c. specialize (Hc c).
  destruct (channel_objs k' !! c) as [ch'|], (channel_objs k !! c) as [ch|]; [|done..].
  change (Some (channel_core ch') = Some (channel_core ch)) in Hc. simpl.
  rewrite (chan_data_core ch'), (chan_data_core ch). congruence.
Qed.

Lemma data_upd_task i f : returns same_data (upd_task i f).
Proof. apply returns_upd_task. done. Qed.

Lemma data_upd_channel c f :
  (forall ch, chan_data (f ch) = chan_data ch) -> returns same_data (upd_channel c f).
Proof.
  intros Hf k. unfold upd_channel, get_channel, mbind, K_mbind, deref.
  destruct (channel_objs k !! c) as [ch|] eqn:Hc; simpl; [|done]. split; [done|].
  intros c'. simpl. destruct (decide (c = c')) as [<-|].
  - rewrite lookup_insert_eq, Hc. simpl. by rewrite Hf.
  - by rewrite lookup_insert_ne.
Qed.
#[local] Hint Resolve data_upd_task : keeps.
#[local] Hint Extern 1 (returns same_data (upd_channel _ _)) => apply data_upd_channel; done : keeps.

Lemma task_resume_data i : returns same_data (task_resume i).
Proof. unfold task_resume. returns. Qed.
#[local] Hint Resolve task_resume_data : keeps.

Lemma unblock_peer_data c s : returns same_data (unblock_peer c s).
Proof. unfold unblock_peer. returns. Qed.

Lemma take_flags_data c s : returns same_data (take_flags c s).
Proof. unfold take_flags, clear_flags. destruct s; returns. Qed.

Lemma notify_peer_quiet regs i c pu cu s : keeps quiet (notify_peer regs i c pu cu s).
Proof.
  unfold Msg.notify_peer. pose proof @call_msg_func_quiet. pose proof @msg_set_notify_pending_quiet.
  pose proof @clear_flags_quiet. keeps.
Qed.

Lemma channel_of_reads pu cu : returns (M := M) eq (channel_of pu cu).
Proof. unfold channel_of, find_port_by_uid. returns. Qed.

Lemma store_msg_reads ch s r w data size fl : returns (M := M) eq (store_msg ch s r w data size fl).
Proof. unfold store_msg. returns. Qed.

(** The channel found is on its port; an error is a negative code. *)
Lemma channel_of_result pu cu k r k' :
  channel_of pu cu k = Ret r k' ->
  match r with
  | inl (p, c) => exists port, port_objs k !! p = Some port /\ c ∈ channels port
  | inr err => err < 0
  end.
Proof.
  intros Hc. enough (Hwp : wp (channel_of pu cu) (fun o _ => forall r, o = Some r -> match r with
    | inl (p, c) => exists port, port_objs k !! p = Some port /\ c ∈ channels port
    | inr err => err < 0 end) k) by (by apply (wp_Ret _ _ _ _ _ Hwp Hc)).
  clear Hc. unfold channel_of. apply wp_reads; [apply find_port_reads|]. intros q _.
  apply wp_if; intros _; [by apply wp_ret; intros r' [= <-]|].
  apply wp_get_port. intros port Hp. apply wp_reads; [apply find_channel_reads|]. intros i _.
  apply wp_if; intros _; [by apply wp_ret; intros r' [= <-]|]. apply wp_deref. intros cp Hcp. apply wp_ret.
  intros r' [= <-]. exists port. split; [done|]. by eapply zget_elem.
Qed.

Lemma store_msg_size ch s2c rs wr data size fl k ch' k' :
  store_msg (M := M) ch s2c rs wr data size fl k = Ret ch' k' -> zlen data = size.
Proof.
  unfold store_msg. cbv zeta. destruct (queue_push_slot _) as [i q]. unfold mbind, K_mbind, deref.
  destruct (zget _ _); simpl; [|done]. by destruct (Z.eqb_spec (zlen data) size).
Qed.

Lemma send_check_room t port ch s2c wr :
  send_check t port ch s2c wr = 0 ->
  count (queue_of ch s2c) + mq_reserved (queue_of ch s2c) - b2z wr < MSG_QUEUE_DEPTH.
Proof. unfold send_check. intros Hc. repeat (case_match; [done|]). lia. Qed.

(** What [port_send] stores, in a channel of a port. *)
Definition stored (t : task_state_t) (port : msg_port_t) (ch ch' : msg_channel_t) (size : Z) (data : list Z)
    (fl : Z) : Prop :=
  let s2c := task_uid t =? server_taskuid ch in
  exists rs wr k0, may_send (client_reserves port) ch s2c rs wr size fl /\
    store_msg (M := M) ch s2c rs wr data size fl k0 = Ret ch' k0.

Definition sent_effect i pu cu size data fl k (k' : kern M) : Prop :=
  exists t p port c ch ch',
    zget (tasks k) i = Some t /\ channel_of pu cu k = Ret (inl (p, c)) k /\
    port_objs k !! p = Some port /\ channel_objs k !! c = Some ch /\ stored t port ch ch' size data fl /\
    quiet (k <| channel_objs := <[c := ch']> (channel_objs k) |>) k'.

Lemma port_send_wp regs i pu cu sm data fl k :
  wp (port_send regs i pu cu sm data fl) (fun o k' =>
    match o with
    | Some (e, _) => e <> 0 /\ k' = k \/ e = 0 /\ sent_effect i pu cu (s_size sm) data fl k k'
    | None => sent_effect i pu cu (s_size sm) data fl k k'
    end) k.
Proof.
  unfold Msg.port_send. apply wp_if; intros _; [by apply wp_ret; left|].
  apply wp_get_task. intros t Ht. apply wp_reads; [apply channel_of_reads|]. intros [[p c]|err] Hc.
  2: { apply wp_ret. left. split; [|done]. pose proof (channel_of_result _ _ _ _ _ Hc). simpl in *. lia. }
  apply wp_if; intros Hmax; [by apply wp_ret; left|]. apply wp_if; intros Hzero; [by apply wp_ret; left|].
  apply wp_get_port. intros port Hp. apply wp_get_channel. intros ch Hch. cbv zeta.
  set (rs := _ && negb (Z.land fl MSG_EXPECT_REPLY =? 0)). set (wr := _ && (0 <? _)).
  apply wp_if; intros Hcheck; [apply wp_ret; left; split; [lia|done]|].
  apply wp_reads; [apply msg_get_task_reads|]. intros r Hr. apply wp_if; intros _; [by apply wp_ret; left|].
  apply wp_if; intros Hroom; [by apply wp_ret; left|].
  apply wp_reads; [apply store_msg_reads|]. intros ch' Hstore.
  apply wp_upd_channel. intros ch0 Hch0. rewrite Hch in Hch0. injection Hch0 as <-.
  assert (He : forall k', quiet (k <| channel_objs := <[c := ch']> (channel_objs k) |>) k' ->
    sent_effect i pu cu (s_size sm) data fl k k').
  { intros k' Hk'. exists t, p, port, c, ch, ch'. split_and!; try done. exists rs, wr, k. split; [|done].
    pose proof (store_msg_size _ _ _ _ _ _ _ _ _ _ Hstore). pose proof (zlen_nonneg data).
    constructor; [done|done| |intros ->; simpl in Hroom; lia|lia].
    apply (send_check_room t port). lia. }
  eapply wp_keeps; [apply notify_peer_quiet|..]; [intros regs' k' Hk'; apply wp_ret; right|intros k' Hk'];
    try split; try done; by apply He.
Qed.


Definition read_effect i pu cu rv k (k' : kern M) : Prop :=
  exists t p port c ch m,
    zget (tasks k) i = Some t /\ channel_of pu cu k = Ret (inl (p, c)) k /\
    port_objs k !! p = Some port /\ channel_objs k !! c = Some ch /\
    let server := task_uid t =? server_taskuid ch in
    count (queue_of ch (negb server)) <> 0 /\
    zget (slots (queue_of ch (negb server))) (mq_head (queue_of ch (negb server))) = Some m /\
    rv_ret rv = m_length m /\ rv_bytes rv = fst (msg_view m) /\
    Z.land (rv_msg_flags rv) SENT_FLAGS = Z.land (m_flags m) SENT_FLAGS /\
    same_data (k <| channel_objs := <[c := read_from (client_reserves port) server m ch]> (channel_objs k) |>) k'.

Lemma port_receive_wp i pu cu size k :
  wp (port_receive i pu cu size) (fun o k' => exists rv, o = Some rv /\
    (rv_ret rv <= 0 /\ same_data k k' \/ read_effect i pu cu rv k k')) k.
Proof.
  assert (Herr : forall e, e <= 0 -> wp (mret (recv_error e)) (fun o k' => exists rv, o = Some rv /\
    (rv_ret rv <= 0 /\ same_data k k' \/ read_effect i pu cu rv k k')) k).
  { intros e He. apply wp_ret. eexists. split; [done|]. by left. }
  unfold port_receive. apply wp_get_task. intros t Ht.
  apply wp_reads; [apply channel_of_reads|]. intros [[p c]|err] Hc.
  2: { apply Herr. pose proof (channel_of_result _ _ _ _ _ Hc). simpl in *. lia. }
  apply wp_get_port. intros port Hp. apply wp_get_channel. intros ch Hch.
  apply wp_if; intros _; [by apply Herr|]. cbv zeta. apply wp_if; intros _; [by apply Herr|].
  apply wp_if; intros Hcount.
  { eapply wp_returns; [apply take_flags_data|]. intros f k' Hk'. apply wp_ret. eexists. split; [done|]. by left. }
  apply wp_deref. intros m Hm. apply wp_if; intros _; [by apply Herr|].
  apply wp_upd_channel. intros ch0 Hch0. rewrite Hch in Hch0. injection Hch0 as <-.
  eapply wp_returns; [apply unblock_peer_data|]. intros _ k1 Hk1.
  eapply wp_returns; [apply take_flags_data|]. intros f k2 Hk2. apply wp_ret.
  eexists. split; [done|]. right. exists t, p, port, c, ch, m. do 4 (split; [done|]). cbv zeta.
  split; [lia|]. do 3 (split; [done|]). split; [|by etransitivity].
  cbn [rv_msg_flags]. destruct (count _ - 1 =? 0); [|done]. rewrite Z.land_lor_distr_l. apply Z.lor_0_r.
Qed.

(** ** Histories of a channel

    Tasks send and receive on any channel, and between these the kernel does anything that
    leaves the data of channel [c] and the kind of its port alone: it switches tasks, runs
    callbacks, retries notifications, waits. The trace holds what [port_send] accepted and
    what [port_receive] gave, on every channel. *)

Inductive event :=
| Sent (c : Z) (to_client : bool) (m : list Z * Z)
| Got (c : Z) (to_client : bool) (m : list Z * Z).

(** The port a channel is on keeps its kind. *)
Definition on_port (rsv : bool) (c : Z) k : Prop :=
  forall p port, port_objs k !! p = Some port -> c ∈ channels port -> client_reserves port = rsv.

Definition accepted (o : option (Z * option registers_t)) : bool :=
  match o with Some (e, _) => e =? 0 | None => true end.

Inductive step (rsv : bool) (c : Z) : kern M -> list event -> kern M -> Prop :=
| step_send regs i pu cu sm data fl k o k' t p c' ch :
    zget (tasks k) i = Some t -> channel_of pu cu k = Ret (inl (p, c')) k ->
    channel_objs k !! c' = Some ch ->
    ended (port_send regs i pu cu sm data fl k) = Some (o, k') ->
    step rsv c k (if accepted o then [Sent c' (task_uid t =? server_taskuid ch) (data, Z.land fl SENT_FLAGS)]
                  else []) k'
| step_receive i pu cu size k rv k' t p c' ch :
    zget (tasks k) i = Some t -> channel_of pu cu k = Ret (inl (p, c')) k ->
    channel_objs k !! c' = Some ch ->
    port_receive i pu cu size k = Ret rv k' ->
    step rsv c k (if 0 <? rv_ret rv
                  then [Got c' (negb (task_uid t =? server_taskuid ch))
                          (rv_bytes rv, Z.land (rv_msg_flags rv) SENT_FLAGS)] else []) k'
| step_other k k' :
    chan_data <$> channel_objs k' !! c = chan_data <$> channel_objs k !! c ->
    (on_port rsv c k -> on_port rsv c k') -> step rsv c k [] k'.

Inductive steps (rsv : bool) (c : Z) (k0 : kern M) : list event -> kern M -> Prop :=
| steps_nil : steps rsv c k0 [] k0
| steps_snoc tr k e k' : steps rsv c k0 tr k -> step rsv c k e k' -> steps rsv c k0 (tr ++ e) k'.

Definition sent (c : Z) (dir : bool) (tr : list event) : list (list Z * Z) :=
  omap (fun e => match e with Sent c' d m => if (c' =? c) && eqb d dir then Some m else None | _ => None end) tr.
Definition got (c : Z) (dir : bool) (tr : list event) : list (list Z * Z) :=
  omap (fun e => match e with Got c' d m => if (c' =? c) && eqb d dir then Some m else None | _ => None end) tr.

(** A channel that has just been opened. *)
Definition opened (c : Z) k : Prop :=
  exists ch, channel_objs k !! c = Some ch /\ queue0 ch = empty_queue /\ queue1 ch = empty_queue /\
    server_unanswered ch = 0 /\ client_taskuid ch <> server_taskuid ch.

(** What holds after a history. *)
Definition history_ok (rsv : bool) (c : Z) (tr : list event) k : Prop :=
  on_port rsv c k /\ exists ch l0 l1, channel_objs k !! c = Some ch /\ chan_ok rsv ch l0 l1 /\
    sent c false tr = got c false tr ++ (msg_view <$> l0) /\
    sent c true tr = got c true tr ++ (msg_view <$> l1).

Lemma chan_ok_data rsv ch ch' l0 l1 : chan_data ch' = chan_data ch -> chan_ok rsv ch l0 l1 -> chan_ok rsv ch' l0 l1.
Proof.
  unfold chan_data. intros E [C1 C2 C3 C4 C5 C6 C7 C8 C9].
  injection E as E0 E1 E2 E3 E4. constructor; rewrite ?E0, ?E1, ?E2, ?E3, ?E4; done.
Qed.

Lemma sent_app c d tr tr' : sent c d (tr ++ tr') = sent c d tr ++ sent c d tr'.
Proof. apply omap_app. Qed.

Lemma got_app c d tr tr' : got c d (tr ++ tr') = got c d tr ++ got c d tr'.
Proof. apply omap_app. Qed.

Lemma sent_event c d c' b m : sent c d [Sent c' b m] = if (c' =? c) && eqb b d then [m] else [].
Proof. unfold sent. simpl. by destruct (_ && _). Qed.

Lemma got_event c d c' b m : got c d [Got c' b m] = if (c' =? c) && eqb b d then [m] else [].
Proof. unfold got. simpl. by destruct (_ && _). Qed.

(** A step that leaves the channel alone. *)
Lemma history_same rsv c tr e k k' :
  history_ok rsv c tr k -> on_port rsv c k' ->
  chan_data <$> channel_objs k' !! c = chan_data <$> channel_objs k !! c ->
  (forall d, sent c d e = [] /\ got c d e = []) -> history_ok rsv c (tr ++ e) k'.
Proof.
  intros (_ & ch & l0 & l1 & Hch & Hok & H0 & H1) Hp Hd He. split; [done|].
  rewrite Hch in Hd. destruct (channel_objs k' !! c) as [ch'|] eqn:Hch'; [|done].
  change (Some (chan_data ch') = Some (chan_data ch)) in Hd.
  exists ch', l0, l1. split; [done|]. split; [apply (chan_ok_data rsv ch); [congruence|done]|].
  rewrite !sent_app, !got_app. destruct (He false) as [-> ->], (He true) as [-> ->].
  by rewrite !app_nil_r.
Qed.

Lemma same_data_other c c' ch k k' :
  c <> c' -> same_data (k <| channel_objs := <[c' := ch]> (channel_objs k) |>) k' ->
  chan_data <$> channel_objs k' !! c = chan_data <$> channel_objs k !! c.
Proof. intros Hc [_ Hd]. rewrite Hd. simpl. by rewrite lookup_insert_ne. Qed.

Lemma same_data_this c ch k k' :
  same_data (k <| channel_objs := <[c := ch]> (channel_objs k) |>) k' ->
  exists ch', channel_objs k' !! c = Some ch' /\ chan_data ch' = chan_data ch.
Proof.
  intros [_ Hd]. specialize (Hd c). simpl in Hd. rewrite lookup_insert_eq in Hd.
  destruct (channel_objs k' !! c) as [ch'|]; [|done]. exists ch'. split; [done|].
  change (Some (chan_data ch') = Some (chan_data ch)) in Hd. congruence.
Qed.

Lemma same_data_port rsv c k k' : same_data k k' -> on_port rsv c k -> on_port rsv c k'.
Proof. intros [Hp _] Ho p port. rewrite Hp. apply Ho. Qed.

Lemma channel_on_port pu cu k p c port :
  channel_of pu cu k = Ret (inl (p, c)) k -> port_objs k !! p = Some port -> c ∈ channels port.
Proof. intros Hc Hp. destruct (channel_of_result _ _ _ _ _ Hc) as (port' & Hp' & Hin). by simplify_eq. Qed.

Lemma sent_keeps rsv c i pu cu size data fl tr k k' t p c' ch :
  history_ok rsv c tr k -> sent_effect i pu cu size data fl k k' ->
  zget (tasks k) i = Some t -> channel_of pu cu k = Ret (inl (p, c')) k -> channel_objs k !! c' = Some ch ->
  history_ok rsv c (tr ++ [Sent c' (task_uid t =? server_taskuid ch) (data, Z.land fl SENT_FLAGS)]) k'.
Proof.
  intros Hh (t1 & p1 & port & c1 & ch1 & ch' & Ht & Hc & Hp & Hch & (rs & wr & k1 & Hms & Hst) & Hq) Ht' Hc' Hch'.
  rewrite Hc' in Hc. injection Hc as <- <-. simplify_eq. apply quiet_data in Hq. assert (Ho : on_port rsv c k') by (destruct Hq as [Hq _], Hh as [Ho _];
    intros p2 port2; rewrite Hq; apply Ho).
  destruct (decide (c = c')) as [->|Hne].
  2: { apply (history_same _ _ _ _ k); [done|done|by apply (same_data_other c c' ch' k)|].
       intros d. rewrite sent_event. by rewrite (proj2 (Z.eqb_neq c' c)). }
  destruct Hh as (Hport & ch0 & l0 & l1 & Hch0 & Hok & H0 & H1). simplify_eq.
  rewrite (Hport _ _ Hp (channel_on_port _ _ _ _ _ _ Hc' Hp)) in Hms. split; [done|].
  destruct (same_data_this _ _ _ _ Hq) as (ch2 & Hch2 & Hd2).
  destruct (task_uid _ =? server_taskuid _).
  - destruct (store_to_client_ok _ _ _ _ _ _ _ _ _ _ _ _ Hok Hms Hst) as (m & Hm & Hok').
    exists ch2, l0, (l1 ++ [m]). split; [done|]. split; [by eapply chan_ok_data|].
    rewrite !sent_app, !got_app, !sent_event, fmap_app, Z.eqb_refl, H0, H1. simpl.
    by rewrite Hm, !app_assoc, !app_nil_r.
  - destruct (store_to_server_ok _ _ _ _ _ _ _ _ _ _ _ _ Hok Hms Hst) as (m & Hm & Hok').
    exists ch2, (l0 ++ [m]), l1. split; [done|]. split; [by eapply chan_ok_data|].
    rewrite !sent_app, !got_app, !sent_event, fmap_app, Z.eqb_refl, H0, H1. simpl.
    by rewrite Hm, !app_assoc, !app_nil_r.
Qed.

(** The head of a queue that is not empty. *)
Lemma queue_nonempty q l m :
  queue_rep q l -> count q <> 0 -> zget (slots q) (mq_head q) = Some m -> exists l', l = m :: l'.
Proof.
  intros Hq Hc Hm. rewrite (qr_count _ _ Hq) in Hc. destruct l as [|m' l']; [done|]. exists l'.
  rewrite (queue_head_rep _ _ _ Hq) in Hm. by injection Hm as ->.
Qed.

Lemma msg_ok_flags m : msg_ok m -> Z.land (m_flags m) SENT_FLAGS = m_flags m.
Proof. by intros [_ ?]. Qed.

Lemma got_keeps rsv c i pu cu rv tr k k' t p c' ch :
  history_ok rsv c tr k -> read_effect i pu cu rv k k' ->
  zget (tasks k) i = Some t -> channel_of pu cu k = Ret (inl (p, c')) k -> channel_objs k !! c' = Some ch ->
  history_ok rsv c (tr ++ if 0 <? rv_ret rv
    then [Got c' (negb (task_uid t =? server_taskuid ch)) (rv_bytes rv, Z.land (rv_msg_flags rv) SENT_FLAGS)]
    else []) k'.
Proof.
  intros Hh (t1 & p1 & port & c1 & ch1 & m & Ht & Hc & Hp & Hch & Hcount & Hm & Hret & Hbytes & Hfl & Hq) Ht' Hc' Hch'.
  rewrite Hc' in Hc. injection Hc as <- <-. simplify_eq.
  assert (Ho : on_port rsv c k') by (destruct Hq as [Hq _], Hh as [Ho _];
    intros p2 port2; rewrite Hq; apply Ho).
  destruct (decide (c = c')) as [->|Hne].
  2: { eapply (history_same _ _ _ _ k); [done|done|by eapply same_data_other|].
       intros d. destruct (0 <? _); [|done]. rewrite got_event. by rewrite (proj2 (Z.eqb_neq c' c)). }
  destruct Hh as (Hport & ch0 & l0 & l1 & Hch0 & Hok & H0 & H1). simplify_eq.
  rewrite (Hport _ _ Hp (channel_on_port _ _ _ _ _ _ Hc' Hp)) in Hq. split; [done|].
  destruct (same_data_this _ _ _ _ Hq) as (ch2 & Hch2 & Hd2).
  destruct (task_uid _ =? server_taskuid _); simpl negb in *; unfold queue_of in Hcount, Hm.
  - destruct (queue_nonempty _ _ _ (co_queue0 _ _ _ _ Hok) Hcount Hm) as [l0' ->].
    pose proof (co_msgs _ _ _ _ Hok) as Hms. apply Forall_cons in Hms as [Hmok _].
    exists ch2, l0', l1. split; [done|]. split; [by eapply chan_ok_data, read_by_server_ok|].
    rewrite Hret, (proj2 (Z.ltb_lt 0 _)) by apply Hmok. rewrite !sent_app, !got_app, !got_event, Z.eqb_refl, H0, H1.
    rewrite Hbytes, Hfl, msg_ok_flags by done. simpl. by rewrite !app_nil_r, <-app_assoc.
  - destruct (queue_nonempty _ _ _ (co_queue1 _ _ _ _ Hok) Hcount Hm) as [l1' ->].
    pose proof (co_msgs _ _ _ _ Hok) as Hms. apply Forall_app in Hms as [_ Hms]. apply Forall_cons in Hms as [Hmok _].
    exists ch2, l0, l1'. split; [done|]. split; [by eapply chan_ok_data, read_by_client_ok|].
    rewrite Hret, (proj2 (Z.ltb_lt 0 _)) by apply Hmok. rewrite !sent_app, !got_app, !got_event, Z.eqb_refl, H0, H1.
    rewrite Hbytes, Hfl, msg_ok_flags by done. simpl. by rewrite !app_nil_r, <-app_assoc.
Qed.

Lemma step_keeps rsv c tr k e k' : history_ok rsv c tr k -> step rsv c k e k' -> history_ok rsv c (tr ++ e) k'.
Proof.
  intros Hh Hs. inversion Hs as [regs i pu cu sm data fl k1 o k2 t p c' ch Ht Hc Hch Ho
    |i pu cu size k1 rv k2 t p c' ch Ht Hc Hch Hr|k1 k2 Hd Hp]; subst.
  - pose proof (port_send_wp regs i pu cu sm data fl k) as Hw. unfold ended, wp in *.
    destruct (port_send regs i pu cu sm data fl k) as [[err r] k3|k3| | |]; simplify_eq/=;
      [destruct Hw as [[He ->]|[-> Hw]]|].
    + rewrite (proj2 (Z.eqb_neq err 0)) by done. by rewrite app_nil_r.
    + by eapply sent_keeps.
    + by eapply sent_keeps.
  - pose proof (wp_Ret _ _ _ _ _ (port_receive_wp i pu cu size k) Hr) as (rv' & [= <-] & [[Hle Hd]|Hw]).
    + rewrite (proj2 (Z.ltb_ge 0 _)) by done. apply (history_same _ _ _ _ k); [done| |by destruct Hd|done].
      eapply same_data_port; [done|apply Hh].
    + by eapply got_keeps.
  - apply (history_same _ _ _ _ k); [done|apply Hp, Hh|done|done].
Qed.

Lemma opened_ok rsv c k : opened c k -> on_port rsv c k -> history_ok rsv c [] k.
Proof.
  intros (ch & Hch & H0 & H1 & Hu & He) Hp. split; [done|]. exists ch, [], []. split; [done|]. split; [|done].
  constructor; rewrite ?H0, ?H1, ?Hu; try done; try apply empty_queue_rep. by destruct rsv.
Qed.

Lemma steps_ok rsv c k0 tr k : opened c k0 -> on_port rsv c k0 -> steps rsv c k0 tr k -> history_ok rsv c tr k.
Proof. intros Ho Hp. induction 1; [by apply opened_ok|by eapply step_keeps]. Qed.

(** C4: a channel is reliable: over every history from its opening, of sends and receives
    by any tasks on any channels, with whatever else the kernel does in between, what each
    end got is a prefix of what the other end sent, in order and each message once; the
    rest is queued, at most fourteen messages and reserved slots a direction. *)
Theorem channel_reliable rsv c k0 tr k :
  opened c k0 -> on_port rsv c k0 -> steps rsv c k0 tr k ->
  exists ch l0 l1, channel_objs k !! c = Some ch /\
    sent c false tr = got c false tr ++ (msg_view <$> l0) /\
    sent c true tr = got c true tr ++ (msg_view <$> l1) /\
    queue_rep (queue0 ch) l0 /\ queue_rep (queue1 ch) l1 /\
    zlen l0 <= MSG_QUEUE_DEPTH /\ zlen l1 + mq_reserved (queue1 ch) <= MSG_QUEUE_DEPTH /\
    (rsv = true -> mq_reserved (queue1 ch) = server_unanswered ch + zlen (filter expects l0)).
Proof.
  intros Ho Hp Hs. destruct (steps_ok _ _ _ _ _ Ho Hp Hs) as (_ & ch & l0 & l1 & Hch & Hok & H0 & H1).
  exists ch, l0, l1. do 3 (split; [done|]). destruct Hok as [C1 C2 _ _ _ C6 _ C8 _].
  do 2 (split; [done|]). split; [apply (qr_max _ _ C1)|]. split; [done|]. by intros ->.
Qed.

(** A reply that the server owes goes into the reserved slot. *)
Lemma store_reply ch l0 l1 (data : list Z) size flags k :
  chan_ok true ch l0 l1 -> 0 < server_unanswered ch -> 0 < size <= MSG_MAX_LEN -> zlen data = size ->
  exists m ch', store_msg (M := M) ch true false true data size flags k = Ret ch' k /\
    msg_view m = (data, Z.land flags SENT_FLAGS) /\ queue_rep (queue1 ch') (l1 ++ [m]) /\
    mq_reserved (queue1 ch') = mq_reserved (queue1 ch) - 1 /\
    ch' = ch <| server_unanswered := server_unanswered ch - 1 |> <| queue1 := queue1 ch' |>.
Proof.
  intros [C1 C2 C3 C4 C5 C6 C7 C8 C9] Hu Hs Hd. pose proof (zlen_nonneg (filter expects l0)).
  destruct (store_slot _ _ _ _ flags C2 ltac:(lia) Hs Hd) as (i & h & t & old & Hpush & Hold & Hv & _ & Hq).
  unfold store_msg, queue_of. rewrite Hpush. simpl. rewrite Hold. unfold mbind, K_mbind, deref, mret, K_mret.
  rewrite Hd, Z.eqb_refl. simpl. eexists _, _.
  split; [done|]. split; [exact Hv|]. split; [apply Hq|done].
Qed.

(** The notification of a client that has no callback wakes it and returns. *)
Lemma notify_wakes regs i c pu cu s k t ch :
  zget (tasks k) i = Some t -> msg_func t = 0 -> channel_objs k !! c = Some ch ->
  exists k' ch' t', notify_peer regs i c pu cu s k = Ret regs k' /\
    channel_objs k' !! c = Some ch' /\ chan_data ch' = chan_data ch /\
    zget (tasks k') i = Some t' /\ (paused t' = false \/ wake_pending t' = true).
Proof.
  intros Ht Hf Hch. pose proof (zget_Some_range _ _ _ Ht) as Hi.
  assert (Hw : exists k1 t1, task_wake i k = Ret tt k1 /\ channel_objs k1 = channel_objs k /\
    zget (tasks k1) i = Some t1 /\ (paused t1 = false \/ wake_pending t1 = true)).
  { unfold task_wake, task_unsnooze, task_resume, mbind, K_mbind. rewrite (get_task_Some _ _ _ Ht).
    destruct (_ || _); unfold mret, K_mret.
    - rewrite (upd_task_Some _ _ _ _ Ht). eexists _, _. split; [done|]. split; [done|]. simpl.
      rewrite zget_zset_eq by done. split; [done|]. by right.
    - rewrite (upd_task_Some _ _ _ _ Ht). eexists _, _. split; [done|]. split; [done|]. simpl.
      rewrite zget_zset_eq by done. split; [done|]. by left. }
  destruct Hw as (k1 & t1 & Hw & Hc1 & Ht1 & Hwoken).
  assert (Hn : call_msg_func tasks_init task_reset_windows wm_event_crash regs i pu cu (flags_of ch s) k =
    Ret (MSG_NOTIFY_NO_CALLBACK, regs) k1).
  { unfold call_msg_func, queue_msg_func. destruct regs as [r|]; unfold mbind, K_mbind;
      rewrite (get_task_Some _ _ _ Ht), Hf; simpl; by rewrite Hw. }
  assert (Hp : msg_set_notify_pending i c s false k1 = Ret tt (k1 <| channel_objs :=
    <[c := if s then ch <| server_notify_pending := false |> else ch <| client_notify_pending := false |>]> (channel_objs k1) |>)).
  { unfold msg_set_notify_pending, upd_channel, get_channel, mbind, K_mbind.
    rewrite <-Hc1 in Hch. by rewrite Hch. }
  eexists _, _, t1. split.
  { unfold Msg.notify_peer, get_channel, mbind, K_mbind. rewrite Hch. unfold deref, mret, K_mret. rewrite Hn. simpl.
    unfold K_mret. by rewrite Hp. }
  simpl. rewrite lookup_insert_eq. split; [done|]. split; [by destruct s|done].
Qed.

(** C25: on a port whose clients reserve a slot, a server that owes a reply can always send
    it: as long as both ends are connected and the client lives, a message of at most
    [MSG_MAX_LEN] bytes that is marked as a reply is stored behind the messages queued for
    the client, however full the queues are, and one reply fewer is owed. All that
    [port_send] does then is to notify the client and return 0; a client without a callback
    is woken, and the call returns. *)
Theorem channel_reply_slot c k0 tr k regs i pu cu sm data fl t p ch r :
  opened c k0 -> on_port true c k0 -> steps true c k0 tr k ->
  zget (tasks k) i = Some t -> channel_of pu cu k = Ret (inl (p, c)) k -> channel_objs k !! c = Some ch ->
  task_uid t = server_taskuid ch -> server_connected ch = true -> client_connected ch = true ->
  0 < server_unanswered ch -> Z.land fl MSG_REPLY <> 0 ->
  0 < s_size sm <= MSG_MAX_LEN -> zlen data = s_size sm -> s_handle_count sm = 0 ->
  msg_get_task (client_taskid ch) (client_taskuid ch) k = Ret (Some r) k ->
  exists l1 m ch',
    queue_rep (queue1 ch) l1 /\ queue_rep (queue1 ch') (l1 ++ [m]) /\
    msg_view m = (data, Z.land fl SENT_FLAGS) /\
    server_unanswered ch' = server_unanswered ch - 1 /\ queue0 ch' = queue0 ch /\
    port_send regs i pu cu sm data fl k =
      (regs' ← notify_peer regs (client_taskid ch) c pu cu false; mret (0, regs'))
        (k <| channel_objs := <[c := ch']> (channel_objs k) |>) /\
    (msg_func r = 0 -> exists k' ch2 r', port_send regs i pu cu sm data fl k = Ret (0, regs) k' /\
      channel_objs k' !! c = Some ch2 /\ queue1 ch2 = queue1 ch' /\
      zget (tasks k') (client_taskid ch) = Some r' /\ (paused r' = false \/ wake_pending r' = true)).
Proof.
  intros Ho Hp Hs Ht Hc Hch Huid Hsc Hcc Hun Hfl Hsize Hlen Hhand Hr.
  destruct (steps_ok _ _ _ _ _ Ho Hp Hs) as (Hport & ch0 & l0 & l1 & Hch0 & Hok & _). simplify_eq.
  destruct (channel_of_result _ _ _ _ _ Hc) as (port & Hpo & Hin).
  destruct (store_reply ch l0 l1 data (s_size sm) fl k Hok Hun Hsize Hlen) as (m & ch' & Hst & Hv & Hq & Hres & He).
  assert (Hsend : port_send regs i pu cu sm data fl k =
    (regs' ← notify_peer regs (client_taskid ch) c pu cu false; mret (0, regs'))
      (k <| channel_objs := <[c := ch']> (channel_objs k) |>)).
  { assert (Hgp : get_port p k = Ret port k) by (unfold get_port; by rewrite Hpo).
    assert (Hgc : get_channel c k = Ret ch k) by (unfold get_channel; by rewrite Hch).
    unfold Msg.port_send. rewrite Hhand. simpl. kget Ht. kret Hc.
    rewrite (proj2 (Z.ltb_ge _ _)), (proj2 (Z.eqb_neq _ _)) by lia.
    kret Hgp. kret Hgc. cbv zeta.
    rewrite Huid, Z.eqb_refl, (Hport _ _ Hpo Hin), andb_false_r. simpl andb. simpl negb.
    rewrite (proj2 (Z.eqb_neq (Z.land fl MSG_REPLY) 0)) by done. rewrite (proj2 (Z.ltb_lt 0 _)) by done.
    change (true && true && negb false && true) with true. rewrite !andb_false_l.
    assert (send_check t port ch true true = 0) as ->.
    { unfold send_check. rewrite Huid, Z.eqb_refl, Hsc, Hcc. simpl negb. simpl andb. simpl orb. cbv iota.
      simpl queue_of. rewrite (qr_count _ _ (co_queue1 _ _ _ _ Hok)). pose proof (co_room _ _ _ _ Hok).
      rewrite (proj2 (Z.leb_gt _ _)); [done|]. simpl. lia. }
    change (negb (0 =? 0)) with false. cbv iota. kret Hr. rewrite bool_decide_eq_false_2 by done.
    rewrite ?andb_false_l. cbv iota. kret Hst.
    assert (Hup : upd_channel c (fun _ => ch') k = Ret tt (k <| channel_objs := <[c := ch']> (channel_objs k) |>))
      by (unfold upd_channel; by kret Hgc).
    by kret Hup. }
  exists l1, m, ch'. split; [apply Hok|]. split; [done|]. split; [done|]. split; [by rewrite He|].
  split; [by rewrite He|]. split; [done|]. intros Hf.
  assert (Htr : zget (tasks k) (client_taskid ch) = Some r).
  { unfold msg_get_task in Hr. destruct (_ || _); [done|]. unfold mbind, K_mbind, get_task, deref in Hr.
    destruct (zget (tasks k) (client_taskid ch)) as [t0|]; [|done]. unfold mret, K_mret in Hr.
    destruct (negb (enabled t0) || _); congruence. }
  destruct (notify_wakes regs (client_taskid ch) c pu cu false
    (k <| channel_objs := <[c := ch']> (channel_objs k) |>) r ch') as (k' & ch2 & r' & Hn & Hc2 & Hd & Htr' & Hw);
    [done|done|by simpl; rewrite lookup_insert_eq|].
  exists k', ch2, r'. split; [by rewrite Hsend; kret Hn|]. split; [done|]. split; [|done].
  by injection Hd.
Qed.

End msg_spec.

(** ** Witnesses *)

(** Task 0 opens the port "a", whose clients reserve, task 1 connects to it, sends a
    message that expects a reply, and task 0 reads it. *)
Definition talk_name : list Z := [97].
Definition talk_msg : msg_send_t := MsgSend 0 3 0 0.
Definition left_in {A} (r : res flat A) : kern flat := match r with Ret _ k | Away k => k | _ => demo_kern 0 end.
Definition talk_0 : kern flat :=
  left_in (port_connect 1 talk_name (left_in (create_port (fun _ => mret false) 0 talk_name true (demo_kern 1)))).
Definition talk_1 : kern flat :=
  left_in (port_send no_init no_reset no_crash None 1 0 0 talk_msg [1; 2; 3] MSG_EXPECT_REPLY talk_0).
Definition talk_2 : kern flat := left_in (port_receive 0 0 0 124 talk_1).

(** The address of the channel: the first block after the port. *)
Definition talk_chan : Z := 0x800000 + SIZEOF_PORT.

Lemma talk_opened : opened talk_chan talk_0.
Proof.
  destruct (channel_objs talk_0 !! talk_chan) as [ch|] eqn:Hch; [|vm_compute in Hch; done].
  exists ch. split; [exact Hch|]. vm_compute in Hch. injection Hch as <-. split_and!; [reflexivity..|done].
Qed.

Lemma talk_port : on_port true talk_chan talk_0.
Proof.
  assert (Hall : Forall (fun x => client_reserves (snd x) = true) (map_to_list (port_objs talk_0)))
    by (vm_compute; repeat constructor).
  intros p port Hp _. apply elem_of_map_to_list in Hp. by apply (proj1 (Forall_forall _ _) Hall (p, port)).
Qed.

Definition talk_trace : list event :=
  [Sent talk_chan false ([1; 2; 3], 1)] ++ [Got talk_chan false ([1; 2; 3], 1)].

Definition task_in (k : kern flat) (i : Z) : task_state_t := default (demo_task i true) (zget (tasks k) i).
Definition chan_in (k : kern flat) (c : Z) : msg_channel_t :=
  default (new_channel 0 (MsgPort 0 [] 0 0 0 [] 0 false [] 0) (demo_task 0 true) (demo_process 0)) (channel_objs k !! c).

Lemma talk_steps : steps no_init no_reset no_crash true talk_chan talk_0 talk_trace talk_2.
Proof.
  unfold talk_trace. eapply (steps_snoc _ _ _ _ _ _ _ talk_1).
  - rewrite <-(app_nil_l [Sent _ _ _]). eapply (steps_snoc _ _ _ _ _ _ _ talk_0); [constructor|].
    apply (step_send _ _ _ _ _ None 1 0 0 talk_msg [1; 2; 3] 1 talk_0 (Some (0, None)) talk_1
      (task_in talk_0 1) 0x800000 talk_chan (chan_in talk_0 talk_chan)); vm_compute; reflexivity.
  - apply (step_receive _ _ _ _ _ 0 0 0 124 talk_1 (Received 3 [1; 2; 3] 0 3) talk_2
      (task_in talk_1 0) 0x800000 talk_chan (chan_in talk_1 talk_chan)); vm_compute; reflexivity.
Qed.

Lemma channel_reliable_witness :
  sent talk_chan false talk_trace = [([1; 2; 3], 1)] /\ got talk_chan false talk_trace = [([1; 2; 3], 1)] /\
  exists ch, channel_objs talk_2 !! talk_chan = Some ch /\ mq_reserved (queue1 ch) = 1.
Proof.
  destruct (channel_reliable no_init no_reset no_crash true talk_chan talk_0 talk_trace talk_2
    talk_opened talk_port talk_steps) as (ch & l0 & l1 & Hch & H0 & _ & _ & _ & _ & _ & Hres).
  split; [reflexivity|]. split; [reflexivity|]. exists ch. split; [exact Hch|].
  rewrite (Hres eq_refl). destruct l0; [|vm_compute in H0; done].
  vm_compute in Hch. by injection Hch as <-.
Defined.

(** The reply of task 0 is stored and returns 0. *)
Lemma channel_reply_slot_witness :
  exists k' ch, port_send no_init no_reset no_crash None 0 0 0 talk_msg [4; 5; 6] MSG_REPLY talk_2 =
      Ret (0, None) k' /\
    channel_objs k' !! talk_chan = Some ch /\ count (queue1 ch) = 1.
Proof.
  destruct (channel_reply_slot no_init no_reset no_crash talk_chan talk_0 talk_trace talk_2 None 0 0 0 talk_msg
    [4; 5; 6] MSG_REPLY (task_in talk_2 0) 0x800000 (chan_in talk_2 talk_chan) (task_in talk_2 1)
    talk_opened talk_port talk_steps) as (l1 & m & ch' & Hq & Hq' & _ & _ & _ & _ & Hret);
    try (vm_compute; reflexivity); try done; [vm_compute; done..|].
  destruct Hret as (k' & ch2 & r' & Hs & Hc & He & _); [vm_compute; done|].
  exists k', ch2. split; [exact Hs|]. split; [exact Hc|]. rewrite He, (qr_count _ _ Hq'), zlen_app.
  assert (Hl : count (queue1 (chan_in talk_2 talk_chan)) = 0) by (vm_compute; done).
  by rewrite <-(qr_count _ _ Hq), Hl.
Defined.
