(* ===== verification/MsgCall.v ===== *)
(** * Synchronous calls between tasks (msg.c)

    A client calls a server over a channel: the message waits in the channel until a thread
    of the server receives it, and the client waits until the server replies to the uid the
    receipt carries. The message is copied from one address space to the other, and the
    handles it names are duplicated into the other process; the handle tables are the
    component KObj, whose operations are arguments here. *)

From S2P Require Import Kern Sched Events Msg.

Local Open Scope Z_scope.

(** The handles of a process, by its address: [process_copy_kobj], [process_release_kobj],
    and whether a handle is valid and of a kind that can be connected. *)
Class Handles (M : Type) := {
  process_copy_kobj : Z -> Z -> Z -> K M Z;
  process_release_kobj : Z -> Z -> K M unit;
  handle_connects : Z -> Z -> K M bool }.

Section call.
Context {M : Type} `{!Space M, !Handles M}.
Context (tasks_init : registers_t -> K M registers_t).
Implicit Types (k : kern M).

(** ** Threads of the server that wait on a port *)

(** The slot for task [uid]: its own, or the first that is free or stale. *)
Fixpoint waiter_slot_loop (n : nat) (i : Z) (slot : option Z) (ws : list msg_waiter_t) (uid : Z)
    : K M (option Z) :=
  match n with
  | O => mret slot
  | S n =>
      w ← deref (zget ws i);
      if active w && (w_task_uid w =? uid) then mret (Some i)
      else
        slot ← match slot with
               | Some _ => mret slot
               | None =>
                   if negb (active w) then mret (Some i)
                   else t ← msg_get_task (w_task_id w) (w_task_uid w);
                        mret (if bool_decide (t = None) then Some i else None)
               end;
        waiter_slot_loop n (i + 1) slot ws uid
  end.

Definition msg_add_waiter (p i : Z) (recv : msg_recv_t) (recv_user : Z) : K M bool :=
  t ← get_task i;
  port ← get_port p;
  slot ← waiter_slot_loop (Z.to_nat MAX_TASK_THREADS) 0 None (port_waiters port) (task_uid t);
  match slot with
  | None => mret false
  | Some s =>
      _ ← upd_port p (fun port => port <| port_waiters := zset (port_waiters port) s
            (MsgWaiter true (task_id t) (task_uid t) recv recv_user) |>);
      mret true
  end.

Definition msg_remove_waiter (p i : Z) : K M unit :=
  t ← get_task i;
  upd_port p (fun port => port <| port_waiters :=
    (fun w => if active w && (w_task_uid w =? task_uid t) then w <| active := false |> else w)
      <$> port_waiters port |>).

Definition set_waiter_inactive (p w : Z) : K M unit :=
  port ← get_port p;
  x ← deref (zget (port_waiters port) w);
  upd_port p (fun port => port <| port_waiters := zset (port_waiters port) w (x <| active := false |>) |>).

Fixpoint find_waiter_loop (n : nat) (i p : Z) : K M Z :=
  match n with
  | O => mret (-1)
  | S n =>
      port ← get_port p;
      w ← deref (zget (port_waiters port) i);
      if negb (active w) then find_waiter_loop n (i + 1) p
      else
        t ← msg_get_task (w_task_id w) (w_task_uid w);
        match t with
        | Some t =>
            if negb (paused t) || bool_decide (pause_reason t <> PAUSE_MSG_RECEIVE)
            then _ ← set_waiter_inactive p i; find_waiter_loop n (i + 1) p
            else mret i
        | None => _ ← set_waiter_inactive p i; find_waiter_loop n (i + 1) p
        end
  end.

Definition msg_find_waiter (p : Z) : K M Z := find_waiter_loop (Z.to_nat MAX_TASK_THREADS) 0 p.

(** ** Copies between tasks *)

Definition task_copy_to (i dest : Z) (bytes : list Z) : K M Z :=
  t ← get_task i; pr ← get_process (t_process t); m ← gets k_mem;
  r ← deref (copy_to_task m (page_dir pr) (heap_start pr) (heap_end pr) dest bytes);
  _ ← modify (fun k => k <| k_mem := snd r |>);
  mret (fst r).

Definition task_copy_from (i src size : Z) : K M (option (list Z)) :=
  t ← get_task i; pr ← get_process (t_process t); m ← gets k_mem;
  r ← deref (copy_from_task m (page_dir pr) (heap_start pr) (heap_end pr) src size);
  _ ← modify (fun k => k <| k_mem := snd r |>);
  mret (fst r).

(** The bytes when all [size] of them were copied. *)
Definition msg_copy_from_sender (i src size : Z) : K M (option (list Z)) :=
  cur ← get_current_task;
  if i =? cur then m ← gets k_mem; l ← deref (read_user m src size); mret (Some l)
  else
    r ← task_copy_from i src size;
    mret (match r with Some l => if zlen l =? size then Some l else None | None => None end).

Record msg_copy_receipt_t := Receipt {
  rc_bytes : Z; rc_handles : Z; sender_status : Z; receiver_status : Z }.

(** [offsetof(msg_recv_t, bytes_received)] *)
Definition RECEIPT_OFFSET : Z := 16.

Definition msg_write_receipt (i recv_user : Z) (send : msg_send_t) (bytes handles call_uid : Z) : K M bool :=
  n ← task_copy_to i (u32 (recv_user + RECEIPT_OFFSET))
        (words [u32 bytes; u32 (s_size send); u32 (s_handle_count send); u32 handles; call_uid]);
  mret (n =? 20).

Fixpoint msg_free_handles (p : Z) (l : list Z) : K M unit :=
  match l with
  | [] => mret tt
  | h :: l => _ ← process_release_kobj p h; msg_free_handles p l
  end.

(** Duplicate the handles one by one: the new ones, or those made and the error. *)
Fixpoint copy_handles_loop (sp rp : Z) (hs new : list Z) : K M (list Z * Z) :=
  match hs with
  | [] => mret (new, 0)
  | h :: hs =>
      h' ← process_copy_kobj sp rp h;
      if h' <? 0 then mret (new, h') else copy_handles_loop sp rp hs (new ++ [h'])
  end.

Definition signed_words (l : list Z) : list Z :=
  (fun i => s32 (le32 l (4 * i))) <$> seqZ 0 (zlen l / 4).

(** Copy [send] of task [si] to [recv] of task [ri], then write the receipt. *)
Definition msg_do_copy (si ri : Z) (send : msg_send_t) (recv : msg_recv_t) (recv_user call_uid : Z)
    : K M msg_copy_receipt_t :=
  st ← get_task si; rt ← get_task ri;
  let fail bytes s r := mret (Receipt bytes 0 s r) in
  let finish bytes handles hs :=
    ok ← msg_write_receipt ri recv_user send bytes handles call_uid;
    if ok : bool then mret (Receipt bytes handles 0 0)
    else _ ← msg_free_handles (t_process rt) hs;
         mret (Receipt bytes handles MSG_ERR_PEER_INVALID_MSG MSG_ERR_INVALID_MSG) in
  let copy_handles bytes :=
    let n := Z.min (s_handle_count send) (r_handle_count recv) in
    if n <=? 0 then finish bytes 0 []
    else if MSG_MAX_HANDLES <? n then fault
    else
      l ← msg_copy_from_sender si (s_handles send) (4 * n);
      match l with
      | None => fail bytes MSG_ERR_INVALID_HANDLES 0
      | Some l =>
          c ← copy_handles_loop (t_process st) (t_process rt) (signed_words l) [];
          let '(hs, err) := c in
          if err <? 0 then
            _ ← msg_free_handles (t_process rt) hs;
            if err =? -2 then fail bytes MSG_ERR_PEER_INVALID_HANDLES MSG_ERR_LIMIT
            else fail bytes MSG_ERR_INVALID_HANDLES 0
          else
            sz ← task_copy_to ri (r_handles recv) (words (u32 <$> hs));
            if negb (sz =? 4 * n) then
              _ ← msg_free_handles (t_process rt) hs;
              fail bytes MSG_ERR_PEER_INVALID_HANDLES MSG_ERR_INVALID_HANDLES
            else finish bytes n hs
      end in
  if s_buffer send =? 0 then copy_handles 0
  else
    let copy_len := Z.min (r_buffer_size recv) (s_size send) in
    if (copy_len <? 0) || (MSG_MAX_LEN <? copy_len) then fault
    else
      l ← msg_copy_from_sender si (s_buffer send) copy_len;
      match l with
      | None => fail 0 MSG_ERR_INVALID_BUF 0
      | Some l =>
          n ← task_copy_to ri (r_buffer recv) l;
          if negb (n =? copy_len) then fail 0 MSG_ERR_PEER_INVALID_BUF MSG_ERR_INVALID_BUF
          else copy_handles copy_len
      end.

(** ** The calls *)

(** [task->registers.ebx = v] *)
Definition set_ebx (i v : Z) : K M unit :=
  upd_task i (fun t => t <| registers := (registers t) <| ebx := u32 v |> |>).

Fixpoint check_handles_loop (p : Z) (hs : list Z) : K M bool :=
  match hs with
  | [] => mret true
  | h :: hs => ok ← handle_connects p h; if ok : bool then check_handles_loop p hs else mret false
  end.

(** The handles of the current task, read from its memory one by one. *)
Definition msg_check_handles (p handles size : Z) : K M bool :=
  if size <=? 0 then mret true
  else
    m ← gets k_mem;
    l ← deref (read_user m handles (4 * size));
    check_handles_loop p (signed_words l).

Definition channel_has_waiting_send (ch : msg_channel_t) : bool :=
  negb (s_buffer (client_send_msg ch) =? 0) || (0 <? s_handle_count (client_send_msg ch)).

Definition SIZEOF_SEND : Z := 16.
Definition SIZEOF_RECV : Z := 36.

(** [task_validate_mem] for the current task. *)
Definition validate_current (vaddr len : Z) (rw : bool) : K M bool :=
  cur ← get_current_task; t ← get_task cur; pr ← get_process (t_process t); m ← gets k_mem;
  deref (task_validate_mem m (page_dir pr) (heap_start pr) (heap_end pr) vaddr len rw).

Definition msg_validate (addr size buffer len handles handle_count : Z) (rw : bool) : K M Z :=
  ok ← validate_current addr size rw;
  if negb ok then mret MSG_ERR_INVALID_MSG
  else
    ok ← validate_current buffer len rw;
    if negb ok then mret MSG_ERR_INVALID_BUF
    else if MSG_MAX_HANDLES <? handle_count then mret MSG_ERR_TOO_MANY_HANDLES
    else if handle_count <? 0 then mret MSG_ERR_INVALID_MSG
    else
      ok ← validate_current handles (4 * handle_count) rw;
      if negb ok then mret MSG_ERR_INVALID_HANDLES else mret 0.

Definition msg_validate_send (addr : Z) (msg : msg_send_t) : K M Z :=
  msg_validate addr SIZEOF_SEND (s_buffer msg) (s_size msg) (s_handles msg) (s_handle_count msg) false.

Definition msg_validate_recv (addr : Z) (msg : msg_recv_t) : K M Z :=
  msg_validate addr SIZEOF_RECV (r_buffer msg) (r_buffer_size msg) (r_handles msg) (r_handle_count msg) true.

Fixpoint task_channel_loop (n : nat) (i : Z) (l : list Z) (uid : Z) : K M Z :=
  match n with
  | O => mret 0
  | S n =>
      c ← deref (zget l i);
      if c =? 0 then task_channel_loop n (i + 1) l uid
      else ch ← get_channel c; if c_uid ch =? uid then mret c else task_channel_loop n (i + 1) l uid
  end.

(** [call_uid_counter++] *)
Definition next_call_uid : K M Z :=
  uid ← gets call_uid_counter;
  _ ← modify (fun k => k <| call_uid_counter := u32 (uid + 1) |>);
  mret uid.

Definition msg_call (regs : registers_t) (i channel_uid : Z) (send_msg : msg_send_t) (recv : msg_recv_t)
    (recv_user : Z) : K M (Z * registers_t) :=
  let ret c := mret (c, regs) in
  if MSG_MAX_LEN <? s_size send_msg then ret MSG_ERR_TOO_LONG
  else if (s_size send_msg =? 0) && (s_handle_count send_msg =? 0) then ret MSG_ERR_EMPTY_MSG
  else
    t ← get_task i;
    c ← task_channel_loop (Z.to_nat (msg_channel_count t)) 0 (msg_channels t) channel_uid;
    if c =? 0 then ret MSG_ERR_CHANNEL_NOT_FOUND
    else
      ch ← get_channel c;
      p ← find_port_by_uid (c_port_uid ch);
      if p =? 0 then ret MSG_ERR_PORT_NOT_FOUND
      else if negb (task_uid t =? client_taskuid ch) then ret MSG_ERR_DENIED
      else if negb (client_connected ch) then ret MSG_ERR_DISCONNECTED
      else if negb (server_connected ch) then ret MSG_ERR_PEER_DISCONNECTED
      else
        ok ← msg_check_handles (t_process t) (s_handles send_msg) (s_handle_count send_msg);
        if negb ok then ret MSG_ERR_INVALID_HANDLES
        else
          _ ← upd_channel c (fun ch => ch <| client_recv_msg := recv |> <| client_recv_msg_user := recv_user |>);
          w ← msg_find_waiter p;
          if w <? 0 then
            _ ← upd_channel c (fun ch => ch <| client_send_msg := send_msg |>);
            _ ← task_pause i PAUSE_MSG_CALL;
            regs ← switch_task tasks_init regs false;
            mret (0, regs)
          else
            port ← get_port p;
            waiter ← deref (zget (port_waiters port) w);
            let server := w_task_id waiter in
            call_uid_ ← next_call_uid;
            r ← msg_do_copy i server send_msg (recv_msg waiter) (recv_msg_user waiter) call_uid_;
            if sender_status r <? 0 then
              _ ← when (receiver_status r <? 0)
                    (_ ← set_waiter_inactive p w;
                     _ ← set_ebx server (receiver_status r);
                     task_resume server);
              ret (sender_status r)
            else
              _ ← set_waiter_inactive p w;
              _ ← upd_channel c (fun ch => ch <| call_uid := call_uid_ |>);
              _ ← set_ebx server (rc_bytes r);
              _ ← task_pause i PAUSE_MSG_CALL;
              _ ← task_resume server;
              st ← get_task server;
              r ← switch_to_task (task_id st) regs;
              mret (0, snd r).

(** The stored calls of a port, the first that can be copied; [Some] when the loop returns
    from [msg_receive]. *)
Fixpoint receive_loop (n : nat) (j p i : Z) (regs : registers_t) (recv : msg_recv_t) (recv_user : Z)
    : K M (option (Z * registers_t)) :=
  match n with
  | O => mret None
  | S n =>
      let next := receive_loop n (j + 1) p i regs recv recv_user in
      port ← get_port p;
      c ← deref (zget (channels port) j);
      if c =? 0 then next
      else
        ch ← get_channel c;
        if negb (server_connected ch) || negb (channel_has_waiting_send ch) then next
        else
          ct ← msg_get_task (client_taskid ch) (client_taskuid ch);
          if bool_decide (ct = None) then next
          else
            let client := client_taskid ch in
            let send_msg := client_send_msg ch in
            _ ← upd_channel c (fun ch => ch <| client_send_msg :=
                  (client_send_msg ch) <| s_buffer := 0 |> <| s_handle_count := 0 |> |>);
            call_uid_ ← next_call_uid;
            r ← msg_do_copy client i send_msg recv recv_user call_uid_;
            if sender_status r <? 0 then
              _ ← set_ebx client (sender_status r);
              _ ← task_resume client;
              if receiver_status r <? 0 then mret (Some (receiver_status r, regs)) else next
            else
              _ ← upd_channel c (fun ch => ch <| call_uid := call_uid_ |>);
              mret (Some (0, regs <| ebx := u32 (rc_bytes r) |>))
  end.

Definition msg_receive (regs : registers_t) (i port_uid_ : Z) (recv : msg_recv_t) (recv_user : Z)
    : K M (Z * registers_t) :=
  p ← find_port_by_uid port_uid_;
  if p =? 0 then mret (MSG_ERR_PORT_NOT_FOUND, regs)
  else
    t ← get_task i;
    pr ← get_process (t_process t);
    port ← get_port p;
    if negb (p_uid pr =? owner_uid port) then mret (MSG_ERR_DENIED, regs)
    else
      r ← receive_loop (Z.to_nat (channel_count port)) 0 p i regs recv recv_user;
      match r with
      | Some r => mret r
      | None =>
          ok ← msg_add_waiter p i recv recv_user;
          if negb ok then mret (MSG_ERR_LIMIT, regs)
          else
            _ ← task_pause i PAUSE_MSG_RECEIVE;
            regs ← switch_task tasks_init regs false;
            mret (0, regs)
      end.

Definition msg_get_peer_error (err : Z) : Z :=
  if err =? MSG_ERR_INVALID_BUF then MSG_ERR_PEER_INVALID_BUF
  else if err =? MSG_ERR_INVALID_HANDLES then MSG_ERR_PEER_INVALID_HANDLES
  else MSG_ERR_PEER_INVALID_MSG.

(** The channel of a port with the uid of a call, or 0. *)
Fixpoint call_in_port (n : nat) (j : Z) (l : list Z) (uid : Z) : K M Z :=
  match n with
  | O => mret 0
  | S n =>
      c ← deref (zget l j);
      if c =? 0 then call_in_port n (j + 1) l uid
      else ch ← get_channel c; if call_uid ch =? uid then mret c else call_in_port n (j + 1) l uid
  end.

Fixpoint call_in_ports (n : nat) (j : Z) (l : list Z) (uid : Z) : K M Z :=
  match n with
  | O => mret 0
  | S n =>
      p ← deref (zget l j);
      if p =? 0 then call_in_ports n (j + 1) l uid
      else
        port ← get_port p;
        c ← call_in_port (Z.to_nat (channel_count port)) 0 (channels port) uid;
        if c =? 0 then call_in_ports n (j + 1) l uid else mret c
  end.

(** The client goes on with [v] in ebx. *)
Definition wake_client (client v : Z) : K M unit := _ ← set_ebx client v; task_resume client.

Definition msg_reply (regs : registers_t) (i uid addr : Z) (send_msg : msg_send_t) : K M (Z * registers_t) :=
  let ret c := mret (c, regs) in
  if uid =? 0 then ret MSG_ERR_MSG_NOT_FOUND
  else
    t ← get_task i;
    pr ← get_process (t_process t);
    c ← call_in_ports (Z.to_nat (port_count pr)) 0 (p_ports pr) uid;
    if c =? 0 then ret MSG_ERR_MSG_NOT_FOUND
    else
      _ ← upd_channel c (fun ch => ch <| call_uid := 0 |>);
      ch ← get_channel c;
      let client := client_taskid ch in
      ct ← msg_get_task client (client_taskuid ch);
      match ct with
      | None => ret MSG_ERR_PEER_DISCONNECTED
      | Some ct =>
          if bool_decide (pause_reason ct <> PAUSE_MSG_CALL) then ret MSG_ERR_PEER_DISCONNECTED
          else
            err ← msg_validate_send addr send_msg;
            if err <? 0 then _ ← wake_client client (msg_get_peer_error err); ret err
            else if MSG_MAX_LEN <? s_size send_msg then
              _ ← wake_client client MSG_ERR_PEER_INVALID_MSG; ret MSG_ERR_TOO_LONG
            else
              ok ← msg_check_handles (t_process t) (s_handles send_msg) (s_handle_count send_msg);
              if negb ok then
                _ ← wake_client client MSG_ERR_PEER_INVALID_HANDLES; ret MSG_ERR_INVALID_HANDLES
              else
                r ← msg_do_copy i client send_msg (client_recv_msg ch) (client_recv_msg_user ch) 0;
                if sender_status r <? 0 then
                  _ ← wake_client client (if receiver_status r <? 0 then receiver_status r
                                          else msg_get_peer_error (sender_status r));
                  ret (sender_status r)
                else
                  _ ← set_ebx client (rc_bytes r);
                  let regs := regs <| ebx := u32 (rc_bytes r) |> in
                  _ ← task_resume client;
                  r ← switch_to_task (task_id ct) regs;
                  mret (0, snd r)
      end.

End call.
