(* ===== verification/MsgCalm.v ===== *)
(** * What the parts of a call leave alone (msg.c)

    A call copies messages, wakes tasks and changes registers and waiters. A preorder is
    [Calm] when such changes respect it; every helper of [msg_call], [msg_receive] and
    [msg_reply] keeps every such preorder. The uids of calls ([MsgCallSpec]) and the
    pointers between ports, channels and tasks ([MsgLinks]) are two of them. *)

From S2P Require Import Kern Sched Events Hoare Quiet Msg MsgCall.

Local Open Scope Z_scope.

(** The pointers of a port and of a channel. *)
Definition port_link (port : msg_port_t) : Z * list Z * Z * Z :=
  (owner_uid port, channels port, channel_count port, port_next port).
Definition chan_link (ch : msg_channel_t) : Z * Z := (client_taskid ch, client_taskuid ch).

Class Calm {M} (R : kern M -> kern M -> Prop) : Prop := {
  calm_preorder :: PreOrder R;
  calm_quiet k k' : quiet k k' -> R k k';
  calm_mem k m : R k (k <| k_mem := m |>);
  calm_task k i t t' : zget (tasks k) i = Some t -> ends_of t' = ends_of t ->
    R k (k <| tasks := zset (tasks k) i t' |>);
  calm_port k p x y : port_objs k !! p = Some x -> port_link y = port_link x ->
    R k (k <| port_objs := <[p := y]> (port_objs k) |>);
  calm_channel k c x y : channel_objs k !! c = Some x -> call_uid y = call_uid x -> chan_link y = chan_link x ->
    R k (k <| channel_objs := <[c := y]> (channel_objs k) |>) }.

#[global] Hint Mode Calm - ! : typeclass_instances.

(** The handle tables do not concern tasks, ports and channels. *)
Class QuietHandles (M : Type) `{!Handles M} : Prop := {
  quiet_copy sp rp h : returns quiet (process_copy_kobj sp rp h);
  quiet_release p h : returns quiet (process_release_kobj p h);
  quiet_connects p h : returns quiet (handle_connects p h) }.

Section calm.
Context {M : Type} `{!Space M, !Handles M, !QuietHandles M} (R : kern M -> kern M -> Prop) `{!Calm R}.
Implicit Types (k : kern M).

Lemma calm_reads {A} (m : K M A) : returns eq m -> returns R m.
Proof. apply returns_mono. by intros k k' ->. Qed.

Lemma calm_quiet_returns {A} (m : K M A) : returns quiet m -> returns R m.
Proof. apply returns_mono, calm_quiet. Qed.

Lemma calm_upd_task i f : (forall t, ends_of (f t) = ends_of t) -> returns R (upd_task i f).
Proof.
  intros Hf k. unfold upd_task, mbind, K_mbind, get_task, deref.
  destruct (zget (tasks k) i) as [t|] eqn:Ht; simpl; [|done]. by apply (calm_task k i t).
Qed.

Lemma calm_upd_port p f : (forall x, port_link (f x) = port_link x) -> returns R (upd_port p f).
Proof.
  intros Hf k. unfold upd_port, mbind, K_mbind, get_port, deref.
  destruct (port_objs k !! p) as [x|] eqn:Hx; simpl; [|done]. by apply (calm_port k p x).
Qed.

Lemma calm_upd_channel c f :
  (forall x, call_uid (f x) = call_uid x /\ chan_link (f x) = chan_link x) -> returns R (upd_channel c f).
Proof.
  intros Hf k. unfold upd_channel, mbind, K_mbind, get_channel, deref.
  destruct (channel_objs k !! c) as [x|] eqn:Hx; simpl; [|done]. destruct (Hf x). by apply (calm_channel k c x).
Qed.

Lemma calm_set_mem m : returns R (modify (fun k => k <| k_mem := m |>)).
Proof. intros k. apply calm_mem. Qed.

End calm.

(** [keeps] and [returns] of a calm preorder, for whatever uses the helpers. *)
#[export] Hint Extern 1 (returns _ (find_port _)) => apply calm_reads, find_port_reads; typeclasses eauto : keeps.
#[export] Hint Extern 1 (returns _ (find_port_by_uid _)) => apply calm_reads, find_port_reads; typeclasses eauto : keeps.
#[export] Hint Extern 1 (returns _ (find_channel _ _)) => apply calm_reads, find_channel_reads; typeclasses eauto : keeps.
#[export] Hint Extern 1 (returns _ (msg_get_task _ _)) => apply calm_reads, msg_get_task_reads; typeclasses eauto : keeps.
#[export] Hint Extern 1 (returns _ (upd_task _ _)) => apply calm_upd_task; [typeclasses eauto|done] : keeps.
#[export] Hint Extern 1 (returns _ (upd_port _ _)) => apply calm_upd_port; [typeclasses eauto|done] : keeps.
#[export] Hint Extern 1 (returns _ (upd_channel _ _)) => apply calm_upd_channel; [typeclasses eauto|done] : keeps.
#[export] Hint Extern 1 (returns _ (modify (fun k => k <| k_mem := _ |>))) => apply calm_set_mem; typeclasses eauto : keeps.
#[export] Hint Extern 1 (returns _ (process_copy_kobj _ _ _)) => apply calm_quiet_returns, quiet_copy; typeclasses eauto : keeps.
#[export] Hint Extern 1 (returns _ (process_release_kobj _ _)) => apply calm_quiet_returns, quiet_release; typeclasses eauto : keeps.
#[export] Hint Extern 1 (returns _ (handle_connects _ _)) => apply calm_quiet_returns, quiet_connects; typeclasses eauto : keeps.

Section helpers.
Context {M : Type} `{!Space M, !Handles M, !QuietHandles M} (R : kern M -> kern M -> Prop) `{!Calm R}.
Implicit Types (k : kern M).

Lemma set_waiter_inactive_calm p w : returns R (set_waiter_inactive p w).
Proof. unfold set_waiter_inactive. returns. Qed.
#[local] Hint Resolve set_waiter_inactive_calm : keeps.

Lemma msg_find_waiter_calm p : returns R (msg_find_waiter p).
Proof.
  unfold msg_find_waiter. generalize (Z.to_nat MAX_TASK_THREADS) 0. intros n.
  induction n as [|n IH]; intros i; cbn [find_waiter_loop]; returns; apply IH.
Qed.

Lemma msg_add_waiter_calm p i recv ru : returns R (msg_add_waiter p i recv ru).
Proof.
  assert (Hl : forall n j s ws u, returns R (waiter_slot_loop (M := M) n j s ws u)).
  { induction n as [|n IH]; intros; cbn [waiter_slot_loop]; returns; apply IH. }
  unfold msg_add_waiter. returns.
Qed.

Lemma task_copy_to_calm i d l : returns R (task_copy_to i d l).
Proof. unfold task_copy_to. returns. Qed.

Lemma task_copy_from_calm i s n : returns R (task_copy_from i s n).
Proof. unfold task_copy_from. returns. Qed.
#[local] Hint Resolve msg_find_waiter_calm msg_add_waiter_calm task_copy_to_calm task_copy_from_calm : keeps.

Lemma msg_copy_from_sender_calm i s n : returns R (msg_copy_from_sender i s n).
Proof. unfold msg_copy_from_sender, get_current_task. returns. Qed.

Lemma msg_write_receipt_calm i ru s b h u : returns R (msg_write_receipt i ru s b h u).
Proof. unfold msg_write_receipt. returns. Qed.

Lemma msg_free_handles_calm p l : returns R (msg_free_handles p l).
Proof. induction l; cbn [msg_free_handles]; returns. Qed.

Lemma copy_handles_calm sp rp hs new : returns R (copy_handles_loop sp rp hs new).
Proof. revert new. induction hs as [|h hs IH]; intros new; cbn [copy_handles_loop]; returns; apply IH. Qed.
#[local] Hint Resolve msg_copy_from_sender_calm msg_write_receipt_calm msg_free_handles_calm copy_handles_calm : keeps.

Lemma msg_do_copy_calm si ri send recv ru u : returns R (msg_do_copy si ri send recv ru u).
Proof. unfold msg_do_copy. returns. Qed.

Lemma check_handles_calm p h n : returns R (msg_check_handles p h n).
Proof.
  assert (Hl : forall hs, returns R (check_handles_loop (M := M) p hs)).
  { induction hs as [|x hs IH]; cbn [check_handles_loop]; returns. }
  unfold msg_check_handles. returns.
Qed.

Lemma msg_validate_calm a s b l h n rw : returns R (msg_validate a s b l h n rw).
Proof. unfold msg_validate, validate_current, get_current_task. returns. Qed.

Lemma task_channel_loop_calm n i l uid : returns R (task_channel_loop n i l uid).
Proof. revert i. induction n as [|n IH]; intros; cbn [task_channel_loop]; returns; apply IH. Qed.

Lemma task_pause_calm i r : returns R (task_pause i r).
Proof. unfold task_pause. returns. Qed.

Lemma task_resume_calm i : returns R (task_resume i).
Proof. unfold task_resume. returns. Qed.

Lemma set_ebx_calm i v : returns R (set_ebx i v).
Proof. unfold set_ebx. returns. Qed.
#[local] Hint Resolve task_resume_calm set_ebx_calm : keeps.

Lemma wake_client_calm i v : returns R (wake_client i v).
Proof. unfold wake_client. returns. Qed.

(** Leaving the processor. *)
Lemma calm_quiet_keeps {A} (m : K M A) : keeps quiet m -> keeps R m.
Proof. apply keeps_mono, calm_quiet. Qed.

Lemma switch_to_task_calm i regs : keeps R (switch_to_task i regs).
Proof. apply calm_quiet_keeps, switch_to_task_quiet. Qed.

End helpers.

#[export] Hint Resolve set_waiter_inactive_calm msg_find_waiter_calm msg_add_waiter_calm msg_do_copy_calm
  check_handles_calm msg_validate_calm task_channel_loop_calm task_pause_calm task_resume_calm set_ebx_calm
  wake_client_calm switch_to_task_calm : keeps.
#[export] Hint Extern 5 (keeps _ _) => apply returns_keeps; solve [returns] : keeps.

(** Processes without handles. *)
#[export] Instance no_handles : Handles flat := {
  process_copy_kobj _ _ _ := mret (-1);
  process_release_kobj _ _ := mret tt;
  handle_connects _ _ := mret false }.

#[export] Instance quiet_no_handles : QuietHandles flat.
Proof. split; intros; apply returns_mret; typeclasses eauto. Qed.
