(* ===== verification/MsgCallSpec.v ===== *)
(** * Synchronous calls: the theorems (msg.c)

    Every call that reaches a server gets a uid of its own, and a reply to a uid is accepted
    at most once. *)

From S2P Require Import Kern Sched Events Hoare Quiet Msg MsgSpec MsgCall MsgCalm.

Local Open Scope Z_scope.

(** What leaves the calls alone: the uids the channels carry and the next uid. *)
Definition same_calls {M} (k k' : kern M) : Prop :=
  call_uid_counter k' = call_uid_counter k /\
  forall c, call_uid <$> channel_objs k' !! c = call_uid <$> channel_objs k !! c.

#[global] Instance same_calls_preorder {M} : PreOrder (@same_calls M).
Proof. split; [done|]. intros k1 k2 k3 [H1 H2] [H3 H4]. split; [congruence|]. intros i. by rewrite H4. Qed.

Lemma quiet_calls {M} (k k' : kern M) : quiet k k' -> same_calls k k'.
Proof.
  intros (_ & (_ & _ & Hc) & (He & _) & _). split; [done|]. intros c. specialize (Hc c).
  destruct (channel_objs k' !! c) as [ch'|], (channel_objs k !! c) as [ch|]; [|done..].
  change (Some (channel_core ch') = Some (channel_core ch)) in Hc. simpl.
  change (call_uid ch') with (call_uid (channel_core ch')).
  change (call_uid ch) with (call_uid (channel_core ch)). congruence.
Qed.

Section call_spec.
Context {M : Type} `{!Space M, !Handles M}.
Context (tasks_init : registers_t -> K M registers_t)
  (task_reset_windows : Z -> K M unit) (wm_event_crash : Z -> Z -> Z -> K M unit).
Context `{!QuietGui tasks_init task_reset_windows wm_event_crash}.
Implicit Types (k : kern M).

Context `{!QuietHandles M}.

#[local] Instance same_calls_calm : Calm (M := M) same_calls.
Proof.
  split; [typeclasses eauto|apply quiet_calls|done|done|done|]. intros k c x y Hc E _. split; [done|].
  intros c'. by eapply fmap_insert_same.
Qed.

(** ** The uids in use

    [A] are the uids that were answered; there is room for [b] more calls before the
    counter wraps around. *)

Record calls_ok (A : list Z) (b : Z) k : Prop := {
  cu_counter : 1 <= call_uid_counter k;
  cu_room : call_uid_counter k + b < 2 ^ 32;
  cu_uid c ch : channel_objs k !! c = Some ch ->
    call_uid ch = 0 \/ (1 <= call_uid ch < call_uid_counter k /\ call_uid ch ∉ A);
  cu_once c1 c2 ch1 ch2 : channel_objs k !! c1 = Some ch1 -> channel_objs k !! c2 = Some ch2 ->
    call_uid ch1 = call_uid ch2 -> call_uid ch1 <> 0 -> c1 = c2;
  cu_answered u : u ∈ A -> u < call_uid_counter k }.

Definition unused (u : Z) k : Prop :=
  forall c ch, channel_objs k !! c = Some ch -> call_uid ch <> u.

Lemma same_calls_back k k' c ch' :
  same_calls k k' -> channel_objs k' !! c = Some ch' ->
  exists ch, channel_objs k !! c = Some ch /\ call_uid ch' = call_uid ch.
Proof.
  intros [_ Hc] Hch. specialize (Hc c). rewrite Hch in Hc.
  destruct (channel_objs k !! c) as [ch|]; [|done]. exists ch. split; [done|].
  change (Some (call_uid ch') = Some (call_uid ch)) in Hc. congruence.
Qed.

Lemma calls_ok_same A b k k' : same_calls k k' -> calls_ok A b k -> calls_ok A b k'.
Proof.
  intros Hs [C1 C2 C3 C4 C5]. pose proof (proj1 Hs) as Hn. constructor; rewrite ?Hn; try done.
  - intros c ch Hch. destruct (same_calls_back _ _ _ _ Hs Hch) as (ch0 & H0 & ->). eauto.
  - intros c1 c2 ch1 ch2 H1 H2 He Hz. destruct (same_calls_back _ _ _ _ Hs H1) as (x1 & H1' & E1).
    destruct (same_calls_back _ _ _ _ Hs H2) as (x2 & H2' & E2). rewrite E1, E2 in He. rewrite E1 in Hz. eauto.
Qed.

Lemma calls_ok_less A A' b b' k : A' ⊆ A -> b' <= b -> calls_ok A b k -> calls_ok A' b' k.
Proof.
  intros HA Hb [C1 C2 C3 C4 C5]. constructor; [done|lia| |done|].
  - intros c ch Hch. destruct (C3 c ch Hch) as [|[? ?]]; [by left|]. right. split; [done|]. set_solver.
  - set_solver.
Qed.

Lemma unused_same u k k' : same_calls k k' -> unused u k -> unused u k'.
Proof. intros Hs Hu c ch Hch. destruct (same_calls_back _ _ _ _ Hs Hch) as (x & Hx & ->). eauto. Qed.

(** A uid that was just given out and that no channel carries yet. *)
Definition fresh_uid (A : list Z) (u : Z) k : Prop := (1 <= u < call_uid_counter k) /\ (u ∉ A) /\ unused u k.

Lemma fresh_same A u k k' : same_calls k k' -> fresh_uid A u k -> fresh_uid A u k'.
Proof.
  intros Hs (Hu & HA & Hn). split; [by rewrite (proj1 Hs)|]. split; [done|]. by eapply unused_same.
Qed.

Lemma next_uid_wp {B} A b (f : Z -> K M B) Q k :
  0 <= b -> calls_ok A (b + 1) k ->
  (forall u k', fresh_uid A u k' -> calls_ok A b k' -> wp (f u) Q k') ->
  wp (next_call_uid ≫= f) Q k.
Proof.
  intros Hb [C1 C2 C3 C4 C5] Hf. unfold next_call_uid. apply wp_assoc, wp_gets, wp_assoc, wp_modify.
  assert (Hn : u32 (call_uid_counter k + 1) = call_uid_counter k + 1) by (apply u32_id; lia).
  apply Hf.
  - split; [simpl; lia|]. split; [intros Hin; apply C5 in Hin; lia|].
    intros c ch Hch He. destruct (C3 c ch Hch) as [|[? _]]; lia.
  - constructor; simpl; rewrite ?Hn; try done; try lia.
    + intros c ch Hch. destruct (C3 c ch Hch) as [|[? ?]]; [by left|right; split; [lia|done]].
    + intros u Hu. apply C5 in Hu. lia.
Qed.

Lemma set_call_uid_wp {B} A b c u (f : unit -> K M B) Q k :
  calls_ok A b k -> fresh_uid A u k -> (forall k', calls_ok A b k' -> wp (f tt) Q k') ->
  wp (upd_channel c (fun ch => ch <| call_uid := u |>) ≫= f) Q k.
Proof.
  intros [C1 C2 C3 C4 C5] (Hu & HA & Hn) Hf. apply wp_upd_channel. intros ch Hch. apply Hf.
  constructor; simpl; try done.
  - intros c' ch' Hc'. apply lookup_insert_Some in Hc' as [[_ <-]|[_ Hc']]; [by right|eauto].
  - intros c1 c2 ch1 ch2 H1 H2 He Hz. apply lookup_insert_Some in H1 as [[<- <-]|[? H1]];
      apply lookup_insert_Some in H2 as [[<- <-]|[? H2]]; simpl in *; try done; [..|by eauto].
    + exfalso. by apply (Hn _ _ H2).
    + exfalso. by apply (Hn _ _ H1).
Qed.

Lemma wp_calls {B C} A b (m : K M B) (f : B -> K M C) (Q : option C -> kern M -> Prop) k :
  keeps same_calls m -> calls_ok A b k -> (forall k', calls_ok A b k' -> Q None k') ->
  (forall a k', same_calls k k' -> calls_ok A b k' -> wp (f a) Q k') -> wp (m ≫= f) Q k.
Proof.
  intros Hm Hk Hq Hf. eapply wp_keeps; [exact Hm|..]; intros; [apply Hf; [done|]|apply Hq]; by eapply calls_ok_same.
Qed.

Lemma wp_calls_returns {B C} A b (m : K M B) (f : B -> K M C) Q k :
  returns same_calls m -> calls_ok A b k ->
  (forall a k', same_calls k k' -> calls_ok A b k' -> wp (f a) Q k') -> wp (m ≫= f) Q k.
Proof. intros Hm Hk Hf. eapply wp_returns; [exact Hm|]. intros a k' Hs. apply Hf; [done|]. by eapply calls_ok_same. Qed.

(** ** What the three calls do to the uids *)

Lemma switch_task_calls regs r : keeps same_calls (switch_task tasks_init regs r).
Proof.
  apply calm_quiet_keeps; [typeclasses eauto|].
  apply (switch_task_quiet tasks_init task_reset_windows wm_event_crash).
Qed.
#[local] Hint Resolve switch_task_calls : keeps.

(** One action that leaves the uids alone. *)
Ltac step := first
  [ apply wp_get_task; intros ? _ | apply wp_get_port; intros ? _ | apply wp_get_process; intros ? _
  | apply wp_get_channel; intros ? _ | apply wp_deref; intros ? _
  | eapply wp_calls_returns; [solve [returns]|eassumption|intros ? ? ? ?] ].

Lemma wp_final {B} A b (m : K M B) (Q : option B -> kern M -> Prop) k :
  keeps same_calls m -> calls_ok A b k -> (forall o k', calls_ok A b k' -> Q o k') -> wp m Q k.
Proof.
  intros Hm Hk Hq. specialize (Hm k). unfold wp. destruct (m k); try done; apply Hq; by eapply calls_ok_same.
Qed.

Lemma msg_call_ok A regs i cu send recv ru k :
  calls_ok A 1 k -> wp (msg_call tasks_init regs i cu send recv ru) (fun _ k' => calls_ok A 0 k') k.
Proof.
  intros Hk. unfold msg_call. cbv zeta.
  assert (Hless : forall k', calls_ok A 1 k' -> calls_ok A 0 k') by (intros; by apply (calls_ok_less A A 1 0)).
  do 2 (apply wp_if; intros _; [by apply wp_ret, Hless|]).
  step. step. apply wp_if; intros _; [by apply wp_ret, Hless|]. step. step.
  do 4 (apply wp_if; intros _; [by apply wp_ret, Hless|]).
  step. apply wp_if; intros _; [by apply wp_ret, Hless|]. step. step.
  apply wp_if; intros _.
  - step. step. eapply (wp_final A 1); [keeps|done|auto].
  - step. step. apply (next_uid_wp A 0); [done|done|]. intros u k4 Hu Hk4.
    step. apply wp_if; intros _.
    + apply (wp_final A 0); [keeps|done|auto].
    + step. apply (set_call_uid_wp A 0); [done|eapply fresh_same, fresh_same; eassumption|]. intros k7 Hk7.
      apply (wp_final A 0); [keeps|done|auto].
Qed.

Lemma receive_loop_ok A n j p i regs recv ru k :
  calls_ok A (Z.of_nat n) k ->
  wp (receive_loop n j p i regs recv ru) (fun _ k' => calls_ok A 0 k') k.
Proof.
  revert j k. induction n as [|n IH]; intros j k Hk; cbn [receive_loop]; [by apply wp_ret|]. cbv zeta.
  assert (Hnext : forall k', calls_ok A (Z.of_nat (S n)) k' ->
    wp (receive_loop n (j + 1) p i regs recv ru) (fun _ k' => calls_ok A 0 k') k').
  { intros k' Hk'. apply IH. apply (calls_ok_less A A (Z.of_nat (S n))); [done|lia|done]. }
  step. step. apply wp_if; intros _; [by apply Hnext|]. step. apply wp_if; intros _; [by apply Hnext|].
  step. apply wp_if; intros _; [by apply Hnext|]. step.
  apply (next_uid_wp A (Z.of_nat n)); [lia|by replace (Z.of_nat n + 1) with (Z.of_nat (S n)) by lia|].
  intros u k4 Hu Hk4. step. apply wp_if; intros _.
  - step. step. apply wp_if; intros _; [apply wp_ret|by apply IH].
    apply (calls_ok_less A A (Z.of_nat n)); [done|lia|done].
  - apply (set_call_uid_wp A (Z.of_nat n)); [done|eapply fresh_same; eassumption|]. intros k7 Hk7.
    apply wp_ret. apply (calls_ok_less A A (Z.of_nat n)); [done|lia|done].
Qed.

Lemma msg_receive_ok A regs i pu recv ru k :
  calls_ok A MSG_MAX_CHANNELS k ->
  (forall p port, port_objs k !! p = Some port -> channel_count port <= MSG_MAX_CHANNELS) ->
  wp (msg_receive tasks_init regs i pu recv ru) (fun _ k' => calls_ok A 0 k') k.
Proof.
  intros Hk Hp. unfold msg_receive.
  assert (Hless : forall k', calls_ok A MSG_MAX_CHANNELS k' -> calls_ok A 0 k')
    by (intros; by apply (calls_ok_less A A MSG_MAX_CHANNELS 0)).
  apply wp_reads; [apply find_port_reads|]. intros p _.
  apply wp_if; intros _; [by apply wp_ret, Hless|].
  step. step. apply wp_get_port. intros port Hport. apply wp_if; intros _; [by apply wp_ret, Hless|].
  apply wp_bind. eapply wp_mono.
  - apply (receive_loop_ok A). apply (calls_ok_less A A MSG_MAX_CHANNELS); [done| |done].
    pose proof (Hp _ _ Hport). unfold MSG_MAX_CHANNELS in *. lia.
  - intros [[r|]|] k' Hk'; [by apply wp_ret| |done]. step.
    apply wp_if; intros _; [by apply wp_ret|]. step. apply (wp_final A 0); [keeps|done|auto].
Qed.

(** A reply that found its call takes the uid out of use. *)
Lemma take_uid A b c ch k :
  calls_ok A b k -> channel_objs k !! c = Some ch -> call_uid ch <> 0 ->
  (call_uid ch ∉ A) /\
  calls_ok (call_uid ch :: A) b (k <| channel_objs := <[c := ch <| call_uid := 0 |>]> (channel_objs k) |>).
Proof.
  intros [C1 C2 C3 C4 C5] Hch Hz. destruct (C3 _ _ Hch) as [?|[Hu HA]]; [done|]. split; [done|].
  constructor; simpl; try done.
  - intros c' ch' Hc'. apply lookup_insert_Some in Hc' as [[<- <-]|[Hne Hc']]; [by left|].
    destruct (C3 _ _ Hc') as [|[? ?]]; [by left|]. destruct (decide (call_uid ch' = 0)); [by left|].
    right. split; [done|]. apply not_elem_of_cons. split; [|done]. intros He. apply Hne. by eapply C4.
  - intros c1 c2 ch1 ch2 H1 H2 He Hne. apply lookup_insert_Some in H1 as [[<- <-]|[? H1]];
      apply lookup_insert_Some in H2 as [[<- <-]|[? H2]]; simpl in *; try done; by eauto.
  - intros u [->|Hin]%elem_of_cons; [apply Hu|by apply C5].
Qed.

Lemma call_in_port_found n j l uid k c k' :
  call_in_port (M := M) n j l uid k = Ret c k' -> c <> 0 ->
  exists ch, channel_objs k !! c = Some ch /\ call_uid ch = uid.
Proof.
  revert j. induction n as [|n IH]; intros j; cbn [call_in_port]; [by intros [= <- _]|].
  unfold mbind, K_mbind, deref. destruct (zget l j) as [c'|]; simpl; [|done].
  destruct (c' =? 0); [apply IH|]. unfold get_channel, deref.
  destruct (channel_objs k !! c') as [ch|] eqn:Hch; simpl; [|done].
  destruct (Z.eqb_spec (call_uid ch) uid); [|apply IH]. intros [= <- _] _. by exists ch.
Qed.

Lemma call_in_port_reads n j l uid : returns (M := M) eq (call_in_port n j l uid).
Proof. revert j. induction n as [|n IH]; intros; cbn [call_in_port]; returns; apply IH. Qed.

Lemma call_in_ports_wp {B} n j l uid (f : Z -> K M B) Q k :
  (forall c, (c <> 0 -> exists ch, channel_objs k !! c = Some ch /\ call_uid ch = uid) -> wp (f c) Q k) ->
  wp (call_in_ports n j l uid ≫= f) Q k.
Proof.
  revert j. induction n as [|n IH]; intros j Hf; cbn [call_in_ports]; [by apply wp_bind, wp_ret, Hf|].
  apply wp_assoc, wp_deref. intros p _. destruct (p =? 0); [by apply IH|].
  apply wp_assoc, wp_get_port. intros port _. apply wp_assoc, wp_reads; [apply call_in_port_reads|].
  intros c Hc. destruct (Z.eqb_spec c 0); [by apply IH|]. apply wp_bind, wp_ret, Hf. intros _.
  by eapply call_in_port_found.
Qed.

(** A reply whose uid was known. *)
Definition answered (o : option (Z * registers_t)) : bool :=
  match o with Some (e, _) => negb (e =? MSG_ERR_MSG_NOT_FOUND) | None => true end.

Lemma msg_reply_ok A regs i uid addr send k :
  calls_ok A 0 k ->
  wp (msg_reply regs i uid addr send)
    (fun o k' => calls_ok A 0 k' /\ (answered o = true -> (uid ∉ A) /\ calls_ok (uid :: A) 0 k')) k.
Proof.
  intros Hk. unfold msg_reply. cbv zeta. apply wp_if; intros Huid; [by apply wp_ret|]. step. step.
  apply call_in_ports_wp. intros c Hc. apply wp_if; intros Hz; [by apply wp_ret|].
  destruct (Hc ltac:(lia)) as (ch & Hch & He). clear Hc.
  destruct (take_uid A 0 c ch k Hk Hch ltac:(lia)) as [HA Hk1]. rewrite He in HA, Hk1.
  apply wp_upd_channel. intros ch' Hch'. rewrite Hch in Hch'. injection Hch' as <-.
  apply (wp_mono _ (fun _ k' => calls_ok (uid :: A) 0 k')).
  2: { intros o k' Hk'. split; [|done]. apply (calls_ok_less (uid :: A) A 0); [set_solver|done|done]. }
  step. step. case_match; [|by apply wp_ret].
  apply wp_if; intros _; [by apply wp_ret|].
  apply (wp_final (uid :: A) 0); [unfold msg_validate_send; keeps|done|auto].
Qed.

(** ** Histories of calls

    Tasks call, receive and reply in any order; in between the kernel does whatever gives
    no call a uid: channels are opened and closed, messages queued, tasks switched. The
    trace holds the uids that were answered. Fewer than [2^32] calls are made. *)

Inductive step : kern M -> list Z -> kern M -> Prop :=
| step_call regs i cu send recv ru k o k' :
    call_uid_counter k + 1 < 2 ^ 32 ->
    ended (msg_call tasks_init regs i cu send recv ru k) = Some (o, k') -> step k [] k'
| step_receive regs i pu recv ru k o k' :
    call_uid_counter k + MSG_MAX_CHANNELS < 2 ^ 32 ->
    (forall p port, port_objs k !! p = Some port -> channel_count port <= MSG_MAX_CHANNELS) ->
    ended (msg_receive tasks_init regs i pu recv ru k) = Some (o, k') -> step k [] k'
| step_reply regs i uid addr send k o k' :
    ended (msg_reply regs i uid addr send k) = Some (o, k') ->
    step k (if answered o then [uid] else []) k'
| step_other k k' :
    call_uid_counter k' = call_uid_counter k ->
    (forall c ch', channel_objs k' !! c = Some ch' -> call_uid ch' = 0 \/
       exists ch, channel_objs k !! c = Some ch /\ call_uid ch' = call_uid ch) ->
    step k [] k'.

Inductive steps (k0 : kern M) : list Z -> kern M -> Prop :=
| steps_nil : steps k0 [] k0
| steps_snoc tr k e k' : steps k0 tr k -> step k e k' -> steps k0 (tr ++ e) k'.

Lemma calls_ok_room A b k : calls_ok A 0 k -> call_uid_counter k + b < 2 ^ 32 -> calls_ok A b k.
Proof. intros [C1 C2 C3 C4 C5] Hb. by constructor. Qed.

Lemma calls_ok_other A k k' :
  calls_ok A 0 k -> call_uid_counter k' = call_uid_counter k ->
  (forall c ch', channel_objs k' !! c = Some ch' -> call_uid ch' = 0 \/
     exists ch, channel_objs k !! c = Some ch /\ call_uid ch' = call_uid ch) -> calls_ok A 0 k'.
Proof.
  intros [C1 C2 C3 C4 C5] Hn Ho. constructor; rewrite ?Hn; try done.
  - intros c ch Hch. destruct (Ho _ _ Hch) as [|(ch0 & H0 & ->)]; [by left|eauto].
  - intros c1 c2 ch1 ch2 H1 H2 He Hz. destruct (Ho _ _ H1) as [|(x1 & H1' & E1)]; [done|].
    destruct (Ho _ _ H2) as [|(x2 & H2' & E2)]; [congruence|]. rewrite E1 in Hz. rewrite E1, E2 in He. eauto.
Qed.

Lemma steps_calls k0 tr k : calls_ok [] 0 k0 -> steps k0 tr k -> calls_ok tr 0 k /\ NoDup tr.
Proof.
  intros H0. induction 1 as [|tr k e k' _ [IH Hd] Hs]; [split; [done|constructor]|].
  inversion Hs as [regs i cu send recv ru k1 o k2 Hr Ho|regs i pu recv ru k1 o k2 Hr Hp Ho
    |regs i uid addr send k1 o k2 Ho|k1 k2 Hn Ho]; subst; rewrite ?app_nil_r.
  - split; [|done]. by apply (wp_ended _ _ _ _ _ (msg_call_ok tr regs i cu send recv ru k (calls_ok_room _ _ _ IH Hr)) Ho).
  - split; [|done].
    by apply (wp_ended _ _ _ _ _ (msg_receive_ok tr regs i pu recv ru k (calls_ok_room _ _ _ IH Hr) Hp) Ho).
  - destruct (wp_ended _ _ _ _ _ (msg_reply_ok tr regs i uid addr send k IH) Ho) as [Hk Ha].
    destruct (answered o); [|by rewrite app_nil_r]. destruct (Ha eq_refl) as [HA Hk'].
    split; [|by apply NoDup_app; split_and!; [done|set_solver|apply NoDup_singleton]].
    apply (calls_ok_less (uid :: tr) _ 0); [set_solver|done|done].
  - split; [|done]. by eapply calls_ok_other.
Qed.

(** C7: over every history of calls, receives and replies, each call is answered at most
    once: a uid that a reply was accepted for is never accepted again, it is one that was
    given out, and no channel waits for it any more. *)
Theorem call_answered_once k0 tr k :
  1 <= call_uid_counter k0 < 2 ^ 32 ->
  (forall c ch, channel_objs k0 !! c = Some ch -> call_uid ch = 0) ->
  steps k0 tr k ->
  NoDup tr /\ (forall u, u ∈ tr -> u < call_uid_counter k) /\
  forall c ch, channel_objs k !! c = Some ch -> call_uid ch <> 0 ->
    call_uid ch < call_uid_counter k /\ (call_uid ch ∉ tr) /\
    forall c' ch', channel_objs k !! c' = Some ch' -> call_uid ch' = call_uid ch -> c' = c.
Proof.
  intros Hn Hz Hs. destruct (steps_calls k0 tr k) as [[C1 C2 C3 C4 C5] Hd]; [|done|].
  { constructor; try lia; [intros c ch Hch; left; by eapply Hz| |set_solver].
    intros c1 c2 ch1 ch2 H1 _ _ Hne. destruct Hne. by eapply Hz. }
  split; [done|]. split; [done|]. intros c ch Hch Hne. destruct (C3 _ _ Hch) as [|[? ?]]; [done|].
  split; [lia|]. split; [done|]. intros c' ch' Hch' He. eapply C4; [done|done|done|congruence].
Qed.

End call_spec.

(** ** Witness *)

(** Task 0 waits on its port, task 1 calls it, task 0 replies. *)
Definition rpc_msg : msg_send_t := MsgSend 0x400000 3 0 0.
Definition rpc_recv : msg_recv_t := MsgRecv 0x400100 64 0 0.
Definition on_cpu (i : Z) (k : kern flat) : kern flat := k <| current_task := i |>.
Definition rpc_0 : kern flat := on_cpu 0 talk_0.
Definition rpc_1 : kern flat := left_in (msg_receive no_init (demo_regs 0) 0 0 rpc_recv 0x400200 rpc_0).
Definition rpc_2 : kern flat := on_cpu 1 rpc_1.
Definition rpc_3 : kern flat := left_in (msg_call no_init (demo_regs 1) 1 0 rpc_msg rpc_recv 0x400200 rpc_2).
Definition rpc_4 : kern flat := left_in (msg_reply (demo_regs 0) 0 1 0x400300 rpc_msg rpc_3).

Definition result_of {A} (r : res flat A) : option A := match r with Ret a _ => Some a | _ => None end.

Definition rpc_reply : option (Z * registers_t) :=
  result_of (msg_reply (demo_regs 0) 0 1 0x400300 rpc_msg rpc_3).

Lemma rpc_steps : steps no_init rpc_0 ([] ++ [] ++ [] ++ [1]) rpc_4.
Proof.
  apply (steps_snoc _ _ ([] ++ [] ++ []) rpc_3 [1]).
  2: { pose proof (step_reply no_init (demo_regs 0) 0 1 0x400300 rpc_msg rpc_3 rpc_reply rpc_4) as Hr.
       assert (Ha : answered rpc_reply = true) by (vm_compute; reflexivity).
       rewrite Ha in Hr. apply Hr. vm_compute. reflexivity. }
  apply (steps_snoc _ _ ([] ++ []) rpc_2 []).
  2: { apply (step_call _ (demo_regs 1) 1 0 rpc_msg rpc_recv 0x400200 rpc_2
         (result_of (msg_call no_init (demo_regs 1) 1 0 rpc_msg rpc_recv 0x400200 rpc_2))); [|vm_compute; reflexivity].
       vm_compute. reflexivity. }
  apply (steps_snoc _ _ [] rpc_1 []).
  2: { apply step_other; [reflexivity|]. intros c ch Hch. right. exists ch. split; [exact Hch|reflexivity]. }
  apply (steps_snoc _ _ [] rpc_0 []); [constructor|].
  apply (step_receive _ (demo_regs 0) 0 0 rpc_recv 0x400200 rpc_0
    (result_of (msg_receive no_init (demo_regs 0) 0 0 rpc_recv 0x400200 rpc_0)));
    [vm_compute; reflexivity| |vm_compute; reflexivity].
  assert (Hall : Forall (fun x => channel_count (snd x) <= 16) (map_to_list (port_objs rpc_0)))
    by (vm_compute; repeat constructor; done).
  intros p port Hp. apply elem_of_map_to_list in Hp. apply (proj1 (Forall_forall _ _) Hall (p, port) Hp).
Qed.

Lemma call_answered_once_witness : NoDup [1] /\ 1 < call_uid_counter rpc_4.
Proof.
  assert (Hz : Forall (fun x => call_uid (snd x) = 0) (map_to_list (channel_objs rpc_0)))
    by (vm_compute; repeat constructor).
  destruct (call_answered_once no_init no_reset no_crash rpc_0 [1] rpc_4) as (Hd & Hc & _).
  - split; [vm_compute; discriminate|vm_compute; reflexivity].
  - intros c ch Hch. apply elem_of_map_to_list in Hch. apply (proj1 (Forall_forall _ _) Hz (c, ch) Hch).
  - exact rpc_steps.
  - split; [exact Hd|]. apply Hc. left.
Defined.
