(* ===== verification/MsgClose.v ===== *)
(** * The end of connections, ports and tasks (msg.c)

    A channel goes when both ends have closed it, a port when its owner closes it or ends;
    nobody keeps a pointer to what is freed. *)

From S2P Require Import Kern Sched Events Msg MsgCall.

Local Open Scope Z_scope.

(** [for(i = 0; i < n; i++) if(l[i] == x) { l[i] = l[n-1]; n--; return; }] *)
Fixpoint forget_loop (fuel : nat) (i : Z) (l : list Z) (n x : Z) : option (list Z * Z) :=
  match fuel with
  | O => Some (l, n)
  | S fuel =>
      y ← zget l i;
      if negb (y =? x) then forget_loop fuel (i + 1) l n x
      else last ← zget l (n - 1); Some (zset l i last, n - 1)
  end.

Section close.
Context {M : Type} `{!Space M}.
Context (tasks_init : registers_t -> K M registers_t)
  (task_reset_windows : Z -> K M unit) (wm_event_crash : Z -> Z -> Z -> K M unit).
Implicit Types (k : kern M).

Abbreviation notify := (call_msg_func tasks_init task_reset_windows wm_event_crash).

Definition task_forget_channel (i c : Z) : K M unit :=
  t ← get_task i;
  r ← deref (forget_loop (Z.to_nat (msg_channel_count t)) 0 (msg_channels t) (msg_channel_count t) c);
  upd_task i (fun t => t <| msg_channels := fst r |> <| msg_channel_count := snd r |>).

Definition process_forget_port (pr p : Z) : K M unit :=
  x ← get_process pr;
  r ← deref (forget_loop (Z.to_nat (port_count x)) 0 (p_ports x) (port_count x) p);
  upd_process pr (fun x => x <| p_ports := fst r |> <| port_count := snd r |>).

(** [free]: nothing may use the object any more. *)
Definition free_channel_obj (c : Z) : K M unit :=
  _ ← dealloc c SIZEOF_CHANNEL; modify (fun k => k <| channel_objs := delete c (channel_objs k) |>).

Definition free_port_obj (p : Z) : K M unit :=
  _ ← dealloc p SIZEOF_PORT; modify (fun k => k <| port_objs := delete p (port_objs k) |>).

Definition msg_free_channel (p idx : Z) : K M unit :=
  port ← get_port p;
  c ← deref (zget (channels port) idx);
  if c =? 0 then mret tt
  else
    ch ← get_channel c;
    client ← msg_get_task (client_taskid ch) (client_taskuid ch);
    _ ← when (bool_decide (client <> None)) (task_forget_channel (client_taskid ch) c);
    _ ← upd_port p (fun port => port <| channels := zset (channels port) idx 0 |>);
    free_channel_obj c.

(** No stored call any more. *)
Definition no_send (ch : msg_channel_t) : msg_channel_t :=
  ch <| client_send_msg := (client_send_msg ch) <| s_buffer := 0 |> <| s_handle_count := 0 |> |>
     <| call_uid := 0 |>.

Definition no_recv (ch : msg_channel_t) : msg_channel_t :=
  ch <| client_recv_msg := (client_recv_msg ch) <| r_buffer := 0 |> <| r_handle_count := 0 |> |>
     <| client_recv_msg_user := 0 |>.

(** Tell the other end, if it is still there. *)
Definition notify_closed (regs : option registers_t) (c port_uid_ channel_uid : Z) (server : bool)
    : K M (option registers_t) :=
  ch ← get_channel c;
  let id := if server then server_taskid ch else client_taskid ch in
  t ← msg_get_task id (if server then server_taskuid ch else client_taskuid ch);
  match t with
  | None => mret regs
  | Some t =>
      if negb (if server then server_connected ch else client_connected ch) then mret regs
      else
        _ ← when (if server then server_blocked ch else client_blocked ch)
              (_ ← task_resume id;
               upd_channel c (fun ch => if server then ch <| server_blocked := false |>
                                       else ch <| client_blocked := false |>));
        t ← get_task id;
        _ ← when (negb server && paused t && bool_decide (pause_reason t = PAUSE_MSG_CALL)
                  && (channel_has_waiting_send ch || negb (call_uid ch =? 0)))
              (wake_client id MSG_ERR_PEER_DISCONNECTED);
        notify_peer tasks_init task_reset_windows wm_event_crash regs id c port_uid_ channel_uid server
  end.

(** [task] is [None] for [NULL]: the port goes. *)
Definition port_close_connection (regs : option registers_t) (task : option Z) (port_uid_ channel_uid : Z)
    : K M (bool * option registers_t) :=
  p ← find_port_by_uid port_uid_;
  if p =? 0 then mret (false, regs)
  else
    port ← get_port p;
    idx ← find_channel port channel_uid;
    if idx <? 0 then mret (false, regs)
    else
      c ← deref (zget (channels port) idx);
      if c =? 0 then mret (false, regs)
      else
        ch ← get_channel c;
        uid ← match task with None => mret None | Some i => t ← get_task i; mret (Some (task_uid t)) end;
        if bool_decide (uid <> None) && bool_decide (uid <> Some (server_taskuid ch))
           && bool_decide (uid <> Some (client_taskuid ch)) then mret (false, regs)
        else
          regs ← (if bool_decide (uid = None) || bool_decide (uid = Some (server_taskuid ch)) then
                    _ ← upd_channel c (fun ch => ch <| client_flags := Z.lor (client_flags ch) MSG_FLAG_CLOSED |>);
                    regs ← notify_closed regs c port_uid_ channel_uid false;
                    _ ← upd_channel c (fun ch => no_send (ch <| server_connected := false |>));
                    mret regs
                  else
                    _ ← upd_channel c (fun ch => ch <| server_flags := Z.lor (server_flags ch) MSG_FLAG_CLOSED |>);
                    regs ← notify_closed regs c port_uid_ channel_uid true;
                    _ ← upd_channel c (fun ch => no_recv (no_send (ch <| client_connected := false |>)));
                    mret regs);
          ch ← get_channel c;
          _ ← when (negb (server_connected ch) && negb (client_connected ch)) (msg_free_channel p idx);
          mret (true, regs).

Definition port_disconnect (regs : option registers_t) (i port_uid_ channel_uid : Z)
    : K M (bool * option registers_t) :=
  p ← find_port_by_uid port_uid_;
  if p =? 0 then mret (false, regs)
  else
    port ← get_port p;
    idx ← find_channel port channel_uid;
    if idx <? 0 then mret (false, regs)
    else
      c ← deref (zget (channels port) idx);
      if c =? 0 then mret (false, regs)
      else
        ch ← get_channel c;
        t ← get_task i;
        if negb (task_uid t =? server_taskuid ch) && negb (task_uid t =? client_taskuid ch)
        then mret (false, regs)
        else
          _ ← task_forget_channel i c;
          port_close_connection regs (Some i) port_uid_ channel_uid.

(** ** Ports *)

(** The body of the first loop of [destroy_port] for channel [j] of the port. *)
Definition destroy_channel (regs : option registers_t) (p j : Z) : K M (option registers_t) :=
  port ← get_port p;
  c ← deref (zget (channels port) j);
  if c =? 0 then mret regs
  else
    ch ← get_channel c;
    r ← port_close_connection regs None (port_uid port) (c_uid ch);
    port ← get_port p;
    c ← deref (zget (channels port) j);
    if c =? 0 then mret (snd r) else _ ← msg_free_channel p j; mret (snd r).

Fixpoint destroy_channels (n : nat) (j p : Z) (regs : option registers_t) : K M (option registers_t) :=
  match n with
  | O => mret regs
  | S n => regs ← destroy_channel regs p j; destroy_channels n (j + 1) p regs
  end.

Fixpoint wake_waiters (n : nat) (j p : Z) : K M unit :=
  match n with
  | O => mret tt
  | S n =>
      port ← get_port p;
      w ← deref (zget (port_waiters port) j);
      _ ← when (active w)
            (_ ← set_waiter_inactive p j;
             t ← msg_get_task (w_task_id w) (w_task_uid w);
             match t with
             | None => mret tt
             | Some t => when (paused t && bool_decide (pause_reason t = PAUSE_MSG_RECEIVE))
                           (wake_client (w_task_id w) MSG_ERR_PORT_NOT_FOUND)
             end);
      wake_waiters n (j + 1) p
  end.

(** The walk to the port before [p] in the list. *)
Fixpoint unlink_loop (fuel : nat) (prev cur p next : Z) : K M unit :=
  match fuel with
  | O => fun _ => Hang
  | S fuel =>
      if cur =? 0 then mret tt
      else if cur =? p then upd_port prev (fun x => x <| port_next := next |>)
      else x ← get_port cur; unlink_loop fuel cur (port_next x) p next
  end.

Definition unlink_port (p : Z) : K M unit :=
  port ← get_port p;
  head ← gets ports;
  if p =? head then modify (fun k => k <| ports := port_next port |>)
  else
    x ← get_port head;
    n ← gets (fun k => S (S (size (port_objs k))));
    unlink_loop n head (port_next x) p (port_next port).

Definition destroy_port (regs : option registers_t) (p : Z) : K M (option registers_t) :=
  port ← get_port p;
  regs ← destroy_channels (Z.to_nat (channel_count port)) 0 p regs;
  _ ← wake_waiters (Z.to_nat MAX_TASK_THREADS) 0 p;
  _ ← unlink_port p;
  _ ← free_port_obj p;
  mret regs.

Definition close_port (regs : option registers_t) (i port_uid_ : Z) : K M (bool * option registers_t) :=
  p ← find_port_by_uid port_uid_;
  if p =? 0 then mret (false, regs)
  else
    port ← get_port p;
    t ← get_task i;
    pr ← get_process (t_process t);
    if negb (owner_uid port =? p_uid pr) then mret (false, regs)
    else
      _ ← process_forget_port (t_process t) p;
      regs ← destroy_port regs p;
      mret (true, regs).

(** ** The end of a process and of a task *)

Fixpoint destroy_ports (n : nat) (j pr : Z) : K M unit :=
  match n with
  | O => mret tt
  | S n =>
      x ← get_process pr;
      p ← deref (zget (p_ports x) j);
      _ ← destroy_port None p;
      destroy_ports n (j + 1) pr
  end.

Definition msg_cleanup_process (pr : Z) : K M unit :=
  x ← get_process pr;
  _ ← destroy_ports (Z.to_nat (port_count x)) 0 pr;
  upd_process pr (fun x => x <| port_count := 0 |>).

(** Every turn takes a channel out of the list. *)
Fixpoint close_channels (fuel : nat) (i : Z) : K M unit :=
  match fuel with
  | O => fun _ => Hang
  | S fuel =>
      t ← get_task i;
      let before := msg_channel_count t in
      if before <=? 0 then mret tt
      else
        c ← deref (zget (msg_channels t) 0);
        _ ← when (negb (c =? 0))
              (ch ← get_channel c;
               _ ← port_close_connection None (Some i) (c_port_uid ch) (c_uid ch); mret tt);
        t ← get_task i;
        _ ← when (msg_channel_count t =? before) (task_forget_channel i c);
        close_channels fuel i
  end.

(** The ports of the process that task [i] owns, from the last to the first. *)
Fixpoint close_owned_ports (n : nat) (i : Z) : K M unit :=
  match n with
  | O => mret tt
  | S m =>
      t ← get_task i;
      x ← get_process (t_process t);
      p ← deref (zget (p_ports x) (Z.of_nat m));
      _ ← when (negb (p =? 0))
            (port ← get_port p;
             when (owner_taskuid port =? task_uid t)
               (_ ← process_forget_port (t_process t) p; _ ← destroy_port None p; mret tt));
      close_owned_ports m i
  end.

Definition msg_cleanup_task (i : Z) : K M unit :=
  _ ← close_channels (Z.to_nat (TASK_MAX_CHANNELS + 1)) i;
  t ← get_task i;
  x ← get_process (t_process t);
  _ ← each (Z.to_nat (port_count x)) 0 (p_ports x) (fun p => msg_remove_waiter p i);
  close_owned_ports (Z.to_nat (port_count x)) i.

End close.
