(* ===== verification/MsgLinks.v ===== *)
(** * Ports and channels are never left dangling (msg.c)

    The pointers that connect the objects of the message component: the list of ports, the
    slots of a port, the channels a task has opened, the ports of a process. [linked] says
    that each designates a live object and that every channel is in a slot of exactly one
    port; opening and closing keep it, so nothing is used after it was freed. *)

From S2P Require Import Kern Sched Events Hoare Quiet Msg MsgSpec MsgCall MsgCalm MsgClose.

Local Open Scope Z_scope.

(** ** The pointers *)

(** The channels a task has open, and the ports of a process. *)
Definition held (t : task_state_t) : list Z := take (Z.to_nat (msg_channel_count t)) (msg_channels t).
Definition owned (x : process_t) : list Z := take (Z.to_nat (port_count x)) (p_ports x).

Inductive chain (objs : gmap Z msg_port_t) : Z -> list Z -> Prop :=
| chain_nil : chain objs 0 []
| chain_cons p port l : p <> 0 -> objs !! p = Some port -> chain objs (port_next port) l -> chain objs p (p :: l).

Definition in_slot {M} (k : kern M) (p j c : Z) : Prop :=
  exists port, port_objs k !! p = Some port /\ zget (channels port) j = Some c /\ c <> 0.

(** Process [skip] may be in the middle of its end. *)
Record linked {M} (skip : option Z) (k : kern M) : Prop := {
  lk_chain : exists l, chain (port_objs k) (ports k) l /\ NoDup l /\
    forall p, p ∈ l <-> is_Some (port_objs k !! p);
  lk_port p port : port_objs k !! p = Some port ->
    zlen (channels port) = MSG_MAX_CHANNELS /\ 0 <= channel_count port <= MSG_MAX_CHANNELS /\
    forall j c, zget (channels port) j = Some c -> c <> 0 -> j < channel_count port;
  lk_slot p j c : in_slot k p j c -> is_Some (channel_objs k !! c);
  lk_once p1 j1 p2 j2 c : in_slot k p1 j1 c -> in_slot k p2 j2 c -> p1 = p2 /\ j1 = j2;
  lk_leak c : is_Some (channel_objs k !! c) -> c <> 0 /\ exists p j, in_slot k p j c;
  lk_task i t : zget (tasks k) i = Some t -> enabled t = true ->
    i < TOTAL_TASKS /\ zlen (msg_channels t) = TASK_MAX_CHANNELS /\
    0 <= msg_channel_count t <= TASK_MAX_CHANNELS /\ NoDup (held t) /\
    forall c, c ∈ held t -> exists ch, channel_objs k !! c = Some ch /\
      client_taskid ch = i /\ client_taskuid ch = task_uid t;
  lk_process pr x : processes k !! pr = Some x -> Some pr <> skip ->
    zlen (p_ports x) = PROCESS_MAX_PORTS /\ 0 <= port_count x <= PROCESS_MAX_PORTS /\ NoDup (owned x) /\
    forall p, p ∈ owned x -> exists port, port_objs k !! p = Some port /\ owner_uid port = p_uid x;
  lk_uid pr1 pr2 x1 x2 : processes k !! pr1 = Some x1 -> processes k !! pr2 = Some x2 ->
    p_uid x1 = p_uid x2 -> pr1 = pr2 }.

(** ** Forgetting an element of a list *)

Lemma forget_loop_spec fuel i l n x r :
  forget_loop fuel i l n x = Some r -> 0 <= i -> Z.of_nat fuel = n - i ->
  (forall j, 0 <= j < i -> zget l j <> Some x) ->
  (r = (l, n) /\ forall j, 0 <= j < n -> zget l j <> Some x) \/
  exists j last, 0 <= j < n /\ zget l j = Some x /\ zget l (n - 1) = Some last /\ r = (zset l j last, n - 1).
Proof.
  revert i. induction fuel as [|fuel IH]; intros i; cbn [forget_loop].
  - intros [= <-] Hi Hf Hb. left. split; [done|]. intros j Hj. apply Hb. lia.
  - unfold mbind, option_bind. intros Hr Hi Hf Hb. destruct (zget l i) as [y|] eqn:Hy; [|done].
    destruct (Z.eqb_spec y x) as [->|Hne]; simpl in Hr.
    + destruct (zget l (n - 1)) as [last|] eqn:Hl; [|done]. injection Hr as <-.
      right. exists i, last. split; [lia|done].
    + apply (IH (i + 1)) in Hr; [done|lia|lia|]. intros j Hj. destruct (decide (j = i)) as [->|].
      * rewrite Hy. congruence.
      * apply Hb. lia.
Qed.

(** What is left of the first [n] elements, which are distinct: all but [x]. *)
Lemma forget_spec l n x r :
  forget_loop (Z.to_nat n) 0 l n x = Some r -> 0 <= n <= zlen l -> NoDup (take (Z.to_nat n) l) ->
  zlen (fst r) = zlen l /\ 0 <= snd r <= n /\ n - 1 <= snd r /\ NoDup (take (Z.to_nat (snd r)) (fst r)) /\
  forall y, y ∈ take (Z.to_nat (snd r)) (fst r) <-> y ∈ take (Z.to_nat n) l /\ y <> x.
Proof.
  intros Hr Hn Hd. apply forget_loop_spec in Hr as [[-> Hno]|(j & last & Hj & Hx & Hl & ->)];
    [..|lia|lia|intros; lia]; simpl.
  - split_and!; try done; [lia|lia|]. intros y. split; [|by intros [? _]]. intros Hy. split; [done|].
    apply elem_of_take_zget in Hy as (i & Hi & Hy); [|lia]. intros ->. by eapply Hno.
  - assert (Hinj : forall i1 i2 y, 0 <= i1 < n -> 0 <= i2 < n -> zget l i1 = Some y -> zget l i2 = Some y -> i1 = i2).
    { intros i1 i2 y H1 H2 E1 E2. apply (zget_NoDup _ i1 i2 y Hd); rewrite take_nth by lia; by rewrite decide_True by lia. }
    split; [by rewrite zlen_zset|]. split; [lia|]. split; [lia|]. split.
    + apply NoDup_zget. intros i1 i2 y. rewrite !take_nth by lia. do 2 (case_decide; [|done]).
      intros E1 E2. pose proof (zget_Some_range _ _ _ E1) as R1. pose proof (zget_Some_range _ _ _ E2) as R2.
      rewrite zlen_zset in R1, R2. rewrite zget_zset in E1, E2. repeat case_decide; simplify_eq; try lia.
      * exfalso. assert (n - 1 = i1) by (eapply Hinj; [lia|lia|eassumption..]). lia.
      * exfalso. assert (n - 1 = i2) by (eapply Hinj; [lia|lia|eassumption..]). lia.
      * eapply Hinj; [lia|lia|eassumption..].
    + intros y. rewrite !elem_of_take_zget by lia. split.
      * intros (i & Hi & Hy). rewrite zget_zset in Hy. case_decide as Hc; simplify_eq.
        -- split; [exists (n - 1); split; [lia|done]|]. intros ->. assert (n - 1 = j) by (eapply Hinj; [lia|lia|eassumption..]). lia.
        -- split; [exists i; split; [lia|done]|]. intros ->. apply Hc. split; [|lia]. eapply Hinj; [lia|lia|eassumption..].
      * intros [(i & Hi & Hy) Hne]. destruct (decide (i = n - 1)) as [->|].
        -- exists j. split; [|rewrite zget_zset_eq by lia; congruence].
           enough (j <> n - 1) by lia. intros ->. congruence.
        -- exists i. split; [lia|]. rewrite zget_zset_ne; [done|]. intros ->. congruence.
Qed.

(** ** What leaves the pointers alone *)

Definition same_links {M} (k k' : kern M) : Prop :=
  ports k' = ports k /\
  (forall p, port_link <$> port_objs k' !! p = port_link <$> port_objs k !! p) /\
  (forall c, chan_link <$> channel_objs k' !! c = chan_link <$> channel_objs k !! c) /\
  (forall i, ends_of <$> zget (tasks k') i = ends_of <$> zget (tasks k) i) /\
  forall p, holds_of <$> processes k' !! p = holds_of <$> processes k !! p.

#[global] Instance same_links_preorder {M} : PreOrder (@same_links M).
Proof.
  split; [done|]. intros k1 k2 k3 (H1 & H2 & H3 & H4 & H5) (G1 & G2 & G3 & G4 & G5).
  split_and!; intros; congruence.
Qed.

Lemma quiet_links {M} (k k' : kern M) : quiet k k' -> same_links k k'.
Proof.
  intros (_ & (Hp & Hpo & Hc) & (_ & Ht & Hpr) & _). split; [done|]. rewrite Hpo. split; [done|]. split; [|done].
  intros c. specialize (Hc c).
  destruct (channel_objs k' !! c) as [ch'|] eqn:E'.
  - destruct (fmap_Some_back _ _ _ _ Hc eq_refl) as (ch & -> & E). simpl.
    change (chan_link ch') with (chan_link (channel_core ch')).
    change (chan_link ch) with (chan_link (channel_core ch)). by rewrite E.
  - by destruct (channel_objs k !! c).
Qed.

Lemma chain_mono (objs objs' : gmap Z msg_port_t) h l :
  chain objs h l ->
  (forall p port, p ∈ l -> objs !! p = Some port -> exists port', objs' !! p = Some port' /\ port_next port' = port_next port) ->
  chain objs' h l.
Proof.
  induction 1 as [|p port l Hp Hport _ IH]; intros Ho; [constructor|].
  destruct (Ho p port ltac:(left) Hport) as (port' & Hp' & Hn).
  econstructor; [done|done|]. rewrite Hn. apply IH. intros q x Hq. apply Ho. by right.
Qed.

Lemma in_slot_same {M} (k k' : kern M) p j c : same_links k k' -> in_slot k' p j c -> in_slot k p j c.
Proof.
  intros (_ & Hp & _) (port & Hport & Hj & Hc).
  destruct (fmap_Some_back _ _ _ _ (Hp p) Hport) as (port0 & H0 & E). exists port0. unfold port_link in E. simplify_eq.
  split; [done|]. split; [congruence|done].
Qed.

Lemma same_links_sym {M} (k k' : kern M) : same_links k k' -> same_links k' k.
Proof. intros (H1 & H2 & H3 & H4 & H5). by split_and!. Qed.

Lemma fmap_is_Some_iff {A B} (f : A -> B) (o o' : option A) : f <$> o' = f <$> o -> is_Some o' <-> is_Some o.
Proof. intros E. rewrite <-!(fmap_is_Some f). by rewrite E. Qed.

Lemma linked_same {M} skip (k k' : kern M) : same_links k k' -> linked skip k -> linked skip k'.
Proof.
  intros Hs [(l & Hl & Hd & Hdom) L2 L3 L4 L5 L6 L7 L8].
  pose proof Hs as (Hports & Hp & Hc & Ht & Hpr).
  assert (Hin : forall p j c, in_slot k' p j c -> in_slot k p j c) by (intros p j c; by apply in_slot_same).
  assert (Hin' : forall p j c, in_slot k p j c -> in_slot k' p j c)
    by (intros p j c; by apply in_slot_same, same_links_sym).
  constructor.
  - exists l. split; [|split; [done|]].
    + rewrite Hports. apply (chain_mono (port_objs k)); [done|]. intros p port _ Hport.
      destruct (fmap_Some_back _ _ _ _ (eq_sym (Hp p)) Hport) as (port' & Hport' & E). exists port'.
      unfold port_link in E. split; [done|]. congruence.
    + intros p. rewrite Hdom. symmetry. by apply fmap_is_Some_iff with port_link.
  - intros p port' Hport'. destruct (fmap_Some_back _ _ _ _ (Hp p) Hport') as (port & Hport & E).
    destruct (L2 p port Hport) as (E1 & E2 & E3). unfold port_link in E. injection E as _ -> -> _. done.
  - intros p j c Hj. apply (fmap_is_Some_iff chan_link _ _ (Hc c)). eapply L3. by apply Hin.
  - intros p1 j1 p2 j2 c H1 H2. eapply L4; by apply Hin.
  - intros c Hcs. apply (fmap_is_Some_iff chan_link _ _ (Hc c)) in Hcs. destruct (L5 c Hcs) as (Hz & p & j & Hj).
    split; [done|]. exists p, j. by apply Hin'.
  - intros i t' Ht' He. destruct (fmap_Some_back _ _ _ _ (Ht i) Ht') as (t & Hti & E). unfold ends_of in E.
    injection E as E1 E2 E3 E4 E5 E6. destruct (L6 i t Hti ltac:(congruence)) as (T1 & T2 & T3 & T4 & T5).
    unfold held in *. rewrite E5, E6. split_and!; try done; try lia. intros c Hcin.
    destruct (T5 c Hcin) as (ch & Hch & C1 & C2).
    destruct (fmap_Some_back _ _ _ _ (eq_sym (Hc c)) Hch) as (ch' & Hch' & E). unfold chan_link in E.
    exists ch'. split; [done|]. split; congruence.
  - intros pr x' Hx' Hsk. destruct (fmap_Some_back _ _ _ _ (Hpr pr) Hx') as (x & Hx & E). unfold holds_of in E.
    injection E as E1 E2 E3. destruct (L7 pr x Hx Hsk) as (P1 & P2 & P3 & P4). unfold owned in *.
    rewrite E1, E2, E3. split_and!; try done; try lia. intros p Hpin. destruct (P4 p Hpin) as (port & Hport & Ho).
    destruct (fmap_Some_back _ _ _ _ (eq_sym (Hp p)) Hport) as (port' & Hport' & E). unfold port_link in E.
    exists port'. split; [done|]. congruence.
  - intros pr1 pr2 x1 x2 H1 H2 E. destruct (fmap_Some_back _ _ _ _ (Hpr pr1) H1) as (y1 & G1 & E1).
    destruct (fmap_Some_back _ _ _ _ (Hpr pr2) H2) as (y2 & G2 & E2). unfold holds_of in *.
    eapply L8; [done|done|congruence].
Qed.

(** What a step leaves of the pointers when it only takes some of them away: the ports and
    their owners are the same, a slot has what it had or nothing. *)
Definition shrinks {M} (k k' : kern M) : Prop :=
  ports k' = ports k /\
  (forall p, is_Some (port_objs k !! p) -> is_Some (port_objs k' !! p)) /\
  (forall p port', port_objs k' !! p = Some port' -> exists port, port_objs k !! p = Some port /\
     owner_uid port' = owner_uid port /\ channel_count port' = channel_count port /\
     port_next port' = port_next port /\
     forall j c, zget (channels port') j = Some c -> c <> 0 -> zget (channels port) j = Some c) /\
  (forall p, holds_of <$> processes k' !! p = holds_of <$> processes k !! p) /\
  forall i, t_process <$> zget (tasks k') i = t_process <$> zget (tasks k) i.

#[global] Instance shrinks_preorder {M} : PreOrder (@shrinks M).
Proof.
  split.
  - intros k. split_and!; try done. intros p port Hp. exists port. split_and!; done.
  - intros k1 k2 k3 (H1 & H2 & H3 & H4 & H5) (G1 & G2 & G3 & G4 & G5). split_and!; [congruence|auto| |congruence..].
    intros p port' Hp. destruct (G3 p port' Hp) as (port & Hp2 & A1 & A2 & A3 & A4).
    destruct (H3 p port Hp2) as (port0 & Hp1 & B1 & B2 & B3 & B4). exists port0. split_and!; try congruence.
    intros j c Hj Hc. apply B4; [by apply A4|done].
Qed.

Lemma links_shrinks {M} (k k' : kern M) : same_links k k' -> shrinks k k'.
Proof.
  intros (H1 & H2 & H3 & H4 & H5). split; [done|]. split; [|split; [|split; [done|]]].
  3: { intros i. specialize (H4 i). destruct (zget (tasks k') i) as [t'|], (zget (tasks k) i) as [t|]; [|done..].
       change (Some (ends_of t') = Some (ends_of t)) in H4. unfold ends_of in H4. simpl. congruence. }
  - intros p. by rewrite (fmap_is_Some_iff port_link _ _ (H2 p)).
  - intros p port' Hp. destruct (fmap_Some_back _ _ _ _ (H2 p) Hp) as (port & Hport & E). unfold port_link in E.
    injection E as E1 E2 E3 E4. exists port. split_and!; try done. intros j c Hj _. by rewrite <-E2.
Qed.

(** ** Channels *)

Section links.
Context {M : Type} `{!Space M, !Handles M}.
Context (tasks_init : registers_t -> K M registers_t)
  (task_reset_windows : Z -> K M unit) (wm_event_crash : Z -> Z -> Z -> K M unit).
Context `{!QuietGui tasks_init task_reset_windows wm_event_crash, !QuietHandles M}.
Implicit Types (k : kern M).

(** The conditions of [linked] on one task. *)
Definition task_linked k (i : Z) (t : task_state_t) : Prop :=
  i < TOTAL_TASKS /\ zlen (msg_channels t) = TASK_MAX_CHANNELS /\
  0 <= msg_channel_count t <= TASK_MAX_CHANNELS /\ NoDup (held t) /\
  forall c, c ∈ held t -> exists ch, channel_objs k !! c = Some ch /\
    client_taskid ch = i /\ client_taskuid ch = task_uid t.

Lemma linked_set_task skip k i t t' :
  linked skip k -> zget (tasks k) i = Some t -> (enabled t' = true -> task_linked k i t') ->
  linked skip (k <| tasks := zset (tasks k) i t' |>).
Proof.
  intros [L1 L2 L3 L4 L5 L6 L7 L8] Ht Hok. constructor; try done. intros i' x Hx He. simpl in Hx.
  rewrite zget_zset in Hx. case_decide as Hi; [destruct Hi as [<- _]; simplify_eq; by apply Hok|by apply L6].
Qed.

Definition forgets (i c : Z) k : Prop :=
  forall t, zget (tasks k) i = Some t -> enabled t = true -> c ∉ held t.

Lemma task_forget_wp {B} skip i c (f : unit -> K M B) Q k :
  linked skip k ->
  (forall ts, linked skip (k <| tasks := ts |>) -> forgets i c (k <| tasks := ts |>) ->
     (forall j, j <> i -> zget ts j = zget (tasks k) j) ->
     (forall j, t_process <$> zget ts j = t_process <$> zget (tasks k) j) ->
     wp (f tt) Q (k <| tasks := ts |>)) ->
  wp (task_forget_channel i c ≫= f) Q k.
Proof.
  intros Hk Hf. unfold task_forget_channel. apply wp_assoc, wp_get_task. intros t Ht.
  apply wp_assoc, wp_deref. intros r Hr. apply wp_upd_task. intros t0 Ht0. simplify_eq.
  set (t' := t <| msg_channels := fst r |> <| msg_channel_count := snd r |>).
  assert (Hfor : enabled t = true -> task_linked k i t' /\ c ∉ held t').
  { intros He. destruct (lk_task _ _ Hk i t Ht He) as (T1 & T2 & T3 & T4 & T5).
    destruct (forget_spec (msg_channels t) (msg_channel_count t) c r Hr ltac:(unfold TASK_MAX_CHANNELS in *; lia) T4)
      as (R1 & R2 & _ & R3 & R4).
    split; [|intros Hc; by apply R4 in Hc as [_ Hc]]. split_and!; simpl; try done; try lia.
    intros x Hx. apply R4 in Hx as [Hx _]. by apply T5. }
  apply (Hf (zset (tasks k) i t')).
  - apply (linked_set_task skip k i t); [done|done|]. intros He. by apply Hfor.
  - intros x Hx He. simpl in Hx. rewrite zget_zset_eq in Hx by (by apply zget_Some_range in Ht).
    simplify_eq. by apply Hfor.
  - intros j Hj. by rewrite zget_zset_ne.
  - intros j. rewrite zget_zset. case_decide as Hj; [|done]. destruct Hj as [<- _]. by rewrite Ht.
Qed.

Lemma in_slot_zset k p port idx c q j x :
  port_objs k !! p = Some port -> zget (channels port) idx = Some c ->
  in_slot (k <| port_objs := <[p := port <| channels := zset (channels port) idx 0 |>]> (port_objs k) |>) q j x <->
  in_slot k q j x /\ ~ (q = p /\ j = idx).
Proof.
  intros Hp Hc. unfold in_slot. simpl. split.
  - intros (y & Hy & Hj & Hx). apply lookup_insert_Some in Hy as [[<- <-]|[Hne Hy]].
    + simpl in Hj. rewrite zget_zset in Hj. case_decide as Hd; [by simplify_eq|].
      split; [by exists port|]. intros [_ ->]. apply Hd. split; [done|]. by apply zget_Some_range in Hc.
    + split; [by exists y|]. by intros [-> _].
  - intros [(y & Hy & Hj & Hx) Hne]. destruct (decide (p = q)) as [<-|Hpq].
    + simplify_eq. eexists. split; [apply lookup_insert_eq|]. simpl. rewrite zget_zset_ne; [done|].
      intros <-. by apply Hne.
    + exists y. by rewrite lookup_insert_ne.
Qed.

(** A slot is emptied and its channel freed. *)
Lemma free_slot_linked skip k p port idx c m :
  linked skip k -> port_objs k !! p = Some port -> zget (channels port) idx = Some c -> c <> 0 ->
  (forall i, forgets i c k) ->
  linked skip (k <| port_objs := <[p := port <| channels := zset (channels port) idx 0 |>]> (port_objs k) |>
    <| k_mem := m |> <| channel_objs := delete c (channel_objs k) |>).
Proof.
  intros [(l & Hl & Hd & Hdom) L2 L3 L4 L5 L6 L7 L8] Hp Hc Hz Hfor.
  set (k' := k <| port_objs := _ |> <| k_mem := m |> <| channel_objs := _ |>).
  assert (Hin : forall q j x, in_slot k' q j x <-> in_slot k q j x /\ ~ (q = p /\ j = idx))
    by (intros q j x; exact (in_slot_zset k p port idx c q j x Hp Hc)).
  assert (Hpc : in_slot k p idx c) by (by exists port).
  assert (Hport : forall q y, port_objs k' !! q = Some y -> exists y0, port_objs k !! q = Some y0 /\
    owner_uid y = owner_uid y0 /\ port_next y = port_next y0).
  { intros q y Hy. simpl in Hy. apply lookup_insert_Some in Hy as [[<- <-]|[_ Hy]]; [by exists port|by exists y]. }
  constructor.
  - exists l. split; [|split; [done|]].
    + apply (chain_mono (port_objs k)); [done|]. intros q y _ Hy. simpl. destruct (decide (p = q)) as [<-|].
      * simplify_eq. eexists. by rewrite lookup_insert_eq.
      * exists y. by rewrite lookup_insert_ne.
    + intros q. rewrite Hdom. simpl. rewrite lookup_insert_is_Some'. naive_solver.
  - intros q y Hy. simpl in Hy. apply lookup_insert_Some in Hy as [[<- <-]|[_ Hy]]; [|by apply (L2 q)].
    destruct (L2 p port Hp) as (E1 & E2 & E3). simpl. rewrite zlen_zset. split; [done|]. split; [done|].
    intros j x Hj Hx. rewrite zget_zset in Hj. case_decide; simplify_eq. by apply (E3 j x).
  - intros q j x [Hj Hne]%Hin. simpl. rewrite lookup_delete_ne; [by apply (L3 q j)|]. intros <-. apply Hne.
    by apply (L4 _ _ _ _ _ Hj Hpc).
  - intros p1 j1 p2 j2 x [H1 _]%Hin [H2 _]%Hin. by eapply L4.
  - intros x Hx. simpl in Hx. apply lookup_delete_is_Some in Hx as [Hne Hx]. destruct (L5 x Hx) as (Hx0 & q & j & Hj).
    split; [done|]. exists q, j. apply Hin. split; [done|]. intros [-> ->]. destruct Hj as (y & ? & ? & _). congruence.
  - intros i t Ht He. destruct (L6 i t Ht He) as (T1 & T2 & T3 & T4 & T5). split_and!; try done; try lia.
    intros x Hx. destruct (T5 x Hx) as (ch & Hch & C). exists ch. split; [|done]. simpl.
    rewrite lookup_delete_ne; [done|]. intros <-. by apply (Hfor i t).
  - intros pr x Hx Hsk. destruct (L7 pr x Hx Hsk) as (P1 & P2 & P3 & P4). split_and!; try done; try lia.
    intros q Hq. destruct (P4 q Hq) as (y & Hy & Ho). simpl. destruct (decide (p = q)) as [<-|].
    + simplify_eq. eexists. by rewrite lookup_insert_eq.
    + exists y. by rewrite lookup_insert_ne.
  - done.
Qed.

Lemma msg_get_task_None i uid k k' t :
  msg_get_task i uid k = Ret None k' -> zget (tasks k) i = Some t -> i < TOTAL_TASKS -> enabled t = true ->
  task_uid t <> uid.
Proof.
  intros Hm Ht Hi He. unfold msg_get_task in Hm. pose proof (zget_Some_range _ _ _ Ht).
  rewrite (proj2 (Z.ltb_ge i 0)), (proj2 (Z.leb_gt TOTAL_TASKS i)) in Hm by lia. simpl in Hm.
  rewrite (bind_Ret _ _ _ _ _ (get_task_Some _ _ _ Ht)), He in Hm. simpl in Hm.
  destruct (Z.eqb_spec (task_uid t) uid); [done|done].
Qed.

Lemma free_shrinks k p port idx c m :
  port_objs k !! p = Some port -> zget (channels port) idx = Some c ->
  shrinks k (k <| port_objs := <[p := port <| channels := zset (channels port) idx 0 |>]> (port_objs k) |>
    <| k_mem := m |> <| channel_objs := delete c (channel_objs k) |>).
Proof.
  intros Hp Hc. split; [done|]. split; [|split; [|by split]]; simpl.
  - intros q Hq. apply lookup_insert_is_Some'. naive_solver.
  - intros q y Hy. apply lookup_insert_Some in Hy as [[<- <-]|[_ Hy]].
    + exists port. split_and!; try done. simpl. intros j x Hj Hx. rewrite zget_zset in Hj.
      case_decide; by simplify_eq.
    + exists y. by split_and!.
Qed.

(** The slot of the port is empty. *)
Definition slot_free (p idx : Z) k : Prop :=
  forall port, port_objs k !! p = Some port -> forall c, zget (channels port) idx = Some c -> c = 0.

Lemma msg_free_channel_wp {B} skip p idx (f : unit -> K M B) Q k :
  linked skip k ->
  (forall k', linked skip k' -> shrinks k k' -> slot_free p idx k' -> wp (f tt) Q k') ->
  wp (msg_free_channel p idx ≫= f) Q k.
Proof.
  intros Hk Hf. unfold msg_free_channel. apply wp_assoc, wp_get_port. intros port Hp.
  apply wp_assoc, wp_deref. intros c Hc. destruct (Z.eqb_spec c 0) as [->|Hz].
  { apply wp_bind, wp_ret, Hf; [done|done|]. intros port' Hp' x Hx. congruence. }
  apply wp_assoc, wp_get_channel. intros ch Hch.
  apply wp_assoc, wp_reads; [apply msg_get_task_reads|]. intros client Hcl.
  assert (Hend : forall k1, linked skip k1 -> port_objs k1 = port_objs k -> shrinks k k1 ->
    (forall i, forgets i c k1) ->
    wp ((_ ← upd_port p (fun port => port <| channels := zset (channels port) idx 0 |>); free_channel_obj c) ≫= f)
      Q k1).
  { intros k1 Hl Hsame Hsh Hfor. rewrite <-Hsame in Hp. apply wp_assoc, wp_upd_port. intros port' Hp'.
    assert (port' = port) as -> by congruence.
    unfold free_channel_obj, dealloc. apply wp_assoc, wp_modify, wp_modify. apply Hf.
    - exact (free_slot_linked skip k1 p port idx c _ Hl Hp Hc Hz Hfor).
    - etransitivity; [exact Hsh|]. exact (free_shrinks k1 p port idx c _ Hp Hc).
    - intros y Hy x Hx. simpl in Hy. rewrite lookup_insert_eq in Hy. simplify_eq. simpl in Hx.
      rewrite zget_zset_eq in Hx by (by apply zget_Some_range in Hc). by injection Hx. }
  assert (Hother : forall i, i <> client_taskid ch -> forgets i c k).
  { intros i Hi t Ht He Hin. destruct (lk_task _ _ Hk i t Ht He) as (_ & _ & _ & _ & T5).
    destruct (T5 c Hin) as (ch' & Hch' & Hid & _). simplify_eq. }
  apply wp_assoc, wp_when; intros Hb.
  - apply (task_forget_wp skip); [done|]. intros ts Hts Hforg Hsame Hproc.
    set (k1 := k <| tasks := ts |>) in *. apply Hend; [done|done| |].
    { split_and!; try done. intros q y Hq. exists y. by split_and!. }
    intros i.
    destruct (decide (i = client_taskid ch)) as [->|Hi]; [done|]. intros t Ht. simpl in Ht.
    rewrite Hsame in Ht by done. by apply (Hother i Hi).
  - apply Hend; [done|done|done|]. intros i. destruct (decide (i = client_taskid ch)) as [->|Hi].
    + intros t Ht He Hin. simpl in Ht. destruct (lk_task _ _ Hk _ t Ht He) as (T1 & _ & _ & _ & T5).
      destruct (T5 c Hin) as (ch' & Hch' & _ & Huid). simplify_eq. apply bool_decide_eq_false in Hb.
      apply dec_stable in Hb. subst client. by apply (msg_get_task_None _ _ _ _ _ Hcl Ht T1 He).
    + intros t Ht. by apply (Hother i Hi).
Qed.

(** ** Closing a connection *)

(** The pointers are sound, and since [k0] some were only taken away. *)
Definition safe (skip : option Z) k0 k : Prop := linked skip k /\ shrinks k0 k.

Lemma safe_links skip k0 k k' : same_links k k' -> safe skip k0 k -> safe skip k0 k'.
Proof. intros Hs [Hl Hr]. split; [by eapply linked_same|]. etransitivity; [done|by apply links_shrinks]. Qed.

Lemma wp_links {A B} skip k0 (m : K M A) (f : A -> K M B) (Q : option B -> kern M -> Prop) k :
  keeps same_links m -> safe skip k0 k -> (forall k', safe skip k0 k' -> Q None k') ->
  (forall a k', same_links k k' -> safe skip k0 k' -> wp (f a) Q k') -> wp (m ≫= f) Q k.
Proof.
  intros Hm Hk Hq Hf. eapply wp_keeps; [exact Hm|..]; intros; [apply Hf; [done|]|apply Hq]; by eapply safe_links.
Qed.

#[local] Instance same_links_calm : Calm (M := M) same_links.
Proof.
  split; [typeclasses eauto|apply quiet_links|done|..].
  - intros k i t t' Ht E. split_and!; try done. apply (same_ends_set k i t t' Ht E).
  - intros k p x y Hp E. split_and!; try done. intros q. by eapply fmap_insert_same.
  - intros k c x y Hc _ E. split_and!; try done. intros q. by eapply fmap_insert_same.
Qed.

(** The uid of a call is no pointer. *)
Lemma links_upd_channel c f : (forall x, chan_link (f x) = chan_link x) -> returns (M := M) same_links (upd_channel c f).
Proof.
  intros Hf k. unfold upd_channel, get_channel, mbind, K_mbind, deref.
  destruct (channel_objs k !! c) as [ch|] eqn:Hc; simpl; [|done]. split_and!; try done. intros q. by eapply fmap_insert_same.
Qed.
#[local] Hint Extern 1 (returns same_links (upd_channel _ _)) => apply links_upd_channel; done : keeps.

Lemma notify_peer_links regs i c pu cu s :
  keeps same_links (notify_peer tasks_init task_reset_windows wm_event_crash regs i c pu cu s).
Proof. apply calm_quiet_keeps; [typeclasses eauto|]; apply notify_peer_quiet; typeclasses eauto. Qed.
#[local] Hint Resolve notify_peer_links : keeps.

Lemma notify_closed_links regs c pu cu s :
  keeps same_links (notify_closed tasks_init task_reset_windows wm_event_crash regs c pu cu s).
Proof. unfold notify_closed. destruct s; keeps. Qed.
#[local] Hint Resolve notify_closed_links : keeps.

Lemma port_close_wp {B} skip k0 regs task pu cu (f : bool * option registers_t -> K M B) (Q : option B -> kern M -> Prop) k :
  safe skip k0 k -> (forall k', safe skip k0 k' -> Q None k') ->
  (forall a k', safe skip k0 k' -> wp (f a) Q k') ->
  wp (port_close_connection tasks_init task_reset_windows wm_event_crash regs task pu cu ≫= f) Q k.
Proof.
  intros Hk Hq Hf. unfold port_close_connection. apply wp_assoc, wp_reads; [apply find_port_reads|]. intros p _.
  destruct (p =? 0); [by apply wp_bind, wp_ret, Hf|]. apply wp_assoc, wp_get_port. intros port Hp.
  apply wp_assoc, wp_reads; [apply find_channel_reads|]. intros idx _.
  destruct (idx <? 0); [by apply wp_bind, wp_ret, Hf|]. apply wp_assoc, wp_deref. intros c Hc.
  destruct (c =? 0); [by apply wp_bind, wp_ret, Hf|]. apply wp_assoc, wp_get_channel. intros ch Hch.
  apply wp_assoc, wp_reads; [destruct task; returns|]. intros uid _.
  destruct (_ && _ && _); [by apply wp_bind, wp_ret, Hf|].
  apply wp_assoc. apply (wp_links skip k0); [keeps|done|done|]. intros regs' k1 _ Hk1.
  apply wp_assoc, wp_get_channel. intros ch1 _. apply wp_assoc, wp_when; intros _.
  - destruct Hk1 as [Hl1 Hr1]. apply (msg_free_channel_wp skip); [done|]. intros k2 Hl2 Hr2 _.
    apply wp_bind, wp_ret, Hf. split; [done|]. by etransitivity.
  - by apply wp_bind, wp_ret, Hf.
Qed.

(** ** Destroying a port *)

Lemma slot_free_shrinks p j k k' : shrinks k k' -> slot_free p j k -> slot_free p j k'.
Proof.
  intros (_ & _ & Hp & _ & _) Hf port' Hport' c Hc. destruct (Hp p port' Hport') as (port & Hport & _ & _ & _ & Hs).
  destruct (decide (c = 0)) as [|Hz]; [done|]. apply (Hf port Hport c). by apply Hs.
Qed.

Lemma destroy_channel_wp {B} skip k0 regs p j (f : option registers_t -> K M B) (Q : option B -> kern M -> Prop) k :
  safe skip k0 k -> (forall k', safe skip k0 k' -> Q None k') ->
  (forall r k', safe skip k0 k' -> shrinks k k' -> slot_free p j k' -> wp (f r) Q k') ->
  wp (destroy_channel tasks_init task_reset_windows wm_event_crash regs p j ≫= f) Q k.
Proof.
  intros Hk Hq Hf. assert (Hkk : safe skip k k) by (split; [apply Hk|reflexivity]).
  assert (Hto : forall k', safe skip k k' -> safe skip k0 k').
  { intros k' [Hl Hs]. split; [done|]. etransitivity; [apply Hk|done]. }
  unfold destroy_channel. apply wp_assoc, wp_get_port. intros port Hp. apply wp_assoc, wp_deref. intros c Hc.
  destruct (Z.eqb_spec c 0) as [->|Hz].
  { apply wp_bind, wp_ret, Hf; [done|done|]. intros port' Hp' x Hx. congruence. }
  apply wp_assoc, wp_get_channel. intros ch _.
  apply wp_assoc, (port_close_wp skip k); [done|auto|]. intros r k1 Hk1.
  apply wp_assoc, wp_get_port. intros port1 Hp1. apply wp_assoc, wp_deref. intros c1 Hc1.
  destruct (Z.eqb_spec c1 0) as [->|Hz1].
  { apply wp_bind, wp_ret, Hf; [auto|apply Hk1|]. intros port' Hp' x Hx. congruence. }
  apply wp_assoc, (msg_free_channel_wp skip); [apply Hk1|]. intros k2 Hl2 Hs2 Hfree.
  assert (Hs : shrinks k k2) by (etransitivity; [apply Hk1|done]).
  apply wp_bind, wp_ret, Hf; [by apply Hto; split|done|done].
Qed.

Lemma destroy_channels_wp {B} skip k0 n j p regs (f : option registers_t -> K M B) (Q : option B -> kern M -> Prop) k :
  safe skip k0 k -> (forall k', safe skip k0 k' -> Q None k') ->
  (forall r k', safe skip k0 k' -> shrinks k k' -> (forall i, j <= i < j + Z.of_nat n -> slot_free p i k') ->
     wp (f r) Q k') ->
  wp (destroy_channels tasks_init task_reset_windows wm_event_crash n j p regs ≫= f) Q k.
Proof.
  revert j regs k. induction n as [|n IH]; intros j regs k Hk Hq Hf; cbn [destroy_channels].
  { apply wp_bind, wp_ret, Hf; [done|done|]. lia. }
  apply wp_assoc, (destroy_channel_wp skip k0); [done|done|]. intros r k1 Hk1 Hs1 Hfree.
  apply IH; [done|done|]. intros r2 k2 Hk2 Hs2 Hfree2. apply Hf; [done|by etransitivity|].
  intros i Hi. destruct (decide (i = j)) as [->|]; [by eapply slot_free_shrinks|apply Hfree2; lia].
Qed.

Lemma wake_waiters_links n j p : returns (M := M) same_links (wake_waiters n j p).
Proof. revert j. induction n as [|n IH]; intros j; cbn [wake_waiters]; returns. Qed.
#[local] Hint Resolve wake_waiters_links : keeps.

(** [q] now precedes what came after [p]. *)
Definition relinked (p next : Z) (l : list Z) (objs objs' : gmap Z msg_port_t) : Prop :=
  objs' = objs \/ exists q x, q ∈ l /\ q <> p /\ objs !! q = Some x /\ objs' = <[q := x <| port_next := next |>]> objs.

Lemma chain_inv objs h l :
  chain objs h l -> (h = 0 /\ l = []) \/
  exists port l', h <> 0 /\ objs !! h = Some port /\ chain objs (port_next port) l' /\ l = h :: l'.
Proof. destruct 1; [by left|right]. eauto 10. Qed.

Lemma unlink_loop_wp {B} fuel prev cur p port l xp (f : unit -> K M B) Q k :
  chain (port_objs k) cur l -> NoDup (prev :: l) -> prev <> 0 -> prev <> p ->
  port_objs k !! prev = Some xp -> port_next xp = cur -> port_objs k !! p = Some port ->
  (forall objs', relinked p (port_next port) (prev :: l) (port_objs k) objs' ->
     chain objs' prev (prev :: filter (fun q => q <> p) l) -> wp (f tt) Q (k <| port_objs := objs' |>)) ->
  wp (unlink_loop fuel prev cur p (port_next port) ≫= f) Q k.
Proof.
  revert prev cur l xp Q f. induction fuel as [|fuel IH]; intros prev cur l xp Q f Hl Hd Hz Hne Hprev Hcur Hp Hf;
    cbn [unlink_loop]; [done|].
  destruct (Z.eqb_spec cur 0) as [->|Hc0].
  { destruct (chain_inv _ _ _ Hl) as [[_ ->]|(? & ? & ? & _)]; [|done]. apply wp_bind, wp_ret.
    specialize (Hf (port_objs k)). destruct k as [kt kc ks ke kts km kp kmu kpo kobjs kch ku kcu kca]. simpl in *.
    apply Hf; [by left|].
    econstructor; [done|done|]. rewrite Hcur. constructor. }
  destruct (chain_inv _ _ _ Hl) as [[? _]|(x & l' & _ & Hx & Hl' & ->)]; [done|].
  apply NoDup_cons in Hd as [Hprev_in Hd]. pose proof Hd as [Hcur_in Hd']%NoDup_cons.
  destruct (Z.eqb_spec cur p) as [->|Hcp].
  - apply wp_upd_port. intros xp' Hxp'. assert (xp' = xp) as -> by congruence.
    assert (x = port) as -> by congruence. apply Hf.
    + right. exists prev. eexists. split; [left|]. split_and!; done.
    + rewrite filter_cons, decide_False by (intros ?; done). rewrite filter_notin by done.
      econstructor; [done|apply lookup_insert_eq|]. simpl. apply (chain_mono (port_objs k)); [done|].
      intros q y Hq Hy. exists y. split; [|done]. rewrite lookup_insert_ne; [done|]. intros <-. set_solver.
  - apply wp_assoc, wp_get_port. intros x' Hx'. assert (x' = x) as -> by congruence.
    apply (IH cur _ l' x); try done.
    intros objs' Hrel Hch. apply Hf.
    + destruct Hrel as [->|(q & y & Hq & Hrest)]; [by left|]. right. exists q, y. split; [by right|done].
    + rewrite filter_cons, decide_True by done. econstructor; [done| |rewrite Hcur; exact Hch].
      destruct Hrel as [->|(q & y & Hq & _ & _ & ->)]; [done|]. rewrite lookup_insert_ne; [done|]. by intros ->.
Qed.

(** The list of ports without [p]; the rest is as it was. *)
Record unlinked (p : Z) k k' : Prop := {
  ul_tasks : tasks k' = tasks k;
  ul_channels : channel_objs k' = channel_objs k;
  ul_processes : processes k' = processes k;
  ul_chain : exists l, chain (port_objs k') (ports k') l /\ NoDup l /\
    forall q, q ∈ l <-> is_Some (port_objs k !! q) /\ q <> p;
  ul_ports q : (fun x => (owner_uid x, channels x, channel_count x)) <$> port_objs k' !! q =
               (fun x => (owner_uid x, channels x, channel_count x)) <$> port_objs k !! q }.

Lemma unlink_port_wp {B} skip p (f : unit -> K M B) Q k :
  linked skip k -> (forall k', unlinked p k k' -> wp (f tt) Q k') -> wp (unlink_port p ≫= f) Q k.
Proof.
  intros Hk Hf. destruct (lk_chain _ _ Hk) as (l & Hl & Hd & Hdom).
  unfold unlink_port. apply wp_assoc, wp_get_port. intros port Hp. apply wp_assoc, wp_gets.
  assert (Hpl : p ∈ l) by (apply Hdom; by eexists).
  destruct (chain_inv _ _ _ Hl) as [[_ ->]|(x & l' & Hz & Hx & Hl' & ->)]; [by apply not_elem_of_nil in Hpl|].
  apply NoDup_cons in Hd as [Hh Hd]. destruct (Z.eqb_spec p (ports k)) as [->|Hne].
  - apply wp_modify, Hf. assert (x = port) as -> by congruence. constructor; try done.
    exists l'. split; [done|]. split; [done|]. intros q. rewrite <-Hdom. split; [|set_solver].
    intros Hq. split; [by right|]. by intros ->.
  - apply wp_assoc, wp_get_port. intros x' Hx'. assert (x' = x) as -> by congruence. apply wp_assoc, wp_gets.
    apply (unlink_loop_wp _ _ _ p port l' x); try done; [by constructor|].
    intros objs' Hrel Hch. apply Hf. constructor; try done.
    + exists (ports k :: filter (fun q => q <> p) l'). split; [done|]. split.
      * constructor; [|by apply NoDup_filter]. rewrite list_elem_of_filter. by intros [_ ?].
      * intros q. rewrite <-Hdom, !elem_of_cons, list_elem_of_filter. naive_solver congruence.
    + intros q. simpl. destruct Hrel as [->|(y & xy & _ & _ & Hy & ->)]; [done|].
      destruct (decide (y = q)) as [<-|]; [by rewrite lookup_insert_eq, Hy|by rewrite lookup_insert_ne].
Qed.

Lemma unlinked_back p k k' q x' :
  unlinked p k k' -> port_objs k' !! q = Some x' -> exists x, port_objs k !! q = Some x /\
    owner_uid x' = owner_uid x /\ channels x' = channels x /\ channel_count x' = channel_count x.
Proof.
  intros Hu Hq. destruct (fmap_Some_back _ _ _ _ (ul_ports _ _ _ Hu q) Hq) as (x & Hx & E). exists x.
  injection E as E1 E2 E3. done.
Qed.

Lemma unlinked_forth p k k' q x :
  unlinked p k k' -> port_objs k !! q = Some x -> exists x', port_objs k' !! q = Some x' /\
    owner_uid x' = owner_uid x /\ channels x' = channels x /\ channel_count x' = channel_count x.
Proof.
  intros Hu Hq. destruct (fmap_Some_back _ _ _ _ (eq_sym (ul_ports _ _ _ Hu q)) Hq) as (x' & Hx & E). exists x'.
  injection E as E1 E2 E3. done.
Qed.

Definition unlisted (skip : option Z) (p : Z) k : Prop :=
  forall pr x, processes k !! pr = Some x -> Some pr <> skip -> p ∉ owned x.

Lemma delete_port_linked skip p k k' m :
  linked skip k -> (forall j, slot_free p j k) -> unlisted skip p k -> unlinked p k k' ->
  linked skip (k' <| k_mem := m |> <| port_objs := delete p (port_objs k') |>).
Proof.
  intros [L1 L2 L3 L4 L5 L6 L7 L8] Hfree Hun Hu. pose proof Hu as [U1 U2 U3 (l & Hl & Hd & Hdom) U5].
  set (k2 := k' <| k_mem := m |> <| port_objs := _ |>).
  assert (Hin : forall q j c, in_slot k2 q j c <-> in_slot k q j c).
  { intros q j c. split.
    - intros (y & Hy & Hj & Hc). simpl in Hy. apply lookup_delete_Some in Hy as [_ Hy].
      destruct (unlinked_back _ _ _ _ _ Hu Hy) as (x & Hx & _ & E & _). exists x. by rewrite <-E.
    - intros (x & Hx & Hj & Hc). destruct (unlinked_forth _ _ _ _ _ Hu Hx) as (y & Hy & _ & E & _).
      exists y. rewrite E. split; [|done]. simpl. rewrite lookup_delete_ne; [done|]. intros <-. apply Hc.
      by apply (Hfree j x Hx c). }
  constructor.
  - exists l. split; [|split; [done|]].
    + apply (chain_mono (port_objs k')); [done|]. intros q y Hq Hy. exists y. split; [|done]. simpl.
      rewrite lookup_delete_ne; [done|]. intros <-. by apply Hdom in Hq as [_ ?].
    + intros q. rewrite Hdom. simpl. rewrite lookup_delete_is_Some, <-!(fmap_is_Some
        (fun x => (owner_uid x, channels x, channel_count x)) (port_objs _ !! q)), U5. naive_solver.
  - intros q y Hy. simpl in Hy. apply lookup_delete_Some in Hy as [_ Hy].
    destruct (unlinked_back _ _ _ _ _ Hu Hy) as (x & Hx & _ & -> & ->). by apply (L2 q).
  - intros q j c Hj%Hin. change (channel_objs k2) with (channel_objs k'). rewrite U2. by eapply L3.
  - intros p1 j1 p2 j2 c H1%Hin H2%Hin. by eapply L4.
  - intros c. change (channel_objs k2) with (channel_objs k'). rewrite U2. intros Hc. destruct (L5 c Hc) as (Hz & q & j & Hj). split; [done|].
    exists q, j. by apply Hin.
  - intros i t. change (channel_objs k2) with (channel_objs k'). change (tasks k2) with (tasks k'). rewrite U1, U2. apply L6.
  - intros pr x. change (processes k2) with (processes k'). rewrite U3. intros Hx Hsk. destruct (L7 pr x Hx Hsk) as (P1 & P2 & P3 & P4).
    split_and!; try done; try lia. intros q Hq. destruct (P4 q Hq) as (y & Hy & Ho).
    destruct (unlinked_forth _ _ _ _ _ Hu Hy) as (y' & Hy' & E & _). exists y'.
    simpl. rewrite lookup_delete_ne; [split; congruence|]. intros <-. by apply (Hun pr x Hx Hsk).
  - change (processes k2) with (processes k'). rewrite U3. apply L8.
Qed.

(** What is left of the ports and processes after ports were destroyed. *)
Definition fewer k k' : Prop :=
  (forall p, holds_of <$> processes k' !! p = holds_of <$> processes k !! p) /\
  (forall i, t_process <$> zget (tasks k') i = t_process <$> zget (tasks k) i) /\
  forall p port', port_objs k' !! p = Some port' ->
    exists port, port_objs k !! p = Some port /\ owner_uid port' = owner_uid port.

#[global] Instance fewer_preorder : PreOrder fewer.
Proof.
  split; [intros k; do 2 (split; [done|]); intros p port Hp; by exists port|].
  intros k1 k2 k3 (H1 & H1' & H2) (H3 & H3' & H4). do 2 (split; [congruence|]). intros p y Hy.
  destruct (H4 p y Hy) as (x & Hx & E). destruct (H2 p x Hx) as (z & Hz & E'). exists z. split; [done|congruence].
Qed.

Lemma shrinks_fewer k k' : shrinks k k' -> fewer k k'.
Proof.
  intros (_ & _ & H3 & H4 & H5). do 2 (split; [done|]). intros p y Hy. destruct (H3 p y Hy) as (x & Hx & E & _). by exists x.
Qed.

Lemma unlisted_same skip p k k' :
  (forall q, holds_of <$> processes k' !! q = holds_of <$> processes k !! q) -> unlisted skip p k -> unlisted skip p k'.
Proof.
  intros He Hu pr x' Hx' Hsk. destruct (fmap_Some_back _ _ _ _ (He pr) Hx') as (x & Hx & E).
  unfold holds_of, owned in *. injection E as _ -> ->. by apply (Hu pr x).
Qed.

Lemma destroy_port_wp {B} skip regs p (f : option registers_t -> K M B) (Q : option B -> kern M -> Prop) k :
  linked skip k -> unlisted skip p k ->
  (forall k', linked skip k' -> fewer k k' -> Q None k') ->
  (forall r k', linked skip k' -> fewer k k' -> wp (f r) Q k') ->
  wp (destroy_port tasks_init task_reset_windows wm_event_crash regs p ≫= f) Q k.
Proof.
  intros Hk Hun Hq Hf. assert (Hkk : safe skip k k) by (split; [done|reflexivity]).
  unfold destroy_port. apply wp_assoc, wp_get_port. intros port Hp.
  apply wp_assoc, (destroy_channels_wp skip k); [done| |].
  { intros k' [Hl Hs]. apply Hq; [done|by apply shrinks_fewer]. }
  intros r k1 [Hl1 Hs1] _ Hfree. apply wp_assoc.
  eapply wp_returns; [apply wake_waiters_links|]. intros _ k2 Hk2.
  assert (Hs2 : safe skip k k2) by (eapply safe_links; [exact Hk2|by split]).
  assert (Hall : forall j, slot_free p j k2).
  { intros j. apply (slot_free_shrinks p j k1); [by apply links_shrinks|]. intros port1 Hp1 c Hc.
    destruct (decide (c = 0)) as [|Hz]; [done|]. destruct (lk_port _ _ Hl1 p port1 Hp1) as (_ & _ & Hj).
    destruct Hs1 as (_ & _ & H3 & _ & _). destruct (H3 p port1 Hp1) as (port0 & Hp0 & _ & Ecount & _). simplify_eq.
    pose proof (zget_Some_range _ _ _ Hc). pose proof (Hj j c Hc Hz).
    apply (Hfree j ltac:(lia) port1 Hp1 c Hc). }
  destruct Hs2 as [Hl2 Hs2].
  assert (Hun2 : unlisted skip p k2) by (eapply unlisted_same; [apply Hs2|done]).
  apply wp_assoc, (unlink_port_wp skip); [done|]. intros k3 Hu3.
  unfold free_port_obj, dealloc. apply wp_assoc, wp_assoc, wp_modify, wp_modify, wp_bind, wp_ret. apply Hf.
  - exact (delete_port_linked skip p k2 k3 _ Hl2 Hall Hun2 Hu3).
  - etransitivity; [by apply shrinks_fewer|]. split; [intros q; by rewrite <-(ul_processes _ _ _ Hu3)|].
    split; [intros q; by rewrite <-(ul_tasks _ _ _ Hu3)|]. simpl.
    intros q y Hy. apply lookup_delete_Some in Hy as [_ Hy].
    destruct (unlinked_back _ _ _ _ _ Hu3 Hy) as (x & Hx & E & _). by exists x.
Qed.

(** ** Ends of ports, processes and tasks *)

Definition process_linked k (x : process_t) : Prop :=
  zlen (p_ports x) = PROCESS_MAX_PORTS /\ 0 <= port_count x <= PROCESS_MAX_PORTS /\ NoDup (owned x) /\
  forall p, p ∈ owned x -> exists port, port_objs k !! p = Some port /\ owner_uid port = p_uid x.

Lemma linked_set_process skip skip' k pr x x' :
  linked skip k -> processes k !! pr = Some x -> p_uid x' = p_uid x ->
  (Some pr <> skip' -> process_linked k x') -> (forall q, q <> pr -> Some q <> skip' -> Some q <> skip) ->
  linked skip' (k <| processes := <[pr := x']> (processes k) |>).
Proof.
  intros [L1 L2 L3 L4 L5 L6 L7 L8] Hx Hu Hok Hsk. constructor; try done.
  - intros q y Hy Hs. simpl in Hy. apply lookup_insert_Some in Hy as [[<- <-]|[Hne Hy]]; [by apply Hok|].
    apply (L7 q y Hy). apply Hsk; [congruence|done].
  - intros p1 p2 x1 x2 H1 H2 He. simpl in H1, H2.
    apply lookup_insert_Some in H1 as [[<- <-]|[? H1]]; apply lookup_insert_Some in H2 as [[<- <-]|[? H2]]; [done|..].
    + eapply L8; [done|done|congruence].
    + eapply L8; [done|done|congruence].
    + by eapply L8.
Qed.

Lemma process_forget_wp {B} pr p (f : unit -> K M B) Q k :
  linked None k ->
  (forall x x', processes k !! pr = Some x -> p_uid x' = p_uid x -> port_count x - 1 <= port_count x' ->
     let k' := k <| processes := <[pr := x']> (processes k) |> in
     linked None k' -> p ∉ owned x' -> wp (f tt) Q k') ->
  wp (process_forget_port pr p ≫= f) Q k.
Proof.
  intros Hk Hf. unfold process_forget_port. apply wp_assoc, wp_get_process. intros x Hx.
  apply wp_assoc, wp_deref. intros r Hr. apply wp_upd_process. intros x0 Hx0. assert (x0 = x) as -> by congruence.
  destruct (lk_process _ _ Hk pr x Hx ltac:(done)) as (P1 & P2 & P3 & P4).
  destruct (forget_spec (p_ports x) (port_count x) p r Hr ltac:(unfold PROCESS_MAX_PORTS in *; lia) P3)
    as (R1 & R2 & R2' & R3 & R4).
  set (x' := x <| p_ports := fst r |> <| port_count := snd r |>).
  enough (Hw : wp (f tt) Q (k <| processes := <[pr := x']> (processes k) |>)) by exact Hw.
  apply (Hf x x'); try done.
  - apply (linked_set_process None None k pr x); try done. intros _. split_and!; simpl; try done; try lia.
    intros q Hq. apply R4 in Hq as [Hq _]. by apply P4.
  - intros Hq. by apply R4 in Hq as [_ Hq].
Qed.

(** A port that was taken off the list of the only process that can list it. *)
Lemma forgotten_unlisted k pr x x' p port :
  linked None k -> processes k !! pr = Some x -> p ∉ owned x' ->
  port_objs k !! p = Some port -> owner_uid port = p_uid x ->
  unlisted None p (k <| processes := <[pr := x']> (processes k) |>).
Proof.
  intros Hk Hx Hp Hport Ho q y Hy _ Hin. simpl in Hy. apply lookup_insert_Some in Hy as [[<- <-]|[Hne Hy]]; [done|].
  destruct (lk_process _ _ Hk q y Hy ltac:(done)) as (_ & _ & _ & P4). destruct (P4 p Hin) as (port' & Hp' & Ho').
  apply Hne. eapply (lk_uid _ _ Hk); [done|done|]. congruence.
Qed.

Lemma close_port_ok regs i pu k :
  linked None k ->
  wp (close_port tasks_init task_reset_windows wm_event_crash regs i pu) (fun _ => linked None) k.
Proof.
  intros Hk. unfold close_port. apply wp_reads; [apply find_port_reads|]. intros p _.
  apply wp_if; intros _; [by apply wp_ret|]. apply wp_get_port. intros port Hp. apply wp_get_task. intros t _.
  apply wp_get_process. intros x Hx. apply wp_if; intros Ho; [by apply wp_ret|].
  apply process_forget_wp; [done|]. intros x0 x' Hx0 Hu _. cbv zeta. intros Hl Hn.
  assert (x0 = x) as -> by congruence. apply (destroy_port_wp None); [done| |done|by intros; apply wp_ret].
  apply (forgotten_unlisted k (t_process t) x x' p port); try done. destruct (Z.eqb_spec (owner_uid port) (p_uid x)); done.
Qed.

Lemma port_disconnect_ok regs i pu cu k :
  linked None k ->
  wp (port_disconnect tasks_init task_reset_windows wm_event_crash regs i pu cu) (fun _ => linked None) k.
Proof.
  intros Hk. unfold port_disconnect. apply wp_reads; [apply find_port_reads|]. intros p _.
  apply wp_if; intros _; [by apply wp_ret|]. apply wp_get_port. intros port Hp.
  apply wp_reads; [apply find_channel_reads|]. intros idx _. apply wp_if; intros _; [by apply wp_ret|].
  apply wp_deref. intros c _. apply wp_if; intros _; [by apply wp_ret|]. apply wp_get_channel. intros ch _.
  apply wp_get_task. intros t _. apply wp_if; intros _; [by apply wp_ret|].
  apply (task_forget_wp None); [done|]. intros ts Hl _ _ _. set (k1 := k <| tasks := ts |>) in *.
  apply wp_last, (port_close_wp None k1); [by split|by intros k' []|by intros a k' []; apply wp_ret].
Qed.

(** The ports that are left of the process at [pr] are its own. *)
Definition own_ports (pr : Z) k : Prop :=
  forall x, processes k !! pr = Some x -> zlen (p_ports x) = PROCESS_MAX_PORTS /\
    forall p port, p ∈ owned x -> port_objs k !! p = Some port -> owner_uid port = p_uid x.

Lemma own_ports_fewer pr k k' : fewer k k' -> own_ports pr k -> own_ports pr k'.
Proof.
  intros (H1 & _ & H2) Ho x' Hx'. destruct (fmap_Some_back _ _ _ _ (H1 pr) Hx') as (x & Hx & E).
  unfold holds_of, owned in *. injection E as E1 E2 E3. destruct (Ho x Hx) as [Hlen Ho'].
  rewrite E1, E2, E3. split; [done|]. intros p port' Hin Hp. destruct (H2 p port' Hp) as (port & Hport & Eo).
  rewrite Eo. by apply (Ho' p port).
Qed.

Lemma own_unlisted pr x p port k :
  linked (Some pr) k -> own_ports pr k -> processes k !! pr = Some x -> p ∈ owned x ->
  port_objs k !! p = Some port -> unlisted (Some pr) p k.
Proof.
  intros Hk Ho Hx Hin Hp q y Hy Hsk Hq. destruct (lk_process _ _ Hk q y Hy Hsk) as (_ & _ & _ & P4).
  destruct (P4 p Hq) as (port' & Hp' & Ho'). apply Hsk. f_equal. eapply (lk_uid _ _ Hk); [done|done|].
  pose proof (proj2 (Ho x Hx) p port Hin Hp). congruence.
Qed.

Lemma destroy_ports_wp {B} n j pr (f : unit -> K M B) (Q : option B -> kern M -> Prop) k :
  linked (Some pr) k -> own_ports pr k -> 0 <= j ->
  (forall x, processes k !! pr = Some x -> j + Z.of_nat n <= port_count x) ->
  (forall k', linked (Some pr) k' -> Q None k') ->
  (forall k', linked (Some pr) k' -> own_ports pr k' -> wp (f tt) Q k') ->
  wp (destroy_ports tasks_init task_reset_windows wm_event_crash n j pr ≫= f) Q k.
Proof.
  revert j k. induction n as [|n IH]; intros j k Hk Ho Hj Hn Hq Hf; cbn [destroy_ports];
    [by apply wp_bind, wp_ret, Hf|].
  apply wp_assoc, wp_get_process. intros x Hx. apply wp_assoc, wp_deref. intros p Hp.
  apply wp_assoc. destruct (port_objs k !! p) as [port|] eqn:Hport.
  2: { apply wp_bind. unfold destroy_port, wp, mbind, K_mbind, get_port, deref. by rewrite Hport. }
  pose proof (Hn x Hx) as Hlen.
  assert (Hin : p ∈ owned x) by (apply elem_of_take_zget; [lia|]; exists j; split; [lia|done]).
  apply (destroy_port_wp (Some pr)); [done|by eapply own_unlisted|intros k' Hl _; by apply Hq|].
  intros _ k' Hl Hfew. apply IH; [done|by eapply own_ports_fewer|lia| |done|done].
  intros x' Hx'. destruct (fmap_Some_back _ _ _ _ (proj1 Hfew pr) Hx') as (x0 & Hx0 & E).
  unfold holds_of in E. injection E as _ _ ->. pose proof (Hn x0 Hx0). lia.
Qed.

Lemma linked_weaken skip k : linked None k -> linked skip k.
Proof. intros [L1 L2 L3 L4 L5 L6 L7 L8]. constructor; try done. intros q y Hy _. by apply (L7 q y Hy). Qed.

Lemma msg_cleanup_process_ok pr k :
  linked None k ->
  wp (msg_cleanup_process tasks_init task_reset_windows wm_event_crash pr)
    (fun o k' => linked (match o with Some _ => None | None => Some pr end) k') k.
Proof.
  intros Hk. unfold msg_cleanup_process. apply wp_get_process. intros x Hx.
  destruct (lk_process _ _ Hk pr x Hx ltac:(done)) as (P1 & P2 & P3 & P4).
  apply destroy_ports_wp; [by apply linked_weaken| |done|intros y Hy; simplify_eq; lia|done|].
  - intros y Hy. assert (y = x) as -> by congruence. split; [done|]. intros p port Hin Hp.
    destruct (P4 p Hin) as (port' & Hp' & ?). congruence.
  - intros k' Hl Ho. apply wp_last, wp_upd_process. intros y Hy. apply wp_ret.
    apply (linked_set_process (Some pr) None k' pr y); [done|done|done| |congruence].
    intros _. split; [apply (Ho y Hy)|]. split; [done|]. split; [constructor|]. intros p Hp. by apply not_elem_of_nil in Hp.
Qed.

(** The channels of a task, and then the ports it made. *)
Lemma close_channels_wp {B} fuel i (f : unit -> K M B) (Q : option B -> kern M -> Prop) k :
  linked None k -> (forall k', linked None k' -> Q None k') -> (forall k', linked None k' -> wp (f tt) Q k') ->
  wp (close_channels tasks_init task_reset_windows wm_event_crash fuel i ≫= f) Q k.
Proof.
  revert k. induction fuel as [|fuel IH]; intros k Hk Hq Hf; cbn [close_channels]; [done|].
  apply wp_assoc, wp_get_task. intros t _. cbv zeta. destruct (_ <=? 0); [by apply wp_bind, wp_ret, Hf|].
  apply wp_assoc, wp_deref. intros c _.
  assert (Hend : forall k', linked None k' -> wp ((t' ← get_task i;
    _ ← when (msg_channel_count t' =? msg_channel_count t) (task_forget_channel i c);
    close_channels tasks_init task_reset_windows wm_event_crash fuel i) ≫= f) Q k').
  { intros k' Hk'. apply wp_assoc, wp_get_task. intros t' _. apply wp_assoc, wp_when; intros _; [|by apply IH].
    apply (task_forget_wp None); [done|]. intros ts Hts _ _ _. by apply IH. }
  apply wp_assoc, wp_when; intros _; [|by apply Hend]. apply wp_assoc, wp_get_channel. intros ch _.
  apply wp_assoc, (port_close_wp None k); [by split|intros k' []; by apply Hq|].
  intros a k' []. by apply wp_bind, wp_ret, Hend.
Qed.

Lemma close_owned_ports_ok n i k :
  linked None k ->
  (forall t x, zget (tasks k) i = Some t -> processes k !! t_process t = Some x -> Z.of_nat n <= port_count x) ->
  wp (close_owned_ports tasks_init task_reset_windows wm_event_crash n i) (fun _ => linked None) k.
Proof.
  revert k. induction n as [|n IH]; intros k Hk Hn; cbn [close_owned_ports]; [by apply wp_ret|].
  apply wp_get_task. intros t Ht. apply wp_get_process. intros x Hx. apply wp_deref. intros p Hp.
  pose proof (Hn t x Ht Hx) as Hlen.
  assert (Hnext : forall k', fewer k k' -> linked None k' ->
    wp (close_owned_ports tasks_init task_reset_windows wm_event_crash n i) (fun _ => linked None) k').
  { intros k' (H1 & H2 & _) Hl. apply IH; [done|]. intros t' x' Ht' Hx'.
    destruct (fmap_Some_back _ _ _ _ (H2 i) Ht') as (t0 & Ht0 & E). assert (t0 = t) as -> by congruence.
    rewrite E in Hx'. destruct (fmap_Some_back _ _ _ _ (H1 _) Hx') as (x0 & Hx0 & E').
    assert (x0 = x) as -> by congruence. unfold holds_of in E'. injection E' as _ _ ->. lia. }
  apply wp_when; intros Hz; [|by apply Hnext]. apply wp_assoc, wp_get_port. intros port Hport.
  apply wp_when; intros _; [|by apply Hnext].
  apply wp_assoc, process_forget_wp; [done|]. intros x0 x' Hx0 Hu Hcount. cbv zeta. intros Hl Hnp.
  assert (x0 = x) as -> by congruence.
  destruct (lk_process _ _ Hk _ x Hx ltac:(done)) as (_ & P2 & _ & P4).
  assert (Hin : p ∈ owned x) by (apply elem_of_take_zget; [lia|]; exists (Z.of_nat n); split; [lia|done]).
  destruct (P4 p Hin) as (port' & Hp' & Ho). assert (port' = port) as -> by congruence.
  set (k1 := k <| processes := <[t_process t := x']> (processes k) |>) in *.
  assert (Hrest : forall k', fewer k1 k' -> linked None k' ->
    wp (close_owned_ports tasks_init task_reset_windows wm_event_crash n i) (fun _ => linked None) k').
  { intros k' (H1 & H2 & _) Hl'. apply IH; [done|]. intros t' y' Ht' Hy'.
    destruct (fmap_Some_back _ _ _ _ (H2 i) Ht') as (t0 & Ht0 & E).
    change (zget (tasks k) i = Some t0) in Ht0. assert (t0 = t) as -> by congruence.
    rewrite E in Hy'. destruct (fmap_Some_back _ _ _ _ (H1 _) Hy') as (y & Hy & E').
    simpl in Hy. rewrite lookup_insert_eq in Hy. injection Hy as <-. unfold holds_of in E'. injection E' as _ _ ->. lia. }
  apply wp_assoc, (destroy_port_wp None); [done|by eapply (forgotten_unlisted k _ x x' p port)|done|].
  intros r k' Hl' Hfew. apply wp_bind, wp_ret. by apply Hrest.
Qed.

Lemma each_links n j l g :
  (forall p, returns (M := M) same_links (g p)) -> returns (M := M) same_links (each n j l g).
Proof. intros Hg. revert j. induction n as [|n IH]; intros j; cbn [each]; returns. Qed.

Lemma msg_cleanup_task_ok i k :
  linked None k ->
  wp (msg_cleanup_task tasks_init task_reset_windows wm_event_crash i) (fun _ => linked None) k.
Proof.
  intros Hk. unfold msg_cleanup_task. apply close_channels_wp; [done|done|]. intros k1 Hk1.
  apply wp_get_task. intros t Ht. apply wp_get_process. intros x Hx.
  eapply wp_returns; [apply each_links; intros p; unfold msg_remove_waiter; returns|]. intros _ k2 Hs.
  apply close_owned_ports_ok; [by eapply linked_same|]. intros t' x' Ht' Hx'.
  destruct (lk_process _ _ Hk1 _ x Hx ltac:(done)) as (_ & P2 & _).
  destruct (links_shrinks _ _ Hs) as (_ & _ & _ & H4 & H5).
  destruct (fmap_Some_back _ _ _ _ (H5 i) Ht') as (t0 & Ht0 & E). assert (t0 = t) as -> by congruence.
  rewrite E in Hx'. destruct (fmap_Some_back _ _ _ _ (H4 _) Hx') as (x0 & Hx0 & E').
  assert (x0 = x) as -> by congruence. unfold holds_of in E'. injection E' as _ _ ->. lia.
Qed.

(** ** Opening ports and channels *)

Lemma wp_alloc {B} size (f : Z -> K M B) Q k :
  (forall p m, malloc (k_mem k) size = (p, m) -> wp (f p) Q (k <| k_mem := m |>)) -> wp (alloc size ≫= f) Q k.
Proof. intros Hf. apply wp_bind. unfold wp, alloc. destruct (malloc (k_mem k) size) as [p m]. by apply Hf. Qed.

(** The block that the next [malloc] returns holds no live object. *)
Definition fresh_block (size : Z) k : Prop :=
  port_objs k !! fst (malloc (k_mem k) size) = None /\ channel_objs k !! fst (malloc (k_mem k) size) = None.

Lemma add_port_linked k pr x p y u :
  linked None k -> processes k !! pr = Some x -> port_count x < PROCESS_MAX_PORTS ->
  p <> 0 -> port_objs k !! p = None ->
  owner_uid y = p_uid x -> channels y = replicate (Z.to_nat MSG_MAX_CHANNELS) 0 -> channel_count y = 0 ->
  port_next y = ports k ->
  linked None (k <| processes := <[pr := x <| p_ports := zset (p_ports x) (port_count x) p |>
                                          <| port_count := port_count x + 1 |>]> (processes k) |>
                 <| msg_uid_counter := u |> <| port_objs := <[p := y]> (port_objs k) |> <| ports := p |>).
Proof.
  intros Hk Hx Hcount Hz Hp Hown Hch Hcc Hnext. pose proof Hk as [(l & Hl & Hd & Hdom) L2 L3 L4 L5 L6 L7 L8].
  destruct (L7 pr x Hx ltac:(done)) as (P1 & P2 & P3 & P4).
  set (x' := x <| p_ports := _ |> <| port_count := _ |>). set (k' := k <| processes := _ |> <| msg_uid_counter := u |>
    <| port_objs := _ |> <| ports := p |>).
  assert (Hpl : p ∉ l) by (rewrite Hdom, Hp; by intros []).
  assert (Hmono : forall q z, port_objs k !! q = Some z -> port_objs k' !! q = Some z)
    by (intros q z Hq; simpl; rewrite lookup_insert_ne; congruence).
  assert (Hin : forall q j c, in_slot k' q j c -> in_slot k q j c).
  { intros q j c (z & Hq & Hj & Hc). simpl in Hq. apply lookup_insert_Some in Hq as [[<- <-]|[_ Hq]]; [|by exists z].
    rewrite Hch in Hj. apply zget_elem, elem_of_replicate in Hj as [-> _]. done. }
  constructor.
  - exists (p :: l). split; [|split].
    + econstructor; [done|apply lookup_insert_eq|]. rewrite Hnext. apply (chain_mono (port_objs k)); [done|].
      intros q z _ Hq. exists z. by split; [apply Hmono|].
    + by constructor.
    + intros q. simpl. rewrite elem_of_cons, lookup_insert_is_Some', Hdom. naive_solver.
  - intros q z Hq. simpl in Hq. apply lookup_insert_Some in Hq as [[<- <-]|[_ Hq]]; [|by apply (L2 q)].
    rewrite Hch, Hcc. split; [done|]. split; [done|]. intros j c Hj. by apply zget_elem, elem_of_replicate in Hj as [-> _].
  - intros q j c Hj%Hin. by eapply L3.
  - intros p1 j1 p2 j2 c H1%Hin H2%Hin. by eapply L4.
  - intros c Hc. destruct (L5 c Hc) as (Hc0 & q & j & (z & Hq & Hj)). split; [done|]. exists q, j, z. split; [by apply Hmono|done].
  - done.
  - intros q z Hq _. simpl in Hq. apply lookup_insert_Some in Hq as [[<- <-]|[_ Hq]].
    + unfold owned. simpl. rewrite zlen_zset, take_zset_snoc by lia. split; [done|]. split; [lia|]. split.
      * apply NoDup_snoc; [done|]. intros Hpo. destruct (P4 p Hpo) as (z & ? & _). congruence.
      * intros q Hq. apply elem_of_app in Hq as [Hq| ->%list_elem_of_singleton].
        -- destruct (P4 q Hq) as (z & Hz' & Ho). exists z. by split; [apply Hmono|].
        -- exists y. by rewrite lookup_insert_eq.
    + destruct (L7 q z Hq ltac:(done)) as (Q1 & Q2 & Q3 & Q4). split_and!; try done; try lia.
      intros q' Hq'. destruct (Q4 q' Hq') as (w & Hw & Ho). exists w. by split; [apply Hmono|].
  - intros p1 p2 x1 x2 H1 H2 E. simpl in H1, H2.
    apply lookup_insert_Some in H1 as [[<- <-]|[? H1]]; apply lookup_insert_Some in H2 as [[<- <-]|[? H2]]; [done|..];
      by eapply L8.
Qed.

(** Looking up a file name leaves the ports alone and gives back the memory it takes. *)
Definition looks_up k k' : Prop := same_links k k' /\ (fresh_block SIZEOF_PORT k -> fresh_block SIZEOF_PORT k').

Lemma create_port_ok fs_exists i nm rsv k :
  (forall s, returns looks_up (fs_exists s)) -> linked None k -> fresh_block SIZEOF_PORT k ->
  wp (create_port fs_exists i nm rsv) (fun _ => linked None) k.
Proof.
  intros Hfs Hk Hfresh. unfold create_port. apply wp_get_task. intros t _. apply wp_get_process. intros x Hx.
  apply wp_if; intros _; [by apply wp_ret|]. eapply wp_returns; [apply Hfs|]. intros ex k0 [Hs Hfr].
  apply (linked_same None _ _ Hs) in Hk. apply Hfr in Hfresh. clear Hfr.
  destruct Hs as (_ & _ & _ & _ & Hhold). destruct Hfresh as [Hfresh _].
  apply wp_if; intros _; [by apply wp_ret|]. apply wp_reads; [apply find_port_reads|]. intros q _.
  apply wp_if; intros _; [by apply wp_ret|]. apply wp_if; intros Hc; [by apply wp_ret|]. apply Z.leb_gt in Hc.
  apply wp_gets. apply wp_if; intros _; [by apply wp_ret|].
  apply wp_alloc. intros p m Hm. rewrite Hm in Hfresh. set (k1 := k0 <| k_mem := m |>).
  assert (Hk1 : linked None k1) by (apply (linked_same None k0); [by split_and!|done]).
  apply wp_if; intros Hz; [by apply wp_ret|]. apply Z.eqb_neq in Hz.
  apply wp_upd_process. intros x0 Hx0. change (processes k0 !! t_process t = Some x0) in Hx0.
  destruct (fmap_Some_back _ _ _ _ (Hhold _) Hx0) as (x1 & Hx1 & E). assert (x1 = x) as -> by congruence.
  unfold holds_of in E. injection E as E1 _ E3. rewrite <-E3 in Hc.
  apply wp_gets, wp_modify, wp_ret. by apply (add_port_linked k1 (t_process t) x0 p).
Qed.

Lemma add_channel_linked k i t t' p port port' idx c ch u :
  linked None k -> zget (tasks k) i = Some t -> enabled t = true -> msg_channel_count t < TASK_MAX_CHANNELS ->
  t' = t <| msg_channels := zset (msg_channels t) (msg_channel_count t) c |> <| msg_channel_count := msg_channel_count t + 1 |> ->
  port_objs k !! p = Some port -> zget (channels port) idx = Some 0 ->
  channels port' = zset (channels port) idx c -> owner_uid port' = owner_uid port -> port_next port' = port_next port ->
  idx < channel_count port' -> channel_count port <= channel_count port' <= MSG_MAX_CHANNELS ->
  c <> 0 -> channel_objs k !! c = None -> client_taskid ch = i -> client_taskuid ch = task_uid t ->
  linked None (k <| port_objs := <[p := port']> (port_objs k) |> <| tasks := zset (tasks k) i t' |>
                 <| channel_uid_counter := u |> <| channel_objs := <[c := ch]> (channel_objs k) |>).
Proof.
  intros [(l & Hl & Hd & Hdom) L2 L3 L4 L5 L6 L7 L8] Ht He Hcount Et' Hp Hidx Hchs Hown Hnext Hii Hcc Hz Hc Hid Huid.
  destruct (L2 p port Hp) as (E1 & E2 & E3). destruct (L6 i t Ht He) as (T1 & T2 & T3 & T4 & T5).
  set (k' := k <| port_objs := _ |> <| tasks := _ |> <| channel_uid_counter := u |> <| channel_objs := _ |>).
  assert (Hold : forall x z, channel_objs k !! x = Some z -> channel_objs k' !! x = Some z)
    by (intros x z Hx; simpl; rewrite lookup_insert_ne; congruence).
  assert (Hin : forall q j x, in_slot k' q j x <-> in_slot k q j x \/ (q = p /\ j = idx /\ x = c)).
  { intros q j x. unfold in_slot. simpl. split.
    - intros (y & Hy & Hj & Hx). apply lookup_insert_Some in Hy as [[<- <-]|[_ Hy]]; [|left; by exists y].
      rewrite Hchs, zget_zset in Hj. case_decide as Hd'; [|left; by exists port].
      right. simplify_eq. split_and!; try done. by destruct Hd' as [-> _].
    - intros [(y & Hy & Hj & Hx)|(-> & -> & ->)].
      + destruct (decide (p = q)) as [<-|]; [|exists y; by rewrite lookup_insert_ne].
        assert (y = port) as -> by congruence. exists port'. rewrite lookup_insert_eq. split; [done|]. split; [|done].
        rewrite Hchs, zget_zset_ne; [done|]. congruence.
      + exists port'. rewrite lookup_insert_eq. split; [done|]. split; [|done]. rewrite Hchs.
        apply zget_zset_eq. by apply zget_Some_range in Hidx. }
  assert (Hnot : forall q j, ~ in_slot k q j c) by (intros q j Hj; destruct (L3 q j c Hj); congruence).
  constructor.
  - exists l. split; [|split; [done|]].
    + apply (chain_mono (port_objs k)); [done|]. intros q y _ Hy. simpl. destruct (decide (p = q)) as [<-|].
      * exists port'. rewrite lookup_insert_eq. split; congruence.
      * exists y. by rewrite lookup_insert_ne.
    + intros q. rewrite Hdom. simpl. rewrite lookup_insert_is_Some'. naive_solver.
  - intros q y Hy. simpl in Hy. apply lookup_insert_Some in Hy as [[<- <-]|[_ Hy]]; [|by apply (L2 q)].
    rewrite Hchs, zlen_zset. split; [done|]. split; [lia|].
    intros j x Hj Hx. rewrite zget_zset in Hj. case_decide; [lia|]. specialize (E3 j x Hj Hx). lia.
  - intros q j x [Hj|(-> & -> & ->)]%Hin; [|simpl; by rewrite lookup_insert_eq].
    destruct (L3 q j x Hj) as [z Hx]. exists z. by apply Hold.
  - intros p1 j1 p2 j2 x H1%Hin H2%Hin. destruct H1 as [H1|(-> & -> & ->)], H2 as [H2|(-> & -> & E)]; subst;
      [by eapply L4|by destruct (Hnot p1 j1)|by destruct (Hnot p2 j2)|done].
  - intros x Hx. simpl in Hx. apply lookup_insert_is_Some' in Hx as [<-|Hx].
    + split; [done|]. exists p, idx. apply Hin. by right.
    + destruct (L5 x Hx) as (Hx0 & q & j & Hj). split; [done|]. exists q, j. apply Hin. by left.
  - intros i' y Hy Hen. simpl in Hy. rewrite zget_zset in Hy. case_decide as Hd'.
    + destruct Hd' as [<- _]. injection Hy as <-. rewrite Et'. unfold held. simpl.
      rewrite zlen_zset, take_zset_snoc by lia. split; [done|]. split; [done|]. split; [lia|]. split.
      * apply NoDup_snoc; [done|]. intros Hx. destruct (T5 c Hx) as (z & ? & _). congruence.
      * intros x Hx. apply elem_of_app in Hx as [Hx| ->%list_elem_of_singleton].
        -- destruct (T5 x Hx) as (z & Hz' & ?). exists z. by split; [apply Hold|].
        -- exists ch. simpl. by rewrite lookup_insert_eq.
    + destruct (L6 i' y Hy Hen) as (Q1 & Q2 & Q3 & Q4 & Q5). split_and!; try done; try lia.
      intros x Hx. destruct (Q5 x Hx) as (z & Hz' & ?). exists z. by split; [apply Hold|].
  - intros q y Hy Hsk. destruct (L7 q y Hy Hsk) as (Q1 & Q2 & Q3 & Q4). split_and!; try done; try lia.
    intros x Hx. destruct (Q4 x Hx) as (z & Hz' & Ho). simpl. destruct (decide (p = x)) as [<-|].
    + exists port'. rewrite lookup_insert_eq. split; congruence.
    + exists z. by rewrite lookup_insert_ne.
  - done.
Qed.

Lemma free_slot_loop_wp {B} n j l (f : Z -> K M B) Q k :
  (forall r, r = -1 \/ (zget l r = Some 0 /\ j <= r < j + Z.of_nat n) -> wp (f r) Q k) ->
  wp (free_slot_loop n j l ≫= f) Q k.
Proof.
  revert j. induction n as [|n IH]; intros j Hf; cbn [free_slot_loop]; [apply wp_bind, wp_ret, Hf; by left|].
  apply wp_assoc, wp_deref. intros c Hc. destruct (Z.eqb_spec c 0) as [->|Hz].
  - apply wp_bind, wp_ret, Hf. right. split; [done|lia].
  - apply IH. intros r [->|[? ?]]; apply Hf; [by left|right; split; [done|lia]].
Qed.

(** The slot that is claimed is empty; the count of the port covers it. *)
Lemma claim_wp {B} p (f : Z -> K M B) Q k :
  linked None k ->
  (forall r, r < 0 -> wp (f r) Q k) ->
  (forall port cc r, port_objs k !! p = Some port -> zget (channels port) r = Some 0 -> r < cc ->
     channel_count port <= cc <= MSG_MAX_CHANNELS ->
     forall objs, (forall g, <[p := g (port <| channel_count := cc |>)]> objs =
                             <[p := g (port <| channel_count := cc |>)]> (port_objs k)) ->
       objs !! p = Some (port <| channel_count := cc |>) -> wp (f r) Q (k <| port_objs := objs |>)) ->
  wp (port_claim_free_channel_index p ≫= f) Q k.
Proof.
  intros Hk Hneg Hf. unfold port_claim_free_channel_index. apply wp_assoc, wp_get_port. intros port Hp.
  destruct (lk_port _ _ Hk p port Hp) as (E1 & E2 & E3). destruct (Z.ltb_spec (channel_count port) MSG_MAX_CHANNELS).
  - apply wp_assoc, wp_upd_port. intros port0 Hp0. assert (port0 = port) as -> by congruence. apply wp_bind, wp_ret.
    destruct (zget_is_Some (channels port) (channel_count port) ltac:(lia)) as [c Hc].
    destruct (decide (c = 0)) as [->|Hz]; [|specialize (E3 _ _ Hc Hz); lia].
    apply (Hf port (channel_count port + 1)); try done; try lia.
    + intros g. by rewrite insert_insert_eq.
    + by rewrite lookup_insert_eq.
  - apply free_slot_loop_wp. intros r [->|[Hr Hlt]]; [by apply Hneg|].
    specialize (Hf port (channel_count port) r Hp Hr ltac:(lia) ltac:(lia) (port_objs k)).
    destruct k. apply Hf; [done|]. destruct port. exact Hp.
Qed.

Lemma port_free_channel_exists_reads port : returns (M := M) eq (port_free_channel_exists port).
Proof.
  unfold port_free_channel_exists. generalize 0 (Z.to_nat (channel_count port)). intros j n.
  destruct (_ <? _); [returns|]. apply returns_seq; [typeclasses eauto| |intros; returns].
  revert j. induction n as [|n IH]; intros j; cbn [free_slot_loop]; returns; apply IH.
Qed.

(** Task [i] runs: it exists and knows its number. *)
Definition runs (i : Z) k : Prop :=
  forall t, zget (tasks k) i = Some t -> enabled t = true /\ task_id t = i.

Lemma port_connect_ok i nm k :
  linked None k -> runs i k -> fresh_block SIZEOF_CHANNEL k ->
  wp (port_connect i nm) (fun _ => linked None) k.
Proof.
  intros Hk Hi [_ Hfresh]. unfold port_connect. apply wp_get_task. intros t Ht. destruct (Hi t Ht) as [He Hid].
  apply wp_reads; [apply find_port_reads|]. intros p _. apply wp_if; intros _; [by apply wp_ret|].
  apply wp_get_port. intros port _. cbv zeta. apply wp_if; intros _; [by apply wp_ret|].
  apply wp_if; intros Hcount; [by apply wp_ret|]. apply Z.leb_gt in Hcount.
  apply wp_gets. apply wp_if; intros _; [by apply wp_ret|].
  apply wp_reads; [apply port_free_channel_exists_reads|]. intros room _. apply wp_if; intros _; [by apply wp_ret|].
  apply wp_alloc. intros c m Hm. rewrite Hm in Hfresh. set (k1 := k <| k_mem := m |>).
  assert (Hk1 : linked None k1) by (apply (linked_same None k); [by split_and!|done]).
  apply wp_if; intros Hz; [by apply wp_ret|]. apply Z.eqb_neq in Hz. apply claim_wp; [done|..].
  - intros r Hr. apply Z.ltb_lt in Hr. rewrite Hr. apply wp_modify, wp_ret. apply (linked_same None k1); [by split_and!|done].
  - intros port1 cc r Hp1 Hr Hrc Hcc objs Hobjs Hp2. rewrite (proj2 (Z.ltb_ge r 0)) by (apply zget_Some_range in Hr; lia).
    apply wp_get_process. intros x _. apply wp_upd_port. intros port2 Hport2.
    assert (port2 = port1 <| channel_count := cc |>) as -> by (simpl in Hport2; congruence). 
    set (g := fun y : msg_port_t => y <| channels := zset (channels y) r c |>).
    match goal with |- wp ?f ?Q _ => change (wp f Q (k1 <| port_objs := <[p := g (port1 <| channel_count := cc |>)]> objs |>)) end.
    rewrite Hobjs. apply wp_upd_task. intros t0 Ht0. change (zget (tasks k) i = Some t0) in Ht0.
    assert (t0 = t) as -> by congruence. apply wp_modify, wp_ret. eapply (add_channel_linked k1 i t _ p port1 _ r c); done.
Qed.

(** ** Messages and calls leave the pointers alone *)

Lemma channel_of_links pu cu : returns (M := M) same_links (channel_of pu cu).
Proof. apply calm_reads; [typeclasses eauto|]. unfold channel_of. returns; apply find_port_reads || apply find_channel_reads. Qed.
#[local] Hint Resolve channel_of_links : keeps.

Lemma store_msg_links ch s r w data size flags c (f : unit -> msg_channel_t -> K M (Z * option registers_t)) :
  (forall ch', keeps same_links (f tt ch')) ->
  forall k, channel_objs k !! c = Some ch ->
  wp (ch' ← store_msg ch s r w data size flags; _ ← upd_channel c (fun _ => ch'); f tt ch')
    (fun _ k' => same_links k k') k.
Proof.
  intros Hf k Hc. unfold store_msg. cbv zeta.
  destruct (queue_push_slot _) as [j q]. apply wp_assoc, wp_deref. intros obj _.
  destruct (negb _); [done|]. apply wp_bind, wp_ret.
  set (ch' := set_queue_of _ _ _).
  assert (Hl : chan_link ch' = chan_link ch) by (subst ch'; by destruct s, r, w).
  clearbody ch'. apply wp_upd_channel. intros ch0 _.
  set (k1 := k <| channel_objs := _ |>). assert (H1 : same_links k k1).
  { split_and!; try done. intros q'. by eapply fmap_insert_same. }
  specialize (Hf ch' k1). unfold wp. destruct (f tt ch' k1); try done; by etransitivity.
Qed.

Lemma port_send_links regs i pu cu sm data flags :
  keeps same_links (port_send tasks_init task_reset_windows wm_event_crash regs i pu cu sm data flags).
Proof.
  unfold port_send. destruct (_ <? _); [keeps|]. apply keeps_bind; [typeclasses eauto|keeps|intros t].
  apply keeps_bind; [typeclasses eauto|keeps|intros [[p c]|err]]; [|keeps].
  do 2 (destruct (_ : bool); [keeps|]). apply keeps_bind; [typeclasses eauto|keeps|intros port]. intros k.
  unfold get_channel. unfold mbind at 1, K_mbind at 1, deref. destruct (channel_objs k !! c) as [ch|] eqn:Hc; [|done].
  cbn [mret K_mret]. cbv zeta. destruct (negb _); [done|].
  match goal with |- match ?m ?k with _ => _ end => change (wp m (fun _ k' => same_links k k') k) end.
  apply wp_reads; [apply msg_get_task_reads|]. intros r _. do 2 (apply wp_if; intros _; [by apply wp_ret|]).
  apply (store_msg_links ch _ _ _ _ _ _ c (fun _ _ => _ ≫= _)); [|done]. intros ch'. keeps.
Qed.

Lemma port_receive_links i pu cu size : keeps (M := M) same_links (port_receive i pu cu size).
Proof.
  unfold port_receive, take_flags, clear_flags, unblock_peer. keeps; apply returns_keeps, links_upd_channel;
    intros x; unfold set_queue_of; by repeat case_match.
Qed.

Lemma switch_task_links regs r : keeps same_links (switch_task tasks_init regs r).
Proof.
  apply calm_quiet_keeps; [typeclasses eauto|]. apply (switch_task_quiet tasks_init task_reset_windows wm_event_crash).
Qed.
#[local] Hint Resolve switch_task_links : keeps.

Lemma returns_next_uid : returns (M := M) same_links next_call_uid.
Proof. unfold next_call_uid. apply returns_seq; [typeclasses eauto|returns|intros u]. apply returns_seq; [typeclasses eauto| |intros; returns]. by intros k. Qed.
#[local] Hint Resolve returns_next_uid : keeps.

Lemma msg_call_links regs i cu send recv ru : keeps same_links (msg_call tasks_init regs i cu send recv ru).
Proof. unfold msg_call. keeps. Qed.

Lemma msg_receive_links regs i pu recv ru : keeps same_links (msg_receive tasks_init regs i pu recv ru).
Proof.
  assert (Hl : forall n j p, keeps (M := M) same_links (receive_loop n j p i regs recv ru)).
  { induction n as [|n IH]; intros j p; cbn [receive_loop]; keeps. }
  unfold msg_receive. keeps.
Qed.

Lemma call_in_ports_reads n j l uid : returns (M := M) eq (call_in_ports n j l uid).
Proof.
  assert (Hl : forall n j l, returns (M := M) eq (call_in_port n j l uid)).
  { induction n0 as [|n0 IH]; intros; cbn [call_in_port]; returns; apply IH. }
  revert j. induction n as [|n IH]; intros j; cbn [call_in_ports]; returns; apply IH || apply Hl.
Qed.

Lemma msg_reply_links regs i uid addr send : keeps (M := M) same_links (msg_reply regs i uid addr send).
Proof.
  unfold msg_reply. destruct (_ =? 0); [keeps|]. do 2 (apply keeps_bind; [typeclasses eauto|keeps|intros ?]).
  apply keeps_bind; [typeclasses eauto| |intros c].
  - apply returns_keeps, calm_reads; [typeclasses eauto|apply call_in_ports_reads].
  - keeps.
Qed.

(** ** Histories *)

Context (fs_exists : list Z -> K M bool) (fs_looks : forall s, returns looks_up (fs_exists s)).

(** One call of the message component, from its entry to where it ends (with a result or
    in another task), or a change that is not its own: a task or a process starts or ends,
    or something that leaves ports and channels alone. *)
Inductive msg_step (k k' : kern M) : Prop :=
| ms_create i nm rsv o :
    fresh_block SIZEOF_PORT k -> ended (create_port fs_exists i nm rsv k) = Some (o, k') -> msg_step k k'
| ms_connect i nm o :
    runs i k -> fresh_block SIZEOF_CHANNEL k -> ended (port_connect i nm k) = Some (o, k') -> msg_step k k'
| ms_send regs i pu cu sm data flags o :
    ended (port_send tasks_init task_reset_windows wm_event_crash regs i pu cu sm data flags k) = Some (o, k') ->
    msg_step k k'
| ms_receive i pu cu size o : ended (port_receive i pu cu size k) = Some (o, k') -> msg_step k k'
| ms_call regs i cu send recv ru o :
    ended (msg_call tasks_init regs i cu send recv ru k) = Some (o, k') -> msg_step k k'
| ms_wait regs i pu recv ru o :
    ended (msg_receive tasks_init regs i pu recv ru k) = Some (o, k') -> msg_step k k'
| ms_reply regs i uid addr send o : ended (msg_reply regs i uid addr send k) = Some (o, k') -> msg_step k k'
| ms_disconnect regs i pu cu o :
    ended (port_disconnect tasks_init task_reset_windows wm_event_crash regs i pu cu k) = Some (o, k') -> msg_step k k'
| ms_close regs i pu o :
    ended (close_port tasks_init task_reset_windows wm_event_crash regs i pu k) = Some (o, k') -> msg_step k k'
| ms_cleanup_task i o :
    ended (msg_cleanup_task tasks_init task_reset_windows wm_event_crash i k) = Some (o, k') -> msg_step k k'
| ms_cleanup_process pr :
    msg_cleanup_process tasks_init task_reset_windows wm_event_crash pr k = Ret tt k' -> msg_step k k'
| ms_task i t t' :
    zget (tasks k) i = Some t ->
    (enabled t' = true -> i < TOTAL_TASKS /\ zlen (msg_channels t') = TASK_MAX_CHANNELS /\ msg_channel_count t' = 0) ->
    k' = k <| tasks := zset (tasks k) i t' |> -> msg_step k k'
| ms_process pr x :
    processes k !! pr = None -> (forall q y, processes k !! q = Some y -> p_uid y <> p_uid x) ->
    zlen (p_ports x) = PROCESS_MAX_PORTS -> port_count x = 0 ->
    k' = k <| processes := <[pr := x]> (processes k) |> -> msg_step k k'
| ms_process_end pr : k' = k <| processes := delete pr (processes k) |> -> msg_step k k'
| ms_quiet : quiet k k' -> msg_step k k'.

(** No port is open yet. *)
Record no_ports k : Prop := {
  np_ports : ports k = 0 /\ port_objs k = ∅ /\ channel_objs k = ∅;
  np_task i t : zget (tasks k) i = Some t -> enabled t = true ->
    i < TOTAL_TASKS /\ zlen (msg_channels t) = TASK_MAX_CHANNELS /\ msg_channel_count t = 0;
  np_process pr x : processes k !! pr = Some x -> zlen (p_ports x) = PROCESS_MAX_PORTS /\ port_count x = 0;
  np_uid pr1 pr2 x1 x2 : processes k !! pr1 = Some x1 -> processes k !! pr2 = Some x2 ->
    p_uid x1 = p_uid x2 -> pr1 = pr2 }.

Lemma holds_none k i t : msg_channel_count t = 0 ->
  0 <= msg_channel_count t <= TASK_MAX_CHANNELS /\ NoDup (held t) /\
  forall c, c ∈ held t -> exists ch, channel_objs k !! c = Some ch /\ client_taskid ch = i /\ client_taskuid ch = task_uid t.
Proof.
  intros Hc. unfold held. rewrite Hc. split; [done|]. split; [constructor|]. intros c Hin. by apply not_elem_of_nil in Hin.
Qed.

Lemma owns_none k x : zlen (p_ports x) = PROCESS_MAX_PORTS -> port_count x = 0 -> process_linked k x.
Proof.
  intros Hl Hc. unfold process_linked, owned. rewrite Hc. split; [done|]. split; [done|].
  split; [constructor|]. intros c Hin. by apply not_elem_of_nil in Hin.
Qed.

Lemma no_ports_linked k : no_ports k -> linked None k.
Proof.
  intros [(H1 & H2 & H3) Ht Hp Hu].
  assert (Hno : forall p j c, ~ in_slot k p j c) by (intros p j c (x & Hx & _); by rewrite H2 in Hx).
  constructor; rewrite ?H1, ?H2, ?H3; try done.
  - exists []. split; [constructor|]. split; [constructor|]. intros p. rewrite lookup_empty. split; [|by intros []].
    intros Hin. by apply not_elem_of_nil in Hin.
  - intros p j c Hj. by apply Hno in Hj.
  - intros p1 j1 p2 j2 c Hj. by apply Hno in Hj.
  - intros c []. done.
  - intros i t Hi He. destruct (Ht i t Hi He) as (T1 & T2 & T3). split; [done|]. split; [done|].
    rewrite <-H3. by apply holds_none.
  - intros pr x Hx _. destruct (Hp pr x Hx) as (P1 & P2). destruct (owns_none k x P1 P2) as (? & ? & ? & ?). rewrite <-H2. done.
Qed.

Lemma linked_new_process k pr x :
  linked None k -> processes k !! pr = None -> (forall q y, processes k !! q = Some y -> p_uid y <> p_uid x) ->
  process_linked k x -> linked None (k <| processes := <[pr := x]> (processes k) |>).
Proof.
  intros [L1 L2 L3 L4 L5 L6 L7 L8] Hpr Hu Hx. constructor; try done.
  - intros q y Hy _. simpl in Hy. apply lookup_insert_Some in Hy as [[<- <-]|[_ Hy]]; [done|by apply (L7 q y Hy)].
  - intros p1 p2 x1 x2 H1 H2 E. simpl in H1, H2.
    apply lookup_insert_Some in H1 as [[<- <-]|[? H1]]; apply lookup_insert_Some in H2 as [[<- <-]|[? H2]]; try done.
    + by destruct (Hu _ _ H2).
    + by destruct (Hu _ _ H1).
    + by eapply L8.
Qed.

Lemma linked_end_process k pr : linked None k -> linked None (k <| processes := delete pr (processes k) |>).
Proof.
  intros [L1 L2 L3 L4 L5 L6 L7 L8]. constructor; try done.
  - intros q y Hy _. simpl in Hy. apply lookup_delete_Some in Hy as [_ Hy]. by apply (L7 q y Hy).
  - intros p1 p2 x1 x2 H1 H2 E. simpl in H1, H2. apply lookup_delete_Some in H1 as [_ H1], H2 as [_ H2]. by eapply L8.
Qed.

Lemma keeps_linked {A} (m : K M A) k o k' :
  keeps same_links m -> linked None k -> ended (m k) = Some (o, k') -> linked None k'.
Proof.
  intros Hm Hk He. specialize (Hm k). apply (linked_same None k); [|done].
  unfold ended in He. destruct (m k); simplify_eq; done.
Qed.

Lemma msg_step_linked k k' : linked None k -> msg_step k k' -> linked None k'.
Proof.
  intros Hk Hs. destruct Hs.
  - exact (wp_ended _ _ _ _ _ (create_port_ok _ _ _ _ _ fs_looks Hk ltac:(eassumption)) ltac:(eassumption)).
  - exact (wp_ended _ _ _ _ _ (port_connect_ok _ _ _ Hk ltac:(eassumption) ltac:(eassumption)) ltac:(eassumption)).
  - by eapply (keeps_linked (port_send _ _ _ _ _ _ _ _ _ _)); [apply port_send_links|..].
  - by eapply (keeps_linked (port_receive _ _ _ _)); [apply port_receive_links|..].
  - by eapply (keeps_linked (msg_call _ _ _ _ _ _ _)); [apply msg_call_links|..].
  - by eapply (keeps_linked (msg_receive _ _ _ _ _ _)); [apply msg_receive_links|..].
  - by eapply (keeps_linked (msg_reply _ _ _ _ _)); [apply msg_reply_links|..].
  - exact (wp_ended _ _ _ _ _ (port_disconnect_ok _ _ _ _ _ Hk) ltac:(eassumption)).
  - exact (wp_ended _ _ _ _ _ (close_port_ok _ _ _ _ Hk) ltac:(eassumption)).
  - exact (wp_ended _ _ _ _ _ (msg_cleanup_task_ok _ _ Hk) ltac:(eassumption)).
  - exact (wp_Ret _ _ _ _ _ (msg_cleanup_process_ok _ _ Hk) ltac:(eassumption)).
  - subst. eapply linked_set_task; [done|eassumption|]. intros He. destruct (H0 He) as (T1 & T2 & T3).
    split; [done|]. split; [done|]. by apply holds_none.
  - subst. apply linked_new_process; try done. by apply owns_none.
  - subst. by apply linked_end_process.
  - apply (linked_same None k); [by apply quiet_links|done].
Qed.

(** C5: whatever calls are made, nothing is left dangling: the port list is a chain of the
    live ports, each slot of a port is empty or holds a live channel, each live channel is
    in exactly one slot (none leaks), the channels a live task has open are live and its
    own, and the ports listed by a process are live and owned by it. Each call may end in
    the middle, when the processor leaves for another task. *)
Theorem msg_no_dangling k0 k : no_ports k0 -> rtc msg_step k0 k -> linked None k.
Proof.
  intros H0 Hs. apply no_ports_linked in H0. induction Hs as [|k1 k2 k3 Hs _ IH]; [done|].
  apply IH. by eapply msg_step_linked.
Qed.

End links.

(** ** Witness

    Task 0 opens a port, task 1 connects to it, task 0 closes it: the port and the channel
    are gone and task 1 holds nothing any more. *)
Definition no_files : list Z -> K flat bool := fun _ => mret false.
Definition link_1 : kern flat := left_in (create_port no_files 0 talk_name true (demo_kern 1)).
Definition link_2 : kern flat := left_in (close_port no_init no_reset no_crash None 0 0 talk_0).

Lemma no_files_looks s : returns looks_up (no_files s).
Proof. by intros k. Qed.

(** The conditions of [no_ports] on a listed state; the processes are at addresses that
    their uids determine. *)
Lemma no_ports_listed {M} (k : kern M) :
  ports k = 0 /\ port_objs k = ∅ /\ channel_objs k = ∅ -> zlen (tasks k) = TOTAL_TASKS ->
  Forall (fun t => zlen (msg_channels t) = TASK_MAX_CHANNELS /\ msg_channel_count t = 0) (tasks k) ->
  Forall (fun x => zlen (p_ports (snd x)) = PROCESS_MAX_PORTS /\ port_count (snd x) = 0 /\
                   fst x = 0x1000 * (p_uid (snd x) - 199)) (map_to_list (processes k)) -> no_ports k.
Proof.
  intros H0 Hl Ht Hp.
  assert (Hproc : forall pr x, processes k !! pr = Some x ->
    zlen (p_ports x) = PROCESS_MAX_PORTS /\ port_count x = 0 /\ pr = 0x1000 * (p_uid x - 199)).
  { intros pr x Hx. apply elem_of_map_to_list in Hx. exact (proj1 (Forall_forall _ _) Hp (pr, x) Hx). }
  constructor; [done|..].
  - intros i t Hi _. pose proof (zget_Some_range _ _ _ Hi) as Hr. rewrite Hl in Hr. split; [exact (proj2 Hr)|].
    exact (proj1 (Forall_forall _ _) Ht t (zget_elem _ _ _ Hi)).
  - intros pr x Hx. destruct (Hproc pr x Hx) as (? & ? & _). done.
  - intros p1 p2 x1 x2 H1 H2 E. destruct (Hproc _ _ H1) as (_ & _ & E1), (Hproc _ _ H2) as (_ & _ & E2). congruence.
Qed.

Lemma no_ports_demo : no_ports (demo_kern 1).
Proof. apply no_ports_listed; [done|done|vm_compute; repeat constructor..]. Qed.

Lemma link_steps :
  rtc (msg_step no_init no_reset no_crash no_files) (demo_kern 1) link_2.
Proof.
  apply (rtc_l _ _ link_1).
  { apply (ms_create _ _ _ _ _ _ 0 talk_name true (Some 0)); [split; reflexivity|vm_compute; reflexivity]. }
  apply (rtc_l _ _ talk_0).
  { apply (ms_connect _ _ _ _ _ _ 1 talk_name (Some (0, Some 0))); [|split; reflexivity|vm_compute; reflexivity].
    intros t Ht. vm_compute in Ht. injection Ht as <-. done. }
  apply rtc_once. apply (ms_close _ _ _ _ _ _ None 0 0 (Some (true, None))). vm_compute. reflexivity.
Qed.

Lemma msg_no_dangling_witness :
  linked None link_2 /\ size (channel_objs talk_0) = 1%nat /\ channel_objs link_2 = ∅ /\ port_objs link_2 = ∅ /\
  (msg_channel_count <$> zget (tasks link_2) 1) = Some 0.
Proof.
  split; [|vm_compute; repeat split; reflexivity].
  apply (msg_no_dangling no_init no_reset no_crash no_files no_files_looks (demo_kern 1));
    [exact no_ports_demo|exact link_steps].
Defined.
