(* ===== verification/TaskEnd.v ===== *)
(** * The end of processes and threads (tasks.c)

    [end_task] gives back what a task holds: its place in the message component, its locks,
    its queued events, its stack and, with the main thread, the threads and the memory of
    the process. The window manager, the handle tables and the regions of the process
    (components of their own) are arguments. *)

From S2P Require Import CString Memory Paging TaskMem Kern Sched Events KMem TaskMake KSync MsgClose.

Local Open Scope Z_scope.

Definition TEXT_BUFFER_LENGTH : Z := 128.

(** The arguments of a program are at most a page long. *)
Definition ARG_FUEL : nat := 4097.

Section end_task.
Context {H : Type} `{Allocator H}.
Abbreviation KM := (K (tmem (H := H))).
Context (tasks_init : registers_t -> KM registers_t)
  (task_reset_windows : Z -> KM unit) (wm_event_crash : Z -> Z -> Z -> KM unit)
  (task_write_to_window : Z -> KM unit).
(** [process_release_kobjs] and [process_free_vm], by the address of the process. *)
Context (process_release_kobjs process_free_vm : Z -> KM unit).

(** ** What a task has of the kernel heap *)

Definition unshare_heap_page (dir addr : Z) : KM unit :=
  let addr := page_align_down addr in
  _ ← kmap dir addr addr 0 0 0; mret tt.

Definition cleanup_checkcmd_args (p buffer : Z) : KM unit :=
  _ ← when (negb (p =? NULL)) (x ← get_process p; unshare_heap_page (page_dir x) buffer);
  dealloc buffer TEXT_BUFFER_LENGTH.

Fixpoint free_event_loop (fuel : nat) (i : Z) : KM unit :=
  match fuel with
  | O => fun _ => Hang
  | S fuel =>
      t ← get_task i;
      match kqueue_peek (event_queue t) with
      | None => mret tt
      | Some c =>
          e ← deref (kqueue_get (event_queue t) c);
          _ ← when (bool_decide (e_type e = E_CHECKCMD))
                (buffer ← arg (e_args e) 0; cleanup_checkcmd_args (t_process t) buffer);
          _ ← upd_task i (fun t => t <| event_queue := kqueue_drop (event_queue t) |>);
          free_event_loop fuel i
      end
  end.

Definition free_event_queue (i : Z) : KM unit := free_event_loop (Z.to_nat EVENT_QUEUE_SIZE + 1) i.

(** [strlen] of a string in the kernel heap. *)
Fixpoint kstrlen (fuel : nat) (f : Z -> Z) (s n : Z) : option Z :=
  match fuel with
  | O => None
  | S fuel => if f (s + n) =? 0 then Some n else kstrlen fuel f s (n + 1)
  end.

Definition load32 (f : Z -> Z) (a : Z) : Z := f a + 256 * f (a + 1) + 65536 * f (a + 2) + 16777216 * f (a + 3).

Fixpoint free_args_loop (n : nat) (i args : Z) : KM unit :=
  match n with
  | O => mret tt
  | S n =>
      f ← gets (fun k => tm_bytes (k_mem k));
      let s := load32 f (args + 4 * i) in
      _ ← when (negb (s =? NULL)) (len ← deref (kstrlen ARG_FUEL f s 0); dealloc s (len + 1));
      free_args_loop n (i + 1) args
  end.

Definition free_launch_args (args argc : Z) : KM unit :=
  if args =? NULL then mret tt
  else _ ← free_args_loop (Z.to_nat argc) 0 args; dealloc args (4 * (argc + 1)).

(** [n] pages of the heap from [addr]. *)
Fixpoint free_heap_loop (n : nat) (dir addr : Z) : KM unit :=
  match n with
  | O => mret tt
  | S n =>
      pg ← gets (fun k => tm_pg (k_mem k));
      a ← deref (page_getphysical pg dir addr);
      _ ← dealloc a PAGE_SIZE;
      free_heap_loop n dir (u32 (addr + PAGE_SIZE))
  end.

Definition free_heap (x : process_t) : KM unit :=
  if heap_start x <? heap_end x
  then free_heap_loop (Z.to_nat ((heap_end x - heap_start x + PAGE_SIZE - 1) / PAGE_SIZE)) (page_dir x) (heap_start x)
  else mret tt.

(** ** Threads and processes *)

(** The first slot of [threads] that holds [i] is emptied. *)
Fixpoint thread_slot (j : Z) (l : list (option Z)) (i : Z) : option Z :=
  match l with
  | [] => None
  | th :: l => if bool_decide (th = Some i) then Some j else thread_slot (j + 1) l i
  end.

Definition end_thread (i : Z) : KM unit :=
  _ ← task_unmap_stack i;
  t ← get_task i;
  x ← get_process (t_process t);
  match thread_slot 0 (threads x) i with
  | None => mret tt
  | Some j => upd_process (t_process t) (fun x => x <| threads := zset (threads x) j None |> <| no_threads := no_threads x - 1 |>)
  end.

(** The other threads: those that could not be ended move to the front. *)
Fixpoint end_threads (end_one : Z -> KM bool) (n : nat) (j remaining p : Z) : KM Z :=
  match n with
  | O => mret remaining
  | S n =>
      x ← get_process p;
      th ← deref (zget (threads x) j);
      match th with
      | None => end_threads end_one n (j + 1) remaining p
      | Some i =>
          t ← get_task i;
          ok ← end_one (task_id t);
          if ok : bool then
            _ ← upd_task i (fun t => t <| t_process := NULL |>);
            end_threads end_one n (j + 1) remaining p
          else
            _ ← upd_process p (fun x => x <| threads := zset (zset (threads x) j None) remaining (Some i) |>);
            end_threads end_one n (j + 1) (remaining + 1) p
      end
  end.

(** Leave the directory of the process before it is freed. *)
Definition leave_page_dir (p : Z) (regs : option registers_t) : KM (option registers_t) :=
  x ← get_process p;
  dir ← gets (fun k => page_get_current (k_mem k));
  if negb (page_dir x =? dir) then mret regs
  else
    match regs with
    | Some r => r ← switch_task tasks_init r false; mret (Some r)
    | None =>
        kdir ← page_get_kernel_pagedir;
        _ ← modify (fun k => k <| k_mem := swap_pagedir (k_mem k) kdir |>);
        mret None
    end.

Definition free_process (i p : Z) (regs : option registers_t) : KM (option registers_t) :=
  x ← get_process p;
  _ ← when (negb (prog_size x =? 0)) (dealloc (prog_start x) (prog_size x));
  _ ← task_reset_windows i;
  x ← get_process p;
  _ ← free_heap x;
  _ ← process_release_kobjs p;
  _ ← msg_cleanup_process tasks_init task_reset_windows wm_event_crash p;
  regs ← leave_page_dir p regs;
  x ← get_process p;
  kdir ← page_get_kernel_pagedir;
  _ ← (if negb (page_dir x =? kdir) then kfree_page_dir (page_dir x) else task_unmap_stack i);
  _ ← free_launch_args (launch_args x) (launch_argc x);
  _ ← process_free_vm p;
  _ ← dealloc p SIZEOF_PROCESS;
  _ ← modify (fun k => k <| processes := delete p (processes k) |>);
  mret regs.

(** The main thread ends the process, or leaves it to the threads that are still there. *)
Definition end_process (end_one : Z -> KM bool) (i : Z) (regs : option registers_t) : KM (option registers_t) :=
  t ← get_task i;
  let p := t_process t in
  remaining ← end_threads end_one (Z.to_nat (MAX_TASK_THREADS - 1)) 1 0 p;
  regs ← (if remaining =? 0 then free_process i p regs else mret regs);
  _ ← upd_task i (fun t => t <| t_process := NULL |>);
  mret regs.

(** ** Ending a task *)

(** What the task was doing when it ended. *)
Definition abandon_routine (i : Z) : KM unit :=
  t ← get_task i;
  when (bool_decide (routine t <> E_NONE))
    (_ ← when (bool_decide (routine t = E_CHECKCMD)) (cleanup_checkcmd_args (t_process t) (checkcmd_buffer t));
     upd_task i (fun t => t <| checkcmd_buffer := NULL |>)).

(** A task that is parked in the kernel ends when its call does. *)
Definition end_later (i : Z) : KM unit :=
  b ← is_kthread i;
  if b : bool then mret tt else upd_task i (fun t => t <| kill_pending := true |>).

Definition leave_components (i : Z) : KM unit :=
  _ ← msg_cleanup_task tasks_init task_reset_windows wm_event_crash i;
  _ ← ksync_cleanup_task task_reset_windows wm_event_crash tasks_init i;
  free_event_queue i.

Definition is_main (i : Z) : KM bool :=
  t ← get_task i;
  x ← get_process (t_process t);
  th ← deref (zget (threads x) 0);
  mret (bool_decide (th = Some i)).

(** With the frame of an interrupt, go on with another task if the current one has ended. *)
Definition leave_ended (regs : option registers_t) : KM (option registers_t) :=
  match regs with
  | None => mret None
  | Some r =>
      cur ← get_current_task;
      t ← get_task cur;
      if enabled t then mret (Some r) else r ← switch_task tasks_init r false; mret (Some r)
  end.

(** The threads of a process have no threads of their own: [fuel] is the depth of the calls. *)
Fixpoint end_task_helper (fuel : nat) (index : Z) (regs : option registers_t) (child : bool)
    : KM (bool * option registers_t) :=
  match fuel with
  | O => fun _ => Hang
  | S fuel =>
      if (index <? 0) || (TOTAL_TASKS <=? index) || (index =? 0) then mret (false, regs)
      else
        t ← get_task index;
        cur ← get_current_task;
        if negb (enabled t) then mret (true, regs)
        else if bool_decide (regs = None) && negb child && (cur =? index) then panic
        else if negb (kernel_esp t =? 0) then _ ← end_later index; mret (false, regs)
        else
          x ← get_process (t_process t);
          _ ← when (0 <=? p_window x) (task_write_to_window index);
          _ ← abandon_routine index;
          _ ← upd_task index (fun t => t <| enabled := false |>);
          _ ← leave_components index;
          main ← is_main index;
          regs ← (if main : bool
                  then end_process (fun i => r ← end_task_helper fuel i None true; mret (fst r)) index regs
                  else _ ← end_thread index; mret regs);
          _ ← upd_task index (fun t => t <| reserved := false |> <| routine := E_NONE |>);
          regs ← leave_ended regs;
          _ ← modify (fun k => k <| task_event_counter := u32 (task_event_counter k + 1) |>);
          mret (true, regs)
  end.

Definition end_task (index : Z) (regs : option registers_t) : KM (bool * option registers_t) :=
  end_task_helper 2 index regs false.

End end_task.
