(* ===== verification/TaskEndSpec.v ===== *)
(** * A task that has ended is gone (tasks.c, msg.c, ksync.c)

    Whatever the ports, channels and locks of the system are when a task ends, they are
    sound afterwards: the messages are linked as [MsgLinks] says, the locks are those of the
    abstract lock of [KSyncSpec], and every task that was ended is disabled, owns no mutex
    and waits for none. *)

From stdpp Require Import functions sets.
From S2P Require Import CString Memory Paging TaskMem Kern Sched Events Hoare KMem TaskMake TaskMakeSpec Quiet.
From S2P Require Import KSync KSyncSpec Msg MsgSpec MsgClose MsgLinks TaskEnd.

Local Open Scope Z_scope.

(** ** What leaves the locks and the lives of the tasks alone *)

Definition still {M} (k k' : kern M) : Prop :=
  same_sync k k' /\ forall i, enabled <$> zget (tasks k') i = enabled <$> zget (tasks k) i.

#[global] Instance still_preorder {M} : PreOrder (@still M).
Proof.
  split; [done|]. intros k1 k2 k3 [H1 E1] [H2 E2]. split; [by etransitivity|]. intros i. by rewrite E2.
Qed.

Lemma quiet_still {M} (k k' : kern M) : quiet k k' -> still k k'.
Proof.
  intros (Hs & _ & (_ & He & _) & _). split; [done|]. intros i. specialize (He i).
  destruct (zget (tasks k') i) as [t'|], (zget (tasks k) i) as [t|]; try done.
  change (Some (ends_of t') = Some (ends_of t)) in He. unfold ends_of in He. simpl. congruence.
Qed.

Lemma keeps_still {M A} (m : K M A) : keeps quiet m -> keeps still m.
Proof. apply keeps_mono, quiet_still. Qed.

Lemma still_upd {M} (i : Z) f :
  (forall t, sync_of (f t) = sync_of t /\ enabled (f t) = enabled t) -> keeps (M := M) still (upd_task i f).
Proof.
  intros Hf. apply keeps_upd_task. intros k t Ht. destruct (Hf t) as [Hs He]. split; [by apply (same_sync_set k i t)|].
  intros x. simpl. destruct (decide (i = x)) as [<-|]; [|by rewrite zget_zset_ne].
  rewrite zget_zset_eq by (by eapply zget_Some_range). rewrite Ht. simpl. by rewrite He.
Qed.

Section objects.
Context {M : Type}.
Implicit Types (k : kern M).

Lemma still_upd_port p f : keeps (M := M) still (upd_port p f).
Proof. intros k. unfold upd_port, mbind, K_mbind, get_port, deref. by destruct (port_objs k !! p). Qed.

Lemma still_upd_channel c f : keeps (M := M) still (upd_channel c f).
Proof. intros k. unfold upd_channel, mbind, K_mbind, get_channel, deref. by destruct (channel_objs k !! c). Qed.

Lemma still_upd_process p f : keeps (M := M) still (upd_process p f).
Proof. intros k. unfold upd_process, mbind, K_mbind, get_process, deref. by destruct (processes k !! p). Qed.

End objects.

Create HintDb still.
#[export] Hint Resolve still_upd_port still_upd_channel still_upd_process : keeps.
#[export] Hint Extern 1 (keeps still (upd_task _ _)) => apply still_upd; done : keeps.
#[export] Hint Extern 2 (keeps still (modify _)) => apply keeps_modify; done : keeps.

Section messages.
Context {M : Type} `{!Space M}.
Context (tasks_init : registers_t -> K M registers_t)
  (task_reset_windows : Z -> K M unit) (wm_event_crash : Z -> Z -> Z -> K M unit).
Context `{!QuietGui tasks_init task_reset_windows wm_event_crash}.

Lemma still_each n i l (f : Z -> K M unit) : (forall p, keeps still (f p)) -> keeps still (each n i l f).
Proof. intros Hf. revert i. induction n; intros; simpl; keeps. Qed.

Lemma still_find_port u : keeps (M := M) still (find_port_by_uid u).
Proof. unfold find_port_by_uid. apply keeps_still, find_port_quiet. Qed.

Lemma still_find_channel port u : keeps (M := M) still (find_channel port u).
Proof. apply keeps_still, find_channel_quiet. Qed.

Lemma still_msg_get_task i u : keeps (M := M) still (msg_get_task i u).
Proof. apply keeps_still, msg_get_task_quiet. Qed.

Lemma still_resume i : keeps (M := M) still (task_resume i).
Proof. apply keeps_still, task_resume_quiet. Qed.
#[local] Hint Resolve still_find_port still_find_channel still_msg_get_task still_resume : keeps.

Lemma still_forget_channel i c : keeps (M := M) still (task_forget_channel i c).
Proof. unfold task_forget_channel. keeps. Qed.

Lemma still_forget_port pr p : keeps (M := M) still (process_forget_port pr p).
Proof. unfold process_forget_port. keeps. Qed.
#[local] Hint Resolve still_forget_channel still_forget_port : keeps.

Lemma still_free_channel p idx : keeps (M := M) still (msg_free_channel p idx).
Proof. unfold msg_free_channel, free_channel_obj, dealloc. keeps. Qed.

Lemma still_wake_client i v : keeps (M := M) still (MsgCall.wake_client i v).
Proof. unfold MsgCall.wake_client, MsgCall.set_ebx. keeps. Qed.
#[local] Hint Resolve still_free_channel still_wake_client : keeps.

Lemma still_notify_peer regs i c pu cu s :
  keeps still (notify_peer tasks_init task_reset_windows wm_event_crash regs i c pu cu s).
Proof. apply keeps_still, notify_peer_quiet; typeclasses eauto. Qed.
#[local] Hint Resolve still_notify_peer : keeps.

Lemma still_notify_closed regs c pu cu s :
  keeps still (notify_closed tasks_init task_reset_windows wm_event_crash regs c pu cu s).
Proof. unfold notify_closed. keeps. Qed.
#[local] Hint Resolve still_notify_closed : keeps.

Lemma still_close_connection regs task pu cu :
  keeps still (port_close_connection tasks_init task_reset_windows wm_event_crash regs task pu cu).
Proof. unfold port_close_connection. keeps. Qed.
#[local] Hint Resolve still_close_connection : keeps.

Lemma still_destroy_channels n j p regs :
  keeps still (destroy_channels tasks_init task_reset_windows wm_event_crash n j p regs).
Proof. revert j regs. induction n; intros; simpl; unfold destroy_channel; keeps. Qed.

Lemma still_wake_waiters n j p : keeps (M := M) still (wake_waiters n j p).
Proof. revert j. induction n; intros; simpl; unfold MsgCall.set_waiter_inactive; keeps. Qed.

Lemma still_unlink_loop n prev cur p next : keeps (M := M) still (unlink_loop n prev cur p next).
Proof. revert prev cur. induction n; intros; simpl; keeps. Qed.
#[local] Hint Resolve still_destroy_channels still_wake_waiters still_unlink_loop : keeps.

Lemma still_destroy_port regs p :
  keeps still (destroy_port tasks_init task_reset_windows wm_event_crash regs p).
Proof. unfold destroy_port, unlink_port, free_port_obj, dealloc. keeps. Qed.
#[local] Hint Resolve still_destroy_port : keeps.

Lemma still_cleanup_process pr :
  keeps still (msg_cleanup_process tasks_init task_reset_windows wm_event_crash pr).
Proof.
  unfold msg_cleanup_process. keeps. generalize 0, (Z.to_nat (port_count a)). intros j n. revert j.
  induction n; intros; simpl; keeps.
Qed.

Lemma still_close_channels n i :
  keeps still (close_channels tasks_init task_reset_windows wm_event_crash n i).
Proof. induction n; simpl; keeps. Qed.

Lemma still_close_owned n i :
  keeps still (close_owned_ports tasks_init task_reset_windows wm_event_crash n i).
Proof. induction n; simpl; keeps. Qed.
#[local] Hint Resolve still_close_channels still_close_owned : keeps.

Lemma still_cleanup_task i :
  keeps still (msg_cleanup_task tasks_init task_reset_windows wm_event_crash i).
Proof. unfold msg_cleanup_task. keeps. apply still_each. intros p. unfold MsgCall.msg_remove_waiter. keeps. Qed.

End messages.

(** ** What the locks leave of the messages *)

Section locks.
Context {M : Type} `{!Space M}.
Context (tasks_init : registers_t -> K M registers_t)
  (task_reset_windows : Z -> K M unit) (wm_event_crash : Z -> Z -> Z -> K M unit).
Context `{!QuietGui tasks_init task_reset_windows wm_event_crash}.

Lemma links_upd_task i f : (forall t, ends_of (f t) = ends_of t) -> keeps (M := M) same_links (upd_task i f).
Proof.
  intros Hf. apply keeps_upd_task. intros k t Ht. split_and!; try done. apply (same_ends_set k i t (f t) Ht (Hf t)).
Qed.

Lemma links_upd_mutex m f : keeps (M := M) same_links (upd_mutex m f).
Proof. intros k. unfold upd_mutex, mbind, K_mbind, get_mutex, deref. by destruct (mutexes k !! m). Qed.

Lemma keeps_links {A} (m : K M A) : keeps quiet m -> keeps same_links m.
Proof. apply keeps_mono, quiet_links. Qed.
#[local] Hint Resolve links_upd_mutex : keeps.
#[local] Hint Extern 1 (keeps same_links (upd_task _ _)) => apply links_upd_task; done : keeps.

Lemma links_find_prev n (next : Z -> K M (option Z)) prev cur x :
  (forall c, keeps same_links (next c)) -> keeps same_links (find_prev n next prev cur x).
Proof. intros Hn. revert prev cur. induction n; intros; simpl; keeps. Qed.

Lemma links_next_owned m : keeps (M := M) same_links (next_owned m).
Proof. unfold next_owned. keeps. Qed.

Lemma links_next_waiter i : keeps (M := M) same_links (next_waiter i).
Proof. unfold next_waiter. keeps. Qed.
#[local] Hint Resolve links_next_owned links_next_waiter : keeps.
#[local] Hint Extern 2 (keeps same_links (find_prev _ _ _ _ _)) => apply links_find_prev; intros ?; keeps : keeps.

Lemma links_release i m wake :
  keeps same_links (kmutex_release task_reset_windows wm_event_crash tasks_init i m wake).
Proof.
  assert (Hr : forall w, keeps (M := M) same_links (task_resume w)) by (intros w; apply keeps_links, task_resume_quiet).
  assert (Hy : forall w, keeps same_links (kernel_yield_to tasks_init task_reset_windows wm_event_crash w))
    by (intros w; apply keeps_links, kernel_yield_to_quiet; typeclasses eauto).
  unfold kmutex_release, kmutex_wake, pop_waiter, claim. keeps.
Qed.
#[local] Hint Resolve links_release : keeps.

Lemma links_cleanup i : keeps same_links (ksync_cleanup_task task_reset_windows wm_event_crash tasks_init i).
Proof.
  unfold ksync_cleanup_task, leave_queue. keeps. match goal with |- keeps _ (release_all _ _ _ ?n _) => generalize n end.
  intros n. induction n; simpl; keeps.
Qed.

End locks.

(** ** The invariant *)

(** The locks are those of a reachable abstract lock, and a task that is not alive owns no
    mutex and waits for none ([but] may be on its way out). *)
Record sound {M} (but : option Z) (k : kern M) (pc : Z -> option Z) (A : locks) : Prop := {
  sd_reach : reach astep no_locks A;
  sd_locks : refines (k, pc) A;
  sd_dead j t : zget (tasks k) j = Some t -> enabled t = false -> Some j <> but ->
    pc j = None /\ forall m, (A m).1 <> Some j }.

(** No task has come to life. *)
Definition dies {M} (k k' : kern M) : Prop :=
  forall j t', zget (tasks k') j = Some t' -> enabled t' = true ->
    exists t, zget (tasks k) j = Some t /\ enabled t = true.

Definition dead {M} (i : Z) (k : kern M) : Prop := forall t, zget (tasks k) i = Some t -> enabled t = false.

#[global] Instance dies_preorder {M} : PreOrder (@dies M).
Proof.
  split; [by intros k j t; exists t|]. intros k1 k2 k3 H1 H2 j t' Ht He. destruct (H2 j t' Ht He) as (t & Ht2 & He2).
  by apply (H1 j t).
Qed.

Lemma dies_dead {M} i (k k' : kern M) : dies k k' -> dead i k -> dead i k'.
Proof.
  intros Hd Hk t' Ht'. destruct (enabled t') eqn:E; [|done]. destruct (Hd i t' Ht' E) as (t & Ht & He).
  rewrite (Hk t Ht) in He. done.
Qed.

Lemma still_dies {M} (k k' : kern M) : still k k' -> dies k k'.
Proof.
  intros [_ He] j t' Ht' E. destruct (fmap_Some_back _ _ _ _ (He j) Ht') as (t & Ht & Ee). exists t. split; [done|congruence].
Qed.

Lemma links_dies {M} (k k' : kern M) : same_links k k' -> dies k k'.
Proof.
  intros (_ & _ & _ & He & _) j t' Ht' E. destruct (fmap_Some_back _ _ _ _ (He j) Ht') as (t & Ht & Ee).
  unfold ends_of in Ee. exists t. split; [done|congruence].
Qed.

(** The messages and the locks are sound; [skip] is a process in the middle of its end, [but] a task. *)
Definition inv {M} (skip but : option Z) (k : kern M) : Prop :=
  linked skip k /\ exists pc A, sound but k pc A.

Section invariant.
Context {M : Type} `{!Space M}.
Implicit Types (k : kern M) (skip but : option Z).

Lemma sound_still but k k' pc A : still k k' -> sound but k pc A -> sound but k' pc A.
Proof.
  intros [Hs He] [S1 [[own Hr] Hl Hi Hp] S3]. constructor; try done.
  - constructor; try done; [exists own; by eapply srep_same|]. simpl in *. by rewrite (same_sync_len k).
  - intros j t' Ht' Hd Hb. destruct (fmap_Some_back _ _ _ _ (He j) Ht') as (t & Ht & E). apply (S3 j t); congruence.
Qed.

(** A task is disabled. *)
Lemma disable_ok k i t : zget (tasks k) i = Some t -> inv None None k ->
  let k' := k <| tasks := zset (tasks k) i (t <| enabled := false |>) |> in
  inv None (Some i) k' /\ dies k k' /\ dead i k'.
Proof.
  intros Ht [Hl (pc & A & [S1 [[own Hr] Hn Hi Hp] S3])] k'.
  assert (Hs : same_sync k k') by by apply (same_sync_set k i t).
  assert (Hget : forall j t', zget (tasks k') j = Some t' -> j = i /\ enabled t' = false \/ j <> i /\ zget (tasks k) j = Some t').
  { intros j t' Ht'. simpl in Ht'. destruct (decide (j = i)) as [->|]; [left|right; by rewrite zget_zset_ne in Ht' by done].
    rewrite zget_zset_eq in Ht' by (by eapply zget_Some_range). by simplify_eq. }
  split; [split; [by apply (linked_set_task None k i t)|exists pc, A]|split].
  - constructor; [done| |].
    + constructor; try done; [exists own; by eapply srep_same|]. simpl in *. by rewrite zlen_zset.
    + intros j t' Ht' Hd Hb. destruct (Hget j t' Ht') as [[-> _]|[_ Hj]]; [done|]. by apply (S3 j t').
  - intros j t' Ht' He. destruct (Hget j t' Ht') as [[-> Hd]|[_ Hj]]; [congruence|by exists t'].
  - intros t' Ht'. by destruct (Hget i t' Ht') as [[_ Hd]|[? _]].
Qed.

(** It leaves its locks. *)
Lemma cleanup_ok (init : registers_t -> K M registers_t) reset crash `{!QuietGui init reset crash} k i :
  inv None (Some i) k -> 0 <= i < TOTAL_TASKS ->
  exists k', ksync_cleanup_task reset crash init i k = Ret tt k' /\ inv None None k' /\ same_links k k'.
Proof.
  intros [Hl (pc & A & [S1 S2 S3])] Hi. destruct (cleanup_rep reset crash init k A pc i S2 Hi) as (k' & A' & E & Hre & Hrf & Hno & Hh & _).
  pose proof (links_cleanup init reset crash i k) as Hlk. rewrite E in Hlk. exists k'. split; [done|]. split; [|done].
  split; [by apply (linked_same None k)|]. exists (<[i := None]> pc), A'. constructor; [by eapply reach_trans|done|].
  intros j t' Ht' Hd _. destruct (decide (i = j)) as [<-|Hij]; [rewrite fn_lookup_insert; split; [done|apply Hno]|].
  rewrite fn_lookup_insert_ne by done. destruct Hlk as (_ & _ & _ & He & _).
  destruct (fmap_Some_back _ _ _ _ (He j) Ht') as (t & Ht & Ee). unfold ends_of in Ee.
  destruct (S3 j t Ht) as [Hpc Ho]; [congruence|congruence|]. split; [done|]. intros m Hw. destruct (Hh m j) as [_ Hh2].
  destruct (Hh2 Hw) as [Hm|Hin]; [by apply (Ho m)|]. destruct (rf_pc _ _ S2 j m) as [Hp _]. apply Hp in Hin.
  simpl in Hin. congruence.
Qed.

Lemma inv_still skip but k k' : still k k' -> linked skip k' -> inv skip but k -> inv skip but k'.
Proof. intros Hs Hl [_ (pc & A & Hk)]. split; [done|]. exists pc, A. by eapply sound_still. Qed.

Lemma inv_quiet skip but k k' : quiet k k' -> inv skip but k -> inv skip but k'.
Proof.
  intros Hq Hi. apply (inv_still skip but k); [by apply quiet_still| |done]. apply (linked_same skip k); [by apply quiet_links|].
  apply Hi.
Qed.

(** From [k0] to here: the invariant holds and nobody came to life. *)
Definition safe skip but k0 k : Prop := inv skip but k /\ dies k0 k.

(** A call that only changes memory, windows, pauses and events. *)
Lemma wp_quiet {A B} skip but k0 (m : K M A) (f : A -> K M B) (Q : option B -> kern M -> Prop) k :
  keeps quiet m -> safe skip but k0 k -> (forall k', safe skip but k0 k' -> Q None k') ->
  (forall a k', quiet k k' -> safe skip but k0 k' -> wp (f a) Q k') -> wp (m ≫= f) Q k.
Proof.
  intros Hm [Hk Hd] Hq Hf.
  assert (Hs : forall k', quiet k k' -> safe skip but k0 k').
  { intros k' Hq'. split; [by eapply inv_quiet|]. etransitivity; [done|]. by apply still_dies, quiet_still. }
  eapply wp_keeps; [exact Hm|..]; intros; [apply Hf; [done|]|apply Hq]; by apply Hs.
Qed.

(** A call with a theorem of its own about the messages, which leaves the locks alone. *)
Lemma wp_still {A B} but k0 (P : option A -> option Z) (m : K M A) (f : A -> K M B) (Q : option B -> kern M -> Prop) k :
  keeps still m -> wp m (fun o k' => linked (P o) k') k -> safe None but k0 k ->
  (forall k', safe (P None) but k0 k' -> Q None k') ->
  (forall a k', still k k' -> safe (P (Some a)) but k0 k' -> wp (f a) Q k') -> wp (m ≫= f) Q k.
Proof.
  intros Hm Hw [[_ (pc & A' & Hs)] Hd] Hq Hf. apply wp_bind. specialize (Hm k). unfold wp in *.
  assert (Hsafe : forall s k', still k k' -> linked s k' -> safe s but k0 k').
  { intros s k' Hst Hl. split; [split; [done|exists pc, A'; by eapply sound_still]|]. etransitivity; [done|]. by apply still_dies. }
  destruct (m k) as [a k'|k'| | |]; try done; [apply Hf; [done|]|apply Hq]; by apply Hsafe.
Qed.

End invariant.

(** ** The functions of the end of a task *)

Section ending.
Context {H : Type} `{Allocator H}.
Abbreviation kern := (kern (tmem (H := H))).
Abbreviation KM := (K (tmem (H := H))).
Context (tasks_init : registers_t -> KM registers_t)
  (task_reset_windows : Z -> KM unit) (wm_event_crash : Z -> Z -> Z -> KM unit)
  (task_write_to_window : Z -> KM unit) (process_release_kobjs process_free_vm : Z -> KM unit).
Implicit Types (k : kern).

(** Windows, handles and regions do not concern tasks, locks, ports and channels. *)
Class QuietEnd : Prop := {
  quiet_gui :: QuietGui tasks_init task_reset_windows wm_event_crash;
  quiet_text i : keeps quiet (task_write_to_window i);
  quiet_kobjs p : keeps quiet (process_release_kobjs p);
  quiet_vm p : keeps quiet (process_free_vm p) }.

Context `{!QuietEnd}.

(** The end of connections moves no handles. *)
#[local] Instance any_handles : MsgCall.Handles (tmem (H := H)) :=
  {| MsgCall.process_copy_kobj _ _ _ := mret (-1); MsgCall.process_release_kobj _ _ := mret tt;
     MsgCall.handle_connects _ _ := mret false |}.

#[local] Instance any_handles_quiet : MsgCalm.QuietHandles (tmem (H := H)).
Proof. split; intros; apply returns_mret; typeclasses eauto. Qed.

Lemma quiet_upd_process p f : (forall x, holds_of (f x) = holds_of x) -> keeps quiet (upd_process p f : KM unit).
Proof.
  intros Hf k. unfold upd_process, mbind, K_mbind, get_process, deref. destruct (processes k !! p) as [x|] eqn:Hx; [|done].
  split; [done|]. split; [done|]. split; [|done]. split; [done|]. split; [done|]. intros q. by eapply fmap_insert_same.
Qed.
#[local] Hint Extern 1 (keeps quiet (upd_process _ _)) => apply quiet_upd_process; done : keeps.

Lemma quiet_on_pages {A} (f : pstate H -> option (A * pstate H)) : keeps quiet (on_pages f : KM A).
Proof. unfold on_pages, set_space. keeps. Qed.
#[local] Hint Resolve quiet_on_pages : keeps.

Lemma quiet_dealloc a n : keeps quiet (dealloc a n : KM unit).
Proof. unfold dealloc. keeps. Qed.
#[local] Hint Resolve quiet_dealloc : keeps.

Lemma quiet_cleanup_args p b : keeps quiet (cleanup_checkcmd_args p b : KM unit).
Proof. unfold cleanup_checkcmd_args, unshare_heap_page, kmap. keeps. Qed.
#[local] Hint Resolve quiet_cleanup_args : keeps.

Lemma quiet_arg l i : keeps quiet (arg l i : KM Z).
Proof. unfold arg. keeps. Qed.
#[local] Hint Resolve quiet_arg : keeps.

Lemma quiet_free_events i : keeps quiet (free_event_queue i : KM unit).
Proof. unfold free_event_queue. generalize (Z.to_nat EVENT_QUEUE_SIZE + 1)%nat. intros n. induction n; simpl; keeps. Qed.

Lemma quiet_launch_args a n : keeps quiet (free_launch_args a n : KM unit).
Proof.
  unfold free_launch_args. keeps. generalize 0. generalize (Z.to_nat n). intros m.
  induction m; intros; cbn [free_args_loop]; keeps.
Qed.

Lemma quiet_free_heap x : keeps quiet (free_heap x : KM unit).
Proof.
  assert (Hl : forall m d a, keeps quiet (free_heap_loop m d a : KM unit)).
  { intros m. induction m; intros; cbn [free_heap_loop]; keeps. }
  unfold free_heap. keeps.
Qed.

Lemma quiet_unmap_stack i : keeps quiet (task_unmap_stack i : KM unit).
Proof.
  assert (Hu : forall n j d v, keeps quiet (unmap_stack_pages n j d v : KM unit)).
  { intros n. induction n; intros; simpl; unfold kunmap; keeps. }
  unfold task_unmap_stack, page_get_kernel_pagedir, kmap. keeps.
Qed.
#[local] Hint Resolve quiet_free_events quiet_launch_args quiet_free_heap quiet_unmap_stack quiet_text quiet_kobjs quiet_vm : keeps.

Lemma quiet_end_thread i : keeps quiet (end_thread i : KM unit).
Proof. unfold end_thread. keeps. Qed.

Lemma quiet_abandon i : keeps quiet (abandon_routine i : KM unit).
Proof. unfold abandon_routine. keeps. Qed.

Lemma quiet_end_later i : keeps quiet (end_later i : KM unit).
Proof. unfold end_later, is_kthread, page_get_kernel_pagedir. keeps. Qed.

Lemma quiet_is_main i : keeps quiet (is_main i : KM bool).
Proof. unfold is_main. keeps. Qed.

Lemma quiet_leave_dir p regs : keeps quiet (leave_page_dir tasks_init p regs).
Proof. unfold leave_page_dir, page_get_kernel_pagedir. keeps. Qed.

Lemma quiet_leave_ended regs : keeps quiet (leave_ended tasks_init regs).
Proof. unfold leave_ended, get_current_task. keeps. Qed.
#[local] Hint Resolve quiet_end_thread quiet_abandon quiet_end_later quiet_is_main quiet_leave_dir quiet_leave_ended : keeps.

(** The process pointer of a task is not a link. *)
Lemma set_process_ok {B} skip but k0 i p (f : unit -> KM B) (Q : option B -> kern -> Prop) k :
  safe skip but k0 k -> (forall k', safe skip but k0 k' -> wp (f tt) Q k') ->
  wp (upd_task i (fun t => t <| t_process := p |>) ≫= f) Q k.
Proof.
  intros [Hi Hd] Hf. apply wp_upd_task. intros t Ht. set (k' := k <| tasks := _ |>).
  assert (Hst : still k k').
  { pose proof (still_upd (M := tmem (H := H)) i (fun t => t <| t_process := p |>) ltac:(done) k) as Hs.
    by rewrite (upd_task_Some k i t _ Ht) in Hs. }
  apply Hf. split; [|etransitivity; [done|by apply still_dies]]. apply (inv_still skip but k); [done| |done].
  apply (linked_set_task skip k i t); [apply Hi|done|]. intros He. destruct Hi as [[_ _ _ _ _ L6 _ _] _]. by apply (L6 i t).
Qed.

(** The processor has left in the middle: the invariant holds but for what was going. *)
Definition left_in k : Prop := exists skip but, inv skip but k.

Lemma left_safe skip but k0 k : safe skip but k0 k -> left_in k.
Proof. intros [Hi _]. by exists skip, but. Qed.

Lemma end_process_ok {B} i p regs k0 (f : option registers_t -> KM B) (Q : option B -> kern -> Prop) k :
  safe None None k0 k -> (forall k', left_in k' -> Q None k') -> (forall r k', safe None None k0 k' -> wp (f r) Q k') ->
  wp (free_process tasks_init task_reset_windows wm_event_crash process_release_kobjs process_free_vm i p regs ≫= f) Q k.
Proof.
  intros Hk Hq Hf. unfold free_process.
  assert (Hl : forall s b k', safe s b k0 k' -> Q None k') by (intros s b k' Hs; by eapply Hq, left_safe).
  apply wp_assoc, wp_get_process. intros x _.
  apply wp_assoc, (wp_quiet None None k0); [keeps|done|by apply Hl|]. intros _ k1 _ Hk1.
  apply wp_assoc, (wp_quiet None None k0); [apply (quiet_reset tasks_init task_reset_windows wm_event_crash)|done|by apply Hl|]. intros _ k2 _ Hk2.
  apply wp_assoc, wp_get_process. intros x1 _.
  apply wp_assoc, (wp_quiet None None k0); [keeps|done|by apply Hl|]. intros _ k3 _ Hk3.
  apply wp_assoc, (wp_quiet None None k0); [keeps|done|by apply Hl|]. intros _ k4 _ Hk4.
  apply wp_assoc, (wp_still None k0 (fun o => match o with Some _ => None | None => Some p end));
    [apply still_cleanup_process; typeclasses eauto|apply msg_cleanup_process_ok; [typeclasses eauto..|apply Hk4]|done|by apply Hl|].
  intros _ k5 _ Hk5.
  apply wp_assoc, (wp_quiet None None k0); [keeps|done|by apply Hl|]. intros r k6 _ Hk6.
  apply wp_assoc, wp_get_process. intros x2 _.
  apply wp_assoc, wp_gets.
  apply wp_assoc, (wp_quiet None None k0); [destruct (negb _); unfold kfree_page_dir; keeps|done|by apply Hl|]. intros _ k7 _ Hk7.
  apply wp_assoc, (wp_quiet None None k0); [keeps|done|by apply Hl|]. intros _ k8 _ Hk8.
  apply wp_assoc, (wp_quiet None None k0); [keeps|done|by apply Hl|]. intros _ k9 _ Hk9.
  apply wp_assoc, (wp_quiet None None k0); [keeps|done|by apply Hl|]. intros _ ka _ [Hka Hda].
  apply wp_assoc, wp_modify, wp_bind, wp_ret, Hf. split; [|done].
  apply (inv_still None None ka); [done|by apply linked_end_process, Hka|done].
Qed.

(** What the recursive calls promise. *)
Definition ends_tasks (end_one : Z -> KM bool) : Prop := forall j k, inv None None k ->
  wp (end_one j) (fun o k' => match o with Some _ => safe None None k k' | None => left_in k' end) k.

Lemma safe_trans k0 k1 k2 : safe None None k0 k1 -> safe None None k1 k2 -> safe None None k0 k2.
Proof. intros [_ H1'] [H2 H3]. split; [done|]. by etransitivity. Qed.

Lemma end_threads_ok {B} end_one n j rem p k0 (f : Z -> KM B) (Q : option B -> kern -> Prop) k :
  ends_tasks end_one -> safe None None k0 k -> (forall k', left_in k' -> Q None k') ->
  (forall r k', safe None None k0 k' -> wp (f r) Q k') -> wp (end_threads end_one n j rem p ≫= f) Q k.
Proof.
  intros He. revert j rem k. induction n as [|n IH]; intros j rem k Hk Hq Hf; cbn [end_threads]; [by apply wp_bind, wp_ret, Hf|].
  apply wp_assoc, wp_get_process. intros x _. apply wp_assoc, wp_deref. intros th _. destruct th as [i|]; [|by apply IH].
  apply wp_assoc, wp_get_task. intros t _. apply wp_assoc, wp_bind. eapply wp_mono; [apply He, Hk|].
  intros [ok|] k1 Hk1; [|by apply Hq]. pose proof (safe_trans _ _ _ Hk Hk1) as Hs. destruct ok.
  - apply wp_assoc, (set_process_ok None None k0); [done|]. intros k2 Hk2. by apply IH.
  - apply wp_assoc, (wp_quiet None None k0); [keeps|done|intros k2 Hk2; by eapply Hq, left_safe|]. intros _ k2 _ Hk2. by apply IH.
Qed.

(** The steps of the end of task [i], from the moment it is disabled. *)
Lemma leave_components_ok {B} i k0 (f : unit -> KM B) (Q : option B -> kern -> Prop) k :
  0 <= i < TOTAL_TASKS -> safe None (Some i) k0 k -> (forall k', left_in k' -> Q None k') ->
  (forall k', safe None None k0 k' -> dies k k' -> wp (f tt) Q k') ->
  wp (leave_components tasks_init task_reset_windows wm_event_crash i ≫= f) Q k.
Proof.
  intros Hi Hk Hq Hf. unfold leave_components. apply wp_assoc.
  apply (wp_still (Some i) k0 (fun _ => None)); [apply still_cleanup_task; typeclasses eauto
    |apply msg_cleanup_task_ok; [typeclasses eauto..|apply Hk]|done|intros k1 Hk1; by eapply Hq, left_safe|].
  intros _ k1 Hst1 [Hk1 Hd1]. apply wp_assoc.
  destruct (cleanup_ok tasks_init task_reset_windows wm_event_crash k1 i Hk1 Hi) as (k2 & E & Hk2 & Hlk).
  apply wp_bind. unfold wp. rewrite E. assert (Hd2 : dies k1 k2) by by apply links_dies.
  apply (wp_quiet None None k0); [keeps|split; [done|by etransitivity]|intros k3 Hk3; by eapply Hq, left_safe|].
  intros [] k3 Hq3 Hk3. apply Hf; [done|]. transitivity k1; [by apply still_dies|]. transitivity k2; [done|].
  by apply still_dies, quiet_still.
Qed.

Abbreviation helper := (end_task_helper tasks_init task_reset_windows wm_event_crash task_write_to_window
  process_release_kobjs process_free_vm).

(** The outcome of the end of task [i] from [k]. *)
Definition end_result (i : Z) (k : kern) (o : option (bool * option registers_t)) (k' : kern) : Prop :=
  match o with
  | Some (b, _) => safe None None k k' /\ (b = true -> dead i k')
  | None => left_in k'
  end.

Lemma end_memory_ok {B} fuel i regs k0 (f : option registers_t -> KM B) (Q : option B -> kern -> Prop) k :
  (forall j regs child k, inv None None k -> wp (helper fuel j regs child) (end_result j k) k) ->
  safe None None k0 k -> (forall k', left_in k' -> Q None k') -> (forall r k', safe None None k0 k' -> wp (f r) Q k') ->
  wp (end_process tasks_init task_reset_windows wm_event_crash process_release_kobjs process_free_vm
        (fun i => r ← helper fuel i None true; mret (fst r)) i regs ≫= f) Q k.
Proof.
  intros IH Hk Hq Hf. unfold end_process. apply wp_assoc, wp_get_task. intros t _. apply wp_assoc, (end_threads_ok _ _ _ _ _ k0).
  { intros j k1 Hk1. apply wp_bind. eapply wp_mono; [by apply IH|]. intros [[b r]|] k2; [|done]. intros [Hs _]. by apply wp_ret. }
  1,2: done.
  intros rem k1 Hk1. apply wp_assoc.
  assert (Hend : forall r k', safe None None k0 k' ->
    wp ((_ ← upd_task i (fun t => t <| t_process := NULL |>); mret r) ≫= f) Q k').
  { intros r k' Hk'. apply wp_assoc, (set_process_ok None None k0); [done|]. intros k2 Hk2. by apply wp_bind, wp_ret, Hf. }
  destruct (rem =? 0); [by apply (end_process_ok _ _ _ k0)|by apply wp_bind, wp_ret, Hend].
Qed.

Lemma helper_ok fuel : forall i regs child k, inv None None k -> wp (helper fuel i regs child) (end_result i k) k.
Proof.
  induction fuel as [|fuel IH]; intros i regs child k Hk; cbn [end_task_helper]; [done|].
  assert (Href : forall k', safe None None k k' -> end_result i k (Some (false, regs)) k') by (intros k' Hs; by split).
  assert (Hkk : safe None None k k) by by split.
  destruct (_ || _ || _) eqn:Ei; [by apply wp_ret, Href|]. apply orb_false_iff in Ei as [Ei _]. apply orb_false_iff in Ei as [E1 E2].
  apply Z.ltb_ge in E1. apply Z.leb_gt in E2. apply wp_get_task. intros t Ht. apply wp_gets.
  destruct (enabled t) eqn:He; cbn [negb].
  2: { apply wp_ret. split; [done|]. intros _ t' Ht'. congruence. }
  destruct (_ && _ && _); [done|]. destruct (negb (kernel_esp t =? 0)).
  { apply (wp_quiet None None k); [keeps|done|intros k1 Hk1; by eapply left_safe|]. intros _ k1 _ Hk1. by apply wp_ret, Href. }
  apply wp_get_process. intros x _.
  apply (wp_quiet None None k); [keeps|done|intros k1 Hk1; by eapply left_safe|]. intros _ k1 _ Hk1.
  apply (wp_quiet None None k); [keeps|done|intros k2 Hk2; by eapply left_safe|]. intros _ k2 _ [Hk2 Hd2].
  apply wp_upd_task. intros t2 Ht2. destruct (disable_ok k2 i t2 Ht2 Hk2) as (Hk3 & Hd3 & Hdead).
  set (k3 := k2 <| tasks := _ |>) in *.
  apply (leave_components_ok i k3); [lia|by split|by intros k4 Hk4|]. intros k4 Hk4 _.
  apply (wp_quiet None None k3); [keeps|done|intros k5 Hk5; by eapply left_safe|]. intros main k5 _ Hk5.
  assert (Hend : forall r k', safe None None k3 k' -> wp (
    _ ← upd_task i (fun t => t <| reserved := false |> <| routine := E_NONE |>);
    regs ← leave_ended tasks_init r;
    _ ← modify (fun k => k <| task_event_counter := u32 (task_event_counter k + 1) |>);
    mret (true, regs)) (end_result i k) k').
  { intros r k' Hk'.
    apply (wp_quiet None None k3); [keeps|done|intros k6 Hk6; by eapply left_safe|]. intros _ k6 _ Hk6.
    apply (wp_quiet None None k3); [keeps|done|intros k7 Hk7; by eapply left_safe|]. intros r' k7 _ Hk7.
    apply (wp_quiet None None k3); [keeps|done|intros k8 Hk8; by eapply left_safe|]. intros _ k8 _ [Hk8 Hd8].
    apply wp_ret. split; [split; [done|]|intros _; by apply (dies_dead i k3)].
    transitivity k2; [done|]. by transitivity k3. }
  destruct main.
  - apply (end_memory_ok fuel i regs k3); [done|done|by intros k6 Hk6|done].
  - apply wp_assoc, (wp_quiet None None k3); [keeps|done|intros k6 Hk6; by eapply left_safe|]. intros _ k6 _ Hk6.
    by apply wp_bind, wp_ret, Hend.
Qed.

(** The call refuses when the slot is not one of a user task or the task is parked. *)
Definition refused (i : Z) k : Prop :=
  i <= 0 \/ TOTAL_TASKS <= i \/ exists t, zget (tasks k) i = Some t /\ kernel_esp t <> 0.

Lemma helper_false fuel i regs child k r k' : helper fuel i regs child k = Ret (false, r) k' -> refused i k.
Proof.
  destruct fuel as [|fuel]; [done|]. cbn [end_task_helper]. destruct (_ || _ || _) eqn:Ei.
  { intros _. unfold refused. rewrite !orb_true_iff, Z.ltb_lt, Z.leb_le, Z.eqb_eq in Ei. lia. }
  destruct (zget (tasks k) i) as [t|] eqn:Ht; [|unfold mbind, K_mbind, get_task; by rewrite Ht].
  kget Ht. unfold get_current_task. rewrite bind_gets. destruct (negb (enabled t)); [done|]. destruct (_ && _ && _); [done|].
  destruct (Z.eqb_spec (kernel_esp t) 0) as [_|Hp]; cbn [negb]; [|intros _; right; right; by exists t].
  intros E. exfalso. revert E. match goal with |- ?m k = _ -> _ => enough (Hr : KSyncSpec.returns (fun a => fst a = true) m)
    by (intros E; by apply Hr in E) end.
  repeat (apply returns_any; intros ?). by apply returns_ret.
Qed.

(** A task that is not alive has no locks. *)
Lemma dead_free i k : inv None None k -> dead i k -> 0 <= i < TOTAL_TASKS ->
  (forall m mx, mutexes k !! m = Some mx -> owner mx <> Some i) /\
  (forall t, zget (tasks k) i = Some t -> enabled t = false /\ t_mutex t = None /\ owned_mutexes t = None).
Proof.
  intros [_ (pc & A & [_ [[own Hr] Hl _ Hp] Hd])] Hdead Hi. simpl in *. destruct (view_range k i Hl Hi) as (t & Ht & Hv).
  destruct (Hd i t Ht (Hdead t Ht)) as [Hpc Ho]; [done|]. split.
  - intros m mx Hm. destruct (r_mutex _ _ _ _ Hr _ _ Hm) as [-> _]. apply Ho.
  - intros t' Ht'. assert (t' = t) as -> by congruence. split; [by apply Hdead|]. split.
    + destruct (t_mutex t) as [m|] eqn:Em; [|done]. exfalso. destruct (Hp i m) as [H1' _]. rewrite Hpc in H1'.
      discriminate H1'. apply (r_waits _ _ _ _ Hr). rewrite Hv. unfold sync_of. rewrite Em. eauto.
    + rewrite (r_owned _ _ _ _ Hr _ _ _ _ Hv). destruct (own i) as [|m o] eqn:Eo; [done|]. exfalso.
      apply (Ho m), (r_owner _ _ _ _ Hr). rewrite Eo. left.
Qed.

(** C6: Ending a task keeps the messages and the locks of the system sound, whatever the task
    held: when [end_task] returns true the task is disabled, owns no mutex and waits for
    none, and so does every task that is not alive (its threads among them); no port or
    channel is left dangling, and nobody came to life. It returns false only for a slot that
    is not a user task's and for a task that is parked in the kernel. *)
Theorem end_task_clean i regs k b r k' :
  inv None None k ->
  end_task tasks_init task_reset_windows wm_event_crash task_write_to_window process_release_kobjs process_free_vm i regs k =
    Ret (b, r) k' ->
  inv None None k' /\ dies k k' /\
  (if (b : bool) then
     (forall m mx, mutexes k' !! m = Some mx -> owner mx <> Some i) /\
     (forall t, zget (tasks k') i = Some t -> enabled t = false /\ t_mutex t = None /\ owned_mutexes t = None)
   else refused i k).
Proof.
  intros Hk E. pose proof (helper_ok 2 i regs false k Hk) as Hw. unfold wp, end_task in *. rewrite E in Hw.
  destruct Hw as [[Hi Hd] Hdead]. split; [done|]. split; [done|]. destruct b; [|by eapply helper_false].
  destruct (decide (0 <= i < TOTAL_TASKS)) as [Hr|Hr]; [by apply dead_free; [|apply Hdead|]|]. exfalso.
  revert E. cbn [end_task_helper]. rewrite (proj2 (orb_true_iff _ (i =? 0))); [done|]. left. apply orb_true_iff.
  rewrite Z.ltb_lt, Z.leb_le. lia.
Qed.
End ending.

(** ** Two threads, one of which holds a mutex *)

Definition no_windows : registers_t -> K (tmem (H := heap)) registers_t := fun r => mret r.
Definition nothing (_ : Z) : K (tmem (H := heap)) unit := mret tt.
Definition no_event (_ _ _ : Z) : K (tmem (H := heap)) unit := mret tt.

#[export] Instance quiet_nothing : QuietEnd no_windows nothing no_event nothing nothing nothing.
Proof. split; [split; intros; apply keeps_ret; typeclasses eauto|intros; apply keeps_ret; typeclasses eauto..]. Qed.

Definition end_0 : kern (tmem (H := heap)) :=
  mem_kern <| tasks := alter (fun t => t <| t_process := 0x2000 |>) 2%nat (tasks mem_kern) |>
    <| processes := alter (fun x => x <| threads := [Some 1; Some 2; None; None] |>) 0x2000 (processes mem_kern) |>
    <| current_task := 1 |> <| mutexes := {[64 := Kmutex None None None None]} |>.

(** Task 1 has locked the mutex; the call comes from task 0. *)
Definition end_1 : kern (tmem (H := heap)) :=
  match kmutex_lock nothing no_event no_windows 64 end_0 with
  | Ret _ k => k <| current_task := 0 |>
  | _ => end_0
  end.

Lemma end_0_fresh : fresh end_0.
Proof.
  constructor; [done| |].
  - intros i t Ht. list_cases Ht; done.
  - intros m mx Hm. unfold end_0 in Hm. cbn in Hm. apply lookup_singleton_Some in Hm as [_ <-]. done.
Qed.

Lemma end_1_inv : inv None None end_1.
Proof.
  split; [apply no_ports_linked, no_ports_listed; [done|done|vm_compute; repeat constructor..]|].
  destruct (runs_refines nothing no_event no_windows end_0 [Takes 1 64; Elsewhere] (fun _ => None) end_1 end_0_fresh)
    as (_ & A & Hr & _ & Hrf).
  { apply (runs_snoc _ _ _ _ [Takes 1 64] (end_1 <| current_task := 1 |>, fun _ => None)); [|by apply s_other].
    apply (runs_snoc _ _ _ _ [] (end_0, fun _ => None)); [constructor|].
    apply (s_lock _ _ _ end_0 (fun _ => None) 64); [done|]. vm_compute. reflexivity. }
  exists (fun _ => None), A. constructor; [done|done|]. intros j t Ht Hd _. split; [done|]. intros m Hm.
  destruct (rf_rep _ _ Hrf) as [own Hrep]. simpl in Hrep. apply (r_owner _ _ _ _ Hrep) in Hm.
  assert (Hv : view end_1 j = Some (sync_of t)) by (unfold view; by rewrite Ht).
  assert (Ho : owned_mutexes t = None) by (list_cases Ht; done).
  pose proof (r_owned _ _ _ _ Hrep _ _ _ _ Hv) as Hh. rewrite Ho in Hh. destruct (own j); [by apply not_elem_of_nil in Hm|done].
Qed.

Definition end_demo : res (tmem (H := heap)) (bool * option registers_t) :=
  end_task no_windows nothing no_event nothing nothing nothing 1 None end_1.

(** Both threads have ended and the process is gone. *)
Example end_demo_runs :
  match end_demo with
  | Ret (true, _) k => enabled <$> tasks k = true :: replicate 15 false /\ processes k !! 0x2000 = None
  | _ => False
  end.
Proof. vm_compute. done. Qed.

Lemma end_task_clean_witness :
  owner <$> mutexes end_1 !! 64 = Some (Some 1) /\
  exists r k', end_demo = Ret (true, r) k' /\ inv None None k' /\ owner <$> mutexes k' !! 64 = Some None.
Proof.
  split; [reflexivity|].
  assert (E : exists r k', end_demo = Ret (true, r) k' /\ owner <$> mutexes k' !! 64 = Some None) by (eexists _, _; split; [vm_compute|]; reflexivity).
  destruct E as (r & k' & E & Ho). exists r, k'. split; [exact E|]. split; [|exact Ho].
  exact (proj1 (end_task_clean no_windows nothing no_event nothing nothing nothing 1 None end_1 true r k' end_1_inv E)).
Defined.
