(* ===== verification/Timer.v ===== *)
(** * Timed events and sleep (events.c, interrupts.c, api.c)

    A list of events in the order of their times, which the timer interrupt checks on every
    tick. Times are 32-bit tick counts that wrap around: an event is compared by how long it
    still has, as a signed number. What a kernel callback does is an argument
    ([kernel_callback]); the one of [api_sleep] is [api_sleep_callback]. *)

From S2P Require Import LinkedList Kern Sched Events Hoare Quiet Msg.

Local Open Scope Z_scope.

Definition SIZEOF_EVENT : Z := 24.
Definition SIZEOF_SLEEP_MSG : Z := 8.

Section timer.
Context {M : Type} `{!Space M}.
Context (tasks_init : registers_t -> K M registers_t)
  (task_reset_windows : Z -> K M unit) (wm_event_crash : Z -> Z -> Z -> K M unit)
  (kernel_callback : Z -> registers_t -> Z -> K M registers_t) (gui_draw : K M unit).
Implicit Types (k : kern M).

(** ** The list *)

Definition upd_timed (f : timed_t -> timed_t) : K M unit := modify (fun k => k <| timed := f (timed k) |>).

Definition get_event (p : Z) : K M event_t := fun k => deref (event_objs (timed k) !! p) k.
Definition put_event (p : Z) (e : event_t) : K M unit :=
  upd_timed (fun t => t <| event_objs := <[p := e]> (event_objs t) |>).
Definition upd_event (p : Z) (f : event_t -> event_t) : K M unit := e ← get_event p; put_event p (f e).
Definition set_first (p : Z) : K M unit := upd_timed (fun t => t <| first_event := p |>).

Definition free_event (p : Z) : K M unit :=
  _ ← dealloc p SIZEOF_EVENT; upd_timed (fun t => t <| event_objs := delete p (event_objs t) |>).

Definition event_time_until (p : Z) : K M Z :=
  e ← get_event p; t ← gets timed; mret (s32 (u32 (ev_time e - timer_i t))).

(** The walk to the last event that is not later than [event]. *)
Fixpoint insert_loop (fuel : nat) (event e : Z) : K M unit :=
  match fuel with
  | O => fun _ => Hang
  | S fuel =>
      x ← get_event e;
      if negb (ev_next x =? 0) then
        a ← event_time_until event; b ← event_time_until (ev_next x);
        if a <? b then
          _ ← upd_event event (fun v => v <| ev_next := ev_next x |>);
          upd_event e (fun v => v <| ev_next := event |>)
        else insert_loop fuel event (ev_next x)
      else upd_event e (fun v => v <| ev_next := event |>)
  end.

(** The place of a new event in the list. *)
Definition link_event (event : Z) : K M unit :=
  first ← gets (fun k => first_event (timed k));
  if first =? 0 then set_first event
  else
    a ← event_time_until event; b ← event_time_until first;
    if a <? b then
      _ ← upd_event event (fun v => v <| ev_next := first |>); set_first event
    else
      n ← gets (fun k => S (size (event_objs (timed k))));
      insert_loop n event first.

Definition events_add (delta callback msg taskid : Z) : K M unit :=
  _ ← upd_timed (fun t => t <| events_active := true |>);
  event ← alloc SIZEOF_EVENT;
  if event =? 0 then mret tt
  else
    uid ← (if 0 <=? taskid then t ← get_task taskid; mret (task_uid t) else mret 0);
    now ← gets (fun k => timer_i (timed k));
    _ ← put_event event (Event (u32 (now + delta)) msg 0 callback taskid uid);
    link_event event.

(** ** Firing *)

Definition event_fire (regs : registers_t) (e : event_t) : K M registers_t :=
  if ev_callback e =? 0 then mret regs
  else if 0 <=? ev_task e then
    t ← get_task (ev_task e);
    if negb (task_uid t =? ev_task_uid e) then mret regs
    else
      r ← task_call_subroutine tasks_init task_reset_windows wm_event_crash regs (ev_task e) E_EVENT (ev_callback e) [ev_msg e] 1;
      mret (snd r)
  else kernel_callback (ev_callback e) regs (ev_msg e).

(** The first event, unlinked, if its time has come, and whether its task is gone. *)
Definition take_due : K M (option (Z * event_t * bool)) :=
  first ← gets (fun k => first_event (timed k));
  if first =? 0 then mret None
  else
    left ← event_time_until first;
    if left <=? 0 then
      e ← get_event first;
      ended ← (if 0 <=? ev_task e then t ← get_task (ev_task e); mret (negb (enabled t)) else mret false);
      _ ← set_first (ev_next e);
      mret (Some (first, e, ended))
    else mret None.

Fixpoint check_loop (fuel : nat) (regs : registers_t) : K M registers_t :=
  match fuel with
  | O => fun _ => Hang
  | S fuel =>
      due ← take_due;
      match due with
      | None => mret regs
      | Some (p, e, ended) =>
          regs ← (if ended : bool then mret regs else event_fire regs e);
          _ ← free_event p;
          check_loop fuel regs
      end
  end.

(** Every turn takes an event off the list. *)
Definition events_check (regs : registers_t) : K M registers_t :=
  active ← gets (fun k => events_active (timed k));
  if active : bool then
    n ← gets (fun k => S (size (event_objs (timed k))));
    check_loop n regs
  else mret regs.

(** [timer_handler], without the counter of the text mode and the debug counters. *)
Definition timer_handler (regs : registers_t) (videomode : Z) : K M registers_t :=
  _ ← upd_timed (fun t => t <| timer_i := u32 (timer_i t + 1) |>);
  regs ← events_check regs;
  now ← gets (fun k => timer_i (timed k));
  regs ← (if (Z.rem now 3 =? 0) && negb (Z.land (cs regs) 3 =? 0) then switch_task tasks_init regs true else mret regs);
  _ ← when (negb (videomode =? 0) && (Z.rem now 340 =? 0)) gui_draw;
  mret regs.

(** ** Sleep *)

Definition api_sleep_callback (regs : registers_t) (msg : Z) : K M registers_t :=
  m ← (fun k => deref (sleep_msgs (timed k) !! msg) k);
  _ ← dealloc msg SIZEOF_SLEEP_MSG;
  _ ← upd_timed (fun t => t <| sleep_msgs := delete msg (sleep_msgs t) |>);
  t ← get_task (fst m);
  if negb (enabled t) || negb (task_uid t =? snd m) then mret regs
  else
    _ ← task_resume (fst m);
    r ← switch_to_task (task_id t) regs;
    mret (snd r).

(** [api_sleep_fn] is the address of the callback. *)
Definition api_sleep (timer_hz api_sleep_fn : Z) (regs : registers_t) : K M registers_t :=
  let ms := ebx regs in
  let ticks := s32 (u32 (timer_hz * ms) / 1000) in
  cur ← get_current_task;
  t ← get_task cur;
  _ ← task_pause cur PAUSE_SLEEP;
  msg ← alloc SIZEOF_SLEEP_MSG;
  _ ← upd_timed (fun x => x <| sleep_msgs := <[msg := (task_id t, task_uid t)]> (sleep_msgs x) |>);
  _ ← events_add ticks api_sleep_fn msg (-1);
  switch_task tasks_init regs false.

Definition api_queue_event (regs : registers_t) : K M unit :=
  cur ← get_current_task;
  events_add (s32 (ecx regs)) (ebx regs) (edx regs) cur.

End timer.
