(* ===== verification/TimerSpec.v ===== *)
(** * Timed events fire in order (events.c)

    The list of events is a priority queue: what is taken off it is the oldest of the events
    with the earliest time, once that time has come, whatever the 32-bit tick counter wraps
    around to. *)

From stdpp Require Import sorting.
From S2P Require Import LinkedList Kern Sched Events Hoare Quiet Msg Timer.

Local Open Scope Z_scope.

(** What an event does when it fires. *)
Definition payload : Type := Z * Z * Z * Z.
Definition payload_of (e : event_t) : payload := (ev_callback e, ev_msg e, ev_task e, ev_task_uid e).

(** An event with its time on a clock that does not wrap around. *)
Abbreviation deadline := (Z * payload)%type.

(** ** Sorted insertion *)

Fixpoint q_insert (a : deadline) (q : list deadline) : list deadline :=
  match q with
  | [] => [a]
  | b :: q' => if fst a <? fst b then a :: q else b :: q_insert a q'
  end.

Abbreviation earlier := (fun a b : deadline => fst a <= fst b).
Abbreviation at_time d := (filter (fun a : deadline => fst a = d)).

Lemma q_insert_perm a q : q_insert a q ≡ₚ a :: q.
Proof. induction q as [|b q IH]; simpl; [done|]. destruct (_ <? _); [done|]. rewrite IH. apply Permutation_swap. Qed.

Lemma q_insert_sorted a q : StronglySorted earlier q -> StronglySorted earlier (q_insert a q).
Proof.
  induction q as [|b q IH]; intros Hs; simpl; [by repeat constructor|]. inversion Hs as [|? ? Hs' Hb]; subst.
  destruct (Z.ltb_spec (fst a) (fst b)).
  - constructor; [done|]. constructor; [lia|]. eapply Forall_impl; [done|]. simpl. lia.
  - constructor; [by apply IH|]. rewrite q_insert_perm. by constructor.
Qed.

Lemma at_time_none d l : Forall (fun a : deadline => fst a <> d) l -> at_time d l = [].
Proof. induction 1; [done|]. by rewrite filter_cons, decide_False. Qed.

(** Events of the same time stay in the order in which they came. *)
Lemma q_insert_stable a q d :
  StronglySorted earlier q -> at_time d (q_insert a q) = at_time d q ++ at_time d [a].
Proof.
  induction q as [|b q IH]; intros Hs; simpl; [done|]. inversion Hs as [|? ? Hs' Hb]; subst.
  destruct (Z.ltb_spec (fst a) (fst b)).
  - rewrite !(filter_cons _ a), filter_nil. case_decide as Ha; [|by rewrite app_nil_r].
    assert (Hn : at_time d (b :: q) = []); [|by rewrite Hn].
    apply at_time_none. constructor; [lia|]. eapply Forall_impl; [exact Hb|]. simpl. lia.
  - rewrite !(filter_cons _ b), IH by done. by case_decide.
Qed.

Lemma at_time_elem d (a : deadline) (l : list deadline) : a ∈ l -> fst a = d -> a ∈ at_time d l.
Proof. intros H1 H2. by apply list_elem_of_filter. Qed.

(** The list of one time gives away the first element of the other list at that time. *)
Lemma at_time_head d x (q pend : list deadline) :
  at_time d ((d, x) :: q) = at_time d pend ->
  exists l1 l2, pend = l1 ++ (d, x) :: l2 /\ at_time d l1 = [] /\ at_time d q = at_time d l2.
Proof.
  rewrite filter_cons, decide_True by done. induction pend as [|b pend IH]; [done|].
  rewrite filter_cons. case_decide as Hb.
  - intros [= <- H]. by exists [], pend.
  - intros H. destruct (IH H) as (l1 & l2 & -> & H1 & H2). exists (b :: l1), l2.
    split; [done|]. split; [|done]. by rewrite filter_cons, decide_False.
Qed.

(** ** The list in memory *)

Section spec.
Context {M : Type} `{!Space M}.
Implicit Types (k : kern M) (l : list (Z * event_t)).

Definition stands_for (a : deadline) (pe : Z * event_t) : Prop :=
  ev_time (snd pe) = u32 (fst a) /\ payload_of (snd pe) = snd a.

(** Comparisons are right for times less than half a round of the counter away. *)
Definition near (now : Z) (a : deadline) : Prop := - 2 ^ 31 <= fst a - now < 2 ^ 31.

Abbreviation objs k := (event_objs (timed k)).
Definition set_objs (m : gmap Z event_t) k : kern M := k <| timed := (timed k) <| event_objs := m |> |>.

Lemma until_eq now d : - 2 ^ 31 <= d - now < 2 ^ 31 -> s32 (u32 (u32 d - u32 now)) = d - now.
Proof.
  intros H. unfold s32, u32. rewrite <-Zminus_mod, Zplus_mod_idemp_l. rewrite Z.mod_small by lia. lia.
Qed.

Lemma exits_get_event {B} p (f : event_t -> K M B) Q k :
  (forall e, objs k !! p = Some e -> exits (f e) Q k) -> exits (get_event p ≫= f) Q k.
Proof. intros Hf. unfold exits, mbind, K_mbind, get_event, deref. destruct (objs k !! p); [by apply Hf|done]. Qed.

(** An event whose time is known. *)
Lemma exits_until {B} p e (f : Z -> K M B) Q k now a :
  objs k !! p = Some e -> timer_i (timed k) = u32 now -> ev_time e = u32 (fst a) -> near now a ->
  exits (f (fst a - now)) Q k -> exits (event_time_until p ≫= f) Q k.
Proof.
  intros He Ht Hs Hn Hf. unfold event_time_until. apply exits_seq, exits_get_event. intros e' He'.
  rewrite He in He'. injection He' as <-. apply exits_seq, exits_gets. simpl.
  rewrite Hs, Ht, (until_eq _ _ Hn). exact Hf.
Qed.

Lemma exits_upd_event {B} p g e (f : unit -> K M B) Q k :
  objs k !! p = Some e -> exits (f tt) Q (set_objs (<[p := g e]> (objs k)) k) -> exits (upd_event p g ≫= f) Q k.
Proof.
  intros He Hf. unfold upd_event. apply exits_seq, exits_get_event. intros e' He'. rewrite He in He'. injection He' as <-.
  unfold put_event, upd_timed. apply exits_modify. exact Hf.
Qed.

(** [l'] holds the events of [q], in memory [m'], at the addresses of [l] and at [p]. *)
Record inserted (m m' : gmap Z event_t) (p : Z) l (q : list deadline) l' (first : Z) : Prop := {
  in_linked : linked ev_next m' first l';
  in_match : Forall2 stands_for q l';
  in_addrs x : x ∈ fst <$> l' -> x = p \/ x ∈ fst <$> l;
  in_others x : x <> p -> x ∉ fst <$> l -> m' !! x = m !! x }.

(** The new event goes right after [e]. *)
Lemma inserted_after m p ev e x post q0 qpost a :
  m !! p = Some ev -> p <> 0 -> p ∉ fst <$> ((e, x) :: post) -> linked ev_next m e ((e, x) :: post) ->
  Forall2 stands_for (q0 :: qpost) ((e, x) :: post) -> stands_for a (p, ev) ->
  let ev' := ev <| ev_next := ev_next x |> in let x' := x <| ev_next := p |> in
  inserted m (<[e := x']> (<[p := ev']> m)) p ((e, x) :: post) (q0 :: a :: qpost) ((e, x') :: (p, ev') :: post) e.
Proof.
  intros Hp Hz Hn Hl Hm Ha ev' x'. pose proof (linked_NoDup _ _ _ _ Hl) as Hd.
  rewrite fmap_cons, not_elem_of_cons in Hn. destruct Hn as [Hpe Hpost]. rewrite fmap_cons in Hd.
  apply NoDup_cons in Hd as [He Hd]. destruct Hl as (_ & Hez & Hx & Hl).
  inversion Hm as [|? ? ? ? [Hm1 Hm2] Hm']; subst. destruct Ha as [Ha1 Ha2].
  constructor.
  - split; [done|]. split; [done|]. split; [apply lookup_insert_eq|]. split; [by destruct x|]. split; [done|].
    split; [rewrite lookup_insert_ne by done; apply lookup_insert_eq|].
    replace (ev_next ev') with (ev_next x) by (by destruct ev).
    by apply linked_insert; [apply linked_insert|].
  - constructor; [split; [by destruct x|by destruct x]|]. constructor; [split; [by destruct ev|by destruct ev]|done].
  - intros y. rewrite !fmap_cons, !elem_of_cons. simpl. tauto.
  - intros y Hy. rewrite fmap_cons, not_elem_of_cons. intros [Hye _]. simpl in *. by rewrite !lookup_insert_ne by done.
Qed.

Lemma insert_loop_spec fuel : forall k p ev e x post q0 qpost now a,
  (length post < fuel)%nat -> objs k !! p = Some ev -> ev_next ev = 0 -> p <> 0 -> p ∉ fst <$> ((e, x) :: post) ->
  timer_i (timed k) = u32 now -> stands_for a (p, ev) -> near now a -> Forall (near now) qpost ->
  Forall2 stands_for (q0 :: qpost) ((e, x) :: post) -> linked ev_next (objs k) e ((e, x) :: post) ->
  exits (insert_loop fuel p e) (fun _ k' => exists m' l', k' = set_objs m' k /\
    inserted (objs k) m' p ((e, x) :: post) (q0 :: q_insert a qpost) l' e) k.
Proof.
  induction fuel as [|fuel IH]; intros k p ev e x post q0 qpost now a Hf Hp Hnext Hz Hn Ht Ha Hna Hq Hm Hl; [lia|].
  cbn [insert_loop]. pose proof Hl as (_ & Hez & Hx & Hpost). apply exits_get_event. intros x0 Hx0.
  rewrite Hx in Hx0. injection Hx0 as <-.
  assert (Hpe : p <> e) by (rewrite fmap_cons, not_elem_of_cons in Hn; by destruct Hn).
  pose proof Hm as Hm0. apply Forall2_cons in Hm0 as [Hm1 Hm'].
  destruct post as [|[e2 x2] post]; simpl in Hpost.
  - rewrite Hpost. destruct qpost; [|by inversion Hm']. simpl. apply exits_last, (exits_upd_event _ _ x); [done|]. apply exits_ret.
    pose proof (inserted_after _ _ _ _ _ _ _ _ _ Hp Hz Hn Hl Hm Ha) as Hi. rewrite Hpost in Hi.
    assert (Hev : ev <| ev_next := 0 |> = ev) by (destruct ev; simpl in *; congruence).
    cbv zeta in Hi. rewrite Hev in Hi. rewrite (insert_id (objs k) p ev) in Hi by done. eexists _, _. split; [reflexivity|exact Hi].
  - destruct Hpost as (He2 & He2z & Hx2 & Hpost). rewrite (proj2 (Z.eqb_neq _ _)) by congruence. cbn [negb].
    destruct qpost as [|b qpost']; [by inversion Hm'|].
    apply Forall2_cons in Hm' as [[Hb1 Hb2] Hm'']. apply Forall_cons in Hq as [Hq1 Hq'].
    apply (exits_until p ev _ _ _ now a); [done|done|apply Ha|done|].
    rewrite He2. apply (exits_until e2 x2 _ _ _ now b); [done..|].
    cbn [q_insert]. replace (fst a - now <? fst b - now) with (fst a <? fst b) by (repeat case_bool_decide; lia).
    destruct (Z.ltb_spec (fst a) (fst b)).
    + apply (exits_upd_event _ _ ev); [done|]. apply exits_last, (exits_upd_event _ _ x).
      { change (objs (set_objs ?m k)) with m. by rewrite lookup_insert_ne. }
      apply exits_ret. pose proof (inserted_after _ _ _ _ _ _ _ _ _ Hp Hz Hn Hl Hm Ha) as Hi. cbv zeta in Hi.
      rewrite He2 in Hi. eexists _, _. split; [|exact Hi]. by destruct k as [? ? ? ? ? ? ? ? ? ? ? ? ? ? [] ?].
    + assert (Hn2 : p ∉ fst <$> ((e2, x2) :: post)) by (rewrite fmap_cons, not_elem_of_cons in Hn; by destruct Hn).
      pose proof (linked_NoDup _ _ _ _ Hl) as Hd. rewrite fmap_cons in Hd. apply NoDup_cons in Hd as [He Hd].
      eapply exits_mono; [apply (IH k p ev e2 x2 post b qpost' now a); try done; [clear -Hf; simpl in Hf; lia|by constructor]|].
      intros _ k' (m' & l' & -> & [I1 I2 I3 I4]). exists m', ((e, x) :: l'). split; [done|]. constructor.
      * split; [done|]. split; [done|]. split; [by rewrite I4|]. by rewrite He2.
      * by constructor.
      * intros y. rewrite !fmap_cons, !elem_of_cons. intros [->|Hy]; [by right; left|].
        destruct (I3 y Hy) as [->|Hy']; [by left|]. right. right. by rewrite fmap_cons, elem_of_cons in Hy'.
      * intros y Hy. rewrite fmap_cons, not_elem_of_cons. intros [_ Hy']. by apply I4.
Qed.

(** ** The queue

    [pend] are the pending events in the order in which they were added, with their times on
    the clock [now], and [l] is the list in memory. *)
Record timers k (now : Z) (pend : list deadline) (q : list deadline) l : Prop := {
  tm_now : timer_i (timed k) = u32 now;
  tm_linked : linked ev_next (objs k) (first_event (timed k)) l;
  tm_match : Forall2 stands_for q l;
  tm_sorted : StronglySorted earlier q;
  tm_near : Forall (near now) q;
  tm_stable d : at_time d q = at_time d pend;
  tm_active : l <> [] -> events_active (timed k) = true }.

Lemma timers_insert k k' now pend q l a l' :
  timers k now pend q l -> near now a -> timer_i (timed k') = timer_i (timed k) ->
  linked ev_next (objs k') (first_event (timed k')) l' -> Forall2 stands_for (q_insert a q) l' ->
  events_active (timed k') = true -> timers k' now (pend ++ [a]) (q_insert a q) l'.
Proof.
  intros [T1 T2 T3 T4 T5 T6 T7] Hn Ht Hl Hm Ha. constructor; try done.
  - congruence.
  - by apply q_insert_sorted.
  - rewrite q_insert_perm. by constructor.
  - intros d. by rewrite q_insert_stable, T6, filter_app by done.
Qed.

(** The block of a new event is not one in use. *)
Definition fresh_event k : Prop := objs k !! fst (malloc (k_mem k) SIZEOF_EVENT) = None.

(** The uid of the task of an event; 0 for the kernel. *)
Definition uid_of k (taskid : Z) : option Z := if 0 <=? taskid then task_uid <$> zget (tasks k) taskid else Some 0.

Definition new_event k (a : deadline) (now delta callback msg taskid : Z) : Prop :=
  exists uid, a = (now + delta, (callback, msg, taskid, uid)) /\ uid_of k taskid = Some uid.

Lemma link_event_spec k now pend q l p ev a :
  timers k now pend q l -> events_active (timed k) = true -> objs k !! p = Some ev -> ev_next ev = 0 -> p <> 0 ->
  p ∉ fst <$> l -> stands_for a (p, ev) -> near now a ->
  exits (link_event p) (fun _ k' => exists l', timers k' now (pend ++ [a]) (q_insert a q) l') k.
Proof.
  intros Htm Hact Hp Hnext Hz Hn Ha Hnear. pose proof Htm as [T1 T2 T3 T4 T5 T6 T7].
  unfold link_event. apply exits_gets. destruct l as [|[e x] post].
  - rewrite T2. simpl. unfold set_first, upd_timed. exists [(p, ev)].
    apply (timers_insert k _ now pend q [] a); try done. inversion T3; subst. by constructor.
  - pose proof T2 as (He & Hez & Hx & Hpost). rewrite He in T2. rewrite He, (proj2 (Z.eqb_neq _ _)) by done.
    destruct q as [|q0 qpost]; [by inversion T3|]. apply Forall2_cons in T3 as [Hq0 Hqpost].
    apply Forall_cons in T5 as [Hn0 Hnq].
    assert (Hpe : p <> e) by (rewrite fmap_cons, not_elem_of_cons in Hn; by destruct Hn).
    apply (exits_until p ev _ _ _ now a); [done|done|apply Ha|done|].
    apply (exits_until e x _ _ _ now q0); [done|done|apply Hq0|done|].
    replace (fst a - now <? fst q0 - now) with (fst a <? fst q0) by (repeat case_bool_decide; lia).
    destruct (Z.ltb_spec (fst a) (fst q0)) as [Hlt|Hge].
    + apply (exits_upd_event _ _ ev); [done|]. exists ((p, ev <| ev_next := e |>) :: (e, x) :: post).
      apply (timers_insert k _ now pend (q0 :: qpost) ((e, x) :: post) a); try done.
      * split; [done|]. split; [done|]. split; [apply lookup_insert_eq|]. 
        replace (ev_next (ev <| ev_next := e |>)) with e by (by destruct ev).
        by apply linked_insert.
      * simpl. rewrite (proj2 (Z.ltb_lt _ _)) by done. constructor; [|by constructor].
        destruct Ha as [A1 A2]. split; [by destruct ev|by destruct ev].
    + apply exits_gets. eapply exits_mono.
      { apply (insert_loop_spec _ k p ev e x post q0 qpost now a); try done.
        - pose proof (linked_length _ _ _ _ T2) as Hlen. simpl in Hlen. lia.
        - by constructor. }
      intros _ k' (m' & l' & -> & [I1 I2 I3 I4]). exists l'.
      apply (timers_insert k _ now pend (q0 :: qpost) ((e, x) :: post) a); try done.
      * change (first_event (timed (set_objs m' k))) with (first_event (timed k)). by rewrite He.
      * simpl. by rewrite (proj2 (Z.ltb_ge _ _)) by done.
Qed.

Lemma events_add_spec k now pend q l delta callback msg taskid :
  timers k now pend q l -> fresh_event k -> 0 <= delta < 2 ^ 31 ->
  exits (events_add delta callback msg taskid) (fun _ k' =>
    if fst (malloc (k_mem k) SIZEOF_EVENT) =? 0 then timers k' now pend q l
    else exists a l', new_event k a now delta callback msg taskid /\ timers k' now (pend ++ [a]) (q_insert a q) l') k.
Proof.
  intros Htm Hfresh Hdelta. unfold fresh_event in Hfresh. unfold events_add, upd_timed. apply exits_modify.
  apply exits_alloc. intros p m Hpm. change (k_mem (k <| timed := _ |>)) with (k_mem k) in Hpm. rewrite Hpm in *. cbn [fst] in *.
  set (k1' := k <| timed := _ |> <| k_mem := m |>).
  destruct (p =? 0) eqn:Hp.
  { apply exits_ret. destruct Htm. by constructor. }
  apply Z.eqb_neq in Hp.
  apply (exits_bind _ _ (fun uid k2 => k2 = k1' /\ uid_of k taskid = Some uid)).
  { unfold uid_of. apply exits_if; intros Hid; rewrite Hid; [|by apply exits_ret].
    apply exits_get_task. intros t Hg. apply exits_ret. split; [done|]. change (tasks k1') with (tasks k) in Hg. by rewrite Hg. }
  intros uid k2 [-> Huid]. apply exits_gets.
  assert (Htm1 : timers k1' now pend q l) by (destruct Htm; by constructor).
  set (a := (now + delta, (callback, msg, taskid, uid))).
  set (ev := Event (u32 (timer_i (timed k1') + delta)) msg 0 callback taskid uid).
  assert (Hnp : p ∉ fst <$> l) by (by eapply linked_fresh; [apply (tm_linked _ _ _ _ _ Htm)|]).
  unfold put_event, upd_timed. apply exits_modify.
  eapply exits_mono; [apply (link_event_spec _ now pend q l p ev a); try done|].
  - destruct Htm1 as [T1 T2 T3 T4 T5 T6 T7]. constructor; try done. by apply linked_insert.
  - apply lookup_insert_eq.
  - split; [|done]. change (u32 (timer_i (timed k) + delta) = u32 (now + delta)).
    rewrite (tm_now _ _ _ _ _ Htm). unfold u32. by rewrite Zplus_mod_idemp_l.
  - unfold near. simpl. lia.
  - intros _ k' [l' Hl']. exists a, l'. split; [|done]. by exists uid.
Qed.

(** ** Taking an event *)

(** [a] is the oldest of the earliest events of [pend]; [rest] are the others. *)
Definition earliest (pend : list deadline) (a : deadline) (rest : list deadline) : Prop :=
  exists l1 l2 : list deadline, pend = l1 ++ a :: l2 /\ rest = l1 ++ l2 /\
    Forall (fun b => fst a < fst b) l1 /\ Forall (fun b => fst a <= fst b) l2.

Lemma pending_elem k now pend q l a : timers k now pend q l -> a ∈ pend -> a ∈ q.
Proof.
  intros Htm Ha. pose proof (tm_stable _ _ _ _ _ Htm (fst a)) as Hs.
  assert (Hin : a ∈ at_time (fst a) pend) by (by apply at_time_elem). rewrite <-Hs in Hin.
  by apply list_elem_of_filter in Hin as [_ Hin].
Qed.

Lemma head_earliest k now pend q l a :
  timers k now pend (a :: q) l -> exists rest, earliest pend a rest /\ forall d, at_time d q = at_time d rest.
Proof.
  intros Htm. pose proof (tm_sorted _ _ _ _ _ Htm) as Hs. apply StronglySorted_inv in Hs as [_ Hs].
  assert (Hall : forall b, b ∈ pend -> fst a <= fst b).
  { intros b Hb. eapply pending_elem in Hb; [|done]. apply elem_of_cons in Hb as [->|Hb]; [lia|].
    rewrite Forall_forall in Hs. by apply Hs. }
  destruct a as [d x]. destruct (at_time_head d x q pend (tm_stable _ _ _ _ _ Htm d)) as (l1 & l2 & -> & H1 & H2).
  exists (l1 ++ l2). split.
  - exists l1, l2. split; [done|]. split; [done|]. split; apply Forall_forall; intros b Hb.
    + assert (fst b <> d) by (intros E; pose proof (at_time_elem d b l1 Hb E) as Hin; rewrite H1 in Hin; by apply not_elem_of_nil in Hin).
      specialize (Hall b ltac:(set_solver)). simpl in *. lia.
    + apply (Hall b). set_solver.
  - intros d'. destruct (decide (d' = d)) as [->|Hne]; [by rewrite filter_app, H1, H2|].
    pose proof (tm_stable _ _ _ _ _ Htm d') as Ht. rewrite filter_cons, filter_app, filter_cons in Ht.
    rewrite !(decide_False (P := fst (d, x) = d')) in Ht by (simpl; congruence). by rewrite filter_app.
Qed.

Lemma take_due_spec k now pend q l :
  timers k now pend q l ->
  exits take_due (fun r k' => match r with
    | None => k' = k /\ Forall (fun a => now < fst a) pend
    | Some (p, e, _) => exists d rest q' l', earliest pend (d, payload_of e) rest /\ d <= now /\
        timers k' now rest q' l' /\ l = (p, e) :: l'
    end) k.
Proof.
  intros Htm. pose proof Htm as [T1 T2 T3 T4 T5 T6 T7]. unfold take_due. apply exits_gets. destruct l as [|[p e] l].
  - rewrite T2. simpl. apply exits_ret. split; [done|]. apply Forall_forall. intros a Ha.
    eapply pending_elem in Ha; [|done]. inversion T3; subst. by apply not_elem_of_nil in Ha.
  - pose proof T2 as (Hf & Hz & He & Hl). rewrite Hf, (proj2 (Z.eqb_neq _ _)) by done.
    destruct q as [|a q]; [by inversion T3|]. apply Forall2_cons in T3 as [[Ha1 Ha2] T3].
    pose proof T5 as Hn. apply Forall_cons in Hn as [Hna Hn].
    apply (exits_until p e _ _ _ now a); [done..|]. apply exits_if; intros Hd.
    + apply exits_get_event. intros e' He'. rewrite He in He'. injection He' as <-.
      apply (exits_bind _ _ (fun _ k' => k' = k)).
      { apply exits_if; intros _; [apply exits_get_task; intros t _; by apply exits_ret|by apply exits_ret]. }
      intros ended k' ->. unfold set_first, upd_timed. apply exits_modify, exits_ret.
      destruct (head_earliest _ _ _ _ _ _ Htm) as (rest & Hr & Hst). simpl in Ha2. destruct a as [d x]. simpl in Ha2. subst x.
      exists d, rest, q, l. split; [done|]. split; [simpl in Hd; lia|]. split; [|done].
      apply StronglySorted_inv in T4 as [T4 _]. constructor; try done. intros _. by apply T7.
    + apply exits_ret. split; [done|]. apply Forall_forall. intros b Hb. eapply pending_elem in Hb; [|done].
      apply StronglySorted_inv in T4 as [_ T4]. rewrite Forall_forall in T4.
      apply elem_of_cons in Hb as [->|Hb]; [lia|]. specialize (T4 _ Hb). simpl in T4. lia.
Qed.

(** Changes that leave the list alone. *)
Definition same_events k k' : Prop :=
  timer_i (timed k') = timer_i (timed k) /\ first_event (timed k') = first_event (timed k) /\
  objs k' = objs k /\ events_active (timed k') = events_active (timed k).

Lemma timers_same k k' now pend q l : same_events k k' -> timers k now pend q l -> timers k' now pend q l.
Proof. intros (H1 & H2 & H3 & H4) [T1 T2 T3 T4 T5 T6 T7]. constructor; rewrite ?H1, ?H2, ?H3, ?H4; done. Qed.

Lemma free_event_spec k now pend q l p :
  timers k now pend q l -> p ∉ fst <$> l -> exists k', free_event p k = Ret tt k' /\ timers k' now pend q l.
Proof.
  intros [T1 T2 T3 T4 T5 T6 T7] Hp. eexists. split; [reflexivity|]. constructor; try done. by apply linked_delete.
Qed.

(** ** Histories *)

Section history.
Context (tasks_init : registers_t -> K M registers_t)
  (task_reset_windows : Z -> K M unit) (wm_event_crash : Z -> Z -> Z -> K M unit)
  (kernel_callback : Z -> registers_t -> Z -> K M registers_t).
Context `{quiet_gui : !QuietGui tasks_init task_reset_windows wm_event_crash}.

#[local] Instance same_events_preorder : PreOrder same_events.
Proof.
  split; [done|]. intros k1 k2 k3 (H1 & H2 & H3 & H4) (G1 & G2 & G3 & G4). repeat split; congruence.
Qed.

(** The callbacks of the kernel do not touch the list; they neither add events nor check them. *)
Class CallbacksLeaveEvents : Prop :=
  callback_same f regs msg : keeps same_events (kernel_callback f regs msg).

Context `{callbacks_leave : !CallbacksLeaveEvents}.

Lemma quiet_events k k' : quiet k k' -> same_events k k'.
Proof. intros (_ & _ & _ & Ht & _). unfold same_events. by rewrite Ht. Qed.

Lemma event_fire_same regs e :
  keeps same_events (event_fire tasks_init task_reset_windows wm_event_crash kernel_callback regs e).
Proof.
  unfold event_fire. keeps; try apply callback_same.
  eapply keeps_mono; [apply quiet_events|by apply task_call_subroutine_quiet].
Qed.

(** What follows the taking of an event: it fires, unless its task ended, and is freed. *)
Definition fire_turn (regs : registers_t) (p : Z) (e : event_t) (ended : bool) : K M registers_t :=
  regs ← (if ended then mret regs
          else event_fire tasks_init task_reset_windows wm_event_crash kernel_callback regs e);
  _ ← free_event p; mret regs.

Lemma fire_turn_spec k now pend q l regs p e ended :
  timers k now pend q l -> p ∉ fst <$> l -> wp (fire_turn regs p e ended) (fun _ k' => timers k' now pend q l) k.
Proof.
  intros Htm Hp. unfold fire_turn. apply (wp_keeps same_events).
  - destruct ended; [keeps|apply event_fire_same].
  - intros regs' k' Hs. destruct (free_event_spec k' now pend q l p) as (k'' & Hk & Htm'); [by eapply timers_same|done|].
    unfold wp, mbind, K_mbind. by rewrite Hk.
  - intros k' Hs. by eapply timers_same.
Qed.

(** What happens to the events: one is added, the clock ticks, the check takes an event or
    finds none due; everything else leaves them alone. *)
Inductive timer_op :=
  | Added (delta : Z) (x : payload)
  | Ticked
  | Taken (x : option payload)
  | Elsewhere.

Inductive timer_step : kern M -> timer_op -> kern M -> Prop :=
  | ts_add k k' delta callback msg taskid uid :
      fresh_event k -> 0 <= delta < 2 ^ 31 -> fst (malloc (k_mem k) SIZEOF_EVENT) <> 0 ->
      events_add delta callback msg taskid k = Ret tt k' -> uid_of k taskid = Some uid ->
      timer_step k (Added delta (callback, msg, taskid, uid)) k'
  | ts_no_memory k k' delta callback msg taskid :
      fresh_event k -> 0 <= delta < 2 ^ 31 -> fst (malloc (k_mem k) SIZEOF_EVENT) = 0 ->
      events_add delta callback msg taskid k = Ret tt k' -> timer_step k Elsewhere k'
  | ts_tick k :
      (* no event has been due for half a round of the counter *)
      (forall l, linked ev_next (objs k) (first_event (timed k)) l ->
         Forall (fun pe => s32 (u32 (ev_time (snd pe) - timer_i (timed k))) <> - 2 ^ 31) l) ->
      timer_step k Ticked (k <| timed := (timed k) <| timer_i := u32 (timer_i (timed k) + 1) |> |>)
  | ts_take k k1 k' regs p e ended' o :
      take_due k = Ret (Some (p, e, ended')) k1 -> ended (fire_turn regs p e ended' k1) = Some (o, k') ->
      timer_step k (Taken (Some (payload_of e))) k'
  | ts_none k k' : take_due k = Ret None k' -> timer_step k (Taken None) k'
  | ts_elsewhere k k' : same_events k k' -> timer_step k Elsewhere k'.

(** The specification: a clock that does not wrap around, and the pending events in the
    order in which they were added. *)
Inductive queue_step : Z * list deadline -> timer_op -> Z * list deadline -> Prop :=
  | qs_add now pend delta x : queue_step (now, pend) (Added delta x) (now, pend ++ [(now + delta, x)])
  | qs_tick now pend : queue_step (now, pend) Ticked (now + 1, pend)
  | qs_take now pend d x rest :
      earliest pend (d, x) rest -> d <= now -> queue_step (now, pend) (Taken (Some x)) (now, rest)
  | qs_none now pend : Forall (fun a => now < fst a) pend -> queue_step (now, pend) (Taken None) (now, pend)
  | qs_elsewhere now pend : queue_step (now, pend) Elsewhere (now, pend).

Inductive trace {S} (step : S -> timer_op -> S -> Prop) (s : S) : list timer_op -> S -> Prop :=
  | trace_nil : trace step s [] s
  | trace_snoc ops s' op s'' : trace step s ops s' -> step s' op s'' -> trace step s (ops ++ [op]) s''.

Lemma timer_tick_ok k now pend q l :
  timers k now pend q l ->
  Forall (fun pe => s32 (u32 (ev_time (snd pe) - timer_i (timed k))) <> - 2 ^ 31) l ->
  timers (k <| timed := (timed k) <| timer_i := u32 (timer_i (timed k) + 1) |> |>) (now + 1) pend q l.
Proof.
  intros [T1 T2 T3 T4 T5 T6 T7] Hl. constructor; try done.
  - change (u32 (timer_i (timed k) + 1) = u32 (now + 1)). rewrite T1. unfold u32. by rewrite Zplus_mod_idemp_l.
  - clear T2 T4 T6 T7. revert T5 Hl. induction T3 as [|a pe q l [Ha _] _ IH]; intros Hn Hl; [constructor|].
    apply Forall_cons in Hn as [Hn1 Hn]. apply Forall_cons in Hl as [Hl1 Hl]. constructor; [|by apply IH].
    rewrite Ha, T1, until_eq in Hl1 by done. unfold near in *. lia.
Qed.

Lemma timer_step_ok k now pend q l op k' :
  timers k now pend q l -> timer_step k op k' ->
  exists now' pend' q' l', queue_step (now, pend) op (now', pend') /\ timers k' now' pend' q' l'.
Proof.
  intros Htm Hs. destruct Hs as [k k' delta cb msg task uid Hf Hd Hp Hadd Hu|k k' delta cb msg task Hf Hd Hp Hadd|k Hl
    |k k1 k' regs p e en o Ht Hfire|k k' Ht|k k' Hs].
  - pose proof (exits_Ret _ _ _ _ _ (events_add_spec k now pend q l delta cb msg task Htm Hf Hd) Hadd) as H.
    rewrite (proj2 (Z.eqb_neq _ _) Hp) in H. destruct H as (a & l' & (uid' & -> & Hu') & Htm').
    assert (uid' = uid) as -> by congruence. eexists now, _, _, l'. split; [apply qs_add|done].
  - pose proof (exits_Ret _ _ _ _ _ (events_add_spec k now pend q l delta cb msg task Htm Hf Hd) Hadd) as H.
    rewrite (proj2 (Z.eqb_eq _ _) Hp) in H. exists now, pend, q, l. split; [apply qs_elsewhere|done].
  - exists (now + 1), pend, q, l. split; [apply qs_tick|]. apply timer_tick_ok; [done|]. apply Hl, Htm.
  - pose proof (exits_Ret _ _ _ _ _ (take_due_spec k now pend q l Htm) Ht) as (d & rest & q' & l' & He & Hd & Htm' & ->).
    exists now, rest, q', l'. split; [by eapply qs_take|].
    pose proof (linked_NoDup _ _ _ _ (tm_linked _ _ _ _ _ Htm)) as Hnd. rewrite fmap_cons in Hnd.
    apply NoDup_cons in Hnd as [Hnd _]. eapply (wp_ended _ _ _ _ _ (fire_turn_spec _ _ _ _ _ _ _ _ _ Htm' Hnd) Hfire).
  - destruct (exits_Ret _ _ _ _ _ (take_due_spec k now pend q l Htm) Ht) as [-> Hl].
    exists now, pend, q, l. split; [by apply qs_none|done].
  - exists now, pend, q, l. split; [apply qs_elsewhere|by eapply timers_same].
Qed.

(** C10: the timed events are a queue by time: every history of additions, ticks and checks,
    with the 32-bit counter wherever it stands, is one of a clock that does not wrap around
    and of a list from which each check takes the oldest of the earliest events, only when
    its time has come, and finds nothing only when nothing is due. *)
Theorem timers_refine_queue k k' now ops :
  first_event (timed k) = 0 -> timer_i (timed k) = u32 now -> trace timer_step k ops k' ->
  exists now' pend', trace queue_step (now, []) ops (now', pend') /\ timer_i (timed k') = u32 now'.
Proof.
  intros Hf Ht Hrun.
  enough (exists now' pend' q l, trace queue_step (now, []) ops (now', pend') /\ timers k' now' pend' q l) as
    (now' & pend' & q & l & H1 & H2) by (exists now', pend'; split; [done|apply H2]).
  induction Hrun as [|ops k1 op k2 _ (now1 & pend1 & q1 & l1 & IH1 & IH2) Hstep].
  - exists now, [], [], []. split; [constructor|]. constructor; try done; constructor.
  - destruct (timer_step_ok _ _ _ _ _ _ _ IH2 Hstep) as (now2 & pend2 & q2 & l2 & Hq & Htm).
    exists now2, pend2, q2, l2. split; [by econstructor|done].
Qed.

Abbreviation due_after now := (filter (fun a : deadline => now < fst a)).

Lemma earliest_filter now (pend rest : list deadline) a :
  earliest pend a rest -> fst a <= now -> due_after now rest = due_after now pend.
Proof.
  intros (l1 & l2 & -> & -> & _) Ha. rewrite !filter_app, filter_cons, decide_False by lia. done.
Qed.

Lemma later_filter now (pend : list deadline) : Forall (fun a => now < fst a) pend -> due_after now pend = pend.
Proof. induction 1 as [|a pend Ha _ IH]; [done|]. by rewrite filter_cons, decide_True, IH by done. Qed.

(** What a check leaves, however it ends. *)
Definition checked (now : Z) (pend : list deadline) (r : res M registers_t) : Prop :=
  match r with
  | Ret _ k' => exists q l, timers k' now (due_after now pend) q l
  | Away k' => exists pend' q l, timers k' now pend' q l /\ due_after now pend' = due_after now pend
  | Hang => exists regs e k1,
      event_fire tasks_init task_reset_windows wm_event_crash kernel_callback regs e k1 = Hang
  | _ => True
  end.

Lemma checked_eq now (pend pend' : list deadline) r :
  due_after now pend = due_after now pend' -> checked now pend r -> checked now pend' r.
Proof. intros E. unfold checked. by rewrite E. Qed.

Lemma check_loop_spec fuel : forall k now pend q l regs,
  timers k now pend q l -> (length l < fuel)%nat ->
  checked now pend (check_loop tasks_init task_reset_windows wm_event_crash kernel_callback fuel regs k).
Proof.
  induction fuel as [|fuel IH]; intros k now pend q l regs Htm Hf; [lia|]. cbn [check_loop].
  pose proof (take_due_spec k now pend q l Htm) as Hdue. unfold exits in Hdue.
  unfold mbind at 1, K_mbind at 1. destruct (take_due k) as [[[[p e] en]|] k1| | | |]; try done.
  - destruct Hdue as (d & rest & q' & l' & He & Hd & Htm' & ->).
    apply (checked_eq _ _ _ _ (earliest_filter _ _ _ _ He Hd)).
    pose proof (linked_NoDup _ _ _ _ (tm_linked _ _ _ _ _ Htm)) as Hnd. rewrite fmap_cons in Hnd.
    apply NoDup_cons in Hnd as [Hnd _]. unfold mbind at 1, K_mbind at 1.
    assert (Hk : keeps same_events (if en then mret regs
      else event_fire tasks_init task_reset_windows wm_event_crash kernel_callback regs e))
      by (destruct en; [keeps|apply event_fire_same]). specialize (Hk k1).
    destruct ((if en then mret regs else event_fire tasks_init task_reset_windows wm_event_crash kernel_callback regs e) k1)
      as [regs' k2|k2| | |] eqn:Hfire; try done.
    + destruct (free_event_spec k2 now rest q' l' p) as (k3 & Hk3 & Htm3); [by eapply timers_same|done|].
      unfold mbind, K_mbind. rewrite Hk3. apply (IH k3 now rest q' l'); [done|simpl in Hf; lia].
    + exists rest, q', l'. split; [by eapply timers_same|done].
    + simpl. destruct en; [done|]. by exists regs, e, k1.
  - destruct Hdue as [-> Hl]. exists q, l. by rewrite later_filter.
Qed.

(** C31: a check of the events ends, unless a callback runs on: it takes every event whose time
    has come and leaves exactly those that are later, in order; also when a callback leaves
    for another task, what is later is still pending. *)
Theorem events_check_ends k now pend q l regs :
  timers k now pend q l ->
  checked now pend (events_check tasks_init task_reset_windows wm_event_crash kernel_callback regs k).
Proof.
  intros Htm. unfold events_check. rewrite bind_gets. destruct (events_active (timed k)) eqn:Ha.
  - rewrite bind_gets. eapply check_loop_spec; [done|]. pose proof (linked_length _ _ _ _ (tm_linked _ _ _ _ _ Htm)). lia.
  - assert (l = []) as -> by (destruct l; [done|]; by rewrite (tm_active _ _ _ _ _ Htm) in Ha).
    assert (pend = []) as ->.
    { destruct pend as [|a pend]; [done|]. assert (Hin : a ∈ q) by (eapply pending_elem; [done|by left]).
      pose proof (tm_match _ _ _ _ _ Htm) as Hm. inversion Hm; subst. by apply not_elem_of_nil in Hin. }
    by exists q, [].
Qed.

End history.

End spec.

(** The end of a sleep leaves the list of events alone. *)
Lemma sleep_callback_same {M} `{!Space M} regs msg : keeps same_events (api_sleep_callback (M := M) regs msg).
Proof.
  unfold api_sleep_callback, dealloc, upd_timed.
  assert (PreOrder (same_events (M := M))) by (apply same_events_preorder).
  keeps; try (apply keeps_modify; by intros []).
  - intros k. unfold deref. by destruct (sleep_msgs (timed k) !! msg).
  - eapply keeps_mono; [apply quiet_events|apply task_resume_quiet].
  - eapply keeps_mono; [apply quiet_events|apply switch_to_task_quiet].
Qed.

#[export] Instance sleep_callbacks {M} `{!Space M} : CallbacksLeaveEvents (fun _ => api_sleep_callback (M := M)).
Proof. intros f regs msg. apply sleep_callback_same. Qed.

(** ** A counter that wraps around *)

Definition no_callback : Z -> registers_t -> Z -> K flat registers_t := fun _ regs _ => mret regs.

#[export] Instance no_callback_leaves : CallbacksLeaveEvents no_callback.
Proof. intros f regs msg. apply (keeps_ret (M := flat)). apply same_events_preorder. Qed.

Definition state_after {A} (r : res flat A) : kern flat :=
  match r with Ret _ k | Away k => k | _ => demo_kern 1 end.

(** One tick before the counter wraps, two events are added, for two ticks and for one. *)
Definition clock_0 : kern flat :=
  (demo_kern 1) <| timed := (timed (demo_kern 1)) <| timer_i := 2 ^ 32 - 1 |> |>.
Definition clock_1 := state_after (events_add 2 0x9000 11 (-1) clock_0).
Definition clock_2 := state_after (events_add 1 0x9000 22 (-1) clock_1).
Definition tick (k : kern flat) : kern flat := k <| timed := (timed k) <| timer_i := u32 (timer_i (timed k) + 1) |> |>.
Definition clock_3 := tick clock_2.
Definition turn (k : kern flat) : kern flat :=
  match take_due k with
  | Ret (Some (p, e, en)) k1 => state_after (fire_turn no_init no_reset no_crash no_callback (demo_regs 1) p e en k1)
  | _ => demo_kern 1
  end.
Definition clock_4 := turn clock_3.

Definition clock_ops : list timer_op :=
  [Added 2 (0x9000, 11, -1, 0); Added 1 (0x9000, 22, -1, 0); Ticked; Taken (Some (0x9000, 22, -1, 0)); Taken None].

Lemma clock_trace : trace (timer_step no_init no_reset no_crash no_callback) clock_0 clock_ops clock_4.
Proof.
  set (step := timer_step no_init no_reset no_crash no_callback).
  apply (trace_snoc step clock_0 [_; _; _; _] clock_4); [apply (trace_snoc step clock_0 [_; _; _] clock_3);
    [apply (trace_snoc step clock_0 [_; _] clock_2); [apply (trace_snoc step clock_0 [_] clock_1);
    [apply (trace_snoc step clock_0 [] clock_0); [constructor|]|]|]|]|].
  - apply (ts_add _ _ _ _ clock_0 clock_1); [vm_compute; reflexivity|lia|vm_compute; congruence|vm_compute; reflexivity..].
  - apply (ts_add _ _ _ _ clock_1 clock_2); [vm_compute; reflexivity|lia|vm_compute; congruence|vm_compute; reflexivity..].
  - apply ts_tick. intros l Hl.
    assert (Hk : exists p1 p2 e1 e2, linked ev_next (event_objs (timed clock_2)) (first_event (timed clock_2)) [(p1, e1); (p2, e2)] /\
      Forall (fun pe => s32 (u32 (ev_time (snd pe) - timer_i (timed clock_2))) <> - 2 ^ 31) [(p1, e1); (p2, e2)]).
    { eexists _, _, _, _. split; [repeat (split; [vm_compute; first [reflexivity|congruence]|]); vm_compute; reflexivity|].
      repeat constructor; vm_compute; congruence. }
    destruct Hk as (p1 & p2 & e1 & e2 & Hl' & Hall). by rewrite (linked_unique _ _ _ _ _ Hl Hl').
  - assert (He : exists e, event_objs (timed clock_3) !! (0x800000 + 24) = Some e /\ payload_of e = (0x9000, 22, -1, 0))
      by (eexists; split; vm_compute; reflexivity).
    destruct He as (e & He & <-). eapply (ts_take _ _ _ _ clock_3 _ clock_4 (demo_regs 1) (0x800000 + 24) e).
    + vm_compute in He. injection He as <-. vm_compute. reflexivity.
    + vm_compute in He. injection He as <-. vm_compute. reflexivity.
  - apply ts_none. vm_compute. reflexivity.
Qed.

Lemma timers_refine_queue_witness :
  exists now pend, trace queue_step (2 ^ 32 - 1, []) clock_ops (now, pend) /\ timer_i (timed clock_4) = u32 now.
Proof.
  apply (timers_refine_queue no_init no_reset no_crash no_callback clock_0 clock_4 (2 ^ 32 - 1) clock_ops).
  - reflexivity.
  - reflexivity.
  - apply clock_trace.
Defined.

(** At that tick the counter is 0: the second event is due, the first is not. *)
Definition clock_pend : list deadline := [(2 ^ 32 + 1, (0x9000, 11, -1, 0)); (2 ^ 32, (0x9000, 22, -1, 0))].
Definition clock_list : list (Z * event_t) :=
  (fun p => (p, default (Event 0 0 0 0 0 0) (event_objs (timed clock_3) !! p))) <$> [0x800000 + 24; 0x800000].

Lemma clock_timers : timers clock_3 (2 ^ 32) clock_pend (reverse clock_pend) clock_list.
Proof.
  constructor.
  - vm_compute. reflexivity.
  - repeat (split; [vm_compute; first [reflexivity|congruence]|]). vm_compute. reflexivity.
  - repeat constructor; vm_compute; reflexivity.
  - repeat constructor; vm_compute; congruence.
  - repeat constructor; vm_compute; congruence.
  - intros d. unfold clock_pend. cbn [reverse rev_append]. rewrite !filter_cons, filter_nil. simpl. repeat case_decide; try done. lia.
  - intros _. vm_compute. reflexivity.
Qed.

Lemma events_check_ends_witness :
  checked no_init no_reset no_crash no_callback (2 ^ 32) clock_pend
    (events_check no_init no_reset no_crash no_callback (demo_regs 1) clock_3).
Proof.
  apply (events_check_ends no_init no_reset no_crash no_callback clock_3 (2 ^ 32) clock_pend (reverse clock_pend) clock_list).
  apply clock_timers.
Defined.
