(* ===== verification/Futex.v ===== *)
(** * Futexes (futex.c, api.c)

    A hash table of waiting tasks. A futex is private to a process, at a virtual address, or
    lies in shared memory, at a physical address; [shared_region] is the lookup of the region
    of a process that holds an address ([process_find_vm]): the block of its shared object
    and where it is mapped. *)

From S2P Require Import LinkedList Kern Sched Events Hoare Quiet Msg MsgCall.

Local Open Scope Z_scope.

Definition SIZEOF_FUTEX_WAITER : Z := 20.
Definition FUTEX_BUCKETS : Z := 256.
Definition FUTEX_WAIT_NOBLOCK : Z := 0.
Definition FUTEX_WAIT_BLOCK : Z := -1.
Definition FUTEX_WAIT_FAIL : Z := -2.

Definition private_hash (k : Z) : Z := Z.shiftr k 2 mod FUTEX_BUCKETS.

Section futex.
Context {M : Type} `{!Space M}.
Context (tasks_init : registers_t -> K M registers_t) (shared_region : kern M -> Z -> Z -> option (Z * Z)).
Implicit Types (k : kern M).

Definition upd_futexes (f : futexes_t -> futexes_t) : K M unit := modify (fun k => k <| futexes := f (futexes k) |>).

Definition get_waiter (p : Z) : K M futex_waiter_t := fun k => deref (futex_waiters (futexes k) !! p) k.
Definition put_waiter (p : Z) (w : futex_waiter_t) : K M unit :=
  upd_futexes (fun x => x <| futex_waiters := <[p := w]> (futex_waiters x) |>).
Definition get_bucket (b : Z) : K M Z := fun k => deref (zget (buckets (futexes k)) b) k.
Definition set_bucket (b p : Z) : K M unit := upd_futexes (fun x => x <| buckets := zset (buckets x) b p |>).
Definition free_waiter (p : Z) : K M unit :=
  _ ← dealloc p SIZEOF_FUTEX_WAITER; upd_futexes (fun x => x <| futex_waiters := delete p (futex_waiters x) |>).

(** The uid of the process, 0 for shared memory, and the address. *)
Definition futex_key (process vaddr : Z) : K M (Z * Z) :=
  region ← gets (fun k => shared_region k process vaddr);
  match region with
  | Some (paddr, start) => mret (0, u32 (paddr + (vaddr - start)))
  | None => pr ← get_process process; mret (p_uid pr, vaddr)
  end.

Definition futex_wait (futex_addr expected : Z) : K M Z :=
  task_id ← get_current_task;
  val ← task_copy_from task_id futex_addr 4;
  match val with
  | Some l =>
      if negb (zlen l =? 4) then mret FUTEX_WAIT_FAIL
      else if negb (le32 l 0 =? expected) then mret FUTEX_WAIT_NOBLOCK
      else
        task ← get_task task_id;
        waiter ← alloc SIZEOF_FUTEX_WAITER;
        if waiter =? 0 then mret FUTEX_WAIT_FAIL
        else
          key ← futex_key (t_process task) futex_addr;
          let hash := private_hash (snd key) in
          head ← get_bucket hash;
          _ ← put_waiter waiter (FutexWaiter task_id (task_uid task) (fst key) (snd key) head);
          _ ← set_bucket hash waiter;
          mret FUTEX_WAIT_BLOCK
  | None => mret FUTEX_WAIT_FAIL
  end.

(** The waiter [waiter] of the bucket is taken out, after [prev]. *)
Definition unlink (hash prev waiter : Z) (w : futex_waiter_t) : K M unit :=
  _ ← (if negb (prev =? 0) then p ← get_waiter prev; put_waiter prev (p <| fw_next := fw_next w |>)
       else set_bucket hash (fw_next w));
  free_waiter waiter.

(** The loop of [futex_wake] up to the task to wake. Waiters whose task has ended are taken
    out on the way. *)
Fixpoint take_loop (fuel : nat) (hash addr pid prev waiter : Z) : K M (option Z) :=
  match fuel with
  | O => fun _ => Hang
  | S fuel =>
      if waiter =? 0 then mret None
      else
        w ← get_waiter waiter;
        t ← get_task (fw_task_id w);
        let stale := negb (enabled t) || negb (task_uid t =? fw_task_uid w) in
        let matches := (fw_key_addr w =? addr) && (fw_process_uid w =? pid) in
        if negb stale && negb matches then take_loop fuel hash addr pid waiter (fw_next w)
        else
          _ ← unlink hash prev waiter w;
          if negb stale && matches then mret (Some (fw_task_id w))
          else take_loop fuel hash addr pid prev (fw_next w)
  end.

Definition take_waiter (key : Z * Z) : K M (option Z) :=
  let hash := private_hash (snd key) in
  head ← get_bucket hash;
  n ← gets (fun k => S (size (futex_waiters (futexes k))));
  take_loop n hash (snd key) (fst key) 0 head.

Definition futex_wake (regs : registers_t) (futex_addr : Z) : K M registers_t :=
  cur ← get_current_task;
  task ← get_task cur;
  key ← futex_key (t_process task) futex_addr;
  woken ← take_waiter key;
  match woken with
  | None => mret regs
  | Some i =>
      _ ← task_resume i;
      t ← get_task i;
      r ← switch_to_task (task_id t) regs;
      mret (snd r)
  end.

(** ** The system calls *)

Definition api_futex_wait (regs : registers_t) : K M registers_t :=
  result ← futex_wait (ebx regs) (ecx regs);
  if result =? FUTEX_WAIT_BLOCK then
    cur ← get_current_task;
    _ ← task_pause cur PAUSE_FUTEX;
    switch_task tasks_init (regs <| ebx := 0 |>) false
  else if result =? FUTEX_WAIT_FAIL then mret (regs <| ebx := u32 (-1) |>)
  else mret (regs <| ebx := 1 |>).

Definition api_futex_wake (regs : registers_t) : K M registers_t := futex_wake regs (ebx regs).

End futex.
