(* ===== verification/FutexSpec.v ===== *)
(** * Futexes wake the tasks that wait on them (futex.c)

    The hash table behaves as one stack of waiting tasks for each futex: a wake-up takes the
    task that came last among those still alive, and no other futex, whatever bucket it
    falls in, loses a waiter. *)

From stdpp Require Import functions.
From S2P Require Import LinkedList Kern Sched Events Hoare Quiet Msg MsgCall Futex.

Local Open Scope Z_scope.

(** A futex, and a task that waits: its index and its uid. *)
Abbreviation futex_id := (Z * Z)%type.
Definition wait_key (w : futex_waiter_t) : futex_id := (fw_process_uid w, fw_key_addr w).
Definition wait_task (w : futex_waiter_t) : Z * Z := (fw_task_id w, fw_task_uid w).

Section spec.
Context {M : Type} `{!Space M}.
Implicit Types (k : kern M) (l : list (Z * futex_waiter_t)) (W : Z -> list (Z * futex_waiter_t)).

Abbreviation waiters k := (futex_waiters (futexes k)).

(** The task of a waiter has not ended. *)
Definition live k (w : futex_waiter_t) : bool :=
  match zget (tasks k) (fw_task_id w) with Some t => enabled t && (task_uid t =? fw_task_uid w) | None => false end.

Definition waits k (key : futex_id) (w : futex_waiter_t) : bool := bool_decide (wait_key w = key) && live k w.

(** The tasks that wait for [key] among the waiters of a bucket, the last to come first. *)
Definition waiting k (key : futex_id) l : list (Z * Z) :=
  wait_task <$> filter (fun w => waits k key w = true) (snd <$> l).

Definition in_bucket (b : Z) l : Prop := Forall (fun pw => private_hash (fw_key_addr (snd pw)) = b) l.

Lemma exits_get_bucket {B} b (f : Z -> K M B) Q k :
  (forall h, zget (buckets (futexes k)) b = Some h -> exits (f h) Q k) -> exits (get_bucket b ≫= f) Q k.
Proof. intros Hf. unfold exits, mbind, K_mbind, get_bucket, deref. destruct (zget _ b); [by apply Hf|done]. Qed.

(** ** Taking a waiter out of a bucket *)

Definition with_futexes (x : futexes_t) k : kern M := k <| futexes := x |>.

Lemma exits_get_waiter {B} p (f : futex_waiter_t -> K M B) Q k :
  (forall w, waiters k !! p = Some w -> exits (f w) Q k) -> exits (get_waiter p ≫= f) Q k.
Proof. intros Hf. unfold exits, mbind, K_mbind, get_waiter, deref. destruct (waiters k !! p); [by apply Hf|done]. Qed.

Definition skip_to (y : futex_waiter_t) (n : Z) : futex_waiter_t := y <| fw_next := n |>.

(** The address that the loop remembers: the last of the waiters it passed. *)
Definition prev_of l : Z := match last l with Some (p, _) => p | None => 0 end.

(** The last waiter of [l] is linked to [n]. *)
Fixpoint relink l (n : Z) : list (Z * futex_waiter_t) :=
  match l with
  | [] => []
  | [(r, y)] => [(r, skip_to y n)]
  | a :: l => a :: relink l n
  end.

Lemma relink_snoc l r y n : relink (l ++ [(r, y)]) n = l ++ [(r, skip_to y n)].
Proof. induction l as [|a l IH]; [done|]. simpl. rewrite IH. by destruct a, l. Qed.

Lemma prev_of_snoc l r y : prev_of (l ++ [(r, y)]) = r.
Proof. unfold prev_of. by rewrite last_snoc. Qed.

Lemma waiting_app k key l1 l2 : waiting k key (l1 ++ l2) = waiting k key l1 ++ waiting k key l2.
Proof. unfold waiting. by rewrite fmap_app, filter_app, fmap_app. Qed.

Lemma waiting_cons k key q x l :
  waiting k key ((q, x) :: l) = if waits k key x then wait_task x :: waiting k key l else waiting k key l.
Proof. unfold waiting. rewrite fmap_cons, filter_cons. simpl. by destruct (waits k key x). Qed.

Lemma waiting_relink k key l n : waiting k key (relink l n) = waiting k key l.
Proof.
  destruct l as [|[r y] l _] using rev_ind; [done|]. by rewrite relink_snoc, !waiting_app, !waiting_cons; destruct y.
Qed.

Lemma in_bucket_relink b l n : in_bucket b l -> in_bucket b (relink l n).
Proof.
  destruct l as [|[r y] l _] using rev_ind; [done|]. rewrite relink_snoc. unfold in_bucket. rewrite !Forall_app, !Forall_singleton.
  by destruct y.
Qed.

Lemma relink_addrs l n : fst <$> relink l n = fst <$> l.
Proof. destruct l as [|[r y] l _] using rev_ind; [done|]. by rewrite relink_snoc, !fmap_app. Qed.

(** [k'] is [k] with another bucket [hash], whose chain is [l'], at addresses of [l]. *)
Record rebucket k k' (hash : Z) l l' : Prop := {
  rb_world : exists m, k' = k <| k_mem := m |> <| futexes := futexes k' |>;
  rb_buckets : exists h', buckets (futexes k') = zset (buckets (futexes k)) hash h' /\ linked fw_next (waiters k') h' l';
  rb_addrs r : r ∈ fst <$> l' -> r ∈ fst <$> l;
  rb_others r : r ∉ fst <$> l -> waiters k' !! r = waiters k !! r }.

Lemma rebucket_trans k1 k2 k3 hash l1 l2 l3 :
  rebucket k1 k2 hash l1 l2 -> rebucket k2 k3 hash l2 l3 -> rebucket k1 k3 hash l1 l3.
Proof.
  intros [(m & A1) (h & A2 & _) A3 A4] [(m' & B1) (h' & B2 & B2') B3 B4]. constructor.
  - exists m'. rewrite B1, A1. by destruct k1.
  - exists h'. split; [|done]. rewrite B2, A2. apply zget_ext. intros i Hi. rewrite !zget_zset, zlen_zset.
    repeat case_decide; done || tauto.
  - auto.
  - intros r Hr. rewrite B4, A4; [done|done|auto].
Qed.

Lemma unlink_spec k hash pre q x rest h :
  zget (buckets (futexes k)) hash = Some h -> linked fw_next (waiters k) h (pre ++ (q, x) :: rest) ->
  exits (unlink hash (prev_of pre) q x)
    (fun _ k' => rebucket k k' hash (pre ++ (q, x) :: rest) (relink pre (fw_next x) ++ rest)) k.
Proof.
  intros Hh Hl. unfold unlink.
  assert (Hq : forall r, r ∈ fst <$> (relink pre (fw_next x) ++ rest) -> r ∈ fst <$> (pre ++ (q, x) :: rest)).
  { intros r. rewrite !fmap_app, relink_addrs, fmap_cons. set_solver. }
  destruct pre as [|[r y] pre _] using rev_ind.
  - change (prev_of []) with 0. simpl negb. cbv iota. unfold set_bucket, free_waiter, dealloc, upd_futexes.
    apply exits_modify, exits_modify. destruct Hl as (-> & Hz & Hx & Hl). constructor; [|exists (fw_next x)|done|].
    + eexists. destruct k; reflexivity.
    + split; [done|]. simpl. apply linked_delete; [done|].
      pose proof (linked_NoDup fw_next (waiters k) q ((q, x) :: rest)) as Hd. rewrite fmap_cons in Hd.
      by apply NoDup_cons in Hd as [Hd _].
    + intros r Hr. simpl in *. apply lookup_delete_ne. set_solver.
  - rewrite prev_of_snoc, relink_snoc in *. rewrite <-!app_assoc in *. simpl app in *.
    pose proof (linked_lookup _ _ _ _ r y Hl ltac:(set_solver)) as [Hy Hr].
    rewrite (proj2 (Z.eqb_neq _ _)) by done. simpl negb. cbv iota. apply exits_seq, exits_get_waiter.
    intros y' Hy'. rewrite Hy in Hy'. injection Hy' as <-. unfold put_waiter, free_waiter, dealloc, upd_futexes.
    apply exits_modify, exits_modify. constructor; [|exists h|done|].
    + eexists. destruct k; reflexivity.
    + split; [symmetry; by apply zset_id|]. apply (linked_unlink fw_next skip_to); [by intros []|done].
    + intros r' Hr'. rewrite fmap_app, !fmap_cons in Hr'. simpl. rewrite lookup_delete_ne, lookup_insert_ne; [done|set_solver..].
Qed.

(** What taking a waiter did: [r] is the task taken from the futex [key], if any. *)
Definition taken k (key : futex_id) l l' (r : option Z) : Prop :=
  match r with
  | Some i => exists uid, waiting k key l = (i, uid) :: waiting k key l'
  | None => waiting k key l = [] /\ waiting k key l' = []
  end /\
  forall key', key' <> key -> waiting k key' l' = waiting k key' l.

Lemma live_world k k' : (exists m, k' = k <| k_mem := m |> <| futexes := futexes k' |>) -> tasks k' = tasks k.
Proof. intros [m ->]. by destruct k. Qed.

Lemma waiting_world k k' key l : tasks k' = tasks k -> waiting k' key l = waiting k key l.
Proof. intros Ht. unfold waiting, waits, live. by rewrite Ht. Qed.

Lemma taken_world k k' key l l' r : tasks k' = tasks k -> taken k' key l l' r -> taken k key l l' r.
Proof.
  intros Ht [H1 H2]. split.
  - destruct r; [destruct H1 as [uid H1]; exists uid|]; by rewrite !(waiting_world k k' _ _ Ht) in H1.
  - intros key' Hne. specialize (H2 key' Hne). by rewrite !(waiting_world k k' _ _ Ht) in H2.
Qed.

(** Only what waits in the first list matters. *)
Lemma taken_same k key l1 l2 l' r :
  (forall key', waiting k key' l1 = waiting k key' l2) -> taken k key l1 l' r -> taken k key l2 l' r.
Proof. intros Hs [H1 H2]. split; [by rewrite <-Hs|]. intros key' Hne. rewrite <-Hs. by apply H2. Qed.

Lemma live_task k x t : zget (tasks k) (fw_task_id x) = Some t ->
  negb (enabled t) || negb (task_uid t =? fw_task_uid x) = negb (live k x).
Proof. intros Ht. unfold live. rewrite Ht. by destruct (enabled t). Qed.

Lemma take_loop_spec fuel key : forall k pre rest h,
  let hash := private_hash (snd key) in
  (length rest < fuel)%nat -> zget (buckets (futexes k)) hash = Some h -> linked fw_next (waiters k) h (pre ++ rest) ->
  waiting k key pre = [] -> in_bucket hash (pre ++ rest) ->
  exits (take_loop fuel hash (snd key) (fst key) (prev_of pre) (match rest with (q, _) :: _ => q | [] => 0 end))
    (fun r k' => exists l', rebucket k k' hash (pre ++ rest) l' /\ in_bucket hash l' /\ taken k key (pre ++ rest) l' r) k.
Proof.
  induction fuel as [|fuel IH]; intros k pre rest h hash Hf Hh Hl Hpre Hb; [lia|]. cbn [take_loop].
  destruct rest as [|[q x] rest].
  { apply exits_ret. exists pre. rewrite app_nil_r in *. split; [|done]. constructor; try done.
    - exists (k_mem k). by destruct k.
    - exists h. split; [symmetry; by apply zset_id|done]. }
  pose proof (linked_lookup _ _ _ _ q x Hl ltac:(set_solver)) as [Hx Hq].
  rewrite (proj2 (Z.eqb_neq _ _)) by done. apply exits_get_waiter. intros x' Hx'. rewrite Hx in Hx'. injection Hx' as <-.
  apply exits_get_task. intros t Ht. cbv zeta. rewrite (live_task k x t Ht), negb_involutive.
  set (matches := (fw_key_addr x =? snd key) && (fw_process_uid x =? fst key)).
  assert (Hmatch : matches = bool_decide (wait_key x = key)).
  { unfold matches, wait_key. destruct key as [pid addr]. simpl. apply Bool.eq_iff_eq_true.
    rewrite andb_true_iff, !Z.eqb_eq, bool_decide_eq_true. split; [by intros [-> ->]|by intros [= -> ->]]. }
  assert (Hnext : fw_next x = match rest with (q', _) :: _ => q' | [] => 0 end).
  { apply (linked_split fw_next _ _ pre q x rest) in Hl. destruct Hl as (_ & _ & _ & Hl). destruct rest as [|[q' x'] rest]; [done|].
    by destruct Hl as (-> & _). }
  destruct (live k x && negb matches) eqn:Hgo.
  - apply andb_true_iff in Hgo as [Hlive Hm%negb_true_iff]. rewrite Hnext.
    specialize (IH k (pre ++ [(q, x)]) rest h). rewrite prev_of_snoc, <-app_assoc in IH. apply IH; try done.
    + simpl in Hf. lia.
    + rewrite waiting_app, Hpre, waiting_cons. unfold waits. by rewrite <-Hmatch, Hm.
  - eapply exits_bind; [by apply (unlink_spec k hash pre q x rest h)|]. intros [] k' Hr.
    pose proof (live_world _ _ (rb_world _ _ _ _ _ Hr)) as Hts.
    assert (Hb' : in_bucket hash (relink pre (fw_next x) ++ rest)).
    { unfold in_bucket in *. apply Forall_app in Hb as [Hb1 Hb2]. apply Forall_cons in Hb2 as [_ Hb2].
      apply Forall_app. split; [by apply in_bucket_relink|done]. }
    destruct (live k x && matches) eqn:Hhit.
    + apply andb_true_iff in Hhit as [Hlive Hm]. apply exits_ret. exists (relink pre (fw_next x) ++ rest).
      split; [done|]. split; [done|]. rewrite Hmatch, bool_decide_eq_true in Hm. split.
      * exists (fw_task_uid x). rewrite !waiting_app, waiting_relink, Hpre, waiting_cons. unfold waits.
        rewrite bool_decide_eq_true_2 by done. by rewrite Hlive.
      * intros key' Hne. rewrite !waiting_app, waiting_relink, waiting_cons. unfold waits.
        by rewrite bool_decide_eq_false_2 by congruence.
    + assert (Hdead : live k x = false) by (by destruct (live k x), matches).
      destruct (rb_buckets _ _ _ _ _ Hr) as (h' & Hh' & Hl').
      specialize (IH k' (relink pre (fw_next x)) rest h'). rewrite Hnext in *.
      assert (Hprev : prev_of (relink pre (match rest with (q', _) :: _ => q' | [] => 0 end)) = prev_of pre).
      { destruct pre as [|[r y] pre _] using rev_ind; [done|]. by rewrite relink_snoc, !prev_of_snoc. }
      rewrite Hprev in IH. eapply exits_mono; [apply IH; try done|].
      * simpl in Hf. lia.
      * rewrite Hh'. apply zget_zset_eq. by eapply zget_Some_range.
      * by rewrite (waiting_world k k' _ _ Hts), waiting_relink.
      * intros r k'' (l' & Hr' & Hbl & Ht'). exists l'. split; [by eapply rebucket_trans|]. split; [done|].
        apply (taken_world k k') in Ht'; [|done].
        eapply taken_same; [|exact Ht']. intros key'. rewrite !waiting_app, waiting_relink, waiting_cons.
        unfold waits. by rewrite Hdead, andb_false_r.
Qed.

(** ** The table *)

(** [W b] are the waiters of bucket [b]. *)
Record futex_ok k (W : Z -> list (Z * futex_waiter_t)) : Prop := {
  fk_len : zlen (buckets (futexes k)) = FUTEX_BUCKETS;
  fk_chain b h : zget (buckets (futexes k)) b = Some h -> linked fw_next (waiters k) h (W b) /\ in_bucket b (W b) }.

(** The tasks that wait on a futex, the last to come first. *)
Definition waiters_of k (W : Z -> list (Z * futex_waiter_t)) (key : futex_id) : list (Z * Z) :=
  waiting k key (W (private_hash (snd key))).

Lemma private_hash_range a : 0 <= private_hash a < FUTEX_BUCKETS.
Proof. unfold private_hash, FUTEX_BUCKETS. apply Z.mod_pos_bound. lia. Qed.

Lemma bucket_of k W (key : futex_id) : futex_ok k W -> exists h, zget (buckets (futexes k)) (private_hash (snd key)) = Some h.
Proof. intros Hk. apply zget_is_Some. rewrite (fk_len _ _ Hk). apply private_hash_range. Qed.

(** Buckets share no waiter: the hash of its key says where it is. *)
Lemma buckets_apart k W b b' h h' r :
  futex_ok k W -> zget (buckets (futexes k)) b = Some h -> zget (buckets (futexes k)) b' = Some h' ->
  r ∈ fst <$> W b -> r ∈ fst <$> W b' -> b = b'.
Proof.
  intros Hk Hb Hb' H1 H2. destruct (fk_chain _ _ Hk _ _ Hb) as [L1 B1]. destruct (fk_chain _ _ Hk _ _ Hb') as [L2 B2].
  apply list_elem_of_fmap in H1 as ([r1 x1] & -> & H1). apply list_elem_of_fmap in H2 as ([r2 x2] & Hr & H2).
  simpl in Hr. subst r2. destruct (linked_lookup _ _ _ _ _ _ L1 H1) as [E1 _].
  destruct (linked_lookup _ _ _ _ _ _ L2 H2) as [E2 _]. assert (x2 = x1) as -> by congruence.
  unfold in_bucket in *. rewrite Forall_forall in B1, B2. rewrite <-(B1 _ H1), <-(B2 _ H2). done.
Qed.

Lemma set_bucket_ok k k' W b h h' l' :
  futex_ok k W -> zget (buckets (futexes k)) b = Some h -> buckets (futexes k') = zset (buckets (futexes k)) b h' ->
  linked fw_next (waiters k') h' l' -> in_bucket b l' ->
  (forall r x, waiters k !! r = Some x -> r ∉ fst <$> W b -> waiters k' !! r = Some x) ->
  futex_ok k' (<[b := l']> W).
Proof.
  intros Hk Hb R2 R2' Hl' R4. constructor; [by rewrite R2, zlen_zset; apply (fk_len _ _ Hk)|].
  intros c hc. rewrite R2, zget_zset. pose proof (zget_Some_range _ _ _ Hb) as Hr. case_decide as Hc.
  - destruct Hc as [<- _]. intros [= <-]. by rewrite fn_lookup_insert.
  - assert (Hne : b <> c) by tauto. rewrite fn_lookup_insert_ne by done. intros Hhc.
    destruct (fk_chain _ _ Hk _ _ Hhc) as [Lc Bc]. split; [|done]. eapply linked_other; [done|]. intros r x Hin.
    destruct (linked_lookup _ _ _ _ _ _ Lc Hin) as [Hx _]. rewrite Hx. apply R4; [done|].
    intros Hrb. apply Hne. eapply (buckets_apart k W b c); [done..|]. apply list_elem_of_fmap. by exists (r, x).
Qed.

Lemma rebucket_ok k k' W b h l' :
  futex_ok k W -> zget (buckets (futexes k)) b = Some h -> rebucket k k' b (W b) l' -> in_bucket b l' ->
  futex_ok k' (<[b := l']> W).
Proof.
  intros Hk Hb [R1 (h' & R2 & R2') R3 R4] Hl'. eapply set_bucket_ok; try done.
  intros r x Hx Hr. by rewrite R4.
Qed.

Lemma take_waiter_spec k W (key : futex_id) :
  futex_ok k W ->
  exits (take_waiter key) (fun r k' => exists W', futex_ok k' W' /\ tasks k' = tasks k /\
    match r with
    | Some i => exists uid, waiters_of k W key = (i, uid) :: waiters_of k' W' key
    | None => waiters_of k W key = [] /\ waiters_of k' W' key = []
    end /\
    forall key', key' <> key -> waiters_of k' W' key' = waiters_of k W key') k.
Proof.
  intros Hk. destruct (bucket_of k W key Hk) as [h Hh]. set (b := private_hash (snd key)) in *.
  destruct (fk_chain _ _ Hk _ _ Hh) as [Hl Hb]. unfold take_waiter. fold b.
  apply exits_get_bucket. intros h' Hh'. rewrite Hh in Hh'. injection Hh' as <-. apply exits_gets.
  assert (Hhead : h = match W b with (q, _) :: _ => q | [] => 0 end) by (destruct (W b) as [|[q x] l]; [done|by destruct Hl]).
  rewrite Hhead. eapply exits_mono.
  { apply (take_loop_spec _ key k [] (W b) h); try done. pose proof (linked_length _ _ _ _ Hl). lia. }
  intros r k' (l' & Hr & Hbl & [H1 H2]). pose proof (live_world _ _ (rb_world _ _ _ _ _ Hr)) as Ht.
  exists (<[b := l']> W). split; [by eapply rebucket_ok|]. split; [done|]. unfold waiters_of. fold b. split.
  - rewrite fn_lookup_insert. by destruct r; rewrite (waiting_world k k' _ _ Ht).
  - intros key' Hne. rewrite (waiting_world k k' _ _ Ht).
    destruct (decide (b = private_hash (snd key'))) as [<-|Hb']; [|by rewrite fn_lookup_insert_ne].
    rewrite fn_lookup_insert. by apply H2.
Qed.

(** A waiter goes to the front of its bucket. *)
Lemma push_ok k W b h p w :
  futex_ok k W -> zget (buckets (futexes k)) b = Some h -> p <> 0 -> waiters k !! p = None ->
  fw_next w = h -> private_hash (fw_key_addr w) = b ->
  futex_ok (with_futexes (Futexes (zset (buckets (futexes k)) b p) (<[p := w]> (waiters k))) k) (<[b := (p, w) :: W b]> W).
Proof.
  intros Hk Hb Hp Hfresh Hnext Hhash. destruct (fk_chain _ _ Hk _ _ Hb) as [Hl Hin].
  apply (set_bucket_ok k _ W b h p); try done.
  - split; [done|]. split; [done|]. split; [apply lookup_insert_eq|]. rewrite Hnext.
    apply linked_insert; [done|by eapply linked_fresh].
  - constructor; done.
  - intros r x Hx _. simpl. rewrite lookup_insert_ne; [done|]. intros ->. congruence.
Qed.

(** ** Waiting *)

Section calls.
Context (tasks_init : registers_t -> K M registers_t) (shared_region : kern M -> Z -> Z -> option (Z * Z)).

(** Which region holds an address does not depend on the contents of memory. *)
Hypothesis region_mem : forall k m p v, shared_region (k <| k_mem := m |>) p v = shared_region k p v.

(** The futex at an address of a process. *)
Definition key_of k (process vaddr : Z) : option futex_id :=
  match shared_region k process vaddr with
  | Some (paddr, start) => Some (0, u32 (paddr + (vaddr - start)))
  | None => (fun pr => (p_uid pr, vaddr)) <$> processes k !! process
  end.

Lemma exits_futex_key {B} process vaddr (f : futex_id -> K M B) Q k :
  (forall key, key_of k process vaddr = Some key -> exits (f key) Q k) ->
  exits (futex_key shared_region process vaddr ≫= f) Q k.
Proof.
  intros Hf. unfold futex_key. apply exits_seq, exits_gets. unfold key_of in Hf.
  destruct (shared_region k process vaddr) as [[pa st]|]; [by apply Hf|].
  apply exits_seq, exits_get_process. intros pr Hpr. apply Hf. by rewrite Hpr.
Qed.

(** The block of a new waiter is not one in use. *)
Definition fresh_waiter k : Prop := forall dir hs he src r m,
  copy_from_task (k_mem k) dir hs he src 4 = Some (r, m) -> waiters k !! fst (malloc m SIZEOF_FUTEX_WAITER) = None.

Lemma waiters_world k k' W key : tasks k' = tasks k -> waiters_of k' W key = waiters_of k W key.
Proof. intros Ht. by apply waiting_world. Qed.

Lemma futex_ok_world k k' W : futexes k' = futexes k -> futex_ok k W -> futex_ok k' W.
Proof. intros E [H1 H2]. by constructor; rewrite E. Qed.

Lemma futex_wait_spec k W t addr expected :
  futex_ok k W -> zget (tasks k) (current_task k) = Some t -> enabled t = true -> fresh_waiter k ->
  exits (futex_wait shared_region addr expected) (fun r k' => tasks k' = tasks k /\
    if r =? FUTEX_WAIT_BLOCK then exists key W', key_of k (t_process t) addr = Some key /\ futex_ok k' W' /\
      waiters_of k' W' key = (current_task k, task_uid t) :: waiters_of k W key /\
      forall key', key' <> key -> waiters_of k' W' key' = waiters_of k W key'
    else futexes k' = futexes k) k.
Proof.
  intros Hk Ht Hen Hfresh. unfold futex_wait. apply exits_gets. set (i := current_task k) in *.
  eapply (exits_bind _ _ (fun val k1 => exists dir hs he m, k1 = k <| k_mem := m |> /\ copy_from_task (k_mem k) dir hs he addr 4 = Some (val, m))).
  { unfold task_copy_from. apply exits_get_task. intros t' _. apply exits_get_process. intros pr _.
    unfold exits. rewrite bind_gets. unfold mbind, K_mbind, deref.
    destruct (copy_from_task _ _ _ _ _ _) as [[r m]|] eqn:Hc; [|done]. by exists (page_dir pr), (heap_start pr), (heap_end pr), m. }
  intros val k1 (dir & hs & he & m & -> & Hc). specialize (Hfresh _ _ _ _ _ _ Hc).
  destruct val as [l|]; [|by apply exits_ret]. apply exits_if; intros Hlen; [by apply exits_ret|].
  apply exits_if; intros Hval; [by apply exits_ret|]. apply exits_get_task. intros t' Ht'.
  change (tasks (k <| k_mem := m |>)) with (tasks k) in Ht'. rewrite Ht in Ht'. injection Ht' as <-.
  apply exits_alloc. intros p m2 Hm. change (k_mem (k <| k_mem := m |>)) with m in Hm. rewrite Hm in Hfresh. cbn [fst] in Hfresh.
  apply exits_if; intros Hp; [by apply exits_ret|]. apply Z.eqb_neq in Hp. apply exits_futex_key. intros key Hkey. cbv zeta.
  assert (Hkey' : key_of k (t_process t) addr = Some key) by (unfold key_of in *; by rewrite !region_mem in Hkey).
  apply exits_get_bucket. intros h Hh. unfold put_waiter, set_bucket, upd_futexes. apply exits_modify, exits_modify, exits_ret.
  split; [done|]. cbn [Z.eqb FUTEX_WAIT_BLOCK]. set (w := FutexWaiter i (task_uid t) (fst key) (snd key) h).
  exists key, (<[private_hash (snd key) := (p, w) :: W (private_hash (snd key))]> W). split; [done|]. split; [|split].
  - apply (futex_ok_world (with_futexes (Futexes (zset (buckets (futexes k)) (private_hash (snd key)) p) (<[p := w]> (waiters k))) k)); [done|].
    by apply (push_ok k W _ h).
  - rewrite (waiters_world k) by done. unfold waiters_of. rewrite fn_lookup_insert, waiting_cons.
    unfold waits, live, wait_key. simpl. rewrite Ht, Hen, Z.eqb_refl. rewrite bool_decide_eq_true_2 by (by destruct key). done.
  - intros key' Hne. rewrite (waiters_world k) by done. unfold waiters_of.
    destruct (decide (private_hash (snd key) = private_hash (snd key'))) as [<-|Hb]; [|by rewrite fn_lookup_insert_ne].
    rewrite fn_lookup_insert, waiting_cons. unfold waits, wait_key. simpl.
    rewrite bool_decide_eq_false_2; [done|]. destruct key; simpl; congruence.
Qed.

(** ** Histories *)

Inductive futex_op :=
  | Waits (key : futex_id) (task : Z * Z)
  | Woken (key : futex_id) (task : option Z)
  | Other.

(** Tasks may end; an ended task does not come back under the same uid. *)
Definition outlives k k' : Prop :=
  futexes k' = futexes k /\ forall w, live k' w = true -> live k w = true.

(** The running task waits, a task is taken from a futex to be woken, or something else
    happens. *)
Inductive futex_step : kern M -> futex_op -> kern M -> Prop :=
  | fs_wait k k' t addr expected key :
      zget (tasks k) (current_task k) = Some t -> enabled t = true -> fresh_waiter k ->
      futex_wait shared_region addr expected k = Ret FUTEX_WAIT_BLOCK k' -> key_of k (t_process t) addr = Some key ->
      futex_step k (Waits key (current_task k, task_uid t)) k'
  | fs_return k k' t addr expected r :
      zget (tasks k) (current_task k) = Some t -> enabled t = true -> fresh_waiter k ->
      futex_wait shared_region addr expected k = Ret r k' -> r <> FUTEX_WAIT_BLOCK -> futex_step k Other k'
  | fs_wake k k' key r : take_waiter key k = Ret r k' -> futex_step k (Woken key r) k'
  | fs_other k k' : outlives k k' -> futex_step k Other k'.

(** The specification: a stack of tasks for every futex. *)
Inductive stack_step : (futex_id -> list (Z * Z)) -> futex_op -> (futex_id -> list (Z * Z)) -> Prop :=
  | st_wait σ σ' key x : σ' key = x :: σ key -> (forall key', key' <> key -> σ' key' = σ key') -> stack_step σ (Waits key x) σ'
  | st_wake σ σ' key i uid :
      σ key = (i, uid) :: σ' key -> (forall key', key' <> key -> σ' key' = σ key') -> stack_step σ (Woken key (Some i)) σ'
  | st_none σ σ' key : σ key = [] -> (forall key', σ' key' = σ key') -> stack_step σ (Woken key None) σ'
  | st_other σ σ' (alive : Z * Z -> bool) :
      (forall key, σ' key = filter (fun x => alive x = true) (σ key)) -> stack_step σ Other σ'.

Inductive steps {S} (step : S -> futex_op -> S -> Prop) (s : S) : list futex_op -> S -> Prop :=
  | steps_nil : steps step s [] s
  | steps_snoc ops s' op s'' : steps step s ops s' -> step s' op s'' -> steps step s (ops ++ [op]) s''.

Definition alive k (x : Z * Z) : bool :=
  match zget (tasks k) (fst x) with Some t => enabled t && (task_uid t =? snd x) | None => false end.

Lemma waiting_outlives k k' key l :
  outlives k k' -> waiting k' key l = filter (fun x => alive k' x = true) (waiting k key l).
Proof.
  intros [_ Hlive]. induction l as [|[q x] l IH]; [done|]. rewrite !waiting_cons, IH. unfold waits.
  destruct (bool_decide (wait_key x = key)); simpl; [|done]. specialize (Hlive x).
  destruct (live k x), (live k' x) eqn:E; try done.
  - by rewrite filter_cons, decide_True.
  - rewrite filter_cons, decide_False; [done|]. change (alive k' (wait_task x)) with (live k' x). congruence.
  - by specialize (Hlive eq_refl).
Qed.

Lemma futex_step_ok k W op k' :
  futex_ok k W -> futex_step k op k' ->
  exists W', futex_ok k' W' /\ stack_step (waiters_of k W) op (waiters_of k' W').
Proof.
  intros Hk Hs. destruct Hs as [k k' t addr expected key Ht Hen Hf Hw Hkey|k k' t addr expected r Ht Hen Hf Hw Hr
    |k k' key r Hw|k k' Ho].
  - destruct (exits_Ret _ _ _ _ _ (futex_wait_spec k W t addr expected Hk Ht Hen Hf) Hw) as [_ H].
    simpl in H. destruct H as (key' & W' & Hkey' & Hk' & H1 & H2). assert (key' = key) as -> by congruence.
    exists W'. split; [done|]. by apply st_wait.
  - destruct (exits_Ret _ _ _ _ _ (futex_wait_spec k W t addr expected Hk Ht Hen Hf) Hw) as [Hts H].
    rewrite (proj2 (Z.eqb_neq _ _) Hr) in H. exists W. split; [by eapply futex_ok_world|].
    apply (st_other _ _ (alive k)). intros key. rewrite (waiters_world k k') by done. by apply waiting_outlives.
  - destruct (exits_Ret _ _ _ _ _ (take_waiter_spec k W key Hk) Hw) as (W' & Hk' & _ & H1 & H2).
    exists W'. split; [done|]. destruct r as [i|]; [destruct H1 as [uid H1]; by eapply st_wake|].
    destruct H1 as [H1 H1']. apply st_none; [done|]. intros key'. destruct (decide (key' = key)) as [->|]; [congruence|by apply H2].
  - exists W. split; [by eapply futex_ok_world; [apply Ho|]|].
    apply (st_other _ _ (alive k')). intros key. by apply waiting_outlives.
Qed.

(** C11: futexes are stacks of waiting tasks: over every history of waits, wake-ups and ended
    tasks, a wake-up of a futex takes the task that came to it last of those still alive,
    finds none only when none waits, and touches no other futex, whichever of the 256
    buckets their addresses fall into. *)
Theorem futex_refines_stacks k k' ops :
  futex_ok k (fun _ => []) -> steps futex_step k ops k' ->
  exists σ W, steps stack_step (fun _ => []) ops σ /\ futex_ok k' W /\ forall key, σ key = waiters_of k' W key.
Proof.
  intros Hk Hrun.
  enough (exists W, futex_ok k' W /\ steps stack_step (fun _ => []) ops (waiters_of k' W)) as (W & H1 & H2)
    by (by exists (waiters_of k' W), W).
  induction Hrun as [|ops k1 op k2 _ (W1 & IH1 & IH2) Hstep]; [exists (fun _ => []); split; [done|apply steps_nil]|].
  destruct (futex_step_ok _ _ _ _ IH1 Hstep) as (W2 & Hk2 & Hst). exists W2. split; [done|by econstructor].
Qed.

(** ** The woken task runs *)

Definition same_paused k k' : Prop := forall i, paused <$> zget (tasks k') i = paused <$> zget (tasks k) i.

#[local] Instance same_paused_preorder : PreOrder same_paused.
Proof. split; [done|]. intros k1 k2 k3 H1 H2 i. by rewrite H2. Qed.

Lemma same_paused_set k i t t' :
  zget (tasks k) i = Some t -> paused t' = paused t -> same_paused k (k <| tasks := zset (tasks k) i t' |>).
Proof.
  intros Ht Hp j. change (tasks (k <| tasks := zset (tasks k) i t' |>)) with (zset (tasks k) i t').
  rewrite zget_zset. case_decide as Hj; [|done]. destruct Hj as [<- _]. rewrite Ht. simpl. by rewrite Hp.
Qed.

Lemma same_paused_upd i f : (forall t, paused (f t) = paused t) -> keeps same_paused (upd_task i f).
Proof. intros Hf. apply keeps_upd_task. intros k t Ht. by apply (same_paused_set k i t). Qed.

#[local] Hint Extern 1 (keeps same_paused (upd_task _ _)) => apply same_paused_upd; by intros [] : keeps.
#[local] Hint Extern 2 (keeps same_paused (modify _)) => apply keeps_modify; by intros [] : keeps.

Lemma resume_kernel_paused i : keeps (M := M) same_paused (resume_kernel i).
Proof.
  intros k. unfold resume_kernel. destruct (zget (tasks k) i) as [t|] eqn:Ht; [|done].
  by apply (same_paused_set k i t (t <| kernel_esp := 0 |>)).
Qed.

Lemma switch_to_task_paused i regs : keeps same_paused (switch_to_task i regs).
Proof.
  unfold switch_to_task, get_current_task, swap_regs, set_current, set_esp0, save_regs, enter_process.
  keeps; first [apply resume_kernel_paused|apply keeps_modify; intros k; by zcase].
Qed.

(** A wake-up of a futex on which a live task waits resumes the task that came last: when
    the call ends, in the waker or in the woken task, that task is not paused. *)
Theorem futex_wake_resumes k W t regs addr key i uid rest :
  futex_ok k W -> zget (tasks k) (current_task k) = Some t -> key_of k (t_process t) addr = Some key ->
  waiters_of k W key = (i, uid) :: rest ->
  wp (futex_wake shared_region regs addr) (fun _ k' => exists t', zget (tasks k') i = Some t' /\ paused t' = false) k.
Proof.
  intros Hk Ht Hkey Hw. unfold futex_wake, get_current_task. apply wp_gets, wp_get_task. intros t' Ht'.
  rewrite Ht in Ht'. injection Ht' as <-.
  apply (wp_exits _ _ (fun r k' => r = key /\ k' = k)).
  { apply exits_last, exits_futex_key. intros key' Hkey'. apply exits_ret. split; [congruence|done]. }
  intros _ _ [-> ->]. eapply wp_exits; [by apply take_waiter_spec|].
  intros r k' (W' & _ & Hts & Hr & _). rewrite Hw in Hr. destruct r as [j|]; [|by destruct Hr].
  destruct Hr as [uid' [= <- <- _]]. unfold task_resume. apply wp_upd_task. intros u Hu. apply wp_get_task. intros u' _.
  set (k1 := k' <| tasks := _ |>).
  assert (Hdone : forall k'', same_paused k1 k'' -> exists t', zget (tasks k'') i = Some t' /\ paused t' = false).
  { intros k'' Hp. specialize (Hp i). unfold k1 in Hp. simpl in Hp.
    rewrite zget_zset_eq in Hp by (by eapply zget_Some_range). destruct (zget (tasks k'') i) as [t'|]; [|done].
    exists t'. split; [done|]. simpl in Hp. congruence. }
  apply (wp_keeps same_paused); [apply switch_to_task_paused| |done]. intros r k'' Hp. by apply wp_ret, Hdone.
Qed.

End calls.

End spec.

(** ** Two tasks wait on a futex in shared memory *)

Definition demo_region : kern flat -> Z -> Z -> option (Z * Z) :=
  fun _ _ v => if (0x700000 <=? v) && (v <? 0x701000) then Some (0x900000, 0x700000) else None.

Definition ended_in {A} (r : res flat A) : kern flat := match r with Ret _ k | Away k => k | _ => demo_kern 1 end.

Definition sync_0 : kern flat := demo_kern 1.
Definition sync_1 := ended_in (futex_wait demo_region 0x700004 0 sync_0).
Definition sync_2 : kern flat := sync_1 <| current_task := 2 |>.
Definition sync_3 := ended_in (futex_wait demo_region 0x700004 0 sync_2).
Definition sync_4 := ended_in (take_waiter (0, 0x900004) sync_3).
Definition sync_ops : list futex_op :=
  [Waits (0, 0x900004) (1, 101); Other; Waits (0, 0x900004) (2, 102); Woken (0, 0x900004) (Some 2)].

Lemma no_waiters cur : futex_ok (demo_kern cur) (fun _ => []).
Proof.
  constructor; [by vm_compute|]. intros b h Hb. split; [|constructor]. simpl.
  assert (Hr : 0 <= b < 256) by (apply zget_Some_range in Hb; by vm_compute in Hb).
  change (zget (replicate 256 0) b = Some h) in Hb. rewrite zget_replicate in Hb by lia. congruence.
Qed.

Lemma demo_fresh : fresh_waiter sync_0 /\ fresh_waiter sync_2.
Proof.
  split; intros dir hs he src r m Hc; injection Hc as _ <-; vm_compute; reflexivity.
Qed.

Lemma sync_steps : steps (futex_step demo_region) sync_0 sync_ops sync_4.
Proof.
  set (step := futex_step demo_region). destruct demo_fresh as [F0 F2].
  assert (T1 : zget (tasks sync_0) 1 = Some (demo_task 1 true)) by (vm_compute; reflexivity).
  assert (T2 : zget (tasks sync_2) 2 = Some (demo_task 2 true)) by (vm_compute; reflexivity).
  apply (steps_snoc step sync_0 [_; _; _] sync_3); [apply (steps_snoc step sync_0 [_; _] sync_2);
    [apply (steps_snoc step sync_0 [_] sync_1); [apply (steps_snoc step sync_0 [] sync_0); [apply steps_nil|]|]|]|].
  - apply (fs_wait demo_region sync_0 sync_1 (demo_task 1 true) 0x700004 0); [done|done|done|vm_compute; reflexivity..].
  - apply fs_other. split; [done|]. done.
  - apply (fs_wait demo_region sync_2 sync_3 (demo_task 2 true) 0x700004 0); [done|done|done|vm_compute; reflexivity..].
  - apply fs_wake. vm_compute. reflexivity.
Qed.

Lemma futex_refines_stacks_witness :
  exists σ W, steps stack_step (fun _ => []) sync_ops σ /\ futex_ok sync_4 W /\ forall key, σ key = waiters_of sync_4 W key.
Proof.
  apply (futex_refines_stacks demo_region (fun _ _ _ _ => eq_refl) sync_0 sync_4 sync_ops).
  - apply no_waiters.
  - apply sync_steps.
Defined.

(** In that table task 0, whose process maps the same block, wakes task 2. *)
Definition sync_list : list (Z * futex_waiter_t) :=
  (fun p => (p, default (FutexWaiter 0 0 0 0 0) (futex_waiters (futexes sync_3) !! p))) <$> [0x800000 + 20; 0x800000].
Definition sync_5 : kern flat := (ended_in (task_pause 2 PAUSE_FUTEX sync_3)) <| current_task := 0 |>.

Example sync_paused : paused <$> zget (tasks sync_5) 2 = Some true.
Proof. vm_compute. reflexivity. Qed.

Lemma sync_table : futex_ok sync_5 (<[1 := sync_list]> (fun _ => [])).
Proof.
  constructor; [by vm_compute|]. intros b h Hb. destruct (decide (1 = b)) as [<-|Hne].
  - vm_compute in Hb. injection Hb as <-. rewrite fn_lookup_insert. split.
    + repeat (split; [vm_compute; first [reflexivity|congruence]|]). vm_compute. reflexivity.
    + repeat constructor; vm_compute; reflexivity.
  - rewrite fn_lookup_insert_ne by done. split; [|constructor]. simpl.
    assert (Hbuckets : buckets (futexes sync_5) = zset (replicate 256 0) 1 (0x800000 + 20)) by (vm_compute; reflexivity).
    rewrite Hbuckets, zget_zset_ne in Hb by done.
    assert (Hr : 0 <= b < 256) by (apply zget_Some_range in Hb; by vm_compute in Hb).
    rewrite zget_replicate in Hb by lia. congruence.
Qed.

Lemma futex_wake_resumes_witness :
  wp (futex_wake demo_region (demo_regs 0) 0x700004)
    (fun _ k' => exists t', zget (tasks k') 2 = Some t' /\ paused t' = false) sync_5.
Proof.
  apply (futex_wake_resumes demo_region sync_5 (<[1 := sync_list]> (fun _ => [])) (demo_task 0 true) (demo_regs 0) 0x700004 (0, 0x900004) 2 102 [(1, 101)]).
  - apply sync_table.
  - vm_compute. reflexivity.
  - vm_compute. reflexivity.
  - unfold waiters_of. change (private_hash (snd (0, 0x900004))) with 1. rewrite fn_lookup_insert. vm_compute. reflexivity.
Defined.
