(* ===== verification/Pipe.v ===== *)
(** * Pipes and positions in files (fs.c, api.c)

    A pipe is a ring of 4096 bytes with one task that may wait to read and one that may
    wait to write. The bytes go from the memory of the writer to the ring and from the ring
    to the memory of the reader, in pieces that do not wrap around. *)

From S2P Require Import Kern Sched Hoare Quiet MsgCall.

Local Open Scope Z_scope.

Definition FS_PIPE_BUF_SIZE : Z := 4096.
Definition FS_FLAG_WRITEONLY : Z := 1.
Definition FS_EOF : Z := 0.
Definition FS_ERROR : Z := -1.
Definition FS_BLOCKING : Z := -2.
Definition FS_WRITE_WAIT : Z := -3.

Record fs_pipe_t := FsPipe {
  buf : list Z;
  read_pos : Z;
  write_pos : Z;
  psize : Z;
  writer_count : Z;
  ref_count : Z;
  read_waiting_task : Z;
  write_waiting_task : Z;
  read_waiting_uid : Z;
  write_waiting_uid : Z;
  read_buf : Z;
  read_size : Z;
  write_buf : Z;
  write_size : Z }.

(** What [fs_create_pipe] stores. *)
Definition pipe_init : fs_pipe_t :=
  FsPipe (replicate (Z.to_nat FS_PIPE_BUF_SIZE) 0) 0 0 0 1 2 (-1) (-1) 0 0 0 0 0 0.

Section pipe.
Context {M : Type} `{!Space M}.
Context (tasks_init : registers_t -> K M registers_t).
Implicit Types (k : kern M) (p : fs_pipe_t).

(** ** The ring *)

Fixpoint drain_loop (fuel : nat) p (task dest max read : Z) : K M (Z * fs_pipe_t) :=
  match fuel with
  | O => fun _ => Hang
  | S fuel =>
      if (read <? max) && (0 <? psize p) then
        let run := FS_PIPE_BUF_SIZE - read_pos p in
        let chunk := Z.min (Z.min (max - read) run) (psize p) in
        written ← task_copy_to task (u32 (dest + read)) (slice (buf p) (read_pos p) chunk);
        if written <? 0 then mret (read, p)
        else
          let p := p <| read_pos := Z.rem (read_pos p + written) FS_PIPE_BUF_SIZE |>
                     <| psize := psize p - written |> in
          if written <? chunk then mret (read + written, p)
          else drain_loop fuel p task dest max (read + written)
      else mret (read, p)
  end.

(** The turns that go on take a byte or more out of the ring. *)
Definition fs_pipe_drain p (task dest max : Z) : K M (Z * fs_pipe_t) :=
  drain_loop (S (Z.to_nat (psize p))) p task dest max 0.

(** [copy_from_task]; a kernel buffer ([task < 0]) is copied as it is. *)
Definition copy_in (task src size : Z) : K M (option (list Z)) :=
  if task <? 0 then m ← gets k_mem; l ← deref (read_user m src size); mret (Some l)
  else task_copy_from task src size.

Fixpoint fill_loop (fuel : nat) p (task src max written : Z) : K M (Z * fs_pipe_t) :=
  match fuel with
  | O => fun _ => Hang
  | S fuel =>
      if (written <? max) && (psize p <? FS_PIPE_BUF_SIZE) then
        let run := FS_PIPE_BUF_SIZE - write_pos p in
        let space := FS_PIPE_BUF_SIZE - psize p in
        let chunk := Z.min (Z.min (max - written) run) space in
        r ← copy_in task (u32 (src + written)) chunk;
        match r with
        | None => mret (written, p)
        | Some l =>
            let p := p <| buf := splice (buf p) (write_pos p) l |>
                       <| write_pos := Z.rem (write_pos p + zlen l) FS_PIPE_BUF_SIZE |>
                       <| psize := psize p + zlen l |> in
            if zlen l <? chunk then mret (written + zlen l, p)
            else fill_loop fuel p task src max (written + zlen l)
        end
      else mret (written, p)
  end.

Definition fs_pipe_fill p (task src max : Z) : K M (Z * fs_pipe_t) :=
  fill_loop (S (Z.to_nat (FS_PIPE_BUF_SIZE - psize p))) p task src max 0.

(** ** Reading and writing (the branches for pipes) *)

Definition fs_write p (buffer size task : Z) : K M (Z * fs_pipe_t) :=
  if psize p =? FS_PIPE_BUF_SIZE then
    if task <? 0 then mret (FS_ERROR, p)
    else t ← get_task task; mret (FS_WRITE_WAIT, p <| write_waiting_task := task |> <| write_waiting_uid := task_uid t |>)
  else
    r ← fs_pipe_fill p task buffer size;
    let '(written, p) := r in
    if (written =? 0) && (0 <? size) then mret (FS_ERROR, p) else mret (written, p).

Definition fs_read p (buffer size task : Z) : K M (Z * fs_pipe_t) :=
  r ← fs_pipe_drain p task buffer size;
  let '(read, p) := r in
  if 0 <? read then mret (read, p)
  else if (0 <? psize p) && (0 <? size) then mret (FS_ERROR, p)
  else if writer_count p =? 0 then mret (FS_EOF, p)
  else t ← get_task task; mret (FS_BLOCKING, p <| read_waiting_task := task |> <| read_waiting_uid := task_uid t |>).

Definition fs_pipe_wake_reader p : K M (bool * fs_pipe_t) :=
  let i := read_waiting_task p in
  if i <? 0 then mret (false, p)
  else
    t ← get_task i;
    if negb (enabled t) || negb (task_uid t =? read_waiting_uid p)
    then mret (false, p <| read_waiting_task := -1 |>)
    else
      p ← (if negb (read_buf p =? 0) then
             r ← fs_pipe_drain p i (read_buf p) (read_size p); _ ← set_ebx i (fst r); mret (snd r)
           else _ ← set_ebx i FS_ERROR; mret p);
      _ ← task_resume i;
      mret (true, p <| read_waiting_task := -1 |>).

Definition fs_pipe_wake_writer p : K M (bool * fs_pipe_t) :=
  let i := write_waiting_task p in
  if i <? 0 then mret (false, p)
  else
    t ← get_task i;
    if negb (enabled t) || negb (task_uid t =? write_waiting_uid p)
    then mret (false, p <| write_waiting_task := -1 |>)
    else
      p ← (if negb (write_buf p =? 0) then
             r ← fs_pipe_fill p i (write_buf p) (write_size p); _ ← set_ebx i (fst r); mret (snd r)
           else _ ← set_ebx i FS_ERROR; mret p);
      _ ← task_resume i;
      mret (true, p <| write_waiting_task := -1 |>).

(** A task that waits for the pipe goes on with an end of file. *)
Definition wake_eof (i uid : Z) : K M unit :=
  t ← get_task i;
  when (enabled t && (task_uid t =? uid)) (_ ← task_resume i; set_ebx i FS_EOF).

(** The part of [fs_close_locked] for a file that is an end of the pipe: [None] when it
    was the last one and the pipe is freed. *)
Definition fs_close_pipe p (flags : Z) : K M (option fs_pipe_t) :=
  let p := if negb (Z.land flags FS_FLAG_WRITEONLY =? 0) then p <| writer_count := writer_count p - 1 |> else p in
  _ ← when (negb (read_waiting_task p =? -1)) (wake_eof (read_waiting_task p) (read_waiting_uid p));
  let p := p <| read_waiting_task := -1 |> in
  _ ← when (negb (write_waiting_task p =? -1)) (wake_eof (write_waiting_task p) (write_waiting_uid p));
  let p := if negb (write_waiting_task p =? -1)
           then p <| write_waiting_task := -1 |> <| write_buf := 0 |> <| write_size := 0 |> else p in
  let p := if 0 <? ref_count p then p <| ref_count := ref_count p - 1 |> else p in
  mret (if ref_count p =? 0 then None else Some p).

(** ** The system calls on a pipe

    What is left to do when they end: return to the caller, yield, or go to the task that
    was woken. The pipe does not change any more. *)
Inductive after := Stay | Yield | SwitchTo (i : Z).

Definition api_validate_maxsize (i addr max : Z) (rw : bool) : K M Z :=
  t ← get_task i; pr ← get_process (t_process t); m ← gets k_mem;
  deref (task_validate_maxsize m (page_dir pr) (heap_start pr) (heap_end pr) addr max rw).

(** The task that waits on the other side, if the call made progress. *)
Definition wake_other (result waiting : Z) (wake : fs_pipe_t -> K M (bool * fs_pipe_t)) p : K M (fs_pipe_t * after) :=
  if (0 <? result) && (0 <=? waiting) then
    r ← wake p; mret (snd r, if fst r : bool then SwitchTo waiting else Stay)
  else mret (p, Stay).

Definition api_write (i : Z) p (buffer size : Z) : K M (Z * fs_pipe_t * after) :=
  maxsize ← api_validate_maxsize i buffer size false;
  if (maxsize <? 0) || ((0 <? size) && (maxsize =? 0)) then mret (-1, p, Stay)
  else
    r ← fs_write p buffer maxsize i;
    let '(result, p) := r in
    if result =? FS_WRITE_WAIT then
      _ ← task_pause i PAUSE_READ;
      mret (result, p <| write_buf := buffer |> <| write_size := maxsize |>, Yield)
    else
      r ← wake_other result (read_waiting_task p) fs_pipe_wake_reader p;
      mret (result, fst r, snd r).

Definition api_read (i : Z) p (buffer count : Z) : K M (Z * fs_pipe_t * after) :=
  if count =? 0 then mret (0, p, Stay)
  else if count <? 0 then mret (-1, p, Stay)
  else
    r ← fs_read p buffer count i;
    let '(result, p) := r in
    if result =? FS_BLOCKING then
      let count := if FS_PIPE_BUF_SIZE <=? count then FS_PIPE_BUF_SIZE else count in
      maxsize ← api_validate_maxsize i buffer count true;
      if (maxsize <? 0) || ((0 <? count) && (maxsize =? 0)) then mret (result, p, Stay)
      else
        _ ← task_pause i PAUSE_READ;
        mret (result, p <| read_buf := buffer |> <| read_size := maxsize |>, Yield)
    else
      r ← wake_other result (write_waiting_task p) fs_pipe_wake_writer p;
      mret (result, fst r, snd r).

(** [task_write_to_window] for a program whose output is a pipe: the kernel's own buffer is
    written, and a task that waits to read is resumed. *)
Definition task_write_to_pipe p (out size : Z) : K M (Z * fs_pipe_t * bool) :=
  r ← fs_write p out size (-1);
  let '(n, p) := r in
  if 0 <? n then r ← fs_pipe_wake_reader p; mret (n, snd r, fst r) else mret (n, p, false).

Definition leave (regs : registers_t) (a : after) : K M registers_t :=
  match a with
  | Stay => mret regs
  | Yield => switch_task tasks_init regs false
  | SwitchTo i => r ← switch_to_task i regs; mret (snd r)
  end.

End pipe.

(** ** Positions (fs_seek)

    [pos] is [file->current_pos], [file_size] the size of the file; [None] is a file that is
    not open on a file of the disk. *)
Inductive seek_t := SEEK_SET | SEEK_CUR | SEEK_END | SEEK_OTHER.

Definition fs_seek (file_size : option Z) (pos offset : Z) (type : seek_t) : Z * Z :=
  match file_size with
  | None => (-1, pos)
  | Some sz =>
      let size := s32 sz in
      match (match type with SEEK_SET => Some 0 | SEEK_CUR => Some (s32 pos) | SEEK_END => Some size | SEEK_OTHER => None end) with
      | None => (-1, pos)
      | Some base =>
          if (0 <? offset) && (0x7FFFFFFF - offset <? base) then (-1, pos)
          else
            let p := s32 (base + offset) in
            if p <? 0 then (-1, pos)
            else let p := if size <? p then size else p in (p, u32 p)
      end
  end.
