(* ===== verification/PipeSpec.v ===== *)
(** * Pipes deliver bytes in order (fs.c)

    What is read from a pipe is what was written to it: the same bytes in the same order,
    none lost, repeated or changed, across wrap-around, partial copies and tasks that wait. *)

From S2P Require Import Kern Sched Hoare Quiet MsgCall Pipe.

Local Open Scope Z_scope.

(** [FS_PIPE_BUF_SIZE] *)
Abbreviation N := 4096 (only parsing).

(** ** The bytes in the ring *)

Definition ring (p : fs_pipe_t) (i : Z) : Z := byte_at (buf p) ((read_pos p + i) mod N).
Definition contents (p : fs_pipe_t) : list Z := ring p <$> seqZ 0 (psize p).

Record pipe_ok (p : fs_pipe_t) : Prop := {
  po_buf : zlen (buf p) = N;
  po_read : 0 <= read_pos p < N;
  po_size : 0 <= psize p <= N;
  po_write : write_pos p = (read_pos p + psize p) mod N }.

Lemma wrap a : 0 <= a < 2 * N -> a mod N = if decide (a < N) then a else a - N.
Proof.
  intros Ha. case_decide; [apply Z.mod_small; lia|]. symmetry. apply (Z.mod_unique_pos _ _ 1); lia.
Qed.

Lemma zlen_contents p : pipe_ok p -> zlen (contents p) = psize p.
Proof. intros Hp. pose proof (po_size _ Hp). unfold contents, zlen. rewrite length_fmap, length_seqZ. lia. Qed.

Lemma zlen_take_contents p n : pipe_ok p -> 0 <= n <= psize p -> zlen (take (Z.to_nat n) (contents p)) = n.
Proof. intros Hp Hn. pose proof (zlen_contents p Hp) as Hl. unfold zlen in *. rewrite length_take. lia. Qed.

Lemma zget_contents p i : 0 <= i < psize p -> zget (contents p) i = Some (ring p i).
Proof.
  intros Hi. unfold contents, zget. rewrite (proj2 (Z.leb_le 0 i)) by lia.
  rewrite list_lookup_fmap, lookup_seqZ_lt by lia. simpl. by rewrite Z2Nat.id by lia.
Qed.

Lemma byte_at_some l i : 0 <= i < zlen l -> zget l i = Some (byte_at l i).
Proof. intros Hi. destruct (zget_is_Some l i Hi) as [x Hx]. unfold byte_at. by rewrite Hx. Qed.

Definition take_out (p : fs_pipe_t) (n : Z) : fs_pipe_t :=
  p <| read_pos := Z.rem (read_pos p + n) N |> <| psize := psize p - n |>.

Definition put_in (p : fs_pipe_t) (l : list Z) : fs_pipe_t :=
  p <| buf := splice (buf p) (write_pos p) l |> <| write_pos := Z.rem (write_pos p + zlen l) N |>
    <| psize := psize p + zlen l |>.

(** The bytes up to the end of the ring. *)
Lemma ring_slice p n :
  pipe_ok p -> 0 <= n <= psize p -> n <= N - read_pos p -> slice (buf p) (read_pos p) n = take (Z.to_nat n) (contents p).
Proof.
  intros Hp Hn Hr. pose proof Hp as [H1 H2 H3 _]. apply (zget_ext_len _ _ n).
  - by rewrite zlen_slice by lia.
  - unfold zlen. rewrite length_take. pose proof (zlen_contents p Hp) as Hl. unfold zlen in Hl. lia.
  - intros i Hi. rewrite zget_slice by lia. rewrite take_nth, decide_True by lia. rewrite zget_contents by lia.
    unfold ring. rewrite wrap, decide_True by lia. apply byte_at_some. lia.
Qed.

Lemma take_out_ok p n : pipe_ok p -> 0 <= n <= psize p -> pipe_ok (take_out p n).
Proof.
  intros [H1 H2 H3 H4] Hn. unfold take_out. destruct p. simpl in *. constructor; simpl; try done; [|lia|].
  - rewrite Z.rem_mod_nonneg by lia. apply Z.mod_pos_bound. lia.
  - rewrite Z.rem_mod_nonneg, H4 by lia. rewrite Z.add_mod_idemp_l by lia. f_equal. lia.
Qed.

Lemma zget_drop {A} (l : list A) n i : 0 <= n -> 0 <= i -> zget (drop (Z.to_nat n) l) i = zget l (n + i).
Proof.
  intros Hn Hi. unfold zget. rewrite !(proj2 (Z.leb_le 0 _)) by lia. rewrite lookup_drop. f_equal. lia.
Qed.

Lemma take_out_contents p n : pipe_ok p -> 0 <= n <= psize p -> contents (take_out p n) = drop (Z.to_nat n) (contents p).
Proof.
  intros Hp Hn. pose proof Hp as [H1 H2 H3 H4]. pose proof (take_out_ok p n Hp Hn) as Hp'.
  apply (zget_ext_len _ _ (psize p - n)).
  - by rewrite (zlen_contents _ Hp').
  - pose proof (zlen_contents p Hp) as Hl. unfold zlen in *. rewrite length_drop. lia.
  - intros i Hi. rewrite zget_drop, !zget_contents by (change (psize (take_out p n)) with (psize p - n); lia). f_equal. unfold ring.
    change (buf (take_out p n)) with (buf p). change (read_pos (take_out p n)) with (Z.rem (read_pos p + n) N). f_equal.
    rewrite Z.rem_mod_nonneg, Z.add_mod_idemp_l by lia. f_equal. lia.
Qed.

Lemma put_in_ok p l :
  pipe_ok p -> zlen l <= N - write_pos p -> psize p + zlen l <= N -> pipe_ok (put_in p l).
Proof.
  intros [H1 H2 H3 H4] Hw Hs. pose proof (zlen_nonneg l).
  assert (Hwr : 0 <= write_pos p < N) by (rewrite H4; apply Z.mod_pos_bound; done).
  unfold put_in. destruct p. simpl in *. constructor; simpl; try done; [by rewrite zlen_splice by lia|lia|].
  rewrite Z.rem_mod_nonneg, H4 by lia. rewrite Z.add_mod_idemp_l by lia. f_equal. lia.
Qed.

Lemma put_in_contents p l :
  pipe_ok p -> zlen l <= N - write_pos p -> psize p + zlen l <= N -> contents (put_in p l) = contents p ++ l.
Proof.
  intros Hp Hw Hs. pose proof Hp as [H1 H2 H3 H4]. pose proof (zlen_nonneg l).
  pose proof (put_in_ok p l Hp Hw Hs) as Hp'.
  assert (Hwr : 0 <= write_pos p < N) by (rewrite H4; apply Z.mod_pos_bound; done).
  apply (zget_ext_len _ _ (psize p + zlen l)).
  - by rewrite (zlen_contents _ Hp').
  - by rewrite zlen_app, (zlen_contents _ Hp).
  - intros i Hi. rewrite zget_contents by (change (psize (put_in p l)) with (psize p + zlen l); lia). unfold ring. change (read_pos (put_in p l)) with (read_pos p).
    change (buf (put_in p l)) with (splice (buf p) (write_pos p) l).
    rewrite wrap by lia.
    assert (Hin : 0 <= (if decide (read_pos p + i < N) then read_pos p + i else read_pos p + i - N) < N) by (case_decide; lia).
    rewrite <-byte_at_some by (rewrite zlen_splice, H1 by lia; done). rewrite zget_splice by lia.
    rewrite wrap in H4 by lia. destruct (decide (i < psize p)).
    + rewrite zget_app_l by (rewrite (zlen_contents _ Hp); lia). rewrite zget_contents by lia. unfold ring. rewrite wrap by lia.
      rewrite (byte_at_some (buf p)) by lia. repeat case_decide; lia || done.
    + rewrite zget_app_r by (rewrite (zlen_contents _ Hp); lia). rewrite (zlen_contents _ Hp).
      rewrite decide_True by (repeat case_decide; lia). f_equal. repeat case_decide; lia.
Qed.

(** ** Memory of tasks

    [peek m dir a] is the byte that a read at [a] of the address space [dir] returns;
    [own_area m dir base size] says that the pages of a buffer are not used for anything else
    there. A copy to a task stores a prefix of the data at its place in the buffer; a copy from
    a task returns a prefix of what is there and changes nothing. *)
Class UserMem (M : Type) `{!Space M} := {
  peek : M -> Z -> Z -> option Z;
  own_area : M -> Z -> Z -> Z -> Prop;
  um_to m dir hs he dest src n m' base size :
    copy_to_task m dir hs he dest src = Some (n, m') ->
    own_area m dir base size -> base <= dest -> dest + zlen src <= base + size ->
    own_area m' dir base size /\ n <= zlen src /\
    (forall i, 0 <= i < n -> peek m' dir (dest + i) = zget src i) /\
    (forall a x, base <= a < base + size -> ~ (dest <= a < dest + n) -> peek m dir a = Some x -> peek m' dir a = Some x);
  um_from_mem m dir hs he src size r m' :
    copy_from_task m dir hs he src size = Some (r, m') ->
    (forall d a, peek m' d a = peek m d a) /\ (forall d b sz, own_area m d b sz -> own_area m' d b sz);
  um_from m dir hs he src size l m' :
    0 <= src -> src + size <= 2 ^ 32 -> copy_from_task m dir hs he src size = Some (Some l, m') ->
    zlen l <= Z.max 0 size /\ (forall i x, zget l i = Some x -> peek m dir (src + i) = Some x);
  um_read m src size l :
    0 <= src -> src + size <= 2 ^ 32 -> read_user m src size = Some l ->
    zlen l <= Z.max 0 size /\ (forall i x, zget l i = Some x -> peek m (page_get_current m) (src + i) = Some x);
  um_max m dir hs he addr len rw n : task_validate_maxsize m dir hs he addr len rw = Some n -> n <= Z.max 0 len }.

Section spec.
Context {M : Type} `{!Space M, !UserMem M}.
Implicit Types (k : kern M) (p : fs_pipe_t).

(** The address space of a task, or of the kernel where it runs. *)
Definition dir_of k (i : Z) : option Z :=
  if i <? 0 then Some (page_get_current (k_mem k))
  else t ← zget (tasks k) i; pr ← processes k !! t_process t; Some (page_dir pr).

(** The bytes [l] are at [addr] in the memory of task [i]. *)
Definition bytes_at k (i addr : Z) (l : list Z) : Prop :=
  exists dir, dir_of k i = Some dir /\ forall j x, zget l j = Some x -> peek (k_mem k) dir (addr + j) = Some x.

(** A buffer to read from, and one that can be written to. *)
Definition readable (addr size : Z) : Prop := 0 <= addr /\ addr + size <= 2 ^ 32.
Definition readable_at k (i addr size : Z) : Prop := readable addr size /\ exists dir, dir_of k i = Some dir.
Definition writable_at k (i addr size : Z) : Prop :=
  0 <= i /\ readable addr size /\ exists dir, dir_of k i = Some dir /\ own_area (k_mem k) dir addr size.

Lemma dir_of_mem k i m : page_get_current m = page_get_current (k_mem k) -> dir_of (k <| k_mem := m |>) i = dir_of k i.
Proof. intros Hm. unfold dir_of. simpl. by rewrite Hm. Qed.

(** ** Draining and filling *)

(** [n] bytes were taken out of [p0] and stored from [dest] on. *)
Record drained p0 k0 (dir dest max n : Z) p k : Prop := {
  dr_n : 0 <= n <= psize p0 /\ (0 < n -> n <= max);
  dr_p : exists rp, p = p0 <| read_pos := rp |> <| psize := psize p0 - n |>;
  dr_ok : pipe_ok p;
  dr_contents : contents p = drop (Z.to_nat n) (contents p0);
  dr_k : exists m, k = k0 <| k_mem := m |> /\ page_get_current m = page_get_current (k_mem k0);
  dr_own : own_area (k_mem k) dir dest max;
  dr_peek j x : 0 <= j < n -> zget (contents p0) j = Some x -> peek (k_mem k) dir (dest + j) = Some x }.

(** [n] bytes from [src] on were put into [p0]. *)
Record filled p0 k0 (dir src max n : Z) p k : Prop := {
  fi_n : 0 <= n /\ (0 < n -> n <= max);
  fi_l : exists l, zlen l = n /\ contents p = contents p0 ++ l /\
    forall j x, zget l j = Some x -> peek (k_mem k0) dir (src + j) = Some x;
  fi_p : exists b wp, p = p0 <| buf := b |> <| write_pos := wp |> <| psize := psize p0 + n |>;
  fi_ok : pipe_ok p;
  fi_k : exists m, k = k0 <| k_mem := m |> /\ page_get_current m = page_get_current (k_mem k0);
  fi_peek d a : peek (k_mem k) d a = peek (k_mem k0) d a;
  fi_own d b sz : own_area (k_mem k0) d b sz -> own_area (k_mem k) d b sz }.

Lemma dir_of_task k i t pr : 0 <= i -> zget (tasks k) i = Some t -> processes k !! t_process t = Some pr ->
  dir_of k i = Some (page_dir pr).
Proof. intros Hi Ht Hp. unfold dir_of. rewrite (proj2 (Z.ltb_ge i 0)) by done. rewrite Ht. simpl. by rewrite Hp. Qed.

Lemma exits_task_copy_to k i dir dest l :
  0 <= i -> dir_of k i = Some dir ->
  exits (task_copy_to i dest l) (fun n k' => exists hs he m,
    copy_to_task (k_mem k) dir hs he dest l = Some (n, m) /\ k' = k <| k_mem := m |>) k.
Proof.
  intros Hi Hdir. unfold task_copy_to. apply exits_get_task. intros t Ht. apply exits_get_process. intros pr Hpr.
  rewrite (dir_of_task k i t pr Hi Ht Hpr) in Hdir. apply (inj Some) in Hdir as <-.
  unfold exits. rewrite bind_gets. unfold mbind, K_mbind, deref.
  destruct (copy_to_task _ _ _ _ _ _) as [[n m]|] eqn:Hc; [|done]. by exists (heap_start pr), (heap_end pr), m.
Qed.

Lemma exits_copy_in k i dir src size :
  dir_of k i = Some dir -> readable src size ->
  exits (copy_in i src size) (fun r k' => exists m, k' = k <| k_mem := m |> /\
    page_get_current m = page_get_current (k_mem k) /\
    (forall d a, peek m d a = peek (k_mem k) d a) /\
    (forall d b sz, own_area (k_mem k) d b sz -> own_area m d b sz) /\
    match r with
    | None => True
    | Some l => zlen l <= Z.max 0 size /\ forall j x, zget l j = Some x -> peek (k_mem k) dir (src + j) = Some x
    end) k.
Proof.
  intros Hdir [R1 R2]. unfold copy_in. apply exits_if; intros Hi.
  - unfold dir_of in Hdir. rewrite Hi in Hdir. apply (inj Some) in Hdir as <-.
    unfold exits. rewrite bind_gets. unfold mbind, K_mbind, deref. destruct (read_user _ _ _) as [l|] eqn:Hl; [|done].
    exists (k_mem k). split; [by destruct k|]. repeat split; try done; by apply (um_read _ _ _ _ R1 R2 Hl).
  - apply Z.ltb_ge in Hi. unfold task_copy_from. apply exits_get_task. intros t Ht. apply exits_get_process. intros pr Hpr.
    rewrite (dir_of_task k i t pr Hi Ht Hpr) in Hdir. apply (inj Some) in Hdir as <-.
    unfold exits. rewrite bind_gets. unfold mbind, K_mbind, deref.
    destruct (copy_from_task _ _ _ _ _ _) as [[r m]|] eqn:Hc; [|done]. simpl. exists m.
    destruct (um_from_mem _ _ _ _ _ _ _ _ Hc) as [H1 H2]. split; [done|]. split; [by eapply space_copy_from|].
    split; [done|]. split; [done|]. destruct r as [l|]; [|done]. by apply (um_from _ _ _ _ _ _ _ _ R1 R2 Hc).
Qed.

Lemma drained_step p0 k0 dir dest max read p k hs he n m' chunk :
  drained p0 k0 dir dest max read p k -> readable dest max -> 0 < chunk <= psize p -> read + chunk <= max ->
  chunk <= 4096 - read_pos p ->
  copy_to_task (k_mem k) dir hs he (u32 (dest + read)) (take (Z.to_nat chunk) (contents p)) = Some (n, m') -> 0 <= n ->
  drained p0 k0 dir dest max (read + n) (take_out p n) (k <| k_mem := m' |>) /\ n <= chunk.
Proof.
  intros [D1 (rp & Dp) D3 D4 (m & -> & Hm) D6 D7] [R1 R2] Hch Hmax Hrun Hcopy Hn. cbn [k_mem] in *. rewrite u32_id in Hcopy by lia.
  pose proof (zlen_take_contents p chunk D3 ltac:(lia)) as Hlen.
  destruct (um_to _ _ _ _ _ _ _ _ dest max Hcopy D6) as (U1 & U2 & U3 & U4); [lia|rewrite Hlen; lia|].
  rewrite Hlen in U2. pose proof (space_copy _ _ _ _ _ _ _ _ Hcopy) as Hcur. assert (Hps : psize p = psize p0 - read) by (subst p; by destruct p0).
  split; [|done]. constructor.
  - lia.
  - exists (Z.rem (read_pos p + n) FS_PIPE_BUF_SIZE). unfold take_out. rewrite Hps. subst p. destruct p0. simpl. f_equal. lia.
  - apply take_out_ok; [done|lia].
  - rewrite take_out_contents, D4, drop_drop by (done || lia). f_equal. lia.
  - exists m'. split; [by destruct k0|exact (eq_trans Hcur Hm)].
  - done.
  - intros j x Hj Hx. change (k_mem (k0 <| k_mem := m |> <| k_mem := m' |>)) with m'. destruct (decide (j < read)).
    + apply U4; [lia|lia|]. by apply D7; [lia|].
    + replace (dest + j) with (dest + read + (j - read)) by lia. rewrite U3 by lia. rewrite take_nth, decide_True by lia.
      rewrite D4, zget_drop by lia. by replace (read + (j - read)) with j by lia.
Qed.

(** A copy that fails. *)
Lemma drained_kept p0 k0 dir dest max read p k hs he n m' l :
  drained p0 k0 dir dest max read p k -> readable dest max -> read + zlen l <= max -> read < max ->
  copy_to_task (k_mem k) dir hs he (u32 (dest + read)) l = Some (n, m') -> n < 0 ->
  drained p0 k0 dir dest max read p (k <| k_mem := m' |>).
Proof.
  intros [D1 D2 D3 D4 (m & -> & Hm) D6 D7] [R1 R2] Hl Hmax Hcopy Hn. cbn [k_mem] in *. rewrite u32_id in Hcopy by lia.
  destruct (um_to _ _ _ _ _ _ _ _ dest max Hcopy D6) as (U1 & U2 & U3 & U4); [lia|lia|].
  pose proof (space_copy _ _ _ _ _ _ _ _ Hcopy) as Hcur. constructor; try done.
  - exists m'. split; [by destruct k0|exact (eq_trans Hcur Hm)].
  - intros j x Hj Hx. change (k_mem (k0 <| k_mem := m |> <| k_mem := m' |>)) with m'.
    apply U4; [lia|lia|]. by apply D7.
Qed.

Lemma drain_loop_spec p0 k0 dir dest max i fuel read p k :
  drained p0 k0 dir dest max read p k -> psize p < Z.of_nat fuel -> readable dest max -> 0 <= i -> dir_of k0 i = Some dir ->
  exits (drain_loop fuel p i dest max read) (fun r k' => drained p0 k0 dir dest max (fst r) (snd r) k') k.
Proof.
  revert read p k. induction fuel as [|fuel IH]; intros read p k Hd Hf Hro Hi Hdir; [pose proof (po_size _ (dr_ok _ _ _ _ _ _ _ _ Hd)); lia|].
  cbn [drain_loop]. pose proof (dr_n _ _ _ _ _ _ _ _ Hd) as Hn.
  assert (Hps : psize p = psize p0 - read) by (destruct (dr_p _ _ _ _ _ _ _ _ Hd) as (rp & ->); by destruct p0).
  destruct ((read <? max) && (0 <? psize p)) eqn:Hc; [|by apply exits_ret].
  apply andb_true_iff in Hc as [Hc1%Z.ltb_lt Hc2%Z.ltb_lt].
  pose proof (dr_ok _ _ _ _ _ _ _ _ Hd) as Hp. pose proof Hp as [P1 P2 P3 P4]. cbv zeta. unfold FS_PIPE_BUF_SIZE in *.
  set (chunk := Z.min (Z.min (max - read) (4096 - read_pos p)) (psize p)). 
  assert (Hch : 0 < chunk <= psize p /\ read + chunk <= max /\ chunk <= 4096 - read_pos p) by lia.
  clearbody chunk. destruct Hch as (Hch & Hch1 & Hch2).
  rewrite (ring_slice p chunk Hp) by lia.
  eapply exits_bind; [apply (exits_task_copy_to k i dir); [done|]|].
  { destruct (dr_k _ _ _ _ _ _ _ _ Hd) as (m0 & -> & Hm0). by rewrite dir_of_mem. }
  intros n k' (hs & he & m & Hcp & ->). apply exits_if; intros Hneg.
  - apply exits_ret. apply Z.ltb_lt in Hneg.
    refine (drained_kept _ _ _ _ _ _ _ _ hs he n _ _ Hd Hro _ Hc1 Hcp Hneg). rewrite zlen_take_contents by (done || lia). lia.
  - apply Z.ltb_ge in Hneg.
    destruct (drained_step _ _ _ _ _ _ _ _ _ _ _ _ _ Hd Hro Hch Hch1 Hch2 Hcp Hneg) as [Hd' Hle].
    apply exits_if; intros Hlt; [by apply exits_ret|apply Z.ltb_ge in Hlt].
    apply IH; try done. change (psize _) with (psize p - n). lia.
Qed.

Lemma filled_mem p0 k0 dir src max n p k m :
  filled p0 k0 dir src max n p k -> page_get_current m = page_get_current (k_mem k) ->
  (forall d a, peek m d a = peek (k_mem k) d a) -> (forall d b sz, own_area (k_mem k) d b sz -> own_area m d b sz) ->
  filled p0 k0 dir src max n p (k <| k_mem := m |>).
Proof.
  intros [F1 F2 F3 F4 (m0 & -> & Hm) F6 F7] Hc Hp Ho. constructor; try done.
  - exists m. split; [by destruct k0|exact (eq_trans Hc Hm)].
  - intros d a. exact (eq_trans (Hp d a) (F6 d a)).
  - intros d b sz Hown. by apply Ho, F7.
Qed.

Lemma filled_step p0 k0 dir src max n p k l :
  filled p0 k0 dir src max n p k -> n + zlen l <= max -> n < max -> zlen l <= N - write_pos p -> zlen l <= N - psize p ->
  (forall j x, zget l j = Some x -> peek (k_mem k) dir (src + n + j) = Some x) ->
  filled p0 k0 dir src max (n + zlen l) (put_in p l) k.
Proof.
  intros [[F1 F1'] (l0 & F2 & F2' & F2'') (b & wp & Fp) F4 F5 F6 F7] Hmax Hlt Hrun Hroom Hpeek. pose proof (zlen_nonneg l).
  constructor; try done.
  - lia.
  - exists (l0 ++ l). split_and!.
    + rewrite zlen_app. lia.
    + rewrite put_in_contents, F2' by (done || lia). by rewrite app_assoc.
    + intros j x. destruct (decide (j < zlen l0)).
      * rewrite zget_app_l by done. by apply F2''.
      * rewrite zget_app_r by lia. intros Hj. apply Hpeek in Hj. rewrite F6 in Hj. rewrite <-Hj. f_equal. lia.
  - exists (splice (buf p) (write_pos p) l), (Z.rem (write_pos p + zlen l) FS_PIPE_BUF_SIZE).
    subst p. unfold put_in. destruct p0. simpl. f_equal. lia.
  - apply put_in_ok; [done..|lia].
Qed.

Lemma fill_loop_spec p0 k0 dir src max i fuel written p k :
  filled p0 k0 dir src max written p k -> N - psize p < Z.of_nat fuel -> readable src max -> dir_of k0 i = Some dir ->
  exits (fill_loop fuel p i src max written) (fun r k' => filled p0 k0 dir src max (fst r) (snd r) k') k.
Proof.
  revert written p k. induction fuel as [|fuel IH]; intros written p k Hf Hfuel Hro Hdir;
    [pose proof (po_size _ (fi_ok _ _ _ _ _ _ _ _ Hf)); lia|].
  cbn [fill_loop]. pose proof (fi_n _ _ _ _ _ _ _ _ Hf) as Hn. unfold FS_PIPE_BUF_SIZE in *.
  destruct ((written <? max) && (psize p <? 4096)) eqn:Hc; [|by apply exits_ret].
  apply andb_true_iff in Hc as [Hc1%Z.ltb_lt Hc2%Z.ltb_lt].
  pose proof (fi_ok _ _ _ _ _ _ _ _ Hf) as Hp. pose proof Hp as [P1 P2 P3 P4]. cbv zeta.
  assert (Hw : 0 <= write_pos p < 4096) by (rewrite P4; apply Z.mod_pos_bound; done).
  set (chunk := Z.min (Z.min (max - written) (4096 - write_pos p)) (4096 - psize p)).
  assert (Hch : 0 < chunk /\ written + chunk <= max /\ chunk <= 4096 - write_pos p /\ chunk <= 4096 - psize p) by lia.
  clearbody chunk. destruct Hch as (Hch & Hch1 & Hch2 & Hch3). destruct Hro as [R1 R2].
  rewrite u32_id by lia.
  eapply exits_bind; [apply (exits_copy_in k i dir)|].
  { destruct (fi_k _ _ _ _ _ _ _ _ Hf) as (m0 & -> & Hm0). by rewrite dir_of_mem. }
  { split; lia. }
  intros [l|] k' (m & -> & Hcur & Hpk & Hown & Hl); pose proof (filled_mem _ _ _ _ _ _ _ _ m Hf Hcur Hpk Hown) as Hf';
    [|by apply exits_ret].
  destruct Hl as [Hlen Hbytes].
  assert (Hf'' := filled_step _ _ _ _ _ _ _ _ l Hf' ltac:(lia) Hc1 ltac:(lia) ltac:(lia)
    ltac:(intros j x Hj; rewrite <-(Hbytes j x Hj); exact (Hpk _ _))).
  apply exits_if; intros Hlt; [by apply exits_ret|apply Z.ltb_ge in Hlt].
  apply IH; try done. change (psize _) with (psize p + zlen l). lia.
Qed.

Lemma filled_nil p k dir src max : pipe_ok p -> filled p k dir src max 0 p k.
Proof.
  intros Hp. constructor; try done.
  - exists []. split; [done|]. split; [by rewrite app_nil_r|]. intros j x Hj. unfold zget in Hj. by case_match.
  - exists (buf p), (write_pos p). destruct p. simpl. f_equal. lia.
  - exists (k_mem k). split; [by destruct k|done].
Qed.

Lemma drained_nil p k dir dest max : pipe_ok p -> own_area (k_mem k) dir dest max -> drained p k dir dest max 0 p k.
Proof.
  intros Hp Ho. pose proof (po_size p Hp). constructor; try done.
  - lia.
  - exists (read_pos p). destruct p. simpl. f_equal. lia.
  - exists (k_mem k). split; [by destruct k|done].
  - lia.
Qed.

(** ** What one operation does

    [took p k i addr got p' k']: the bytes [got] left the ring and are now in the memory of
    task [i]; [gave p k i addr sent p' k']: the bytes [sent], which were there, entered it. *)
Definition same_ring p q : Prop :=
  buf q = buf p /\ read_pos q = read_pos p /\ write_pos q = write_pos p /\ psize q = psize p.

Lemma same_ring_contents p q : same_ring p q -> contents q = contents p.
Proof. intros (H1 & H2 & H3 & H4). unfold contents, ring. by rewrite H1, H2, H4. Qed.

Lemma same_ring_ok p q : same_ring p q -> pipe_ok p -> pipe_ok q.
Proof. intros (H1 & H2 & H3 & H4) [P1 P2 P3 P4]. by constructor; rewrite ?H1, ?H2, ?H3, ?H4. Qed.

Definition waiting p : Z * Z * Z * Z * Z * Z :=
  (read_waiting_task p, read_buf p, read_size p, write_waiting_task p, write_buf p, write_size p).

Record took p k (i addr : Z) (got : list Z) p' k' : Prop := {
  tk_ok : pipe_ok p';
  tk_contents : contents p = got ++ contents p';
  tk_bytes : bytes_at k' i addr got;
  tk_dirs j : dir_of k' j = dir_of k j }.

Record gave p k (i addr : Z) (sent : list Z) p' k' : Prop := {
  gv_ok : pipe_ok p';
  gv_contents : contents p' = contents p ++ sent;
  gv_bytes : bytes_at k i addr sent;
  gv_dirs j : dir_of k' j = dir_of k j;
  gv_peek d a : peek (k_mem k') d a = peek (k_mem k) d a;
  gv_own d b sz : own_area (k_mem k) d b sz -> own_area (k_mem k') d b sz }.

Lemma took_drained p k dir i addr max n q p' k' :
  pipe_ok p -> drained p k dir addr max n q k' -> dir_of k i = Some dir -> same_ring q p' ->
  exists got, zlen got = n /\ took p k i addr got p' k'.
Proof.
  intros Hp [D1 D2 D3 D4 (m & -> & Hm) D6 D7] Hdir Hs. exists (take (Z.to_nat n) (contents p)).
  split; [apply zlen_take_contents; [done|lia]|]. constructor.
  - by eapply same_ring_ok.
  - by rewrite (same_ring_contents _ _ Hs), D4, take_drop.
  - exists dir. split; [by rewrite dir_of_mem|]. intros j x Hj. pose proof (zget_Some_range _ _ _ Hj).
    rewrite take_nth in Hj by lia. case_decide; [|done]. by apply D7; [lia|].
  - intros j. by apply dir_of_mem.
Qed.

Lemma gave_filled p k dir i addr max n q p' k' :
  filled p k dir addr max n q k' -> dir_of k i = Some dir -> same_ring q p' ->
  exists sent, zlen sent = n /\ gave p k i addr sent p' k'.
Proof.
  intros [F1 (l & F2 & F2' & F2'') F3 F4 (m & -> & Hm) F6 F7] Hdir Hs. exists l. split; [done|]. constructor; try done.
  - by eapply same_ring_ok.
  - by rewrite (same_ring_contents _ _ Hs).
  - by exists dir.
  - intros j. by apply dir_of_mem.
Qed.

(** ** Draining, filling, reading and writing *)

Lemma fs_pipe_drain_spec p k i dir dest max :
  pipe_ok p -> 0 <= i -> readable dest max -> dir_of k i = Some dir -> own_area (k_mem k) dir dest max ->
  exits (fs_pipe_drain p i dest max) (fun r k' => drained p k dir dest max (fst r) (snd r) k') k.
Proof.
  intros Hp Hi Hro Hdir Hown. pose proof (po_size p Hp).
  apply drain_loop_spec; [by apply drained_nil|lia|done..].
Qed.

Lemma fs_pipe_fill_spec p k i dir src max :
  pipe_ok p -> readable src max -> dir_of k i = Some dir ->
  exits (fs_pipe_fill p i src max) (fun r k' => filled p k dir src max (fst r) (snd r) k') k.
Proof.
  intros Hp Hro Hdir. pose proof (po_size p Hp). unfold fs_pipe_fill, FS_PIPE_BUF_SIZE.
  apply fill_loop_spec; [by apply filled_nil|lia|done..].
Qed.

Lemma same_ring_refl p : same_ring p p.
Proof. done. Qed.

(** What a write and a read return is the number of bytes, or a negative code. *)
Lemma fs_write_spec p k i addr size :
  pipe_ok p -> readable_at k i addr size ->
  exits (fs_write p addr size i) (fun r k' => exists sent, gave p k i addr sent (snd r) k' /\ zlen sent = Z.max 0 (fst r) /\
    (fst r <> FS_WRITE_WAIT -> waiting (snd r) = waiting p) /\ fst r <= Z.max 0 size) k.
Proof.
  intros Hp [Hro [dir Hdir]]. unfold fs_write, FS_WRITE_WAIT, FS_ERROR.
  apply exits_if; intros Hfull; [apply exits_if; intros Hi|].
  - apply exits_ret. destruct (gave_filled p k dir i addr size 0 p p k (filled_nil _ _ _ _ _ Hp) Hdir (same_ring_refl p)) as (l & Hl & Hg).
    exists l. cbn [fst snd]. split_and!; try done; lia.
  - apply exits_get_task. intros t Ht. apply exits_ret. cbn [fst snd].
    destruct (gave_filled p k dir i addr size 0 p (p <| write_waiting_task := i |> <| write_waiting_uid := task_uid t |>) k
      (filled_nil _ _ _ _ _ Hp) Hdir) as (l & Hl & Hg); [by destruct p|].
    exists l. split_and!; try done; lia.
  - eapply exits_bind; [by apply (fs_pipe_fill_spec p k i dir)|]. intros [n q] k' Hf. cbn [fst snd] in Hf.
    pose proof (fi_n _ _ _ _ _ _ _ _ Hf) as Hn.
    destruct (gave_filled p k dir i addr size n q q k' Hf Hdir (same_ring_refl q)) as (l & Hl & Hg).
    assert (Hw : waiting q = waiting p) by (destruct (fi_p _ _ _ _ _ _ _ _ Hf) as (b & wp & ->); by destruct p).
    apply exits_if; intros Hz; apply exits_ret; cbn [fst snd]; exists l; split_and!; try done; try lia.
Qed.

Lemma fs_read_spec p k i addr size :
  pipe_ok p -> writable_at k i addr size ->
  exits (fs_read p addr size i) (fun r k' => exists got, took p k i addr got (snd r) k' /\ zlen got = Z.max 0 (fst r) /\
    (fst r <> FS_BLOCKING -> waiting (snd r) = waiting p) /\ fst r <= Z.max 0 size) k.
Proof.
  intros Hp (Hi & Hro & dir & Hdir & Hown). unfold fs_read, FS_BLOCKING, FS_ERROR, FS_EOF.
  eapply exits_bind; [by apply (fs_pipe_drain_spec p k i dir)|]. intros [n q] k' Hd. cbn [fst snd] in Hd.
  pose proof (dr_n _ _ _ _ _ _ _ _ Hd) as Hn.
  assert (Hw : waiting q = waiting p) by (destruct (dr_p _ _ _ _ _ _ _ _ Hd) as (rp & ->); by destruct p).
  assert (Htook : forall p', same_ring q p' -> exists got, zlen got = n /\ took p k i addr got p' k')
    by (intros p'; by apply took_drained with dir size).
  destruct (Htook q (same_ring_refl q)) as (l & Hl & Hg).
  apply exits_if; intros H0; [|apply exits_if; intros H1; [|apply exits_if; intros H2]].
  1-3: apply exits_ret; cbn [fst snd]; exists l; split_and!; try done; lia.
  apply exits_get_task. intros t Ht. apply exits_ret. cbn [fst snd].
  destruct (Htook (q <| read_waiting_task := i |> <| read_waiting_uid := task_uid t |>)) as (l' & Hl' & Hg'); [by destruct q|].
  exists l'. split_and!; try done; lia.
Qed.

(** ** Waking the task on the other side *)

Definition ebx_of k (i : Z) : option Z := (fun t => ebx (registers t)) <$> zget (tasks k) i.

(** The number of bytes that task [i] is told it moved. *)
Definition count k (i : Z) : Z :=
  match ebx_of k i with Some e => if e =? u32 FS_ERROR then 0 else e | None => 0 end.

(** The memory and the address spaces stay. *)
Definition calm k k' : Prop := k_mem k' = k_mem k /\ forall j, dir_of k' j = dir_of k j.

Lemma pipe_upd_task k i t g :
  zget (tasks k) i = Some t -> t_process (g t) = t_process t -> calm k (k <| tasks := zset (tasks k) i (g t) |>).
Proof.
  intros Ht Hg. split; [by destruct k|]. intros j. unfold dir_of.
  change (tasks (k <| tasks := zset (tasks k) i (g t) |>)) with (zset (tasks k) i (g t)).
  change (processes (k <| tasks := zset (tasks k) i (g t) |>)) with (processes k).
  change (k_mem (k <| tasks := zset (tasks k) i (g t) |>)) with (k_mem k).
  destruct (j <? 0); [done|]. rewrite zget_zset. case_decide as Hd; [|done]. destruct Hd as [<- _]. rewrite Ht. simpl. by rewrite Hg.
Qed.

Lemma ebx_upd_task k i t g j :
  zget (tasks k) i = Some t ->
  ebx_of (k <| tasks := zset (tasks k) i (g t) |>) j = if decide (i = j) then Some (ebx (registers (g t))) else ebx_of k j.
Proof.
  intros Ht. unfold ebx_of. change (tasks (k <| tasks := zset (tasks k) i (g t) |>)) with (zset (tasks k) i (g t)).
  rewrite zget_zset. pose proof (zget_Some_range _ _ _ Ht). repeat case_decide; try done; tauto.
Qed.

Lemma exits_set_ebx {B} i v (f : unit -> K M B) Q k :
  (forall k', calm k k' -> ebx_of k' i = Some (u32 v) -> exits (f tt) Q k') -> exits (set_ebx i v ≫= f) Q k.
Proof.
  intros Hf. unfold set_ebx. apply exits_upd_task. intros t Ht. apply Hf.
  - apply (pipe_upd_task k i t (fun t => t <| registers := (registers t) <| ebx := u32 v |> |>) Ht). by destruct t.
  - rewrite (ebx_upd_task k i t (fun t => t <| registers := (registers t) <| ebx := u32 v |> |>) i Ht).
    rewrite decide_True by done. by destruct t as [? ? ? ? ? ? ? ? ? ? ? [] ].
Qed.

Lemma exits_task_resume {B} i (f : unit -> K M B) Q k :
  (forall k', calm k k' -> (forall j, ebx_of k' j = ebx_of k j) -> exits (f tt) Q k') -> exits (task_resume i ≫= f) Q k.
Proof.
  intros Hf. unfold task_resume. apply exits_upd_task. intros t Ht. apply Hf.
  - apply (pipe_upd_task k i t (fun t => t <| paused := false |> <| pause_reason := PAUSE_NONE |>) Ht). by destruct t.
  - intros j. rewrite (ebx_upd_task k i t (fun t => t <| paused := false |> <| pause_reason := PAUSE_NONE |>) j Ht).
    case_decide as Hj; [|done]. subst j. unfold ebx_of. rewrite Ht. by destruct t.
Qed.

Lemma exits_task_pause {B} i r (f : unit -> K M B) Q k :
  (forall k', calm k k' -> exits (f tt) Q k') -> exits (task_pause i r ≫= f) Q k.
Proof.
  intros Hf. unfold task_pause. apply exits_upd_task. intros t Ht. apply Hf.
  apply (pipe_upd_task k i t (fun t => t <| paused := true |> <| pause_reason := r |>) Ht). by destruct t.
Qed.

Lemma calm_trans k k' k'' : calm k k' -> calm k' k'' -> calm k k''.
Proof. intros [H1 H2] [H3 H4]. split; [congruence|]. intros j. by rewrite H4, H2. Qed.

Lemma bytes_calm k k' i a l : calm k k' -> bytes_at k i a l -> bytes_at k' i a l.
Proof. intros [Hm Hd] (dir & H1 & H2). exists dir. by rewrite Hd, Hm. Qed.

Lemma count_ebx k i n : 0 <= n <= N -> ebx_of k i = Some (u32 n) -> count k i = n.
Proof.
  intros Hn He. unfold count. rewrite He, u32_id by lia. change (u32 FS_ERROR) with 4294967295.
  destruct (Z.eqb_spec n 4294967295); [lia|done].
Qed.

(** What a wake-up did: the bytes [l] are in the memory of task [i], which was told their
    number, or nothing moved. *)
Definition told k (i addr : Z) (woken : bool) (l : list Z) : Prop :=
  if woken then bytes_at k i addr l /\ count k i = zlen l else l = [].

Lemma took_zlen p k i addr got p' k' : pipe_ok p -> took p k i addr got p' k' -> 0 <= zlen got <= N.
Proof.
  intros Hp [T1 T2 _ _]. pose proof (f_equal zlen T2) as Hl. rewrite zlen_app, !zlen_contents in Hl by done.
  pose proof (po_size _ Hp). pose proof (po_size _ T1). pose proof (zlen_nonneg got). lia.
Qed.

Lemma gave_zlen p k i addr sent p' k' : pipe_ok p -> gave p k i addr sent p' k' -> 0 <= zlen sent <= N.
Proof.
  intros Hp [G1 G2 _ _ _ _]. pose proof (f_equal zlen G2) as Hl. rewrite zlen_app, !zlen_contents in Hl by done.
  pose proof (po_size _ Hp). pose proof (po_size _ G1). pose proof (zlen_nonneg sent). lia.
Qed.

Lemma fs_pipe_wake_reader_spec p k :
  let i := read_waiting_task p in
  pipe_ok p -> (0 <= i -> writable_at k i (read_buf p) (read_size p)) ->
  exits (fs_pipe_wake_reader p) (fun r k' => exists got, pipe_ok (snd r) /\ contents p = got ++ contents (snd r) /\
    told k' i (read_buf p) (fst r) got /\ (0 <= i \/ fst r = false)) k.
Proof.
  intros i Hp Hw. unfold fs_pipe_wake_reader. fold i. apply exits_if; intros Hi.
  { apply exits_ret. exists []. by split_and!; try right. }
  apply Z.ltb_ge in Hi. destruct (Hw Hi) as (_ & Hro & dir & Hdir & Hown).
  apply exits_get_task. intros t Ht. apply exits_if; intros Hen.
  { apply exits_ret. exists []. cbn [fst snd]. split_and!; try done; [|by right]. by eapply same_ring_ok; [|done]; destruct p. }
  eapply (exits_bind _ _ (fun q k' => exists got, took p k i (read_buf p) got q k' /\ count k' i = zlen got)).
  - apply exits_if; intros Hb.
    + eapply exits_bind; [by apply (fs_pipe_drain_spec p k i dir)|]. intros [n q] k' Hd. cbn [fst snd] in *.
      destruct (took_drained p k dir i _ _ n q q k' Hp Hd Hdir (same_ring_refl q)) as (got & Hl & Htk).
      pose proof (took_zlen _ _ _ _ _ _ _ Hp Htk). apply exits_set_ebx. intros k'' Hcalm He. apply exits_ret.
      exists got. split; [|by rewrite (count_ebx _ _ n) by (done || lia)].
      destruct Htk as [T1 T2 T3 T4]. constructor; try done; [by eapply bytes_calm|].
      intros j. rewrite (proj2 Hcalm). apply T4.
    + apply exits_set_ebx. intros k' Hcalm He. apply exits_ret. exists []. split; [|unfold count; by rewrite He].
      constructor; try done; [|apply Hcalm]. exists dir. split; [by rewrite (proj2 Hcalm)|].
      intros j x Hj. unfold zget in Hj. by case_match.
  - intros q k' (got & [T1 T2 T3 T4] & Hc). apply exits_task_resume. intros k'' Hcalm He. apply exits_ret.
    exists got. cbn [fst snd]. assert (Hs : same_ring q (q <| read_waiting_task := -1 |>)) by by destruct q.
    split_and!; [by eapply same_ring_ok|by rewrite (same_ring_contents _ _ Hs)| |by left].
    split; [by eapply bytes_calm|]. unfold count in *. by rewrite He.
Qed.

Lemma fs_pipe_wake_writer_spec p k :
  let i := write_waiting_task p in
  pipe_ok p -> (0 <= i -> readable_at k i (write_buf p) (write_size p)) ->
  exits (fs_pipe_wake_writer p) (fun r k' => exists sent, pipe_ok (snd r) /\ contents (snd r) = contents p ++ sent /\
    told k' i (write_buf p) (fst r) sent /\ (0 <= i \/ fst r = false) /\
    forall j, dir_of k' j = dir_of k j /\ forall d a, peek (k_mem k') d a = peek (k_mem k) d a) k.
Proof.
  intros i Hp Hw. unfold fs_pipe_wake_writer. fold i. apply exits_if; intros Hi.
  { apply exits_ret. exists []. cbn [snd]. rewrite app_nil_r. by split_and!; try right. }
  apply Z.ltb_ge in Hi. destruct (Hw Hi) as (Hro & dir & Hdir).
  apply exits_get_task. intros t Ht. apply exits_if; intros Hen.
  { apply exits_ret. exists []. cbn [fst snd]. rewrite app_nil_r. split_and!; try done; [|by right]. by eapply same_ring_ok; [|done]; destruct p. }
  eapply (exits_bind _ _ (fun q k' => exists sent, gave p k i (write_buf p) sent q k' /\ count k' i = zlen sent)).
  - apply exits_if; intros Hb.
    + eapply exits_bind; [by apply (fs_pipe_fill_spec p k i dir)|]. intros [n q] k' Hd. cbn [fst snd] in *.
      destruct (gave_filled p k dir i _ _ n q q k' Hd Hdir (same_ring_refl q)) as (sent & Hl & Hg).
      pose proof (gave_zlen _ _ _ _ _ _ _ Hp Hg). apply exits_set_ebx. intros k'' [Hm Hcd] He. apply exits_ret.
      exists sent. split; [|by rewrite (count_ebx _ _ n) by (done || lia)].
      destruct Hg as [G1 G2 G3 G4 G5 G6]. constructor; try done; rewrite ?Hm; try done.
      intros j. by rewrite Hcd.
    + apply exits_set_ebx. intros k' [Hm Hcd] He. apply exits_ret. exists []. split; [|unfold count; by rewrite He].
      constructor; rewrite ?Hm; try done; [by rewrite app_nil_r|]. exists dir. split; [done|].
      intros j x Hj. unfold zget in Hj. by case_match.
  - intros q k' (sent & [G1 G2 G3 G4 G5 G6] & Hc). apply exits_task_resume. intros k'' [Hm Hcd] He. apply exits_ret.
    exists sent. cbn [fst snd]. assert (Hs : same_ring q (q <| write_waiting_task := -1 |>)) by by destruct q.
    split_and!; [by eapply same_ring_ok|by rewrite (same_ring_contents _ _ Hs)| |by left|].
    + split; [|unfold count in *; by rewrite He]. destruct G3 as (d & Hd & Hby). exists d.
      rewrite Hcd, G4, Hm. split; [done|]. intros j x Hj. rewrite G5. by apply Hby.
    + intros j. rewrite Hcd, Hm. by split.
Qed.

(** ** The calls *)

Lemma exits_validate k i addr max rw :
  exits (api_validate_maxsize i addr max rw) (fun n k' => k' = k /\ n <= Z.max 0 max) k.
Proof.
  unfold api_validate_maxsize. apply exits_get_task. intros t Ht. apply exits_get_process. intros pr Hpr.
  unfold exits. rewrite bind_gets. unfold deref. destruct (task_validate_maxsize _ _ _ _ _ _ _) eqn:Hv; [|done].
  split; [done|]. by eapply um_max.
Qed.

(** The buffers of the tasks that wait are still theirs. *)
Definition waiters_ok k p : Prop :=
  (0 <= read_waiting_task p -> writable_at k (read_waiting_task p) (read_buf p) (read_size p)) /\
  (0 <= write_waiting_task p -> readable_at k (write_waiting_task p) (write_buf p) (write_size p)).

(** The task that a call woke has the bytes [l] at [addr], and is told their number. *)
Definition woke k (a : after) (i addr : Z) (l : list Z) : Prop :=
  match a with SwitchTo j => j = i /\ bytes_at k i addr l /\ count k i = zlen l | _ => l = [] end.

Lemma told_woke k i addr b l : told k i addr b l -> woke k (if b then SwitchTo i else Stay) i addr l.
Proof. by destruct b. Qed.

Lemma api_write_spec k p i addr size :
  pipe_ok p -> 0 <= i -> readable_at k i addr (Z.max 0 size) -> waiters_ok k p ->
  exits (api_write i p addr size) (fun r k' => exists sent got,
    pipe_ok (snd (fst r)) /\ contents p ++ sent = got ++ contents (snd (fst r)) /\
    bytes_at k i addr sent /\ zlen sent = Z.max 0 (fst (fst r)) /\
    woke k' (snd r) (read_waiting_task p) (read_buf p) got /\ fst (fst r) <= Z.max 0 size) k.
Proof.
  intros Hp Hi [[R1 R2] [dir Hdir]] [Hwr _].
  assert (Hnil : bytes_at k i addr []) by (exists dir; split; [done|]; intros j x Hj; unfold zget in Hj; by case_match).
  unfold api_write. eapply exits_bind; [apply exits_validate|]. intros n k0 [-> Hn]. apply exits_if; intros Hbad.
  { apply exits_ret. exists [], []. cbn [fst snd]. rewrite app_nil_r. split_and!; try done; lia. }
  eapply exits_bind; [apply (fs_write_spec p k i addr n Hp)|].
  { split; [split; lia|by exists dir]. }
  intros [res q] k' (sent & [G1 G2 G3 G4 G5 G6] & Hl & Hw & Hle). cbn [fst snd] in *. apply exits_if; intros Hres.
  { apply Z.eqb_eq in Hres. rewrite Hres in Hl. destruct sent; [|exfalso; rewrite zlen_cons in Hl; pose proof (zlen_nonneg sent); unfold FS_WRITE_WAIT in Hl; lia].
    apply exits_task_pause. intros k'' _. apply exits_ret. exists [], []. cbn [fst snd].
    assert (Hs : same_ring q (q <| write_buf := addr |> <| write_size := n |>)) by by destruct q.
    split_and!; [by eapply same_ring_ok|by rewrite (same_ring_contents _ _ Hs), G2|done|by rewrite Hres|done|lia]. }
  apply Z.eqb_neq in Hres. specialize (Hw Hres). unfold waiting in Hw. injection Hw as W1 W2 W3 W4 W5 W6.
  assert (Hwait : 0 <= read_waiting_task q -> writable_at k' (read_waiting_task q) (read_buf q) (read_size q)).
  { rewrite W1, W2, W3. intros Hi0. destruct (Hwr Hi0) as (H1 & H2 & d & H3 & H4). split; [done|]. split; [done|].
    exists d. rewrite G4. auto. }
  unfold wake_other. destruct ((0 <? res) && _) eqn:Hc.
  - apply exits_seq. eapply exits_bind; [by apply fs_pipe_wake_reader_spec|].
    intros [b q'] k'' (got & T1 & T2 & T3 & _). cbn [fst snd] in *. apply exits_ret. exists sent, got. cbn [fst snd].
    rewrite <-W1, <-W2. split_and!; try done; [by rewrite <-G2|by apply told_woke|lia].
  - apply exits_ret. exists sent, []. split_and!; try done. cbn [fst]. lia.
Qed.

Lemma api_read_spec k p i addr size :
  pipe_ok p -> 0 <= i -> writable_at k i addr (Z.max 0 size) -> waiters_ok k p ->
  exits (api_read i p addr size) (fun r k' => exists sent got,
    pipe_ok (snd (fst r)) /\ contents p ++ sent = got ++ contents (snd (fst r)) /\
    bytes_at k' i addr got /\ zlen got = Z.max 0 (fst (fst r)) /\
    woke k' (snd r) (write_waiting_task p) (write_buf p) sent /\ fst (fst r) <= Z.max 0 size) k.
Proof.
  intros Hp Hi Hbuf [_ Hwr]. pose proof Hbuf as (_ & Hro & dir & Hdir & Hown).
  assert (Hnil : bytes_at k i addr []) by (exists dir; split; [done|]; intros j x Hj; unfold zget in Hj; by case_match).
  unfold api_read. apply exits_if; intros H0; [|apply exits_if; intros H1].
  1-2: apply exits_ret; exists [], []; cbn [fst snd]; rewrite app_nil_r; split_and!; try done; lia.
  eapply exits_bind; [apply (fs_read_spec p k i addr size Hp)|].
  { rewrite Z.max_r in Hbuf by lia. done. }
  intros [res q] k' (got & [T1 T2 T3 T4] & Hl & Hw & Hle). cbn [fst snd] in *. apply exits_if; intros Hres.
  { assert (got = []) as ->.
    { apply Z.eqb_eq in Hres. rewrite Hres in Hl. destruct got; [done|]. rewrite zlen_cons in Hl. pose proof (zlen_nonneg got). unfold FS_BLOCKING in Hl. lia. }
    cbv zeta. eapply exits_bind; [apply exits_validate|]. intros n k0 [-> _]. apply exits_if; intros Hbad.
    - apply exits_ret. exists [], []. cbn [fst snd]. rewrite app_nil_r. split_and!; try done; lia.
    - apply exits_task_pause. intros k'' Hc. apply exits_ret. exists [], []. cbn [fst snd]. rewrite app_nil_r.
      assert (Hs : same_ring q (q <| read_buf := addr |> <| read_size := n |>)) by by destruct q.
      split_and!; [by eapply same_ring_ok|by rewrite (same_ring_contents _ _ Hs)|by eapply bytes_calm|done|done|lia]. }
  apply Z.eqb_neq in Hres. specialize (Hw Hres). unfold waiting in Hw. injection Hw as W1 W2 W3 W4 W5 W6.
  assert (Hwait : 0 <= write_waiting_task q -> readable_at k' (write_waiting_task q) (write_buf q) (write_size q)).
  { rewrite W4, W5, W6. intros Hi0. destruct (Hwr Hi0) as (H2 & d & H3). split; [done|]. exists d. by rewrite T4. }
  unfold wake_other. destruct ((0 <? res) && _) eqn:Hc.
  - apply exits_seq. eapply exits_bind; [by apply fs_pipe_wake_writer_spec|].
    intros [b q'] k'' (sent & G1 & G2 & G3 & _ & G4). cbn [fst snd] in *. apply exits_ret. exists sent, got. cbn [fst snd].
    rewrite <-W4, <-W5. split_and!; try done; [by rewrite T2, G2, app_assoc| |by apply told_woke].
    destruct T3 as (d & Hd & Hby). exists d. rewrite (proj1 (G4 i)). split; [done|]. intros j x Hj.
    rewrite (proj2 (G4 i)). by apply Hby.
  - apply exits_ret. exists [], got. cbn [fst snd]. rewrite app_nil_r. split_and!; try done; lia.
Qed.

Lemma task_write_to_pipe_spec k p addr size :
  pipe_ok p -> readable_at k (-1) addr size -> waiters_ok k p ->
  exits (task_write_to_pipe p addr size) (fun r k' => exists sent got,
    pipe_ok (snd (fst r)) /\ contents p ++ sent = got ++ contents (snd (fst r)) /\
    bytes_at k (-1) addr sent /\ zlen sent = Z.max 0 (fst (fst r)) /\
    told k' (read_waiting_task p) (read_buf p) (snd r) got) k.
Proof.
  intros Hp Hr [Hwr _]. unfold task_write_to_pipe. eapply exits_bind; [by apply (fs_write_spec p k (-1) addr size)|].
  intros [n q] k' (sent & [G1 G2 G3 G4 G5 G6] & Hl & Hw & _). cbn [fst snd] in *. apply exits_if; intros Hn.
  - assert (Hne : n <> FS_WRITE_WAIT) by (unfold FS_WRITE_WAIT; lia). specialize (Hw Hne).
    unfold waiting in Hw. injection Hw as W1 W2 W3 W4 W5 W6.
    eapply exits_bind.
    { apply fs_pipe_wake_reader_spec; [done|]. rewrite W1, W2, W3. intros Hi0.
      destruct (Hwr Hi0) as (H1 & H2 & d & H3 & H4). split; [done|]. split; [done|]. exists d. rewrite G4. auto. }
    intros [b q'] k'' (got & T1 & T2 & T3 & _). cbn [fst snd] in *. apply exits_ret. exists sent, got. cbn [fst snd].
    rewrite <-W1, <-W2. split_and!; try done. by rewrite <-G2.
  - apply exits_ret. exists sent, []. by split_and!.
Qed.

Lemma wake_eof_exits k i uid : exits (wake_eof i uid) (fun _ _ => True) k.
Proof.
  unfold wake_eof. apply exits_get_task. intros t Ht. unfold when. apply exits_if; intros _; [|done].
  apply exits_task_resume. intros k' _ _. apply exits_last, exits_set_ebx. done.
Qed.

(** Closing an end does not touch the bytes. *)
Lemma fs_close_pipe_spec p flags k :
  exits (fs_close_pipe p flags) (fun r _ => forall q, r = Some q -> same_ring p q) k.
Proof.
  unfold fs_close_pipe. cbv zeta.
  set (p1 := if negb (Z.land flags _ =? 0) then _ else p). assert (Hs : same_ring p p1) by (unfold p1; case_match; by destruct p).
  clearbody p1. eapply (exits_bind _ _ (fun _ _ => True)).
  { unfold when. apply exits_if; intros _; [apply wake_eof_exits|done]. }
  set (p2 := p1 <| read_waiting_task := -1 |>). assert (Hs2 : same_ring p p2) by by destruct p1.
  clearbody p2. intros _ k1 _. eapply (exits_bind _ _ (fun _ _ => True)).
  { unfold when. apply exits_if; intros _; [apply wake_eof_exits|done]. }
  set (p3 := if negb (write_waiting_task p2 =? -1) then _ else p2).
  assert (Hs3 : same_ring p p3) by (unfold p3; case_match; by destruct p2).
  clearbody p3. intros _ k2 _. apply exits_ret. intros q Hq. case_match; [done|]. injection Hq as <-.
  case_match; [by destruct p3|done].
Qed.

(** ** Histories

    One step is a call on the pipe by some task, the closing of an end, or anything that
    happens elsewhere. What a step sends and delivers is what can be observed: the bytes at
    the buffer of the task, as many as the call returns or as the woken task is told. *)
Inductive pipe_step : fs_pipe_t * kern M -> list Z -> list Z -> fs_pipe_t * kern M -> Prop :=
  | step_write p k i addr size res p' a k' sent got :
      0 <= i -> readable_at k i addr (Z.max 0 size) -> waiters_ok k p ->
      api_write i p addr size k = Ret (res, p', a) k' ->
      bytes_at k i addr sent -> zlen sent = Z.max 0 res ->
      woke k' a (read_waiting_task p) (read_buf p) got ->
      pipe_step (p, k) sent got (p', k')
  | step_read p k i addr size res p' a k' sent got :
      0 <= i -> writable_at k i addr (Z.max 0 size) -> waiters_ok k p ->
      api_read i p addr size k = Ret (res, p', a) k' ->
      bytes_at k' i addr got -> zlen got = Z.max 0 res ->
      woke k' a (write_waiting_task p) (write_buf p) sent ->
      pipe_step (p, k) sent got (p', k')
  | step_print p k addr size res p' b k' sent got :
      readable_at k (-1) addr size -> waiters_ok k p ->
      task_write_to_pipe p addr size k = Ret (res, p', b) k' ->
      bytes_at k (-1) addr sent -> zlen sent = Z.max 0 res ->
      told k' (read_waiting_task p) (read_buf p) b got ->
      pipe_step (p, k) sent got (p', k')
  | step_close p k flags p' k' :
      fs_close_pipe p flags k = Ret (Some p') k' -> pipe_step (p, k) [] [] (p', k')
  | step_elsewhere p k k' : pipe_step (p, k) [] [] (p, k').

Inductive pipe_run (s : fs_pipe_t * kern M) : list Z -> list Z -> fs_pipe_t * kern M -> Prop :=
  | run_nil : pipe_run s [] [] s
  | run_step sent got s' l l' s'' :
      pipe_run s sent got s' -> pipe_step s' l l' s'' -> pipe_run s (sent ++ l) (got ++ l') s''.

Lemma bytes_unique k i a l l' : bytes_at k i a l -> bytes_at k i a l' -> zlen l = zlen l' -> l = l'.
Proof.
  intros (d & Hd & Hl) (d' & Hd' & Hl') Hz. assert (d' = d) as -> by congruence.
  apply (zget_ext_len _ _ (zlen l)); [done|done|]. intros j Hj.
  destruct (zget_is_Some l j Hj) as [x Hx]. destruct (zget_is_Some l' j ltac:(lia)) as [y Hy].
  rewrite Hx, Hy, <-(Hl j x Hx). by apply Hl'.
Qed.

Lemma told_unique k i a b l l' : told k i a b l -> told k i a b l' -> l = l'.
Proof. unfold told. destruct b; [|congruence]. intros [H1 H2] [H3 H4]. eapply bytes_unique; [done..|congruence]. Qed.

Lemma woke_unique k a i addr l l' : woke k a i addr l -> woke k a i addr l' -> l = l'.
Proof.
  unfold woke. destruct a as [| |j]; try congruence. intros (_ & H1 & H2) (_ & H3 & H4). eapply bytes_unique; [done..|congruence].
Qed.

Lemma pipe_step_ok p k l l' p' k' :
  pipe_ok p -> pipe_step (p, k) l l' (p', k') -> pipe_ok p' /\ contents p ++ l = l' ++ contents p'.
Proof.
  intros Hp. inversion 1; subst.
  - destruct (exits_Ret _ _ _ _ _ (api_write_spec k p i addr size Hp ltac:(done) ltac:(done) ltac:(done)) ltac:(eassumption))
      as (s & g & Hok & Hc & Hs & Hz & Hg & _). cbn [fst snd] in *.
    assert (l = s) as -> by (eapply bytes_unique; [done..|congruence]). assert (l' = g) as -> by (by eapply woke_unique). done.
  - destruct (exits_Ret _ _ _ _ _ (api_read_spec k p i addr size Hp ltac:(done) ltac:(done) ltac:(done)) ltac:(eassumption))
      as (s & g & Hok & Hc & Hs & Hz & Hg & _). cbn [fst snd] in *.
    assert (l' = g) as -> by (eapply bytes_unique; [done..|congruence]). assert (l = s) as -> by (by eapply woke_unique). done.
  - destruct (exits_Ret _ _ _ _ _ (task_write_to_pipe_spec k p addr size Hp ltac:(done) ltac:(done)) ltac:(eassumption))
      as (s & g & Hok & Hc & Hs & Hz & Hg). cbn [fst snd] in *.
    assert (l = s) as -> by (eapply bytes_unique; [done..|congruence]). assert (l' = g) as -> by (by eapply told_unique). done.
  - pose proof (exits_Ret _ _ _ _ _ (fs_close_pipe_spec p flags k) ltac:(eassumption) p' eq_refl) as Hs.
    split; [by eapply same_ring_ok|]. by rewrite (same_ring_contents _ _ Hs), app_nil_r.
  - by rewrite app_nil_r.
Qed.

Lemma pipe_init_ok : pipe_ok pipe_init.
Proof. constructor; [by vm_compute|unfold pipe_init; simpl; lia..|done]. Qed.

(** C9: whatever tasks do with a pipe, and however they are interleaved, made to wait and
    woken, the bytes sent into it are the bytes delivered, in the same order, followed by
    the ones still in the ring, which never holds more than 4096. *)
Theorem pipe_fifo k k' p sent got :
  pipe_run (pipe_init, k) sent got (p, k') ->
  sent = got ++ contents p /\ zlen (contents p) = psize p /\ 0 <= psize p <= FS_PIPE_BUF_SIZE.
Proof.
  intros Hrun. enough (pipe_ok p /\ sent = got ++ contents p) as [Hp ->].
  { split; [done|]. split; [by apply zlen_contents|apply (po_size p Hp)]. }
  remember (p, k') as s eqn:Hs. revert p k' Hs.
  induction Hrun as [|sent got [p1 k1] l l' s'' _ IH Hstep]; intros p k' Hs.
  - injection Hs as <- _. split; [apply pipe_init_ok|done].
  - subst s''. destruct (IH p1 k1 eq_refl) as [Hp ->]. destruct (pipe_step_ok _ _ _ _ _ _ Hp Hstep) as [Hp' Hc].
    split; [done|]. by rewrite <-!app_assoc, Hc.
Qed.

(** C27: every call on a pipe ends, in the task that made it or with a task to go to next: it
    does not panic or run on, and it says it moved no more bytes than it was asked to. *)
Theorem pipe_calls_end k p i addr size :
  pipe_ok p -> 0 <= i -> writable_at k i addr (Z.max 0 size) -> waiters_ok k p ->
  exits (api_write i p addr size) (fun r _ => fst (fst r) <= Z.max 0 size) k /\
  exits (api_read i p addr size) (fun r _ => fst (fst r) <= Z.max 0 size) k.
Proof.
  intros Hp Hi Hw Hk. pose proof Hw as (_ & Hro & dir & Hdir & _). split.
  - eapply exits_mono; [apply api_write_spec; [done..|by split; [|exists dir]|done]|].
    by intros [[res q] a] k' (s & g & _ & _ & _ & _ & _ & Hle).
  - eapply exits_mono; [by apply api_read_spec|].
    by intros [[res q] a] k' (s & g & _ & _ & _ & _ & _ & Hle).
Qed.

End spec.

(** ** Two tasks and a pipe *)

(** A memory with bytes: each address space maps the addresses that were ever stored. *)
Record umem := Umem { um_dir : Z; um_byte : Z -> Z -> option Z }.

Definition um_store (f : Z -> Z -> option Z) (dir dest : Z) (l : list Z) (d a : Z) : option Z :=
  if bool_decide (d = dir /\ dest <= a < dest + zlen l) then zget l (a - dest) else f d a.

Definition um_load (m : umem) (dir src size : Z) : option (list Z) :=
  mapM (fun j => um_byte m dir (src + j)) (seqZ 0 size).

#[global, program] Instance umem_space : Space umem := {
  page_get_current m := um_dir m;
  swap_pagedir m d := Umem d (um_byte m);
  copy_to_task m dir _ _ dest src := Some (zlen src, Umem (um_dir m) (um_store (um_byte m) dir dest src));
  copy_from_task m dir _ _ src size := Some (um_load m dir src size, m);
  read_user m src size := um_load m (um_dir m) src size;
  task_validate_mem _ _ _ _ _ len _ := Some (0 <=? len);
  task_validate_maxsize _ _ _ _ _ len _ := Some (Z.max len (-1));
  Kern.malloc m _ := (0, m);
  Kern.free m _ _ := m }.
Solve Obligations with by intros; simplify_eq/=.

Lemma um_load_spec m dir src size l : um_load m dir src size = Some l ->
  zlen l <= Z.max 0 size /\ forall i x, zget l i = Some x -> um_byte m dir (src + i) = Some x.
Proof.
  intros Hl%mapM_Some. pose proof (Forall2_length _ _ _ Hl) as Hlen. rewrite length_seqZ in Hlen.
  split; [unfold zlen; lia|]. intros i x Hx. pose proof (zget_Some_range _ _ _ Hx) as Hr. unfold zlen in Hr.
  unfold zget in Hx. rewrite (proj2 (Z.leb_le 0 i)) in Hx by lia.
  destruct (Forall2_lookup_r _ _ _ _ _ Hl Hx) as (j & Hj & Hb). apply lookup_seqZ in Hj as [-> _].
  by rewrite Z.add_0_l, Z2Nat.id in Hb by lia.
Qed.

#[export, program] Instance umem_user : UserMem umem := {
  peek m d a := um_byte m d a;
  own_area _ _ _ _ := True }.
Next Obligation.
  intros m dir hs he dest src n m' base size Hc _ Hb Hd. injection Hc as <- <-. split; [done|]. split; [done|]. simpl. unfold um_store. split.
  - intros i Hi. rewrite bool_decide_eq_true_2 by lia. f_equal. lia.
  - intros a x Ha Hn Hx. by rewrite bool_decide_eq_false_2 by tauto.
Qed.
Next Obligation. intros. simplify_eq/=. done. Qed.
Next Obligation.
  intros m dir hs he src size l m' H0 H1 Hc. injection Hc as Hl <-. by apply um_load_spec.
Qed.
Next Obligation. intros m src size l H0 H1 Hl. by apply um_load_spec. Qed.
Next Obligation. intros m dir hs he addr len rw n Hn. injection Hn as <-. lia. Qed.

Definition hello : list Z := [104; 101; 108; 108; 111].

(** Tasks 1 and 2; the message is in the memory of task 1, whose directory is 0x200000, and
    the buffer of task 2 holds zeros. *)
Definition pipe_kern : kern umem :=
  let k := demo_kern 1 in
  Kern umem (tasks k) 1 true (k_esp k) (tss_esp0 k)
    (Umem 0x200000 (um_store (um_store (fun _ _ => None) 0x200000 0x500000 hello) 0x300000 0x600000 (replicate 8 0)))
    (processes k) ∅ 0 ∅ ∅ 0 0 1 (timed k) (futexes k) 3 3 0.

Definition call_state {A} (r : res umem (A * fs_pipe_t * after)) : fs_pipe_t * kern umem :=
  match r with Ret (_, p, _) k => (p, k) | _ => (pipe_init, pipe_kern) end.
Definition call_result {A} (r : res umem (A * fs_pipe_t * after)) : option (A * after) :=
  match r with Ret (n, _, a) _ => Some (n, a) | _ => None end.

(** Task 2 reads and has to wait; task 1 writes five bytes, of which three go to task 2. *)
Definition pipe_1 := call_state (api_read 2 pipe_init 0x600000 3 pipe_kern).
Definition pipe_2 := call_state (api_write 1 (fst pipe_1) 0x500000 5 (snd pipe_1)).

Lemma call_ret {A} (r : res umem (A * fs_pipe_t * after)) n a :
  call_result r = Some (n, a) -> r = Ret (n, fst (call_state r), a) (snd (call_state r)).
Proof. by destruct r as [[[n' p] a'] k| | | |]; intros [= -> ->]. Qed.

(** Concrete bytes in memory. *)
Lemma bytes_computed (k : kern umem) i addr l d :
  dir_of k i = Some d -> (fun j => um_byte (k_mem k) d (addr + j)) <$> seqZ 0 (zlen l) = Some <$> l -> bytes_at k i addr l.
Proof.
  intros Hd Hl. exists d. split; [done|]. intros j x Hj. pose proof (zget_Some_range _ _ _ Hj) as Hr.
  unfold zget in Hj. rewrite (proj2 (Z.leb_le 0 j)) in Hj by lia.
  apply (f_equal (fun l => l !! Z.to_nat j)) in Hl. rewrite !list_lookup_fmap, lookup_seqZ_lt, Hj in Hl by lia.
  simpl in *. rewrite Z.add_0_l, Z2Nat.id in Hl by lia. congruence.
Qed.

Lemma pipe_1_ret : api_read 2 pipe_init 0x600000 3 pipe_kern = Ret (-2, fst pipe_1, Yield) (snd pipe_1).
Proof. unfold pipe_1. apply call_ret. vm_compute. reflexivity. Qed.

Lemma pipe_2_ret :
  api_write 1 (fst pipe_1) 0x500000 5 (snd pipe_1) = Ret (5, fst pipe_2, SwitchTo 2) (snd pipe_2).
Proof. unfold pipe_2. apply call_ret. vm_compute. reflexivity. Qed.

Lemma pipe_demo : pipe_run (pipe_init, pipe_kern) hello [104; 101; 108] pipe_2.
Proof.
  apply (run_step _ [] [] pipe_1 hello [104; 101; 108]); [apply (run_step _ [] [] (pipe_init, pipe_kern) [] [])|].
  - constructor.
  - apply (step_read pipe_init pipe_kern 2 0x600000 3 (-2) (fst pipe_1) Yield (snd pipe_1)); try lia.
    + split; [lia|]. split; [split; lia|]. exists 0x300000. split; [vm_compute; reflexivity|done].
    + split; intros H; exfalso; vm_compute in H; by apply H.
    + apply pipe_1_ret.
    + apply (bytes_computed _ _ _ _ 0x300000); vm_compute; reflexivity.
    + reflexivity.
    + reflexivity.
  - destruct pipe_2 as [p2 k2] eqn:E2. destruct pipe_1 as [p1 k1] eqn:E1.
    replace p2 with (fst pipe_2) by (by rewrite E2). replace k2 with (snd pipe_2) by (by rewrite E2). 
    replace p1 with (fst pipe_1) by (by rewrite E1). replace k1 with (snd pipe_1) by (by rewrite E1). clear.
    apply (step_write (fst pipe_1) (snd pipe_1) 1 0x500000 5 5 (fst pipe_2) (SwitchTo 2) (snd pipe_2)); try lia.
    + split; [split; lia|]. exists 0x200000. vm_compute. reflexivity.
    + split; intros H.
      * split; [done|]. split; [split; vm_compute; congruence|]. exists 0x300000. split; [vm_compute; reflexivity|done].
      * exfalso. vm_compute in H. by apply H.
    + apply pipe_2_ret.
    + apply (bytes_computed _ _ _ _ 0x200000); vm_compute; reflexivity.
    + reflexivity.
    + split; [vm_compute; reflexivity|]. split; [|vm_compute; reflexivity].
      apply (bytes_computed _ _ _ _ 0x300000); vm_compute; reflexivity.
Qed.

Lemma pipe_fifo_witness : hello = [104; 101; 108] ++ contents (fst pipe_2).
Proof.
  apply (pipe_fifo pipe_kern (snd pipe_2) (fst pipe_2) hello [104; 101; 108]).
  rewrite <-surjective_pairing. apply pipe_demo.
Defined.

Lemma pipe_calls_end_witness :
  exits (api_write 2 pipe_init 0x600000 3) (fun r _ => fst (fst r) <= 3) pipe_kern /\
  exits (api_read 2 pipe_init 0x600000 3) (fun r _ => fst (fst r) <= 3) pipe_kern.
Proof.
  apply (pipe_calls_end pipe_kern pipe_init 2 0x600000 3).
  - apply pipe_init_ok.
  - lia.
  - split; [lia|]. split; [split; lia|]. exists 0x300000. split; [vm_compute; reflexivity|done].
  - split; intros H; exfalso; vm_compute in H; by apply H.
Defined.
