(* ===== verification/USort.v ===== *)
(** * Sorting in user programs (usr/lib/sort.c)

    Hoare's quicksort over an array of [n] elements of any size and the comparison the
    caller passes. The array is the list of its elements ([arr + i * size] is the element
    [i]); an access outside it, or a comparison that faults, is [None]. *)

From S2P Require Import Prelude CString.

Local Open Scope Z_scope.

(** ** The code *)

Section code.
Context {A : Type} (cmp : A -> A -> option Z).
Implicit Types (arr : list A).

(** The three [memcpy]s through [temp]. *)
Definition swap arr (a b : Z) : option (list A) :=
  x ← zget arr a; y ← zget arr b; Some (zset (zset arr a y) b x).

(** [do { i++; } while(cmp(arr + i * size, pivot) < 0);] *)
Fixpoint scan_up (fuel : nat) arr (pivot : A) (i : Z) : option Z :=
  match fuel with
  | O => None
  | S fuel =>
      x ← zget arr (i + 1); c ← cmp x pivot;
      if c <? 0 then scan_up fuel arr pivot (i + 1) else Some (i + 1)
  end.

(** [do { j--; } while(cmp(arr + j * size, pivot) > 0);] *)
Fixpoint scan_down (fuel : nat) arr (pivot : A) (j : Z) : option Z :=
  match fuel with
  | O => None
  | S fuel =>
      x ← zget arr (j - 1); c ← cmp x pivot;
      if 0 <? c then scan_down fuel arr pivot (j - 1) else Some (j - 1)
  end.

(** Every turn moves [i] up and [j] down. *)
Fixpoint partition_loop (fuel : nat) arr (pivot : A) (i j : Z) : option (list A * Z) :=
  match fuel with
  | O => None
  | S fuel =>
      i' ← scan_up (length arr) arr pivot i;
      j' ← scan_down (length arr) arr pivot j;
      if j' <=? i' then Some (arr, j')
      else arr' ← swap arr i' j'; partition_loop fuel arr' pivot i' j'
  end.

Definition partition arr (low high : Z) : option (list A * Z) :=
  let mid := low + Z.quot (high - low) 2 in
  pivot ← zget arr mid;
  partition_loop (length arr) arr pivot (low - 1) (high + 1).

(** The two halves are shorter than the range: a fuel of its length is enough. *)
Fixpoint quicksort (fuel : nat) arr (low high : Z) : option (list A) :=
  match fuel with
  | O => None
  | S fuel =>
      if low <? high then
        r ← partition arr low high;
        let '(arr, pi) := r in
        arr ← quicksort fuel arr low pi;
        quicksort fuel arr (pi + 1) high
      else Some arr
  end.

Definition sort arr (n : Z) : option (list A) := quicksort (S (Z.to_nat n)) arr 0 (n - 1).

End code.

Definition cmp_int (arg1 arg2 : Z) : option Z :=
  Some ((if arg2 <? arg1 then 1 else 0) - (if arg1 <? arg2 then 1 else 0)).

Definition sorti (arr : list Z) (n : Z) : option (list Z) := sort cmp_int arr n.

(** The elements are pointers to strings. *)
Definition cmp_str (m : mem) (str1 str2 : Z) : option Z := strcmp m str1 str2.

Definition sortstr (m : mem) (arr : list Z) (n : Z) : option (list Z) := sort (cmp_str m) arr n.

(** ** What the comparison promises *)

(** On the elements in [D], [cmp] gives the sign of the comparison by the total preorder [le]. *)
Class Comparator {A} (cmp : A -> A -> option Z) (D : A -> Prop) (le : A -> A -> Prop) : Prop := {
  cmp_spec x y : D x -> D y -> exists c, cmp x y = Some c /\ (c <= 0 <-> le x y) /\ (0 <= c <-> le y x);
  cmp_trans x y z : D x -> D y -> D z -> le x y -> le y z -> le x z }.

Section theory.
Context {A : Type} (cmp : A -> A -> option Z) (D : A -> Prop) (le : A -> A -> Prop) `{!Comparator cmp D le}.
Implicit Types (arr : list A).

(** The elements from [lo] to [hi] satisfy [P]. *)
Definition all_in arr (lo hi : Z) (P : A -> Prop) : Prop :=
  forall k x, lo <= k <= hi -> zget arr k = Some x -> P x.

Definition sorted_in arr (lo hi : Z) : Prop :=
  forall k l x y, lo <= k <= l -> l <= hi -> zget arr k = Some x -> zget arr l = Some y -> le x y.

(** [arr'] has the elements of [arr] from [lo] to [hi] in some order, the others where they were. *)
Record mixed (lo hi : Z) arr arr' : Prop := {
  mx_perm : arr' ≡ₚ arr;
  mx_out k : ~ (lo <= k <= hi) -> zget arr' k = zget arr k;
  mx_in P : all_in arr lo hi P -> all_in arr' lo hi P }.

#[global] Instance mixed_preorder lo hi : PreOrder (mixed lo hi).
Proof.
  split; [by split|]. intros a b c [P1 O1 I1] [P2 O2 I2]. split; [by etransitivity| |auto].
  intros k Hk. by rewrite O2, O1.
Qed.

Lemma mixed_len lo hi arr arr' : mixed lo hi arr arr' -> zlen arr' = zlen arr.
Proof. intros [Hp _ _]. unfold zlen. by rewrite Hp. Qed.

Lemma mixed_widen lo hi lo' hi' arr arr' :
  lo' <= lo -> hi <= hi' -> mixed lo hi arr arr' -> mixed lo' hi' arr arr'.
Proof.
  intros Hl Hh [Hp Ho Hi]. split; [done|intros k Hk; apply Ho; lia|].
  intros P HP k x Hk Hx. destruct (decide (lo <= k <= hi)).
  - apply (Hi P) with k; [|done|done]. intros l y Hl' Hy. apply (HP l); [lia|done].
  - rewrite Ho in Hx by done. by apply (HP k).
Qed.

Lemma mixed_outside lo hi arr arr' lo' hi' P :
  mixed lo hi arr arr' -> hi < lo' \/ hi' < lo -> all_in arr lo' hi' P -> all_in arr' lo' hi' P.
Proof. intros [_ Ho _] Hd HP k x Hk Hx. rewrite Ho in Hx by lia. by apply (HP k). Qed.

Lemma all_in_weaken arr lo hi (P Q : A -> Prop) : (forall x, P x -> Q x) -> all_in arr lo hi P -> all_in arr lo hi Q.
Proof. intros Hpq HP k x Hk Hx. apply Hpq. by apply (HP k). Qed.

Lemma swap_mixed lo hi arr i j :
  lo <= i <= hi -> lo <= j <= hi -> 0 <= i < zlen arr -> 0 <= j < zlen arr ->
  exists arr', swap arr i j = Some arr' /\ mixed lo hi arr arr' /\
    forall k, zget arr' k = if decide (k = j) then zget arr i else if decide (k = i) then zget arr j else zget arr k.
Proof.
  intros Hi Hj Ri Rj. destruct (zget_is_Some arr i Ri) as [x Hx], (zget_is_Some arr j Rj) as [y Hy].
  unfold swap. rewrite Hx, Hy. eexists. split; [done|].
  assert (Hk : forall k, zget (zset (zset arr i y) j x) k =
    if decide (k = j) then Some x else if decide (k = i) then Some y else zget arr k).
  { intros k. rewrite zget_zset, zlen_zset, zget_zset. repeat case_decide; try done; try lia; subst; lia. }
  split; [|intros k; rewrite Hk; repeat case_decide; done]. split.
  - unfold zget, zset in *. rewrite !(proj2 (Z.leb_le 0 _)) in * by lia. by apply Permutation_insert_swap.
  - intros k Hko. rewrite Hk. by rewrite !decide_False by lia.
  - intros P HP k z Hkr Hz. rewrite Hk in Hz. repeat case_decide; simplify_eq; [by apply (HP i)|by apply (HP j)|by apply (HP k)].
Qed.

(** ** The scans *)

Lemma cmp_refl x : D x -> le x x.
Proof. intros Dx. destruct (cmp_spec x x Dx Dx) as (c & _ & H1 & H2). destruct (Z.leb_spec c 0); [by apply H1|apply H2; lia]. Qed.

(** The scans stop at the latest at [s], at an element that is not on their side. *)
Lemma scan_up_spec fuel arr p i s x :
  (forall k y, zget arr k = Some y -> D y) -> D p -> 0 <= i + 1 -> i < s -> zget arr s = Some x -> le p x ->
  s - i <= Z.of_nat fuel ->
  exists i' y, scan_up cmp fuel arr p i = Some i' /\ i < i' <= s /\ zget arr i' = Some y /\ le p y /\
    all_in arr (i + 1) (i' - 1) (fun z => le z p).
Proof.
  intros HD Hp. revert i. induction fuel as [|fuel IH]; intros i Hi Hs Hx Hle Hf; [lia|]. cbn [scan_up].
  pose proof (zget_Some_range _ _ _ Hx). destruct (zget_is_Some arr (i + 1) ltac:(lia)) as [y Hy].
  destruct (cmp_spec y p (HD _ _ Hy) Hp) as (c & Hc & Hlo & Hhi). rewrite Hy. simpl. rewrite Hc. simpl.
  destruct (Z.ltb_spec c 0).
  - assert (i + 1 <> s) by (intros <-; simplify_eq; apply Hhi in Hle; lia).
    destruct (IH (i + 1)) as (i' & z & E & Hr & Hz & Hpz & Hall); [lia|lia|done|done|lia|].
    exists i', z. split; [done|]. split; [lia|]. split; [done|]. split; [done|].
    intros k w Hk Hw. destruct (decide (k = i + 1)) as [->|]; [simplify_eq; apply Hlo; lia|].
    apply (Hall k); [lia|done].
  - exists (i + 1), y. split; [done|]. split; [lia|]. split; [done|]. split; [by apply Hhi|]. intros k w Hk. lia.
Qed.

Lemma scan_down_spec fuel arr p j s x :
  (forall k y, zget arr k = Some y -> D y) -> D p -> j - 1 < zlen arr -> s < j -> zget arr s = Some x -> le x p ->
  j - s <= Z.of_nat fuel ->
  exists j' y, scan_down cmp fuel arr p j = Some j' /\ s <= j' < j /\ zget arr j' = Some y /\ le y p /\
    all_in arr (j' + 1) (j - 1) (fun z => le p z).
Proof.
  intros HD Hp. revert j. induction fuel as [|fuel IH]; intros j Hj Hs Hx Hle Hf; [lia|]. cbn [scan_down].
  pose proof (zget_Some_range _ _ _ Hx). destruct (zget_is_Some arr (j - 1) ltac:(lia)) as [y Hy].
  destruct (cmp_spec y p (HD _ _ Hy) Hp) as (c & Hc & Hlo & Hhi). rewrite Hy. simpl. rewrite Hc. simpl.
  destruct (Z.ltb_spec 0 c).
  - assert (j - 1 <> s) by (intros <-; simplify_eq; apply Hlo in Hle; lia).
    destruct (IH (j - 1)) as (j' & z & E & Hr & Hz & Hpz & Hall); [lia|lia|done|done|lia|].
    exists j', z. split; [done|]. split; [lia|]. split; [done|]. split; [done|].
    intros k w Hk Hw. destruct (decide (k = j - 1)) as [->|]; [simplify_eq; apply Hhi; lia|].
    apply (Hall k); [lia|done].
  - exists (j - 1), y. split; [done|]. split; [lia|]. split; [done|]. split; [by apply Hlo|]. intros k w Hk. lia.
Qed.

(** ** The partition *)

(** Before a turn of the loop: what is behind [i] is at most the pivot, what is behind [j]
    at least the pivot; at first nothing is, and the pivot itself stops both scans. *)
Record splits (low high i j : Z) arr (p : A) : Prop := {
  sp_lo : all_in arr low i (fun z => le z p);
  sp_hi : all_in arr j high (fun z => le p z);
  sp_stop : (i = low - 1 /\ j = high + 1 /\ exists m, low <= m < high /\ zget arr m = Some p) \/
            (low <= i < j /\ j <= high) }.

Lemma partition_loop_spec fuel arr p low high i j :
  (forall k y, zget arr k = Some y -> D y) -> D p -> 0 <= low -> high < zlen arr ->
  splits low high i j arr p -> j - i <= 2 * Z.of_nat fuel ->
  exists arr' pi, partition_loop cmp fuel arr p i j = Some (arr', pi) /\ low <= pi < high /\
    mixed low high arr arr' /\ all_in arr' low pi (fun z => le z p) /\ all_in arr' (pi + 1) high (fun z => le p z).
Proof.
  revert arr i j. induction fuel as [|fuel IH]; intros arr i j HD Hp Hlow Hhigh [Hlo Hhi Hst] Hf;
    [destruct Hst as [(? & ? & m & ? & _)|?]; lia|]. cbn [partition_loop].
  assert (Hup : exists s x, i < s /\ s <= high /\ (j <= high \/ s < high) /\ s <= j /\ zget arr s = Some x /\ le p x).
  { destruct Hst as [(-> & -> & m & Hm & Hx)|[Hi Hj]].
    - exists m, p. split_and!; try lia; [done|by apply cmp_refl].
    - destruct (zget_is_Some arr j ltac:(lia)) as [x Hx]. exists j, x. split_and!; try lia; [done|]. apply (Hhi j); [lia|done]. }
  assert (Hdn : exists s x, low <= s /\ s < j /\ i <= s /\ zget arr s = Some x /\ le x p).
  { destruct Hst as [(-> & -> & m & Hm & Hx)|[Hi Hj]].
    - exists m, p. split_and!; try lia; [done|by apply cmp_refl].
    - destruct (zget_is_Some arr i ltac:(lia)) as [x Hx]. exists i, x. split_and!; try lia; [done|]. apply (Hlo i); [lia|done]. }
  assert (Hij : low - 1 <= i /\ j <= high + 1) by (destruct Hst as [(? & ? & _)|?]; lia). clear Hst.
  destruct Hup as (s & x & Hs1 & Hs2 & Hs3 & Hs4 & Hx & Hpx), Hdn as (d & y & Hd1 & Hd2 & Hd3 & Hy & Hyp).
  assert (Hlen : zlen arr = Z.of_nat (length arr)) by done.
  destruct (scan_up_spec (length arr) arr p i s x) as (i' & z & -> & Hi' & Hz & Hpz & Hall); try done; [lia|lia|].
  destruct (scan_down_spec (length arr) arr p j d y) as (j' & w & -> & Hj' & Hw & Hwp & Hall'); try done; [lia|lia|].
  simpl. destruct (Z.leb_spec j' i').
  - exists arr, j'. split; [done|]. split; [lia|]. split; [done|]. split.
    + intros k v Hk Hv. destruct (decide (k <= i)); [by apply (Hlo k); [lia|]|].
      destruct (decide (k = j')) as [->|]; [congruence|]. apply (Hall k); [lia|done].
    + intros k v Hk Hv. destruct (decide (j <= k)); [by apply (Hhi k); [lia|]|]. apply (Hall' k); [lia|done].
  - destruct (swap_mixed low high arr i' j') as (arr' & -> & Hmix & Hget); [lia|lia|lia|lia|]. simpl.
    destruct (IH arr' i' j') as (arr'' & pi & E & Hpi & Hmix' & H1 & H2); [|done|done|by rewrite (mixed_len _ _ _ _ Hmix)|..].
    + intros k v Hv. rewrite Hget in Hv. repeat case_decide; by eapply HD.
    + split.
      * intros k v Hk Hv. rewrite Hget, decide_False in Hv by lia. case_decide; simplify_eq; [done|].
        destruct (decide (k <= i)); [by apply (Hlo k); [lia|]|]. apply (Hall k); [lia|done].
      * intros k v Hk Hv. rewrite Hget in Hv. case_decide; simplify_eq; [done|]. rewrite decide_False in Hv by lia.
        destruct (decide (j <= k)); [by apply (Hhi k); [lia|]|]. apply (Hall' k); [lia|done].
      * right. lia.
    + lia.
    + exists arr'', pi. split; [done|]. split; [done|]. split; [by etransitivity|done].
Qed.

Lemma partition_spec arr low high :
  (forall k y, zget arr k = Some y -> D y) -> 0 <= low < high -> high < zlen arr ->
  exists arr' pi p, partition cmp arr low high = Some (arr', pi) /\ low <= pi < high /\ D p /\
    mixed low high arr arr' /\ all_in arr' low pi (fun z => le z p) /\ all_in arr' (pi + 1) high (fun z => le p z).
Proof.
  intros HD Hl Hh. unfold partition. cbv zeta. rewrite Z.quot_div_nonneg by lia.
  pose proof (Z.div_pos (high - low) 2 ltac:(lia) ltac:(lia)).
  pose proof (Z.div_lt (high - low) 2 ltac:(lia) ltac:(lia)).
  destruct (zget_is_Some arr (low + (high - low) / 2) ltac:(lia)) as [p Hp]. rewrite Hp. simpl.
  assert (Hlen : zlen arr = Z.of_nat (length arr)) by done.
  destruct (partition_loop_spec (length arr) arr p low high (low - 1) (high + 1)) as (arr' & pi & E & H1 & H2 & H3 & H4);
    [done|by eapply HD|lia|done| |lia|].
  - split; [intros k x; lia|intros k x; lia|]. left. split; [done|]. split; [done|]. exists (low + (high - low) / 2). split; [lia|done].
  - exists arr', pi, p. split_and!; try done; [lia|lia|by eapply HD].
Qed.

(** ** Quicksort *)

Lemma sorted_join arr low pi high p :
  (forall k y, zget arr k = Some y -> D y) -> D p -> low <= pi < high ->
  sorted_in arr low pi -> sorted_in arr (pi + 1) high ->
  all_in arr low pi (fun z => le z p) -> all_in arr (pi + 1) high (fun z => le p z) -> sorted_in arr low high.
Proof.
  intros HD Hp Hpi Hs1 Hs2 H1 H2 k l x y Hk Hl Hx Hy. destruct (decide (l <= pi)); [by eapply (Hs1 k l); try done; lia|].
  destruct (decide (pi < k)); [by eapply (Hs2 k l); try done; lia|].
  apply (cmp_trans x p y); [by eapply HD|done|by eapply HD|eapply H1; [|done]; lia|eapply H2; [|done]; lia].
Qed.

Lemma sorted_mixed arr arr' low high lo hi :
  mixed lo hi arr arr' -> high < lo \/ hi < low -> sorted_in arr low high -> sorted_in arr' low high.
Proof.
  intros Hm Hd Hs k l x y Hk Hl. rewrite !(mx_out _ _ _ _ Hm) by lia. by apply Hs.
Qed.

Lemma mixed_D lo hi arr arr' :
  mixed lo hi arr arr' -> (forall k y, zget arr k = Some y -> D y) -> forall k y, zget arr' k = Some y -> D y.
Proof.
  intros Hm HD k y Hy. apply zget_elem in Hy. rewrite (mx_perm _ _ _ _ Hm) in Hy.
  apply elem_of_zget in Hy as [l Hl]. by eapply HD.
Qed.

Lemma quicksort_spec fuel arr low high :
  (forall k y, zget arr k = Some y -> D y) -> 0 <= low -> high < zlen arr -> high - low < Z.of_nat fuel ->
  (0 < fuel)%nat ->
  exists arr', quicksort cmp fuel arr low high = Some arr' /\ mixed low high arr arr' /\ sorted_in arr' low high.
Proof.
  revert arr low high. induction fuel as [|fuel IH]; intros arr low high HD Hl Hh Hf Hpos; [lia|]. cbn [quicksort].
  destruct (Z.ltb_spec low high).
  2: { exists arr. split; [done|]. split; [done|]. intros k l x y Hk Hkl Hx Hy. assert (l = k) as -> by lia. simplify_eq.
       apply cmp_refl. by eapply HD. }
  destruct (partition_spec arr low high) as (a1 & pi & p & -> & Hpi & Dp & M1 & L1 & H1); [done|lia|done|]. simpl.
  destruct (IH a1 low pi) as (a2 & -> & M2 & S2); [by eapply mixed_D|lia|rewrite (mixed_len _ _ _ _ M1); lia|lia|lia|]. simpl.
  pose proof (mixed_D _ _ _ _ M1 HD) as HD1. pose proof (mixed_D _ _ _ _ M2 HD1) as HD2.
  destruct (IH a2 (pi + 1) high) as (a3 & E & M3 & S3);
    [done|lia|rewrite (mixed_len _ _ _ _ M2), (mixed_len _ _ _ _ M1); lia|lia|lia|].
  exists a3. split; [done|]. split.
  - etransitivity; [done|]. etransitivity; eapply mixed_widen; [..|exact M2| | |exact M3]; lia.
  - apply (sorted_join a3 low pi high p); [by eapply mixed_D|done|done| |done|..].
    + eapply sorted_mixed; [exact M3|lia|done].
    + eapply mixed_outside; [exact M3|lia|]. by apply (mx_in _ _ _ _ M2).
    + apply (mx_in _ _ _ _ M3). eapply mixed_outside; [exact M2|lia|done].
Qed.

(** C34: on any comparison that follows a total preorder, [sort] ends, never reaches outside
    the first [n] elements, and leaves them in order: a permutation of what they were, the
    rest of the array as it was. *)
Theorem sort_correct arr n :
  (forall x, x ∈ arr -> D x) -> 0 <= n <= zlen arr ->
  exists arr', sort cmp arr n = Some arr' /\ arr' ≡ₚ arr /\
    drop (Z.to_nat n) arr' = drop (Z.to_nat n) arr /\ sorted_in arr' 0 (n - 1).
Proof.
  intros HD Hn. destruct (quicksort_spec (S (Z.to_nat n)) arr 0 (n - 1)) as (arr' & E & Hm & Hs);
    [by intros k y Hy%zget_elem; apply HD|lia|lia|lia|lia|].
  exists arr'. split; [done|]. split; [apply Hm|]. split; [|done].
  apply list_eq. intros i. rewrite !lookup_drop, <-!zget_nat. apply Hm. lia.
Qed.

End theory.

(** ** Integers and strings *)

#[export] Instance cmp_int_ok : Comparator cmp_int (fun _ => True) Z.le.
Proof.
  split; [|intros; lia]. intros x y _ _. eexists. split; [done|].
  destruct (Z.ltb_spec y x), (Z.ltb_spec x y); lia.
Qed.

(** The order of [strcmp] on the bytes of two strings. *)
Fixpoint lexcmp (s t : list Z) : Z :=
  match s, t with
  | [], [] => 0
  | [], y :: _ => - y
  | x :: _, [] => x
  | x :: s, y :: t => if x =? y then lexcmp s t else x - y
  end.

Lemma strcmp_loop_spec m fuel p q s t l k :
  chars s -> chars t -> mbytes m p (s ++ 0 :: l) -> mbytes m q (t ++ 0 :: k) -> (length s < fuel)%nat ->
  strcmp_loop fuel m p q = Some (lexcmp s t).
Proof.
  revert p q s t. induction fuel as [|fuel IH]; intros p q s t Hs Ht Hp Hq Hf; [lia|]. cbn [strcmp_loop].
  unfold load. destruct s as [|x s]; destruct Hp as [Hx Hp].
  - rewrite Hx. simpl. destruct t as [|y t]; destruct Hq as [-> _]; simpl; f_equal; lia.
  - apply Forall_cons in Hs as [Hx0 Hs]. rewrite Hx. simpl. rewrite (proj2 (Z.eqb_neq x 0)) by lia.
    destruct t as [|y t]; destruct Hq as [-> Hq]; simpl.
    + rewrite (proj2 (Z.eqb_neq x 0)) by lia. f_equal. lia.
    + apply Forall_cons in Ht as [_ Ht]. destruct (Z.eqb_spec x y) as [->|]; [|done].
      apply IH; try done. simpl in Hf. lia.
Qed.

Lemma strcmp_spec m p q s t : cstr m p s -> cstr m q t -> strcmp m p q = Some (lexcmp s t).
Proof.
  intros Hs Ht. pose proof (cstr_fuel _ _ _ Hs). destruct Hs as [Hs Hp], Ht as [Ht Hq].
  by apply (strcmp_loop_spec m _ p q s t [] []).
Qed.

Lemma lexcmp_neg s t : lexcmp t s = - lexcmp s t.
Proof.
  revert t. induction s as [|x s IH]; intros [|y t]; simpl; try lia.
  destruct (Z.eqb_spec y x), (Z.eqb_spec x y); try lia. by rewrite IH.
Qed.

Lemma lexcmp_trans s t u :
  chars s -> chars t -> chars u -> lexcmp s t <= 0 -> lexcmp t u <= 0 -> lexcmp s u <= 0.
Proof.
  revert t u. induction s as [|x s IH]; intros [|y t] [|z u] Hs Ht Hu; simpl; try lia;
    unfold chars in *; rewrite ?Forall_cons in *; try (destruct Hs as [? Hs]); try (destruct Ht as [? Ht]); try (destruct Hu as [? Hu]); try lia.
  destruct (Z.eqb_spec x y), (Z.eqb_spec y z), (Z.eqb_spec x z); subst; try lia. by apply IH.
Qed.

(** The strings at two pointers, in the order of their bytes. *)
Definition str_le (m : mem) (p q : Z) : Prop :=
  exists s t, cstr m p s /\ cstr m q t /\ lexcmp s t <= 0.

Definition is_str (m : mem) (p : Z) : Prop := exists s, cstr m p s.

Lemma cstr_unique m p s t : cstr m p s -> cstr m p t -> s = t.
Proof.
  intros [Hs Hp] [Ht Hq]. revert p t Hs Ht Hp Hq. induction s as [|x s IH]; intros p [|y t] Hs Ht [Hx Hp] [Hy Hq];
    unfold chars in *; rewrite ?Forall_cons in *; simplify_eq; [done|lia|lia|].
  destruct Hs as [_ Hs], Ht as [_ Ht]. f_equal. by apply (IH (p + 1)).
Qed.

#[export] Instance cmp_str_ok m : Comparator (cmp_str m) (is_str m) (str_le m).
Proof.
  split.
  - intros p q [s Hs] [t Ht]. exists (lexcmp s t). split; [by apply strcmp_spec|]. split; split.
    + intros. by exists s, t.
    + intros (s' & t' & Hs' & Ht' & Hle). by rewrite (cstr_unique _ _ _ _ Hs Hs'), (cstr_unique _ _ _ _ Ht Ht').
    + intros. exists t, s. split_and!; [done|done|]. rewrite lexcmp_neg. lia.
    + intros (t' & s' & Ht' & Hs' & Hle). rewrite (cstr_unique _ _ _ _ Hs Hs'), (cstr_unique _ _ _ _ Ht Ht').
      rewrite lexcmp_neg in Hle. lia.
  - intros p q r _ _ _ (s & t & Hs & Ht & Hst) (t' & u & Ht' & Hu & Htu). exists s, u. split; [done|]. split; [done|].
    rewrite (cstr_unique _ _ _ _ Ht' Ht) in Htu. apply (lexcmp_trans s t u); [apply Hs|apply Ht|apply Hu|done|done].
Qed.

(** Both instances: [sorti] on integers, [sortstr] on pointers to strings. *)
Definition sort_mem : mem := mwrite (mwrite (mwrite ∅ 16 [98; 0]) 32 [97; 98; 0]) 48 [97; 0].

Lemma sort_correct_witness :
  (exists l, sorti [3; -1; 2; 2; 7] 4 = Some l /\ l ≡ₚ [3; -1; 2; 2; 7] /\ sorted_in Z.le l 0 3) /\
  (exists l, sortstr sort_mem [16; 32; 48] 3 = Some l /\ l ≡ₚ [16; 32; 48] /\ sorted_in (str_le sort_mem) l 0 2).
Proof.
  split.
  - destruct (sort_correct cmp_int (fun _ => True) Z.le [3; -1; 2; 2; 7] 4) as (l & E & Hp & _ & Hs); [done|by vm_compute|].
    by exists l.
  - destruct (sort_correct (cmp_str sort_mem) (is_str sort_mem) (str_le sort_mem) [16; 32; 48] 3)
      as (l & E & Hp & _ & Hs); [|by vm_compute|by exists l].
    intros x Hx. rewrite !elem_of_cons in Hx. destruct Hx as [->|[->|[->|Hx]]]; [| | |by apply not_elem_of_nil in Hx].
    + exists [98]. split; [repeat constructor; lia|vm_compute; repeat split; reflexivity].
    + exists [97; 98]. split; [repeat constructor; lia|vm_compute; repeat split; reflexivity].
    + exists [97]. split; [repeat constructor; lia|vm_compute; repeat split; reflexivity].
Defined.

Example sortstr_runs : sortstr sort_mem [16; 32; 48] 3 = Some [48; 32; 16].
Proof. vm_compute. reflexivity. Qed.
