(* ===== verification/UMap.v ===== *)
(** * The hash map of user programs (usr/lib/map.c)

    An open-addressing table with linear probing, a power of two of entries and FNV-1a
    hashes. A key is the list of the bytes of the C string before its NUL. *)

From stdpp Require Import gmap.
From S2P Require Import Prelude.
From coqutil Require Import Datatypes.RecordSetters.
Import TriangleBracketNotations.

Local Open Scope Z_scope.

(** ** The code *)

Definition KEY_MAX_LEN : Z := 31.
Definition NULL : Z := 0.

Record map_entry_t := Entry { key : list Z; value : Z; occupied : bool }.
Record map_t := Map { table : list map_entry_t; size : Z; count : Z }.

(** [while(power < size) power <<= 1;] never ends when no 32-bit power of two is enough. *)
Fixpoint power_loop (fuel : nat) (power sz : Z) : option Z :=
  match fuel with
  | O => None
  | S fuel => if power <? sz then power_loop fuel (u32 (Z.shiftl power 1)) sz else Some power
  end.

Definition SIZEOF_ENTRY : Z := 40.

(** [alloc n] is what [malloc] returns for [n] bytes. The product is computed in 32 bits, so
    a table may be shorter than its size says; the entries are those of the block. The
    [memset] faults when the table is [NULL], unless it clears nothing. *)
Definition map_init (alloc : Z -> Z) (sz : Z) : option map_t :=
  power ← power_loop 33 1 sz;
  let bytes := u32 (power * SIZEOF_ENTRY) in
  let table_ := alloc bytes in
  if (table_ =? NULL) && (0 <? bytes) then None
  else Some (Map (replicate (Z.to_nat (bytes / SIZEOF_ENTRY)) (Entry [] 0 false)) power 0).

Definition hash_fnv1a (k : list Z) : Z :=
  foldl (fun hash b => u32 (Z.lxor hash b * 16777619)) 2166136261 k.

(** Where the loop that the three operations share ends: at the entry of the key, at an
    entry that is not occupied, or back at the start. *)
Inductive probed := Found (i : Z) | Free (i : Z) | Wrapped.

Fixpoint probe_loop (fuel : nat) (t : map_t) (k : list Z) (index start : Z) : option probed :=
  match fuel with
  | O => None
  | S fuel =>
      e ← zget (table t) index;
      if negb (occupied e) then Some (Free index)
      else if bool_decide (key e = k) then Some (Found index)
      else
        let index := Z.land (u32 (index + 1)) (u32 (size t - 1)) in
        if index =? start then Some Wrapped else probe_loop fuel t k index start
  end.

Definition home (t : map_t) (k : list Z) : Z := Z.land (hash_fnv1a k) (u32 (size t - 1)).

Definition probe (t : map_t) (k : list Z) : option probed :=
  probe_loop (length (table t)) t k (home t k) (home t k).

(** [strncpy] keeps the first [KEY_MAX_LEN] bytes of the key. *)
Definition map_insert (t : map_t) (k : list Z) (v : Z) : option map_t :=
  r ← probe t k;
  match r with
  | Found i => e ← zget (table t) i; Some (t <| table := zset (table t) i (e <| value := v |>) |>)
  | Wrapped => Some t
  | Free i =>
      Some (t <| table := zset (table t) i (Entry (take (Z.to_nat KEY_MAX_LEN) k) v true) |>
              <| count := u32 (count t + 1) |>)
  end.

Definition map_lookup (t : map_t) (k : list Z) : option Z :=
  r ← probe t k;
  match r with
  | Found i => e ← zget (table t) i; Some (value e)
  | _ => Some NULL
  end.

Definition map_remove (t : map_t) (k : list Z) : option (bool * map_t) :=
  r ← probe t k;
  match r with
  | Found i =>
      e ← zget (table t) i;
      Some (true, t <| table := zset (table t) i (e <| occupied := false |>) |> <| count := u32 (count t - 1) |>)
  | _ => Some (false, t)
  end.

(** ** The invariant of the table *)

Definition used (t : map_t) (i : Z) (k : list Z) (v : Z) : Prop := zget (table t) i = Some (Entry k v true).
Definition taken (t : map_t) (i : Z) : Prop := exists k v, used t i k v.

(** The [d]-th entry that is probed for [k]. *)
Definition slot (t : map_t) (k : list Z) (d : Z) : Z := (home t k + d) mod size t.

(** Every entry before [d] on the way of [k] is taken. *)
Definition reachable (t : map_t) (k : list Z) (d : Z) : Prop := forall d', 0 <= d' < d -> taken t (slot t k d').

Record shape (t : map_t) : Prop := {
  ok_size : exists n, 0 <= n <= 31 /\ size t = 2 ^ n;
  ok_len : zlen (table t) = size t }.

Record table_ok (t : map_t) : Prop := {
  ok_shape : shape t;
  ok_path i k v : used t i k v -> exists d, 0 <= d < size t /\ i = slot t k d /\ reachable t k d;
  ok_once i j k v w : used t i k v -> used t j k w -> i = j;
  ok_count : count t = zlen (filter (fun e => occupied e = true) (table t)) }.

(** The map that a table stands for. *)
Record rep (m : gmap (list Z) Z) (t : map_t) : Prop := {
  rep_ok : table_ok t;
  rep_map k v : m !! k = Some v <-> exists i, used t i k v;
  rep_count : count t = Z.of_nat (base.size m) }.

(** ** Slots *)

Section table.
Context (t : map_t) (Ht : shape t).

Lemma size_range : 1 <= size t <= 2 ^ 31.
Proof.
  destruct (ok_size _ Ht) as (n & Hn & ->). split.
  - apply (Z.pow_le_mono_r 2 0 n); lia.
  - apply Z.pow_le_mono_r; lia.
Qed.

Lemma mask_spec x : Z.land x (u32 (size t - 1)) = x mod size t.
Proof.
  pose proof size_range. rewrite u32_id by lia. destruct (ok_size _ Ht) as (n & Hn & ->).
  rewrite <-Z.land_ones by lia. by rewrite Z.ones_equiv, <-Z.sub_1_r.
Qed.

Lemma home_range k : 0 <= home t k < size t.
Proof. unfold home. rewrite mask_spec. apply Z.mod_pos_bound. pose proof size_range. lia. Qed.

Lemma slot_range k d : 0 <= slot t k d < size t.
Proof. apply Z.mod_pos_bound. pose proof size_range. lia. Qed.

Lemma slot_0 k : slot t k 0 = home t k.
Proof. unfold slot. rewrite Z.add_0_r. apply Z.mod_small, home_range. Qed.

Lemma slot_next k d : Z.land (u32 (slot t k d + 1)) (u32 (size t - 1)) = slot t k (d + 1).
Proof.
  pose proof size_range. pose proof (slot_range k d). rewrite mask_spec, u32_id by lia. unfold slot.
  rewrite Z.add_mod_idemp_l by lia. f_equal. lia.
Qed.

Lemma slot_eq k d : 0 <= d < size t ->
  slot t k d = if decide (home t k + d < size t) then home t k + d else home t k + d - size t.
Proof.
  intros Hd. pose proof (home_range k). unfold slot. case_decide; [by rewrite Z.mod_small by lia|].
  symmetry. apply (Z.mod_unique _ _ 1); [left|]; lia.
Qed.

Lemma slot_inj k d d' : 0 <= d < size t -> 0 <= d' < size t -> slot t k d = slot t k d' -> d = d'.
Proof. intros Hd Hd'. rewrite !slot_eq by done. pose proof (home_range k). repeat case_decide; lia. Qed.

Lemma slot_wraps k d : 0 <= d < size t -> slot t k (d + 1) = home t k -> d + 1 = size t.
Proof.
  intros Hd He. destruct (decide (d + 1 < size t)); [|lia]. rewrite <-(slot_0 k) in He.
  apply slot_inj in He; lia.
Qed.

(** Every index is on the way of every key. *)
Lemma slot_onto k i : 0 <= i < size t -> exists d, 0 <= d < size t /\ slot t k d = i.
Proof.
  intros Hi. pose proof (home_range k). exists (if decide (home t k <= i) then i - home t k else i - home t k + size t).
  split; [case_decide; lia|]. rewrite slot_eq by (case_decide; lia). repeat case_decide; lia.
Qed.

Lemma used_range i k v : used t i k v -> 0 <= i < size t.
Proof. intros Hu. apply zget_Some_range in Hu. by rewrite <-(ok_len _ Ht). Qed.

Lemma used_fun i k v k' v' : used t i k v -> used t i k' v' -> k = k' /\ v = v'.
Proof. unfold used. intros H1 H2. split; congruence. Qed.

Lemma not_taken i : 0 <= i < size t -> ~ taken t i -> exists e, zget (table t) i = Some e /\ occupied e = false.
Proof.
  intros Hi Hn. rewrite <-(ok_len _ Ht) in Hi. destruct (zget_is_Some _ _ Hi) as [[k v b] He]. exists (Entry k v b).
  split; [done|]. destruct b; [|done]. destruct Hn. by exists k, v.
Qed.

(** ** The probe *)

(** [k] is not met before [d]. *)
Definition missed (k : list Z) (d : Z) : Prop := forall d' v, 0 <= d' < d -> ~ used t (slot t k d') k v.

Lemma probe_loop_spec fuel k d :
  0 <= d < size t -> size t - d <= Z.of_nat fuel -> reachable t k d -> missed k d ->
  exists r, probe_loop fuel t k (slot t k d) (home t k) = Some r /\
    match r with
    | Found i => exists v d, used t i k v /\ 0 <= d < size t /\ i = slot t k d /\ reachable t k d
    | Free i => exists d, 0 <= d < size t /\ i = slot t k d /\ reachable t k d /\ missed k d /\ ~ taken t i
    | Wrapped => reachable t k (size t) /\ missed k (size t)
    end.
Proof.
  revert d. induction fuel as [|fuel IH]; intros d Hd Hf Hr Hm; [lia|]. cbn [probe_loop].
  pose proof (slot_range k d) as Hs. rewrite <-(ok_len _ Ht) in Hs. destruct (zget_is_Some _ _ Hs) as [[k' v' b] He].
  rewrite He. simpl. destruct b; simpl.
  2: { eexists. split; [done|]. exists d. split_and!; try done; try lia.
       intros (k2 & v2 & Hu). unfold used in Hu. congruence. }
  case_bool_decide as Hk; [subst k'; eexists; split; [done|]; by exists v', d|].
  assert (Hr' : reachable t k (d + 1)).
  { intros d' Hd'. destruct (decide (d' = d)) as [->|]; [by exists k', v'|apply Hr; lia]. }
  assert (Hm' : missed k (d + 1)).
  { intros d' v Hd'. destruct (decide (d' = d)) as [->|]; [unfold used; congruence|apply Hm; lia]. }
  rewrite slot_next. destruct (Z.eqb_spec (slot t k (d + 1)) (home t k)) as [Heq|Hne].
  - apply slot_wraps in Heq; [|done]. rewrite Heq in Hr', Hm'. by eexists.
  - apply IH; try done; [|lia]. destruct (decide (d + 1 = size t)) as [Hw|]; [|lia]. destruct Hne.
    rewrite Hw. unfold slot. replace (home t k + size t) with (home t k + 1 * size t) by lia. rewrite Z.mod_add by lia.
    apply Z.mod_small, home_range.
Qed.

Lemma missed_all k d : table_ok t -> missed k d -> (d = size t \/ ~ taken t (slot t k d)) -> 0 <= d ->
  forall i v, ~ used t i k v.
Proof.
  intros Hok Hm Hd H0 i v Hu. destruct (ok_path _ Hok i k v Hu) as (d1 & Hd1 & -> & Hr).
  destruct (decide (d1 < d)); [by apply (Hm d1 v); [lia|]|]. destruct Hd as [->|Hn]; [lia|].
  destruct (decide (d1 = d)) as [->|]; [apply Hn; by exists k, v|]. apply Hn, Hr. lia.
Qed.

Lemma probe_start k : probe t k = probe_loop (length (table t)) t k (slot t k 0) (home t k).
Proof. by rewrite slot_0. Qed.

(** What a probe tells about the key. *)
Lemma probe_spec k : table_ok t ->
  exists r, probe t k = Some r /\
    match r with
    | Found i => exists v, used t i k v
    | Free i => (forall j v, ~ used t j k v) /\ ~ taken t i /\
        exists d, 0 <= d < size t /\ i = slot t k d /\ reachable t k d
    | Wrapped => (forall j v, ~ used t j k v) /\ forall i, 0 <= i < size t -> taken t i
    end.
Proof.
  intros Hok. rewrite probe_start. pose proof size_range.
  destruct (probe_loop_spec (length (table t)) k 0) as (r & -> & Hr);
    [lia|pose proof (ok_len _ Ht); unfold zlen in *; lia|intros d; lia|intros d v; lia|].
  exists r. split; [done|]. destruct r as [i|i|]; [destruct Hr as (v & _ & Hu & _); by exists v| |].
  - destruct Hr as (d & Hd & -> & Hre & Hm & Hn). split; [|split; [done|by exists d]].
    apply (missed_all k d); [done|done|by right|lia].
  - destruct Hr as [Hre Hm]. split; [apply (missed_all k (size t)); [done|done|by left|lia]|].
    intros i Hi. destruct (slot_onto k i Hi) as (d & Hd & <-). by apply Hre.
Qed.

End table.

(** ** Changes of one entry *)

Definition occ (l : list map_entry_t) : Z := zlen (filter (fun e => occupied e = true) l).

Lemma occ_set l i e e' :
  zget l i = Some e ->
  occ (zset l i e') = occ l + (if occupied e' then 1 else 0) - (if occupied e then 1 else 0).
Proof.
  unfold zget, zset, occ. destruct (0 <=? i); [|done]. generalize (Z.to_nat i). clear i.
  induction l as [|x l IH]; intros [|n]; simpl; intros Hn; [done|done| |].
  - injection Hn as ->. rewrite !filter_cons. repeat case_decide; destruct (occupied e), (occupied e'); try done;
      rewrite ?zlen_cons; lia.
  - specialize (IH n Hn). rewrite !filter_cons. case_decide; rewrite ?zlen_cons; lia.
Qed.

Lemma occ_range l : 0 <= occ l <= zlen l.
Proof. unfold occ, zlen. pose proof (length_filter (fun e => occupied e = true) l). lia. Qed.

Definition put (t : map_t) (i : Z) (e : map_entry_t) (c : Z) : map_t :=
  t <| table := zset (table t) i e |> <| count := c |>.

Lemma used_put t i e c j k v :
  0 <= i < zlen (table t) ->
  used (put t i e c) j k v <-> if decide (i = j) then e = Entry k v true else used t j k v.
Proof.
  intros Hi. unfold used. change (table (put t i e c)) with (zset (table t) i e). rewrite zget_zset. case_decide as Hd.
  - destruct Hd as [-> _]. rewrite decide_True by done. split; congruence.
  - rewrite decide_False; [done|]. intros ->. by apply Hd.
Qed.

Lemma taken_put t i k v c j : 0 <= i < zlen (table t) -> taken t j -> taken (put t i (Entry k v true) c) j.
Proof.
  intros Hi (k' & v' & Hu). destruct (decide (i = j)) as [->|Hne].
  - exists k, v. apply used_put; [done|]. by rewrite decide_True.
  - exists k', v'. apply used_put; [done|]. by rewrite decide_False.
Qed.

Lemma rep_put m t i k v c d :
  rep m t -> 0 <= d < size t -> i = slot t k d -> reachable t k d ->
  (forall j w, used t j k w -> j = i) -> (forall k' w, used t i k' w -> k' = k) ->
  c = occ (zset (table t) i (Entry k v true)) -> c = Z.of_nat (base.size (<[k := v]> m)) ->
  rep (<[k := v]> m) (put t i (Entry k v true) c).
Proof.
  intros [Hok Hm _] Hd Hi Hr Hk Hi' Hc Hsz. pose proof (ok_shape _ Hok) as Hsh. pose proof (slot_range t Hsh k d) as Hir. rewrite <-Hi, <-(ok_len _ Hsh) in Hir.
  pose proof Hok as [_ O3 O4 O5]. split; [| |done].
  - split; [split; [apply Hsh|by etransitivity; [apply zlen_zset|apply Hsh]]| | |done].
    + intros j k' v' Hu. apply used_put in Hu; [|done]. case_decide as E.
      * simplify_eq. exists d. split; [done|]. split; [done|]. intros d' Hd'. apply taken_put; [done|by apply Hr].
      * destruct (O3 j k' v' Hu) as (d1 & Hd1 & -> & Hr1). exists d1. split; [done|]. split; [done|].
        intros d' Hd'. apply taken_put; [done|by apply Hr1].
    + intros j1 j2 k' v1 v2 H1 H2. apply used_put in H1, H2; [|done..]. repeat case_decide; simplify_eq; try done;
        first [by eapply Hk|symmetry; by eapply Hk|by eapply O4].
  - intros k' v'. destruct (decide (k = k')) as [<-|Hne].
    + rewrite lookup_insert_eq. split.
      * intros [= ->]. exists i. apply used_put; [done|]. by rewrite decide_True.
      * intros (j & Hu). apply used_put in Hu; [|done]. case_decide; [congruence|]. by apply Hk in Hu.
    + rewrite lookup_insert_ne by done. rewrite Hm. split; intros (j & Hu).
      * exists j. apply used_put; [done|]. rewrite decide_False; [done|]. intros ->. by apply Hi' in Hu.
      * apply used_put in Hu; [|done]. case_decide; [congruence|]. by exists j.
Qed.

(** ** The operations *)

(** A key that an entry can hold. *)
Definition short (k : list Z) : Prop := zlen k <= KEY_MAX_LEN.

Lemma rep_none m t k : rep m t -> (forall i v, ~ used t i k v) -> m !! k = None.
Proof.
  intros [_ Hm _] Hn. destruct (m !! k) as [v|] eqn:Hk; [|done]. apply Hm in Hk as [i Hi]. by apply Hn in Hi.
Qed.

Lemma map_lookup_spec m t k : rep m t -> map_lookup t k = Some (default NULL (m !! k)).
Proof.
  intros Hr. pose proof (rep_ok _ _ Hr) as Hok. destruct (probe_spec t (ok_shape _ Hok) k Hok) as (r & Hp & Hs).
  unfold map_lookup. rewrite Hp. simpl. destruct r as [i|i|]; [|by rewrite (rep_none m t k Hr) by apply Hs..].
  destruct Hs as [v Hu]. rewrite Hu. simpl. by rewrite (proj2 (rep_map _ _ Hr k v)) by (by exists i).
Qed.

Lemma count_room m t : rep m t -> count t = occ (table t) /\ 0 <= count t <= size t /\ 1 <= size t <= 2 ^ 31.
Proof.
  intros Hr. pose proof (rep_ok _ _ Hr) as Hok. pose proof (ok_shape _ Hok) as Hsh. pose proof (occ_range (table t)).
  rewrite (ok_len _ Hsh) in H. pose proof (size_range t Hsh). pose proof (ok_count _ Hok) as Hc. unfold occ in *. lia.
Qed.

Lemma full_count l : Forall (fun e => occupied e = true) l -> occ l = zlen l.
Proof.
  intros Hl. unfold occ. f_equal. induction Hl as [|e l He _ IH]; [done|]. by rewrite filter_cons, decide_True, IH.
Qed.

(** A table with a free entry, or the key, takes the key; a full table ignores it. *)
Definition takes (m : gmap (list Z) Z) (cap : Z) (k : list Z) : Prop := is_Some (m !! k) \/ Z.of_nat (base.size m) < cap.

#[global] Instance takes_dec m cap k : Decision (takes m cap k).
Proof. unfold takes. apply _. Defined.

Lemma map_insert_spec m t k v :
  rep m t -> short k ->
  exists t', map_insert t k v = Some t' /\ size t' = size t /\
    rep (if decide (takes m (size t) k) then <[k := v]> m else m) t'.
Proof.
  intros Hr Hk. pose proof (rep_ok _ _ Hr) as Hok. pose proof (ok_shape _ Hok) as Hsh.
  destruct (count_room m t Hr) as (Hc & Hc2 & Hs31). pose proof (rep_count _ _ Hr) as Hcm.
  destruct (probe_spec t Hsh k Hok) as (r & Hp & Hs). unfold map_insert. rewrite Hp. simpl. destruct r as [i|i|].
  - destruct Hs as [w Hu]. assert (Hkm : m !! k = Some w) by (apply (rep_map _ _ Hr); by exists i).
    rewrite Hu. eexists. split; [done|]. split; [done|]. rewrite decide_True by (left; by rewrite Hkm).
    destruct (ok_path _ Hok i k w Hu) as (d & Hd & Hid & Hre).
    apply (rep_put m t i k v (count t) d Hr Hd Hid Hre).
    + intros j w' Hj. by eapply (ok_once _ Hok).
    + intros k' w' Hi'. by apply (used_fun t i k' w' k w).
    + rewrite (occ_set _ i (Entry k w true)) by exact Hu. simpl. lia.
    + by rewrite map_size_insert_Some by (by rewrite Hkm).
  - destruct Hs as (Hno & Hn & d & Hd & Hid & Hre). pose proof (slot_range t Hsh k d) as Hi. rewrite <-Hid in Hi.
    destruct (not_taken t Hsh i Hi Hn) as (e & He & Hocc). pose proof (occ_set (table t) i e (Entry k v true) He) as Ho.
    rewrite Hocc in Ho. simpl in Ho. pose proof (occ_range (zset (table t) i (Entry k v true))) as Hor.
    rewrite zlen_zset, (ok_len _ Hsh) in Hor. eexists. split; [done|]. split; [done|].
    rewrite take_ge by (unfold short, KEY_MAX_LEN, zlen in *; lia). rewrite decide_True by (right; lia).
    rewrite u32_id by lia. apply (rep_put m t i k v _ d Hr Hd Hid Hre); [| |lia|].
    + intros j w Hj. by apply Hno in Hj.
    + intros k' w Hi'. destruct Hn. by exists k', w.
    + rewrite map_size_insert_None by (by apply (rep_none m t k Hr)). lia.
  - destruct Hs as [Hno Hall]. exists t. split; [done|]. split; [done|]. rewrite decide_False; [done|].
    intros [[w Hw]|Hlt]; [by rewrite (rep_none m t k Hr Hno) in Hw|].
    rewrite <-Hcm, Hc, full_count, (ok_len _ Hsh) in Hlt; [lia|]. apply Forall_forall. intros e He.
    apply elem_of_zget in He as [i Hi]. pose proof (zget_Some_range _ _ _ Hi) as Hir. rewrite (ok_len _ Hsh) in Hir.
    destruct (Hall i Hir) as (k' & w & Hu). assert (e = Entry k' w true) as -> by (unfold used in Hu; congruence). done.
Qed.

Lemma power_loop_spec fuel i sz :
  0 <= i <= 31 -> 31 - i < Z.of_nat fuel -> sz <= 2 ^ 31 ->
  exists n, i <= n <= 31 /\ power_loop fuel (2 ^ i) sz = Some (2 ^ n) /\ sz <= 2 ^ n.
Proof.
  revert i. induction fuel as [|fuel IH]; intros i Hi Hf Hs; [lia|]. cbn [power_loop].
  destruct (Z.ltb_spec (2 ^ i) sz).
  - assert (i <> 31) by (intros ->; lia). rewrite Z.shiftl_mul_pow2 by lia. rewrite <-Z.pow_add_r by lia.
    assert (2 ^ (i + 1) <= 2 ^ 31) by (apply Z.pow_le_mono_r; lia). pose proof (Z.pow_pos_nonneg 2 (i + 1)).
    rewrite u32_id by lia. destruct (IH (i + 1)) as (n & Hn & E & Hle); [lia|lia|done|]. exists n. split; [lia|done].
  - exists i. split; [lia|done].
Qed.

Lemma zget_replicate_some {A} n (x y : A) i : zget (replicate n x) i = Some y -> y = x.
Proof. intros H. by apply zget_elem, elem_of_replicate in H as [-> _]. Qed.

Lemma occ_free n k v : occ (replicate n (Entry k v false)) = 0.
Proof. unfold occ. induction n as [|n IH]; [done|]. cbn [replicate]. by rewrite filter_cons, decide_False. Qed.

(** The largest table whose bytes fit in 32 bits. *)
Definition MAX_ENTRIES : Z := 2 ^ 26.

Lemma power_loop_least fuel i n sz p :
  power_loop fuel (2 ^ i) sz = Some p -> 0 <= i <= n -> n <= 31 -> sz <= 2 ^ n -> p <= 2 ^ n.
Proof.
  revert i. induction fuel as [|fuel IH]; intros i; cbn [power_loop]; [done|]. destruct (Z.ltb_spec (2 ^ i) sz).
  - intros Hp Hi Hn Hs. assert (i <> n) by (intros ->; lia). rewrite Z.shiftl_mul_pow2, <-Z.pow_add_r in Hp by lia.
    assert (2 ^ (i + 1) <= 2 ^ 31) by (apply Z.pow_le_mono_r; lia). pose proof (Z.pow_pos_nonneg 2 (i + 1)).
    rewrite u32_id in Hp by lia. apply (IH (i + 1)); [done|lia|done|done].
  - intros [= <-] Hi Hn Hs. apply Z.pow_le_mono_r; lia.
Qed.

Lemma map_init_spec alloc sz :
  sz <= MAX_ENTRIES ->
  exists cap, sz <= cap <= MAX_ENTRIES /\
    (alloc (cap * SIZEOF_ENTRY) <> NULL -> exists t, map_init alloc sz = Some t /\ size t = cap /\ rep ∅ t).
Proof.
  intros Hs. unfold map_init, MAX_ENTRIES in *.
  destruct (power_loop_spec 33 0 sz) as (n & Hn & E & Hle); [lia|lia|lia|].
  pose proof (power_loop_least 33 0 26 sz _ E ltac:(lia) ltac:(lia) Hs) as H26. pose proof (Z.pow_pos_nonneg 2 n).
  exists (2 ^ n). split; [lia|]. intros Hp. change (2 ^ 0) with 1 in E. rewrite E. simpl. unfold SIZEOF_ENTRY in *.
  rewrite u32_id, Z.div_mul, (proj2 (Z.eqb_neq _ _)) by (done || lia). eexists. split; [done|]. split; [done|].
  assert (Hno : forall i k v, ~ used (Map (replicate (Z.to_nat (2 ^ n)) (Entry [] 0 false)) (2 ^ n) 0) i k v)
    by (intros i k v Hu; apply zget_replicate_some in Hu; done).
  split; [split|..]; try done.
  - split; [by exists n; split; [lia|]|]. simpl. rewrite zlen_replicate. lia.
  - intros i k v Hu. by apply Hno in Hu.
  - intros i j k v w Hu. by apply Hno in Hu.
  - symmetry. apply occ_free.
  - intros k v. rewrite lookup_empty. split; [done|]. intros [i Hi]. by apply Hno in Hi.
Qed.

(** A larger table is shorter than its size: of 2^27 entries, [malloc] is asked for the bytes
    of a fifth, and an index past them is outside the block. *)
Lemma map_init_wraps : u32 (2 ^ 27 * SIZEOF_ENTRY) / SIZEOF_ENTRY = 26843545 /\ 26843545 < 2 ^ 27.
Proof. done. Qed.

(** ** Removing a key *)

(** The entry of [k] is on the way to the entry of [k']. *)
Definition behind (t : map_t) (k k' : list Z) : Prop :=
  exists i v d w e, used t i k v /\ used t (slot t k' d) k' w /\ 0 <= e < d /\ d < size t /\ slot t k' e = i.

Section remove.
Context (m : gmap (list Z) Z) (t : map_t) (k : list Z) (i v c : Z) (Hr : rep m t) (Hu : used t i k v).

Let t' := put t i (Entry k v false) c.

Lemma used_removed j k' w : used t' j k' w <-> j <> i /\ used t j k' w.
Proof.
  pose proof (used_range t (ok_shape _ (rep_ok _ _ Hr)) i k v Hu) as Hi.
  unfold t'. rewrite used_put by (by rewrite (ok_len _ (ok_shape _ (rep_ok _ _ Hr)))).
  case_decide as Hd; [split; [done|by intros [? _]; subst]|]. split; [|by intros [_ ?]]. intros ?. split; [congruence|done].
Qed.

Lemma taken_removed j : taken t' j <-> j <> i /\ taken t j.
Proof. unfold taken. setoid_rewrite used_removed. naive_solver. Qed.

Lemma shape_removed : shape t'.
Proof.
  destruct (ok_shape _ (rep_ok _ _ Hr)) as [H1 H2]. split; [exact H1|]. etransitivity; [apply zlen_zset|exact H2].
Qed.

Lemma lookup_removed k' :
  exists r, probe t' k' = Some r /\
    match r with
    | Found j => (exists w, used t j k' w /\ used t' j k' w) /\ k' <> k /\ ~ behind t k k'
    | Free _ => k' = k \/ behind t k k' \/ m !! k' = None
    | Wrapped => False
    end.
Proof.
  pose proof (rep_ok _ _ Hr) as Hok. pose proof (ok_shape _ Hok) as Hsh. pose proof shape_removed as Hsh'.
  pose proof (size_range t Hsh) as Hs. rewrite (probe_start t' Hsh').
  destruct (probe_loop_spec t' Hsh' (length (table t')) k' 0) as (r & -> & Hp);
    [change (size t') with (size t); lia|pose proof (ok_len _ Hsh'); unfold zlen in *; lia|intros d; lia|intros d w; lia|].
  exists r. split; [done|]. destruct r as [j|j|].
  - destruct Hp as (w & d & Hw & Hd & -> & Hre). pose proof Hw as [Hji Hwt]%used_removed.
    split; [by exists w|]. split; [intros ->; apply Hji; by eapply (ok_once _ Hok)|].
    intros (i1 & v1 & d1 & w1 & e & Hi1 & Hk1 & He & Hd1 & Hse). assert (i1 = i) as -> by (by eapply (ok_once _ Hok)).
    assert (d1 = d) as ->.
    { apply (slot_inj t Hsh k'); [lia|done|]. by eapply (ok_once _ Hok). }
    destruct (proj1 (taken_removed _) (Hre e He)) as [Hne _]. by apply Hne.
  - destruct Hp as (d & Hd & -> & Hre & Hm & Hn). destruct (decide (k' = k)) as [|Hk]; [by left|right].
    destruct (m !! k') as [w|] eqn:Hmk; [left|by right]. apply (rep_map _ _ Hr) in Hmk as [j Hj].
    destruct (ok_path _ Hok j k' w Hj) as (d0 & Hd0 & -> & Hr0).
    assert (Hji : slot t k' d0 <> i) by (intros E; rewrite E in Hj; by destruct (used_fun t i k' w k v Hj Hu)).
    assert (Hj' : used t' (slot t' k' d0) k' w) by (by apply used_removed).
    destruct (Z.lt_trichotomy d0 d) as [Hlt|[->|Hgt]]; [by destruct (Hm d0 w ltac:(lia))|by destruct Hn; exists k', w|].
    exists i, v, d0, w, d. split_and!; try done; try lia.
    destruct (decide (slot t k' d = i)) as [|Hne]; [done|]. destruct Hn. apply taken_removed. split; [done|]. apply Hr0. lia.
  - destruct Hp as [Hre _]. destruct (slot_onto t Hsh k' i) as (d & Hd & Hsd); [by eapply used_range|].
    destruct (proj1 (taken_removed _) (Hre d Hd)) as [Hne _]. by apply Hne.
Qed.

End remove.

(** ** Histories *)

Inductive op := Insert (k : list Z) (v : Z) | Lookup (k : list Z).

(** What the lookups return. *)
Fixpoint run (t : map_t) (ops : list op) : option (list Z) :=
  match ops with
  | [] => Some []
  | Insert k v :: ops => t ← map_insert t k v; run t ops
  | Lookup k :: ops => v ← map_lookup t k; vs ← run t ops; Some (v :: vs)
  end.

(** A finite map of at most [cap] keys, which ignores more. *)
Fixpoint spec_run (cap : Z) (m : gmap (list Z) Z) (ops : list op) : list Z :=
  match ops with
  | [] => []
  | Insert k v :: ops => spec_run cap (if decide (takes m cap k) then <[k := v]> m else m) ops
  | Lookup k :: ops => default NULL (m !! k) :: spec_run cap m ops
  end.

Definition op_ok (o : op) : Prop := match o with Insert k _ => short k | Lookup _ => True end.

(** C33: a new map of [sz] entries, at most [MAX_ENTRIES], behaves as a finite map that holds
    [sz] keys or more, for keys of at most [KEY_MAX_LEN] bytes, once [malloc] has given it the
    bytes of that many entries: every insertion and lookup ends, and each lookup, of a key of any length, returns the value last inserted under that
    key, or [NULL]; keys collide and wrap around without effect. *)
Theorem umap_refines (alloc : Z -> Z) (sz : Z) (ops : list op) :
  sz <= MAX_ENTRIES -> Forall op_ok ops ->
  exists cap, sz <= cap <= MAX_ENTRIES /\
    (alloc (cap * SIZEOF_ENTRY) <> NULL ->
     exists t, map_init alloc sz = Some t /\ size t = cap /\ run t ops = Some (spec_run cap ∅ ops)).
Proof.
  intros Hs Hops. destruct (map_init_spec alloc sz Hs) as (cap & Hc & Hi). exists cap. split; [done|].
  intros Hp. destruct (Hi Hp) as (t & -> & Hsz & Hr). exists t. split; [done|]. split; [done|].
  rewrite <-Hsz. clear Hp Hs Hsz Hi Hc. revert t Hr. generalize (∅ : gmap (list Z) Z).
  induction Hops as [|[k v|k] ops Ho _ IH]; intros m t Hr.
  - done.
  - simpl. destruct (map_insert_spec m t k v Hr Ho) as (t' & -> & Hst & Hr'). simpl. rewrite <-Hst at 1.
    rewrite (IH _ _ Hr'). by rewrite Hst.
  - simpl. rewrite (map_lookup_spec m t k Hr). simpl. by rewrite (IH m t Hr).
Qed.

(** C36: [map_remove] takes the key out, but it frees the entry: exactly the keys whose probe
    passes over that entry are lost with it, although they are still in the table; every
    other key is found as before. *)
Theorem map_remove_hides (m : gmap (list Z) Z) (t : map_t) (k : list Z) :
  rep m t ->
  match m !! k with
  | None => map_remove t k = Some (false, t)
  | Some _ => exists t', map_remove t k = Some (true, t') /\
      forall k', (k' = k \/ behind t k k' -> map_lookup t' k' = Some NULL) /\
                 (k' <> k -> ~ behind t k k' -> map_lookup t' k' = Some (default NULL (m !! k')))
  end.
Proof.
  intros Hr. pose proof (rep_ok _ _ Hr) as Hok. destruct (probe_spec t (ok_shape _ Hok) k Hok) as (r & Hp & Hs).
  unfold map_remove. rewrite Hp. simpl. destruct r as [i|i|]; [|by rewrite (rep_none m t k Hr) by apply Hs..].
  destruct Hs as [v Hu]. rewrite (proj2 (rep_map _ _ Hr k v)) by (by exists i). rewrite Hu.
  exists (put t i (Entry k v false) (u32 (count t - 1))). split; [done|]. intros k'.
  destruct (lookup_removed m t k i v (u32 (count t - 1)) Hr Hu k') as (r & Hp' & Hs).
  unfold map_lookup. rewrite Hp'. simpl. destruct r as [j|j|]; [..|done].
  - destruct Hs as ((w & Hw & Hw') & Hk & Hb). rewrite Hw'. simpl. split; [by intros [?|?]|]. intros _ _.
    by rewrite (proj2 (rep_map _ _ Hr k' w)) by (by exists j).
  - split; [done|]. intros Hk Hb. destruct Hs as [?|[?|Hn]]; [done..|]. by rewrite Hn.
Qed.

(** ** Witnesses: ["a"] and ["i"] have the same home in a map of 8 entries *)

Definition demo_alloc (n : Z) : Z := 0x400000.
Definition key_a : list Z := [97].
Definition key_i : list Z := [105].

(** A longer key is cut when it is stored, and not found again. *)
Lemma long_key_lost :
  (t ← map_init demo_alloc 5; t ← map_insert t (replicate 32 97) 1; map_lookup t (replicate 32 97)) = Some NULL.
Proof. vm_compute. reflexivity. Qed.

Lemma umap_refines_witness :
  exists t, map_init demo_alloc 5 = Some t /\ 5 <= size t /\
    run t [Insert key_a 1; Insert key_i 2; Insert key_a 3; Lookup key_a; Lookup key_i] = Some [3; 2].
Proof.
  destruct (umap_refines demo_alloc 5 [Insert key_a 1; Insert key_i 2; Insert key_a 3; Lookup key_a; Lookup key_i])
    as (cap & Hc & Ht); [done|repeat constructor; vm_compute; done|].
  destruct Ht as (t & Ht & Hs & E); [done|]. exists t. split; [exact Ht|]. split; [rewrite Hs; apply Hc|]. rewrite E.
  assert (cap = 8) as -> by (rewrite <-Hs; vm_compute in Ht; by injection Ht as <-). reflexivity.
Defined.

Definition pair_map : map_t :=
  default (Map [] 0 0) (t ← map_init demo_alloc 5; t ← map_insert t key_a 1; map_insert t key_i 2).

Lemma pair_rep : rep (<[key_i := 2]> (<[key_a := 1]> ∅)) pair_map.
Proof.
  destruct (map_init_spec demo_alloc 5) as (cap & _ & Hi); [done|]. destruct Hi as (t0 & H0 & _ & R0); [done|].
  destruct (map_insert_spec ∅ t0 key_a 1 R0) as (t1 & H1 & _ & R1); [done|].
  assert (E0 : size t0 = 8) by (vm_compute in H0; by injection H0 as <-). rewrite E0 in R1.
  destruct (map_insert_spec _ t1 key_i 2 R1) as (t2 & H2 & _ & R2); [done|].
  assert (Et1 : t1 = default t0 (t ← map_init demo_alloc 5; map_insert t key_a 1)) by (rewrite H0; simpl; by rewrite H1).
  assert (E1 : size t1 = 8) by (rewrite Et1; vm_compute in H0; injection H0 as <-; reflexivity). rewrite E1 in R2.
  assert (Et2 : pair_map = t2) by (unfold pair_map; rewrite H0; simpl; rewrite H1; simpl; by rewrite H2).
  rewrite Et2. exact R2.
Qed.

(** Removing "a" loses "i". *)
Lemma map_remove_hides_witness :
  exists t', map_remove pair_map key_a = Some (true, t') /\ map_lookup pair_map key_i = Some 2 /\
    map_lookup t' key_i = Some NULL.
Proof.
  pose proof (map_remove_hides _ pair_map key_a pair_rep) as Hm.
  destruct Hm as (t' & Ht & Hk). exists t'. split; [exact Ht|]. split; [vm_compute; reflexivity|].
  apply (Hk key_i). right. exists 4, 1, 1, 2, 0. repeat split; vm_compute; congruence.
Defined.
