(* ===== verification/UHeap.v ===== *)
(** * The heap of user programs (usr/lib/stdlib.c)

    [malloc] and [free] over a list of blocks in the memory that [sbrk] gives the process:
    a header of 16 bytes before each block, first fit, splitting, and joining of free
    neighbours. [hdrs] is the part of the memory that is used as headers; the rest belongs
    to the program, which may write to the blocks it owns. *)

From stdpp Require Import gmap.
From S2P Require Import Prelude.
From S2P Require KObj Paging.
From coqutil Require Import Datatypes.RecordSetters.
Import TriangleBracketNotations.

Local Open Scope Z_scope.

#[local] Arguments constant {E} newValue / _.

(** ** The code *)

Definition BLOCK_MAGIC : Z := 0xDEADBEEF.
Definition ALIGNMENT : Z := 8.
Definition ALIGN (sz : Z) : Z := Z.land (u32 (sz + (ALIGNMENT - 1))) (u32 (Z.lnot (ALIGNMENT - 1))).
Definition SIZEOF_BLOCK : Z := 16.

Record block_t := Block { size : Z; is_free : bool; next : Z; magic : Z }.

(** The headers, [heap_list_head], and the heap of the process in the kernel. *)
Record uheap := UHeap { hdrs : gmap Z block_t; heap_list_head : Z; heap_start : Z; heap_end : Z }.

Definition set_hdr (h : uheap) (p : Z) (b : block_t) : uheap := h <| hdrs := <[p := b]> (hdrs h) |>.

(** [sbrk] (usr/prog.h): what the call api_sbrk of the kernel answers, the old end or -1, and
    does to the ends of the heap. The call as the kernel runs it, with the pages that a
    smaller heap gives back, is in Sbrk, where [api_sbrk_result] shows that the two agree. A
    page is mapped when it is first touched: what follows is about programs whose pages can
    be had then, a touch that finds no memory ends the program. *)
Definition sbrk (h : uheap) (increment : Z) : Z * uheap :=
  let delta := s32 increment in
  let old_heapsize := s32 (heap_end h - heap_start h) in
  let new_heapsize := s32 (old_heapsize + delta) in
  if new_heapsize <? 0 then (u32 (-1), h)
  else
    let new_end := Paging.page_align_up (u32 (heap_start h + new_heapsize)) in
    if KObj.VM_START <=? new_end then (u32 (-1), h)
    else (heap_end h, h <| heap_end := u32 (heap_start h + new_heapsize) |>).

(** The first free block of [size] bytes or more, [0] for [NULL]. *)
Fixpoint find_free_loop (fuel : nat) (h : uheap) (current sz : Z) : option Z :=
  match fuel with
  | O => None
  | S fuel =>
      if current =? 0 then Some 0
      else
        b ← hdrs h !! current;
        if is_free b && (sz <=? size b) then Some current else find_free_loop fuel h (next b) sz
  end.

(** The list has no more blocks than there are headers. *)
Definition list_fuel (h : uheap) : nat := S (base.size (hdrs h)).

Definition find_free_block (h : uheap) (sz : Z) : option Z := find_free_loop (list_fuel h) h (heap_list_head h) sz.

(** [while(current->next) current = current->next;] and [current->next = block;] *)
Fixpoint append_loop (fuel : nat) (h : uheap) (current block : Z) : option uheap :=
  match fuel with
  | O => None
  | S fuel =>
      b ← hdrs h !! current;
      if next b =? 0 then Some (set_hdr h current (b <| next := block |>))
      else append_loop fuel h (next b) block
  end.

Definition malloc (h : uheap) (sz : Z) : option (Z * uheap) :=
  if sz =? 0 then Some (0, h)
  else
    let sz := ALIGN sz in
    block ← find_free_block h sz;
    if negb (block =? 0) then
      b ← hdrs h !! block;
      let b := b <| is_free := false |> in
      let remaining := u32 (size b - sz) in
      if SIZEOF_BLOCK + ALIGNMENT <? remaining then
        let new_block := u32 (block + SIZEOF_BLOCK + sz) in
        let h := set_hdr h new_block (Block (remaining - SIZEOF_BLOCK) true (next b) BLOCK_MAGIC) in
        let h := set_hdr h block (b <| size := sz |> <| next := new_block |>) in
        Some (u32 (block + SIZEOF_BLOCK), h)
      else Some (u32 (block + SIZEOF_BLOCK), set_hdr h block b)
    else
      let '(block, h) := sbrk h (u32 (SIZEOF_BLOCK + sz)) in
      if block =? u32 (-1) then Some (0, h)
      else
        let h := set_hdr h block (Block sz false 0 BLOCK_MAGIC) in
        h ← (if heap_list_head h =? 0 then Some (h <| heap_list_head := block |>)
             else append_loop (list_fuel h) h (heap_list_head h) block);
        Some (u32 (block + SIZEOF_BLOCK), h).

(** Each turn moves on or takes a block off the list. *)
Fixpoint coalesce_loop (fuel : nat) (h : uheap) (current : Z) : option uheap :=
  match fuel with
  | O => None
  | S fuel =>
      if current =? 0 then Some h
      else
        b ← hdrs h !! current;
        if next b =? 0 then Some h
        else
          nb ← hdrs h !! next b;
          if is_free b && is_free nb && (u32 (current + SIZEOF_BLOCK + size b) =? next b) then
            coalesce_loop fuel
              (set_hdr h current (b <| size := u32 (size b + SIZEOF_BLOCK + size nb) |> <| next := next nb |>)) current
          else coalesce_loop fuel h (next b)
  end.

Definition coalesce_free_blocks (h : uheap) : option uheap :=
  coalesce_loop (list_fuel h) h (heap_list_head h).

Definition free (h : uheap) (ptr : Z) : option uheap :=
  if ptr =? 0 then Some h
  else
    let block := u32 (ptr - SIZEOF_BLOCK) in
    b ← hdrs h !! block;
    if negb (magic b =? BLOCK_MAGIC) then Some h
    else if is_free b then Some h
    else coalesce_free_blocks (set_hdr h block (b <| is_free := true |>)).

Fixpoint used_loop (fuel : nat) (h : uheap) (current count : Z) : option Z :=
  match fuel with
  | O => None
  | S fuel =>
      if current =? 0 then Some count
      else b ← hdrs h !! current; used_loop fuel h (next b) (if is_free b then count else s32 (count + 1))
  end.

Definition used_blocks (h : uheap) : option Z := used_loop (list_fuel h) h (heap_list_head h) 0.

(** A new process: no block yet. *)
Definition heap_init (start : Z) : uheap := UHeap ∅ 0 start start.

Definition demo : option (Z * Z * Z * option Z) :=
  '(p, h) ← malloc (heap_init 0x500000) 100;
  '(q, h) ← malloc h 10;
  h ← free h p;
  '(r, h) ← malloc h 20;
  Some (p, q, r, used_blocks h).

Example demo_runs : demo = Some (0x500010, 0x500088, 0x500010, Some 2).
Proof. vm_compute. reflexivity. Qed.

(** ** The list of blocks *)

Record blk := Blk { b_at : Z; b_size : Z; b_free : bool }.

Definition b_end (b : blk) : Z := b_at b + SIZEOF_BLOCK + b_size b.
Definition user (b : blk) : Z := b_at b + SIZEOF_BLOCK.
Definition in_use (l : list blk) : list blk := filter (fun b => b_free b = false) l.

(** The headers from [p] to [q]. *)
Fixpoint seg (hs : gmap Z block_t) (p : Z) (l : list blk) (q : Z) : Prop :=
  match l with
  | [] => p = q
  | b :: l => p = b_at b /\ p <> 0 /\
      exists n, hs !! p = Some (Block (b_size b) (b_free b) n BLOCK_MAGIC) /\ seg hs n l q
  end.

(** Blocks in the order of their addresses, none over another. *)
Fixpoint laid (lo hi : Z) (l : list blk) : Prop :=
  match l with
  | [] => lo <= hi
  | b :: l => lo <= b_at b /\ b_at b mod 8 = 0 /\ 0 < b_size b /\ b_size b mod 8 = 0 /\ laid (b_end b) hi l
  end.

(** No two free blocks touch. *)
Fixpoint joined (l : list blk) : Prop :=
  match l with
  | b :: l => match l with c :: _ => ~ (b_free b = true /\ b_free c = true /\ b_end b = b_at c) | [] => True end /\ joined l
  | [] => True
  end.

Lemma seg_app hs p l1 l2 q : seg hs p (l1 ++ l2) q <-> exists r, seg hs p l1 r /\ seg hs r l2 q.
Proof.
  revert p. induction l1 as [|b l1 IH]; intros p; simpl.
  - split; [by exists p|by intros (r & -> & ?)].
  - split.
    + intros (-> & Hz & n & Hn & Hs). apply IH in Hs as (r & H1 & H2). exists r. split; [|done]. split_and!; try done. by exists n.
    + intros (r & (-> & Hz & n & Hn & H1) & H2). split_and!; try done. exists n. split; [done|]. apply IH. by exists r.
Qed.

Lemma seg_frame hs hs' p l q : (forall b, b ∈ l -> hs' !! b_at b = hs !! b_at b) -> seg hs p l q -> seg hs' p l q.
Proof.
  revert p. induction l as [|b l IH]; intros p Hf; simpl; [done|]. intros (-> & Hz & n & Hn & Hs). split_and!; try done.
  exists n. split; [rewrite Hf; [done|left]|]. apply IH; [|done]. intros c Hc. apply Hf. by right.
Qed.

Lemma laid_bounds lo hi l : laid lo hi l -> lo <= hi /\ forall b, b ∈ l -> lo <= b_at b /\ b_end b <= hi /\ 0 < b_size b /\
  b_at b mod 8 = 0 /\ b_size b mod 8 = 0.
Proof.
  revert lo. induction l as [|b l IH]; intros lo; simpl.
  - intros H. split; [done|]. intros b Hb. by apply not_elem_of_nil in Hb.
  - intros (H1 & H2 & H3 & H4 & H5). destruct (IH _ H5) as [H6 H7]. unfold b_end, SIZEOF_BLOCK in *. split; [lia|].
    intros c [->|Hc]%elem_of_cons; [lia|]. destruct (H7 c Hc). lia.
Qed.

Lemma laid_app lo hi l1 l2 : laid lo hi (l1 ++ l2) <-> exists m, laid lo m l1 /\ laid m hi l2.
Proof.
  revert lo. induction l1 as [|b l1 IH]; intros lo; simpl.
  - split; [intros H; exists lo; by split|]. intros (m & Hm & Hl). destruct l2 as [|c l2]; simpl in *; [lia|]. intuition lia.
  - split.
    + intros (H1 & H2 & H3 & H4 & (m & Hm & Hl)%IH). exists m. by split_and!.
    + intros (m & (H1 & H2 & H3 & H4 & H5) & Hl). split_and!; try done. apply IH. by exists m.
Qed.

Lemma laid_cases lo hi l b c : laid lo hi l -> b ∈ l -> c ∈ l -> b = c \/ b_end b <= b_at c \/ b_end c <= b_at b.
Proof.
  revert lo. induction l as [|x l IH]; intros lo; [intros _ Hb; by apply not_elem_of_nil in Hb|].
  intros (_ & _ & _ & _ & Hl) Hb Hc. destruct (laid_bounds _ _ _ Hl) as [_ Hbd].
  apply elem_of_cons in Hb as [->|Hb], Hc as [->|Hc]; [by left|..|by eapply IH].
  - right. left. by apply Hbd.
  - right. right. by apply Hbd.
Qed.

Lemma laid_inj lo hi l b c : laid lo hi l -> b ∈ l -> c ∈ l -> b_at b = b_at c -> b = c.
Proof.
  intros Hl Hb Hc He. destruct (laid_bounds _ _ _ Hl) as [_ Hbd]. pose proof (Hbd b Hb). pose proof (Hbd c Hc).
  destruct (laid_cases _ _ _ _ _ Hl Hb Hc); [done|]. unfold b_end, SIZEOF_BLOCK in *. lia.
Qed.

Lemma laid_not_in lo hi l1 b l2 c : laid lo hi (l1 ++ b :: l2) -> c ∈ l1 \/ c ∈ l2 -> b_at c <> b_at b.
Proof.
  intros (m & H1 & (H2 & _ & H3 & _ & H4))%laid_app Hc. unfold b_end, SIZEOF_BLOCK in *.
  destruct Hc as [Hc|Hc]; [destruct (laid_bounds _ _ _ H1) as [_ Hb]|destruct (laid_bounds _ _ _ H4) as [_ Hb]];
    specialize (Hb c Hc); unfold b_end, SIZEOF_BLOCK in *; lia.
Qed.

Lemma laid_NoDup lo hi l : laid lo hi l -> NoDup (b_at <$> l).
Proof.
  revert lo. induction l as [|b l IH]; intros lo; simpl; [constructor|]. intros (_ & _ & H3 & _ & Hl).
  constructor; [|by eapply IH]. intros (c & He & Hc)%list_elem_of_fmap. destruct (laid_bounds _ _ _ Hl) as [_ Hb].
  specialize (Hb c Hc). unfold b_end, SIZEOF_BLOCK in *. lia.
Qed.

Lemma seg_dom hs p l q b : seg hs p l q -> b ∈ l -> is_Some (hs !! b_at b).
Proof.
  revert p. induction l as [|x l IH]; intros p; [intros _ Hb; by apply not_elem_of_nil in Hb|].
  intros (-> & _ & n & Hn & Hs) [->|Hb]%elem_of_cons; [by eexists|by eapply IH].
Qed.

Lemma seg_fuel h p l q lo hi : seg (hdrs h) p l q -> laid lo hi l -> (length l < list_fuel h)%nat.
Proof.
  intros Hs Hl. unfold list_fuel. rewrite <-(size_dom (D := gset Z)). apply le_n_S.
  rewrite <-(length_fmap b_at), <-(size_list_to_set (C := gset Z)) by (by eapply laid_NoDup).
  apply subseteq_size. intros a Ha. apply elem_of_list_to_set, list_elem_of_fmap in Ha as (b & -> & Hb).
  apply elem_of_dom. by eapply seg_dom.
Qed.

(** ** Walks through the list *)

Section walks.
Context (lo hi : Z).
Implicit Types (h : uheap).

Lemma find_free_block_spec fuel h p l sz :
  seg (hdrs h) p l 0 -> (length l < fuel)%nat ->
  (find_free_loop fuel h p sz = Some 0 /\ forall b, b ∈ l -> b_free b = true -> b_size b < sz) \/
  exists l1 b l2, l = l1 ++ b :: l2 /\ find_free_loop fuel h p sz = Some (b_at b) /\ b_at b <> 0 /\
    b_free b = true /\ sz <= b_size b /\ forall c, c ∈ l1 -> b_free c = true -> b_size c < sz.
Proof.
  revert p l. induction fuel as [|fuel IH]; intros p [|b l] Hs Hf; simpl in Hf; try lia; cbn [find_free_loop].
  - simpl in Hs. subst p. left. split; [done|]. intros b Hb. by apply not_elem_of_nil in Hb.
  - destruct Hs as (-> & Hz & n & Hn & Hs). rewrite (proj2 (Z.eqb_neq _ _)) by done. rewrite Hn. simpl.
    destruct (b_free b) eqn:Hb, (Z.leb_spec sz (b_size b)); simpl.
    { right. exists [], b, l. split_and!; try done. intros c Hc. by apply not_elem_of_nil in Hc. }
    all: destruct (IH n l Hs) as [[E Hno]|(l1 & c & l2 & -> & E & Hcz & Hc & Hsz & Hno)]; [lia| |];
      [left; split; [done|]|right; exists (b :: l1), c, l2; split_and!; try done];
      intros x [->|Hx]%elem_of_cons Hxf; (congruence || lia || by apply Hno).
Qed.

Lemma append_spec fuel h p l b block :
  seg (hdrs h) p (l ++ [b]) 0 -> (length l < fuel)%nat ->
  append_loop fuel h p block = Some (set_hdr h (b_at b) (Block (b_size b) (b_free b) block BLOCK_MAGIC)).
Proof.
  revert p l. induction fuel as [|fuel IH]; intros p l Hs Hf; [lia|]. cbn [append_loop]. destruct l as [|c l]; simpl in Hs, Hf.
  - destruct Hs as (-> & Hz & n & -> & ->). done.
  - destruct Hs as (-> & Hz & n & -> & Hs). simpl. rewrite (proj2 (Z.eqb_neq n 0)); [apply (IH n l); [done|lia]|].
    destruct l; simpl in Hs; destruct Hs as (-> & Hnz & _); done.
Qed.

(** The list after a block was changed in its place, or with a block behind it. *)
Lemma seg_update hs p l1 b l2 b' l' n q :
  seg hs p (l1 ++ b :: l2) 0 -> laid lo hi (l1 ++ b :: l2) -> b_at b' = b_at b ->
  hs !! b_at b = Some (Block (b_size b) (b_free b) q BLOCK_MAGIC) ->
  (seg hs q l2 0 -> seg (<[b_at b := Block (b_size b') (b_free b') n BLOCK_MAGIC]> hs) n l' 0) ->
  seg (<[b_at b := Block (b_size b') (b_free b') n BLOCK_MAGIC]> hs) p (l1 ++ b' :: l') 0.
Proof.
  intros Hs Hl Hat Hq Hseg. apply seg_app in Hs as (r & H1 & (-> & Hz & n' & Hn' & H2)). assert (n' = q) as -> by congruence.
  apply seg_app. exists (b_at b). split.
  - apply (seg_frame hs); [|done]. intros c Hc. rewrite lookup_insert_ne; [done|].
    intros E. eapply (laid_not_in _ _ l1 b l2 c); [exact Hl|by left|done].
  - split; [done|]. split; [done|]. exists n. rewrite lookup_insert_eq. split; [done|]. by apply Hseg.
Qed.

Lemma used_loop_spec fuel h p l count :
  seg (hdrs h) p l 0 -> (length l < fuel)%nat -> 0 <= count -> count + zlen l < 2 ^ 31 ->
  used_loop fuel h p count = Some (count + zlen (in_use l)).
Proof.
  revert p l count. induction fuel as [|fuel IH]; intros p [|b l] count Hs Hf Hc Hb; simpl in Hf; try lia; cbn [used_loop].
  - simpl in Hs. subst p. simpl. change (in_use []) with (@nil blk). rewrite zlen_nil, Z.add_0_r. done.
  - destruct Hs as (-> & Hz & n & -> & Hs). rewrite (proj2 (Z.eqb_neq _ _)) by done. simpl. rewrite zlen_cons in Hb.
    pose proof (zlen_nonneg l). unfold in_use. rewrite filter_cons. destruct (b_free b).
    + rewrite decide_False by done. rewrite (IH n l) by (try done; lia). done.
    + rewrite decide_True by done. rewrite s32_id by lia. rewrite (IH n l) by (try done; lia). rewrite zlen_cons. f_equal. unfold in_use. lia.
Qed.

End walks.

(** ** Joining free neighbours *)

(** What identifies the first block. *)
Definition front (l : list blk) : option (Z * bool) := (fun b => (b_at b, b_free b)) <$> head l.

Lemma coalesce_spec fuel h p l lo hi :
  seg (hdrs h) p l 0 -> laid lo hi l -> (length l < fuel)%nat -> 0 <= lo -> hi < 2 ^ 32 ->
  exists hs l', coalesce_loop fuel h p = Some (h <| hdrs := hs |>) /\ seg hs p l' 0 /\ laid lo hi l' /\ joined l' /\
    in_use l' = in_use l /\ front l' = front l /\ (forall a, a ∉ (b_at <$> l) -> hs !! a = hdrs h !! a).
Proof.
  revert h p l lo. induction fuel as [|fuel IH]; intros h p l lo Hs Hl Hf Hlo Hhi; [lia|]. cbn [coalesce_loop].
  destruct l as [|b l].
  { simpl in Hs. subst p. exists (hdrs h), []. destruct h. by split_and!. }
  destruct Hs as (-> & Hz & n & Hn & Hs). rewrite (proj2 (Z.eqb_neq _ _)) by done. rewrite Hn. simpl.
  destruct l as [|c l].
  { simpl in Hs. subst n. exists (hdrs h), [b]. rewrite Z.eqb_refl. split; [by destruct h|]. split; [|by split_and!].
    split; [done|]. split; [done|]. by exists 0. }
  pose proof Hs as (-> & Hcz & m & Hm & Hs2). rewrite (proj2 (Z.eqb_neq (b_at c) 0)) by done. rewrite Hm. simpl.
  destruct Hl as (L1 & L2 & L3 & L4 & L5). pose proof L5 as (M1 & M2 & M3 & M4 & M5).
  destruct (laid_bounds _ _ _ M5) as [Hce _]. unfold b_end, SIZEOF_BLOCK in *.
  rewrite (u32_id (b_at b + 16 + b_size b)) by lia.
  destruct (b_free b && b_free c && (b_at b + 16 + b_size b =? b_at c)) eqn:Hj.
  - apply andb_true_iff in Hj as [[Hb Hc]%andb_true_iff Hadj%Z.eqb_eq]. rewrite u32_id by lia.
    set (b' := Blk (b_at b) (b_size b + 16 + b_size c) true). rewrite Hb.
    set (h1 := set_hdr h (b_at b) _).
    assert (Hh1 : hdrs h1 = <[b_at b := Block (b_size b') true m BLOCK_MAGIC]> (hdrs h)) by done.
    destruct (IH h1 (b_at b) (b' :: l) lo) as (hs & l' & E & S' & La & J & U & F & Fr); [| |simpl in *; lia|done|done|].
    + split; [done|]. split; [done|]. exists m. rewrite Hh1. split; [by rewrite lookup_insert_eq|].
      apply (seg_frame (hdrs h)); [|done]. intros x Hx. rewrite lookup_insert_ne; [done|].
      destruct (laid_bounds _ _ _ M5) as [_ Hbd]. specialize (Hbd x Hx). unfold b_end, SIZEOF_BLOCK in *. lia.
    + split; [done|]. split; [done|]. simpl. split; [lia|]. split; [clear -L4 M4; Z.to_euclidean_division_equations; lia|].
      unfold b_end, SIZEOF_BLOCK. simpl. by replace (b_at b + 16 + (b_size b + 16 + b_size c)) with (b_at c + 16 + b_size c) by lia.
    + exists hs, l'. split; [exact E|]. split; [done|]. split; [done|]. split; [done|]. split; [|split].
      * rewrite U. unfold in_use. rewrite !filter_cons, !decide_False; [done|by rewrite Hc|by rewrite Hb|done].
      * rewrite F. unfold front. simpl. by rewrite Hb.
      * intros a Ha. rewrite Fr; [|set_solver]. rewrite Hh1, lookup_insert_ne; [done|]. set_solver.
  - destruct (IH h (b_at c) (c :: l) (b_at b + 16 + b_size b)) as (hs & l' & E & S' & La & J & U & F & Fr);
      [done|done|simpl in *; lia|lia|done|].
    exists hs, (b :: l'). split; [exact E|]. split; [|split; [done|split; [|split; [|split]]]].
    + split; [done|]. split; [done|]. exists (b_at c). split; [|done]. rewrite Fr; [done|].
      intros Hin. simpl in Hin. apply elem_of_cons in Hin as [Hin|(x & Hxe & Hx)%list_elem_of_fmap]; [lia|].
      destruct (laid_bounds _ _ _ M5) as [_ Hbd]. specialize (Hbd x Hx). unfold b_end, SIZEOF_BLOCK in *. lia.
    + split; [|done]. destruct l' as [|d l']; [done|]. unfold front in F. simpl in F. injection F as E1 E2.
      intros (Hb & Hd & He). unfold b_end, SIZEOF_BLOCK in He. rewrite Hb, <-E2, Hd, He, E1, Z.eqb_refl in Hj. done.
    + unfold in_use in *. rewrite (filter_cons _ b l'), (filter_cons _ b (c :: l)). by rewrite U.
    + done.
    + intros a Ha. apply Fr. set_solver.
Qed.

(** ** The operations *)

Lemma ALIGN_spec sz : 0 <= sz -> sz + 7 < 2 ^ 32 -> ALIGN sz = (sz + 7) / 8 * 8.
Proof.
  intros Hs Hb. unfold ALIGN, ALIGNMENT. rewrite u32_id by lia.
  change (u32 (Z.lnot (8 - 1))) with (Z.shiftl (Z.ones 29) 3). change (8 - 1) with 7.
  assert ((sz + 7) / 8 * 8 = Z.shiftl (Z.shiftr (sz + 7) 3) 3) as ->
    by (by rewrite Z.shiftr_div_pow2, Z.shiftl_mul_pow2 by lia).
  apply Z.bits_inj'. intros n Hn. rewrite Z.land_spec, !Z.shiftl_spec by done.
  destruct (decide (n < 3)); [by rewrite !(Z.testbit_neg_r _ (n - 3)) by lia; rewrite andb_false_r|].
  rewrite Z.shiftr_spec by lia. replace (n - 3 + 3) with n by lia. destruct (decide (n - 3 < 29)).
  - by rewrite Z.ones_spec_low, andb_true_r by lia.
  - rewrite Z.ones_spec_high by lia. rewrite andb_false_r. symmetry.
    destruct (decide (sz + 7 = 0)); [lia|]. apply Z.bits_above_log2; [lia|]. apply Z.log2_lt_pow2; [lia|].
    apply (Z.lt_le_trans _ (2 ^ 32)); [lia|]. apply Z.pow_le_mono_r; lia.
Qed.

Record heap_ok (h : uheap) (l : list blk) : Prop := {
  ho_seg : seg (hdrs h) (heap_list_head h) l 0;
  ho_laid : laid (heap_start h) (heap_end h) l;
  ho_joined : joined l;
  ho_start : 0 < heap_start h <= 2 ^ 30 /\ heap_start h mod 8 = 0;
  ho_end : heap_end h mod 8 = 0 /\ heap_end h - heap_start h < 2 ^ 31 /\ heap_end h < KObj.VM_START }.

Lemma heap_ok_le h l : heap_ok h l -> heap_start h <= heap_end h /\ KObj.VM_START < 2 ^ 32.
Proof. intros Hok. split; [by destruct (laid_bounds _ _ _ (ho_laid _ _ Hok))|done]. Qed.

Lemma joined_app l1 l2 : joined (l1 ++ l2) -> joined l2.
Proof. induction l1 as [|b l1 IH]; [done|]. intros [_ Hj]. by apply IH. Qed.

(** What comes before a block only knows where it is and whether it is free. *)
Lemma joined_tail l1 b b' l2 l' :
  joined (l1 ++ b :: l2) -> b_at b' = b_at b -> (b_free b' = true -> b_free b = true) -> joined (b' :: l') ->
  joined (l1 ++ b' :: l').
Proof.
  intros Hj Hat Hfr Hj'. induction l1 as [|c l1 IH]; [done|]. destruct Hj as [Hc Hj]. split; [|by apply IH].
  destruct l1 as [|d l1]; simpl in *; [|done]. rewrite Hat. intros (H1 & H2 & H3). apply Hc. auto.
Qed.

Lemma joined_snoc l b : joined l -> b_free b = false -> joined (l ++ [b]).
Proof.
  intros Hj Hb. induction l as [|x l IH]; [done|]. destruct Hj as [Hx Hj]. split; [|by apply IH].
  destruct l as [|y l]; simpl; [|done]. intros (_ & E & _). congruence.
Qed.

Lemma in_use_app l1 l2 : in_use (l1 ++ l2) = in_use l1 ++ in_use l2.
Proof. apply filter_app. Qed.

Lemma in_use_cons b l : in_use (b :: l) = if b_free b then in_use l else b :: in_use l.
Proof.
  unfold in_use. rewrite filter_cons. destruct (b_free b) eqn:E; [by rewrite decide_False by congruence|by rewrite decide_True].
Qed.

(** The kernel gives [n] bytes more, above everything the process has, or nothing. *)
Lemma sbrk_spec h n :
  0 < heap_start h <= 2 ^ 30 -> heap_start h <= heap_end h -> heap_end h - heap_start h < 2 ^ 31 -> 0 <= n < 2 ^ 31 ->
  heap_end h < KObj.VM_START ->
  (exists h', sbrk h n = (u32 (-1), h') /\ h' = h) \/
  (sbrk h n = (heap_end h, h <| heap_end := heap_end h + n |>) /\ heap_end h + n < KObj.VM_START /\
   heap_end h + n - heap_start h < 2 ^ 31).
Proof.
  intros Hs Hle Hsz Hn Hend. unfold sbrk. rewrite (s32_id n), (s32_id (heap_end h - heap_start h)) by lia.
  destruct (Z.ltb_spec (s32 (heap_end h - heap_start h + n)) 0) as [|Hnn]; [left; by exists h|].
  assert (Hlt : heap_end h - heap_start h + n < 2 ^ 31).
  { destruct (Z.lt_ge_cases (heap_end h - heap_start h + n) (2 ^ 31)); [done|]. unfold s32 in Hnn.
    rewrite <-(Z.mod_unique _ (2 ^ 32) 1 (heap_end h - heap_start h + n - 2 ^ 31)) in Hnn; lia. }
  rewrite s32_id by lia. replace (heap_start h + (heap_end h - heap_start h + n)) with (heap_end h + n) by lia.
  unfold KObj.VM_START in *. rewrite u32_id by lia. rewrite Paging.page_align_up_spec by lia.
  destruct (Z.leb_spec 2684354560 ((heap_end h + n + 4095) / 4096 * 4096)); [left; by exists h|]. right.
  split; [done|]. split; [|lia]. Z.to_euclidean_division_equations; lia.
Qed.

(** A block is handed out: the heap is as it should be, and the block is a new one. *)
Definition handed (h : uheap) (l : list blk) (n : Z) (p : Z) (h' : uheap) : Prop :=
  exists l' b, heap_ok h' l' /\ user b = p /\ n <= b_size b /\ in_use l' ≡ₚ b :: in_use l /\
    heap_start h' = heap_start h.

Lemma malloc_reuse h l1 b l2 n sz q :
  heap_ok h (l1 ++ b :: l2) -> b_free b = true -> n <= sz -> sz <= b_size b ->
  hdrs h !! b_at b = Some (Block (b_size b) (b_free b) q BLOCK_MAGIC) ->
  handed h (l1 ++ b :: l2) n (user b) (set_hdr h (b_at b) (Block (b_size b) false q BLOCK_MAGIC)).
Proof.
  intros [H1 H2 H3 H4 H5] Hb Hn Hsz Hq. pose proof H2 as (m & L1 & (L2 & L3 & L4 & L5 & L6))%laid_app.
  set (b' := Blk (b_at b) (b_size b) false). exists (l1 ++ b' :: l2), b'. split; [constructor; try done|split_and!; try done; simpl; try lia].
  - apply (seg_update _ _ (hdrs h) _ l1 b l2 b' l2 q q H1 H2 eq_refl Hq). intros Hs. apply (seg_frame (hdrs h)); [|done].
    intros c Hc. rewrite lookup_insert_ne; [done|]. intros E. eapply (laid_not_in _ _ l1 b l2 c); [exact H2|by right|done].
  - apply laid_app. exists m. split; [done|]. by split_and!.
  - apply (joined_tail l1 b b' l2 l2); try done. split; [destruct l2; [done|by intros [? _]]|].
    apply (joined_app (l1 ++ [b])). by rewrite <-app_assoc.
  - rewrite !in_use_app, !in_use_cons, Hb. simpl. by rewrite Permutation_middle.
Qed.

Lemma malloc_split h l1 b l2 n sz q :
  heap_ok h (l1 ++ b :: l2) -> b_free b = true -> n <= sz -> 0 < sz -> sz mod 8 = 0 -> 24 < b_size b - sz ->
  hdrs h !! b_at b = Some (Block (b_size b) (b_free b) q BLOCK_MAGIC) ->
  handed h (l1 ++ b :: l2) n (user b)
    (set_hdr (set_hdr h (b_at b + 16 + sz) (Block (b_size b - sz - 16) true q BLOCK_MAGIC))
       (b_at b) (Block sz false (b_at b + 16 + sz) BLOCK_MAGIC)).
Proof.
  intros [H1 H2 H3 H4 H5] Hb Hn Hpos Hal Hrem Hq. pose proof H2 as (m & L1 & (L2 & L3 & L4 & L5 & L6))%laid_app.
  set (c := Blk (b_at b + 16 + sz) (b_size b - sz - 16) true). set (b' := Blk (b_at b) sz false).
  assert (Hend : b_end c = b_end b) by (unfold b_end, SIZEOF_BLOCK; simpl; lia).
  assert (Hc : forall x, x ∈ l1 ++ b :: l2 -> b_at c <> b_at x).
  { intros x Hx E. destruct (laid_bounds _ _ _ H2) as [_ Hbd]. pose proof (Hbd x Hx) as (_ & _ & Hp & _).
    destruct (laid_cases _ _ _ x b H2 Hx ltac:(set_solver)) as [->|[Hd|Hd]];
      unfold b_end, SIZEOF_BLOCK in *; simpl in *; lia. }
  set (hs1 := <[b_at c := Block (b_size c) true q BLOCK_MAGIC]> (hdrs h)).
  assert (Hs1 : seg hs1 (heap_list_head h) (l1 ++ b :: l2) 0).
  { apply (seg_frame (hdrs h)); [|done]. intros x Hx. unfold hs1. rewrite lookup_insert_ne; [done|by apply Hc]. }
  exists (l1 ++ b' :: c :: l2), b'. split; [constructor; try done|split_and!; try done; simpl; try lia].
  - apply (seg_update _ _ hs1 _ l1 b l2 b' (c :: l2) (b_at c) q Hs1 H2 eq_refl).
    + unfold hs1. rewrite lookup_insert_ne; [done|]. apply Hc. set_solver.
    + assert (Hcb : b_at b <> b_at c) by (intros E; by apply (Hc b); [set_solver|]).
      intros Hs. split; [done|]. split; [destruct (laid_bounds _ _ _ L1); simpl; lia|]. exists q.
      rewrite lookup_insert_ne by done. unfold hs1 at 1. rewrite lookup_insert_eq. split; [done|].
      apply (seg_frame hs1); [|done]. intros x Hx. rewrite lookup_insert_ne; [done|].
      intros E. eapply (laid_not_in _ _ l1 b l2 x); [exact H2|by right|done].
  - apply laid_app. exists m. split; [done|]. split; [done|]. split; [done|]. split; [done|]. split; [done|].
    split; [done|]. simpl. split; [Z.to_euclidean_division_equations; lia|]. split; [lia|].
    split; [Z.to_euclidean_division_equations; lia|]. by rewrite Hend.
  - apply (joined_tail l1 b b' l2 (c :: l2)); try done. split; [by intros [? _]|].
    apply (joined_app l1) in H3. destruct H3 as [H6 H7]. split; [|done]. destruct l2 as [|d l2]; [done|].
    rewrite Hend. intros (_ & ? & ?). by apply H6.
  - rewrite !in_use_app, !in_use_cons, Hb. simpl. by rewrite Permutation_middle.
Qed.

Lemma malloc_grow h l n sz hs :
  heap_ok h l -> n <= sz -> 0 < sz -> sz mod 8 = 0 ->
  heap_end h + (16 + sz) < KObj.VM_START -> heap_end h + (16 + sz) - heap_start h < 2 ^ 31 ->
  seg hs (if heap_list_head h =? 0 then heap_end h else heap_list_head h) (l ++ [Blk (heap_end h) sz false]) 0 ->
  handed h l n (heap_end h + 16)
    (UHeap hs (if heap_list_head h =? 0 then heap_end h else heap_list_head h) (heap_start h) (heap_end h + (16 + sz))).
Proof.
  intros Hok Hn Hpos Hal Hvm H31 Hs. destruct (heap_ok_le _ _ Hok) as [Hle _]. destruct Hok as [H1 H2 H3 H4 [H5 H6]].
  set (b := Blk (heap_end h) sz false). exists (l ++ [b]), b.
  split; [constructor; try done|split_and!; try done].
  - apply laid_app. exists (heap_end h). split; [done|]. split_and!; try done; simpl; unfold b_end, SIZEOF_BLOCK; simpl; lia.
  - by apply joined_snoc.
  - simpl. split; [|lia]. Z.to_euclidean_division_equations; lia.
  - rewrite in_use_app, in_use_cons. simpl. by rewrite Permutation_app_comm.
Qed.

Lemma ALIGN_bounds n : 0 < n -> n < 2 ^ 31 - 24 -> n <= ALIGN n < 2 ^ 31 - 16 /\ ALIGN n mod 8 = 0 /\ 0 < ALIGN n.
Proof. intros H0 Hn. rewrite ALIGN_spec by lia. split_and!; Z.to_euclidean_division_equations; lia. Qed.

(** [malloc] never faults: it returns [NULL] and leaves the heap alone, or hands out a block. *)
(** No free block is large enough. *)
Lemma malloc_new h l n sz :
  heap_ok h l -> 0 < n <= sz -> sz mod 8 = 0 -> sz < 2 ^ 31 - 16 ->
  exists p h', ('(block, h) ← Some (sbrk h (16 + sz));
      if block =? u32 (-1) then Some (0, h)
      else
        let h := set_hdr h block (Block sz false 0 BLOCK_MAGIC) in
        h ← (if heap_list_head h =? 0 then Some (h <| heap_list_head := block |>)
             else append_loop (list_fuel h) h (heap_list_head h) block);
        Some (u32 (block + SIZEOF_BLOCK), h)) = Some (p, h') /\ ((p = 0 /\ h' = h) \/ (p <> 0 /\ 0 < n /\ handed h l n p h')).
Proof.
  intros Hok Hn Hal Hsz. destruct (heap_ok_le _ _ Hok) as [Hle Hvm]. pose proof Hok as [H1 H2 H3 [H4 H4'] (H5 & H6 & H7)].
  cbn [mbind option_bind].
  destruct (sbrk_spec h (16 + sz)) as [(h' & -> & ->)|(-> & Hend & H31)]; try lia; [exists 0, h; split; [done|by left]|].
  rewrite (proj2 (Z.eqb_neq _ _)) by (change (u32 (-1)) with (2 ^ 32 - 1); lia). destruct h as [hs0 hd st en]. cbv zeta.
  cbn [hdrs heap_list_head heap_start heap_end] in *. set (hs1 := <[en := Block sz false 0 BLOCK_MAGIC]> hs0).
  match goal with |- context [set_hdr ?h en ?b] => change (set_hdr h en b) with (UHeap hs1 hd st (en + (16 + sz))) end.
  cbn [hdrs heap_list_head heap_start heap_end]. unfold SIZEOF_BLOCK. rewrite (u32_id (en + 16)) by lia. exists (en + 16).
  assert (Hfr : forall b, b ∈ l -> b_at b <> en).
  { intros b Hb E. destruct (laid_bounds _ _ _ H2) as [_ Hbd]. specialize (Hbd b Hb). unfold b_end, SIZEOF_BLOCK in *. lia. }
  assert (Hs1 : seg hs1 hd l 0).
  { apply (seg_frame hs0); [|done]. intros b Hb. unfold hs1. rewrite lookup_insert_ne; [done|]. intros E. by apply (Hfr b). }
  assert (Hnb : hs1 !! en = Some (Block sz false 0 BLOCK_MAGIC)) by (unfold hs1; by rewrite lookup_insert_eq).
  pose proof (fun hs => malloc_grow (UHeap hs0 hd st en) l n sz hs Hok ltac:(lia) ltac:(lia) Hal Hend H31) as Hg.
  cbn [hdrs heap_list_head heap_start heap_end] in Hg.
  destruct (Z.eqb_spec hd 0) as [E|E].
  - eexists. split; [done|]. right. split; [lia|]. split; [lia|]. apply Hg.
    destruct l as [|b l]; [|by destruct H1 as (? & ? & _); subst]. split; [done|]. split; [simpl; lia|]. by exists 0.
  - destruct (exists_last (l := l)) as (l0 & b & ->); [by intros ->|].
    pose proof (seg_fuel (UHeap hs1 hd st en) _ _ _ _ _ Hs1 H2) as Hf. rewrite length_app in Hf. simpl in Hf.
    rewrite (append_spec _ (UHeap hs1 hd st (en + (16 + sz))) _ l0 b en Hs1) by (unfold list_fuel in *; simpl in *; lia).
    eexists. split; [done|]. right. split; [lia|]. split; [lia|]. apply Hg. rewrite <-app_assoc.
    apply seg_app in Hs1 as Hsb. destruct Hsb as (r & Hr1 & (-> & Hbz & q & Hq & _)).
    apply (seg_update _ _ hs1 _ l0 b [] b _ en q Hs1 H2 eq_refl Hq).
    intros _. split; [done|]. split; [simpl; lia|]. exists 0. rewrite lookup_insert_ne; [done|]. apply Hfr. set_solver.
Qed.

(** [malloc] never faults: it returns [NULL] and leaves the heap alone, or hands out a block. *)
Lemma malloc_ok h l n :
  heap_ok h l -> 0 <= n < 2 ^ 31 - 24 ->
  exists p h', malloc h n = Some (p, h') /\ ((p = 0 /\ h' = h) \/ (p <> 0 /\ 0 < n /\ handed h l n p h')).
Proof.
  intros Hok Hn. destruct (heap_ok_le _ _ Hok) as [Hle Hvm]. pose proof Hok as [H1 H2 H3 [H4 H4'] (H5 & H6 & H7)].
  unfold malloc. destruct (Z.eqb_spec n 0); [exists 0, h; split; [done|by left]|]. cbv zeta.
  destruct (ALIGN_bounds n ltac:(lia) ltac:(lia)) as (Hsz & Hal & Hpos). set (sz := ALIGN n) in *.
  pose proof (seg_fuel _ _ _ _ _ _ H1 H2) as Hfuel. unfold find_free_block.
  destruct (find_free_block_spec _ h _ l sz H1 Hfuel) as [[-> _]|(l1 & b & l2 & -> & -> & Hbz & Hb & Hsb & _)].
  - cbn [mbind option_bind Z.eqb negb]. rewrite (u32_id (SIZEOF_BLOCK + sz)) by (unfold SIZEOF_BLOCK; lia).
    apply (malloc_new h l n sz); [done|lia|done|lia].
  - cbn [mbind option_bind]. rewrite (proj2 (Z.eqb_neq _ _)) by done. cbn [negb].
    pose proof H1 as Hs. apply seg_app in Hs as (r & _ & (-> & _ & q & Hq & _)).
    destruct (laid_bounds _ _ _ H2) as [_ Hbd]. specialize (Hbd b ltac:(set_solver)). unfold b_end, SIZEOF_BLOCK in *.
    rewrite Hq. simpl. unfold ALIGNMENT. rewrite (u32_id (b_size b - sz)) by lia.
    rewrite (u32_id (b_at b + 16)), (u32_id (b_at b + 16 + sz)) by lia.
    exists (b_at b + 16). destruct (Z.ltb_spec (16 + 8) (b_size b - sz)).
    + eexists. split; [done|]. right. split; [lia|]. split; [lia|]. apply malloc_split; try done; lia.
    + eexists. split; [done|]. right. split; [lia|]. split; [lia|]. apply (malloc_reuse h l1 b l2 n sz); try done; lia.
Qed.

(** [free] of a block that is in use gives it back, and nothing else. *)
Lemma free_ok h l b :
  heap_ok h l -> b ∈ in_use l ->
  exists h' l', free h (user b) = Some h' /\ heap_ok h' l' /\ in_use l ≡ₚ b :: in_use l' /\ heap_start h' = heap_start h.
Proof.
  intros Hok [Hb Hin]%list_elem_of_filter. destruct (heap_ok_le _ _ Hok) as [Hle Hvm].
  apply list_elem_of_split in Hin as (l1 & l2 & ->). pose proof Hok as [H1 H2 H3 H4 (H5 & H6 & H7)].
  destruct (laid_bounds _ _ _ H2) as [_ Hbd]. pose proof (Hbd b ltac:(set_solver)) as Hbb. unfold free, user, b_end, SIZEOF_BLOCK in *.
  rewrite (proj2 (Z.eqb_neq _ _)) by lia. rewrite u32_id by lia. replace (b_at b + 16 - 16) with (b_at b) by lia.
  pose proof H1 as Hs. apply seg_app in Hs as (r & _ & (-> & _ & q & Hq & _)). rewrite Hq. simpl. rewrite Hb. cbv zeta.
  set (h1 := set_hdr h (b_at b) _). set (b' := Blk (b_at b) (b_size b) true).
  assert (Hs1 : seg (hdrs h1) (heap_list_head h1) (l1 ++ b' :: l2) 0).
  { apply (seg_update _ _ (hdrs h) _ l1 b l2 b' l2 q q H1 H2 eq_refl Hq). intros Hs. apply (seg_frame (hdrs h)); [|done].
    intros c Hc. rewrite lookup_insert_ne; [done|]. intros E. eapply (laid_not_in _ _ l1 b l2 c); [exact H2|by right|done]. }
  assert (Hl1 : laid (heap_start h) (heap_end h) (l1 ++ b' :: l2)).
  { apply laid_app in H2 as (m & L1 & L2). apply laid_app. by exists m. }
  unfold coalesce_free_blocks.
  destruct (coalesce_spec (list_fuel h1) h1 (heap_list_head h1) _ _ _ Hs1 Hl1) as (hs & l' & -> & S' & La & J & U & _);
    [by eapply seg_fuel|lia|lia|].
  eexists _, l'. split; [done|]. split; [by constructor|]. split; [|done].
  rewrite U, !in_use_app, !in_use_cons. simpl. by rewrite Hb, Permutation_middle.
Qed.

(** ** Histories

    The state of a program: its heap and the blocks it owns, with the sizes it asked for. *)
Definition ustate : Type := uheap * list (Z * Z).

Inductive ustep : ustate -> ustate -> Prop :=
| us_malloc h lv n p h' :
    0 <= n < 2 ^ 31 - 24 -> malloc h n = Some (p, h') ->
    ustep (h, lv) (h', if p =? 0 then lv else (p, n) :: lv)
| us_free h lv1 p n lv2 h' : free h p = Some h' -> ustep (h, lv1 ++ (p, n) :: lv2) (h', lv1 ++ lv2)
| us_write h lv hs :
    (** the program writes to blocks it owns, over whatever was there *)
    (forall a, (forall q m, (q, m) ∈ lv -> a + SIZEOF_BLOCK <= q \/ q + m <= a) -> hs !! a = hdrs h !! a) ->
    ustep (h, lv) (h <| hdrs := hs |>, lv).

Record owns (lv : list (Z * Z)) (l : list blk) : Prop := {
  ow_blocks : fst <$> lv ≡ₚ user <$> in_use l;
  ow_size p n : (p, n) ∈ lv -> 0 < n /\ forall b, b ∈ in_use l -> user b = p -> n <= b_size b }.

Lemma owns_block lv l p n : owns lv l -> (p, n) ∈ lv -> exists b, b ∈ in_use l /\ user b = p /\ 0 < n <= b_size b.
Proof.
  intros [Hb Hs] Hp. assert (Hin : p ∈ fst <$> lv) by (apply list_elem_of_fmap; by exists (p, n)).
  rewrite Hb in Hin. apply list_elem_of_fmap in Hin as (b & -> & Hin). destruct (Hs _ _ Hp) as [H0 Hle].
  exists b. split_and!; try done. by apply Hle.
Qed.

Lemma user_inj lo hi l b c : laid lo hi l -> b ∈ in_use l -> c ∈ in_use l -> user b = user c -> b = c.
Proof.
  intros Hl [_ Hb]%list_elem_of_filter [_ Hc]%list_elem_of_filter He. eapply (laid_inj _ _ _ b c Hl Hb Hc).
  unfold user in He. lia.
Qed.

Lemma laid_length lo hi l : laid lo hi l -> 16 * zlen l <= hi - lo.
Proof.
  revert lo. induction l as [|b l IH]; intros lo; simpl; [rewrite (zlen_nil blk); lia|].
  intros (H1 & _ & H3 & _ & Hl). apply IH in Hl. rewrite zlen_cons. unfold b_end, SIZEOF_BLOCK in *. lia.
Qed.

(** Writing to an owned block touches no header of the list. *)
Lemma write_ok h l lv hs :
  heap_ok h l -> owns lv l ->
  (forall a, (forall q m, (q, m) ∈ lv -> a + SIZEOF_BLOCK <= q \/ q + m <= a) -> hs !! a = hdrs h !! a) ->
  heap_ok (h <| hdrs := hs |>) l.
Proof.
  intros Hok Hw Hhs. pose proof Hok as [H1 H2 H3 H4 H5]. constructor; try done.
  apply (seg_frame (hdrs h)); [|done]. intros c Hc. apply Hhs. intros q m Hq.
  destruct (owns_block _ _ _ _ Hw Hq) as (b & [_ Hb]%list_elem_of_filter & <- & Hm).
  unfold user. destruct (laid_cases _ _ _ b c H2 Hb Hc) as [->|[Hd|Hd]]; unfold b_end, SIZEOF_BLOCK in *; [lia|lia|].
  destruct (laid_bounds _ _ _ H2) as [_ Hbd]. specialize (Hbd c Hc). lia.
Qed.

Definition uinv (s : ustate) : Prop := exists l, heap_ok (fst s) l /\ owns (snd s) l.

Lemma ustep_inv s s' : uinv s -> ustep s s' -> uinv s'.
Proof.
  intros (l & Hok & Hw) Hs. destruct Hs as [h lv n p h' Hn Hm|h lv1 p n lv2 h' Hf|h lv hs Hhs]; simpl in *.
  - destruct (malloc_ok h l n Hok Hn) as (p0 & h0 & E & Hc). rewrite Hm in E. injection E as <- <-.
    destruct Hc as [[-> ->]|(Hp & Hn0 & l' & b & Hok' & Hb & Hnb & Hin & _)]; [by exists l|].
    rewrite (proj2 (Z.eqb_neq _ _)) by done. exists l'. split; [done|]. destruct Hw as [W1 W2]. split.
    + simpl. rewrite Hin. simpl. by rewrite W1, Hb.
    + intros q m [E|Hq]%elem_of_cons; [simplify_eq; split; [done|]|destruct (W2 q m Hq) as [Hm0 Hle]; split; [done|]];
        intros c Hc Ec.
      * assert (c = b) as ->; [|done]. eapply (user_inj _ _ _ c b (ho_laid _ _ Hok') Hc); [|done]. rewrite Hin. by left.
      * pose proof Hc as Hc'. rewrite Hin in Hc. apply elem_of_cons in Hc as [->|Hc]; [|by apply Hle].
        assert (Hq' : q ∈ fst <$> lv) by (apply list_elem_of_fmap; by exists (q, m)).
        rewrite W1 in Hq'. apply list_elem_of_fmap in Hq' as (d & Hd & Hdin).
        assert (d = b) as <-; [|by apply Hle].
        eapply (user_inj _ _ _ d b (ho_laid _ _ Hok')); [rewrite Hin; by right|rewrite Hin; by left|congruence].
  - destruct (owns_block _ _ p n Hw ltac:(set_solver)) as (b & Hb & <- & _).
    destruct (free_ok h l b Hok Hb) as (h0 & l' & E & Hok' & Hin & _). rewrite Hf in E. injection E as <-.
    exists l'. split; [done|]. destruct Hw as [W1 W2]. split.
    + simpl. rewrite fmap_app in W1 |- *. simpl in W1. rewrite Hin in W1. simpl in W1.
      rewrite <-Permutation_middle in W1. by apply Permutation_cons_inv in W1.
    + intros q m Hq. destruct (W2 q m ltac:(set_solver)) as [Hm Hle]. split; [done|]. intros c Hc. apply Hle.
      rewrite Hin. by right.
  - exists l. split; [|done]. by apply (write_ok h l lv).
Qed.

(** C16: the heap of a program that asks for blocks of less than 2^31 - 24 bytes (a larger
    size wraps around in [ALIGN] or in the kernel, see [malloc_wraps]), writes to its own
    blocks and frees them, in any order, as long as the kernel finds a page for each first
    touch: the blocks it owns are aligned, lie inside the heap, and share no byte with each
    other; neither [malloc] nor [free] of an owned block reads a header that is not there or
    runs on; and [used_blocks] counts the owned blocks. *)
Theorem uheap_safe (start : Z) (h : uheap) (lv : list (Z * Z)) :
  0 < start <= 2 ^ 30 -> start mod 8 = 0 -> reach ustep (heap_init start, []) (h, lv) ->
  (forall p n, (p, n) ∈ lv -> p mod 8 = 0 /\ 0 < n /\ heap_start h < p /\ p + n <= heap_end h < KObj.VM_START) /\
  NoDup (fst <$> lv) /\
  (forall p n q m, (p, n) ∈ lv -> (q, m) ∈ lv -> p <> q -> p + n <= q \/ q + m <= p) /\
  (forall n, 0 <= n < 2 ^ 31 - 24 -> is_Some (malloc h n)) /\
  (forall p n, (p, n) ∈ lv -> is_Some (free h p)) /\
  used_blocks h = Some (zlen lv).
Proof.
  intros Hst Hal Hr. assert (Hi : uinv (h, lv)).
  { apply (reach_invariant ustep uinv (heap_init start, [])); [|apply ustep_inv|done].
    exists []. split; [constructor; simpl; unfold KObj.VM_START; try done; lia|]. split; [done|]. intros p n Hp. by apply not_elem_of_nil in Hp. }
  destruct Hi as (l & Hok & Hw). simpl in Hok, Hw. pose proof Hok as [H1 H2 H3 H4 H5].
  destruct (laid_bounds _ _ _ H2) as [_ Hbd]. split_and!.
  - intros p n Hp. destruct (owns_block _ _ _ _ Hw Hp) as (b & [_ Hb]%list_elem_of_filter & <- & Hn).
    specialize (Hbd b Hb). unfold user, b_end, SIZEOF_BLOCK in *. split; [|lia].
    destruct Hbd as (_ & _ & _ & Hm & _). by rewrite Z.add_mod, Hm.
  - rewrite (ow_blocks _ _ Hw). pose proof (laid_NoDup _ _ _ H2) as Hnd.
    apply (NoDup_fmap_2_strong user); [intros b c Hb Hc; by eapply user_inj|].
    apply NoDup_filter. by apply NoDup_fmap_1 in Hnd.
  - intros p n q m Hp Hq Hne. destruct (owns_block _ _ _ _ Hw Hp) as (b & [_ Hb]%list_elem_of_filter & <- & Hn).
    destruct (owns_block _ _ _ _ Hw Hq) as (c & [_ Hc]%list_elem_of_filter & <- & Hm).
    destruct (laid_cases _ _ _ b c H2 Hb Hc) as [->|Hd]; [done|]. unfold user, b_end, SIZEOF_BLOCK in *. lia.
  - intros n Hn. destruct (malloc_ok h l n Hok Hn) as (p & h' & -> & _). by eexists.
  - intros p n Hp. destruct (owns_block _ _ _ _ Hw Hp) as (b & Hb & <- & _).
    destruct (free_ok h l b Hok Hb) as (h' & l' & -> & _). by eexists.
  - unfold used_blocks. pose proof (laid_length _ _ _ H2). rewrite (used_loop_spec _ h _ l 0 H1);
      [|by eapply seg_fuel|done|lia]. f_equal. pose proof (ow_blocks _ _ Hw) as Hp. apply Permutation_length in Hp.
    rewrite !length_fmap in Hp. unfold zlen. by rewrite Hp.
Qed.

(** A program that allocates two blocks, writes to the first, frees it, and allocates again. *)
Definition heap_1 : uheap := default (heap_init 0) (snd <$> malloc (heap_init 0x500000) 100).
Definition heap_2 : uheap := default (heap_init 0) (snd <$> malloc heap_1 10).
Definition heap_3 : uheap := default (heap_init 0) (free heap_2 0x500010).
Definition heap_4 : uheap := default (heap_init 0) (snd <$> malloc heap_3 20).

Lemma uheap_steps : reach ustep (heap_init 0x500000, []) (heap_4, [(0x500010, 20); (0x500088, 10)]).
Proof.
  apply (reach_step _ _ (heap_3, [(0x500088, 10)])).
  2: { apply (us_malloc heap_3 [(0x500088, 10)] 20 0x500010); [done|vm_compute; reflexivity]. }
  apply (reach_step _ _ (heap_2, [(0x500088, 10); (0x500010, 100)])).
  2: { apply (us_free heap_2 [(0x500088, 10)] 0x500010 100 []). vm_compute. reflexivity. }
  apply (reach_step _ _ (heap_1, [(0x500010, 100)])).
  2: { apply (us_malloc heap_1 [(0x500010, 100)] 10 0x500088); [done|vm_compute; reflexivity]. }
  apply (reach_step _ _ (heap_init 0x500000, [])); [constructor|].
  apply (us_malloc (heap_init 0x500000) [] 100 0x500010); [done|vm_compute; reflexivity].
Qed.

Lemma uheap_safe_witness :
  used_blocks heap_4 = Some 2 /\ is_Some (malloc heap_4 1000) /\ 0x500010 + 20 <= 0x500088.
Proof.
  destruct (uheap_safe 0x500000 heap_4 _ ltac:(done) eq_refl uheap_steps) as (_ & _ & Hd & Hm & _ & Hu).
  split; [exact Hu|]. split; [apply (Hm 1000); lia|].
  destruct (Hd 0x500010 20 0x500088 10) as [?|?]; [by left|by right; left|done|done|lia].
Defined.

(** Sizes near [2^32] wrap around in [ALIGN]: the caller gets a block of no bytes. *)
Example malloc_wraps :
  (fun '(p, h) => (p, size <$> hdrs h !! (p - SIZEOF_BLOCK))) <$> malloc (heap_init 0x500000) (2 ^ 32 - 1) = Some (0x500010, Some 0).
Proof. vm_compute. reflexivity. Qed.
