(* ===== verification/Sbrk.v ===== *)
(** * The size of a process's heap (api.c)

    [api_sbrk] moves the end of the heap of the calling process. A larger heap gets its pages
    when they are first touched (TaskMem); a smaller one gives its last pages back here. *)

From S2P Require Import CString Memory Paging TaskMem Kern KMem.
From S2P Require KObj UHeap.

Local Open Scope Z_scope.

Section sbrk.
Context {H : Type} `{Allocator H}.
Abbreviation KM := (K (tmem (H := H))).
Implicit Types (k : kern (tmem (H := H))).

(** The page [i] from the old end down. *)
Definition page_below (old_end i : Z) : Z := u32 (old_end - (i + 1) * PAGE_SIZE).

(** The array [physical_addrs]. *)
Fixpoint physical_loop (n : nat) (i dir old_end : Z) : KM (list Z) :=
  match n with
  | O => mret []
  | S n =>
      pg ← gets (fun k => tm_pg (k_mem k));
      a ← deref (page_getphysical pg dir (page_below old_end i));
      l ← physical_loop n (i + 1) dir old_end;
      mret (a :: l)
  end.

Fixpoint unmap_below_loop (n : nat) (i dir old_end : Z) : KM unit :=
  match n with
  | O => mret tt
  | S n => _ ← kunmap dir (page_below old_end i); unmap_below_loop n (i + 1) dir old_end
  end.

Fixpoint free_pages_loop (l : list Z) : KM unit :=
  match l with
  | [] => mret tt
  | a :: l => _ ← when (negb (a =? NULL)) (dealloc a PAGE_SIZE); free_pages_loop l
  end.

(** The pages from [new_end] to [old_end] go; without memory for the array of their
    addresses they are unmapped and stay allocated. *)
Definition shrink_heap (dir old_end new_end : Z) : KM unit :=
  let delta_pages := (old_end - new_end) / PAGE_SIZE in
  let n := Z.to_nat delta_pages in
  if 0 <? delta_pages then
    a ← alloc (delta_pages * 4);
    l ← (if negb (a =? NULL) then physical_loop n 0 dir old_end else mret []);
    _ ← unmap_below_loop n 0 dir old_end;
    when (negb (a =? NULL)) (_ ← free_pages_loop l; dealloc a (delta_pages * 4))
  else mret tt.

Definition api_sbrk (ebx : Z) : KM Z :=
  let delta := s32 ebx in
  cur ← get_current_task;
  t ← get_task cur;
  x ← get_process (t_process t);
  let old_heap_end := heap_end x in
  let old_heapsize := s32 (heap_end x - heap_start x) in
  let new_heapsize := s32 (old_heapsize + delta) in
  if new_heapsize <? 0 then mret (u32 (-1))
  else
    let old_end := page_align_up (u32 (heap_start x + old_heapsize)) in
    let new_end := page_align_up (u32 (heap_start x + new_heapsize)) in
    if KObj.VM_START <=? new_end then mret (u32 (-1))
    else
      _ ← when (new_end <? old_end) (shrink_heap (page_dir x) old_end new_end);
      _ ← upd_process (t_process t) (fun x => x <| heap_end := u32 (heap_start x + new_heapsize) |>);
      mret old_heap_end.

(** ** Theorems *)

(** Only memory changes. *)
Definition same_but_memory k k' : Prop := exists s, k' = k <| k_mem := s |>.

#[local] Instance same_but_memory_preorder : PreOrder same_but_memory.
Proof.
  split; [intros k; exists (k_mem k); by destruct k|]. intros k1 k2 k3 [s ->] [s' ->]. by exists s'.
Qed.

Lemma keeps_alloc n : keeps same_but_memory (alloc n : KM Z).
Proof. intros k. by eexists. Qed.

Lemma keeps_dealloc a n : keeps same_but_memory (dealloc a n : KM unit).
Proof. apply keeps_modify. intros k. by eexists. Qed.

Lemma keeps_unmap dir a : keeps same_but_memory (kunmap dir a : KM bool).
Proof. unfold kunmap, on_pages, set_space. keeps. apply keeps_modify. intros k. by eexists. Qed.

#[local] Hint Resolve keeps_alloc keeps_dealloc keeps_unmap : keeps.

Lemma physical_loop_keeps n i dir e : keeps same_but_memory (physical_loop n i dir e).
Proof. revert i. induction n; intros i; simpl; keeps. Qed.

Lemma unmap_below_keeps n i dir e : keeps same_but_memory (unmap_below_loop n i dir e).
Proof. revert i. induction n; intros i; simpl; keeps. Qed.

Lemma free_pages_keeps l : keeps same_but_memory (free_pages_loop l).
Proof. induction l; simpl; keeps. Qed.

#[local] Hint Resolve physical_loop_keeps unmap_below_keeps free_pages_keeps : keeps.

Lemma shrink_heap_keeps dir o n : keeps same_but_memory (shrink_heap dir o n).
Proof. unfold shrink_heap. keeps. Qed.

Lemma upd_process_Some k p x f :
  processes k !! p = Some x -> upd_process p f k = Ret tt (k <| processes := <[p := f x]> (processes k) |>).
Proof. intros Hx. unfold upd_process. by kret (get_process_Some k p x Hx). Qed.

(** The heap of the process as the library sees it. *)
Definition heap_of_process (hs : gmap Z UHeap.block_t) (head : Z) (x : process_t) : UHeap.uheap :=
  UHeap.UHeap hs head (heap_start x) (heap_end x).

(** The call answers what [UHeap.sbrk] says, and leaves the heap of the process with the
    ends that it says; besides them only memory changes. *)
Lemma api_sbrk_result ebx k r k' t x hs head :
  zget (tasks k) (current_task k) = Some t -> processes k !! t_process t = Some x -> api_sbrk ebx k = Ret r k' ->
  r = fst (UHeap.sbrk (heap_of_process hs head x) ebx) /\
  exists s e, let x' := x <| heap_end := e |> in
    snd (UHeap.sbrk (heap_of_process hs head x) ebx) = heap_of_process hs head x' /\
    k' = k <| k_mem := s |> <| processes := <[t_process t := x']> (processes k) |>.
Proof.
  intros Ht Hx. unfold api_sbrk, get_current_task, UHeap.sbrk, heap_of_process. rewrite bind_gets. kget Ht.
  kret (get_process_Some _ _ _ Hx). cbn [UHeap.heap_start UHeap.heap_end]. cbv zeta.
  set (n := s32 (s32 (heap_end x - heap_start x) + s32 ebx)).
  assert (Hsame : k = k <| k_mem := k_mem k |> <| processes := <[t_process t := x <| heap_end := heap_end x |>]> (processes k) |>).
  { destruct k, x. simpl in *. f_equal. by rewrite insert_id. }
  destruct (n <? 0); [intros [= <- <-]; split; [done|]; by exists (k_mem k), (heap_end x)|].
  destruct (KObj.VM_START <=? _); [intros [= <- <-]; split; [done|]; by exists (k_mem k), (heap_end x)|].
  match goal with |- context [when ?b ?m] => pose proof (keeps_when _ b m (shrink_heap_keeps _ _ _) k) as Hk; set (shrink := when b m) in * end.
  destruct (shrink k) as [[] k1|k1| | |] eqn:E; [kret E|unfold mbind, K_mbind; by rewrite E..]. destruct Hk as [s ->].
  set (k1 := k <| k_mem := s |>). set (f := fun y : process_t => _ <| heap_end := _ |>). assert (Hx1 : processes k1 !! t_process t = Some x) by done.
  kret (upd_process_Some k1 _ x f Hx1).
  intros [= <- <-]. split; [done|]. by eexists s, _.
Qed.

(** A heap that grows, or stays, only changes its end. *)
Lemma api_sbrk_grows ebx k t x :
  zget (tasks k) (current_task k) = Some t -> processes k !! t_process t = Some x ->
  0 <= heap_start x <= heap_end x -> 0 <= s32 ebx -> heap_end x - heap_start x + s32 ebx < 2 ^ 31 ->
  heap_end x + s32 ebx <= KObj.VM_START - PAGE_SIZE ->
  api_sbrk ebx k = Ret (heap_end x)
    (k <| processes := <[t_process t := x <| heap_end := heap_end x + s32 ebx |>]> (processes k) |>).
Proof.
  intros Ht Hx Hs Hd Hn Hv. unfold api_sbrk, get_current_task, KObj.VM_START, PAGE_SIZE in *. rewrite bind_gets. kget Ht.
  kret (get_process_Some _ _ _ Hx). cbv zeta. rewrite (s32_id (heap_end x - heap_start x)) by lia.
  rewrite (s32_id (_ + s32 ebx)) by lia. rewrite (proj2 (Z.ltb_ge _ _)) by lia.
  rewrite !(u32_id (heap_start x + _)) by lia. rewrite !page_align_up_spec by lia.
  rewrite (proj2 (Z.leb_gt _ _)) by (Z.div_mod_to_equations; lia).
  rewrite (proj2 (Z.ltb_ge _ _)) by (Z.div_mod_to_equations; lia). cbn [when].
  kret (eq_refl : (mret tt : KM unit) k = Ret tt k). set (f := fun y : process_t => _ <| heap_end := _ |>).
  kret (upd_process_Some k _ x f Hx). unfold f.
  rewrite u32_id by lia. by replace (heap_start x + (heap_end x - heap_start x + s32 ebx)) with (heap_end x + s32 ebx) by lia.
Qed.

End sbrk.
