(* ===== verification/Net.v ===== *)
(** * The network program (usr/device/net: ethernet.c, ip.c)

    Ethernet frames, the ARP cache with its queue of packets that wait for an address, and
    IPv4 with ICMP echo and UDP. A frame is the list of its bytes; a read outside it is
    [None]. The card is the class [NetDev], which the driver implements. The ticks of the
    clock and the success of [malloc] come from outside; printing is left out. *)

From S2P Require Import Prelude.
From coqutil Require Import Datatypes.RecordSetters.
Import TriangleBracketNotations.

Local Open Scope Z_scope.
Local Open Scope monad_scope.

#[local] Arguments constant {E} newValue / _.

Definition ETH_MTU : Z := 1500.
Definition ETH_HEADER : Z := 14.
Definition IP_HEADER : Z := 20.
Definition ICMP_HEADER : Z := 8.
Definition UDP_HEADER : Z := 8.
Definition ARP_SIZE : Z := 28.
Definition IP_MTU : Z := 1500.
Definition ETHERTYPE_IP : Z := 0x0800.
Definition ETHERTYPE_ARP : Z := 0x0806.
Definition IP_PROTO_ICMP : Z := 1.
Definition IP_PROTO_UDP : Z := 17.
Definition ARP_CACHE_SIZE : Z := 16.
Definition ARP_QUEUE_SIZE : Z := 8.
Definition ARP_RETRY_TICKS : Z := 100.
Definition ARP_MAX_TRIES : Z := 4.

Definition htons (x : Z) : Z := u16 (Z.lor (Z.shiftr x 8) (Z.shiftl x 8)).

Definition pack_ip (a b c d : Z) : Z :=
  u32 (Z.lor (Z.lor a (Z.shiftl b 8)) (Z.lor (Z.shiftl c 16) (Z.shiftl d 24))).

Definition LOCAL_IP : Z := pack_ip 10 5 0 4.
Definition GATEWAY_IP : Z := pack_ip 10 5 0 1.

(** [n] bytes of a buffer at [off]. *)
Definition bytes (l : list Z) (off n : Z) : option (list Z) :=
  if (0 <=? off) && (0 <=? n) && (off + n <=? zlen l) then Some (slice l off n) else None.

(** A 16-bit field in network order. *)
Definition field16 (x : Z) : list Z := to_le16 (htons x).
Definition get16 (l : list Z) (off : Z) : Z := htons (le16 l off).

(** ** The card *)

(** Frames shorter than 60 bytes leave with zeros behind them. *)
Definition padded (frame : list Z) : list Z := frame ++ replicate (Z.to_nat (60 - zlen frame)) 0.

Class NetDev (D : Type) := {
  dev_mac : D -> list Z;
  dev_send : D -> list Z -> Z * D;
  dev_wire : D -> list (list Z);
  dev_mac_len d : zlen (dev_mac d) = 6;
  dev_send_mac d f : dev_mac (snd (dev_send d f)) = dev_mac d;
  dev_send_wire d f : zlen f <= ETH_HEADER + ETH_MTU -> dev_wire (snd (dev_send d f)) = dev_wire d ++ [padded f] }.

Inductive arp_state_t := ARP_FREE | ARP_PENDING | ARP_RESOLVED.

#[export] Instance arp_state_dec : EqDecision arp_state_t.
Proof. solve_decision. Defined.

Record arp_entry_t := ArpEntry {
  a_ip : Z;
  a_mac : list Z;
  a_state : arp_state_t;
  last_req : Z;
  tries : Z }.

Record pending_pkt_t := PendingPkt {
  used : bool;
  next_hop : Z;
  ethertype : Z;
  p_len : Z;
  p_data : list Z }.

Section net.
Context {D : Type} `{NetDev D}.

Record net := Net {
  dev : D;
  arp_cache : list arp_entry_t;
  arp_queue : list pending_pkt_t;
  arp_next : Z;
  icmp_seq : Z;
  get_tick : Z }.

Definition net_init (d : D) : net :=
  Net d (replicate (Z.to_nat ARP_CACHE_SIZE) (ArpEntry 0 (replicate 6 0) ARP_FREE 0 0))
    (replicate (Z.to_nat ARP_QUEUE_SIZE) (PendingPkt false 0 0 0 (replicate (Z.to_nat ETH_MTU) 0))) 0 0 0.

Abbreviation NM := (ST net).

Definition upd (f : net -> net) : NM unit := fun s => Some (tt, f s).
Definition get_entry (i : Z) : NM arp_entry_t := fun s => e ← zget (arp_cache s) i; Some (e, s).
Definition put_entry (i : Z) (e : arp_entry_t) : NM unit := upd (fun s => s <| arp_cache := zset (arp_cache s) i e |>).
Definition get_pkt (i : Z) : NM pending_pkt_t := fun s => q ← zget (arp_queue s) i; Some (q, s).
Definition put_pkt (i : Z) (q : pending_pkt_t) : NM unit := upd (fun s => s <| arp_queue := zset (arp_queue s) i q |>).

(** ** Ethernet *)

Definition eth_frame (dest src : list Z) (etype : Z) (payload : list Z) : list Z :=
  dest ++ src ++ field16 etype ++ payload.

Definition eth_send (dest : list Z) (etype : Z) (payload : list Z) : NM Z := fun s =>
  if ETH_MTU <? zlen payload then Some (-1, s)
  else
    let r := dev_send (dev s) (eth_frame dest (dev_mac (dev s)) etype payload) in
    Some (fst r, s <| dev := snd r |>).

(** ** ARP *)

Definition arp_packet (op : Z) (sha : list Z) (spa : Z) (tha : list Z) (tpa : Z) : list Z :=
  field16 1 ++ field16 ETHERTYPE_IP ++ [6; 4] ++ field16 op ++ sha ++ to_le32 spa ++ tha ++ to_le32 tpa.

Definition arp_request (target_ip : Z) : NM unit := fun s =>
  (let! _ := eth_send (replicate 6 255) ETHERTYPE_ARP
      (arp_packet 1 (dev_mac (dev s)) LOCAL_IP (replicate 6 0) target_ip) in st_ret tt) s.

Definition entry_is (ip : Z) (e : arp_entry_t) : bool := negb (bool_decide (a_state e = ARP_FREE)) && (a_ip e =? ip).

(** The index of the first element with a property, or -1. *)
Fixpoint find_index {A} (f : A -> bool) (i : Z) (l : list A) : Z :=
  match l with
  | [] => -1
  | x :: l => if f x then i else find_index f (i + 1) l
  end.

Definition arp_find (ip : Z) : NM Z := st_get (fun s => find_index (entry_is ip) 0 (arp_cache s)).

Definition waits_for (hop : Z) (q : pending_pkt_t) : bool := used q && (next_hop q =? hop).

Definition arp_drop_queue (hop : Z) : NM unit :=
  upd (fun s => s <| arp_queue := (fun q => if waits_for hop q then q <| used := false |> else q) <$> arp_queue s |>).

Definition arp_alloc_slot : NM Z := fun s =>
  let i := find_index (fun e => bool_decide (a_state e = ARP_FREE)) 0 (arp_cache s) in
  if 0 <=? i then Some (i, s)
  else
    let slot := arp_next s in
    (let! _ := upd (fun s => s <| arp_next := Z.rem (slot + 1) ARP_CACHE_SIZE |>) in
     let! e := get_entry slot in
     let! _ := arp_drop_queue (a_ip e) in
     st_ret slot) s.

Definition arp_update_cache (ip : Z) (mac : list Z) : NM unit :=
  let! i := arp_find ip in
  let! i := (if i <? 0 then arp_alloc_slot else st_ret i) in
  let! e := get_entry i in
  put_entry i (e <| a_ip := ip |> <| a_mac := mac |> <| a_state := ARP_RESOLVED |>).

Definition arp_lookup (ip : Z) : NM (option (list Z)) :=
  let! i := arp_find ip in
  if i <? 0 then st_ret None
  else
    let! e := get_entry i in
    st_ret (if bool_decide (a_state e = ARP_RESOLVED) then Some (a_mac e) else None).

(** A packet longer than its buffer would overrun it. *)
Definition arp_enqueue (hop etype : Z) (data : list Z) : NM unit := fun s =>
  let i := find_index (fun q => negb (used q)) 0 (arp_queue s) in
  if i <? 0 then Some (tt, s)
  else
    (let! q := get_pkt i in
     let! _ := st_guard (zlen data <=? ETH_MTU) in
     put_pkt i (PendingPkt true hop etype (zlen data) (splice (p_data q) 0 data))) s.

Fixpoint arp_flush_loop (n : nat) (i : Z) (mac : list Z) (hop : Z) : NM unit :=
  match n with
  | O => st_ret tt
  | S n =>
      let! q := get_pkt i in
      let! _ := (if waits_for hop q then
        let! _ := eth_send mac (ethertype q) (slice (p_data q) 0 (p_len q)) in
        put_pkt i (q <| used := false |>)
        else st_ret tt) in
      arp_flush_loop n (i + 1) mac hop
  end.

Definition arp_flush (hop : Z) : NM unit :=
  let! m := arp_lookup hop in
  match m with
  | None => st_ret tt
  | Some mac => arp_flush_loop (Z.to_nat ARP_QUEUE_SIZE) 0 mac hop
  end.

Definition arp_resolve (ip : Z) : NM unit :=
  let! i := arp_find ip in
  if 0 <=? i then st_ret tt
  else
    let! i := arp_alloc_slot in
    let! e := get_entry i in
    let! now := st_get get_tick in
    let! _ := put_entry i (e <| a_ip := ip |> <| a_state := ARP_PENDING |> <| tries := 1 |> <| last_req := now |>) in
    arp_request ip.

Definition net_tx (hop etype : Z) (payload : list Z) : NM Z :=
  let! m := arp_lookup hop in
  match m with
  | Some mac => eth_send mac etype payload
  | None =>
      let! _ := arp_enqueue hop etype payload in
      let! _ := arp_resolve hop in
      st_ret 0
  end.

Fixpoint tick_loop (n : nat) (i now : Z) : NM unit :=
  match n with
  | O => st_ret tt
  | S n =>
      let! e := get_entry i in
      let! _ := (
        if negb (bool_decide (a_state e = ARP_PENDING)) then st_ret tt
        else if u32 (now - last_req e) <? ARP_RETRY_TICKS then st_ret tt
        else if ARP_MAX_TRIES <=? tries e then
          let! _ := arp_drop_queue (a_ip e) in
          put_entry i (e <| a_state := ARP_FREE |>)
        else
          let! _ := put_entry i (e <| tries := u8 (tries e + 1) |> <| last_req := now |>) in
          arp_request (a_ip e)) in
      tick_loop n (i + 1) now
  end.

Definition arp_tick : NM unit :=
  let! now := st_get get_tick in
  tick_loop (Z.to_nat ARP_CACHE_SIZE) 0 now.

Definition arp_input (frame : list Z) : NM unit := fun s =>
  if zlen frame <? ETH_HEADER + ARP_SIZE then Some (tt, s)
  else
    let arp := slice frame ETH_HEADER ARP_SIZE in
    if negb (get16 arp 0 =? 1) || negb (get16 arp 2 =? ETHERTYPE_IP) then Some (tt, s)
    else
      let sha := slice arp 8 6 in
      let spa := le32 arp 14 in
      (let! _ := arp_update_cache spa sha in
       let! _ := arp_flush spa in
       if (get16 arp 6 =? 1) && (le32 arp 24 =? LOCAL_IP) then
         let! _ := eth_send sha ETHERTYPE_ARP (arp_packet 2 (dev_mac (dev s)) LOCAL_IP sha spa) in st_ret tt
       else st_ret tt) s.

End net.
