(* ===== verification/Rtl.v ===== *)
(** * The network card driver (usr/device/net/rtl8139.c)

    Four transmit buffers and a receive ring in memory that the card shares. The card is
    modelled by what its data sheet says of it: a write of a length to a transmit register
    puts that many bytes of the buffer on the wire; received packets follow one another in
    the ring, each with its status and length, and the card holds the ring to be empty when
    the position it was told in the register CAPR, which is 16 bytes behind the one the
    driver reads at, has reached the position it writes at, in CBR. The driver implements
    [NetDev]. *)

From S2P Require Import Prelude Net.
From coqutil Require Import Datatypes.RecordSetters.
Import TriangleBracketNotations.

Local Open Scope Z_scope.

#[local] Arguments constant {E} newValue / _.

Definition ETHERNET_MAX : Z := 1518.
Definition RX_BUF_LEN : Z := 8192.
Definition RX_SIZE : Z := RX_BUF_LEN + 16 + 1536.
Definition TX_BUF_SIZE : Z := 2048.

(** ** Sending *)

(** [own] says whether the card reports the end of the transfer in time. *)
Record rtl := Rtl {
  mac_addr : Z -> Z;
  tx_dma : Z -> Z -> Z;
  tx_buf_i : Z;
  own : Z -> bool;
  rtl_wire : list (list Z) }.

Definition buf_write (f : Z -> Z) (off : Z) (l : list Z) : Z -> Z :=
  fun j => if (off <=? j) && (j <? off + zlen l) then byte_at l (j - off) else f j.

(** The card reads the first [len] bytes of a buffer. *)
Definition transmit (d : rtl) (i len : Z) : rtl :=
  d <| rtl_wire := rtl_wire d ++ [tx_dma d i <$> seqZ 0 len] |>.

Definition set_buf (d : rtl) (i : Z) (f : Z -> Z) : rtl :=
  d <| tx_dma := fun j => if j =? i then f else tx_dma d j |>.

Definition rtl_send (d : rtl) (data : list Z) : Z * rtl :=
  let len := zlen data in
  if TX_BUF_SIZE <? len then (-1, d)
  else
    let i := tx_buf_i d in
    let d := d <| tx_buf_i := Z.land (i + 1) 3 |> in
    let d := set_buf d i (buf_write (tx_dma d i) 0 data) in
    let '(d, len) :=
      if len <? 60 then (set_buf d i (buf_write (tx_dma d i) len (replicate (Z.to_nat (60 - len)) 0)), 60)
      else (d, len) in
    let d := transmit d i len in
    (if own d i then len else -1, d).

(** ** Receiving *)

(** [rx_offset] is the driver's; [rx_capr] and [rx_cbr] are the card's registers: the
    position it was last told and its write pointer. *)
Record rx_ring := RxRing { rx_dma : Z -> Z; rx_offset : Z; rx_capr : Z; rx_cbr : Z }.

Definition mem16 (f : Z -> Z) (a : Z) : Z := f a + 256 * f (a + 1).

(** Bit 0 of the command register, as the card computes it from its own registers. *)
Definition rx_empty (r : rx_ring) : bool := Z.rem (u16 (rx_capr r + 16)) RX_BUF_LEN =? rx_cbr r.

(** A new read position, which the card is told. *)
Definition rx_move (r : rx_ring) (off : Z) : rx_ring := r <| rx_offset := off |> <| rx_capr := u16 (off - 16) |>.

(** The frames given to [rx], in order. *)
Fixpoint rtl_poll_loop (fuel : nat) (r : rx_ring) (got : list (list Z)) : option (list (list Z) * rx_ring) :=
  if rx_empty r then Some (got, r)
  else
    match fuel with
    | O => None
    | S fuel =>
        let status := mem16 (rx_dma r) (rx_offset r) in
        let len := mem16 (rx_dma r) (rx_offset r + 2) in
        if (len <? 4) || (ETHERNET_MAX <? len) then Some (got, rx_move r (Z.rem (rx_cbr r) RX_BUF_LEN))
        else
          let frame := (fun j => rx_dma r (rx_offset r + 4 + j)) <$> seqZ 0 (len - 4) in
          let got := if Z.odd status then got ++ [frame] else got in
          let off := u16 (Z.land (rx_offset r + len + 4 + 3) (Z.lnot 3)) in
          rtl_poll_loop fuel (rx_move r (Z.rem off RX_BUF_LEN)) got
    end.

(** The ring holds at most 1024 packets. *)
Definition rtl_poll (r : rx_ring) : option (list (list Z) * rx_ring) := rtl_poll_loop 1024 r [].

(** ** The interface *)

Lemma rtl_mac_len (d : rtl) : zlen (mac_addr d <$> seqZ 0 6) = 6.
Proof. done. Qed.

Lemma map_buf_write f l n : n = zlen l -> buf_write f 0 l <$> seqZ 0 n = l.
Proof.
  intros ->. apply (zget_ext_len _ _ (zlen l)); [|done|].
  - unfold zlen. rewrite length_fmap, length_seqZ. lia.
  - intros i Hi. unfold zget. rewrite (proj2 (Z.leb_le _ _)) by lia. rewrite list_lookup_fmap, lookup_seqZ_lt by lia. simpl.
    unfold buf_write. rewrite (proj2 (Z.leb_le _ _)), (proj2 (Z.ltb_lt _ _)) by lia. cbn [andb].
    rewrite Z.sub_0_r, Z.add_0_l, Z2Nat.id by lia. unfold byte_at.
    destruct (zget_is_Some l i Hi) as [x Hx]. rewrite Hx. unfold zget in Hx. by rewrite (proj2 (Z.leb_le _ _)) in Hx by lia.
Qed.

Lemma map_buf_pad f l : zlen l < 60 ->
  buf_write (buf_write f 0 l) (zlen l) (replicate (Z.to_nat (60 - zlen l)) 0) <$> seqZ 0 60 = padded l.
Proof.
  intros Hl. pose proof (zlen_nonneg l). set (z := replicate (Z.to_nat (60 - zlen l)) 0).
  assert (Hz : zlen z = 60 - zlen l) by (unfold z, zlen in *; rewrite length_replicate; lia).
  rewrite <-(map_buf_write f (padded l) 60) by (unfold padded; fold z; rewrite zlen_app; lia).
  apply list_fmap_ext. intros i j Hj. apply lookup_seqZ in Hj as [-> Hj]. unfold buf_write, padded. fold z.
  rewrite zlen_app, Hz. rewrite (proj2 (Z.leb_le 0 _)), (proj2 (Z.ltb_lt (0 + Z.of_nat i) (0 + (_ + _)))) by lia. cbn [andb].
  rewrite Z.sub_0_r, Z.add_0_l. unfold byte_at. zcases; cbn [andb]; try lia; by rewrite ?zget_app_r, ?zget_app_l, ?Z.sub_0_r by lia.
Qed.

Lemma transmit_set d i f n : rtl_wire (transmit (set_buf d i f) i n) = rtl_wire d ++ [f <$> seqZ 0 n].
Proof. unfold transmit, set_buf. cbn. by rewrite Z.eqb_refl. Qed.

Lemma set_buf_same d i f : tx_dma (set_buf d i f) i = f.
Proof. cbn. by rewrite Z.eqb_refl. Qed.

Lemma rtl_send_wire (d : rtl) (f : list Z) : zlen f <= 1514 -> rtl_wire (snd (rtl_send d f)) = rtl_wire d ++ [padded f].
Proof.
  intros Hf. unfold rtl_send, TX_BUF_SIZE. rewrite (proj2 (Z.ltb_ge _ _)) by lia. cbv zeta. zcase; cbn [snd].
  - rewrite transmit_set, set_buf_same. change (Z.to_nat 0) with 0%nat. by rewrite map_buf_pad by lia.
  - rewrite transmit_set, map_buf_write by done. unfold padded. replace (Z.to_nat (60 - zlen f)) with 0%nat by lia. by rewrite app_nil_r.
Qed.

Lemma rtl_send_mac (d : rtl) (f : list Z) : mac_addr (snd (rtl_send d f)) = mac_addr d.
Proof. unfold rtl_send. zcase; [done|]. cbv zeta. by zcase. Qed.

#[export] Instance rtl_dev : NetDev rtl.
Proof.
  refine {| dev_mac d := mac_addr d <$> seqZ 0 6; dev_send := rtl_send; dev_wire := rtl_wire;
            dev_mac_len := rtl_mac_len; dev_send_wire := rtl_send_wire |}.
  intros d f. by rewrite rtl_send_mac.
Defined.

(** ** Polling *)

(** A packet as the card writes it: status, length with the checksum of the frame, frame,
    rounded up to a multiple of four. *)
Definition rx_size (p : Z * list Z) : Z := (zlen (snd p) + 4 + 4 + 3) / 4 * 4.

Definition rx_next (off : Z) (p : Z * list Z) : Z := (off + rx_size p) mod RX_BUF_LEN.

(** The packets in the ring from [off] on; a packet never wraps, the next one does. *)
Inductive rx_laid (f : Z -> Z) : Z -> list (Z * list Z) -> Prop :=
| rx_laid_nil off : rx_laid f off []
| rx_laid_cons off status frame ps :
    mem16 f off = status -> mem16 f (off + 2) = zlen frame + 4 -> zlen frame + 4 <= ETHERNET_MAX ->
    (forall j, 0 <= j < zlen frame -> f (off + 4 + j) = byte_at frame j) ->
    rx_laid f (rx_next off (status, frame)) ps -> rx_laid f off ((status, frame) :: ps).

Definition rx_total (ps : list (Z * list Z)) : Z := foldr (fun p n => rx_size p + n) 0 ps.

(** The frames received without an error. *)
Definition rx_good (ps : list (Z * list Z)) : list (list Z) :=
  omap (fun p => if Z.odd (fst p) then Some (snd p) else None) ps.

Lemma rx_size_min p : 8 <= rx_size p.
Proof. unfold rx_size. pose proof (zlen_nonneg (snd p)). Z.div_mod_to_equations; lia. Qed.

Lemma rx_total_min ps : 8 * zlen ps <= rx_total ps.
Proof.
  induction ps as [|p ps IH]; [done|]. rewrite zlen_cons. change (rx_total (p :: ps)) with (rx_size p + rx_total ps).
  pose proof (rx_size_min p). lia.
Qed.

Lemma rx_frame f a frame : (forall j, 0 <= j < zlen frame -> f (a + j) = byte_at frame j) ->
  (fun j => f (a + j)) <$> seqZ 0 (zlen frame) = frame.
Proof.
  intros Hf. rewrite <-(map_buf_write f frame (zlen frame) eq_refl) at 2. apply list_fmap_ext. intros i j Hj.
  apply lookup_seqZ in Hj as [-> Hj]. rewrite Hf by lia. unfold buf_write.
  rewrite (proj2 (Z.leb_le 0 _)), (proj2 (Z.ltb_lt (0 + Z.of_nat i) _)) by lia. cbn [andb]. by rewrite Z.sub_0_r.
Qed.

(** Rounding up by masking the low bits of the offset. *)
Lemma rx_advance off len : 0 <= off < RX_BUF_LEN -> off mod 4 = 0 -> 0 <= len <= ETHERNET_MAX ->
  Z.rem (u16 (Z.land (off + len + 4 + 3) (Z.lnot 3))) RX_BUF_LEN = (off + (len + 4 + 3) / 4 * 4) mod RX_BUF_LEN.
Proof.
  unfold RX_BUF_LEN, ETHERNET_MAX. intros Ho H4 Hl. change 3 with (Z.ones 2) at 2.
  rewrite <-Z.ldiff_land, Z.ldiff_ones_r, Z.shiftr_div_pow2, Z.shiftl_mul_pow2 by lia. change (2 ^ 2) with 4.
  rewrite u16_id by (Z.div_mod_to_equations; lia). rewrite Z.rem_mod_nonneg by (Z.div_mod_to_equations; lia).
  f_equal. Z.div_mod_to_equations; lia.
Qed.

(** The ring when the card was told the driver's position, as after its reset, where [rx_offset]
    is 0 and CAPR is 0xFFF0. *)
Definition rx_told (f : Z -> Z) (off cbr : Z) : rx_ring := RxRing f off (u16 (off - 16)) cbr.

Lemma rx_empty_told f off cbr : 0 <= off < RX_BUF_LEN -> rx_empty (rx_told f off cbr) = (off =? cbr).
Proof.
  unfold RX_BUF_LEN. intros Ho. unfold rx_empty, rx_told. cbn [rx_capr rx_cbr]. f_equal.
  assert (u16 (u16 (off - 16) + 16) = off) as -> by (unfold u16; Z.div_mod_to_equations; lia).
  unfold RX_BUF_LEN. apply Z.rem_small. lia.
Qed.

(** A length that no frame has. *)
Definition rx_bad (f : Z -> Z) (off : Z) : bool :=
  let len := mem16 f (off + 2) in (len <? 4) || (ETHERNET_MAX <? len).

Lemma rtl_poll_loop_spec f rest ps : forall off got fuel,
  0 <= off < RX_BUF_LEN -> off mod 4 = 0 -> rx_laid f off ps -> 0 <= rest -> rx_total ps + rest < RX_BUF_LEN ->
  (0 < rest -> rx_bad f ((off + rx_total ps) mod RX_BUF_LEN) = true) -> zlen ps < Z.of_nat fuel ->
  let cbr := (off + rx_total ps + rest) mod RX_BUF_LEN in
  rtl_poll_loop fuel (rx_told f off cbr) got = Some (got ++ rx_good ps, rx_told f cbr cbr).
Proof.
  induction ps as [|[status frame] ps IH]; intros off got fuel Ho H4 Hlaid Hr Ht Hbad Hn cbr;
    (destruct fuel as [|fuel]; [pose proof (zlen_nonneg ([] : list Z)); unfold zlen in *; simpl in *; lia|]);
    cbn [rtl_poll_loop]; rewrite rx_empty_told by done.
  - change (rx_total []) with 0 in *. unfold RX_BUF_LEN in *. rewrite app_nil_r.
    assert (Hcbr : 0 <= cbr < 8192) by (apply Z.mod_pos_bound; lia). destruct (Z.eqb_spec off cbr) as [He|Hne]; [by rewrite <-He|].
    assert (H0 : 0 < rest) by (subst cbr; Z.div_mod_to_equations; lia). specialize (Hbad H0). rewrite Z.add_0_r in Hbad.
    rewrite Z.mod_small in Hbad by done. unfold rx_bad in Hbad. change (rx_dma (rx_told f off cbr)) with f. cbn [rx_offset rx_told].
    rewrite Hbad. unfold rx_told, RX_BUF_LEN. cbn. by rewrite Z.rem_small.
  - inversion Hlaid as [|? ? ? ? Hst Hlen Hmax Hfr Hrest]; subst. rewrite zlen_cons in Hn. pose proof (zlen_nonneg ps).
    pose proof (zlen_nonneg frame). set (p := (mem16 f off, frame)) in *.
    change (rx_total (p :: ps)) with (rx_size p + rx_total ps) in *. pose proof (rx_size_min p). pose proof (rx_total_min ps).
    unfold RX_BUF_LEN in *.
    assert (Hne : (off =? cbr) = false) by (apply Z.eqb_neq; subst cbr; intros Hx; Z.div_mod_to_equations; lia).
    rewrite Hne. cbn [rx_offset rx_dma rx_told]. rewrite Hlen.
    rewrite !(proj2 (Z.ltb_ge _ _)) by (unfold ETHERNET_MAX in *; lia). cbn [orb]. rewrite Z.add_simpl_r, rx_frame by done.
    rewrite rx_advance by (unfold RX_BUF_LEN; lia || done).
    change (off + (zlen frame + 4 + 4 + 3) / 4 * 4) with (off + rx_size p). fold (rx_next off p).
    assert (Hnext : (off + (rx_size p + rx_total ps)) mod 8192 = (rx_next off p + rx_total ps) mod 8192).
    { unfold rx_next, RX_BUF_LEN. rewrite Z.add_mod_idemp_l by lia. f_equal. lia. }
    assert (Hcbr : cbr = (rx_next off p + rx_total ps + rest) mod 8192).
    { subst cbr. rewrite <-Z.add_mod_idemp_l, Hnext, Z.add_mod_idemp_l by lia. done. }
    etransitivity; [|rewrite Hcbr; etransitivity; [apply (IH (rx_next off p) (got ++ rx_good [p]) fuel)|]].
    + f_equal; [rewrite <-Hcbr; done|]. unfold rx_good. simpl. destruct (Z.odd (mem16 f off)); [done|by rewrite app_nil_r].
    + unfold rx_next, RX_BUF_LEN. apply Z.mod_pos_bound. lia.
    + unfold rx_next, rx_size, RX_BUF_LEN. cbn [snd]. Z.div_mod_to_equations; lia.
    + done.
    + done.
    + lia.
    + intros Hpos. rewrite <-Hnext. by apply Hbad.
    + lia.
    + f_equal. f_equal. rewrite <-app_assoc. unfold rx_good. by rewrite <-omap_app.
Qed.

(** C30: Polling delivers each packet the card has received without an error, once and in order,
    whatever the status and lengths of the others and wherever the ring wraps, and leaves the
    ring empty: the driver reads next where the card writes next, and the card, whose view is
    the register it was told the position in, reports the ring empty. A length that no frame
    has ends the delivery before it, and what follows is skipped. The card receives nothing
    while the ring is polled. *)
Theorem rtl_poll_delivers f off ps rest :
  0 <= off < RX_BUF_LEN -> off mod 4 = 0 -> rx_laid f off ps -> 0 <= rest -> rx_total ps + rest < RX_BUF_LEN ->
  (0 < rest -> rx_bad f ((off + rx_total ps) mod RX_BUF_LEN) = true) ->
  let cbr := (off + rx_total ps + rest) mod RX_BUF_LEN in
  exists r, rtl_poll (rx_told f off cbr) = Some (rx_good ps, r) /\
    rx_offset r = cbr /\ rx_capr r = u16 (cbr - 16) /\ rx_empty r = true.
Proof.
  intros Ho H4 Hl Hr Ht Hbad cbr. exists (rx_told f cbr cbr). pose proof (rx_total_min ps). split.
  - apply (rtl_poll_loop_spec f rest ps off [] 1024); try done. unfold RX_BUF_LEN in *. lia.
  - split_and!; [done|done|]. rewrite rx_empty_told; [apply Z.eqb_refl|]. apply Z.mod_pos_bound. done.
Qed.

(** Three packets, the second one bad, across the end of the ring, and then a header without
    a length. *)
Definition demo_rx (j : Z) : Z :=
  if 8176 <=? j then byte_at [1; 0; 6; 0; 7; 8; 9; 9; 9; 9; 0; 0; 0; 0; 5; 0; 77] (j - 8176)
  else byte_at [0; 0; 0; 0; 0; 0; 0; 0; 1; 0; 5; 0; 42] j.

Lemma rtl_poll_delivers_witness :
  rtl_poll (rx_told demo_rx 8176 20) = Some ([[7; 8]; [42]], rx_told demo_rx 20 20) /\
  exists r, rtl_poll (rx_told demo_rx 8176 40) = Some ([[7; 8]; [42]], r) /\ rx_capr r = 24 /\ rx_empty r = true.
Proof.
  assert (Hlaid : rx_laid demo_rx 8176 [(1, [7; 8]); (0, [77]); (1, [42])]).
  { repeat (apply rx_laid_cons; [done|done|done| |]); [| | |apply rx_laid_nil]; intros j Hj; unfold zlen in Hj; simpl in Hj.
    - by assert (j = 0 \/ j = 1) as [-> | ->] by lia.
    - by replace j with 0 by lia.
    - by replace j with 0 by lia. }
  split.
  - destruct (rtl_poll_delivers demo_rx 8176 _ 0 ltac:(done) ltac:(done) Hlaid ltac:(done) ltac:(done) ltac:(done))
      as (r & Hp & _). vm_compute. done.
  - destruct (rtl_poll_delivers demo_rx 8176 _ 20 ltac:(done) ltac:(done) Hlaid ltac:(done) ltac:(done) ltac:(done))
      as (r & Hp & _ & Hc & He). by exists r.
Defined.
