(* ===== verification/NetIp.v ===== *)
(** * IPv4, ICMP and UDP (usr/device/net/ip.c), and the dispatch of frames (ethernet.c)

    The transmit buffer is there: a program that cannot allocate it exits. [room] says
    whether [malloc] finds memory for a datagram. *)

From S2P Require Import Prelude Net.
From coqutil Require Import Datatypes.RecordSetters.
Import TriangleBracketNotations.

Local Open Scope Z_scope.
Local Open Scope monad_scope.

#[local] Arguments constant {E} newValue / _.

(** ** The checksum *)

Fixpoint checksum_words (l : list Z) (sum : Z) : Z :=
  match l with
  | a :: b :: l => checksum_words l (u32 (sum + (a + 256 * b)))
  | [a] => u32 (sum + a)
  | [] => sum
  end.

Fixpoint fold_carries (fuel : nat) (sum : Z) : option Z :=
  match fuel with
  | O => None
  | S fuel =>
      if Z.shiftr sum 16 =? 0 then Some sum
      else fold_carries fuel (u32 (Z.land sum 0xFFFF + Z.shiftr sum 16))
  end.

(** [len] bytes of [data]. *)
Definition ip_checksum (data : list Z) (len : Z) : option Z :=
  l ← bytes data 0 len;
  sum ← fold_carries 4 (checksum_words l 0);
  Some (u16 (Z.lnot sum)).

(** ** Sending *)

Definition SUBNET : Z := 0x00FFFFFF.

Definition ip_next_hop (dst : Z) : Z :=
  if Z.land dst SUBNET =? Z.land LOCAL_IP SUBNET then dst else GATEWAY_IP.

(** Version 4, five words of header, no fragments, a time to live of 64. *)
Definition ip_header (len protocol sum dst : Z) : list Z :=
  [Z.lor 5 (Z.shiftl 4 4); 0] ++ field16 (IP_HEADER + len) ++ to_le16 0 ++ to_le16 0 ++
  [64; protocol] ++ to_le16 sum ++ to_le32 LOCAL_IP ++ to_le32 dst.

Section ip.
Context {D : Type} `{NetDev D}.
Abbreviation NM := (ST (net (D := D))).

Definition st_opt {A} (o : option A) : NM A := fun s => a ← o; Some (a, s).

Definition ip_send (dst_ip protocol : Z) (payload : list Z) : NM Z :=
  let len := zlen payload in
  if IP_MTU - IP_HEADER <? len then st_ret (-1)
  else
    let! sum := st_opt (ip_checksum (ip_header len protocol 0 dst_ip) IP_HEADER) in
    net_tx (ip_next_hop dst_ip) ETHERTYPE_IP (ip_header len protocol sum dst_ip ++ payload).

(** ** ICMP *)

Definition icmp_packet (type code sum rest : Z) (data : list Z) : list Z :=
  [type; code] ++ to_le16 sum ++ to_le32 rest ++ data.

(** The fields [type] and [checksum] of a header in a buffer. *)
Definition set_type (l : list Z) (type : Z) : list Z := splice l 0 [type].
Definition set_checksum (l : list Z) (sum : Z) : list Z := splice l 2 (to_le16 sum).

Definition icmp_input (src_ip : Z) (payload : list Z) : NM unit :=
  let len := zlen payload in
  if len <? ICMP_HEADER then st_ret tt
  else
    let! sum := st_opt (ip_checksum payload len) in
    if negb (sum =? 0) then st_ret tt
    else if byte_at payload 0 =? 8 then
      let reply := set_checksum (set_type payload 0) 0 in
      let! sum := st_opt (ip_checksum reply len) in
      let! _ := ip_send src_ip IP_PROTO_ICMP (set_checksum reply sum) in
      st_ret tt
    else st_ret tt.

Definition ICMP_ID : Z := 0x1234.

Definition icmp_send_echo (dst_ip : Z) : NM unit :=
  let! _ := upd (fun s => s <| icmp_seq := u16 (icmp_seq s + 1) |>) in
  let! seq := st_get icmp_seq in
  let rest := Z.lor (htons ICMP_ID) (Z.shiftl (htons seq) 16) in
  let data := seqZ 0 32 in
  let! sum := st_opt (ip_checksum (icmp_packet 8 0 0 rest data) (ICMP_HEADER + 32)) in
  let! _ := ip_send dst_ip IP_PROTO_ICMP (icmp_packet 8 0 sum rest data) in
  st_ret tt.

(** ** UDP *)

Context (room : Z -> bool).

Definition udp_header (src_port dst_port total : Z) : list Z :=
  field16 src_port ++ field16 dst_port ++ field16 total ++ to_le16 0.

Definition udp_send (dst_ip dst_port src_port : Z) (payload : list Z) : NM Z :=
  let total := u16 (UDP_HEADER + zlen payload) in
  if negb (room total) then st_ret (-1)
  else if total <? UDP_HEADER + zlen payload then fun _ => None   (* the copy overruns the buffer *)
  else ip_send dst_ip IP_PROTO_UDP (udp_header src_port dst_port total ++ payload).

(** [frame] from [off] on is the datagram, of [len] bytes by the IP header; its length field is
    read before anything is known of its length. *)
Definition udp_input (src_ip : Z) (frame : list Z) (off len : Z) : NM unit :=
  let! l := st_opt (bytes frame (off + 4) 2) in
  let udp_len := get16 l 0 in
  if (udp_len <? UDP_HEADER) || (len <? udp_len) then st_ret tt
  else
    (* the ports and the data are printed *)
    let! udp := st_opt (bytes frame off udp_len) in
    (* "test" with its terminator *)
    let! _ := udp_send src_ip (get16 udp 0) 7777 [116; 101; 115; 116; 0] in
    st_ret tt.

(** ** Receiving *)

Record ip_packet := IpPacket { protocol : Z; ip_src : Z; pl_off : Z; pl_len : Z }.

(** The packet in a frame, if it is a whole one for the host [local]. *)
Definition ip_parse (local : Z) (frame : list Z) : option (option ip_packet) :=
  let len := zlen frame in
  if len <? ETH_HEADER + IP_HEADER then Some None
  else
    let h := drop (Z.to_nat ETH_HEADER) frame in
    let ihl := Z.land (Z.land (byte_at h 0) 15) 15 * 4 in
    let total := get16 h 2 in
    if (ihl <? IP_HEADER) || (total <? ihl) || (len <? ETH_HEADER + total) then Some None
    else if negb (Z.shiftr (byte_at h 0) 4 =? 4) then Some None
    else
      sum ← ip_checksum h ihl;
      if negb (sum =? 0) then Some None
      else if negb (le32 h 16 =? local) then Some None
      else Some (Some (IpPacket (byte_at h 9) (le32 h 12) (ETH_HEADER + ihl) (u16 (total - ihl)))).

Definition ip_input (frame : list Z) : NM unit :=
  let! p := st_opt (ip_parse LOCAL_IP frame) in
  match p with
  | None => st_ret tt
  | Some p =>
      if protocol p =? IP_PROTO_ICMP then icmp_input (ip_src p) (slice frame (pl_off p) (pl_len p))
      else if protocol p =? IP_PROTO_UDP then udp_input (ip_src p) frame (pl_off p) (pl_len p)
      else st_ret tt
  end.

Definition eth_input (frame : list Z) : NM unit :=
  if zlen frame <? ETH_HEADER then st_ret tt
  else
    let etype := get16 frame 12 in
    if etype =? ETHERTYPE_ARP then arp_input frame
    else if etype =? ETHERTYPE_IP then ip_input frame
    else st_ret tt.

(** ** Addresses typed by the user *)

Record parse_state := ParseState { oct : list Z; digits : Z; val : Z }.

(** One character; [inl] is the result. The string ends with 0. *)
Definition parse_char (st : parse_state) (c : Z) : (bool * list Z) + parse_state :=
  if (48 <=? c) && (c <=? 57) then
    let v := val st * 10 + (c - 48) in
    if 255 <? v then inl (false, oct st) else inr (ParseState (oct st) (digits st + 1) v)
  else if (c =? 46) || (c =? 0) then
    if (digits st =? 0) || (3 <? zlen (oct st)) then inl (false, oct st)
    else
      let o := oct st ++ [val st] in
      if c =? 0 then inl (true, o) else inr (ParseState o 0 0)
  else inl (false, oct st).

Fixpoint ip_parse_loop (st : parse_state) (l : list Z) : option (bool * list Z) :=
  match l with
  | [] => None
  | c :: l =>
      match parse_char st c with
      | inl r => Some r
      | inr st => ip_parse_loop st l
      end
  end.

(** [s] is the string with its terminator. *)
Definition parse_ip (s : list Z) : option (option Z) :=
  '(ok, o) ← ip_parse_loop (ParseState [] 0 0) s;
  Some (if negb ok || negb (zlen o =? 4) then None
        else Some (pack_ip (byte_at o 0) (byte_at o 1) (byte_at o 2) (byte_at o 3))).

End ip.
