(* ===== verification/NetIpSpec.v ===== *)
(** * The checksum, and what is sent is what is received (usr/device/net)

    [ip_checksum] is the checksum of RFC 1071. A packet that [ip_send] builds is one that
    [ip_input] accepts at its destination, with the same protocol, source and payload, and
    an echo request gets exactly its reply. *)

From S2P Require Import Prelude Net Rtl NetIp.
From coqutil Require Import Datatypes.RecordSetters.
Import TriangleBracketNotations.

Local Open Scope Z_scope.

#[local] Arguments constant {E} newValue / _.

Definition is_byte (b : Z) : Prop := 0 <= b < 256.

(** ** RFC 1071: the sum of the 16-bit words in ones' complement arithmetic *)

Fixpoint words16 (l : list Z) : list Z :=
  match l with
  | a :: b :: l => a + 256 * b :: words16 l
  | [a] => [a]
  | [] => []
  end.

(** Addition with the carry brought around. *)
Definition oc_add (a b : Z) : Z := if a + b <? 65536 then a + b else a + b - 65535.

Definition rfc1071 (l : list Z) : Z := 65535 - foldl oc_add 0 (words16 l).

(** ** The sum *)

Definition word_sum (l : list Z) : Z := foldr Z.add 0 (words16 l).

(** The representative of a sum modulo 65535 that folding the carries finds. *)
Definition oc16 (s : Z) : Z := if s =? 0 then 0 else (s - 1) mod 65535 + 1.

(** Lists by pairs. *)
Lemma pair_ind (P : list Z -> Prop) :
  P [] -> (forall a, P [a]) -> (forall a b l, P l -> P (a :: b :: l)) -> forall l, P l.
Proof.
  intros P0 P1 P2 l. assert (P l /\ forall a, P (a :: l)) as [? _]; [|done].
  induction l as [|x l [IH1 IH2]]; [auto|]. split; [apply IH2|]. intros a. by apply P2.
Qed.

Lemma word_sum_bound l : Forall is_byte l -> 0 <= word_sum l <= 65535 * ((zlen l + 1) / 2).
Proof.
  unfold is_byte. induction l as [|a|a b l IH] using pair_ind; intros Hb.
  - done.
  - apply Forall_cons in Hb as [? _]. unfold word_sum. simpl. change ((zlen [a] + 1) / 2) with 1. lia.
  - apply Forall_cons in Hb as [? Hb]. apply Forall_cons in Hb as [? Hb]. specialize (IH Hb).
    change (word_sum (a :: b :: l)) with (a + 256 * b + word_sum l). rewrite !zlen_cons.
    replace (zlen l + 1 + 1 + 1) with (zlen l + 1 + 1 * 2) by lia. rewrite Z.div_add by lia. lia.
Qed.

Lemma checksum_words_spec l sum :
  Forall is_byte l -> 0 <= sum -> sum + word_sum l < 2 ^ 32 -> checksum_words l sum = sum + word_sum l.
Proof.
  unfold is_byte. revert sum. induction l as [|a|a b l IH] using pair_ind; intros sum Hb Hs Hlt.
  - unfold word_sum. simpl. lia.
  - apply Forall_cons in Hb as [? _]. unfold word_sum in *. simpl in *. rewrite u32_id by lia. lia.
  - apply Forall_cons in Hb as [? Hb]. apply Forall_cons in Hb as [? Hb]. pose proof (word_sum_bound l Hb).
    change (word_sum (a :: b :: l)) with (a + 256 * b + word_sum l) in *.
    pose proof (zlen_nonneg l). pose proof (Z.div_pos (zlen l + 1) 2 ltac:(lia) ltac:(lia)).
    cbn [checksum_words]. rewrite u32_id by lia. rewrite IH by (try done; lia). lia.
Qed.

Lemma word_sum_app l1 l2 : zlen l1 mod 2 = 0 -> word_sum (l1 ++ l2) = word_sum l1 + word_sum l2.
Proof.
  induction l1 as [|a|a b l IH] using pair_ind; intros He.
  - done.
  - done.
  - rewrite !zlen_cons in He. change (word_sum ((a :: b :: l) ++ l2)) with (a + 256 * b + word_sum (l ++ l2)).
    change (word_sum (a :: b :: l)) with (a + 256 * b + word_sum l). rewrite IH; [lia|].
    replace (zlen l + 1 + 1) with (zlen l + 1 * 2) in He by lia. by rewrite Z.mod_add in He by lia.
Qed.

Lemma oc16_small s : 0 <= s < 65536 -> oc16 s = s.
Proof. intros Hs. unfold oc16. zcase; [lia|]. rewrite Z.mod_small; lia. Qed.

Lemma oc16_add a b : 0 <= a -> 0 <= b -> oc16 (oc16 a + b) = oc16 (a + b).
Proof.
  intros Ha Hb. unfold oc16. repeat zcase_on (_ =? _); zcases; Z.div_mod_to_equations; lia.
Qed.

Lemma fold_step s : 0 <= s < 2 ^ 32 ->
  let s' := u32 (Z.land s 0xFFFF + Z.shiftr s 16) in
  s' = s mod 65536 + s / 65536 /\ oc16 s' = oc16 s.
Proof.
  intros Hs. change 0xFFFF with (Z.ones 16). rewrite Z.land_ones, Z.shiftr_div_pow2 by lia.
  change (2 ^ 16) with 65536. cbv zeta. rewrite u32_id by (Z.div_mod_to_equations; lia). split; [done|].
  rewrite <-(oc16_small (s mod 65536)) by (Z.div_mod_to_equations; lia).
  rewrite oc16_add by (Z.div_mod_to_equations; lia). unfold oc16. zcases; Z.div_mod_to_equations; lia.
Qed.

Lemma fold_carries_spec s : 0 <= s < 2 ^ 32 -> fold_carries 4 s = Some (oc16 s).
Proof.
  assert (Hend : forall n x, 0 <= x < 65536 -> fold_carries (S n) x = Some (oc16 x)).
  { intros n x Hx. cbn [fold_carries]. rewrite Z.shiftr_div_pow2, Z.div_small by lia. by rewrite oc16_small. }
  assert (Hstep : forall n x, 65536 <= x < 2 ^ 32 ->
    fold_carries (S n) x = fold_carries n (x mod 65536 + x / 65536) /\ oc16 (x mod 65536 + x / 65536) = oc16 x).
  { intros n x Hx. destruct (fold_step x ltac:(lia)) as [E1 E2]. cbv zeta in *. rewrite E1 in E2. split; [|done].
    cbn [fold_carries]. rewrite E1. zcase; [|done]. exfalso. rewrite Z.shiftr_div_pow2 in * by lia. Z.div_mod_to_equations; lia. }
  intros Hs. destruct (Z.lt_ge_cases s 65536); [apply Hend; lia|]. destruct (Hstep 3%nat s) as [-> <-]; [lia|].
  set (s1 := s mod 65536 + s / 65536). assert (0 <= s1 <= 131070) by (subst s1; Z.div_mod_to_equations; lia).
  destruct (Z.lt_ge_cases s1 65536); [apply Hend; lia|]. destruct (Hstep 2%nat s1) as [-> <-]; [lia|].
  apply Hend. Z.div_mod_to_equations; lia.
Qed.

Lemma word_range l : Forall is_byte l -> Forall (fun w => 0 <= w < 65536) (words16 l).
Proof.
  unfold is_byte. induction l as [|a|a b l IH] using pair_ind; intros Hb; simpl; [done| |].
  - apply Forall_cons in Hb as [? _]. apply Forall_cons. split; [lia|done].
  - apply Forall_cons in Hb as [? Hb]. apply Forall_cons in Hb as [? Hb]. apply Forall_cons. split; [lia|auto].
Qed.

Lemma oc_sum_spec ws acc : Forall (fun w => 0 <= w < 65536) ws -> 0 <= acc < 65536 ->
  foldl oc_add acc ws = oc16 (acc + foldr Z.add 0 ws).
Proof.
  revert acc. induction ws as [|w ws IH]; intros acc Hw Ha; simpl; [by rewrite Z.add_0_r, oc16_small|].
  apply Forall_cons in Hw as [? Hw]. assert (Ho : oc_add acc w = oc16 (acc + w)).
  { unfold oc_add, oc16. zcases; Z.div_mod_to_equations; lia. }
  assert (Hn : 0 <= foldr Z.add 0 ws) by (clear -Hw; induction Hw; simpl; lia).
  rewrite Ho, IH; [|done|unfold oc16; zcases; Z.div_mod_to_equations; lia].
  rewrite oc16_add by lia. f_equal. lia.
Qed.

Lemma rfc1071_spec l : Forall is_byte l -> rfc1071 l = 65535 - oc16 (word_sum l).
Proof. intros Hb. unfold rfc1071. by rewrite oc_sum_spec by (by apply word_range || lia). Qed.

Lemma ip_checksum_spec data len :
  0 <= len <= 65535 -> len <= zlen data -> Forall is_byte (slice data 0 len) ->
  ip_checksum data len = Some (65535 - oc16 (word_sum (slice data 0 len))).
Proof.
  intros Hl Hd Hb. unfold ip_checksum, bytes. rewrite !(proj2 (Z.leb_le _ _)) by lia. cbn [andb]. rewrite bind_Some_l.
  pose proof (word_sum_bound _ Hb) as Hw. rewrite zlen_slice in Hw by lia.
  assert (0 <= word_sum (slice data 0 len) < 2 ^ 32) by (Z.div_mod_to_equations; nia).
  rewrite checksum_words_spec by (try done; lia). rewrite Z.add_0_l, fold_carries_spec by done. rewrite bind_Some_l.
  f_equal. unfold Z.lnot, u16, oc16. zcases; Z.div_mod_to_equations; lia.
Qed.

(** C35: The checksum ends and is the one of RFC 1071, for every length a packet can have:
    no carry is lost in the 32-bit sum. *)
Theorem ip_checksum_rfc1071 (data : list Z) (len : Z) :
  0 <= len <= 65535 -> len <= zlen data -> Forall is_byte data ->
  ip_checksum data len = Some (rfc1071 (slice data 0 len)).
Proof.
  intros Hl Hd Hb. assert (Hs : Forall is_byte (slice data 0 len)) by (unfold slice; by apply Forall_take, Forall_drop).
  by rewrite ip_checksum_spec, rfc1071_spec.
Qed.

(** ** Fields and headers *)

Lemma field16_spec x : 0 <= x < 65536 -> field16 x = [x / 256; x mod 256].
Proof.
  intros Hx. unfold field16, htons. rewrite Z.shiftr_div_pow2, Z.shiftl_mul_pow2 by lia. change (2 ^ 8) with 256.
  assert (Hlor : Z.lor (x / 256) (x * 256) = x / 256 + x * 256).
  { rewrite <-Z.lxor_lor, Z.add_nocarry_lxor; [done| |]; apply Z.bits_inj'; intros n Hn; rewrite Z.land_spec, Z.bits_0;
      change 256 with (2 ^ 8); rewrite <-Z.shiftr_div_pow2, <-Z.shiftl_mul_pow2 by lia;
      rewrite Z.shiftr_spec, Z.shiftl_spec by lia;
      (destruct (Z.lt_ge_cases n 8); [rewrite (Z.testbit_neg_r x (n - 8)) by lia; apply andb_false_r|]);
      rewrite (Z.bits_above_log2 x (n + 8)); [done|lia| |done|lia|];
      (destruct (decide (x = 0)) as [->|]; [simpl; lia|apply Z.log2_lt_pow2; [lia|]; change 65536 with (2 ^ 16) in Hx;
       apply (Z.lt_le_trans _ (2 ^ 16)); [lia|apply Z.pow_le_mono_r; lia]]). }
  rewrite Hlor. unfold to_le16, u16. change (2 ^ 16) with 65536. f_equal; [|f_equal]; Z.div_mod_to_equations; lia.
Qed.

Lemma get16_cons a b l : is_byte a -> is_byte b -> get16 (a :: b :: l) 0 = 256 * a + b.
Proof.
  unfold is_byte. intros Ha Hb. unfold get16, le16. change (byte_at (a :: b :: l) 0) with a. change (byte_at (a :: b :: l) (0 + 1)) with b.
  pose proof (field16_spec (a + 256 * b) ltac:(lia)) as E. unfold field16, to_le16 in E.
  injection E as E1 E2. assert (Hh : 0 <= htons (a + 256 * b) < 65536) by (unfold htons; apply u16_range).
  Z.div_mod_to_equations; lia.
Qed.

Lemma to_le16_bytes x : Forall is_byte (to_le16 x).
Proof. unfold to_le16, is_byte. repeat (apply Forall_cons; split); try (apply Z.mod_pos_bound; lia). done. Qed.

Lemma to_le32_bytes x : Forall is_byte (to_le32 x).
Proof. apply Forall_app. split; apply to_le16_bytes. Qed.

Lemma field16_bytes x : Forall is_byte (field16 x).
Proof. apply to_le16_bytes. Qed.

Lemma le32_cons x l : 0 <= x < 2 ^ 32 -> le32 (to_le32 x ++ l) 0 = x.
Proof.
  intros Hx. unfold le32, le16, to_le32, to_le16. cbn [app].
  change (byte_at _ 0) with ((x mod 65536) mod 256). change (byte_at _ (0 + 1)) with (x mod 65536 / 256 mod 256).
  change (byte_at _ (0 + 2)) with ((x / 65536) mod 256). change (byte_at _ (0 + 2 + 1)) with (x / 65536 / 256 mod 256).
  Z.div_mod_to_equations; lia.
Qed.

(** A checksum computed over a zero field and stored in it makes the sum of the whole 65535. *)
Lemma word_sum_filled pre post c : zlen pre mod 2 = 0 -> Forall is_byte (pre ++ [0; 0] ++ post) ->
  c = 65535 - oc16 (word_sum (pre ++ to_le16 0 ++ post)) ->
  0 <= c < 65536 /\ oc16 (word_sum (pre ++ to_le16 c ++ post)) = 65535.
Proof.
  intros He Hb Hc. apply Forall_app in Hb as [Hb1 Hb2]. apply Forall_app in Hb2 as [_ Hb2].
  pose proof (word_sum_bound _ Hb1) as [W1 _]. pose proof (word_sum_bound _ Hb2) as [W2 _].
  rewrite (word_sum_app pre) in * by done. change (word_sum (to_le16 0 ++ post)) with (0 + word_sum post) in Hc.
  assert (0 <= c < 65536) by (subst c; unfold oc16; zcases; Z.div_mod_to_equations; lia). split; [done|].
  change (word_sum (to_le16 c ++ post)) with (c mod 256 + 256 * (c / 256 mod 256) + word_sum post).
  replace (c mod 256 + 256 * (c / 256 mod 256)) with c by (Z.div_mod_to_equations; lia).
  subst c. unfold oc16. zcases; Z.div_mod_to_equations; lia.
Qed.

Lemma filled_verifies pre post rest c n :
  zlen pre mod 2 = 0 -> Forall is_byte (pre ++ [0; 0] ++ post) -> n = zlen (pre ++ [0; 0] ++ post) -> n <= 65535 ->
  ip_checksum (pre ++ to_le16 0 ++ post) n = Some c ->
  ip_checksum ((pre ++ to_le16 c ++ post) ++ rest) n = Some 0.
Proof.
  intros He Hb Hn Hle Hc. set (l0 := pre ++ to_le16 0 ++ post) in *. set (l1 := pre ++ to_le16 c ++ post).
  assert (E0 : zlen l0 = n /\ zlen l1 = n).
  { subst l0 l1 n. rewrite !zlen_app. change (zlen (to_le16 c)) with 2. change (zlen (to_le16 0)) with 2. by change (zlen [0; 0]) with 2. }
  destruct E0 as [E0 E1]. pose proof (zlen_nonneg l0).
  assert (S0 : slice l0 0 n = l0) by (rewrite <-E0; apply slice_all).
  assert (S1 : slice (l1 ++ rest) 0 n = l1).
  { rewrite <-E1. unfold slice, zlen. rewrite Nat2Z.id. change (Z.to_nat 0) with 0%nat. rewrite drop_0. apply take_app_length. }
  rewrite ip_checksum_spec in Hc by (rewrite ?S0; try done; lia). rewrite S0 in Hc. injection Hc as Hc.
  destruct (word_sum_filled pre post c He Hb) as [Hr Hs]; [by subst c|].
  assert (Hb1 : Forall is_byte l1).
  { apply Forall_app in Hb as [Hb1 Hb2]. apply Forall_app in Hb2 as [_ Hb2]. subst l1.
    apply Forall_app. split; [done|]. apply Forall_app. split; [apply to_le16_bytes|done]. }
  rewrite ip_checksum_spec; rewrite ?S1; try done; [by (fold l1 in Hs; rewrite Hs)|lia|]. rewrite zlen_app, E1. pose proof (zlen_nonneg rest). lia.
Qed.

(** ** The header *)

Definition header_pre (len proto : Z) : list Z := [69; 0] ++ field16 (20 + len) ++ [0; 0; 0; 0] ++ [64; proto].
Definition header_post (dst : Z) : list Z := [10; 5; 0; 4] ++ to_le32 dst.

Lemma ip_header_split len proto sum dst : ip_header len proto sum dst = header_pre len proto ++ to_le16 sum ++ header_post dst.
Proof. done. Qed.

Lemma header_bytes len proto dst : is_byte proto -> Forall is_byte (header_pre len proto ++ [0; 0] ++ header_post dst).
Proof.
  intros Hp. unfold header_pre, header_post.
  repeat first [apply field16_bytes | apply to_le32_bytes | apply Forall_app; split | apply Forall_cons; split | by apply Forall_nil | done | by split].
Qed.

(** What a host at [dst] makes of a packet for it. *)
Lemma ip_parse_sent dmac smac proto payload dst pad sum :
  zlen dmac = 6 -> zlen smac = 6 -> is_byte proto -> 0 <= dst < 2 ^ 32 -> zlen payload <= 1480 ->
  ip_checksum (ip_header (zlen payload) proto 0 dst) IP_HEADER = Some sum ->
  let frame := eth_frame dmac smac ETHERTYPE_IP (ip_header (zlen payload) proto sum dst ++ payload) ++ pad in
  ip_parse dst frame = Some (Some (IpPacket proto LOCAL_IP 34 (zlen payload))) /\
  slice frame 34 (zlen payload) = payload.
Proof.
  intros Hd Hs Hp Hdst Hlen Hsum frame. pose proof (zlen_nonneg payload). pose proof (zlen_nonneg pad).
  set (h := (ip_header (zlen payload) proto sum dst ++ payload) ++ pad).
  assert (Hf : frame = (dmac ++ smac ++ field16 ETHERTYPE_IP) ++ h).
  { unfold frame, eth_frame, h. by rewrite <-!app_assoc. }
  assert (H14 : zlen (dmac ++ smac ++ field16 ETHERTYPE_IP) = 14) by (rewrite !zlen_app, Hd, Hs; done).
  assert (Hdrop : drop (Z.to_nat ETH_HEADER) frame = h).
  { rewrite Hf. replace (Z.to_nat ETH_HEADER) with (length (dmac ++ smac ++ field16 ETHERTYPE_IP)) by (unfold zlen, ETH_HEADER in *; lia).
    apply drop_app_length. }
  assert (Hhead : zlen (ip_header (zlen payload) proto sum dst) = 20) by done.
  assert (Hflen : zlen frame = 34 + zlen payload + zlen pad).
  { rewrite Hf, zlen_app, H14. unfold h. rewrite !zlen_app, Hhead. lia. }
  split.
  2:{ rewrite Hf. unfold slice. rewrite drop_app_ge by (unfold zlen in *; lia).
      replace (Z.to_nat 34 - length (dmac ++ smac ++ field16 ETHERTYPE_IP))%nat with 20%nat by (unfold zlen in *; lia).
      unfold h. rewrite <-app_assoc. change (drop 20 (ip_header (zlen payload) proto sum dst ++ payload ++ pad)) with (payload ++ pad).
      unfold zlen. rewrite Nat2Z.id. apply take_app_length. }
  unfold ip_parse. rewrite Hflen, Hdrop. unfold ETH_HEADER, IP_HEADER in *.
  rewrite (proj2 (Z.ltb_ge _ _)) by lia.
  assert (Htot : get16 h 2 = 20 + zlen payload).
  { unfold h, ip_header, IP_HEADER. rewrite (field16_spec (20 + zlen payload)) by lia. cbn [app].
    change (get16 _ 2) with (get16 [(20 + zlen payload) / 256; (20 + zlen payload) mod 256] 0).
    rewrite get16_cons; unfold is_byte; Z.div_mod_to_equations; lia. }
  rewrite Htot. change (byte_at h 0) with 69. change (Z.land (Z.land 69 15) 15 * 4) with 20.
  change (20 <? 20) with false. rewrite !(proj2 (Z.ltb_ge _ _)) by lia. cbn [orb].
  change (Z.shiftr 69 4 =? 4) with true. cbn [negb].
  unfold h. rewrite <-app_assoc, ip_header_split.
  rewrite (filled_verifies (header_pre (zlen payload) proto) (header_post dst) (payload ++ pad) sum 20); try done;
    [|by apply header_bytes].
  rewrite bind_Some_l. change (negb (0 =? 0)) with false. cbv iota.
  match goal with |- context [le32 ?l 16] => set (hh := l) end.
  assert (Ed : le32 hh 16 = dst) by (etransitivity; [|apply (le32_cons dst (payload ++ pad) Hdst)]; reflexivity).
  rewrite Ed, Z.eqb_refl. cbn [negb]. do 3 f_equal. rewrite u16_id by lia. lia.
Qed.

(** The packet found lies in the frame. *)
Lemma ip_parse_bounds local frame p :
  Forall is_byte frame -> ip_parse local frame = Some (Some p) ->
  34 <= pl_off p /\ 0 <= pl_len p < 65536 /\ pl_off p + pl_len p <= zlen frame /\ 0 <= ip_src p < 2 ^ 32.
Proof.
  intros Hb. unfold ip_parse, ETH_HEADER, IP_HEADER. zcase; [done|].
  set (h := drop (Z.to_nat 14) frame). set (ihl := Z.land (Z.land (byte_at h 0) 15) 15 * 4).
  destruct (_ || _ || _) eqn:E; [done|]. apply orb_false_iff in E as [E E3]. apply orb_false_iff in E as [E1 E2].
  apply Z.ltb_ge in E1, E2, E3. destruct (negb _); [done|]. destruct (ip_checksum h ihl) as [sum|]; [|done].
  rewrite bind_Some_l. destruct (negb _); [done|]. destruct (negb _); [done|]. intros Hp. injection Hp as <-.
  cbn [pl_off pl_len ip_src]. assert (Ht : 0 <= get16 h 2 < 65536) by (unfold get16, htons; apply u16_range).
  rewrite u16_id by lia. split; [lia|]. split; [lia|]. split; [lia|].
  assert (Hh : forall i, is_byte (byte_at h i)).
  { intros i. unfold byte_at. destruct (zget h i) as [b|] eqn:Eb; [|by split]. apply zget_elem in Eb. simpl.
    unfold h in Eb. apply (Forall_drop _ (Z.to_nat 14)) in Hb. rewrite Forall_forall in Hb. by apply Hb. }
  unfold is_byte in Hh. unfold le32, le16. pose proof (Hh 12). pose proof (Hh (12 + 1)). pose proof (Hh (12 + 2)).
  pose proof (Hh (12 + 2 + 1)). lia.
Qed.

Section net.
Context {D : Type} `{NetDev D}.
Implicit Types (s : net (D := D)).

Lemma eth_send_spec s dest etype payload : zlen dest = 6 -> zlen payload <= ETH_MTU ->
  exists r d, eth_send dest etype payload s = Some (r, s <| dev := d |>) /\
    dev_wire d = dev_wire (dev s) ++ [padded (eth_frame dest (dev_mac (dev s)) etype payload)] /\
    dev_mac d = dev_mac (dev s).
Proof.
  intros Hd Hp. unfold eth_send. rewrite (proj2 (Z.ltb_ge _ _)) by lia. eexists _, _. split; [done|].
  split; [|apply dev_send_mac]. apply dev_send_wire. unfold eth_frame, ETH_HEADER. rewrite !zlen_app, Hd, dev_mac_len.
  change (zlen (field16 etype)) with 2. lia.
Qed.

Lemma ip_header_checksum len proto dst : is_byte proto -> exists sum, ip_checksum (ip_header len proto 0 dst) IP_HEADER = Some sum.
Proof.
  intros Hp. eexists. apply ip_checksum_spec; [done|done|]. change IP_HEADER with (zlen (ip_header len proto 0 dst)).
  rewrite slice_all. apply header_bytes. done.
Qed.

Lemma ip_send_spec s dst proto payload mac :
  zlen payload <= 1480 -> is_byte proto -> 0 <= dst < 2 ^ 32 ->
  arp_lookup (ip_next_hop dst) s = Some (Some mac, s) -> zlen mac = 6 ->
  exists r d f, ip_send dst proto payload s = Some (r, s <| dev := d |>) /\ dev_wire d = dev_wire (dev s) ++ [f] /\
    take 6 f = mac /\ ip_parse dst f = Some (Some (IpPacket proto LOCAL_IP 34 (zlen payload))) /\
    slice f 34 (zlen payload) = payload.
Proof.
  intros Hlen Hp Hdst Harp Hmac. destruct (ip_header_checksum (zlen payload) proto dst Hp) as [sum Hsum].
  unfold ip_send. change (IP_MTU - IP_HEADER) with 1480. rewrite (proj2 (Z.ltb_ge _ _)) by lia.
  unfold st_opt, st_bind at 1. rewrite Hsum, bind_Some_l. unfold net_tx, st_bind at 1. rewrite Harp.
  destruct (eth_send_spec s mac ETHERTYPE_IP (ip_header (zlen payload) proto sum dst ++ payload) Hmac) as (r & d & E & W & _).
  { rewrite zlen_app. change (zlen (ip_header _ _ _ _)) with 20. unfold ETH_MTU. lia. }
  eexists r, d, _. split; [exact E|]. split; [exact W|]. unfold padded.
  destruct (ip_parse_sent mac (dev_mac (dev s)) proto payload dst
    (replicate (Z.to_nat (60 - zlen (eth_frame mac (dev_mac (dev s)) ETHERTYPE_IP (ip_header (zlen payload) proto sum dst ++ payload)))) 0) sum)
    as [P1 P2]; try done; [apply dev_mac_len|]. split; [|by split].
  unfold eth_frame. rewrite <-!app_assoc. replace 6%nat with (length mac) by (unfold zlen in *; lia). apply take_app_length.
Qed.

(** C29: A packet that [ip_send] hands to a known next hop goes out in one frame, to the
    address of that hop; the host it is for takes the frame for a packet of this protocol
    from this host, and finds the payload in it. *)
Theorem ip_roundtrip s dst proto payload mac :
  zlen payload <= 1480 -> is_byte proto -> 0 <= dst < 2 ^ 32 ->
  arp_lookup (ip_next_hop dst) s = Some (Some mac, s) -> zlen mac = 6 ->
  exists r d f, ip_send dst proto payload s = Some (r, s <| dev := d |>) /\ dev_wire d = dev_wire (dev s) ++ [f] /\
    take 6 f = mac /\
    exists p, ip_parse dst f = Some (Some p) /\ protocol p = proto /\ ip_src p = LOCAL_IP /\
      slice f (pl_off p) (pl_len p) = payload.
Proof.
  intros Hl Hp Hd Ha Hm. destruct (ip_send_spec s dst proto payload mac Hl Hp Hd Ha Hm) as (r & d & f & E & W & T & P & S).
  exists r, d, f. do 3 (split; [done|]). by eexists.
Qed.

(** The reply to an echo request: only the type and the checksum change. *)
Lemma echo_reply data n :
  Forall is_byte data -> n = zlen data -> 8 <= n <= 65535 ->
  exists sum, ip_checksum (set_checksum (set_type data 0) 0) n = Some sum /\
    let reply := set_checksum (set_checksum (set_type data 0) 0) sum in
    zlen reply = n /\ byte_at reply 0 = 0 /\ byte_at reply 1 = byte_at data 1 /\ ip_checksum reply n = Some 0 /\
    drop 4 reply = drop 4 data.
Proof.
  intros Hb Hn Hr. destruct data as [|t [|c [|s1 [|s2 data]]]]; try (unfold zlen in Hn; simpl in Hn; lia).
  change (set_checksum (set_type (t :: c :: s1 :: s2 :: data) 0) 0) with ([0; c] ++ to_le16 0 ++ data).
  change (zlen (t :: c :: s1 :: s2 :: data)) with (zlen ([0; c] ++ [0; 0] ++ data)) in Hn.
  assert (Hb' : Forall is_byte ([0; c] ++ [0; 0] ++ data)).
  { do 4 (apply Forall_cons in Hb as [? Hb]). simpl. repeat (apply Forall_cons; split; [done|]). done. }
  eexists. split; [apply ip_checksum_spec; [lia|rewrite Hn; done|]|].
  { rewrite Hn. change (zlen ([0; c] ++ [0; 0] ++ data)) with (zlen ([0; c] ++ to_le16 0 ++ data)). by rewrite slice_all. }
  set (sum := 65535 - _). change (set_checksum ([0; c] ++ to_le16 0 ++ data) sum) with ([0; c] ++ to_le16 sum ++ data).
  do 3 (split; [by rewrite ?Hn|]). split; [|done]. rewrite <-(app_nil_r ([0; c] ++ to_le16 sum ++ data)).
  apply filled_verifies; [done|done|done|lia|]. apply ip_checksum_spec; [lia|rewrite Hn; done|].
  rewrite Hn. change (zlen ([0; c] ++ [0; 0] ++ data)) with (zlen ([0; c] ++ to_le16 0 ++ data)). by rewrite slice_all.
Qed.

(** C14: An echo request for this host whose checksums are right is answered by one call of
    [ip_send] to the sender with a reply that has type 0, a right checksum, and the code,
    identifier, sequence number and data of the request. If the next hop is resolved and the
    reply fits a packet, exactly one frame goes out, to the address of the hop, which the
    sender takes for an ICMP packet of this host with that reply, and nothing else changes;
    a request of more than 1480 bytes is dropped without a trace. What happens to the reply
    of a hop that is not resolved is C13. *)
Theorem ping_answered room s frame p :
  Forall is_byte frame -> get16 frame 12 = ETHERTYPE_IP ->
  ip_parse LOCAL_IP frame = Some (Some p) -> protocol p = IP_PROTO_ICMP -> 8 <= pl_len p ->
  ip_checksum (slice frame (pl_off p) (pl_len p)) (pl_len p) = Some 0 -> byte_at (slice frame (pl_off p) (pl_len p)) 0 = 8 ->
  let request := slice frame (pl_off p) (pl_len p) in
  exists reply, zlen reply = pl_len p /\ byte_at reply 0 = 0 /\ byte_at reply 1 = byte_at request 1 /\
    ip_checksum reply (pl_len p) = Some 0 /\ drop 4 reply = drop 4 request /\
    eth_input room frame s = ('(_, s') ← ip_send (ip_src p) IP_PROTO_ICMP reply s; Some (tt, s')) /\
    (1480 < pl_len p -> eth_input room frame s = Some (tt, s)) /\
    (forall mac, pl_len p <= 1480 -> arp_lookup (ip_next_hop (ip_src p)) s = Some (Some mac, s) -> zlen mac = 6 ->
       exists d f, eth_input room frame s = Some (tt, s <| dev := d |>) /\ dev_wire d = dev_wire (dev s) ++ [f] /\
         take 6 f = mac /\ ip_parse (ip_src p) f = Some (Some (IpPacket IP_PROTO_ICMP LOCAL_IP 34 (pl_len p))) /\
         slice f 34 (pl_len p) = reply).
Proof.
  intros Hb Het Hp Hproto Hlen Hsum Htype req. destruct (ip_parse_bounds _ _ _ Hb Hp) as (B1 & B2 & B3 & B4).
  fold req in Hsum, Htype. assert (Hreq : zlen req = pl_len p) by (apply zlen_slice; lia).
  assert (Hbr : Forall is_byte req) by (unfold req, slice; by apply Forall_take, Forall_drop).
  destruct (echo_reply req (pl_len p) Hbr) as (sum & Hs & Hlr & R0 & R1 & Rs & Rd); [done|lia|].
  set (reply := set_checksum (set_checksum (set_type req 0) 0) sum) in *.
  assert (Hin : eth_input room frame s = ('(_, s') ← ip_send (ip_src p) IP_PROTO_ICMP reply s; Some (tt, s'))).
  { unfold eth_input. rewrite (proj2 (Z.ltb_ge _ _)) by (unfold ETH_HEADER; lia). rewrite Het.
    change (ETHERTYPE_IP =? ETHERTYPE_ARP) with false. change (ETHERTYPE_IP =? ETHERTYPE_IP) with true. cbv iota zeta.
    unfold ip_input, st_bind at 1, st_opt at 1. rewrite Hp, bind_Some_l. rewrite Hproto.
    change (IP_PROTO_ICMP =? IP_PROTO_ICMP) with true. cbv iota. fold req. unfold icmp_input. rewrite Hreq.
    rewrite (proj2 (Z.ltb_ge _ _)) by (unfold ICMP_HEADER; lia). unfold st_bind at 1, st_opt at 1. rewrite Hsum, bind_Some_l.
    rewrite Htype. change (negb (0 =? 0)) with false. change (8 =? 8) with true. cbv iota zeta.
    unfold st_bind at 1, st_opt. rewrite Hs, bind_Some_l. by fold reply. }
  exists reply. do 6 (split; [done|]). rewrite Hin. split.
  - intros Hbig. unfold ip_send. change (IP_MTU - IP_HEADER) with 1480. by rewrite (proj2 (Z.ltb_lt _ _)) by lia.
  - intros mac Hfit Harp Hmac.
    destruct (ip_send_spec s (ip_src p) IP_PROTO_ICMP reply mac) as (r & d & f & -> & W & T & P & S); try done; [lia|].
    rewrite Hlr in P, S. by exists d, f.
Qed.
End net.

(** ** A host on the local network *)

Definition demo_ip : Z := pack_ip 10 5 0 9.
Definition demo_mac : list Z := [2; 0; 0; 0; 0; 9].
Definition demo_card : rtl := Rtl (fun i => if i =? 0 then 2 else i) (fun _ _ => 170) 0 (fun _ => true) [].

Definition demo_net : net (D := rtl) :=
  let s := net_init demo_card in
  s <| arp_cache := zset (arp_cache s) 0 (ArpEntry demo_ip demo_mac ARP_RESOLVED 0 1) |>.

(** "hi", with identifier 0x1234 and sequence number 1. *)
Definition demo_ping : list Z :=
  [2; 0; 0; 0; 0; 1; 2; 0; 0; 0; 0; 9; 8; 0; 69; 0; 0; 30; 0; 7; 0; 0; 64; 1; 102; 194; 10; 5; 0; 9; 10; 5; 0; 4; 8; 0; 125; 97; 18; 52; 0; 1; 104; 105; 0; 0; 0; 0; 0; 0; 0; 0; 0; 0; 0; 0; 0; 0; 0; 0].

Example demo_pong :
  match eth_input (fun _ => true) demo_ping demo_net with
  | Some (_, s) => (fun f => slice f 0 14) <$> dev_wire (dev s) = [demo_mac ++ [2; 1; 2; 3; 4; 5; 8; 0]] /\
      (fun f => slice f 42 2) <$> dev_wire (dev s) = [[104; 105]]
  | None => False
  end.
Proof. vm_compute. done. Qed.

Lemma demo_ping_bytes : Forall is_byte demo_ping.
Proof. apply (bool_decide_unpack _). vm_compute. exact I. Qed.

Lemma demo_known : arp_lookup (ip_next_hop demo_ip) demo_net = Some (Some demo_mac, demo_net).
Proof. reflexivity. Qed.

Lemma ip_checksum_rfc1071_witness :
  ip_checksum demo_ping 60 = Some (rfc1071 (slice demo_ping 0 60)) /\ rfc1071 (slice demo_ping 14 20) = 0.
Proof. split; [apply (ip_checksum_rfc1071 demo_ping 60); [lia|vm_compute; done|apply demo_ping_bytes]|reflexivity]. Defined.

Lemma ip_roundtrip_witness :
  exists r d f, ip_send demo_ip IP_PROTO_UDP [1; 2; 3] demo_net = Some (r, demo_net <| dev := d |>) /\
    dev_wire d = dev_wire (dev demo_net) ++ [f] /\ take 6 f = demo_mac /\
    exists p, ip_parse demo_ip f = Some (Some p) /\ protocol p = IP_PROTO_UDP /\ ip_src p = LOCAL_IP /\
      slice f (pl_off p) (pl_len p) = [1; 2; 3].
Proof.
  apply (ip_roundtrip demo_net demo_ip IP_PROTO_UDP [1; 2; 3] demo_mac); [vm_compute; done|done|done|apply demo_known|done].
Defined.

Lemma ping_answered_witness :
  exists d f, eth_input (fun _ => true) demo_ping demo_net = Some (tt, demo_net <| dev := d |>) /\
    dev_wire d = [f] /\ take 6 f = demo_mac /\ byte_at f 34 = 0 /\ slice f 38 6 = [18; 52; 0; 1; 104; 105].
Proof.
  destruct (ping_answered (fun _ => true) demo_net demo_ping (IpPacket IP_PROTO_ICMP demo_ip 34 10))
    as (reply & Hl & R0 & _ & _ & Rd & _ & _ & Hf); try reflexivity; [apply demo_ping_bytes|cbn [pl_len]; lia|].
  destruct (Hf demo_mac) as (d & f & E & W & T & _ & S); [cbn [pl_len]; lia|apply demo_known|reflexivity|].
  exists d, f. cbn [pl_len pl_off] in *. split; [exact E|]. split; [exact W|]. split; [exact T|]. rewrite <-S in R0, Rd.
  split; [unfold byte_at in R0; rewrite zget_slice in R0 by lia; exact R0|].
  unfold slice in Rd |- *. rewrite skipn_firstn_comm, drop_drop in Rd. exact Rd.
Defined.
