(* ===== verification/NetArp.v ===== *)
(** * The ARP layer over time (usr/device/net/ethernet.c)

    The layer is driven by packets to send, frames that arrive, and the passing of time. In
    every run an address has at most one entry, a packet waits only for an address that is
    being asked for, and no access leaves its array. A packet that waits stays in the queue
    until the address is known, and is then sent there, or until its entry goes. *)

From S2P Require Import Prelude Net NetIpSpec Rtl.
From coqutil Require Import Datatypes.RecordSetters.
Import TriangleBracketNotations.

Local Open Scope Z_scope.
Local Open Scope monad_scope.

#[local] Arguments constant {E} newValue / _.

Section arp.
Context {D : Type} `{NetDev D}.
Abbreviation net := (net (D := D)).
Implicit Types (s : net).

(** ** Steps *)

Inductive arp_step :=
| Transmit (hop etype : Z) (payload : list Z)
| Receive (frame : list Z)
| Retry
| Advance (tick : Z).

(** The program sends no packet longer than a frame holds. *)
Definition sendable (st : arp_step) : Prop :=
  match st with
  | Transmit _ _ payload => zlen payload <= ETH_MTU
  | _ => True
  end.

Definition arp_do (st : arp_step) : ST net unit :=
  match st with
  | Transmit hop etype payload => let! _ := net_tx hop etype payload in st_ret tt
  | Receive frame => arp_input frame
  | Retry => arp_tick
  | Advance tick => upd (fun s => s <| get_tick := tick |>)
  end.

Fixpoint arp_run (l : list arp_step) : ST net unit :=
  match l with
  | [] => st_ret tt
  | st :: l => let! _ := arp_do st in arp_run l
  end.

(** ** The cache and the queue *)

Definition live (e : arp_entry_t) : Prop := a_state e <> ARP_FREE.

Definition pkt_ok (q : pending_pkt_t) : Prop := zlen (p_data q) = ETH_MTU /\ 0 <= p_len q <= ETH_MTU.

Definition entry_of (hop : Z) (e : arp_entry_t) : Prop := live e /\ a_ip e = hop.

(** Every packet waits for an address that is being asked for, those for [but] excepted. *)
Record arp_inv (but : option Z) (s : net) : Prop := ArpInv {
  ai_cache : zlen (arp_cache s) = ARP_CACHE_SIZE;
  ai_queue : zlen (arp_queue s) = ARP_QUEUE_SIZE;
  ai_next : 0 <= arp_next s < ARP_CACHE_SIZE;
  ai_mac : Forall (fun e => zlen (a_mac e) = 6) (arp_cache s);
  ai_pkt : Forall pkt_ok (arp_queue s);
  ai_one i j e1 e2 : zget (arp_cache s) i = Some e1 -> zget (arp_cache s) j = Some e2 ->
    live e1 -> live e2 -> a_ip e1 = a_ip e2 -> i = j;
  ai_wait q : q ∈ arp_queue s -> used q = true -> Some (next_hop q) <> but ->
    exists e, e ∈ arp_cache s /\ a_state e = ARP_PENDING /\ a_ip e = next_hop q }.

(** The packets that wait for an address: type and bytes, in the order of the queue. *)
Definition packet (q : pending_pkt_t) : Z * list Z := (ethertype q, slice (p_data q) 0 (p_len q)).
Definition waiting (s : net) (hop : Z) : list (Z * list Z) :=
  omap (fun q => if waits_for hop q then Some (packet q) else None) (arp_queue s).

Definition no_entry (s : net) (hop : Z) : Prop := forall e, e ∈ arp_cache s -> ~ entry_of hop e.

Definition frame_to (s : net) (mac : list Z) (p : Z * list Z) : list Z :=
  padded (eth_frame mac (dev_mac (dev s)) (fst p) (snd p)).

(** ** Lemmas *)

Lemma find_index_spec {A} (f : A -> bool) l : forall i,
  (find_index f i l = -1 /\ Forall (fun x => f x = false) l) \/
  (exists x, i <= find_index f i l < i + zlen l /\ zget l (find_index f i l - i) = Some x /\ f x = true).
Proof.
  induction l as [|x l IH]; intros i; simpl; [by left|]. rewrite zlen_cons. pose proof (zlen_nonneg l).
  destruct (f x) eqn:E.
  - right. exists x. rewrite Z.sub_diag. split; [lia|done].
  - destruct (IH (i + 1)) as [[-> Hf]|(y & Hr & Hy & Hf)]; [left; by split; [|constructor]|].
    right. exists y. split; [lia|]. split; [|done]. replace (_ - i) with (find_index f (i + 1) l - (i + 1) + 1) by lia.
    by rewrite zget_cons_S by lia.
Qed.

Lemma entry_is_spec ip e : entry_is ip e = true <-> entry_of ip e.
Proof. unfold entry_is, entry_of, live. case_bool_decide; rewrite andb_true_iff, Z.eqb_eq; naive_solver. Qed.

Lemma waits_for_spec hop q : waits_for hop q = true <-> used q = true /\ next_hop q = hop.
Proof. unfold waits_for. by rewrite andb_true_iff, Z.eqb_eq. Qed.

Lemma bind_ok {A B} (m : ST net A) (k : A -> ST net B) s a s' : m s = Some (a, s') -> st_bind m k s = k a s'.
Proof. unfold st_bind. by intros ->. Qed.

Lemma get_entry_ok s i e : zget (arp_cache s) i = Some e -> get_entry i s = Some (e, s).
Proof. unfold get_entry. by intros ->. Qed.

(** The entry of an address. *)
Lemma arp_find_spec s ip :
  (arp_find ip s = Some (-1, s) /\ no_entry s ip) \/
  (exists i e, arp_find ip s = Some (i, s) /\ 0 <= i /\ zget (arp_cache s) i = Some e /\ entry_of ip e).
Proof.
  unfold arp_find, st_get. destruct (find_index_spec (entry_is ip) (arp_cache s) 0) as [[-> Hf]|(e & Hr & He & Hf)].
  - left. split; [done|]. intros e He Hof. rewrite Forall_forall in Hf. apply Hf in He. apply entry_is_spec in Hof. congruence.
  - right. rewrite Z.sub_0_r in He. eexists _, e. split; [done|]. split; [lia|]. split; [done|]. by apply entry_is_spec.
Qed.

Lemma arp_lookup_spec but s ip : arp_inv but s ->
  (exists mac, arp_lookup ip s = Some (Some mac, s) /\ zlen mac = 6 /\
     exists e, e ∈ arp_cache s /\ entry_of ip e /\ a_state e = ARP_RESOLVED /\ a_mac e = mac) \/
  (arp_lookup ip s = Some (None, s) /\ forall e, e ∈ arp_cache s -> entry_of ip e -> a_state e = ARP_PENDING).
Proof.
  intros Hi. unfold arp_lookup. destruct (arp_find_spec s ip) as [[Hf Hno]|(i & e & Hf & Hr & He & Hof)];
    rewrite (bind_ok _ _ _ _ _ Hf).
  - right. split; [done|]. intros e He Hof. by destruct (Hno e He).
  - rewrite (proj2 (Z.ltb_ge _ _)) by lia. rewrite (bind_ok _ _ _ _ _ (get_entry_ok _ _ _ He)).
    unfold st_ret. assert (Hel := zget_elem _ _ _ He). case_bool_decide as Hres.
    + left. exists (a_mac e). split; [done|]. split; [|by exists e]. pose proof (ai_mac _ _ Hi) as Hm.
      rewrite Forall_forall in Hm. by apply Hm.
    + right. split; [done|]. intros e' He' Hof'. apply elem_of_zget in He' as [j Hj].
      assert (j = i) as -> by (destruct Hof, Hof'; apply (ai_one _ _ Hi j i e' e); congruence || done).
      assert (e' = e) as -> by congruence. destruct Hof as [Hl _]. unfold live in Hl. by destruct (a_state e).
Qed.

(** ** Changes of the cache and the queue *)

Definition clear (hop : Z) (q : pending_pkt_t) : pending_pkt_t := if waits_for hop q then q <| used := false |> else q.
Definition dropped (hop : Z) (s : net) : net := s <| arp_queue := clear hop <$> arp_queue s |>.
Definition put (i : Z) (e : arp_entry_t) (s : net) : net := s <| arp_cache := zset (arp_cache s) i e |>.
Definition with_dev (d : D) (s : net) : net := s <| dev := d |>.

Lemma inv_dev but s d : arp_inv but s -> arp_inv but (with_dev d s).
Proof. intros []. by constructor. Qed.

Lemma inv_tick but s now : arp_inv but s -> arp_inv but (s <| get_tick := now |>).
Proof. intros []. by constructor. Qed.

Lemma clear_used hop q : used (clear hop q) = true -> clear hop q = q /\ (used q = true /\ next_hop q <> hop).
Proof.
  unfold clear. destruct (waits_for hop q) eqn:E; [done|]. intros Hu. split; [done|]. split; [done|]. intros Hn.
  assert (waits_for hop q = true) by by apply waits_for_spec. congruence.
Qed.

Lemma pkt_ok_clear hop q : pkt_ok q -> pkt_ok (clear hop q).
Proof. unfold clear. by destruct (waits_for hop q). Qed.

(** What was waiting for the address is gone; nothing waits for it then. *)
Lemma inv_dropped but hop s : arp_inv but s -> arp_inv but (dropped hop s).
Proof.
  intros []. constructor; try done; cbn.
  - unfold zlen in *. by rewrite length_fmap.
  - apply Forall_fmap. eapply Forall_impl; [done|]. apply pkt_ok_clear.
  - intros q Hq Hu Hb. apply list_elem_of_fmap in Hq as (q0 & -> & Hq). destruct (clear_used _ _ Hu) as [E [Hu0 _]].
    rewrite E in *. eauto.
Qed.

Lemma inv_dropped_all hop s : arp_inv (Some hop) s -> arp_inv None (dropped hop s).
Proof.
  intros Hi. destruct (inv_dropped _ hop _ Hi). constructor; try done. intros q Hq Hu _. apply ai_wait0; [done|done|].
  cbn in Hq. apply list_elem_of_fmap in Hq as (q0 & -> & Hq). destruct (clear_used _ _ Hu) as [E [Hu0 Hn]]. rewrite E. congruence.
Qed.

Lemma waiting_dropped hop hop' s : waiting (dropped hop s) hop' = if decide (hop' = hop) then [] else waiting s hop'.
Proof.
  unfold waiting, dropped. cbn. induction (arp_queue s) as [|q l IH]; [by case_decide|]. rewrite fmap_cons. cbn [omap list_omap].
  change (list_omap ?f ?l) with (omap f l). rewrite IH. unfold clear. destruct (waits_for hop q) eqn:E.
  - apply waits_for_spec in E as [Hu Hn]. change (waits_for hop' (q <| used := false |>)) with false. cbv iota.
    case_decide as Hd; [done|]. destruct (waits_for hop' q) eqn:E'; [|done]. apply waits_for_spec in E' as [_ E']. congruence.
  - case_decide as Hd; [|done]. subst. by rewrite E.
Qed.

(** An entry replaces the one in its slot. *)
Lemma inv_put but but' i old e s :
  arp_inv but s -> zget (arp_cache s) i = Some old -> zlen (a_mac e) = 6 ->
  (live e -> forall j e', j <> i -> zget (arp_cache s) j = Some e' -> ~ entry_of (a_ip e) e') ->
  (forall q, q ∈ arp_queue s -> used q = true -> Some (next_hop q) <> but' ->
    Some (next_hop q) <> but /\
    (next_hop q = a_ip old -> a_state old = ARP_PENDING -> a_state e = ARP_PENDING /\ a_ip e = a_ip old)) ->
  arp_inv but' (put i e s).
Proof.
  intros Hi Ho Hm Hone Hw. pose proof (zget_Some_range _ _ _ Ho) as Hr. destruct Hi. constructor; try done; cbn.
  - by rewrite zlen_zset.
  - unfold zset. rewrite (proj2 (Z.leb_le _ _)) by lia. by apply Forall_insert.
  - intros a b e1 e2. rewrite !zget_zset. repeat case_decide; intros E1 E2 L1 L2 Hip; simplify_eq; try lia; try congruence; eauto.
    + destruct (decide (b = i)); [lia|]. exfalso. apply (Hone L1 b e2); [done|done|by split].
    + destruct (decide (a = i)); [lia|]. exfalso. apply (Hone L2 a e1); [done|done|by split].
  - intros q Hq Hu Hb. destruct (Hw q Hq Hu Hb) as [Hb' Hold]. destruct (ai_wait0 q Hq Hu Hb') as (e' & He' & Hp & Hip).
    apply elem_of_zget in He' as [j Hj]. destruct (decide (j = i)) as [->|Hne].
    + assert (e' = old) as -> by congruence. destruct Hold as [? ?]; [done|done|]. exists e. split; [|split; congruence].
      apply (zget_elem _ i). by rewrite zget_zset_eq.
    + exists e'. split; [|done]. apply (zget_elem _ j). by rewrite zget_zset_ne.
Qed.

Lemma waiting_put i e s hop : waiting (put i e s) hop = waiting s hop.
Proof. done. Qed.

Lemma put_no_entry i e s hop : hop <> a_ip e -> (forall j e', j <> i -> zget (arp_cache s) j = Some e' -> ~ entry_of hop e') ->
  no_entry (put i e s) hop.
Proof.
  intros Hip Hno e' He' [Hl Hh]. apply elem_of_zget in He' as [j Hj]. cbn in Hj. rewrite zget_zset in Hj. case_decide; [congruence|].
  destruct (decide (j = i)) as [->|]; [|by apply (Hno j e')].
  pose proof (zget_Some_range _ _ _ Hj). lia.
Qed.

(** ** The operations *)

Lemma send_ok s dest etype payload : zlen dest = 6 -> zlen payload <= ETH_MTU ->
  exists r d, eth_send dest etype payload s = Some (r, with_dev d s) /\ dev_mac d = dev_mac (dev s) /\
    dev_wire d = dev_wire (dev s) ++ [frame_to s dest (etype, payload)].
Proof. intros Hd Hp. destruct (eth_send_spec s dest etype payload Hd Hp) as (r & d & E & W & M). by exists r, d. Qed.

Lemma arp_packet_len op sha spa tha tpa : zlen sha = 6 -> zlen tha = 6 -> zlen (arp_packet op sha spa tha tpa) = ARP_SIZE.
Proof. intros H1 H2. unfold arp_packet. rewrite !zlen_app, H1, H2. done. Qed.

Lemma request_ok s ip : exists d w, arp_request ip s = Some (tt, with_dev d s) /\ dev_mac d = dev_mac (dev s) /\
  dev_wire d = dev_wire (dev s) ++ w.
Proof.
  unfold arp_request. destruct (send_ok s (replicate 6 255) ETHERTYPE_ARP
    (arp_packet 1 (dev_mac (dev s)) LOCAL_IP (replicate 6 0) ip)) as (r & d & E & M & W); [done| |].
  { rewrite arp_packet_len by (done || apply dev_mac_len). done. }
  exists d, [frame_to s (replicate 6 255) (ETHERTYPE_ARP, arp_packet 1 (dev_mac (dev s)) LOCAL_IP (replicate 6 0) ip)].
  by rewrite (bind_ok _ _ _ _ _ E).
Qed.

(** A slot whose entry may be replaced, and what became of the packets. *)
Definition spare (s : net) (old : arp_entry_t) : Prop := a_state old = ARP_FREE \/ waiting s (a_ip old) = [].

Lemma alloc_ok but s : arp_inv but s ->
  exists i old s', arp_alloc_slot s = Some (i, s') /\ arp_inv but s' /\ zget (arp_cache s') i = Some old /\
    arp_cache s' = arp_cache s /\ dev s' = dev s /\ get_tick s' = get_tick s /\ spare s' old /\
    (s' = s \/ live old /\ s' = dropped (a_ip old) (s <| arp_next := Z.rem (i + 1) ARP_CACHE_SIZE |>)).
Proof.
  intros Hi. unfold arp_alloc_slot.
  destruct (find_index_spec (fun e => bool_decide (a_state e = ARP_FREE)) (arp_cache s) 0) as [[-> Hf]|(e & Hr & He & Hfree)].
  - change (0 <=? -1) with false. cbv iota zeta. set (s1 := s <| arp_next := Z.rem (arp_next s + 1) ARP_CACHE_SIZE |>).
    pose proof (ai_next _ _ Hi) as Hn. destruct (zget_is_Some (arp_cache s) (arp_next s)) as [old Ho]; [by rewrite (ai_cache _ _ Hi)|].
    exists (arp_next s), old, (dropped (a_ip old) s1). split.
    { rewrite (bind_ok _ _ _ tt s1) by done. rewrite (bind_ok _ _ _ old s1) by (by apply get_entry_ok). done. }
    split. { apply inv_dropped. destruct Hi. constructor; try done. cbn. unfold ARP_CACHE_SIZE in *.
      rewrite Z.rem_mod_nonneg by lia. by apply Z.mod_pos_bound. }
    do 4 (split; [done|]). split; [right; rewrite waiting_dropped; by rewrite decide_True|]. right. split; [|done].
    rewrite Forall_forall in Hf. apply zget_elem, Hf in Ho. unfold live. by case_bool_decide.
  - rewrite Z.sub_0_r in He. rewrite (proj2 (Z.leb_le _ _)) by lia. eexists _, e, s. split; [done|].
    split; [done|]. split; [done|]. do 3 (split; [done|]). split; [left; by case_bool_decide|by left].
Qed.

Lemma waiting_nil s hop q : waiting s hop = [] -> q ∈ arp_queue s -> used q = true -> next_hop q <> hop.
Proof.
  intros Hw Hq Hu Hn. assert (Hin : packet q ∈ waiting s hop); [|rewrite Hw in Hin; by apply not_elem_of_nil in Hin].
  unfold waiting. apply list_elem_of_omap. exists q. split; [done|]. rewrite (proj2 (waits_for_spec hop q)) by done. done.
Qed.

(** An entry for an address that has none goes into a spare slot. *)
Lemma inv_fill but but' i old e s : arp_inv but s -> zget (arp_cache s) i = Some old -> spare s old -> zlen (a_mac e) = 6 ->
  no_entry s (a_ip e) -> (forall hop, Some hop <> but' -> Some hop <> but) -> arp_inv but' (put i e s).
Proof.
  intros Hi Ho Hsp Hm Hno Hb. apply (inv_put but but' i old); try done.
  - intros _ j e' _ He'. eapply Hno, zget_elem, He'.
  - intros q Hq Hu Hq'. split; [by apply Hb|]. intros Hip Hp. destruct Hsp as [Hf|Hw]; [congruence|].
    by destruct (waiting_nil _ _ _ Hw Hq Hu).
Qed.

(** ** Draining the queue *)

Definition with_queue (s : net) (d : D) (l : list pending_pkt_t) : net := with_dev d s <| arp_queue := l |>.

Definition ready (hop : Z) (l : list pending_pkt_t) : list (Z * list Z) :=
  omap (fun q => if waits_for hop q then Some (packet q) else None) l.

Lemma put_pkt_mid s d l1 q l2 q' : put_pkt (zlen l1) q' (with_queue s d (l1 ++ q :: l2)) = Some (tt, with_queue s d ((l1 ++ [q']) ++ l2)).
Proof.
  unfold put_pkt, upd, with_queue. cbn. do 3 f_equal. unfold zset, zlen. rewrite (proj2 (Z.leb_le _ _)), Nat2Z.id by lia.
  rewrite insert_app_r_alt, Nat.sub_diag by lia. by rewrite <-app_assoc.
Qed.

Lemma get_pkt_mid s d l1 q l2 : get_pkt (zlen l1) (with_queue s d (l1 ++ q :: l2)) = Some (q, with_queue s d (l1 ++ q :: l2)).
Proof. unfold get_pkt. cbn. rewrite zget_app_r by lia. by rewrite Z.sub_diag. Qed.

Lemma flush_loop_ok s mac hop l2 : zlen mac = 6 -> Forall pkt_ok l2 -> forall l1 d, dev_mac d = dev_mac (dev s) ->
  exists d', arp_flush_loop (length l2) (zlen l1) mac hop (with_queue s d (l1 ++ l2)) = Some (tt, with_queue s d' (l1 ++ (clear hop <$> l2))) /\
    dev_mac d' = dev_mac (dev s) /\ dev_wire d' = dev_wire d ++ (frame_to s mac <$> ready hop l2).
Proof.
  intros Hm. induction 1 as [|q l2 Hq Hl2 IH]; intros l1 d Hd.
  - exists d. simpl. by rewrite !app_nil_r.
  - cbn [arp_flush_loop length]. rewrite (bind_ok _ _ _ _ _ (get_pkt_mid s d l1 q l2)). rewrite fmap_cons. unfold ready. cbn [omap list_omap].
    change (list_omap ?f ?l) with (omap f l). fold (ready hop l2). unfold clear at 1. destruct (waits_for hop q).
    + destruct Hq as [Hq1 Hq2]. destruct (send_ok (with_queue s d (l1 ++ q :: l2)) mac (ethertype q) (slice (p_data q) 0 (p_len q)))
        as (r & d1 & E & M & W); [done|rewrite zlen_slice by lia; lia|].
      change (dev (with_queue s d _)) with d in M, W.
      destruct (IH (l1 ++ [q <| used := false |>]) d1) as (d' & E' & M' & W'); [congruence|].
      exists d'. split; [|split; [done|]].
      * rewrite (bind_ok _ _ _ tt (with_queue s d1 ((l1 ++ [q <| used := false |>]) ++ l2))).
        -- rewrite zlen_app in E'. rewrite <-(app_assoc l1 _ (clear hop <$> l2)) in E'. exact E'.
        -- rewrite (bind_ok _ _ _ _ _ E). apply (put_pkt_mid s d1).
      * rewrite W', W, <-app_assoc. f_equal. cbn [app fmap list_fmap]. f_equal. unfold frame_to. cbn [dev with_queue].
        change (dev (with_queue s d (l1 ++ q :: l2))) with d. by rewrite Hd.
    + rewrite (bind_ok _ _ _ tt (with_queue s d ((l1 ++ [q]) ++ l2))) by (by rewrite <-app_assoc).
      destruct (IH (l1 ++ [q]) d Hd) as (d' & E' & M' & W'). exists d'. split; [|by split].
      rewrite zlen_app in E'. rewrite <-(app_assoc l1 _ (clear hop <$> l2)) in E'. exact E'.
Qed.

(** ** A step of the layer *)

(** The queue of an address is kept, or is empty because its entry has gone. *)
Definition kept (s s' : net) (hop : Z) : Prop := waiting s' hop = waiting s hop \/ waiting s' hop = [] /\ no_entry s' hop.

(** The card has sent [w]. *)
Definition sent (s s' : net) (w : list (list Z)) : Prop :=
  dev_mac (dev s') = dev_mac (dev s) /\ dev_wire (dev s') = dev_wire (dev s) ++ w.

Lemma sent_refl s s' : dev s' = dev s -> sent s s' [].
Proof. intros E. unfold sent. by rewrite E, app_nil_r. Qed.

Lemma sent_trans s1 s2 s3 w1 w2 : sent s1 s2 w1 -> sent s2 s3 w2 -> sent s1 s3 (w1 ++ w2).
Proof. intros [M1 W1] [M2 W2]. split; [congruence|]. by rewrite W2, W1, app_assoc. Qed.

(** Once its address is being asked for, every packet waits for something. *)
Lemma inv_asked hop s e : arp_inv (Some hop) s -> e ∈ arp_cache s -> a_state e = ARP_PENDING -> a_ip e = hop -> arp_inv None s.
Proof.
  intros [] He Hp Hip. constructor; try done. intros q Hq Hu _. destruct (decide (next_hop q = hop)) as [->|]; [by exists e|].
  apply ai_wait0; [done|done|congruence].
Qed.

(** The entry [e] in the slot that was found for it. *)
Lemma alloc_fill but but' s hop :
  arp_inv but s -> no_entry s hop -> (forall h, Some h <> but' -> Some h <> but) ->
  exists i old s1, arp_alloc_slot s = Some (i, s1) /\ get_entry i s1 = Some (old, s1) /\ zlen (a_mac old) = 6 /\ sent s s1 [] /\
    get_tick s1 = get_tick s /\ waiting s1 hop = waiting s hop /\
    forall e, a_ip e = hop -> zlen (a_mac e) = 6 ->
      arp_inv but' (put i e s1) /\ e ∈ arp_cache (put i e s1) /\ forall h, kept s (put i e s1) h.
Proof.
  intros Hi Hno Hb. destruct (alloc_ok _ _ Hi) as (i & old & s1 & E & Hi1 & Ho & Hc & Hd & Ht & Hsp & Hs1).
  exists i, old, s1. split; [done|]. split; [by apply get_entry_ok|].
  assert (Hlive : live old -> a_ip old <> hop).
  { intros Hl Hip. apply (Hno old); [rewrite <-Hc; by eapply zget_elem|by split]. }
  split. { pose proof (ai_mac _ _ Hi1) as Hm. rewrite Forall_forall in Hm. by eapply Hm, zget_elem. }
  split; [by apply sent_refl|]. split; [done|].
  split. { destruct Hs1 as [->|[Hl ->]]; [done|]. rewrite waiting_dropped, decide_False by (apply not_eq_sym, Hlive, Hl). done. }
  intros e Hip Hm. split.
  { apply (inv_fill but but' i old); try done. intros e' He'. rewrite Hc in He'. rewrite Hip. by apply Hno. }
  split. { apply (zget_elem _ i). cbn. apply zget_zset_eq. by eapply zget_Some_range. }
  intros h. unfold kept. rewrite waiting_put. destruct Hs1 as [->|[Hl ->]]; [by left|]. rewrite waiting_dropped.
  case_decide as Hh; [|by left]. subst h. right. split; [done|]. apply put_no_entry; [rewrite Hip; by apply Hlive|].
  intros j e' Hj He' [Hl' Hip']. apply Hj. by apply (ai_one _ _ Hi1 j i e' old).
Qed.

Lemma resolve_ok s hop : arp_inv (Some hop) s -> (forall e, e ∈ arp_cache s -> entry_of hop e -> a_state e = ARP_PENDING) ->
  exists s' w, arp_resolve hop s = Some (tt, s') /\ arp_inv None s' /\ sent s s' w /\
    (exists e, e ∈ arp_cache s' /\ a_state e = ARP_PENDING /\ a_ip e = hop) /\
    waiting s' hop = waiting s hop /\ forall h, kept s s' h.
Proof.
  intros Hi Hp. unfold arp_resolve. destruct (arp_find_spec s hop) as [[Hf Hno]|(i & e & Hf & Hr & He & Hof)]; rewrite (bind_ok _ _ _ _ _ Hf).
  - change (0 <=? -1) with false. cbv iota.
    destruct (alloc_fill _ (Some hop) _ _ Hi Hno) as (i & old & s1 & E & G & Hm & S1 & T & W1 & Hfill); [done|].
    rewrite (bind_ok _ _ _ _ _ E), (bind_ok _ _ _ _ _ G). rewrite (bind_ok _ _ _ (get_tick s1) s1) by done.
    set (e := old <| a_ip := hop |> <| a_state := ARP_PENDING |> <| tries := 1 |> <| last_req := get_tick s1 |>).
    destruct (Hfill e eq_refl Hm) as (Hi2 & He & Hk). rewrite (bind_ok _ _ _ tt (put i e s1)) by done.
    destruct (request_ok (put i e s1) hop) as (d & w & R & Rm & Rw). exists (with_dev d (put i e s1)), w. split; [done|].
    split; [by apply inv_dev, (inv_asked hop _ e)|]. split; [by apply (sent_trans _ _ _ [] w S1)|]. split; [by exists e|]. by split.
  - rewrite (proj2 (Z.leb_le _ _)) by lia. apply zget_elem in He. specialize (Hp e He Hof). destruct Hof as [_ Hip].
    exists s, []. split; [done|]. split; [by apply (inv_asked hop _ e)|]. split; [by apply sent_refl|].
    split; [by exists e|]. split; [done|]. intros h. by left.
Qed.

(** ** Waiting *)

Lemma zget_split {A} (l : list A) i x : zget l i = Some x ->
  exists l1 l2, l = l1 ++ x :: l2 /\ forall y, zset l i y = l1 ++ y :: l2.
Proof.
  unfold zget, zset. destruct (0 <=? i); [|done]. intros Hx. exists (take (Z.to_nat i) l), (drop (S (Z.to_nat i)) l).
  assert (Hl : l = take (Z.to_nat i) l ++ x :: drop (S (Z.to_nat i)) l) by (symmetry; by apply take_drop_middle).
  split; [done|]. intros y. apply insert_take_drop. by eapply lookup_lt_Some.
Qed.

Lemma enqueue_ok s hop etype data : arp_inv None s -> zlen data <= ETH_MTU ->
  exists s1, arp_enqueue hop etype data s = Some (tt, s1) /\ arp_inv (Some hop) s1 /\ sent s s1 [] /\ arp_cache s1 = arp_cache s /\
    (forall h, h <> hop -> waiting s1 h = waiting s h) /\
    (waiting s1 hop ≡ₚ (etype, data) :: waiting s hop \/
     Forall (fun q => used q = true) (arp_queue s) /\ waiting s1 hop = waiting s hop).
Proof.
  intros Hi Hd. assert (Hweak : arp_inv (Some hop) s) by (destruct Hi; constructor; try done; intros q Hq Hu _; by apply ai_wait0).
  unfold arp_enqueue. destruct (find_index_spec (fun q => negb (used q)) (arp_queue s) 0) as [[-> Hf]|(q & Hr & Hq & Hu)].
  - change (-1 <? 0) with true. cbv iota zeta. exists s. do 2 (split; [done|]). split; [by apply sent_refl|]. do 2 (split; [done|]). right. split; [|done].
    eapply Forall_impl; [exact Hf|]. intros q Hq. by apply negb_false_iff.
  - set (i := find_index _ 0 _) in *. rewrite Z.sub_0_r in Hq. rewrite (proj2 (Z.ltb_ge _ _)) by lia.
    rewrite (bind_ok _ _ _ q s) by (unfold get_pkt; by rewrite Hq).
    rewrite (bind_ok _ _ _ tt s) by (unfold st_guard; by rewrite (proj2 (Z.leb_le _ _))).
    set (pkt := PendingPkt true hop etype (zlen data) (splice (p_data q) 0 data)).
    pose proof (ai_pkt _ _ Hi) as Hok. rewrite Forall_forall in Hok. assert (Hq0 : pkt_ok q) by (eapply Hok, zget_elem, Hq).
    destruct Hq0 as [Hq1 Hq2]. pose proof (zlen_nonneg data). apply negb_true_iff in Hu.
    assert (Hpkt : packet pkt = (etype, data)).
    { unfold packet, pkt. cbn. by rewrite slice_splice_same by lia. }
    destruct (zget_split _ _ _ Hq) as (l1 & l2 & Hl & Hset).
    exists (s <| arp_queue := zset (arp_queue s) i pkt |>). split; [done|]. split; [|split; [by apply sent_refl|split; [done|]]].
    { destruct Hweak. constructor; try done; cbn; [by rewrite zlen_zset| |].
      - rewrite Hset. rewrite Hl in ai_pkt0. apply Forall_app in ai_pkt0 as [P1 P2]. apply Forall_cons in P2 as [_ P2].
        apply Forall_app. split; [done|]. apply Forall_cons. split; [|done]. split; [|cbn; lia]. cbn. by rewrite zlen_splice by lia.
      - rewrite Hset. intros q' Hq' Hu' Hb. rewrite elem_of_app, elem_of_cons in Hq'. apply ai_wait0; [|done|done].
        rewrite Hl, elem_of_app, elem_of_cons. destruct Hq' as [?|[->|?]]; [by left| |by right; right]. by destruct Hb. }
    unfold waiting. cbn. rewrite Hset. rewrite Hl. setoid_rewrite omap_app. cbn [omap list_omap].
    change (list_omap ?f ?l) with (omap f l).
    assert (Hno : forall h, waits_for h q = false) by (intros h; unfold waits_for; by rewrite Hu).
    split.
    + intros h Hh. rewrite Hno. destruct (waits_for h pkt) eqn:E; [|done]. apply waits_for_spec in E as [_ E]. by destruct Hh.
    + left. rewrite Hno. rewrite (proj2 (waits_for_spec hop pkt)) by done. rewrite Hpkt. symmetry. apply Permutation_middle.
Qed.

(** ** Transmitting *)

Lemma net_tx_ok s hop etype payload : arp_inv None s -> zlen payload <= ETH_MTU ->
  exists r s' w, net_tx hop etype payload s = Some (r, s') /\ arp_inv None s' /\ sent s s' w /\
    (forall h, h <> hop -> kept s s' h) /\
    ((exists e, e ∈ arp_cache s /\ entry_of hop e /\ a_state e = ARP_RESOLVED /\ w = [frame_to s (a_mac e) (etype, payload)]) /\
        waiting s' hop = waiting s hop \/
     (exists e, e ∈ arp_cache s' /\ a_state e = ARP_PENDING /\ a_ip e = hop) /\
        (waiting s' hop ≡ₚ (etype, payload) :: waiting s hop \/
         Forall (fun q => used q = true) (arp_queue s) /\ waiting s' hop = waiting s hop)).
Proof.
  intros Hi Hp. unfold net_tx. destruct (arp_lookup_spec _ _ hop Hi) as [(mac & E & Hm & e & He & Hof & Hres & <-)|[E Hpend]];
    rewrite (bind_ok _ _ _ _ _ E).
  - destruct (send_ok s (a_mac e) etype payload Hm Hp) as (r & d & E' & M & W). eexists r, _, _. split; [done|].
    split; [by apply inv_dev|]. split; [by split|]. split; [intros h _; by left|]. left. split; [by exists e|done].
  - destruct (enqueue_ok s hop etype payload Hi Hp) as (s1 & E1 & Hi1 & S1 & Hc & Hoth & Hw). rewrite (bind_ok _ _ _ _ _ E1).
    destruct (resolve_ok s1 hop) as (s' & w & E2 & Hi2 & S2 & Hpe & Hw2 & Hk); [done|by rewrite Hc|].
    rewrite (bind_ok _ _ _ _ _ E2). exists 0, s', w. split; [done|]. split; [done|]. split; [by apply (sent_trans _ _ _ [] w S1)|].
    split; [|right; split; [done|by rewrite Hw2]]. intros h Hh. unfold kept. rewrite <-(Hoth h Hh). apply Hk.
Qed.

(** ** Learning an address *)

Lemma flush_ok s hop mac : arp_inv (Some hop) s -> (exists e, e ∈ arp_cache s /\ entry_of hop e /\ a_state e = ARP_RESOLVED /\ a_mac e = mac) ->
  exists d, arp_flush hop s = Some (tt, dropped hop (with_dev d s)) /\ arp_inv None (dropped hop (with_dev d s)) /\
    sent s (dropped hop (with_dev d s)) (frame_to s mac <$> waiting s hop).
Proof.
  intros Hi (e & He & Hof & Hres & Hmac). unfold arp_flush.
  destruct (arp_lookup_spec _ _ hop Hi) as [(mac' & E & Hm & e' & He' & Hof' & _ & Hmac')|[_ Hpend]].
  2: { rewrite (Hpend e He Hof) in Hres. done. }
  assert (mac' = mac) as ->.
  { apply elem_of_zget in He as [i Hx], He' as [j Hy]. destruct Hof as [L1 I1], Hof' as [L2 I2].
    assert (i = j) as -> by (apply (ai_one _ _ Hi i j e e'); congruence || done). congruence. }
  rewrite (bind_ok _ _ _ _ _ E).
  destruct (flush_loop_ok s mac hop (arp_queue s) Hm (ai_pkt _ _ Hi) [] (dev s) eq_refl) as (d & F & M & W).
  exists d. split; [|split; [by apply inv_dropped_all, inv_dev|by split]].
  replace (Z.to_nat ARP_QUEUE_SIZE) with (length (arp_queue s)) by (pose proof (ai_queue _ _ Hi); unfold zlen in *; lia).
  destruct s. exact F.
Qed.

Lemma update_ok s ip mac : arp_inv None s -> zlen mac = 6 ->
  exists s1, arp_update_cache ip mac s = Some (tt, s1) /\ arp_inv (Some ip) s1 /\ sent s s1 [] /\ waiting s1 ip = waiting s ip /\
    (exists e, e ∈ arp_cache s1 /\ entry_of ip e /\ a_state e = ARP_RESOLVED /\ a_mac e = mac) /\ forall h, kept s s1 h.
Proof.
  intros Hi Hm. unfold arp_update_cache. destruct (arp_find_spec s ip) as [[Hf Hno]|(i & old & Hf & Hr & Ho & Hof)]; rewrite (bind_ok _ _ _ _ _ Hf).
  - change (-1 <? 0) with true. cbv iota.
    destruct (alloc_fill _ (Some ip) _ _ Hi Hno) as (i & old & s1 & E & G & _ & S1 & T & W1 & Hfill); [done|].
    rewrite (bind_ok _ _ _ _ _ E), (bind_ok _ _ _ _ _ G).
    set (e := old <| a_ip := ip |> <| a_mac := mac |> <| a_state := ARP_RESOLVED |>).
    destruct (Hfill e eq_refl Hm) as (Hi2 & He & Hk). exists (put i e s1). split; [done|]. split; [done|]. split; [done|].
    split; [done|]. split; [by exists e|done].
  - rewrite (proj2 (Z.ltb_ge _ _)) by lia. rewrite (bind_ok _ _ _ i s) by done. rewrite (bind_ok _ _ _ _ _ (get_entry_ok _ _ _ Ho)).
    set (e := old <| a_ip := ip |> <| a_mac := mac |> <| a_state := ARP_RESOLVED |>). destruct Hof as [Hl Hip].
    exists (put i e s). split; [done|]. split; [|split; [by apply sent_refl|split; [done|split]]].
    + apply (inv_put None (Some ip) i old); try done.
      * intros _ j e' Hj He' [Hl' Hip']. apply Hj. apply (ai_one _ _ Hi j i e' old); try done. by rewrite Hip, Hip'.
      * intros q Hq Hu Hb. split; [done|]. intros Hx. congruence.
    + exists e. split; [|by split]. apply (zget_elem _ i). cbn. apply zget_zset_eq. by eapply zget_Some_range.
    + intros h. by left.
Qed.

(** The address and the hardware address that a frame tells, if it is ARP over Ethernet for IPv4. *)
Definition learned (frame : list Z) : option (Z * list Z) :=
  let arp := slice frame ETH_HEADER ARP_SIZE in
  if (ETH_HEADER + ARP_SIZE <=? zlen frame) && (get16 arp 0 =? 1) && (get16 arp 2 =? ETHERTYPE_IP)
  then Some (le32 arp 14, slice arp 8 6) else None.

Lemma arp_input_ok s frame : arp_inv None s ->
  exists s' w, arp_input frame s = Some (tt, s') /\ arp_inv None s' /\ sent s s' w /\
    match learned frame with
    | Some (ip, mac) => waiting s' ip = [] /\ (frame_to s mac <$> waiting s ip) `prefix_of` w /\ forall h, h <> ip -> kept s s' h
    | None => s' = s /\ w = []
    end.
Proof.
  intros Hi. unfold arp_input, learned. destruct (Z.ltb_spec (zlen frame) (ETH_HEADER + ARP_SIZE)) as [Hs|Hs].
  { rewrite (proj2 (Z.leb_gt _ _)) by lia. exists s, []. do 2 (split; [done|]). split; [by apply sent_refl|done]. }
  rewrite (proj2 (Z.leb_le _ _)) by lia. cbv zeta. set (arp := slice frame ETH_HEADER ARP_SIZE). cbn [andb].
  assert (Ha : zlen arp = 28) by (apply zlen_slice; unfold ETH_HEADER, ARP_SIZE in *; lia).
  destruct (get16 arp 0 =? 1); [|exists s, []; do 2 (split; [done|]); split; [by apply sent_refl|done]].
  destruct (get16 arp 2 =? ETHERTYPE_IP); [|exists s, []; do 2 (split; [done|]); split; [by apply sent_refl|done]]. cbn [andb orb negb].
  set (ip := le32 arp 14). set (mac := slice arp 8 6). assert (Hm : zlen mac = 6) by (apply zlen_slice; lia).
  destruct (update_ok s ip mac Hi Hm) as (s1 & E1 & Hi1 & S1 & W1 & Hres & Hk1). rewrite (bind_ok _ _ _ _ _ E1).
  destruct (flush_ok s1 ip mac Hi1 Hres) as (d & E2 & Hi2 & S2). rewrite (bind_ok _ _ _ _ _ E2). set (s2 := dropped ip (with_dev d s1)) in *.
  assert (Hw2 : waiting s2 ip = [] /\ forall h, h <> ip -> kept s s2 h).
  { split; [unfold s2; rewrite waiting_dropped; by rewrite decide_True|]. intros h Hh. unfold kept, s2.
    rewrite waiting_dropped, decide_False by done. apply Hk1. }
  assert (Hsent : sent s s2 (frame_to s mac <$> waiting s ip)).
  { rewrite W1 in S2. apply (sent_trans _ _ _ [] _ S1). unfold frame_to in *. by rewrite (proj1 S1) in S2. }
  destruct Hw2 as [Hw2 Hk2]. destruct (_ && _); [|eexists s2, _; do 3 (split; [done|]); by do 2 (split; [done|])].
  destruct (send_ok s2 mac ETHERTYPE_ARP (arp_packet 2 (dev_mac (dev s)) LOCAL_IP mac ip)) as (r & d' & E3 & M3 & W3); [done| |].
  { rewrite arp_packet_len by (done || apply dev_mac_len). done. }
  rewrite (bind_ok _ _ _ _ _ E3). eexists (with_dev d' s2), _. split; [done|]. split; [by apply inv_dev|].
  split; [eapply sent_trans; [done|by split]|]. split; [done|]. split; [by apply prefix_app_r|done].
Qed.

(** ** Retrying *)

Lemma no_entry_put i e old s hop : zget (arp_cache s) i = Some old -> (entry_of hop e -> entry_of hop old) -> no_entry s hop ->
  no_entry (put i e s) hop.
Proof.
  intros Ho He Hno e' He' Hof. apply elem_of_zget in He' as [j Hj]. cbn in Hj. rewrite zget_zset in Hj. case_decide as Hd.
  - simplify_eq. apply (Hno old); [by eapply zget_elem|auto].
  - apply (Hno e'); [by eapply zget_elem|done].
Qed.

Lemma kept_trans s s1 s2 h : kept s s1 h -> kept s1 s2 h -> (no_entry s1 h -> no_entry s2 h) -> kept s s2 h.
Proof. unfold kept. intros [E1|[E1 N1]] [E2|[E2 N2]] Hn; rewrite ?E2, ?E1; auto. Qed.

Lemma tick_loop_ok n now : forall i s, arp_inv None s -> 0 <= i -> i + Z.of_nat n = ARP_CACHE_SIZE ->
  exists s' w, tick_loop n i now s = Some (tt, s') /\ arp_inv None s' /\ sent s s' w /\
    forall h, kept s s' h /\ (no_entry s h -> no_entry s' h).
Proof.
  induction n as [|n IH]; intros i s Hi Hr Hn.
  { exists s, []. split; [done|]. split; [done|]. split; [by apply sent_refl|]. intros h. split; [by left|done]. }
  cbn [tick_loop]. destruct (zget_is_Some (arp_cache s) i) as [e He]; [rewrite (ai_cache _ _ Hi); lia|].
  rewrite (bind_ok _ _ _ _ _ (get_entry_ok _ _ _ He)). pose proof (ai_mac _ _ Hi) as Hm. rewrite Forall_forall in Hm.
  specialize (Hm e (zget_elem _ _ _ He)).
  match goal with |- context [st_bind ?m _ s] => assert (Hstep : exists s1 w1, m s = Some (tt, s1) /\ arp_inv None s1 /\ sent s s1 w1 /\
    forall h, kept s s1 h /\ (no_entry s h -> no_entry s1 h)) end.
  - assert (Hskip : exists s1 w1, st_ret tt s = Some (tt, s1) /\ arp_inv None s1 /\ sent s s1 w1 /\
      forall h, kept s s1 h /\ (no_entry s h -> no_entry s1 h)).
    { exists s, []. split; [done|]. split; [done|]. split; [by apply sent_refl|]. intros h. split; [by left|done]. }
    case_bool_decide as Hp; cbn [negb]; [|exact Hskip]. destruct (_ <? ARP_RETRY_TICKS); [exact Hskip|].
    assert (Hl : live e) by (unfold live; by rewrite Hp). destruct (_ <=? tries e).
    + set (e' := e <| a_state := ARP_FREE |>). exists (put i e' (dropped (a_ip e) s)), []. split; [done|].
      assert (Hi' : arp_inv None (put i e' (dropped (a_ip e) s))).
      { apply (inv_put None None i e); try done; [by apply inv_dropped|]. intros q Hq Hu _. split; [done|]. intros Hip _.
        cbn in Hq. apply list_elem_of_fmap in Hq as (q0 & -> & Hq). destruct (clear_used _ _ Hu) as [E [_ Hne]]. rewrite E in Hip. done. }
      split; [done|]. split; [by apply sent_refl|]. intros h.
      assert (Hmono : no_entry s h -> no_entry (put i e' (dropped (a_ip e) s)) h) by (apply (no_entry_put i e' e (dropped (a_ip e) s)); [done|by intros [? _]]).
      split; [|done]. unfold kept. rewrite waiting_put, waiting_dropped. case_decide as Hh; [|by left]. right. split; [done|]. subst h.
      intros e1 He1 [L1 I1]. apply elem_of_zget in He1 as [j Hj]. cbn in Hj. rewrite zget_zset in Hj. case_decide as Hd; [by simplify_eq|].
      assert (j = i) as -> by by apply (ai_one _ _ Hi j i e1 e). apply Hd. split; [done|]. by eapply zget_Some_range.
    + set (e' := e <| tries := u8 (tries e + 1) |> <| last_req := now |>). rewrite (bind_ok _ _ _ tt (put i e' s)) by done.
      destruct (request_ok (put i e' s) (a_ip e)) as (d & w & R & Rm & Rw). exists (with_dev d (put i e' s)), w. split; [done|].
      split. { apply inv_dev, (inv_put None None i e); try done. intros _ j e1 Hj He1 [L1 I1]. apply Hj. by apply (ai_one _ _ Hi j i e1 e). }
      split; [by split|]. intros h. split; [by left|]. by apply (no_entry_put i e' e s).
  - destruct Hstep as (s1 & w1 & E & Hi1 & S1 & Hk1). rewrite (bind_ok _ _ _ _ _ E).
    destruct (IH (i + 1) s1) as (s' & w & E' & Hi' & S' & Hk'); [done|lia|lia|]. exists s', (w1 ++ w). split; [done|]. split; [done|].
    split; [by eapply sent_trans|]. intros h. destruct (Hk1 h), (Hk' h). split; [by eapply kept_trans|auto].
Qed.

(** ** The theorems *)

(** What a step means for the packets of [hop], when the card sends [w] in it. *)
Definition outcome (st : arp_step) (s s' : net) (w : list (list Z)) (hop : Z) : Prop :=
  match st with
  | Transmit to etype payload =>
      if decide (hop = to) then
        (exists e, e ∈ arp_cache s /\ entry_of hop e /\ a_state e = ARP_RESOLVED /\ w = [frame_to s (a_mac e) (etype, payload)]) /\
          waiting s' hop = waiting s hop \/
        (exists e, e ∈ arp_cache s' /\ a_state e = ARP_PENDING /\ a_ip e = hop) /\
          (waiting s' hop ≡ₚ (etype, payload) :: waiting s hop \/
           Forall (fun q => used q = true) (arp_queue s) /\ waiting s' hop = waiting s hop)
      else kept s s' hop
  | Receive frame =>
      match learned frame with
      | Some (ip, mac) =>
          if decide (hop = ip) then waiting s' hop = [] /\ (frame_to s mac <$> waiting s hop) `prefix_of` w else kept s s' hop
      | None => waiting s' hop = waiting s hop /\ w = []
      end
  | Retry => kept s s' hop
  | Advance _ => waiting s' hop = waiting s hop /\ w = []
  end.

Lemma step_ok s st : arp_inv None s -> sendable st ->
  exists s' w, arp_do st s = Some (tt, s') /\ arp_inv None s' /\ sent s s' w /\ forall hop, outcome st s s' w hop.
Proof.
  intros Hi Hs. destruct st as [to etype payload|frame| |now]; cbn [arp_do outcome].
  - destruct (net_tx_ok s to etype payload Hi Hs) as (r & s' & w & E & Hi' & S & Ho & Hw). exists s', w.
    split; [by rewrite (bind_ok _ _ _ _ _ E)|]. do 2 (split; [done|]). intros hop. case_decide as Hd; [by subst|auto].
  - destruct (arp_input_ok s frame Hi) as (s' & w & E & Hi' & S & Ho). exists s', w. do 3 (split; [done|]). intros hop.
    destruct (learned frame) as [[ip mac]|]; [|by destruct Ho as [-> ->]]. destruct Ho as (H1 & H2 & H3). case_decide; [by subst|auto].
  - unfold arp_tick. rewrite (bind_ok _ _ _ (get_tick s) s) by done.
    destruct (tick_loop_ok (Z.to_nat ARP_CACHE_SIZE) (get_tick s) 0 s Hi) as (s' & w & E & Hi' & S & Hk); [done|done|].
    exists s', w. do 3 (split; [done|]). intros hop. apply Hk.
  - exists (s <| get_tick := now |>), []. split; [done|]. split; [by apply inv_tick|]. split; [by apply sent_refl|done].
Qed.

Lemma run_ok l s : arp_inv None s -> Forall sendable l -> exists s', arp_run l s = Some (tt, s') /\ arp_inv None s'.
Proof.
  intros Hi Hl. revert s Hi. induction Hl as [|st l Hs _ IH]; intros s Hi; [by exists s|].
  destruct (step_ok s st Hi Hs) as (s1 & w & E & Hi1 & _). cbn [arp_run]. rewrite (bind_ok _ _ _ _ _ E). by apply IH.
Qed.

Lemma inv_init but d : arp_inv but (net_init d).
Proof.
  constructor; try done; cbn.
  - apply Forall_replicate. done.
  - apply Forall_replicate. split; [|cbn; unfold ETH_MTU; lia]. cbn. rewrite zlen_replicate. done.
  - intros i j e1 e2 E1 _ L1. exfalso. apply L1. apply zget_elem, elem_of_replicate_inv in E1. by rewrite E1.
  - intros q Hq Hu. apply elem_of_replicate_inv in Hq. by rewrite Hq in Hu.
Qed.

(** C13: A step of the ARP layer keeps every packet that waits for an address, with its type and
    bytes, unless the entry of that address goes. A packet to send leaves at once, to the
    address known for its hop, or joins those that wait for it while it is being asked for;
    it is lost only if the queue is full. When an address is learned, the packets that wait
    for it are sent there, each once and in the order of the queue, before anything else. *)
Theorem arp_step_correct s st : arp_inv None s -> sendable st ->
  exists s' w, arp_do st s = Some (tt, s') /\ arp_inv None s' /\ sent s s' w /\ forall hop, outcome st s s' w hop.
Proof. apply step_ok. Qed.

(** C28: From the start of the program on, whatever is sent and arrives and however time passes,
    the ARP layer stays inside its tables, no address has two entries, and every packet that
    waits, waits for an address that is being asked for. *)
Theorem arp_runs_safe d l : Forall sendable l ->
  exists s', (let! _ := arp_resolve GATEWAY_IP in arp_run l) (net_init d) = Some (tt, s') /\ arp_inv None s'.
Proof.
  intros Hl. destruct (resolve_ok (net_init d) GATEWAY_IP) as (s1 & w & E & Hi & _); [apply inv_init| |].
  { intros e He [Hlive _]. apply elem_of_replicate_inv in He. by rewrite He in Hlive. }
  rewrite (bind_ok _ _ _ _ _ E). by apply run_ok.
Qed.
End arp.

(** ** A packet that waits for its hop, and the answer *)

Definition demo_arp_reply : list Z :=
  eth_frame [2; 1; 2; 3; 4; 5] demo_mac ETHERTYPE_ARP (arp_packet 2 demo_mac demo_ip [2; 1; 2; 3; 4; 5] LOCAL_IP).

Definition demo_events : list arp_step := [Transmit demo_ip ETHERTYPE_IP [1; 2]; Advance 150; Retry; Receive demo_arp_reply].

(** The gateway and the hop are asked for, twice each; then the packet leaves. *)
Example demo_waits :
  match (let! _ := arp_resolve GATEWAY_IP in arp_run demo_events) (net_init demo_card) with
  | Some (_, s) => (fun f => slice f 0 6) <$> dev_wire (dev s) = replicate 4 (replicate 6 255) ++ [demo_mac]
  | None => False
  end.
Proof. vm_compute. done. Qed.

Lemma arp_runs_safe_witness :
  exists s, (let! _ := arp_resolve GATEWAY_IP in arp_run demo_events) (net_init demo_card) = Some (tt, s) /\ arp_inv None s.
Proof.
  apply (arp_runs_safe demo_card demo_events). repeat (apply Forall_cons; split; [vm_compute; done|]). by apply Forall_nil.
Defined.

Lemma arp_step_correct_witness :
  exists s' w, arp_do (Transmit demo_ip ETHERTYPE_IP [1; 2]) (net_init demo_card) = Some (tt, s') /\
    sent (net_init demo_card) s' w /\ waiting s' demo_ip = [(ETHERTYPE_IP, [1; 2])].
Proof.
  destruct (arp_step_correct (net_init demo_card) (Transmit demo_ip ETHERTYPE_IP [1; 2])) as (s' & w & E & _ & S & _);
    [apply inv_init|vm_compute; done|].
  exists s', w. split; [done|]. split; [done|]. vm_compute in E. by injection E as <-.
Defined.
